(* ===== verification/_CoqProject ===== *)
-Q . S2P
Prelude.v
TaskRel.v
ProcManage.v
ProcTree.v
ProcInvariant.v
ProcSystem.v
Schedulers.v
ProcTheorems.v
ThreadManage.v
ThreadInvariant.v
ThreadSystem.v
ThreadTheorems.v
Sync.v
KernelContext.v
ContextSwitch.v
Signal.v
Bytes.v
Memory.v
Linker.v
BlockStore.v
BlockCache.v
Bitmap.v
Layout.v
Console.v
FileData.v
FileGrowth.v
Efs.v
Vfs.v
Pipe.v
File.v
FileSpace.v
Sbi.v
Checker.v
Syscall.v
BatchKernel.v
TaskKernel.v
PageTable.v
AddressSpace.v
SpaceTree.v
SpaceMap.v
SpaceInvariant.v
PageManager.v
VmKernel.v
VmTheorems.v
VmIsolation.v
VmLoad.v
VmBoot.v
VmDemo.v
VmProperties.v
SpaceFamily.v
ForkKernel.v
ForkInvariant.v
ForkMaking.v
ForkCalls.v
ForkRounds.v
ForkProperties.v
Descriptors.v
DescCalls.v
FileKernel.v
FileProperties.v
FileDemo.v
IpcKernel.v
IpcCalls.v
IpcProperties.v
IpcDemo.v
User.v
UserProperties.v
SyncSyscalls.v
SyncInvariant.v
SyncTheorems.v
ThreadKernel.v
ThreadSpaces.v
ThreadTables.v
ThreadMaking.v
ThreadCalls.v
ThreadLife.v
ThreadRounds.v
ThreadProperties.v
ThreadDemo.v
