(* ===== verification/Prelude.v ===== *)
(** * A verification of the rCore tutorial kernels

    The repository holds the crates of an operating system course and the kernels of its eight chapters, under
    [src/part1/tg-rcore-tutorial-*]; file names below leave that prefix out.  This library models the logic of those
    crates and kernels as executable definitions and proves what makes each of them correct.

    ** The parts, and where they are

    - Vocabulary: Prelude.v (outcomes, state passing, machine integers), Bytes.v (little-endian data, [repr(C)]
      structures), Memory.v (physical memory reached through raw pointers).
    - [task-manage]: TaskRel.v (the relation of one process: parent, living and dead children and threads), ProcManage.v
      ([PManager], the traits [Manage] and [Schedule] as classes), ProcTree.v and ProcInvariant.v (the family tree and the
      invariant), ProcSystem.v and ProcTheorems.v (every run of the process system); ThreadManage.v, ThreadInvariant.v,
      ThreadSystem.v and ThreadTheorems.v do the same for [PThreadManager].  Schedulers.v has the managers of the kernels
      (stride of ch5 and ch6, FIFO of ch7 and ch8), which discharge the promises of the traits.
    - [sync]: Sync.v (interrupt masking, cells, mutex, semaphore, condition variable).  The kernel of ch8 around them, its
      system calls, its trap handling and its scheduling loop: SyncSyscalls.v, SyncInvariant.v, SyncTheorems.v.
    - [kernel-context]: KernelContext.v (contexts, the portal), ContextSwitch.v (the two naked functions, their assembly
      interpreted, with what [sret] does to [sstatus]).
    - [signal-defs], [signal], [signal-impl]: Signal.v.
    - [linker]: Linker.v.  [syscall]: Syscall.v (numbers, dispatch, time).  [console]: Console.v (printing, logging).
      [sbi] and the kernel of ch1: Sbi.v (calls to the firmware, the machine-mode handler that comes without one).
      [checker]: Checker.v (what the course asks of the output of each chapter).
    - Kernels of ch2 and ch3: BatchKernel.v and TaskKernel.v.
    - [kernel-vm], [kernel-alloc] and the kernel of ch4: PageTable.v (interface to the page tables and the heap),
      AddressSpace.v (the operations on page tables in memory), SpaceTree.v, SpaceMap.v and SpaceInvariant.v (the finite
      map the tables stand for, and well-formedness), PageManager.v, VmKernel.v (processes, loading, system calls, loops),
      VmTheorems.v, VmIsolation.v, VmLoad.v, VmBoot.v (isolation), VmDemo.v and VmProperties.v.
    - The kernels of ch5, ch6 and ch7, which put the process manager, a scheduler and the address spaces together and share most
      of their code: SpaceFamily.v (the spaces of many processes), ForkKernel.v (what they share, over any
      scheduler, any addition to a process and any further state: processes, fork, wait and other calls, a system call, a
      round, the loop, booting; then the kernel of ch5 with exec and spawn from a table of programs), ForkInvariant.v (process
      tables and spaces agree), ForkMaking.v (new processes), ForkCalls.v (the shared calls), ForkRounds.v (every round),
      ForkProperties.v (ch5).  Descriptors.v and DescCalls.v have what ch6 and ch7 share on top: descriptors,
      read, write, open, close, exec and spawn from the disk.  FileKernel.v, FileProperties.v and FileDemo.v are
      ch6; IpcKernel.v (pipes, signals, their handling in the loop), IpcCalls.v, IpcProperties.v and IpcDemo.v are ch7.
    - The kernel of ch8, over SyncSyscalls.v: ThreadKernel.v (every other system call, on the process of the running thread,
      threads with stacks, the start and the loop), ThreadSpaces.v (the search for a stack, and the space after it),
      ThreadTables.v (the invariant: tables, spaces, and the [satp] of every thread), ThreadCalls.v (calls
      that make no process and no thread), ThreadMaking.v ([thread_create]), ThreadLife.v (fork and exec), ThreadRounds.v
      (every round), ThreadProperties.v and ThreadDemo.v.
    - [syscall/src/user.rs] and [user]: User.v (stubs and library functions as interaction trees), UserProperties.v.
    - [easy-fs]: BlockStore.v (interface between cache and file system), BlockCache.v (its implementation), Bitmap.v,
      Layout.v, FileData.v (files as arrays of bytes), FileGrowth.v (inodes that get or give back blocks), Efs.v, Vfs.v, Pipe.v,
      File.v, FileSpace.v (the spare blocks of a mounted file system, writing past the end, clearing).  This is the copy of
      ch6, whose inodes count links; ch7 and ch8 use the crate without [link] and [unlink] (inodes of 128 bytes), and
      their models reuse this one: their theorems hold for any contents of the disk.

    A component is proved against an interface (a class with its laws) and the code behind the interface discharges it:
    [Manage] and [Schedule] for the managers, [BlockDevice] and [BlockStore] for the disk, [PageManager] for address
    spaces, [ProcessTable], [MoreKept] and [ExtraKept] (what a chapter adds to a process and to the state, and what its calls may
    change of it for others) and [Descriptors] for the kernels.  Code outside the repository appears only as such a class ([Heap] and [PageTableCrate] for the
    [customizable_buddy] and [page_table] crates, [BinaryHeap] for the standard heap of ch5) or as an argument (the
    parser of program files, what a user program does between two traps).  Each class has a concrete instance that runs
    the examples.

    ** How code is modelled

    State is passed explicitly: [st S A] takes a state and gives an [outcome].  [Panic] is a Rust panic (a failed [unwrap]
    or [assert!], an index out of range, an overflow, [todo!]); the kernels are built with overflow checks, and the code
    that wraps says so.  [Hang] is a spin lock taken twice or fuel used up; every theorem that could run out of fuel says
    how much is enough (the number of pages of a range, of applications, of rounds), and then gives the result.  Integers
    are [Z] with the width written out; a conversion between widths is [as_usize], [as_u8] and so on.  References into
    kernel tables are valid as long as the table is not changed, as the borrow checker has it.

    A heap that has no page left stops the kernels ([handle_alloc_error]).  The theorems that allow this say that it
    happens only if the heap refuses a request before it has given a stated number of pages ([exhausted] in SpaceMap.v).

    ** What the theorems show

    - Processes: along every run the tables are consistent and no operation panics; every process but the first has a
      living parent; exit codes are delivered, once, to the parent; the stride scheduler picks the least stride and keeps
      the strides within bounds; a FIFO queue serves everyone.
    - Threads: the same for the threaded kernel; the exit of the last thread ends the process; [waittid].
    - Synchronisation: the mutex refines a lock with a queue, the semaphore counts; every system call of ch8 keeps a
      thread blocked exactly when one queue holds it, and which calls panic the kernel is known exactly.
    - Context switches: entering a thread and coming back restores every register, with and without a change of address
      space.  Signals: a handled signal redirects the thread and [sig_return] restores it; a stopped process stays so.
    - Batch and time-sharing kernels: every application is loaded, starts at its own place and gets the verdict of its run, in
      order; the scan over the task array equals a queue of
      unfinished tasks, gives every task its turn, and counts system calls per task.
    - Address spaces: booting loads every program into a process with pages of its own; along every run of memory calls
      every space stays well formed, no page belongs to two processes and a process that makes no call keeps every byte;
      [mmap], [munmap] and [sbrk] on every branch, [munmap] undoes [mmap], a copied space holds the same bytes in new
      frames; growing the heap into a mapped page stops the kernel.
    - Processes with address spaces: [fork] copies the space into new pages and files the child with its parent, [exec] puts
      a program into a new space of the same process, [wait] on every branch; over any number of rounds of the loops of ch5,
      ch6 and ch7, with any system calls, the tables and the spaces stay consistent and a process that did not run keeps
      every byte (in ch7 others may send it signals, and it loses none).
    - Processes with threads: [thread_create] on every branch, [fork] by any thread, booting from the disk; over any number of
      rounds of the loop of ch8 every thread runs in the space of its process, and a process none of whose threads ran
      keeps every byte and the contexts of its threads.
    - Processes with files, pipes and signals: what a process writes to a file it reads back into its memory, [open] and [exec]
      by name on every branch, descriptors out of range; bytes go through a pipe from one address space to another, what a
      pipe that is empty or full answers, [pipe] on every branch; a deadly signal ends its target.
    - Below and beside the kernels: what [print!] and [log!] put on the console, the SBI calls through the machine-mode
      handler, the kernel of ch1 from its greeting to shutdown, the verdict of the checker.
    - User library: every stub, those that wait included, and the dispatcher agree on number and arguments; the waiting loops; [pipe_write] in one process
      and [pipe_read] in another deliver a buffer in any interleaving.
    - Files: the cache is transparent, files are arrays of bytes, a write past the end takes as many spare blocks as
      it needs and leaves zeros in a gap, clearing gives all blocks back, other files keep their bytes, formatting and
      mounting give the same file system, directories list exactly the names [find] knows, a pipe delivers the bytes sent in order.

    Where the code does not do what it means to, a theorem states what it does: dead waiters, the argument of a handler,
    numbers of system calls and descriptors that index a table, undeclared flags, empty buffers and real-time signals that
    stop the kernel, inode numbers past the inode area, heaps that run into mapped pages, programs for another machine
    that [exec] cannot load.

    What a program does in user mode is a function of its context and the machine.  Isolation assumes of it what the
    hardware gives: it does not change [satp] and stores only to the pages that the tables of its space map ([user_mode]
    in ForkRounds.v, [thread_mode] in ThreadRounds.v; the accessed and dirty bits of entries are not written).  The calls
    of ch4 to ch8 are taken with addresses in the lower half and buffers within one page, since the kernels translate only the first page of a buffer;
    a call beyond that can reach memory of others, which the findings list.

    ** What is not modelled

    Device drivers ([virtio_block.rs]), the heap and the test programs of the user library, build scripts, the assembly
    that boots a kernel or enters machine mode, and the firmware: input and output, or code that runs elsewhere.  The
    kernels of ch2 to ch8 keep the bytes that programs print in their state; their log lines are left out.  The inline assembly around
    [execute_naked] in [LocalContext::execute] is not run; the theorems on context switches start with its CSRs in place.

    Of ch8 everything but the drivers is modelled.  Isolation in ch8 takes [exec] as the code documents it, by the only
    thread of a process: with more, the others would go on in tables that the process gave up.  It is stated for the
    tables without their ready queue, since an unlock can put a dead thread there (SyncTheorems.v). *)

From stdpp Require Export base numbers list gmap.
From Stdlib Require Export ZArith Lia.

Open Scope Z_scope.

(** ** Outcomes of Rust code

    [Done a] is a normal return, [Panic] a Rust panic (failed [unwrap],
    [assert!], index out of range, arithmetic overflow, [todo!]), [Hang] a spin
    lock taken twice by the same control flow. *)
Inductive outcome (A : Type) : Type :=
| Done (a : A)
| Panic
| Hang.
Arguments Done {A} a.
Arguments Panic {A}.
Arguments Hang {A}.

#[global] Instance outcome_ret : MRet outcome := fun A a => Done a.
#[global] Instance outcome_bind : MBind outcome := fun A B k m =>
  match m with
  | Done a => k a
  | Panic => Panic
  | Hang => Hang
  end.
#[global] Instance outcome_fmap : FMap outcome := fun A B f m =>
  match m with
  | Done a => Done (f a)
  | Panic => Panic
  | Hang => Hang
  end.

(** [Option::unwrap] / [expect]. *)
Definition unwrap {A} (o : option A) : outcome A :=
  match o with
  | Some a => Done a
  | None => Panic
  end.

(** [assert!]. *)
Definition rassert (b : bool) : outcome unit := if b then Done () else Panic.

(** ** State-passing code that may panic *)
Definition st (S A : Type) : Type := S → outcome (A * S).

#[global] Instance st_ret {S} : MRet (st S) := fun A a s => Done (a, s).
#[global] Instance st_bind {S} : MBind (st S) := fun A B k m s =>
  match m s with
  | Done (a, s') => k a s'
  | Panic => Panic
  | Hang => Hang
  end.

(** A computation that does not touch the state. *)
Definition lift {S A} (m : outcome A) : st S A := fun s =>
  match m with
  | Done a => Done (a, s)
  | Panic => Panic
  | Hang => Hang
  end.

Definition get_st {S} : st S S := fun s => Done (s, s).
Definition put_st {S} (s : S) : st S unit := fun _ => Done ((), s).

Lemma bind_Done {A B} (m : outcome A) (k : A → outcome B) (b : B) :
  (m ≫= k) = Done b ↔ ∃ a, m = Done a ∧ k a = Done b.
Proof. destruct m; simpl; naive_solver. Qed.

Lemma st_bind_Done {S A B} (m : st S A) (k : A → st S B) (s : S) (r : B * S) :
  (m ≫= k) s = Done r ↔ ∃ a s', m s = Done (a, s') ∧ k a s' = Done r.
Proof. unfold mbind, st_bind. destruct (m s) as [[a s']| |]; naive_solver. Qed.

Lemma st_bind_run {S A B} (m : st S A) (k : A → st S B) (s s' : S) (a : A) :
  m s = Done (a, s') → (m ≫= k) s = k a s'.
Proof. unfold mbind, st_bind. by intros ->. Qed.

Lemma st_bind_Panic {S A B} (m : st S A) (k : A → st S B) (s : S) : m s = Panic → (m ≫= k) s = Panic.
Proof. unfold mbind, st_bind. by intros ->. Qed.

(** For examples: a run answered, and its state. *)
Definition returned {A} (o : outcome A) : bool := if o is Done _ then true else false.
Definition state_after {S A} (d : S) (o : outcome (A * S)) : S := if o is Done (_, s) then s else d.
Lemma state_after_eq {S A} (d : S) (o : outcome (A * S)) a s : o = Done (a, s) → state_after d o = s.
Proof. by intros ->. Qed.

Lemma lift_run {S A} (m : outcome A) a (s : S) : m = Done a → lift m s = Done (a, s).
Proof. by intros ->. Qed.

Lemma unwrap_Done {A} (o : option A) (a : A) : unwrap o = Done a ↔ o = Some a.
Proof. destruct o; simpl; naive_solver. Qed.

Lemma rassert_Done (b : bool) (u : unit) : rassert b = Done u ↔ b = true.
Proof. destruct b, u; simpl; naive_solver. Qed.

(** Decompose the successful runs found in the context. *)
Ltac inv_run :=
  repeat match goal with
  | H : (_ ≫= _) = Done _ |- _ =>
      let a := fresh "a" in let E := fresh "E" in
      apply bind_Done in H; destruct H as (a & E & H)
  | H : (_ ≫= _) _ = Done _ |- _ =>
      let a := fresh "a" in let s := fresh "s" in let E := fresh "E" in
      apply st_bind_Done in H; destruct H as (a & s & E & H)
  | H : unwrap _ = Done _ |- _ => apply unwrap_Done in H
  | H : rassert _ = Done _ |- _ => apply rassert_Done in H
  | H : Done _ = Done _ |- _ => injection H as H; simplify_eq
  | H : Panic = Done _ |- _ => discriminate H
  | H : Hang = Done _ |- _ => discriminate H
  end; simplify_eq/=.

(** ** Machine integers

    Integers are kept as [Z]; the width is written where it matters. *)
Definition usize_max : Z := 2 ^ 64 - 1.
Definition u32_max : Z := 2 ^ 32 - 1.
Definition isize_max : Z := 2 ^ 63 - 1.
Definition isize_min : Z := - 2 ^ 63.

(** [as usize], [as u32], [as u8] on an integer value. *)
Definition as_usize (z : Z) : Z := z mod 2 ^ 64.
Definition as_u32 (z : Z) : Z := z mod 2 ^ 32.
Definition as_u8 (z : Z) : Z := z mod 2 ^ 8.
(** [as isize], [as i32] of an integer value (two's complement). *)
Definition as_isize (z : Z) : Z :=
  let r := z mod 2 ^ 64 in if r <? 2 ^ 63 then r else r - 2 ^ 64.
Definition as_i32 (z : Z) : Z :=
  let r := z mod 2 ^ 32 in if r <? 2 ^ 31 then r else r - 2 ^ 32.

Lemma as_isize_small z : 0 ≤ z < 2 ^ 63 → as_isize z = z.
Proof. intros Hz. unfold as_isize. rewrite Z.mod_small by lia. by rewrite (proj2 (Z.ltb_lt _ _)) by lia. Qed.

Definition is_usize (z : Z) : Prop := 0 ≤ z ≤ usize_max.
Definition is_u32 (z : Z) : Prop := 0 ≤ z ≤ u32_max.
Definition is_isize (z : Z) : Prop := isize_min ≤ z ≤ isize_max.

(** Overflow-checked arithmetic (the kernels are built with overflow checks). *)
Definition checked (lo hi z : Z) : outcome Z :=
  if (lo <=? z) && (z <=? hi) then Done z else Panic.
Definition usize_add (a b : Z) : outcome Z := checked 0 usize_max (a + b).
Definition usize_sub (a b : Z) : outcome Z := checked 0 usize_max (a - b).
Definition usize_mul (a b : Z) : outcome Z := checked 0 usize_max (a * b).
Definition u32_add (a b : Z) : outcome Z := checked 0 u32_max (a + b).
Definition u32_sub (a b : Z) : outcome Z := checked 0 u32_max (a - b).
Definition isize_add (a b : Z) : outcome Z := checked isize_min isize_max (a + b).
Definition isize_sub (a b : Z) : outcome Z := checked isize_min isize_max (a - b).

Lemma checked_ok lo hi z : lo ≤ z ≤ hi → checked lo hi z = Done z.
Proof.
  intros. unfold checked.
  by rewrite (proj2 (Z.leb_le lo z)), (proj2 (Z.leb_le z hi)) by lia.
Qed.

Lemma checked_Done lo hi z r : checked lo hi z = Done r ↔ r = z ∧ lo ≤ z ≤ hi.
Proof.
  unfold checked.
  destruct (lo <=? z) eqn:?, (z <=? hi) eqn:?; simpl; split; intros H;
    try discriminate; try (injection H as <-); try (split; [done|lia]); try lia.
  by destruct H as [-> _].
Qed.

(** [u32::div_ceil] and [usize::div_ceil]. *)
Definition div_ceil (a b : Z) : Z := if a mod b =? 0 then a / b else a / b + 1.

Lemma div_ceil_eq a b : 0 < b → div_ceil a b = (a + b - 1) / b.
Proof.
  intros Hb. unfold div_ceil.
  pose proof (Z.div_mod a b ltac:(lia)).
  pose proof (Z.mod_pos_bound a b Hb).
  destruct (a mod b =? 0) eqn:E.
  - apply Z.eqb_eq in E. apply (Z.div_unique _ _ _ (b - 1)); lia.
  - apply Z.eqb_neq in E. apply (Z.div_unique _ _ _ (a mod b - 1)); lia.
Qed.

Lemma div_ceil_bounds a b :
  0 < b → b * (div_ceil a b - 1) < a ≤ b * div_ceil a b.
Proof.
  intros Hb. unfold div_ceil.
  pose proof (Z.div_mod a b ltac:(lia)).
  pose proof (Z.mod_pos_bound a b Hb).
  destruct (a mod b =? 0) eqn:E; [apply Z.eqb_eq in E|apply Z.eqb_neq in E]; nia.
Qed.

(** ** Vectors and queues

    A [Vec] or [VecDeque] is a list, front first. *)

(** [Vec::pop]: the last element and the vector without it. *)
Definition vec_pop {A} (l : list A) : option A * list A :=
  match last l with
  | Some x => (Some x, removelast l)
  | None => (None, l)
  end.

(** [VecDeque::pop_front]. *)
Definition pop_front {A} (l : list A) : option A * list A :=
  match l with
  | [] => (None, [])
  | x :: l' => (Some x, l')
  end.

Lemma vec_pop_None {A} (l l' : list A) : vec_pop l = (None, l') → l = [] ∧ l' = [].
Proof.
  unfold vec_pop. destruct l as [|x l] using rev_ind; simpl.
  - naive_solver.
  - rewrite last_snoc. naive_solver.
Qed.

Lemma vec_pop_snoc {A} (l : list A) (x : A) : vec_pop (l ++ [x]) = (Some x, l).
Proof. unfold vec_pop. rewrite last_snoc. f_equal. apply removelast_last. Qed.

Lemma vec_pop_Some {A} (l l' : list A) (x : A) :
  vec_pop l = (Some x, l') → l = l' ++ [x].
Proof.
  destruct l as [|y l _] using rev_ind; [done|].
  rewrite vec_pop_snoc. naive_solver.
Qed.

(** [delete i l] (stdpp) is [Vec::remove i] in range: the other elements keep
    their order. *)
Lemma delete_Permutation' {A} (l : list A) (i : nat) (x : A) :
  l !! i = Some x → l ≡ₚ x :: delete i l.
Proof. apply delete_Permutation. Qed.

Lemma NoDup_app_comm {A} (l k : list A) : NoDup (l ++ k) ↔ NoDup (k ++ l).
Proof. by rewrite (Permutation_app_comm l k). Qed.

(** [if let Some(x) = map.get_mut(&k)]: [alter]. *)
Lemma alter_absent {A} (f : A → A) (m : gmap Z A) (k : Z) : m !! k = None → alter f k m = m.
Proof. intros Hk. apply partial_alter_id. by rewrite Hk. Qed.

Lemma alter_present {A} (f : A → A) (m : gmap Z A) (k : Z) (x : A) :
  m !! k = Some x → alter f k m = <[k := f x]> m.
Proof. intros Hk. apply partial_alter_ext. intros y <-. by rewrite Hk. Qed.

(** Permutations decide [NoDup] and membership facts. *)
Ltac perm_solve :=
  first [ solve_Permutation
        | rewrite ?app_nil_r, ?app_assoc in *; solve_Permutation ].

Create HintDb ai4os.
#[export] Hint Resolve NoDup_nil_2 NoDup_singleton : ai4os.
