(* ===== verification/TaskRel.v ===== *)
(** * Process and thread relations

    Models [tg-rcore-tutorial-task-manage/src/proc_rel.rs] ([ProcRel]) and
    [proc_thread_rel.rs] ([ProcThreadRel]): the bookkeeping of living children,
    of exited children whose exit code has not been collected yet, and, for the
    threaded kernel, the same for threads.

    Ids ([ProcId], [ThreadId], [id.rs]) are [usize] values, here [Z]. *)

From S2P Require Import Prelude.

Abbreviation ProcId := Z (only parsing).
Abbreviation ThreadId := Z (only parsing).

(** ** The two list transformations both structs share

    [Iterator::position]-style lookups are [list_find]: the first index whose
    element satisfies the test. *)

(** [children.iter().enumerate().find(id == child_pid)], then [remove] and
    [push] onto the dead list; nothing when the id is absent. *)
Definition bury (id code : Z) (living : list Z) (dead : list (Z * Z)) :
    list Z * list (Z * Z) :=
  match list_find (eq id) living with
  | Some (idx, _) =>
      (delete idx living, dead ++ [(default id (living !! idx), code)])
  | None => (living, dead)
  end.

(** Lookup of an id among the dead: the first entry carrying it. *)
Definition find_dead (id : Z) (dead : list (Z * Z)) : option (nat * (Z * Z)) :=
  list_find (fun p => p.1 = id) dead.

(** [ProcId::from_usize(-2 as _)]: the "still running" marker. *)
Definition still_running : Z := as_usize (-2).

Section Bury.
Implicit Types (living : list Z) (dead : list (Z * Z)).

(** All ids known to a relation, living first. *)
Definition known living dead : list Z := living ++ dead.*1.

Lemma bury_known id code living dead :
  known (bury id code living dead).1 (bury id code living dead).2
    ≡ₚ known living dead.
Proof.
  unfold bury, known.
  destruct (list_find (eq id) living) as [[i y]|] eqn:E; simpl; [|done].
  apply list_find_Some in E as (Hi & <- & _). rewrite Hi; simpl.
  rewrite fmap_app; simpl. rewrite (delete_Permutation living i id Hi) at 2.
  rewrite app_assoc, Permutation_app_comm. done.
Qed.

Lemma bury_present id code living dead :
  id ∈ living →
  (bury id code living dead).2 = dead ++ [(id, code)] ∧
  living ≡ₚ id :: (bury id code living dead).1.
Proof.
  intros Hin. unfold bury.
  destruct (list_find (eq id) living) as [[i y]|] eqn:E; simpl.
  - apply list_find_Some in E as (Hi & <- & _). rewrite Hi. split; [done|].
    by apply delete_Permutation.
  - apply list_find_None in E. rewrite Forall_forall in E.
    exfalso. by apply (E id Hin).
Qed.

Lemma bury_absent id code living dead :
  id ∉ living → bury id code living dead = (living, dead).
Proof.
  intros Hin. unfold bury.
  destruct (list_find (eq id) living) as [[i y]|] eqn:E; [|done].
  apply list_find_Some in E as (Hi & <- & _).
  exfalso. apply Hin. by apply list_elem_of_lookup_2 in Hi.
Qed.

Lemma find_dead_Some id dead i p :
  find_dead id dead = Some (i, p) →
  p.1 = id ∧ dead !! i = Some p ∧ dead ≡ₚ p :: delete i dead.
Proof.
  intros (Hi & Hp & _)%list_find_Some.
  auto using delete_Permutation.
Qed.

Lemma find_dead_None id dead : find_dead id dead = None ↔ id ∉ dead.*1.
Proof.
  unfold find_dead. rewrite list_find_None, Forall_forall.
  rewrite list_elem_of_fmap. naive_solver.
Qed.
End Bury.

(** ** [ProcRel] *)

Record ProcRel := mkProcRel {
  parent : ProcId;
  children : list ProcId;
  dead_children : list (ProcId * Z);
}.

Definition ProcRel_new (parent_pid : ProcId) : ProcRel := mkProcRel parent_pid [] [].

Definition ProcRel_add_child (child_pid : ProcId) (r : ProcRel) : ProcRel :=
  mkProcRel (parent r) (children r ++ [child_pid]) (dead_children r).

Definition ProcRel_set_parent (p : ProcId) (r : ProcRel) : ProcRel :=
  mkProcRel p (children r) (dead_children r).

Definition ProcRel_del_child (child_pid : ProcId) (exit_code : Z) (r : ProcRel) : ProcRel :=
  let '(ch, dead) := bury child_pid exit_code (children r) (dead_children r) in
  mkProcRel (parent r) ch dead.

Definition ProcRel_wait_any_child (r : ProcRel) : option (ProcId * Z) * ProcRel :=
  match dead_children r with
  | [] =>
      match children r with
      | [] => (None, r)
      | _ :: _ => (Some (still_running, -1), r)
      end
  | _ :: _ =>
      let '(d, rest) := vec_pop (dead_children r) in
      (d, mkProcRel (parent r) (children r) rest)
  end.

Definition ProcRel_wait_child (child_pid : ProcId) (r : ProcRel) :
    option (ProcId * Z) * ProcRel :=
  match find_dead child_pid (dead_children r) with
  | Some (idx, _) =>
      (dead_children r !! idx,
       mkProcRel (parent r) (children r) (delete idx (dead_children r)))
  | None =>
      match list_find (eq child_pid) (children r) with
      | Some _ => (Some (still_running, -1), r)
      | None => (None, r)
      end
  end.

(** Well-formed relation: no id is listed twice, living or dead. *)
Definition ProcRel_wf (r : ProcRel) : Prop := NoDup (known (children r) (dead_children r)).

(** ** [ProcThreadRel] *)

Record ProcThreadRel := mkProcThreadRel {
  pt_parent : ProcId;
  pt_children : list ProcId;
  pt_dead_children : list (ProcId * Z);
  threads : list ThreadId;
  dead_threads : list (ThreadId * Z);
}.

Definition ProcThreadRel_new (parent_pid : ProcId) : ProcThreadRel :=
  mkProcThreadRel parent_pid [] [] [] [].

Definition ProcThreadRel_add_child (child_pid : ProcId) (r : ProcThreadRel) : ProcThreadRel :=
  mkProcThreadRel (pt_parent r) (pt_children r ++ [child_pid]) (pt_dead_children r)
    (threads r) (dead_threads r).

Definition ProcThreadRel_set_parent (p : ProcId) (r : ProcThreadRel) : ProcThreadRel :=
  mkProcThreadRel p (pt_children r) (pt_dead_children r) (threads r) (dead_threads r).

Definition ProcThreadRel_del_child (child_pid : ProcId) (exit_code : Z)
    (r : ProcThreadRel) : ProcThreadRel :=
  let '(ch, dead) := bury child_pid exit_code (pt_children r) (pt_dead_children r) in
  mkProcThreadRel (pt_parent r) ch dead (threads r) (dead_threads r).

Definition ProcThreadRel_wait_any_child (r : ProcThreadRel) :
    option (ProcId * Z) * ProcThreadRel :=
  match pt_dead_children r with
  | [] =>
      match pt_children r with
      | [] => (None, r)
      | _ :: _ => (Some (still_running, -1), r)
      end
  | _ :: _ =>
      let '(d, rest) := vec_pop (pt_dead_children r) in
      (d, mkProcThreadRel (pt_parent r) (pt_children r) rest (threads r) (dead_threads r))
  end.

Definition ProcThreadRel_wait_child (child_pid : ProcId) (r : ProcThreadRel) :
    option (ProcId * Z) * ProcThreadRel :=
  match find_dead child_pid (pt_dead_children r) with
  | Some (idx, _) =>
      (pt_dead_children r !! idx,
       mkProcThreadRel (pt_parent r) (pt_children r) (delete idx (pt_dead_children r))
         (threads r) (dead_threads r))
  | None =>
      match list_find (eq child_pid) (pt_children r) with
      | Some _ => (Some (still_running, -1), r)
      | None => (None, r)
      end
  end.

Definition ProcThreadRel_add_thread (tid : ThreadId) (r : ProcThreadRel) : ProcThreadRel :=
  mkProcThreadRel (pt_parent r) (pt_children r) (pt_dead_children r)
    (threads r ++ [tid]) (dead_threads r).

Definition ProcThreadRel_del_thread (tid : ThreadId) (exit_code : Z)
    (r : ProcThreadRel) : ProcThreadRel :=
  let '(ths, dead) := bury tid exit_code (threads r) (dead_threads r) in
  mkProcThreadRel (pt_parent r) (pt_children r) (pt_dead_children r) ths dead.

Definition ProcThreadRel_wait_thread (thread_tid : ThreadId) (r : ProcThreadRel) :
    option Z * ProcThreadRel :=
  match find_dead thread_tid (dead_threads r) with
  | Some (idx, _) =>
      (snd <$> dead_threads r !! idx,
       mkProcThreadRel (pt_parent r) (pt_children r) (pt_dead_children r)
         (threads r) (delete idx (dead_threads r)))
  | None =>
      match list_find (eq thread_tid) (threads r) with
      | Some _ => (Some (-2), r)
      | None => (None, r)
      end
  end.

(** The process part of a [ProcThreadRel] is a [ProcRel]: the code of the two
    structs is the same, and so is its behaviour. *)
Definition proc_part (r : ProcThreadRel) : ProcRel :=
  mkProcRel (pt_parent r) (pt_children r) (pt_dead_children r).

Definition ProcThreadRel_wf (r : ProcThreadRel) : Prop :=
  ProcRel_wf (proc_part r) ∧ NoDup (known (threads r) (dead_threads r)).

Section ProcPart.
Implicit Types (r : ProcThreadRel) (id code : Z).

Lemma proc_part_add_child id r :
  proc_part (ProcThreadRel_add_child id r) = ProcRel_add_child id (proc_part r).
Proof. done. Qed.

Lemma proc_part_del_child id code r :
  proc_part (ProcThreadRel_del_child id code r) = ProcRel_del_child id code (proc_part r).
Proof. unfold ProcThreadRel_del_child, ProcRel_del_child, proc_part; simpl. by destruct bury. Qed.

Lemma proc_part_wait_any r :
  prod_map id proc_part (ProcThreadRel_wait_any_child r)
    = ProcRel_wait_any_child (proc_part r).
Proof.
  destruct r as [p ch [|d l] ths dths]; [by destruct ch|].
  unfold ProcThreadRel_wait_any_child, ProcRel_wait_any_child; simpl.
  by destruct (vec_pop (d :: l)).
Qed.

Lemma proc_part_wait id r :
  prod_map Datatypes.id proc_part (ProcThreadRel_wait_child id r)
    = ProcRel_wait_child id (proc_part r).
Proof.
  unfold ProcThreadRel_wait_child, ProcRel_wait_child; simpl.
  destruct (find_dead id (pt_dead_children r)) as [[i p]|]; [done|].
  by destruct (list_find _ _).
Qed.
End ProcPart.

(** ** Behaviour of the relation operations *)
Section RelLemmas.
Implicit Types (r : ProcRel) (id code : Z).

Lemma del_child_parent id code r : parent (ProcRel_del_child id code r) = parent r.
Proof. unfold ProcRel_del_child. by destruct bury. Qed.

Lemma del_child_known id code r :
  known (children (ProcRel_del_child id code r)) (dead_children (ProcRel_del_child id code r))
    ≡ₚ known (children r) (dead_children r).
Proof.
  pose proof (bury_known id code (children r) (dead_children r)) as H.
  unfold ProcRel_del_child. by destruct bury.
Qed.

Lemma del_child_present id code r :
  id ∈ children r →
  dead_children (ProcRel_del_child id code r) = dead_children r ++ [(id, code)] ∧
  children r ≡ₚ id :: children (ProcRel_del_child id code r).
Proof.
  intros Hin. pose proof (bury_present id code (children r) (dead_children r) Hin) as H.
  unfold ProcRel_del_child. by destruct bury.
Qed.

Lemma del_child_absent id code r : id ∉ children r → ProcRel_del_child id code r = r.
Proof.
  intros Hin. unfold ProcRel_del_child. rewrite bury_absent by done. by destruct r.
Qed.

Lemma wait_any_child_cases r :
  match ProcRel_wait_any_child r with
  | (None, r') => r' = r ∧ children r = [] ∧ dead_children r = []
  | (Some d, r') =>
      (r' = r ∧ d = (still_running, -1) ∧ dead_children r = [] ∧ children r ≠ []) ∨
      (parent r' = parent r ∧ children r' = children r ∧
       dead_children r = dead_children r' ++ [d])
  end.
Proof.
  unfold ProcRel_wait_any_child.
  destruct (dead_children r) as [|d l] eqn:E.
  - destruct (children r) eqn:Ec; naive_solver.
  - destruct (vec_pop (d :: l)) as [[d'|] rest] eqn:Ep.
    + apply vec_pop_Some in Ep. simpl. auto.
    + apply vec_pop_None in Ep. naive_solver.
Qed.

Lemma wait_child_cases id r :
  match ProcRel_wait_child id r with
  | (None, r') => r' = r ∧ id ∉ known (children r) (dead_children r)
  | (Some d, r') =>
      (r' = r ∧ d = (still_running, -1) ∧ id ∈ children r ∧ id ∉ (dead_children r).*1) ∨
      (parent r' = parent r ∧ children r' = children r ∧ d.1 = id ∧
       dead_children r ≡ₚ d :: dead_children r')
  end.
Proof.
  unfold ProcRel_wait_child, known.
  destruct (find_dead id (dead_children r)) as [[i p]|] eqn:E.
  - apply find_dead_Some in E as (<- & Hi & HP). rewrite Hi. simpl. auto.
  - apply find_dead_None in E.
    destruct (list_find (eq id) (children r)) as [[j c]|] eqn:Ef.
    + apply list_find_Some in Ef as (Hj & <- & _).
      apply list_elem_of_lookup_2 in Hj. auto.
    + apply list_find_None in Ef. rewrite Forall_forall in Ef.
      split; [done|]. rewrite elem_of_app. naive_solver.
Qed.

Lemma wf_new p : ProcRel_wf (ProcRel_new p).
Proof. apply NoDup_nil_2. Qed.

Lemma wf_add_child id r :
  id ∉ known (children r) (dead_children r) → ProcRel_wf r →
  ProcRel_wf (ProcRel_add_child id r).
Proof.
  unfold ProcRel_wf, known; simpl. intros Hn Hwf.
  rewrite <-app_assoc, (Permutation_app_comm (children r)). simpl.
  rewrite NoDup_cons, (Permutation_app_comm _ (children r)). auto.
Qed.

Lemma wf_del_child id code r : ProcRel_wf r → ProcRel_wf (ProcRel_del_child id code r).
Proof. unfold ProcRel_wf. by rewrite del_child_known. Qed.

Lemma wf_wait r d r' :
  ProcRel_wf r → children r' = children r →
  dead_children r ≡ₚ d :: dead_children r' → ProcRel_wf r'.
Proof.
  unfold ProcRel_wf, known. intros Hwf -> HP.
  rewrite HP in Hwf; simpl in Hwf.
  rewrite Permutation_app_comm in Hwf; simpl in Hwf.
  apply NoDup_cons in Hwf as [_ Hwf]. by rewrite Permutation_app_comm.
Qed.

Lemma wf_wait_any_child r : ProcRel_wf r → ProcRel_wf (ProcRel_wait_any_child r).2.
Proof.
  intros Hwf. pose proof (wait_any_child_cases r) as H.
  destruct (ProcRel_wait_any_child r) as [[d|] r']; simpl; [|by destruct H as [-> _]].
  destruct H as [[-> _]|(_ & Hc & Hd)]; [done|].
  apply (wf_wait r d r'); [done|done|]. by rewrite Hd, Permutation_app_comm.
Qed.

Lemma wf_wait_child id r : ProcRel_wf r → ProcRel_wf (ProcRel_wait_child id r).2.
Proof.
  intros Hwf. pose proof (wait_child_cases id r) as H.
  destruct (ProcRel_wait_child id r) as [[d|] r']; simpl; [|by destruct H as [-> _]].
  destruct H as [[-> _]|(_ & Hc & _ & Hd)]; [done|]. by apply (wf_wait r d r').
Qed.
End RelLemmas.

#[export] Hint Resolve wf_new wf_add_child wf_del_child wf_wait_any_child wf_wait_child : ai4os.
