(* ===== verification/ProcManage.v ===== *)
(** * The process manager

    Models [tg-rcore-tutorial-task-manage/src/{id,manager,scheduler,proc_manage}.rs]:
    the traits [Manage] and [Schedule] as classes (with what they promise as
    specification classes), the id counters, and [PManager] with all its
    operations.  [PManager] is proved correct against the trait promises; the
    kernels' managers discharge them in [Schedulers]. *)

From S2P Require Import Prelude TaskRel.

(** ** Ids ([id.rs])

    [ProcId::new] / [ThreadId::new] is [fetch_add(1)] on a static counter: the
    atomic addition wraps. *)
Definition ProcId_new (counter : Z) : ProcId * Z := (counter, as_usize (counter + 1)).
Definition ThreadId_new (counter : Z) : ThreadId * Z := (counter, as_usize (counter + 1)).

(** ** The traits *)

(** [Manage<T, I>]: [get_mut] hands out a reference; reading it is [m_get],
    writing through it is [m_update]. *)
Class Manage (M T : Type) := {
  m_insert : Z → T → M → M;
  m_delete : Z → M → M;
  m_get : Z → M → option T;
  m_update : Z → (T → T) → M → M;
}.

(** [Schedule<I>]; an implementation may panic. *)
Class Schedule (M : Type) := {
  s_add : Z → M → outcome M;
  s_fetch : M → outcome (option Z * M);
}.

(** What [PManager] and [PThreadManager] rely on. *)
Class ManageSpec (M T : Type) `{!Manage M T} := {
  tasks_of : M → gmap Z T;
  get_spec id m : m_get id m = tasks_of m !! id;
  insert_spec id t m : tasks_of (m_insert id t m) = <[id := t]> (tasks_of m);
  delete_spec id m : tasks_of (m_delete id m) = delete id (tasks_of m);
  update_spec id f m : tasks_of (m_update id f m) = alter f id (tasks_of m);
}.

Class ScheduleSpec (M T : Type) `{!Manage M T, !ManageSpec M T, !Schedule M} := {
  (** the ids waiting to run *)
  ready_of : M → list Z;
  (** what an implementation needs to know of the tasks before a [fetch] *)
  fetch_safe : M → Prop;
  ready_insert id t m : ready_of (m_insert id t m) = ready_of m;
  ready_delete id m : ready_of (m_delete id m) = ready_of m;
  ready_update id f m : ready_of (m_update id f m) = ready_of m;
  add_spec id m : id ∈ dom (tasks_of m) →
    ∃ m', s_add id m = Done m' ∧ tasks_of m' = tasks_of m ∧ ready_of m' ≡ₚ id :: ready_of m;
  fetch_spec m : fetch_safe m → (∀ id, id ∈ ready_of m → id ∈ dom (tasks_of m)) →
    ∃ r m', s_fetch m = Done (r, m') ∧ dom (tasks_of m') = dom (tasks_of m) ∧
      match r with
      | None => ready_of m = [] ∧ ready_of m' = []
      | Some id => ready_of m ≡ₚ id :: ready_of m'
      end;
}.

(** ** [PManager] *)

Record PManager (M : Type) := mkPManager {
  rel_map : gmap Z ProcRel;
  manager : option M;
  current : option ProcId;
}.
Arguments mkPManager {M} _ _ _.
Arguments rel_map {M} _.
Arguments manager {M} _.
Arguments current {M} _.

Section PManager.
Context {M T : Type} `{!Manage M T, !Schedule M}.
Implicit Types (pm : PManager M).

Definition PManager_new : PManager M := mkPManager ∅ None None.

Definition PManager_set_manager (mgr : M) (pm : PManager M) : PManager M :=
  mkPManager (rel_map pm) (Some mgr) (current pm).

(** The task reference returned is represented by its id. *)
Definition PManager_find_next (pm : PManager M) : outcome (option ProcId * PManager M) :=
  mgr ← unwrap (manager pm);
  '(r, mgr) ← s_fetch mgr;
  match r with
  | Some id =>
      match m_get id mgr with
      | Some _ => Done (Some id, mkPManager (rel_map pm) (Some mgr) (Some id))
      | None => Done (None, mkPManager (rel_map pm) (Some mgr) (current pm))
      end
  | None => Done (None, mkPManager (rel_map pm) (Some mgr) (current pm))
  end.

Definition PManager_make_current_suspend (pm : PManager M) : outcome (PManager M) :=
  id ← unwrap (current pm);
  mgr ← unwrap (manager pm);
  mgr ← s_add id mgr;
  Done (mkPManager (rel_map pm) (Some mgr) None).

(** [for i in children]: hand each child over to process 0. *)
Fixpoint PManager_reparent (cs : list ProcId) (rm : gmap Z ProcRel) : outcome (gmap Z ProcRel) :=
  match cs with
  | [] => Done rm
  | i :: cs' =>
      r ← unwrap (rm !! i);
      let rm := <[i := ProcRel_set_parent 0 r]> rm in
      z ← unwrap (rm !! 0);
      let rm := <[0 := ProcRel_add_child i z]> rm in
      PManager_reparent cs' rm
  end.

Definition PManager_make_current_exited (exit_code : Z) (pm : PManager M) : outcome (PManager M) :=
  id ← unwrap (current pm);
  mgr ← unwrap (manager pm);
  let mgr := m_delete id mgr in
  current_rel ← unwrap (rel_map pm !! id);
  let rm := delete id (rel_map pm) in
  let rm := alter (ProcRel_del_child id exit_code) (parent current_rel) rm in
  rm ← PManager_reparent (children current_rel) rm;
  Done (mkPManager rm (Some mgr) None).

Definition PManager_add (id : ProcId) (task : T) (parent : ProcId) (pm : PManager M) :
    outcome (PManager M) :=
  mgr ← unwrap (manager pm);
  let mgr := m_insert id task mgr in
  mgr ← s_add id mgr;
  rm ← (if parent =? usize_max then Done (rel_map pm)
        else pr ← unwrap (rel_map pm !! parent);
             Done (<[parent := ProcRel_add_child id pr]> (rel_map pm)));
  Done (mkPManager (<[id := ProcRel_new parent]> rm) (Some mgr) (current pm)).

Definition PManager_current (pm : PManager M) : outcome (option T) :=
  id ← unwrap (current pm);
  mgr ← unwrap (manager pm);
  Done (m_get id mgr).

Definition PManager_get_task (id : ProcId) (pm : PManager M) : outcome (option T) :=
  mgr ← unwrap (manager pm);
  Done (m_get id mgr).

Definition PManager_wait (child_pid : ProcId) (pm : PManager M) :
    outcome (option (ProcId * Z) * PManager M) :=
  id ← unwrap (current pm);
  current_rel ← unwrap (rel_map pm !! id);
  let '(res, rel) :=
    if child_pid =? usize_max then ProcRel_wait_any_child current_rel
    else ProcRel_wait_child child_pid current_rel in
  Done (res, mkPManager (<[id := rel]> (rel_map pm)) (manager pm) (current pm)).

End PManager.
