(* ===== verification/ProcTree.v ===== *)
(** * The family tree kept by the process manager

    The invariant of [rel_map] and its preservation by the three updates
    [PManager] makes: adding a process, removing an exiting one, collecting an
    exit code. *)

From S2P Require Import Prelude TaskRel ProcManage.

Implicit Types (rm : gmap Z ProcRel) (r : ProcRel) (id p c k : Z).

(** [p] lists [c] among its living children; [c] names [p] as its parent. *)
Definition lists rm p c : Prop := ∃ r, rm !! p = Some r ∧ c ∈ children r.
Definition claims rm c p : Prop := ∃ r, rm !! c = Some r ∧ parent r = p.

Record tree_ok rm : Prop := {
  (** parents are older than their children: the relation is a forest *)
  t_range k r : rm !! k = Some r →
    0 ≤ k < usize_max ∧ (parent r = usize_max ∨ 0 ≤ parent r < k);
  t_wf k r : rm !! k = Some r → ProcRel_wf r;
  (** parents and children agree *)
  t_fam p c : lists rm p c ↔ claims rm c p ∧ p ≠ usize_max;
  (** an uncollected dead child is gone from the map *)
  t_dead p r c : rm !! p = Some r → c ∈ (dead_children r).*1 → rm !! c = None;
}.

(** No relation mentions [id]. *)
Definition unknown id rm : Prop :=
  rm !! id = None ∧ ∀ k r, rm !! k = Some r → id ∉ known (children r) (dead_children r).

Lemma tree_ok_empty : tree_ok ∅.
Proof.
  split; try (intros *; by rewrite lookup_empty).
  intros p c. unfold lists, claims.
  split; [intros (? & H & _)|intros ((? & H & _) & _)]; by rewrite lookup_empty in H.
Qed.

Lemma lists_child rm p c : tree_ok rm → lists rm p c →
  ∃ rc, rm !! c = Some rc ∧ parent rc = p ∧ 0 ≤ p < c.
Proof.
  intros Ht Hl. destruct (proj1 (t_fam _ Ht _ _) Hl) as [(rc & Hrc & Hp) Hm].
  exists rc. destruct (t_range _ Ht _ _ Hrc) as [_ [?|?]]; [congruence|].
  by rewrite <-Hp.
Qed.

Lemma child_parent_unique rm p q c : tree_ok rm → lists rm p c → lists rm q c → p = q.
Proof.
  intros Ht (? & ? & <- & _)%(lists_child _ _ _ Ht) (? & ? & <- & _)%(lists_child _ _ _ Ht).
  by simplify_eq.
Qed.

(** ** Adding a process *)
Section Add.
Context (rm : gmap Z ProcRel) (id p : Z) (pr : ProcRel).
Context (Ht : tree_ok rm) (Hnew : unknown id rm) (Hid : 0 ≤ id < usize_max).

Lemma unknown_lists : ¬ (∃ q, lists rm q id) ∧ ¬ (∃ q, lists rm id q).
Proof.
  destruct Hnew as [Hn Hk]. split.
  - intros (q & r & Hq & Hin). apply (Hk q r Hq). unfold known. set_solver.
  - intros (q & r & Hq & _). congruence.
Qed.

Lemma tree_add_root : tree_ok (<[id := ProcRel_new usize_max]> rm).
Proof.
  destruct Hnew as [Hn Hk]. split.
  - intros k r [[<- <-]|[? H]]%lookup_insert_Some; [split; [lia|by left]|].
    by apply (t_range _ Ht).
  - intros k r [[<- <-]|[? H]]%lookup_insert_Some; [apply wf_new|]. by eapply t_wf.
  - intros q c. rewrite <-(and_comm (q ≠ usize_max)).
    assert (lists (<[id := ProcRel_new usize_max]> rm) q c ↔ lists rm q c) as ->.
    { unfold lists. setoid_rewrite lookup_insert_Some. split.
      - intros (r & [[<- <-]|[? ?]] & Hc); [by apply not_elem_of_nil in Hc|eauto].
      - intros (r & Hq & Hc). exists r. split; [right|done]. split; [congruence|done]. }
    rewrite (t_fam _ Ht). unfold claims. setoid_rewrite lookup_insert_Some. split.
    + intros ((r & Hc & Hp) & Hm). split; [done|]. exists r. split; [right|done].
      split; [congruence|done].
    + intros (Hm & r & [[<- <-]|[? ?]] & Hp); [by simpl in Hp|eauto].
  - intros q r c [[<- <-]|[? H]]%lookup_insert_Some Hc; [by apply not_elem_of_nil in Hc|].
    rewrite lookup_insert_ne; [by eapply (t_dead _ Ht)|].
    intros ->. eapply Hk; [exact H|]. unfold known. set_solver.
Qed.

Context (Hlt : p < id) (Hp : rm !! p = Some pr).

(** [rel_map] after [add] under an existing parent. *)
Definition with_child : gmap Z ProcRel :=
  <[id := ProcRel_new p]> (<[p := ProcRel_add_child id pr]> rm).

Lemma with_child_Some k r : with_child !! k = Some r ↔
  (k = id ∧ r = ProcRel_new p) ∨ (k = p ∧ r = ProcRel_add_child id pr) ∨
  (k ≠ id ∧ k ≠ p ∧ rm !! k = Some r).
Proof.
  unfold with_child. rewrite !lookup_insert_Some. split.
  - intros [[<- <-]|[? [[<- <-]|[? ?]]]]; auto.
  - intros [[-> ->]|[[-> ->]|(? & ? & ?)]]; [by left|right..]; split; auto; lia.
Qed.

Lemma with_child_lists q c : lists with_child q c ↔ lists rm q c ∨ (q = p ∧ c = id).
Proof.
  destruct Hnew as [Hn _]. unfold lists. setoid_rewrite with_child_Some. split.
  - intros (r & [[-> ->]|[[-> ->]|(? & ? & ?)]] & Hc); simpl in Hc;
      [by apply not_elem_of_nil in Hc| |eauto].
    apply elem_of_app in Hc as [Hc| ->%list_elem_of_singleton]; eauto.
  - intros [(r & Hq & Hc)|[-> ->]].
    + destruct (decide (q = p)) as [->|].
      * exists (ProcRel_add_child id pr). simplify_eq. simpl. set_solver.
      * exists r. split; [|done]. do 2 right. split; [congruence|done].
    + exists (ProcRel_add_child id pr). simpl. set_solver.
Qed.

Lemma with_child_claims q c : claims with_child c q ↔ claims rm c q ∨ (q = p ∧ c = id).
Proof.
  destruct Hnew as [Hn _]. unfold claims. setoid_rewrite with_child_Some. split.
  - intros (r & [[-> ->]|[[-> ->]|(? & ? & ?)]] & Hq); simpl in Hq; eauto.
  - intros [(r & Hc & Hq)|[-> ->]]; [|by eauto 10].
    destruct (decide (c = p)) as [->|].
    + exists (ProcRel_add_child id pr). simplify_eq. auto 10.
    + exists r. split; [|done]. do 2 right. split; [congruence|done].
Qed.

Lemma tree_add_child : tree_ok with_child.
Proof.
  destruct Hnew as [Hn Hk]. pose proof (t_range _ Ht _ _ Hp) as [Hr Hr'].
  split.
  - intros k r [[-> ->]|[[-> ->]|(? & ? & ?)]]%with_child_Some; simpl; [lia|done|].
    by apply (t_range _ Ht).
  - intros k r [[-> ->]|[[-> ->]|(? & ? & ?)]]%with_child_Some; [apply wf_new| |by eapply t_wf].
    apply wf_add_child; [by eapply Hk|]. by eapply t_wf.
  - intros q c. rewrite with_child_lists, with_child_claims, (t_fam _ Ht). split.
    + intros [?|[-> ->]]; [naive_solver|]. split; [by right|lia].
    + naive_solver.
  - intros q r c Hq Hc.
    assert (∃ q' r', rm !! q' = Some r' ∧ c ∈ (dead_children r').*1) as (q' & r' & Hq' & Hc').
    { apply with_child_Some in Hq as [[-> ->]|[[-> ->]|(? & ? & ?)]]; simpl in Hc;
        [by apply not_elem_of_nil in Hc|by eauto..]. }
    pose proof (t_dead _ Ht _ _ _ Hq' Hc').
    assert (c ≠ id). { intros ->. eapply Hk; [exact Hq'|]. unfold known. set_solver. }
    unfold with_child. rewrite !lookup_insert_ne; [done|congruence|congruence].
Qed.
End Add.

(** ** Removing an exiting process *)

(** Adoption of [cs] by process 0, relation by relation. *)
Definition adopt (cs : list Z) k r : ProcRel :=
  if decide (k = 0) then mkProcRel (parent r) (children r ++ cs) (dead_children r)
  else if decide (k ∈ cs) then ProcRel_set_parent 0 r else r.

(** The loop of [make_current_exited] does exactly that, without panicking. *)
Lemma reparent_spec cs rm :
  NoDup cs → 0 ∉ cs → is_Some (rm !! 0) → (∀ c, c ∈ cs → is_Some (rm !! c)) →
  ∃ rm', PManager_reparent cs rm = Done rm' ∧ ∀ k, rm' !! k = adopt cs k <$> rm !! k.
Proof.
  revert rm. induction cs as [|c cs IH]; intros rm Hnd H0 Hz Hcs.
  { exists rm. split; [done|]. intros k. unfold adopt.
    destruct (rm !! k) as [r|]; simpl; [|done]. f_equal.
    case_decide; [destruct r; by rewrite app_nil_r|done]. }
  apply NoDup_cons in Hnd as [Hc Hnd]. apply not_elem_of_cons in H0 as [Hc0 H0].
  destruct (Hcs c) as [rc Hrc]; [set_solver|]. destruct Hz as [z Hz].
  simpl. rewrite Hrc; simpl. rewrite lookup_insert_ne, Hz by done; simpl.
  destruct (IH (<[0:=ProcRel_add_child c z]> (<[c:=ProcRel_set_parent 0 rc]> rm)))
    as (rm' & -> & Hlook); [done|done|by rewrite lookup_insert_eq| |].
  { intros d Hd. rewrite lookup_insert_ne by set_solver.
    rewrite lookup_insert_ne by set_solver. apply Hcs. set_solver. }
  exists rm'. split; [done|]. intros k. rewrite Hlook. unfold adopt.
  destruct (decide (k = 0)) as [->|Hk0].
  { rewrite lookup_insert_eq, Hz. simpl. by rewrite <-app_assoc. }
  rewrite lookup_insert_ne by done.
  destruct (decide (k = c)) as [->|Hkc].
  { rewrite lookup_insert_eq, Hrc. simpl. rewrite (decide_True (P := c ∈ c :: cs)) by set_solver.
    by rewrite decide_False. }
  rewrite lookup_insert_ne by done. destruct (rm !! k); simpl; [|done].
  destruct (decide (k ∈ cs)); [by rewrite decide_True by set_solver|].
  by rewrite decide_False by set_solver.
Qed.

Section Exit.
Context (rm : gmap Z ProcRel) (id code : Z) (r : ProcRel).
Context (Ht : tree_ok rm) (Hid : rm !! id = Some r) (Hne : id ≠ 0) (Hz : is_Some (rm !! 0)).

(** What one relation becomes when [id] exits. *)
Definition after_exit k rk : ProcRel :=
  adopt (children r) k (if decide (k = parent r) then ProcRel_del_child id code rk else rk).

Lemma exit_child c : c ∈ children r → c ≠ id ∧ c ≠ 0 ∧ claims rm c id.
Proof.
  intros Hc. assert (lists rm id c) as Hl by (by exists r).
  pose proof (lists_child _ _ _ Ht Hl) as (rc & ? & ? & ?).
  split_and!; [lia|lia|by exists rc].
Qed.

Lemma claims_exit_child c : claims rm c id → c ≠ 0 ∧ c ∈ children r.
Proof.
  intros Hcl. destruct (t_range _ Ht _ _ Hid) as [Hidr _].
  assert (lists rm id c) as Hl by (apply (t_fam _ Ht); split; [done|lia]).
  pose proof (lists_child _ _ _ Ht Hl) as (? & _ & _ & ?). split; [lia|].
  destruct Hl as (y & Hy & ?). by simplify_eq.
Qed.

Lemma exit_runs : ∃ rm',
  PManager_reparent (children r) (alter (ProcRel_del_child id code) (parent r) (delete id rm))
    = Done rm' ∧
  ∀ k, rm' !! k = if decide (k = id) then None else after_exit k <$> rm !! k.
Proof.
  set (rm1 := alter (ProcRel_del_child id code) (parent r) (delete id rm)).
  assert (∀ k, k ≠ id → is_Some (rm !! k) → is_Some (rm1 !! k)) as Hsome.
  { intros k Hk [x Hx]. unfold rm1. rewrite lookup_alter.
    case_decide; [subst k|]; rewrite lookup_delete_ne by congruence; rewrite Hx; eauto. }
  destruct (reparent_spec (children r) rm1) as (rm' & Hr & Hlook).
  - pose proof (t_wf _ Ht _ _ Hid) as Hwf. by apply NoDup_app in Hwf as [? _].
  - by intros (_ & ? & _)%exit_child.
  - by apply Hsome.
  - intros c Hc. apply exit_child in Hc as (? & ? & (rc & Hrc & _)). apply Hsome; eauto.
  - exists rm'. split; [done|]. intros k. rewrite Hlook. unfold rm1, after_exit.
    rewrite lookup_alter. destruct (decide (k = id)) as [->|Hki].
    + case_decide as Hp; [rewrite Hp|]; by rewrite lookup_delete_eq.
    + destruct (decide (parent r = k)) as [->|]; rewrite lookup_delete_ne by congruence.
      * destruct (rm !! k); simpl; [by rewrite decide_True|done].
      * destruct (rm !! k); simpl; [by rewrite decide_False|done].
Qed.

Lemma id_listed k rk : rm !! k = Some rk → id ∈ children rk ↔ k = parent r ∧ k ≠ usize_max.
Proof.
  intros Hk. transitivity (lists rm k id).
  - split; [by exists rk|]. intros (x & Hx & ?). by simplify_eq.
  - rewrite (t_fam _ Ht). unfold claims. naive_solver.
Qed.

Lemma after_exit_parent k rk :
  parent (after_exit k rk) =
    if decide (k ≠ 0 ∧ k ∈ children r) then 0 else parent rk.
Proof.
  unfold after_exit, adopt.
  repeat case_decide; simpl; rewrite ?del_child_parent; tauto.
Qed.

Lemma after_exit_children k rk c : rm !! k = Some rk →
  c ∈ children (after_exit k rk) ↔ (c ∈ children rk ∧ c ≠ id) ∨ (k = 0 ∧ c ∈ children r).
Proof.
  intros Hk.
  assert (c ∈ children (if decide (k = parent r) then ProcRel_del_child id code rk else rk)
            ↔ c ∈ children rk ∧ c ≠ id) as Hdel.
  { pose proof (id_listed k rk Hk) as Hl. case_decide as Hp.
    - destruct (t_range _ Ht _ _ Hk) as [Hkr _].
      assert (id ∈ children rk) as Hin by (apply Hl; split; [done|lia]).
      destruct (del_child_present id code rk Hin) as [_ HP].
      pose proof (t_wf _ Ht _ _ Hk) as Hwf. apply NoDup_app in Hwf as [Hnd _].
      rewrite HP in Hnd. apply NoDup_cons in Hnd as [Hnot _].
      rewrite HP, elem_of_cons. naive_solver.
    - split; [|tauto]. intros Hc. split; [done|]. intros ->. tauto. }
  unfold after_exit, adopt. set (x := if decide (k = parent r) then _ else _) in *.
  clearbody x. case_decide; simpl.
  - rewrite elem_of_app, Hdel. naive_solver.
  - case_decide; simpl; rewrite Hdel; naive_solver.
Qed.

Lemma after_exit_dead_pair k rk d : rm !! k = Some rk →
  d ∈ dead_children (after_exit k rk) →
  d ∈ dead_children rk ∨ (d = (id, code) ∧ k = parent r).
Proof.
  intros Hk. unfold after_exit, adopt.
  set (x := if decide (k = parent r) then _ else _).
  assert (d ∈ dead_children x → d ∈ dead_children rk ∨ (d = (id, code) ∧ k = parent r)) as Hx.
  { unfold x. case_decide; [|by left].
    destruct (decide (id ∈ children rk)) as [Hin|Hin].
    - destruct (del_child_present id code rk Hin) as [-> _].
      rewrite elem_of_app, list_elem_of_singleton. tauto.
    - rewrite del_child_absent by done. by left. }
  clearbody x. by repeat case_decide.
Qed.

Lemma after_exit_dead k rk c : rm !! k = Some rk →
  c ∈ (dead_children (after_exit k rk)).*1 →
  c ∈ (dead_children rk).*1 ∨ c = id.
Proof.
  intros Hk (d & -> & Hd)%list_elem_of_fmap.
  apply (after_exit_dead_pair k rk d Hk) in Hd as [Hd|[-> _]]; [left|by right].
  by apply list_elem_of_fmap_2.
Qed.

Lemma after_exit_wf k rk : rm !! k = Some rk → k ≠ id → ProcRel_wf (after_exit k rk).
Proof.
  intros Hk Hki. pose proof (t_wf _ Ht _ _ Hk) as Hwf.
  unfold after_exit, adopt. set (x := if decide (k = parent r) then _ else _).
  assert (ProcRel_wf x ∧ known (children x) (dead_children x)
            ≡ₚ known (children rk) (dead_children rk)) as [Hx Hkn].
  { unfold x. case_decide; [|done]. split; [by apply wf_del_child|apply del_child_known]. }
  clearbody x. case_decide as Hk0; [|by case_decide]. subst k.
  unfold ProcRel_wf, known in *; simpl.
  rewrite <-app_assoc, (Permutation_app_comm (children r)), app_assoc.
  apply NoDup_app. split_and!; [done| |].
  - intros c Hc Hcr. rewrite Hkn in Hc. apply exit_child in Hcr as (? & ? & Hcl).
    apply elem_of_app in Hc as [Hc|Hc].
    + assert (lists rm 0 c) as Hl by (by exists rk).
      assert (lists rm id c) as Hl' by (apply (t_fam _ Ht); split; [done|];
        destruct (t_range _ Ht _ _ Hid); lia).
      by pose proof (child_parent_unique _ _ _ _ Ht Hl Hl').
    + destruct Hcl as (rc & Hrc & _). by rewrite (t_dead _ Ht _ _ _ Hk Hc) in Hrc.
  - pose proof (t_wf _ Ht _ _ Hid) as Hr. by apply NoDup_app in Hr as [? _].
Qed.

Context (rm' : gmap Z ProcRel).
Context (Hrm' : ∀ k, rm' !! k = if decide (k = id) then None else after_exit k <$> rm !! k).

Lemma exit_Some k r' :
  rm' !! k = Some r' ↔ k ≠ id ∧ ∃ rk, rm !! k = Some rk ∧ r' = after_exit k rk.
Proof.
  rewrite Hrm'. case_decide; [naive_solver|]. rewrite fmap_Some. naive_solver.
Qed.

Lemma exit_lists p c :
  lists rm' p c ↔ p ≠ id ∧ ((lists rm p c ∧ c ≠ id) ∨ (p = 0 ∧ lists rm id c)).
Proof.
  unfold lists. setoid_rewrite exit_Some. split.
  - intros (r' & (? & rk & Hk & ->) & Hc). split; [done|].
    apply after_exit_children in Hc; [|done]. destruct Hc as [[? ?]|[-> ?]]; eauto.
  - intros (? & [((rk & Hk & Hc) & ?)|(-> & x & Hx & Hc)]); simplify_eq.
    + exists (after_exit p rk). split; [by eauto|]. apply after_exit_children; auto.
    + destruct Hz as [z Hz']. exists (after_exit 0 z). split; [by eauto|].
      apply after_exit_children; auto.
Qed.

Lemma exit_claims p c : p ≠ usize_max →
  claims rm' c p ↔ c ≠ id ∧ ((claims rm c p ∧ p ≠ id) ∨ (p = 0 ∧ claims rm c id)).
Proof.
  intros Hm. unfold claims at 1. setoid_rewrite exit_Some. split.
  - intros (r' & (? & rk & Hk & ->) & Hp). split; [done|].
    rewrite after_exit_parent in Hp. case_decide as Hd.
    + right. destruct Hd as [_ (_ & _ & ?)%exit_child]. done.
    + left. split; [by exists rk|]. intros ->. by apply Hd, claims_exit_child; exists rk.
  - intros (Hc & [((rk & Hk & Hp) & Hpi)|(-> & Hcl)]).
    + exists (after_exit c rk). split; [by eauto|]. rewrite after_exit_parent.
      case_decide as Hd; [|done]. destruct Hd as [_ (_ & _ & x & Hx & ?)%exit_child].
      simplify_eq.
    + pose proof Hcl as (rk & Hk & Hp). exists (after_exit c rk). split; [by eauto|].
      rewrite after_exit_parent, decide_True; [done|]. by apply claims_exit_child.
Qed.

Lemma tree_exit : tree_ok rm'.
Proof.
  destruct (t_range _ Ht _ _ Hid) as [Hidr _]. split.
  - intros k r' (Hk & rk & Hrk & ->)%exit_Some.
    destruct (t_range _ Ht _ _ Hrk) as [? ?]. split; [done|].
    rewrite after_exit_parent. case_decide; [right; lia|done].
  - intros k r' (Hk & rk & Hrk & ->)%exit_Some. by apply after_exit_wf.
  - intros p c. destruct (decide (p = usize_max)) as [->|Hm].
    + split; [|tauto]. intros (_ & [[Hl _]|[? _]])%exit_lists; [|lia].
      destruct Hl as (y & Hy & _). destruct (t_range _ Ht _ _ Hy). lia.
    + rewrite exit_lists, exit_claims, !(t_fam _ Ht) by done.
      assert (claims rm c id → c ≠ id).
      { intros [? Hc]%claims_exit_child. by apply exit_child in Hc as (? & _ & _). }
      assert (id ≠ usize_max) by lia. naive_solver.
  - intros p r' c (Hp & rp & Hrp & ->)%exit_Some Hc.
    rewrite Hrm'. case_decide; [done|].
    apply after_exit_dead in Hc as [Hc| ->]; [|done|done].
    by rewrite (t_dead _ Ht _ _ _ Hrp Hc).
Qed.
End Exit.

(** ** Collecting an exit code *)
Section Collect.
Context (rm : gmap Z ProcRel) (id : Z) (r r' : ProcRel).
Context (Ht : tree_ok rm) (Hid : rm !! id = Some r).
Context (Hpar : parent r' = parent r) (Hch : children r' = children r).
Context (Hwf : ProcRel_wf r') (Hdead : ∀ d, d ∈ dead_children r' → d ∈ dead_children r).

Lemma tree_collect : tree_ok (<[id := r']> rm).
Proof.
  split.
  - intros k x [[<- <-]|[? H]]%lookup_insert_Some; [rewrite Hpar|]; by eapply t_range.
  - intros k x [[<- <-]|[? H]]%lookup_insert_Some; [done|]. by eapply t_wf.
  - intros p c.
    assert (∀ k x, <[id := r']> rm !! k = Some x → ∃ y, rm !! k = Some y ∧
      children x = children y ∧ parent x = parent y) as Hfw.
    { intros k x [[<- <-]|[? H]]%lookup_insert_Some; eauto. }
    assert (∀ k y, rm !! k = Some y → ∃ x, <[id := r']> rm !! k = Some x ∧
      children x = children y ∧ parent x = parent y) as Hbw.
    { intros k y Hy. destruct (decide (id = k)) as [<-|].
      - rewrite lookup_insert_eq. simplify_eq. eauto.
      - rewrite lookup_insert_ne by done. eauto. }
    assert (lists (<[id := r']> rm) p c ↔ lists rm p c) as ->.
    { split; [intros (x & (y & ? & E & _)%Hfw & ?)|intros (y & (x & ? & E & _)%Hbw & ?)];
        eexists; (split; [done|]); by rewrite E || rewrite <-E. }
    rewrite (t_fam _ Ht).
    assert (claims (<[id := r']> rm) c p ↔ claims rm c p) as ->; [|done].
    split; [intros (x & (y & ? & _ & E)%Hfw & ?)|intros (y & (x & ? & _ & E)%Hbw & ?)];
      eexists; (split; [done|]); congruence.
  - intros p x c [[<- <-]|[? H]]%lookup_insert_Some Hc.
    + assert (c ∈ (dead_children r).*1) as Hc'.
      { apply list_elem_of_fmap in Hc as (d & -> & Hd). apply list_elem_of_fmap. eauto. }
      pose proof (t_dead _ Ht _ _ _ Hid Hc') as Hn.
      rewrite lookup_insert_ne; [done|congruence].
    + pose proof (t_dead _ Ht _ _ _ H Hc) as Hn.
      rewrite lookup_insert_ne; [done|congruence].
Qed.
End Collect.
