(* ===== verification/ProcInvariant.v ===== *)
(** * Correctness of the process manager

    The invariant of [PManager] and its theorems, proved against the promises of
    the traits [Manage] and [Schedule] ([ManageSpec], [ScheduleSpec]). *)

From S2P Require Import Prelude TaskRel ProcManage ProcTree.

Section PManagerInv.
Context {M T : Type} `{!Manage M T, !ManageSpec M T, !Schedule M, !ScheduleSpec M T}.
Implicit Types (pm : PManager M) (mgr : M).

(** The running process, as a list of at most one id. *)
Definition running pm : list Z := from_option (fun i => [i]) [] (current pm).

(** The task table and the family tree hold the same processes, and every
    process is in exactly one place: in the ready structure or running. *)
Record pm_inv pm : Prop := {
  pm_tree : tree_ok (rel_map pm);
  pm_mgr : ∃ mgr, manager pm = Some mgr ∧
    dom (tasks_of mgr) = dom (rel_map pm) ∧
    elements (dom (rel_map pm)) ≡ₚ ready_of mgr ++ running pm;
}.

Lemma ready_in_dom pm mgr id :
  elements (dom (rel_map pm)) ≡ₚ ready_of mgr ++ running pm →
  id ∈ ready_of mgr → id ∈ dom (rel_map pm).
Proof. intros HP Hin. apply elem_of_elements. rewrite HP. set_solver. Qed.

Lemma running_in_dom pm mgr id :
  elements (dom (rel_map pm)) ≡ₚ ready_of mgr ++ running pm →
  current pm = Some id → ∃ r, rel_map pm !! id = Some r.
Proof.
  intros HP Hc. apply elem_of_dom, elem_of_elements. rewrite HP.
  unfold running. rewrite Hc. set_solver.
Qed.

Lemma elements_new (D : gset Z) id : id ∉ D → elements ({[id]} ∪ D) ≡ₚ id :: elements D.
Proof. apply elements_union_singleton. Qed.

Lemma elements_remove (D : gset Z) id :
  id ∈ D → elements D ≡ₚ id :: elements (D ∖ {[id]}).
Proof.
  intros Hin. rewrite <-elements_new by set_solver.
  by rewrite <-union_difference_singleton_L.
Qed.

(** ** [add] *)
Lemma pm_add_run pm id t p :
  pm_inv pm → unknown id (rel_map pm) → 0 ≤ id < usize_max →
  (p = usize_max ∨ p < id ∧ is_Some (rel_map pm !! p)) →
  ∃ pm' rm, PManager_add id t p pm = Done pm' ∧ pm_inv pm' ∧
    current pm' = current pm ∧ rel_map pm' = <[id := ProcRel_new p]> rm ∧
    dom rm = dom (rel_map pm) ∧
    (∀ k, k ≠ p → rm !! k = rel_map pm !! k) ∧
    (p ≠ usize_max → rm !! p = ProcRel_add_child id <$> rel_map pm !! p).
Proof.
  intros [Ht (mgr & Hm & Hdom & Hel)] Hunk Hid Hp.
  assert (id ∉ dom (rel_map pm)) as Hnot.
  { destruct Hunk as [Hn _]. by apply not_elem_of_dom. }
  destruct (add_spec id (m_insert id t mgr)) as (mgr' & Hadd & Htasks & Hready).
  { rewrite insert_spec. set_solver. }
  rewrite insert_spec in Htasks. rewrite ready_insert in Hready.
  unfold PManager_add. rewrite Hm; simpl. rewrite Hadd; simpl.
  assert (∀ rm, dom rm = dom (rel_map pm) →
    tree_ok (<[id := ProcRel_new p]> rm) →
    pm_inv (mkPManager (<[id := ProcRel_new p]> rm) (Some mgr') (current pm))) as Hinv.
  { intros rm Hrm Htree. split; [done|]. exists mgr'. simpl. split_and!; [done| |].
    - rewrite Htasks, !dom_insert_L. congruence.
    - rewrite dom_insert_L, Hrm, elements_new by done. by rewrite Hready, Hel. }
  destruct Hp as [->|[Hlt [pr Hpr]]].
  - eexists _, (rel_map pm). split; [done|]. split; [|done].
    apply Hinv; [done|]. by apply tree_add_root.
  - destruct (t_range _ Ht _ _ Hpr) as [Hr _].
    rewrite (proj2 (Z.eqb_neq p usize_max)) by lia. rewrite Hpr; simpl.
    eexists _, _. split; [done|]. split.
    + apply Hinv; [|by apply tree_add_child].
      rewrite dom_insert_L. apply elem_of_dom_2 in Hpr. set_solver.
    + split_and!; [done|done| | |].
      * rewrite dom_insert_L. apply elem_of_dom_2 in Hpr. set_solver.
      * intros k Hk. by rewrite lookup_insert_ne.
      * intros _. by rewrite lookup_insert_eq.
Qed.

(** ** [find_next] and [make_current_suspend] *)
Lemma pm_next_run pm :
  pm_inv pm → current pm = None → (∀ mgr, manager pm = Some mgr → fetch_safe mgr) →
  ∃ r pm', PManager_find_next pm = Done (r, pm') ∧ pm_inv pm' ∧
    rel_map pm' = rel_map pm ∧ current pm' = r ∧ (r = None ↔ rel_map pm = ∅).
Proof.
  intros [Ht (mgr & Hm & Hdom & Hel)] Hc Hsafe.
  destruct (fetch_spec mgr) as (r & mgr' & Hf & Hdom' & Hr); [by apply Hsafe| |].
  { intros id Hin. rewrite Hdom. by apply (ready_in_dom pm mgr). }
  unfold PManager_find_next. rewrite Hm; simpl. rewrite Hf; simpl.
  unfold running in Hel. rewrite Hc in Hel; simpl in Hel. rewrite app_nil_r in Hel.
  destruct r as [id|].
  - assert (id ∈ dom (tasks_of mgr')) as Hin.
    { rewrite Hdom', Hdom. apply elem_of_elements. rewrite Hel, Hr. set_solver. }
    apply elem_of_dom in Hin as [t Htk]. rewrite get_spec, Htk.
    eexists _, _. split; [done|]. split_and!; [|done|done|].
    + split; [done|]. exists mgr'. simpl. split_and!; [done|congruence|].
      rewrite Hel, Hr. unfold running; simpl. by rewrite Permutation_app_comm.
    + split; [done|]. intros He. rewrite He, dom_empty_L, elements_empty, Hr in Hel.
      by apply Permutation_nil_cons in Hel.
  - destruct Hr as [Hr Hr']. eexists _, _. split; [done|]. split_and!; [|done|done|].
    + split; [done|]. exists mgr'. simpl. split_and!; [done|congruence|].
      unfold running; simpl. by rewrite Hc, Hel, Hr, Hr'.
    + split; [intros _|done]. rewrite Hr in Hel. apply Permutation_nil_r in Hel.
      apply elements_empty_inv, leibniz_equiv in Hel. by apply dom_empty_inv_L in Hel.
Qed.

Lemma pm_suspend_run pm id :
  pm_inv pm → current pm = Some id →
  ∃ pm', PManager_make_current_suspend pm = Done pm' ∧ pm_inv pm' ∧
    rel_map pm' = rel_map pm ∧ current pm' = None.
Proof.
  intros [Ht (mgr & Hm & Hdom & Hel)] Hc.
  destruct (add_spec id mgr) as (mgr' & Hadd & Htasks & Hready).
  { rewrite Hdom. destruct (running_in_dom pm mgr id Hel Hc). by apply elem_of_dom_2 in H. }
  unfold PManager_make_current_suspend. rewrite Hc; simpl. rewrite Hm; simpl.
  rewrite Hadd; simpl. eexists. split; [done|]. split; [|done]. split; [done|].
  exists mgr'. simpl. split_and!; [done|congruence|].
  rewrite Hel, Hready. unfold running. rewrite Hc; simpl.
  by rewrite app_nil_r, Permutation_app_comm.
Qed.

(** ** [make_current_exited] *)
Lemma pm_exit_run pm id r code :
  pm_inv pm → current pm = Some id → id ≠ 0 → is_Some (rel_map pm !! 0) →
  rel_map pm !! id = Some r →
  ∃ pm', PManager_make_current_exited code pm = Done pm' ∧ pm_inv pm' ∧
    current pm' = None ∧
    ∀ k, rel_map pm' !! k =
      if decide (k = id) then None else after_exit id code r k <$> rel_map pm !! k.
Proof.
  intros [Ht (mgr & Hm & Hdom & Hel)] Hc Hne Hz Hid.
  destruct (exit_runs (rel_map pm) id code r Ht Hid Hne Hz) as (rm' & Hrun & Hlook).
  unfold PManager_make_current_exited. rewrite Hc; simpl. rewrite Hm; simpl.
  rewrite Hid; simpl. rewrite Hrun; simpl.
  eexists. split; [done|]. split_and!; [|done|done].
  assert (dom rm' = dom (rel_map pm) ∖ {[id]}) as Hdom'.
  { apply set_eq. intros k. rewrite elem_of_difference, !elem_of_dom, Hlook.
    rewrite elem_of_singleton. case_decide; [|rewrite fmap_is_Some]; [|tauto].
    split; [by intros []|tauto]. }
  split; [by eapply tree_exit|].
  exists (m_delete id mgr). simpl. split_and!; [done| |].
  - rewrite delete_spec, dom_delete_L. congruence.
  - rewrite Hdom', ready_delete. unfold running; simpl. rewrite app_nil_r.
    assert (id ∈ dom (rel_map pm)) as Hin by (by apply elem_of_dom_2 in Hid).
    rewrite (elements_remove _ _ Hin) in Hel. unfold running in Hel.
    rewrite Hc, Permutation_app_comm in Hel; simpl in Hel. by apply Permutation_cons_inv in Hel.
Qed.

(** ** [wait] *)

(** The answer of [wait] on the relation of the caller, whatever its target. *)
Definition wait_answer child r : option (Z * Z) * ProcRel :=
  if child =? usize_max then ProcRel_wait_any_child r else ProcRel_wait_child child r.

(** Nothing to wait for, somebody still running, or one exit code taken away. *)
Inductive wait_effect (child : Z) (r : ProcRel) : option (Z * Z) → ProcRel → Prop :=
| WaitNone : (child = usize_max → children r = [] ∧ dead_children r = []) →
    (child ≠ usize_max → child ∉ known (children r) (dead_children r)) →
    wait_effect child r None r
| WaitRunning : (child = usize_max → children r ≠ [] ∧ dead_children r = []) →
    (child ≠ usize_max → child ∈ children r) →
    wait_effect child r (Some (still_running, -1)) r
| WaitCollect d r' : parent r' = parent r → children r' = children r →
    dead_children r ≡ₚ d :: dead_children r' → (child ≠ usize_max → d.1 = child) →
    wait_effect child r (Some d) r'.

Lemma wait_answer_effect child r :
  wait_effect child r (wait_answer child r).1 (wait_answer child r).2.
Proof.
  unfold wait_answer. destruct (Z.eqb_spec child usize_max) as [->|Hne].
  - pose proof (wait_any_child_cases r) as H.
    destruct (ProcRel_wait_any_child r) as [[d|] r']; simpl.
    + destruct H as [(-> & -> & ? & ?)|(? & ? & Hd)]; [by constructor|].
      constructor; [done..| |done]. by rewrite Hd, Permutation_app_comm.
    + destruct H as (-> & ? & ?). by constructor.
  - pose proof (wait_child_cases child r) as H.
    destruct (ProcRel_wait_child child r) as [[d|] r']; simpl.
    + destruct H as [(-> & -> & ? & ?)|(? & ? & ? & ?)]; by constructor.
    + destruct H as (-> & ?). by constructor.
Qed.

Lemma wait_effect_rel child r o r' : wait_effect child r o r' → ProcRel_wf r →
  parent r' = parent r ∧ children r' = children r ∧ ProcRel_wf r' ∧
  ∀ d, d ∈ dead_children r' → d ∈ dead_children r.
Proof.
  intros [| |d r'' Hp Hc Hd _] Hwf; [by auto..|].
  split_and!; [done..|by eapply wf_wait|]. intros c Hin. rewrite Hd. set_solver.
Qed.

Lemma pm_wait_run pm id r child :
  pm_inv pm → current pm = Some id → rel_map pm !! id = Some r →
  ∃ o r', wait_effect child r o r' ∧
    PManager_wait child pm =
      Done (o, mkPManager (<[id := r']> (rel_map pm)) (manager pm) (current pm)) ∧
    pm_inv (mkPManager (<[id := r']> (rel_map pm)) (manager pm) (current pm)).
Proof.
  intros [Ht (mgr & Hm & Hdom & Hel)] Hc Hid.
  pose proof (wait_answer_effect child r) as Heff.
  exists (wait_answer child r).1, (wait_answer child r).2. split; [done|]. split.
  - unfold PManager_wait. rewrite Hc; simpl. rewrite Hid; simpl.
    unfold wait_answer. by destruct (if child =? usize_max then _ else _).
  - destruct (wait_effect_rel _ _ _ _ Heff) as (? & ? & ? & ?); [by eapply t_wf|].
    split; [by eapply tree_collect|]. exists mgr. simpl.
    rewrite dom_insert_lookup_L by eauto. done.
Qed.

End PManagerInv.
