(* ===== verification/ProcSystem.v ===== *)
(** * The process system as a state machine

    The process manager together with the pid counter, driven by the operations
    the kernels issue (fork, exec, schedule, yield, exit, wait), and what holds
    of every run: no operation panics, every process but the first has a living
    parent, every exit code is delivered, once, to the right process. *)

From S2P Require Import Prelude TaskRel ProcManage ProcTree ProcInvariant.

Section PSystem.
Context {M T : Type} `{!Manage M T, !ManageSpec M T, !Schedule M, !ScheduleSpec M T}.

Record psys := mkPsys { procs : PManager M; next_pid : Z }.
Implicit Types (s : psys).

Inductive pop :=
| OpFork (t : T)
| OpExec (f : T → T)
| OpNext
| OpSuspend
| OpExit (code : Z)
| OpWait (child : Z).

Inductive pevent :=
| EvFork (p c : Z)
| EvExec (p : Z)
| EvNext (o : option Z)
| EvSuspend (p : Z)
| EvExit (p code : Z)
| EvWait (p child : Z) (o : option (Z * Z)).
Implicit Types (h : list pevent).

(** [rust_main]: install the manager and add the first process. *)
Definition boot (mgr : M) (t : T) : outcome psys :=
  let '(id, c) := ProcId_new 0 in
  pm ← PManager_add id t usize_max (PManager_set_manager mgr PManager_new);
  Done (mkPsys pm c).

(** [exec] builds the new image with [Process::from_elf], which draws a pid that
    is then dropped: the process keeps its own. *)
Definition prun (op : pop) s : outcome (pevent * psys) :=
  match op with
  | OpFork t =>
      p ← unwrap (current (procs s));
      let '(id, c) := ProcId_new (next_pid s) in
      pm ← PManager_add id t p (procs s);
      Done (EvFork p id, mkPsys pm c)
  | OpExec f =>
      p ← unwrap (current (procs s));
      let '(_, c) := ProcId_new (next_pid s) in
      mgr ← unwrap (manager (procs s));
      Done (EvExec p,
        mkPsys (PManager_set_manager (m_update p f mgr) (procs s)) c)
  | OpNext =>
      '(o, pm) ← PManager_find_next (procs s);
      Done (EvNext o, mkPsys pm (next_pid s))
  | OpSuspend =>
      p ← unwrap (current (procs s));
      pm ← PManager_make_current_suspend (procs s);
      Done (EvSuspend p, mkPsys pm (next_pid s))
  | OpExit code =>
      p ← unwrap (current (procs s));
      pm ← PManager_make_current_exited code (procs s);
      Done (EvExit p code, mkPsys pm (next_pid s))
  | OpWait child =>
      p ← unwrap (current (procs s));
      '(o, pm) ← PManager_wait child (procs s);
      Done (EvWait p child o, mkPsys pm (next_pid s))
  end.

(** When the kernels issue an operation: system calls come from the running
    process, the scheduler is asked when nobody runs, process 0 never exits and
    the pid space is not exhausted. *)
Definition allowed (op : pop) s : Prop :=
  match op with
  | OpFork _ | OpExec _ => is_Some (current (procs s)) ∧ next_pid s < still_running
  | OpNext => current (procs s) = None ∧ ∀ mgr, manager (procs s) = Some mgr → fetch_safe mgr
  | OpSuspend | OpWait _ => is_Some (current (procs s))
  | OpExit _ => ∃ p, current (procs s) = Some p ∧ p ≠ 0
  end.

Inductive ptrace : psys → list pevent → psys → Prop :=
| PTnil s : ptrace s [] s
| PTsnoc s h s1 op e s2 :
    ptrace s h s1 → allowed op s1 → prun op s1 = Done (e, s2) → ptrace s (h ++ [e]) s2.

(** The children whose exit code a [wait] handed out, in order. *)
Definition collected_ev (e : pevent) : option Z :=
  match e with
  | EvWait _ _ (Some d) => if d.1 =? still_running then None else Some d.1
  | _ => None
  end.
Definition collected h : list Z := omap collected_ev h.

Lemma collected_snoc h e :
  collected (h ++ [e]) = collected h ++ option_list (collected_ev e).
Proof. unfold collected. rewrite omap_app. simpl. by destruct (collected_ev e). Qed.

Record psys_ok h s : Prop := {
  s_inv : pm_inv (procs s);
  s_pid : 0 < next_pid s ≤ still_running;
  s_below k r : rel_map (procs s) !! k = Some r → k < next_pid s;
  s_init : is_Some (rel_map (procs s) !! 0);
  s_root k r : rel_map (procs s) !! k = Some r → parent r = usize_max → k = 0;
  s_dead k r d : rel_map (procs s) !! k = Some r → d ∈ dead_children r →
    EvExit d.1 d.2 ∈ h ∧ d.1 ∉ collected h ∧ 0 ≤ d.1 < next_pid s;
  s_uniq k k' r r' c : rel_map (procs s) !! k = Some r → rel_map (procs s) !! k' = Some r' →
    c ∈ (dead_children r).*1 → c ∈ (dead_children r').*1 → k = k';
  s_once : NoDup (collected h);
  s_gone c : c ∈ collected h → rel_map (procs s) !! c = None ∧ c < next_pid s;
  s_src p t d : EvWait p t (Some d) ∈ h → d = (still_running, -1) ∨ EvExit d.1 d.2 ∈ h;
}.

Lemma tree_of h s : psys_ok h s → tree_ok (rel_map (procs s)).
Proof. intros Hs. apply (pm_tree _ (s_inv _ _ Hs)). Qed.

Lemma children_below h s k r c : psys_ok h s →
  rel_map (procs s) !! k = Some r → c ∈ known (children r) (dead_children r) → c < next_pid s.
Proof.
  intros Hs Hk [Hc|Hc]%elem_of_app.
  - assert (lists (rel_map (procs s)) k c) as Hl by (by exists r).
    pose proof (lists_child _ _ _ (tree_of _ _ Hs) Hl) as (rc & Hrc & _).
    by eapply s_below.
  - apply list_elem_of_fmap in Hc as (d & -> & Hd).
    pose proof (s_dead _ _ Hs _ _ _ Hk Hd). lia.
Qed.

Lemma fresh_pid h s : psys_ok h s → unknown (next_pid s) (rel_map (procs s)).
Proof.
  intros Hs. split.
  - destruct (rel_map _ !! next_pid s) eqn:E; [|done].
    pose proof (s_below _ _ Hs _ _ E). lia.
  - intros k r Hk Hin. pose proof (children_below _ _ _ _ _ Hs Hk Hin). lia.
Qed.

Lemma current_rel h s p : psys_ok h s → current (procs s) = Some p →
  ∃ r, rel_map (procs s) !! p = Some r.
Proof.
  intros Hs Hc. destruct (pm_mgr _ (s_inv _ _ Hs)) as (mgr & _ & _ & Hel).
  by eapply running_in_dom.
Qed.

(** ** Preservation *)

(** Steps that hand out no exit code and bury nobody. *)
Lemma ok_quiet h s e s' : psys_ok h s →
  pm_inv (procs s') → next_pid s ≤ next_pid s' ≤ still_running →
  (∀ k r', rel_map (procs s') !! k = Some r' → k < next_pid s' ∧
     (parent r' = usize_max → k = 0) ∧
     ∀ d, d ∈ dead_children r' →
       ∃ r, rel_map (procs s) !! k = Some r ∧ d ∈ dead_children r) →
  (∀ c, c < next_pid s → rel_map (procs s) !! c = None → rel_map (procs s') !! c = None) →
  is_Some (rel_map (procs s') !! 0) → collected_ev e = None →
  (∀ p t d, e = EvWait p t (Some d) → d = (still_running, -1)) →
  psys_ok (h ++ [e]) s'.
Proof.
  intros Hs Hinv Hle Hrel Hnone H0 Hcol Hev.
  assert (collected (h ++ [e]) = collected h) as Hc.
  { rewrite collected_snoc, Hcol. apply app_nil_r. }
  pose proof (s_pid _ _ Hs). split; rewrite ?Hc; try done; try lia.
  - intros k r Hk. by apply (Hrel k r Hk).
  - intros k r Hk. by apply (Hrel k r Hk).
  - intros k r d Hk Hd. destruct (Hrel k r Hk) as (_ & _ & Hdd).
    destruct (Hdd d Hd) as (r0 & Hr0 & Hd0).
    destruct (s_dead _ _ Hs _ _ _ Hr0 Hd0) as (? & ? & ?).
    split_and!; [set_solver|done|lia|lia].
  - intros k k' r r' c Hk Hk' Hc1 Hc2.
    apply list_elem_of_fmap in Hc1 as (d1 & -> & Hd1), Hc2 as (d2 & E & Hd2).
    destruct (Hrel k r Hk) as (_ & _ & Hdd). destruct (Hdd _ Hd1) as (x & Hx & Hdx).
    destruct (Hrel k' r' Hk') as (_ & _ & Hdd'). destruct (Hdd' _ Hd2) as (y & Hy & Hdy).
    apply (s_uniq _ _ Hs k k' x y d1.1); [done|done|by apply list_elem_of_fmap_2|].
    rewrite E. by apply list_elem_of_fmap_2.
  - apply (s_once _ _ Hs).
  - intros c Hin. destruct (s_gone _ _ Hs _ Hin). split; [auto|lia].
  - intros p t d [Hin|Hin]%elem_of_app.
    + destruct (s_src _ _ Hs _ _ _ Hin); [by left|right; set_solver].
    + apply list_elem_of_singleton in Hin. left. by eapply Hev.
Qed.

(** Exit of a process: its code is filed with its parent. *)
Lemma ok_exit h s id r code s' : psys_ok h s →
  rel_map (procs s) !! id = Some r → id ≠ 0 → pm_inv (procs s') →
  next_pid s' = next_pid s →
  (∀ k, rel_map (procs s') !! k =
     if decide (k = id) then None else after_exit id code r k <$> rel_map (procs s) !! k) →
  psys_ok (h ++ [EvExit id code]) s'.
Proof.
  intros Hs Hid Hne Hinv Hn Hlook. pose proof (tree_of _ _ Hs) as Ht.
  assert (collected (h ++ [EvExit id code]) = collected h) as Hc.
  { rewrite collected_snoc. apply app_nil_r. }
  assert (∀ k r', rel_map (procs s') !! k = Some r' → k ≠ id ∧
    ∃ rk, rel_map (procs s) !! k = Some rk ∧ r' = after_exit id code r k rk) as Hsome.
  { intros k r' Hk. rewrite Hlook in Hk. case_decide; [done|].
    apply fmap_Some in Hk as (rk & ? & ->). eauto. }
  assert (∀ k rk d, rel_map (procs s) !! k = Some rk →
    d ∈ dead_children (after_exit id code r k rk) →
    d ∈ dead_children rk ∨ (d = (id, code) ∧ k = parent r)) as Hdead.
  { intros k rk d Hk Hd. by eapply after_exit_dead_pair. }
  assert (id ∉ collected h) as Hnc.
  { intros Hin. apply (s_gone _ _ Hs) in Hin as [Hin _]. congruence. }
  assert (∀ k rk, rel_map (procs s) !! k = Some rk → id ∉ (dead_children rk).*1) as Hnd.
  { intros k rk Hk Hin. pose proof (t_dead _ Ht _ _ _ Hk Hin). congruence. }
  pose proof (s_pid _ _ Hs). pose proof (s_below _ _ Hs _ _ Hid).
  destruct (t_range _ Ht _ _ Hid) as [? _].
  split; rewrite ?Hc, ?Hn; try done; try lia.
  - intros k r' (_ & rk & Hk & _)%Hsome. by eapply s_below.
  - rewrite Hlook, decide_False by done. apply fmap_is_Some, (s_init _ _ Hs).
  - intros k r' (_ & rk & Hk & ->)%Hsome. rewrite after_exit_parent.
    case_decide; [lia|]. by apply (s_root _ _ Hs).
  - intros k r' d (_ & rk & Hk & ->)%Hsome [Hd|[-> _]]%Hdead; [| |done].
    + destruct (s_dead _ _ Hs _ _ _ Hk Hd) as (? & ? & ?).
      split_and!; [set_solver|done|lia|lia].
    + simpl. split_and!; [set_solver|done|lia|lia].
  - intros k k' r1 r2 c (_ & x & Hx & ->)%Hsome (_ & y & Hy & ->)%Hsome Hq1 Hq2.
    apply list_elem_of_fmap in Hq1 as (d1 & -> & Hd1), Hq2 as (d2 & E & Hd2).
    apply Hdead in Hd1; [|done]. apply Hdead in Hd2; [|done].
    destruct Hd1 as [Hd1|[-> ->]], Hd2 as [Hd2|[-> ->]]; simpl in *; try done.
    + apply (s_uniq _ _ Hs k k' x y d1.1); [done|done|by apply list_elem_of_fmap_2|].
      rewrite E. by apply list_elem_of_fmap_2.
    + exfalso. apply (Hnd _ _ Hx). rewrite <-E. by apply list_elem_of_fmap_2.
    + exfalso. apply (Hnd _ _ Hy). rewrite E. by apply list_elem_of_fmap_2.
  - apply (s_once _ _ Hs).
  - intros c Hin. destruct (s_gone _ _ Hs _ Hin) as [Hg ?]. split; [|lia].
    rewrite Hlook, Hg. by case_decide.
  - intros p t d [Hin|Hin]%elem_of_app; [|set_solver].
    destruct (s_src _ _ Hs _ _ _ Hin); [by left|right; set_solver].
Qed.

(** A [wait] that takes an exit code away. *)
Lemma ok_collect h s p r child d r' s' : psys_ok h s →
  rel_map (procs s) !! p = Some r → pm_inv (procs s') → next_pid s' = next_pid s →
  rel_map (procs s') = <[p := r']> (rel_map (procs s)) →
  parent r' = parent r → dead_children r ≡ₚ d :: dead_children r' →
  psys_ok (h ++ [EvWait p child (Some d)]) s'.
Proof.
  intros Hs Hp Hinv Hn Hrm Hpar HP. pose proof (tree_of _ _ Hs) as Ht.
  assert (d ∈ dead_children r) as Hd by (rewrite HP; set_solver).
  destruct (s_dead _ _ Hs _ _ _ Hp Hd) as (Hex & Hnc & Hr).
  pose proof (s_pid _ _ Hs).
  assert (collected (h ++ [EvWait p child (Some d)]) = collected h ++ [d.1]) as Hc.
  { rewrite collected_snoc. simpl. by rewrite (proj2 (Z.eqb_neq _ _)) by lia. }
  assert (d.1 ∉ (dead_children r').*1) as Hnd.
  { pose proof (t_wf _ Ht _ _ Hp) as Hwf. apply NoDup_app in Hwf as (_ & _ & Hnd).
    rewrite HP in Hnd. by apply NoDup_cons in Hnd as [? _]. }
  assert (∀ k x, rel_map (procs s') !! k = Some x → ∃ y, rel_map (procs s) !! k = Some y ∧
    parent x = parent y ∧ (∀ e, e ∈ dead_children x → e ∈ dead_children y) ∧
    d.1 ∉ (dead_children x).*1) as Hsome.
  { intros k x Hk. rewrite Hrm in Hk. apply lookup_insert_Some in Hk as [[<- <-]|[Hkp Hk]].
    - exists r. split_and!; [done|done| |done]. intros e He. rewrite HP. set_solver.
    - exists x. split_and!; [done|done|done|]. intros Hin. apply Hkp.
      apply (s_uniq _ _ Hs p k r x d.1); [done|done|by apply list_elem_of_fmap_2|done]. }
  split; rewrite ?Hc, ?Hn; try done; try lia.
  - intros k x (y & ? & _)%Hsome. by eapply s_below.
  - rewrite Hrm. destruct (decide (p = 0)) as [->|]; [by rewrite lookup_insert_eq|].
    rewrite lookup_insert_ne by done. apply (s_init _ _ Hs).
  - intros k x (y & Hk & -> & _)%Hsome. by apply (s_root _ _ Hs).
  - intros k x e (y & Hk & _ & Hsub & Hx)%Hsome He.
    destruct (s_dead _ _ Hs _ _ _ Hk (Hsub _ He)) as (? & ? & ?).
    split_and!; [set_solver| |lia|lia]. rewrite elem_of_app, list_elem_of_singleton.
    intros [?|E]; [done|]. apply Hx. rewrite <-E. by apply list_elem_of_fmap_2.
  - intros k k' x1 x2 c (y1 & Hk & _ & Hs1 & _)%Hsome (y2 & Hk' & _ & Hs2 & _)%Hsome Hq1 Hq2.
    apply list_elem_of_fmap in Hq1 as (d1 & -> & Hd1), Hq2 as (d2 & E & Hd2).
    apply (s_uniq _ _ Hs k k' y1 y2 d1.1); [done|done|by apply list_elem_of_fmap_2; auto|].
    rewrite E. by apply list_elem_of_fmap_2; auto.
  - apply NoDup_app. split_and!; [apply (s_once _ _ Hs)| |apply NoDup_singleton].
    intros c Hin ->%list_elem_of_singleton. done.
  - intros c [Hin| ->%list_elem_of_singleton]%elem_of_app.
    + destruct (s_gone _ _ Hs _ Hin) as [Hg ?]. split; [|lia].
      rewrite Hrm, lookup_insert_ne; [done|]. intros ->. congruence.
    + split; [|lia]. assert (d.1 ∈ (dead_children r).*1) as Hin by (by apply list_elem_of_fmap_2).
      pose proof (t_dead _ Ht _ _ _ Hp Hin). rewrite Hrm, lookup_insert_ne; [done|]. congruence.
  - intros q t e [Hin|Hin]%elem_of_app.
    + destruct (s_src _ _ Hs _ _ _ Hin); [by left|right; set_solver].
    + apply list_elem_of_singleton in Hin. simplify_eq. right. set_solver.
Qed.

Lemma next_pid_range h s : psys_ok h s → next_pid s < still_running →
  as_usize (next_pid s + 1) = next_pid s + 1.
Proof.
  intros Hs Hlt. pose proof (s_pid _ _ Hs). unfold still_running, as_usize in *.
  change (-2 mod 2 ^ 64) with (2 ^ 64 - 2) in *. rewrite Z.mod_small; lia.
Qed.

Lemma still_running_lt : still_running < usize_max.
Proof. done. Qed.

Lemma fork_ok h s t : psys_ok h s → allowed (OpFork t) s →
  ∃ p s', prun (OpFork t) s = Done (EvFork p (next_pid s), s') ∧
    psys_ok (h ++ [EvFork p (next_pid s)]) s'.
Proof.
  intros Hs [[p Hp] Hlt]. destruct (current_rel _ _ _ Hs Hp) as [r Hr].
  pose proof (s_pid _ _ Hs) as Hpid. pose proof still_running_lt.
  pose proof (s_below _ _ Hs _ _ Hr) as Hpb.
  destruct (t_range _ (tree_of _ _ Hs) _ _ Hr) as [Hp0 _].
  destruct (pm_add_run (procs s) (next_pid s) t p) as
    (pm' & rm & Hrun & Hinv & Hcur & Hrm & Hdom & Hoth & Hpar);
    [apply (s_inv _ _ Hs)|by eapply fresh_pid|lia|right; eauto|].
  unfold prun. rewrite Hp; simpl. rewrite Hrun; simpl. eexists _, _. split; [done|].
  assert (∀ k x, rm !! k = Some x → ∃ y, rel_map (procs s) !! k = Some y ∧
    parent x = parent y ∧ dead_children x = dead_children y) as Hback.
  { intros k x Hk. destruct (decide (k = p)) as [->|Hkp].
    - rewrite (Hpar ltac:(lia)), Hr in Hk. simplify_eq/=. eauto.
    - rewrite (Hoth k Hkp) in Hk. eauto. }
  apply (ok_quiet h s); simpl; rewrite ?(next_pid_range h s Hs Hlt); try done; [lia| | |].
  - intros k x. rewrite Hrm. intros [[<- <-]|[? Hk]]%lookup_insert_Some; simpl.
    + split_and!; [lia|lia|]. intros d Hd. by apply not_elem_of_nil in Hd.
    + apply Hback in Hk as (y & Hy & -> & ->). pose proof (s_below _ _ Hs _ _ Hy).
      split_and!; [lia|by apply (s_root _ _ Hs)|eauto].
  - intros c Hc Hn. rewrite Hrm, lookup_insert_ne by lia.
    apply not_elem_of_dom. rewrite Hdom. by apply not_elem_of_dom.
  - rewrite Hrm, lookup_insert_is_Some. right. split; [lia|].
    apply elem_of_dom. rewrite Hdom. by apply elem_of_dom, (s_init _ _ Hs).
Qed.

(** Steps that leave the relations alone. *)
Lemma ok_same_rel h s e s' : psys_ok h s → pm_inv (procs s') →
  rel_map (procs s') = rel_map (procs s) → next_pid s ≤ next_pid s' ≤ still_running →
  match e with EvWait _ _ (Some d) => d = (still_running, -1) | _ => True end →
  psys_ok (h ++ [e]) s'.
Proof.
  intros Hs Hinv Hrm Hle He. apply (ok_quiet h s); rewrite ?Hrm; try done.
  - intros k r Hk. pose proof (s_below _ _ Hs _ _ Hk).
    split_and!; [lia|by apply (s_root _ _ Hs)|eauto].
  - apply (s_init _ _ Hs).
  - destruct e as [| | | | |? ? [d|]]; try done. simpl. by rewrite He.
  - intros p t d ->. done.
Qed.

Lemma exec_ok h s f : psys_ok h s → allowed (OpExec f) s →
  ∃ e s', prun (OpExec f) s = Done (e, s') ∧ psys_ok (h ++ [e]) s' ∧
    rel_map (procs s') = rel_map (procs s).
Proof.
  intros Hs [[p Hp] Hlt]. destruct (s_inv _ _ Hs) as [Ht (mgr & Hm & Hd & Hel)].
  pose proof (s_pid _ _ Hs). unfold prun. rewrite Hp; simpl. rewrite Hm; simpl.
  eexists _, _. split; [done|]. split; [|done].
  apply (ok_same_rel h s); simpl; rewrite ?(next_pid_range h s Hs Hlt); try done; [|lia].
  split; [done|]. eexists. simpl. split; [done|].
  by rewrite update_spec, dom_alter_L, ready_update.
Qed.

Lemma wait_ok h s child p : psys_ok h s → current (procs s) = Some p →
  ∃ r o r', rel_map (procs s) !! p = Some r ∧ wait_effect child r o r' ∧
    prun (OpWait child) s = Done (EvWait p child o,
      mkPsys (mkPManager (<[p := r']> (rel_map (procs s))) (manager (procs s))
        (current (procs s))) (next_pid s)) ∧
    psys_ok (h ++ [EvWait p child o]) (mkPsys (mkPManager (<[p := r']> (rel_map (procs s)))
      (manager (procs s)) (current (procs s))) (next_pid s)).
Proof.
  intros Hs Hp. destruct (current_rel _ _ _ Hs Hp) as [r Hr].
  pose proof (s_pid _ _ Hs).
  destruct (pm_wait_run _ _ _ child (s_inv _ _ Hs) Hp Hr) as (o & r' & Heff & Hrun & Hinv).
  exists r, o, r'. split_and!; [done|done| |].
  - unfold prun. rewrite Hp; simpl. rewrite Hrun; simpl. by rewrite Hp.
  - destruct Heff as [Hn1 Hn2|Hn1 Hn2|d r' Hpar Hch HP Hd].
    + apply (ok_same_rel h s); simpl; [done|done| |lia|done]. by rewrite insert_id.
    + apply (ok_same_rel h s); simpl; [done|done| |lia|done]. by rewrite insert_id.
    + by apply (ok_collect h s p r child d r').
Qed.

Lemma exit_ok h s code p r : psys_ok h s → current (procs s) = Some p → p ≠ 0 →
  rel_map (procs s) !! p = Some r →
  ∃ s', prun (OpExit code) s = Done (EvExit p code, s') ∧ psys_ok (h ++ [EvExit p code]) s' ∧
    ∀ k, rel_map (procs s') !! k =
      if decide (k = p) then None else after_exit p code r k <$> rel_map (procs s) !! k.
Proof.
  intros Hs Hp Hne Hr.
  destruct (pm_exit_run _ _ _ code (s_inv _ _ Hs) Hp Hne (s_init _ _ Hs) Hr)
    as (pm' & Hrun & Hinv & Hcur & Hlook).
  unfold prun. rewrite Hp; simpl. rewrite Hrun; simpl. eexists. split; [done|].
  split; [|done]. by apply (ok_exit h s p r).
Qed.

Lemma sched_ok h s op : psys_ok h s → allowed op s → op = OpNext ∨ op = OpSuspend →
  ∃ e s', prun op s = Done (e, s') ∧ psys_ok (h ++ [e]) s' ∧
    rel_map (procs s') = rel_map (procs s).
Proof.
  intros Hs Hal [->| ->]; simpl in Hal.
  - destruct Hal as [Hc Hsafe].
    destruct (pm_next_run _ (s_inv _ _ Hs) Hc Hsafe) as (o & pm' & Hrun & Hinv & Hrm & _).
    simpl. rewrite Hrun; simpl. eexists _, _. split; [done|]. split; [|done].
    pose proof (s_pid _ _ Hs). apply (ok_same_rel h s); [done..|simpl; lia|done].
  - destruct Hal as [p Hp].
    destruct (pm_suspend_run _ _ (s_inv _ _ Hs) Hp) as (pm' & Hrun & Hinv & Hrm & _).
    simpl. rewrite Hp; simpl. rewrite Hrun; simpl. eexists _, _. split; [done|]. split; [|done].
    pose proof (s_pid _ _ Hs). apply (ok_same_rel h s); [done..|simpl; lia|done].
Qed.

Lemma prun_ok h s op : psys_ok h s → allowed op s →
  ∃ e s', prun op s = Done (e, s') ∧ psys_ok (h ++ [e]) s'.
Proof.
  intros Hs Hal. destruct op as [t|f| | |code|child].
  - destruct (fork_ok h s t Hs Hal) as (p & s' & ? & ?). eauto.
  - destruct (exec_ok h s f Hs Hal) as (e & s' & ? & ? & ?). eauto.
  - destruct (sched_ok h s OpNext) as (e & s' & ? & ? & ?); eauto.
  - destruct (sched_ok h s OpSuspend) as (e & s' & ? & ? & ?); eauto.
  - destruct Hal as (p & Hp & Hne). destruct (current_rel _ _ _ Hs Hp) as [r Hr].
    destruct (exit_ok h s code p r) as (s' & ? & ? & ?); eauto.
  - destruct Hal as [p Hp]. destruct (wait_ok h s child p Hs Hp) as (r & o & r' & ? & ? & ? & ?).
    eauto.
Qed.

(** ** Boot and runs *)
Definition empty_manager (mgr : M) : Prop := tasks_of mgr = ∅ ∧ ready_of mgr = [].

Lemma boot_ok mgr t : empty_manager mgr → ∃ s, boot mgr t = Done s ∧ psys_ok [] s.
Proof.
  intros [Htk Hrd].
  destruct (pm_add_run (PManager_set_manager mgr PManager_new) 0 t usize_max)
    as (pm' & rm & Hrun & Hinv & Hcur & Hrm & Hdom & Hoth & _).
  - split; [apply tree_ok_empty|]. exists mgr. simpl. rewrite Htk, Hrd. by rewrite !dom_empty_L.
  - split; [done|]. intros k r Hk. simpl in Hk. by rewrite lookup_empty in Hk.
  - done.
  - by left.
  - unfold boot, ProcId_new. rewrite Hrun; simpl. eexists. split; [done|].
    simpl in Hdom. rewrite dom_empty_L in Hdom. apply dom_empty_inv_L in Hdom as ->.
    assert (∀ k r, rel_map pm' !! k = Some r → k = 0 ∧ r = ProcRel_new usize_max) as Honly.
    { intros k r. rewrite Hrm. intros [[<- <-]|[_ H]]%lookup_insert_Some; [done|].
      by rewrite lookup_empty in H. }
    split; simpl; try done.
    + intros k r [-> _]%Honly. done.
    + rewrite Hrm. by rewrite lookup_insert_eq.
    + by intros k r [-> _]%Honly.
    + intros k r d [_ ->]%Honly Hd. by apply not_elem_of_nil in Hd.
    + intros k k' r r' c [-> _]%Honly [-> _]%Honly. done.
    + apply NoDup_nil_2.
    + intros c Hc. by apply not_elem_of_nil in Hc.
    + intros p t' d Hd. by apply not_elem_of_nil in Hd.
Qed.

Lemma ptrace_ok s h h' s' : psys_ok h s → ptrace s h' s' → psys_ok (h ++ h') s'.
Proof.
  intros Hs Htr. induction Htr as [s|s h' s1 op e s2 Htr IH Hal Hrun].
  - by rewrite app_nil_r.
  - destruct (prun_ok _ _ op (IH Hs) Hal) as (e' & s' & Hrun' & Hok).
    rewrite Hrun in Hrun'. simplify_eq. by rewrite app_assoc.
Qed.

End PSystem.
