(* ===== verification/Schedulers.v ===== *)
(** * The kernels' task managers

    Models the implementations of [Manage] and [Schedule]:
    - [ThreadManager] and [ProcManager] of [tg-rcore-tutorial-ch8/src/processor.rs]
      (and [ProcManager] of ch7, the same code): a table and a FIFO queue;
    - [ProcManager] and [Stride] of [tg-rcore-tutorial-ch5/src/{processor,process}.rs]
      (ch6 has the same code): a table and a priority queue of strides.
    They discharge the promises [PManager] and [PThreadManager] rely on. *)

From S2P Require Import Prelude TaskRel ProcManage.

(** ** FIFO (ch7, ch8) *)
Section Fifo.
Context {T : Type}.

Record ThreadManager := mkThreadManager {
  fifo_tasks : gmap Z T;
  fifo_queue : list Z;
}.
Implicit Types (m : ThreadManager).

Definition ThreadManager_new : ThreadManager := mkThreadManager ∅ [].

Definition ThreadManager_insert (id : Z) (task : T) m : ThreadManager :=
  mkThreadManager (<[id := task]> (fifo_tasks m)) (fifo_queue m).
Definition ThreadManager_get (id : Z) m : option T := fifo_tasks m !! id.
Definition ThreadManager_update (id : Z) (f : T → T) m : ThreadManager :=
  mkThreadManager (alter f id (fifo_tasks m)) (fifo_queue m).
Definition ThreadManager_delete (id : Z) m : ThreadManager :=
  mkThreadManager (delete id (fifo_tasks m)) (fifo_queue m).

Definition ThreadManager_add (id : Z) m : ThreadManager :=
  mkThreadManager (fifo_tasks m) (fifo_queue m ++ [id]).
Definition ThreadManager_fetch m : option Z * ThreadManager :=
  let '(r, q) := pop_front (fifo_queue m) in (r, mkThreadManager (fifo_tasks m) q).

#[export] Instance fifo_manage : Manage ThreadManager T := {|
  m_insert := ThreadManager_insert;
  m_delete := ThreadManager_delete;
  m_get := ThreadManager_get;
  m_update := ThreadManager_update;
|}.
#[export] Instance fifo_schedule : Schedule ThreadManager := {|
  s_add id m := Done (ThreadManager_add id m);
  s_fetch m := Done (ThreadManager_fetch m);
|}.
#[export] Instance fifo_manage_spec : ManageSpec ThreadManager T.
Proof. by refine {| tasks_of := fifo_tasks |}. Defined.

#[export] Instance fifo_schedule_spec : ScheduleSpec ThreadManager T.
Proof.
  refine {| ready_of := fifo_queue; fetch_safe := fun _ => True |}; [done..| |].
  - intros id m _. eexists. split; [done|]. split; [done|]. simpl.
    by rewrite Permutation_app_comm.
  - intros [tk [|id q]] _ _; eexists _, _; (split; [done|]); done.
Defined.

(** [i] rounds in which the running task is put back and the next one fetched. *)
Fixpoint fifo_rounds (i : nat) (running : Z) m : option Z * ThreadManager :=
  match i with
  | O => (Some running, m)
  | S i' =>
      match ThreadManager_fetch (ThreadManager_add running m) with
      | (Some id, m') => fifo_rounds i' id m'
      | (None, m') => (None, m')
      end
  end.

Lemma fifo_rounds_turn i id m running :
  fifo_queue m !! i = Some id → (fifo_rounds (S i) running m).1 = Some id.
Proof.
  revert m running. induction i as [|i IH]; intros [tk q] running Hq; simpl in Hq;
    destruct q as [|x q]; try done.
  change ((fifo_rounds (S i) x (mkThreadManager tk (q ++ [running]))).1 = Some id).
  apply IH. simpl. by apply lookup_app_l_Some.
Qed.
End Fifo.
Arguments ThreadManager T : clear implicits.

(** [ProcManager] of ch8: the table alone. *)
Section ProcTable.
Context {T : Type}.
Record ProcManager := mkProcManager { proc_table : gmap Z T }.
Definition ProcManager_new : ProcManager := mkProcManager ∅.
Definition ProcManager_insert (id : Z) (item : T) (m : ProcManager) : ProcManager :=
  mkProcManager (<[id := item]> (proc_table m)).
Definition ProcManager_get (id : Z) (m : ProcManager) : option T := proc_table m !! id.
Definition ProcManager_update (id : Z) (f : T → T) (m : ProcManager) : ProcManager :=
  mkProcManager (alter f id (proc_table m)).
Definition ProcManager_delete (id : Z) (m : ProcManager) : ProcManager :=
  mkProcManager (delete id (proc_table m)).
#[export] Instance proc_table_manage : Manage ProcManager T := {|
  m_insert := ProcManager_insert;
  m_delete := ProcManager_delete;
  m_get := ProcManager_get;
  m_update := ProcManager_update;
|}.
#[export] Instance proc_table_spec : ManageSpec ProcManager T.
Proof. by refine {| tasks_of := proc_table |}. Defined.
End ProcTable.
Arguments ProcManager T : clear implicits.

(** ** Stride (ch5, ch6) *)

Definition BIGSTRIDE : Z := 200.
Record Stride := mkStride { priority : Z; stride : Z }.
Definition Stride_new : Stride := mkStride 16 0.
(** Rust's [/] panics on a zero divisor. *)
Definition Stride_get_pass (s : Stride) : outcome Z :=
  if priority s =? 0 then Panic else Done (BIGSTRIDE / priority s).
Definition Stride_update (s : Stride) : outcome Stride :=
  pass ← Stride_get_pass s;
  new ← usize_add (stride s) pass;
  Done (mkStride (priority s) new).

(** [set_priority]: the guard keeps priorities at 2 and above. *)
Definition Stride_set_priority (prio : Z) (s : Stride) : Z * Stride :=
  if 2 <=? prio then (prio, mkStride (as_usize prio) (stride s)) else (-1, s).

(** The process structure seen through its [stride] field. *)
Class HasStride (T : Type) := {
  stride_of : T → Stride;
  with_stride : Stride → T → T;
  stride_with s t : stride_of (with_stride s t) = s;
}.

(** [StridePair(id, stride)]; [cmp] is reversed, so that the greatest pair is
    the one with the least stride. *)
Abbreviation StridePair := (Z * Stride)%type (only parsing).
Definition StridePair_cmp (a b : StridePair) : comparison := stride b.2 ?= stride a.2.
Definition pair_le (a b : StridePair) : Prop := StridePair_cmp a b ≠ Gt.

(** [alloc::collections::BinaryHeap] as its documentation states it: [pop]
    returns a greatest element (which of several equals is not specified). *)
Class BinaryHeap (H A : Type) (le : A → A → Prop) := {
  heap_empty : H;
  heap_push : A → H → H;
  heap_pop : H → option (A * H);
  heap_elems : H → list A;
  heap_empty_elems : heap_elems heap_empty = [];
  heap_push_elems a h : heap_elems (heap_push a h) ≡ₚ a :: heap_elems h;
  heap_pop_elems h :
    match heap_pop h with
    | None => heap_elems h = []
    | Some (a, h') => heap_elems h ≡ₚ a :: heap_elems h' ∧ ∀ b, b ∈ heap_elems h → le b a
    end;
}.

Section StrideManager.
Context {T H : Type} `{!HasStride T, !BinaryHeap H StridePair pair_le}.

Record StrideManager := mkStrideManager {
  sm_tasks : gmap Z T;
  sm_queue : H;
}.
Implicit Types (m : StrideManager).

Definition StrideManager_new : StrideManager := mkStrideManager ∅ heap_empty.
Definition StrideManager_insert (id : Z) (task : T) m : StrideManager :=
  mkStrideManager (<[id := task]> (sm_tasks m)) (sm_queue m).
Definition StrideManager_get (id : Z) m : option T := sm_tasks m !! id.
Definition StrideManager_update (id : Z) (f : T → T) m : StrideManager :=
  mkStrideManager (alter f id (sm_tasks m)) (sm_queue m).
Definition StrideManager_delete (id : Z) m : StrideManager :=
  mkStrideManager (delete id (sm_tasks m)) (sm_queue m).

Definition StrideManager_add (id : Z) m : outcome StrideManager :=
  t ← unwrap (sm_tasks m !! id);
  Done (mkStrideManager (sm_tasks m) (heap_push (id, stride_of t) (sm_queue m))).

Definition StrideManager_fetch m : outcome (option Z * StrideManager) :=
  match heap_pop (sm_queue m) with
  | None => Done (None, m)
  | Some ((id, _), q) =>
      t ← unwrap (sm_tasks m !! id);
      s ← Stride_update (stride_of t);
      Done (Some id, mkStrideManager (<[id := with_stride s t]> (sm_tasks m)) q)
  end.

#[export] Instance stride_manage : Manage StrideManager T := {|
  m_insert := StrideManager_insert;
  m_delete := StrideManager_delete;
  m_get := StrideManager_get;
  m_update := StrideManager_update;
|}.
#[export] Instance stride_schedule : Schedule StrideManager := {|
  s_add := StrideManager_add;
  s_fetch := StrideManager_fetch;
|}.
#[export] Instance stride_manage_spec : ManageSpec StrideManager T.
Proof. by refine {| tasks_of := sm_tasks |}. Defined.

Definition queue_ids m : list Z := (heap_elems (sm_queue m)).*1.

(** Strides stay in range and priorities are not zero. *)
Definition stride_ok (s : Stride) : Prop :=
  0 < priority s ∧ 0 ≤ stride s ∧ stride s + BIGSTRIDE ≤ usize_max.
Definition strides_ok m : Prop := ∀ id t, sm_tasks m !! id = Some t → stride_ok (stride_of t).

Lemma pass_range p : 0 < p → 0 ≤ BIGSTRIDE / p ≤ BIGSTRIDE.
Proof. intros. split; [apply Z.div_pos; [done|lia]|]. apply Z.div_le_upper_bound; unfold BIGSTRIDE; lia. Qed.

Lemma Stride_update_run s : stride_ok s →
  Stride_update s = Done (mkStride (priority s) (stride s + BIGSTRIDE / priority s)).
Proof.
  intros (Hp & Hs & Hm). pose proof (pass_range _ Hp).
  unfold Stride_update, Stride_get_pass. rewrite (proj2 (Z.eqb_neq _ 0)) by lia.
  simpl. unfold usize_add. by rewrite checked_ok by lia.
Qed.

(** One [fetch]: the popped pair has the least recorded stride, and its task is
    charged one pass. *)
Lemma fetch_run m : strides_ok m → (∀ id, id ∈ queue_ids m → id ∈ dom (sm_tasks m)) →
  ∃ r m', StrideManager_fetch m = Done (r, m') ∧ dom (sm_tasks m') = dom (sm_tasks m) ∧
    match r with
    | None => queue_ids m = [] ∧ m' = m
    | Some id => ∃ s t, heap_elems (sm_queue m) ≡ₚ (id, s) :: heap_elems (sm_queue m') ∧
        (∀ b, b ∈ heap_elems (sm_queue m) → stride s ≤ stride b.2) ∧
        sm_tasks m !! id = Some t ∧
        sm_tasks m' = <[id := with_stride (mkStride (priority (stride_of t))
          (stride (stride_of t) + BIGSTRIDE / priority (stride_of t))) t]> (sm_tasks m)
    end.
Proof.
  intros Hok Hdom. unfold StrideManager_fetch, queue_ids in *.
  pose proof (heap_pop_elems (sm_queue m)) as Hpop.
  destruct (heap_pop (sm_queue m)) as [[[id s] q]|].
  - destruct Hpop as [HP Hmax].
    assert (id ∈ dom (sm_tasks m)) as Hid.
    { apply Hdom. rewrite HP. simpl. set_solver. }
    pose proof Hid as [t Ht]%elem_of_dom. rewrite Ht; simpl.
    rewrite Stride_update_run by (by eapply Hok). simpl.
    eexists _, _. split; [done|]. simpl. split; [rewrite dom_insert_L; set_solver|].
    exists s, t. split_and!; [done| |done|done].
    intros b Hb. specialize (Hmax b Hb). unfold pair_le, StridePair_cmp in Hmax. simpl in Hmax.
    by destruct (Z.compare_spec (stride s) (stride b.2)); try lia.
  - eexists _, _. split; [done|]. split; [done|]. by rewrite Hpop.
Qed.

#[export] Instance stride_schedule_spec : ScheduleSpec StrideManager T.
Proof.
  refine {| ready_of := queue_ids; fetch_safe := strides_ok |}; [done..| |].
  - intros id m [t Ht]%elem_of_dom. simpl. unfold StrideManager_add.
    simpl in Ht. rewrite Ht; simpl. eexists. split; [done|]. split; [done|].
    unfold queue_ids; simpl. by rewrite heap_push_elems.
  - intros m Hsafe Hdom. destruct (fetch_run m Hsafe Hdom) as (r & m' & Hf & Hd & Hr).
    exists r, m'. split_and!; [done|done|]. destruct r as [id|].
    + destruct Hr as (s & t & HP & _). unfold queue_ids. by rewrite HP.
    + destruct Hr as [? ->]. done.
Defined.

(** The strides recorded in the queue are those of the tasks. *)
Definition queue_fresh m : Prop := ∀ p, p ∈ heap_elems (sm_queue m) →
  ∃ t, sm_tasks m !! p.1 = Some t ∧ stride_of t = p.2.

(** All queued strides lie within [B] of each other. *)
Definition spread_le (B : Z) m : Prop := ∀ a b,
  a ∈ heap_elems (sm_queue m) → b ∈ heap_elems (sm_queue m) → stride a.2 ≤ stride b.2 + B.
End StrideManager.
Arguments StrideManager T H : clear implicits.

(** A [BinaryHeap] exists: a list whose [pop] takes the first greatest element. *)
Section ListHeap.
Fixpoint best (x : StridePair) (l : list StridePair) : StridePair * list StridePair :=
  match l with
  | [] => (x, [])
  | y :: l' =>
      if stride x.2 <=? stride y.2 then let '(b, r) := best x l' in (b, y :: r)
      else let '(b, r) := best y l' in (b, x :: r)
  end.

Lemma best_spec x l :
  x :: l ≡ₚ (best x l).1 :: (best x l).2 ∧
  ∀ b, b ∈ x :: l → stride (best x l).1.2 ≤ stride b.2.
Proof.
  revert x. induction l as [|y l IH]; intros x; simpl.
  - split; [done|]. intros b ->%list_elem_of_singleton. lia.
  - destruct (stride x.2 <=? stride y.2) eqn:E.
    + apply Z.leb_le in E. specialize (IH x). destruct (best x l) as [b r]; simpl in *.
      destruct IH as [HP Hm]. split; [rewrite (Permutation_swap y x), HP; apply Permutation_swap|].
      pose proof (Hm x ltac:(set_solver)).
      intros c [->|[->|Hc]%elem_of_cons]%elem_of_cons; [lia|lia|]. apply Hm. set_solver.
    + apply Z.leb_gt in E. specialize (IH y). destruct (best y l) as [b r]; simpl in *.
      destruct IH as [HP Hm]. split; [by rewrite HP, Permutation_swap|].
      pose proof (Hm y ltac:(set_solver)).
      intros c [->|[->|Hc]%elem_of_cons]%elem_of_cons; [lia|lia|]. apply Hm. set_solver.
Qed.

#[export] Instance list_heap : BinaryHeap (list StridePair) StridePair pair_le.
Proof.
  refine {|
    heap_empty := []; heap_push := cons; heap_elems l := l;
    heap_pop l := match l with [] => None | x :: l' => Some (best x l') end |}; [done..|].
  intros [|x l]; [done|]. destruct (best_spec x l) as [HP Hm].
  destruct (best x l) as [b r]; simpl in *. split; [done|].
  intros c Hc. unfold pair_le, StridePair_cmp. specialize (Hm c Hc). simpl in Hm.
  by destruct (Z.compare_spec (stride b.2) (stride c.2)); try lia.
Defined.
End ListHeap.

(** A task that is only its stride, for concrete runs. *)
#[export] Instance stride_self : HasStride Stride :=
  {| stride_of s := s; with_stride s _ := s; stride_with s _ := eq_refl |}.
