(* ===== verification/ProcTheorems.v ===== *)
(** * Theorems about processes and their scheduling

    The promises of [PManager] over every run of the process system, and of the
    two schedulers behind it. *)

From S2P Require Import Prelude TaskRel ProcManage ProcTree ProcInvariant ProcSystem Schedulers.

(** ** Delivery of exit codes *)
Section Delivery.
Context {M T : Type} `{!Manage M T, !ManageSpec M T, !Schedule M, !ScheduleSpec M T}.
Implicit Types (s : psys (M := M)) (h : list pevent).

(** [p] holds the exit code [code] of its dead child [c]. *)
Definition holds s (p c code : Z) : Prop :=
  ∃ r, rel_map (procs s) !! p = Some r ∧ (c, code) ∈ dead_children r.

Lemma holds_exit h s s' p c code k code' r :
  psys_ok h s → holds s p c code → k ≠ p →
  (∀ q, rel_map (procs s') !! q =
     if decide (q = k) then None else after_exit k code' r q <$> rel_map (procs s) !! q) →
  holds s' p c code.
Proof.
  intros Hs (rp & Hrp & Hin) Hkp Hlook. exists (after_exit k code' r p rp).
  rewrite Hlook, decide_False, Hrp by congruence. split; [done|].
  unfold after_exit, adopt. set (x := if decide (p = parent r) then _ else _).
  assert ((c, code) ∈ dead_children x) as Hx.
  { unfold x. case_decide; [|done]. destruct (decide (k ∈ children rp)) as [Hk|Hk].
    - destruct (del_child_present k code' rp Hk) as [-> _]. set_solver.
    - by rewrite del_child_absent. }
  clearbody x. by repeat case_decide.
Qed.

(** A code stays until its holder exits or a [wait] collects it. *)
Lemma holds_step h s op e s' p c code :
  psys_ok h s → allowed op s → prun op s = Done (e, s') →
  holds s p c code → (∀ code', e ≠ EvExit p code') → collected_ev e ≠ Some c →
  holds s' p c code.
Proof.
  intros Hs Hal Hrun Hh Hne Hnc. pose proof Hh as (rp & Hrp & Hin).
  assert (c ≠ still_running) as Hcr.
  { pose proof (s_dead _ _ Hs _ _ _ Hrp Hin) as (_ & _ & ?). pose proof (s_pid _ _ Hs).
    simpl in *. lia. }
  destruct op as [t|f| | |code'|child].
  - destruct Hal as [[q Hq] Hlt]. destruct (current_rel _ _ _ Hs Hq) as [r Hr].
    pose proof (s_pid _ _ Hs). pose proof still_running_lt.
    pose proof (s_below _ _ Hs _ _ Hr). pose proof (s_below _ _ Hs _ _ Hrp).
    destruct (pm_add_run (procs s) (next_pid s) t q) as
      (pm' & rm & Hadd & _ & _ & Hrm & _ & Hoth & Hpar);
      [apply (s_inv _ _ Hs)|by eapply fresh_pid|lia|right; eauto|].
    destruct (t_range _ (tree_of _ _ Hs) _ _ Hr) as [? _].
    simpl in Hrun. rewrite Hq in Hrun. simpl in Hrun. rewrite Hadd in Hrun. simplify_eq/=.
    unfold holds; simpl. rewrite Hrm, lookup_insert_ne by lia.
    destruct (decide (p = q)) as [->|Hpq].
    + rewrite (Hpar ltac:(lia)), Hrp. simpl. eauto.
    + rewrite Hoth by done. eauto.
  - destruct (exec_ok h s f Hs Hal) as (e' & s'' & Hrun' & _ & Hrm).
    rewrite Hrun in Hrun'. simplify_eq. unfold holds. by rewrite Hrm.
  - destruct (sched_ok h s OpNext Hs Hal) as (e' & s'' & Hrun' & _ & Hrm); [by left|].
    rewrite Hrun in Hrun'. simplify_eq. unfold holds. by rewrite Hrm.
  - destruct (sched_ok h s OpSuspend Hs Hal) as (e' & s'' & Hrun' & _ & Hrm); [by right|].
    rewrite Hrun in Hrun'. simplify_eq. unfold holds. by rewrite Hrm.
  - destruct Hal as (k & Hk & Hk0). destruct (current_rel _ _ _ Hs Hk) as [r Hr].
    destruct (exit_ok h s code' k r Hs Hk Hk0 Hr) as (s'' & Hrun' & _ & Hlook).
    rewrite Hrun in Hrun'. simplify_eq. eapply holds_exit; [done|done| |done].
    intros ->. by eapply Hne.
  - destruct Hal as [q Hq]. destruct (wait_ok h s child q Hs Hq)
      as (r & o & r' & Hr & Heff & Hrun' & _).
    rewrite Hrun in Hrun'. simplify_eq. unfold holds; simpl.
    destruct (decide (p = q)) as [->|Hpq]; [|rewrite lookup_insert_ne by done; eauto].
    rewrite lookup_insert_eq. exists r'. split; [done|]. simplify_eq.
    destruct Heff as [| |d r' _ _ HP _]; [done|done|].
    rewrite HP in Hin. apply elem_of_cons in Hin as [<-|Hin]; [|done].
    exfalso. apply Hnc. simpl. by rewrite (proj2 (Z.eqb_neq _ _)).
Qed.

Lemma holds_trace h s h' s' p c code :
  psys_ok h s → ptrace s h' s' → holds s p c code →
  (∀ code', EvExit p code' ∉ h') → c ∉ collected h' → holds s' p c code.
Proof.
  intros Hs Htr Hh. induction Htr as [s|s h' s1 op e s2 Htr IH Hal Hrun]; [done|].
  intros Hex Hcol. rewrite collected_snoc in Hcol.
  eapply (holds_step (h ++ h') s1 op e s2); [by eapply ptrace_ok|done|done| | |].
  - apply IH; [done|done| |]; [intros code' ?; apply (Hex code')|]; set_solver.
  - intros code' ->. apply (Hex code'). set_solver.
  - intros E. apply Hcol. rewrite E. simpl. set_solver.
Qed.

(** A process that exits under a living parent leaves its code there. *)
Lemma exit_holds h s p c code r s' :
  psys_ok h s → current (procs s) = Some c → c ≠ 0 →
  rel_map (procs s) !! c = Some r → parent r = p →
  prun (OpExit code) s = Done (EvExit c code, s') → holds s' p c code.
Proof.
  intros Hs Hc Hne Hr Hp Hrun. pose proof (tree_of _ _ Hs) as Ht.
  destruct (exit_ok h s code c r Hs Hc Hne Hr) as (s'' & Hrun' & _ & Hlook).
  rewrite Hrun in Hrun'. simplify_eq.
  assert (parent r ≠ usize_max) as Hm.
  { intros E. by apply Hne, (s_root _ _ Hs _ _ Hr). }
  assert (lists (rel_map (procs s)) (parent r) c) as Hl.
  { apply (t_fam _ Ht). split; [by exists r|done]. }
  pose proof (lists_child _ _ _ Ht Hl) as (_ & _ & _ & Hlt).
  destruct Hl as (rp & Hrp & Hin). exists (after_exit c code r (parent r) rp).
  rewrite Hlook, decide_False, Hrp by lia. split; [done|].
  destruct (del_child_present c code rp Hin) as [Hd _].
  unfold after_exit, adopt. rewrite (decide_True (P := parent r = parent r)) by done.
  repeat case_decide; simpl; rewrite Hd; set_solver.
Qed.

Lemma wait_holds h s p c code :
  psys_ok h s → current (procs s) = Some p → holds s p c code → c ≠ usize_max →
  ∃ s', prun (OpWait c) s = Done (EvWait p c (Some (c, code)), s').
Proof.
  intros Hs Hp (r0 & Hr0 & Hin) Hm.
  destruct (wait_ok h s c p Hs Hp) as (r & o & r' & Hr & Heff & Hrun & _).
  assert (r0 = r) as -> by congruence.
  pose proof (t_wf _ (tree_of _ _ Hs) _ _ Hr) as Hwf. apply NoDup_app in Hwf as (_ & Hdis & Hnd).
  assert (c ∈ (dead_children r).*1) as Hc1 by (by apply (list_elem_of_fmap_2 fst) in Hin).
  destruct Heff as [_ Hn|_ Hn|d r' _ _ HP Hd].
  - exfalso. apply (Hn Hm). unfold known. set_solver.
  - exfalso. by apply (Hdis c (Hn Hm)).
  - specialize (Hd Hm). destruct d as [c' code']; simpl in Hd; subst c'.
    rewrite HP in Hin. apply elem_of_cons in Hin as [[= <-]|Hin]; [eauto|].
    rewrite HP in Hnd. simpl in Hnd. apply NoDup_cons in Hnd as [Hnot _].
    exfalso. apply Hnot. by apply (list_elem_of_fmap_2 fst) in Hin.
Qed.

Lemma ptrace_prefix s h1 e h2 s' : ptrace s (h1 ++ e :: h2) s' →
  ∃ s1, ptrace s (h1 ++ [e]) s1.
Proof.
  revert s'. induction h2 as [|x h2 IH] using rev_ind; intros s' Htr; [by eexists|].
  remember (h1 ++ e :: h2 ++ [x]) as l eqn:El.
  destruct Htr as [|s h' s1 op e' s2 Htr' Hal Hrun]; [by destruct h1|].
  rewrite app_comm_cons, app_assoc in El. apply app_inj_tail in El as [-> _]. eauto.
Qed.

(** C1: Safety of the process system: from boot, along every sequence of allowed
    operations, the manager's invariant holds (the task table and the family tree
    hold the same processes, each ready or running, never twice) and no allowed
    operation panics. *)
Theorem process_system_safe mgr t s0 h s :
  empty_manager mgr → boot mgr t = Done s0 → ptrace s0 h s →
  pm_inv (procs s) ∧ ∀ op, allowed op s → ∃ e s', prun op s = Done (e, s').
Proof.
  intros Hm Hb Htr. destruct (boot_ok mgr t Hm) as (s0' & Hb' & Hok).
  rewrite Hb in Hb'. simplify_eq. pose proof (ptrace_ok _ _ _ _ Hok Htr) as Hs.
  split; [apply (s_inv _ _ Hs)|]. intros op Hal.
  destruct (prun_ok _ _ op Hs Hal) as (e & s' & ? & _). eauto.
Qed.

(** In every reachable state every process other than process 0 has a living
    parent, older than itself, which lists it as a child exactly once; process 0
    is alive. *)
Theorem process_parents mgr t s0 h s k r :
  empty_manager mgr → boot mgr t = Done s0 → ptrace s0 h s →
  rel_map (procs s) !! k = Some r → k ≠ 0 →
  is_Some (rel_map (procs s) !! 0) ∧
  ∃ rp, rel_map (procs s) !! parent r = Some rp ∧ 0 ≤ parent r < k ∧
    ∃ l, children rp ≡ₚ k :: l ∧ k ∉ l.
Proof.
  intros Hm Hb Htr Hk Hk0. destruct (boot_ok mgr t Hm) as (s0' & Hb' & Hok).
  rewrite Hb in Hb'. simplify_eq. pose proof (ptrace_ok _ _ _ _ Hok Htr) as Hs.
  pose proof (tree_of _ _ Hs) as Ht. split; [apply (s_init _ _ Hs)|].
  assert (lists (rel_map (procs s)) (parent r) k) as Hl.
  { apply (t_fam _ Ht). split; [by exists r|]. intros E. by apply Hk0, (s_root _ _ Hs _ _ Hk). }
  pose proof (lists_child _ _ _ Ht Hl) as (rk & Hrk & _ & Hlt).
  destruct Hl as (rp & Hrp & Hin). exists rp. split_and!; [done|lia|lia|].
  pose proof (t_wf _ Ht _ _ Hrp) as Hwf. apply NoDup_app in Hwf as [Hnd _].
  apply elem_of_Permutation in Hin as [l HP]. exists l. split; [done|].
  rewrite HP in Hnd. by apply NoDup_cons in Hnd as [? _].
Qed.

(** C3: Exit codes are delivered at most once, and never invented: along every run,
    no pid is handed out by two [wait]s, and a [wait] that hands out [(c, code)]
    comes after the exit of [c] with that code. *)
Theorem exit_code_once mgr t s0 h s :
  empty_manager mgr → boot mgr t = Done s0 → ptrace s0 h s →
  NoDup (collected h) ∧
  ∀ h1 p target d h2, h = h1 ++ EvWait p target (Some d) :: h2 →
    d = (still_running, -1) ∨ EvExit d.1 d.2 ∈ h1.
Proof.
  intros Hm Hb Htr. destruct (boot_ok mgr t Hm) as (s0' & Hb' & Hok).
  rewrite Hb in Hb'. simplify_eq. split.
  - apply (s_once _ _ (ptrace_ok _ _ _ _ Hok Htr)).
  - intros h1 p target d h2 ->. destruct (ptrace_prefix _ _ _ _ _ Htr) as [s1 Htr1].
    destruct (s_src _ _ (ptrace_ok _ _ _ _ Hok Htr1) p target d) as [?|Hin];
      [set_solver|by left|right]. set_solver.
Qed.

(** C2: Exit codes are not lost: when [c], child of [p], exits with [code], then
    however the run goes on, as long as [p] does not exit and nobody collected
    [c], a [wait] for [c] issued by [p] returns [(c, code)]. *)
Theorem exit_code_delivered mgr t s0 h s c r code s1 h' s2 :
  empty_manager mgr → boot mgr t = Done s0 → ptrace s0 h s →
  current (procs s) = Some c → c ≠ 0 → rel_map (procs s) !! c = Some r →
  prun (OpExit code) s = Done (EvExit c code, s1) → ptrace s1 h' s2 →
  (∀ code', EvExit (parent r) code' ∉ h') → c ∉ collected h' →
  current (procs s2) = Some (parent r) →
  ∃ s3, prun (OpWait c) s2 = Done (EvWait (parent r) c (Some (c, code)), s3).
Proof.
  intros Hm Hb Htr Hc Hne Hr Hex Htr2 Hnex Hnc Hcur.
  destruct (boot_ok mgr t Hm) as (s0' & Hb' & Hok). rewrite Hb in Hb'. simplify_eq.
  pose proof (ptrace_ok _ _ _ _ Hok Htr) as Hs.
  pose proof (exit_holds _ _ _ _ code _ _ Hs Hc Hne Hr eq_refl Hex) as Hh.
  destruct (exit_ok _ _ code _ _ Hs Hc Hne Hr) as (s1' & Hex' & Hs1 & _).
  rewrite Hex in Hex'. simplify_eq.
  apply (wait_holds (([] ++ h ++ [EvExit c code]) ++ h')); [by eapply ptrace_ok|done| |].
  - by eapply holds_trace.
  - pose proof (s_below _ _ Hs _ _ Hr). pose proof (s_pid _ _ Hs).
    pose proof still_running_lt. lia.
Qed.

(** Process 0 must not exit while it has children: it would be removed before
    its children are handed over to it, and the kernel panics. *)
Theorem init_exit_panics (pm : PManager M) mgr r code :
  current pm = Some 0 → manager pm = Some mgr → rel_map pm !! 0 = Some r →
  children r ≠ [] → (0 ∉ children r) → (∀ c, c ∈ children r → is_Some (rel_map pm !! c)) →
  PManager_make_current_exited code pm = Panic.
Proof.
  intros Hc Hm Hr Hne H0 Hch. unfold PManager_make_current_exited.
  rewrite Hc; simpl. rewrite Hm; simpl. rewrite Hr; simpl.
  destruct (children r) as [|c cs]; [done|]. apply not_elem_of_cons in H0 as [H0 _].
  set (rm := alter _ _ _). assert (rm !! 0 = None) as Hn.
  { unfold rm. rewrite lookup_alter_None. apply lookup_delete_eq. }
  simpl. destruct (rm !! c) as [rc|] eqn:E; [|done]. simpl.
  by rewrite lookup_insert_ne, Hn by done.
Qed.
End Delivery.

(** ** A concrete run *)
Section Runs.
Context {M T : Type} `{!Manage M T, !ManageSpec M T, !Schedule M, !ScheduleSpec M T}.

(** Execute a list of operations. *)
Fixpoint run_ops (ops : list (pop (T := T))) (s : psys (M := M)) :
    outcome (list pevent * psys (M := M)) :=
  match ops with
  | [] => Done ([], s)
  | op :: ops' =>
      '(e, s1) ← prun op s;
      '(h, s2) ← run_ops ops' s1;
      Done (e :: h, s2)
  end.

Fixpoint all_allowed (ops : list (pop (T := T))) (s : psys (M := M)) : Prop :=
  match ops with
  | [] => True
  | op :: ops' => allowed op s ∧
      match prun op s with Done (_, s1) => all_allowed ops' s1 | _ => False end
  end.

Lemma ptrace_cons (s : psys (M := M)) op e s1 h s2 :
  allowed op s → prun op s = Done (e, s1) → ptrace s1 h s2 → ptrace s (e :: h) s2.
Proof.
  intros Hal Hrun Htr. induction Htr as [s1|s1 h s3 op' e' s4 Htr IH Hal' Hrun'].
  - apply (PTsnoc s [] s op e s1); [constructor|done|done].
  - rewrite app_comm_cons. by eapply PTsnoc; [apply IH| |].
Qed.

Lemma run_ops_trace ops (s : psys (M := M)) h s' :
  all_allowed ops s → run_ops ops s = Done (h, s') → ptrace s h s'.
Proof.
  revert s h. induction ops as [|op ops IH]; intros s h Hall Hrun; simpl in *.
  - simplify_eq. constructor.
  - destruct Hall as [Hal Hall]. destruct (prun op s) as [[e s1]| |] eqn:E; try done.
    simpl in Hrun. destruct (run_ops ops s1) as [[h1 s2]| |] eqn:E2; try done.
    simpl in Hrun. simplify_eq. by eapply ptrace_cons; eauto.
Qed.
End Runs.

Abbreviation demo_sys := (psys (M := ThreadManager unit)) (only parsing).
Definition demo_boot : demo_sys := match boot (ThreadManager_new (T := unit)) () with
  | Done s => s | _ => mkPsys PManager_new 0 end.
Definition demo_run (ops : list (pop (T := unit))) : list pevent * demo_sys :=
  match run_ops ops demo_boot with Done r => r | _ => ([], demo_boot) end.

(** Process 0 forks process 1 and yields; process 1 runs. *)
Definition demo_fork : list (pop (T := unit)) := [OpNext; OpFork (); OpSuspend; OpNext].

Ltac demo_allowed := vm_compute; repeat split; eauto; try (eexists; split; [reflexivity|lia]).

Lemma demo_trace : ptrace demo_boot (demo_run demo_fork).1 (demo_run demo_fork).2.
Proof. apply (run_ops_trace demo_fork); [demo_allowed|reflexivity]. Qed.

Lemma process_system_safe_witness :
  current (procs (demo_run demo_fork).2) = Some 1 ∧
  pm_inv (procs (demo_run demo_fork).2) ∧
  ∀ op, allowed op (demo_run demo_fork).2 → ∃ e s', prun op (demo_run demo_fork).2 = Done (e, s').
Proof.
  split; [reflexivity|].
  apply (process_system_safe ThreadManager_new () demo_boot (demo_run demo_fork).1);
    [by split|reflexivity|apply demo_trace].
Defined.

Lemma process_parents_witness :
  is_Some (rel_map (procs (demo_run demo_fork).2) !! 0) ∧
  ∃ rp, rel_map (procs (demo_run demo_fork).2) !! 0 = Some rp ∧ 0 ≤ 0 < 1 ∧
    ∃ l, children rp ≡ₚ 1 :: l ∧ 1 ∉ l.
Proof.
  apply (process_parents ThreadManager_new () demo_boot (demo_run demo_fork).1 _ 1 (ProcRel_new 0));
    [by split|reflexivity|apply demo_trace|reflexivity|lia].
Defined.

(** Then process 1 exits with 7 and process 0 collects it. *)
Definition demo_exit : list (pop (T := unit)) := demo_fork ++ [OpExit 7; OpNext; OpWait 1].

Lemma exit_code_once_witness :
  collected (demo_run demo_exit).1 = [1] ∧
  (NoDup (collected (demo_run demo_exit).1) ∧
   ∀ h1 p target d h2, (demo_run demo_exit).1 = h1 ++ EvWait p target (Some d) :: h2 →
     d = (still_running, -1) ∨ EvExit d.1 d.2 ∈ h1).
Proof.
  split; [reflexivity|].
  apply (exit_code_once ThreadManager_new () demo_boot _ (demo_run demo_exit).2);
    [by split|reflexivity|].
  apply (run_ops_trace demo_exit); [demo_allowed|reflexivity].
Defined.

Lemma exit_code_delivered_witness :
  ∃ s3, prun (OpWait 1) (demo_run (demo_fork ++ [OpExit 7; OpNext])).2
    = Done (EvWait 0 1 (Some (1, 7)), s3).
Proof.
  apply (exit_code_delivered ThreadManager_new () demo_boot (demo_run demo_fork).1
    (demo_run demo_fork).2 1 (ProcRel_new 0) 7 (demo_run (demo_fork ++ [OpExit 7])).2
    [EvNext (Some 0)]); try reflexivity; try by split.
  - apply demo_trace.
  - lia.
  - apply (run_ops_trace [OpNext]); [demo_allowed|reflexivity].
  - intros code' Hin. set_solver.
  - apply not_elem_of_nil.
Defined.

Lemma init_exit_panics_witness :
  PManager_make_current_exited 0 (procs (demo_run [OpNext; OpFork ()]).2) = Panic.
Proof.
  eapply (init_exit_panics _ _ (mkProcRel usize_max [1] [])); [reflexivity|reflexivity|reflexivity| | |].
  - done.
  - set_solver.
  - intros c ->%list_elem_of_singleton. vm_compute. eauto.
Defined.

(** ** The schedulers *)

(** Round-robin bounded waiting: when the running task yields again and again,
    the task at position [i] of the FIFO ready queue runs after exactly [i + 1]
    rounds. *)
Theorem fifo_bounded_wait {T} (m : ThreadManager T) i id running :
  fifo_queue m !! i = Some id → (fifo_rounds (S i) running m).1 = Some id.
Proof. apply fifo_rounds_turn. Qed.

Lemma fifo_bounded_wait_witness :
  (fifo_rounds 3 9 (mkThreadManager (T := unit) ∅ [4; 5; 6])).1 = Some 6.
Proof. apply (fifo_bounded_wait (mkThreadManager (T := unit) ∅ [4; 5; 6]) 2). reflexivity. Defined.

Section StrideTheorems.
Context {T H : Type} `{!HasStride T, !BinaryHeap H StridePair pair_le}.
Implicit Types (m : StrideManager T H).

(** The stride scheduler picks a process of least stride and charges it
    [BIGSTRIDE / priority]: with the queued strides up to date, [fetch] does not
    panic, and the process it returns had a stride no larger than that of any other
    ready process. *)
Theorem stride_fetch_least m :
  strides_ok m → queue_fresh m →
  ∃ r m', StrideManager_fetch m = Done (r, m') ∧
    match r with
    | None => queue_ids m = []
    | Some id => ∃ t, sm_tasks m !! id = Some t ∧ queue_ids m ≡ₚ id :: queue_ids m' ∧
        (∀ id' t', id' ∈ queue_ids m → sm_tasks m !! id' = Some t' →
           stride (stride_of t) ≤ stride (stride_of t')) ∧
        sm_tasks m' = <[id := with_stride (mkStride (priority (stride_of t))
          (stride (stride_of t) + BIGSTRIDE / priority (stride_of t))) t]> (sm_tasks m)
    end.
Proof.
  intros Hok Hfresh. destruct (fetch_run m Hok) as (r & m' & Hf & _ & Hr).
  { intros id (p & -> & Hp)%list_elem_of_fmap.
    destruct (Hfresh p Hp) as (t & Ht & _). by apply elem_of_dom_2 in Ht. }
  exists r, m'. split; [done|]. destruct r as [id|]; [|by destruct Hr].
  destruct Hr as (s & t & HP & Hleast & Ht & Htasks). exists t.
  assert (stride_of t = s) as <-.
  { destruct (Hfresh (id, s)) as (t' & Ht' & Hs'); [rewrite HP; set_solver|].
    simpl in *. by simplify_eq. }
  split_and!; [done|by unfold queue_ids; rewrite HP| |done].
  intros id' t' (p & -> & Hp)%list_elem_of_fmap Ht'.
  destruct (Hfresh p Hp) as (t2 & Ht2 & Hs2). simplify_eq. rewrite Hs2. by apply Hleast.
Qed.

(** Fairness of the stride scheduler: priorities being at least 2 (as
    [set_priority] enforces), letting the chosen process run for one round and
    putting it back keeps all ready strides within [BIGSTRIDE / 2] of each other,
    and keeps the queue up to date. *)
Theorem stride_round_spread m :
  strides_ok m → queue_fresh m → NoDup (queue_ids m) → spread_le (BIGSTRIDE / 2) m →
  (∀ id t, sm_tasks m !! id = Some t → 2 ≤ priority (stride_of t)) →
  queue_ids m ≠ [] →
  ∃ id m1 m2, StrideManager_fetch m = Done (Some id, m1) ∧ StrideManager_add id m1 = Done m2 ∧
    queue_ids m2 ≡ₚ queue_ids m ∧ queue_fresh m2 ∧ spread_le (BIGSTRIDE / 2) m2.
Proof.
  intros Hok Hfresh Hnd Hspread Hprio Hne.
  destruct (fetch_run m Hok) as (r & m1 & Hf & _ & Hr).
  { intros id (p & -> & Hp)%list_elem_of_fmap.
    destruct (Hfresh p Hp) as (t & Ht & _). by apply elem_of_dom_2 in Ht. }
  destruct r as [id|]; [|by destruct Hr].
  destruct Hr as (s & t & HP & Hleast & Ht & Htasks).
  assert (stride_of t = s) as <-.
  { destruct (Hfresh (id, s)) as (t' & Ht' & Hs'); [rewrite HP; set_solver|].
    simpl in *. by simplify_eq. }
  set (s' := mkStride (priority (stride_of t)) _) in Htasks.
  assert (stride (stride_of t) ≤ stride s' ≤ stride (stride_of t) + BIGSTRIDE / 2) as Hs'.
  { unfold s'; simpl. pose proof (Hprio _ _ Ht). split.
    - assert (0 < priority (stride_of t)) by lia.
      pose proof (pass_range (priority (stride_of t)) ltac:(done)). lia.
    - apply Z.add_le_mono_l. apply Z.div_le_compat_l; [done|lia]. }
  clearbody s'. set (B := BIGSTRIDE / 2) in *. assert (0 ≤ B) by done. clearbody B.
  eexists id, m1, _. split; [done|]. split.
  { unfold StrideManager_add. rewrite Htasks, lookup_insert_eq. simpl. by rewrite stride_with. }
  assert (∀ p, p ∈ heap_elems (sm_queue m1) → p ∈ heap_elems (sm_queue m) ∧ p.1 ≠ id) as Hrest.
  { intros p Hp. split; [rewrite HP; set_solver|]. unfold queue_ids in Hnd.
    rewrite HP in Hnd. apply NoDup_cons in Hnd as [Hn _]. simpl in Hn. intros <-.
    apply Hn. by apply list_elem_of_fmap_2. }
  split_and!.
  - unfold queue_ids; simpl. by rewrite heap_push_elems, HP.
  - intros p Hp. simpl in Hp. rewrite heap_push_elems in Hp. simpl.
    apply elem_of_cons in Hp as [->|Hp]; simpl.
    + rewrite lookup_insert_eq. eexists. split; [done|]. by rewrite stride_with.
    + destruct (Hrest p Hp) as [Hp' Hpid]. rewrite lookup_insert_ne by done. by apply Hfresh.
  - intros a b Ha Hb. simpl in Ha, Hb. rewrite heap_push_elems in Ha, Hb.
    assert ((id, stride_of t) ∈ heap_elems (sm_queue m)) as Hin by (rewrite HP; set_solver).
    apply elem_of_cons in Ha as [->|Ha], Hb as [->|Hb]; simpl.
    + lia.
    + pose proof (Hleast b (proj1 (Hrest b Hb))). lia.
    + pose proof (Hspread a _ (proj1 (Hrest a Ha)) Hin). simpl in *. lia.
    + apply Hspread; by apply Hrest.
Qed.
End StrideTheorems.

Definition demo_strides : StrideManager Stride (list StridePair) :=
  mkStrideManager (<[1 := mkStride 16 12]> (<[2 := mkStride 2 0]> ∅))
    [(1, mkStride 16 12); (2, mkStride 2 0)].

Lemma demo_strides_tasks id t : sm_tasks demo_strides !! id = Some t →
  (id = 1 ∧ t = mkStride 16 12) ∨ (id = 2 ∧ t = mkStride 2 0).
Proof.
  unfold demo_strides; simpl.
  intros [[<- <-]|[_ [[<- <-]|[_ Hn]]%lookup_insert_Some]]%lookup_insert_Some;
    [auto..|]. by rewrite lookup_empty in Hn.
Qed.

Lemma demo_strides_ok : strides_ok demo_strides.
Proof. intros id t [[-> ->]|[-> ->]]%demo_strides_tasks; done. Qed.

Lemma demo_strides_fresh : queue_fresh demo_strides.
Proof.
  intros p Hp. simpl in Hp.
  apply elem_of_cons in Hp as [->| ->%list_elem_of_singleton]; eexists; done.
Qed.

Lemma stride_fetch_least_witness : ∃ m',
  StrideManager_fetch demo_strides = Done (Some 2, m') ∧
  ∀ id' t', id' ∈ queue_ids demo_strides → sm_tasks demo_strides !! id' = Some t' → 0 ≤ stride t'.
Proof.
  destruct (stride_fetch_least demo_strides demo_strides_ok demo_strides_fresh)
    as (r & m' & Hf & Hr).
  assert (r = Some 2) as -> by (vm_compute in Hf; congruence).
  destruct Hr as (t & Ht & _ & Hl & _). exists m'. split; [exact Hf|].
  assert (t = mkStride 2 0) as -> by (vm_compute in Ht; congruence). exact Hl.
Defined.

Lemma stride_round_spread_witness : ∃ id m1 m2,
  StrideManager_fetch demo_strides = Done (Some id, m1) ∧ StrideManager_add id m1 = Done m2 ∧
  queue_ids m2 ≡ₚ queue_ids demo_strides ∧ queue_fresh m2 ∧ spread_le (BIGSTRIDE / 2) m2.
Proof.
  apply (stride_round_spread demo_strides); [apply demo_strides_ok|apply demo_strides_fresh| | | |].
  - vm_compute. repeat constructor; set_solver.
  - intros a b Ha Hb. simpl in Ha, Hb.
    apply elem_of_cons in Ha as [->| ->%list_elem_of_singleton],
      Hb as [->| ->%list_elem_of_singleton]; done.
  - intros id t [[-> ->]|[-> ->]]%demo_strides_tasks; done.
  - done.
Defined.
