(* ===== verification/ThreadManage.v ===== *)
(** * The process and thread manager

    Models [tg-rcore-tutorial-task-manage/src/thread_manager.rs]:
    [PThreadManager], which schedules threads and keeps the processes they belong
    to, with all its operations, its invariant and the effect of each operation. *)

From S2P Require Import Prelude TaskRel ProcManage ProcTree ProcInvariant.

Record PThreadManager (MT MP : Type) := mkPTM {
  pt_rel_map : gmap Z ProcThreadRel;
  proc_manager : option MP;
  tid2pid : gmap Z Z;
  pt_manager : option MT;
  pt_current : option ThreadId;
}.
Arguments mkPTM {MT MP} _ _ _ _ _.
Arguments pt_rel_map {MT MP} _.
Arguments proc_manager {MT MP} _.
Arguments tid2pid {MT MP} _.
Arguments pt_manager {MT MP} _.
Arguments pt_current {MT MP} _.

Section PThreadManager.
Context {MT MP T P : Type} `{!Manage MT T, !Schedule MT, !Manage MP P}.
Implicit Types (pm : PThreadManager MT MP).

Definition PThreadManager_new : PThreadManager MT MP := mkPTM ∅ None ∅ None None.
Definition PThreadManager_set_manager (m : MT) pm : PThreadManager MT MP :=
  mkPTM (pt_rel_map pm) (proc_manager pm) (tid2pid pm) (Some m) (pt_current pm).
Definition PThreadManager_set_proc_manager (m : MP) pm : PThreadManager MT MP :=
  mkPTM (pt_rel_map pm) (Some m) (tid2pid pm) (pt_manager pm) (pt_current pm).

(** Field updates used below. *)
Definition with_rel (rm : gmap Z ProcThreadRel) pm : PThreadManager MT MP :=
  mkPTM rm (proc_manager pm) (tid2pid pm) (pt_manager pm) (pt_current pm).
Definition with_current (c : option ThreadId) pm : PThreadManager MT MP :=
  mkPTM (pt_rel_map pm) (proc_manager pm) (tid2pid pm) (pt_manager pm) c.

Definition PThreadManager_find_next pm : outcome (option ThreadId * PThreadManager MT MP) :=
  mgr ← unwrap (pt_manager pm);
  '(r, mgr) ← s_fetch mgr;
  let pm := PThreadManager_set_manager mgr pm in
  match r with
  | Some id =>
      match m_get id mgr with
      | Some _ => Done (Some id, with_current (Some id) pm)
      | None => Done (None, pm)
      end
  | None => Done (None, pm)
  end.

Definition PThreadManager_make_current_suspend pm : outcome (PThreadManager MT MP) :=
  match pt_current pm with
  | Some id =>
      mgr ← unwrap (pt_manager pm);
      mgr ← s_add id mgr;
      Done (with_current None (PThreadManager_set_manager mgr pm))
  | None => Done pm
  end.

Definition PThreadManager_make_current_blocked pm : PThreadManager MT MP :=
  match pt_current pm with
  | Some _ => with_current None pm
  | None => pm
  end.

Definition PThreadManager_re_enque (id : ThreadId) pm : outcome (PThreadManager MT MP) :=
  mgr ← unwrap (pt_manager pm);
  mgr ← s_add id mgr;
  Done (PThreadManager_set_manager mgr pm).

Definition PThreadManager_add (id : ThreadId) (task : T) (pid : ProcId) pm :
    outcome (PThreadManager MT MP) :=
  mgr ← unwrap (pt_manager pm);
  mgr ← s_add id (m_insert id task mgr);
  let pm := PThreadManager_set_manager mgr pm in
  Done match pt_rel_map pm !! pid with
  | Some r =>
      mkPTM (<[pid := ProcThreadRel_add_thread id r]> (pt_rel_map pm)) (proc_manager pm)
        (<[id := pid]> (tid2pid pm)) (pt_manager pm) (pt_current pm)
  | None => pm
  end.

Definition PThreadManager_current pm : outcome (option T) :=
  id ← unwrap (pt_current pm);
  mgr ← unwrap (pt_manager pm);
  Done (m_get id mgr).
Definition PThreadManager_get_task (id : ThreadId) pm : outcome (option T) :=
  mgr ← unwrap (pt_manager pm);
  Done (m_get id mgr).

Definition PThreadManager_add_proc (id : ProcId) (proc : P) (parent : ProcId) pm :
    outcome (PThreadManager MT MP) :=
  pmgr ← unwrap (proc_manager pm);
  let pm := PThreadManager_set_proc_manager (m_insert id proc pmgr) pm in
  let rm := alter (ProcThreadRel_add_child id) parent (pt_rel_map pm) in
  Done (with_rel (<[id := ProcThreadRel_new parent]> rm) pm).

Definition PThreadManager_get_proc (id : ProcId) pm : outcome (option P) :=
  pmgr ← unwrap (proc_manager pm);
  Done (m_get id pmgr).

Fixpoint PThreadManager_reparent (cs : list ProcId) (rm : gmap Z ProcThreadRel) :
    outcome (gmap Z ProcThreadRel) :=
  match cs with
  | [] => Done rm
  | i :: cs' =>
      r ← unwrap (rm !! i);
      let rm := <[i := ProcThreadRel_set_parent 0 r]> rm in
      z ← unwrap (rm !! 0);
      let rm := <[0 := ProcThreadRel_add_child i z]> rm in
      PThreadManager_reparent cs' rm
  end.

Definition PThreadManager_del_proc (id : ProcId) (exit_code : Z) pm :
    outcome (PThreadManager MT MP) :=
  pmgr ← unwrap (proc_manager pm);
  let pm := PThreadManager_set_proc_manager (m_delete id pmgr) pm in
  current_rel ← unwrap (pt_rel_map pm !! id);
  let rm := delete id (pt_rel_map pm) in
  let rm := alter (ProcThreadRel_del_child id exit_code) (pt_parent current_rel) rm in
  rm ← PThreadManager_reparent (pt_children current_rel) rm;
  Done (with_rel rm pm).

Definition PThreadManager_make_current_exited (exit_code : Z) pm :
    outcome (PThreadManager MT MP) :=
  match pt_current pm with
  | None => Done pm
  | Some id =>
      mgr ← unwrap (pt_manager pm);
      pid ← unwrap (tid2pid pm !! id);
      let pm := mkPTM (pt_rel_map pm) (proc_manager pm) (delete id (tid2pid pm))
        (Some (m_delete id mgr)) (pt_current pm) in
      let '(flag, pm) :=
        match pt_rel_map pm !! pid with
        | Some r =>
            let r := ProcThreadRel_del_thread id exit_code r in
            (match threads r with [] => true | _ :: _ => false end,
             with_rel (<[pid := r]> (pt_rel_map pm)) pm)
        | None => (false, pm)
        end in
      pm ← (if flag : bool then PThreadManager_del_proc pid exit_code pm else Done pm);
      Done (with_current None pm)
  end.

Definition PThreadManager_wait (child_pid : ProcId) pm :
    outcome (option (ProcId * Z) * PThreadManager MT MP) :=
  id ← unwrap (pt_current pm);
  pid ← unwrap (tid2pid pm !! id);
  current_rel ← unwrap (pt_rel_map pm !! pid);
  let '(res, rel) :=
    if child_pid =? usize_max then ProcThreadRel_wait_any_child current_rel
    else ProcThreadRel_wait_child child_pid current_rel in
  Done (res, with_rel (<[pid := rel]> (pt_rel_map pm)) pm).

Definition PThreadManager_waittid (thread_tid : ThreadId) pm :
    outcome (option Z * PThreadManager MT MP) :=
  id ← unwrap (pt_current pm);
  pid ← unwrap (tid2pid pm !! id);
  current_rel ← unwrap (pt_rel_map pm !! pid);
  let '(res, rel) := ProcThreadRel_wait_thread thread_tid current_rel in
  Done (res, with_rel (<[pid := rel]> (pt_rel_map pm)) pm).

Definition PThreadManager_thread_count (id : ProcId) pm : outcome Z :=
  r ← unwrap (pt_rel_map pm !! id);
  Done (Z.of_nat (length (threads r))).
Definition PThreadManager_get_thread (id : ProcId) pm : option (list ThreadId) :=
  threads <$> pt_rel_map pm !! id.
Definition PThreadManager_get_current_proc pm : outcome (option P) :=
  match pt_current pm with
  | Some id =>
      pid ← unwrap (tid2pid pm !! id);
      pmgr ← unwrap (proc_manager pm);
      Done (m_get pid pmgr)
  | None => Done None
  end.
End PThreadManager.
