(* ===== verification/ThreadInvariant.v ===== *)
(** * Correctness of the process and thread manager

    The invariant of [PThreadManager] and the effect of its operations on it,
    proved against the promises of the task managers. *)

From S2P Require Import Prelude TaskRel ProcManage ProcTree ProcInvariant ThreadManage.

(** The thread half of a relation; [proc_part] is the other half. *)
Definition thread_part (r : ProcThreadRel) : list Z * list (Z * Z) :=
  (threads r, dead_threads r).

(** ** The process half behaves as in [ProcTree] *)
Lemma reparent_proc_part cs (rm : gmap Z ProcThreadRel) :
  fmap (M := outcome) (fmap (M := gmap Z) proc_part) (PThreadManager_reparent cs rm)
    = PManager_reparent cs (fmap (M := gmap Z) proc_part rm).
Proof.
  revert rm. induction cs as [|c cs IH]; intros rm; simpl; [done|].
  rewrite !lookup_fmap. destruct (rm !! c) as [r|]; simpl; [|done].
  change (ProcRel_set_parent 0 (proc_part r)) with (proc_part (ProcThreadRel_set_parent 0 r)).
  rewrite <-(fmap_insert proc_part), lookup_fmap.
  destruct (<[c := _]> rm !! 0) as [z|]; simpl; [|done].
  rewrite <-proc_part_add_child, <-(fmap_insert proc_part). apply IH.
Qed.

Lemma reparent_thread_part cs (rm rm' : gmap Z ProcThreadRel) :
  PThreadManager_reparent cs rm = Done rm' →
  fmap (M := gmap Z) thread_part rm' = fmap (M := gmap Z) thread_part rm.
Proof.
  revert rm. induction cs as [|c cs IH]; intros rm Hr; simpl in Hr; inv_run; [done|].
  rewrite (IH _ Hr), fmap_insert.
  rewrite (insert_id (fmap (M := gmap Z) thread_part (<[c := _]> rm)) 0) by (by rewrite lookup_fmap, E0).
  rewrite fmap_insert. apply insert_id. by rewrite lookup_fmap, E.
Qed.

Lemma del_thread_proc_part tid code r :
  proc_part (ProcThreadRel_del_thread tid code r) = proc_part r.
Proof. unfold ProcThreadRel_del_thread. by destruct bury. Qed.

Lemma del_thread_known tid code r :
  known (threads (ProcThreadRel_del_thread tid code r))
    (dead_threads (ProcThreadRel_del_thread tid code r)) ≡ₚ known (threads r) (dead_threads r).
Proof.
  pose proof (bury_known tid code (threads r) (dead_threads r)) as H.
  unfold ProcThreadRel_del_thread. by destruct bury.
Qed.

Lemma del_thread_present tid code r : tid ∈ threads r →
  dead_threads (ProcThreadRel_del_thread tid code r) = dead_threads r ++ [(tid, code)] ∧
  threads r ≡ₚ tid :: threads (ProcThreadRel_del_thread tid code r).
Proof.
  intros Hin. pose proof (bury_present tid code (threads r) (dead_threads r) Hin) as H.
  unfold ProcThreadRel_del_thread. by destruct bury.
Qed.

Lemma wait_thread_cases tid r :
  match ProcThreadRel_wait_thread tid r with
  | (None, r') => r' = r ∧ tid ∉ known (threads r) (dead_threads r)
  | (Some c, r') =>
      (r' = r ∧ c = -2 ∧ tid ∈ threads r ∧ tid ∉ (dead_threads r).*1) ∨
      (proc_part r' = proc_part r ∧ threads r' = threads r ∧
       dead_threads r ≡ₚ (tid, c) :: dead_threads r')
  end.
Proof.
  unfold ProcThreadRel_wait_thread, known.
  destruct (find_dead tid (dead_threads r)) as [[i [t c]]|] eqn:E.
  - apply find_dead_Some in E as (Ht & Hi & HP). simpl in Ht. subst t. rewrite Hi. simpl. auto.
  - apply find_dead_None in E.
    destruct (list_find (eq tid) (threads r)) as [[j c]|] eqn:Ef.
    + apply list_find_Some in Ef as (Hj & <- & _).
      apply list_elem_of_lookup_2 in Hj. auto.
    + apply list_find_None in Ef. rewrite Forall_forall in Ef.
      split; [done|]. rewrite elem_of_app. naive_solver.
Qed.

Section PTInv.
Context {MT MP T P : Type}.
Context `{!Manage MT T, !ManageSpec MT T, !Schedule MT, !ScheduleSpec MT T}.
Context `{!Manage MP P, !ManageSpec MP P}.
Implicit Types (pm : PThreadManager MT MP).

Definition fam pm : gmap Z ProcRel := fmap (M := gmap Z) proc_part (pt_rel_map pm).
Definition pt_running pm : list Z := from_option (fun i => [i]) [] (pt_current pm).

(** Process table, family tree, thread table and thread ownership agree; a
    thread is ready, running or blocked, never in two places. *)
Record pt_inv pm : Prop := {
  pi_tree : tree_ok (fam pm);
  pi_procs : ∃ pmgr, proc_manager pm = Some pmgr ∧
    dom (tasks_of (T := P) pmgr) = dom (pt_rel_map pm);
  pi_threads : ∃ mgr, pt_manager pm = Some mgr ∧
    dom (tasks_of (T := T) mgr) = dom (tid2pid pm) ∧
    NoDup (ready_of mgr ++ pt_running pm) ∧
    ∀ t, t ∈ ready_of mgr ++ pt_running pm → t ∈ dom (tid2pid pm);
  pi_own t p : tid2pid pm !! t = Some p ↔ ∃ r, pt_rel_map pm !! p = Some r ∧ t ∈ threads r;
  pi_wf p r : pt_rel_map pm !! p = Some r → NoDup (known (threads r) (dead_threads r));
  pi_dead p r t : pt_rel_map pm !! p = Some r → t ∈ (dead_threads r).*1 → tid2pid pm !! t = None;
}.

(** Every process has a thread that has not exited. *)
Definition staffed pm : Prop := ∀ p r, pt_rel_map pm !! p = Some r → threads r ≠ [].

(** A thread that is neither ready nor running. *)
Definition blocked t pm : Prop := t ∈ dom (tid2pid pm) ∧
  ∀ mgr, pt_manager pm = Some mgr → t ∉ ready_of mgr ++ pt_running pm.

Lemma running_owner pm t : pt_inv pm → pt_current pm = Some t →
  ∃ p r, tid2pid pm !! t = Some p ∧ pt_rel_map pm !! p = Some r ∧ t ∈ threads r.
Proof.
  intros Hi Hc. destruct (pi_threads _ Hi) as (mgr & _ & _ & _ & Hin).
  assert (t ∈ dom (tid2pid pm)) as [p Hp]%elem_of_dom.
  { apply Hin. unfold pt_running. rewrite Hc. set_solver. }
  destruct (proj1 (pi_own _ Hi _ _) Hp) as (r & ? & ?). eauto 10.
Qed.

(** Changes of the ready queue and of the running thread only. *)
Lemma inv_sched pm mgr mgr' cur : pt_inv pm → pt_manager pm = Some mgr →
  dom (tasks_of (T := T) mgr') = dom (tasks_of (T := T) mgr) →
  NoDup (ready_of mgr' ++ from_option (fun i => [i]) [] cur) →
  (∀ t, t ∈ ready_of mgr' ++ from_option (fun i => [i]) [] cur → t ∈ dom (tid2pid pm)) →
  pt_inv (with_current cur (PThreadManager_set_manager mgr' pm)).
Proof.
  intros Hi Hm Hd Hnd Hin. destruct (pi_threads _ Hi) as (m0 & Hm0 & Hd0 & _).
  split; simpl; try apply Hi. exists mgr'. split_and!; [done|congruence|done|done].
Qed.

Lemma pt_next_run pm : pt_inv pm → pt_current pm = None →
  (∀ mgr, pt_manager pm = Some mgr → fetch_safe mgr) →
  ∃ o pm', PThreadManager_find_next pm = Done (o, pm') ∧ pt_inv pm' ∧ pt_current pm' = o ∧
    pt_rel_map pm' = pt_rel_map pm ∧ tid2pid pm' = tid2pid pm ∧
    (o = None ↔ ∀ mgr, pt_manager pm = Some mgr → ready_of mgr = []).
Proof.
  intros Hi Hc Hsafe. pose proof (pi_threads _ Hi) as (mgr & Hm & Hd & Hnd & Hin).
  unfold pt_running in *. rewrite Hc in *. simpl in *. rewrite app_nil_r in *.
  destruct (fetch_spec mgr) as (o & mgr' & Hf & Hd' & Ho); [by apply Hsafe| |].
  { intros t Ht. rewrite Hd. by apply Hin. }
  unfold PThreadManager_find_next. rewrite Hm; simpl. rewrite Hf; simpl.
  destruct o as [t|].
  - assert (t ∈ dom (tasks_of (T := T) mgr')) as [x Hx]%elem_of_dom.
    { rewrite Hd', Hd. apply Hin. rewrite Ho. set_solver. }
    rewrite get_spec, Hx. eexists _, _. split; [done|]. split_and!; try done.
    + apply (inv_sched pm mgr); [done|done|done| |]; simpl.
      * by rewrite Permutation_app_comm, <-Ho.
      * intros t' Ht'. apply Hin. rewrite Ho. set_solver.
    + split; [done|]. intros Hall. specialize (Hall _ eq_refl). rewrite Hall in Ho.
      by apply Permutation_nil_cons in Ho.
  - destruct Ho as [Ho Ho']. eexists _, _. split; [done|]. split_and!; try done.
    + replace (PThreadManager_set_manager mgr' pm) with
        (with_current (pt_current pm) (PThreadManager_set_manager mgr' pm)) by done.
      apply (inv_sched pm mgr); rewrite ?Hc, ?Ho'; simpl; try done. 
      * apply NoDup_nil_2.
      * intros t Ht. by apply not_elem_of_nil in Ht.
    + split; [|done]. intros _ m0 Hm0. congruence.
Qed.

Lemma pt_suspend_run pm t : pt_inv pm → pt_current pm = Some t →
  ∃ pm', PThreadManager_make_current_suspend pm = Done pm' ∧ pt_inv pm' ∧
    pt_current pm' = None ∧ pt_rel_map pm' = pt_rel_map pm ∧ tid2pid pm' = tid2pid pm.
Proof.
  intros Hi Hc. pose proof (pi_threads _ Hi) as (mgr & Hm & Hd & Hnd & Hin).
  unfold pt_running in *. rewrite Hc in *. simpl in *.
  destruct (add_spec t mgr) as (mgr' & Ha & Ht' & Hr).
  { rewrite Hd. apply Hin. set_solver. }
  unfold PThreadManager_make_current_suspend. rewrite Hc, Hm; simpl. rewrite Ha; simpl.
  eexists. split; [done|]. split; [|done].
  apply (inv_sched pm mgr); [done|done|by rewrite Ht'| |]; simpl; rewrite app_nil_r.
  - by rewrite Hr, Permutation_cons_append.
  - intros t0 Ht0. apply Hin. rewrite Hr in Ht0. set_solver.
Qed.

Lemma pt_block_run pm t : pt_inv pm → pt_current pm = Some t →
  pt_inv (PThreadManager_make_current_blocked pm) ∧
  blocked t (PThreadManager_make_current_blocked pm) ∧
  pt_current (PThreadManager_make_current_blocked pm) = None ∧
  pt_rel_map (PThreadManager_make_current_blocked pm) = pt_rel_map pm.
Proof.
  intros Hi Hc. pose proof (pi_threads _ Hi) as (mgr & Hm & Hd & Hnd & Hin).
  unfold PThreadManager_make_current_blocked, blocked, pt_running in *. rewrite Hc in *.
  simpl in *. split_and!; [|by apply Hin; set_solver| |done|done].
  - split; simpl; try apply Hi. exists mgr. unfold pt_running; simpl. rewrite app_nil_r.
    apply NoDup_app in Hnd as [? _]. split_and!; [done|done|done|].
    intros t' Ht'. apply Hin. set_solver.
  - intros m0 Hm0. assert (m0 = mgr) as -> by congruence. rewrite app_nil_r.
    rewrite Permutation_app_comm in Hnd. by apply NoDup_cons in Hnd as [? _].
Qed.

Lemma pt_re_enque_run pm t : pt_inv pm → blocked t pm →
  ∃ pm' mgr', PThreadManager_re_enque t pm = Done pm' ∧ pt_inv pm' ∧
    pt_current pm' = pt_current pm ∧ pt_rel_map pm' = pt_rel_map pm ∧
    pt_manager pm' = Some mgr' ∧ t ∈ ready_of mgr'.
Proof.
  intros Hi [Htd Hb]. pose proof (pi_threads _ Hi) as (mgr & Hm & Hd & Hnd & Hin).
  specialize (Hb _ Hm).
  destruct (add_spec t mgr) as (mgr' & Ha & Ht' & Hr); [by rewrite Hd|].
  unfold PThreadManager_re_enque. rewrite Hm; simpl. rewrite Ha; simpl.
  eexists _, mgr'. split; [done|].
  split_and!; [|done|done|done|rewrite Hr; set_solver].
  apply (inv_sched pm mgr mgr' (pt_current pm)); [done|done|by rewrite Ht'| |].
  - rewrite Hr; simpl. by apply NoDup_cons.
  - intros t0. rewrite Hr; simpl. intros [->|?]%elem_of_cons; [done|by apply Hin].
Qed.

(** No relation and no process remembers the thread id. *)
Definition tid_fresh t pm : Prop := tid2pid pm !! t = None ∧
  ∀ p r, pt_rel_map pm !! p = Some r → t ∉ (dead_threads r).*1.

Lemma fam_same_proc pm p r r' : pt_rel_map pm !! p = Some r → proc_part r' = proc_part r →
  fmap (M := gmap Z) proc_part (<[p := r']> (pt_rel_map pm)) = fam pm.
Proof.
  intros Hp Hr. rewrite fmap_insert, Hr. apply insert_id.
  unfold fam. by rewrite lookup_fmap, Hp.
Qed.

Lemma pt_add_run pm t x p r : pt_inv pm → tid_fresh t pm → pt_rel_map pm !! p = Some r →
  ∃ pm', PThreadManager_add t x p pm = Done pm' ∧ pt_inv pm' ∧
    pt_current pm' = pt_current pm ∧ fam pm' = fam pm ∧
    pt_rel_map pm' = <[p := ProcThreadRel_add_thread t r]> (pt_rel_map pm) ∧
    tid2pid pm' = <[t := p]> (tid2pid pm).
Proof.
  intros Hi [Hn Hdead] Hp. pose proof (pi_threads _ Hi) as (mgr & Hm & Hd & Hnd & Hin).
  assert (t ∉ dom (tid2pid pm)) as Hnt by (by apply not_elem_of_dom).
  destruct (add_spec t (m_insert t x mgr)) as (mgr' & Ha & Ht' & Hr).
  { rewrite insert_spec. set_solver. }
  rewrite insert_spec in Ht'. rewrite ready_insert in Hr.
  unfold PThreadManager_add. rewrite Hm; simpl. rewrite Ha; simpl. rewrite Hp.
  eexists. split; [done|]. split_and!; try done; [|by eapply fam_same_proc].
  assert (fam pm = fmap (M := gmap Z) proc_part (<[p := ProcThreadRel_add_thread t r]> (pt_rel_map pm))) as Hfam
    by (symmetry; by eapply fam_same_proc).
  split; simpl.
  - unfold fam; simpl. rewrite <-Hfam. apply Hi.
  - destruct (pi_procs _ Hi) as (pmgr & Hpm & Hpd). exists pmgr. split; [done|].
    rewrite dom_insert_lookup_L by eauto. done.
  - exists mgr'. unfold pt_running in *; simpl. rewrite Ht', !dom_insert_L, Hd. split_and!; try done.
    + rewrite Hr; simpl. apply NoDup_cons. split; [|done]. intros Ht. apply Hnt, Hin, Ht.
    + intros t0. rewrite Hr; simpl. intros [->|?]%elem_of_cons; [set_solver|].
      apply elem_of_union_r. by apply Hin.
  - intros t0 p0. rewrite lookup_insert_Some. setoid_rewrite lookup_insert_Some. split.
    + intros [[<- <-]|[Ht0 Hown]]; [eexists; split; [by left|simpl; set_solver]|].
      apply (pi_own _ Hi) in Hown as (r0 & Hr0 & Hin0).
      destruct (decide (p = p0)) as [<-|Hne]; [|eauto].
      simplify_eq. eexists. split; [by left|]. simpl. set_solver.
    + intros (r0 & [[<- <-]|[Hne Hr0]] & Hin0); simpl in *.
      * apply elem_of_app in Hin0 as [Hin0| ->%list_elem_of_singleton]; [right|by left].
        assert (tid2pid pm !! t0 = Some p) by (apply (pi_own _ Hi); eauto).
        split; [congruence|done].
      * right. assert (tid2pid pm !! t0 = Some p0) by (apply (pi_own _ Hi); eauto).
        split; [congruence|done].
  - intros p0 r0 [[<- <-]|[_ Hr0]]%lookup_insert_Some; [|by eapply pi_wf].
    unfold known; simpl. rewrite <-app_assoc, (Permutation_app_comm (threads r)); simpl.
    rewrite (Permutation_app_comm _ (threads r)). apply NoDup_cons.
    split; [|by eapply (pi_wf _ Hi)]. intros [Ht|Ht]%elem_of_app.
    + assert (tid2pid pm !! t = Some p) by (apply (pi_own _ Hi); eauto). congruence.
    + by eapply Hdead.
  - intros p0 r0 t0 Hr0 Ht0.
    assert (∃ r1, pt_rel_map pm !! p0 = Some r1 ∧ t0 ∈ (dead_threads r1).*1) as (r1 & Hr1 & Ht1).
    { apply lookup_insert_Some in Hr0 as [[<- <-]|[_ Hr0]]; eauto. }
    rewrite lookup_insert_ne; [by eapply pi_dead|]. intros <-. by eapply Hdead.
Qed.

(** Changes of the relations that keep the threads of every process. *)
Lemma inv_rel pm rm' (pmgr' : MP) : pt_inv pm →
  tree_ok (fmap (M := gmap Z) proc_part rm') → dom (tasks_of (T := P) pmgr') = dom rm' →
  (∀ p r', rm' !! p = Some r' → thread_part r' = ([], []) ∨
     ∃ r, pt_rel_map pm !! p = Some r ∧ threads r' = threads r ∧
       NoDup (dead_threads r').*1 ∧ ∀ d, d ∈ dead_threads r' → d ∈ dead_threads r) →
  (∀ p r, pt_rel_map pm !! p = Some r → threads r ≠ [] →
     ∃ r', rm' !! p = Some r' ∧ threads r' = threads r) →
  pt_inv (mkPTM rm' (Some pmgr') (tid2pid pm) (pt_manager pm) (pt_current pm)).
Proof.
  intros Hi Htree Hdom Hback Hfwd. split; simpl; [done|by eauto|apply Hi| | |].
  - intros t p. rewrite (pi_own _ Hi). split.
    + intros (r & Hr & Hin). destruct (Hfwd p r Hr) as (r' & Hr' & E).
      { intros E. rewrite E in Hin. by apply not_elem_of_nil in Hin. }
      exists r'. by rewrite E.
    + intros (r' & Hr' & Hin).
      destruct (Hback p r' Hr') as [[= E _]|(r & Hr & E & _)]; rewrite E in Hin; [|by eauto].
      by apply not_elem_of_nil in Hin.
  - intros p r' Hr'. destruct (Hback p r' Hr') as [[= E1 E2]|(r & Hr & E & Hnd & Hsub)].
    + unfold known. rewrite E1, E2. apply NoDup_nil_2.
    + pose proof (pi_wf _ Hi _ _ Hr) as (Hnd1 & Hdis & _)%NoDup_app.
      unfold known. rewrite E. apply NoDup_app. split_and!; [done| |done].
      intros t Ht Hd. apply (Hdis t Ht). apply list_elem_of_fmap in Hd as (d & -> & Hd).
      by apply list_elem_of_fmap_2, Hsub.
  - intros p r' t Hr' Ht. destruct (Hback p r' Hr') as [[= E1 E2]|(r & Hr & E & Hnd & Hsub)].
    + rewrite E2 in Ht. by apply not_elem_of_nil in Ht.
    + apply list_elem_of_fmap in Ht as (d & -> & Hd).
      apply (pi_dead _ Hi _ _ _ Hr). by apply list_elem_of_fmap_2, Hsub.
Qed.

(** [r'] keeps everything of [r] that concerns threads. *)
Lemma same_threads_back pm p r r' : pt_inv pm → pt_rel_map pm !! p = Some r →
  thread_part r' = thread_part r →
  threads r' = threads r ∧ NoDup (dead_threads r').*1 ∧
  ∀ d, d ∈ dead_threads r' → d ∈ dead_threads r.
Proof.
  intros Hi Hr [= -> ->]. split_and!; [done| |done].
  by pose proof (pi_wf _ Hi _ _ Hr) as (_ & _ & ?)%NoDup_app.
Qed.

Lemma pt_add_proc_run pm id x p : pt_inv pm → unknown id (fam pm) → 0 ≤ id < usize_max →
  (p = usize_max ∨ p < id ∧ is_Some (fam pm !! p)) →
  ∃ pm', PThreadManager_add_proc id x p pm = Done pm' ∧ pt_inv pm' ∧
    pt_current pm' = pt_current pm ∧ tid2pid pm' = tid2pid pm ∧
    pt_manager pm' = pt_manager pm ∧
    pt_rel_map pm' = <[id := ProcThreadRel_new p]>
      (alter (ProcThreadRel_add_child id) p (pt_rel_map pm)).
Proof.
  intros Hi Hunk Hid Hp. pose proof (pi_procs _ Hi) as (pmgr & Hpm & Hpd).
  unfold PThreadManager_add_proc. rewrite Hpm; simpl. eexists. split; [done|].
  split_and!; try done.
  assert (pt_rel_map pm !! id = None) as Hnone.
  { destruct Hunk as [Hn _]. unfold fam in Hn. rewrite lookup_fmap in Hn.
    by apply fmap_None in Hn. }
  apply (inv_rel pm); [done| | | |].
  - rewrite fmap_insert. change (proc_part (ProcThreadRel_new p)) with (ProcRel_new p).
    destruct Hp as [->|[Hlt [pr Hpr]]].
    + rewrite alter_absent.
      * by apply tree_add_root; [apply Hi|..].
      * destruct (pt_rel_map pm !! usize_max) as [r|] eqn:E; [|done]. exfalso.
        assert (fam pm !! usize_max = Some (proc_part r)) as Hf.
        { unfold fam. by rewrite lookup_fmap, E. }
        destruct (t_range _ (pi_tree _ Hi) _ _ Hf). lia.
    + pose proof Hpr as Hpr'. unfold fam in Hpr. rewrite lookup_fmap in Hpr.
      apply fmap_Some in Hpr as (r & Hr & ->).
      rewrite (alter_present _ _ _ _ Hr), fmap_insert, proc_part_add_child.
      by apply (tree_add_child (fam pm) id p (proc_part r)); [apply Hi|..].
  - by rewrite insert_spec, !dom_insert_L, dom_alter_L, Hpd.
  - intros k r'. rewrite lookup_insert_Some. intros [[<- <-]|[Hk Hr']]; [by left|right].
    rewrite lookup_alter in Hr'. case_decide; [subst|].
    + apply fmap_Some in Hr' as (r & Hr & ->). exists r. split; [done|].
      by eapply same_threads_back.
    + exists r'. split; [done|]. by eapply same_threads_back.
  - intros k r Hr _. rewrite lookup_insert_ne by congruence. rewrite lookup_alter.
    case_decide; [subst; rewrite Hr; simpl; eauto|eauto].
Qed.

(** [del_proc]; the running thread, already removed, does not matter. *)
Lemma pt_del_proc_run pm pid r code :
  pt_inv (with_current None pm) → pt_rel_map pm !! pid = Some r → threads r = [] → pid ≠ 0 →
  is_Some (pt_rel_map pm !! 0) →
  ∃ rm' pmgr', PThreadManager_del_proc pid code pm
      = Done (mkPTM rm' (Some pmgr') (tid2pid pm) (pt_manager pm) (pt_current pm)) ∧
    pt_inv (mkPTM rm' (Some pmgr') (tid2pid pm) (pt_manager pm) None) ∧
    (∀ k, fmap (M := gmap Z) proc_part rm' !! k =
       if decide (k = pid) then None
       else after_exit pid code (proc_part r) k <$> fam pm !! k) ∧
    fmap (M := gmap Z) thread_part rm' =
      fmap (M := gmap Z) thread_part (delete pid (pt_rel_map pm)).
Proof.
  intros Hi Hr Hth Hne Hz. pose proof (pi_procs _ Hi) as (pmgr & Hpm & Hpd). simpl in *.
  assert (fam pm !! pid = Some (proc_part r)) as Hfr by (unfold fam; by rewrite lookup_fmap, Hr).
  assert (is_Some (fam pm !! 0)) as Hfz.
  { unfold fam. rewrite lookup_fmap. by apply fmap_is_Some. }
  destruct (exit_runs (fam pm) pid code (proc_part r) (pi_tree _ Hi) Hfr Hne Hfz)
    as (frm & Hrun & Hlook).
  set (rm1 := alter (ProcThreadRel_del_child pid code) (pt_parent r) (delete pid (pt_rel_map pm))).
  assert (fmap (M := gmap Z) proc_part rm1 = alter (ProcRel_del_child pid code)
            (parent (proc_part r)) (delete pid (fam pm))) as Hrm1.
  { unfold rm1, fam. change (parent (proc_part r)) with (pt_parent r). rewrite <-fmap_delete. apply map_eq. intros k.
    rewrite lookup_fmap, !lookup_alter. case_decide; rewrite ?lookup_fmap; [|done].
    destruct (delete pid (pt_rel_map pm) !! pt_parent r); simpl; [|done].
    by rewrite proc_part_del_child. }
  pose proof (reparent_proc_part (pt_children r) rm1) as Hrep.
  rewrite Hrm1 in Hrep. change (pt_children r) with (children (proc_part r)) in Hrep at 2.
  rewrite Hrun in Hrep.
  destruct (PThreadManager_reparent (pt_children r) rm1) as [rm'| |] eqn:Erep; try done.
  injection Hrep as Hrep. pose proof (reparent_thread_part _ _ _ Erep) as Hthr.
  assert (fmap (M := gmap Z) thread_part rm1
            = fmap (M := gmap Z) thread_part (delete pid (pt_rel_map pm))) as Hthr1.
  { unfold rm1. apply map_eq. intros k. rewrite !lookup_fmap, lookup_alter. case_decide; [|done].
    subst k. destruct (delete pid (pt_rel_map pm) !! pt_parent r) as [y|]; simpl; [|done].
    unfold thread_part, ProcThreadRel_del_child. by destruct bury. }
  rewrite Hthr1 in Hthr.
  unfold PThreadManager_del_proc. rewrite Hpm; simpl. rewrite Hr; simpl.
  fold rm1. rewrite Erep; simpl. eexists rm', _. split; [done|].
  split_and!; [|by rewrite Hrep|done].
  assert (∀ k, (thread_part <$> rm' !! k) = (thread_part <$> delete pid (pt_rel_map pm) !! k)) as Hthk.
  { intros k. by rewrite <-!lookup_fmap, Hthr. }
  apply (inv_rel (with_current None pm)); simpl; [done| | | |].
  - rewrite Hrep. eapply (tree_exit (fam pm) pid code (proc_part r)); eauto. apply Hi.
  - rewrite delete_spec, dom_delete_L, Hpd. rewrite <-(dom_fmap_L thread_part rm'), Hthr.
    by rewrite dom_fmap_L, dom_delete_L.
  - intros k r' Hr'. right. specialize (Hthk k). rewrite Hr' in Hthk. simpl in Hthk.
    destruct (delete pid (pt_rel_map pm) !! k) as [y|] eqn:Ey; [|done].
    apply lookup_delete_Some in Ey as [_ Ey]. exists y. split; [done|].
    eapply (same_threads_back (with_current None pm)); [done|done|]. simpl in Hthk. congruence.
  - intros k y Hy Hny. specialize (Hthk k).
    rewrite lookup_delete_ne in Hthk by congruence. rewrite Hy in Hthk. simpl in Hthk.
    destruct (rm' !! k) as [r'|]; [|done]. exists r'. split; [done|].
    unfold thread_part in Hthk. simpl in Hthk. congruence.
Qed.

(** The exiting thread leaves the tables; its process keeps the exit code. *)
Lemma inv_del_thread pm t p r code mgr : pt_inv pm → pt_current pm = Some t →
  pt_manager pm = Some mgr → pt_rel_map pm !! p = Some r → t ∈ threads r →
  pt_inv (mkPTM (<[p := ProcThreadRel_del_thread t code r]> (pt_rel_map pm)) (proc_manager pm)
    (delete t (tid2pid pm)) (Some (m_delete t mgr)) None).
Proof.
  intros Hi Hc Hm Hr Hin. pose proof (pi_threads _ Hi) as (m0 & Hm0 & Hd & Hnd & Hsub).
  assert (m0 = mgr) as -> by congruence. unfold pt_running in *. rewrite Hc in *. simpl in *.
  destruct (del_thread_present t code r Hin) as [Hdead HP].
  pose proof (pi_wf _ Hi _ _ Hr) as Hwf.
  assert (t ∉ threads (ProcThreadRel_del_thread t code r)) as Hnot.
  { apply NoDup_app in Hwf as [Hnt _]. rewrite HP in Hnt. by apply NoDup_cons in Hnt as [? _]. }
  rewrite Permutation_app_comm in Hnd. apply NoDup_cons in Hnd as [Hnr Hndr].
  assert (tid2pid pm !! t = Some p) as Htp by (apply (pi_own _ Hi); eauto).
  split; simpl.
  - unfold fam; simpl. rewrite (fam_same_proc pm p r); [apply Hi|done|apply del_thread_proc_part].
  - destruct (pi_procs _ Hi) as (pmgr & ? & ?). exists pmgr. split; [done|].
    rewrite dom_insert_lookup_L by eauto. done.
  - exists (m_delete t mgr). unfold pt_running; simpl.
    rewrite delete_spec, !dom_delete_L, ready_delete, app_nil_r. split_and!; [done|congruence|done|].
    intros t' Ht'. assert (t' ≠ t) by congruence.
    assert (t' ∈ dom (tid2pid pm)) by (apply Hsub; set_solver). set_solver.
  - intros t' p'. rewrite lookup_delete_Some, (pi_own _ Hi). setoid_rewrite lookup_insert_Some. split.
    + intros (Hne & r' & Hr' & Hin'). destruct (decide (p = p')) as [<-|Hpp]; [|eauto].
      assert (r' = r) as -> by congruence. eexists. split; [by left|].
      rewrite HP in Hin'. set_solver.
    + intros (r' & [[<- <-]|[Hpp Hr']] & Hin').
      * split; [congruence|]. exists r. split; [done|]. rewrite HP. set_solver.
      * split; [|eauto]. intros <-.
        assert (tid2pid pm !! t = Some p') by (apply (pi_own _ Hi); eauto). congruence.
  - intros p' r' [[<- <-]|[_ Hr']]%lookup_insert_Some; [|by eapply pi_wf].
    by rewrite del_thread_known.
  - intros p' r' t' Hr' Ht'. apply lookup_delete_None.
    apply lookup_insert_Some in Hr' as [[<- <-]|[_ Hr']]; [|right; by eapply pi_dead].
    rewrite Hdead, fmap_app in Ht'. apply elem_of_app in Ht' as [Ht'|Ht'].
    + right. by eapply pi_dead.
    + left. simpl in Ht'. by apply list_elem_of_singleton in Ht'.
Qed.

Lemma pt_exit_run pm t p r code : pt_inv pm → pt_current pm = Some t →
  tid2pid pm !! t = Some p → pt_rel_map pm !! p = Some r →
  (threads r = [t] → p ≠ 0 ∧ is_Some (pt_rel_map pm !! 0)) →
  ∃ pm', PThreadManager_make_current_exited code pm = Done pm' ∧ pt_inv pm' ∧
    pt_current pm' = None ∧ tid2pid pm' = delete t (tid2pid pm) ∧
    if decide (threads r = [t]) then
      (∀ k, fam pm' !! k = if decide (k = p) then None
         else after_exit p code (proc_part r) k <$> fam pm !! k) ∧
      fmap (M := gmap Z) thread_part (pt_rel_map pm') =
        fmap (M := gmap Z) thread_part (delete p (pt_rel_map pm))
    else pt_rel_map pm' = <[p := ProcThreadRel_del_thread t code r]> (pt_rel_map pm).
Proof.
  intros Hi Hc Htp Hr Hlast. pose proof (pi_threads _ Hi) as (mgr & Hm & _).
  assert (t ∈ threads r) as Hin.
  { apply (pi_own _ Hi) in Htp as (r' & Hr' & ?). congruence. }
  pose proof (inv_del_thread pm t p r code mgr Hi Hc Hm Hr Hin) as Hi1.
  destruct (del_thread_present t code r Hin) as [_ HP].
  unfold PThreadManager_make_current_exited. rewrite Hc, Hm; simpl. rewrite Htp; simpl.
  rewrite Hr. set (r1 := ProcThreadRel_del_thread t code r) in *.
  set (pm1 := with_rel _ _).
  assert (proc_part r1 = proc_part r) as Hpp by apply del_thread_proc_part.
  assert (fam pm1 = fam pm) as Hfam by (by eapply fam_same_proc).
  destruct (threads r1) as [|t1 l] eqn:E.
  - assert (threads r = [t]) as Hone by (by apply Permutation_singleton_r in HP).
    destruct (Hlast Hone) as [Hp0 Hz].
    destruct (decide (threads r = [t])) as [_|]; [|done].
    destruct (pt_del_proc_run pm1 p r1 code) as (rm' & pmgr' & -> & Hi2 & Hlook & Hthr);
      [done|by apply lookup_insert_eq|done|done| |].
    { simpl. by rewrite lookup_insert_ne. }
    simpl. eexists. split; [done|]. split_and!; [done|done|done| |].
    + intros k. unfold fam at 1; simpl. by rewrite Hlook, Hfam, Hpp.
    + simpl. rewrite Hthr. simpl. by rewrite delete_insert_eq.
  - simpl. eexists. split; [done|]. split_and!; [done|done|done|].
    rewrite decide_False; [done|]. intros Hone. rewrite Hone in HP.
    apply Permutation_length in HP. simpl in HP. lia.
Qed.

Lemma pt_wait_run pm t p r child : pt_inv pm → pt_current pm = Some t →
  tid2pid pm !! t = Some p → pt_rel_map pm !! p = Some r →
  ∃ o r', PThreadManager_wait child pm = Done (o, with_rel (<[p := r']> (pt_rel_map pm)) pm) ∧
    wait_effect child (proc_part r) o (proc_part r') ∧ thread_part r' = thread_part r ∧
    pt_inv (with_rel (<[p := r']> (pt_rel_map pm)) pm).
Proof.
  intros Hi Hc Htp Hr. unfold PThreadManager_wait.
  rewrite Hc; simpl. rewrite Htp; simpl. rewrite Hr; simpl.
  set (w := if child =? usize_max then _ else _).
  assert (prod_map id proc_part w = wait_answer child (proc_part r)) as Hw.
  { unfold w, wait_answer. case_match; [apply proc_part_wait_any|apply proc_part_wait]. }
  assert (thread_part w.2 = thread_part r) as Hth.
  { unfold w, ProcThreadRel_wait_any_child, ProcThreadRel_wait_child.
    repeat case_match; simplify_eq/=; done. }
  pose proof (wait_answer_effect child (proc_part r)) as Heff. rewrite <-Hw in Heff.
  destruct w as [o r']. simpl in *. exists o, r'. split_and!; [done|done|done|].
  pose proof (pi_procs _ Hi) as (pmgr & Hpm & Hpd).
  assert (fam pm !! p = Some (proc_part r)) as Hf by (unfold fam; by rewrite lookup_fmap, Hr).
  destruct (wait_effect_rel _ _ _ _ Heff) as (Hp1 & Hp2 & Hp3 & Hp4).
  { by eapply (t_wf _ (pi_tree _ Hi)). }
  replace (with_rel (<[p := r']> (pt_rel_map pm)) pm) with
    (mkPTM (<[p := r']> (pt_rel_map pm)) (Some pmgr) (tid2pid pm) (pt_manager pm) (pt_current pm))
    by (unfold with_rel; by rewrite Hpm).
  apply (inv_rel pm); [done| | | |].
  - rewrite fmap_insert. eapply (tree_collect (fam pm)); eauto. apply Hi.
  - rewrite dom_insert_lookup_L by eauto. done.
  - intros k x [[<- <-]|[_ Hx]]%lookup_insert_Some; right;
      (eexists; split; [done|]); by eapply same_threads_back.
  - intros k x Hx _. destruct (decide (p = k)) as [<-|].
    + rewrite lookup_insert_eq. exists r'. split; [done|].
      unfold thread_part in Hth. congruence.
    + rewrite lookup_insert_ne by done. eauto.
Qed.

Lemma pt_waittid_run pm t p r tid : pt_inv pm → pt_current pm = Some t →
  tid2pid pm !! t = Some p → pt_rel_map pm !! p = Some r →
  PThreadManager_waittid tid pm = Done ((ProcThreadRel_wait_thread tid r).1,
    with_rel (<[p := (ProcThreadRel_wait_thread tid r).2]> (pt_rel_map pm)) pm) ∧
  pt_inv (with_rel (<[p := (ProcThreadRel_wait_thread tid r).2]> (pt_rel_map pm)) pm).
Proof.
  intros Hi Hc Htp Hr. unfold PThreadManager_waittid.
  rewrite Hc; simpl. rewrite Htp; simpl. rewrite Hr; simpl.
  pose proof (wait_thread_cases tid r) as Hw.
  destruct (ProcThreadRel_wait_thread tid r) as [o r']; simpl. split; [done|].
  assert (proc_part r' = proc_part r ∧ threads r' = threads r ∧
    NoDup (dead_threads r').*1 ∧ ∀ d, d ∈ dead_threads r' → d ∈ dead_threads r)
    as (Hpp & Hth & Hnd & Hsub).
  { pose proof (pi_wf _ Hi _ _ Hr) as (_ & _ & Hndr)%NoDup_app.
    destruct o as [c|]; [destruct Hw as [[-> _]|(? & ? & HP)]|destruct Hw as [-> _]]; [done| |done].
    rewrite HP in Hndr. apply NoDup_cons in Hndr as [_ ?]. split_and!; [done..|].
    intros d Hd. rewrite HP. set_solver. }
  pose proof (pi_procs _ Hi) as (pmgr & Hpm & Hpd).
  replace (with_rel (<[p := r']> (pt_rel_map pm)) pm) with
    (mkPTM (<[p := r']> (pt_rel_map pm)) (Some pmgr) (tid2pid pm) (pt_manager pm) (pt_current pm))
    by (unfold with_rel; by rewrite Hpm).
  apply (inv_rel pm); [done| | | |].
  - rewrite (fam_same_proc pm p r) by done. apply Hi.
  - rewrite dom_insert_lookup_L by eauto. done.
  - intros k x [[<- <-]|[_ Hx]]%lookup_insert_Some; right; (eexists; split; [done|]); [done|].
    by eapply same_threads_back.
  - intros k x Hx _. destruct (decide (p = k)) as [<-|].
    + rewrite lookup_insert_eq. exists r'. split; [done|]. congruence.
    + rewrite lookup_insert_ne by done. eauto.
Qed.

End PTInv.
