(* ===== verification/ThreadSystem.v ===== *)
(** * The threaded kernel as a state machine

    [PThreadManager] with the two id counters, driven by the operations the
    threaded kernel ([tg-rcore-tutorial-ch8/src/main.rs]) issues: fork, thread
    creation, scheduling, blocking and waking, exit, wait and waittid. *)

From S2P Require Import Prelude TaskRel ProcManage ProcTree ProcInvariant ThreadManage.
From S2P Require Import ThreadInvariant Schedulers.

Section TSystem.
Context {MT MP T P : Type}.
Context `{!Manage MT T, !ManageSpec MT T, !Schedule MT, !ScheduleSpec MT T}.
Context `{!Manage MP P, !ManageSpec MP P}.

Record tsys := mkTsys { tm : PThreadManager MT MP; pid_counter : Z; tid_counter : Z }.
Implicit Types (s : tsys).

Inductive top :=
| TFork (proc : P) (th : T)
| TCreate (th : T)
| TNext
| TSuspend
| TBlock
| TWake (tid : Z)
| TExit (code : Z)
| TWait (child : Z)
| TWaittid (tid : Z).

Definition tboot (mgr : MT) (pmgr : MP) (proc : P) (th : T) : outcome tsys :=
  let '(pid, c) := ProcId_new 0 in
  let '(tid, d) := ThreadId_new 0 in
  let pm := PThreadManager_set_manager mgr
    (PThreadManager_set_proc_manager pmgr PThreadManager_new) in
  pm ← PThreadManager_add_proc pid proc usize_max pm;
  pm ← PThreadManager_add tid th pid pm;
  Done (mkTsys pm c d).

(** [fork] files the new process under the process of the running thread, then
    adds its only thread; [thread_create] adds a thread to the running process. *)
Definition trun (op : top) s : outcome tsys :=
  match op with
  | TFork proc th =>
      t ← unwrap (pt_current (tm s));
      parent ← unwrap (tid2pid (tm s) !! t);
      let '(pid, c) := ProcId_new (pid_counter s) in
      let '(tid, d) := ThreadId_new (tid_counter s) in
      pm ← PThreadManager_add_proc pid proc parent (tm s);
      pm ← PThreadManager_add tid th pid pm;
      Done (mkTsys pm c d)
  | TCreate th =>
      t ← unwrap (pt_current (tm s));
      pid ← unwrap (tid2pid (tm s) !! t);
      let '(tid, d) := ThreadId_new (tid_counter s) in
      pm ← PThreadManager_add tid th pid (tm s);
      Done (mkTsys pm (pid_counter s) d)
  | TNext =>
      '(_, pm) ← PThreadManager_find_next (tm s);
      Done (mkTsys pm (pid_counter s) (tid_counter s))
  | TSuspend =>
      pm ← PThreadManager_make_current_suspend (tm s);
      Done (mkTsys pm (pid_counter s) (tid_counter s))
  | TBlock =>
      Done (mkTsys (PThreadManager_make_current_blocked (tm s)) (pid_counter s) (tid_counter s))
  | TWake tid =>
      pm ← PThreadManager_re_enque tid (tm s);
      Done (mkTsys pm (pid_counter s) (tid_counter s))
  | TExit code =>
      pm ← PThreadManager_make_current_exited code (tm s);
      Done (mkTsys pm (pid_counter s) (tid_counter s))
  | TWait child =>
      '(_, pm) ← PThreadManager_wait child (tm s);
      Done (mkTsys pm (pid_counter s) (tid_counter s))
  | TWaittid tid =>
      '(_, pm) ← PThreadManager_waittid tid (tm s);
      Done (mkTsys pm (pid_counter s) (tid_counter s))
  end.

(** [t] is the last thread of process 0. *)
Definition last_of_init t s : Prop :=
  tid2pid (tm s) !! t = Some 0 ∧
  ∃ r, pt_rel_map (tm s) !! 0 = Some r ∧ threads r = [t].

Definition tallowed (op : top) s : Prop :=
  match op with
  | TFork _ _ => is_Some (pt_current (tm s)) ∧ pid_counter s < still_running ∧
      tid_counter s < usize_max
  | TCreate _ => is_Some (pt_current (tm s)) ∧ tid_counter s < usize_max
  | TNext => pt_current (tm s) = None ∧ ∀ mgr, pt_manager (tm s) = Some mgr → fetch_safe mgr
  | TSuspend | TBlock | TWait _ | TWaittid _ => is_Some (pt_current (tm s))
  | TWake tid => blocked tid (tm s)
  | TExit _ => ∃ t, pt_current (tm s) = Some t ∧ ¬ last_of_init t s
  end.

Inductive treach : tsys → tsys → Prop :=
| TRrefl s : treach s s
| TRstep s s1 op s2 : treach s s1 → tallowed op s1 → trun op s1 = Done s2 → treach s s2.

Record tsys_ok s : Prop := {
  ts_inv : pt_inv (tm s);
  ts_staffed : staffed (tm s);
  ts_init : is_Some (pt_rel_map (tm s) !! 0);
  ts_pid : 0 < pid_counter s ≤ still_running;
  ts_tid : 0 ≤ tid_counter s ≤ usize_max;
  ts_below k r : pt_rel_map (tm s) !! k = Some r → k < pid_counter s ∧
    (∀ c, c ∈ (pt_dead_children r).*1 → c < pid_counter s) ∧
    ∀ t, t ∈ known (threads r) (dead_threads r) → t < tid_counter s;
}.

Lemma current_owner s : tsys_ok s → is_Some (pt_current (tm s)) →
  ∃ t p r, pt_current (tm s) = Some t ∧ tid2pid (tm s) !! t = Some p ∧
    pt_rel_map (tm s) !! p = Some r ∧ t ∈ threads r.
Proof.
  intros Hs [t Ht]. destruct (running_owner _ _ (ts_inv _ Hs) Ht) as (p & r & ? & ? & ?). eauto 10.
Qed.

Lemma fresh_tid s : tsys_ok s → tid_fresh (tid_counter s) (tm s).
Proof.
  intros Hs. split.
  - destruct (tid2pid (tm s) !! tid_counter s) as [p|] eqn:E; [|done].
    apply (pi_own _ (ts_inv _ Hs)) in E as (r & Hr & Hin).
    destruct (ts_below _ Hs _ _ Hr) as (_ & _ & Hb).
    assert (tid_counter s < tid_counter s); [|lia]. apply Hb. unfold known. set_solver.
  - intros p r Hr Hin. destruct (ts_below _ Hs _ _ Hr) as (_ & _ & Hb).
    assert (tid_counter s < tid_counter s); [|lia]. apply Hb. unfold known. set_solver.
Qed.

Lemma fresh_pid_t s : tsys_ok s → unknown (pid_counter s) (fam (tm s)).
Proof.
  intros Hs. split.
  - unfold fam. rewrite lookup_fmap. apply fmap_None.
    destruct (pt_rel_map (tm s) !! pid_counter s) eqn:E; [|done].
    destruct (ts_below _ Hs _ _ E). lia.
  - intros k x Hk. pose proof Hk as Hk'. unfold fam in Hk'. rewrite lookup_fmap in Hk'.
    apply fmap_Some in Hk' as (r & Hr & ->). intros [Hin|Hin]%elem_of_app.
    + assert (lists (fam (tm s)) k (pid_counter s)) as Hl by (by eexists).
      pose proof (lists_child _ _ _ (pi_tree _ (ts_inv _ Hs)) Hl) as (rc & Hrc & _).
      unfold fam in Hrc. rewrite lookup_fmap in Hrc. apply fmap_Some in Hrc as (y & Hy & _).
      destruct (ts_below _ Hs _ _ Hy). lia.
    + destruct (ts_below _ Hs _ _ Hr) as (_ & Hb & _). specialize (Hb _ Hin). lia.
Qed.

Lemma counters s : tsys_ok s →
  (pid_counter s < still_running → as_usize (pid_counter s + 1) = pid_counter s + 1) ∧
  (tid_counter s < usize_max → as_usize (tid_counter s + 1) = tid_counter s + 1).
Proof.
  intros Hs. pose proof (ts_pid _ Hs). pose proof (ts_tid _ Hs).
  unfold still_running, as_usize, usize_max in *.
  change (-2 mod 2 ^ 64) with (2 ^ 64 - 2) in *.
  split; intros; rewrite Z.mod_small; lia.
Qed.

(** The scheduler's operations leave relations and counters alone. *)
Lemma ok_sched s pm : tsys_ok s → pt_inv pm → pt_rel_map pm = pt_rel_map (tm s) →
  tsys_ok (mkTsys pm (pid_counter s) (tid_counter s)).
Proof.
  intros Hs Hi Hrm. split; simpl; unfold staffed; rewrite ?Hrm; try apply Hs. done.
Qed.

(** Replacing one relation by one that mentions no new ids. *)
Lemma ok_update s p r r' : tsys_ok s → pt_rel_map (tm s) !! p = Some r →
  pt_inv (with_rel (<[p := r']> (pt_rel_map (tm s))) (tm s)) →
  threads r' = threads r →
  (∀ c, c ∈ pt_dead_children r' → c ∈ pt_dead_children r) →
  (∀ d, d ∈ dead_threads r' → d ∈ dead_threads r) →
  tsys_ok (mkTsys (with_rel (<[p := r']> (pt_rel_map (tm s))) (tm s))
    (pid_counter s) (tid_counter s)).
Proof.
  intros Hs Hr Hi Hth Hdc Hdt. split; simpl; [done| | |apply Hs|apply Hs|].
  - unfold staffed; simpl. intros k x [[<- <-]|[_ Hx]]%lookup_insert_Some; [rewrite Hth|]; by eapply ts_staffed.
  - destruct (decide (p = 0)) as [->|]; [by rewrite lookup_insert_eq|].
    rewrite lookup_insert_ne by done. apply Hs.
  - intros k x [[<- <-]|[_ Hx]]%lookup_insert_Some; [|by apply (ts_below _ Hs)].
    destruct (ts_below _ Hs _ _ Hr) as (? & Hb1 & Hb2). split_and!; [done| |].
    + intros c (d & -> & Hd)%list_elem_of_fmap. apply Hb1.
      by apply list_elem_of_fmap_2, Hdc.
    + intros t [Ht|Ht]%elem_of_app; apply Hb2; unfold known; apply elem_of_app.
      * left. by rewrite <-Hth.
      * right. apply list_elem_of_fmap in Ht as (d & -> & Hd).
        by apply list_elem_of_fmap_2, Hdt.
Qed.

(** Adding a thread to a process. *)
Lemma ok_add_thread s pm th p r : tsys_ok s → pt_inv pm → pt_rel_map pm !! p = Some r →
  tid_fresh (tid_counter s) pm → (pt_current pm = pt_current (tm s)) → tid_counter s < usize_max →
  (∀ k x, pt_rel_map pm !! k = Some x → (k = p ∨ threads x ≠ []) ∧ k < pid_counter s ∧
     (∀ c, c ∈ (pt_dead_children x).*1 → c < pid_counter s) ∧
     ∀ t, t ∈ known (threads x) (dead_threads x) → t < tid_counter s) →
  is_Some (pt_rel_map pm !! 0) →
  ∃ pm', PThreadManager_add (tid_counter s) th p pm = Done pm' ∧
    tsys_ok (mkTsys pm' (pid_counter s) (as_usize (tid_counter s + 1))).
Proof.
  intros Hs Hi Hr Hfr Hcur Hlt Hall Hz. pose proof (ts_tid _ Hs).
  destruct (pt_add_run pm (tid_counter s) th p r Hi Hfr Hr)
    as (pm' & Hrun & Hi' & Hc & _ & Hrm & _).
  exists pm'. split; [done|]. rewrite (proj2 (counters s Hs) Hlt).
  split; simpl; [done| | |apply Hs|lia|]; unfold staffed; rewrite Hrm.
  - intros k x [[<- <-]|[Hk Hx]]%lookup_insert_Some; [simpl; by destruct (threads r)|].
    destruct (Hall _ _ Hx) as [[?|?] _]; congruence.
  - destruct (decide (p = 0)) as [->|]; [by rewrite lookup_insert_eq|].
    by rewrite lookup_insert_ne.
  - intros k x [[<- <-]|[Hk Hx]]%lookup_insert_Some.
    + destruct (Hall _ _ Hr) as (_ & ? & ? & Hb). split_and!; [done|done|].
      unfold known in *; simpl. intros t. rewrite !elem_of_app, list_elem_of_singleton.
      intros [[Ht| ->]|Ht]; [|lia|]; assert (t < tid_counter s); try lia; apply Hb; set_solver.
    + destruct (Hall _ _ Hx) as (_ & ? & ? & Hb). split_and!; [done|done|].
      intros t Ht. specialize (Hb t Ht). lia.
Qed.

Lemma tfork_ok s proc th : tsys_ok s → tallowed (TFork proc th) s →
  ∃ s', trun (TFork proc th) s = Done s' ∧ tsys_ok s'.
Proof.
  intros Hs (Hcur & Hlt & Hlt').
  destruct (current_owner s Hs Hcur) as (t & p & r & Hc & Htp & Hr & _).
  pose proof (ts_pid _ Hs). destruct (ts_below _ Hs _ _ Hr) as (Hpb & _).
  assert (still_running < usize_max) as Hsr by done.
  destruct (pt_add_proc_run (tm s) (pid_counter s) proc p) as
    (pm1 & Hrun1 & Hi1 & Hc1 & Htp1 & _ & Hrm1);
    [apply Hs|by apply fresh_pid_t|lia| |].
  { right. split; [done|]. unfold fam. by rewrite lookup_fmap, Hr. }
  set (s1 := mkTsys (tm s) (pid_counter s + 1) (tid_counter s)).
  assert (tsys_ok s1) as Hs1.
  { split; simpl; try apply Hs; [lia|]. intros k x Hx.
    destruct (ts_below _ Hs _ _ Hx) as (? & Hb & ?). split_and!; [lia| |done].
    intros c Hc'. specialize (Hb c Hc'). lia. }
  assert (∀ k x, pt_rel_map pm1 !! k = Some x → (k = pid_counter s ∧ x = ProcThreadRel_new p) ∨
    ∃ y, pt_rel_map (tm s) !! k = Some y ∧ thread_part x = thread_part y ∧
      pt_dead_children x = pt_dead_children y) as Hback.
  { intros k x. rewrite Hrm1. intros [[<- <-]|[_ Hx]]%lookup_insert_Some; [by left|right].
    rewrite lookup_alter in Hx. case_decide; [subst|eauto].
    apply fmap_Some in Hx as (y & Hy & ->). eauto. }
  destruct (ok_add_thread s1 pm1 th (pid_counter s) (ProcThreadRel_new p)) as (pm2 & Hrun2 & Hok);
    [done|done|by rewrite Hrm1, lookup_insert_eq| |done|done| | |].
  - simpl. destruct (fresh_tid s Hs) as [Hn Hd]. split; [by rewrite Htp1|].
    intros k x [[_ ->]|(y & Hy & [= _ E] & _)]%Hback; [apply not_elem_of_nil|].
    rewrite E. by eapply Hd.
  - intros k x [[-> ->]|(y & Hy & [= E1 E2] & E3)]%Hback; simpl.
    + split_and!; [by left|lia|..]; intros ? Hin; by apply not_elem_of_nil in Hin.
    + rewrite E1, E2, E3. destruct (ts_below _ Hs1 _ _ Hy) as (? & ? & ?).
      split_and!; [right; by eapply (ts_staffed _ Hs)|done..].
  - rewrite Hrm1, lookup_insert_is_Some. destruct (decide (pid_counter s = 0)); [by left|right].
    split; [done|]. rewrite lookup_alter. destruct (ts_init _ Hs) as [z Hz].
    case_decide; [subst|]; rewrite Hz; eauto.
  - simpl. rewrite Hc; simpl. rewrite Htp; simpl. rewrite Hrun1; simpl.
    simpl in Hrun2. rewrite Hrun2; simpl. rewrite (proj1 (counters s Hs) Hlt). eauto.
Qed.

Lemma tcreate_ok s th : tsys_ok s → tallowed (TCreate th) s →
  ∃ s', trun (TCreate th) s = Done s' ∧ tsys_ok s'.
Proof.
  intros Hs (Hcur & Hlt).
  destruct (current_owner s Hs Hcur) as (t & p & r & Hc & Htp & Hr & _).
  destruct (ok_add_thread s (tm s) th p r) as (pm & Hrun & Hok);
    [done|apply Hs|done|by apply fresh_tid|done|done| |apply Hs|].
  - intros k x Hx. destruct (ts_below _ Hs _ _ Hx) as (? & ? & ?).
    split_and!; [right; by eapply (ts_staffed _ Hs)|done..].
  - simpl. rewrite Hc; simpl. rewrite Htp; simpl. rewrite Hrun; simpl. eauto.
Qed.

Lemma texit_ok s code : tsys_ok s → tallowed (TExit code) s →
  ∃ s', trun (TExit code) s = Done s' ∧ tsys_ok s'.
Proof.
  intros Hs (t & Hc & Hnl).
  destruct (current_owner s Hs ltac:(eauto)) as (t' & p & r & Hc' & Htp & Hr & Hin).
  assert (t' = t) as -> by congruence.
  destruct (pt_exit_run (tm s) t p r code (ts_inv _ Hs) Hc Htp Hr) as
    (pm' & Hrun & Hi & _ & _ & Hres).
  { intros Hone. split; [|apply Hs]. intros ->. apply Hnl. split; eauto. }
  simpl. rewrite Hrun; simpl. eexists. split; [done|].
  destruct (del_thread_present t code r Hin) as [Hdead HP].
  destruct (ts_below _ Hs _ _ Hr) as (Hpb & Hcb & Htb).
  case_decide as Hone.
  - destruct Hres as [Hfam Hthr].
    assert (∀ k, (thread_part <$> pt_rel_map pm' !! k)
      = (thread_part <$> delete p (pt_rel_map (tm s)) !! k)) as Hthk.
    { intros k. by rewrite <-!lookup_fmap, Hthr. }
    assert (∀ k x, pt_rel_map pm' !! k = Some x → k ≠ p ∧ ∃ y, pt_rel_map (tm s) !! k = Some y ∧
      thread_part x = thread_part y ∧ proc_part x = after_exit p code (proc_part r) k (proc_part y))
      as Hback.
    { intros k x Hx. specialize (Hthk k). specialize (Hfam k). unfold fam in Hfam.
      rewrite !lookup_fmap in Hfam. rewrite Hx in Hthk, Hfam. simpl in *.
      case_decide as Hkp; [done|]. rewrite lookup_delete_ne in Hthk by congruence.
      destruct (pt_rel_map (tm s) !! k) as [y|]; [|done]. simpl in *.
      split; [done|]. exists y. split_and!; [done|congruence|congruence]. }
    split; simpl; [done| | |apply Hs|apply Hs|].
    + intros k x (_ & y & Hy & [= E _] & _)%Hback. rewrite E. by eapply (ts_staffed _ Hs).
    + destruct (ts_init _ Hs) as [z Hz]. specialize (Hthk 0).
      rewrite lookup_delete_ne in Hthk.
      * rewrite Hz in Hthk. by destruct (pt_rel_map pm' !! 0).
      * intros ->. apply Hnl. split; eauto.
    + intros k x (_ & y & Hy & [= E1 E2] & Hpp)%Hback. rewrite E1, E2.
      destruct (ts_below _ Hs _ _ Hy) as (? & Hb & ?). split_and!; [done| |done].
      intros c Hin'. change (pt_dead_children x) with (dead_children (proc_part x)) in Hin'.
      rewrite Hpp in Hin'.
      apply (after_exit_dead (fam (tm s))) in Hin'; [|unfold fam; by rewrite lookup_fmap, Hy].
      destruct Hin' as [Hin'| ->]; [by apply Hb|done].
  - split; simpl; [done| | |apply Hs|apply Hs|]; unfold staffed; rewrite Hres.
    + intros k x [[<- <-]|[_ Hx]]%lookup_insert_Some; [|by eapply (ts_staffed _ Hs)].
      intros E. rewrite E in HP. apply Permutation_singleton_r in HP. done.
    + destruct (decide (p = 0)) as [->|]; [by rewrite lookup_insert_eq|].
      rewrite lookup_insert_ne by done. apply Hs.
    + intros k x [[<- <-]|[_ Hx]]%lookup_insert_Some; [|by apply (ts_below _ Hs)].
      split_and!; [done| |].
      * change (pt_dead_children (ProcThreadRel_del_thread t code r)) with
          (dead_children (proc_part (ProcThreadRel_del_thread t code r))).
        by rewrite del_thread_proc_part.
      * intros t0. rewrite del_thread_known. apply Htb.
Qed.

Lemma twait_ok s child : tsys_ok s → tallowed (TWait child) s →
  ∃ s', trun (TWait child) s = Done s' ∧ tsys_ok s'.
Proof.
  intros Hs Hcur. destruct (current_owner s Hs Hcur) as (t & p & r & Hc & Htp & Hr & _).
  destruct (pt_wait_run _ _ _ _ child (ts_inv _ Hs) Hc Htp Hr)
    as (o & r' & Hrun & Heff & [= E1 E2] & Hi).
  simpl. rewrite Hrun; simpl. eexists. split; [done|].
  destruct (wait_effect_rel _ _ _ _ Heff) as (_ & _ & _ & Hsub).
  { eapply (t_wf _ (pi_tree _ (ts_inv _ Hs)) p). unfold fam. by rewrite lookup_fmap, Hr. }
  apply (ok_update s p r r'); [done|done|done|done|done|]. by rewrite E2.
Qed.

Lemma twaittid_ok s tid : tsys_ok s → tallowed (TWaittid tid) s →
  ∃ s', trun (TWaittid tid) s = Done s' ∧ tsys_ok s'.
Proof.
  intros Hs Hcur. destruct (current_owner s Hs Hcur) as (t & p & r & Hc & Htp & Hr & _).
  destruct (pt_waittid_run _ _ _ _ tid (ts_inv _ Hs) Hc Htp Hr) as (Hrun & Hi).
  simpl. rewrite Hrun; simpl. eexists. split; [done|].
  pose proof (wait_thread_cases tid r) as Hw.
  destruct (ProcThreadRel_wait_thread tid r) as [o r']; simpl in *.
  destruct o as [c|]; [destruct Hw as [[-> _]|(Hpp & Hth & HP)]|destruct Hw as [-> _]];
    apply (ok_update s p r); try done.
  - intros c' Hc'. change (pt_dead_children r) with (dead_children (proc_part r)).
    by rewrite <-Hpp.
  - intros d Hd. rewrite HP. set_solver.
Qed.

Lemma trun_ok s op : tsys_ok s → tallowed op s → ∃ s', trun op s = Done s' ∧ tsys_ok s'.
Proof.
  intros Hs Hal. destruct op as [proc th|th| | | |tid|code|child|tid].
  - by apply tfork_ok.
  - by apply tcreate_ok.
  - destruct Hal as [Hc Hsafe].
    destruct (pt_next_run _ (ts_inv _ Hs) Hc Hsafe) as (o & pm & Hrun & Hi & _ & Hrm & _).
    simpl. rewrite Hrun; simpl. eexists. split; [done|]. by apply ok_sched.
  - destruct Hal as [t Hc].
    destruct (pt_suspend_run _ _ (ts_inv _ Hs) Hc) as (pm & Hrun & Hi & _ & Hrm & _).
    simpl. rewrite Hrun; simpl. eexists. split; [done|]. by apply ok_sched.
  - destruct Hal as [t Hc].
    destruct (pt_block_run _ _ (ts_inv _ Hs) Hc) as (Hi & _ & _ & Hrm).
    simpl. eexists. split; [done|]. by apply ok_sched.
  - destruct (pt_re_enque_run _ _ (ts_inv _ Hs) Hal) as (pm & mgr & Hrun & Hi & _ & Hrm & _).
    simpl. rewrite Hrun; simpl. eexists. split; [done|]. by apply ok_sched.
  - by apply texit_ok.
  - by apply twait_ok.
  - by apply twaittid_ok.
Qed.

Definition empty_managers (mgr : MT) (pmgr : MP) : Prop :=
  tasks_of (T := T) mgr = ∅ ∧ ready_of mgr = [] ∧ tasks_of (T := P) pmgr = ∅.

Lemma tboot_ok mgr pmgr proc th : empty_managers mgr pmgr →
  ∃ s, tboot mgr pmgr proc th = Done s ∧ tsys_ok s.
Proof.
  intros (Htk & Hrd & Hpt).
  set (pm0 := PThreadManager_set_manager mgr
    (PThreadManager_set_proc_manager pmgr PThreadManager_new)).
  assert (pt_inv pm0) as Hi0.
  { split; simpl.
    - unfold fam; simpl. rewrite fmap_empty. apply tree_ok_empty.
    - exists pmgr. rewrite Hpt. by rewrite !dom_empty_L.
    - exists mgr. unfold pt_running; simpl. rewrite Htk, Hrd, !dom_empty_L.
      split_and!; [done|done|apply NoDup_nil_2|]. intros t Ht. by apply not_elem_of_nil in Ht.
    - intros t p. rewrite lookup_empty. split; [done|]. intros (r & Hr & _).
      by rewrite lookup_empty in Hr.
    - intros p r Hr. by rewrite lookup_empty in Hr.
    - intros p r t Hr. by rewrite lookup_empty in Hr. }
  destruct (pt_add_proc_run pm0 0 proc usize_max) as (pm1 & Hrun1 & Hi1 & Hc1 & Htp1 & _ & Hrm1);
    [done| |done|by left|].
  { split; unfold fam; simpl; [by rewrite fmap_empty, lookup_empty|].
    intros k r. by rewrite fmap_empty, lookup_empty. }
  assert (pt_rel_map pm1 = <[0 := ProcThreadRel_new usize_max]> ∅) as Hrm.
  { rewrite Hrm1. simpl. by rewrite alter_absent. }
  destruct (pt_add_run pm1 0 th 0 (ProcThreadRel_new usize_max))
    as (pm2 & Hrun2 & Hi2 & _ & _ & Hrm2 & _); [done| |by rewrite Hrm, lookup_insert_eq|].
  { split; [by rewrite Htp1|]. rewrite Hrm.
    intros k r [[_ <-]|[_ Hr]]%lookup_insert_Some; [apply not_elem_of_nil|].
    by rewrite lookup_empty in Hr. }
  unfold tboot, ProcId_new, ThreadId_new. fold pm0. rewrite Hrun1; simpl. rewrite Hrun2; simpl.
  eexists. split; [done|].
  assert (∀ k r, pt_rel_map pm2 !! k = Some r →
    k = 0 ∧ r = ProcThreadRel_add_thread 0 (ProcThreadRel_new usize_max)) as Honly.
  { intros k r. rewrite Hrm2, Hrm, insert_insert_eq.
    intros [[<- <-]|[_ Hr]]%lookup_insert_Some; [done|]. by rewrite lookup_empty in Hr. }
  split; simpl; try done.
  - intros k r [_ ->]%Honly. done.
  - rewrite Hrm2, lookup_insert_eq. eauto.
  - intros k r [-> ->]%Honly. split_and!; [done| |]; intros c; [by intros ?%not_elem_of_nil|].
    intros ->%list_elem_of_singleton. done.
Qed.

Lemma treach_ok s s' : tsys_ok s → treach s s' → tsys_ok s'.
Proof.
  intros Hs Htr. induction Htr as [s|s s1 op s2 Htr IH Hal Hrun]; [done|].
  destruct (trun_ok s1 op (IH Hs) Hal) as (s' & Hrun' & Hok). congruence.
Qed.

End TSystem.
