(* ===== verification/ThreadTheorems.v ===== *)
(** * Theorems about the threaded kernel's manager *)

From S2P Require Import Prelude TaskRel ProcManage ProcTree ProcInvariant ThreadManage.
From S2P Require Import ThreadInvariant ThreadSystem Schedulers.

Section TTheorems.
Context {MT MP T P : Type}.
Context `{!Manage MT T, !ManageSpec MT T, !Schedule MT, !ScheduleSpec MT T}.
Context `{!Manage MP P, !ManageSpec MP P}.
Implicit Types (pm : PThreadManager MT MP).

(** C20: Safety of the threaded kernel's manager: from boot, along every sequence of
    allowed operations (forks, thread creation, scheduling, blocking, waking, exits,
    waits), the tables stay consistent, every process keeps at least one thread that
    has not exited, and no allowed operation panics. *)
Theorem thread_system_safe mgr pmgr proc th (s0 s : tsys) :
  empty_managers mgr pmgr → tboot mgr pmgr proc th = Done s0 → treach s0 s →
  pt_inv (tm s) ∧ staffed (tm s) ∧
  ∀ op, tallowed op s → ∃ s', trun op s = Done s'.
Proof.
  intros Hm Hb Htr. destruct (tboot_ok mgr pmgr proc th Hm) as (s0' & Hb' & Hok).
  rewrite Hb in Hb'. simplify_eq. pose proof (treach_ok _ _ Hok Htr) as Hs.
  split_and!; [apply Hs|apply Hs|]. intros op Hal.
  destruct (trun_ok _ op Hs Hal) as (s' & ? & _). eauto.
Qed.

(** The exit of the last thread ends its process: the process leaves the tables,
    its parent (if alive) holds the exit code in its dead list, its children are
    handed to process 0, and no other process loses a thread. *)
Theorem last_thread_ends_process pm t p r code :
  pt_inv pm → pt_current pm = Some t → tid2pid pm !! t = Some p →
  pt_rel_map pm !! p = Some r → threads r = [t] → p ≠ 0 → is_Some (pt_rel_map pm !! 0) →
  ∃ pm', PThreadManager_make_current_exited code pm = Done pm' ∧ pt_inv pm' ∧
    pt_rel_map pm' !! p = None ∧ tid2pid pm' = delete t (tid2pid pm) ∧
    (∀ rp, pt_rel_map pm !! pt_parent r = Some rp → ∃ rp',
       pt_rel_map pm' !! pt_parent r = Some rp' ∧ (p, code) ∈ pt_dead_children rp') ∧
    (∀ c, c ∈ pt_children r → ∃ rc, pt_rel_map pm' !! c = Some rc ∧ pt_parent rc = 0) ∧
    ∀ k, k ≠ p → (threads <$> pt_rel_map pm' !! k) = (threads <$> pt_rel_map pm !! k).
Proof.
  intros Hi Hc Htp Hr Hone Hp0 Hz.
  destruct (pt_exit_run pm t p r code Hi Hc Htp Hr) as (pm' & Hrun & Hi' & _ & Htp' & Hres);
    [done|]. rewrite decide_True in Hres by done. destruct Hres as [Hfam Hthr].
  pose proof (pi_tree _ Hi) as Ht.
  assert (fam pm !! p = Some (proc_part r)) as Hfr by (unfold fam; by rewrite lookup_fmap, Hr).
  assert (∀ k y, k ≠ p → pt_rel_map pm !! k = Some y → ∃ x, pt_rel_map pm' !! k = Some x ∧
    proc_part x = after_exit p code (proc_part r) k (proc_part y)) as Hfwd.
  { intros k y Hk Hy. specialize (Hfam k). unfold fam in Hfam. rewrite !lookup_fmap, Hy in Hfam.
    rewrite decide_False in Hfam by done. simpl in Hfam.
    apply fmap_Some in Hfam as (x & ? & ?). eauto. }
  exists pm'. split_and!; [done|done| |done| | |].
  - specialize (Hfam p). rewrite decide_True in Hfam by done.
    unfold fam in Hfam. rewrite lookup_fmap in Hfam. by apply fmap_None in Hfam.
  - intros rp Hrp.
    assert (fam pm !! pt_parent r = Some (proc_part rp)) as Hfp by (unfold fam; by rewrite lookup_fmap, Hrp).
    assert (pt_parent r ≠ usize_max) as Hm by (destruct (t_range _ Ht _ _ Hfp); lia).
    assert (lists (fam pm) (pt_parent r) p) as Hl.
    { apply (t_fam _ Ht). split; [by exists (proc_part r)|done]. }
    pose proof (lists_child _ _ _ Ht Hl) as (_ & _ & _ & Hlt).
    destruct Hl as (x & Hx & Hin). assert (x = proc_part rp) as -> by congruence.
    assert (pt_parent r ≠ p) as Hpne by lia.
    destruct (Hfwd _ _ Hpne Hrp) as (rp' & Hrp' & Hpp). exists rp'. split; [done|].
    change (pt_dead_children rp') with (dead_children (proc_part rp')). rewrite Hpp.
    destruct (del_child_present p code (proc_part rp) Hin) as [Hd _].
    unfold after_exit, adopt. simpl. repeat case_decide; try done; simpl in *; rewrite Hd; set_solver.
  - intros c Hin. destruct (exit_child (fam pm) p (proc_part r) Ht Hfr Hp0 c Hin) as (Hcp & Hc0 & Hcl).
    destruct Hcl as (x & Hx & _). unfold fam in Hx. rewrite lookup_fmap in Hx.
    apply fmap_Some in Hx as (y & Hy & _). destruct (Hfwd _ _ Hcp Hy) as (rc & Hrc & Hpp).
    exists rc. split; [done|]. change (pt_parent rc) with (parent (proc_part rc)).
    rewrite Hpp, after_exit_parent, decide_True; done.
  - intros k Hk. assert ((thread_part <$> pt_rel_map pm' !! k)
      = (thread_part <$> pt_rel_map pm !! k)) as E.
    { by rewrite <-lookup_fmap, Hthr, lookup_fmap, lookup_delete_ne. }
    destruct (pt_rel_map pm' !! k), (pt_rel_map pm !! k); simpl in *; try done.
    unfold thread_part in E. congruence.
Qed.

(** C21: A thread's exit code reaches a sibling once: when a thread that is not the
    last one exits, [waittid] by any other thread of the process returns its code,
    and a second [waittid] for it returns nothing. *)
Theorem waittid_once pm t p r code t' :
  pt_inv pm → pt_current pm = Some t → tid2pid pm !! t = Some p →
  pt_rel_map pm !! p = Some r → t' ∈ threads r → t' ≠ t →
  ∃ pm1 pm2, PThreadManager_make_current_exited code pm = Done pm1 ∧ pt_inv pm1 ∧
    PThreadManager_waittid t (with_current (Some t') pm1) = Done (Some code, pm2) ∧
    PThreadManager_waittid t pm2 = Done (None, pm2).
Proof.
  intros Hi Hc Htp Hr Hin' Hne.
  destruct (pt_exit_run pm t p r code Hi Hc Htp Hr) as (pm1 & Hrun & Hi1 & _ & Htp1 & Hres).
  { intros Hone. rewrite Hone in Hin'. by apply list_elem_of_singleton in Hin'. }
  rewrite decide_False in Hres.
  2: { intros Hone. rewrite Hone in Hin'. by apply list_elem_of_singleton in Hin'. }
  assert (t ∈ threads r) as Hin.
  { apply (pi_own _ Hi) in Htp as (r' & Hr' & ?). congruence. }
  destruct (del_thread_present t code r Hin) as [Hdead HP].
  set (r1 := ProcThreadRel_del_thread t code r) in *.
  assert (pt_rel_map pm1 !! p = Some r1) as Hr1 by (by rewrite Hres, lookup_insert_eq).
  assert (tid2pid pm1 !! t' = Some p) as Htp1'.
  { rewrite Htp1, lookup_delete_ne by done. apply (pi_own _ Hi). eauto. }
  pose proof (pi_wf _ Hi1 _ _ Hr1) as (_ & Hdis & Hnd)%NoDup_app.
  assert (t ∈ (dead_threads r1).*1) as Htd by (rewrite Hdead, fmap_app; set_solver).
  pose proof (wait_thread_cases t r1) as Hw.
  destruct (ProcThreadRel_wait_thread t r1) as [[c|] r2] eqn:Ew.
  - destruct Hw as [(_ & _ & _ & Hn)|(Hpp & Hth & HPd)]; [done|].
    assert (c = code) as ->.
    { assert ((t, code) ∈ dead_threads r1) as Hx by (rewrite Hdead; set_solver).
      rewrite HPd in Hx. apply elem_of_cons in Hx as [[= ->]|Hx]; [done|].
      rewrite HPd in Hnd. apply NoDup_cons in Hnd as [Hn _].
      exfalso. apply Hn. by apply (list_elem_of_fmap_2 fst) in Hx. }
    eexists pm1, _. split; [done|]. split; [done|].
    unfold PThreadManager_waittid; simpl. rewrite Htp1'; simpl. rewrite Hr1; simpl.
    rewrite Ew. split; [done|]. simpl. rewrite Htp1'; simpl. rewrite lookup_insert_eq; simpl.
    pose proof (wait_thread_cases t r2) as Hw2.
    assert (t ∉ known (threads r2) (dead_threads r2)) as Hnk.
    { rewrite HPd in Hnd. apply NoDup_cons in Hnd as [Hn _].
      intros [Hx|Hx]%elem_of_app; [|done]. rewrite Hth in Hx. by apply (Hdis t). }
    destruct (ProcThreadRel_wait_thread t r2) as [[c'|] r3].
    + exfalso. apply Hnk. unfold known. destruct Hw2 as [(_ & _ & Hx & _)|(_ & _ & HPx)];
        [set_solver|]. rewrite HPx. set_solver.
    + destruct Hw2 as [-> _]. unfold with_rel; simpl. by rewrite insert_insert_eq.
  - destruct Hw as [_ Hn]. exfalso. apply Hn. unfold known. set_solver.
Qed.
End TTheorems.

(** ** Concrete instances *)
Abbreviation demo_ptm := (PThreadManager (ThreadManager unit) (ProcManager unit)) (only parsing).
Abbreviation demo_tsys := (tsys (MT := ThreadManager unit) (MP := ProcManager unit)) (only parsing).

Definition demo_tboot : demo_tsys :=
  match tboot (T := unit) (P := unit) ThreadManager_new ProcManager_new () () with
  | Done s => s | _ => mkTsys PThreadManager_new 0 0 end.
Fixpoint demo_truns (ops : list (top (T := unit) (P := unit))) (s : demo_tsys) : demo_tsys :=
  match ops with
  | [] => s
  | op :: ops' => match trun op s with Done s' => demo_truns ops' s' | _ => s end
  end.

Definition demo_forked : demo_tsys :=
  demo_truns [TNext; TFork () (); TSuspend; TNext] demo_tboot.

Lemma demo_treach : treach demo_tboot demo_forked.
Proof.
  eapply (TRstep _ (demo_truns [TNext; TFork () (); TSuspend] demo_tboot) TNext);
    [|by vm_compute|reflexivity].
  eapply (TRstep _ (demo_truns [TNext; TFork () ()] demo_tboot) TSuspend);
    [|vm_compute; eauto|reflexivity].
  eapply (TRstep _ (demo_truns [TNext] demo_tboot) (TFork () ()));
    [|vm_compute; split; eauto|reflexivity].
  eapply (TRstep _ demo_tboot TNext); [constructor|by vm_compute|reflexivity].
Qed.

Lemma demo_empty : empty_managers (T := unit) (P := unit) ThreadManager_new ProcManager_new.
Proof. done. Qed.

Lemma thread_system_safe_witness :
  pt_current (tm demo_forked) = Some 1 ∧
  pt_inv (tm demo_forked) ∧ staffed (tm demo_forked) ∧
  ∀ op, tallowed op demo_forked → ∃ s', trun op demo_forked = Done s'.
Proof.
  split; [reflexivity|].
  apply (thread_system_safe ThreadManager_new ProcManager_new () () demo_tboot);
    [apply demo_empty|reflexivity|apply demo_treach].
Defined.

Lemma demo_forked_inv : pt_inv (tm demo_forked).
Proof.
  destruct (tboot_ok ThreadManager_new ProcManager_new () () demo_empty) as (s & Hb & Hok).
  assert (s = demo_tboot) as -> by (vm_compute in Hb; by injection Hb as <-).
  apply (treach_ok _ _ Hok demo_treach).
Qed.

Lemma last_thread_ends_process_witness : ∃ pm',
  PThreadManager_make_current_exited 7 (tm demo_forked) = Done pm' ∧
  pt_rel_map pm' !! 1 = None.
Proof.
  destruct (last_thread_ends_process (tm demo_forked) 1 1
    (mkProcThreadRel 0 [] [] [1] []) 7) as (pm' & Hrun & _ & Hn & _).
  1: exact demo_forked_inv.
  1-4: reflexivity.
  1: lia.
  1: vm_compute; eauto.
  exists pm'. split; [exact Hrun|exact Hn].
Defined.

Definition demo_two : demo_tsys := demo_truns [TNext; TCreate ()] demo_tboot.

Lemma demo_two_inv : pt_inv (tm demo_two).
Proof.
  destruct (tboot_ok ThreadManager_new ProcManager_new () () demo_empty) as (s & Hb & Hok).
  assert (s = demo_tboot) as -> by (vm_compute in Hb; by injection Hb as <-).
  apply (treach_ok _ demo_two Hok).
  eapply (TRstep _ (demo_truns [TNext] demo_tboot) (TCreate ())); [|vm_compute; split; eauto|reflexivity].
  eapply (TRstep _ demo_tboot TNext); [constructor|by vm_compute|reflexivity].
Qed.

Lemma waittid_once_witness : ∃ pm1 pm2,
  PThreadManager_make_current_exited 5 (tm demo_two) = Done pm1 ∧ pt_inv pm1 ∧
  PThreadManager_waittid 0 (with_current (Some 1) pm1) = Done (Some 5, pm2) ∧
  PThreadManager_waittid 0 pm2 = Done (None, pm2).
Proof.
  apply (waittid_once (tm demo_two) 0 0 (mkProcThreadRel usize_max [] [] [0; 1] []) 5 1);
    [exact demo_two_inv|reflexivity..| |lia]. simpl. set_solver.
Defined.
