(* ===== verification/Sync.v ===== *)
(** * Synchronisation primitives

    Models [tg-rcore-tutorial-sync/src/{up,mutex,semaphore,condvar}.rs]: nested
    interrupt masking, the interrupt-free cell, the blocking mutex, the semaphore
    and the condition variable.  The hardware state they touch is the [SIE] bit of
    [sstatus]. *)

From S2P Require Import Prelude.

(** ** [up.rs] *)

(** The global [INTR_MASKING_INFO] and the processor's interrupt-enable bit. *)
Record IntrMaskingInfo := mkIntr {
  sie : bool;
  nested_level : Z;
  sie_before_masking : bool;
}.
Implicit Types (i : IntrMaskingInfo).

(** The static starts at level 0; [b] is the state of the bit at that point. *)
Definition IntrMaskingInfo_new (b : bool) : IntrMaskingInfo := mkIntr b 0 false.

Definition IntrMaskingInfo_enter i : outcome IntrMaskingInfo :=
  let old := sie i in
  let before := if nested_level i =? 0 then old else sie_before_masking i in
  level ← usize_add (nested_level i) 1;
  Done (mkIntr false level before).

Definition IntrMaskingInfo_exit i : outcome IntrMaskingInfo :=
  level ← usize_sub (nested_level i) 1;
  let on := if (level =? 0) && sie_before_masking i then true else sie i in
  Done (mkIntr on level (sie_before_masking i)).

(** [UPIntrFreeCell<T>]: a [RefCell] whose borrow flag is kept. *)
Record UPIntrFreeCell (T : Type) := mkCell { inner : T; borrowed : bool }.
Arguments mkCell {T} _ _.
Arguments inner {T} _.
Arguments borrowed {T} _.

Definition UPIntrFreeCell_new {T} (value : T) : UPIntrFreeCell T := mkCell value false.

(** [exclusive_access]: mask interrupts, then [borrow_mut]. *)
Definition exclusive_access {T} (c : UPIntrFreeCell T) i :
    outcome (UPIntrFreeCell T * IntrMaskingInfo) :=
  i ← IntrMaskingInfo_enter i;
  if borrowed c then Panic else Done (mkCell (inner c) true, i).

(** Dropping the [UPIntrRefMut]: release the borrow, then unmask. *)
Definition UPIntrRefMut_drop {T} (c : UPIntrFreeCell T) i :
    outcome (UPIntrFreeCell T * IntrMaskingInfo) :=
  i ← IntrMaskingInfo_exit i;
  Done (mkCell (inner c) false, i).

(** [exclusive_session]: the closure runs on the borrowed value. *)
Definition exclusive_session {T V} (f : T → outcome (V * T)) (c : UPIntrFreeCell T) i :
    outcome (V * UPIntrFreeCell T * IntrMaskingInfo) :=
  '(c, i) ← exclusive_access c i;
  '(v, x) ← f (inner c);
  '(c, i) ← UPIntrRefMut_drop (mkCell x (borrowed c)) i;
  Done (v, c, i).

(** ** [mutex.rs] *)
Record MutexBlockingInner := mkMutex { locked : bool; m_queue : list Z }.
Abbreviation MutexBlocking := (UPIntrFreeCell MutexBlockingInner) (only parsing).
Implicit Types (mx : MutexBlockingInner).

Definition MutexBlocking_new : MutexBlocking := UPIntrFreeCell_new (mkMutex false []).

Definition mutex_lock_body (tid : Z) mx : bool * MutexBlockingInner :=
  if locked mx then (false, mkMutex (locked mx) (m_queue mx ++ [tid]))
  else (true, mkMutex true (m_queue mx)).

Definition MutexBlocking_lock (tid : Z) (c : MutexBlocking) i :=
  exclusive_session (fun mx => Done (mutex_lock_body tid mx)) c i.

Definition mutex_unlock_body mx : outcome (option Z * MutexBlockingInner) :=
  rassert (locked mx);;
  match pop_front (m_queue mx) with
  | (Some waking, q) => Done (Some waking, mkMutex (locked mx) q)
  | (None, q) => Done (None, mkMutex false q)
  end.

Definition MutexBlocking_unlock (c : MutexBlocking) i := exclusive_session mutex_unlock_body c i.

(** ** [semaphore.rs] *)
Record SemaphoreInner := mkSem { count : Z; s_queue : list Z }.
Abbreviation Semaphore := (UPIntrFreeCell SemaphoreInner) (only parsing).

Definition Semaphore_new (res_count : Z) : Semaphore :=
  UPIntrFreeCell_new (mkSem (as_isize res_count) []).

Definition sem_up_body (s : SemaphoreInner) : outcome (option Z * SemaphoreInner) :=
  n ← isize_add (count s) 1;
  let '(w, q) := pop_front (s_queue s) in Done (w, mkSem n q).

Definition sem_down_body (tid : Z) (s : SemaphoreInner) : outcome (bool * SemaphoreInner) :=
  n ← isize_sub (count s) 1;
  if n <? 0 then Done (false, mkSem n (s_queue s ++ [tid])) else Done (true, mkSem n (s_queue s)).

Definition Semaphore_up (c : Semaphore) i := exclusive_session sem_up_body c i.
Definition Semaphore_down (tid : Z) (c : Semaphore) i := exclusive_session (sem_down_body tid) c i.

(** ** [condvar.rs] *)
Record CondvarInner := mkCondvar { c_queue : list Z }.
Abbreviation Condvar := (UPIntrFreeCell CondvarInner) (only parsing).

Definition Condvar_new : Condvar := UPIntrFreeCell_new (mkCondvar []).

Definition Condvar_signal (c : Condvar) i :=
  exclusive_session (fun cv => let '(w, q) := pop_front (c_queue cv) in
    Done (w, mkCondvar q)) c i.

Definition Condvar_wait_no_sched (tid : Z) (c : Condvar) i :
    outcome (bool * Condvar * IntrMaskingInfo) :=
  '(_, c, i) ← exclusive_session (fun cv => Done ((), mkCondvar (c_queue cv ++ [tid]))) c i;
  Done (false, c, i).

(** The condition variable itself is not used. *)
Definition Condvar_wait_with_mutex (tid : Z) (m : MutexBlocking) i :
    outcome (bool * option Z * MutexBlocking * IntrMaskingInfo) :=
  '(w, m, i) ← MutexBlocking_unlock m i;
  waking_tid ← unwrap w;
  '(b, m, i) ← MutexBlocking_lock tid m i;
  Done (b, Some waking_tid, m, i).

(** ** Interrupt masking *)

(** Nothing masked yet or already masked: the bit is off exactly inside a
    critical section, or when it was off before. *)
Definition masked_from (b : bool) i : Prop :=
  0 ≤ nested_level i ≤ usize_max ∧
  (nested_level i = 0 → sie i = b) ∧
  (0 < nested_level i → sie i = false ∧ sie_before_masking i = b).

Lemma enter_masked b i i' : masked_from b i → IntrMaskingInfo_enter i = Done i' →
  masked_from b i' ∧ nested_level i' = nested_level i + 1.
Proof.
  unfold IntrMaskingInfo_enter, masked_from, usize_add. intros (Hr & H0 & H1) Hrun. inv_run.
  apply checked_Done in E as [-> Hc]. split; [|done]. split_and!; try lia. intros _.
  split; [done|]. destruct (Z.eqb_spec (nested_level i) 0); [auto|]. apply H1. lia.
Qed.

Lemma exit_masked b i i' : masked_from b i → IntrMaskingInfo_exit i = Done i' →
  masked_from b i' ∧ nested_level i' = nested_level i - 1.
Proof.
  unfold IntrMaskingInfo_exit, masked_from, usize_sub. intros (Hr & H0 & H1) Hrun. inv_run.
  apply checked_Done in E as [-> Hc]. destruct H1 as [Hs Hb]; [lia|].
  split; [|done]. split_and!; try lia.
  - intros E. rewrite E. simpl. rewrite Hs, Hb. by destruct b.
  - intros Hpos. rewrite (proj2 (Z.eqb_neq _ 0)) by lia. done.
Qed.

(** A critical section is transparent: if the body runs, so does the session; the
    cell is released and the interrupt state is as before. *)
Lemma session_run {T V} (f : T → outcome (V * T)) (x x' : T) v i :
  0 ≤ nested_level i < usize_max → (0 < nested_level i → sie i = false) →
  f x = Done (v, x') →
  ∃ i', exclusive_session f (mkCell x false) i = Done (v, mkCell x' false, i') ∧
    sie i' = sie i ∧ nested_level i' = nested_level i ∧
    (0 < nested_level i → i' = i).
Proof.
  intros Hr Hs Hf. unfold exclusive_session, exclusive_access, UPIntrRefMut_drop.
  unfold IntrMaskingInfo_enter, usize_add. rewrite checked_ok by lia. simpl. rewrite Hf; simpl.
  unfold IntrMaskingInfo_exit, usize_sub; simpl. rewrite checked_ok by lia; simpl.
  replace (nested_level i + 1 - 1) with (nested_level i) by lia.
  eexists. split; [done|]. simpl. destruct (Z.eqb_spec (nested_level i) 0) as [E|E]; simpl.
  - split_and!; [by destruct (sie i)|done|lia].
  - split_and!; [symmetry; apply Hs; lia|done|]. intros Hpos.
    destruct i as [s l b]; simpl in *. by rewrite (Hs Hpos).
Qed.

Lemma session_panic {T V} (f : T → outcome (V * T)) (c : UPIntrFreeCell T) i :
  f (inner c) = Panic → exclusive_session f c i = Panic.
Proof.
  intros Hf. unfold exclusive_session, exclusive_access, IntrMaskingInfo_enter, usize_add, checked.
  destruct (_ && _); simpl; [|done]. destruct (borrowed c); simpl; [done|]. by rewrite Hf.
Qed.

(** Any interleaving of nested sections. *)
Inductive mask_op := MEnter | MExit.
Fixpoint mask_run (ops : list mask_op) i : outcome IntrMaskingInfo :=
  match ops with
  | [] => Done i
  | MEnter :: ops' => i ← IntrMaskingInfo_enter i; mask_run ops' i
  | MExit :: ops' => i ← IntrMaskingInfo_exit i; mask_run ops' i
  end.
Definition mask_depth (ops : list mask_op) : Z :=
  foldr (fun o n => match o with MEnter => n + 1 | MExit => n - 1 end) 0 ops.

Lemma mask_run_masked b ops i i' : masked_from b i → mask_run ops i = Done i' →
  masked_from b i' ∧ nested_level i' = nested_level i + mask_depth ops.
Proof.
  revert i. induction ops as [|[] ops IH]; intros i Hm Hrun; simpl in Hrun; inv_run.
  - split; [done|]. unfold mask_depth; simpl. lia.
  - destruct (enter_masked b i a Hm E) as [Hm' El].
    destruct (IH a Hm' Hrun) as [Hf Ef]. split; [done|].
    unfold mask_depth in *; simpl. lia.
  - destruct (exit_masked b i a Hm E) as [Hm' El].
    destruct (IH a Hm' Hrun) as [Hf Ef]. split; [done|].
    unfold mask_depth in *; simpl. lia.
Qed.

(** Nested critical sections: whatever the nesting of [enter] and [exit], after a
    run of them that started outside with the interrupt bit [b], the nesting counter
    is the number of open sections, interrupts are off while one is open, and when
    the last one closes the bit is [b] again. *)
Theorem masking_nests b ops i' :
  mask_run ops (IntrMaskingInfo_new b) = Done i' →
  nested_level i' = mask_depth ops ∧
  (0 < mask_depth ops → sie i' = false) ∧ (mask_depth ops = 0 → sie i' = b).
Proof.
  intros Hrun. destruct (mask_run_masked b ops (IntrMaskingInfo_new b) i') as [(Hr & H0 & H1) El];
    [by split_and!|done|]. simpl in El. rewrite El in *. split_and!; [lia| |].
  - intros. by apply H1; lia.
  - intros. apply H0. lia.
Qed.

Lemma masking_nests_witness :
  sie (mkIntr true 0 true) = true ∧ (mask_depth [MEnter; MEnter; MExit; MExit] = 0 →
    sie (mkIntr true 0 true) = true).
Proof.
  split; [reflexivity|].
  apply (masking_nests true [MEnter; MEnter; MExit; MExit]). reflexivity.
Defined.

(** ** The mutex against its specification *)

(** Specification: at most one owner; waiters are served in order. *)
Record lock_spec := mkLockSpec { owner : option Z; waiters : list Z }.

Definition spec_lock (tid : Z) (s : lock_spec) : bool * lock_spec :=
  match owner s with
  | None => (true, mkLockSpec (Some tid) (waiters s))
  | Some _ => (false, mkLockSpec (owner s) (waiters s ++ [tid]))
  end.
Definition spec_unlock (s : lock_spec) : option (option Z * lock_spec) :=
  match owner s, waiters s with
  | None, _ => None
  | Some _, w :: ws => Some (Some w, mkLockSpec (Some w) ws)
  | Some _, [] => Some (None, mkLockSpec None [])
  end.

(** The concrete mutex forgets who the owner is; nobody waits on a free mutex. *)
Definition mutex_abs (s : lock_spec) mx : Prop :=
  locked mx = bool_decide (is_Some (owner s)) ∧ m_queue mx = waiters s ∧
  (owner s = None → waiters s = []).

Lemma mutex_abs_lock tid s mx : mutex_abs s mx →
  (mutex_lock_body tid mx).1 = (spec_lock tid s).1 ∧
  mutex_abs (spec_lock tid s).2 (mutex_lock_body tid mx).2.
Proof.
  intros (Hl & Hq & Hn). unfold mutex_lock_body, spec_lock. rewrite Hl.
  destruct (owner s) eqn:E; simpl; (split; [done|]); unfold mutex_abs; simpl;
    rewrite ?E, ?Hq; naive_solver.
Qed.

Lemma mutex_abs_unlock s mx : mutex_abs s mx →
  match spec_unlock s with
  | None => mutex_unlock_body mx = Panic
  | Some (w, s') => ∃ mx', mutex_unlock_body mx = Done (w, mx') ∧ mutex_abs s' mx'
  end.
Proof.
  intros (Hl & Hq & Hn). unfold mutex_unlock_body, spec_unlock. rewrite Hl, Hq.
  destruct (owner s) eqn:E; simpl; [|done].
  destruct (waiters s) as [|w ws]; simpl; eexists; (split; [done|]); unfold mutex_abs; simpl;
    naive_solver.
Qed.

(** Threads using the mutex: [lock] by any thread, [unlock] by the owner. *)
Inductive lock_ev := LAcquire (t : Z) | LWait (t : Z) | LRelease (t : Z) (next : option Z).

Inductive lock_trace : lock_spec → MutexBlockingInner → list lock_ev → Prop :=
| LTnil : lock_trace (mkLockSpec None []) (mkMutex false []) []
| LTlock s mx h t b s' mx' :
    lock_trace s mx h → spec_lock t s = (b, s') → mutex_lock_body t mx = (b, mx') →
    lock_trace s' mx' (h ++ [if b then LAcquire t else LWait t])
| LTunlock s mx h t w s' mx' :
    lock_trace s mx h → owner s = Some t → spec_unlock s = Some (w, s') →
    mutex_unlock_body mx = Done (w, mx') → lock_trace s' mx' (h ++ [LRelease t w]).

(** The threads that had to wait, and those woken, in order. *)
Definition waited (h : list lock_ev) : list Z :=
  omap (fun e => match e with LWait t => Some t | _ => None end) h.
Definition woken (h : list lock_ev) : list Z :=
  omap (fun e => match e with LRelease _ (Some t) => Some t | _ => None end) h.

Lemma lock_trace_fifo s mx h : lock_trace s mx h →
  mutex_abs s mx ∧ waited h = woken h ++ m_queue mx.
Proof.
  intros Htr. induction Htr as [|s mx h t b s' mx' Htr [Ha IH] Hs Hm|
    s mx h t w s' mx' Htr [Ha IH] Ho Hs Hm].
  - split; [|done]. by split_and!.
  - pose proof (mutex_abs_lock t s mx Ha) as [_ Ha']. rewrite Hs, Hm in Ha'. split; [done|].
    unfold waited, woken in *. rewrite !omap_app, IH. unfold mutex_lock_body in Hm.
    destruct (locked mx); simplify_eq; simpl; rewrite ?app_nil_r; [|done].
    by rewrite <-app_assoc.
  - pose proof (mutex_abs_unlock s mx Ha) as Hu. rewrite Hs in Hu.
    destruct Hu as (mx2 & Hm2 & Ha2). rewrite Hm in Hm2. simplify_eq. split; [done|].
    unfold waited, woken in *. rewrite !omap_app, IH. simpl. rewrite app_nil_r.
    unfold mutex_unlock_body in Hm. destruct (rassert (locked mx)); simpl in Hm; try done.
    destruct (m_queue mx) as [|x q]; simpl in Hm; simplify_eq; simpl; rewrite ?app_nil_r; [done|].
    by rewrite <-app_assoc.
Qed.

(** C29: The blocking mutex implements a FIFO hand-off lock: related states give equal
    answers and related states; in particular [lock] succeeds exactly when there is no
    owner, [unlock] panics exactly when there is none, and otherwise passes ownership
    to the longest waiting thread. *)
Theorem mutex_refines_lock s mx : mutex_abs s mx →
  (∀ tid, (mutex_lock_body tid mx).1 = (spec_lock tid s).1 ∧
     mutex_abs (spec_lock tid s).2 (mutex_lock_body tid mx).2) ∧
  match spec_unlock s with
  | None => mutex_unlock_body mx = Panic
  | Some (w, s') => ∃ mx', mutex_unlock_body mx = Done (w, mx') ∧ mutex_abs s' mx'
  end.
Proof. intros Ha. split; [intros tid; by apply mutex_abs_lock|by apply mutex_abs_unlock]. Qed.

Lemma mutex_refines_lock_witness :
  ∃ mx', mutex_unlock_body (mkMutex true [2; 3]) = Done (Some 2, mx') ∧
    mutex_abs (mkLockSpec (Some 2) [3]) mx'.
Proof. apply (mutex_refines_lock (mkLockSpec (Some 1) [2; 3]) (mkMutex true [2; 3])). done. Defined.

(** Waiting threads are served in order and none is lost: along every use of the
    mutex, the threads that had to wait are those woken so far followed by those in
    the queue. *)
Theorem mutex_fifo s mx h : lock_trace s mx h → waited h = woken h ++ m_queue mx.
Proof. intros Htr. by apply (lock_trace_fifo s). Qed.

Lemma mutex_fifo_witness : [2; 3] = [2] ++ [3].
Proof.
  apply (mutex_fifo (mkLockSpec (Some 2) [3]) (mkMutex true [3])
    ((([] ++ [LAcquire 1]) ++ [LWait 2]) ++ [LWait 3] ++ [LRelease 1 (Some 2)])).
  rewrite app_assoc.
  apply (LTunlock (mkLockSpec (Some 1) [2; 3]) (mkMutex true [2; 3]) _ 1 (Some 2)); try done.
  apply (LTlock (mkLockSpec (Some 1) [2]) (mkMutex true [2]) _ 3 false); try done.
  apply (LTlock (mkLockSpec (Some 1) []) (mkMutex true []) _ 2 false); try done.
  apply (LTlock (mkLockSpec None []) (mkMutex false []) _ 1 true); try done. constructor.
Defined.

(** ** The semaphore *)

(** Operations on a semaphore with their results. *)
Inductive sem_ev := SDown (t : Z) (ok : bool) | SUp (w : option Z).

Inductive sem_trace (n : Z) : SemaphoreInner → list sem_ev → Prop :=
| STnil : sem_trace n (mkSem (as_isize n) []) []
| STdown s h t b s' : sem_trace n s h → sem_down_body t s = Done (b, s') →
    sem_trace n s' (h ++ [SDown t b])
| STup s h w s' : sem_trace n s h → sem_up_body s = Done (w, s') →
    sem_trace n s' (h ++ [SUp w]).

Definition is_up (e : sem_ev) : bool := match e with SUp _ => true | _ => false end.
Definition passes (e : sem_ev) : bool :=
  match e with SDown _ b => b | SUp (Some _) => true | SUp None => false end.
Definition tally (p : sem_ev → bool) (h : list sem_ev) : Z :=
  Z.of_nat (length (List.filter p h)).
Definition sem_waited (h : list sem_ev) : list Z :=
  omap (fun e => match e with SDown t false => Some t | _ => None end) h.
Definition sem_woken (h : list sem_ev) : list Z :=
  omap (fun e => match e with SUp w => w | _ => None end) h.

Lemma tally_app p h1 h2 : tally p (h1 ++ h2) = tally p h1 + tally p h2.
Proof. unfold tally. rewrite List.filter_app, length_app. lia. Qed.

Record sem_ok (n : Z) (s : SemaphoreInner) (h : list sem_ev) : Prop := {
  sem_len : Z.of_nat (length (s_queue s)) = Z.max 0 (- count s);
  sem_bal : tally passes h + Z.max 0 (count s) = n + tally is_up h;
  sem_order : sem_waited h = sem_woken h ++ s_queue s;
}.

Lemma sem_trace_ok n s h : 0 ≤ n ≤ isize_max → sem_trace n s h → sem_ok n s h.
Proof.
  intros Hn Htr. induction Htr as [|s h t b s' Htr [Hl Hb Ho] Hd|s h w s' Htr [Hl Hb Ho] Hu].
  - assert (as_isize n = n) as ->.
    { unfold as_isize, isize_max in *. rewrite Z.mod_small by lia.
      by rewrite (proj2 (Z.ltb_lt _ _)) by lia. }
    split; simpl; [lia|unfold tally; simpl; lia|done].
  - unfold sem_down_body, isize_sub in Hd. inv_run. apply checked_Done in E as [-> _].
    destruct (Z.ltb_spec (count s - 1) 0); simplify_eq; split; simpl;
      rewrite ?length_app, ?tally_app; unfold sem_waited, sem_woken in *;
      rewrite ?omap_app, ?Ho; simpl; rewrite ?app_nil_r, ?app_assoc; try done;
      unfold tally in *; simpl; lia.
  - unfold sem_up_body, isize_add in Hu. inv_run. apply checked_Done in E as [-> _].
    destruct (s_queue s) as [|x q] eqn:Eq; simpl in *; simplify_eq; split; simpl in *;
      rewrite ?tally_app; unfold sem_waited, sem_woken in *;
      rewrite ?omap_app, ?Ho; simpl; rewrite ?app_nil_r, <-?app_assoc; try done;
      unfold tally in *; simpl; try lia.
Qed.

(** The semaphore counts: created with [n] resources, along every use a negative
    count is minus the number of waiting threads, and the passes granted (successful
    [down]s and wake-ups) plus the free resources are exactly [n] plus the number of
    [up]s, so no resource is lost or created. *)
Theorem semaphore_counts n s h :
  0 ≤ n ≤ isize_max → sem_trace n s h →
  Z.of_nat (length (s_queue s)) = Z.max 0 (- count s) ∧
  tally passes h + Z.max 0 (count s) = n + tally is_up h ∧
  sem_waited h = sem_woken h ++ s_queue s.
Proof. intros Hn Htr. destruct (sem_trace_ok n s h Hn Htr). done. Qed.

Lemma semaphore_counts_witness :
  Z.of_nat (length [8]) = Z.max 0 (- (-1)) ∧
  tally passes [SDown 7 true; SDown 8 false] + Z.max 0 (-1)
    = 1 + tally is_up [SDown 7 true; SDown 8 false] ∧
  sem_waited [SDown 7 true; SDown 8 false] = sem_woken [SDown 7 true; SDown 8 false] ++ [8].
Proof.
  apply (semaphore_counts 1 (mkSem (-1) [8]) [SDown 7 true; SDown 8 false]); [by vm_compute|].
  apply (STdown 1 (mkSem 0 []) [SDown 7 true] 8 false); [|reflexivity].
  apply (STdown 1 (mkSem 1 []) [] 7 true); [|reflexivity]. apply (STnil 1).
Defined.

(** ** The condition variable *)

(** [wait_with_mutex] never sleeps on the condition variable: with other threads
    waiting for the mutex it hands the mutex to the first of them and queues the
    caller on the mutex; with none waiting, the kernel panics. *)
Theorem condvar_wait_spec tid mx i :
  0 ≤ nested_level i < usize_max → (0 < nested_level i → sie i = false) → locked mx = true →
  match m_queue mx with
  | w :: q => ∃ i', Condvar_wait_with_mutex tid (mkCell mx false) i =
      Done (false, Some w, mkCell (mkMutex true (q ++ [tid])) false, i') ∧ sie i' = sie i
  | [] => Condvar_wait_with_mutex tid (mkCell mx false) i = Panic
  end.
Proof.
  intros Hr Hs Hl. unfold Condvar_wait_with_mutex, MutexBlocking_unlock, MutexBlocking_lock.
  destruct (m_queue mx) as [|w q] eqn:Eq.
  - destruct (session_run mutex_unlock_body mx (mkMutex false []) None i Hr Hs) as (i' & -> & _);
      [|done]. unfold mutex_unlock_body. by rewrite Hl, Eq.
  - destruct (session_run mutex_unlock_body mx (mkMutex true q) (Some w) i Hr Hs)
      as (i1 & -> & Hs1 & Hl1 & _); [unfold mutex_unlock_body; by rewrite Hl, Eq|]. simpl.
    destruct (session_run (fun mx => Done (mutex_lock_body tid mx)) (mkMutex true q)
      (mkMutex true (q ++ [tid])) false i1) as (i2 & -> & Hs2 & _); [lia| |done|].
    + rewrite Hl1, Hs1. done.
    + simpl. eexists. split; [done|congruence].
Qed.

Lemma condvar_wait_spec_witness :
  Condvar_wait_with_mutex 5 (mkCell (mkMutex true []) false) (IntrMaskingInfo_new true) = Panic.
Proof. apply (condvar_wait_spec 5 (mkMutex true []) (IntrMaskingInfo_new true)); done. Defined.
