(* ===== verification/KernelContext.v ===== *)
(** * Thread contexts

    Models [tg-rcore-tutorial-kernel-context/src/lib.rs] and [foreign/*.rs], the
    parts written in Rust: [LocalContext] with its accessors, [build_sstatus], the
    portal cache, the foreign context and the layout of the multi-slot portal.
    The assembly is modelled in [ContextSwitch]. *)

From S2P Require Import Prelude.

(** [ctx_x] holds the 31 registers x1..x31. *)
Record LocalContext := mkCtx {
  sctx : Z;
  ctx_x : list Z;
  sepc : Z;
  supervisor : bool;
  interrupt : bool;
}.
Implicit Types (c : LocalContext).

Definition LocalContext_empty : LocalContext := mkCtx 0 (replicate 31 0) 0 false false.
Definition LocalContext_user (pc : Z) : LocalContext := mkCtx 0 (replicate 31 0) pc false true.
Definition LocalContext_thread (pc : Z) (intr : bool) : LocalContext :=
  mkCtx 0 (replicate 31 0) pc true intr.

(** [self.x[n - 1]]: both the subtraction and the index are checked. *)
Definition LocalContext_x (n : Z) c : outcome Z :=
  i ← usize_sub n 1;
  unwrap (ctx_x c !! Z.to_nat i).

(** [*self.x_mut(n) = v]. *)
Definition LocalContext_set_x (n v : Z) c : outcome LocalContext :=
  i ← usize_sub n 1;
  if i <? Z.of_nat (length (ctx_x c))
  then Done (mkCtx (sctx c) (<[Z.to_nat i := v]> (ctx_x c)) (sepc c) (supervisor c) (interrupt c))
  else Panic.

Definition LocalContext_a (n : Z) c : outcome Z := k ← usize_add n 10; LocalContext_x k c.
Definition LocalContext_set_a (n v : Z) c : outcome LocalContext :=
  k ← usize_add n 10; LocalContext_set_x k v c.
Definition LocalContext_ra c : outcome Z := LocalContext_x 1 c.
Definition LocalContext_sp c : outcome Z := LocalContext_x 2 c.
Definition LocalContext_set_sp (v : Z) c : outcome LocalContext := LocalContext_set_x 2 v c.
Definition LocalContext_pc c : Z := sepc c.
Definition LocalContext_set_pc (v : Z) c : LocalContext :=
  mkCtx (sctx c) (ctx_x c) v (supervisor c) (interrupt c).
(** [wrapping_add(4)]. *)
Definition LocalContext_move_next c : LocalContext :=
  LocalContext_set_pc (as_usize (sepc c + 4)) c.

(** The bits SPP and SPIE of [sstatus]; [cur] is the value read from the CSR. *)
Definition PREVILEGE_BIT : Z := Z.shiftl 1 8.
Definition INTERRUPT_BIT : Z := Z.shiftl 1 5.
Definition build_sstatus (cur : Z) (supervisor interrupt : bool) : Z :=
  let s := if supervisor then Z.lor cur PREVILEGE_BIT
           else Z.land cur (Z.lxor usize_max PREVILEGE_BIT) in
  if interrupt then Z.lor s INTERRUPT_BIT else Z.land s (Z.lxor usize_max INTERRUPT_BIT).

(** ** The foreign portal *)
Record PortalCache := mkPortalCache {
  pc_a0 : Z;
  pc_a1 : Z;
  pc_satp : Z;
  pc_sstatus : Z;
  pc_sepc : Z;
  pc_stvec : Z;
  pc_sscratch : Z;
}.

(** [init] leaves the scratch words alone; [cur] is the value of [sstatus]. *)
Definition PortalCache_init (cur satp pc a0 : Z) (supervisor interrupt : bool)
    (p : PortalCache) : PortalCache :=
  mkPortalCache a0 (pc_a1 p) satp (build_sstatus cur supervisor interrupt) pc
    (pc_stvec p) (pc_sscratch p).

Record ForeignContext := mkForeign { f_context : LocalContext; f_satp : Z }.

(** [ForeignContext::execute], up to the jump: the context handed to
    [LocalContext::execute] runs the portal text at [entry] in supervisor mode with
    interrupts off and the address of the cache in a0, and the cache holds what the
    thread needs. *)
Definition ForeignContext_prepare (cur entry cache_addr : Z) (p : PortalCache)
    (f : ForeignContext) : outcome (ForeignContext * PortalCache) :=
  let ctx := f_context f in
  let ctx' := mkCtx (sctx ctx) (ctx_x ctx) (sepc ctx) true false in
  a0 ← LocalContext_a 0 ctx';
  let p := PortalCache_init cur (f_satp f) (sepc ctx') a0 (supervisor ctx) (interrupt ctx) p in
  let ctx' := LocalContext_set_pc entry ctx' in
  ctx' ← LocalContext_set_a 0 cache_addr ctx';
  Done (mkForeign ctx' (f_satp f), p).

(** After the return: the thread's attributes and its a0 come back; [old] is the
    foreign context before [execute], [f] what [LocalContext::execute] left. *)
Definition ForeignContext_finish (old f : ForeignContext) (p : PortalCache) :
    outcome ForeignContext :=
  let ctx := f_context f in
  let ctx := mkCtx (sctx ctx) (ctx_x ctx) (sepc ctx) (supervisor (f_context old))
    (interrupt (f_context old)) in
  ctx ← LocalContext_set_a 0 (pc_a0 p) ctx;
  Done (mkForeign ctx (f_satp f)).

(** [ForeignContext::execute]; [run] is [LocalContext::execute] on the context and
    the cache. *)
Definition ForeignContext_execute
    (run : LocalContext → PortalCache → outcome (LocalContext * PortalCache * Z))
    (cur entry cache_addr : Z) (p : PortalCache) (f : ForeignContext) :
    outcome (Z * ForeignContext * PortalCache) :=
  '(f', p) ← ForeignContext_prepare cur entry cache_addr p f;
  '(ctx, p, sstatus) ← run (f_context f') p;
  f'' ← ForeignContext_finish f (mkForeign ctx (f_satp f')) p;
  Done (sstatus, f'', p).

(** ** [MultislotPortal] *)
Record MultislotPortal := mkPortal {
  portal_addr : Z;
  slot_count : Z;
  text_size : Z;
}.
(** [sizeof!(Self)]: two words; [sizeof!(PortalCache)]: seven words. *)
Definition sizeof_portal : Z := 16.
Definition sizeof_cache : Z := 56.

(** [PortalText::aligned_size] for a text of [len] half-words. *)
Definition aligned_size (len : Z) : Z := Z.land (len * 2 + 7) (Z.lxor usize_max 7).

Definition MultislotPortal_calculate_size (len slots : Z) : Z :=
  sizeof_portal + aligned_size len + slots * sizeof_cache.
(** [PortalText::copy_to]: the half-words written, with their addresses. *)
Definition PortalText_copy_to (text : list Z) (address : Z) : list (Z * Z) :=
  imap (fun i v => (address + 2 * Z.of_nat i, v)) text.
(** [init_transit]: the header and the half-words copied after it; the debug
    assertion asks for four trailing zeros. *)
Definition MultislotPortal_init_transit (text : list Z) (transit slots : Z) :
    outcome (MultislotPortal * list (Z * Z)) :=
  rassert (transit mod 16 =? 0);;
  Done (mkPortal transit slots (aligned_size (Z.of_nat (length text))),
    PortalText_copy_to text (transit + sizeof_portal)).
Definition MultislotPortal_text_offset (p : MultislotPortal) : Z := sizeof_portal.
Definition MultislotPortal_cache_offset (p : MultislotPortal) (key : Z) : Z :=
  sizeof_portal + text_size p + key * sizeof_cache.
Definition MultislotPortal_total_size (p : MultislotPortal) : Z :=
  MultislotPortal_cache_offset p (slot_count p).
Definition transit_entry (p : MultislotPortal) : Z :=
  portal_addr p + MultislotPortal_text_offset p.
Definition transit_cache (p : MultislotPortal) (key : Z) : Z :=
  portal_addr p + MultislotPortal_cache_offset p key.

(** [PortalText::new]: the shortest prefix of at least 32 half-words that ends in
    [jr a0] and a zero; [fuel] bounds the search by the length of the code. *)
Fixpoint portal_text_search (fuel : nat) (code : list Z) (len : nat) : option (list Z) :=
  match fuel with
  | O => None
  | S fuel' =>
      let slice := take len code in
      if bool_decide (drop (len - 2) slice = [0x8502; 0]) then Some slice
      else portal_text_search fuel' code (S len)
  end.
Definition PortalText_new (code : list Z) : option (list Z) :=
  portal_text_search (length code) code 32.

(** ** Accessor laws *)
Definition ctx_wf c : Prop := length (ctx_x c) = 31%nat.

Lemma ctx_x_run n c : ctx_wf c → 1 ≤ n ≤ 31 →
  ∃ v, ctx_x c !! Z.to_nat (n - 1) = Some v ∧ LocalContext_x n c = Done v.
Proof.
  unfold ctx_wf. intros Hwf Hn. unfold LocalContext_x, usize_sub.
  rewrite checked_ok by (unfold usize_max; lia). simpl.
  destruct (lookup_lt_is_Some_2 (ctx_x c) (Z.to_nat (n - 1))) as [v Hv]; [lia|].
  exists v. by rewrite Hv.
Qed.

Lemma ctx_set_x_run n v c : ctx_wf c → 1 ≤ n ≤ 31 →
  LocalContext_set_x n v c = Done (mkCtx (sctx c) (<[Z.to_nat (n - 1) := v]> (ctx_x c)) (sepc c)
    (supervisor c) (interrupt c)).
Proof.
  unfold ctx_wf. intros Hwf Hn. unfold LocalContext_set_x, usize_sub.
  rewrite checked_ok by (unfold usize_max; lia). simpl.
  by rewrite (proj2 (Z.ltb_lt _ _)) by lia.
Qed.

Lemma ctx_a_eq n c : 0 ≤ n ≤ 21 → LocalContext_a n c = LocalContext_x (n + 10) c.
Proof.
  intros. unfold LocalContext_a, usize_add. by rewrite checked_ok by (unfold usize_max; lia).
Qed.
Lemma ctx_set_a_eq n v c : 0 ≤ n ≤ 21 →
  LocalContext_set_a n v c = LocalContext_set_x (n + 10) v c.
Proof.
  intros. unfold LocalContext_set_a, usize_add. by rewrite checked_ok by (unfold usize_max; lia).
Qed.

Lemma set_a_run n v c : ctx_wf c → 0 ≤ n ≤ 21 →
  ∃ c', LocalContext_set_a n v c = Done c' ∧ ctx_wf c' ∧ LocalContext_a n c' = Done v ∧ sepc c' = sepc c.
Proof.
  intros Hwf Hn. rewrite ctx_set_a_eq by lia. pose proof (ctx_set_x_run (n + 10) v c Hwf ltac:(lia)) as H. rewrite H.
  eexists. split; [done|]. assert (ctx_wf (mkCtx (sctx c) (<[Z.to_nat (n + 10 - 1) := v]> (ctx_x c)) (sepc c)
    (supervisor c) (interrupt c))) as Hwf' by (unfold ctx_wf in *; simpl; by rewrite length_insert).
  split_and!; [done| |done]. rewrite ctx_a_eq by lia.
  destruct (ctx_x_run (n + 10) _ Hwf' ltac:(lia)) as (w & Hw & ->). simpl in Hw.
  rewrite list_lookup_insert_eq in Hw by (unfold ctx_wf in *; lia). by injection Hw as ->.
Qed.

Lemma a_run n c : ctx_wf c → 0 ≤ n ≤ 21 → ∃ v, LocalContext_a n c = Done v.
Proof.
  intros Hwf Hn. rewrite ctx_a_eq by lia. destruct (ctx_x_run (n + 10) c Hwf ltac:(lia)) as (v & _ & Hv). eauto.
Qed.

Lemma set_a_wf n v c c' : LocalContext_set_a n v c = Done c' → ctx_wf c → ctx_wf c'.
Proof.
  unfold LocalContext_set_a, LocalContext_set_x, ctx_wf. intros H Hwf. inv_run. destruct (_ <? _); [|done]. inv_run.
  by rewrite length_insert.
Qed.

(** Register access is memory-like: writing x[n] and reading x[k] gives the new
    value when [n = k] and the old one otherwise, for the 31 registers; any other
    register number panics. *)
Theorem context_get_set n k v c : ctx_wf c →
  (1 ≤ n ≤ 31 → 1 ≤ k ≤ 31 →
     ∃ c', LocalContext_set_x n v c = Done c' ∧ ctx_wf c' ∧
       LocalContext_x k c' = (if n =? k then Done v else LocalContext_x k c)) ∧
  (n = 0 ∨ 31 < n → LocalContext_x n c = Panic ∧ LocalContext_set_x n v c = Panic).
Proof.
  intros Hwf. split.
  - intros Hn Hk. eexists. split; [by apply ctx_set_x_run|].
    split; [by unfold ctx_wf; simpl; rewrite length_insert|].
    unfold LocalContext_x, usize_sub. rewrite checked_ok by (unfold usize_max; lia). simpl.
    unfold ctx_wf in Hwf. destruct (Z.eqb_spec n k) as [->|Hne].
    + rewrite list_lookup_insert_eq by lia. done.
    + rewrite list_lookup_insert_ne by lia. done.
  - unfold ctx_wf in Hwf. intros Hn. unfold LocalContext_x, LocalContext_set_x, usize_sub, checked.
    destruct (_ && _) eqn:E; [|done]. simpl.
    apply andb_true_iff in E as [E1%Z.leb_le E2%Z.leb_le].
    rewrite lookup_ge_None_2 by lia. by rewrite (proj2 (Z.ltb_ge _ _)) by lia.
Qed.

Lemma context_get_set_witness :
  ∃ c', LocalContext_set_x 10 5 (LocalContext_user 64) = Done c' ∧ ctx_wf c' ∧
    LocalContext_x 10 c' = Done 5.
Proof. apply (context_get_set 10 10 5 (LocalContext_user 64)); [done|lia|lia]. Defined.

(** Bits of [build_sstatus]. *)
Lemma clear_bit_spec s k j : 0 ≤ s ≤ usize_max → 0 ≤ k < 64 → 0 ≤ j →
  Z.testbit (Z.land s (Z.lxor usize_max (Z.shiftl 1 k))) j
    = (if j =? k then false else Z.testbit s j).
Proof.
  intros Hs Hk Hj. rewrite Z.land_spec, Z.lxor_spec, Z.shiftl_spec by lia.
  replace usize_max with (Z.ones 64) by done.
  destruct (Z.eqb_spec j k) as [->|Hne].
  - rewrite Z.ones_spec_low by lia. rewrite Z.sub_diag. simpl. by rewrite andb_false_r.
  - assert (Z.testbit 1 (j - k) = false) as ->.
    { destruct (Z_lt_le_dec j k); [by apply Z.testbit_neg_r; lia|].
      apply (Z.bits_above_log2 1); simpl; lia. }
    rewrite xorb_false_r. destruct (Z_lt_le_dec j 64).
    + rewrite Z.ones_spec_low by lia. by rewrite andb_true_r.
    + rewrite Z.ones_spec_high by lia. rewrite andb_false_r. symmetry.
      destruct (Z.eq_dec s 0) as [->|]; [apply Z.bits_0|].
      apply Z.bits_above_log2; [lia|]. apply Z.log2_lt_pow2; [lia|].
      unfold usize_max in Hs. apply Z.lt_le_trans with (2 ^ 64); [lia|].
      apply Z.pow_le_mono_r; lia.
Qed.

Lemma set_bit_spec s k j : 0 ≤ k → 0 ≤ j →
  Z.testbit (Z.lor s (Z.shiftl 1 k)) j = (if j =? k then true else Z.testbit s j).
Proof.
  intros Hk Hj. rewrite Z.lor_spec, Z.shiftl_spec by lia.
  destruct (Z.eqb_spec j k) as [->|Hne].
  - rewrite Z.sub_diag. simpl. by rewrite orb_true_r.
  - assert (Z.testbit 1 (j - k) = false) as ->; [|by rewrite orb_false_r].
    destruct (Z_lt_le_dec j k); [by apply Z.testbit_neg_r; lia|].
    apply (Z.bits_above_log2 1); simpl; lia.
Qed.

Lemma lor_usize a k : is_usize a → 0 ≤ k < 64 → is_usize (Z.lor a (Z.shiftl 1 k)).
Proof.
  intros Ha Hk. unfold is_usize, usize_max in *. split.
  - apply Z.lor_nonneg. split; [lia|]. apply Z.shiftl_nonneg. lia.
  - assert (Z.lor a (Z.shiftl 1 k) < 2 ^ 64); [|lia].
    destruct (Z.eq_dec (Z.lor a (Z.shiftl 1 k)) 0) as [->|Hne]; [done|].
    assert (0 ≤ Z.lor a (Z.shiftl 1 k)).
    { apply Z.lor_nonneg. split; [lia|]. apply Z.shiftl_nonneg. lia. }
    apply Z.log2_lt_pow2; [lia|]. rewrite Z.log2_lor by (try apply Z.shiftl_nonneg; lia).
    apply Z.max_lub_lt.
    + destruct (Z.eq_dec a 0) as [->|]; [done|]. apply Z.log2_lt_pow2; lia.
    + rewrite Z.log2_shiftl by lia. simpl. lia.
Qed.

Lemma land_usize a b : is_usize a → is_usize b → is_usize (Z.land a b).
Proof.
  unfold is_usize, usize_max. intros Ha Hb.
  assert (0 ≤ Z.land a b) by (apply Z.land_nonneg; lia). split; [done|].
  assert (Z.land a b < 2 ^ 64); [|lia].
  destruct (Z.eq_dec (Z.land a b) 0) as [->|]; [done|]. apply Z.log2_lt_pow2; [lia|].
  apply Z.le_lt_trans with (Z.min (Z.log2 a) (Z.log2 b)); [apply Z.log2_land; lia|].
  apply Z.min_lt_iff. left. destruct (Z.eq_dec a 0) as [->|]; [done|].
  apply Z.log2_lt_pow2; lia.
Qed.

(** [build_sstatus] sets bit 8 (SPP) to the privilege and bit 5 (SPIE) to the
    interrupt flag, and keeps every other bit of the current [sstatus]. *)
Theorem build_sstatus_bits cur sup intr j : is_usize cur → 0 ≤ j →
  Z.testbit (build_sstatus cur sup intr) j =
    (if j =? 5 then intr else if j =? 8 then sup else Z.testbit cur j).
Proof.
  intros Hc Hj. unfold build_sstatus, PREVILEGE_BIT, INTERRUPT_BIT.
  set (s := if sup then _ else _).
  assert (is_usize s ∧ Z.testbit s j = (if j =? 8 then sup else Z.testbit cur j)) as [Hs Hsj].
  { unfold s. destruct sup.
    - split; [by apply lor_usize; [|lia]|]. by apply set_bit_spec.
    - split; [by apply land_usize|by apply clear_bit_spec; [|lia|]]. }
  clearbody s. destruct intr.
  - rewrite set_bit_spec by lia. by rewrite Hsj.
  - rewrite clear_bit_spec by (done || lia). by rewrite Hsj.
Qed.

Lemma build_sstatus_bits_witness :
  Z.testbit (build_sstatus 0 false true) 5 = true.
Proof. apply (build_sstatus_bits 0 false true 5); [by vm_compute|lia]. Defined.

(** ** Portal layout *)
Lemma aligned_size_bound len : 0 ≤ len → len * 2 + 7 ≤ usize_max →
  len * 2 ≤ aligned_size len ∧ aligned_size len mod 8 = 0.
Proof.
  intros Hl Hm. unfold aligned_size.
  assert (Z.land (len * 2 + 7) (Z.lxor usize_max 7) = 8 * ((len * 2 + 7) / 8)) as ->.
  { apply Z.bits_inj'. intros k Hk. rewrite Z.land_spec, Z.lxor_spec.
    replace usize_max with (Z.ones 64) by done. change 7 with (Z.ones 3) at 2.
    replace (8 * ((len * 2 + 7) / 8)) with (Z.shiftl (Z.shiftr (len * 2 + 7) 3) 3)
      by (rewrite Z.shiftl_mul_pow2, Z.shiftr_div_pow2 by lia; change (2 ^ 3) with 8; lia).
    rewrite Z.shiftl_spec by lia. destruct (Z_lt_le_dec k 3).
    - rewrite !Z.ones_spec_low by lia. rewrite (Z.testbit_neg_r _ (k - 3)) by lia.
      by rewrite andb_false_r.
    - rewrite Z.shiftr_spec by lia. replace (k - 3 + 3) with k by lia.
      rewrite (Z.ones_spec_high 3) by lia. rewrite xorb_false_r.
      destruct (Z_lt_le_dec k 64).
      + rewrite Z.ones_spec_low by lia. by rewrite andb_true_r.
      + rewrite Z.ones_spec_high by lia. rewrite andb_false_r. symmetry.
        apply Z.bits_above_log2; [lia|]. apply Z.log2_lt_pow2; [lia|].
        unfold usize_max in Hm. apply Z.lt_le_trans with (2 ^ 64); [lia|].
        apply Z.pow_le_mono_r; lia. }
  pose proof (Z.div_mod (len * 2 + 7) 8 ltac:(lia)).
  pose proof (Z.mod_pos_bound (len * 2 + 7) 8 ltac:(lia)).
  split; [lia|]. rewrite Z.mul_comm. apply Z.mod_mul. lia.
Qed.

(** The portal object is laid out without overlap.  At an address aligned to 16 bytes [init_transit] writes the code
    between the entry and the first cache, the caches of different slots do not overlap, are
    aligned and lie inside the size that was allocated for it; at another address it panics. *)
Theorem portal_layout text transit slots k1 k2 :
  let len := Z.of_nat (length text) in
  len * 2 + 7 ≤ usize_max → 0 ≤ k1 < slots → 0 ≤ k2 < slots → k1 < k2 →
  match MultislotPortal_init_transit text transit slots with
  | Done (p, writes) => transit mod 16 = 0 ∧
      (∀ a v, (a, v) ∈ writes → transit_entry p ≤ a ∧ a + 2 ≤ transit_cache p 0) ∧
      transit_cache p k1 + sizeof_cache ≤ transit_cache p k2 ∧
      transit_cache p k2 + sizeof_cache ≤ transit + MultislotPortal_calculate_size len slots ∧
      transit_cache p k1 mod 8 = 0
  | _ => transit mod 16 ≠ 0
  end.
Proof.
  intros len Hm H1 H2 Hlt. destruct (aligned_size_bound len ltac:(lia) Hm) as [Hb Ha].
  unfold MultislotPortal_init_transit. destruct (Z.eqb_spec (transit mod 16) 0) as [Ht|]; [|done]. simpl.
  fold len. unfold transit_entry, transit_cache, MultislotPortal_cache_offset,
    MultislotPortal_calculate_size, MultislotPortal_text_offset, sizeof_portal, sizeof_cache in *.
  cbn [portal_addr text_size]. split_and!; try nia.
  - intros a v Hin. unfold PortalText_copy_to in Hin. apply elem_of_lookup_imap in Hin as (i & x & E & Hi).
    injection E as -> _. apply lookup_lt_Some in Hi. lia.
  - apply Z.mod_divide in Ht as [q1 ->]; [|lia]. apply Z.mod_divide in Ha as [q2 ->]; [|lia].
    apply Z.mod_divide; [lia|]. exists (2 * q1 + (2 + q2 + k1 * 7)). lia.
Qed.

Lemma portal_layout_witness :
  match MultislotPortal_init_transit (replicate 50 1) 4096 2 with
  | Done (p, writes) => transit_cache p 0 + sizeof_cache ≤ transit_cache p 1
  | _ => False
  end.
Proof.
  pose proof (portal_layout (replicate 50 1) 4096 2 0 1) as H. simpl in H.
  apply H; [by vm_compute|lia|lia|lia].
Defined.
