(* ===== verification/ContextSwitch.v ===== *)
(** * The context-switch assembly

    Models the naked functions of [tg-rcore-tutorial-kernel-context]:
    [execute_naked] ([lib.rs]), which switches between the scheduler and a thread of
    the same address space, and [foreign_execute] ([foreign/mod.rs]), the portal that
    also switches the address space.  The instructions they use are interpreted over
    general registers, the supervisor CSRs and memory reached through the current page
    table ([satp]).

    [sret] jumps to [sepc] and rewrites [sstatus] as the privileged architecture says:
    SIE takes SPIE, SPIE is set, SPP is cleared.  The privilege mode itself is not part
    of the machine: it becomes the one SPP named before.  The words the code writes to
    CSRs are ones these registers hold whole ([PortalCache::init] takes [sstatus] from
    the CSR and changes SPP and SPIE only, see [build_sstatus] in [KernelContext.v]).
    The inline assembly of [LocalContext::execute] around [execute_naked], which writes
    [sscratch], [sepc] and [sstatus] before and reads them after, is not run here: the
    theorems start from a machine with these CSRs in place. *)

From S2P Require Import Prelude KernelContext.

Inductive csr := Satp | Sstatus | Sepc | Stvec | Sscratch.
#[export] Instance csr_eq_dec : EqDecision csr.
Proof. solve_decision. Defined.

(** Registers by number: ra = 1, sp = 2, t0 = 5, a0 = 10, a1 = 11. *)
Inductive instr :=
| Sd (rs off rb : Z)
| Ld (rd off rb : Z)
| Addi (rd rs imm : Z)
| Mv (rd rs : Z)
| La (rd addr : Z)
| Csrw (c : csr) (rs : Z)
| Csrr (rd : Z) (c : csr)
| Csrrw (rd : Z) (c : csr) (rs : Z)
| SfenceVma
| Sret
| Ret
| Jr (rs : Z).

Record machine := mkMachine {
  reg : Z → Z;
  csrs : csr → Z;
  mem : gmap Z Z;
  mpc : Z;
}.
Implicit Types (m : machine).

Definition upd {A} `{EqDecision K} (k : K) (v : A) (f : K → A) : K → A :=
  fun j => if decide (j = k) then v else f j.

Lemma upd_eq {A} `{EqDecision K} k (v : A) (f : K → A) : upd k v f k = v.
Proof. unfold upd. by rewrite decide_True. Qed.
Lemma upd_ne {A} `{EqDecision K} k j (v : A) (f : K → A) : j ≠ k → upd k v f j = f j.
Proof. intros. unfold upd. by rewrite decide_False. Qed.

Definition set_reg (rd v : Z) m : machine := mkMachine (upd rd v (reg m)) (csrs m) (mem m) (mpc m).
Definition set_csr (c : csr) (v : Z) m : machine :=
  mkMachine (reg m) (upd c v (csrs m)) (mem m) (mpc m).
Definition set_mpc (v : Z) m : machine := mkMachine (reg m) (csrs m) (mem m) v.

(** What [sret] leaves in [sstatus]: SIE (bit 1) is SPIE (bit 5), SPIE is set, SPP
    (bit 8) is user. *)
Definition sret_status (s : Z) : Z :=
  let s1 := if Z.testbit s 5 then Z.setbit s 1 else Z.clearbit s 1 in
  Z.clearbit (Z.setbit s1 5) 8.

Lemma sret_status_bits s j : 0 ≤ j →
  Z.testbit (sret_status s) j =
    if j =? 1 then Z.testbit s 5 else if j =? 5 then true else
    if j =? 8 then false else Z.testbit s j.
Proof.
  intros Hj. unfold sret_status. rewrite Z.clearbit_eqb, Z.setbit_eqb by lia.
  rewrite (Z.eqb_sym 8), (Z.eqb_sym 5).
  destruct (Z.testbit s 5); rewrite ?Z.setbit_eqb, ?Z.clearbit_eqb by lia; rewrite (Z.eqb_sym 1);
    destruct (Z.eqb_spec j 1), (Z.eqb_spec j 5), (Z.eqb_spec j 8); subst; simpl;
    try lia; by rewrite ?andb_true_r, ?andb_false_r.
Qed.

Section Semantics.
(** [tr root va]: the physical word a virtual address denotes under a page table;
    the switch code does not change page tables. *)
Context (tr : Z → Z → option Z).

Definition load (va : Z) m : option Z := pa ← tr (csrs m Satp) va; mem m !! pa.
Definition store (va v : Z) m : option machine :=
  pa ← tr (csrs m Satp) va;
  _ ← mem m !! pa;
  Some (mkMachine (reg m) (csrs m) (<[pa := v]> (mem m)) (mpc m)).

Definition istep (i : instr) m : option machine :=
  match i with
  | Sd rs off rb => store (as_usize (reg m rb + off)) (reg m rs) m
  | Ld rd off rb => v ← load (as_usize (reg m rb + off)) m; Some (set_reg rd v m)
  | Addi rd rs imm => Some (set_reg rd (as_usize (reg m rs + imm)) m)
  | Mv rd rs => Some (set_reg rd (reg m rs) m)
  | La rd addr => Some (set_reg rd addr m)
  | Csrw c rs => Some (set_csr c (reg m rs) m)
  | Csrr rd c => Some (set_reg rd (csrs m c) m)
  | Csrrw rd c rs => Some (set_reg rd (csrs m c) (set_csr c (reg m rs) m))
  | SfenceVma => Some m
  | Sret => Some (set_mpc (csrs m Sepc) (set_csr Sstatus (sret_status (csrs m Sstatus)) m))
  | Ret => Some (set_mpc (reg m 1) m)
  | Jr rs => Some (set_mpc (reg m rs) m)
  end.

Fixpoint irun (code : list instr) m : option machine :=
  match code with
  | [] => Some m
  | i :: code' => m' ← istep i m; irun code' m'
  end.
End Semantics.

(** ** The code *)
Definition saved_regs : list Z := 1 :: seqZ 3 29.
Definition SAVE_ALL : list instr := (fun n => Sd n (n * 8) 2) <$> saved_regs.
Definition LOAD_ALL : list instr := (fun n => Ld n (n * 8) 2) <$> saved_regs.

(** [execute_naked] up to [sret]; [trap] is the address of label 1. *)
Definition execute_naked_enter (trap : Z) : list instr :=
  [Addi 2 2 (-32 * 8)] ++ SAVE_ALL ++
  [La 5 trap; Csrw Stvec 5] ++
  [Csrr 5 Sscratch; Sd 2 0 5; Mv 2 5] ++
  LOAD_ALL ++ [Ld 2 (2 * 8) 2] ++ [Sret].

(** ... and from label 1, where a trap arrives. *)
Definition execute_naked_trap : list instr :=
  [Csrrw 2 Sscratch 2] ++ SAVE_ALL ++
  [Csrrw 5 Sscratch 2; Sd 5 (2 * 8) 2] ++
  [Ld 2 0 2] ++ LOAD_ALL ++ [Addi 2 2 (32 * 8)] ++ [Ret].

(** [foreign_execute] up to [sret]; a0 is the portal cache. *)
Definition foreign_execute_enter (trap : Z) : list instr :=
  [Sd 11 (1 * 8) 10] ++
  [Ld 11 (2 * 8) 10; Csrrw 11 Satp 11; SfenceVma; Sd 11 (2 * 8) 10] ++
  [Ld 11 (3 * 8) 10; Csrw Sstatus 11] ++
  [Ld 11 (4 * 8) 10; Csrw Sepc 11] ++
  [La 11 trap; Csrrw 11 Stvec 11; Sd 11 (5 * 8) 10] ++
  [Csrrw 11 Sscratch 10; Sd 11 (6 * 8) 10] ++
  [Ld 11 (1 * 8) 10; Ld 10 0 10] ++ [Sret].

(** ... and from its label 1. *)
Definition foreign_execute_trap : list instr :=
  [Csrrw 10 Sscratch 10] ++ [Sd 11 (1 * 8) 10] ++
  [Ld 11 (6 * 8) 10; Csrrw 11 Sscratch 11; Sd 11 0 10] ++
  [Ld 11 (2 * 8) 10; Csrrw 11 Satp 11; SfenceVma; Sd 11 (2 * 8) 10] ++
  [Ld 11 (1 * 8) 10] ++ [Ld 10 (5 * 8) 10; Csrw Stvec 10] ++ [Jr 10].

(** ** Words instead of memory

    Over a set of kernel words [S] whose physical words are distinct, memory is a
    function [w] from kernel addresses to values.  The set [C] holds the words of
    the portal, which every address space maps at the same place. *)
Record amach := mkAmach { areg : Z → Z; acsr : csr → Z; aw : Z → Z; apc : Z }.

Definition astep (i : instr) (a : amach) : amach :=
  match i with
  | Sd rs off rb =>
      mkAmach (areg a) (acsr a) (upd (as_usize (areg a rb + off)) (areg a rs) (aw a)) (apc a)
  | Ld rd off rb =>
      mkAmach (upd rd (aw a (as_usize (areg a rb + off))) (areg a)) (acsr a) (aw a) (apc a)
  | Addi rd rs imm =>
      mkAmach (upd rd (as_usize (areg a rs + imm)) (areg a)) (acsr a) (aw a) (apc a)
  | Mv rd rs => mkAmach (upd rd (areg a rs) (areg a)) (acsr a) (aw a) (apc a)
  | La rd addr => mkAmach (upd rd addr (areg a)) (acsr a) (aw a) (apc a)
  | Csrw c rs => mkAmach (areg a) (upd c (areg a rs) (acsr a)) (aw a) (apc a)
  | Csrr rd c => mkAmach (upd rd (acsr a c) (areg a)) (acsr a) (aw a) (apc a)
  | Csrrw rd c rs =>
      mkAmach (upd rd (acsr a c) (areg a)) (upd c (areg a rs) (acsr a)) (aw a) (apc a)
  | SfenceVma => a
  | Sret =>
      mkAmach (areg a) (upd Sstatus (sret_status (acsr a Sstatus)) (acsr a)) (aw a) (acsr a Sepc)
  | Ret => mkAmach (areg a) (acsr a) (aw a) (areg a 1)
  | Jr rs => mkAmach (areg a) (acsr a) (aw a) (areg a rs)
  end.

Definition arun (code : list instr) (a : amach) : amach := foldl (fun a i => astep i a) a code.

Lemma arun_app c1 c2 a : arun (c1 ++ c2) a = arun c2 (arun c1 a).
Proof. apply foldl_app. Qed.
Lemma arun_cons i c a : arun (i :: c) a = arun c (astep i a).
Proof. done. Qed.

Section Simulation.
Context (tr : Z → Z → option Z) (S C : Z → Prop) (k : Z).
(** distinct kernel words are distinct physical words *)
Context (Hinj : ∀ va va' pa, S va → S va' → tr k va = Some pa → tr k va' = Some pa → va = va').
(** the portal is mapped alike everywhere *)
Context (Hcommon : ∀ va u, C va → tr u va = tr k va).

Record sim (a : amach) m : Prop := {
  sim_reg : reg m = areg a;
  sim_csr : csrs m = acsr a;
  sim_pc : mpc m = apc a;
  sim_mem va : S va → ∃ pa, tr k va = Some pa ∧ mem m !! pa = Some (aw a va);
}.

(** The word an instruction touches is one of ours, and visible. *)
Definition visible (a : amach) (va : Z) : Prop := S va ∧ (acsr a Satp = k ∨ C va).
Definition isafe (i : instr) (a : amach) : Prop :=
  match i with
  | Sd _ off rb | Ld _ off rb => visible a (as_usize (areg a rb + off))
  | _ => True
  end.
Fixpoint csafe (code : list instr) (a : amach) : Prop :=
  match code with
  | [] => True
  | i :: code' => isafe i a ∧ csafe code' (astep i a)
  end.

Lemma csafe_app c1 c2 a : csafe (c1 ++ c2) a ↔ csafe c1 a ∧ csafe c2 (arun c1 a).
Proof.
  revert a. induction c1 as [|i c1 IH]; intros a; simpl; [tauto|]. rewrite IH. unfold arun. simpl. tauto.
Qed.

Lemma visible_tr a m va : sim a m → visible a va →
  ∃ pa, tr (csrs m Satp) va = Some pa ∧ tr k va = Some pa ∧ mem m !! pa = Some (aw a va).
Proof.
  intros Hs [HS Hc]. destruct (sim_mem _ _ Hs va HS) as (pa & Hpa & Hm).
  exists pa. split_and!; [|done|done]. rewrite (sim_csr _ _ Hs).
  destruct Hc as [->|Hc]; [done|]. by rewrite Hcommon.
Qed.

Lemma istep_sim i a m : sim a m → isafe i a → ∃ m', istep tr i m = Some m' ∧ sim (astep i a) m'.
Proof.
  intros Hs Hsafe. pose proof (sim_reg _ _ Hs) as Hr. pose proof (sim_csr _ _ Hs) as Hc.
  pose proof (sim_pc _ _ Hs) as Hp.
  destruct i as [rs off rb|rd off rb| | | | | | | | | |]; simpl in *;
    try (eexists; split; [done|]; split; simpl; rewrite ?Hr, ?Hc, ?Hp; try done; apply Hs).
  - rewrite Hr. set (va := as_usize (areg a rb + off)) in *.
    destruct (visible_tr a m va Hs Hsafe) as (pa & H1 & H2 & H3).
    unfold store. rewrite H1; simpl. rewrite H3; simpl. eexists. split; [done|].
    split; simpl; [done|done|done|]. intros va' HS'.
    destruct (sim_mem _ _ Hs va' HS') as (pa' & Hpa' & Hm'). exists pa'. split; [done|].
    destruct (decide (va' = va)) as [->|Hne].
    + assert (pa' = pa) as -> by congruence. by rewrite lookup_insert_eq, upd_eq.
    + rewrite upd_ne by done. rewrite lookup_insert_ne; [done|]. intros ->.
      apply Hne. apply (Hinj va' va pa'); [done|apply Hsafe|done|done].
  - rewrite Hr. set (va := as_usize (areg a rb + off)) in *.
    destruct (visible_tr a m va Hs Hsafe) as (pa & H1 & H2 & H3).
    unfold load. rewrite H1; simpl. rewrite H3; simpl. eexists. split; [done|].
    split; simpl; [by rewrite Hr|done|done|apply Hs].
Qed.

Lemma irun_sim code a m : sim a m → csafe code a →
  ∃ m', irun tr code m = Some m' ∧ sim (arun code a) m'.
Proof.
  revert a m. induction code as [|i code IH]; intros a m Hs Hsafe; simpl; [eauto|].
  destruct Hsafe as [Hi Hc]. destruct (istep_sim i a m Hs Hi) as (m' & -> & Hs'). simpl.
  by apply IH.
Qed.
End Simulation.

(** ** Saving and restoring the registers *)
Lemma as_usize_small z : 0 ≤ z < 2 ^ 64 → as_usize z = z.
Proof. intros. unfold as_usize. by apply Z.mod_small. Qed.

Lemma saved_regs_spec n : n ∈ saved_regs ↔ 1 ≤ n ≤ 31 ∧ n ≠ 2.
Proof.
  unfold saved_regs. rewrite elem_of_cons, elem_of_seqZ. lia.
Qed.

Section Frames.
Implicit Types (a : amach) (ns : list Z).

(** A frame of 32 words at [b]. *)
Definition frame_ok (b : Z) : Prop := 0 ≤ b ∧ b + 256 ≤ 2 ^ 64.

Lemma run_saves ns a b : frame_ok b → areg a 2 = b → (∀ n, n ∈ ns → 0 ≤ n ≤ 31) →
  let a' := arun ((fun n => Sd n (n * 8) 2) <$> ns) a in
  areg a' = areg a ∧ acsr a' = acsr a ∧ apc a' = apc a ∧
  (∀ n, n ∈ ns → aw a' (b + n * 8) = areg a n) ∧
  (∀ va, (∀ n, n ∈ ns → va ≠ b + n * 8) → aw a' va = aw a va).
Proof.
  intros Hb. revert a. induction ns as [|n ns IH]; intros a Ha Hns.
  { split_and!; try done. intros n Hn. by apply not_elem_of_nil in Hn. }
  rewrite fmap_cons, arun_cons. set (a1 := astep _ a).
  assert (0 ≤ n ≤ 31) as Hn by (apply Hns; set_solver).
  destruct (IH a1) as (Hr & Hc & Hp & Hin & Hout); [done|intros; apply Hns; set_solver|].
  simpl in *. split_and!; [done|done|done| |].
  - intros j Hj. destruct (decide (j ∈ ns)) as [Hjn|Hjn]; [by apply Hin|].
    apply elem_of_cons in Hj as [->|Hj]; [|done].
    rewrite Hout by (intros i Hi; assert (i ≠ n) by congruence; lia).
    unfold a1; simpl. rewrite Ha, as_usize_small by (unfold frame_ok in Hb; lia).
    by rewrite upd_eq.
  - intros va Hva. rewrite Hout by (intros i Hi; apply Hva; set_solver).
    unfold a1; simpl. rewrite Ha, as_usize_small by (unfold frame_ok in Hb; lia).
    apply upd_ne. apply Hva. set_solver.
Qed.

Lemma run_loads ns a b : frame_ok b → areg a 2 = b → (∀ n, n ∈ ns → 0 ≤ n ≤ 31) → 2 ∉ ns →
  let a' := arun ((fun n => Ld n (n * 8) 2) <$> ns) a in
  aw a' = aw a ∧ acsr a' = acsr a ∧ apc a' = apc a ∧
  (∀ n, n ∈ ns → areg a' n = aw a (b + n * 8)) ∧
  (∀ n, n ∉ ns → areg a' n = areg a n).
Proof.
  intros Hb. revert a. induction ns as [|n ns IH]; intros a Ha Hns H2.
  { split_and!; try done. intros n Hn. by apply not_elem_of_nil in Hn. }
  apply not_elem_of_cons in H2 as [H2 H2'].
  rewrite fmap_cons, arun_cons. set (a1 := astep _ a).
  assert (0 ≤ n ≤ 31) as Hn by (apply Hns; set_solver).
  assert (areg a1 2 = b) as Ha1 by (unfold a1; simpl; by rewrite upd_ne).
  destruct (IH a1 Ha1) as (Hw & Hc & Hp & Hin & Hout); [intros; apply Hns; set_solver|done|].
  simpl in *. split_and!; [done|done|done| |].
  - intros j Hj. destruct (decide (j ∈ ns)) as [Hjn|Hjn]; [by apply Hin|].
    apply elem_of_cons in Hj as [->|Hj]; [|done].
    rewrite Hout by done. unfold a1; simpl.
    rewrite upd_eq, Ha, as_usize_small by (unfold frame_ok in Hb; lia). done.
  - intros j Hj. apply not_elem_of_cons in Hj as [Hj Hj'].
    rewrite Hout by done. unfold a1; simpl. by rewrite upd_ne.
Qed.

(** Both only touch words of the frame. *)
Lemma safe_saves (Sw Cw : Z → Prop) k ns a b : frame_ok b → areg a 2 = b → acsr a Satp = k →
  (∀ n, n ∈ ns → 0 ≤ n ≤ 31) → (∀ n, 0 ≤ n ≤ 31 → Sw (b + n * 8)) →
  csafe Sw Cw k ((fun n => Sd n (n * 8) 2) <$> ns) a.
Proof.
  intros Hb Ha Hk. revert a Ha Hk. induction ns as [|n ns IH]; intros a Ha Hk Hns HS; [done|].
  assert (0 ≤ n ≤ 31) as Hn by (apply Hns; set_solver).
  rewrite fmap_cons. split.
  - simpl. rewrite Ha, as_usize_small by (unfold frame_ok in Hb; lia). split; [by apply HS|by left].
  - apply IH; [done|done|intros; apply Hns; set_solver|done].
Qed.

Lemma safe_loads (Sw Cw : Z → Prop) k ns a b : frame_ok b → areg a 2 = b → acsr a Satp = k →
  (∀ n, n ∈ ns → 0 ≤ n ≤ 31) → 2 ∉ ns → (∀ n, 0 ≤ n ≤ 31 → Sw (b + n * 8)) →
  csafe Sw Cw k ((fun n => Ld n (n * 8) 2) <$> ns) a.
Proof.
  intros Hb Ha Hk. revert a Ha Hk. induction ns as [|n ns IH]; intros a Ha Hk Hns H2 HS; [done|].
  assert (0 ≤ n ≤ 31) as Hn by (apply Hns; set_solver). apply not_elem_of_cons in H2 as [H2 H2'].
  rewrite fmap_cons. split.
  - simpl. rewrite Ha, as_usize_small by (unfold frame_ok in Hb; lia). split; [by apply HS|by left].
  - apply IH; [simpl; by rewrite upd_ne|done|intros; apply Hns; set_solver|done|done].
Qed.
End Frames.

Lemma saved_range n : n ∈ saved_regs → 0 ≤ n ≤ 31.
Proof. rewrite saved_regs_spec. lia. Qed.
Lemma saved_not_sp : 2 ∉ saved_regs.
Proof. rewrite saved_regs_spec. lia. Qed.

Lemma save_all_run a b : frame_ok b → areg a 2 = b →
  let a' := arun SAVE_ALL a in
  areg a' = areg a ∧ acsr a' = acsr a ∧ apc a' = apc a ∧
  (∀ n, n ∈ saved_regs → aw a' (b + n * 8) = areg a n) ∧
  (∀ va, (∀ n, n ∈ saved_regs → va ≠ b + n * 8) → aw a' va = aw a va).
Proof. intros Hb Ha. exact (run_saves saved_regs a b Hb Ha saved_range). Qed.

Lemma load_all_run a b : frame_ok b → areg a 2 = b →
  let a' := arun LOAD_ALL a in
  aw a' = aw a ∧ acsr a' = acsr a ∧ apc a' = apc a ∧
  (∀ n, n ∈ saved_regs → areg a' n = aw a (b + n * 8)) ∧
  (∀ n, n ∉ saved_regs → areg a' n = areg a n).
Proof. intros Hb Ha. exact (run_loads saved_regs a b Hb Ha saved_range saved_not_sp). Qed.

Lemma save_all_safe (Sw Cw : Z → Prop) k a b : frame_ok b → areg a 2 = b → acsr a Satp = k →
  (∀ n, 0 ≤ n ≤ 31 → Sw (b + n * 8)) → csafe Sw Cw k SAVE_ALL a.
Proof. intros Hb Ha Hk. exact (safe_saves Sw Cw k saved_regs a b Hb Ha Hk saved_range). Qed.

Lemma load_all_safe (Sw Cw : Z → Prop) k a b : frame_ok b → areg a 2 = b → acsr a Satp = k →
  (∀ n, 0 ≤ n ≤ 31 → Sw (b + n * 8)) → csafe Sw Cw k LOAD_ALL a.
Proof.
  intros Hb Ha Hk. exact (safe_loads Sw Cw k saved_regs a b Hb Ha Hk saved_range saved_not_sp).
Qed.

#[global] Opaque saved_regs SAVE_ALL LOAD_ALL.

(** The two frames share no word. *)
Definition apart (b1 b2 : Z) : Prop :=
  ∀ i j, 0 ≤ i ≤ 31 → 0 ≤ j ≤ 31 → b1 + i * 8 ≠ b2 + j * 8.

Section Pieces.
Context (a : amach) (c f : Z) (Hc : acsr a Sscratch = c) (Hcf : frame_ok c).
Context (Sw Cw : Z → Prop) (k : Z) (Hk : acsr a Satp = k).
Context (HSc : ∀ n, 0 ≤ n ≤ 31 → Sw (c + n * 8)).

Lemma word0 b : frame_ok b → as_usize (b + 0) = b + 0 * 8.
Proof. unfold frame_ok. intros. rewrite as_usize_small; lia. Qed.
Lemma word2 b : frame_ok b → as_usize (b + 2 * 8) = b + 2 * 8.
Proof. unfold frame_ok. intros. rewrite as_usize_small; lia. Qed.

(** The short pieces of code between the register moves. *)
Lemma sub_sp_run b : frame_ok b → areg a 2 = b + 256 →
  let a' := arun [Addi 2 2 (-32 * 8)] a in
  areg a' 2 = b ∧ acsr a' = acsr a ∧ aw a' = aw a ∧ (∀ n, n ≠ 2 → areg a' n = areg a n).
Proof.
  intros Hb Hsp. simpl. rewrite upd_eq, Hsp. unfold frame_ok in Hb.
  rewrite as_usize_small by lia. split_and!; try done; [lia|]. intros. by rewrite upd_ne.
Qed.

Lemma set_stvec_run trap :
  let a' := arun [La 5 trap; Csrw Stvec 5] a in
  areg a' 2 = areg a 2 ∧ acsr a' = upd Stvec trap (acsr a) ∧ aw a' = aw a.
Proof. simpl. by rewrite upd_ne, upd_eq. Qed.

Lemma swap_ctx_run :
  let code := [Csrr 5 Sscratch; Sd 2 0 5; Mv 2 5] in
  let a' := arun code a in
  csafe Sw Cw k code a ∧ areg a' 2 = c ∧ acsr a' = acsr a ∧ aw a' = upd c (areg a 2) (aw a).
Proof.
  simpl. rewrite !upd_eq, Hc, upd_ne by done. rewrite word0 by done.
  replace (c + 0 * 8) with c by lia. split_and!; try done. split; [|by left].
  replace c with (c + 0 * 8) by lia. apply HSc. lia.
Qed.

Lemma load_sp_run : areg a 2 = c →
  let a' := arun [Ld 2 (2 * 8) 2] a in
  csafe Sw Cw k [Ld 2 (2 * 8) 2] a ∧ areg a' = upd 2 (aw a (c + 2 * 8)) (areg a) ∧
  acsr a' = acsr a ∧ aw a' = aw a.
Proof.
  intros Hsp. simpl. rewrite Hsp. rewrite word2 by done. split_and!; try done.
  split; [apply HSc; lia|by left].
Qed.

Lemma sret_run :
  let a' := arun [Sret] a in
  areg a' = areg a ∧ acsr a' = upd Sstatus (sret_status (acsr a Sstatus)) (acsr a) ∧
  aw a' = aw a ∧ apc a' = acsr a Sepc.
Proof. done. Qed.

Lemma trap_in_run :
  let a' := arun [Csrrw 2 Sscratch 2] a in
  areg a' 2 = c ∧ acsr a' = upd Sscratch (areg a 2) (acsr a) ∧ aw a' = aw a ∧
  (∀ n, n ≠ 2 → areg a' n = areg a n).
Proof. simpl. rewrite upd_eq. split_and!; try done. intros. by rewrite upd_ne. Qed.

Lemma save_sp_run usp : areg a 2 = c → acsr a Sscratch = usp →
  let code := [Csrrw 5 Sscratch 2; Sd 5 (2 * 8) 2] in
  let a' := arun code a in
  csafe Sw Cw k code a ∧ areg a' 2 = c ∧ acsr a' = upd Sscratch c (acsr a) ∧
  aw a' = upd (c + 2 * 8) usp (aw a).
Proof.
  intros Hsp Hss. simpl. rewrite !upd_eq, upd_ne by done. rewrite Hsp, Hss, word2 by done.
  split_and!; try done. split; [apply HSc; lia|]. left. simpl. by rewrite upd_ne.
Qed.

Lemma load_frame_run : areg a 2 = c → aw a (c + 0 * 8) = f →
  let a' := arun [Ld 2 0 2] a in
  csafe Sw Cw k [Ld 2 0 2] a ∧ areg a' 2 = f ∧ acsr a' = acsr a ∧ aw a' = aw a.
Proof.
  intros Hsp Hcw. simpl. rewrite upd_eq, Hsp, word0, Hcw by done. split_and!; try done.
  split; [apply HSc; lia|by left].
Qed.

Lemma ret_run : areg a 2 = f →
  let a' := arun [Ret] (arun [Addi 2 2 (32 * 8)] a) in
  areg a' = upd 2 (as_usize (f + 256)) (areg a) ∧ acsr a' = acsr a ∧ aw a' = aw a ∧
  apc a' = areg a' 1.
Proof. intros Hsp. simpl. by rewrite Hsp. Qed.
End Pieces.

Section Switch.
Context (c f k : Z) (Sw Cw : Z → Prop).
Context (Hcf : frame_ok c) (Hff : frame_ok f) (Hap : apart c f).
Context (HSc : ∀ n, 0 ≤ n ≤ 31 → Sw (c + n * 8)) (HSf : ∀ n, 0 ≤ n ≤ 31 → Sw (f + n * 8)).

(** Entering the thread: its registers are loaded from the context block, the
    scheduler's are in the stack frame, whose address is in the context block. *)
Lemma enter_run trap a : acsr a Sscratch = c → acsr a Satp = k → areg a 2 = f + 256 →
  csafe Sw Cw k (execute_naked_enter trap) a ∧
  (∀ n, 1 ≤ n ≤ 31 → areg (arun (execute_naked_enter trap) a) n = aw a (c + n * 8)) ∧
  acsr (arun (execute_naked_enter trap) a) =
    upd Sstatus (sret_status (acsr a Sstatus)) (upd Stvec trap (acsr a)) ∧
  apc (arun (execute_naked_enter trap) a) = acsr a Sepc ∧
  aw (arun (execute_naked_enter trap) a) c = f ∧
  (∀ n, n ∈ saved_regs → aw (arun (execute_naked_enter trap) a) (f + n * 8) = areg a n) ∧
  (∀ va, va ≠ c → (∀ n, n ∈ saved_regs → va ≠ f + n * 8) →
     aw (arun (execute_naked_enter trap) a) va = aw a va).
Proof.
  intros Hc Hk Hsp. unfold execute_naked_enter. rewrite !arun_app, !csafe_app.
  destruct (sub_sp_run a f Hff Hsp) as (H1r & H1c & H1w & H1o).
  assert (csafe Sw Cw k [Addi 2 2 (-32 * 8)] a) as Hs1 by done.
  generalize dependent (arun [Addi 2 2 (-32 * 8)] a). intros a1 H1r H1c H1w H1o.
  destruct (save_all_run a1 f Hff H1r) as (H2r & H2c & _ & H2in & H2out).
  pose proof (save_all_safe Sw Cw k a1 f Hff H1r ltac:(by rewrite H1c) HSf) as Hs2.
  generalize dependent (arun SAVE_ALL a1). intros a2 H2r H2c H2in H2out.
  destruct (set_stvec_run a2 trap) as (H3r & H3c & H3w).
  assert (csafe Sw Cw k [La 5 trap; Csrw Stvec 5] a2) as Hs3 by done.
  generalize dependent (arun [La 5 trap; Csrw Stvec 5] a2). intros a3 H3r H3c H3w.
  rewrite H2c, H1c in H3c. rewrite H2r, H1r in H3r.
  assert (acsr a3 Sscratch = c) as H3s by (rewrite H3c, upd_ne by done; done).
  assert (acsr a3 Satp = k) as H3k by (rewrite H3c, upd_ne by done; done).
  destruct (swap_ctx_run a3 c H3s Hcf Sw Cw k H3k HSc) as (Hs4 & H4r & H4c & H4w).
  generalize dependent (arun [Csrr 5 Sscratch; Sd 2 0 5; Mv 2 5] a3). intros a4 H4r H4c H4w.
  rewrite H3w, H3r in H4w.
  destruct (load_all_run a4 c Hcf H4r) as (H5w & H5c & _ & H5in & H5out).
  pose proof (load_all_safe Sw Cw k a4 c Hcf H4r ltac:(by rewrite H4c) HSc) as Hs5.
  generalize dependent (arun LOAD_ALL a4). intros a5 H5w H5c H5in H5out.
  assert (areg a5 2 = c) as H5r by (rewrite H5out by apply saved_not_sp; done).
  assert (acsr a5 Satp = k) as H5k by (by rewrite H5c, H4c).
  destruct (load_sp_run a5 c Hcf Sw Cw k H5k HSc H5r) as (Hs6 & H6r & H6c & H6w).
  generalize dependent (arun [Ld 2 (2 * 8) 2] a5). intros a6 H6r H6c H6w.
  destruct (sret_run a6) as (H7r & H7c & H7w & H7p).
  assert (csafe Sw Cw k [Sret] a6) as Hs7 by done.
  generalize dependent (arun [Sret] a6). intros a7 H7r H7c H7w H7p.
  assert (∀ va, va ≠ c → (∀ n, n ∈ saved_regs → va ≠ f + n * 8) → aw a5 va = aw a va) as Hrest.
  { intros va Hva Hn. rewrite H5w, H4w, upd_ne by done. rewrite H2out by done. by rewrite H1w. }
  assert (∀ n, 1 ≤ n ≤ 31 → aw a5 (c + n * 8) = aw a (c + n * 8)) as Hctx.
  { intros n Hn. apply Hrest; [lia|]. intros j Hj%saved_range. apply Hap; lia. }
  split; [by split_and!|]. rewrite H7r, H7c, H7w, H7p, H6c, H6r, H6w, H5c, H4c, H3c.
  split_and!; try done.
  - intros n Hn. destruct (decide (n = 2)) as [->|Hn2].
    + rewrite upd_eq. apply Hctx. lia.
    + rewrite upd_ne by done. rewrite H5in by (apply saved_regs_spec; lia).
      rewrite <-H5w. by apply Hctx.
  - by rewrite H5w, H4w, upd_eq.
  - intros n Hn. rewrite H5w, H4w, upd_ne.
    + rewrite H2in by done. apply H1o. intros ->. by apply saved_not_sp in Hn.
    + pose proof (Hap 0 n ltac:(lia) (saved_range n Hn)). lia.
Qed.

(** Coming back: the thread's registers are in the context block, the scheduler's
    are loaded from the frame. *)
Lemma trap_run a : acsr a Sscratch = c → acsr a Satp = k → aw a c = f →
  csafe Sw Cw k execute_naked_trap a ∧
  (∀ n, n ∈ saved_regs → areg (arun execute_naked_trap a) n = aw a (f + n * 8)) ∧
  areg (arun execute_naked_trap a) 2 = as_usize (f + 256) ∧
  (∀ r, acsr (arun execute_naked_trap a) r = acsr a r) ∧
  apc (arun execute_naked_trap a) = areg (arun execute_naked_trap a) 1 ∧
  (∀ n, 1 ≤ n ≤ 31 → aw (arun execute_naked_trap a) (c + n * 8) = areg a n) ∧
  (∀ va, (∀ n, 1 ≤ n ≤ 31 → va ≠ c + n * 8) → aw (arun execute_naked_trap a) va = aw a va).
Proof.
  intros Hc Hk Hcw. unfold execute_naked_trap. rewrite !arun_app, !csafe_app.
  destruct (trap_in_run a c Hc) as (H1r & H1c & H1w & H1o).
  assert (csafe Sw Cw k [Csrrw 2 Sscratch 2] a) as Hs1 by done.
  generalize dependent (arun [Csrrw 2 Sscratch 2] a). intros a1 H1r H1c H1w H1o.
  assert (acsr a1 Satp = k) as H1k by (rewrite H1c, upd_ne by done; done).
  destruct (save_all_run a1 c Hcf H1r) as (H2r & H2c & _ & H2in & H2out).
  pose proof (save_all_safe Sw Cw k a1 c Hcf H1r H1k HSc) as Hs2.
  generalize dependent (arun SAVE_ALL a1). intros a2 H2r H2c H2in H2out.
  rewrite H1c in H2c. assert (areg a2 2 = c) as H2s by (by rewrite H2r).
  assert (acsr a2 Sscratch = areg a 2) as H2u by (by rewrite H2c, upd_eq).
  assert (acsr a2 Satp = k) as H2k by (rewrite H2c, upd_ne by done; done).
  destruct (save_sp_run a2 c Hcf Sw Cw k H2k HSc (areg a 2) H2s H2u) as (Hs3 & H3r & H3c & H3w).
  generalize dependent (arun [Csrrw 5 Sscratch 2; Sd 5 (2 * 8) 2] a2). intros a3 H3r H3c H3w.
  assert (∀ r, acsr a3 r = acsr a r) as H3e.
  { intros r. rewrite H3c, H2c. destruct (decide (r = Sscratch)) as [->|]; [by rewrite upd_eq|].
    by rewrite !upd_ne. }
  assert (∀ va, (∀ n, 1 ≤ n ≤ 31 → va ≠ c + n * 8) → aw a3 va = aw a va) as Hrest.
  { intros va Hva. rewrite H3w, upd_ne by (apply Hva; lia). rewrite H2out.
    - by rewrite H1w.
    - intros n Hn%saved_regs_spec. apply Hva. lia. }
  assert (aw a3 (c + 0 * 8) = f) as H3f.
  { rewrite Hrest by (intros; lia). by replace (c + 0 * 8) with c by lia. }
  assert (acsr a3 Satp = k) as H3k by (by rewrite H3e).
  destruct (load_frame_run a3 c f Hcf Sw Cw k H3k HSc H3r H3f) as (Hs4 & H4r & H4c & H4w).
  generalize dependent (arun [Ld 2 0 2] a3). intros a4 H4r H4c H4w.
  assert (acsr a4 Satp = k) as H4k by (by rewrite H4c).
  destruct (load_all_run a4 f Hff H4r) as (H5w & H5c & _ & H5in & H5out).
  pose proof (load_all_safe Sw Cw k a4 f Hff H4r H4k HSf) as Hs5.
  generalize dependent (arun LOAD_ALL a4). intros a5 H5w H5c H5in H5out.
  assert (areg a5 2 = f) as H5r by (rewrite H5out by apply saved_not_sp; done).
  destruct (ret_run a5 f H5r) as (H7r & H7c & H7w & H7p).
  assert (csafe Sw Cw k [Addi 2 2 (32 * 8)] a5) as Hs6 by done.
  assert (csafe Sw Cw k [Ret] (arun [Addi 2 2 (32 * 8)] a5)) as Hs7 by done.
  split; [by split_and!|]. clear Hs7.
  generalize dependent (arun [Ret] (arun [Addi 2 2 (32 * 8)] a5)). intros a7 H7r H7c H7w H7p.
  rewrite H7c, H7w, H7p, H5c, H4c, H5w, H4w, H7r. split_and!; try done.
  - intros n Hn. rewrite upd_ne by (intros ->; by apply saved_not_sp in Hn).
    rewrite H5in, H4w by done. apply Hrest.
    intros j Hj. apply saved_range in Hn. pose proof (Hap j n ltac:(lia) Hn). lia.
  - intros n Hn. rewrite H3w. destruct (decide (n = 2)) as [->|Hn2].
    + by rewrite upd_eq.
    + rewrite upd_ne by lia. rewrite H2in by (apply saved_regs_spec; lia). by apply H1o.
Qed.
End Switch.

(** ** The portal *)
Ltac upd_simpl := repeat first [rewrite upd_eq | rewrite upd_ne by (lia || done)].

Section Portal.
Context (p : Z) (Hp : 0 ≤ p ∧ p + 56 ≤ 2 ^ 64).
Context (Sw Cw : Z → Prop) (k : Z).
Context (HS : ∀ i, 0 ≤ i ≤ 6 → Sw (p + i * 8) ∧ Cw (p + i * 8)).

Lemma cache_word i : 0 ≤ i ≤ 6 → as_usize (p + i * 8) = p + i * 8.
Proof. intros. apply as_usize_small. lia. Qed.
Lemma cache_word0 : as_usize (p + 0) = p + 0 * 8.
Proof. rewrite as_usize_small; lia. Qed.
Lemma cache_visible a i : 0 ≤ i ≤ 6 → visible Sw Cw k a (p + i * 8).
Proof. intros Hi. destruct (HS i Hi). split; [done|by right]. Qed.

(** Towards the thread: what the cache holds goes to the CSRs and a0, what the CSRs
    held goes to the cache. *)
Record entered (trap : Z) (a a' : amach) : Prop := {
  en_a0 : areg a' 10 = aw a (p + 0 * 8);
  en_a1 : areg a' 11 = areg a 11;
  en_regs n : n ≠ 10 → n ≠ 11 → areg a' n = areg a n;
  en_satp : acsr a' Satp = aw a (p + 2 * 8);
  en_sstatus : acsr a' Sstatus = sret_status (aw a (p + 3 * 8));
  en_sepc : acsr a' Sepc = aw a (p + 4 * 8);
  en_stvec : acsr a' Stvec = trap;
  en_sscratch : acsr a' Sscratch = p;
  en_pc : apc a' = aw a (p + 4 * 8);
  en_w2 : aw a' (p + 2 * 8) = acsr a Satp;
  en_w5 : aw a' (p + 5 * 8) = acsr a Stvec;
  en_w6 : aw a' (p + 6 * 8) = acsr a Sscratch;
  en_rest va : (∀ i, 0 ≤ i ≤ 6 → va ≠ p + i * 8) → aw a' va = aw a va;
}.

Ltac cache_addr H :=
  rewrite ?H, ?(cache_word 1), ?(cache_word 2), ?(cache_word 3), ?(cache_word 4),
    ?(cache_word 5), ?(cache_word 6), ?cache_word0 by lia.

(** Every access is to a word of the cache. *)
Ltac cache_safe H :=
  repeat lazymatch goal with
  | |- csafe _ _ _ [] _ => exact I
  | |- csafe _ _ _ (Ld 10 _ _ :: ?code) ?st =>
      split; [simpl; cache_addr H; apply cache_visible; lia|clear H; done]
  | |- csafe _ _ _ (?i :: _) ?st =>
      split; [simpl; first [done|cache_addr H; apply cache_visible; lia]|];
      let H' := fresh in
      assert (areg (astep i st) 10 = p) as H' by (simpl; rewrite ?upd_ne by done; exact H);
      clear H; rename H' into H; generalize dependent (astep i st); intros ? H
  end.

(** One instruction at a time, keeping registers, addresses and words normal. *)
Ltac cache_step H :=
  rewrite arun_cons; cbn [astep areg acsr aw apc];
  rewrite ?(upd_ne 11 10), ?(upd_eq 11), ?(upd_eq 10) by done;
  cache_addr H; upd_simpl.

Lemma portal_enter_run trap a : areg a 10 = p →
  csafe Sw Cw k (foreign_execute_enter trap) a ∧
  entered trap a (arun (foreign_execute_enter trap) a).
Proof.
  intros Ha. split; unfold foreign_execute_enter; cbn [app].
  - cache_safe Ha.
  - destruct a as [r cs w pc]; cbn [areg acsr aw apc] in *. do 17 cache_step Ha. cbn [arun foldl].
    split; cbn [areg acsr aw apc]; intros; upd_simpl; try done.
    rewrite !upd_ne; [done|..]; match goal with H : ∀ i, _ → _ ≠ _ |- _ => apply H; lia end.
Qed.

(** Back home: the CSRs get what the cache kept, the thread's a0 goes to the cache. *)
Record returned (a a' : amach) : Prop := {
  rt_a1 : areg a' 11 = areg a 11;
  rt_regs n : n ≠ 10 → n ≠ 11 → areg a' n = areg a n;
  rt_satp : acsr a' Satp = aw a (p + 2 * 8);
  rt_sstatus : acsr a' Sstatus = acsr a Sstatus;
  rt_sepc : acsr a' Sepc = acsr a Sepc;
  rt_stvec : acsr a' Stvec = aw a (p + 5 * 8);
  rt_sscratch : acsr a' Sscratch = aw a (p + 6 * 8);
  rt_pc : apc a' = aw a (p + 5 * 8);
  rt_w0 : aw a' (p + 0 * 8) = areg a 10;
  rt_w2 : aw a' (p + 2 * 8) = acsr a Satp;
  rt_rest va : (∀ i, 0 ≤ i ≤ 6 → va ≠ p + i * 8) → aw a' va = aw a va;
}.

Lemma portal_trap_run a : acsr a Sscratch = p →
  csafe Sw Cw k foreign_execute_trap a ∧ returned a (arun foreign_execute_trap a).
Proof.
  intros Ha. split; unfold foreign_execute_trap; cbn [app].
  - split; [done|]. assert (areg (astep (Csrrw 10 Sscratch 10) a) 10 = p) as Ha'
      by (simpl; by rewrite upd_eq).
    generalize dependent (astep (Csrrw 10 Sscratch 10) a). intros a' Ha'. cache_safe Ha'.
  - destruct a as [r cs w pc]; cbn [areg acsr aw apc] in *. do 13 cache_step Ha. cbn [arun foldl].
    split; cbn [areg acsr aw apc]; intros; upd_simpl; try done.
    rewrite !upd_ne; [done|..]; match goal with H : ∀ i, _ → _ ≠ _ |- _ => apply H; lia end.
Qed.
End Portal.

(** ** Round trips on the machine *)
Section RoundTrip.
Context (tr : Z → Z → option Z) (k c f p : Z).

(** The kernel words in play: the context block, the scheduler's stack frame and the
    portal cache. *)
Definition frame_word (b va : Z) : Prop := ∃ n, 0 ≤ n ≤ 31 ∧ va = b + n * 8.
Definition cache_at (va : Z) : Prop := ∃ i, 0 ≤ i ≤ 6 ∧ va = p + i * 8.
Definition kernel_word (va : Z) : Prop := frame_word c va ∨ frame_word f va ∨ cache_at va.

(** The layout the switch relies on: the blocks do not overlap, their words are
    mapped to distinct physical words, and the portal is mapped alike everywhere. *)
Record layout m : Prop := {
  lay_c : frame_ok c;
  lay_f : frame_ok f;
  lay_p : 0 ≤ p ∧ p + 56 ≤ 2 ^ 64;
  lay_cf : apart c f;
  lay_cache va : cache_at va → ¬ frame_word c va ∧ ¬ frame_word f va;
  lay_mapped va : kernel_word va → ∃ pa, tr k va = Some pa ∧ is_Some (mem m !! pa);
  lay_inj va va' pa : kernel_word va → kernel_word va' →
    tr k va = Some pa → tr k va' = Some pa → va = va';
  lay_common va u : cache_at va → tr u va = tr k va;
}.

(** What the kernel sees at one of its words. *)
Definition kview m (va : Z) : option Z := pa ← tr k va; mem m !! pa.

(** Code that is not the kernel's ran from [m] to [m']: it can change registers, the
    exception CSRs and its own memory, but not the kernel's words and not where a trap
    goes. *)
Record thread_ran m m' : Prop := {
  ran_satp : csrs m' Satp = csrs m Satp;
  ran_stvec : csrs m' Stvec = csrs m Stvec;
  ran_sscratch : csrs m' Sscratch = csrs m Sscratch;
  ran_mem va : kernel_word va → kview m' va = kview m va;
}.

Definition abstract_of m : amach :=
  mkAmach (reg m) (csrs m) (fun va => default 0 (kview m va)) (mpc m).

Lemma abstract_sim m : (∀ va, kernel_word va → is_Some (kview m va)) →
  sim tr kernel_word k (abstract_of m) m.
Proof.
  intros Hm. split; try done. intros va Hva. destruct (Hm va Hva) as [v Hv].
  pose proof Hv as Hv'. unfold kview in Hv. simpl.
  destruct (tr k va) as [pa|]; [|done]. exists pa. split; [done|]. rewrite Hv'. done.
Qed.

Lemma sim_view a m va : sim tr kernel_word k a m → kernel_word va → kview m va = Some (aw a va).
Proof.
  intros Hs Hva. destruct (sim_mem _ _ _ _ _ Hs va Hva) as (pa & Hpa & Hm).
  unfold kview. by rewrite Hpa.
Qed.

Lemma layout_view m : layout m → ∀ va, kernel_word va → is_Some (kview m va).
Proof.
  intros Hl va Hva. destruct (lay_mapped _ Hl va Hva) as (pa & Hpa & Hm).
  unfold kview. by rewrite Hpa.
Qed.

(** The state after foreign code, seen as words. *)
Lemma ran_sim a m m' : sim tr kernel_word k a m → thread_ran m m' →
  sim tr kernel_word k (mkAmach (reg m') (csrs m') (aw a) (mpc m')) m'.
Proof.
  intros Hs Hr. split; try done. intros va Hva. simpl.
  pose proof (sim_view a m va Hs Hva) as Hv. rewrite <-(ran_mem _ _ Hr va Hva) in Hv.
  unfold kview in Hv. destruct (tr k va) as [pa|]; [|done]. eauto.
Qed.

Lemma kw_c n : 0 ≤ n ≤ 31 → kernel_word (c + n * 8).
Proof. intros. left. by exists n. Qed.
Lemma kw_f n : 0 ≤ n ≤ 31 → kernel_word (f + n * 8).
Proof. intros. right. left. by exists n. Qed.
Lemma kw_p i : 0 ≤ i ≤ 6 → kernel_word (p + i * 8) ∧ cache_at (p + i * 8).
Proof. intros. assert (cache_at (p + i * 8)) by (by exists i). split; [by do 2 right|done]. Qed.

Lemma restored_regs m0 (m3 : machine) a a3 : frame_ok f → reg m0 2 = f + 256 → f + 256 < 2 ^ 64 →
  (∀ n, n ∈ saved_regs → aw a (f + n * 8) = reg m0 n) →
  (∀ n, n ∈ saved_regs → areg a3 n = aw a (f + n * 8)) →
  areg a3 2 = as_usize (f + 256) → ∀ n, 1 ≤ n ≤ 31 → areg a3 n = reg m0 n.
Proof.
  intros [Hf0 Hf] Hsp Hlt Hsave Hload H2 n Hn. destruct (decide (n = 2)) as [->|Hne].
  - rewrite H2, as_usize_small by lia. lia.
  - rewrite Hload, Hsave by (apply saved_regs_spec; lia). done.
Qed.

(** C30: Round trip of the local context switch: [execute_naked] loads all 31 registers
    of the thread from its context block and jumps to its pc; whatever the thread does
    (short of changing kernel memory and the trap CSRs), the trap handler stores its 31
    registers back into the context block and returns to the scheduler with every
    register as it was. *)
Theorem local_switch_roundtrip m0 trap :
  layout m0 → csrs m0 Sscratch = c → csrs m0 Satp = k → reg m0 2 = f + 256 → f + 256 < 2 ^ 64 →
  ∃ m1, irun tr (execute_naked_enter trap) m0 = Some m1 ∧
    (∀ n, 1 ≤ n ≤ 31 → kview m0 (c + n * 8) = Some (reg m1 n)) ∧
    mpc m1 = csrs m0 Sepc ∧ csrs m1 Stvec = trap ∧
    ∀ m2, thread_ran m1 m2 →
      ∃ m3, irun tr execute_naked_trap m2 = Some m3 ∧
        (∀ n, 1 ≤ n ≤ 31 → reg m3 n = reg m0 n) ∧ mpc m3 = reg m0 1 ∧
        (∀ n, 1 ≤ n ≤ 31 → kview m3 (c + n * 8) = Some (reg m2 n)) ∧
        ∀ r, csrs m3 r = csrs m2 r.
Proof.
  intros Hl Hc Hk Hsp Hlt.
  pose proof (abstract_sim m0 (layout_view m0 Hl)) as Hs0.
  destruct (enter_run c f k kernel_word cache_at (lay_c _ Hl) (lay_f _ Hl) (lay_cf _ Hl) kw_c kw_f
    trap (abstract_of m0) Hc Hk Hsp) as (Hsafe & Hregs & Hcsr & Hpc & Hcw & Hsave & _).
  destruct (irun_sim tr kernel_word cache_at k (lay_inj _ Hl) (lay_common _ Hl) _ _ _ Hs0 Hsafe)
    as (m1 & Hrun1 & Hs1).
  exists m1. split; [done|]. rewrite (sim_reg _ _ _ _ _ Hs1), (sim_csr _ _ _ _ _ Hs1),
    (sim_pc _ _ _ _ _ Hs1), Hpc, Hcsr. split_and!; [|done|by rewrite upd_ne, upd_eq|].
  - intros n Hn. rewrite Hregs by done. apply (sim_view _ _ _ Hs0), kw_c. lia.
  - intros m2 Hran. pose proof (ran_sim _ _ _ Hs1 Hran) as Hs2.
    pose proof (ran_sscratch _ _ Hran) as Hss. pose proof (ran_satp _ _ Hran) as Hsa.
    rewrite (sim_csr _ _ _ _ _ Hs1), Hcsr, !upd_ne in Hss, Hsa by done. simpl in Hss, Hsa.
    generalize dependent (arun (execute_naked_enter trap) (abstract_of m0)).
    intros a1 Hregs Hcsr Hpc Hcw Hsave Hs1 Hs2.
    destruct (trap_run c f k kernel_word cache_at (lay_c _ Hl) (lay_f _ Hl) (lay_cf _ Hl) kw_c kw_f
      (mkAmach (reg m2) (csrs m2) (aw a1) (mpc m2))) as (Hsafe2 & Hl2 & Hsp2 & Hc2 & Hp2 & Hw2 & _);
      [simpl; congruence|simpl; congruence|done|].
    destruct (irun_sim tr kernel_word cache_at k (lay_inj _ Hl) (lay_common _ Hl) _ _ _ Hs2 Hsafe2)
      as (m3 & Hrun3 & Hs3).
    exists m3. split; [done|]. rewrite (sim_reg _ _ _ _ _ Hs3), (sim_csr _ _ _ _ _ Hs3),
      (sim_pc _ _ _ _ _ Hs3), Hp2.
    pose proof (restored_regs m0 m3 _ _ (lay_f _ Hl) Hsp Hlt Hsave Hl2 Hsp2) as Hres.
    split_and!; [done|by apply Hres| |done].
    intros n Hn. rewrite (sim_view _ _ _ Hs3) by (apply kw_c; lia). by rewrite Hw2.
Qed.

(** The words of the cache are words of neither block. *)
Lemma cache_apart m i n b : layout m → 0 ≤ i ≤ 6 → 0 ≤ n ≤ 31 → b = c ∨ b = f → b + n * 8 ≠ p + i * 8.
Proof.
  intros Hl Hi Hn Hb E. destruct (lay_cache _ Hl (p + i * 8)) as [Nc Nf]; [by exists i|].
  destruct Hb as [->| ->]; [apply Nc|apply Nf]; exists n; auto.
Qed.

(** After [execute_naked]: the portal runs with the registers of the context block. *)
Record switched (m0 : machine) (trap : Z) (a1 : amach) : Prop := {
  sw_regs n : 1 ≤ n ≤ 31 → areg a1 n = aw (abstract_of m0) (c + n * 8);
  sw_csr : acsr a1 = upd Sstatus (sret_status (csrs m0 Sstatus)) (upd Stvec trap (csrs m0));
  sw_pc : apc a1 = csrs m0 Sepc;
  sw_frame : aw a1 c = f;
  sw_saved n : n ∈ saved_regs → aw a1 (f + n * 8) = reg m0 n;
  sw_cache i : 0 ≤ i ≤ 6 → aw a1 (p + i * 8) = aw (abstract_of m0) (p + i * 8);
}.

Lemma foreign_enter m0 trap ptrap :
  layout m0 → csrs m0 Sscratch = c → csrs m0 Satp = k → reg m0 2 = f + 256 → kview m0 (c + 10 * 8) = Some p →
  ∃ a1 m1 a2 m2, irun tr (execute_naked_enter trap) m0 = Some m1 ∧ sim tr kernel_word k a1 m1 ∧
    irun tr (foreign_execute_enter ptrap) m1 = Some m2 ∧ sim tr kernel_word k a2 m2 ∧
    switched m0 trap a1 ∧ entered p ptrap a1 a2.
Proof.
  intros Hl Hc Hk Hsp Hp. pose proof (abstract_sim m0 (layout_view m0 Hl)) as Hs0.
  destruct (enter_run c f k kernel_word cache_at (lay_c _ Hl) (lay_f _ Hl) (lay_cf _ Hl) kw_c kw_f
    trap (abstract_of m0) Hc Hk Hsp) as (Hsafe & Hregs & Hcsr & Hpc & Hcw & Hsave & Hrest).
  destruct (irun_sim tr kernel_word cache_at k (lay_inj _ Hl) (lay_common _ Hl) _ _ _ Hs0 Hsafe)
    as (m1 & Hrun1 & Hs1).
  generalize dependent (arun (execute_naked_enter trap) (abstract_of m0)).
  intros a1 Hregs Hcsr Hpc Hcw Hsave Hrest Hs1.
  assert (areg a1 10 = p) as Ha0 by (rewrite Hregs by lia; simpl; by rewrite Hp).
  destruct (portal_enter_run p (lay_p _ Hl) kernel_word cache_at k kw_p ptrap a1 Ha0) as (Hsafe2 & Hen).
  destruct (irun_sim tr kernel_word cache_at k (lay_inj _ Hl) (lay_common _ Hl) _ _ _ Hs1 Hsafe2)
    as (m2 & Hrun2 & Hs2).
  eexists a1, m1, _, m2. split_and!; [done..| |exact Hen]. split; [done..|]. intros i Hi. apply Hrest.
  - pose proof (cache_apart m0 i 0 c Hl Hi ltac:(lia) ltac:(by left)). lia.
  - intros n Hn%saved_range. pose proof (cache_apart m0 i n f Hl Hi Hn ltac:(by right)). lia.
Qed.

Lemma foreign_leave m0 trap ptrap a1 a2 m2 m3 :
  layout m0 → csrs m0 Sscratch = c → csrs m0 Satp = k → reg m0 2 = f + 256 → f + 256 < 2 ^ 64 →
  switched m0 trap a1 → entered p ptrap a1 a2 → sim tr kernel_word k a2 m2 → thread_ran m2 m3 →
  ∃ m4 m5, irun tr foreign_execute_trap m3 = Some m4 ∧ mpc m4 = trap ∧
    irun tr execute_naked_trap m4 = Some m5 ∧
    (∀ n, 1 ≤ n ≤ 31 → reg m5 n = reg m0 n) ∧ mpc m5 = reg m0 1 ∧
    csrs m5 Satp = k ∧ csrs m5 Sscratch = c ∧ csrs m5 Sepc = csrs m3 Sepc ∧
    csrs m5 Sstatus = csrs m3 Sstatus ∧
    (∀ n, 1 ≤ n ≤ 31 → n ≠ 10 → kview m5 (c + n * 8) = Some (reg m3 n)) ∧
    kview m5 (p + 0 * 8) = Some (reg m3 10) ∧ kview m5 (p + 2 * 8) = Some (csrs m3 Satp).
Proof.
  intros Hl Hc Hk Hsp Hlt [Hregs Hcsr Hpc Hcw Hsave Hcache] [e1 e2 e3 e4 e5 e6 e7 e8 e9 e10 e11 e12 e13] Hs2 Hran.
  pose proof (ran_sim _ _ _ Hs2 Hran) as Hs3.
  destruct Hran as [r1 r2 r3 _]. rewrite (sim_csr _ _ _ _ _ Hs2) in r1, r2, r3.
  set (a3 := mkAmach (reg m3) (csrs m3) (aw a2) (mpc m3)) in *.
  assert (acsr a3 Sscratch = p) as Ha3 by (unfold a3; simpl; by rewrite r3).
  destruct (portal_trap_run p (lay_p _ Hl) kernel_word cache_at k kw_p a3 Ha3) as (Hsafe3 & Hrt).
  destruct (irun_sim tr kernel_word cache_at k (lay_inj _ Hl) (lay_common _ Hl) _ _ _ Hs3 Hsafe3)
    as (m4 & Hrun4 & Hs4).
  generalize dependent (arun foreign_execute_trap a3). intros a4 [t1 t2 t3 t4 t5 t6 t7 t8 t9 t10 t11] Hs4.
  assert (acsr a4 Sscratch = c) as H4s by (rewrite t7; unfold a3; simpl; by rewrite e12, Hcsr, !upd_ne).
  assert (acsr a4 Satp = k) as H4k by (rewrite t3; unfold a3; simpl; by rewrite e10, Hcsr, !upd_ne).
  assert (∀ n b, 0 ≤ n ≤ 31 → b = c ∨ b = f → aw a4 (b + n * 8) = aw a1 (b + n * 8)) as Hkeep.
  { intros n b Hn Hb. rewrite t11 by (intros; by eapply cache_apart). unfold a3; simpl.
    apply e13. intros; by eapply cache_apart. }
  assert (aw a4 c = f) as H4f.
  { pose proof (Hkeep 0 c ltac:(lia) ltac:(by left)) as H. by replace (c + 0 * 8) with c in H by lia; rewrite H. }
  destruct (trap_run c f k kernel_word cache_at (lay_c _ Hl) (lay_f _ Hl) (lay_cf _ Hl) kw_c kw_f
    a4 H4s H4k H4f) as (Hsafe5 & Hl5 & Hsp5 & Hc5 & Hp5 & Hw5 & Hr5).
  destruct (irun_sim tr kernel_word cache_at k (lay_inj _ Hl) (lay_common _ Hl) _ _ _ Hs4 Hsafe5)
    as (m5 & Hrun5 & Hs5).
  exists m4, m5. split; [done|]. rewrite (sim_reg _ _ _ _ _ Hs5), (sim_csr _ _ _ _ _ Hs5),
    (sim_pc _ _ _ _ _ Hs5), (sim_pc _ _ _ _ _ Hs4), Hp5.
  assert (∀ n, n ∈ saved_regs → aw a4 (f + n * 8) = reg m0 n) as Hsave4.
  { intros n Hn. rewrite Hkeep by (by apply saved_range || by right). by apply Hsave. }
  pose proof (restored_regs m0 m5 _ _ (lay_f _ Hl) Hsp Hlt Hsave4 Hl5 Hsp5) as Hres.
  assert (∀ i, 0 ≤ i ≤ 6 → kview m5 (p + i * 8) = Some (aw a4 (p + i * 8))) as Hv5.
  { intros i Hi. rewrite (sim_view _ _ _ Hs5) by (by apply kw_p). rewrite Hr5; [done|].
    intros n Hn E. symmetry in E. revert E. eapply cache_apart; [done|done|lia|by left]. }
  rewrite !Hc5. split_and!; [|done|done|by apply Hres|done|done|by rewrite t5|by rewrite t4| | |].
  - rewrite t8. unfold a3; simpl. by rewrite e11, Hcsr, upd_ne, upd_eq.
  - intros n Hn Hn10. rewrite (sim_view _ _ _ Hs5) by (apply kw_c; lia). rewrite Hw5 by done.
    f_equal. destruct (decide (n = 11)) as [->|]; [by rewrite t1|by rewrite t2].
  - rewrite Hv5 by lia. by rewrite t9.
  - rewrite Hv5 by lia. by rewrite t10.
Qed.

(** C31: Round trip through the portal: entering a thread of another address space loads
    its registers, its page table and its pc from the context block and the portal
    cache.  Its [sstatus] is the cached word as [sret] leaves it: interrupts are enabled
    (SIE, bit 1) as the cached SPIE (bit 5) says, SPIE is set, SPP (bit 8) is cleared,
    and every other bit is the cached one.  When the thread traps, the portal and the
    trap handler bring back the kernel's page table, trap entry and all registers of the
    scheduler, leave the thread's registers in the context block and its a0 in the
    cache, and leave [sepc] and [sstatus] as the trap set them. *)
Theorem foreign_switch_roundtrip m0 trap ptrap :
  layout m0 → csrs m0 Sscratch = c → csrs m0 Satp = k → reg m0 2 = f + 256 → f + 256 < 2 ^ 64 →
  kview m0 (c + 10 * 8) = Some p →
  ∃ m1 m2, irun tr (execute_naked_enter trap) m0 = Some m1 ∧ mpc m1 = csrs m0 Sepc ∧
    irun tr (foreign_execute_enter ptrap) m1 = Some m2 ∧
    (∀ n, 1 ≤ n ≤ 31 → n ≠ 10 → kview m0 (c + n * 8) = Some (reg m2 n)) ∧
    kview m0 (p + 0 * 8) = Some (reg m2 10) ∧ kview m0 (p + 2 * 8) = Some (csrs m2 Satp) ∧
    kview m0 (p + 4 * 8) = Some (mpc m2) ∧ csrs m2 Stvec = ptrap ∧
    (∃ s, kview m0 (p + 3 * 8) = Some s ∧ ∀ j, 0 ≤ j →
      Z.testbit (csrs m2 Sstatus) j =
        if j =? 1 then Z.testbit s 5 else if j =? 5 then true else
        if j =? 8 then false else Z.testbit s j) ∧
    ∀ m3, thread_ran m2 m3 →
      ∃ m4 m5, irun tr foreign_execute_trap m3 = Some m4 ∧ mpc m4 = trap ∧
        irun tr execute_naked_trap m4 = Some m5 ∧
        (∀ n, 1 ≤ n ≤ 31 → reg m5 n = reg m0 n) ∧ mpc m5 = reg m0 1 ∧
        csrs m5 Satp = k ∧ csrs m5 Sscratch = c ∧ csrs m5 Sepc = csrs m3 Sepc ∧
        csrs m5 Sstatus = csrs m3 Sstatus ∧
        (∀ n, 1 ≤ n ≤ 31 → n ≠ 10 → kview m5 (c + n * 8) = Some (reg m3 n)) ∧
        kview m5 (p + 0 * 8) = Some (reg m3 10) ∧ kview m5 (p + 2 * 8) = Some (csrs m3 Satp).
Proof.
  intros Hl Hc Hk Hsp Hlt Hp.
  destruct (foreign_enter m0 trap ptrap Hl Hc Hk Hsp Hp) as (a1 & m1 & a2 & m2 & Hrun1 & Hs1 & Hrun2 & Hs2 & Hsw & Hen).
  exists m1, m2. split; [done|].
  rewrite (sim_reg _ _ _ _ _ Hs2), (sim_csr _ _ _ _ _ Hs2), (sim_pc _ _ _ _ _ Hs2), (sim_pc _ _ _ _ _ Hs1).
  assert (∀ va, kernel_word va → kview m0 va = Some (aw (abstract_of m0) va)) as Hv0.
  { intros va Hva. apply sim_view; [|done]. apply abstract_sim, layout_view, Hl. }
  assert (∀ i, 0 ≤ i ≤ 6 → kview m0 (p + i * 8) = Some (aw a1 (p + i * 8))) as Hvp.
  { intros i Hi. rewrite Hv0 by (by apply kw_p). by rewrite (sw_cache _ _ _ Hsw). }
  split; [by apply (sw_pc _ _ _ Hsw)|]. split; [done|].
  split; [|split; [|split; [|split; [|split; [|split]]]]].
  - intros n Hn Hn10. rewrite Hv0 by (apply kw_c; lia). f_equal. destruct Hen as [_ e2 e3 _ _ _ _ _ _ _ _ _ _].
    destruct (decide (n = 11)) as [->|]; [rewrite e2|rewrite e3 by done]; symmetry; by apply (sw_regs _ _ _ Hsw).
  - rewrite Hvp by lia. f_equal. symmetry. apply Hen.
  - rewrite Hvp by lia. f_equal. symmetry. apply Hen.
  - rewrite Hvp by lia. f_equal. symmetry. apply Hen.
  - apply Hen.
  - exists (aw a1 (p + 3 * 8)). split; [apply Hvp; lia|]. intros j Hj.
    rewrite (en_sstatus _ _ _ _ Hen). by apply sret_status_bits.
  - intros m3 Hran. by eapply foreign_leave.
Qed.
End RoundTrip.

(** ** A concrete machine *)
Definition demo_tr (root va : Z) : option Z := Some va.
Definition demo_words : list Z :=
  ((fun n => 4096 + n * 8) <$> seqZ 0 32) ++ ((fun n => 8192 + n * 8) <$> seqZ 0 32) ++
  ((fun n => 12288 + n * 8) <$> seqZ 0 7).
(** the portal cache asks for user mode with interrupts on: SPIE set, SPP clear *)
Definition demo_mem : gmap Z Z := <[12312 := 32]> (<[4176 := 12288]> (gset_to_gmap 0 (list_to_set demo_words))).
Definition demo_machine : machine :=
  mkMachine (fun n => if n =? 2 then 8448 else n)
    (fun r => match r with Sscratch => 4096 | Satp => 7 | Sepc => 65536 | _ => 0 end) demo_mem 0.

Lemma demo_word va : kernel_word 4096 8192 12288 va → va ∈ demo_words.
Proof.
  unfold demo_words. rewrite !elem_of_app, !list_elem_of_fmap.
  intros [(n & Hn & ->)|[(n & Hn & ->)|(n & Hn & ->)]].
  - left. exists n. rewrite elem_of_seqZ. lia.
  - right. left. exists n. rewrite elem_of_seqZ. lia.
  - right. right. exists n. rewrite elem_of_seqZ. lia.
Qed.

Lemma demo_layout : layout demo_tr 7 4096 8192 12288 demo_machine.
Proof.
  split.
  - unfold frame_ok. lia.
  - unfold frame_ok. lia.
  - lia.
  - intros i j Hi Hj. lia.
  - intros va (i & Hi & ->). split; intros (n & Hn & E); lia.
  - intros va Hva%demo_word. exists va. split; [done|]. simpl. unfold demo_mem.
    apply lookup_insert_is_Some'. right. apply lookup_insert_is_Some'. right. exists 0. apply lookup_gset_to_gmap_Some.
    split; [by apply elem_of_list_to_set|done].
  - intros va va' pa _ _ [= ->] [= ->]. done.
  - done.
Qed.

Lemma local_switch_roundtrip_witness : ∃ m1,
  irun demo_tr (execute_naked_enter 100) demo_machine = Some m1 ∧ mpc m1 = 65536 ∧
  ∃ m3, irun demo_tr execute_naked_trap m1 = Some m3 ∧ mpc m3 = 1.
Proof.
  destruct (local_switch_roundtrip demo_tr 7 4096 8192 12288 demo_machine 100 demo_layout)
    as (m1 & Hr & _ & Hp & _ & Hk); [reflexivity|reflexivity|reflexivity|lia|].
  exists m1. split; [exact Hr|]. split; [exact Hp|].
  destruct (Hk m1) as (m3 & Hr3 & _ & Hp3 & _); [by split|].
  exists m3. split; [exact Hr3|exact Hp3].
Defined.

Lemma foreign_switch_roundtrip_witness : ∃ m1 m2,
  irun demo_tr (execute_naked_enter 100) demo_machine = Some m1 ∧
  irun demo_tr (foreign_execute_enter 200) m1 = Some m2 ∧
  Z.testbit (csrs m2 Sstatus) 1 = true ∧
  ∃ m4 m5, irun demo_tr foreign_execute_trap m2 = Some m4 ∧
    irun demo_tr execute_naked_trap m4 = Some m5 ∧ csrs m5 Satp = 7.
Proof.
  destruct (foreign_switch_roundtrip demo_tr 7 4096 8192 12288 demo_machine 100 200 demo_layout)
    as (m1 & m2 & H1 & _ & H2 & _ & _ & _ & _ & _ & (s & Hs & Hbits) & Hk);
    [reflexivity|reflexivity|reflexivity|lia|reflexivity|].
  exists m1, m2. split; [exact H1|]. split; [exact H2|].
  split; [rewrite (Hbits 1 ltac:(lia)); injection Hs as <-; reflexivity|].
  destruct (Hk m2) as (m4 & m5 & H4 & _ & H5 & _ & _ & H6 & _); [by split|].
  exists m4, m5. split; [exact H4|]. split; [exact H5|exact H6].
Defined.
