(* ===== verification/Signal.v ===== *)
(** * Signals

    Models [tg-rcore-tutorial-signal-defs/src/lib.rs] (signal numbers and actions),
    [tg-rcore-tutorial-signal-impl/src/{signal_set,default_action,lib}.rs] (the signal
    set, the default actions and [SignalImpl], the state machine a process goes through
    on the way back to user mode) and [tg-rcore-tutorial-signal/src/signal_result.rs]. *)

From S2P Require Import Prelude KernelContext.

(** ** [signal-defs] *)
Record SignalAction := mkAction { handler : Z; act_mask : Z }.
Definition SignalAction_default : SignalAction := mkAction 0 0.
Definition MAX_SIG : Z := 31.

Inductive SignalNo : Set :=
| ERR | SIGHUP | SIGINT | SIGQUIT | SIGILL | SIGTRAP | SIGABRT | SIGBUS | SIGFPE | SIGKILL
| SIGUSR1 | SIGSEGV | SIGUSR2 | SIGPIPE | SIGALRM | SIGTERM | SIGSTKFLT | SIGCHLD | SIGCONT
| SIGSTOP | SIGTSTP | SIGTTIN | SIGTTOU | SIGURG | SIGXCPU | SIGXFSZ | SIGVTALRM | SIGPROF
| SIGWINCH | SIGIO | SIGPWR | SIGSYS | SIGRTMIN | SIGRT1 | SIGRT2 | SIGRT3 | SIGRT4
| SIGRT5 | SIGRT6 | SIGRT7 | SIGRT8 | SIGRT9 | SIGRT10 | SIGRT11 | SIGRT12 | SIGRT13
| SIGRT14 | SIGRT15 | SIGRT16 | SIGRT17 | SIGRT18 | SIGRT19 | SIGRT20 | SIGRT21 | SIGRT22
| SIGRT23 | SIGRT24 | SIGRT25 | SIGRT26 | SIGRT27 | SIGRT28 | SIGRT29 | SIGRT30 | SIGRT31.
(** [signal as usize]. *)
Definition signal_num (s : SignalNo) : Z :=
  match s with
  | ERR => 0 | SIGHUP => 1 | SIGINT => 2 | SIGQUIT => 3 | SIGILL => 4 | SIGTRAP => 5
  | SIGABRT => 6 | SIGBUS => 7 | SIGFPE => 8 | SIGKILL => 9 | SIGUSR1 => 10 | SIGSEGV => 11
  | SIGUSR2 => 12 | SIGPIPE => 13 | SIGALRM => 14 | SIGTERM => 15 | SIGSTKFLT => 16
  | SIGCHLD => 17 | SIGCONT => 18 | SIGSTOP => 19 | SIGTSTP => 20 | SIGTTIN => 21
  | SIGTTOU => 22 | SIGURG => 23 | SIGXCPU => 24 | SIGXFSZ => 25 | SIGVTALRM => 26
  | SIGPROF => 27 | SIGWINCH => 28 | SIGIO => 29 | SIGPWR => 30 | SIGSYS => 31
  | SIGRTMIN => 32 | SIGRT1 => 33 | SIGRT2 => 34 | SIGRT3 => 35 | SIGRT4 => 36
  | SIGRT5 => 37 | SIGRT6 => 38 | SIGRT7 => 39 | SIGRT8 => 40 | SIGRT9 => 41
  | SIGRT10 => 42 | SIGRT11 => 43 | SIGRT12 => 44 | SIGRT13 => 45 | SIGRT14 => 46
  | SIGRT15 => 47 | SIGRT16 => 48 | SIGRT17 => 49 | SIGRT18 => 50 | SIGRT19 => 51
  | SIGRT20 => 52 | SIGRT21 => 53 | SIGRT22 => 54 | SIGRT23 => 55 | SIGRT24 => 56
  | SIGRT25 => 57 | SIGRT26 => 58 | SIGRT27 => 59 | SIGRT28 => 60 | SIGRT29 => 61
  | SIGRT30 => 62 | SIGRT31 => 63
  end.

Definition all_signals : list SignalNo :=
  [ERR; SIGHUP; SIGINT; SIGQUIT; SIGILL; SIGTRAP; SIGABRT; SIGBUS; SIGFPE; SIGKILL;
   SIGUSR1; SIGSEGV; SIGUSR2; SIGPIPE; SIGALRM; SIGTERM; SIGSTKFLT; SIGCHLD; SIGCONT;
   SIGSTOP; SIGTSTP; SIGTTIN; SIGTTOU; SIGURG; SIGXCPU; SIGXFSZ; SIGVTALRM; SIGPROF;
   SIGWINCH; SIGIO; SIGPWR; SIGSYS; SIGRTMIN; SIGRT1; SIGRT2; SIGRT3; SIGRT4; SIGRT5;
   SIGRT6; SIGRT7; SIGRT8; SIGRT9; SIGRT10; SIGRT11; SIGRT12; SIGRT13; SIGRT14; SIGRT15;
   SIGRT16; SIGRT17; SIGRT18; SIGRT19; SIGRT20; SIGRT21; SIGRT22; SIGRT23; SIGRT24;
   SIGRT25; SIGRT26; SIGRT27; SIGRT28; SIGRT29; SIGRT30; SIGRT31].

(** [SignalNo::try_from(u8)] of [numeric_enum!]. *)
Definition SignalNo_try_from (n : Z) : option SignalNo :=
  List.find (fun s => signal_num s =? n) all_signals.

Definition SignalNo_from (num : Z) : SignalNo := default ERR (SignalNo_try_from (as_u8 num)).

Lemma signal_num_range s : 0 ≤ signal_num s < 64.
Proof. by destruct s. Qed.
Lemma signal_num_from s : SignalNo_from (signal_num s) = s.
Proof. by destruct s. Qed.
#[export] Instance SignalNo_eq_dec : EqDecision SignalNo.
Proof.
  intros s t. destruct (Z.eq_dec (signal_num s) (signal_num t)) as [E|E].
  - left. by rewrite <-(signal_num_from s), E, signal_num_from.
  - right. congruence.
Defined.
Lemma signal_from_num n : 0 ≤ n < 64 → signal_num (SignalNo_from n) = n.
Proof.
  intros Hn. assert (n ∈ seqZ 0 64) as Hin by (rewrite elem_of_seqZ; lia).
  assert (forallb (fun n => signal_num (SignalNo_from n) =? n) (seqZ 0 64) = true) as Hall
    by (vm_compute; reflexivity).
  rewrite forallb_forall in Hall. apply Z.eqb_eq, Hall. by apply list_elem_of_In.
Qed.

(** ** [signal_set.rs]: a set of 64 bits

    A shift by 64 or more overflows and panics. *)
Definition shl1 (kth : Z) : outcome Z :=
  if (0 <=? kth) && (kth <? 64) then Done (Z.shiftl 1 kth) else Panic.

Definition SignalSet_contain_bit (kth s : Z) : outcome bool :=
  shl1 kth;; Done (0 <? Z.land (Z.shiftr s kth) 1).
Definition SignalSet_add_bit (kth s : Z) : outcome Z := b ← shl1 kth; Done (Z.lor s b).
Definition SignalSet_remove_bit (kth s : Z) : outcome Z :=
  b ← shl1 kth; Done (Z.land s (Z.lxor usize_max b)).
Definition SignalSet_get_union (set s : Z) : Z := Z.lor s set.
Definition SignalSet_get_difference (set s : Z) : Z := Z.land s (Z.lxor usize_max set).
Definition SignalSet_set_new (set s : Z) : Z * Z := (s, set).

(** [usize::trailing_zeros]: 64 for zero. *)
Definition trailing_zeros (v : Z) : Z :=
  default 64 (List.find (Z.testbit v) (seqZ 0 64)).

Definition SignalSet_find_first_one (mask s : Z) : option Z :=
  let ans := trailing_zeros (Z.land s (Z.lxor usize_max mask)) in
  if ans =? 64 then None else Some ans.

(** ** [default_action.rs] and [signal_result.rs] *)
Inductive SignalResult :=
| NoSignal | IsHandlingSignal | Ignored | Handled
| ProcessKilled (code : Z) | ProcessSuspended.

Inductive DefaultAction := Terminate (code : Z) | Ignore.

Definition DefaultAction_from (s : SignalNo) : DefaultAction :=
  match s with
  | SIGCHLD | SIGURG => Ignore
  | _ => Terminate (- signal_num s)
  end.
Definition DefaultAction_into (d : DefaultAction) : SignalResult :=
  match d with
  | Terminate code => ProcessKilled code
  | Ignore => Ignored
  end.

(** ** [SignalImpl] *)
Inductive HandlingSignal := Frozen | UserSignal (ctx : LocalContext).

Record SignalImpl := mkSignal {
  received : Z;
  mask : Z;
  handling : option HandlingSignal;
  actions : list (option SignalAction);
}.
Implicit Types (g : SignalImpl).

Definition SignalImpl_new : SignalImpl := mkSignal 0 0 None (replicate 32 None).

Definition with_received (r : Z) g : SignalImpl := mkSignal r (mask g) (handling g) (actions g).
Definition with_handling (h : option HandlingSignal) g : SignalImpl :=
  mkSignal (received g) (mask g) h (actions g).

Definition SignalImpl_fetch_signal g : outcome (option SignalNo * SignalImpl) :=
  match SignalSet_find_first_one (mask g) (received g) with
  | Some num =>
      r ← SignalSet_remove_bit num (received g);
      Done (Some (SignalNo_from num), with_received r g)
  | None => Done (None, g)
  end.

Definition SignalImpl_fetch_and_remove (s : SignalNo) g : outcome (bool * SignalImpl) :=
  b1 ← SignalSet_contain_bit (signal_num s) (received g);
  b2 ← SignalSet_contain_bit (signal_num s) (mask g);
  if b1 && negb b2 then
    r ← SignalSet_remove_bit (signal_num s) (received g);
    Done (true, with_received r g)
  else Done (false, g).

Definition SignalImpl_from_fork g : SignalImpl := mkSignal 0 (mask g) None (actions g).

Definition SignalImpl_clear g : SignalImpl :=
  mkSignal (received g) (mask g) (handling g) ((fun _ => None) <$> actions g).

Definition SignalImpl_add_signal (s : SignalNo) g : outcome SignalImpl :=
  r ← SignalSet_add_bit (signal_num s) (received g);
  Done (with_received r g).

Definition SignalImpl_is_handling_signal g : bool := bool_decide (is_Some (handling g)).

(** [self.actions[signum as usize]]: an index past the 32 slots panics. *)
Definition action_slot (s : SignalNo) g : outcome (option SignalAction) :=
  unwrap (actions g !! Z.to_nat (signal_num s)).

Definition SignalImpl_set_action (s : SignalNo) (act : SignalAction) g :
    outcome (bool * SignalImpl) :=
  if bool_decide (s = SIGKILL ∨ s = SIGSTOP) then Done (false, g)
  else
    action_slot s g;;
    Done (true, mkSignal (received g) (mask g) (handling g)
      (<[Z.to_nat (signal_num s) := Some act]> (actions g))).

Definition SignalImpl_get_action_ref (s : SignalNo) g : outcome (option SignalAction) :=
  if bool_decide (s = SIGKILL ∨ s = SIGSTOP) then Done None
  else
    act ← action_slot s g;
    Done (Some (default SignalAction_default act)).

Definition SignalImpl_update_mask (m : Z) g : Z * SignalImpl :=
  let '(old, new) := SignalSet_set_new m (mask g) in
  (old, mkSignal (received g) new (handling g) (actions g)).

Definition SignalImpl_handle_signals (ctx : LocalContext) g :
    outcome (SignalResult * LocalContext * SignalImpl) :=
  match handling g with
  | Some Frozen =>
      '(b, g) ← SignalImpl_fetch_and_remove SIGCONT g;
      if b : bool then Done (Handled, ctx, with_handling None g)
      else Done (ProcessSuspended, ctx, g)
  | Some (UserSignal _) => Done (IsHandlingSignal, ctx, g)
  | None =>
      '(o, g) ← SignalImpl_fetch_signal g;
      match o with
      | None => Done (NoSignal, ctx, g)
      | Some SIGKILL => Done (ProcessKilled (- signal_num SIGKILL), ctx, g)
      | Some SIGSTOP => Done (ProcessSuspended, ctx, with_handling (Some Frozen) g)
      | Some s =>
          act ← action_slot s g;
          match act with
          | Some act =>
              let g := with_handling (Some (UserSignal ctx)) g in
              let ctx := LocalContext_set_pc (handler act) ctx in
              ctx ← LocalContext_set_a 0 (signal_num s) ctx;
              Done (Handled, ctx, g)
          | None => Done (DefaultAction_into (DefaultAction_from s), ctx, g)
          end
      end
  end.

Definition SignalImpl_sig_return (ctx : LocalContext) g : bool * LocalContext * SignalImpl :=
  match handling g with
  | Some (UserSignal old_ctx) => (true, old_ctx, with_handling None g)
  | _ => (false, ctx, g)
  end.

(** ** Bits *)
Lemma find_seqZ (P : Z → bool) m n :
  match List.find P (seqZ m n) with
  | Some k => m ≤ k < m + n ∧ P k = true ∧ ∀ j, m ≤ j < k → P j = false
  | None => ∀ j, m ≤ j < m + n → P j = false
  end.
Proof.
  remember (Z.to_nat n) as i eqn:Ei. revert m n Ei.
  induction i as [|i IH]; intros m n Ei.
  - rewrite seqZ_nil by lia. simpl. lia.
  - rewrite seqZ_cons by lia. simpl. destruct (P m) eqn:Em.
    + split_and!; [lia|lia|done|]. lia.
    + specialize (IH (Z.succ m) (Z.pred n) ltac:(lia)).
      destruct (List.find P (seqZ (Z.succ m) (Z.pred n))) as [k|].
      * destruct IH as (Hk & HP & Hmin). split_and!; [lia|lia|done|].
        intros j Hj. destruct (decide (j = m)) as [->|]; [done|]. apply Hmin. lia.
      * intros j Hj. destruct (decide (j = m)) as [->|]; [done|]. apply IH. lia.
Qed.

(** A signal that has arrived and is not blocked. *)
Definition deliverable g (n : Z) : bool := Z.testbit (received g) n && negb (Z.testbit (mask g) n).
Definition sets_ok g : Prop := is_usize (received g) ∧ is_usize (mask g) ∧ length (actions g) = 32%nat.

Lemma usize_testbit_high v j : is_usize v → 64 ≤ j → Z.testbit v j = false.
Proof.
  unfold is_usize, usize_max. intros Hv Hj. destruct (Z.eq_dec v 0) as [->|]; [apply Z.bits_0|].
  apply Z.bits_above_log2; [lia|]. apply Z.log2_lt_pow2; [lia|].
  apply Z.lt_le_trans with (2 ^ 64); [lia|]. apply Z.pow_le_mono_r; lia.
Qed.

Lemma land_not_spec s m j : 0 ≤ j < 64 →
  Z.testbit (Z.land s (Z.lxor usize_max m)) j = Z.testbit s j && negb (Z.testbit m j).
Proof.
  intros Hj. rewrite Z.land_spec, Z.lxor_spec. replace usize_max with (Z.ones 64) by done.
  rewrite Z.ones_spec_low by lia. by destruct (Z.testbit m j).
Qed.

(** [find_first_one] is the least deliverable signal. *)
Lemma find_first_one_spec g :
  match SignalSet_find_first_one (mask g) (received g) with
  | Some n => 0 ≤ n < 64 ∧ deliverable g n = true ∧ ∀ j, 0 ≤ j < n → deliverable g j = false
  | None => ∀ j, 0 ≤ j < 64 → deliverable g j = false
  end.
Proof.
  unfold SignalSet_find_first_one, trailing_zeros, deliverable.
  set (v := Z.land _ _).
  pose proof (find_seqZ (Z.testbit v) 0 64) as H.
  destruct (List.find (Z.testbit v) (seqZ 0 64)) as [k|]; simpl.
  - destruct H as (Hk & Hb & Hmin). rewrite (proj2 (Z.eqb_neq k 64)) by lia.
    unfold v in *. split_and!; [lia|lia| |].
    + by rewrite <-land_not_spec by lia.
    + intros j Hj. rewrite <-land_not_spec by lia. apply Hmin. lia.
  - intros j Hj. rewrite <-land_not_spec by lia. apply H. lia.
Qed.

Lemma shl1_run n : 0 ≤ n < 64 → shl1 n = Done (Z.shiftl 1 n).
Proof.
  intros. unfold shl1. by rewrite (proj2 (Z.leb_le _ _)), (proj2 (Z.ltb_lt _ _)) by lia.
Qed.

Lemma contain_bit_run n s : 0 ≤ n < 64 → SignalSet_contain_bit n s = Done (Z.testbit s n).
Proof.
  intros Hn. unfold SignalSet_contain_bit. rewrite shl1_run by done. simpl. f_equal.
  change 1 with (Z.ones 1). rewrite Z.land_ones by lia. rewrite Z.testbit_spec' || idtac.
  rewrite (Z.testbit_odd s n), Zmod_odd. by destruct (Z.odd (Z.shiftr s n)).
Qed.

Lemma remove_bit_run n s : 0 ≤ n < 64 → is_usize s →
  ∃ s', SignalSet_remove_bit n s = Done s' ∧ is_usize s' ∧
    ∀ j, 0 ≤ j → Z.testbit s' j = if j =? n then false else Z.testbit s j.
Proof.
  intros Hn Hs. unfold SignalSet_remove_bit. rewrite shl1_run by done. simpl.
  eexists. split; [done|]. split.
  - apply land_usize; [done|]. unfold is_usize, usize_max.
    change (2 ^ 64 - 1) with (Z.ones 64).
    assert (0 ≤ Z.lxor (Z.ones 64) (Z.shiftl 1 n)) as H0.
    { apply Z.lxor_nonneg. split; intros _; [apply Z.shiftl_nonneg|]; done. }
    split; [done|]. assert (Z.lxor (Z.ones 64) (Z.shiftl 1 n) < 2 ^ 64); [|change (Z.ones 64) with (2 ^ 64 - 1) in *; lia].
    destruct (Z.eq_dec (Z.lxor (Z.ones 64) (Z.shiftl 1 n)) 0) as [->|]; [done|].
    apply Z.log2_lt_pow2; [lia|]. apply Z.le_lt_trans with (Z.max 63 n); [|lia].
    etransitivity; [apply Z.log2_lxor; [done|apply Z.shiftl_nonneg; done]|].
    rewrite Z.log2_shiftl by lia. change (Z.log2 (Z.ones 64)) with 63. simpl. lia.
  - intros j Hj. apply clear_bit_spec; done.
Qed.

Lemma fetch_signal_run g : sets_ok g →
  ∃ o g', SignalImpl_fetch_signal g = Done (o, g') ∧
    match o with
    | None => g' = g ∧ ∀ j, 0 ≤ j < 64 → deliverable g j = false
    | Some s => g' = with_received (received g') g ∧ sets_ok g' ∧
        deliverable g (signal_num s) = true ∧
        (∀ j, 0 ≤ j < signal_num s → deliverable g j = false) ∧
        ∀ j, 0 ≤ j → Z.testbit (received g') j =
          if j =? signal_num s then false else Z.testbit (received g) j
    end.
Proof.
  intros (Hr & Hm & Ha). unfold SignalImpl_fetch_signal.
  pose proof (find_first_one_spec g) as Hf.
  destruct (SignalSet_find_first_one (mask g) (received g)) as [n|]; [|eexists _, _; split; [done|]; done].
  destruct Hf as (Hn & Hd & Hmin).
  destruct (remove_bit_run n (received g) Hn Hr) as (r' & -> & Hr' & Hbits). simpl.
  eexists _, _. split; [done|]. simpl. rewrite signal_from_num by done.
  by split_and!.
Qed.

(** [s] is the signal to be delivered next. *)
Definition next_signal g (s : SignalNo) : Prop :=
  deliverable g (signal_num s) = true ∧ ∀ j, 0 ≤ j < signal_num s → deliverable g j = false.

Lemma fetch_next g s : sets_ok g → next_signal g s →
  ∃ g', SignalImpl_fetch_signal g = Done (Some s, g') ∧ g' = with_received (received g') g ∧
    ∀ j, 0 ≤ j → Z.testbit (received g') j =
      if j =? signal_num s then false else Z.testbit (received g) j.
Proof.
  intros Hok [Hd Hmin]. destruct (fetch_signal_run g Hok) as (o & g' & Hf & Ho).
  destruct o as [s'|].
  2: { destruct Ho as [_ Hn]. rewrite Hn in Hd by apply signal_num_range. done. }
  destruct Ho as (Hg' & Hok' & Hd' & Hmin' & Hbits).
  assert (signal_num s' = signal_num s) as E.
  { pose proof (signal_num_range s). pose proof (signal_num_range s').
    destruct (Z.lt_trichotomy (signal_num s') (signal_num s)) as [L|[E|L]]; [|done|].
    - rewrite Hmin in Hd' by lia. done.
    - rewrite Hmin' in Hd by lia. done. }
  assert (s' = s) as -> by (by rewrite <-(signal_num_from s'), E, signal_num_from). eauto.
Qed.

(** ** Delivery of a signal with a handler *)

(** C32: Handling a signal and returning from the handler: when the lowest deliverable
    signal has a user handler, control goes to the handler with the signal number in a0
    and every other register kept, the signal is no longer pending and no other pending
    signal is lost; until the handler returns no further signal is delivered, and
    [sig_return] restores the interrupted context exactly. *)
Theorem signal_handler_roundtrip g s act ctx :
  sets_ok g → ctx_wf ctx → handling g = None → next_signal g s →
  s ≠ SIGKILL → s ≠ SIGSTOP → actions g !! Z.to_nat (signal_num s) = Some (Some act) →
  ∃ ctx' g', SignalImpl_handle_signals ctx g = Done (Handled, ctx', g') ∧
    LocalContext_pc ctx' = handler act ∧ LocalContext_a 0 ctx' = Done (signal_num s) ∧
    (∀ n, 1 ≤ n ≤ 31 → n ≠ 10 → LocalContext_x n ctx' = LocalContext_x n ctx) ∧
    (∀ j, 0 ≤ j → Z.testbit (received g') j =
       if j =? signal_num s then false else Z.testbit (received g) j) ∧
    (∀ ctx2, SignalImpl_handle_signals ctx2 g' = Done (IsHandlingSignal, ctx2, g')) ∧
    ∀ ctx2, SignalImpl_sig_return ctx2 g' = (true, ctx, with_handling None g').
Proof.
  intros Hok Hctx Hh Hnext Hk Hst Hact.
  destruct (fetch_next g s Hok Hnext) as (g' & Hf & Hg' & Hbits).
  assert (action_slot s g' = Done (Some act)) as Hslot.
  { unfold action_slot. rewrite Hg'. simpl. by rewrite Hact. }
  assert (∃ ctx', LocalContext_set_a 0 (signal_num s) (LocalContext_set_pc (handler act) ctx)
    = Done ctx' ∧ sepc ctx' = handler act ∧ ctx_x ctx' = <[9%nat := signal_num s]> (ctx_x ctx))
    as (ctx' & Hset & Hpc & Hx).
  { eexists. rewrite ctx_set_a_eq by lia. split; [apply ctx_set_x_run; done|done]. }
  exists ctx', (with_handling (Some (UserSignal ctx)) g'). split.
  { unfold SignalImpl_handle_signals. rewrite Hh, Hf. simpl. clear -Hslot Hset Hk Hst.
    destruct s; simpl in Hset; try done; rewrite Hslot; simpl; rewrite Hset; done. }
  unfold ctx_wf in Hctx. split_and!; try done.
  - rewrite ctx_a_eq by lia. unfold LocalContext_x, usize_sub.
    rewrite checked_ok by (unfold usize_max; lia). simpl.
    rewrite Hx, list_lookup_insert_eq by lia. done.
  - intros n Hn Hn10. unfold LocalContext_x, usize_sub.
    rewrite checked_ok by (unfold usize_max; lia). simpl.
    by rewrite Hx, list_lookup_insert_ne by lia.
Qed.

(** A bit set alone is the next signal. *)
Lemma next_single n s h acts : signal_num s = n → next_signal (mkSignal (2 ^ n) 0 h acts) s.
Proof.
  intros <-. pose proof (signal_num_range s). unfold next_signal, deliverable; simpl. split.
  - by rewrite Z.pow2_bits_true, Z.bits_0 by lia.
  - intros j Hj. rewrite Z.pow2_bits_eqb by lia. by rewrite (proj2 (Z.eqb_neq _ _)) by lia.
Qed.

Definition demo_signals : SignalImpl :=
  mkSignal (2 ^ 10) 0 None (<[10%nat := Some (mkAction 4096 0)]> (replicate 32 None)).

Lemma signal_handler_roundtrip_witness : ∃ ctx' g',
  SignalImpl_handle_signals (LocalContext_user 64) demo_signals = Done (Handled, ctx', g') ∧
  LocalContext_pc ctx' = 4096 ∧
  SignalImpl_sig_return ctx' g' = (true, LocalContext_user 64, with_handling None g').
Proof.
  destruct (signal_handler_roundtrip demo_signals SIGUSR1
    (mkAction 4096 0) (LocalContext_user 64)) as (ctx' & g' & H1 & H2 & _ & _ & _ & _ & H3);
    try reflexivity; try done.
  - by apply next_single.
  - exists ctx', g'. split; [exact H1|]. split; [exact H2|]. apply H3.
Defined.

(** The default actions: a deliverable signal without a handler terminates the
    process with exit code minus its number, except SIGCHLD and SIGURG, which are
    ignored; SIGKILL always terminates; SIGSTOP freezes the process. *)
Theorem signal_default_actions g s ctx :
  sets_ok g → handling g = None → next_signal g s →
  actions g !! Z.to_nat (signal_num s) = Some None →
  ∃ r g', SignalImpl_handle_signals ctx g = Done (r, ctx, g') ∧
    r = (if decide (s = SIGCHLD ∨ s = SIGURG) then Ignored
         else if decide (s = SIGSTOP) then ProcessSuspended else ProcessKilled (- signal_num s)) ∧
    handling g' = (if decide (s = SIGSTOP) then Some Frozen else None).
Proof.
  intros Hok Hh Hnext Hact.
  destruct (fetch_next g s Hok Hnext) as (g' & Hf & Hg' & Hbits).
  assert (action_slot s g' = Done None) as Hslot.
  { unfold action_slot. rewrite Hg'. simpl. by rewrite Hact. }
  assert (handling g' = None) as Hh' by (rewrite Hg'; done).
  unfold SignalImpl_handle_signals. rewrite Hh, Hf. simpl. clear -Hslot Hh'.
  destruct s; try (rewrite Hslot; simpl); eexists _, _; (split; [done|]); (split; [done|]);
    exact Hh' || done.
Qed.

Lemma signal_default_actions_witness : ∃ r g',
  SignalImpl_handle_signals (LocalContext_user 64) (mkSignal (2 ^ 15) 0 None (replicate 32 None))
    = Done (r, LocalContext_user 64, g') ∧ r = ProcessKilled (-15) ∧ handling g' = None.
Proof.
  apply (signal_default_actions (mkSignal (2 ^ 15) 0 None (replicate 32 None)) SIGTERM
    (LocalContext_user 64)); [done|done|by apply next_single|reflexivity].
Defined.

(** A frozen process stays suspended until SIGCONT arrives: without a deliverable
    SIGCONT nothing changes, with one the process leaves the frozen state. *)
Theorem signal_frozen_until_cont g ctx :
  sets_ok g → handling g = Some Frozen →
  (deliverable g 18 = false →
     SignalImpl_handle_signals ctx g = Done (ProcessSuspended, ctx, g)) ∧
  (Z.testbit (mask g) 18 = false → ∃ g1 g2, SignalImpl_add_signal SIGCONT g = Done g1 ∧
     SignalImpl_handle_signals ctx g1 = Done (Handled, ctx, g2) ∧ handling g2 = None).
Proof.
  intros (Hr & Hm & Ha) Hh. split.
  - intros Hd. unfold SignalImpl_handle_signals, SignalImpl_fetch_and_remove. rewrite Hh.
    rewrite !contain_bit_run by done. unfold deliverable in Hd.
    change (signal_num SIGCONT) with 18. cbn [mbind outcome_bind]. by rewrite Hd.
  - intros Hmask. unfold SignalImpl_add_signal, SignalSet_add_bit. rewrite shl1_run by done.
    destruct (remove_bit_run 18 (Z.lor (received g) (Z.shiftl 1 18))) as (r' & Hrm & _);
      [lia|by apply lor_usize|].
    eexists _, _. split; [done|].
    unfold SignalImpl_handle_signals, SignalImpl_fetch_and_remove.
    cbn [handling with_received]. rewrite Hh. rewrite !contain_bit_run by done.
    change (signal_num SIGCONT) with 18. cbn [mbind outcome_bind with_received received mask].
    rewrite Hmask, set_bit_spec by lia. cbn [Z.eqb Pos.eqb andb negb]. by rewrite Hrm.
Qed.

Lemma signal_frozen_until_cont_witness :
  SignalImpl_handle_signals (LocalContext_user 64) (mkSignal 0 0 (Some Frozen) (replicate 32 None))
    = Done (ProcessSuspended, LocalContext_user 64, mkSignal 0 0 (Some Frozen) (replicate 32 None)).
Proof.
  apply (signal_frozen_until_cont (mkSignal 0 0 (Some Frozen) (replicate 32 None))); done.
Defined.

(** A real-time signal (32 to 63) crashes the kernel: [kill] accepts such numbers,
    but there are only 32 action slots, so delivering one panics. *)
Theorem signal_realtime_panics g s ctx :
  sets_ok g → handling g = None → next_signal g s → MAX_SIG < signal_num s →
  SignalImpl_handle_signals ctx g = Panic.
Proof.
  intros Hok Hh Hnext Hmax.
  destruct (fetch_next g s Hok Hnext) as (g' & Hf & Hg' & Hbits).
  assert (action_slot s g' = Panic) as Hslot.
  { unfold action_slot. rewrite Hg'. simpl. destruct Hok as (_ & _ & Ha). unfold MAX_SIG in Hmax.
    by rewrite lookup_ge_None_2 by lia. }
  unfold SignalImpl_handle_signals. rewrite Hh, Hf. simpl. clear -Hslot Hmax.
  unfold MAX_SIG in Hmax. destruct s; simpl in Hmax; try lia; by rewrite Hslot.
Qed.

Lemma signal_realtime_panics_witness :
  SignalImpl_handle_signals (LocalContext_user 64) (mkSignal (2 ^ 40) 0 None (replicate 32 None))
    = Panic.
Proof.
  apply (signal_realtime_panics (mkSignal (2 ^ 40) 0 None (replicate 32 None)) SIGRT8
    (LocalContext_user 64)); [done|done|by apply next_single|done].
Defined.

(** SIGKILL can be blocked: after [update_mask] with its bit set, a pending SIGKILL is
    not delivered. *)
Theorem signal_kill_blockable g ctx m :
  sets_ok g → is_usize m → handling g = None → Z.testbit m 9 = true →
  (∀ j, 0 ≤ j < 64 → Z.testbit (received g) j = true → j = 9) →
  SignalImpl_handle_signals ctx (SignalImpl_update_mask m g).2 =
    Done (NoSignal, ctx, (SignalImpl_update_mask m g).2).
Proof.
  intros (Hr & Hm & Ha) Hum Hh H9 Honly. set (g' := (SignalImpl_update_mask m g).2).
  destruct (fetch_signal_run g') as (o & g2 & Hf & Ho); [done|].
  unfold SignalImpl_handle_signals. simpl (handling g'). rewrite Hh, Hf. simpl.
  destruct o as [s|].
  - exfalso. destruct Ho as (_ & _ & Hd & _). unfold deliverable in Hd. simpl in Hd.
    apply andb_true_iff in Hd as [Hd1 Hd2].
    apply Honly in Hd1; [|apply signal_num_range]. rewrite Hd1, H9 in Hd2. done.
  - by destruct Ho as [-> _].
Qed.

Lemma signal_kill_blockable_witness :
  SignalImpl_handle_signals (LocalContext_user 64)
    (SignalImpl_update_mask 512 (mkSignal (2 ^ 9) 0 None (replicate 32 None))).2
    = Done (NoSignal, LocalContext_user 64,
        (SignalImpl_update_mask 512 (mkSignal (2 ^ 9) 0 None (replicate 32 None))).2).
Proof.
  apply (signal_kill_blockable (mkSignal (2 ^ 9) 0 None (replicate 32 None))); try done.
  intros j Hj Hb. simpl received in Hb. rewrite Z.pow2_bits_eqb in Hb by lia.
  apply Z.eqb_eq in Hb. lia.
Defined.
