(* ===== verification/Bytes.v ===== *)
(** * Bytes

    Data as bytes, shared by the file system (blocks of the disk) and the memory of the machine: little-endian integers,
    slices of a block, and the interface of the [#[repr(C)]] structures that are read from and written to bytes
    ([Pod]). *)

From S2P Require Import Prelude.

(** ** Little-endian integers *)
Fixpoint le_encode (n : nat) (v : Z) : list Z :=
  match n with
  | O => []
  | S n' => v mod 256 :: le_encode n' (v / 256)
  end.
Fixpoint le_decode (bs : list Z) : Z :=
  match bs with
  | [] => 0
  | b :: bs' => b + 256 * le_decode bs'
  end.

Definition is_byte (b : Z) : Prop := 0 ≤ b < 256.

Lemma le_encode_length n v : length (le_encode n v) = n.
Proof. revert v. induction n; intros; simpl; auto. Qed.

Lemma le_encode_bytes n v : Forall is_byte (le_encode n v).
Proof.
  revert v. induction n; intros v; simpl; constructor; auto. apply Z.mod_pos_bound. lia.
Qed.

Lemma le_decode_encode n v : 0 ≤ v < 256 ^ Z.of_nat n → le_decode (le_encode n v) = v.
Proof.
  revert v. induction n as [|n IH]; intros v Hv; simpl.
  - simpl in Hv. lia.
  - rewrite Nat2Z.inj_succ, Z.pow_succ_r in Hv by lia.
    rewrite IH.
    + pose proof (Z.div_mod v 256 ltac:(lia)). lia.
    + split; [apply Z.div_pos; lia|]. apply Z.div_lt_upper_bound; lia.
Qed.

Lemma le_decode_range bs : Forall is_byte bs → 0 ≤ le_decode bs < 256 ^ Z.of_nat (length bs).
Proof.
  induction 1 as [|b bs Hb _ IH]; simpl length; [done|].
  rewrite Nat2Z.inj_succ, Z.pow_succ_r by lia. unfold is_byte in Hb. simpl. lia.
Qed.

Lemma le_encode_decode bs : Forall is_byte bs → le_encode (length bs) (le_decode bs) = bs.
Proof.
  induction 1 as [|b bs Hb _ IH]; simpl; [done|]. unfold is_byte in Hb.
  assert ((b + 256 * le_decode bs) mod 256 = b) as ->.
  { rewrite Z.mul_comm, Z.mod_add by lia. apply Z.mod_small. lia. }
  assert ((b + 256 * le_decode bs) / 256 = le_decode bs) as ->.
  { rewrite Z.mul_comm, Z.div_add by lia. rewrite Z.div_small by lia. lia. }
  by rewrite IH.
Qed.

(** ** Slices of a block *)
Definition slice (off len : nat) (b : list Z) : list Z := take len (drop off b).
Definition splice (off : nat) (new b : list Z) : list Z :=
  take off b ++ new ++ drop (off + length new) b.

Lemma slice_length off len b : (off + len ≤ length b)%nat → length (slice off len b) = len.
Proof. intros. unfold slice. rewrite length_take, length_drop. lia. Qed.

Lemma splice_length off new b : (off + length new ≤ length b)%nat →
  length (splice off new b) = length b.
Proof. intros. unfold splice. rewrite !length_app, length_take, length_drop. lia. Qed.

Lemma slice_splice off new b : (off + length new ≤ length b)%nat →
  slice off (length new) (splice off new b) = new.
Proof.
  intros. unfold slice, splice. rewrite drop_app_ge by (rewrite length_take; lia).
  rewrite length_take. replace (off - off `min` length b)%nat with O by lia. simpl.
  rewrite drop_0, take_app_le by lia. by rewrite take_ge by lia.
Qed.

Lemma splice_lookup off new b i : (off + length new ≤ length b)%nat →
  splice off new b !! i =
    if decide (off ≤ i < off + length new)%nat then new !! (i - off)%nat else b !! i.
Proof.
  intros Hb. unfold splice. case_decide as Hi.
  - rewrite lookup_app_r by (rewrite length_take; lia). rewrite length_take.
    rewrite lookup_app_l by lia. f_equal. lia.
  - destruct (decide (i < off)%nat).
    + rewrite lookup_app_l by (rewrite length_take; lia). by apply lookup_take_lt.
    + rewrite lookup_app_r by (rewrite length_take; lia). rewrite length_take.
      rewrite lookup_app_r by lia. rewrite lookup_drop. f_equal. lia.
Qed.

Lemma slice_lookup off len b i : (i < len)%nat → slice off len b !! i = b !! (off + i)%nat.
Proof. intros. unfold slice. by rewrite lookup_take_lt, lookup_drop by lia. Qed.

Lemma splice_slice off len b : (off + len ≤ length b)%nat → splice off (slice off len b) b = b.
Proof.
  intros Hb. apply list_eq. intros i. rewrite splice_lookup; rewrite slice_length by done; [|done].
  case_decide; [|done]. rewrite slice_lookup by lia. f_equal. lia.
Qed.

Lemma slice_splice_other off new b o n : (off + length new ≤ length b)%nat →
  (o + n ≤ off ∨ off + length new ≤ o)%nat → slice o n (splice off new b) = slice o n b.
Proof.
  intros Hb Ho. apply list_eq. intros i. destruct (decide (i < n)%nat).
  - rewrite !slice_lookup by done. rewrite splice_lookup by done. case_decide; [lia|done].
  - unfold slice. rewrite !lookup_take_ge by lia. done.
Qed.

Lemma splice_splice off (x y buf : list Z) : (off + length x + length y ≤ length buf)%nat →
  splice (off + length x) y (splice off x buf) = splice off (x ++ y) buf.
Proof.
  intros Hl. apply list_eq. intros i. rewrite splice_lookup by (rewrite splice_length; lia).
  rewrite !splice_lookup by (rewrite ?length_app; lia). rewrite length_app.
  repeat case_decide; try lia; try done.
  - rewrite lookup_app_r by lia. f_equal. lia.
  - by rewrite lookup_app_l by lia.
Qed.

Lemma splice_bytes off new b : Forall is_byte new → Forall is_byte b →
  Forall is_byte (splice off new b).
Proof.
  intros. unfold splice. apply Forall_app; split; [by apply Forall_take|].
  apply Forall_app; split; [done|by apply Forall_drop].
Qed.

(** ** Plain old data

    [encode] and [decode] are inverse to each other on values that fit, so that
    reading through a reference and writing a field touch nothing else. *)
Class Pod (T : Type) := {
  size_of : nat;
  encode : T → list Z;
  decode : list Z → T;
  fits : T → Prop;
  encode_length t : fits t → length (encode t) = size_of;
  encode_bytes t : fits t → Forall is_byte (encode t);
  decode_encode t : fits t → decode (encode t) = t;
  decode_fits bs : Forall is_byte bs → length bs = size_of → fits (decode bs);
  encode_decode bs : Forall is_byte bs → length bs = size_of → encode (decode bs) = bs;
}.
Arguments size_of T {_}.

(** An array of [k] integers of [w] bytes. *)
Fixpoint words_encode (w : nat) (vs : list Z) : list Z :=
  match vs with
  | [] => []
  | v :: vs' => le_encode w v ++ words_encode w vs'
  end.
Fixpoint words_decode (w k : nat) (bs : list Z) : list Z :=
  match k with
  | O => []
  | S k' => le_decode (take w bs) :: words_decode w k' (drop w bs)
  end.
Definition words_fit (w k : nat) (vs : list Z) : Prop :=
  length vs = k ∧ Forall (fun v => 0 ≤ v < 256 ^ Z.of_nat w) vs.

Lemma words_encode_length w vs : length (words_encode w vs) = (w * length vs)%nat.
Proof.
  induction vs as [|v vs IH]; simpl; [lia|].
  rewrite length_app, le_encode_length, IH. lia.
Qed.
Lemma words_encode_bytes w vs : Forall is_byte (words_encode w vs).
Proof.
  induction vs as [|v vs IH]; simpl; [constructor|].
  apply Forall_app. split; [apply le_encode_bytes|done].
Qed.
Lemma words_decode_encode w vs : Forall (fun v => 0 ≤ v < 256 ^ Z.of_nat w) vs →
  words_decode w (length vs) (words_encode w vs) = vs.
Proof.
  induction 1 as [|v vs Hv _ IH]; simpl; [done|].
  rewrite take_app_le, drop_app_ge by (rewrite le_encode_length; lia).
  rewrite take_ge, le_decode_encode by (done || rewrite le_encode_length; lia).
  rewrite le_encode_length, Nat.sub_diag. simpl. by rewrite drop_0, IH.
Qed.
Lemma words_decode_fit w k bs : Forall is_byte bs → length bs = (w * k)%nat →
  words_fit w k (words_decode w k bs).
Proof.
  revert bs. induction k as [|k IH]; intros bs Hb Hl; simpl; [by split; constructor|].
  destruct (IH (drop w bs)) as [Hlen Hfit]; [by apply Forall_drop|rewrite length_drop; lia|].
  split; [simpl; lia|]. constructor; [|done].
  replace w with (length (take w bs)) at 3 by (rewrite length_take; lia).
  by apply le_decode_range, Forall_take.
Qed.
Lemma words_encode_decode w k bs : Forall is_byte bs → length bs = (w * k)%nat →
  words_encode w (words_decode w k bs) = bs.
Proof.
  revert bs. induction k as [|k IH]; intros bs Hb Hl; simpl.
  - destruct bs; [done|simpl in Hl; lia].
  - rewrite IH by first [by apply Forall_drop | rewrite length_drop; lia].
    replace w with (length (take w bs)) at 1 by (rewrite length_take; lia).
    rewrite le_encode_decode by (by apply Forall_take). apply take_drop.
Qed.

Definition words_pod (w k : nat) : Pod (list Z).
Proof.
  refine {|
    size_of := w * k;
    encode := words_encode w;
    decode := words_decode w k;
    fits := words_fit w k;
  |}.
  - intros t [Hl _]. by rewrite words_encode_length, Hl.
  - intros t _. apply words_encode_bytes.
  - intros t [<- Hf]. by apply words_decode_encode.
  - apply words_decode_fit.
  - apply words_encode_decode.
Defined.
