(* ===== verification/Memory.v ===== *)
(** * Physical memory

    The bytes the kernels reach through raw pointers: [*ptr], [slice::from_raw_parts], [fill], [copy_from_slice] and
    the words of page tables.  The kernels map physical memory onto itself, so an address is a pointer. *)

From S2P Require Import Prelude Bytes.

Definition memory : Type := Z → Z.
Implicit Types (m : memory).

(** [slice::from_raw_parts(a, n)]. *)
Definition mem_read m (a : Z) (n : nat) : list Z := m <$> seqZ a (Z.of_nat n).
(** A write of [bs] at [a]. *)
Definition mem_write (a : Z) (bs : list Z) m : memory := fun x =>
  if decide (a ≤ x < a + Z.of_nat (length bs)) then default 0 (bs !! Z.to_nat (x - a)) else m x.
(** [slice(a, n).fill(0)], for a length that may be large. *)
Definition mem_zero (a n : Z) m : memory := fun x => if decide (a ≤ x < a + n) then 0 else m x.
(** [slice(dst, n).copy_from_slice(slice(src, n))]. *)
Definition mem_copy (dst src n : Z) m : memory := fun x => if decide (dst ≤ x < dst + n) then m (src + (x - dst)) else m x.

(** A 64-bit word, little endian. *)
Definition read_word m (a : Z) : Z := le_decode (mem_read m a 8).
Definition write_word (a v : Z) m : memory := mem_write a (le_encode 8 v) m.

Definition mem_bytes m : Prop := ∀ a, is_byte (m a).

(** [m] and [m'] hold the same bytes in [a, a + n). *)
Definition same_bytes (a n : Z) m m' : Prop := ∀ x, a ≤ x < a + n → m' x = m x.

Lemma mem_read_length m a n : length (mem_read m a n) = n.
Proof. unfold mem_read. rewrite length_fmap, length_seqZ. lia. Qed.

Lemma mem_read_lookup m a n i : (i < n)%nat → mem_read m a n !! i = Some (m (a + Z.of_nat i)).
Proof. intros. unfold mem_read. rewrite list_lookup_fmap, lookup_seqZ_lt by lia. done. Qed.

Lemma mem_read_ext m m' a n : same_bytes a (Z.of_nat n) m m' → mem_read m' a n = mem_read m a n.
Proof.
  intros H. apply list_eq. intros i. destruct (decide (i < n)%nat).
  - rewrite !mem_read_lookup by done. f_equal. apply H. lia.
  - rewrite !lookup_ge_None_2; rewrite ?mem_read_length; [done|lia..].
Qed.

Lemma mem_read_write m a bs : mem_read (mem_write a bs m) a (length bs) = bs.
Proof.
  apply list_eq. intros i. destruct (decide (i < length bs)%nat) as [Hi|Hi].
  - rewrite mem_read_lookup by done. unfold mem_write. rewrite decide_True by lia.
    replace (Z.to_nat (a + Z.of_nat i - a)) with i by lia.
    by destruct (lookup_lt_is_Some_2 bs i Hi) as [b ->].
  - rewrite !lookup_ge_None_2; rewrite ?mem_read_length; [done|lia..].
Qed.

Lemma mem_write_back m a n x : mem_write a (mem_read m a n) m x = m x.
Proof.
  unfold mem_write. rewrite mem_read_length. case_decide; [|done]. rewrite mem_read_lookup by lia. simpl. f_equal. lia.
Qed.

Lemma mem_write_other m a bs b n : b + n ≤ a ∨ a + Z.of_nat (length bs) ≤ b → same_bytes b n m (mem_write a bs m).
Proof. intros H x Hx. unfold mem_write. by rewrite decide_False by lia. Qed.

Lemma read_word_ext m m' a : same_bytes a 8 m m' → read_word m' a = read_word m a.
Proof. intros H. unfold read_word. f_equal. by apply mem_read_ext. Qed.

Lemma read_write_word m a v : 0 ≤ v < 2 ^ 64 → read_word (write_word a v m) a = v.
Proof.
  intros Hv. unfold read_word, write_word. replace 8%nat with (length (le_encode 8 v)) at 1 by apply le_encode_length.
  rewrite mem_read_write. by apply le_decode_encode.
Qed.

Lemma write_word_other m a b n v : b + n ≤ a ∨ a + 8 ≤ b → same_bytes b n m (write_word a v m).
Proof. intros. apply mem_write_other. rewrite le_encode_length. lia. Qed.

Lemma read_word_zero m a b n : b ≤ a → a + 8 ≤ b + n → read_word (mem_zero b n m) a = 0.
Proof.
  intros H1 H2. unfold read_word. replace (mem_read (mem_zero b n m) a 8) with (replicate 8 0); [done|].
  apply list_eq. intros i. destruct (decide (i < 8)%nat).
  - rewrite mem_read_lookup, lookup_replicate_2 by done. unfold mem_zero. by rewrite decide_True by lia.
  - rewrite !lookup_ge_None_2; rewrite ?mem_read_length, ?length_replicate; [done|lia..].
Qed.

Lemma mem_zero_other m a n b k : b + k ≤ a ∨ a + n ≤ b → same_bytes b k m (mem_zero a n m).
Proof. intros H x Hx. unfold mem_zero. by rewrite decide_False by lia. Qed.

Lemma mem_copy_other m dst src n b k : b + k ≤ dst ∨ dst + n ≤ b → same_bytes b k m (mem_copy dst src n m).
Proof. intros H x Hx. unfold mem_copy. by rewrite decide_False by lia. Qed.

Lemma same_bytes_refl a n m : same_bytes a n m m.
Proof. by intros x _. Qed.
Lemma same_bytes_trans a n m1 m2 m3 : same_bytes a n m1 m2 → same_bytes a n m2 m3 → same_bytes a n m1 m3.
Proof. intros H1 H2 x Hx. by rewrite H2, H1. Qed.
Lemma same_bytes_sub a n b k m m' : same_bytes a n m m' → a ≤ b → b + k ≤ a + n → same_bytes b k m m'.
Proof. intros H ? ? x ?. apply H. lia. Qed.

Lemma mem_write_bytes m a bs : mem_bytes m → Forall is_byte bs → mem_bytes (mem_write a bs m).
Proof.
  intros Hm Hb x. unfold mem_write. case_decide; [|apply Hm].
  destruct (bs !! _) eqn:E; simpl; [by eapply Forall_lookup_1|done].
Qed.

#[export] Hint Resolve same_bytes_refl : ai4os.

(** ** The machine around a kernel

    Memory, the [time] register, the timer set through SBI and what was printed. *)
Record world := mkWorld { w_mem : memory; w_time : Z; w_timer : Z; w_console : list Z }.

Definition set_mem (m : memory) (w : world) : world := mkWorld m (w_time w) (w_timer w) (w_console w).
Definition set_timer (t : Z) (w : world) : world := mkWorld (w_mem w) (w_time w) t (w_console w).
Definition print_bytes (bs : list Z) (w : world) : world :=
  mkWorld (w_mem w) (w_time w) (w_timer w) (w_console w ++ bs).

(** Code that works on the bytes only. *)
Definition on_mem {A} (f : st memory A) : st world A := fun w =>
  '(a, m) ← f (w_mem w);
  Done (a, set_mem m w).

Lemma on_mem_run {A} (f : st memory A) a m w : f (w_mem w) = Done (a, m) → on_mem f w = Done (a, set_mem m w).
Proof. unfold on_mem. by intros ->. Qed.
