(* ===== verification/Linker.v ===== *)
(** * The image of a kernel

    Models [tg-rcore-tutorial-linker/src/{app,lib}.rs]: the table of the applications linked into the kernel, the
    iterator that copies each to the place it runs at, and the sections of the kernel.  The symbols the linker script
    defines are parameters. *)

From S2P Require Import Prelude Bytes Memory.

(** ** Applications

    The constants of [AppMeta]; [first] is the address of its last field, where the table of positions starts. *)
Record AppMeta := mkAppMeta { am_base : Z; am_step : Z; am_count : Z; am_first : Z }.
Record AppIterator := mkAppIterator { ai_meta : AppMeta; ai_i : Z }.
Definition AppMeta_iter (meta : AppMeta) : AppIterator := mkAppIterator meta 0.

(** [slice[i]] of the table. *)
Definition app_pos (meta : AppMeta) (m : memory) (i : Z) : Z := read_word m (am_first meta + 8 * i).

(** [2 MiB], the room of an application. *)
Definition app_room : Z := 0x200000.

(** The slice of the next application: address and length. *)
Definition AppIterator_next (it : AppIterator) : st memory (option (Z * Z) * AppIterator) := fun m =>
  let meta := ai_meta it in
  if am_count meta <=? ai_i it then Done ((None, it), m)
  else
    let i := ai_i it in
    let it := mkAppIterator meta (i + 1) in
    let pos := app_pos meta m i in
    size ← usize_sub (app_pos meta m (i + 1)) pos;
    off ← usize_mul i (am_step meta);
    base ← usize_add (am_base meta) off;
    if negb (base =? 0) then
      let m := mem_copy base pos size m in
      if size <=? app_room
      then Done ((Some (base, size), it), mem_zero (base + size) (app_room - size) m)
      else Panic
    else Done ((Some (pos, size), it), m).

(** ** Sections of the kernel *)
Record KernelLayout := mkKernelLayout {
  kl_text : Z; kl_rodata : Z; kl_data : Z; kl_sbss : Z; kl_ebss : Z; kl_boot : Z; kl_end : Z }.
Definition KernelLayout_INIT : KernelLayout :=
  mkKernelLayout usize_max usize_max usize_max usize_max usize_max usize_max usize_max.
Definition KernelLayout_start (l : KernelLayout) : Z := kl_text l.
Definition KernelLayout_end (l : KernelLayout) : Z := kl_end l.
Definition KernelLayout_len (l : KernelLayout) : outcome Z := usize_sub (kl_end l) (kl_text l).

(** [while ptr < end]. *)
Fixpoint zero_bss_loop (fuel : nat) (ptr e : Z) : st memory unit := fun m =>
  if ptr <? e then
    match fuel with
    | O => Hang
    | S fuel' => zero_bss_loop fuel' (ptr + 1) e (mem_write ptr [0] m)
    end
  else Done ((), m).
Definition KernelLayout_zero_bss (fuel : nat) (l : KernelLayout) : st memory unit :=
  zero_bss_loop fuel (kl_sbss l) (kl_ebss l).

Inductive KernelRegionTitle := Text | Rodata | Data | Boot.
Record KernelRegion := mkKernelRegion { kr_title : KernelRegionTitle; kr_start : Z; kr_end : Z }.
Record KernelRegionIterator := mkKernelRegionIterator { kri_layout : KernelLayout; kri_next : option KernelRegionTitle }.

Definition KernelLayout_iter (l : KernelLayout) : KernelRegionIterator := mkKernelRegionIterator l (Some Text).
Definition KernelRegionIterator_next (it : KernelRegionIterator) : option KernelRegion * KernelRegionIterator :=
  let l := kri_layout it in
  match kri_next it with
  | None => (None, it)
  | Some Text => (Some (mkKernelRegion Text (kl_text l) (kl_rodata l)), mkKernelRegionIterator l (Some Rodata))
  | Some Rodata => (Some (mkKernelRegion Rodata (kl_rodata l) (kl_data l)), mkKernelRegionIterator l (Some Data))
  | Some Data => (Some (mkKernelRegion Data (kl_data l) (kl_ebss l)), mkKernelRegionIterator l (Some Boot))
  | Some Boot => (Some (mkKernelRegion Boot (kl_boot l) (kl_end l)), mkKernelRegionIterator l None)
  end.

(** What a [for] loop over an iterator sees; [fuel] is more than the number of its items. *)
Fixpoint regions (fuel : nat) (it : KernelRegionIterator) : list KernelRegion :=
  match fuel with
  | O => []
  | S fuel' =>
      match KernelRegionIterator_next it with
      | (None, _) => []
      | (Some r, it) => r :: regions fuel' it
      end
  end.
Definition kernel_regions (l : KernelLayout) : list KernelRegion := regions 5 (KernelLayout_iter l).

(** ** Lemmas *)

(** A table whose applications fit their room and whose places are addresses. *)
Definition app_base (meta : AppMeta) (i : Z) : Z := am_base meta + i * am_step meta.
Definition app_size (meta : AppMeta) (m : memory) (i : Z) : Z := app_pos meta m (i + 1) - app_pos meta m i.
Record apps_ok (meta : AppMeta) (m : memory) : Prop := {
  ao_size i : 0 ≤ i < am_count meta → 0 ≤ app_size meta m i ≤ app_room;
  ao_base i : 0 ≤ i < am_count meta → 0 < app_base meta i ≤ usize_max;
  ao_step : 0 ≤ am_base meta ∧ 0 ≤ am_step meta;
}.

(** [next] on a good table: the application is at its place, followed by zeros; no other byte changed. *)
Record app_loaded (meta : AppMeta) (i : Z) (m m' : memory) : Prop := {
  al_image x : 0 ≤ x < app_size meta m i → m' (app_base meta i + x) = m (app_pos meta m i + x);
  al_rest x : app_size meta m i ≤ x < app_room → m' (app_base meta i + x) = 0;
  al_frame x : x < app_base meta i ∨ app_base meta i + app_room ≤ x → m' x = m x;
}.

Lemma app_next_run meta m i : apps_ok meta m → 0 ≤ i < am_count meta →
  ∃ m', AppIterator_next (mkAppIterator meta i) m =
      Done ((Some (app_base meta i, app_size meta m i), mkAppIterator meta (i + 1)), m') ∧ app_loaded meta i m m'.
Proof.
  intros [Hs Hb [Hb0 Hst]] Hi. specialize (Hs i Hi). specialize (Hb i Hi). unfold AppIterator_next. simpl.
  assert (app_room < usize_max) as Hroom by done.
  rewrite (proj2 (Z.leb_gt _ _)) by lia. unfold usize_sub, usize_mul, usize_add. fold (app_size meta m i).
  unfold app_base in *. rewrite (checked_ok _ _ (app_size meta m i)), (checked_ok _ _ (i * am_step meta)) by nia. simpl.
  rewrite checked_ok by lia. simpl.
  rewrite (proj2 (Z.eqb_neq _ _)) by lia. simpl. rewrite (proj2 (Z.leb_le _ _)) by lia.
  eexists. split; [reflexivity|]. unfold mem_zero, mem_copy. split; intros x Hx; unfold app_base in *.
  - rewrite decide_False, decide_True by lia. f_equal. lia.
  - by rewrite decide_True by lia.
  - by rewrite !decide_False by lia.
Qed.

Lemma app_next_end meta m i : am_count meta ≤ i →
  AppIterator_next (mkAppIterator meta i) m = Done ((None, mkAppIterator meta i), m).
Proof. intros. unfold AppIterator_next. simpl. by rewrite (proj2 (Z.leb_le _ _)) by lia. Qed.

(** The table of positions is left alone. *)
Definition same_table (meta : AppMeta) : memory → memory → Prop := same_bytes (am_first meta) (8 * (am_count meta + 1)).

Lemma app_pos_same meta m m' i : same_table meta m m' → 0 ≤ i ≤ am_count meta → app_pos meta m' i = app_pos meta m i.
Proof. intros H Hi. apply read_word_ext. eapply same_bytes_sub; [exact H|lia..]. Qed.

Lemma apps_ok_same meta m m' : same_table meta m m' → apps_ok meta m → apps_ok meta m'.
Proof.
  intros H [Hs Hb Hst]. split; [|done..]. intros i Hi. unfold app_size. rewrite !(app_pos_same _ _ _ _ H) by lia. by apply Hs.
Qed.

(** The places of the applications do not reach into the table. *)
Definition table_clear (meta : AppMeta) : Prop := ∀ i, 0 ≤ i < am_count meta →
  app_base meta i + app_room ≤ am_first meta ∨ am_first meta + 8 * (am_count meta + 1) ≤ app_base meta i.

Lemma app_loaded_table meta i m m' : table_clear meta → 0 ≤ i < am_count meta → app_loaded meta i m m' →
  same_table meta m m'.
Proof. intros Hc Hi Hl x Hx. apply (al_frame _ _ _ _ Hl). specialize (Hc i Hi). lia. Qed.

Lemma zero_bss_run fuel ptr e m : e - ptr ≤ Z.of_nat fuel →
  ∃ m', zero_bss_loop fuel ptr e m = Done ((), m') ∧ ∀ x, m' x = if decide (ptr ≤ x < e) then 0 else m x.
Proof.
  revert ptr m. induction fuel as [|fuel IH]; intros ptr m Hf; simpl.
  - rewrite (proj2 (Z.ltb_ge _ _)) by lia. exists m. split; [done|]. intros x. by rewrite decide_False by lia.
  - destruct (ptr <? e) eqn:E; [apply Z.ltb_lt in E|apply Z.ltb_ge in E].
    2: { exists m. split; [done|]. intros x. by rewrite decide_False by lia. }
    destruct (IH (ptr + 1) (mem_write ptr [0] m)) as (m' & -> & Hm); [lia|]. exists m'. split; [done|]. intros x.
    rewrite Hm. unfold mem_write. simpl. destruct (decide (ptr + 1 ≤ x < e)); [by rewrite decide_True by lia|].
    destruct (decide (ptr ≤ x < ptr + 1)).
    + rewrite !decide_True by lia. replace (Z.to_nat (x - ptr)) with 0%nat by lia. done.
    + by rewrite !decide_False by lia.
Qed.

(** The sections of a kernel whose symbols the script puts in order: the iterator lists text, read-only data, data
    (with the zeroed section in it) and the boot stack, in address order and without overlap, from the start of the
    image to its end; [zero_bss] clears exactly the bytes from [sbss] to [ebss], inside the data section. *)
Theorem kernel_sections l m : kl_text l ≤ kl_rodata l → kl_rodata l ≤ kl_data l → kl_data l ≤ kl_sbss l →
  kl_sbss l ≤ kl_ebss l → kl_ebss l ≤ kl_boot l → kl_boot l ≤ kl_end l →
  (kr_title <$> kernel_regions l) = [Text; Rodata; Data; Boot] ∧
  (∀ i j r r', kernel_regions l !! i = Some r → kernel_regions l !! j = Some r' → (i < j)%nat → kr_end r ≤ kr_start r') ∧
  (∀ r, r ∈ kernel_regions l → KernelLayout_start l ≤ kr_start r ≤ kr_end r ∧ kr_end r ≤ KernelLayout_end l) ∧
  ∃ m', KernelLayout_zero_bss (Z.to_nat (kl_ebss l - kl_sbss l)) l m = Done ((), m') ∧
    ∀ x, m' x = if decide (kl_sbss l ≤ x < kl_ebss l) then 0 else m x.
Proof.
  intros. split_and!.
  - done.
  - intros i j r r' Hi Hj Hlt.
    destruct i as [|[|[|[|i]]]]; simplify_eq/=; destruct j as [|[|[|[|j]]]]; simplify_eq/=; simpl; lia.
  - unfold KernelLayout_start, KernelLayout_end. intros r. unfold kernel_regions. simpl.
    rewrite !elem_of_cons, elem_of_nil. intros [->|[->|[->|[->|[]]]]]; simpl; lia.
  - apply zero_bss_run. lia.
Qed.

Definition demo_layout : KernelLayout := mkKernelLayout 0x80200000 0x80208000 0x8020a000 0x8020b000 0x8020b010 0x8020c000 0x80210000.

Lemma kernel_sections_witness : (kr_title <$> kernel_regions demo_layout) = [Text; Rodata; Data; Boot] ∧
  ∃ m', KernelLayout_zero_bss 16 demo_layout (fun _ => 7) = Done ((), m') ∧ m' 0x8020b00f = 0 ∧ m' 0x8020b010 = 7.
Proof.
  destruct (kernel_sections demo_layout (fun _ => 7)) as (H1 & _ & _ & m' & H2 & H3); [vm_compute; discriminate..|].
  split; [exact H1|]. exists m'. split; [exact H2|]. by rewrite !H3.
Defined.
