(* ===== verification/BlockStore.v ===== *)
(** * Typed access to blocks

    The boundary between the file system and the block cache: what
    [get_block_cache(id, dev).lock().read(off, f)] and [.modify(off, f)] do
    ([tg-rcore-tutorial-easy-fs/src/block_cache.rs]), as an interface
    ([BlockStore]) with its laws ([BlockStoreSpec]).  The file system is modelled on
    this interface; [BlockCache] implements it.  The in-memory structures
    [#[repr(C)]] are read from and written to the bytes of a block ([Pod] of [Bytes]). *)

From S2P Require Import Prelude Bytes.

Definition BLOCK_SZ : Z := 512.

(** ** The store *)
Class BlockStore (S : Type) := {
  (** [get_block_cache(id, dev).lock()]: the bytes of the block *)
  acquire : Z → st S (list Z);
  (** the guard and the [Arc] are dropped; [Some b] when the block was borrowed
      mutably and holds [b] now *)
  release : Z → option (list Z) → st S unit;
  (** [block_cache_sync_all] *)
  sync_all : st S unit;
}.

(** The most blocks that can be held at once. *)
Definition BLOCK_CACHE_SIZE : Z := 16.

Class BlockStoreSpec (S : Type) `{!BlockStore S} := {
  (** the logical contents of the device *)
  view : S → Z → list Z;
  (** the blocks whose lock is held *)
  held : S → list Z;
  (** the blocks the device has *)
  valid : Z → Prop;
  store_inv : S → Prop;
  view_ok s id : store_inv s → valid id →
    length (view s id) = 512%nat ∧ Forall is_byte (view s id);
  acquire_spec id s : store_inv s → valid id → id ∉ held s →
    (Z.of_nat (length (held s)) < BLOCK_CACHE_SIZE) →
    ∃ s', acquire id s = Done (view s id, s') ∧ store_inv s' ∧ held s' ≡ₚ id :: held s ∧
      ∀ k, valid k → view s' k = view s k;
  acquire_held id s : store_inv s → id ∈ held s → acquire id s = Hang;
  release_clean id rest s : store_inv s → held s ≡ₚ id :: rest →
    ∃ s', release id None s = Done ((), s') ∧ store_inv s' ∧ held s' ≡ₚ rest ∧
      ∀ k, valid k → view s' k = view s k;
  release_dirty id rest b s : store_inv s → held s ≡ₚ id :: rest →
    length b = 512%nat → Forall is_byte b →
    ∃ s', release id (Some b) s = Done ((), s') ∧ store_inv s' ∧ held s' ≡ₚ rest ∧
      ∀ k, valid k → view s' k = if decide (k = id) then b else view s k;
  sync_spec s : store_inv s → held s = [] →
    ∃ s', sync_all s = Done ((), s') ∧ store_inv s' ∧ held s' = [] ∧
      ∀ k, valid k → view s' k = view s k;
}.

Section Access.
Context {S : Type} `{!BlockStore S}.

(** [BlockCache::get_ref] / [get_mut] check that the value is inside the block. *)
Definition in_block (off : Z) (T : Type) `{!Pod T} : outcome unit :=
  rassert (off + Z.of_nat (size_of T) <=? BLOCK_SZ).

(** [.lock().read(off, f)]. *)
Definition cache_read {T V} (P : Pod T) (id off : Z) (f : T → st S V) : st S V :=
  b ← acquire id;
  lift (in_block off T);;
  v ← f (decode (slice (Z.to_nat off) (size_of T) b));
  release id None;;
  mret v.

(** [.lock().modify(off, f)]. *)
Definition cache_modify {T V} (P : Pod T) (id off : Z) (f : T → st S (V * T)) : st S V :=
  b ← acquire id;
  lift (in_block off T);;
  '(v, x) ← f (decode (slice (Z.to_nat off) (size_of T) b));
  release id (Some (splice (Z.to_nat off) (encode x) b));;
  mret v.

End Access.

(** ** Reasoning about code over a store

    [does m w h a w']: run in any store with contents [w] while the blocks [h] are
    held, [m] returns [a] and leaves contents [w'] and the same blocks held. *)
Section Does.
Context {S : Type} `{!BlockStore S, !BlockStoreSpec S}.
Implicit Types (w : Z → list Z) (h : list Z).

Definition veq w w' : Prop := ∀ k, valid k → w k = w' k.

Definition does {A} (m : st S A) w h (a : A) w' : Prop :=
  ∀ s, store_inv s → held s ≡ₚ h → veq (view s) w →
    ∃ s', m s = Done (a, s') ∧ store_inv s' ∧ held s' ≡ₚ h ∧ veq (view s') w'.

(** The contents with block [id] replaced. *)
Definition set_block (id : Z) (b : list Z) w : Z → list Z :=
  fun k => if decide (k = id) then b else w k.

Definition contents_ok w : Prop := ∀ k, valid k → length (w k) = 512%nat ∧ Forall is_byte (w k).

Lemma set_block_eq id b w : set_block id b w id = b.
Proof. unfold set_block. by rewrite decide_True. Qed.
Lemma set_block_ne id b w k : k ≠ id → set_block id b w k = w k.
Proof. intros. unfold set_block. by rewrite decide_False. Qed.

#[export] Instance veq_equiv : Equivalence veq.
Proof.
  split; [done| |].
  - intros w1 w2 H k Hk. by rewrite H.
  - intros w1 w2 w3 H1 H2 k Hk. by rewrite H1, H2.
Qed.

Lemma does_ret {A} (a : A) w h : does (mret a) w h a w.
Proof. intros s Hi Hh Hv. eauto. Qed.

Lemma does_lift {A} (m : outcome A) a w h : m = Done a → does (lift m) w h a w.
Proof. intros -> s Hi Hh Hv. exists s. done. Qed.

Lemma does_bind {A B} (m : st S A) (k : A → st S B) w w1 w2 h a b :
  does m w h a w1 → does (k a) w1 h b w2 → does (m ≫= k) w h b w2.
Proof.
  intros Hm Hk s Hi Hh Hv. destruct (Hm s Hi Hh Hv) as (s1 & Hr & Hi1 & Hh1 & Hv1).
  destruct (Hk s1 Hi1 Hh1 Hv1) as (s2 & Hr2 & ?). exists s2.
  rewrite (st_bind_run _ _ _ _ _ Hr). auto.
Qed.

Lemma does_ext {A} (m : st S A) w1 w1' w2 w2' h a :
  veq w1 w1' → veq w2 w2' → does m w1 h a w2 → does m w1' h a w2'.
Proof.
  intros H1 H2 Hm s Hi Hh Hv. destruct (Hm s Hi Hh) as (s' & ? & ? & ? & ?); [by rewrite Hv|].
  exists s'. split_and!; [done..|]. by rewrite <-H2.
Qed.

(** What the rules for block access need of the position. *)
Definition free_block (id : Z) h : Prop :=
  valid id ∧ id ∉ h ∧ Z.of_nat (length h) < BLOCK_CACHE_SIZE.
Definition inside (T : Type) `{!Pod T} (off : Z) : Prop :=
  0 ≤ off ∧ off + Z.of_nat (size_of T) ≤ BLOCK_SZ.
Definition at_block {T} (P : Pod T) w (id off : Z) : T :=
  decode (slice (Z.to_nat off) (size_of T) (w id)).
Definition put_block {T} (P : Pod T) (id off : Z) (x : T) w : Z → list Z :=
  set_block id (splice (Z.to_nat off) (encode x) (w id)) w.

Lemma in_block_run off T (P : Pod T) (s : S) : inside T off → lift (in_block off T) s = Done ((), s).
Proof. intros [? ?]. unfold in_block. by rewrite (proj2 (Z.leb_le _ _)) by lia. Qed.

Lemma does_read {T V} (P : Pod T) id off (f : T → st S V) w w' h v :
  free_block id h → inside T off →
  does (f (at_block P w id off)) w (id :: h) v w' →
  does (cache_read P id off f) w h v w'.
Proof.
  intros (Hv & Hn & Hr) Ho Hf s Hi Hh Hw.
  destruct (acquire_spec id s Hi Hv) as (s1 & Ha & Hi1 & Hh1 & Hv1); [by rewrite Hh..|].
  rewrite Hh in Hh1. destruct (Hf s1 Hi1 Hh1) as (s2 & Hrun & Hi2 & Hh2 & Hv2).
  { intros k Hk. by rewrite Hv1, Hw. }
  destruct (release_clean id h s2 Hi2 Hh2) as (s3 & Hrel & Hi3 & Hh3 & Hv3).
  exists s3. split_and!; try done.
  - unfold cache_read. rewrite (st_bind_run _ _ _ _ _ Ha).
    rewrite (st_bind_run _ _ _ _ _ (in_block_run off T P s1 Ho)).
    rewrite (Hw id Hv). unfold at_block in Hrun. rewrite (st_bind_run _ _ _ _ _ Hrun).
    by rewrite (st_bind_run _ _ _ _ _ Hrel).
  - intros k Hk. by rewrite Hv3, Hv2.
Qed.

Lemma does_modify {T V} (P : Pod T) id off (f : T → st S (V * T)) w w' h v x :
  contents_ok w → free_block id h → inside T off → fits x →
  does (f (at_block P w id off)) w (id :: h) (v, x) w' →
  does (cache_modify P id off f) w h v
    (set_block id (splice (Z.to_nat off) (encode x) (w id)) w').
Proof.
  intros Hc (Hv & Hn & Hr) Ho Hfit Hf s Hi Hh Hw.
  destruct (acquire_spec id s Hi Hv) as (s1 & Ha & Hi1 & Hh1 & Hv1); [by rewrite Hh..|].
  rewrite Hh in Hh1. destruct (Hf s1 Hi1 Hh1) as (s2 & Hrun & Hi2 & Hh2 & Hv2).
  { intros k Hk. by rewrite Hv1, Hw. }
  destruct (Hc id Hv) as [Hl Hb]. pose proof (encode_length x Hfit) as Hel.
  destruct Ho as [Ho1 Ho2]. unfold BLOCK_SZ in Ho2.
  destruct (release_dirty id h (splice (Z.to_nat off) (encode x) (w id)) s2 Hi2 Hh2)
    as (s3 & Hrel & Hi3 & Hh3 & Hv3).
  { rewrite splice_length; [done|]. rewrite Hel, Hl. lia. }
  { apply splice_bytes; [by apply encode_bytes|done]. }
  exists s3. split_and!; try done.
  - unfold cache_modify. rewrite (st_bind_run _ _ _ _ _ Ha).
    rewrite (st_bind_run _ _ _ _ _ (in_block_run off T P s1 (conj Ho1 Ho2))).
    rewrite (Hw id Hv). unfold at_block in Hrun. rewrite (st_bind_run _ _ _ _ _ Hrun).
    by rewrite (st_bind_run _ _ _ _ _ Hrel).
  - intros k Hk. rewrite Hv3 by done. unfold set_block. case_decide; [done|]. by apply Hv2.
Qed.

Lemma put_block_ok {T} (P : Pod T) id off x w : contents_ok w → inside T off → fits x →
  contents_ok (put_block P id off x w).
Proof.
  intros Hc [Ho1 Ho2] Hf k Hk. unfold put_block, set_block. case_decide as E; [subst|by apply Hc].
  destruct (Hc id Hk) as [Hl Hb]. unfold BLOCK_SZ in Ho2. split.
  - rewrite splice_length; [done|]. rewrite (encode_length x Hf), Hl. lia.
  - apply splice_bytes; [by apply encode_bytes|done].
Qed.

Lemma at_put_eq {T} (P : Pod T) id off x w : length (w id) = 512%nat → inside T off → fits x →
  at_block P (put_block P id off x w) id off = x.
Proof.
  intros Hl [Ho1 Ho2] Hf. unfold at_block, put_block. rewrite set_block_eq.
  unfold BLOCK_SZ in Ho2. rewrite <-(encode_length x Hf) at 1.
  rewrite slice_splice by (rewrite (encode_length x Hf), Hl; lia). by apply decode_encode.
Qed.

Lemma does_update {T V} (P : Pod T) id off (f : T → st S (V * T)) w h v x :
  contents_ok w → free_block id h → inside T off → fits x →
  does (f (at_block P w id off)) w (id :: h) (v, x) w →
  does (cache_modify P id off f) w h v (put_block P id off x w).
Proof. intros. by apply does_modify. Qed.

Lemma at_block_fits {T} (P : Pod T) id off w : contents_ok w → valid id → inside T off →
  fits (at_block P w id off).
Proof.
  intros Hc Hv [Ho1 Ho2]. destruct (Hc id Hv) as [Hl Hb]. unfold BLOCK_SZ in Ho2.
  apply decode_fits; [by apply Forall_take, Forall_drop|apply slice_length; lia].
Qed.

Lemma put_block_same {T} (P : Pod T) id off w : contents_ok w → valid id → inside T off →
  veq (put_block P id off (at_block P w id off) w) w.
Proof.
  intros Hc Hv [Ho1 Ho2] k Hk. destruct (Hc id Hv) as [Hl Hb]. unfold BLOCK_SZ in Ho2.
  unfold put_block, set_block. case_decide as E; [subst k|done]. unfold at_block.
  rewrite encode_decode; [|by apply Forall_take, Forall_drop|apply slice_length; lia].
  apply splice_slice. lia.
Qed.

(** A block written twice at the same place holds the second value. *)
Lemma put_block_put {T} (P : Pod T) id off x y w : length (w id) = 512%nat → inside T off →
  fits x → fits y → ∀ k, put_block P id off y (put_block P id off x w) k = put_block P id off y w k.
Proof.
  intros Hl [Ho1 Ho2] Hx Hy k. unfold put_block, BLOCK_SZ in *. unfold set_block at 1 4.
  case_decide as E; [|by rewrite set_block_ne]. rewrite set_block_eq. apply list_eq. intros i.
  pose proof (encode_length x Hx). pose proof (encode_length y Hy).
  rewrite !splice_lookup by (rewrite ?splice_length; lia). repeat case_decide; done || lia.
Qed.

(** [m] panics. *)
Definition panics {A} (m : st S A) w h : Prop :=
  ∀ s, store_inv s → held s ≡ₚ h → veq (view s) w → m s = Panic.

Lemma panics_lift {A} w h : panics (lift (A := A) Panic) w h.
Proof. done. Qed.

Lemma panics_bind {A B} (m : st S A) (k : A → st S B) w w1 h a :
  does m w h a w1 → panics (k a) w1 h → panics (m ≫= k) w h.
Proof.
  intros Hm Hk s Hi Hh Hv. destruct (Hm s Hi Hh Hv) as (s1 & Hr & Hi1 & Hh1 & Hv1).
  rewrite (st_bind_run _ _ _ _ _ Hr). auto.
Qed.
Lemma panics_bind_l {A B} (m : st S A) (k : A → st S B) w h :
  panics m w h → panics (m ≫= k) w h.
Proof. intros Hm s Hi Hh Hv. unfold mbind, st_bind. by rewrite (Hm s). Qed.

Lemma panics_modify {T V} (P : Pod T) id off (f : T → st S (V * T)) w h :
  free_block id h → inside T off → panics (f (at_block P w id off)) w (id :: h) →
  panics (cache_modify P id off f) w h.
Proof.
  intros (Hv & Hn & Hr) Ho Hf s Hi Hh Hw.
  destruct (acquire_spec id s Hi Hv) as (s1 & Ha & Hi1 & Hh1 & Hv1); [by rewrite Hh..|].
  rewrite Hh in Hh1. unfold cache_modify. rewrite (st_bind_run _ _ _ _ _ Ha).
  rewrite (st_bind_run _ _ _ _ _ (in_block_run off T P s1 Ho)). rewrite (Hw id Hv).
  unfold mbind at 1, st_bind. unfold at_block in Hf. rewrite (Hf s1); [done..|].
  intros k Hk. by rewrite Hv1, Hw.
Qed.

Lemma at_put_ne {T U} (P : Pod T) (Q : Pod U) id id' off off' x w : id' ≠ id →
  at_block Q (put_block P id off x w) id' off' = at_block Q w id' off'.
Proof. intros. unfold at_block, put_block. by rewrite set_block_ne. Qed.

(** The device alone: contents never change under [sync_all]. *)
Lemma does_sync w : does sync_all w [] () w.
Proof.
  intros s Hi Hh%Permutation_nil_r Hw. destruct (sync_spec s Hi Hh) as (s' & ? & ? & Hh' & Hv).
  exists s'. split_and!; try done; [by rewrite Hh'|]. intros k Hk. by rewrite Hv, Hw.
Qed.
End Does.

(** ** The plainest store: the blocks themselves *)
Record plain := mkPlain { pblocks : list (list Z); pheld : list Z }.

Definition plain_acquire (id : Z) (s : plain) : outcome (list Z * plain) :=
  if bool_decide (id ∈ pheld s) then Hang
  else match pblocks s !! Z.to_nat id with
  | Some b => Done (b, mkPlain (pblocks s) (id :: pheld s))
  | None => Panic
  end.
Definition plain_release (id : Z) (o : option (list Z)) (s : plain) : outcome (unit * plain) :=
  Done ((), mkPlain (match o with Some b => <[Z.to_nat id := b]> (pblocks s) | None => pblocks s end)
    (List.remove Z.eq_dec id (pheld s))).
Definition plain_store : BlockStore plain :=
  {| acquire := plain_acquire; release := plain_release; sync_all := mret () |}.
Definition plain_disk (n : nat) : plain := mkPlain (replicate n (replicate 512 0)) [].
