(* ===== verification/BlockCache.v ===== *)
(** * The block cache

    [tg-rcore-tutorial-easy-fs/src/{block_dev,block_cache}.rs]: at most sixteen
    blocks of the device are kept in memory, shared through reference-counted,
    locked entries; an entry is written back when it is synchronised or evicted.
    The theorem of the file: the cache is transparent, i.e. it implements the
    interface [BlockStore] on top of any device that stores what is written to it. *)

From S2P Require Import Prelude Bytes BlockStore.

(** ** The device (trait [BlockDevice], implemented outside the library) *)
Class BlockDevice (D : Type) := {
  (** the buffer as [read_block] leaves it *)
  read_block : Z → st D (list Z);
  write_block : Z → list Z → st D unit;
}.

(** What the file system relies on: a device with the blocks [dev_valid] returns
    what was last written. *)
Class BlockDeviceSpec (D : Type) `{!BlockDevice D} := {
  dev_valid : Z → Prop;
  dev_inv : D → Prop;
  dev_block : D → Z → list Z;
  dev_block_ok d id : dev_inv d → dev_valid id →
    length (dev_block d id) = 512%nat ∧ Forall is_byte (dev_block d id);
  read_block_spec d id : dev_inv d → dev_valid id →
    ∃ d', read_block id d = Done (dev_block d id, d') ∧ dev_inv d' ∧
      ∀ k, dev_valid k → dev_block d' k = dev_block d k;
  write_block_spec d id b : dev_inv d → dev_valid id → length b = 512%nat → Forall is_byte b →
    ∃ d', write_block id b d = Done ((), d') ∧ dev_inv d' ∧
      ∀ k, dev_valid k → dev_block d' k = if decide (k = id) then b else dev_block d k;
}.

(** ** Cached blocks *)
Record BlockCache := mkBlockCache {
  cache : list Z;
  block_id : Z;
  modified : bool;
}.

(** An entry of the manager's queue: the key, the block behind the
    [Arc<Mutex<_>>], the number of [Arc]s to it (the queue's own included) and
    whether the mutex is locked. *)
Record CacheSlot := mkSlot {
  slot_id : Z;
  slot_cache : BlockCache;
  strong_count : Z;
  locked : bool;
}.

Record CacheState (D : Type) := mkCacheState {
  queue : list CacheSlot;
  device : D;
}.
Arguments mkCacheState {D} queue device.
Arguments queue {D} _.
Arguments device {D} _.

Definition slot_find (id : Z) (q : list CacheSlot) : option CacheSlot :=
  snd <$> list_find (fun e => slot_id e = id) q.

(** The object behind an [Arc] is updated in place. *)
Fixpoint slot_update (id : Z) (f : CacheSlot → CacheSlot) (q : list CacheSlot) : list CacheSlot :=
  match q with
  | [] => []
  | e :: q' => if decide (slot_id e = id) then f e :: q' else e :: slot_update id f q'
  end.

Section Cache.
Context {D : Type} `{!BlockDevice D}.

Definition on_device {A} (m : st D A) : st (CacheState D) A := fun s =>
  '(a, d) ← m (device s); Done (a, mkCacheState (queue s) d).
Definition get_queue : st (CacheState D) (list CacheSlot) := fun s => Done (queue s, s).
Definition put_queue (q : list CacheSlot) : st (CacheState D) unit := fun s =>
  Done ((), mkCacheState q (device s)).

Definition BlockCache_new (id : Z) : st (CacheState D) BlockCache :=
  buf ← on_device (read_block id);
  mret (mkBlockCache buf id false).

Definition BlockCache_sync (c : BlockCache) : st (CacheState D) BlockCache :=
  if modified c then
    on_device (write_block (block_id c) (cache c));;
    mret (mkBlockCache (cache c) (block_id c) false)
  else mret c.

Definition BlockCache_drop (c : BlockCache) : st (CacheState D) unit :=
  BlockCache_sync c;; mret ().

(** The replacement step of [get_block_cache]: when the queue is full, the first
    block only the queue owns is dropped. *)
Definition cache_make_room : st (CacheState D) unit :=
  q ← get_queue;
  if Z.of_nat (length q) =? BLOCK_CACHE_SIZE then
    match list_find (fun e => strong_count e = 1) q with
    | Some (idx, e) => put_queue (delete idx q);; BlockCache_drop (slot_cache e)
    | None => lift Panic
    end
  else mret ().

(** [BlockCacheManager::get_block_cache]; the [Arc] it returns is known by the id. *)
Definition get_block_cache (id : Z) : st (CacheState D) unit :=
  q ← get_queue;
  match slot_find id q with
  | Some _ =>
      put_queue (slot_update id
        (fun e => mkSlot (slot_id e) (slot_cache e) (strong_count e + 1) (locked e)) q)
  | None =>
      cache_make_room;;
      c ← BlockCache_new id;
      q' ← get_queue;
      put_queue (q' ++ [mkSlot id c 2 false])
  end.

(** [Mutex::lock] on the block behind the [Arc]. *)
Definition cache_lock (id : Z) : st (CacheState D) (list Z) :=
  q ← get_queue;
  e ← lift (unwrap (slot_find id q));
  if locked e then lift Hang
  else
    put_queue (slot_update id
      (fun e => mkSlot (slot_id e) (slot_cache e) (strong_count e) true) q);;
    mret (cache (slot_cache e)).

Definition cache_acquire (id : Z) : st (CacheState D) (list Z) :=
  get_block_cache id;; cache_lock id.

(** The end of the statement: [get_mut] has marked the block as modified if it
    was borrowed mutably, the guard unlocks, the [Arc] is dropped. *)
Definition slot_release (o : option (list Z)) (e : CacheSlot) : CacheSlot :=
  let c := slot_cache e in
  mkSlot (slot_id e)
    (match o with Some b => mkBlockCache b (block_id c) true | None => c end)
    (strong_count e - 1) false.

Definition cache_release (id : Z) (o : option (list Z)) : st (CacheState D) unit :=
  q ← get_queue; put_queue (slot_update id (slot_release o) q).

(** [block_cache_sync_all]. *)
Fixpoint sync_slots (q : list CacheSlot) : st (CacheState D) (list CacheSlot) :=
  match q with
  | [] => mret []
  | e :: q' =>
      if locked e then lift Hang
      else
        c ← BlockCache_sync (slot_cache e);
        r ← sync_slots q';
        mret (mkSlot (slot_id e) c (strong_count e) (locked e) :: r)
  end.
Definition block_cache_sync_all : st (CacheState D) unit :=
  q ← get_queue; r ← sync_slots q; put_queue r.

#[export] Instance cache_store : BlockStore (CacheState D) := {|
  acquire := cache_acquire;
  release := cache_release;
  sync_all := block_cache_sync_all;
|}.

End Cache.

(** ** Lookups in the queue *)
Definition ids (q : list CacheSlot) : list Z := slot_id <$> q.
Definition held_ids (q : list CacheSlot) : list Z :=
  slot_id <$> filter (fun e => locked e = true) q.

Lemma slot_find_cons id e q :
  slot_find id (e :: q) = if decide (slot_id e = id) then Some e else slot_find id q.
Proof.
  unfold slot_find. simpl. case_decide; [done|].
  by destruct (list_find _ q) as [[]|].
Qed.

Lemma slot_find_None id q : slot_find id q = None ↔ id ∉ ids q.
Proof.
  induction q as [|e q IH]; [simpl; set_solver|]. rewrite slot_find_cons. unfold ids in *. simpl.
  rewrite not_elem_of_cons. case_decide; naive_solver.
Qed.

Lemma slot_find_app id q1 q2 :
  slot_find id (q1 ++ q2) = match slot_find id q1 with Some e => Some e | None => slot_find id q2 end.
Proof.
  induction q1 as [|e q1 IH]; [done|]. simpl app. rewrite !slot_find_cons. by case_decide.
Qed.

(** An entry found splits the queue, and an update replaces it where it is. *)
Lemma slot_find_split id q e : slot_find id q = Some e →
  slot_id e = id ∧ ∃ q1 q2, q = q1 ++ e :: q2 ∧ id ∉ ids q1 ∧
    ∀ f, slot_update id f q = q1 ++ f e :: q2.
Proof.
  induction q as [|e' q IH]; [done|]. rewrite slot_find_cons. intros H. case_decide as Hd.
  - simplify_eq. split; [done|]. exists [], q. split_and!; [done|set_solver|].
    intros f. simpl. by rewrite decide_True.
  - destruct (IH H) as (? & q1 & q2 & -> & Hn & Hf). split; [done|].
    exists (e' :: q1), q2. split_and!; [done| |].
    + unfold ids in *. simpl. rewrite not_elem_of_cons. naive_solver.
    + intros f. simpl. rewrite decide_False by done. by rewrite Hf.
Qed.

Lemma slot_find_at e q1 q2 : slot_id e ∉ ids q1 → slot_find (slot_id e) (q1 ++ e :: q2) = Some e.
Proof.
  intros Hn. by rewrite slot_find_app, (proj2 (slot_find_None _ _) Hn), slot_find_cons, decide_True.
Qed.
Lemma slot_update_at f e q1 q2 : slot_id e ∉ ids q1 →
  slot_update (slot_id e) f (q1 ++ e :: q2) = q1 ++ f e :: q2.
Proof.
  unfold ids. induction q1 as [|y q1 IH]; simpl; [by rewrite decide_True|].
  rewrite not_elem_of_cons. intros [Hne Hn]. rewrite decide_False by done. f_equal. by apply IH.
Qed.

Lemma ids_app q1 q2 : ids (q1 ++ q2) = ids q1 ++ ids q2.
Proof. apply fmap_app. Qed.
Lemma held_app q1 q2 : held_ids (q1 ++ q2) = held_ids q1 ++ held_ids q2.
Proof. unfold held_ids. by rewrite filter_app, fmap_app. Qed.
Lemma held_cons e q :
  held_ids (e :: q) = if locked e then slot_id e :: held_ids q else held_ids q.
Proof. unfold held_ids. rewrite filter_cons. destruct (locked e); by case_decide. Qed.

(** ** Invariant *)
Section CacheSpec.
Context {D : Type} `{!BlockDevice D, !BlockDeviceSpec D}.

Record slot_ok (d : D) (e : CacheSlot) : Prop := {
  so_valid : dev_valid (slot_id e);
  so_id : block_id (slot_cache e) = slot_id e;
  so_len : length (cache (slot_cache e)) = 512%nat;
  so_bytes : Forall is_byte (cache (slot_cache e));
  (** a block that is not marked is what the device has *)
  so_clean : modified (slot_cache e) = false → cache (slot_cache e) = dev_block d (slot_id e);
  (** the queue and the code that holds the lock own the block *)
  so_count : strong_count e = if locked e then 2 else 1;
}.

Record cache_inv (s : CacheState D) : Prop := {
  ci_nodup : NoDup (ids (queue s));
  ci_len : Z.of_nat (length (queue s)) ≤ BLOCK_CACHE_SIZE;
  ci_slots : Forall (slot_ok (device s)) (queue s);
  ci_dev : dev_inv (device s);
}.

Definition cache_view (s : CacheState D) (id : Z) : list Z :=
  match slot_find id (queue s) with
  | Some e => cache (slot_cache e)
  | None => dev_block (device s) id
  end.
Definition cache_held (s : CacheState D) : list Z := held_ids (queue s).

Lemma cache_held_find id s : cache_inv s → id ∈ cache_held s →
  ∃ e, slot_find id (queue s) = Some e ∧ locked e = true.
Proof.
  intros [Hn _ _ _] (e & -> & He)%list_elem_of_fmap. apply list_elem_of_filter in He as [Hl He].
  exists e. split; [|done]. apply list_elem_of_split in He as (q1 & q2 & E). rewrite E in *.
  rewrite slot_find_app. rewrite ids_app in Hn. apply NoDup_app in Hn as (_ & Hn & _).
  rewrite (proj2 (slot_find_None _ _)), slot_find_cons, decide_True; [done|done|].
  intros H. apply (Hn _ H). unfold ids. simpl. set_solver.
Qed.

Lemma cache_view_ok s id : cache_inv s → dev_valid id →
  length (cache_view s id) = 512%nat ∧ Forall is_byte (cache_view s id).
Proof.
  intros [_ _ Hs Hd] Hv. unfold cache_view. destruct (slot_find id (queue s)) as [e|] eqn:E.
  - apply slot_find_split in E as (_ & q1 & q2 & E & _). rewrite E in Hs.
    apply Forall_app in Hs as [_ Hs]. inversion Hs as [|?? [] _]. done.
  - by apply dev_block_ok.
Qed.

(** An entry may be replaced by one that is well formed, in place. *)
Lemma cache_inv_replace s q1 e e' q2 : cache_inv s → queue s = q1 ++ e :: q2 →
  slot_id e' = slot_id e → slot_ok (device s) e' →
  cache_inv (mkCacheState (q1 ++ e' :: q2) (device s)).
Proof.
  intros [Hn Hl Hs Hd] E Hi He. rewrite E in *. split; simpl; [| | |done].
  - revert Hn. rewrite !ids_app. unfold ids. simpl. by rewrite Hi.
  - revert Hl. rewrite !length_app. done.
  - rewrite Forall_app, Forall_cons in *. naive_solver.
Qed.

Lemma cache_view_replace s q1 e e' q2 k : queue s = q1 ++ e :: q2 →
  slot_id e' = slot_id e → slot_id e ∉ ids q1 →
  cache_view (mkCacheState (q1 ++ e' :: q2) (device s)) k =
    if decide (k = slot_id e) then cache (slot_cache e') else cache_view s k.
Proof.
  intros E Hi Hn. unfold cache_view. simpl. rewrite E, !slot_find_app, !slot_find_cons, Hi.
  case_decide as Hk; [subst k|by rewrite decide_False by congruence].
  apply slot_find_None in Hn. by rewrite Hn, decide_True.
Qed.

Lemma cache_slot_at s q1 e q2 : cache_inv s → queue s = q1 ++ e :: q2 → slot_ok (device s) e.
Proof.
  intros [_ _ Hs _] E. rewrite E in Hs. apply Forall_app in Hs as [_ Hs]. by inversion Hs.
Qed.

(** ** Writing back *)
Lemma slot_ok_device d d' e :
  (∀ k, dev_valid k → dev_block d' k = dev_block d k) → slot_ok d e → slot_ok d' e.
Proof.
  intros Hd [? ? ? ? Hc ?]. split; try done. intros Hm. rewrite (Hc Hm). symmetry. by apply Hd.
Qed.

(** Writing a block back leaves the entries of other blocks well formed. *)
Lemma slot_ok_write d d' id b e :
  (∀ k, dev_valid k → dev_block d' k = if decide (k = id) then b else dev_block d k) →
  slot_id e ≠ id → slot_ok d e → slot_ok d' e.
Proof.
  intros Hd Hne [? ? ? ? Hc ?]. split; try done. intros Hm. rewrite (Hc Hm), Hd by done.
  by rewrite decide_False.
Qed.

Lemma BlockCache_sync_spec e q (d : D) : dev_inv d → slot_ok d e →
  ∃ d', BlockCache_sync (slot_cache e) (mkCacheState q d)
      = Done (mkBlockCache (cache (slot_cache e)) (slot_id e) false, mkCacheState q d') ∧
    dev_inv d' ∧
    ∀ k, dev_valid k →
      dev_block d' k = if decide (k = slot_id e) then cache (slot_cache e) else dev_block d k.
Proof.
  intros Hd [Hv Hi Hl Hb Hc Hn]. unfold BlockCache_sync. destruct (modified (slot_cache e)) eqn:Hm.
  - destruct (write_block_spec d _ _ Hd Hv Hl Hb) as (d' & Hw & Hd' & Hk). exists d'.
    split_and!; [|done..]. unfold on_device, mbind, st_bind. simpl. rewrite Hi, Hw. done.
  - exists d. split_and!; [|done|].
    + rewrite <-Hi. destruct (slot_cache e); simpl in *. by subst.
    + intros k Hk. case_decide; [subst|done]. by rewrite Hc.
Qed.

Lemma BlockCache_new_spec id q (d : D) : dev_inv d → dev_valid id →
  ∃ d', BlockCache_new id (mkCacheState q d)
      = Done (mkBlockCache (dev_block d id) id false, mkCacheState q d') ∧
    dev_inv d' ∧ ∀ k, dev_valid k → dev_block d' k = dev_block d k.
Proof.
  intros Hd Hv. destruct (read_block_spec d id Hd Hv) as (d' & Hr & Hd' & Hk). exists d'.
  split_and!; [|done..]. unfold BlockCache_new, on_device, mbind, st_bind. simpl. by rewrite Hr.
Qed.

(** ** Replacement *)
Lemma all_shared_held (d : D) q : Forall (slot_ok d) q → Forall (fun e => strong_count e ≠ 1) q →
  held_ids q = ids q.
Proof.
  induction q as [|e q IH]; [done|]. intros [He Hq]%Forall_cons [Hc Hqc]%Forall_cons.
  rewrite held_cons, IH by done. destruct He as [_ _ _ _ _ Hn]. by destruct (locked e).
Qed.

(** The queue without an entry that has been written back. *)
Lemma cache_evicted q1 e q2 (d d' : D) : cache_inv (mkCacheState (q1 ++ e :: q2) d) →
  strong_count e = 1 → dev_inv d' →
  (∀ k, dev_valid k →
    dev_block d' k = if decide (k = slot_id e) then cache (slot_cache e) else dev_block d k) →
  cache_inv (mkCacheState (q1 ++ q2) d') ∧
  cache_held (mkCacheState (q1 ++ q2) d') = cache_held (mkCacheState (q1 ++ e :: q2) d) ∧
  ∀ k, dev_valid k →
    cache_view (mkCacheState (q1 ++ q2) d') k = cache_view (mkCacheState (q1 ++ e :: q2) d) k.
Proof.
  intros Hinv Hc Hd' Hk. pose proof (cache_slot_at _ q1 e q2 Hinv eq_refl) as He. simpl in He.
  destruct Hinv as [Hn Hl Hs Hd]. simpl in *.
  assert (slot_id e ∉ ids (q1 ++ q2)) as Hne.
  { rewrite ids_app in *. unfold ids in *. simpl in Hn. rewrite NoDup_app, NoDup_cons in Hn. set_solver. }
  split_and!; [split; simpl| |].
  - rewrite ids_app in *. unfold ids in *. simpl in Hn. rewrite NoDup_app, NoDup_cons in *. set_solver.
  - rewrite length_app in *. simpl in Hl. lia.
  - rewrite Forall_app, Forall_cons in Hs. apply Forall_forall. intros x Hx.
    apply (slot_ok_write d d' (slot_id e) (cache (slot_cache e))); [done| |].
    + intros Hxe. apply Hne. rewrite <-Hxe. by apply list_elem_of_fmap_2.
    + destruct Hs as (H1 & _ & H2). rewrite Forall_forall in H1, H2. set_solver.
  - done.
  - unfold cache_held. simpl. rewrite !held_app, held_cons.
    destruct He as [_ _ _ _ _ Hcc]. destruct (locked e); [lia|done].
  - intros k Hv. unfold cache_view. simpl. rewrite !slot_find_app, slot_find_cons, Hk by done.
    rewrite ids_app, not_elem_of_app in Hne. destruct Hne as [Hn1 Hn2].
    apply slot_find_None in Hn1, Hn2. case_decide as Hke.
    + subst k. by rewrite Hn1, Hn2, decide_True.
    + by rewrite decide_False by congruence.
Qed.

Lemma cache_make_room_spec s : cache_inv s →
  Z.of_nat (length (cache_held s)) < BLOCK_CACHE_SIZE →
  ∃ s', cache_make_room s = Done ((), s') ∧ cache_inv s' ∧
    Z.of_nat (length (queue s')) < BLOCK_CACHE_SIZE ∧
    cache_held s' = cache_held s ∧ (∀ id, id ∉ ids (queue s) → id ∉ ids (queue s')) ∧
    ∀ k, dev_valid k → cache_view s' k = cache_view s k.
Proof.
  intros Hinv Hh. pose proof Hinv as [Hn Hl Hs Hd]. destruct s as [q d]. simpl in *.
  unfold cache_make_room, get_queue, mbind, st_bind. simpl.
  destruct (Z.of_nat (length q) =? BLOCK_CACHE_SIZE) eqn:E.
  2:{ apply Z.eqb_neq in E. exists (mkCacheState q d). split_and!; try done. simpl. lia. }
  apply Z.eqb_eq in E. destruct (list_find _ q) as [[i e]|] eqn:F.
  2:{ exfalso. apply list_find_None in F. unfold cache_held in Hh. simpl in Hh.
      rewrite (all_shared_held d q Hs F) in Hh. unfold ids in Hh. rewrite length_fmap in Hh. lia. }
  apply list_find_Some in F as (Hi & Hc & _).
  destruct (list_elem_of_split_length q i e Hi) as (q1 & q2 & -> & Hq1).
  pose proof (cache_slot_at _ q1 e q2 Hinv eq_refl) as He. simpl in He.
  destruct (BlockCache_sync_spec e (q1 ++ q2) d Hd He) as (d' & Hrun & Hd' & Hk).
  rewrite Hq1, delete_middle. unfold put_queue, BlockCache_drop, mbind, st_bind. simpl. rewrite Hrun.
  destruct (cache_evicted q1 e q2 d d' Hinv Hc Hd' Hk) as (Hinv' & Hh' & Hv').
  exists (mkCacheState (q1 ++ q2) d'). split_and!; try done.
  - simpl. rewrite length_app in *. simpl in E. lia.
  - intros id. simpl. rewrite !ids_app. unfold ids. simpl. set_solver.
Qed.

(** ** The operations *)
Lemma cache_push id (d d' : D) q : cache_inv (mkCacheState q d) → dev_valid id → id ∉ ids q →
  Z.of_nat (length q) < BLOCK_CACHE_SIZE → dev_inv d' →
  (∀ k, dev_valid k → dev_block d' k = dev_block d k) →
  let s' := mkCacheState (q ++ [mkSlot id (mkBlockCache (dev_block d id) id false) 2 true]) d' in
  cache_inv s' ∧ cache_held s' ≡ₚ id :: held_ids q ∧
  ∀ k, dev_valid k → cache_view s' k = cache_view (mkCacheState q d) k.
Proof.
  intros [Hn Hl Hs Hd] Hv Hi Hq Hd' Hk. simpl in *. split_and!; [split; simpl| |].
  - rewrite ids_app. unfold ids in *. simpl. rewrite NoDup_app. split_and!; [done|set_solver|].
    apply NoDup_singleton.
  - rewrite length_app. simpl. lia.
  - apply Forall_app. split.
    + eapply Forall_impl; [exact Hs|]. intros e. by apply slot_ok_device.
    + constructor; [|done]. destruct (dev_block_ok d id Hd Hv).
      split; simpl; try done. intros _. by rewrite Hk.
  - done.
  - unfold cache_held. simpl. rewrite held_app, held_cons. simpl. solve_Permutation.
  - intros k Hvk. unfold cache_view. simpl. rewrite slot_find_app.
    destruct (slot_find k q); [done|]. rewrite slot_find_cons. simpl.
    case_decide; [by subst|]. by apply Hk.
Qed.

Lemma cache_lock_at q1 e q2 (d : D) : slot_id e ∉ ids q1 → locked e = false →
  cache_lock (slot_id e) (mkCacheState (q1 ++ e :: q2) d) = Done (cache (slot_cache e),
    mkCacheState (q1 ++ mkSlot (slot_id e) (slot_cache e) (strong_count e) true :: q2) d).
Proof.
  intros Hn Hl. unfold cache_lock, get_queue, put_queue, mbind, st_bind. simpl.
  rewrite slot_find_at by done. simpl. by rewrite Hl, slot_update_at by done.
Qed.

Lemma cache_acquire_hit id e s : cache_inv s → slot_find id (queue s) = Some e → locked e = false →
  ∃ s', cache_acquire id s = Done (cache_view s id, s') ∧ cache_inv s' ∧
    cache_held s' ≡ₚ id :: cache_held s ∧ ∀ k, cache_view s' k = cache_view s k.
Proof.
  intros Hinv E Hl. destruct (slot_find_split _ _ _ E) as (<- & q1 & q2 & Eq & Hn & Hu).
  pose proof (cache_slot_at s q1 e q2 Hinv Eq) as He.
  set (e' := mkSlot (slot_id e) (slot_cache e) (strong_count e + 1) true).
  exists (mkCacheState (q1 ++ e' :: q2) (device s)). split_and!.
  - unfold cache_acquire, get_block_cache, get_queue, put_queue, mbind, st_bind. rewrite E, Hu.
    rewrite (cache_lock_at q1 (mkSlot (slot_id e) (slot_cache e) (strong_count e + 1) (locked e)))
      by done. unfold cache_view. by rewrite E.
  - apply (cache_inv_replace s q1 e); [done..|].
    destruct He as [? ? ? ? Hc Hcount]. rewrite Hl in Hcount. split; simpl; try done. lia.
  - unfold cache_held. rewrite Eq. simpl. rewrite !held_app, !held_cons, Hl. simpl. solve_Permutation.
  - intros k. rewrite (cache_view_replace s q1 e) by done.
    case_decide; [|done]. subst k. unfold cache_view. by rewrite E.
Qed.

Lemma cache_acquire_miss id s : cache_inv s → dev_valid id → slot_find id (queue s) = None →
  Z.of_nat (length (cache_held s)) < BLOCK_CACHE_SIZE →
  ∃ s', cache_acquire id s = Done (cache_view s id, s') ∧ cache_inv s' ∧
    cache_held s' ≡ₚ id :: cache_held s ∧ ∀ k, dev_valid k → cache_view s' k = cache_view s k.
Proof.
  intros Hinv Hv E Hroom.
  destruct (cache_make_room_spec s Hinv Hroom) as ([q d] & Hr & Hinv1 & Hlen & Hh1 & Hids & Hv1).
  pose proof (Hids id (proj1 (slot_find_None _ _) E)) as Hq. simpl in *.
  destruct (BlockCache_new_spec id q d (ci_dev _ Hinv1) Hv) as (d' & Hnew & Hd' & Hk).
  destruct (cache_push id d d' q Hinv1 Hv Hq Hlen Hd' Hk) as (Hinv2 & Hh2 & Hv2).
  eexists. split_and!; [|exact Hinv2|by rewrite Hh2, <-Hh1|by intros k Hvk; rewrite Hv2, Hv1].
  unfold cache_acquire, get_block_cache, get_queue, put_queue, mbind, st_bind. rewrite E, Hr, Hnew. simpl.
  rewrite (cache_lock_at q (mkSlot id _ 2 false) []) by done. simpl. do 2 f_equal.
  rewrite <-Hv1 by done. unfold cache_view. simpl. by rewrite (proj2 (slot_find_None _ _) Hq).
Qed.

Lemma cache_acquire_spec id s : cache_inv s → dev_valid id → id ∉ cache_held s →
  Z.of_nat (length (cache_held s)) < BLOCK_CACHE_SIZE →
  ∃ s', cache_acquire id s = Done (cache_view s id, s') ∧ cache_inv s' ∧
    cache_held s' ≡ₚ id :: cache_held s ∧ ∀ k, dev_valid k → cache_view s' k = cache_view s k.
Proof.
  intros Hinv Hv Hn Hr. destruct (slot_find id (queue s)) as [e|] eqn:E; [|by apply cache_acquire_miss].
  destruct (locked e) eqn:Hl.
  - exfalso. apply Hn. destruct (slot_find_split _ _ _ E) as (<- & q1 & q2 & Eq & _).
    unfold cache_held. rewrite Eq, held_app, held_cons, Hl. set_solver.
  - destruct (cache_acquire_hit id e s Hinv E Hl) as (s' & ? & ? & ? & ?). eauto 10.
Qed.

Lemma cache_acquire_locked id s : cache_inv s → id ∈ cache_held s → cache_acquire id s = Hang.
Proof.
  intros Hinv Hh. destruct (cache_held_find id s Hinv Hh) as (e & E & Hl).
  destruct (slot_find_split _ _ _ E) as (<- & q1 & q2 & Eq & Hn & Hu).
  unfold cache_acquire, get_block_cache, cache_lock, get_queue, put_queue, mbind, st_bind.
  rewrite E, Hu. simpl.
  rewrite (slot_find_at (mkSlot (slot_id e) (slot_cache e) (strong_count e + 1) (locked e))) by done.
  simpl. by rewrite Hl.
Qed.

Lemma cache_release_at id q1 e q2 o s : cache_inv s → queue s = q1 ++ e :: q2 → slot_id e = id →
  id ∉ ids q1 → locked e = true →
  (∀ b, o = Some b → length b = 512%nat ∧ Forall is_byte b) →
  let s' := mkCacheState (q1 ++ slot_release o e :: q2) (device s) in
  cache_release id o s = Done ((), s') ∧ cache_inv s' ∧ cache_held s ≡ₚ id :: cache_held s' ∧
  ∀ k, cache_view s' k =
    if decide (k = id) then default (cache (slot_cache e)) o else cache_view s k.
Proof.
  intros Hinv Eq Hi Hn Hl Ho. pose proof (cache_slot_at s q1 e q2 Hinv Eq) as He. subst id.
  destruct He as [? ? ? ? Hc Hcount]. rewrite Hl in Hcount. split_and!.
  - unfold cache_release, get_queue, put_queue, mbind, st_bind. by rewrite Eq, slot_update_at.
  - apply (cache_inv_replace s q1 e); [done..|].
    destruct o as [b|]; simpl; [destruct (Ho b eq_refl)|]; split; simpl; try done; lia.
  - unfold cache_held. rewrite Eq. simpl. rewrite !held_app, !held_cons, Hl. simpl. solve_Permutation.
  - intros k. rewrite (cache_view_replace s q1 e) by done. case_decide; [|done]. by destruct o.
Qed.

Lemma cache_release_spec id rest o s : cache_inv s → cache_held s ≡ₚ id :: rest →
  (∀ b, o = Some b → length b = 512%nat ∧ Forall is_byte b) →
  ∃ s', cache_release id o s = Done ((), s') ∧ cache_inv s' ∧ cache_held s' ≡ₚ rest ∧
    ∀ k, cache_view s' k = if decide (k = id) then default (cache_view s id) o else cache_view s k.
Proof.
  intros Hinv Hh Ho. destruct (cache_held_find id s Hinv) as (e & E & Hl).
  { rewrite Hh. set_solver. }
  destruct (slot_find_split _ _ _ E) as (Hi & q1 & q2 & Eq & Hn & Hu).
  destruct (cache_release_at id q1 e q2 o s Hinv Eq Hi Hn Hl Ho) as (Hr & Hinv' & Hh' & Hv').
  eexists. split_and!; [exact Hr|done| |].
  - apply (Permutation_cons_inv (a := id)). by rewrite <-Hh', Hh.
  - intros k. rewrite Hv'. case_decide; [|done]. unfold cache_view. by rewrite E.
Qed.

(** [block_cache_sync_all]: every block is written back and stays cached. *)
Definition synced (e : CacheSlot) : CacheSlot :=
  mkSlot (slot_id e) (mkBlockCache (cache (slot_cache e)) (slot_id e) false)
    (strong_count e) (locked e).

Lemma sync_slots_spec q r (d : D) : NoDup (ids q) → Forall (slot_ok d) q → held_ids q = [] →
  dev_inv d →
  ∃ d', sync_slots q (mkCacheState r d) = Done (synced <$> q, mkCacheState r d') ∧ dev_inv d' ∧
    ∀ k, dev_valid k → dev_block d' k =
      match slot_find k q with Some e => cache (slot_cache e) | None => dev_block d k end.
Proof.
  revert d. induction q as [|e q IH]; intros d Hn Hs Hh Hd; [by exists d|].
  apply Forall_cons in Hs as [He Hs]. rewrite held_cons in Hh.
  unfold ids in Hn. apply NoDup_cons in Hn as [Hne Hn]. destruct (locked e) eqn:Hl; [done|].
  destruct (BlockCache_sync_spec e r d Hd He) as (d1 & Hr1 & Hd1 & Hk1).
  destruct (IH d1) as (d2 & Hr2 & Hd2 & Hk2); [done| |done|done|].
  { rewrite Forall_forall in *. intros x Hx.
    apply (slot_ok_write d d1 (slot_id e) (cache (slot_cache e))); [done| |by apply Hs].
    intros Hxe. apply Hne. rewrite <-Hxe. by apply list_elem_of_fmap_2. }
  exists d2. split_and!; [|done|].
  - simpl. rewrite Hl. unfold mbind, st_bind. rewrite Hr1, Hr2. unfold synced at 2. by rewrite Hl.
  - intros k Hk. rewrite Hk2, slot_find_cons by done. case_decide as Hd'.
    + subst k. rewrite (proj2 (slot_find_None _ _) Hne), Hk1 by done. by rewrite decide_True.
    + destruct (slot_find k q); [done|]. rewrite Hk1 by done. by rewrite decide_False by congruence.
Qed.

Lemma slot_find_synced k q : slot_find k (synced <$> q) = synced <$> slot_find k q.
Proof.
  induction q as [|e q IH]; [done|]. rewrite fmap_cons, !slot_find_cons. simpl. by case_decide.
Qed.

Lemma cache_sync_spec s : cache_inv s → cache_held s = [] →
  ∃ s', block_cache_sync_all s = Done ((), s') ∧ cache_inv s' ∧ cache_held s' = [] ∧
    ∀ k, dev_valid k → cache_view s' k = cache_view s k ∧ dev_block (device s') k = cache_view s k.
Proof.
  intros [Hn Hl Hs Hd] Hh. destruct s as [q d]. simpl in *.
  destruct (sync_slots_spec q q d Hn Hs Hh Hd) as (d' & Hr & Hd' & Hk).
  exists (mkCacheState (synced <$> q) d'). split_and!.
  - unfold block_cache_sync_all, get_queue, put_queue, mbind, st_bind. simpl. by rewrite Hr.
  - split; simpl; [| | |done].
    + unfold ids in *. rewrite <-list_fmap_compose. done.
    + by rewrite length_fmap.
    + apply Forall_fmap. rewrite Forall_forall in *. intros e He. destruct (Hs e He) as [? ? ? ? Hc ?].
      split; simpl; try done. intros _. rewrite Hk by done.
      apply list_elem_of_split in He as (q1 & q2 & ->). rewrite slot_find_at; [done|].
      rewrite ids_app in Hn. unfold ids in *. simpl in Hn. rewrite NoDup_app in Hn. set_solver.
  - rewrite <-Hh. unfold cache_held. simpl. clear. induction q as [|e q IH]; [done|].
    rewrite fmap_cons, !held_cons, IH. done.
  - intros k Hv. unfold cache_view. simpl. rewrite slot_find_synced, Hk by done.
    by destruct (slot_find k q).
Qed.

(** The cache implements the store interface. *)
#[export] Instance cache_store_spec : BlockStoreSpec (CacheState D).
Proof.
  refine {| view := cache_view; held := cache_held; valid := dev_valid; store_inv := cache_inv |}.
  - apply cache_view_ok.
  - apply cache_acquire_spec.
  - apply cache_acquire_locked.
  - intros id rest s Hinv Hh.
    destruct (cache_release_spec id rest None s Hinv Hh ltac:(done)) as (s' & ? & ? & ? & Hv).
    exists s'. split_and!; [done..|]. intros k _. rewrite Hv. by case_decide; subst.
  - intros id rest b s Hinv Hh Hb1 Hb2.
    destruct (cache_release_spec id rest (Some b) s Hinv Hh) as (s' & ? & ? & ? & Hv).
    { by intros b' [= <-]. }
    exists s'. split_and!; [done..|]. intros k _. by rewrite Hv.
  - intros s Hinv Hh. destruct (cache_sync_spec s Hinv Hh) as (s' & ? & ? & ? & Hv).
    exists s'. split_and!; [done..|]. intros k Hk. by destruct (Hv k Hk).
Defined.
End CacheSpec.

(** ** Clients of the cache *)
Inductive cache_op :=
| CRead (id : Z)
| CWrite (id off : Z) (bs : list Z)
| CSync.

(** Whole blocks are read, parts of blocks written, through the typed access of
    [BlockCache]. *)
Definition cache_op_run {S} `{!BlockStore S} (o : cache_op) : st S (list Z) :=
  match o with
  | CRead id => cache_read (words_pod 1 512) id 0 mret
  | CWrite id off bs => cache_modify (words_pod 1 (length bs)) id off (fun _ => mret ([], bs))
  | CSync => sync_all;; mret []
  end.
Fixpoint cache_ops_run {S} `{!BlockStore S} (os : list cache_op) : st S (list (list Z)) :=
  match os with
  | [] => mret []
  | o :: os' => r ← cache_op_run o; rs ← cache_ops_run os'; mret (r :: rs)
  end.

(** The same on an array of blocks. *)
Definition blocks_op (o : cache_op) (w : Z → list Z) : list Z * (Z → list Z) :=
  match o with
  | CRead id => (w id, w)
  | CWrite id off bs => ([], set_block id (splice (Z.to_nat off) bs (w id)) w)
  | CSync => ([], w)
  end.
Fixpoint blocks_ops (os : list cache_op) (w : Z → list Z) : list (list Z) * (Z → list Z) :=
  match os with
  | [] => ([], w)
  | o :: os' =>
      let '(r, w1) := blocks_op o w in
      let '(rs, w2) := blocks_ops os' w1 in (r :: rs, w2)
  end.

Lemma words_encode_byte bs : Forall is_byte bs → words_encode 1 bs = bs.
Proof.
  induction 1 as [|b bs Hb _ IH]; [done|]. simpl. rewrite IH, Z.mod_small; [done|]. apply Hb.
Qed.
Lemma words_decode_byte bs : words_decode 1 (length bs) bs = bs.
Proof.
  induction bs as [|b bs IH]; [done|]. cbn [words_decode length]. f_equal; [simpl; lia|].
  change (drop 1 (b :: bs)) with (drop 0 bs). by rewrite drop_0.
Qed.

Section Client.
Context {S : Type} `{!BlockStore S, !BlockStoreSpec S}.

Definition op_ok (o : cache_op) : Prop :=
  match o with
  | CRead id => valid id
  | CWrite id off bs => valid id ∧ 0 ≤ off ∧ off + Z.of_nat (length bs) ≤ BLOCK_SZ ∧ Forall is_byte bs
  | CSync => True
  end.

Lemma cache_op_does o w : contents_ok w → op_ok o →
  does (cache_op_run o) w [] (blocks_op o w).1 (blocks_op o w).2 ∧ contents_ok (blocks_op o w).2.
Proof.
  intros Hc Ho. destruct o as [id|id off bs|]; simpl in *.
  - split; [|done]. destruct (Hc id Ho) as [Hl Hb].
    apply does_read; [by split_and!; [|set_solver|]|split; [lia|unfold BLOCK_SZ; simpl; lia]|].
    unfold at_block, slice. cbn [decode words_pod size_of]. rewrite drop_0, take_ge by (rewrite Hl; lia).
    replace 512%nat with (length (w id)). rewrite words_decode_byte. apply does_ret.
  - destruct Ho as (Hv & H0 & H1 & Hb).
    assert (inside (Pod0 := words_pod 1 (length bs)) (list Z) off) as Hin.
    { split; [done|]. cbn [size_of words_pod]. lia. }
    assert (fits (Pod := words_pod 1 (length bs)) bs) as Hfit.
    { split; [done|]. eapply Forall_impl; [exact Hb|]. intros x [? ?]. simpl. lia. }
    pose proof (put_block_ok (words_pod 1 (length bs)) id off bs w Hc Hin Hfit) as Hok.
    unfold put_block in Hok. cbn [encode words_pod] in Hok. rewrite words_encode_byte in Hok by done.
    split; [|done].
    pose proof (does_modify (V := list Z) (words_pod 1 (length bs)) id off
      (fun _ => mret ([], bs)) w w [] [] bs Hc) as H.
    cbn [encode words_pod] in H. rewrite words_encode_byte in H by done. apply H; [|done..|].
    + by split_and!; [|set_solver|].
    + apply does_ret.
  - split; [|done]. eapply does_bind; [apply does_sync|apply does_ret].
Qed.

Lemma cache_ops_does os w : contents_ok w → Forall op_ok os →
  does (cache_ops_run os) w [] (blocks_ops os w).1 (blocks_ops os w).2.
Proof.
  revert w. induction os as [|o os IH]; intros w Hc Hos; [apply does_ret|].
  apply Forall_cons in Hos as [Ho Hos]. destruct (cache_op_does o w Hc Ho) as [Hd Hc'].
  simpl. destruct (blocks_op o w) as [r w1]. specialize (IH w1 Hc' Hos). simpl in *.
  destruct (blocks_ops os w1) as [rs w2]. simpl in *.
  eapply does_bind; [exact Hd|]. eapply does_bind; [exact IH|apply does_ret].
Qed.
End Client.

(** ** A device in memory *)
Notation mem_device := (list (list Z)) (only parsing).
Definition mem_read (id : Z) (d : mem_device) : outcome (list Z * mem_device) :=
  b ← unwrap (d !! Z.to_nat id); Done (b, d).
Definition mem_write (id : Z) (b : list Z) (d : mem_device) : outcome (unit * mem_device) :=
  unwrap (d !! Z.to_nat id);; Done ((), <[Z.to_nat id := b]> d).
#[export] Instance mem_block_device : BlockDevice mem_device :=
  {| read_block := mem_read; write_block := mem_write |}.

Definition mem_block (d : mem_device) (id : Z) : list Z := d !!! Z.to_nat id.
Definition mem_inv (n : nat) (d : mem_device) : Prop :=
  length d = n ∧ Forall (fun b => length b = 512%nat ∧ Forall is_byte b) d.

Lemma mem_lookup n d id : mem_inv n d → 0 ≤ id < Z.of_nat n →
  d !! Z.to_nat id = Some (mem_block d id).
Proof. intros [Hl _] Hid. apply list_lookup_lookup_total_lt. lia. Qed.

Definition mem_device_spec (n : nat) : BlockDeviceSpec mem_device.
Proof.
  refine {| dev_valid := fun id => 0 ≤ id < Z.of_nat n; dev_inv := mem_inv n; dev_block := mem_block |}.
  - intros d id Hi Hv. pose proof (mem_lookup n d id Hi Hv) as E. destruct Hi as [_ Hf].
    by apply (Forall_lookup_1 _ _ _ _ Hf E).
  - intros d id Hi Hv. exists d. split_and!; [|done..]. simpl. unfold mem_read.
    by rewrite (mem_lookup n d id Hi Hv).
  - intros d id b Hi Hv Hl Hb. exists (<[Z.to_nat id := b]> d). split_and!.
    + simpl. unfold mem_write. by rewrite (mem_lookup n d id Hi Hv).
    + destruct Hi as [Hn Hf]. split; [by rewrite length_insert|]. by apply Forall_insert.
    + intros k Hk. destruct Hi as [Hn _]. unfold mem_block. case_decide as E.
      * subst k. apply list_lookup_total_insert_eq. lia.
      * apply list_lookup_total_insert_ne. lia.
Defined.

Definition mem_blank (n : nat) : mem_device := replicate n (replicate 512 0).
Lemma mem_blank_inv n : mem_inv n (mem_blank n).
Proof.
  split; [apply length_replicate|]. apply Forall_replicate.
  split; [by rewrite length_replicate|]. apply Forall_replicate. unfold is_byte. lia.
Qed.

(** The cache starts empty. *)
Definition BlockCacheManager_new {D} (d : D) : CacheState D := mkCacheState [] d.
Lemma cache_inv_new {D} `{!BlockDevice D, !BlockDeviceSpec D} (d : D) : dev_inv d →
  cache_inv (BlockCacheManager_new d).
Proof. intros. split; simpl; [constructor|unfold BLOCK_CACHE_SIZE; lia|constructor|done]. Qed.

(** ** Theorems *)

Lemma held_ids_length q : (length (held_ids q) ≤ length q)%nat.
Proof.
  unfold held_ids. rewrite length_fmap. apply length_filter.
Qed.
Lemma held_ids_full q : length (held_ids q) = length q → Forall (fun e => locked e = true) q.
Proof.
  induction q as [|e q IH]; [constructor|]. rewrite held_cons. pose proof (held_ids_length q).
  destruct (locked e) eqn:El; simpl; intros H'; [constructor; [done|apply IH; lia]|lia].
Qed.

(** C33: the cache is transparent.  On any device that returns what was last written,
    a client that reads whole blocks, writes parts of blocks and synchronises
    gets from the cache, whatever is evicted on the way, exactly the results it would get from
    an array of blocks; the cache never keeps more than sixteen blocks, and after
    [block_cache_sync_all] the device itself holds the final contents. *)
Theorem cache_transparent {D} `{!BlockDevice D, !BlockDeviceSpec D} (s : CacheState D)
    (os : list cache_op) :
  cache_inv s → cache_held s = [] → Forall op_ok os →
  ∃ s', cache_ops_run os s = Done ((blocks_ops os (cache_view s)).1, s') ∧
    cache_inv s' ∧ Z.of_nat (length (queue s')) ≤ BLOCK_CACHE_SIZE ∧
    (∀ k, dev_valid k → cache_view s' k = (blocks_ops os (cache_view s)).2 k) ∧
    ∃ s'', block_cache_sync_all s' = Done ((), s'') ∧
      ∀ k, dev_valid k → dev_block (device s'') k = (blocks_ops os (cache_view s)).2 k.
Proof.
  intros Hinv Hh Hos.
  destruct (cache_ops_does os (cache_view s)) with (s := s) as (s' & Hr & Hinv' & Hh' & Hv');
    [intros k Hk; by apply cache_view_ok|done|done|by simpl; rewrite Hh|done|].
  apply Permutation_nil_r in Hh'. exists s'. split_and!; [done|done|apply Hinv'|done|].
  destruct (cache_sync_spec s' Hinv' Hh') as (s'' & Hs & _ & _ & Hd). exists s''. split; [done|].
  intros k Hk. rewrite (proj2 (Hd k Hk)). by apply Hv'.
Qed.

(** Twenty blocks are written through a cache of sixteen, then the first is read. *)
Definition cache_demo : list cache_op :=
  ((fun i => CWrite (Z.of_nat i) 3 [Z.of_nat i; 7]) <$> seq 0 20) ++ [CRead 0; CSync].
Lemma cache_transparent_witness :
  ∃ s', cache_ops_run cache_demo (BlockCacheManager_new (mem_blank 20))
      = Done ((blocks_ops cache_demo (mem_block (mem_blank 20))).1, s').
Proof.
  destruct (cache_transparent (BlockDeviceSpec0 := mem_device_spec 20)
    (BlockCacheManager_new (mem_blank 20)) cache_demo) as (s' & Hr & _).
  - apply cache_inv_new. apply mem_blank_inv.
  - done.
  - unfold cache_demo. apply Forall_app. split.
    + apply Forall_fmap, Forall_seq. intros i Hi. simpl. unfold BLOCK_SZ, is_byte.
      split_and!; try lia. repeat constructor; lia.
    + repeat constructor; simpl; lia.
  - exists s'. exact Hr.
Defined.

(** the limits of the cache.  Taking a block whose lock the same control flow holds never
    returns; taking a seventeenth block while sixteen are held panics ("Run out of BlockCache!");
    with fewer held, taking a block that is not held always succeeds. *)
Theorem cache_limits {D} `{!BlockDevice D, !BlockDeviceSpec D} (s : CacheState D) (id : Z) :
  cache_inv s → dev_valid id →
  (id ∈ cache_held s → cache_acquire id s = Hang) ∧
  (id ∉ cache_held s → Z.of_nat (length (cache_held s)) = BLOCK_CACHE_SIZE →
    cache_acquire id s = Panic) ∧
  (id ∉ cache_held s → Z.of_nat (length (cache_held s)) < BLOCK_CACHE_SIZE →
    ∃ s', cache_acquire id s = Done (cache_view s id, s') ∧ cache_inv s').
Proof.
  intros Hinv Hv. split_and!.
  - by apply cache_acquire_locked.
  - intros Hn Hl. destruct Hinv as [_ Hq Hs _]. unfold cache_held in *.
    pose proof (held_ids_length (queue s)) as Hlen.
    assert (Forall (fun e => strong_count e ≠ 1) (queue s)) as Hc.
    { pose proof (held_ids_full (queue s) ltac:(lia)) as Hf. rewrite Forall_forall in *.
      intros e He. rewrite (so_count _ _ (Hs e He)), (Hf e He). lia. }
    pose proof (all_shared_held _ _ Hs Hc) as E. rewrite E in Hn.
    unfold cache_acquire, get_block_cache, get_queue, mbind, st_bind.
    rewrite (proj2 (slot_find_None _ _) Hn). unfold cache_make_room, get_queue, mbind, st_bind.
    rewrite (proj2 (Z.eqb_eq _ _)) by lia. by rewrite (proj2 (list_find_None _ _) Hc).
  - intros Hn Hl. destruct (cache_acquire_spec id s Hinv Hv Hn Hl) as (s' & Ha & Hi & _). eauto.
Qed.

(** Block 3 held: it cannot be taken again, block 4 can. *)
Definition cache_demo_held : CacheState mem_device :=
  mkCacheState [mkSlot 3 (mkBlockCache (replicate 512 0) 3 false) 2 true] (mem_blank 20).
Lemma cache_limits_witness :
  cache_acquire 3 cache_demo_held = Hang ∧
  ∃ s', cache_acquire 4 cache_demo_held = Done (replicate 512 0, s').
Proof.
  assert (@cache_inv mem_device _ (mem_device_spec 20) cache_demo_held) as Hinv.
  { split; [apply NoDup_singleton|unfold BLOCK_CACHE_SIZE; simpl; lia| |apply mem_blank_inv].
    constructor; [|constructor]. split; try reflexivity; [simpl; lia|].
    change (Forall is_byte (replicate 512 0)). apply Forall_replicate. unfold is_byte. lia. }
  pose proof (cache_limits (BlockDeviceSpec0 := mem_device_spec 20) cache_demo_held 3 Hinv) as (H3 & _).
  { simpl. lia. }
  pose proof (cache_limits (BlockDeviceSpec0 := mem_device_spec 20) cache_demo_held 4 Hinv) as (_ & _ & H4).
  { simpl. lia. }
  split.
  - apply H3. vm_compute. constructor.
  - destruct H4 as (s' & Hs' & _); [vm_compute; intros H; inversion H as [|??? H']; inversion H'|done|].
    exists s'. exact Hs'.
Defined.
