(* ===== verification/Bitmap.v ===== *)
(** * Bitmaps

    [tg-rcore-tutorial-easy-fs/src/bitmap.rs]: the allocation of inodes and data
    blocks, a bit each, in consecutive blocks of the device. *)

From S2P Require Import Prelude Bytes BlockStore BlockCache.

Definition u64_max : Z := 2 ^ 64 - 1.

(** [BitmapBlock = [u64; 64]]. *)
Definition BitmapBlock : Pod (list Z) := words_pod 8 64.
Definition BLOCK_BITS : Z := BLOCK_SZ * 8.

Record Bitmap := mkBitmap {
  start_block_id : Z;
  blocks : Z;
}.

(** [u64::trailing_ones], a bit at a time. *)
Fixpoint trailing_ones_from (n : nat) (v : Z) : Z :=
  match n with
  | O => 0
  | S n' => if Z.odd v then 1 + trailing_ones_from n' (v / 2) else 0
  end.
Definition trailing_ones (v : Z) : Z := trailing_ones_from 64 v.

(** [decomposition]: (block, word in the block, bit in the word). *)
Definition decomposition (bit : Z) : Z * Z * Z :=
  let block_pos := bit / BLOCK_BITS in
  let bit := bit mod BLOCK_BITS in
  (block_pos, bit / 64, bit mod 64).

Definition Bitmap_new (start_block_id blocks : Z) : Bitmap := mkBitmap start_block_id blocks.

(** The closure of [Bitmap::alloc]: the first word that is not all ones, its
    first zero. *)
Definition alloc_in_block (block_id : Z) (bitmap_block : list Z) : option Z * list Z :=
  match list_find (fun bits64 => bits64 ≠ u64_max) bitmap_block with
  | Some (bits64_pos, bits64) =>
      let inner_pos := trailing_ones bits64 in
      (Some (block_id * BLOCK_BITS + Z.of_nat bits64_pos * 64 + inner_pos),
       <[bits64_pos := Z.lor bits64 (Z.shiftl 1 inner_pos)]> bitmap_block)
  | None => (None, bitmap_block)
  end.

(** The closure of [Bitmap::dealloc]. *)
Definition dealloc_in_block (bits64_pos inner_pos : Z) (bitmap_block : list Z) : outcome (unit * list Z) :=
  word ← unwrap (bitmap_block !! Z.to_nat bits64_pos);
  rassert (0 <? Z.land word (Z.shiftl 1 inner_pos));;
  word' ← checked 0 u64_max (word - Z.shiftl 1 inner_pos);
  Done ((), <[Z.to_nat bits64_pos := word']> bitmap_block).

Section Operations.
Context {S : Type} `{!BlockStore S}.

Fixpoint alloc_scan (bm : Bitmap) (n : nat) (block_id : Z) : st S (option Z) :=
  match n with
  | O => mret None
  | Datatypes.S n' =>
      pos ← cache_modify BitmapBlock (block_id + start_block_id bm) 0
        (fun bitmap_block => mret (alloc_in_block block_id bitmap_block));
      match pos with
      | Some _ => mret pos
      | None => alloc_scan bm n' (block_id + 1)
      end
  end.
Definition Bitmap_alloc (bm : Bitmap) : st S (option Z) := alloc_scan bm (Z.to_nat (blocks bm)) 0.

Definition Bitmap_dealloc (bm : Bitmap) (bit : Z) : st S unit :=
  let '(block_pos, bits64_pos, inner_pos) := decomposition bit in
  cache_modify BitmapBlock (block_pos + start_block_id bm) 0
    (fun bitmap_block => lift (dealloc_in_block bits64_pos inner_pos bitmap_block)).

Definition Bitmap_maximum (bm : Bitmap) : Z := blocks bm * BLOCK_BITS.
End Operations.

(** ** Bits of a word *)
Lemma trailing_ones_from_spec n v : 0 ≤ v < 2 ^ Z.of_nat n → v ≠ 2 ^ Z.of_nat n - 1 →
  let t := trailing_ones_from n v in
  0 ≤ t < Z.of_nat n ∧ Z.testbit v t = false ∧ ∀ j, 0 ≤ j < t → Z.testbit v j = true.
Proof.
  revert v. induction n as [|n IH]; intros v Hv Hne.
  - simpl in *. lia.
  - rewrite Nat2Z.inj_succ, Z.pow_succ_r in Hv, Hne by lia. simpl.
    pose proof (Z.div_mod v 2 ltac:(lia)) as Hdm. pose proof (Zmod_odd v) as Ho.
    destruct (Z.odd v) eqn:E.
    + destruct (IH (v / 2)) as (Ht & Hf & Hj); [lia|lia|].
      set (t := trailing_ones_from n (v / 2)) in *.
      assert (∀ j, 0 ≤ j → Z.testbit v (1 + j) = Z.testbit (v / 2) j) as Hs.
      { intros j Hj0. rewrite <-Z.div2_div, Z.div2_spec, Z.shiftr_spec by done. f_equal. lia. }
      split_and!; [lia|lia| |].
      * by rewrite Hs by lia.
      * intros j Hj1. destruct (decide (j = 0)) as [->|]; [by rewrite Z.bit0_odd|].
        replace j with (1 + (j - 1)) by lia. rewrite Hs by lia. apply Hj. lia.
    + split_and!; [lia|lia|by rewrite Z.bit0_odd|lia].
Qed.

Lemma trailing_ones_spec v : 0 ≤ v ≤ u64_max → v ≠ u64_max →
  0 ≤ trailing_ones v < 64 ∧ Z.testbit v (trailing_ones v) = false ∧
  ∀ j, 0 ≤ j < trailing_ones v → Z.testbit v j = true.
Proof.
  unfold u64_max. intros Hv Hne. apply (trailing_ones_from_spec 64);
    change (Z.of_nat 64) with 64; lia.
Qed.

Lemma set_bit_testbit v t j : 0 ≤ t → 0 ≤ j →
  Z.testbit (Z.lor v (Z.shiftl 1 t)) j = (Z.testbit v j || (j =? t)).
Proof.
  intros. rewrite Z.lor_spec, Z.shiftl_1_l, Z.pow2_bits_eqb by done. f_equal. lia.
Qed.

Lemma set_bit_range v t : 0 ≤ v ≤ u64_max → 0 ≤ t < 64 → 0 ≤ Z.lor v (Z.shiftl 1 t) ≤ u64_max.
Proof.
  intros Hv Ht. unfold u64_max in *. rewrite Z.shiftl_1_l.
  assert (0 ≤ Z.lor v (2 ^ t)) by (apply Z.lor_nonneg; split; [lia|apply Z.pow_nonneg; lia]).
  split; [done|]. cut (Z.lor v (2 ^ t) < 2 ^ 64); [lia|].
  destruct (decide (Z.lor v (2 ^ t) = 0)) as [->|]; [done|].
  apply Z.log2_lt_pow2; [lia|]. rewrite Z.log2_lor by lia. rewrite Z.log2_pow2 by lia.
  destruct (decide (v = 0)) as [->|]; [change (Z.log2 0) with 0; lia|].
  pose proof (proj1 (Z.log2_lt_pow2 v 64 ltac:(lia)) ltac:(lia)). lia.
Qed.

(** Subtracting a bit that is set clears it and nothing else. *)
Lemma clear_bit_eq v t : 0 ≤ t → Z.testbit v t = true →
  v - Z.shiftl 1 t = Z.ldiff v (2 ^ t).
Proof.
  intros Ht Hb. rewrite Z.shiftl_1_l. apply Z.sub_nocarry_ldiff.
  apply Z.bits_inj'. intros j Hj. rewrite Z.ldiff_spec, Z.pow2_bits_eqb, Z.bits_0 by done.
  destruct (Z.eqb_spec t j) as [->|]; simpl; [by rewrite Hb|done].
Qed.
Lemma clear_bit_testbit v t j : 0 ≤ t → 0 ≤ j → Z.testbit v t = true →
  Z.testbit (v - Z.shiftl 1 t) j = (Z.testbit v j && negb (j =? t)).
Proof.
  intros. rewrite clear_bit_eq, Z.ldiff_spec, Z.pow2_bits_eqb by done. do 2 f_equal. lia.
Qed.
Lemma clear_bit_range v t : 0 ≤ v ≤ u64_max → 0 ≤ t → Z.testbit v t = true →
  0 ≤ v - Z.shiftl 1 t ≤ u64_max.
Proof.
  intros Hv Ht Hb. rewrite clear_bit_eq by done.
  assert (0 ≤ Z.ldiff v (2 ^ t)) by (apply Z.ldiff_nonneg; lia).
  rewrite <-clear_bit_eq in * by done. rewrite Z.shiftl_1_l in *.
  pose proof (Z.pow_pos_nonneg 2 t ltac:(lia) Ht). lia.
Qed.
Lemma test_bit_land v t : 0 ≤ v → 0 ≤ t → (0 <? Z.land v (Z.shiftl 1 t)) = Z.testbit v t.
Proof.
  intros Hv Ht. rewrite Z.shiftl_1_l. destruct (Z.testbit v t) eqn:E.
  - apply Z.ltb_lt. assert (0 ≤ Z.land v (2 ^ t)) by (apply Z.land_nonneg; lia).
    cut (Z.land v (2 ^ t) ≠ 0); [lia|]. intros Hz.
    assert (Z.testbit (Z.land v (2 ^ t)) t = true) as Hb.
    { rewrite Z.land_spec, E, Z.pow2_bits_true by done. done. }
    by rewrite Hz, Z.bits_0 in Hb.
  - apply Z.ltb_ge. cut (Z.land v (2 ^ t) = 0); [lia|]. apply Z.bits_inj'. intros j Hj.
    rewrite Z.land_spec, Z.pow2_bits_eqb, Z.bits_0 by done.
    destruct (Z.eqb_spec t j) as [->|]; [by rewrite E|apply andb_false_r].
Qed.
Lemma set_clear_bit v t : 0 ≤ t → Z.testbit v t = false →
  Z.lor v (Z.shiftl 1 t) - Z.shiftl 1 t = v.
Proof.
  intros Ht Hb. rewrite clear_bit_eq.
  - apply Z.bits_inj'. intros j Hj. rewrite Z.ldiff_spec, set_bit_testbit, Z.pow2_bits_eqb by done.
    rewrite (Z.eqb_sym t j). destruct (Z.eqb_spec j t) as [->|]; simpl; [by rewrite Hb|].
    by rewrite orb_false_r, andb_true_r.
  - done.
  - rewrite set_bit_testbit, Z.eqb_refl, orb_true_r by done. done.
Qed.

(** ** Bits of a bitmap block *)
Definition block_bit (bs : list Z) (j : Z) : bool := Z.testbit (bs !!! Z.to_nat (j / 64)) (j mod 64).

Lemma words_fit_lookup bs i v : words_fit 8 64 bs → bs !! i = Some v → 0 ≤ v ≤ u64_max.
Proof.
  intros [_ Hf] Hi. pose proof (Forall_lookup_1 _ _ _ _ Hf Hi) as Hv. simpl in Hv.
  change (Z.pow_pos 256 8) with (2 ^ 64) in Hv. unfold u64_max. lia.
Qed.
Lemma words_fit_insert bs i v : words_fit 8 64 bs → 0 ≤ v ≤ u64_max → words_fit 8 64 (<[i := v]> bs).
Proof.
  intros [Hl Hf] Hv. split; [by rewrite length_insert|]. apply Forall_insert; [done|].
  unfold u64_max in Hv. change (256 ^ Z.of_nat 8) with (2 ^ 64). lia.
Qed.
Lemma words_fit_total bs (i : nat) : words_fit 8 64 bs → (i < 64)%nat → bs !! i = Some (bs !!! i).
Proof. intros [Hl _] Hi. apply list_lookup_lookup_total_lt. lia. Qed.

(** A word replaced by one that differs at one bit. *)
Lemma block_bit_insert bs (q t : Z) v j (f : Z → bool) : words_fit 8 64 bs →
  0 ≤ q < 64 → 0 ≤ t < 64 → 0 ≤ j < BLOCK_BITS →
  (∀ i, 0 ≤ i < 64 → Z.testbit v i = if i =? t then f (q * 64 + t) else Z.testbit (bs !!! Z.to_nat q) i) →
  block_bit (<[Z.to_nat q := v]> bs) j = if j =? q * 64 + t then f j else block_bit bs j.
Proof.
  intros [Hl _] Hq Ht Hj Hv. unfold block_bit, BLOCK_BITS, BLOCK_SZ in *.
  pose proof (Z.div_mod j 64 ltac:(lia)) as Hd. pose proof (Z.mod_pos_bound j 64 ltac:(lia)) as Hm.
  destruct (decide (j / 64 = q)) as [E|E].
  - rewrite E, list_lookup_total_insert_eq by lia. rewrite Hv by done.
    destruct (Z.eqb_spec (j mod 64) t), (Z.eqb_spec j (q * 64 + t)); [by subst j|lia..|done].
  - rewrite list_lookup_total_insert_ne by lia.
    destruct (Z.eqb_spec j (q * 64 + t)); [lia|done].
Qed.

Lemma bit_position q t : 0 ≤ t < 64 → (q * 64 + t) / 64 = q ∧ (q * 64 + t) mod 64 = t.
Proof.
  intros Ht. rewrite Z.add_comm, Z.div_add, Z.mod_add, Z.div_small, Z.mod_small by lia. lia.
Qed.

Lemma u64_max_bits j : 0 ≤ j < 64 → Z.testbit u64_max j = true.
Proof. intros. change u64_max with (Z.ones 64). by apply Z.ones_spec_low. Qed.

Lemma alloc_in_block_spec id bs : words_fit 8 64 bs →
  match alloc_in_block id bs with
  | (Some r, bs') => ∃ p, 0 ≤ p < BLOCK_BITS ∧ r = id * BLOCK_BITS + p ∧
      block_bit bs p = false ∧ (∀ j, 0 ≤ j < p → block_bit bs j = true) ∧ words_fit 8 64 bs' ∧
      (∀ j, 0 ≤ j < BLOCK_BITS → block_bit bs' j = (j =? p) || block_bit bs j) ∧
      dealloc_in_block (p / 64) (p mod 64) bs' = Done ((), bs)
  | (None, bs') => bs' = bs ∧ ∀ j, 0 ≤ j < BLOCK_BITS → block_bit bs j = true
  end.
Proof.
  intros Hfit. unfold alloc_in_block. destruct (list_find _ bs) as [[i v]|] eqn:E.
  - apply list_find_Some in E as (Hi & Hv & Hbefore).
    pose proof (words_fit_lookup bs i v Hfit Hi) as Hr.
    destruct (trailing_ones_spec v Hr Hv) as (Ht & Hf & Hones). set (t := trailing_ones v) in *.
    assert (i < 64)%nat as Hi64 by (destruct Hfit as [Hl _]; apply lookup_lt_Some in Hi; lia).
    destruct (bit_position (Z.of_nat i) t Ht) as [Hq Hm].
    pose proof (list_lookup_total_correct _ _ _ Hi) as Htot.
    exists (Z.of_nat i * 64 + t). unfold BLOCK_BITS, BLOCK_SZ. split_and!; [lia|lia|lia| | | | |].
    + unfold block_bit. by rewrite Hq, Hm, Nat2Z.id, Htot.
    + intros j Hj. unfold block_bit.
      pose proof (Z.div_mod j 64 ltac:(lia)). pose proof (Z.mod_pos_bound j 64 ltac:(lia)).
      destruct (decide (j / 64 = Z.of_nat i)) as [Ei|Ei].
      * rewrite Ei, Nat2Z.id, Htot. apply Hones. lia.
      * pose proof (words_fit_total bs (Z.to_nat (j / 64)) Hfit ltac:(lia)) as Hlk.
        destruct (decide (bs !!! Z.to_nat (j / 64) = u64_max)) as [->|Hne]; [by apply u64_max_bits|].
        exfalso. by apply (Hbefore _ _ Hlk ltac:(lia)).
    + apply words_fit_insert; [done|]. by apply set_bit_range.
    + intros j Hj. rewrite <-(Nat2Z.id i) at 1.
      rewrite (block_bit_insert bs (Z.of_nat i) t _ j (fun _ => true)); [|done|lia|lia|done|].
      * by destruct (j =? _).
      * intros x Hx. rewrite set_bit_testbit, Nat2Z.id, Htot by lia.
        destruct (x =? t); [apply orb_true_r|apply orb_false_r].
    + rewrite Hq, Hm. unfold dealloc_in_block. rewrite Nat2Z.id.
      rewrite list_lookup_insert_eq by (by eapply lookup_lt_Some). simpl.
      pose proof (set_bit_range v t Hr Ht) as Hr'. rewrite test_bit_land by lia.
      rewrite set_bit_testbit, Z.eqb_refl, orb_true_r by lia. simpl.
      rewrite set_clear_bit by (done || lia). rewrite checked_ok by done. simpl.
      by rewrite list_insert_insert_eq, list_insert_id.
  - split; [done|]. apply list_find_None in E. intros j Hj. unfold block_bit, BLOCK_BITS, BLOCK_SZ in *.
    pose proof (Z.div_mod j 64 ltac:(lia)). pose proof (Z.mod_pos_bound j 64 ltac:(lia)).
    pose proof (words_fit_total bs (Z.to_nat (j / 64)) Hfit ltac:(lia)) as Hlk.
    pose proof (Forall_lookup_1 _ _ _ _ E Hlk) as Hall. simpl in Hall.
    apply dec_stable in Hall. rewrite Hall. by apply u64_max_bits.
Qed.

Lemma dealloc_in_block_spec p bs : words_fit 8 64 bs → 0 ≤ p < BLOCK_BITS →
  if block_bit bs p then
    ∃ bs', dealloc_in_block (p / 64) (p mod 64) bs = Done ((), bs') ∧ words_fit 8 64 bs' ∧
      ∀ j, 0 ≤ j < BLOCK_BITS → block_bit bs' j = negb (j =? p) && block_bit bs j
  else dealloc_in_block (p / 64) (p mod 64) bs = Panic.
Proof.
  intros Hfit Hp. unfold BLOCK_BITS, BLOCK_SZ in Hp.
  pose proof (Z.div_mod p 64 ltac:(lia)). pose proof (Z.mod_pos_bound p 64 ltac:(lia)) as Hm.
  pose proof (words_fit_total bs (Z.to_nat (p / 64)) Hfit ltac:(lia)) as Hlk.
  pose proof (words_fit_lookup _ _ _ Hfit Hlk) as Hr.
  unfold dealloc_in_block. rewrite Hlk. cbn [unwrap mbind outcome_bind].
  rewrite test_bit_land by lia. destruct (block_bit bs p) eqn:E; unfold block_bit in E; rewrite E; [|done].
  simpl. pose proof (clear_bit_range _ _ Hr (proj1 Hm) E) as Hr'. rewrite checked_ok by done. simpl.
  eexists. split_and!; [done|by apply words_fit_insert|].
  intros j Hj. rewrite (block_bit_insert bs (p / 64) (p mod 64) _ j (fun _ => false)); [|done|lia|lia|done|].
  - replace (p / 64 * 64 + p mod 64) with p by lia. by destruct (j =? p).
  - intros x Hx. rewrite clear_bit_testbit by (done || lia).
    destruct (x =? p mod 64); [apply andb_false_r|apply andb_true_r].
Qed.

(** ** The bitmap in the device *)
Ltac bits := unfold BLOCK_BITS, BLOCK_SZ in *; lia.

Section BitmapSpec.
Context {S : Type} `{!BlockStore S, !BlockStoreSpec S}.

Definition bitmap_block (w : Z → list Z) (bm : Bitmap) (b : Z) : list Z :=
  at_block BitmapBlock w (b + start_block_id bm) 0.
(** Bit [i] of the bitmap. *)
Definition bitmap_bit (w : Z → list Z) (bm : Bitmap) (i : Z) : bool :=
  block_bit (bitmap_block w bm (i / BLOCK_BITS)) (i mod BLOCK_BITS).

(** The blocks of the bitmap can be accessed. *)
Definition bitmap_free (bm : Bitmap) (h : list Z) : Prop :=
  ∀ b, 0 ≤ b < blocks bm → free_block (b + start_block_id bm) h.

Lemma inside_bitmap : inside (Pod0 := BitmapBlock) (list Z) 0.
Proof. split; [lia|]. simpl. unfold BLOCK_SZ. lia. Qed.
Hint Resolve inside_bitmap : core.

Lemma bit_of_block b p : 0 ≤ p < BLOCK_BITS →
  (b * BLOCK_BITS + p) / BLOCK_BITS = b ∧ (b * BLOCK_BITS + p) mod BLOCK_BITS = p.
Proof.
  intros Hp. rewrite Z.add_comm, Z.div_add, Z.mod_add, Z.div_small, Z.mod_small
    by (unfold BLOCK_BITS, BLOCK_SZ in *; lia). lia.
Qed.
Lemma block_of_bit j : j = j / BLOCK_BITS * BLOCK_BITS + j mod BLOCK_BITS ∧
  0 ≤ j mod BLOCK_BITS < BLOCK_BITS.
Proof.
  unfold BLOCK_BITS, BLOCK_SZ. pose proof (Z.div_mod j (512 * 8) ltac:(lia)).
  pose proof (Z.mod_pos_bound j (512 * 8) ltac:(lia)). lia.
Qed.

(** Replacing one block of the bitmap. *)
Lemma bitmap_bit_put w bm b bs j : contents_ok w → valid (b + start_block_id bm) → words_fit 8 64 bs →
  bitmap_bit (put_block BitmapBlock (b + start_block_id bm) 0 bs w) bm j =
    if j / BLOCK_BITS =? b then block_bit bs (j mod BLOCK_BITS) else bitmap_bit w bm j.
Proof.
  intros Hc Hv Hf. unfold bitmap_bit, bitmap_block. destruct (Z.eqb_spec (j / BLOCK_BITS) b) as [->|Hne].
  - rewrite at_put_eq; [done| |done|done]. by destruct (Hc _ Hv).
  - by rewrite at_put_ne by lia.
Qed.

(** The contents after bit [i] has been set: the block that holds it is
    rewritten, and clearing the bit undoes it. *)
Record bit_set (bm : Bitmap) (w w' : Z → list Z) (i : Z) : Prop := {
  bs_was : bitmap_bit w bm i = false;
  bs_now : ∀ j, 0 ≤ j → bitmap_bit w' bm j = (j =? i) || bitmap_bit w bm j;
  bs_frame : ∀ k, k ≠ i / BLOCK_BITS + start_block_id bm → w' k = w k;
  bs_undo : dealloc_in_block (i mod BLOCK_BITS / 64) (i mod BLOCK_BITS mod 64)
      (bitmap_block w' bm (i / BLOCK_BITS)) = Done ((), bitmap_block w bm (i / BLOCK_BITS));
  bs_put : w' = put_block BitmapBlock (i / BLOCK_BITS + start_block_id bm) 0
      (bitmap_block w' bm (i / BLOCK_BITS)) w;
}.

Lemma bit_set_put bm w b p bs' : contents_ok w → valid (b + start_block_id bm) → 0 ≤ p < BLOCK_BITS →
  block_bit (bitmap_block w bm b) p = false → words_fit 8 64 bs' →
  (∀ j, 0 ≤ j < BLOCK_BITS → block_bit bs' j = (j =? p) || block_bit (bitmap_block w bm b) j) →
  dealloc_in_block (p / 64) (p mod 64) bs' = Done ((), bitmap_block w bm b) →
  bit_set bm w (put_block BitmapBlock (b + start_block_id bm) 0 bs' w) (b * BLOCK_BITS + p).
Proof.
  intros Hc Hv Hp Hwas Hfit' Hbits Hundo. destruct (bit_of_block b p Hp) as [Hdiv Hmod].
  unfold bitmap_block in *. split; rewrite ?Hdiv, ?Hmod.
  - unfold bitmap_bit, bitmap_block. by rewrite Hdiv, Hmod.
  - intros j Hj. rewrite bitmap_bit_put by done. destruct (block_of_bit j) as [Ej Hjm].
    destruct (Z.eqb_spec (j / BLOCK_BITS) b) as [Eb|Eb].
    + rewrite Hbits by done. f_equal; [|unfold bitmap_bit, bitmap_block; by rewrite Eb].
      destruct (Z.eqb_spec j (b * BLOCK_BITS + p)), (Z.eqb_spec (j mod BLOCK_BITS) p); (done || nia).
    + destruct (Z.eqb_spec j (b * BLOCK_BITS + p)); [congruence|done].
  - intros k Hk. unfold put_block. by rewrite set_block_ne.
  - unfold bitmap_block. rewrite at_put_eq; [done|by destruct (Hc _ Hv)|done|done].
  - unfold bitmap_block. rewrite at_put_eq; [done|by destruct (Hc _ Hv)|done|done].
Qed.

Lemma bitmap_bit_in w bm b j : b * BLOCK_BITS ≤ j < (b + 1) * BLOCK_BITS →
  bitmap_bit w bm j = block_bit (bitmap_block w bm b) (j - b * BLOCK_BITS) ∧
  0 ≤ j - b * BLOCK_BITS < BLOCK_BITS.
Proof.
  intros Hj. split; [|lia]. unfold bitmap_bit. replace j with (b * BLOCK_BITS + (j - b * BLOCK_BITS)) at 1 2 by lia.
  by destruct (bit_of_block b (j - b * BLOCK_BITS) ltac:(lia)) as [-> ->].
Qed.

Lemma alloc_scan_spec bm h n b w : contents_ok w → 0 ≤ b →
  (∀ c, b ≤ c < b + Z.of_nat n → free_block (c + start_block_id bm) h) →
  ∃ r w', does (alloc_scan bm n b) w h r w' ∧ contents_ok w' ∧
    match r with
    | Some i => b * BLOCK_BITS ≤ i < (b + Z.of_nat n) * BLOCK_BITS ∧ bit_set bm w w' i ∧
        ∀ j, b * BLOCK_BITS ≤ j < i → bitmap_bit w bm j = true
    | None => w' = w ∧
        ∀ j, b * BLOCK_BITS ≤ j < (b + Z.of_nat n) * BLOCK_BITS → bitmap_bit w bm j = true
    end.
Proof.
  intros Hc. revert b. induction n as [|n IH]; intros b Hb Hfree.
  { exists None, w. split_and!; [apply does_ret|done|done|lia]. }
  pose proof (Hfree b ltac:(lia)) as Hfb. pose proof Hfb as [Hv _].
  pose proof (at_block_fits BitmapBlock _ 0 w Hc Hv inside_bitmap) as Hfit.
  pose proof (alloc_in_block_spec b _ Hfit) as Hab. fold (bitmap_block w bm b) in *.
  destruct (alloc_in_block b (bitmap_block w bm b)) as [[r|] bs'] eqn:Ea.
  - destruct Hab as (p & Hp & -> & Hwas & Hones & Hfit' & Hbits & Hundo).
    exists (Some (b * BLOCK_BITS + p)), (put_block BitmapBlock (b + start_block_id bm) 0 bs' w).
    split; [|split; [by apply put_block_ok|split; [bits|split; [by apply bit_set_put|]]]].
    + simpl. eapply does_bind.
      * eapply does_update; [done..|]. fold (bitmap_block w bm b). rewrite Ea. apply does_ret.
      * apply does_ret.
    + intros j Hj. destruct (bitmap_bit_in w bm b j ltac:(lia)) as [-> ?]. apply Hones. lia.
  - destruct Hab as [-> Hall]. destruct (IH (b + 1)) as (r & w' & Hd & Hc' & Hr).
    { lia. } { intros c Hcr. apply Hfree. lia. }
    assert (∀ j, b * BLOCK_BITS ≤ j < (b + 1) * BLOCK_BITS → bitmap_bit w bm j = true) as Hfull.
    { intros j Hj. destruct (bitmap_bit_in w bm b j Hj) as [-> ?]. by apply Hall. }
    exists r, w'. split; [|split; [done|]].
    + simpl. eapply (does_bind _ _ _ w _ _ None); [|exact Hd]. eapply does_ext; [reflexivity| |].
      * by apply (put_block_same BitmapBlock (b + start_block_id bm) 0).
      * eapply (does_update _ _ _ _ w); [done..|]. fold (bitmap_block w bm b). rewrite Ea. apply does_ret.
    + assert (∀ j, b * BLOCK_BITS ≤ j → (b + 1) * BLOCK_BITS ≤ j ∨ bitmap_bit w bm j = true) as Hcase.
      { intros j Hj. destruct (decide (j < (b + 1) * BLOCK_BITS)); [right; apply Hfull|left]; lia. }
      destruct r as [i|]; [destruct Hr as (Hi & Hset & Hj)|destruct Hr as (-> & Hj)].
      * split; [bits|]. split; [done|]. intros j Hjr. destruct (Hcase j) as [|]; [lia| |done]. apply Hj. bits.
      * split; [done|]. intros j Hjr. destruct (Hcase j) as [|]; [lia| |done]. apply Hj. bits.
Qed.

(** [Bitmap::alloc]. *)
Lemma Bitmap_alloc_spec bm h w : contents_ok w → 0 ≤ blocks bm → bitmap_free bm h →
  ∃ r w', does (Bitmap_alloc bm) w h r w' ∧ contents_ok w' ∧
    match r with
    | Some i => 0 ≤ i < Bitmap_maximum bm ∧ bit_set bm w w' i ∧ ∀ j, 0 ≤ j < i → bitmap_bit w bm j = true
    | None => w' = w ∧ ∀ j, 0 ≤ j < Bitmap_maximum bm → bitmap_bit w bm j = true
    end.
Proof.
  intros Hc Hb Hf. destruct (alloc_scan_spec bm h (Z.to_nat (blocks bm)) 0 w) as (r & w' & Hd & Hc' & Hr);
    [done|lia|intros c Hcr; apply Hf; lia|].
  exists r, w'. unfold Bitmap_maximum. rewrite Z2Nat.id in Hr by lia. split_and!; [done..|].
  by destruct r.
Qed.

(** [Bitmap::dealloc] clears a bit that is set and panics on one that is not. *)
Lemma Bitmap_dealloc_spec bm h w i : contents_ok w → 0 ≤ i → free_block (i / BLOCK_BITS + start_block_id bm) h →
  if bitmap_bit w bm i then
    ∃ w', does (Bitmap_dealloc bm i) w h () w' ∧ contents_ok w' ∧
      (∀ j, 0 ≤ j → bitmap_bit w' bm j = negb (j =? i) && bitmap_bit w bm j) ∧
      ∀ k, k ≠ i / BLOCK_BITS + start_block_id bm → w' k = w k
  else panics (Bitmap_dealloc bm i) w h.
Proof.
  intros Hc Hi Hfb. pose proof Hfb as [Hv _]. destruct (block_of_bit i) as [Ei Him].
  pose proof (at_block_fits BitmapBlock _ 0 w Hc Hv inside_bitmap) as Hfit.
  pose proof (dealloc_in_block_spec _ _ Hfit Him) as Hd.
  unfold Bitmap_dealloc, decomposition. unfold bitmap_bit at 1, bitmap_block.
  destruct (block_bit _ _) eqn:E.
  - destruct Hd as (bs' & Hrun & Hfit' & Hbits).
    exists (put_block BitmapBlock (i / BLOCK_BITS + start_block_id bm) 0 bs' w). split_and!.
    + apply does_update; try done. by apply does_lift.
    + by apply put_block_ok.
    + intros j Hj. rewrite bitmap_bit_put by done. destruct (block_of_bit j) as [Ej Hjm].
      destruct (Z.eqb_spec (j / BLOCK_BITS) (i / BLOCK_BITS)) as [Eb|Eb].
      * rewrite Hbits by done. unfold bitmap_bit, bitmap_block. rewrite Eb. do 2 f_equal.
        destruct (Z.eqb_spec j i), (Z.eqb_spec (j mod BLOCK_BITS) (i mod BLOCK_BITS)); congruence.
      * destruct (Z.eqb_spec j i); [congruence|done].
    + intros k Hk. unfold put_block. by rewrite set_block_ne.
  - apply panics_modify; [done|done|]. rewrite Hd. apply panics_lift.
Qed.

(** Clearing a bit just set gives the contents back. *)
Lemma Bitmap_dealloc_undo bm h w w' i : contents_ok w → contents_ok w' → 0 ≤ i →
  free_block (i / BLOCK_BITS + start_block_id bm) h → bit_set bm w w' i →
  does (Bitmap_dealloc bm i) w' h () w.
Proof.
  intros Hc Hc' Hi Hfb [_ _ _ Hundo Hput]. pose proof Hfb as [Hv _].
  pose proof (at_block_fits BitmapBlock _ 0 w Hc Hv inside_bitmap) as Hfit.
  pose proof (at_block_fits BitmapBlock _ 0 w' Hc' Hv inside_bitmap) as Hfit'.
  unfold Bitmap_dealloc, decomposition. eapply does_ext; [reflexivity| |].
  2:{ apply does_update; [done..| |]; [exact Hfit|]. apply does_lift. exact Hundo. }
  rewrite Hput. intros k Hk. rewrite put_block_put; [|by destruct (Hc _ Hv)|done..].
  by apply put_block_same.
Qed.
End BitmapSpec.

(** ** Theorems *)

(** allocation in a bitmap takes the least free bit.  [Bitmap::alloc] always returns; it answers
    [None], changing nothing, exactly when all the bits of the bitmap are set, and otherwise the first bit
    that is clear: that bit is set, no other bit changes, and no block outside the
    bitmap is written. *)
Theorem bitmap_alloc_first_free {S} `{!BlockStore S, !BlockStoreSpec S} (bm : Bitmap) h w :
  contents_ok w → 0 ≤ blocks bm → bitmap_free bm h →
  ∃ r w', does (Bitmap_alloc bm) w h r w' ∧ contents_ok w' ∧
    (r = None ↔ ∀ j, 0 ≤ j < Bitmap_maximum bm → bitmap_bit w bm j = true) ∧
    match r with
    | Some i => 0 ≤ i < Bitmap_maximum bm ∧ bitmap_bit w bm i = false ∧
        (∀ j, 0 ≤ j < i → bitmap_bit w bm j = true) ∧
        (∀ j, 0 ≤ j → bitmap_bit w' bm j = (j =? i) || bitmap_bit w bm j) ∧
        (∀ k, ¬ start_block_id bm ≤ k < start_block_id bm + blocks bm → w' k = w k)
    | None => w' = w
    end.
Proof.
  intros Hc Hb Hf. destruct (Bitmap_alloc_spec bm h w Hc Hb Hf) as (r & w' & Hd & Hc' & Hr).
  exists r, w'. split; [done|]. split; [done|]. destruct r as [i|].
  - destruct Hr as (Hi & [Hwas Hnow Hframe _ _] & Hj). split.
    { split; [done|]. intros Hall. rewrite (Hall i Hi) in Hwas. done. }
    do 4 (split; [done|]). intros k Hk. apply Hframe. unfold Bitmap_maximum in Hi.
    destruct (block_of_bit i) as [Ei Him]. bits.
  - destruct Hr as [-> Hall]. split; [|done]. by split.
Qed.

(** The witnesses use a device of four blocks behind the cache, with a bitmap in blocks 1 and 2. *)
Definition demo_bitmap : Bitmap := Bitmap_new 1 2.
Definition demo_view : Z → list Z := cache_view (BlockDeviceSpec0 := mem_device_spec 4)
  (BlockCacheManager_new (mem_blank 4)).
Lemma demo_view_ok : contents_ok (BlockStoreSpec0 := cache_store_spec (BlockDeviceSpec0 := mem_device_spec 4)) demo_view.
Proof.
  intros k Hk. apply (cache_view_ok (BlockDeviceSpec0 := mem_device_spec 4)); [|done].
  apply cache_inv_new, mem_blank_inv.
Qed.
Lemma demo_bitmap_free : bitmap_free
  (BlockStoreSpec0 := cache_store_spec (BlockDeviceSpec0 := mem_device_spec 4)) demo_bitmap [].
Proof.
  intros b Hb. unfold demo_bitmap, Bitmap_new in *. cbn [blocks start_block_id] in *.
  split; [split; simpl; lia|]. split; [set_solver|unfold BLOCK_CACHE_SIZE; simpl; lia].
Qed.

Lemma bitmap_alloc_first_free_witness :
  ∃ r w', does (BlockStoreSpec0 := cache_store_spec (BlockDeviceSpec0 := mem_device_spec 4))
    (Bitmap_alloc demo_bitmap) demo_view [] r w' ∧
    (r = None ↔ ∀ j, 0 ≤ j < 8192 → bitmap_bit demo_view demo_bitmap j = true).
Proof.
  destruct (bitmap_alloc_first_free (BlockStoreSpec0 := cache_store_spec (BlockDeviceSpec0 := mem_device_spec 4))
    demo_bitmap [] demo_view demo_view_ok ltac:(simpl; lia) demo_bitmap_free) as (r & w' & Hd & _ & Hr & _).
  exists r, w'. split; [exact Hd|exact Hr].
Defined.

(** freeing undoes allocating, and a double free is caught.  When [alloc] returns [i],
    [dealloc i] restores the contents of every block; [dealloc] of a bit that is
    clear panics. *)
Theorem bitmap_dealloc_undoes {S} `{!BlockStore S, !BlockStoreSpec S} (bm : Bitmap) h w :
  contents_ok w → 0 ≤ blocks bm → bitmap_free bm h →
  (∃ j, 0 ≤ j < Bitmap_maximum bm ∧ bitmap_bit w bm j = false) →
  ∃ i w', does (Bitmap_alloc bm) w h (Some i) w' ∧ does (Bitmap_dealloc bm i) w' h () w ∧
    panics (Bitmap_dealloc bm i) w h.
Proof.
  intros Hc Hb Hf (j & Hj & Hz). destruct (Bitmap_alloc_spec bm h w Hc Hb Hf) as (r & w' & Hd & Hc' & Hr).
  destruct r as [i|].
  - destruct Hr as (Hi & Hset & _). exists i, w'.
    assert (free_block (i / BLOCK_BITS + start_block_id bm) h) as Hfb.
    { apply Hf. unfold Bitmap_maximum in Hi. destruct (block_of_bit i) as [Ei Him]. bits. }
    split_and!; [done|apply (Bitmap_dealloc_undo bm h w w' i); (done || lia)|].
    pose proof (Bitmap_dealloc_spec bm h w i Hc (proj1 Hi) Hfb) as Hp.
    by rewrite (bs_was _ _ _ _ Hset) in Hp.
  - destruct Hr as [_ Hall]. by rewrite (Hall j Hj) in Hz.
Qed.

Lemma bitmap_dealloc_undoes_witness :
  ∃ i w', does (BlockStoreSpec0 := cache_store_spec (BlockDeviceSpec0 := mem_device_spec 4))
    (Bitmap_dealloc demo_bitmap i) w' [] () demo_view.
Proof.
  destruct (bitmap_dealloc_undoes (BlockStoreSpec0 := cache_store_spec (BlockDeviceSpec0 := mem_device_spec 4))
    demo_bitmap [] demo_view demo_view_ok ltac:(simpl; lia) demo_bitmap_free) as (i & w' & _ & Hd & _).
  { exists 0. split; [vm_compute; by split|by vm_compute]. }
  exists i, w'. exact Hd.
Defined.
