(* ===== verification/Layout.v ===== *)
(** * The layout on disk

    [tg-rcore-tutorial-ch6/tg-rcore-tutorial-easy-fs/src/layout.rs]: the super block, the
    inodes with their direct and indirect block pointers, and the directory entries.
    This is the copy of ch6, whose inodes have a link count (132 bytes); the crate
    [tg-rcore-tutorial-easy-fs], which ch7 and ch8 use, has no links and 128 bytes. *)

From S2P Require Import Prelude Bytes BlockStore BlockCache Bitmap.

Definition EFS_MAGIC : Z := 0x3b800001.
Definition INODE_DIRECT_COUNT : Z := 28.
Definition NAME_LENGTH_LIMIT : Z := 27.
Definition INODE_INDIRECT1_COUNT : Z := BLOCK_SZ / 4.
Definition INODE_INDIRECT2_COUNT : Z := INODE_INDIRECT1_COUNT * INODE_INDIRECT1_COUNT.
Definition DIRECT_BOUND : Z := INODE_DIRECT_COUNT.
Definition INDIRECT1_BOUND : Z := DIRECT_BOUND + INODE_INDIRECT1_COUNT.
Definition INDIRECT2_BOUND : Z := INDIRECT1_BOUND + INODE_INDIRECT2_COUNT.

(** ** The super block *)
Record SuperBlock := mkSuperBlock {
  magic : Z;
  sb_total_blocks : Z;
  sb_inode_bitmap_blocks : Z;
  sb_inode_area_blocks : Z;
  sb_data_bitmap_blocks : Z;
  sb_data_area_blocks : Z;
}.

Definition SuperBlock_initialize (total_blocks inode_bitmap_blocks inode_area_blocks
    data_bitmap_blocks data_area_blocks : Z) : SuperBlock :=
  mkSuperBlock EFS_MAGIC total_blocks inode_bitmap_blocks inode_area_blocks
    data_bitmap_blocks data_area_blocks.
Definition SuperBlock_is_valid (sb : SuperBlock) : bool := magic sb =? EFS_MAGIC.

(** A record seen as the words it is stored in. *)
Definition iso_pod {T U} (P : Pod U) (to : T → U) (from : U → T)
    (Hto : ∀ u, fits u → to (from u) = u) : Pod T.
Proof.
  refine {|
    size_of := size_of U;
    encode := fun t => encode (to t);
    decode := fun bs => from (decode bs);
    fits := fun t => fits (to t) ∧ from (to t) = t;
  |}.
  - intros t [Hf _]. by apply encode_length.
  - intros t [Hf _]. by apply encode_bytes.
  - intros t [Hf Ht]. by rewrite decode_encode.
  - intros bs Hb Hl. pose proof (decode_fits bs Hb Hl) as Hf. by rewrite Hto.
  - intros bs Hb Hl. pose proof (decode_fits bs Hb Hl) as Hf. rewrite Hto by done.
    by apply encode_decode.
Defined.

Definition sb_words (sb : SuperBlock) : list Z :=
  [magic sb; sb_total_blocks sb; sb_inode_bitmap_blocks sb; sb_inode_area_blocks sb;
   sb_data_bitmap_blocks sb; sb_data_area_blocks sb].
Definition sb_of_words (ws : list Z) : SuperBlock :=
  mkSuperBlock (ws !!! 0%nat) (ws !!! 1%nat) (ws !!! 2%nat) (ws !!! 3%nat) (ws !!! 4%nat) (ws !!! 5%nat).

Lemma sb_words_of ws : words_fit 4 6 ws → sb_words (sb_of_words ws) = ws.
Proof. intros [Hl _]. do 6 (destruct ws as [|? ws]; [done|]). by destruct ws. Qed.
Definition SuperBlock_pod : Pod SuperBlock := iso_pod (words_pod 4 6) sb_words sb_of_words sb_words_of.

(** ** Inodes *)
Inductive DiskInodeType := File | Directory.
(** The discriminant stored for a [DiskInodeType] (one byte). *)
Definition type_byte (t : DiskInodeType) : Z := match t with File => 0 | Directory => 1 end.

(** [IndirectBlock = [u32; 128]], [DataBlock = [u8; 512]]. *)
Definition IndirectBlock : Pod (list Z) := words_pod 4 128.
Definition DataBlock : Pod (list Z) := words_pod 1 512.

(** [#[repr(C)] DiskInode], 132 bytes; [type_pad] are the three bytes of padding
    after the one-byte type. *)
Record DiskInode := mkDiskInode {
  size : Z;
  direct : list Z;
  indirect1 : Z;
  indirect2 : Z;
  type_ : Z;
  type_pad : Z;
  link_num : Z;
}.

Definition inode_words (d : DiskInode) : list Z :=
  size d :: direct d ++ [indirect1 d; indirect2 d; type_ d + 256 * type_pad d; link_num d].
Definition inode_of_words (ws : list Z) : DiskInode :=
  mkDiskInode (ws !!! 0%nat) (take 28 (drop 1 ws)) (ws !!! 29%nat) (ws !!! 30%nat)
    (ws !!! 31%nat mod 256) (ws !!! 31%nat / 256) (ws !!! 32%nat).

Lemma inode_words_of ws : words_fit 4 33 ws → inode_words (inode_of_words ws) = ws.
Proof.
  intros [Hl _]. do 33 (destruct ws as [|? ws]; [done|]). destruct ws; [|done].
  unfold inode_words, inode_of_words. cbn -[Z.modulo Z.div].
  do 31 f_equal. f_equal. match goal with |- ?v mod 256 + _ = _ => pose proof (Z.div_mod v 256) end. lia.
Qed.
Definition DiskInode_pod : Pod DiskInode := iso_pod (words_pod 4 33) inode_words inode_of_words inode_words_of.

(** What an inode read from disk looks like. *)
Record inode_fits (d : DiskInode) : Prop := {
  if_size : 0 ≤ size d < 2 ^ 32;
  if_direct : length (direct d) = 28%nat;
  if_direct_fit : Forall (fun v => 0 ≤ v < 2 ^ 32) (direct d);
  if_indirect1 : 0 ≤ indirect1 d < 2 ^ 32;
  if_indirect2 : 0 ≤ indirect2 d < 2 ^ 32;
  if_type : 0 ≤ type_ d < 256;
  if_pad : 0 ≤ type_pad d < 2 ^ 24;
  if_link : 0 ≤ link_num d < 2 ^ 32;
}.

Lemma inode_fits_pod d : inode_fits d → fits (Pod := DiskInode_pod) d.
Proof.
  intros [H1 H2 H3 H4 H5 H6 H7 H8]. split.
  - split.
    + unfold inode_words. simpl. rewrite length_app, H2. done.
    + change (256 ^ Z.of_nat 4) with (2 ^ 32). unfold inode_words.
      apply Forall_cons. split; [lia|]. apply Forall_app. split; [done|].
      repeat constructor; lia.
  - destruct d as [s ds i1 i2 t p l]. simpl in *.
    do 28 (destruct ds as [|? ds]; [done|]). destruct ds; [|done].
    unfold inode_of_words, inode_words. cbn -[Z.modulo Z.div Z.mul Z.add]. f_equal.
    + rewrite Z.mul_comm, Z.mod_add, Z.mod_small by lia. done.
    + rewrite Z.mul_comm, Z.div_add, Z.div_small by lia. lia.
Qed.

Lemma pod_inode_fits d : fits (Pod := DiskInode_pod) d → inode_fits d.
Proof.
  intros [[Hl Hf] Ht]. change (256 ^ Z.of_nat 4) with (2 ^ 32) in Hf. unfold inode_words in *.
  simpl in Hl. rewrite length_app in Hl. simpl in Hl.
  apply Forall_cons in Hf as [H1 Hf]. apply Forall_app in Hf as [H2 Hf].
  repeat (apply Forall_cons in Hf as [? Hf]).
  assert (length (direct d) = 28%nat) as Hd by lia.
  assert (type_ d = (type_ d + 256 * type_pad d) mod 256 ∧
    type_pad d = (type_ d + 256 * type_pad d) / 256) as [Et Ep].
  { destruct d as [s ds i1 i2 t p l]. simpl in *.
    do 28 (destruct ds as [|? ds]; [done|]). destruct ds; [|done].
    unfold inode_of_words in Ht. cbn -[Z.modulo Z.div Z.mul Z.add] in Ht. injection Ht. auto. }
  pose proof (Z.mod_pos_bound (type_ d + 256 * type_pad d) 256 ltac:(lia)).
  split; first [done | lia].
Qed.

(** ** Operations on an inode that need no block *)
Definition set_size (n : Z) (d : DiskInode) : DiskInode :=
  mkDiskInode n (direct d) (indirect1 d) (indirect2 d) (type_ d) (type_pad d) (link_num d).
Definition set_direct (ds : list Z) (d : DiskInode) : DiskInode :=
  mkDiskInode (size d) ds (indirect1 d) (indirect2 d) (type_ d) (type_pad d) (link_num d).
Definition set_indirect1 (b : Z) (d : DiskInode) : DiskInode :=
  mkDiskInode (size d) (direct d) b (indirect2 d) (type_ d) (type_pad d) (link_num d).
Definition set_indirect2 (b : Z) (d : DiskInode) : DiskInode :=
  mkDiskInode (size d) (direct d) (indirect1 d) b (type_ d) (type_pad d) (link_num d).
Definition set_link_num (n : Z) (d : DiskInode) : DiskInode :=
  mkDiskInode (size d) (direct d) (indirect1 d) (indirect2 d) (type_ d) (type_pad d) n.

Definition DiskInode_initialize (t : DiskInodeType) (d : DiskInode) : DiskInode :=
  mkDiskInode 0 ((fun _ => 0) <$> direct d) 0 0 (type_byte t) (type_pad d) 1.
Definition DiskInode_is_dir (d : DiskInode) : bool := type_ d =? type_byte Directory.
Definition DiskInode_is_file (d : DiskInode) : bool := type_ d =? type_byte File.

Definition data_blocks_of (size : Z) : Z := div_ceil size BLOCK_SZ.
Definition DiskInode_data_blocks (d : DiskInode) : Z := data_blocks_of (size d).

Definition DiskInode_total_blocks (size : Z) : Z :=
  let data_blocks := data_blocks_of size in
  let total := data_blocks in
  let total := if data_blocks >? INODE_DIRECT_COUNT then total + 1 else total in
  let total :=
    if data_blocks >? INDIRECT1_BOUND
    then total + 1 + div_ceil (data_blocks - INDIRECT1_BOUND) INODE_INDIRECT1_COUNT
    else total in
  as_u32 total.

Definition DiskInode_blocks_num_needed (d : DiskInode) (new_size : Z) : outcome Z :=
  rassert (size d <=? new_size);;
  u32_sub (DiskInode_total_blocks new_size) (DiskInode_total_blocks (size d)).

(** [a[i]]. *)
Definition index (a : list Z) (i : Z) : outcome Z := unwrap (a !! Z.to_nat i).
(** [a[i] = v]. *)
Definition index_set (a : list Z) (i v : Z) : outcome (list Z) :=
  if bool_decide (Z.to_nat i < length a)%nat then Done (<[Z.to_nat i := v]> a) else Panic.
(** [iter.next().unwrap()]. *)
Definition next_unwrap (nb : list Z) : outcome (Z * list Z) :=
  match nb with
  | [] => Panic
  | b :: nb' => Done (b, nb')
  end.

(** The loop [while current < bound { a[current] = new_blocks.next().unwrap(); current += 1 }],
    [n] iterations. *)
Fixpoint fill_blocks (n : nat) (current : Z) (a nb : list Z) : outcome (list Z * Z * list Z) :=
  match n with
  | O => Done (a, current, nb)
  | S n' =>
      '(b, nb) ← next_unwrap nb;
      a ← index_set a current b;
      fill_blocks n' (current + 1) a nb
  end.

(** The loop of [clear_size] over the direct pointers: push, then zero. *)
Fixpoint drain_blocks (n : nat) (current : Z) (a v : list Z) : outcome (list Z * list Z) :=
  match n with
  | O => Done (a, v)
  | S n' =>
      b ← index a current;
      a ← index_set a current 0;
      drain_blocks n' (current + 1) a (v ++ [b])
  end.
(** Its loop over the first-level block: push only. *)
Fixpoint collect_blocks (n : nat) (current : Z) (a v : list Z) : outcome (list Z) :=
  match n with
  | O => Done v
  | S n' =>
      b ← index a current;
      collect_blocks n' (current + 1) a (v ++ [b])
  end.

(** ** Operations that read or write blocks *)
Section Operations.
Context {S : Type} `{!BlockStore S}.

Definition DiskInode_get_block_id (d : DiskInode) (inner_id : Z) : st S Z :=
  if inner_id <? INODE_DIRECT_COUNT then lift (index (direct d) inner_id)
  else if inner_id <? INDIRECT1_BOUND then
    cache_read IndirectBlock (indirect1 d) 0
      (fun indirect_block => lift (index indirect_block (inner_id - INODE_DIRECT_COUNT)))
  else
    let last := inner_id - INDIRECT1_BOUND in
    indirect1 ← cache_read IndirectBlock (indirect2 d) 0
      (fun indirect2 => lift (index indirect2 (last / INODE_INDIRECT1_COUNT)));
    cache_read IndirectBlock indirect1 0
      (fun indirect1 => lift (index indirect1 (last mod INODE_INDIRECT1_COUNT))).

(** The third phase of [increase_size], [n] iterations of the loop over (a0, b0). *)
Fixpoint fill_indirect2 (n : nat) (a0 b0 : Z) (indirect2 nb : list Z) : st S (list Z) :=
  match n with
  | O => mret indirect2
  | Datatypes.S n' =>
      '(indirect2, nb) ←
        (if b0 =? 0 then
           '(b, nb) ← lift (next_unwrap nb);
           indirect2 ← lift (index_set indirect2 a0 b);
           mret (indirect2, nb)
         else mret (indirect2, nb));
      target ← lift (index indirect2 a0);
      nb ← cache_modify IndirectBlock target 0 (fun indirect1 =>
        '(b, nb) ← lift (next_unwrap nb);
        indirect1 ← lift (index_set indirect1 b0 b);
        mret (nb, indirect1));
      if b0 + 1 =? INODE_INDIRECT1_COUNT
      then fill_indirect2 n' (a0 + 1) 0 indirect2 nb
      else fill_indirect2 n' a0 (b0 + 1) indirect2 nb
  end.

(** Iterations of a loop that counts [cur] up to [bound]. *)
Definition times (cur bound : Z) : nat := Z.to_nat (bound - cur).

Definition DiskInode_increase_size (d : DiskInode) (new_size : Z) (new_blocks : list Z) : st S DiskInode :=
  let current_blocks := DiskInode_data_blocks d in
  let d := set_size new_size d in
  let total_blocks := DiskInode_data_blocks d in
  '(ds, current_blocks, nb) ←
    lift (fill_blocks (times current_blocks (total_blocks `min` INODE_DIRECT_COUNT)) current_blocks
      (direct d) new_blocks);
  let d := set_direct ds d in
  if total_blocks >? INODE_DIRECT_COUNT then
    '(d, nb) ←
      (if current_blocks =? INODE_DIRECT_COUNT then
         '(b, nb) ← lift (next_unwrap nb); mret (set_indirect1 b d, nb)
       else mret (d, nb));
    current_blocks ← lift (u32_sub current_blocks INODE_DIRECT_COUNT);
    total_blocks ← lift (u32_sub total_blocks INODE_DIRECT_COUNT);
    '(current_blocks, nb) ← cache_modify IndirectBlock (indirect1 d) 0 (fun indirect1 =>
      '(a, cur, nb) ←
        lift (fill_blocks (times current_blocks (total_blocks `min` INODE_INDIRECT1_COUNT))
          current_blocks indirect1 nb);
      mret ((cur, nb), a));
    if total_blocks >? INODE_INDIRECT1_COUNT then
      '(d, nb) ←
        (if current_blocks =? INODE_INDIRECT1_COUNT then
           '(b, nb) ← lift (next_unwrap nb); mret (set_indirect2 b d, nb)
         else mret (d, nb));
      current_blocks ← lift (u32_sub current_blocks INODE_INDIRECT1_COUNT);
      total_blocks ← lift (u32_sub total_blocks INODE_INDIRECT1_COUNT);
      let a0 := current_blocks / INODE_INDIRECT1_COUNT in
      let b0 := current_blocks mod INODE_INDIRECT1_COUNT in
      cache_modify IndirectBlock (indirect2 d) 0 (fun indirect2 =>
        indirect2 ← fill_indirect2 (times current_blocks total_blocks) a0 b0 indirect2 nb;
        mret ((), indirect2));;
      mret d
    else mret d
  else mret d.

(** [clear_size]: the full first-level blocks below the second-level block. *)
Fixpoint collect_indirect2 (entries v : list Z) : st S (list Z) :=
  match entries with
  | [] => mret v
  | entry :: entries' =>
      let v := v ++ [entry] in
      v ← cache_modify IndirectBlock entry 0 (fun indirect1 => mret (v ++ indirect1, indirect1));
      collect_indirect2 entries' v
  end.

Definition DiskInode_clear_size (d : DiskInode) : st S (list Z * DiskInode) :=
  let data_blocks := DiskInode_data_blocks d in
  let d := set_size 0 d in
  '(ds, v) ← lift (drain_blocks (times 0 (data_blocks `min` INODE_DIRECT_COUNT)) 0 (direct d) []);
  let d := set_direct ds d in
  if data_blocks >? INODE_DIRECT_COUNT then
    let v := v ++ [indirect1 d] in
    let data_blocks := data_blocks - INODE_DIRECT_COUNT in
    v ← cache_modify IndirectBlock (indirect1 d) 0 (fun indirect1 =>
      v ← lift (collect_blocks (times 0 (data_blocks `min` INODE_INDIRECT1_COUNT)) 0 indirect1 v);
      mret (v, indirect1));
    let d := set_indirect1 0 d in
    if data_blocks >? INODE_INDIRECT1_COUNT then
      let v := v ++ [indirect2 d] in
      let data_blocks := data_blocks - INODE_INDIRECT1_COUNT in
      lift (rassert (data_blocks <=? INODE_INDIRECT2_COUNT));;
      let a1 := data_blocks / INODE_INDIRECT1_COUNT in
      let b1 := data_blocks mod INODE_INDIRECT1_COUNT in
      v ← cache_modify IndirectBlock (indirect2 d) 0 (fun indirect2 =>
        v ← collect_indirect2 (take (Z.to_nat a1) indirect2) v;
        v ← (if 0 <? b1 then
               last ← lift (index indirect2 a1);
               let v := v ++ [last] in
               cache_modify IndirectBlock last 0 (fun indirect1 =>
                 mret (v ++ take (Z.to_nat b1) indirect1, indirect1))
             else mret v);
        mret (v, indirect2));
      mret (v, set_indirect2 0 d)
    else mret (v, d)
  else mret (v, d).

(** The loop of [read_at], at [start] in block [start_block] of the file, with [read_size]
    bytes of [buf] filled.  Each iteration ends at a block boundary or at [end_],
    so [fuel] iterations are enough when [end_ / BLOCK_SZ - start / BLOCK_SZ < fuel]. *)
Fixpoint read_loop (fuel : nat) (d : DiskInode) (start start_block end_ read_size : Z) (buf : list Z)
    : st S (Z * list Z) :=
  match fuel with
  | O => lift Hang
  | Datatypes.S fuel' =>
      let end_current_block := ((start / BLOCK_SZ + 1) * BLOCK_SZ) `min` end_ in
      let block_read_size := end_current_block - start in
      id ← DiskInode_get_block_id d (as_u32 start_block);
      buf ← cache_read DataBlock id 0 (fun data_block =>
        let src := slice (Z.to_nat (start mod BLOCK_SZ)) (Z.to_nat block_read_size) data_block in
        mret (splice (Z.to_nat read_size) src buf));
      let read_size := read_size + block_read_size in
      if end_current_block =? end_ then mret (read_size, buf)
      else read_loop fuel' d end_current_block (start_block + 1) end_ read_size buf
  end.

(** Iterations of the loops of [read_at] and [write_at]. *)
Definition block_steps (start end_ : Z) : nat := Z.to_nat (end_ / BLOCK_SZ - start / BLOCK_SZ + 1).

(** [read_at]: the number of bytes read and the buffer. *)
Definition DiskInode_read_at (d : DiskInode) (offset : Z) (buf : list Z) : st S (Z * list Z) :=
  let start := offset in
  end_ ← lift (usize_add offset (Z.of_nat (length buf)));
  let end_ := end_ `min` size d in
  if end_ <=? start then mret (0, buf)
  else read_loop (block_steps start end_) d start (start / BLOCK_SZ) end_ 0 buf.

Fixpoint write_loop (fuel : nat) (d : DiskInode) (start start_block end_ write_size : Z) (buf : list Z)
    : st S Z :=
  match fuel with
  | O => lift Hang
  | Datatypes.S fuel' =>
      let end_current_block := ((start / BLOCK_SZ + 1) * BLOCK_SZ) `min` end_ in
      let block_write_size := end_current_block - start in
      id ← DiskInode_get_block_id d (as_u32 start_block);
      cache_modify DataBlock id 0 (fun data_block =>
        let src := slice (Z.to_nat write_size) (Z.to_nat block_write_size) buf in
        mret ((), splice (Z.to_nat (start mod BLOCK_SZ)) src data_block));;
      let write_size := write_size + block_write_size in
      if end_current_block =? end_ then mret write_size
      else write_loop fuel' d end_current_block (start_block + 1) end_ write_size buf
  end.

Definition DiskInode_write_at (d : DiskInode) (offset : Z) (buf : list Z) : st S Z :=
  let start := offset in
  end_ ← lift (usize_add offset (Z.of_nat (length buf)));
  let end_ := end_ `min` size d in
  lift (rassert (start <=? end_));;
  write_loop (block_steps start end_) d start (start / BLOCK_SZ) end_ 0 buf.

End Operations.

(** ** Directory entries *)
Record DirEntry := mkDirEntry {
  de_name : list Z;
  de_inode_number : Z;
}.
Definition DIRENT_SZ : Z := 32.

Definition DirEntry_empty : DirEntry := mkDirEntry (replicate 28 0) 0.
(** [DirEntry::new]: the name has [NAME_LENGTH_LIMIT + 1] bytes at most. *)
Definition DirEntry_new (name : list Z) (inode_number : Z) : outcome DirEntry :=
  rassert (Z.of_nat (length name) <=? NAME_LENGTH_LIMIT + 1);;
  Done (mkDirEntry (splice 0 name (replicate 28 0)) inode_number).
Definition DirEntry_as_bytes (e : DirEntry) : list Z := de_name e ++ le_encode 4 (de_inode_number e).
(** The entry whose bytes have been overwritten through [as_bytes_mut]. *)
Definition DirEntry_of_bytes (bs : list Z) : DirEntry :=
  mkDirEntry (take 28 bs) (le_decode (drop 28 bs)).

(** [core::str::from_utf8] accepts exactly the well-formed UTF-8 sequences. *)
Definition in_range (lo hi b : Z) : bool := (lo <=? b) && (b <=? hi).
Definition utf8_tail (b : Z) : bool := in_range 0x80 0xbf b.
Fixpoint from_utf8 (bs : list Z) : bool :=
  match bs with
  | [] => true
  | b0 :: r0 =>
      if b0 <? 0x80 then from_utf8 r0
      else match r0 with
      | [] => false
      | b1 :: r1 =>
          if in_range 0xc2 0xdf b0 then utf8_tail b1 && from_utf8 r1
          else match r1 with
          | [] => false
          | b2 :: r2 =>
              if in_range 0xe0 0xef b0 then
                in_range (if b0 =? 0xe0 then 0xa0 else 0x80) (if b0 =? 0xed then 0x9f else 0xbf) b1
                  && utf8_tail b2 && from_utf8 r2
              else match r2 with
              | [] => false
              | b3 :: r3 =>
                  in_range 0xf0 0xf4 b0
                    && in_range (if b0 =? 0xf0 then 0x90 else 0x80) (if b0 =? 0xf4 then 0x8f else 0xbf) b1
                    && utf8_tail b2 && utf8_tail b3 && from_utf8 r3
              end
          end
      end
  end.

(** [DirEntry::name]: up to the first NUL; indexing past the array panics. *)
Definition DirEntry_name (e : DirEntry) : outcome (list Z) :=
  '(len, _) ← unwrap (list_find (fun b => b = 0) (de_name e));
  let name := take len (de_name e) in
  rassert (from_utf8 name);;
  Done name.
Definition DirEntry_inode_number (e : DirEntry) : Z := de_inode_number e.


(** ** Theorems *)
Lemma div_ceil_mono a b c : 0 < c → a ≤ b → div_ceil a c ≤ div_ceil b c.
Proof. intros Hc Hab. rewrite !div_ceil_eq by done. apply Z.div_le_mono; lia. Qed.

(** The number of blocks of a file, without the truncation to 32 bits. *)
Lemma total_blocks_eq n : 0 ≤ n < 2 ^ 32 →
  let k := data_blocks_of n in
  DiskInode_total_blocks n = k + (if k >? 28 then 1 else 0) + (if k >? 156 then 1 + div_ceil (k - 156) 128 else 0).
Proof.
  intros Hn k. unfold DiskInode_total_blocks. fold k.
  change INODE_DIRECT_COUNT with 28. change INDIRECT1_BOUND with 156. change INODE_INDIRECT1_COUNT with 128.
  pose proof (div_ceil_bounds n BLOCK_SZ ltac:(done)) as Hk. unfold data_blocks_of in k. fold k in Hk.
  pose proof (div_ceil_bounds (k - 156) 128 ltac:(done)) as Hd. unfold BLOCK_SZ in *.
  unfold as_u32. destruct (Z.gtb_spec k 28), (Z.gtb_spec k 156); rewrite Z.mod_small; lia.
Qed.

Lemma total_blocks_mono a b : 0 ≤ a → a ≤ b → b < 2 ^ 32 →
  DiskInode_total_blocks a ≤ DiskInode_total_blocks b ∧ 0 ≤ DiskInode_total_blocks a ≤ u32_max ∧
  data_blocks_of b - data_blocks_of a ≤ DiskInode_total_blocks b - DiskInode_total_blocks a.
Proof.
  intros Ha Hab Hb. rewrite !total_blocks_eq by lia. unfold data_blocks_of.
  pose proof (div_ceil_mono a b BLOCK_SZ ltac:(done) Hab) as Hm.
  pose proof (div_ceil_bounds a BLOCK_SZ ltac:(done)). set (x := div_ceil a BLOCK_SZ) in *.
  set (y := div_ceil b BLOCK_SZ) in *. unfold BLOCK_SZ in *.
  pose proof (div_ceil_mono (x - 156) (y - 156) 128 ltac:(done) ltac:(lia)).
  pose proof (div_ceil_bounds (x - 156) 128 ltac:(done)). pose proof (div_ceil_bounds (y - 156) 128 ltac:(done)).
  unfold u32_max. destruct (Z.gtb_spec x 28), (Z.gtb_spec x 156), (Z.gtb_spec y 28), (Z.gtb_spec y 156); lia.
Qed.

(** how many blocks growing a file takes.  For any sizes that fit in 32 bits, [blocks_num_needed] panics
    exactly when the file would shrink; otherwise the subtraction does not wrap, the count covers every new
    data block, and growing in two steps takes as many blocks as growing at once. *)
Theorem blocks_needed_additive (d : DiskInode) (b c : Z) :
  0 ≤ size d → size d < 2 ^ 32 → 0 ≤ b < 2 ^ 32 → b ≤ c < 2 ^ 32 →
  (b < size d → DiskInode_blocks_num_needed d b = Panic) ∧
  (size d ≤ b → ∃ n m, DiskInode_blocks_num_needed d b = Done n ∧
    DiskInode_blocks_num_needed (set_size b d) c = Done m ∧
    DiskInode_blocks_num_needed d c = Done (n + m) ∧
    data_blocks_of b - data_blocks_of (size d) ≤ n ∧ 0 ≤ m).
Proof.
  intros Hs0 Hs Hb Hc. split; intros Hsb.
  - unfold DiskInode_blocks_num_needed. by rewrite (proj2 (Z.leb_gt _ _)) by lia.
  - destruct (total_blocks_mono (size d) b) as (H1 & H2 & H3); [lia..|].
    destruct (total_blocks_mono b c) as (H4 & H5 & H6); [lia..|].
    destruct (total_blocks_mono c c) as (_ & H7 & _); [lia..|].
    exists (DiskInode_total_blocks b - DiskInode_total_blocks (size d)),
      (DiskInode_total_blocks c - DiskInode_total_blocks b).
    unfold DiskInode_blocks_num_needed, u32_sub. cbn [size set_size].
    rewrite !(proj2 (Z.leb_le _ _)) by lia. simpl. rewrite !checked_ok by lia.
    split_and!; try done; try lia. f_equal. lia.
Qed.

(** A file grows from 100 bytes to 14 KiB (all direct), then to 100 KiB (doubly indirect). *)
Lemma blocks_needed_additive_witness :
  let d := set_size 100 (mkDiskInode 0 (replicate 28 0) 0 0 0 0 1) in
  DiskInode_blocks_num_needed d 14336 = Done 27 ∧ ∃ m, DiskInode_blocks_num_needed d 102400 = Done (27 + m).
Proof.
  simpl. set (d := set_size 100 _).
  destruct (blocks_needed_additive d 14336 102400) as [_ H]; [simpl; lia..|].
  destruct H as (n & m & Hn & _ & Hnm & _); [simpl; lia|].
  assert (n = 27) as -> by (vm_compute in Hn; congruence). split; [exact Hn|]. exists m. exact Hnm.
Defined.

Lemma find_nul name rest : 0 ∉ name → list_find (fun b => b = 0) (name ++ 0 :: rest) = Some (length name, 0).
Proof.
  intros Hn. apply list_find_Some. split_and!.
  - rewrite lookup_app_r, Nat.sub_diag by lia. done.
  - done.
  - intros j y Hj Hlt ->. rewrite lookup_app_l in Hj by lia. apply Hn. by eapply list_elem_of_lookup_2.
Qed.

(** directory entries keep their name.  A name of at most 27 bytes without NUL that is UTF-8
    comes back unchanged, with its inode number, from the 32 bytes of the entry; a name of 28 bytes is accepted
    by [DirEntry::new] but makes [name] panic, for want of a terminating NUL; a longer one makes
    [DirEntry::new] panic. *)
Theorem dir_entry_names (name : list Z) (ino : Z) :
  Forall is_byte name → 0 ∉ name → 0 ≤ ino < 2 ^ 32 →
  (Z.of_nat (length name) ≤ NAME_LENGTH_LIMIT → ∃ e, DirEntry_new name ino = Done e ∧
    Z.of_nat (length (DirEntry_as_bytes e)) = DIRENT_SZ ∧
    DirEntry_of_bytes (DirEntry_as_bytes e) = e ∧ DirEntry_inode_number e = ino ∧
    DirEntry_name e = if from_utf8 name then Done name else Panic) ∧
  (Z.of_nat (length name) = NAME_LENGTH_LIMIT + 1 → ∃ e, DirEntry_new name ino = Done e ∧
    DirEntry_name e = Panic) ∧
  (NAME_LENGTH_LIMIT + 1 < Z.of_nat (length name) → DirEntry_new name ino = Panic).
Proof.
  intros Hb Hz Hi. unfold NAME_LENGTH_LIMIT, DirEntry_new. split_and!; intros Hl.
  - rewrite (proj2 (Z.leb_le _ _)) by (unfold NAME_LENGTH_LIMIT; lia). eexists. split; [done|].
    assert (length (splice 0 name (replicate 28 0)) = 28%nat) as Hlen.
    { rewrite splice_length; rewrite ?length_replicate; lia. }
    unfold DirEntry_as_bytes, DirEntry_of_bytes, DirEntry_inode_number. cbn [de_name de_inode_number].
    split_and!.
    + rewrite length_app, le_encode_length, Hlen. done.
    + rewrite take_app_length', drop_app_length' by done. by rewrite le_decode_encode.
    + done.
    + unfold DirEntry_name. cbn [de_name]. unfold splice. rewrite take_0, drop_replicate.
      destruct (28 - (0 + length name))%nat as [|n] eqn:E; [lia|]. simpl replicate.
      rewrite app_nil_l, find_nul by done. cbn [unwrap mbind outcome_bind].
      rewrite take_app_length. by destruct (from_utf8 name).
  - rewrite (proj2 (Z.leb_le _ _)) by (unfold NAME_LENGTH_LIMIT; lia). eexists. split; [done|].
    unfold DirEntry_name. cbn [de_name]. unfold splice. rewrite take_0, drop_replicate.
    replace (28 - (0 + length name))%nat with O by lia. simpl replicate. rewrite app_nil_l, app_nil_r.
    destruct (list_find _ name) as [[i x]|] eqn:E; [|done].
    apply list_find_Some in E as (Hx & -> & _). exfalso. apply Hz. by eapply list_elem_of_lookup_2.
  - by rewrite (proj2 (Z.leb_gt _ _)) by (unfold NAME_LENGTH_LIMIT; lia).
Qed.

(** The name [initproc]. *)
Lemma dir_entry_names_witness : ∃ e, DirEntry_new [105; 110; 105; 116; 112; 114; 111; 99] 5 = Done e ∧
  DirEntry_name e = Done [105; 110; 105; 116; 112; 114; 111; 99].
Proof.
  destruct (dir_entry_names [105; 110; 105; 116; 112; 114; 111; 99] 5) as [H _].
  - repeat constructor; unfold is_byte; lia.
  - intros H. apply (bool_decide_pack _) in H. by vm_compute in H.
  - lia.
  - destruct H as (e & He & _ & _ & _ & Hn); [unfold NAME_LENGTH_LIMIT; simpl; lia|].
    exists e. split; [exact He|exact Hn].
Defined.
