(* ===== verification/Console.v ===== *)
(** * Printing and logging

    Models [tg-rcore-tutorial-console/src/lib.rs]: the output device behind a trait, the buffer of 64 bytes that collects
    what formatting gives, and the records of the log. *)

From S2P Require Import Prelude Bytes BlockStore Layout.

Module Console.

(** ** The device

    The trait [Console] over the state [W] of the machine, with the default body of [put_str]. *)
Record ConsoleImpl (W : Type) := mkConsole { put_char : Z → st W unit; put_str : list Z → st W unit }.
Arguments mkConsole {W} _ _.
Arguments put_char {W} _ _.
Arguments put_str {W} _ _.

Fixpoint put_chars {W} (put_char : Z → st W unit) (s : list Z) : st W unit :=
  match s with
  | [] => mret ()
  | c :: s => put_char c;; put_chars put_char s
  end.
Definition default_console {W} (put_char : Z → st W unit) : ConsoleImpl W := mkConsole put_char (put_chars put_char).

Inductive Level := Error | Warn | Info | Debug | Trace.
(** [log::LevelFilter]. *)
Inductive LevelFilter := Off | UpTo (l : Level).

(** [CONSOLE], whether the logger is registered, the maximal level of the [log] crate, and the machine. *)
Record state (W : Type) := mkState { CONSOLE : option (ConsoleImpl W); logger_set : bool; max_level : LevelFilter; device : W }.
Arguments mkState {W} _ _ _ _.
Arguments CONSOLE {W} _.
Arguments logger_set {W} _.
Arguments max_level {W} _.
Arguments device {W} _.

Section Console.
Context {W : Type}.
Implicit Types (k : state W).

Definition on_device {A} (f : st W A) : st (state W) A := fun k =>
  '(a, w) ← f (device k);
  Done (a, mkState (CONSOLE k) (logger_set k) (max_level k) w).

(** ** The buffer *)
Definition BUFFER_SIZE : Z := 64.
Record PrintBuffer := mkBuffer { buffer : list Z; pos : Z }.
Definition PrintBuffer_new : PrintBuffer := mkBuffer (replicate (Z.to_nat BUFFER_SIZE) 0) 0.

Definition PrintBuffer_flush (b : PrintBuffer) : st (state W) PrintBuffer :=
  if 0 <? pos b then
    k ← get_st;
    match CONSOLE k with
    | Some console => on_device (put_str console (take (Z.to_nat (pos b)) (buffer b)))
    | None => mret ()
    end;;
    mret (mkBuffer (buffer b) 0)
  else mret b.

(** [self.buffer[at..at + len(part)].copy_from_slice(part)]. *)
Definition copy_into (buf : list Z) (at_ : Z) (part : list Z) : list Z :=
  take (Z.to_nat at_) buf ++ part ++ drop (Z.to_nat at_ + length part) buf.

(** The loop of [write]. *)
Fixpoint buffer_loop (fuel : nat) (bytes : list Z) (offset : Z) (b : PrintBuffer) : st (state W) PrintBuffer :=
  match fuel with
  | O => lift Hang
  | S fuel =>
      if offset <? Z.of_nat (length bytes) then
        remaining_buffer ← lift (usize_sub BUFFER_SIZE (pos b));
        let remaining_input := Z.of_nat (length bytes) - offset in
        let to_copy := Z.min remaining_buffer remaining_input in
        let part := take (Z.to_nat to_copy) (drop (Z.to_nat offset) bytes) in
        let b := mkBuffer (copy_into (buffer b) (pos b) part) (pos b + to_copy) in
        b ← (if pos b =? BUFFER_SIZE then PrintBuffer_flush b else mret b);
        buffer_loop fuel bytes (offset + to_copy) b
      else mret b
  end.
Definition PrintBuffer_write (s : list Z) (b : PrintBuffer) : st (state W) PrintBuffer := buffer_loop (S (length s)) s 0 b.

(** [fmt::Arguments] as [write_fmt] sees them: the strings that formatting writes, one after the other. *)
Definition Arguments_ := list (list Z).
Fixpoint write_fmt (args : Arguments_) (b : PrintBuffer) : st (state W) PrintBuffer :=
  match args with
  | [] => mret b
  | s :: args => b ← PrintBuffer_write s b; write_fmt args b
  end.

Definition print (args : Arguments_) : st (state W) unit :=
  b ← write_fmt args PrintBuffer_new;
  PrintBuffer_flush b;;
  mret ().
Definition newline : Z := 10.
Definition println (args : Arguments_) : st (state W) unit :=
  print args;;
  print [[newline]].

(** ** Setting up *)

(** A second [call_once] keeps the first console; [set_logger] fails the second time. *)
Definition init_console (console : ConsoleImpl W) : st (state W) unit := fun k =>
  let k := mkState (Some (default console (CONSOLE k))) (logger_set k) (max_level k) (device k) in
  if logger_set k then Panic else Done ((), mkState (CONSOLE k) true (max_level k) (device k)).

(** [from_str] is [LevelFilter::from_str] of the [log] crate. *)
Definition set_log_level (from_str : list Z → option LevelFilter) (env : option (list Z)) : st (state W) unit := fun k =>
  Done ((), mkState (CONSOLE k) (logger_set k) (default (UpTo Trace) (env ≫= from_str)) (device k)).

(** ** Logging *)
Definition color_code (l : Level) : Z :=
  match l with Error => 31 | Warn => 93 | Info => 34 | Debug => 32 | Trace => 90 end.
Definition level_name (l : Level) : list Z :=
  match l with
  | Error => [69; 82; 82; 79; 82]
  | Warn => [87; 65; 82; 78]
  | Info => [73; 78; 70; 79]
  | Debug => [68; 69; 66; 85; 71]
  | Trace => [84; 82; 65; 67; 69]
  end.
(** [{:>5}]. *)
Definition right_aligned (n : nat) (s : list Z) : list Z := replicate (n - length s) 32 ++ s.
(** [{}] of a number below 100. *)
Definition decimal2 (n : Z) : list Z := if n <? 10 then [48 + n] else [48 + n / 10; 48 + n mod 10].

Definition log_arguments (l : Level) (args : Arguments_) : Arguments_ :=
  [[27; 91]; decimal2 (color_code l); [109; 91]; right_aligned 5 (level_name l); [93; 32]] ++ args ++ [[27; 91; 48; 109]].
Definition Logger_log (l : Level) (args : Arguments_) : st (state W) unit := println (log_arguments l args).

(** ** What reaches the device

    A text cut into pieces of the size of the buffer; the last may be shorter. *)
Definition full (s : list Z) : list (list Z) := (fun i => take 64 (drop (64 * i) s)) <$> seq 0 (length s / 64).
Definition rest (s : list Z) : list Z := drop (64 * (length s / 64)) s.
Definition pieces (s : list Z) : list (list Z) := full s ++ (if bool_decide (rest s = []) then [] else [rest s]).

Lemma full_short s : (length s < 64)%nat → full s = [] ∧ rest s = s.
Proof. intros Hs. unfold full, rest. rewrite Nat.div_small by done. done. Qed.

Lemma full_block b s : length b = 64%nat → full (b ++ s) = b :: full s ∧ rest (b ++ s) = rest s.
Proof.
  intros Hb. unfold full, rest. rewrite length_app, Hb. replace ((64 + length s) / 64)%nat with (S (length s / 64)).
  2: { replace (64 + length s)%nat with (1 * 64 + length s)%nat by lia. rewrite Nat.div_add_l by lia. lia. }
  split.
  - rewrite <-cons_seq, fmap_cons. f_equal; [by rewrite drop_0, take_app_length'|].
    rewrite <-fmap_S_seq, <-list_fmap_compose. apply list_fmap_ext. intros i x _. unfold compose.
    replace (64 * S x)%nat with (64 + 64 * x)%nat by lia. by rewrite <-drop_drop, drop_app_length'.
  - replace (64 * S (length s / 64))%nat with (64 + 64 * (length s / 64))%nat by lia. by rewrite <-drop_drop, drop_app_length'.
Qed.

(** Every text is short or starts with a block. *)
Lemma blocks_ind (P : list Z → Prop) : (∀ s, (length s < 64)%nat → P s) → (∀ b s, length b = 64%nat → P s → P (b ++ s)) → ∀ s, P s.
Proof.
  intros H1 H2 s. remember (length s) as n eqn:E. revert s E. induction (lt_wf n) as [n _ IH]. intros s ->.
  destruct (decide (length s < 64)%nat) as [|Hl]; [by apply H1|]. rewrite <-(take_drop 64 s). apply H2; [rewrite length_take; lia|].
  eapply IH; [|done]. rewrite length_drop. lia.
Qed.

Lemma pieces_block b s : length b = 64%nat → pieces (b ++ s) = b :: pieces s.
Proof. intros Hb. unfold pieces. by destruct (full_block b s Hb) as [-> ->]. Qed.
Lemma pieces_short s : (length s < 64)%nat → pieces s = if bool_decide (s = []) then [] else [s].
Proof. intros Hs. unfold pieces. by destruct (full_short s Hs) as [-> ->]. Qed.

Lemma pieces_concat s : concat (pieces s) = s.
Proof.
  induction s as [s Hs|b s Hb IH] using blocks_ind; [|rewrite pieces_block by done; simpl; by rewrite IH].
  rewrite pieces_short by done. case_bool_decide; [by subst|]. simpl. by rewrite app_nil_r.
Qed.

Lemma pieces_sizes s : Forall (fun l => l ≠ [] ∧ (length l ≤ 64)%nat) (pieces s).
Proof.
  induction s as [s Hs|b s Hb IH] using blocks_ind.
  - rewrite pieces_short by done. case_bool_decide; [constructor|]. constructor; [split; [done|lia]|constructor].
  - rewrite pieces_block by done. constructor; [|done]. split; [|lia]. by destruct b.
Qed.

(** ** What the buffer does *)
Definition put_all (console : ConsoleImpl W) (l : list (list Z)) : st W unit := foldr (fun s m => put_str console s;; m) (mret ()) l.

(** The buffer holds [c]. *)
Definition holds (b : PrintBuffer) (c : list Z) : Prop :=
  length (buffer b) = 64%nat ∧ pos b = Z.of_nat (length c) ∧ take (length c) (buffer b) = c ∧ (length c < 64)%nat.

Lemma holds_empty buf : length buf = 64%nat → holds (mkBuffer buf 0) [].
Proof. intros H. split_and!; [done..|simpl; lia]. Qed.

Lemma on_device_seq {A} (f : st W unit) (g : st W A) k : (on_device f ≫= fun _ => on_device g) k = on_device (f ≫= fun _ => g) k.
Proof. unfold on_device, mbind, st_bind. by destruct (f (device k)) as [[u w]| |]. Qed.

(** What follows an output runs with the same console. *)
Lemma on_device_then {A} (f : st W unit) (g h : st (state W) A) k : (∀ k', CONSOLE k' = CONSOLE k → g k' = h k') →
  (on_device f ≫= fun _ => g) k = (on_device f ≫= fun _ => h) k.
Proof. intros E. unfold on_device, mbind, st_bind. destruct (f (device k)) as [[u w]| |]; [|done..]. by apply E. Qed.

Lemma on_device_ret {A} (a : A) k : on_device (mret a) k = Done (a, k).
Proof. by destruct k. Qed.

(** Without a console nothing is put out. *)
Definition sink (o : option (ConsoleImpl W)) : ConsoleImpl W := default (mkConsole (fun _ => mret ()) (fun _ => mret ())) o.

Section Output.
Variable o : option (ConsoleImpl W).
#[local] Notation console := (sink o).

Lemma flush_run b c k : CONSOLE k = o → pos b = Z.of_nat (length c) → take (length c) (buffer b) = c → c ≠ [] →
  PrintBuffer_flush b k = (on_device (put_str console c) ≫= fun _ => mret (mkBuffer (buffer b) 0)) k.
Proof.
  intros Hk Hp Ht Hc. unfold PrintBuffer_flush. rewrite Hp, Nat2Z.id, Ht. rewrite (proj2 (Z.ltb_lt _ _)) by (destruct c; [done|simpl; lia]).
  rewrite (st_bind_run get_st _ _ _ _ eq_refl), Hk. destruct o; [done|].
  rewrite (st_bind_run _ _ _ _ _ (on_device_ret () k)). done.
Qed.

(** Copying behind what the buffer holds. *)
Lemma copy_behind b c part : holds b c → (length c + length part ≤ 64)%nat →
  length (copy_into (buffer b) (pos b) part) = 64%nat ∧ take (length (c ++ part)) (copy_into (buffer b) (pos b) part) = c ++ part.
Proof.
  intros (Hl & Hp & Ht & _) Hn. unfold copy_into. rewrite Hp, Nat2Z.id, Ht. split.
  - rewrite !length_app, length_drop, Hl. lia.
  - rewrite app_assoc. by apply take_app_length'.
Qed.

Lemma buffer_loop_run bytes fuel : ∀ offset b c, holds b c → 0 ≤ offset ≤ Z.of_nat (length bytes) → (Z.to_nat (Z.of_nat (length bytes) - offset) < fuel)%nat →
  let s := c ++ drop (Z.to_nat offset) bytes in
  ∃ b', holds b' (rest s) ∧ ∀ k, CONSOLE k = o →
    buffer_loop fuel bytes offset b k = (on_device (put_all console (full s)) ≫= fun _ => mret b') k.
Proof.
  induction fuel as [|fuel IH]; intros offset b c Hb Ho Hf; [lia|]. pose proof Hb as (Hl & Hp & Ht & Hc).
  destruct (decide (offset = Z.of_nat (length bytes))) as [->|Hne].
  { cbn [buffer_loop]. rewrite Z.ltb_irrefl, Nat2Z.id, drop_all, app_nil_r. destruct (full_short c Hc) as [-> ->]. exists b. split; [done|]. intros k _.
    symmetry. exact (st_bind_run _ _ _ _ _ (on_device_ret () k)). }
  set (r := drop (Z.to_nat offset) bytes). assert (length r = Z.to_nat (Z.of_nat (length bytes) - offset)) as Hr by (unfold r; rewrite length_drop; lia).
  set (n := Z.min (64 - pos b) (Z.of_nat (length bytes) - offset)). set (part := take (Z.to_nat n) r).
  assert (length part = Z.to_nat n) as Hpart by (unfold part; rewrite length_take; lia).
  destruct (copy_behind b c part Hb ltac:(lia)) as [H1 H2]. assert (Z.of_nat (length (c ++ part)) = pos b + n) as Hlen by (rewrite length_app; lia).
  assert (drop (Z.to_nat (offset + n)) bytes = drop (Z.to_nat n) r) as Hdrop by (unfold r; rewrite drop_drop; f_equal; lia).
  assert (c ++ r = (c ++ part) ++ drop (Z.to_nat n) r) as Es by (unfold part; rewrite <-app_assoc, take_drop; done).
  set (b1 := mkBuffer (copy_into (buffer b) (pos b) part) (pos b + n)).
  assert (∀ k, buffer_loop (S fuel) bytes offset b k = ((if pos b1 =? 64 then PrintBuffer_flush b1 else mret b1) ≫= buffer_loop fuel bytes (offset + n)) k) as Hstep.
  { intros k. cbn [buffer_loop]. rewrite (proj2 (Z.ltb_lt _ _)) by lia. unfold usize_sub, checked, BUFFER_SIZE.
    by rewrite (proj2 (Z.leb_le _ _)), (proj2 (Z.leb_le _ _)) by (unfold usize_max; lia). }
  destruct (Z.eqb_spec (pos b1) 64) as [E|E]; simpl in E.
  - destruct (IH (offset + n) (mkBuffer (buffer b1) 0) []) as (b' & Hb' & Hrun); [by apply holds_empty|lia|lia|]. rewrite Hdrop in Hb', Hrun.
    assert (length (c ++ part) = 64%nat) as H64 by lia. destruct (full_block (c ++ part) (drop (Z.to_nat n) r) H64) as [F1 F2].
    exists b'. rewrite Es, F1, F2. split; [done|]. intros k Hk.
    transitivity ((on_device (put_str console (c ++ part)) ≫= fun _ => buffer_loop fuel bytes (offset + n) (mkBuffer (buffer b1) 0)) k).
    + rewrite Hstep. unfold mbind at 1, st_bind at 1. rewrite (flush_run b1 (c ++ part) k Hk); [|simpl; lia|exact H2|by intros E0; rewrite E0 in H64].
      unfold mbind, st_bind. by destruct (on_device _ k) as [[u k']| |].
    + rewrite (on_device_then _ _ (on_device (put_all console (full (drop (Z.to_nat n) r))) ≫= fun _ => mret b')) by (intros k' Ek; apply Hrun; by rewrite Ek).
      change (put_all console ((c ++ part) :: full (drop (Z.to_nat n) r))) with (put_str console (c ++ part) ≫= fun _ => put_all console (full (drop (Z.to_nat n) r))).
      unfold on_device, mbind, st_bind. destruct (put_str console (c ++ part) (device k)) as [[u w]| |]; [|done..]. simpl.
      by destruct (put_all console _ w) as [[v w']| |].
  - destruct (IH (offset + n) b1 (c ++ part)) as (b' & Hb' & Hrun); [split_and!; [exact H1|simpl; lia|exact H2|lia]|lia|lia|].
    rewrite Hdrop, <-Es in Hb', Hrun. exists b'. split; [done|]. intros k Hk. rewrite <-(Hrun k Hk). by rewrite Hstep.
Qed.

Lemma full_app u v : full (u ++ v) = full u ++ full (rest u ++ v) ∧ rest (u ++ v) = rest (rest u ++ v).
Proof.
  induction u as [u Hu|b u Hb IH] using blocks_ind; [by destruct (full_short u Hu) as [-> ->]|].
  rewrite <-app_assoc. destruct (full_block b (u ++ v) Hb) as [-> ->], (full_block b u Hb) as [-> ->], IH as [-> ->]. done.
Qed.

Lemma put_all_app (con : ConsoleImpl W) l1 l2 w : put_all con (l1 ++ l2) w = (put_all con l1 ≫= fun _ => put_all con l2) w.
Proof.
  revert w. induction l1 as [|s l1 IH]; intros w; [done|]. unfold mbind, st_bind. simpl. unfold mbind, st_bind.
  destruct (put_str con s w) as [[u w']| |]; [|done..]. rewrite IH. done.
Qed.

Lemma write_fmt_run args : ∀ b c, holds b c → let s := c ++ concat args in
  ∃ b', holds b' (rest s) ∧ ∀ k, CONSOLE k = o → write_fmt args b k = (on_device (put_all console (full s)) ≫= fun _ => mret b') k.
Proof.
  induction args as [|a args IH]; intros b c Hb.
  - simpl. rewrite app_nil_r. destruct (full_short c (proj2 (proj2 (proj2 Hb)))) as [-> ->]. exists b. split; [done|]. intros k _.
    symmetry. exact (st_bind_run _ _ _ _ _ (on_device_ret () k)).
  - destruct (buffer_loop_run a (S (length a)) 0 b c Hb ltac:(lia) ltac:(lia)) as (b1 & Hb1 & Hrun1). rewrite drop_0 in Hb1, Hrun1.
    destruct (IH b1 _ Hb1) as (b' & Hb' & Hrun). simpl. rewrite app_assoc. destruct (full_app (c ++ a) (concat args)) as [-> ->].
    exists b'. split; [done|]. intros k Hk.
    transitivity ((on_device (put_all console (full (c ++ a))) ≫= fun _ => write_fmt args b1) k).
    + unfold mbind at 1, st_bind at 1. unfold PrintBuffer_write. rewrite (Hrun1 k Hk). unfold mbind, st_bind. by destruct (on_device _ k) as [[u k']| |].
    + rewrite (on_device_then _ _ (on_device (put_all console (full (rest (c ++ a) ++ concat args))) ≫= fun _ => mret b')) by (intros k' Ek; apply Hrun; by rewrite Ek).
      unfold on_device, mbind, st_bind. rewrite put_all_app. unfold mbind, st_bind.
      destruct (put_all console (full (c ++ a)) (device k)) as [[u w]| |]; [|done..]. simpl. by destruct (put_all console _ w) as [[v w']| |].
Qed.

Lemma print_run args k : CONSOLE k = o → print args k = on_device (put_all console (pieces (concat args))) k.
Proof.
  intros Hk. destruct (write_fmt_run args PrintBuffer_new []) as (b & Hb & Hrun); [by apply holds_empty|]. simpl in Hb, Hrun.
  unfold print. set (s := concat args) in *. unfold pieces.
  transitivity ((on_device (put_all console (full s)) ≫= fun _ => PrintBuffer_flush b ≫= fun _ => mret ()) k).
  { unfold mbind at 1, st_bind at 1. rewrite (Hrun k Hk). unfold mbind, st_bind. by destruct (on_device _ k) as [[u k']| |]. }
  pose proof Hb as (_ & Hp & Ht & _). case_bool_decide as E.
  - rewrite app_nil_r. transitivity ((on_device (put_all console (full s)) ≫= fun _ => mret ()) k).
    + apply on_device_then. intros k' _. unfold PrintBuffer_flush. by rewrite Hp, E.
    + unfold on_device, mbind, st_bind. by destruct (put_all console (full s) (device k)) as [[[] w]| |].
  - transitivity ((on_device (put_all console (full s)) ≫= fun _ => on_device (put_all console [rest s])) k).
    + apply on_device_then. intros k' Ek. rewrite Hk in Ek. unfold mbind at 1, st_bind at 1. rewrite (flush_run b (rest s) k' Ek Hp Ht E).
      unfold on_device, mbind, st_bind. simpl. unfold mbind, st_bind. by destruct (put_str console (rest s) (device k')) as [[[] w]| |].
    + rewrite on_device_seq. unfold on_device. by rewrite put_all_app.
Qed.
End Output.

(** A console with the default [put_str] puts out the bytes of the pieces. *)
Lemma put_all_chars (put_char : Z → st W unit) l w : put_all (default_console put_char) l w = put_chars put_char (concat l) w.
Proof.
  revert w. induction l as [|s l IH]; intros w; [done|]. simpl.
  assert (∀ s w, (put_chars put_char s ≫= fun _ => put_all (default_console put_char) l) w = put_chars put_char (s ++ concat l) w) as H; [|apply H].
  clear s w. induction s as [|c s IHs]; intros w; [apply IH|]. simpl. unfold mbind, st_bind. destruct (put_char c w) as [[u w']| |]; [|done..].
  rewrite <-IHs. unfold mbind, st_bind. done.
Qed.

(** ** What is printed *)

(** What formatting gives reaches the console once, in order, in pieces of at most 64 bytes: a text of up to 64
    bytes by one call.  With the default [put_str] that is byte by byte; without a console nothing happens. *)
Theorem print_output args k :
  print args k = match CONSOLE k with Some console => on_device (put_all console (pieces (concat args))) k | None => Done ((), k) end ∧
  concat (pieces (concat args)) = concat args ∧ Forall (fun l => l ≠ [] ∧ (length l ≤ 64)%nat) (pieces (concat args)) ∧
  ((0 < length (concat args) ≤ 64)%nat → pieces (concat args) = [concat args]) ∧
  (∀ put_char, CONSOLE k = Some (default_console put_char) → print args k = on_device (put_chars put_char (concat args)) k).
Proof.
  assert (print args k = on_device (put_all (sink (CONSOLE k)) (pieces (concat args))) k) as Hrun by by apply print_run.
  split_and!.
  - rewrite Hrun. destruct (CONSOLE k); [done|]. unfold on_device.
    assert (∀ l w, put_all (sink None) l w = Done ((), w)) as -> by (intros l w; induction l as [|s l IH]; [done|exact IH]). by destruct k.
  - apply pieces_concat.
  - apply pieces_sizes.
  - intros Hl. destruct (decide (length (concat args) = 64%nat)) as [E|E].
    + pose proof (pieces_block (concat args) [] E) as H. rewrite app_nil_r in H. rewrite H. f_equal.
    + rewrite pieces_short by lia. case_bool_decide as E2; [rewrite E2 in Hl; simpl in Hl; lia|done].
  - intros put_char E. rewrite Hrun, E. simpl. unfold on_device. by rewrite put_all_chars, pieces_concat.
Qed.

Lemma log_arguments_concat l args : concat (log_arguments l args) =
  [27; 91] ++ decimal2 (color_code l) ++ [109; 91] ++ right_aligned 5 (level_name l) ++ [93; 32] ++ concat args ++ [27; 91; 48; 109].
Proof. unfold log_arguments. rewrite !concat_app. cbn [concat]. by rewrite !app_nil_r, <-!app_assoc. Qed.

(** A record of the log is one line, but two outputs: the text, and the end of the line. *)
Lemma log_output l args k put_char : CONSOLE k = Some (default_console put_char) →
  Logger_log l args k = (on_device (put_chars put_char ([27; 91] ++ decimal2 (color_code l) ++ [109; 91] ++ right_aligned 5 (level_name l) ++ [93; 32] ++
    concat args ++ [27; 91; 48; 109]));; on_device (put_char newline)) k.
Proof.
  intros Hk. unfold Logger_log, println. destruct (print_output (log_arguments l args) k) as (_ & _ & _ & _ & Hp).
  unfold mbind at 1, st_bind at 1. rewrite (Hp _ Hk), log_arguments_concat.
  transitivity ((on_device (put_chars put_char ([27; 91] ++ decimal2 (color_code l) ++ [109; 91] ++ right_aligned 5 (level_name l) ++ [93; 32] ++
    concat args ++ [27; 91; 48; 109])) ≫= fun _ => print [[newline]]) k); [done|]. apply on_device_then. intros k' Ek. rewrite Hk in Ek.
  destruct (print_output [[newline]] k') as (_ & _ & _ & _ & Hn). rewrite (Hn _ Ek). simpl. unfold on_device, mbind, st_bind.
  by destruct (put_char newline (device k')) as [[[] w]| |].
Qed.
End Console.

(** ** Pieces and characters *)
Lemma ascii_utf8 s : Forall (fun c => 0 ≤ c < 128) s → from_utf8 s = true.
Proof. induction 1 as [|c s Hc _ IH]; [done|]. simpl. by rewrite (proj2 (Z.ltb_lt c 0x80)) by lia. Qed.

Lemma cut_utf8 u b : Forall (fun c => 0 ≤ c < 128) u → 128 ≤ b → from_utf8 (u ++ [b]) = false.
Proof.
  intros Hu Hb. induction Hu as [|c u Hc _ IH]; simpl.
  - by rewrite (proj2 (Z.ltb_ge b 0x80)) by lia.
  - by rewrite (proj2 (Z.ltb_lt c 0x80)) by lia.
Qed.

Lemma pieces_ascii s : Forall (fun c => 0 ≤ c < 128) s → Forall (fun l => from_utf8 l = true) (pieces s).
Proof.
  intros Hs. apply Forall_forall. intros l Hl. apply ascii_utf8, Forall_forall. intros c Hc. rewrite Forall_forall in Hs. apply Hs.
  rewrite <-pieces_concat. apply list_elem_of_In, in_concat. exists l. by rewrite <-!list_elem_of_In.
Qed.

(** The strings that the console gets are UTF-8 if the text is ASCII.  If its 64th byte starts a longer character, the first
    of them is not, although the buffer is taken with [from_utf8_unchecked]. *)
Theorem pieces_utf8 s : Forall (fun c => 0 ≤ c < 128) s →
  Forall (fun l => from_utf8 l = true) (pieces s) ∧
  ∀ b t, length s = 63%nat → 128 ≤ b → pieces (s ++ b :: t) = (s ++ [b]) :: pieces t ∧ from_utf8 (s ++ [b]) = false.
Proof.
  intros Hs. split; [by apply pieces_ascii|]. intros b t Hl Hb. split; [|by apply cut_utf8].
  rewrite <-pieces_block by (rewrite length_app; simpl; lia). by rewrite <-app_assoc.
Qed.

(** 63 letters and a Chinese character. *)
Lemma pieces_utf8_witness : let s := replicate 63 97 in
  from_utf8 (s ++ [0xe4; 0xbd; 0xa0]) = true ∧ pieces (s ++ [0xe4; 0xbd; 0xa0]) = [s ++ [0xe4]; [0xbd; 0xa0]] ∧ from_utf8 (s ++ [0xe4]) = false.
Proof.
  destruct (pieces_utf8 (replicate 63 97)) as [_ H]; [by apply Forall_replicate|].
  destruct (H 0xe4 [0xbd; 0xa0] eq_refl ltac:(lia)) as [H1 H2]. split_and!; [reflexivity|exact H1|exact H2].
Defined.
End Console.
