(* ===== verification/FileData.v ===== *)
(** * The contents of a file

    An inode and its index blocks name the data blocks of a file ([inode_maps]);
    on such an inode [DiskInode::read_at] and [DiskInode::write_at] read and write
    the array of bytes the data blocks hold. *)

From S2P Require Import Prelude Bytes BlockStore BlockCache Bitmap Layout.

Section FileData.
Context {S : Type} `{!BlockStore S, !BlockStoreSpec S}.
Implicit Types (w : Z → list Z) (d : DiskInode) (h bl : list Z).

(** ** The block map of an inode *)
Definition index_block w (id : Z) : list Z := at_block IndirectBlock w id 0.

Definition block_of w d (i : Z) : option Z :=
  if i <? INODE_DIRECT_COUNT then direct d !! Z.to_nat i
  else if i <? INDIRECT1_BOUND then index_block w (indirect1 d) !! Z.to_nat (i - INODE_DIRECT_COUNT)
  else
    let last := i - INDIRECT1_BOUND in
    b ← index_block w (indirect2 d) !! Z.to_nat (last / INODE_INDIRECT1_COUNT);
    index_block w b !! Z.to_nat (last mod INODE_INDIRECT1_COUNT).

(** The index blocks that are read to find block [i]. *)
Definition index_path w d (i : Z) : list Z :=
  if i <? INODE_DIRECT_COUNT then []
  else if i <? INDIRECT1_BOUND then [indirect1 d]
  else
    let last := i - INDIRECT1_BOUND in
    indirect2 d :: match index_block w (indirect2 d) !! Z.to_nat (last / INODE_INDIRECT1_COUNT) with
                   | Some b => [b] | None => [] end.

(** The data blocks of [d] are [bl], in order; they are distinct, and distinct from the
    index blocks; none of all these is held. *)
Record inode_maps w d h bl : Prop := {
  im_len : Z.of_nat (length bl) = DiskInode_data_blocks d;
  im_size : 0 ≤ size d < 2 ^ 32;
  im_block i b : bl !! i = Some b → block_of w d (Z.of_nat i) = Some b;
  im_free b : b ∈ bl → free_block b h;
  im_path i b : (i < length bl)%nat → b ∈ index_path w d (Z.of_nat i) → free_block b h ∧ b ∉ bl;
  im_nodup : NoDup bl;
}.

Lemma inside_indirect : inside (Pod0 := IndirectBlock) (list Z) 0.
Proof. split; [lia|]. simpl. unfold BLOCK_SZ. lia. Qed.
Lemma inside_data : inside (Pod0 := DataBlock) (list Z) 0.
Proof. split; [lia|]. simpl. unfold BLOCK_SZ. lia. Qed.

Lemma index_Done (a : list Z) i b : a !! Z.to_nat i = Some b → index a i = Done b.
Proof. intros E. unfold index. by rewrite E. Qed.

Lemma does_index w h id i b : free_block id h → index_block w id !! Z.to_nat i = Some b →
  does (cache_read IndirectBlock id 0 (fun a => lift (index a i))) w h b w.
Proof.
  intros Hf Hb. apply does_read; [done|apply inside_indirect|]. by apply does_lift, index_Done.
Qed.

(** [get_block_id] is the block map. *)
Lemma get_block_id_does w d h i b : block_of w d i = Some b →
  (∀ x, x ∈ index_path w d i → free_block x h) → does (DiskInode_get_block_id d i) w h b w.
Proof.
  unfold block_of, index_path, DiskInode_get_block_id. intros Hb Hp.
  destruct (i <? INODE_DIRECT_COUNT); [by apply does_lift, index_Done|].
  destruct (i <? INDIRECT1_BOUND); [apply does_index; [apply Hp; set_solver|done]|].
  apply bind_Some in Hb as (c & Hc & Hb). rewrite Hc in Hp.
  eapply does_bind; apply does_index; try done; apply Hp; set_solver.
Qed.

(** ** Whole data blocks *)
Lemma at_data w id : contents_ok w → valid id → at_block DataBlock w id 0 = w id.
Proof.
  intros Hc Hv. destruct (Hc id Hv) as [Hl _]. unfold at_block, slice.
  cbn [decode DataBlock words_pod size_of]. rewrite drop_0, take_ge by (rewrite Hl; simpl; lia).
  replace 512%nat with (length (w id)). apply words_decode_byte.
Qed.
Lemma put_data w id b : length b = 512%nat → length (w id) = 512%nat → Forall is_byte b →
  put_block DataBlock id 0 b w = set_block id b w.
Proof.
  intros Hl Hw Hb. unfold put_block, splice. cbn [encode DataBlock words_pod].
  rewrite words_encode_byte by done. simpl. rewrite drop_ge by lia. by rewrite app_nil_r.
Qed.
Lemma data_fits b : length b = 512%nat → Forall is_byte b → fits (Pod := DataBlock) b.
Proof.
  intros Hl Hb. split; [done|]. eapply Forall_impl; [exact Hb|]. intros x [? ?]. simpl. lia.
Qed.

(** ** The bytes of a file *)
Definition file_byte w bl (j : Z) : Z := (w (bl !!! Z.to_nat (j / BLOCK_SZ))) !!! Z.to_nat (j mod BLOCK_SZ).
Definition file_range w bl (a n : Z) : list Z := file_byte w bl <$> seqZ a n.
(** The whole file. *)
Definition file_bytes w d bl : list Z := file_range w bl 0 (size d).

Lemma file_range_app w bl a n m : 0 ≤ n → 0 ≤ m →
  file_range w bl a (n + m) = file_range w bl a n ++ file_range w bl (a + n) m.
Proof. intros. unfold file_range. by rewrite seqZ_app, fmap_app by lia. Qed.
Lemma file_range_length w bl a n : length (file_range w bl a n) = Z.to_nat n.
Proof. unfold file_range. by rewrite length_fmap, length_seqZ. Qed.
Lemma file_range_lookup w bl a n i : 0 ≤ Z.of_nat i < n →
  file_range w bl a n !! i = Some (file_byte w bl (a + Z.of_nat i)).
Proof. intros. unfold file_range. by rewrite list_lookup_fmap, lookup_seqZ_lt by lia. Qed.

(** Part of a block is part of the file. *)
Lemma slice_file_range w bl a n b : contents_ok w → valid b → 0 ≤ a → 0 ≤ n →
  bl !! Z.to_nat (a / BLOCK_SZ) = Some b → a mod BLOCK_SZ + n ≤ BLOCK_SZ →
  slice (Z.to_nat (a mod BLOCK_SZ)) (Z.to_nat n) (w b) = file_range w bl a n.
Proof.
  intros Hc Hv Ha Hn Hb Hfit. destruct (Hc b Hv) as [Hl _]. unfold BLOCK_SZ in *.
  pose proof (Z.div_mod a 512 ltac:(lia)). pose proof (Z.mod_pos_bound a 512 ltac:(lia)).
  apply list_eq_same_length with (n := Z.to_nat n); [by rewrite file_range_length|rewrite slice_length; lia|].
  intros i x y Hi Hx Hy. rewrite slice_lookup in Hx by lia.
  rewrite file_range_lookup in Hy by lia. injection Hy as <-. unfold file_byte, BLOCK_SZ.
  assert ((a + Z.of_nat i) / 512 = a / 512) as -> by (symmetry; apply (Z.div_unique _ _ _ (a mod 512 + Z.of_nat i)); lia).
  assert ((a + Z.of_nat i) mod 512 = a mod 512 + Z.of_nat i) as -> by (symmetry; apply (Z.mod_unique _ _ (a / 512)); lia).
  rewrite (list_lookup_total_correct _ _ _ Hb). symmetry. apply list_lookup_total_correct.
  rewrite <-Hx. f_equal. lia.
Qed.

(** ** Reading *)
(** The block of the file that holds byte [a]. *)
Lemma inode_maps_at w d h bl a : inode_maps w d h bl → 0 ≤ a < BLOCK_SZ * Z.of_nat (length bl) →
  ∃ b, bl !! Z.to_nat (a / BLOCK_SZ) = Some b ∧ free_block b h ∧
    does (DiskInode_get_block_id d (as_u32 (a / BLOCK_SZ))) w h b w.
Proof.
  intros [Hlen Hsz Hblk Hfree Hpath Hnd] Ha. unfold DiskInode_data_blocks, data_blocks_of in Hlen.
  pose proof (div_ceil_bounds (size d) BLOCK_SZ ltac:(done)) as Hdc. unfold BLOCK_SZ in *.
  assert (0 ≤ a / 512 < Z.of_nat (length bl)) as Hi.
  { split; [apply Z.div_pos; lia|apply Z.div_lt_upper_bound; lia]. }
  destruct (lookup_lt_is_Some_2 bl (Z.to_nat (a / 512))) as [b Hb]; [lia|].
  assert (as_u32 (a / 512) = Z.of_nat (Z.to_nat (a / 512))) as ->.
  { unfold as_u32. rewrite Z.mod_small; lia. }
  exists b. split_and!; [done|apply Hfree; by eapply list_elem_of_lookup_2|].
  apply get_block_id_does; [by apply Hblk|]. intros x Hx.
  apply (Hpath (Z.to_nat (a / 512))); [by eapply lookup_lt_Some|done].
Qed.

Lemma size_blocks w d h bl : inode_maps w d h bl → size d ≤ BLOCK_SZ * Z.of_nat (length bl).
Proof.
  intros [Hlen _ _ _ _ _]. rewrite Hlen. unfold DiskInode_data_blocks, data_blocks_of.
  by apply div_ceil_bounds.
Qed.

(** How the loops of [read_at] and [write_at] advance. *)
Lemma block_advance start end_ : 0 ≤ start ≤ end_ →
  let e := ((start / BLOCK_SZ + 1) * BLOCK_SZ) `min` end_ in
  start ≤ e ≤ end_ ∧ start mod BLOCK_SZ + (e - start) ≤ BLOCK_SZ ∧
  (e ≠ end_ → start < e ∧ e < end_ ∧ e / BLOCK_SZ = start / BLOCK_SZ + 1).
Proof.
  intros Hs e. unfold e, BLOCK_SZ in *. clear e.
  pose proof (Z.div_mod start 512 ltac:(lia)). pose proof (Z.mod_pos_bound start 512 ltac:(lia)).
  split; [lia|]. split; [lia|]. intros He. assert ((start / 512 + 1) * 512 < end_) by lia.
  rewrite Z.min_l by lia. split; [lia|]. split; [lia|]. by rewrite Z.div_mul.
Qed.

Lemma read_loop_does w d h bl fuel start end_ rs buf : contents_ok w → inode_maps w d h bl →
  0 ≤ start < end_ → end_ ≤ size d → 0 ≤ rs → rs + (end_ - start) ≤ Z.of_nat (length buf) →
  end_ / BLOCK_SZ - start / BLOCK_SZ < Z.of_nat fuel →
  does (read_loop fuel d start (start / BLOCK_SZ) end_ rs buf) w h
    (rs + (end_ - start), splice (Z.to_nat rs) (file_range w bl start (end_ - start)) buf) w.
Proof.
  intros Hc Hm. pose proof (size_blocks w d h bl Hm) as Hsb.
  revert start rs buf. induction fuel as [|fuel IH]; intros start rs buf Hs He Hrs Hbuf Hfuel.
  { assert (start / BLOCK_SZ ≤ end_ / BLOCK_SZ) by (apply Z.div_le_mono; unfold BLOCK_SZ; lia). lia. }
  destruct (inode_maps_at w d h bl start Hm) as (b & Hb & Hfree & Hid); [lia|].
  destruct (block_advance start end_) as (He1 & He2 & He3); [lia|]. cbn [read_loop].
  set (e := ((start / BLOCK_SZ + 1) * BLOCK_SZ) `min` end_) in *.
  pose proof Hfree as [Hv _].
  eapply does_bind; [exact Hid|]. eapply does_bind.
  { apply does_read; [done|apply inside_data|]. rewrite at_data by done.
    rewrite (slice_file_range w bl start (e - start) b) by (done || lia). apply does_ret. }
  destruct (Z.eqb_spec e end_) as [Ee|Ee]; [rewrite Ee; apply does_ret|].
  destruct (He3 Ee) as (H1 & H2 & H3). rewrite <-H3.
  replace (rs + (end_ - start)) with (rs + (e - start) + (end_ - e)) by lia.
  replace (splice (Z.to_nat rs) (file_range w bl start (end_ - start)) buf) with
    (splice (Z.to_nat (rs + (e - start))) (file_range w bl e (end_ - e))
      (splice (Z.to_nat rs) (file_range w bl start (e - start)) buf)).
  - apply IH; try lia. rewrite splice_length; rewrite ?file_range_length; lia.
  - replace (end_ - start) with ((e - start) + (end_ - e)) by lia. rewrite file_range_app by lia.
    replace (start + (e - start)) with e by lia.
    rewrite <-splice_splice by (rewrite !file_range_length; lia). f_equal.
    rewrite file_range_length. lia.
Qed.

(** [read_at]: the bytes of the file from [offset], as many as fit the buffer and the file has. *)
Lemma read_at_does w d h bl offset buf : contents_ok w → inode_maps w d h bl → 0 ≤ offset →
  offset + Z.of_nat (length buf) ≤ usize_max →
  let n := Z.max 0 ((offset + Z.of_nat (length buf)) `min` size d - offset) in
  does (DiskInode_read_at d offset buf) w h (n, splice 0 (file_range w bl offset n) buf) w.
Proof.
  intros Hc Hm Ho Hu n. unfold DiskInode_read_at. eapply does_bind.
  { apply does_lift, checked_ok. lia. }
  set (e := (offset + Z.of_nat (length buf)) `min` size d) in *.
  destruct (Z.leb_spec e offset) as [Hle|Hlt].
  - replace n with 0 by lia. unfold splice. simpl. apply does_ret.
  - replace n with (0 + (e - offset)) by lia. change 0%nat with (Z.to_nat 0).
    rewrite Z.add_0_l at 2.
    apply read_loop_does; try done; try lia. unfold block_steps.
    assert (offset / BLOCK_SZ ≤ e / BLOCK_SZ) by (apply Z.div_le_mono; unfold BLOCK_SZ; lia). lia.
Qed.

(** ** Writing *)
Lemma inode_maps_frame w w' d h bl : inode_maps w d h bl → (∀ k, k ∉ bl → w' k = w k) →
  inode_maps w' d h bl.
Proof.
  intros [Hlen Hsz Hblk Hfree Hpath Hnd] Hw.
  assert (∀ k, k ∉ bl → index_block w' k = index_block w k) as Hidx.
  { intros k Hk. unfold index_block, at_block. by rewrite Hw. }
  assert (∀ i, (i < length bl)%nat → index_path w' d (Z.of_nat i) = index_path w d (Z.of_nat i) ∧
    block_of w' d (Z.of_nat i) = block_of w d (Z.of_nat i)) as Hsame.
  { intros i Hi. specialize (Hpath i). unfold index_path, block_of in *.
    destruct (Z.of_nat i <? INODE_DIRECT_COUNT); [done|].
    destruct (Z.of_nat i <? INDIRECT1_BOUND).
    - rewrite Hidx; [done|]. apply Hpath; [done|set_solver].
    - rewrite Hidx by (apply Hpath; [done|set_solver]). split; [done|].
      destruct (index_block w (indirect2 d) !! _) as [c|] eqn:E; [|done]. simpl.
      rewrite Hidx; [done|]. apply Hpath; [done|set_solver]. }
  split; try done.
  - intros i b Hb. rewrite (proj2 (Hsame i ltac:(by eapply lookup_lt_Some))). by apply Hblk.
  - intros i b Hi. rewrite (proj1 (Hsame i Hi)). by apply Hpath.
Qed.

(** One block rewritten in part. *)
Lemma file_byte_write w bl a src b j : contents_ok w → valid b → NoDup bl → 0 ≤ a →
  bl !! Z.to_nat (a / BLOCK_SZ) = Some b → a mod BLOCK_SZ + Z.of_nat (length src) ≤ BLOCK_SZ →
  0 ≤ j < BLOCK_SZ * Z.of_nat (length bl) →
  file_byte (set_block b (splice (Z.to_nat (a mod BLOCK_SZ)) src (w b)) w) bl j =
    if decide (a ≤ j < a + Z.of_nat (length src)) then src !!! Z.to_nat (j - a) else file_byte w bl j.
Proof.
  intros Hc Hv Hnd Ha Hb Hfit Hj. destruct (Hc b Hv) as [Hl _]. unfold file_byte, BLOCK_SZ in *.
  pose proof (Z.div_mod a 512 ltac:(lia)). pose proof (Z.mod_pos_bound a 512 ltac:(lia)).
  pose proof (Z.div_mod j 512 ltac:(lia)). pose proof (Z.mod_pos_bound j 512 ltac:(lia)).
  assert (0 ≤ j / 512 < Z.of_nat (length bl)) as Hjd.
  { split; [apply Z.div_pos; lia|apply Z.div_lt_upper_bound; lia]. }
  pose proof (list_lookup_lookup_total_lt bl (Z.to_nat (j / 512)) ltac:(lia)) as Hbj.
  unfold set_block. case_decide as Eb.
  - rewrite Eb in Hbj. pose proof (NoDup_lookup _ _ _ _ Hnd Hb Hbj) as Ei.
    assert (a / 512 = j / 512) as Eq.
    { assert (0 ≤ a / 512) by (apply Z.div_pos; lia). lia. }
    rewrite Eb, !list_lookup_total_alt, splice_lookup by lia.
    repeat case_decide; first [lia | done | (rewrite ?list_lookup_total_alt; do 2 f_equal; lia)].
  - case_decide; [|done]. exfalso. apply Eb.
    assert (j / 512 = a / 512) as Eq by lia. rewrite Eq. by apply list_lookup_total_correct.
Qed.

Lemma write_step_does w d h bl start n ws buf : contents_ok w → inode_maps w d h bl → Forall is_byte buf →
  0 ≤ start < BLOCK_SZ * Z.of_nat (length bl) → 0 ≤ n → start mod BLOCK_SZ + n ≤ BLOCK_SZ →
  0 ≤ ws → ws + n ≤ Z.of_nat (length buf) →
  ∃ b w', does (DiskInode_get_block_id d (as_u32 (start / BLOCK_SZ))) w h b w ∧
    does (cache_modify DataBlock b 0 (fun data_block =>
      mret ((), splice (Z.to_nat (start mod BLOCK_SZ)) (slice (Z.to_nat ws) (Z.to_nat n) buf) data_block))) w h () w' ∧
    contents_ok w' ∧ (∀ k, k ∉ bl → w' k = w k) ∧
    ∀ j, 0 ≤ j < BLOCK_SZ * Z.of_nat (length bl) → file_byte w' bl j =
      if decide (start ≤ j < start + n) then buf !!! Z.to_nat (ws + (j - start)) else file_byte w bl j.
Proof.
  intros Hc Hm Hbuf Hs Hn Hfit Hws Hlen.
  destruct (inode_maps_at w d h bl start Hm Hs) as (b & Hb & Hfree & Hid). pose proof Hfree as [Hv _].
  destruct (Hc b Hv) as [Hl Hbytes].
  set (src := slice (Z.to_nat ws) (Z.to_nat n) buf).
  assert (length src = Z.to_nat n) as Hsrc by (apply slice_length; lia).
  set (blk := splice (Z.to_nat (start mod BLOCK_SZ)) src (w b)).
  assert (length blk = 512%nat) as Hblk.
  { unfold blk. rewrite splice_length; [done|]. unfold BLOCK_SZ in *.
    pose proof (Z.mod_pos_bound start 512 ltac:(lia)). lia. }
  assert (Forall is_byte blk) as Hbb.
  { apply splice_bytes; [|done]. by apply Forall_take, Forall_drop. }
  exists b, (set_block b blk w). split_and!; [done| | | |].
  - rewrite <-put_data by done. apply does_update; [done|done|apply inside_data|by apply data_fits|].
    rewrite at_data by done. apply does_ret.
  - intros k Hk. unfold set_block. case_decide; [done|by apply Hc].
  - intros k Hk. rewrite set_block_ne; [done|]. intros ->. apply Hk. by eapply list_elem_of_lookup_2.
  - intros j Hj. unfold blk. rewrite (file_byte_write w bl start src b j);
      [|done|done|by destruct Hm|lia|done|lia|done].
    rewrite Hsrc, Z2Nat.id by lia. case_decide; [|done].
    unfold src. rewrite !list_lookup_total_alt, slice_lookup by lia. do 2 f_equal. lia.
Qed.

Lemma write_loop_does w d h bl fuel start end_ ws buf : contents_ok w → inode_maps w d h bl →
  Forall is_byte buf → 0 ≤ start ≤ end_ → start < BLOCK_SZ * Z.of_nat (length bl) → end_ ≤ size d →
  0 ≤ ws → ws + (end_ - start) ≤ Z.of_nat (length buf) →
  end_ / BLOCK_SZ - start / BLOCK_SZ < Z.of_nat fuel →
  ∃ w', does (write_loop fuel d start (start / BLOCK_SZ) end_ ws buf) w h (ws + (end_ - start)) w' ∧
    contents_ok w' ∧ (∀ k, k ∉ bl → w' k = w k) ∧
    ∀ j, 0 ≤ j < BLOCK_SZ * Z.of_nat (length bl) → file_byte w' bl j =
      if decide (start ≤ j < end_) then buf !!! Z.to_nat (ws + (j - start)) else file_byte w bl j.
Proof.
  intros Hc Hm Hbuf. revert w Hc Hm start ws.
  induction fuel as [|fuel IH]; intros w Hc Hm start ws Hs Hsb He Hws Hlen Hfuel.
  { assert (start / BLOCK_SZ ≤ end_ / BLOCK_SZ) by (apply Z.div_le_mono; unfold BLOCK_SZ; lia). lia. }
  pose proof (size_blocks w d h bl Hm) as Hsize.
  destruct (block_advance start end_ Hs) as (He1 & He2 & He3). cbn [write_loop].
  set (e := ((start / BLOCK_SZ + 1) * BLOCK_SZ) `min` end_) in *.
  destruct (write_step_does w d h bl start (e - start) ws buf) as (b & w1 & Hid & Hwr & Hc1 & Hf1 & Hb1);
    [done|done|done|lia|lia|lia|lia|lia|].
  destruct (Z.eqb_spec e end_) as [Ee|Ee].
  - exists w1. split_and!; [|done|done|].
    + eapply does_bind; [exact Hid|]. eapply does_bind; [exact Hwr|]. rewrite Ee. apply does_ret.
    + intros j Hj. rewrite Hb1 by done. replace (start + (e - start)) with end_ by lia. done.
  - destruct (He3 Ee) as (H1 & H2 & H3).
    destruct (IH w1 Hc1 (inode_maps_frame w w1 d h bl Hm Hf1) e (ws + (e - start)))
      as (w2 & Hd2 & Hc2 & Hf2 & Hb2); try lia.
    exists w2. split_and!; [|done|by intros k Hk; rewrite Hf2, Hf1|].
    + eapply does_bind; [exact Hid|]. eapply does_bind; [exact Hwr|]. rewrite <-H3.
      by replace (ws + (end_ - start)) with (ws + (e - start) + (end_ - e)) by lia.
    + intros j Hj. rewrite Hb2, Hb1 by done. repeat case_decide; try lia; try done. f_equal. lia.
Qed.

(** Bytes that are replaced, one by one and in the list. *)
Lemma file_bytes_splice w w' d bl offset e buf : 0 ≤ offset ≤ e → e ≤ size d → e - offset ≤ Z.of_nat (length buf) →
  (∀ j, 0 ≤ j < size d → file_byte w' bl j = if decide (offset ≤ j < e) then buf !!! Z.to_nat (j - offset) else file_byte w bl j) →
  file_bytes w' d bl = splice (Z.to_nat offset) (take (Z.to_nat (e - offset)) buf) (file_bytes w d bl).
Proof.
  intros Ho He Hl Hb. unfold file_bytes. apply list_eq. intros i.
  assert (length (take (Z.to_nat (e - offset)) buf) = Z.to_nat (e - offset)) as Hlt by (rewrite length_take; lia).
  rewrite splice_lookup by (rewrite Hlt, file_range_length; lia). rewrite Hlt.
  destruct (decide (Z.of_nat i < size d)).
  - rewrite !file_range_lookup, Hb by lia. repeat case_decide; try lia; [|done].
    rewrite lookup_take_lt by lia. rewrite list_lookup_lookup_total_lt by lia. do 2 f_equal. lia.
  - rewrite decide_False by lia. rewrite !(lookup_ge_None_2 _ i); [done|rewrite file_range_length; lia..].
Qed.

(** [write_at] on a part of the file that begins inside it: byte by byte, and for the file as a whole. *)
Lemma write_at_run w d h bl offset buf : contents_ok w → inode_maps w d h bl → Forall is_byte buf →
  0 ≤ offset < size d → offset + Z.of_nat (length buf) ≤ usize_max →
  let e := (offset + Z.of_nat (length buf)) `min` size d in
  ∃ w', does (DiskInode_write_at d offset buf) w h (e - offset) w' ∧ contents_ok w' ∧ (∀ k, k ∉ bl → w' k = w k) ∧
    ∀ j, 0 ≤ j < BLOCK_SZ * Z.of_nat (length bl) → file_byte w' bl j =
      if decide (offset ≤ j < e) then buf !!! Z.to_nat (j - offset) else file_byte w bl j.
Proof.
  intros Hc Hm Hbuf Ho Hu e. pose proof (size_blocks w d h bl Hm) as Hsize.
  destruct (write_loop_does w d h bl (block_steps offset e) offset e 0 buf) as (w' & Hd & Hc' & Hf & Hb);
    try done; try lia.
  { unfold block_steps. assert (offset / BLOCK_SZ ≤ e / BLOCK_SZ) by (apply Z.div_le_mono; unfold BLOCK_SZ; lia). lia. }
  exists w'. split_and!; [|done|done|exact Hb].
  unfold DiskInode_write_at. eapply does_bind; [apply does_lift, checked_ok; lia|].
  fold e. eapply does_bind; [apply does_lift; rewrite (proj2 (Z.leb_le _ _)) by lia; done|]. done.
Qed.

Lemma write_at_does w d h bl offset buf : contents_ok w → inode_maps w d h bl → Forall is_byte buf →
  0 ≤ offset < size d → offset + Z.of_nat (length buf) ≤ usize_max →
  let n := (offset + Z.of_nat (length buf)) `min` size d - offset in
  ∃ w', does (DiskInode_write_at d offset buf) w h n w' ∧ contents_ok w' ∧ inode_maps w' d h bl ∧
    (∀ k, k ∉ bl → w' k = w k) ∧
    file_bytes w' d bl = splice (Z.to_nat offset) (take (Z.to_nat n) buf) (file_bytes w d bl).
Proof.
  intros Hc Hm Hbuf Ho Hu n. pose proof (size_blocks w d h bl Hm) as Hsize.
  destruct (write_at_run w d h bl offset buf Hc Hm Hbuf Ho Hu) as (w' & Hd & Hc' & Hf & Hb).
  set (e := (offset + Z.of_nat (length buf)) `min` size d) in *.
  exists w'. split_and!; [done|done|by eapply inode_maps_frame|done|].
  apply file_bytes_splice; [lia..|]. intros j Hj. apply Hb. lia.
Qed.
End FileData.

(** ** Theorems *)

(** C34: a file is an array of bytes.  On an inode whose blocks are mapped to distinct data blocks,
    through direct, singly and doubly indirect pointers alike,
    [write_at] stores the buffer at the offset, as far as the file reaches, and changes no other byte
    of the file and no block of any other; a [read_at] of as many bytes then returns what was
    written. *)
Theorem file_write_read {S} `{!BlockStore S, !BlockStoreSpec S} (w : Z → list Z) (d : DiskInode)
    (h bl : list Z) (offset : Z) (buf : list Z) :
  contents_ok w → inode_maps w d h bl → Forall is_byte buf →
  0 ≤ offset < size d → offset + Z.of_nat (length buf) ≤ usize_max →
  let n := (offset + Z.of_nat (length buf)) `min` size d - offset in
  ∃ w', does (DiskInode_write_at d offset buf) w h n w' ∧ inode_maps w' d h bl ∧
    file_bytes w' d bl = splice (Z.to_nat offset) (take (Z.to_nat n) buf) (file_bytes w d bl) ∧
    (∀ k, k ∉ bl → w' k = w k) ∧
    ∀ out, Z.of_nat (length out) = n →
      does (DiskInode_read_at d offset out) w' h (n, take (Z.to_nat n) buf) w'.
Proof.
  intros Hc Hm Hbuf Ho Hu n.
  destruct (write_at_does w d h bl offset buf Hc Hm Hbuf Ho Hu) as (w' & Hd & Hc' & Hm' & Hf & Hb).
  fold n in Hd, Hb. exists w'. do 4 (split; [done|]). intros out Hout.
  pose proof (read_at_does w' d h bl offset out Hc' Hm' ltac:(lia) ltac:(lia)) as Hr. simpl in Hr.
  replace (Z.max 0 _) with n in Hr by lia.
  assert (length (take (Z.to_nat n) buf) = Z.to_nat n) as Hlt by (rewrite length_take; lia).
  enough (splice 0 (file_range w' bl offset n) out = take (Z.to_nat n) buf) as <- by done.
  unfold splice. rewrite take_0, drop_ge, app_nil_r by (rewrite file_range_length; lia). simpl.
  assert (length (file_bytes w d bl) = Z.to_nat (size d)) as Hfl by apply file_range_length.
  rewrite <-(slice_splice (Z.to_nat offset) (take (Z.to_nat n) buf) (file_bytes w d bl)) by lia.
  rewrite <-Hb, Hlt. unfold slice, file_bytes, file_range.
  rewrite <-fmap_drop, <-fmap_take. f_equal. replace (size d) with (offset + (n + (size d - offset - n))) by lia.
  rewrite seqZ_app, drop_app_length' by (rewrite ?length_seqZ; lia).
  rewrite seqZ_app, take_app_length' by (rewrite ?length_seqZ; lia). done.
Qed.

(** A file of 600 bytes in blocks 10 and 11 of a small device behind the cache; twenty bytes
    are written across the block boundary. *)
Definition demo_inode : DiskInode := mkDiskInode 600 ([10; 11] ++ replicate 26 0) 0 0 0 0 1.
Definition demo_spec : BlockStoreSpec (CacheState mem_device) :=
  cache_store_spec (BlockDeviceSpec0 := mem_device_spec 16).
Definition demo_contents : Z → list Z := fun _ => replicate 512 0.

Lemma demo_contents_ok : contents_ok (BlockStoreSpec0 := demo_spec) demo_contents.
Proof.
  intros k _. split; [by apply length_replicate|]. apply Forall_replicate. unfold is_byte. lia.
Qed.
Lemma demo_free k : 0 ≤ k < 16 → free_block (BlockStoreSpec0 := demo_spec) k [].
Proof. intros Hk. split; [simpl; lia|]. split; [set_solver|unfold BLOCK_CACHE_SIZE; simpl; lia]. Qed.
Lemma demo_inode_maps : inode_maps (BlockStoreSpec0 := demo_spec) demo_contents demo_inode [] [10; 11].
Proof.
  split; try done.
  - intros i b Hi. by destruct i as [|[|i]]; [injection Hi as <-..|].
  - intros b Hb. rewrite !elem_of_cons in Hb. destruct Hb as [->|[->|Hb%elem_of_nil]]; [..|done]; by apply demo_free.
  - intros i b Hi. simpl in Hi. destruct i as [|[|i]]; [| |lia]; intros Hb%elem_of_nil; done.
  - apply NoDup_cons. split; [set_solver|apply NoDup_singleton].
Qed.

Lemma file_write_read_witness :
  ∃ w', does (BlockStoreSpec0 := demo_spec) (DiskInode_write_at demo_inode 505 (replicate 20 7))
      demo_contents [] 20 w' ∧
    does (BlockStoreSpec0 := demo_spec) (DiskInode_read_at demo_inode 505 (replicate 20 0))
      w' [] (20, replicate 20 7) w'.
Proof.
  destruct (file_write_read (BlockStoreSpec0 := demo_spec) demo_contents demo_inode [] [10; 11] 505
    (replicate 20 7) demo_contents_ok demo_inode_maps) as (w' & Hw & _ & _ & _ & Hr).
  - apply Forall_replicate. unfold is_byte. lia.
  - simpl. lia.
  - unfold usize_max. simpl. lia.
  - exists w'. split; [exact Hw|]. exact (Hr (replicate 20 0) eq_refl).
Defined.
