(* ===== verification/FileGrowth.v ===== *)
(** * Files that grow and files that are cleared

    [DiskInode::increase_size] hands new blocks to an inode, as data blocks and as the index blocks that name them, and
    [DiskInode::clear_size] gives all of them back ([tg-rcore-tutorial-ch6/tg-rcore-tutorial-easy-fs/src/layout.rs]). *)

From S2P Require Import Prelude Bytes BlockStore BlockCache Bitmap Layout FileData.

(** ** The loop that fills a table *)
Lemma fill_blocks_run k : ∀ cur a nb, 0 ≤ cur → (k = 0 ∨ Z.to_nat cur + k ≤ length a)%nat → (k ≤ length nb)%nat →
  fill_blocks k cur a nb = Done (take (Z.to_nat cur) a ++ take k nb ++ drop (Z.to_nat cur + k) a, cur + Z.of_nat k, drop k nb).
Proof.
  induction k as [|k IH]; intros cur a nb Hc Ha Hn.
  { simpl. by rewrite Nat.add_0_r, take_drop, Z.add_0_r, drop_0. }
  destruct Ha as [|Ha]; [done|]. destruct nb as [|b nb]; [simpl in Hn; lia|]. simpl in Hn. simpl. unfold index_set. rewrite bool_decide_true by lia. simpl.
  rewrite IH by (rewrite ?length_insert; lia). replace (Z.to_nat (cur + 1)) with (S (Z.to_nat cur)) by lia.
  rewrite (take_S_r _ _ b) by (rewrite list_lookup_insert_eq; [done|lia]). rewrite take_insert_ge, drop_insert_lt by lia.
  rewrite <-app_assoc. simpl. replace (Z.to_nat cur + S k)%nat with (S (Z.to_nat cur + k)) by lia. do 3 f_equal. lia.
Qed.

Section FileGrowth.
Context {S : Type} `{!BlockStore S, !BlockStoreSpec S}.
Implicit Types (w : Z → list Z) (d : DiskInode) (h nb L : list Z) (n m : nat).

(** ** The blocks of an inode *)
Definition entry w L (j : nat) : Z := index_block w (L !!! (j / 128)%nat) !!! (j mod 128)%nat.
(** The index blocks for [m] blocks below the second level. *)
Definition tables (m : nat) : nat := ((m + 127) / 128)%nat.
Definition level3 w L (m : nat) : list Z := entry w L <$> seq 0 m.

(** The data blocks of an inode with [n] of them, and its index blocks. *)
Definition data_list w d n : list Z :=
  take n (direct d) ++ take (n - 28) (index_block w (indirect1 d)) ++ level3 w (index_block w (indirect2 d)) (n - 156).
Definition index_list w d n : list Z :=
  (if decide (28 < n)%nat then [indirect1 d] else []) ++
  (if decide (156 < n)%nat then indirect2 d :: take (tables (n - 156)) (index_block w (indirect2 d)) else []).

Lemma index_block_fits w id : contents_ok w → valid id → words_fit 4 128 (index_block w id).
Proof. intros Hc Hv. apply (at_block_fits IndirectBlock); [done..|apply inside_indirect]. Qed.

(** *** Tables *)
Lemma tables_step_new m : (m mod 128 = 0)%nat → tables m = (m / 128)%nat ∧ tables (m + 1) = Datatypes.S (m / 128).
Proof.
  intros Hm. unfold tables. pose proof (Nat.div_mod m 128 ltac:(lia)) as E. rewrite Hm in E. split.
  - symmetry. apply (Nat.div_unique _ _ _ 127); lia.
  - symmetry. apply (Nat.div_unique _ _ _ 0); lia.
Qed.
Lemma tables_step_old m : (m mod 128 ≠ 0)%nat → tables m = Datatypes.S (m / 128) ∧ tables (m + 1) = Datatypes.S (m / 128).
Proof.
  intros Hm. unfold tables. pose proof (Nat.div_mod m 128 ltac:(lia)) as E. pose proof (Nat.mod_upper_bound m 128 ltac:(lia)). split.
  - symmetry. apply (Nat.div_unique _ _ _ (m mod 128 - 1)); lia.
  - symmetry. apply (Nat.div_unique _ _ _ (m mod 128)); lia.
Qed.
Lemma tables_below m j : (j < m)%nat → (j / 128 < tables m)%nat.
Proof.
  intros Hj. unfold tables. apply Nat.lt_le_trans with (Datatypes.S (j / 128)); [lia|].
  replace (Datatypes.S (j / 128)) with ((j + 128) / 128)%nat; [apply Nat.Div0.div_le_mono; lia|].
  replace (j + 128)%nat with (j + 1 * 128)%nat by lia. rewrite Nat.div_add by lia. lia.
Qed.
Lemma tables_le m : Z.of_nat m ≤ 16384 → (tables m ≤ 128)%nat.
Proof. intros Hm. unfold tables. pose proof (Nat.div_mod (m + 127) 128 ltac:(lia)). lia. Qed.
Lemma step_position m : (if decide (m mod 128 = 127)%nat then ((m + 1) / 128 = Datatypes.S (m / 128) ∧ (m + 1) mod 128 = 0)%nat
  else ((m + 1) / 128 = m / 128 ∧ (m + 1) mod 128 = Datatypes.S (m mod 128))%nat).
Proof.
  pose proof (Nat.div_mod m 128 ltac:(lia)) as E. pose proof (Nat.mod_upper_bound m 128 ltac:(lia)). case_decide.
  - split; symmetry; [apply (Nat.div_unique _ _ _ 0)|apply (Nat.mod_unique _ _ (Datatypes.S (m / 128)))]; lia.
  - split; symmetry; [apply (Nat.div_unique _ _ _ (Datatypes.S (m mod 128)))|apply (Nat.mod_unique _ _ (m / 128))]; lia.
Qed.

(** *** One more block below the second level *)
Definition put_entry (c : Z) (i : nat) (b : Z) w : Z → list Z := put_block IndirectBlock c 0 (<[i := b]> (index_block w c)) w.

Lemma put_entry_fits c i b w : contents_ok w → valid c → 0 ≤ b < 2 ^ 32 → words_fit 4 128 (<[i := b]> (index_block w c)).
Proof.
  intros Hc Hv Hb. destruct (index_block_fits w c Hc Hv) as [Hl Hf]. split; [by rewrite length_insert|]. by apply Forall_insert.
Qed.
Lemma put_entry_same c i b w : contents_ok w → valid c → 0 ≤ b < 2 ^ 32 → index_block (put_entry c i b w) c = <[i := b]> (index_block w c).
Proof. intros Hc Hv Hb. apply at_put_eq; [by apply Hc|apply inside_indirect|by apply put_entry_fits]. Qed.
Lemma put_entry_other c i b w c' : c' ≠ c → index_block (put_entry c i b w) c' = index_block w c'.
Proof. intros Hne. unfold index_block, put_entry. by apply at_put_ne. Qed.
Lemma put_entry_ok c i b w : contents_ok w → valid c → 0 ≤ b < 2 ^ 32 → contents_ok (put_entry c i b w).
Proof. intros Hc Hv Hb. apply put_block_ok; [done|apply inside_indirect|by apply put_entry_fits]. Qed.
Lemma put_entry_frame c i b w k : k ≠ c → put_entry c i b w k = w k.
Proof. intros Hk. unfold put_entry, put_block. by apply set_block_ne. Qed.

Lemma level3_put w L c b m : contents_ok w → valid c → 0 ≤ b < 2 ^ 32 → L !! (m / 128)%nat = Some c →
  (∀ q, (q < m / 128)%nat → L !!! q ≠ c) → level3 (put_entry c (m mod 128) b w) L (m + 1) = level3 w L m ++ [b].
Proof.
  intros Hc Hv Hb HL Hne. destruct (index_block_fits w c Hc Hv) as [Hl _]. pose proof (Nat.mod_upper_bound m 128 ltac:(lia)) as Hmm.
  unfold level3. rewrite seq_app, fmap_app, Nat.add_0_l. cbn [seq fmap list_fmap]. f_equal.
  - apply list_fmap_ext. intros i j [-> Hj]%lookup_seq. rewrite Nat.add_0_l. unfold entry. destruct (decide (i / 128 = m / 128)%nat) as [E|E].
    + rewrite E, (list_lookup_total_correct _ _ _ HL), put_entry_same by done. rewrite list_lookup_total_insert_ne; [done|].
      intros Em. pose proof (Nat.div_mod i 128 ltac:(lia)). pose proof (Nat.div_mod m 128 ltac:(lia)). lia.
    + rewrite put_entry_other; [done|]. apply Hne. pose proof (Nat.Div0.div_le_mono i m 128 ltac:(lia)). lia.
  - f_equal. unfold entry. rewrite (list_lookup_total_correct _ _ _ HL), put_entry_same by done. apply list_lookup_total_insert_eq. lia.
Qed.

(** The table that block [m] goes to, and what the loop does there. *)
Lemma modify_entry w h c i b nb : contents_ok w → free_block c h → 0 ≤ b < 2 ^ 32 → (i < 128)%nat →
  does (cache_modify IndirectBlock c 0 (fun indirect1 =>
    '(b, nb) ← lift (next_unwrap (b :: nb)); indirect1 ← lift (index_set indirect1 (Z.of_nat i) b); mret (nb, indirect1))) w h nb (put_entry c i b w).
Proof.
  intros Hc Hf Hb Hi. pose proof Hf as (Hv & _). apply does_update; [done|done|apply inside_indirect|by apply put_entry_fits|].
  destruct (index_block_fits w c Hc Hv) as [Hl _]. change (at_block IndirectBlock w c 0) with (index_block w c).
  eapply does_bind; [by apply does_lift|]. simpl. eapply does_bind; [apply does_lift; unfold index_set; rewrite bool_decide_true by lia; done|].
  rewrite Nat2Z.id. apply does_ret.
Qed.

(** What [cnt] rounds of the loop need and leave. *)
Record grown3 cnt m L w nb L' w' D ix : Prop := {
  gr_len : length L' = 128%nat;
  gr_fit : Forall (fun b => 0 ≤ b < 2 ^ 32) L';
  gr_new : D ++ ix ≡ₚ nb;
  gr_count : length D = cnt;
  gr_data : level3 w' L' (m + cnt) = level3 w L m ++ D;
  gr_tables : take (tables (m + cnt)) L' = take (tables m) L ++ ix;
  gr_ok : contents_ok w';
  gr_frame k : k ∉ take (tables (m + cnt)) L' → w' k = w k;
}.

(** The table for block [m]: the next of the new blocks, or the one that was begun. *)
Definition begun m L nb : list Z * list Z * list Z :=
  if decide (m mod 128 = 0)%nat then
    match nb with [] => (L, [], []) | c :: nb => (<[(m / 128)%nat := c]> L, nb, [c]) end
  else (L, nb, []).

Lemma begun_step m L nb : length L = 128%nat → Z.of_nat m < 16384 → (0 < length nb)%nat → NoDup (take (tables m) L ++ nb) →
  let '(L1, nb1, ix) := begun m L nb in
  nb = ix ++ nb1 ∧ length L1 = 128%nat ∧ take (tables (m + 1)) L1 = take (tables m) L ++ ix ∧
  (∃ c, L1 !! (m / 128)%nat = Some c ∧ c ∈ take (tables (m + 1)) L1 ∧ ∀ q, (q < m / 128)%nat → L1 !!! q ≠ c) ∧
  (∀ w, level3 w L1 m = level3 w L m) ∧ length ix = (tables (m + 1) - tables m)%nat.
Proof.
  intros Hl Hm Hnb Hnd. assert (m / 128 < 128)%nat as Hq by (pose proof (Nat.div_mod m 128 ltac:(lia)); lia). unfold begun. case_decide as E.
  - destruct nb as [|c nb]; [simpl in Hnb; lia|]. destruct (tables_step_new m E) as [T1 T2]. rewrite T1, T2 in *.
    assert (take (Datatypes.S (m / 128)) (<[(m / 128)%nat := c]> L) = take (m / 128) L ++ [c]) as Et.
    { rewrite (take_S_r _ _ c) by (apply list_lookup_insert_eq; lia). by rewrite take_insert_ge by lia. }
    split_and!; [done|by rewrite length_insert|exact Et| | |simpl; lia].
    + exists c. split_and!; [apply list_lookup_insert_eq; lia|rewrite Et; set_solver|]. intros q Hlt. rewrite list_lookup_total_insert_ne by lia.
      intros Ec. apply NoDup_app in Hnd as (_ & Hd & _). apply (Hd c); [|by left]. rewrite <-Ec.
      apply (list_elem_of_lookup_2 _ q). rewrite lookup_take_lt by lia. apply list_lookup_lookup_total_lt. lia.
    + intros w. apply list_fmap_ext. intros i j [-> Hj]%lookup_seq. rewrite Nat.add_0_l. unfold entry. rewrite list_lookup_total_insert_ne; [done|].
      pose proof (tables_below m i ltac:(lia)). lia.
  - destruct (tables_step_old m E) as [T1 T2]. rewrite T1, T2 in *. rewrite app_nil_r. split_and!; [done|done|done| |done|simpl; lia].
    destruct (lookup_lt_is_Some_2 L (m / 128)%nat) as [c Hc]; [lia|]. exists c. split_and!; [done| |].
    + apply (list_elem_of_lookup_2 _ (m / 128)). by rewrite lookup_take_lt by lia.
    + intros q Hlt Ec. apply NoDup_app in Hnd as (Hnd & _ & _). assert (q = m / 128)%nat; [|lia].
      eapply (NoDup_lookup _ q (m / 128) c Hnd); rewrite lookup_take_lt by lia; [|done]. rewrite <-Ec. apply list_lookup_lookup_total_lt. lia.
Qed.

Lemma tables_mono m n : (m ≤ n)%nat → (tables m ≤ tables n)%nat.
Proof. intros H. unfold tables. apply Nat.Div0.div_le_mono. lia. Qed.

Lemma begun_does m L nb w h : length L = 128%nat → Z.of_nat m < 16384 → (0 < length nb)%nat →
  does (if Z.of_nat (m mod 128) =? 0 then
      '(b, nb) ← lift (next_unwrap nb); indirect2 ← lift (index_set L (Z.of_nat (m / 128)) b); mret (indirect2, nb)
    else mret (L, nb)) w h (begun m L nb).1 w.
Proof.
  intros Hl Hm Hnb. assert (m / 128 < 128)%nat as Hq by (pose proof (Nat.div_mod m 128 ltac:(lia)); lia).
  unfold begun. case_decide as E.
  - destruct nb as [|c nb]; [simpl in Hnb; lia|]. rewrite (proj2 (Z.eqb_eq _ _)) by lia.
    eapply does_bind; [by apply does_lift|]. cbn beta iota. eapply does_bind; [|apply does_ret].
    apply does_lift. unfold index_set. by rewrite bool_decide_true, Nat2Z.id by lia.
  - rewrite (proj2 (Z.eqb_neq _ _)) by lia. apply does_ret.
Qed.

(** The loop of the third phase: one new block after the other goes where it belongs, and a new table is taken where one begins. *)
Lemma fill_indirect2_does h n : ∀ m L w nb, length L = 128%nat → Forall (fun b => 0 ≤ b < 2 ^ 32) L → Forall (fun b => 0 ≤ b < 2 ^ 32) nb →
  Z.of_nat (m + n) ≤ 16384 → length nb = (n + (tables (m + n) - tables m))%nat → NoDup (take (tables m) L ++ nb) →
  (∀ b, b ∈ take (tables m) L ++ nb → free_block b h) → contents_ok w →
  ∃ L' w' D ix, does (fill_indirect2 n (Z.of_nat (m / 128)) (Z.of_nat (m mod 128)) L nb) w h L' w' ∧ grown3 n m L w nb L' w' D ix.
Proof.
  induction n as [|n IH]; intros m L w nb Hl HL Hnb Hm Hlen Hnd Hfree Hc.
  { rewrite Nat.add_0_r, Nat.sub_diag in Hlen. apply nil_length_inv in Hlen as ->. exists L, w, [], []. split; [apply does_ret|].
    split; rewrite ?Nat.add_0_r, ?app_nil_r; done. }
  pose proof (tables_mono (m + 1) (m + Datatypes.S n) ltac:(lia)) as Hmono. pose proof (tables_mono m (m + 1) ltac:(lia)) as Hmono1.
  pose proof (begun_step m L nb Hl ltac:(lia) ltac:(lia) Hnd) as Hb. pose proof (begun_does m L nb w h Hl ltac:(lia) ltac:(lia)) as Hdo.
  assert (Forall (fun b => 0 ≤ b < 2 ^ 32) (begun m L nb).1.1) as HL1.
  { unfold begun. case_decide; [|done]. destruct nb as [|c nb']; [done|]. apply Forall_insert; [done|by inversion Hnb]. }
  destruct (begun m L nb) as [[L1 nb1] ix1]. cbn [fst] in HL1, Hdo. destruct Hb as (-> & Hl1 & Ht & (c & Hc1 & Hin & Hne) & Hlev & Hi1).
  rewrite length_app in Hlen. destruct nb1 as [|b nb2]; [simpl in Hlen; lia|]. simpl in Hlen.
  apply Forall_app in Hnb as [_ [Hb Hnb]%Forall_cons].
  assert (free_block c h) as Hfc by (apply Hfree; rewrite Ht in Hin; set_solver). pose proof Hfc as [Hvc _].
  assert (NoDup (take (tables (m + 1)) L1 ++ nb2)) as Hnd1.
  { rewrite Ht. refine (sublist_NoDup _ _ Hnd _). rewrite <-app_assoc. apply sublist_app; [done|]. apply sublist_app; [done|by apply sublist_cons]. }
  set (w1 := put_entry c (m mod 128) b w). assert (contents_ok w1) as Hcw by by apply put_entry_ok.
  destruct (IH (m + 1)%nat L1 w1 nb2 Hl1 HL1 Hnb) as (L' & w' & D & ix & Hrun & G); [lia|replace (m + 1 + n)%nat with (m + Datatypes.S n)%nat by lia; lia|done| |done|].
  { intros x Hx. apply Hfree. rewrite Ht in Hx. set_solver. }
  exists L', w', (b :: D), (ix1 ++ ix). split.
  - cbn [fill_indirect2]. eapply does_bind; [exact Hdo|]. cbn beta iota. eapply does_bind; [apply does_lift, index_Done; by rewrite Nat2Z.id|].
    pose proof (Nat.mod_upper_bound m 128 ltac:(lia)) as Hmm. eapply does_bind; [by apply modify_entry|].
    change INODE_INDIRECT1_COUNT with 128. pose proof (step_position m) as Hs. case_decide as E; destruct Hs as [E1 E2]; rewrite E1, E2 in Hrun.
    + rewrite (proj2 (Z.eqb_eq _ _)) by lia. replace (Z.of_nat (m / 128) + 1) with (Z.of_nat (Datatypes.S (m / 128))) by lia. exact Hrun.
    + rewrite (proj2 (Z.eqb_neq _ _)) by lia. replace (Z.of_nat (m mod 128) + 1) with (Z.of_nat (Datatypes.S (m mod 128))) by lia. exact Hrun.
  - destruct G as [g1 g2 g3 g4 g5 g6 g7 g8]. replace (m + 1 + n)%nat with (m + Datatypes.S n)%nat in * by lia. split; try done.
    + rewrite <-g3. solve_Permutation.
    + simpl. by rewrite g4.
    + rewrite g5. unfold w1. rewrite level3_put by done. rewrite Hlev, <-app_assoc. done.
    + rewrite g6, Ht. by rewrite app_assoc.
    + intros k Hk. rewrite g8 by done. apply put_entry_frame. intros ->. apply Hk. rewrite g6. set_solver.
Qed.

(** ** Filling a table from the block that is next *)
Lemma fill_table (c : nat) (a nb : list Z) n N : length a = c → (n ≤ N)%nat → (N `min` c - n ≤ length nb)%nat →
  Forall (fun b => 0 ≤ b < 2 ^ 32) a → Forall (fun b => 0 ≤ b < 2 ^ 32) nb →
  ∃ a' D nb', fill_blocks (times (Z.of_nat n) (Z.of_nat N `min` Z.of_nat c)) (Z.of_nat n) a nb = Done (a', Z.of_nat (n `max` (N `min` c)), nb') ∧
    nb = D ++ nb' ∧ length D = (N `min` c - n)%nat ∧ length a' = c ∧ take N a' = take n a ++ D ∧ Forall (fun b => 0 ≤ b < 2 ^ 32) a'.
Proof.
  intros Ha HnN Hnb Hfa Hfn. set (k := (N `min` c - n)%nat) in *. replace (times (Z.of_nat n) (Z.of_nat N `min` Z.of_nat c)) with k by (unfold times, k; lia).
  eexists _, (take k nb), (drop k nb). split; [rewrite fill_blocks_run by lia; rewrite Nat2Z.id; do 3 f_equal; lia|].
  assert (length (take k nb) = k) as Hk by (rewrite length_take; lia). assert (length (take n a) = n `min` c)%nat as Hn by (rewrite length_take; lia).
  split_and!; [by rewrite take_drop|done|rewrite !length_app, length_drop; lia| |].
  - destruct (decide (N ≤ c)%nat) as [E|E].
    + rewrite app_assoc, take_app_length' by (rewrite length_app; lia). done.
    + rewrite take_ge by (rewrite !length_app, length_drop; lia). rewrite (drop_ge a) by lia. by rewrite app_nil_r.
  - apply Forall_app_2; [by apply Forall_take|]. apply Forall_app_2; [by apply Forall_take|by apply Forall_drop].
Qed.

(** The first-level block. *)
Lemma indirect1_grow w h i1 n N nb : contents_ok w → free_block i1 h → (n ≤ N)%nat → (N `min` 128 - n ≤ length nb)%nat → Forall (fun b => 0 ≤ b < 2 ^ 32) nb →
  ∃ w' D nb', does (cache_modify IndirectBlock i1 0 (fun indirect1 =>
      '(a, cur, nb) ← lift (fill_blocks (times (Z.of_nat n) (Z.of_nat N `min` INODE_INDIRECT1_COUNT)) (Z.of_nat n) indirect1 nb);
      mret ((cur, nb), a))) w h (Z.of_nat (n `max` (N `min` 128)), nb') w' ∧
    nb = D ++ nb' ∧ length D = (N `min` 128 - n)%nat ∧ take N (index_block w' i1) = take n (index_block w i1) ++ D ∧
    contents_ok w' ∧ ∀ k, k ≠ i1 → w' k = w k.
Proof.
  intros Hc Hf HnN Hnb Hfn. pose proof Hf as (Hv & _). destruct (index_block_fits w i1 Hc Hv) as [Hl Hfit].
  destruct (fill_table 128 (index_block w i1) nb n N Hl HnN Hnb Hfit Hfn) as (a' & D & nb' & Hrun & -> & HD & Hl' & Ht & Hfa).
  exists (put_block IndirectBlock i1 0 a' w), D, nb'. split; [|split_and!; [done|done| | |]].
  - apply does_update; [done|done|apply inside_indirect|by split|]. change (at_block IndirectBlock w i1 0) with (index_block w i1).
    change INODE_INDIRECT1_COUNT with (Z.of_nat 128). eapply does_bind; [by apply does_lift|]. apply does_ret.
  - rewrite <-Ht. f_equal. apply at_put_eq; [by apply Hc|apply inside_indirect|by split].
  - apply put_block_ok; [done|apply inside_indirect|by split].
  - intros k Hk. unfold put_block. by rewrite set_block_ne.
Qed.

Lemma level3_ext w w' L m : (∀ q, (q < tables m)%nat → w' (L !!! q) = w (L !!! q)) → level3 w' L m = level3 w L m.
Proof.
  intros H. apply list_fmap_ext. intros i j [-> Hj]%lookup_seq. rewrite Nat.add_0_l. unfold entry, index_block, at_block. rewrite H; [done|].
  by apply tables_below.
Qed.
Lemma tables_entries L m q : length L = 128%nat → Z.of_nat m ≤ 16384 → (q < tables m)%nat → L !!! q ∈ take (tables m) L.
Proof.
  intros Hl Hm Hq. pose proof (tables_le m Hm). apply (list_elem_of_lookup_2 _ q). rewrite lookup_take_lt by lia. apply list_lookup_lookup_total_lt. lia.
Qed.

(** The second-level block. *)
Lemma indirect2_grow w h i2 n N nb : contents_ok w → free_block i2 h → Z.of_nat (length h) + 1 < BLOCK_CACHE_SIZE → (n ≤ N)%nat → Z.of_nat N ≤ 16384 →
  length nb = (N - n + (tables N - tables n))%nat → Forall (fun b => 0 ≤ b < 2 ^ 32) nb →
  NoDup (i2 :: take (tables n) (index_block w i2) ++ nb) → (∀ b, b ∈ take (tables n) (index_block w i2) ++ nb → free_block b h) →
  ∃ w' D ix, does (cache_modify IndirectBlock i2 0 (fun indirect2 =>
      indirect2 ← fill_indirect2 (times (Z.of_nat n) (Z.of_nat N)) (Z.of_nat n / INODE_INDIRECT1_COUNT) (Z.of_nat n mod INODE_INDIRECT1_COUNT) indirect2 nb;
      mret ((), indirect2))) w h () w' ∧
    D ++ ix ≡ₚ nb ∧ length D = (N - n)%nat ∧
    level3 w' (index_block w' i2) N = level3 w (index_block w i2) n ++ D ∧
    take (tables N) (index_block w' i2) = take (tables n) (index_block w i2) ++ ix ∧
    contents_ok w' ∧ ∀ k, k ∉ i2 :: take (tables N) (index_block w' i2) → w' k = w k.
Proof.
  intros Hc Hf Hh HnN HN Hlen Hfn [Hi2 Hnd]%NoDup_cons Hfree. pose proof Hf as (Hv & Hi & _). destruct (index_block_fits w i2 Hc Hv) as [Hl Hfit].
  destruct (fill_indirect2_does (i2 :: h) (N - n) n (index_block w i2) w nb Hl Hfit Hfn) as (L' & w1 & D & ix & Hrun & [g1 g2 g3 g4 g5 g6 g7 g8]);
    [lia|replace (n + (N - n))%nat with N by lia; lia|done| |done|].
  { intros b Hb. destruct (Hfree b Hb) as (Hvb & Hnb & _). split_and!; [done| |simpl; lia]. intros [->|?]%elem_of_cons; done. }
  replace (n + (N - n))%nat with N in * by lia.
  assert (i2 ∉ take (tables N) L') as Hnot by (rewrite g6; rewrite elem_of_app in *; rewrite <-g3, elem_of_app in Hi2; tauto).
  assert (contents_ok (put_block IndirectBlock i2 0 L' w)) as Hput by (apply put_block_ok; [done|apply inside_indirect|by split]).
  set (w' := set_block i2 (splice 0 (encode (Pod := IndirectBlock) L') (w i2)) w1).
  assert (∀ k, k ≠ i2 → w' k = w1 k) as Hne by (intros k Hk; unfold w'; by rewrite set_block_ne).
  assert (w' i2 = put_block IndirectBlock i2 0 L' w i2) as Heq by (unfold w', put_block; by rewrite !set_block_eq).
  assert (index_block w' i2 = L') as EL.
  { unfold index_block, at_block. rewrite Heq. apply (at_put_eq IndirectBlock i2 0 L' w); [by apply Hc|apply inside_indirect|by split]. }
  exists w', D, ix. rewrite EL. split; [|split_and!; [done|done| |done| |]].
  - apply (does_modify IndirectBlock i2 0 _ w w1 h () L'); [done|done|apply inside_indirect|by split|].
    eapply does_bind; [|apply does_ret]. change (at_block IndirectBlock w i2 0) with (index_block w i2). change INODE_INDIRECT1_COUNT with (Z.of_nat 128).
    replace (times (Z.of_nat n) (Z.of_nat N)) with (N - n)%nat by (unfold times; lia). rewrite <-Nat2Z.inj_div, <-Nat2Z.inj_mod. exact Hrun.
  - rewrite <-g5. apply level3_ext. intros q Hq. apply Hne. intros E. apply Hnot. rewrite <-E. apply tables_entries; [done|lia|done].
  - intros k Hk. destruct (decide (k = i2)) as [->|Hki]; [rewrite Heq; by apply Hput|]. rewrite Hne by done. by apply g7.
  - intros k [Hki Hkt]%not_elem_of_cons. rewrite Hne by done. by apply g8.
Qed.

(** ** Growing an inode *)
(** How many index blocks [n] data blocks take. *)
Definition index_count (n : nat) : nat := ((if decide (28 < n) then 1 else 0) + (if decide (156 < n) then 1 + tables (n - 156) else 0))%nat.

(** An inode that had [n] data blocks and has [N] of them now. *)
Record grown n N w d nb w' d' D ix : Prop := {
  gw_count : length D = (N - n)%nat;
  gw_new : D ++ ix ≡ₚ nb;
  gw_data : data_list w' d' N = data_list w d n ++ D;
  gw_index : index_list w' d' N = index_list w d n ++ ix;
  gw_fits : inode_fits d';
  gw_ok : contents_ok w';
  gw_frame k : k ∉ index_list w' d' N → w' k = w k;
}.

Lemma next_index (set : Z → DiskInode → DiskInode) (i0 cur bound : Z) d nb w h (lim n : nat) : set i0 d = d →
  ((n ≤ lim)%nat → cur = bound ∧ (0 < length nb)%nat) → ((lim < n)%nat → cur ≠ bound) →
  ∃ i ix nb', does (if cur =? bound then '(b, nb) ← lift (next_unwrap nb); mret (set b d, nb) else mret (d, nb)) w h (set i d, nb') w ∧
    nb = ix ++ nb' ∧ (ix = [i] ∧ (n ≤ lim)%nat ∨ ix = [] ∧ (lim < n)%nat ∧ i = i0).
Proof.
  intros Hset H1 H2. destruct (decide (n ≤ lim)%nat) as [E|E].
  - destruct (H1 E) as [-> Hl]. destruct nb as [|b nb]; [simpl in Hl; lia|]. exists b, [b], nb. rewrite Z.eqb_refl.
    split; [eapply does_bind; [by apply does_lift|]; apply does_ret|]. split; [done|by left].
  - exists i0, [], nb. rewrite (proj2 (Z.eqb_neq _ _)) by (apply H2; lia). rewrite Hset. split; [apply does_ret|]. split; [done|right; split; [done|lia]].
Qed.

Lemma regroup {A} (a b c D1 D2 D3 : list A) : (D1 = [] ∨ b = [] ∧ c = []) → (D2 = [] ∨ c = []) →
  (a ++ D1) ++ (b ++ D2) ++ (c ++ D3) = (a ++ b ++ c) ++ D1 ++ D2 ++ D3.
Proof. by intros [->|[-> ->]] [->|?]; subst; simplify_list_eq; rewrite <-?app_assoc. Qed.

Lemma level3_0 w L : level3 w L 0 = [].
Proof. done. Qed.

Lemma u32_sub_run a b : 0 ≤ a - b ≤ u32_max → u32_sub a b = Done (a - b).
Proof. intros H. unfold u32_sub, checked. by rewrite !(proj2 (Z.leb_le _ _)) by lia. Qed.

Section Growing.
Context (w : Z → list Z) (h : list Z) (d : DiskInode) (new_size : Z) (nb : list Z) (n N : nat).
Hypothesis (Hok : contents_ok w) (Hh : Z.of_nat (length h) + 1 < BLOCK_CACHE_SIZE).
Hypothesis (Hfit : inode_fits d) (Hsz : 0 ≤ new_size < 2 ^ 32) (Hfn : Forall (fun b => 0 ≤ b < 2 ^ 32) nb).
Hypothesis (HnN : (n ≤ N)%nat) (Hn : DiskInode_data_blocks d = Z.of_nat n) (HN : data_blocks_of new_size = Z.of_nat N) (Hbig : Z.of_nat N ≤ INDIRECT2_BOUND).
Hypothesis (Hnb : length nb = (N - n + (index_count N - index_count n))%nat).
Hypothesis (Hnd : NoDup (index_list w d n ++ nb)) (Hfree : ∀ b, b ∈ index_list w d n ++ nb → free_block b h).

(** Up to 28 blocks. *)
Lemma increase_direct : (N ≤ 28)%nat → ∃ d' D, does (DiskInode_increase_size d new_size nb) w h d' w ∧ grown n N w d nb w d' D [] ∧
  ∃ ds, d' = set_direct ds (set_size new_size d).
Proof.
  intros HN28. assert (index_count N = 0%nat ∧ index_count n = 0%nat) as [I1 I2] by (unfold index_count; repeat case_decide; lia).
  destruct (fill_table 28 (direct d) nb n N (if_direct _ Hfit) HnN ltac:(lia) (if_direct_fit _ Hfit) Hfn) as (ds & D & nb' & Hrun & -> & HD & Hl & Ht & Hds).
  rewrite length_app in Hnb. destruct nb' as [|]; [|simpl in Hnb; lia]. exists (set_direct ds (set_size new_size d)), D. split; [|split; [|by eexists]].
  - unfold DiskInode_increase_size. change (DiskInode_data_blocks (set_size new_size d)) with (data_blocks_of new_size). rewrite Hn, HN.
    change INODE_DIRECT_COUNT with (Z.of_nat 28). eapply does_bind; [by apply does_lift|]. cbn beta iota. rewrite Z.gtb_ltb, (proj2 (Z.ltb_ge _ _)) by lia. apply does_ret.
  - assert (n - 28 = 0 ∧ N - 28 = 0 ∧ n - 156 = 0 ∧ N - 156 = 0)%nat as (E1 & E2 & E3 & E4) by lia. split.
    + lia.
    + done.
    + unfold data_list. rewrite E1, E2, E3, E4, !level3_0, !take_0, !app_nil_r. exact Ht.
    + unfold index_list. rewrite !decide_False by lia. done.
    + by destruct Hfit.
    + done.
    + done.
Qed.

(** The end of [increase_size], from the second-level block on. *)
Definition second_level (d : DiskInode) (current_blocks total_blocks : Z) (nb : list Z) : st S DiskInode :=
  if total_blocks >? INODE_INDIRECT1_COUNT then
    '(d, nb) ←
      (if current_blocks =? INODE_INDIRECT1_COUNT then
         '(b, nb) ← lift (next_unwrap nb); mret (set_indirect2 b d, nb)
       else mret (d, nb));
    current_blocks ← lift (u32_sub current_blocks INODE_INDIRECT1_COUNT);
    total_blocks ← lift (u32_sub total_blocks INODE_INDIRECT1_COUNT);
    cache_modify IndirectBlock (indirect2 d) 0 (fun indirect2 =>
      indirect2 ← fill_indirect2 (times current_blocks total_blocks) (current_blocks / INODE_INDIRECT1_COUNT)
        (current_blocks mod INODE_INDIRECT1_COUNT) indirect2 nb;
      mret ((), indirect2));;
    mret d
  else mret d.

(** More than 28 blocks: what the direct pointers and the first-level block take. *)
Lemma increase_first : (28 < N)%nat → ∃ ds i1 w2 D1 ix1 D2 nb3,
  (∀ a w', does (second_level (set_indirect1 i1 (set_direct ds (set_size new_size d)))
      (Z.of_nat ((n - 28) `max` ((N - 28) `min` 128))) (Z.of_nat (N - 28)) nb3) w2 h a w' → does (DiskInode_increase_size d new_size nb) w h a w') ∧
  nb = D1 ++ ix1 ++ D2 ++ nb3 ∧ inode_fits (set_indirect1 i1 (set_direct ds (set_size new_size d))) ∧ length D1 = (28 - n)%nat ∧ take N ds = take n (direct d) ++ D1 ∧
  (ix1 = [i1] ∧ (n ≤ 28)%nat ∨ ix1 = [] ∧ (28 < n)%nat ∧ i1 = indirect1 d) ∧ free_block i1 h ∧
  length D2 = ((N - 28) `min` 128 - (n - 28))%nat ∧ take (N - 28) (index_block w2 i1) = take (n - 28) (index_block w i1) ++ D2 ∧
  contents_ok w2 ∧ ∀ k, k ≠ i1 → w2 k = w k.
Proof.
  intros H28. change INDIRECT2_BOUND with 16540 in Hbig. assert (index_count n ≤ index_count N ∧ 1 ≤ index_count N ∧ ((n ≤ 28)%nat → index_count n = 0))%nat as (I1 & I2 & I3).
  { unfold index_count. pose proof (tables_mono (n - 156) (N - 156) ltac:(lia)). repeat case_decide; lia. }
  destruct (fill_table 28 (direct d) nb n N (if_direct _ Hfit) HnN ltac:(lia) (if_direct_fit _ Hfit) Hfn) as (ds & D1 & nb1 & Hrun1 & Enb & HD1 & Hl & Ht & Hds).
  assert (length nb = length D1 + length nb1)%nat as Hlen1 by (by rewrite Enb, length_app).
  set (d1 := set_direct ds (set_size new_size d)).
  destruct (next_index set_indirect1 (indirect1 d) (Z.of_nat (n `max` 28)) (Z.of_nat 28) d1 nb1 w h 28 n) as (i1 & ix1 & nb2 & Hrun2 & Enb1 & Hix); [done|lia..|].
  assert (free_block i1 h) as Hf1.
  { apply Hfree. destruct Hix as [[-> ?]|(-> & ? & ->)]; [rewrite Enb, Enb1; set_solver|]. unfold index_list. rewrite decide_True by done. set_solver. }
  assert (length ix1 ≤ 1 ∧ ((28 < n)%nat → length ix1 = 0))%nat as [Hx1 Hx2] by (destruct Hix as [[-> ?]|(-> & ? & ?)]; simpl; lia).
  assert (length nb1 = length ix1 + length nb2)%nat as Hlen2 by (by rewrite Enb1, length_app).
  destruct (indirect1_grow w h i1 (n - 28) (N - 28) nb2 Hok Hf1) as (w2 & D2 & nb3 & Hrun3 & -> & HD2 & Ht2 & Hc2 & Hfr2); [lia..| |].
  { rewrite Enb, Enb1 in Hfn. by apply Forall_app in Hfn as [_ [_ ?]%Forall_app]. }
  exists ds, i1, w2, D1, ix1, D2, nb3. split_and!; try done; [|by rewrite Enb, Enb1| |rewrite HD1; lia].
  2: { assert (0 ≤ i1 < 2 ^ 32); [|by destruct Hfit]. destruct Hix as [[-> _]|(_ & _ & ->)]; [|by apply if_indirect1].
       rewrite Enb, Enb1 in Hfn. apply Forall_app in Hfn as [_ [Hi1 _]%Forall_cons]. done. }
  intros a w' Hrest. unfold DiskInode_increase_size. change (DiskInode_data_blocks (set_size new_size d)) with (data_blocks_of new_size). rewrite Hn, HN.
  change INODE_DIRECT_COUNT with (Z.of_nat 28). eapply does_bind; [apply does_lift, Hrun1|]. cbn beta iota. replace (n `max` (N `min` 28))%nat with (n `max` 28)%nat by lia.
  rewrite Z.gtb_ltb, (proj2 (Z.ltb_lt _ _)) by lia. eapply does_bind; [exact Hrun2|]. cbn beta iota.
  eapply does_bind; [apply does_lift, u32_sub_run; unfold u32_max; lia|].
  eapply does_bind; [apply does_lift, u32_sub_run; unfold u32_max; lia|].
  replace (Z.of_nat (n `max` 28) - Z.of_nat 28) with (Z.of_nat (n - 28)) by lia. replace (Z.of_nat N - Z.of_nat 28) with (Z.of_nat (N - 28)) by lia.
  eapply does_bind; [exact Hrun3|]. exact Hrest.
Qed.

(** Up to 156 blocks. *)
Lemma increase_indirect1 : (28 < N ≤ 156)%nat → ∃ ds i1 w' D ix, let d' := set_indirect1 i1 (set_direct ds (set_size new_size d)) in
  does (DiskInode_increase_size d new_size nb) w h d' w' ∧ grown n N w d nb w' d' D ix.
Proof.
  intros HN1. destruct (increase_first ltac:(lia)) as (ds & i1 & w2 & D1 & ix1 & D2 & nb3 & Hrun & Enb & Hl & HD1 & Ht & Hix & Hf1 & HD2 & Ht2 & Hc2 & Hfr2).
  assert (index_count N = 1%nat) as IN by (unfold index_count; repeat case_decide; lia).
  assert (length nb = length D1 + (length ix1 + (length D2 + length nb3)))%nat as Hlen by (by rewrite Enb, !length_app).
  assert (length ix1 = 1 - index_count n)%nat as Hx1.
  { destruct Hix as [[-> ?]|(-> & ? & ?)]; unfold index_count; repeat case_decide; simpl; lia. }
  destruct nb3 as [|]; [|simpl in Hlen; lia]. rewrite app_nil_r in Enb. exists ds, i1, w2, (D1 ++ D2), ix1. split.
  - apply Hrun. unfold second_level. change INODE_INDIRECT1_COUNT with (Z.of_nat 128). rewrite Z.gtb_ltb, (proj2 (Z.ltb_ge _ _)) by lia. apply does_ret.
  - assert (n - 156 = 0 ∧ N - 156 = 0)%nat as (E3 & E4) by lia. split.
    + rewrite length_app. lia.
    + rewrite Enb. solve_Permutation.
    + unfold data_list. rewrite E3, E4, !level3_0, !app_nil_r. cbn [direct indirect1 set_indirect1 set_direct set_size]. rewrite Ht, Ht2.
      destruct Hix as [[-> ?]|(-> & ? & ->)].
      * replace (n - 28)%nat with 0%nat by lia. rewrite !take_0, app_nil_r. by rewrite <-app_assoc.
      * assert (D1 = []) as -> by (apply nil_length_inv; lia). by rewrite app_nil_r, <-app_assoc.
    + unfold index_list. rewrite (decide_True (P := (28 < N)%nat)), (decide_False (P := (156 < N)%nat)), (decide_False (P := (156 < n)%nat)) by lia.
      destruct Hix as [[-> ?]|(-> & ? & ->)]; [by rewrite decide_False by lia|by rewrite decide_True].
    + done.
    + done.
    + intros k Hk. apply Hfr2. intros ->. apply Hk. unfold index_list. rewrite (decide_True (P := (28 < N)%nat)) by lia. set_solver.
Qed.

(** The second-level block of an inode that needs one, and the index blocks before its tables grow. *)
Lemma first_tables i1 i2 w2 ix1 ix2 : (∀ k, k ≠ i1 → w2 k = w k) → NoDup (index_list w d n) →
  (ix1 = [i1] ∧ (n ≤ 28)%nat ∨ ix1 = [] ∧ (28 < n)%nat ∧ i1 = indirect1 d) → (ix2 = [i2] ∧ (n ≤ 156)%nat ∨ ix2 = [] ∧ (156 < n)%nat ∧ i2 = indirect2 d) →
  Z.of_nat n ≤ INDIRECT2_BOUND → (∀ b, b ∈ index_list w d n → valid b) →
  index_list w d n ++ ix1 ++ ix2 = i1 :: i2 :: take (tables (n - 156)) (index_block w2 i2) ∧
  level3 w2 (index_block w2 i2) (n - 156) = level3 w (index_block w (indirect2 d)) (n - 156).
Proof.
  intros Hfr Hnod H1 H2 Hb Hval. change INDIRECT2_BOUND with 16540 in Hb. destruct H2 as [[-> Hn2]|(-> & Hn2 & ->)].
  - replace (n - 156)%nat with 0%nat by lia. change (tables 0) with 0%nat. rewrite take_0, !level3_0. split; [|done].
    unfold index_list. rewrite (decide_False (P := (156 < n)%nat)) by lia. destruct H1 as [[-> Hn1]|(-> & Hn1 & ->)]; [by rewrite decide_False by lia|by rewrite decide_True].
  - destruct H1 as [[-> Hn1]|(-> & Hn1 & ->)]; [lia|]. unfold index_list in *. rewrite (decide_True (P := (28 < n)%nat)), (decide_True (P := (156 < n)%nat)) in * by done.
    apply NoDup_cons in Hnod as [Hi1 Hnod]. apply not_elem_of_cons in Hi1 as [Hne Hi1].
    assert (index_block w2 (indirect2 d) = index_block w (indirect2 d)) as E by (unfold index_block, at_block; by rewrite Hfr). rewrite E.
    split; [by rewrite !app_nil_r|]. apply level3_ext. intros q Hq. apply Hfr. intros Eq. apply Hi1. rewrite <-Eq.
    apply tables_entries; [|lia|done]. apply index_block_fits; [done|]. apply Hval. right. left.
Qed.

(** More than 156 blocks. *)
Lemma increase_indirect2 : (156 < N)%nat → ∃ ds i1 i2 w' D ix, let d' := set_indirect2 i2 (set_indirect1 i1 (set_direct ds (set_size new_size d))) in
  does (DiskInode_increase_size d new_size nb) w h d' w' ∧ grown n N w d nb w' d' D ix.
Proof.
  intros HN2. destruct (increase_first ltac:(lia)) as (ds & i1 & w2 & D1 & ix1 & D2 & nb3 & Hrun & Enb & Hl & HD1 & Ht & Hix1 & Hf1 & HD2 & Ht2 & Hc2 & Hfr2).
  set (d2 := set_indirect1 i1 (set_direct ds (set_size new_size d))) in *. change INDIRECT2_BOUND with 16540 in Hbig.
  assert (index_count n ≤ index_count N ∧ ((n ≤ 28)%nat → index_count n = 0) ∧ ((n ≤ 156)%nat → index_count n ≤ 1) ∧ index_count N = 2 + tables (N - 156) ∧
    ((156 < n)%nat → index_count n = 2 + tables (n - 156)) ∧ ((28 < n)%nat → 1 ≤ index_count n))%nat as (I1 & I2 & I3 & I4 & I5 & I6).
  { unfold index_count. pose proof (tables_mono (n - 156) (N - 156) ltac:(lia)). repeat case_decide; lia. }
  assert (length nb = length D1 + (length ix1 + (length D2 + length nb3)))%nat as Hlen by (by rewrite Enb, !length_app).
  assert (length ix1 = 1 ∧ n ≤ 28 ∨ length ix1 = 0 ∧ 28 < n)%nat as Hx1 by (destruct Hix1 as [[-> ?]|(-> & ? & ?)]; [by left|by right]).
  destruct (next_index set_indirect2 (indirect2 d) (Z.of_nat ((n - 28) `max` ((N - 28) `min` 128))) (Z.of_nat 128) d2 nb3 w2 h 156 n) as (i2 & ix2 & nb4 & Hrun2 & Enb3 & Hix2);
    [done|lia..|].
  assert (length nb3 = length ix2 + length nb4)%nat as Hlen3 by (by rewrite Enb3, length_app).
  assert (length ix2 = 1 ∧ n ≤ 156 ∨ length ix2 = 0 ∧ 156 < n)%nat as Hx2 by (destruct Hix2 as [[-> ?]|(-> & ? & ?)]; [by left|by right]).
  assert ((n ≤ 156)%nat → tables (n - 156) = 0%nat) as I7 by (intros ?; by replace (n - 156)%nat with 0%nat by lia).
  pose proof Hnd as [Hndi _]%NoDup_app.
  assert (inode_fits (set_indirect2 i2 d2)) as Hfit2.
  { assert (0 ≤ i2 < 2 ^ 32); [|by destruct Hl]. destruct Hix2 as [[-> _]|(_ & _ & ->)]; [|by apply if_indirect2].
    rewrite Enb, Enb3 in Hfn. rewrite !Forall_app in Hfn. destruct Hfn as (_ & _ & _ & [Hi2 _]%Forall_cons & _). done. }
  destruct (first_tables i1 i2 w2 ix1 ix2 Hfr2 Hndi Hix1 Hix2) as [Hidx Hlev]; [change INDIRECT2_BOUND with 16540; lia|intros b Hb; apply Hfree, elem_of_app; by left|].
  assert (NoDup (i1 :: i2 :: take (tables (n - 156)) (index_block w2 i2) ++ nb4)) as [Hi1 Hnd2]%NoDup_cons.
  { rewrite !app_comm_cons, <-Hidx. refine (sublist_NoDup _ _ Hnd _). rewrite Enb, Enb3, <-!app_assoc. apply sublist_app; [done|].
    apply sublist_inserts_l, sublist_app; [done|]. by apply sublist_inserts_l. }
  assert (∀ b, b ∈ (i1 :: i2 :: take (tables (n - 156)) (index_block w2 i2)) ++ nb4 → free_block b h) as Hfr.
  { intros b Hb. apply Hfree. rewrite <-Hidx in Hb. rewrite Enb, Enb3. clear -Hb. rewrite !elem_of_app in *. tauto. }
  destruct (indirect2_grow w2 h i2 (n - 156) (N - 156) nb4 Hc2) as (w3 & D3 & ix3 & Hrun3 & Hperm & HD3 & Hlev3 & Ht3 & Hc3 & Hfr3);
    [apply Hfr; right; left|done|lia|lia|lia| |done|intros b Hb; apply Hfr; right; right; exact Hb|].
  { rewrite Enb, Enb3 in Hfn. rewrite !Forall_app in Hfn. tauto. }
  assert (i1 ∉ i2 :: take (tables (N - 156)) (index_block w3 i2)) as Hi1'.
  { intros Hin. apply Hi1. rewrite Ht3 in Hin. rewrite <-Hperm. clear -Hin. rewrite !elem_of_cons, !elem_of_app in *. tauto. }
  assert (index_list w3 (set_indirect2 i2 d2) N = index_list w d n ++ ix1 ++ ix2 ++ ix3) as Hil.
  { unfold index_list at 1. rewrite !decide_True by lia. change (indirect1 (set_indirect2 i2 d2)) with i1. change (indirect2 (set_indirect2 i2 d2)) with i2.
    rewrite Ht3. rewrite (app_assoc ix1), app_assoc, Hidx. done. }
  exists ds, i1, i2, w3, (D1 ++ D2 ++ D3), (ix1 ++ ix2 ++ ix3). split.
  - apply Hrun. unfold second_level. change INODE_INDIRECT1_COUNT with (Z.of_nat 128). rewrite Z.gtb_ltb, (proj2 (Z.ltb_lt _ _)) by lia.
    eapply does_bind; [exact Hrun2|]. cbn beta iota.
    eapply does_bind; [apply does_lift, u32_sub_run; unfold u32_max; lia|]. eapply does_bind; [apply does_lift, u32_sub_run; unfold u32_max; lia|].
    replace (Z.of_nat ((n - 28) `max` ((N - 28) `min` 128)) - Z.of_nat 128) with (Z.of_nat (n - 156)) by lia.
    replace (Z.of_nat (N - 28) - Z.of_nat 128) with (Z.of_nat (N - 156)) by lia. eapply does_bind; [exact Hrun3|]. apply does_ret.
  - split; [| | |exact Hil|done|done|].
    + rewrite !length_app. lia.
    + rewrite Enb, Enb3, <-Hperm. solve_Permutation.
    + unfold data_list. cbn [direct indirect1 indirect2 set_indirect2 d2 set_indirect1 set_direct set_size].
      replace (index_block w3 i1) with (index_block w2 i1) by (unfold index_block, at_block; by rewrite Hfr3). rewrite Ht, Ht2, Hlev3, Hlev.
      assert (index_block w i1 = index_block w (indirect1 d) ∨ (n - 28 = 0)%nat) as HA by (destruct Hix1 as [[_ ?]|(_ & _ & ->)]; [right; lia|by left]).
      assert (take (n - 28) (index_block w i1) = take (n - 28) (index_block w (indirect1 d))) as -> by (destruct HA as [-> | ->]; done).
      apply regroup.
      * destruct (decide (n ≤ 28)%nat); [right|left; apply nil_length_inv; lia]. replace (n - 28)%nat with 0%nat by lia. by replace (n - 156)%nat with 0%nat by lia.
      * destruct (decide (n ≤ 156)%nat); [right; by replace (n - 156)%nat with 0%nat by lia|left; apply nil_length_inv; lia].
    + intros k Hk. assert (k ∉ index_list w d n ++ ix1 ++ ix2 ++ ix3) as Hk' by (rewrite <-Hil; exact Hk). clear Hk. rename Hk' into Hk. rewrite Hfr3, Hfr2; [done| |]; intros Hin; apply Hk.
      * subst k. rewrite (app_assoc ix1), app_assoc, Hidx. left.
      * rewrite Ht3 in Hin. rewrite (app_assoc ix1), app_assoc, Hidx. by right.
Qed.

(** New blocks for an inode: they are its new data blocks, in the order they were given but for the index blocks among
    them, and everything else, contents of data blocks included, stays. *)
Lemma increase_grown : ∃ d' w' D ix, does (DiskInode_increase_size d new_size nb) w h d' w' ∧ grown n N w d nb w' d' D ix ∧
  size d' = new_size ∧ type_ d' = type_ d ∧ type_pad d' = type_pad d ∧ link_num d' = link_num d.
Proof.
  destruct (decide (N ≤ 28)%nat) as [E1|E1].
  - destruct (increase_direct E1) as (d' & D & Hrun & G & ds & ->). by eexists _, _, _, _.
  - destruct (decide (N ≤ 156)%nat) as [E2|E2].
    + destruct (increase_indirect1 ltac:(lia)) as (ds & i1 & w' & D & ix & Hrun & G). by eexists _, _, _, _.
    + destruct (increase_indirect2 ltac:(lia)) as (ds & i1 & i2 & w' & D & ix & Hrun & G). by eexists _, _, _, _.
Qed.
End Growing.

(** ** The lists of blocks and the block map *)
Lemma data_list_length w d n : length (direct d) = 28%nat → (∀ b, b ∈ index_list w d n → valid b) → contents_ok w → length (data_list w d n) = n.
Proof.
  intros Hd Hv Hc. unfold data_list. rewrite !length_app, !length_take, Hd. unfold level3. rewrite length_fmap, length_seq.
  destruct (decide (28 < n)%nat); [|lia]. destruct (index_block_fits w (indirect1 d) Hc) as [-> _]; [|lia].
  apply Hv. unfold index_list. rewrite decide_True by done. left.
Qed.

Lemma data_list_block w d n i b : length (direct d) = 28%nat → (∀ b, b ∈ index_list w d n → valid b) → contents_ok w → Z.of_nat n ≤ INDIRECT2_BOUND →
  data_list w d n !! i = Some b → block_of w d (Z.of_nat i) = Some b.
Proof.
  intros Hd Hv Hc Hb Hi. change INDIRECT2_BOUND with 16540 in Hb. pose proof (lookup_lt_Some _ _ _ Hi) as Hlt. rewrite data_list_length in Hlt by done.
  unfold block_of. change INODE_DIRECT_COUNT with 28. change INDIRECT1_BOUND with 156. change INODE_INDIRECT1_COUNT with 128. unfold data_list in Hi.
  assert ((28 < n)%nat → length (index_block w (indirect1 d)) = 128%nat) as H1.
  { intros Hn. apply index_block_fits; [done|]. apply Hv. unfold index_list. rewrite decide_True by done. left. }
  destruct (Z.ltb_spec (Z.of_nat i) 28) as [E|E]; [|destruct (Z.ltb_spec (Z.of_nat i) 156) as [E2|E2]].
  - rewrite lookup_app_l in Hi by (rewrite length_take; lia). rewrite lookup_take_lt in Hi by lia. by rewrite Nat2Z.id.
  - rewrite lookup_app_r in Hi by (rewrite length_take; lia). rewrite length_take, Hd in Hi.
    rewrite lookup_app_l in Hi by (rewrite length_take, H1; lia). rewrite lookup_take_lt in Hi by lia. rewrite <-Hi. f_equal. lia.
  - rewrite lookup_app_r in Hi by (rewrite length_take; lia). rewrite length_take, Hd in Hi. rewrite lookup_app_r in Hi by (rewrite length_take, H1; lia).
    rewrite length_take, H1 in Hi by lia. replace (i - n `min` 28 - (n - 28) `min` 128)%nat with (i - 156)%nat in Hi by lia.
    unfold level3 in Hi. apply list_lookup_fmap_Some in Hi as (j & -> & [-> Hj]%lookup_seq). rewrite Nat.add_0_l.
    assert (length (index_block w (indirect2 d)) = 128%nat) as H2.
    { apply index_block_fits; [done|]. apply Hv. unfold index_list. rewrite (decide_True (P := (156 < n)%nat)) by lia. apply elem_of_app. right. left. }
    assert (tables (n - 156) ≤ 128)%nat as Ht by (apply tables_le; lia). pose proof (tables_below (n - 156) (i - 156) Hj) as Hb1.
    replace (Z.of_nat i - 156) with (Z.of_nat (i - 156)) by lia. change 128 with (Z.of_nat 128). rewrite <-Nat2Z.inj_div, <-Nat2Z.inj_mod, !Nat2Z.id.
    rewrite (list_lookup_lookup_total_lt _ ((i - 156) / 128)) by lia. cbn [mbind option_bind]. unfold entry. apply list_lookup_lookup_total_lt.
    destruct (index_block_fits w (index_block w (indirect2 d) !!! ((i - 156) / 128)%nat) Hc) as [-> _]; [|apply Nat.mod_upper_bound; lia].
    apply Hv. unfold index_list. rewrite (decide_True (P := (156 < n)%nat)) by lia. apply elem_of_app. right. right. apply tables_entries; [done|lia|lia].
Qed.

Lemma index_path_in w d n i x : (∀ b, b ∈ index_list w d n → valid b) → contents_ok w → Z.of_nat n ≤ INDIRECT2_BOUND → (i < n)%nat →
  x ∈ index_path w d (Z.of_nat i) → x ∈ index_list w d n.
Proof.
  intros Hv Hc Hb Hi. change INDIRECT2_BOUND with 16540 in Hb. unfold index_path, index_list in *. change INODE_DIRECT_COUNT with 28. change INDIRECT1_BOUND with 156. change INODE_INDIRECT1_COUNT with 128.
  destruct (Z.ltb_spec (Z.of_nat i) 28); [by intros ?%elem_of_nil|]. rewrite (decide_True (P := (28 < n)%nat)) in * by lia.
  destruct (Z.ltb_spec (Z.of_nat i) 156); [intros ->%list_elem_of_singleton; left|]. rewrite (decide_True (P := (156 < n)%nat)) in * by lia.
  intros [->|Hx]%elem_of_cons; [right; left|]. right. right. 
  assert (length (index_block w (indirect2 d)) = 128%nat) as H2 by (apply index_block_fits; [done|]; apply Hv; right; left).
  replace (Z.of_nat i - 156) with (Z.of_nat (i - 156)) in Hx by lia. change 128 with (Z.of_nat 128) in Hx. rewrite <-Nat2Z.inj_div, Nat2Z.id in Hx.
  destruct (index_block w (indirect2 d) !! ((i - 156) / 128)%nat) as [b|] eqn:E; [|by apply elem_of_nil in Hx]. apply list_elem_of_singleton in Hx as ->.
  rewrite <-(list_lookup_total_correct _ _ _ E). apply tables_entries; [done|lia|]. apply tables_below. lia.
Qed.

(** ** Clearing an inode *)
Lemma drain_blocks_run k : ∀ cur a v, 0 ≤ cur → (Z.to_nat cur + k ≤ length a)%nat →
  ∃ a', drain_blocks k cur a v = Done (a', v ++ take k (drop (Z.to_nat cur) a)) ∧ length a' = length a ∧
    (Forall (fun b => 0 ≤ b < 2 ^ 32) a → Forall (fun b => 0 ≤ b < 2 ^ 32) a').
Proof.
  induction k as [|k IH]; intros cur a v Hc Ha; [exists a; by rewrite app_nil_r|].
  destruct (lookup_lt_is_Some_2 a (Z.to_nat cur)) as [b Hb]; [lia|].
  destruct (IH (cur + 1) (<[Z.to_nat cur := 0]> a) (v ++ [b])) as (a' & Hrun & Hl & Hf); [lia|rewrite length_insert; lia|].
  exists a'. split_and!.
  - simpl. rewrite (index_Done _ _ _ Hb). simpl. unfold index_set. rewrite bool_decide_true by lia. simpl. rewrite Hrun. do 2 f_equal.
    rewrite drop_insert_lt by lia. rewrite (drop_S _ _ _ Hb), <-app_assoc. by replace (Z.to_nat (cur + 1)) with (Datatypes.S (Z.to_nat cur)) by lia.
  - by rewrite Hl, length_insert.
  - intros H. apply Hf. apply Forall_insert; [done|lia].
Qed.
Lemma collect_blocks_run k : ∀ cur a v, 0 ≤ cur → (Z.to_nat cur + k ≤ length a)%nat → collect_blocks k cur a v = Done (v ++ take k (drop (Z.to_nat cur) a)).
Proof.
  induction k as [|k IH]; intros cur a v Hc Ha; [by rewrite app_nil_r|].
  destruct (lookup_lt_is_Some_2 a (Z.to_nat cur)) as [b Hb]; [lia|]. simpl. rewrite (index_Done _ _ _ Hb). simpl. rewrite IH by lia. f_equal.
  rewrite (drop_S _ _ _ Hb), <-app_assoc. by replace (Z.to_nat (cur + 1)) with (Datatypes.S (Z.to_nat cur)) by lia.
Qed.

(** A table that is written back as it was. *)
Lemma modify_same {V} (f : list Z → st S (V * list Z)) w h id v : contents_ok w → free_block id h →
  does (f (index_block w id)) w (id :: h) (v, index_block w id) w → does (cache_modify IndirectBlock id 0 f) w h v w.
Proof.
  intros Hc Hf Hd. pose proof Hf as (Hv & _). eapply does_ext; [reflexivity|apply (put_block_same IndirectBlock id 0); [done|done|apply inside_indirect]|].
  apply does_update; [done|done|apply inside_indirect|by apply index_block_fits|done].
Qed.

Definition with_tables w (L : list Z) : list Z := L ≫= fun e => e :: index_block w e.
Lemma collect_indirect2_does w h L : ∀ v, contents_ok w → (∀ b, b ∈ L → free_block b h) →
  does (collect_indirect2 L v) w h (v ++ with_tables w L) w.
Proof.
  induction L as [|e L IH]; intros v Hc Hf; [rewrite app_nil_r; apply does_ret|]. cbn [collect_indirect2].
  eapply (does_bind _ _ _ w _ _ ((v ++ [e]) ++ index_block w e)); [apply modify_same; [done|apply Hf; left|apply does_ret]|].
  replace (v ++ with_tables w (e :: L)) with (((v ++ [e]) ++ index_block w e) ++ with_tables w L) by (change (with_tables w (e :: L)) with ((e :: index_block w e) ++ with_tables w L); by rewrite <-!app_assoc).
  apply IH; [done|]. intros b Hb. apply Hf. by right.
Qed.

(** The blocks below the second level, table by table. *)
Lemma level3_tables w L a b : (∀ e, e ∈ L → length (index_block w e) = 128%nat) → (b ≤ 128)%nat → (a ≤ length L)%nat → (b ≠ 0 → a < length L)%nat →
  level3 w L (128 * a + b) = (take a L ≫= index_block w) ++ take b (index_block w (L !!! a)).
Proof.
  intros HL Hb Ha. assert (∀ a b, (b ≤ 128)%nat → (b ≠ 0 → a < length L)%nat →
    level3 w L (128 * a + b) = level3 w L (128 * a) ++ take b (index_block w (L !!! a))) as Hstep.
  { clear -HL. intros a b Hb Ha. unfold level3. rewrite seq_app, fmap_app, Nat.add_0_l. f_equal. destruct (decide (b = 0)%nat) as [->|Hb0]; [by rewrite take_0|].
    assert (length (index_block w (L !!! a)) = 128%nat) as Hl by (apply HL, (list_elem_of_lookup_2 _ a), list_lookup_lookup_total_lt; auto).
    apply list_eq_same_length with (n := b); [rewrite length_take; lia|by rewrite length_fmap, length_seq|].
    intros i x y Hi Hx Hy. apply list_lookup_fmap_Some in Hx as (j & -> & [-> _]%lookup_seq). rewrite lookup_take_lt in Hy by done.
    unfold entry. replace (128 * a + i)%nat with (i + a * 128)%nat by lia. rewrite Nat.div_add, Nat.Div0.mod_add, Nat.div_small, Nat.mod_small by lia.
    by apply list_lookup_total_correct. }
  intros Hb2. rewrite Hstep by done. f_equal. clear b Hb Hb2. induction a as [|a IH]; [done|].
  replace (128 * Datatypes.S a)%nat with (128 * a + 128)%nat by lia. rewrite Hstep, IH by lia.
  destruct (lookup_lt_is_Some_2 L a) as [e He]; [lia|]. rewrite (take_S_r _ _ _ He), bind_app. f_equal. change ([e] ≫= index_block w) with (index_block w e ++ []). rewrite app_nil_r.
  rewrite (list_lookup_total_correct _ _ _ He). apply take_ge. rewrite HL; [done|by eapply list_elem_of_lookup_2].
Qed.
Lemma with_tables_perm w L : with_tables w L ≡ₚ (L ≫= index_block w) ++ L.
Proof.
  unfold with_tables. generalize (index_block w). intros f. induction L as [|e L IH]; [done|]. simpl. rewrite IH. solve_Permutation.
Qed.

Section Clearing.
Context (w : Z → list Z) (h : list Z) (d : DiskInode) (n : nat).
Hypothesis (Hok : contents_ok w) (Hh : Z.of_nat (length h) + 1 < BLOCK_CACHE_SIZE) (Hfit : inode_fits d).
Hypothesis (Hn : DiskInode_data_blocks d = Z.of_nat n) (Hbig : Z.of_nat n ≤ INDIRECT2_BOUND).
Hypothesis (Hnd : NoDup (index_list w d n)) (Hfree : ∀ b, b ∈ index_list w d n → free_block b h).

(** The end of [clear_size]: the second-level block. *)
Definition clear_second (data_blocks : Z) (d : DiskInode) (v : list Z) : st S (list Z * DiskInode) :=
  if data_blocks >? INODE_INDIRECT1_COUNT then
    let v := v ++ [indirect2 d] in
    let data_blocks := data_blocks - INODE_INDIRECT1_COUNT in
    lift (rassert (data_blocks <=? INODE_INDIRECT2_COUNT));;
    let a1 := data_blocks / INODE_INDIRECT1_COUNT in
    let b1 := data_blocks mod INODE_INDIRECT1_COUNT in
    v ← cache_modify IndirectBlock (indirect2 d) 0 (fun indirect2 =>
      v ← collect_indirect2 (take (Z.to_nat a1) indirect2) v;
      v ← (if 0 <? b1 then
             last ← lift (index indirect2 a1);
             let v := v ++ [last] in
             cache_modify IndirectBlock last 0 (fun indirect1 =>
               mret (v ++ take (Z.to_nat b1) indirect1, indirect1))
           else mret v);
      mret (v, indirect2));
    mret (v, set_indirect2 0 d)
  else mret (v, d).

Lemma clear_second_does d' v : (28 < n)%nat → indirect2 d' = indirect2 d → ∃ x, does (clear_second (Z.of_nat (n - 28)) d' v) w h
    (v ++ x, if decide (156 < n)%nat then set_indirect2 0 d' else d') w ∧
  x ≡ₚ level3 w (index_block w (indirect2 d)) (n - 156) ++
    (if decide (156 < n)%nat then indirect2 d :: take (tables (n - 156)) (index_block w (indirect2 d)) else []).
Proof.
  intros H28 E2. change INDIRECT2_BOUND with 16540 in Hbig. unfold clear_second. change INODE_INDIRECT1_COUNT with (Z.of_nat 128). rewrite Z.gtb_ltb, E2.
  case_decide as H156.
  2: { exists []. rewrite (proj2 (Z.ltb_ge _ _)) by lia. rewrite app_nil_r. split; [apply does_ret|]. by replace (n - 156)%nat with 0%nat by lia. }
  rewrite (proj2 (Z.ltb_lt _ _)) by lia. set (L := index_block w (indirect2 d)) in *. set (m := (n - 156)%nat) in *.
  replace (Z.of_nat (n - 28) - Z.of_nat 128) with (Z.of_nat m) by lia. rewrite <-Nat2Z.inj_div, <-Nat2Z.inj_mod, !Nat2Z.id.
  assert (∀ b, b ∈ indirect2 d :: take (tables m) L → free_block b h ∧ b ∈ index_list w d n) as Hin.
  { intros b Hb. assert (b ∈ index_list w d n); [|auto]. unfold index_list. rewrite (decide_True (P := (156 < n)%nat)) by done. apply elem_of_app. by right. }
  assert (NoDup (indirect2 d :: take (tables m) L)) as [Hi2 _]%NoDup_cons.
  { unfold index_list in Hnd. rewrite (decide_True (P := (156 < n)%nat)) in Hnd by done. by apply NoDup_app in Hnd as (_ & _ & ?). }
  assert (free_block (indirect2 d) h) as Hf2 by (apply Hin; left). pose proof Hf2 as (Hv2 & _). destruct (index_block_fits w _ Hok Hv2) as [HlL _]. fold L in HlL.
  assert (∀ b, b ∈ take (tables m) L → free_block b (indirect2 d :: h)) as Hfr.
  { intros b Hb. destruct (Hin b ltac:(by right)) as [(Hv & Hnh & _) _]. split_and!; [done| |simpl; lia]. intros [->|?]%elem_of_cons; done. }
  assert (∀ b, b ∈ take (tables m) L → length (index_block w b) = 128%nat) as Hlen.
  { intros b Hb. apply index_block_fits; [done|]. by apply Hfr. }
  set (a := (m / 128)%nat). set (b := (m mod 128)%nat). pose proof (Nat.div_mod m 128 ltac:(lia)) as Em. fold a b in Em.
  pose proof (Nat.mod_upper_bound m 128 ltac:(lia)) as Hb. fold b in Hb.
  assert (tables m = if decide (b = 0)%nat then a else Datatypes.S a) as Et.
  { case_decide as E; [by apply (tables_step_new m)|by apply (tables_step_old m)]. }
  pose proof (tables_le m ltac:(lia)) as Htl.
  assert (level3 w L m = level3 w (take (tables m) L) m) as El3.
  { apply list_fmap_ext. intros i j [-> Hj]%lookup_seq. unfold entry. f_equal. f_equal. rewrite !list_lookup_total_alt, lookup_take_lt; [done|]. by apply tables_below. }
  pose proof (level3_tables w (take (tables m) L) a b Hlen ltac:(lia)) as Hsplit. rewrite length_take in Hsplit. rewrite <-Em, <-El3 in Hsplit.
  rewrite take_take in Hsplit. rewrite Et in Hsplit, Htl, Hfr |- *. assert (a `min` (if decide (b = 0)%nat then a else Datatypes.S a) = a)%nat as Emin by (case_decide; lia). rewrite Emin in Hsplit.
  destruct (decide (b = 0)%nat) as [Eb|Eb].
  - exists (indirect2 d :: with_tables w (take a L)). split.
    + eapply does_bind; [apply does_lift; rewrite (proj2 (Z.leb_le _ _)) by (change INODE_INDIRECT2_COUNT with 16384; lia); done|].
      eapply does_bind; [|apply does_ret]. apply modify_same; [done|done|]. fold L.
      eapply does_bind; [apply collect_indirect2_does; [done|exact Hfr]|]. rewrite (proj2 (Z.ltb_ge _ _)) by lia.
      eapply does_bind; [apply does_ret|]. rewrite <-app_assoc. apply does_ret.
    + rewrite with_tables_perm, Hsplit by lia. rewrite Eb, take_0, app_nil_r. solve_Permutation.
  - destruct (lookup_lt_is_Some_2 L a) as [e He]; [lia|]. assert (take (Datatypes.S a) L = take a L ++ [e]) as Et2 by by apply take_S_r. rewrite Et2 in *.
    exists (indirect2 d :: with_tables w (take a L) ++ e :: take b (index_block w e)). split.
    + eapply does_bind; [apply does_lift; rewrite (proj2 (Z.leb_le _ _)) by (change INODE_INDIRECT2_COUNT with 16384; lia); done|].
      eapply does_bind; [|apply does_ret]. apply modify_same; [done|done|]. fold L.
      eapply does_bind; [apply collect_indirect2_does; [done|intros x Hx; apply Hfr, elem_of_app; by left]|]. rewrite (proj2 (Z.ltb_lt _ _)) by lia.
      eapply does_bind; [|apply does_ret]. eapply does_bind; [apply does_lift, index_Done; by rewrite Nat2Z.id|].
      apply modify_same; [done|apply Hfr, elem_of_app; right; left|]. rewrite <-!app_assoc. apply does_ret.
    + rewrite with_tables_perm, Hsplit by lia. rewrite (list_lookup_total_correct _ a e) by (rewrite lookup_app_r, length_take_le, Nat.sub_diag by (rewrite ?length_take_le; lia); done).
      generalize (index_block w) as f. intros f. solve_Permutation.
Qed.

(** [clear_size] gives the blocks of the inode, each once, and leaves an empty inode; no block changes. *)
Lemma clear_size_does : ∃ d' v, does (DiskInode_clear_size d) w h (v, d') w ∧ v ≡ₚ data_list w d n ++ index_list w d n ∧
  size d' = 0 ∧ type_ d' = type_ d ∧ type_pad d' = type_pad d ∧ link_num d' = link_num d ∧ inode_fits d'.
Proof.
  change INDIRECT2_BOUND with 16540 in Hbig. destruct (drain_blocks_run (n `min` 28) 0 (direct d) []) as (ds & Hrun & Hl & Hf); [lia|rewrite (if_direct _ Hfit); simpl; lia|].
  rewrite drop_0, app_nil_l in Hrun. assert (take (n `min` 28) (direct d) = take n (direct d)) as Et.
  { rewrite <-(take_ge (direct d) 28) at 2 by (by rewrite (if_direct _ Hfit)). by rewrite take_take. }
  rewrite Et in Hrun. set (d1 := set_direct ds (set_size 0 d)). assert (inode_fits d1) as Hfit1.
  { destruct Hfit as [H1 H2 H3 H4 H5 H6 H7 H8]. split; simpl; try done; [by rewrite Hl|by apply Hf]. }
  assert (times 0 (Z.of_nat n `min` INODE_DIRECT_COUNT) = n `min` 28)%nat as Etimes by (unfold times; change INODE_DIRECT_COUNT with 28; lia).
  unfold data_list, index_list. destruct (decide (28 < n)%nat) as [H28|H28].
  2: { exists d1, (take n (direct d)). split_and!; try done.
    - unfold DiskInode_clear_size. rewrite Hn, Etimes. eapply does_bind; [apply does_lift, Hrun|]. cbn beta iota.
      rewrite Z.gtb_ltb, (proj2 (Z.ltb_ge _ _)) by (change INODE_DIRECT_COUNT with 28; lia). apply does_ret.
    - rewrite (decide_False (P := (156 < n)%nat)) by lia. replace (n - 28)%nat with 0%nat by lia. replace (n - 156)%nat with 0%nat by lia.
      by rewrite level3_0, take_0, !app_nil_r. }
  assert (free_block (indirect1 d) h) as Hf1 by (apply Hfree; unfold index_list; rewrite decide_True by done; left). pose proof Hf1 as (Hv1 & _).
  destruct (index_block_fits w _ Hok Hv1) as [Hl1 _].
  destruct (clear_second_does (set_indirect1 0 d1) ((take n (direct d) ++ [indirect1 d]) ++ take (n - 28) (index_block w (indirect1 d))) H28 eq_refl) as (x & Hrun2 & Hx).
  exists (if decide (156 < n)%nat then set_indirect2 0 (set_indirect1 0 d1) else set_indirect1 0 d1),
    (((take n (direct d) ++ [indirect1 d]) ++ take (n - 28) (index_block w (indirect1 d))) ++ x). split_and!.
  - unfold DiskInode_clear_size. rewrite Hn, Etimes. eapply does_bind; [apply does_lift, Hrun|]. cbn beta iota.
    rewrite Z.gtb_ltb, (proj2 (Z.ltb_lt _ _)) by (change INODE_DIRECT_COUNT with 28; lia). change INODE_DIRECT_COUNT with (Z.of_nat 28).
    replace (Z.of_nat n - Z.of_nat 28) with (Z.of_nat (n - 28)) by lia. eapply does_bind; [|exact Hrun2].
    apply modify_same; [done|done|]. eapply does_bind; [|apply does_ret]. apply does_lift. rewrite collect_blocks_run; [|lia|].
    + rewrite drop_0. do 2 f_equal. change INODE_INDIRECT1_COUNT with 128. unfold times.
      replace (Z.to_nat (Z.of_nat (n - 28) `min` 128 - 0)) with ((n - 28) `min` 128)%nat by lia. change (indirect1 d1) with (indirect1 d).
      rewrite <-take_take. f_equal.
    + change INODE_INDIRECT1_COUNT with 128. unfold times. rewrite (Hl1 : length (index_block w (indirect1 (set_direct ds (set_size 0 d)))) = 128%nat). lia.
  - rewrite Hx. solve_Permutation.
  - by case_decide.
  - by case_decide.
  - by case_decide.
  - by case_decide.
  - destruct Hfit1 as [H1 H2 H3 H4 H5 H6 H7 H8]. case_decide; split; simpl in *; try done; lia.
Qed.
End Clearing.
End FileGrowth.
