(* ===== verification/Efs.v ===== *)
(** * The file system on a device

    [tg-rcore-tutorial-ch6/tg-rcore-tutorial-easy-fs/src/efs.rs]: how the device is divided (super block,
    inode bitmap, inodes, data bitmap, data), formatting, mounting and allocation. *)

From S2P Require Import Prelude Bytes BlockStore BlockCache Bitmap Layout FileData.

Record EasyFileSystem := mkEfs {
  inode_bitmap : Bitmap;
  data_bitmap : Bitmap;
  inode_area_start_block : Z;
  data_area_start_block : Z;
}.

(** [core::mem::size_of::<DiskInode>()]. *)
Definition inode_size : Z := Z.of_nat (@size_of DiskInode DiskInode_pod).
Definition inodes_per_block : Z := BLOCK_SZ / inode_size.

Definition get_disk_inode_pos (efs : EasyFileSystem) (inode_id : Z) : outcome (Z * Z) :=
  block_id ← u32_add (inode_area_start_block efs) (inode_id / inodes_per_block);
  Done (block_id, (inode_id mod inodes_per_block) * inode_size).

Definition get_inode_id (efs : EasyFileSystem) (block_id block_offset : Z) : outcome Z :=
  b ← u32_sub (as_u32 block_id) (inode_area_start_block efs);
  r ← checked 0 u32_max (b * inodes_per_block);
  u32_add r (as_u32 (block_offset / inode_size)).

Definition get_data_block_id (efs : EasyFileSystem) (data_block_id : Z) : outcome Z :=
  u32_add (data_area_start_block efs) data_block_id.

(** The division of a device of [total_blocks] blocks; the first step of [create]. *)
Record Geometry := mkGeometry {
  g_inode_area_blocks : Z;
  g_data_bitmap_blocks : Z;
  g_data_area_blocks : Z;
  g_efs : EasyFileSystem;
}.
Definition efs_layout (total_blocks inode_bitmap_blocks : Z) : outcome Geometry :=
  let inode_bitmap := Bitmap_new 1 inode_bitmap_blocks in
  let inode_num := Bitmap_maximum inode_bitmap in
  let inode_area_blocks := as_u32 (div_ceil (inode_num * inode_size) BLOCK_SZ) in
  inode_total_blocks ← u32_add inode_bitmap_blocks inode_area_blocks;
  data_total_blocks ← (t ← u32_sub total_blocks 1; u32_sub t inode_total_blocks);
  let data_bitmap_blocks := div_ceil data_total_blocks 4097 in
  data_area_blocks ← u32_sub data_total_blocks data_bitmap_blocks;
  data_bitmap_start ← (t ← u32_add 1 inode_bitmap_blocks; u32_add t inode_area_blocks);
  let data_bitmap := Bitmap_new data_bitmap_start data_bitmap_blocks in
  inode_start ← u32_add 1 inode_bitmap_blocks;
  data_start ← (t ← u32_add 1 inode_total_blocks; u32_add t data_bitmap_blocks);
  Done (mkGeometry inode_area_blocks data_bitmap_blocks data_area_blocks
    (mkEfs inode_bitmap data_bitmap inode_start data_start)).

Section Operations.
Context {S : Type} `{!BlockStore S}.

Definition alloc_inode (efs : EasyFileSystem) : st S Z :=
  r ← Bitmap_alloc (inode_bitmap efs);
  i ← lift (unwrap r);
  mret (as_u32 i).

Definition alloc_data (efs : EasyFileSystem) : st S Z :=
  r ← Bitmap_alloc (data_bitmap efs);
  i ← lift (unwrap r);
  lift (u32_add (as_u32 i) (data_area_start_block efs)).

(** [iter_mut().for_each(|p| *p = 0)]. *)
Definition zeroed (b : list Z) : list Z := (fun _ => 0) <$> b.

Definition dealloc_data (efs : EasyFileSystem) (block_id : Z) : st S unit :=
  cache_modify DataBlock block_id 0 (fun data_block => mret ((), zeroed data_block));;
  i ← lift (u32_sub block_id (data_area_start_block efs));
  Bitmap_dealloc (data_bitmap efs) i.

(** The second step of [create]: blocks [i], [i + 1], ... ([n] of them) are zeroed. *)
Fixpoint zero_blocks (n : nat) (i : Z) : st S unit :=
  match n with
  | O => mret ()
  | Datatypes.S n' =>
      cache_modify DataBlock i 0 (fun data_block => mret ((), zeroed data_block));;
      zero_blocks n' (i + 1)
  end.

Definition EasyFileSystem_create (total_blocks inode_bitmap_blocks : Z) : st S EasyFileSystem :=
  g ← lift (efs_layout total_blocks inode_bitmap_blocks);
  let efs := g_efs g in
  zero_blocks (Z.to_nat total_blocks) 0;;
  cache_modify SuperBlock_pod 0 0 (fun _ => mret ((),
    SuperBlock_initialize total_blocks inode_bitmap_blocks (g_inode_area_blocks g)
      (g_data_bitmap_blocks g) (g_data_area_blocks g)));;
  root ← alloc_inode efs;
  lift (rassert (root =? 0));;
  '(root_inode_block_id, root_inode_offset) ← lift (get_disk_inode_pos efs 0);
  cache_modify DiskInode_pod root_inode_block_id root_inode_offset (fun disk_inode =>
    mret ((), DiskInode_initialize Directory disk_inode));;
  sync_all;;
  mret efs.

Definition EasyFileSystem_open : st S EasyFileSystem :=
  cache_read SuperBlock_pod 0 0 (fun super_block => lift (
    rassert (SuperBlock_is_valid super_block);;
    inode_total_blocks ← u32_add (sb_inode_bitmap_blocks super_block) (sb_inode_area_blocks super_block);
    data_bitmap_start ← u32_add 1 inode_total_blocks;
    inode_start ← u32_add 1 (sb_inode_bitmap_blocks super_block);
    data_start ← (t ← u32_add 1 inode_total_blocks; u32_add t (sb_data_bitmap_blocks super_block));
    Done (mkEfs (Bitmap_new 1 (sb_inode_bitmap_blocks super_block))
      (Bitmap_new data_bitmap_start (sb_data_bitmap_blocks super_block)) inode_start data_start))).

End Operations.

(** ** Positions of inodes *)
Lemma inode_size_eq : inode_size = 132. Proof. done. Qed.
Lemma inodes_per_block_eq : inodes_per_block = 3. Proof. done. Qed.

Lemma get_disk_inode_pos_eq efs i : 0 ≤ inode_area_start_block efs → 0 ≤ i →
  inode_area_start_block efs + i / 3 ≤ u32_max →
  get_disk_inode_pos efs i = Done (inode_area_start_block efs + i / 3, i mod 3 * 132).
Proof.
  intros Hs Hi Hu. assert (0 ≤ i / 3) by (apply Z.div_pos; lia).
  unfold get_disk_inode_pos, u32_add. rewrite inodes_per_block_eq, checked_ok by lia. done.
Qed.

(** inode numbers and positions correspond.  Every inode number has a position: the block of
    [get_disk_inode_pos] and an offset at which the whole inode is inside the block; different
    inodes do not overlap, and [get_inode_id] gives the number back. *)
Theorem inode_pos_roundtrip (efs : EasyFileSystem) (i : Z) :
  0 ≤ inode_area_start_block efs → 0 ≤ i ≤ u32_max → inode_area_start_block efs + i / 3 ≤ u32_max →
  ∃ b off, get_disk_inode_pos efs i = Done (b, off) ∧ 0 ≤ off ∧ off + inode_size ≤ BLOCK_SZ ∧
    get_inode_id efs b off = Done i ∧
    ∀ j b' off', 0 ≤ j ≤ u32_max → inode_area_start_block efs + j / 3 ≤ u32_max → j ≠ i →
      get_disk_inode_pos efs j = Done (b', off') →
      b' ≠ b ∨ off' + inode_size ≤ off ∨ off + inode_size ≤ off'.
Proof.
  intros Hs Hi Hu. pose proof (Z.div_mod i 3 ltac:(lia)). pose proof (Z.mod_pos_bound i 3 ltac:(lia)).
  assert (0 ≤ i / 3) by (apply Z.div_pos; lia).
  eexists _, _. split; [apply get_disk_inode_pos_eq; lia|]. rewrite inode_size_eq. unfold BLOCK_SZ.
  split; [lia|]. split; [lia|]. split.
  - unfold get_inode_id, as_u32, u32_sub, u32_add. rewrite inode_size_eq, inodes_per_block_eq.
    rewrite Z.div_mul by lia. unfold u32_max in *. rewrite (Z.mod_small (_ + _)), (Z.mod_small (i mod 3)) by lia.
    replace (inode_area_start_block efs + i / 3 - inode_area_start_block efs) with (i / 3) by lia.
    rewrite (checked_ok _ _ (i / 3)) by lia. simpl. rewrite (checked_ok _ _ (i / 3 * 3)) by lia. simpl.
    rewrite checked_ok by lia. f_equal. lia.
  - intros j b' off' Hj Huj Hne Hp. rewrite get_disk_inode_pos_eq in Hp by lia. injection Hp as <- <-.
    pose proof (Z.div_mod j 3 ltac:(lia)). pose proof (Z.mod_pos_bound j 3 ltac:(lia)).
    destruct (decide (j / 3 = i / 3)); [right|left]; lia.
Qed.

Lemma inode_pos_roundtrip_witness :
  let efs := mkEfs (Bitmap_new 1 1) (Bitmap_new 1058 8) 2 1066 in
  ∃ b off, get_disk_inode_pos efs 7 = Done (b, off) ∧ get_inode_id efs b off = Done 7.
Proof.
  simpl. set (efs := mkEfs _ _ _ _).
  destruct (inode_pos_roundtrip efs 7) as (b & off & Hp & _ & _ & Hi & _).
  - simpl. lia.
  - unfold u32_max. lia.
  - unfold u32_max. vm_compute. done.
  - exists b, off. split; [exact Hp|exact Hi].
Defined.

(** ** Formatting *)
Lemma efs_layout_eq total ibm : 0 < ibm → 1 + ibm * 1057 ≤ total ≤ u32_max →
  let dt := total - 1 - ibm * 1057 in
  let db := div_ceil dt 4097 in
  0 ≤ db ≤ dt ∧ dt ≤ 4097 * db ∧
  efs_layout total ibm = Done (mkGeometry (ibm * 1056) db (dt - db)
    (mkEfs (Bitmap_new 1 ibm) (Bitmap_new (1 + ibm * 1057) db) (1 + ibm) (1 + ibm * 1057 + db))).
Proof.
  intros Hi Ht dt db. unfold u32_max in *.
  pose proof (div_ceil_bounds dt 4097 ltac:(done)) as Hdb. fold db in Hdb.
  split; [lia|]. split; [lia|]. unfold efs_layout, u32_add, u32_sub.
  assert (as_u32 (div_ceil (Bitmap_maximum (Bitmap_new 1 ibm) * inode_size) BLOCK_SZ) = ibm * 1056) as ->.
  { unfold Bitmap_maximum, Bitmap_new, BLOCK_BITS, BLOCK_SZ. cbn [blocks]. rewrite inode_size_eq.
    replace (ibm * (512 * 8) * 132) with (ibm * 1056 * 512) by lia. unfold div_ceil, as_u32.
    rewrite Z.mod_mul, Z.div_mul by lia. simpl. apply Z.mod_small. lia. }
  rewrite (checked_ok _ _ (ibm + ibm * 1056)) by (unfold u32_max; lia). simpl.
  rewrite (checked_ok _ _ (total - 1)) by (unfold u32_max; lia). simpl.
  rewrite (checked_ok _ _ (total - 1 - (ibm + ibm * 1056))) by (unfold u32_max; lia). simpl.
  replace (total - 1 - (ibm + ibm * 1056)) with dt by lia. fold db.
  rewrite (checked_ok _ _ (dt - db)) by (unfold u32_max; lia). simpl.
  rewrite (checked_ok _ _ (1 + ibm)) by (unfold u32_max; lia). simpl.
  rewrite (checked_ok _ _ (1 + ibm + ibm * 1056)) by (unfold u32_max; lia). simpl.
  rewrite (checked_ok _ _ (1 + (ibm + ibm * 1056))) by (unfold u32_max; lia). simpl.
  rewrite (checked_ok _ _ (1 + (ibm + ibm * 1056) + db)) by (unfold u32_max; lia). simpl.
  do 2 f_equal. f_equal; [f_equal|]; lia.
Qed.

Section Format.
Context {S : Type} `{!BlockStore S, !BlockStoreSpec S}.

Definition zero_block : list Z := replicate 512 0.
Lemma zeroed_eq b : length b = 512%nat → zeroed b = zero_block.
Proof. intros Hl. unfold zeroed, zero_block. rewrite <-Hl. clear Hl.
  induction b as [|x b IH]; [done|]. rewrite fmap_cons, IH. done. Qed.
Lemma zero_block_ok : length zero_block = 512%nat ∧ Forall is_byte zero_block.
Proof. split; [apply length_replicate|]. apply Forall_replicate. unfold is_byte. lia. Qed.

Lemma does_zero w h id : contents_ok w → free_block id h →
  does (cache_modify DataBlock id 0 (fun data_block => mret ((), zeroed data_block))) w h ()
    (set_block id zero_block w) ∧ contents_ok (set_block id zero_block w).
Proof.
  intros Hc Hf. pose proof Hf as [Hv _]. destruct (Hc id Hv) as [Hl _]. destruct zero_block_ok as [Hz1 Hz2].
  split.
  - rewrite <-put_data by done. apply does_update; [done|done|apply inside_data|by apply data_fits|].
    rewrite at_data, zeroed_eq by done. apply does_ret.
  - intros k Hk. unfold set_block. case_decide; [done|by apply Hc].
Qed.

Lemma zero_blocks_does n i w : contents_ok w → (∀ k, i ≤ k < i + Z.of_nat n → free_block k []) →
  ∃ w', does (zero_blocks n i) w [] () w' ∧ contents_ok w' ∧
    ∀ k, w' k = if decide (i ≤ k < i + Z.of_nat n) then zero_block else w k.
Proof.
  revert i w. induction n as [|n IH]; intros i w Hc Hf.
  { exists w. split_and!; [apply does_ret|done|]. intros k. case_decide; [lia|done]. }
  destruct (does_zero w [] i Hc) as [Hz Hcz]; [apply Hf; lia|].
  destruct (IH (i + 1) _ Hcz) as (w' & Hd & Hc' & Hk); [intros k Hk; apply Hf; lia|].
  exists w'. split_and!; [eapply does_bind; [exact Hz|exact Hd]|done|].
  intros k. rewrite Hk. unfold set_block. repeat case_decide; done || lia.
Qed.

Lemma inside_super : inside (Pod0 := SuperBlock_pod) SuperBlock 0.
Proof. split; [lia|]. simpl. unfold BLOCK_SZ. lia. Qed.
Lemma inside_inode off : 0 ≤ off ≤ 264 → inside (Pod0 := DiskInode_pod) DiskInode off.
Proof. intros. split; [lia|]. change (Z.of_nat _) with 132. unfold BLOCK_SZ. lia. Qed.

Lemma super_fits t a b c e : 0 ≤ t ≤ u32_max → 0 ≤ a ≤ u32_max → 0 ≤ b ≤ u32_max → 0 ≤ c ≤ u32_max →
  0 ≤ e ≤ u32_max → fits (Pod := SuperBlock_pod) (SuperBlock_initialize t a b c e).
Proof.
  intros. unfold u32_max in *. split; [|done]. split; [done|]. change (256 ^ Z.of_nat 4) with (2 ^ 32).
  unfold SuperBlock_initialize, EFS_MAGIC. repeat constructor; simpl; lia.
Qed.

(** A bitmap whose blocks are zero has no bit set. *)
Lemma bitmap_bit_zero w bm j : w (j / BLOCK_BITS + start_block_id bm) = zero_block → 0 ≤ j →
  bitmap_bit w bm j = false.
Proof.
  intros Hw Hj. unfold bitmap_bit, bitmap_block, at_block. rewrite Hw.
  assert (decode (Pod := BitmapBlock) (slice (Z.to_nat 0) (@size_of _ BitmapBlock) zero_block)
    = replicate 64 0) as -> by (vm_compute; reflexivity).
  unfold block_bit. pose proof (block_of_bit j) as [_ Hm]. unfold BLOCK_BITS, BLOCK_SZ in Hm.
  rewrite list_lookup_total_alt, lookup_replicate_2.
  - apply Z.bits_0.
  - assert (j mod (512 * 8) / 64 < 64) by (apply Z.div_lt_upper_bound; lia).
    assert (0 ≤ j mod (512 * 8) / 64) by (apply Z.div_pos; lia). unfold BLOCK_BITS, BLOCK_SZ. lia.
Qed.

(** The first allocation in a bitmap with a clear first bit. *)
Lemma alloc_inode_first efs w h : contents_ok w → 0 < blocks (inode_bitmap efs) →
  bitmap_free (inode_bitmap efs) h → bitmap_bit w (inode_bitmap efs) 0 = false →
  ∃ w', does (alloc_inode efs) w h 0 w' ∧ contents_ok w' ∧ bit_set (inode_bitmap efs) w w' 0.
Proof.
  intros Hc Hb Hf Hz.
  destruct (Bitmap_alloc_spec (inode_bitmap efs) h w Hc ltac:(lia) Hf) as (r & w' & Hd & Hc' & Hr).
  destruct r as [i|].
  - destruct Hr as (Hi & Hset & Hj). assert (i = 0) as ->.
    { destruct (decide (i = 0)); [done|]. rewrite (Hj 0) in Hz by lia. done. }
    exists w'. split_and!; [|done..]. unfold alloc_inode.
    eapply does_bind; [exact Hd|]. simpl. eapply does_bind; [by apply does_lift|apply does_ret].
  - destruct Hr as [_ Hall]. rewrite Hall in Hz; [done|]. unfold Bitmap_maximum. bits.
Qed.

Lemma initialize_fits t d : inode_fits d → inode_fits (DiskInode_initialize t d).
Proof.
  intros [H1 H2 H3 H4 H5 H6 H7 H8]. split; simpl; try lia.
  - by rewrite length_fmap.
  - apply Forall_fmap. eapply Forall_impl; [exact H3|]. intros x _. simpl. lia.
  - destruct t; simpl; lia.
Qed.

(** The last step of [create]: the root inode. *)
Lemma does_root_inode w h id : contents_ok w → free_block id h →
  let d := DiskInode_initialize Directory (at_block DiskInode_pod w id 0) in
  let w' := put_block DiskInode_pod id 0 d w in
  does (cache_modify DiskInode_pod id 0 (fun disk_inode =>
    mret ((), DiskInode_initialize Directory disk_inode))) w h () w' ∧
  contents_ok w' ∧ at_block DiskInode_pod w' id 0 = d.
Proof.
  intros Hc Hf d w'. pose proof Hf as [Hv _]. pose proof (inside_inode 0 ltac:(lia)) as Hin.
  assert (fits (Pod := DiskInode_pod) d) as Hfit.
  { apply inode_fits_pod, initialize_fits, pod_inode_fits. by apply at_block_fits. }
  split_and!.
  - apply does_update; [done..|]. apply does_ret.
  - by apply put_block_ok.
  - apply at_put_eq; [by destruct (Hc id Hv)|done..].
Qed.

(** What a freshly formatted device holds. *)
Record formatted (w : Z → list Z) (efs : EasyFileSystem) (sb : SuperBlock) : Prop := {
  fm_super : at_block SuperBlock_pod w 0 0 = sb;
  fm_inodes j : 0 ≤ j < Bitmap_maximum (inode_bitmap efs) → bitmap_bit w (inode_bitmap efs) j = (j =? 0);
  fm_data j : 0 ≤ j < Bitmap_maximum (data_bitmap efs) → bitmap_bit w (data_bitmap efs) j = false;
  fm_root : let root := at_block DiskInode_pod w (inode_area_start_block efs) 0 in
    DiskInode_is_dir root = true ∧ size root = 0 ∧ link_num root = 1 ∧ direct root = replicate 28 0;
}.

Lemma bit_block_range bm j : 0 ≤ j < Bitmap_maximum bm → 0 ≤ j / BLOCK_BITS < blocks bm.
Proof. unfold Bitmap_maximum. intros Hj. destruct (block_of_bit j) as [Ej Hm]. bits. Qed.

Lemma bitmap_bit_frame w w' bm j : w' (j / BLOCK_BITS + start_block_id bm) = w (j / BLOCK_BITS + start_block_id bm) →
  bitmap_bit w' bm j = bitmap_bit w bm j.
Proof. intros E. unfold bitmap_bit, bitmap_block, at_block. by rewrite E. Qed.

(** The file system of a device of [total] blocks with [ibm] blocks of inode bitmap. *)
Definition data_total (total ibm : Z) : Z := total - 1 - ibm * 1057.
Definition formatted_efs (total ibm : Z) : EasyFileSystem :=
  let db := div_ceil (data_total total ibm) 4097 in
  mkEfs (Bitmap_new 1 ibm) (Bitmap_new (1 + ibm * 1057) db) (1 + ibm) (1 + ibm * 1057 + db).
Definition formatted_super (total ibm : Z) : SuperBlock :=
  let db := div_ceil (data_total total ibm) 4097 in
  SuperBlock_initialize total ibm (ibm * 1056) db (data_total total ibm - db).

Lemma zero_bits total w bm j : (∀ k, 0 < k < total → w k = zero_block) →
  0 ≤ j < Bitmap_maximum bm → 0 < start_block_id bm → start_block_id bm + blocks bm ≤ total →
  bitmap_bit w bm j = false.
Proof. intros Hz Hj H1 H2. pose proof (bit_block_range bm j Hj). apply bitmap_bit_zero; [apply Hz|]; lia. Qed.

(** From zeroed blocks and a super block: one bit set in the inode bitmap and the root inode written. *)
Lemma formatted_intro total ibm w2 w3 w4 : 0 < ibm → 1 + ibm * 1057 ≤ total ≤ u32_max →
  let efs := formatted_efs total ibm in
  at_block SuperBlock_pod w2 0 0 = formatted_super total ibm → (∀ k, 0 < k < total → w2 k = zero_block) →
  bit_set (inode_bitmap efs) w2 w3 0 → (∀ k, k ≠ 1 + ibm → w4 k = w3 k) →
  at_block DiskInode_pod w4 (1 + ibm) 0 = DiskInode_initialize Directory (at_block DiskInode_pod w3 (1 + ibm) 0) →
  formatted w4 efs (formatted_super total ibm).
Proof.
  intros Hi Ht efs Hsb Hz2 Hset Hw4 Hroot.
  destruct (efs_layout_eq total ibm Hi Ht) as (Hdb & Hdt & _).
  fold (data_total total ibm) in Hdb, Hdt. set (db := div_ceil (data_total total ibm) 4097) in *.
  assert (∀ k, k ≠ 1 → w3 k = w2 k) as Hw3.
  { intros k Hk. apply (bs_frame _ _ _ _ Hset). simpl. by rewrite Z.div_0_l by (unfold BLOCK_BITS, BLOCK_SZ; lia). }
  unfold data_total in Hdb. split.
  - unfold at_block. rewrite Hw4, Hw3 by lia. done.
  - intros j Hj. pose proof (bit_block_range _ j Hj) as Hr. change (blocks (inode_bitmap efs)) with ibm in Hr.
    rewrite (bitmap_bit_frame w3 w4) by (apply Hw4; change (start_block_id (inode_bitmap efs)) with 1; lia).
    rewrite (bs_now _ _ _ _ Hset) by lia. rewrite (zero_bits total); [apply orb_false_r|done..|simpl; lia].
  - intros j Hj. pose proof (bit_block_range _ j Hj) as Hr. change (blocks (data_bitmap efs)) with db in Hr.
    rewrite (bitmap_bit_frame w2 w4); [apply (zero_bits total); [done|done|simpl; lia|simpl; fold db; lia]|].
    change (start_block_id (data_bitmap efs)) with (1 + ibm * 1057). rewrite Hw4, Hw3 by lia. done.
  - change (inode_area_start_block efs) with (1 + ibm). rewrite Hroot. simpl. by split_and!.
Qed.

Lemma create_does w total ibm : contents_ok w → 0 < ibm → 1 + ibm * 1057 ≤ total ≤ u32_max →
  (∀ k, 0 ≤ k < total → valid k) →
  let efs := formatted_efs total ibm in
  ∃ w', does (EasyFileSystem_create total ibm) w [] efs w' ∧ contents_ok w' ∧
    formatted w' efs (formatted_super total ibm).
Proof.
  intros Hc Hi Ht Hvalid efs.
  destruct (efs_layout_eq total ibm Hi Ht) as (Hdb & Hdt & Hlay).
  assert (∀ k, 0 ≤ k < total → free_block k []) as Hfree.
  { intros k Hk. split_and!; [by apply Hvalid|set_solver|unfold BLOCK_CACHE_SIZE; simpl; lia]. }
  destruct (zero_blocks_does (Z.to_nat total) 0 w Hc) as (w1 & Hd1 & Hc1 & Hw1).
  { intros k Hk. apply Hfree. lia. }
  assert (∀ k, 0 ≤ k < total → w1 k = zero_block) as Hz.
  { intros k Hk. rewrite Hw1, decide_True by lia. done. }
  set (sb := formatted_super total ibm).
  assert (fits (Pod := SuperBlock_pod) sb) as Hsb by (apply super_fits; unfold data_total; lia).
  pose proof inside_super as Hin. set (w2 := put_block SuperBlock_pod 0 0 sb w1).
  assert (contents_ok w2) as Hc2 by (by apply put_block_ok).
  assert (∀ k, 0 < k < total → w2 k = zero_block) as Hz2.
  { intros k Hk. unfold w2, put_block. rewrite set_block_ne by lia. apply Hz. lia. }
  destruct (alloc_inode_first efs w2 [] Hc2 Hi) as (w3 & Hd3 & Hc3 & Hset).
  { intros b Hb. simpl in *. apply Hfree. lia. }
  { apply (zero_bits total); [done|unfold Bitmap_maximum; simpl; bits|simpl; lia..]. }
  destruct (does_root_inode w3 [] (1 + ibm) Hc3) as (Hd4 & Hc4 & Hroot); [apply Hfree; lia|].
  set (w4 := put_block DiskInode_pod (1 + ibm) 0 _ w3) in *.
  assert (get_disk_inode_pos efs 0 = Done (1 + ibm, 0)) as Hpos.
  { rewrite get_disk_inode_pos_eq; change (0 / 3) with 0; change (inode_area_start_block efs) with (1 + ibm);
      unfold u32_max in *; [do 2 f_equal; lia|lia..]. }
  exists w4. split_and!; [|done|].
  - unfold EasyFileSystem_create. eapply does_bind; [apply does_lift, Hlay|]. eapply does_bind; [exact Hd1|].
    eapply does_bind.
    { apply (does_update SuperBlock_pod 0 0 _ w1); [done|apply Hfree; lia|done|exact Hsb|]. apply does_ret. }
    eapply does_bind; [exact Hd3|]. eapply does_bind; [by apply does_lift|].
    eapply does_bind; [apply does_lift, Hpos|].
    eapply does_bind; [exact Hd4|]. eapply does_bind; [apply does_sync|apply does_ret].
  - apply (formatted_intro total ibm w2 w3); try done.
    + apply at_put_eq; [rewrite Hz by lia; apply zero_block_ok|done..].
    + intros k Hk. unfold w4, put_block. by rewrite set_block_ne.
Qed.

(** Mounting reads the same division back. *)
Lemma open_does w total ibm : contents_ok w → 0 < ibm → 1 + ibm * 1057 ≤ total ≤ u32_max → free_block 0 [] →
  at_block SuperBlock_pod w 0 0 = formatted_super total ibm →
  does EasyFileSystem_open w [] (formatted_efs total ibm) w.
Proof.
  intros Hc Hi Ht Hf Hsb. destruct (efs_layout_eq total ibm Hi Ht) as (Hdb & Hdt & _).
  fold (data_total total ibm) in Hdb, Hdt. unfold EasyFileSystem_open.
  apply does_read; [done|apply inside_super|]. rewrite Hsb. apply does_lift.
  unfold formatted_super, formatted_efs, SuperBlock_initialize, SuperBlock_is_valid, u32_add.
  set (db := div_ceil (data_total total ibm) 4097) in *. unfold data_total in Hdb.
  cbn [magic sb_inode_bitmap_blocks sb_inode_area_blocks sb_data_bitmap_blocks]. simpl (rassert _).
  rewrite (checked_ok _ _ (ibm + ibm * 1056)) by (unfold u32_max in *; lia). simpl.
  rewrite (checked_ok _ _ (1 + (ibm + ibm * 1056))) by (unfold u32_max in *; lia). simpl.
  rewrite (checked_ok _ _ (1 + ibm)) by (unfold u32_max in *; lia). simpl.
  rewrite (checked_ok _ _ (1 + (ibm + ibm * 1056) + db)) by (unfold u32_max in *; lia). simpl.
  f_equal. f_equal; [f_equal|]; lia.
Qed.
End Format.

(** C37: formatting then mounting.  On a device with room for the inode area, [create] always succeeds; it leaves
    a super block, an inode bitmap with only the root's bit set, an empty data bitmap and an empty root directory with one link;
    and [open] on that device gives back the same file system. *)
Theorem format_then_mount {S} `{!BlockStore S, !BlockStoreSpec S} (w : Z → list Z) (total ibm : Z) :
  contents_ok w → 0 < ibm → 1 + ibm * 1057 ≤ total ≤ u32_max → (∀ k, 0 ≤ k < total → valid k) →
  ∃ efs w', does (EasyFileSystem_create total ibm) w [] efs w' ∧ contents_ok w' ∧
    formatted w' efs (formatted_super total ibm) ∧ does EasyFileSystem_open w' [] efs w'.
Proof.
  intros Hc Hi Ht Hv. destruct (create_does w total ibm Hc Hi Ht Hv) as (w' & Hd & Hc' & Hf).
  eexists _, w'. split_and!; [exact Hd|done|done|]. apply open_does; [done..| |apply Hf].
  split_and!; [apply Hv; lia|set_solver|unfold BLOCK_CACHE_SIZE; simpl; lia].
Qed.

Lemma format_then_mount_witness :
  ∃ efs w', does (BlockStoreSpec0 := cache_store_spec (BlockDeviceSpec0 := mem_device_spec 1060))
      (EasyFileSystem_create 1060 1) (fun _ => zero_block) [] efs w' ∧
    does (BlockStoreSpec0 := cache_store_spec (BlockDeviceSpec0 := mem_device_spec 1060))
      EasyFileSystem_open w' [] efs w'.
Proof.
  destruct (format_then_mount (BlockStoreSpec0 := cache_store_spec (BlockDeviceSpec0 := mem_device_spec 1060))
    (fun _ => zero_block) 1060 1) as (efs & w' & Hd & _ & _ & Ho).
  - intros k _. apply zero_block_ok.
  - lia.
  - unfold u32_max. lia.
  - intros k Hk. exact Hk.
  - exists efs, w'. split; [exact Hd|exact Ho].
Defined.

(** the inode area is too small for the inode bitmap.  [create] sizes the area in bytes (1056 blocks for
    4096 inodes of 132 bytes), but inodes do not cross block boundaries, three to a block: of the inode
    numbers the bitmap can hand out, exactly those below 3168 for each bitmap block lie in the area; the others
    are placed in the data bitmap or beyond. *)
Theorem inode_area_overrun (total ibm : Z) (g : Geometry) (i : Z) :
  0 < ibm → 1 + ibm * 1057 ≤ total ≤ u32_max → efs_layout total ibm = Done g →
  0 ≤ i < Bitmap_maximum (inode_bitmap (g_efs g)) →
  inode_area_start_block (g_efs g) + i / 3 ≤ u32_max →
  ∃ b off, get_disk_inode_pos (g_efs g) i = Done (b, off) ∧
    (start_block_id (data_bitmap (g_efs g)) ≤ b ↔ 3168 * ibm ≤ i).
Proof.
  intros Hi Ht Hg Hmax Hu. destruct (efs_layout_eq total ibm Hi Ht) as (_ & _ & Hlay).
  rewrite Hlay in Hg. injection Hg as <-. cbn [g_efs inode_area_start_block data_bitmap start_block_id Bitmap_new] in *.
  eexists _, _. split; [apply get_disk_inode_pos_eq; simpl; lia|].
  cbn [inode_area_start_block]. simpl start_block_id.
  pose proof (Z.div_mod i 3 ltac:(lia)). pose proof (Z.mod_pos_bound i 3 ltac:(lia)). lia.
Qed.

(** Inode 3168 of a device of 32768 blocks lies in the first block of the data bitmap. *)
Lemma inode_area_overrun_witness :
  ∃ g b off, efs_layout 32768 1 = Done g ∧ get_disk_inode_pos (g_efs g) 3168 = Done (b, off) ∧
    start_block_id (data_bitmap (g_efs g)) ≤ b.
Proof.
  destruct (efs_layout 32768 1) as [g| |] eqn:Eg; [|by vm_compute in Eg..].
  assert (Bitmap_maximum (inode_bitmap (g_efs g)) = 4096 ∧ inode_area_start_block (g_efs g) = 2) as [Hm Ha].
  { vm_compute in Eg. injection Eg as <-. by vm_compute. }
  destruct (inode_area_overrun 32768 1 g 3168) as (b & off & Hp & Hb).
  - lia.
  - unfold u32_max. lia.
  - exact Eg.
  - rewrite Hm. lia.
  - rewrite Ha. unfold u32_max. by vm_compute.
  - exists g, b, off. split_and!; [done|exact Hp|]. apply Hb. lia.
Defined.

Section Data.
Context {S : Type} `{!BlockStore S, !BlockStoreSpec S}.

(** [alloc_data] when bit [i] is the first free one. *)
Lemma alloc_data_does efs w h i : contents_ok w → 0 ≤ blocks (data_bitmap efs) → bitmap_free (data_bitmap efs) h →
  0 ≤ i < Bitmap_maximum (data_bitmap efs) → bitmap_bit w (data_bitmap efs) i = false →
  (∀ j, 0 ≤ j < i → bitmap_bit w (data_bitmap efs) j = true) →
  0 ≤ data_area_start_block efs → i + data_area_start_block efs ≤ u32_max →
  ∃ w', does (alloc_data efs) w h (i + data_area_start_block efs) w' ∧ contents_ok w' ∧
    bit_set (data_bitmap efs) w w' i.
Proof.
  intros Hc Hb Hf Hi Hz Hones Hs Hu.
  destruct (Bitmap_alloc_spec (data_bitmap efs) h w Hc Hb Hf) as (r & w' & Hd & Hc' & Hr).
  destruct r as [i'|].
  - destruct Hr as (Hi' & Hset & Hj). assert (i' = i) as ->.
    { destruct (Z.lt_total i' i) as [Hlt|[?|Hlt]]; [|done|].
      - pose proof (bs_was _ _ _ _ Hset) as Hw. rewrite (Hones i') in Hw; [done|lia].
      - rewrite (Hj i) in Hz; [done|lia]. }
    exists w'. split_and!; [|done..]. unfold alloc_data. eapply does_bind; [exact Hd|].
    eapply does_bind; [by apply does_lift|]. apply does_lift. unfold as_u32, u32_add.
    unfold u32_max in Hu. rewrite Z.mod_small by lia. apply checked_ok. unfold u32_max. lia.
  - destruct Hr as [_ Hall]. by rewrite (Hall i Hi) in Hz.
Qed.
End Data.

(** data blocks beyond the end of the device.  The data bitmap of a formatted device usually has more bits than
    there are data blocks; when all data blocks are taken, [alloc_data] does not fail but returns the number of the
    first block after the last block of the device. *)
Theorem data_alloc_overrun {S} `{!BlockStore S, !BlockStoreSpec S} (w : Z → list Z) (h : list Z) (total ibm : Z) (g : Geometry) :
  contents_ok w → 0 < ibm → 1 + ibm * 1057 ≤ total < u32_max → efs_layout total ibm = Done g →
  bitmap_free (data_bitmap (g_efs g)) h →
  g_data_area_blocks g < Bitmap_maximum (data_bitmap (g_efs g)) →
  (∀ j, 0 ≤ j < Bitmap_maximum (data_bitmap (g_efs g)) →
    bitmap_bit w (data_bitmap (g_efs g)) j = bool_decide (j < g_data_area_blocks g)) →
  ∃ w', does (alloc_data (g_efs g)) w h total w'.
Proof.
  intros Hc Hi Ht Hg Hf Hmax Hbits.
  destruct (efs_layout_eq total ibm Hi ltac:(lia)) as (Hdb & Hdt & Hlay).
  rewrite Hlay in Hg. injection Hg as <-. cbn [g_efs g_data_area_blocks data_bitmap] in *.
  set (db := div_ceil (total - 1 - ibm * 1057) 4097) in *.
  destruct (alloc_data_does (mkEfs (Bitmap_new 1 ibm) (Bitmap_new (1 + ibm * 1057) db) (1 + ibm) (1 + ibm * 1057 + db))
    w h (total - 1 - ibm * 1057 - db)) as (w' & Hd & _); cbn [data_bitmap data_area_start_block]; try done.
  - simpl. lia.
  - split; [lia|done].
  - rewrite Hbits by lia. by rewrite bool_decide_eq_false_2 by lia.
  - intros j Hj. rewrite Hbits by lia. by rewrite bool_decide_eq_true_2 by lia.
  - lia.
  - lia.
  - exists w'. cbn [data_area_start_block] in Hd.
    by replace (total - 1 - ibm * 1057 - db + (1 + ibm * 1057 + db)) with total in Hd by lia.
Qed.

(** A device of 1060 blocks has one data block; when it is taken the next allocation returns block 1060. *)
Definition demo_full : Z → list Z := fun k => if k =? 1058 then 1 :: replicate 511 0 else zero_block.
Lemma data_alloc_overrun_witness :
  ∃ g w', efs_layout 1060 1 = Done g ∧
    does (BlockStoreSpec0 := cache_store_spec (BlockDeviceSpec0 := mem_device_spec 1060))
      (alloc_data (g_efs g)) demo_full [] 1060 w'.
Proof.
  destruct (efs_layout_eq 1060 1 ltac:(lia) ltac:(unfold u32_max; lia)) as (_ & _ & Hlay).
  change (div_ceil (1060 - 1 - 1 * 1057) 4097) with 1 in Hlay.
  set (g := mkGeometry _ _ _ _) in Hlay. exists g.
  destruct (data_alloc_overrun (BlockStoreSpec0 := cache_store_spec (BlockDeviceSpec0 := mem_device_spec 1060))
    demo_full [] 1060 1 g) as (w' & Hd).
  - intros k _. unfold demo_full. destruct (k =? 1058); [|apply zero_block_ok].
    split; [by vm_compute|]. constructor; [unfold is_byte; lia|].
    change (Forall is_byte (replicate 511 0)). apply Forall_replicate. unfold is_byte. lia.
  - lia.
  - unfold u32_max. lia.
  - exact Hlay.
  - intros b Hb. change (blocks _) with 1 in Hb. change (start_block_id _) with 1058.
    split; [simpl; lia|]. split; [set_solver|unfold BLOCK_CACHE_SIZE; simpl; lia].
  - by vm_compute.
  - intros j Hj. change (Bitmap_maximum _) with 4096 in Hj. change (g_data_area_blocks g) with 1.
    unfold bitmap_bit, bitmap_block, at_block. change (start_block_id _) with 1058.
    unfold BLOCK_BITS, BLOCK_SZ. rewrite (Z.div_small j), (Z.mod_small j) by lia.
    assert (decode (Pod := BitmapBlock) (slice (Z.to_nat 0) (@size_of _ BitmapBlock) (demo_full (0 + 1058)))
      = 1 :: replicate 63 0) as -> by (vm_compute; reflexivity).
    unfold block_bit. destruct (decide (j < 1)); [by replace j with 0 by lia|].
    rewrite bool_decide_eq_false_2 by done. destruct (decide (j < 64)).
    + rewrite Z.div_small, Z.mod_small by lia. apply (Z.pow2_bits_false 0). lia.
    + assert (1 ≤ j / 64 < 64) by (split; [apply Z.div_le_lower_bound|apply Z.div_lt_upper_bound]; lia).
      destruct (Z.to_nat (j / 64)) as [|q] eqn:En; [lia|]. change ((1 :: replicate 63 0) !!! S q) with (replicate 63 0 !!! q).
      rewrite list_lookup_total_alt, lookup_replicate_2 by lia. apply Z.bits_0.
  - exists w'. split; [exact Hlay|exact Hd].
Defined.
