(* ===== verification/Vfs.v ===== *)
(** * Files and directories

    [tg-rcore-tutorial-ch6/tg-rcore-tutorial-easy-fs/src/vfs.rs]: the operations on an inode.  The file system
    structure is behind a lock that every operation takes once and never twice, so it
    is an argument here. *)

From S2P Require Import Prelude Bytes BlockStore BlockCache Bitmap Layout FileData Efs.

(** The position of the inode on the device. *)
Record Inode := mkInode {
  inode_block_id : Z;
  inode_block_offset : Z;
}.

Section Vfs.
Context {S : Type} `{!BlockStore S}.
Implicit Types (self : Inode) (efs : EasyFileSystem) (name : list Z).

Definition Inode_new (block_id block_offset : Z) : Inode := mkInode block_id block_offset.

Definition root_inode efs : outcome Inode :=
  '(block_id, block_offset) ← get_disk_inode_pos efs 0;
  Done (Inode_new block_id block_offset).

Definition Inode_read_disk_inode {V} self (f : DiskInode → st S V) : st S V :=
  cache_read DiskInode_pod (inode_block_id self) (inode_block_offset self) f.
Definition Inode_modify_disk_inode {V} self (f : DiskInode → st S (V * DiskInode)) : st S V :=
  cache_modify DiskInode_pod (inode_block_id self) (inode_block_offset self) f.

Definition Inode_get_inode_id efs self : outcome Z :=
  get_inode_id efs (inode_block_id self) (inode_block_offset self).
Definition Inode_is_dir self : st S bool :=
  Inode_read_disk_inode self (fun d => mret (DiskInode_is_dir d)).
Definition Inode_get_link_num self : st S Z :=
  Inode_read_disk_inode self (fun d => mret (link_num d)).

(** [assert_eq!(disk_inode.read_at(DIRENT_SZ * i, dirent.as_bytes_mut()), DIRENT_SZ)]: the entry read. *)
Definition read_dirent (d : DiskInode) (i : Z) (dirent : DirEntry) : st S DirEntry :=
  '(n, buf) ← DiskInode_read_at d (DIRENT_SZ * i) (DirEntry_as_bytes dirent);
  lift (rassert (n =? DIRENT_SZ));;
  mret (DirEntry_of_bytes buf).

(** Entries [i], [i + 1], ... ([n] of them) are searched for [name]; the position and the
    inode number of the first with that name. *)
Fixpoint search_dirents (n : nat) (i : Z) (d : DiskInode) name (dirent : DirEntry) : st S (option (Z * Z)) :=
  match n with
  | O => mret None
  | Datatypes.S n' =>
      dirent ← read_dirent d i dirent;
      entry_name ← lift (DirEntry_name dirent);
      if decide (entry_name = name) then mret (Some (i, DirEntry_inode_number dirent))
      else search_dirents n' (i + 1) d name dirent
  end.

Definition file_count (d : DiskInode) : Z := size d / DIRENT_SZ.

Definition Inode_find_inode_id name (d : DiskInode) : st S (option Z) :=
  lift (rassert (DiskInode_is_dir d));;
  r ← search_dirents (Z.to_nat (file_count d)) 0 d name DirEntry_empty;
  mret (snd <$> r).

Definition Inode_find efs self name : st S (option Inode) :=
  Inode_read_disk_inode self (fun d =>
    r ← Inode_find_inode_id name d;
    match r with
    | Some inode_id =>
        '(block_id, block_offset) ← lift (get_disk_inode_pos efs inode_id);
        mret (Some (Inode_new block_id block_offset))
    | None => mret None
    end).

(** [for _ in 0..blocks_needed { v.push(fs.alloc_data()) }]. *)
Fixpoint alloc_blocks efs (n : nat) (v : list Z) : st S (list Z) :=
  match n with
  | O => mret v
  | Datatypes.S n' => b ← alloc_data efs; alloc_blocks efs n' (v ++ [b])
  end.

Definition Inode_increase_size efs (new_size : Z) (d : DiskInode) : st S DiskInode :=
  if new_size <? size d then mret d
  else
    blocks_needed ← lift (DiskInode_blocks_num_needed d new_size);
    v ← alloc_blocks efs (Z.to_nat blocks_needed) [];
    DiskInode_increase_size d new_size v.

(** Append an entry to a directory (the closure of [create] and of [link]). *)
Definition append_dirent efs name (inode_id : Z) (d : DiskInode) : st S (unit * DiskInode) :=
  let file_count := file_count d in
  let new_size := (file_count + 1) * DIRENT_SZ in
  d ← Inode_increase_size efs (as_u32 new_size) d;
  dirent ← lift (DirEntry_new name inode_id);
  DiskInode_write_at d (file_count * DIRENT_SZ) (DirEntry_as_bytes dirent);;
  mret ((), d).

Definition Inode_create efs self name : st S (option Inode) :=
  new_inode_id ← alloc_inode efs;
  '(block_id, block_offset) ← lift (get_disk_inode_pos efs new_inode_id);
  cache_modify DiskInode_pod block_id block_offset (fun new_inode =>
    mret ((), DiskInode_initialize File new_inode));;
  Inode_modify_disk_inode self (append_dirent efs name new_inode_id);;
  '(block_id, block_offset) ← lift (get_disk_inode_pos efs new_inode_id);
  sync_all;;
  mret (Some (Inode_new block_id block_offset)).

Definition Inode_link efs self name new_name : st S bool :=
  r ← Inode_read_disk_inode self (Inode_find_inode_id name);
  match r with
  | None => mret false
  | Some old_inode_id =>
      Inode_modify_disk_inode self (append_dirent efs new_name old_inode_id);;
      '(block_id, block_offset) ← lift (get_disk_inode_pos efs old_inode_id);
      cache_modify DiskInode_pod block_id block_offset (fun inode =>
        n ← lift (u32_add (link_num inode) 1);
        mret ((), set_link_num n inode));;
      sync_all;;
      mret true
  end.

Fixpoint dealloc_blocks efs (v : list Z) : st S unit :=
  match v with
  | [] => mret ()
  | b :: v' => dealloc_data efs b;; dealloc_blocks efs v'
  end.

Definition Inode_clear efs self : st S unit :=
  Inode_modify_disk_inode self (fun d =>
    '(v, d') ← DiskInode_clear_size d;
    lift (rassert (Z.of_nat (length v) =? DiskInode_total_blocks (size d)));;
    dealloc_blocks efs v;;
    mret ((), d'));;
  sync_all.

Definition Inode_unlink efs self name : st S bool :=
  r ← Inode_find efs self name;
  match r with
  | None => mret false
  | Some inode =>
      link_num ← Inode_modify_disk_inode inode (fun d =>
        lift (rassert (0 <? link_num d));;
        n ← lift (u32_sub (link_num d) 1);
        mret (n, set_link_num n d));
      Inode_modify_disk_inode self (fun root =>
        r ← search_dirents (Z.to_nat (file_count root)) 0 root name DirEntry_empty;
        '(i, _) ← lift (unwrap r);
        DiskInode_write_at root (i * DIRENT_SZ) (DirEntry_as_bytes DirEntry_empty);;
        mret ((), root));;
      (if link_num =? 0 then Inode_clear efs inode else mret ());;
      sync_all;;
      mret true
  end.

Fixpoint readdir_loop (n : nat) (i : Z) (d : DiskInode) (v : list (list Z)) : st S (list (list Z)) :=
  match n with
  | O => mret v
  | Datatypes.S n' =>
      dirent ← read_dirent d i DirEntry_empty;
      name ← lift (DirEntry_name dirent);
      readdir_loop n' (i + 1) d (v ++ [name])
  end.
Definition Inode_readdir self : st S (list (list Z)) :=
  Inode_read_disk_inode self (fun d => readdir_loop (Z.to_nat (file_count d)) 0 d []).

Definition Inode_read_at self (offset : Z) (buf : list Z) : st S (Z * list Z) :=
  Inode_read_disk_inode self (fun d => DiskInode_read_at d offset buf).

Definition Inode_write_at efs self (offset : Z) (buf : list Z) : st S Z :=
  size ← Inode_modify_disk_inode self (fun d =>
    e ← lift (usize_add offset (Z.of_nat (length buf)));
    d ← Inode_increase_size efs (as_u32 e) d;
    n ← DiskInode_write_at d offset buf;
    mret (n, d));
  sync_all;;
  mret size.

End Vfs.

(** A scripted run on a device of 1064 blocks behind the cache: format, create two files, write and read back,
    link, unlink, list the root directory. *)
Definition vfs_script : st (CacheState mem_device) (list Z * list (list Z) * list (list Z) * Z) :=
  efs ← EasyFileSystem_create 1064 1;
  root ← lift (root_inode efs);
  Inode_create efs root [97];;
  f ← Inode_find efs root [97];
  f ← lift (unwrap f);
  Inode_write_at efs f 0 [1; 2; 3; 4; 5];;
  Inode_write_at efs f 3 [9; 9; 9];;
  '(_, buf) ← Inode_read_at f 0 (replicate 6 0);
  Inode_link efs root [97] [98];;
  names ← Inode_readdir root;
  Inode_unlink efs root [97];;
  names' ← Inode_readdir root;
  links ← Inode_get_link_num f;
  mret (buf, names, names', links).
Example vfs_script_runs :
  match vfs_script (BlockCacheManager_new (mem_blank 1064)) with
  | Done (r, _) => r = ([1; 2; 3; 9; 9; 9], [[97]; [98]], [[]; [98]], 1)
  | _ => False
  end.
Proof. vm_compute. reflexivity. Qed.

(** ** Directories *)
Section Directories.
Context {S : Type} `{!BlockStore S, !BlockStoreSpec S}.
Implicit Types (w : Z → list Z) (d : DiskInode) (h bl : list Z).

(** Entry [i] of the directory. *)
Definition dir_entry w bl (i : Z) : DirEntry := DirEntry_of_bytes (file_range w bl (DIRENT_SZ * i) DIRENT_SZ).

(** A directory whose entries have readable names [names]. *)
Record directory w d h bl (names : list (list Z)) : Prop := {
  dir_maps : inode_maps w d h bl;
  dir_is : DiskInode_is_dir d = true;
  dir_count : Z.of_nat (length names) = file_count d;
  dir_name i name : names !! i = Some name → DirEntry_name (dir_entry w bl (Z.of_nat i)) = Done name;
}.

Lemma file_count_size d : 0 ≤ size d → DIRENT_SZ * file_count d ≤ size d ∧ 0 ≤ file_count d.
Proof.
  intros Hs. unfold file_count, DIRENT_SZ. pose proof (Z.div_mod (size d) 32 ltac:(lia)).
  pose proof (Z.mod_pos_bound (size d) 32 ltac:(lia)). split; [lia|]. apply Z.div_pos; lia.
Qed.

Lemma read_dirent_does w d h bl i e : contents_ok w → inode_maps w d h bl → 0 ≤ i → i < file_count d →
  length (DirEntry_as_bytes e) = 32%nat → does (read_dirent d i e) w h (dir_entry w bl i) w.
Proof.
  intros Hc Hm Hi Hn He. pose proof (im_size _ _ _ _ Hm) as Hs. destruct (file_count_size d ltac:(lia)) as [Hf _].
  unfold DIRENT_SZ in *. unfold read_dirent.
  pose proof (read_at_does w d h bl (32 * i) (DirEntry_as_bytes e) Hc Hm ltac:(lia)) as Hr.
  rewrite He in Hr. change (Z.of_nat 32) with 32 in Hr. simpl in Hr. specialize (Hr ltac:(unfold usize_max; lia)).
  replace (Z.max 0 _) with 32 in Hr by lia.
  eapply does_bind; [exact Hr|]. eapply does_bind; [by apply does_lift|].
  unfold dir_entry, DIRENT_SZ. replace (splice 0 (file_range w bl (32 * i) 32) (DirEntry_as_bytes e))
    with (file_range w bl (32 * i) 32); [apply does_ret|].
  unfold splice. rewrite drop_ge by (rewrite file_range_length, He; simpl; lia). by rewrite app_nil_r.
Qed.

Lemma dir_entry_length w bl i : length (DirEntry_as_bytes (dir_entry w bl i)) = 32%nat.
Proof.
  unfold DirEntry_as_bytes, dir_entry, DirEntry_of_bytes. cbn [de_name de_inode_number].
  rewrite length_app, le_encode_length, length_take, file_range_length. unfold DIRENT_SZ. simpl. lia.
Qed.

(** The first of [names] that is [name], from position [i] on. *)
Fixpoint first_named name (i : Z) (names : list (list Z)) : option Z :=
  match names with
  | [] => None
  | n :: names' => if decide (n = name) then Some i else first_named name (i + 1) names'
  end.

Lemma search_does w d h bl name names i e : contents_ok w → inode_maps w d h bl → 0 ≤ i →
  i + Z.of_nat (length names) ≤ file_count d → length (DirEntry_as_bytes e) = 32%nat →
  (∀ k n, names !! k = Some n → DirEntry_name (dir_entry w bl (i + Z.of_nat k)) = Done n) →
  does (search_dirents (length names) i d name e) w h
    ((fun j => (j, DirEntry_inode_number (dir_entry w bl j))) <$> first_named name i names) w.
Proof.
  intros Hc Hm. revert i e. induction names as [|n names IH]; intros i e Hi Hle He Hn; [apply does_ret|].
  simpl length in *. cbn [search_dirents]. eapply does_bind; [apply (read_dirent_does w d h bl); try done; lia|].
  eapply does_bind; [apply does_lift; specialize (Hn 0%nat n eq_refl); rewrite Z.add_0_r in Hn; exact Hn|].
  simpl. case_decide; [apply does_ret|]. apply IH; [lia|lia|apply dir_entry_length|].
  intros k n' Hk. replace (i + 1 + Z.of_nat k) with (i + Z.of_nat (Datatypes.S k)) by lia. by apply Hn.
Qed.

Lemma readdir_loop_does w d h bl names i v : contents_ok w → inode_maps w d h bl → 0 ≤ i →
  i + Z.of_nat (length names) ≤ file_count d →
  (∀ k n, names !! k = Some n → DirEntry_name (dir_entry w bl (i + Z.of_nat k)) = Done n) →
  does (readdir_loop (length names) i d v) w h (v ++ names) w.
Proof.
  intros Hc Hm. revert i v. induction names as [|n names IH]; intros i v Hi Hle Hn.
  { rewrite app_nil_r. apply does_ret. }
  simpl length in *. cbn [readdir_loop]. eapply does_bind; [apply (read_dirent_does w d h bl); try done; lia|].
  eapply does_bind; [apply does_lift; specialize (Hn 0%nat n eq_refl); rewrite Z.add_0_r in Hn; exact Hn|].
  replace (v ++ n :: names) with ((v ++ [n]) ++ names) by (rewrite <-app_assoc; done).
  apply IH; [lia|lia|]. intros k n' Hk. replace (i + 1 + Z.of_nat k) with (i + Z.of_nat (Datatypes.S k)) by lia.
  by apply Hn.
Qed.

Lemma first_named_spec name i names :
  match first_named name i names with
  | Some j => ∃ k, j = i + Z.of_nat k ∧ names !! k = Some name ∧ ∀ m, (m < k)%nat → names !! m ≠ Some name
  | None => name ∉ names
  end.
Proof.
  revert i. induction names as [|n names IH]; intros i; simpl; [set_solver|].
  case_decide as E.
  - exists 0%nat. split_and!; [lia|by rewrite E|lia].
  - specialize (IH (i + 1)). destruct (first_named name (i + 1) names) as [j|]; [|set_solver].
    destruct IH as (k & -> & Hk & Hb). exists (Datatypes.S k). split_and!; [lia|done|].
    intros [|m] Hm; simpl; [congruence|]. apply Hb. lia.
Qed.

(** The inode at [self]. *)
Definition inode_at w (self : Inode) : DiskInode := at_block DiskInode_pod w (inode_block_id self) (inode_block_offset self).
Definition inode_place (self : Inode) : Prop :=
  free_block (inode_block_id self) [] ∧ inside (Pod0 := DiskInode_pod) DiskInode (inode_block_offset self).

Lemma find_inode_id_does w d h bl names name : contents_ok w → directory w d h bl names →
  does (Inode_find_inode_id name d) w h
    ((fun j => DirEntry_inode_number (dir_entry w bl j)) <$> first_named name 0 names) w.
Proof.
  intros Hc [Hm Hd Hcount Hn]. unfold Inode_find_inode_id. rewrite Hd.
  eapply does_bind; [by apply does_lift|]. rewrite <-Hcount, Nat2Z.id.
  eapply does_bind; [apply (search_does w d h bl); try done; lia|].
  rewrite <-option_fmap_compose. apply does_ret.
Qed.
(** What [find] answers for [name]: the inode of the first entry of that name. *)
Definition found_inode w efs bl (names : list (list Z)) name (r : option Inode) : Prop :=
  match r with
  | Some inode => ∃ k, names !! k = Some name ∧ (∀ m, (m < k)%nat → names !! m ≠ Some name) ∧
      get_disk_inode_pos efs (DirEntry_inode_number (dir_entry w bl (Z.of_nat k)))
        = Done (inode_block_id inode, inode_block_offset inode)
  | None => name ∉ names
  end.

Lemma find_does w efs self bl names name : contents_ok w → inode_place self →
  directory w (inode_at w self) [inode_block_id self] bl names →
  (∀ i, 0 ≤ i < Z.of_nat (length names) → ∃ p, get_disk_inode_pos efs (DirEntry_inode_number (dir_entry w bl i)) = Done p) →
  ∃ r, does (Inode_find efs self name) w [] r w ∧ does (Inode_readdir self) w [] names w ∧ found_inode w efs bl names name r.
Proof.
  intros Hc [Hf Hin] Hdir Hpos. pose proof (find_inode_id_does w _ _ bl names name Hc Hdir) as Hfind.
  assert (does (Inode_readdir self) w [] names w) as Hread.
  { destruct Hdir as [Hm Hd Hcount Hn]. apply does_read; [done..|]. unfold inode_at in *. rewrite <-Hcount, Nat2Z.id.
    apply (readdir_loop_does w _ _ bl names 0 []); try done; lia. }
  pose proof (first_named_spec name 0 names) as Hfirst.
  destruct (first_named name 0 names) as [j|].
  - destruct Hfirst as (k & -> & Hk & Hb). destruct (Hpos (0 + Z.of_nat k)) as [[b off] Hp].
    { apply lookup_lt_Some in Hk. lia. }
    exists (Some (Inode_new b off)). split_and!; [|done|by exists k].
    apply does_read; [done..|]. eapply does_bind; [exact Hfind|]. simpl.
    eapply does_bind; [apply does_lift, Hp|apply does_ret].
  - exists None. split_and!; [|done|done]. apply does_read; [done..|].
    eapply does_bind; [exact Hfind|apply does_ret].
Qed.
End Directories.

(** ** Theorems *)

(** Looking a name up.  In a directory with readable names, [readdir] returns the names in order and [find] returns an
    inode exactly for the names [readdir] lists: the inode of the first entry with that name; neither
    changes any block. *)
Theorem find_iff_listed {S} `{!BlockStore S, !BlockStoreSpec S} (w : Z → list Z) (efs : EasyFileSystem)
    (self : Inode) (bl : list Z) (names : list (list Z)) (name : list Z) :
  contents_ok w → inode_place self →
  directory w (inode_at w self) [inode_block_id self] bl names →
  (∀ i, 0 ≤ i < Z.of_nat (length names) → ∃ p, get_disk_inode_pos efs (DirEntry_inode_number (dir_entry w bl i)) = Done p) →
  ∃ r, does (Inode_find efs self name) w [] r w ∧ does (Inode_readdir self) w [] names w ∧
    match r with
    | Some inode => ∃ k, names !! k = Some name ∧ (∀ m, (m < k)%nat → names !! m ≠ Some name) ∧
        get_disk_inode_pos efs (DirEntry_inode_number (dir_entry w bl (Z.of_nat k)))
          = Done (inode_block_id inode, inode_block_offset inode)
    | None => name ∉ names
    end.
Proof. apply find_does. Qed.

(** A root directory in block 2 with one entry, [a], of inode 1, in data block 7. *)
Definition demo_dir_inode : DiskInode := mkDiskInode 32 (7 :: replicate 27 0) 0 0 1 0 1.
Definition demo_dir_block : list Z := encode (Pod := DiskInode_pod) demo_dir_inode ++ replicate 380 0.
Definition demo_dir_data : list Z := 97 :: replicate 27 0 ++ [1; 0; 0; 0] ++ replicate 480 0.
Definition demo_dir : Z → list Z := fun k =>
  if k =? 2 then demo_dir_block else if k =? 7 then demo_dir_data else replicate 512 0.
Definition demo_root : Inode := Inode_new 2 0.
Definition demo_efs : EasyFileSystem := mkEfs (Bitmap_new 1 1) (Bitmap_new 5 1) 2 6.

Lemma demo_dir_ok : contents_ok (BlockStoreSpec0 := demo_spec) demo_dir.
Proof.
  intros k _. unfold demo_dir. destruct (k =? 2); [|destruct (k =? 7)].
  - split; [by vm_compute|]. apply Forall_app. split; [|apply Forall_replicate; unfold is_byte; lia].
    apply words_encode_bytes.
  - split; [by vm_compute|]. unfold demo_dir_data. constructor; [unfold is_byte; lia|].
    apply Forall_app; split; [apply Forall_replicate; unfold is_byte; lia|].
    apply Forall_app; split; [repeat constructor; unfold is_byte; lia|].
    apply Forall_replicate. unfold is_byte. lia.
  - split; [by apply length_replicate|]. apply Forall_replicate. unfold is_byte. lia.
Qed.
Lemma demo_dir_at : inode_at demo_dir demo_root = demo_dir_inode.
Proof. by vm_compute. Qed.
Lemma demo_directory :
  directory (BlockStoreSpec0 := demo_spec) demo_dir (inode_at demo_dir demo_root) [2] [7] [[97]].
Proof.
  rewrite demo_dir_at. split; [split; try done| | |].
  - by intros [|i] b Hb; [injection Hb as <-|].
  - intros b Hb%list_elem_of_singleton. subst b.
    split; [simpl; lia|]. split; [set_solver|unfold BLOCK_CACHE_SIZE; simpl; lia].
  - intros [|i] b Hi; [|simpl in Hi; lia]. intros Hb%elem_of_nil. done.
  - apply NoDup_singleton.
  - done.
  - done.
  - intros [|i] name Hi; [|done]. injection Hi as <-. by vm_compute.
Qed.

Lemma find_iff_listed_witness :
  ∃ r, does (BlockStoreSpec0 := demo_spec) (Inode_find demo_efs demo_root [97]) demo_dir [] r demo_dir ∧
    does (BlockStoreSpec0 := demo_spec) (Inode_readdir demo_root) demo_dir [] [[97]] demo_dir.
Proof.
  destruct (find_iff_listed (BlockStoreSpec0 := demo_spec) demo_dir demo_efs demo_root [7] [[97]] [97])
    as (r & Hr & Hd & _).
  - apply demo_dir_ok.
  - split; [|by vm_compute]. by apply demo_free.
  - exact demo_directory.
  - intros i Hi. simpl in Hi. replace i with 0 by lia. eexists. by vm_compute.
  - exists r. split; [exact Hr|exact Hd].
Defined.

(** a removed entry names the root directory.  [unlink] overwrites the entry with an empty one, whose inode
    number is that of the root; so in a directory with a removed entry, [find] with the empty name returns the
    root directory (unless an entry before it has an empty name). *)
Theorem removed_entry_is_root {S} `{!BlockStore S, !BlockStoreSpec S} (w : Z → list Z) (efs : EasyFileSystem)
    (self : Inode) (bl : list Z) (names : list (list Z)) (k : nat) :
  contents_ok w → inode_place self →
  directory w (inode_at w self) [inode_block_id self] bl names →
  (k < length names)%nat → dir_entry w bl (Z.of_nat k) = DirEntry_empty →
  (∀ m, (m < k)%nat → names !! m ≠ Some []) →
  0 ≤ inode_area_start_block efs ≤ u32_max →
  ∃ root, root_inode efs = Done root ∧ does (Inode_find efs self []) w [] (Some root) w.
Proof.
  intros Hc [Hf Hin] Hdir Hk He Hb Ha. pose proof (find_inode_id_does w _ _ bl names [] Hc Hdir) as Hfind.
  assert (get_disk_inode_pos efs 0 = Done (inode_area_start_block efs + 0, 0)) as Hpos.
  { rewrite get_disk_inode_pos_eq; [done|lia|lia|change (0 / 3) with 0; lia]. }
  eexists. split; [unfold root_inode; by rewrite Hpos|].
  destruct (lookup_lt_is_Some_2 names k Hk) as [n Hn].
  pose proof (dir_name _ _ _ _ _ Hdir k n Hn) as Hname. rewrite He in Hname.
  vm_compute in Hname. injection Hname as <-.
  pose proof (first_named_spec [] 0 names) as Hfirst. destruct (first_named [] 0 names) as [j|].
  - destruct Hfirst as (k' & -> & Hk' & Hb'). assert (k' = k) as ->.
    { destruct (Nat.lt_total k' k) as [?|[?|?]]; [by destruct (Hb k')|done|by destruct (Hb' k)]. }
    change (0 + Z.of_nat k) with (Z.of_nat k) in Hfind. cbn [fmap option_fmap option_map] in Hfind.
    rewrite He in Hfind. apply does_read; [done..|]. eapply does_bind; [exact Hfind|].
    eapply does_bind; [apply does_lift, Hpos|apply does_ret].
  - exfalso. apply Hfirst. by eapply list_elem_of_lookup_2.
Qed.

(** The root directory after its only entry has been removed. *)
Definition demo_hole : Z → list Z := fun k => if k =? 2 then demo_dir_block else replicate 512 0.
Lemma demo_hole_ok : contents_ok (BlockStoreSpec0 := demo_spec) demo_hole.
Proof.
  intros k Hk. unfold demo_hole. destruct (k =? 2) eqn:E.
  - pose proof (demo_dir_ok k Hk) as H. unfold demo_dir in H. by rewrite E in H.
  - split; [by apply length_replicate|]. apply Forall_replicate. unfold is_byte. lia.
Qed.
Lemma demo_hole_directory :
  directory (BlockStoreSpec0 := demo_spec) demo_hole (inode_at demo_hole demo_root) [2] [7] [[]].
Proof.
  replace (inode_at demo_hole demo_root) with (inode_at demo_dir demo_root) by (by vm_compute).
  destruct demo_directory as [Hm Hd Hc _]. split; [|done|done|].
  - rewrite demo_dir_at in *. destruct Hm as [? ? _ ? _ ?]. split; try done.
    + by intros [|i] b Hb; [injection Hb as <-|].
    + intros [|i] b Hi; [|simpl in Hi; lia]. intros Hb%elem_of_nil. done.
  - intros [|i] name Hi; [|done]. injection Hi as <-. by vm_compute.
Qed.

Lemma removed_entry_is_root_witness :
  ∃ root, root_inode demo_efs = Done root ∧
    does (BlockStoreSpec0 := demo_spec) (Inode_find demo_efs demo_root []) demo_hole [] (Some root) demo_hole.
Proof.
  destruct (removed_entry_is_root (BlockStoreSpec0 := demo_spec) demo_hole demo_efs demo_root [7] [[]] 0)
    as (root & Hr & Hd).
  - apply demo_hole_ok.
  - split; [|by vm_compute]. by apply demo_free.
  - exact demo_hole_directory.
  - simpl. lia.
  - by vm_compute.
  - lia.
  - vm_compute. done.
  - exists root. split; [exact Hr|exact Hd].
Defined.
