(* ===== verification/Pipe.v ===== *)
(** * Pipes and user buffers

    [tg-rcore-tutorial-easy-fs/src/{pipe,file}.rs] (the copy of ch6 is the same): a ring buffer of 32 bytes shared
    by a read end and a write end, and the segmented user buffers it copies from and to. *)

From S2P Require Import Prelude Bytes BlockStore.

(** ** User buffers *)

(** [UserBuffer]: slices of user memory, as the bytes they hold. *)
Notation UserBuffer := (list (list Z)) (only parsing).

Definition UserBuffer_len (buf : UserBuffer) : Z :=
  foldl (fun total b => total + Z.of_nat (length b)) 0 buf.
Definition UserBuffer_is_empty (buf : UserBuffer) : bool :=
  match buf with [] => true | _ => false end.

(** [UserBufferIterator]: the slice and the index in it. *)
Record UserBufferIterator := mkIter {
  current_buffer : nat;
  current_idx : nat;
}.
Definition UserBuffer_into_iter : UserBufferIterator := mkIter 0 0.

(** [next]: the position of a byte; indexing an empty slice panics. *)
Definition UserBufferIterator_next (buf : UserBuffer) (it : UserBufferIterator)
    : outcome (option (nat * nat) * UserBufferIterator) :=
  match buf !! current_buffer it with
  | None => Done (None, it)
  | Some b =>
      if bool_decide (current_idx it < length b)%nat then
        Done (Some (current_buffer it, current_idx it),
          if bool_decide (current_idx it + 1 = length b)%nat
          then mkIter (current_buffer it + 1) 0
          else mkIter (current_buffer it) (current_idx it + 1))
      else Panic
  end.

(** Reading and writing through the pointer. *)
Definition buf_get (buf : UserBuffer) (p : nat * nat) : Z := (buf !!! p.1) !!! p.2.
Definition buf_set (buf : UserBuffer) (p : nat * nat) (c : Z) : UserBuffer :=
  alter (fun b => <[p.2 := c]> b) p.1 buf.

(** ** The ring buffer *)
Definition RING_BUFFER_SIZE : Z := 32.

Inductive RingBufferStatus := Full | Empty | Normal.
#[global] Instance RingBufferStatus_eq_dec : EqDecision RingBufferStatus.
Proof. solve_decision. Defined.

Record PipeRingBuffer := mkRing {
  arr : list Z;
  head : Z;
  tail : Z;
  status : RingBufferStatus;
  (** [Some ()] once the weak pointer to the write end is set *)
  write_end : option unit;
}.

Definition PipeRingBuffer_new : PipeRingBuffer := mkRing (replicate 32 0) 0 0 Empty None.
Definition PipeRingBuffer_set_write_end (r : PipeRingBuffer) : PipeRingBuffer :=
  mkRing (arr r) (head r) (tail r) (status r) (Some ()).

Definition PipeRingBuffer_write_byte (r : PipeRingBuffer) (byte : Z) : outcome PipeRingBuffer :=
  rassert (bool_decide (Z.to_nat (tail r) < length (arr r))%nat);;
  let arr' := <[Z.to_nat (tail r) := byte]> (arr r) in
  let tail' := (tail r + 1) mod RING_BUFFER_SIZE in
  let status' := if tail' =? head r then Full else Normal in
  Done (mkRing arr' (head r) tail' status' (write_end r)).

Definition PipeRingBuffer_read_byte (r : PipeRingBuffer) : outcome (Z * PipeRingBuffer) :=
  c ← unwrap (arr r !! Z.to_nat (head r));
  let head' := (head r + 1) mod RING_BUFFER_SIZE in
  let status' := if head' =? tail r then Empty else Normal in
  Done (c, mkRing (arr r) head' (tail r) status' (write_end r)).

Definition PipeRingBuffer_available_read (r : PipeRingBuffer) : Z :=
  if bool_decide (status r = Empty) then 0
  else if tail r >? head r then tail r - head r
  else tail r + RING_BUFFER_SIZE - head r.
Definition PipeRingBuffer_available_write (r : PipeRingBuffer) : Z :=
  if bool_decide (status r = Full) then 0
  else RING_BUFFER_SIZE - PipeRingBuffer_available_read r.

(** [writers]: how many [Arc]s to the write end are left. *)
Definition PipeRingBuffer_all_write_ends_closed (r : PipeRingBuffer) (writers : Z) : outcome bool :=
  unwrap (write_end r);; Done (writers =? 0).

(** ** The two ends *)
Fixpoint read_bytes (n : nat) (r : PipeRingBuffer) (buf : UserBuffer) (it : UserBufferIterator)
    (already want : Z) : outcome (Z * PipeRingBuffer * UserBuffer) :=
  match n with
  | O => Done (already, r, buf)
  | S n' =>
      '(p, it) ← UserBufferIterator_next buf it;
      match p with
      | Some p =>
          '(c, r) ← PipeRingBuffer_read_byte r;
          let buf := buf_set buf p c in
          let already := already + 1 in
          if already =? want then Done (want, r, buf)
          else read_bytes n' r buf it already want
      | None => Done (already, r, buf)
      end
  end.

Definition PipeReader_read (r : PipeRingBuffer) (writers : Z) (buf : UserBuffer)
    : outcome (Z * PipeRingBuffer * UserBuffer) :=
  let want_to_read := UserBuffer_len buf in
  let loop_read := PipeRingBuffer_available_read r in
  if loop_read =? 0 then
    closed ← PipeRingBuffer_all_write_ends_closed r writers;
    Done (if closed : bool then 0 else -2, r, buf)
  else read_bytes (Z.to_nat loop_read) r buf UserBuffer_into_iter 0 want_to_read.

Fixpoint write_bytes (n : nat) (r : PipeRingBuffer) (buf : UserBuffer) (it : UserBufferIterator)
    (already want : Z) : outcome (Z * PipeRingBuffer) :=
  match n with
  | O => Done (already, r)
  | S n' =>
      '(p, it) ← UserBufferIterator_next buf it;
      match p with
      | Some p =>
          r ← PipeRingBuffer_write_byte r (buf_get buf p);
          let already := already + 1 in
          if already =? want then Done (want, r)
          else write_bytes n' r buf it already want
      | None => Done (already, r)
      end
  end.

Definition PipeWriter_write (r : PipeRingBuffer) (buf : UserBuffer) : outcome (Z * PipeRingBuffer) :=
  let want_to_write := UserBuffer_len buf in
  let loop_write := PipeRingBuffer_available_write r in
  if loop_write =? 0 then Done (-2, r)
  else write_bytes (Z.to_nat loop_write) r buf UserBuffer_into_iter 0 want_to_write.

(** [make_pipe]: the shared buffer; there is one writer. *)
Definition make_pipe : PipeRingBuffer := PipeRingBuffer_set_write_end PipeRingBuffer_new.

(** ** The ring buffer as a queue *)
Record ring_ok (r : PipeRingBuffer) : Prop := {
  ro_arr : length (arr r) = 32%nat;
  ro_head : 0 ≤ head r < 32;
  ro_tail : 0 ≤ tail r < 32;
  ro_status : match status r with Normal => head r ≠ tail r | _ => head r = tail r end;
  ro_end : write_end r = Some ();
}.

(** The bytes in the buffer, oldest first. *)
Definition ring_contents (r : PipeRingBuffer) : list Z :=
  (fun i => arr r !!! Z.to_nat ((head r + i) mod 32)) <$> seqZ 0 (PipeRingBuffer_available_read r).

Lemma available_read_range r : ring_ok r →
  0 ≤ PipeRingBuffer_available_read r ≤ 32 ∧
  tail r = (head r + PipeRingBuffer_available_read r) mod 32 ∧
  (status r = Empty ↔ PipeRingBuffer_available_read r = 0) ∧
  (status r = Full ↔ PipeRingBuffer_available_read r = 32).
Proof.
  intros [_ Hh Ht Hs _]. unfold PipeRingBuffer_available_read, RING_BUFFER_SIZE.
  destruct (status r) eqn:E; case_bool_decide; try done; destruct (Z.gtb_spec (tail r) (head r));
    (split; [lia|split; [|split; split; done || lia]]);
    first [ (rewrite Z.mod_small by lia; lia)
          | (apply (Z.mod_unique _ _ 1); lia) ].
Qed.

Lemma available_write_eq r : ring_ok r →
  PipeRingBuffer_available_write r = 32 - PipeRingBuffer_available_read r.
Proof.
  intros Hr. destruct (available_read_range r Hr) as (_ & _ & _ & Hf).
  unfold PipeRingBuffer_available_write, RING_BUFFER_SIZE. case_bool_decide; [|done].
  apply Hf in H. lia.
Qed.

Lemma ring_contents_length r : ring_ok r →
  Z.of_nat (length (ring_contents r)) = PipeRingBuffer_available_read r.
Proof.
  intros Hr. destruct (available_read_range r Hr) as (H & _).
  unfold ring_contents. rewrite length_fmap, length_seqZ. lia.
Qed.

(** After a byte more or less, the number of bytes is one more or less. *)
Lemma available_read_eq r n : ring_ok r → 0 < n < 32 → tail r = (head r + n) mod 32 →
  PipeRingBuffer_available_read r = n.
Proof.
  intros [_ Hh Ht Hs _] Hn E. unfold PipeRingBuffer_available_read, RING_BUFFER_SIZE.
  assert (head r ≠ tail r ∧ (tail r = head r + n ∨ tail r = head r + n - 32)) as [Hne Hc].
  { destruct (decide (head r + n < 32)).
    - rewrite Z.mod_small in E by lia. lia.
    - assert ((head r + n) mod 32 = head r + n - 32) by (symmetry; apply (Z.mod_unique _ _ 1); lia). lia. }
  destruct (status r); [done..|]. simpl. destruct (Z.gtb_spec (tail r) (head r)); lia.
Qed.

Lemma succ_mod_32 a : (a mod 32 + 1) mod 32 = (a + 1) mod 32.
Proof. by rewrite Zplus_mod_idemp_l. Qed.

Lemma write_byte_spec r c : ring_ok r → PipeRingBuffer_available_read r < 32 →
  ∃ r', PipeRingBuffer_write_byte r c = Done r' ∧ ring_ok r' ∧ ring_contents r' = ring_contents r ++ [c] ∧
    PipeRingBuffer_available_read r' = PipeRingBuffer_available_read r + 1.
Proof.
  intros Hr Hlt. destruct (available_read_range r Hr) as (Ha & Et & He & Hf).
  pose proof Hr as [Hl Hh Ht Hs Hw]. set (n := PipeRingBuffer_available_read r) in *.
  unfold PipeRingBuffer_write_byte, RING_BUFFER_SIZE. rewrite bool_decide_eq_true_2 by lia. simpl.
  eexists. split; [done|]. set (r' := mkRing _ _ _ _ _).
  pose proof (Z.mod_pos_bound (tail r + 1) 32 ltac:(lia)).
  assert (ring_ok r') as Hr'.
  { split; simpl; [by rewrite length_insert|done|lia| |done].
    destruct (Z.eqb_spec ((tail r + 1) mod 32) (head r)); [done|congruence]. }
  assert ((tail r + 1) mod 32 = (head r + (n + 1)) mod 32) as Et'.
  { rewrite Et, succ_mod_32. f_equal. lia. }
  assert (PipeRingBuffer_available_read r' = n + 1) as Ha'.
  { destruct (decide (n + 1 = 32)) as [E32|].
    - destruct (available_read_range r' Hr') as (_ & _ & _ & Hf'). rewrite E32. apply Hf'. simpl.
      rewrite Et', E32. replace (head r + 32) with (head r + 1 * 32) by lia.
      rewrite Z.mod_add, Z.mod_small, Z.eqb_refl by lia. done.
    - apply available_read_eq; [done|lia|done]. }
  split_and!; [done| |done]. unfold ring_contents. rewrite Ha'. fold n. rewrite seqZ_app, fmap_app by lia.
  f_equal; simpl.
  - apply list_fmap_ext. intros k x Hx. apply lookup_seqZ in Hx as [-> Hk]. rewrite !list_lookup_total_alt.
    rewrite list_lookup_insert_ne; [done|]. rewrite Et. intros E. apply Z2Nat.inj in E; [|apply Z.mod_pos_bound; lia..].
    destruct (decide (head r + n < 32)), (decide (head r + (0 + Z.of_nat k) < 32));
      rewrite ?(Z.mod_small (head r + n)), ?(Z.mod_small (head r + (0 + Z.of_nat k))) in E by lia;
      rewrite <-?(Z.mod_unique (head r + n) 32 1 (head r + n - 32)) in E by lia;
      rewrite <-?(Z.mod_unique (head r + (0 + Z.of_nat k)) 32 1 (head r + (0 + Z.of_nat k) - 32)) in E by lia; lia.
  - f_equal. replace (Z.of_nat 0 + (0 + n)) with n by lia. rewrite <-Et.
    apply list_lookup_total_insert_eq. lia.
Qed.

Lemma read_byte_spec r : ring_ok r → 0 < PipeRingBuffer_available_read r →
  ∃ c r', PipeRingBuffer_read_byte r = Done (c, r') ∧ ring_ok r' ∧ ring_contents r = c :: ring_contents r' ∧
    PipeRingBuffer_available_read r' = PipeRingBuffer_available_read r - 1.
Proof.
  intros Hr Hlt. destruct (available_read_range r Hr) as (Ha & Et & He & Hf).
  pose proof Hr as [Hl Hh Ht Hs Hw]. set (n := PipeRingBuffer_available_read r) in *.
  unfold PipeRingBuffer_read_byte, RING_BUFFER_SIZE.
  rewrite list_lookup_lookup_total_lt by lia. simpl. eexists _, _. split; [done|]. set (r' := mkRing _ _ _ _ _).
  pose proof (Z.mod_pos_bound (head r + 1) 32 ltac:(lia)).
  assert (ring_ok r') as Hr'.
  { split; simpl; [done|lia|done| |done].
    destruct (Z.eqb_spec ((head r + 1) mod 32) (tail r)); done. }
  assert (∀ k, ((head r + 1) mod 32 + k) mod 32 = (head r + (1 + k)) mod 32) as Eh.
  { intros k. rewrite Zplus_mod_idemp_l. f_equal. lia. }
  assert (PipeRingBuffer_available_read r' = n - 1) as Ha'.
  { destruct (decide (n - 1 = 0)) as [E0|].
    - destruct (available_read_range r' Hr') as (_ & _ & He' & _). rewrite E0. apply He'. simpl.
      rewrite Et. replace n with 1 by lia. by rewrite Z.eqb_refl.
    - apply available_read_eq; [done|lia|]. simpl. rewrite Eh, Et. f_equal. lia. }
  split_and!; [done| |done]. unfold ring_contents. rewrite Ha'. fold n.
  rewrite seqZ_cons by lia. cbn [fmap list_fmap]. f_equal.
  - rewrite Z.add_0_r, Z.mod_small by lia. done.
  - rewrite <-Z.sub_1_r.
    replace (seqZ (Z.succ 0) (n - 1)) with (Z.add 1 <$> seqZ 0 (n - 1)) by apply fmap_add_seqZ.
    rewrite <-list_fmap_compose. apply list_fmap_ext. intros k x _. simpl. by rewrite Eh.
Qed.

(** ** Walking over a user buffer *)
Definition no_empty (buf : UserBuffer) : Prop := Forall (fun b : list Z => b ≠ []) buf.
Definition shape (buf : UserBuffer) : list nat := length <$> buf.

(** How many bytes the iterator has passed. *)
Definition iter_pos (buf : UserBuffer) (it : UserBufferIterator) : nat :=
  (length (concat (take (current_buffer it) buf)) + current_idx it)%nat.
Definition iter_ok (buf : UserBuffer) (it : UserBufferIterator) : Prop :=
  match buf !! current_buffer it with
  | Some b => (current_idx it < length b)%nat
  | None => current_buffer it = length buf ∧ current_idx it = 0%nat
  end.

Lemma concat_split (buf : UserBuffer) i b : buf !! i = Some b →
  concat buf = concat (take i buf) ++ b ++ concat (drop (S i) buf).
Proof. intros Hb. rewrite <-(take_drop_middle buf i b Hb) at 1. by rewrite concat_app. Qed.

Lemma concat_take_S (buf : UserBuffer) i b : buf !! i = Some b →
  length (concat (take (S i) buf)) = (length (concat (take i buf)) + length b)%nat.
Proof.
  intros Hb. rewrite (take_S_r buf i b Hb), concat_app, length_app. simpl. by rewrite app_nil_r.
Qed.

Lemma shape_concat (buf buf' : UserBuffer) i : shape buf = shape buf' →
  length (concat (take i buf)) = length (concat (take i buf')).
Proof.
  unfold shape. revert buf' i. induction buf as [|b buf IH]; intros [|b' buf'] [|i] H; try done.
  simpl in H. injection H as Hb Hr. simpl. rewrite !length_app, Hb. f_equal. by apply IH.
Qed.
Lemma shape_iter_ok (buf buf' : UserBuffer) it : shape buf = shape buf' → iter_ok buf it →
  iter_ok buf' it ∧ iter_pos buf' it = iter_pos buf it.
Proof.
  intros Hs Hok. split; [|unfold iter_pos; by rewrite (shape_concat buf buf') by done].
  unfold iter_ok in *. assert (length buf' = length buf) as Hl.
  { unfold shape in Hs. rewrite <-(length_fmap length buf), Hs. by rewrite length_fmap. }
  assert (length <$> (buf !! current_buffer it) = length <$> (buf' !! current_buffer it)) as Hlk.
  { rewrite <-!list_lookup_fmap. unfold shape in Hs. by rewrite Hs. }
  destruct (buf !! current_buffer it), (buf' !! current_buffer it); simplify_eq/=; [|by rewrite Hl].
  by rewrite <-Hlk.
Qed.
Lemma shape_no_empty (buf buf' : UserBuffer) : shape buf = shape buf' → no_empty buf → no_empty buf'.
Proof.
  unfold shape, no_empty. revert buf'. induction buf as [|b buf IH]; intros [|b' buf'] H Hn; try done.
  simpl in H. injection H as Hb Hr. apply Forall_cons in Hn as [H1 H2]. constructor; [|by apply IH].
  destruct b, b'; done.
Qed.

Lemma concat_buf_set (buf : UserBuffer) i j b c : buf !! i = Some b → (j < length b)%nat →
  concat (buf_set buf (i, j) c) = <[(length (concat (take i buf)) + j)%nat := c]> (concat buf) ∧
  shape (buf_set buf (i, j) c) = shape buf.
Proof.
  intros Hb Hj. unfold buf_set, shape. simpl.
  assert (alter (fun b => <[j := c]> b) i buf = take i buf ++ <[j := c]> b :: drop (S i) buf) as ->.
  { rewrite <-(take_drop_middle buf i b Hb) at 1. pose proof (lookup_lt_Some _ _ _ Hb).
    rewrite alter_app_r_alt by (rewrite length_take; lia).
    by replace (i - length (take i buf))%nat with 0%nat by (rewrite length_take; lia). }
  split.
  - rewrite concat_app. simpl. rewrite (concat_split buf i b Hb), insert_app_r.
    by rewrite insert_app_l by done.
  - rewrite <-(take_drop_middle buf i b Hb) at 3. rewrite !fmap_app. simpl. by rewrite length_insert.
Qed.

Lemma next_spec (buf : UserBuffer) it : no_empty buf → iter_ok buf it →
  if decide (iter_pos buf it < length (concat buf))%nat then
    ∃ p it', UserBufferIterator_next buf it = Done (Some p, it') ∧ iter_ok buf it' ∧
      iter_pos buf it' = S (iter_pos buf it) ∧ concat buf !! iter_pos buf it = Some (buf_get buf p) ∧
      ∀ c, concat (buf_set buf p c) = <[iter_pos buf it := c]> (concat buf) ∧ shape (buf_set buf p c) = shape buf
  else UserBufferIterator_next buf it = Done (None, it) ∧ iter_pos buf it = length (concat buf).
Proof.
  intros Hn Hok. unfold UserBufferIterator_next, iter_ok in *. destruct it as [i j]. unfold iter_pos. simpl in *.
  destruct (buf !! i) as [b|] eqn:Hb.
  - rewrite decide_True.
    2:{ rewrite (concat_split buf i b Hb), !length_app. lia. }
    rewrite bool_decide_eq_true_2 by done. eexists _, _. split; [done|]. split_and!.
    + case_bool_decide; simpl; [|by rewrite Hb; lia].
      destruct (buf !! (i + 1)%nat) as [b'|] eqn:Hb'.
      * pose proof (Forall_lookup_1 _ _ _ _ Hn Hb') as Hne. simpl in Hne. destruct b'; [done|simpl; lia].
      * apply lookup_ge_None in Hb'. apply lookup_lt_Some in Hb. split; [lia|done].
    + case_bool_decide; simpl; [|lia]. replace (i + 1)%nat with (S i) by lia.
      rewrite (concat_take_S buf i b Hb). lia.
    + unfold buf_get. simpl. rewrite (list_lookup_total_correct _ _ _ Hb).
      rewrite (concat_split buf i b Hb), lookup_app_r by lia. rewrite lookup_app_l by lia.
      replace (length (concat (take i buf)) + j - length (concat (take i buf)))%nat with j by lia.
      by apply list_lookup_lookup_total_lt.
    + intros c. by apply (concat_buf_set buf i j b c).
  - destruct Hok as [-> ->]. rewrite take_ge by lia. rewrite decide_False by lia. split; [done|lia].
Qed.

Lemma UserBuffer_len_eq (buf : UserBuffer) : UserBuffer_len buf = Z.of_nat (length (concat buf)).
Proof.
  unfold UserBuffer_len. enough (∀ a, foldl (fun total b => total + Z.of_nat (length b)) a buf
    = a + Z.of_nat (length (concat buf))) as -> by lia.
  induction buf as [|b buf IH]; intros a; simpl; [lia|]. rewrite IH, length_app. lia.
Qed.

Lemma into_iter_ok (buf : UserBuffer) : no_empty buf →
  iter_ok buf UserBuffer_into_iter ∧ iter_pos buf UserBuffer_into_iter = 0%nat.
Proof.
  intros Hn. split; [|done]. unfold iter_ok. simpl. destruct buf as [|b buf]; [done|]. simpl.
  apply Forall_cons in Hn as [Hb _]. destruct b; [done|simpl; lia].
Qed.

(** ** Writing and reading *)
Lemma write_bytes_spec (buf : UserBuffer) n r it : ring_ok r → no_empty buf → iter_ok buf it →
  Z.of_nat n ≤ 32 - PipeRingBuffer_available_read r →
  let p := iter_pos buf it in
  let total := length (concat buf) in
  let m := (n `min` (total - p))%nat in
  ∃ r', write_bytes n r buf it (Z.of_nat p) (Z.of_nat total) = Done (Z.of_nat (p + m), r') ∧ ring_ok r' ∧
    ring_contents r' = ring_contents r ++ slice p m (concat buf).
Proof.
  intros Hr Hn. revert r it Hr. induction n as [|n IH]; intros r it Hr Hit Hfree p total m.
  { exists r. split_and!; [|done|by unfold slice; rewrite app_nil_r]. simpl. repeat f_equal. lia. }
  pose proof (next_spec buf it Hn Hit) as Hnext. fold p total in Hnext. cbn [write_bytes].
  destruct (decide (p < total)%nat) as [Hlt|Hge].
  - destruct Hnext as (q & it' & Hq & Hit' & Hp' & Hget & _). rewrite Hq. simpl.
    destruct (write_byte_spec r (buf_get buf q) Hr) as (r1 & Hw & Hr1 & Hc1 & Ha1); [lia|]. rewrite Hw. simpl.
    assert (slice p m (concat buf) = buf_get buf q :: slice (S p) (m - 1) (concat buf)) as Hsl.
    { unfold slice. rewrite (drop_S _ _ _ Hget). replace m with (S (m - 1)) at 1 by lia. done. }
    destruct (Z.eqb_spec (Z.of_nat p + 1) (Z.of_nat total)) as [E|E].
    + exists r1. split_and!; [do 2 f_equal; lia|done|]. rewrite Hc1, Hsl.
      replace (m - 1)%nat with 0%nat by lia. done.
    + destruct (IH r1 it' Hr1 Hit') as (r2 & Hw2 & Hr2 & Hc2); [lia|]. rewrite Hp' in Hw2, Hc2. fold total in Hw2, Hc2.
      exists r2. split_and!; [|done|].
      * replace (Z.of_nat p + 1) with (Z.of_nat (S p)) by lia. rewrite Hw2. do 2 f_equal. unfold m. lia.
      * rewrite Hc2, Hc1, Hsl, <-app_assoc. simpl. do 2 f_equal. unfold slice. f_equal. lia.
  - destruct Hnext as [Hq Hp]. rewrite Hq. simpl. exists r. split_and!; [repeat f_equal; lia|done|].
    replace m with 0%nat by lia. unfold slice. by rewrite app_nil_r.
Qed.

Lemma read_bytes_spec (buf : UserBuffer) n r it : ring_ok r → no_empty buf → iter_ok buf it →
  Z.of_nat n ≤ PipeRingBuffer_available_read r →
  let p := iter_pos buf it in
  let total := length (concat buf) in
  let m := (n `min` (total - p))%nat in
  ∃ r' buf', read_bytes n r buf it (Z.of_nat p) (Z.of_nat total) = Done (Z.of_nat (p + m), r', buf') ∧ ring_ok r' ∧
    ring_contents r' = drop m (ring_contents r) ∧ shape buf' = shape buf ∧
    concat buf' = splice p (take m (ring_contents r)) (concat buf).
Proof.
  revert r it buf. induction n as [|n IH]; intros r it buf Hr Hn Hit Hav p total m.
  { exists r, buf. split_and!; try done; [simpl; repeat f_equal; lia|].
    unfold splice. simpl. by rewrite Nat.add_0_r, take_drop. }
  pose proof (next_spec buf it Hn Hit) as Hnext. fold p total in Hnext. cbn [read_bytes].
  destruct (decide (p < total)%nat) as [Hlt|Hge].
  - destruct Hnext as (q & it' & Hq & Hit' & Hp' & Hget & Hset). rewrite Hq. simpl.
    destruct (read_byte_spec r Hr) as (c & r1 & Hrd & Hr1 & Hc1 & Ha1); [lia|]. rewrite Hrd. simpl.
    destruct (Hset c) as [Hcat Hsh]. set (buf1 := buf_set buf q c) in *.
    destruct (shape_iter_ok buf buf1 it' (eq_sym Hsh) Hit') as [Hit1 Hp1].
    pose proof (shape_no_empty buf buf1 (eq_sym Hsh) Hn) as Hn1.
    assert (length (concat buf1) = total) as Ht1 by (rewrite Hcat; apply length_insert).
    assert (∀ k, (k < total - p)%nat → splice (S p) (take k (ring_contents r1)) (<[p := c]> (concat buf))
        = splice p (take (S k) (c :: ring_contents r1)) (concat buf)) as Hsp.
    { intros k Hk. replace (<[p := c]> (concat buf)) with (splice p [c] (concat buf)).
      - replace (S p) with (p + length [c])%nat by (simpl; lia). rewrite splice_splice; [done|].
        rewrite length_take. simpl. lia.
      - unfold splice. simpl. rewrite insert_take_drop by done. by rewrite Nat.add_1_r. }
    destruct (Z.eqb_spec (Z.of_nat p + 1) (Z.of_nat total)) as [E|E].
    + exists r1, buf1. replace m with 1%nat by lia. split_and!; [repeat f_equal; lia|done| |done|].
      * by rewrite Hc1.
      * rewrite Hcat, Hc1, <-Hsp by lia. unfold splice. simpl. by rewrite Nat.add_0_r, take_drop.
    + destruct (IH r1 it' buf1 Hr1 Hn1 Hit1) as (r2 & buf2 & Hw2 & Hr2 & Hc2 & Hs2 & Hcat2); [lia|].
      rewrite Ht1, Hp1, Hp' in Hw2, Hc2, Hcat2.
      replace m with (S (n `min` (total - S p)))%nat by lia. exists r2, buf2. split_and!; [|done| | |].
      * replace (Z.of_nat p + 1) with (Z.of_nat (S p)) by lia. rewrite Hw2. do 3 f_equal. lia.
      * by rewrite Hc2, Hc1.
      * by rewrite Hs2.
      * rewrite Hcat2, Hcat, Hc1. apply Hsp. lia.
  - destruct Hnext as [Hq Hp]. rewrite Hq. simpl. exists r, buf. replace m with 0%nat by lia.
    split_and!; try done; [repeat f_equal; lia|].
    unfold splice. simpl. by rewrite Nat.add_0_r, take_drop.
Qed.

Lemma pipe_write_spec r (buf : UserBuffer) : ring_ok r → no_empty buf →
  let k := length (ring_contents r) in
  let n := ((32 - k) `min` length (concat buf))%nat in
  ∃ r', PipeWriter_write r buf = Done (if decide (k = 32%nat) then -2 else Z.of_nat n, r') ∧ ring_ok r' ∧
    ring_contents r' = ring_contents r ++ take n (concat buf).
Proof.
  intros Hr Hn k n. pose proof (ring_contents_length r Hr) as Hk. fold k in Hk.
  destruct (available_read_range r Hr) as (Ha & _). unfold PipeWriter_write. rewrite available_write_eq by done.
  destruct (Z.eqb_spec (32 - PipeRingBuffer_available_read r) 0) as [E|E].
  - rewrite decide_True by lia. exists r. replace n with 0%nat by lia. rewrite take_0, app_nil_r. done.
  - rewrite decide_False by lia. destruct (into_iter_ok buf Hn) as [Hit Hp].
    destruct (write_bytes_spec buf (Z.to_nat (32 - PipeRingBuffer_available_read r)) r _ Hr Hn Hit) as (r' & Hw & Hr' & Hc);
      [lia|]. rewrite Hp in Hw, Hc. change (Z.of_nat 0) with 0 in Hw. rewrite UserBuffer_len_eq. exists r'. split_and!; [|done|].
    + rewrite Hw. do 2 f_equal. lia.
    + rewrite Hc. unfold slice. rewrite drop_0. do 2 f_equal. lia.
Qed.

Lemma pipe_read_spec r writers (buf : UserBuffer) : ring_ok r → no_empty buf →
  let k := length (ring_contents r) in
  let n := (k `min` length (concat buf))%nat in
  ∃ r' buf', PipeReader_read r writers buf =
      Done (if decide (k = 0%nat) then if writers =? 0 then 0 else -2 else Z.of_nat n, r', buf') ∧ ring_ok r' ∧
    ring_contents r' = drop n (ring_contents r) ∧ shape buf' = shape buf ∧
    concat buf' = splice 0 (take n (ring_contents r)) (concat buf).
Proof.
  intros Hr Hn k n. pose proof (ring_contents_length r Hr) as Hk. fold k in Hk.
  destruct (available_read_range r Hr) as (Ha & _). unfold PipeReader_read.
  destruct (Z.eqb_spec (PipeRingBuffer_available_read r) 0) as [E|E].
  - rewrite decide_True by lia. exists r, buf. replace n with 0%nat by lia.
    unfold PipeRingBuffer_all_write_ends_closed. rewrite (ro_end r Hr). simpl.
    split_and!; done.
  - rewrite decide_False by lia. destruct (into_iter_ok buf Hn) as [Hit Hp].
    destruct (read_bytes_spec buf (Z.to_nat (PipeRingBuffer_available_read r)) r _ Hr Hn Hit)
      as (r' & buf' & Hw & Hr' & Hc & Hs & Hcat); [lia|].
    rewrite Hp in Hw, Hc, Hcat. change (Z.of_nat 0) with 0 in Hw. rewrite UserBuffer_len_eq. replace (_ `min` _)%nat with n in Hw, Hc, Hcat by lia.
    exists r', buf'. split_and!; [|done..]. rewrite Hw. done.
Qed.

(** ** Runs *)
Inductive pipe_op :=
| PWrite (buf : UserBuffer)
| PRead (buf : UserBuffer).

(** The bytes the writers have sent and the readers got: as many as the calls report. *)
Fixpoint pipe_run (ops : list pipe_op) (writers : Z) (r : PipeRingBuffer) (sent got : list Z)
    : outcome (PipeRingBuffer * list Z * list Z) :=
  match ops with
  | [] => Done (r, sent, got)
  | PWrite buf :: ops' =>
      '(n, r) ← PipeWriter_write r buf;
      pipe_run ops' writers r (sent ++ take (Z.to_nat n) (concat buf)) got
  | PRead buf :: ops' =>
      '(n, r, buf) ← PipeReader_read r writers buf;
      pipe_run ops' writers r sent (got ++ take (Z.to_nat n) (concat buf))
  end.

Definition op_buffer (o : pipe_op) : UserBuffer := match o with PWrite b | PRead b => b end.

Lemma make_pipe_ok : ring_ok make_pipe ∧ ring_contents make_pipe = [].
Proof. by split. Qed.

Lemma pipe_run_spec ops writers r sent got : ring_ok r → Forall (fun o => no_empty (op_buffer o)) ops →
  sent = got ++ ring_contents r →
  ∃ r' sent' got', pipe_run ops writers r sent got = Done (r', sent', got') ∧ ring_ok r' ∧
    sent' = got' ++ ring_contents r'.
Proof.
  revert r sent got. induction ops as [|o ops IH]; intros r sent got Hr Hn Hinv; [eauto 10|].
  apply Forall_cons in Hn as [Ho Hn]. destruct o as [buf|buf]; simpl in *.
  - destruct (pipe_write_spec r buf Hr Ho) as (r1 & Hw & Hr1 & Hc1). rewrite Hw. simpl.
    apply IH; [done|done|]. rewrite Hc1, Hinv, app_assoc. f_equal. f_equal.
    case_decide; [|by rewrite Nat2Z.id]. simpl. lia.
  - destruct (pipe_read_spec r writers buf Hr Ho) as (r1 & buf1 & Hw & Hr1 & Hc1 & _ & Hcat). rewrite Hw. simpl.
    apply IH; [done|done|]. rewrite Hinv, Hc1, Hcat, <-app_assoc. f_equal.
    set (n := (length (ring_contents r) `min` length (concat buf))%nat) in *.
    assert (Z.to_nat (if decide (length (ring_contents r) = 0%nat) then if writers =? 0 then 0 else -2 else Z.of_nat n) = n) as ->.
    { case_decide; [destruct (writers =? 0)|]; lia. }
    unfold splice. rewrite take_0. simpl. rewrite take_app_length' by (rewrite length_take; lia).
    by rewrite take_drop.
Qed.

(** ** Theorems *)

(** a pipe delivers the stream.  Along any sequence of writes and reads with segmented buffers on a new pipe, no
    operation panics, and the bytes got by the readers followed by those still in the ring are exactly the bytes sent, in
    order; the ring never holds more than 32. *)
Theorem pipe_stream (ops : list pipe_op) (writers : Z) :
  Forall (fun o => no_empty (op_buffer o)) ops →
  ∃ r sent got, pipe_run ops writers make_pipe [] [] = Done (r, sent, got) ∧ ring_ok r ∧
    sent = got ++ ring_contents r ∧ (length (ring_contents r) ≤ 32)%nat.
Proof.
  intros Hn. destruct make_pipe_ok as [Hok Hc].
  destruct (pipe_run_spec ops writers make_pipe [] [] Hok Hn) as (r & sent & got & Hrun & Hr & Hs); [by rewrite Hc|].
  exists r, sent, got. split_and!; [done..|]. pose proof (ring_contents_length r Hr).
  destruct (available_read_range r Hr) as (Ha & _). lia.
Qed.

Lemma pipe_stream_witness :
  let ops := [PWrite [replicate 20 7; [1; 2]]; PRead [replicate 5 0]; PWrite [replicate 30 9]; PRead [[0; 0]; replicate 40 0]] in
  ∃ r sent got, pipe_run ops 1 make_pipe [] [] = Done (r, sent, got) ∧ sent = got ++ ring_contents r.
Proof.
  intros ops. destruct (pipe_stream ops 1) as (r & sent & got & Hr & _ & Hs & _).
  - repeat constructor; done.
  - exists r, sent, got. split; [exact Hr|exact Hs].
Defined.

(** what the two ends return.  A write takes as many bytes as there is room for, and returns -2 only when the ring is full;
    a read takes as many bytes as there are, in the order of the slices, and on an empty ring returns 0 (end of file) once the
    last write end is closed and -2 (wait) before; but with data in the ring, a buffer that begins with an empty slice makes
    a read panic. *)
Theorem pipe_returns (r : PipeRingBuffer) (writers : Z) (buf : UserBuffer) :
  ring_ok r → no_empty buf →
  let k := length (ring_contents r) in
  let n := length (concat buf) in
  (∃ r', PipeWriter_write r buf = Done (if decide (k = 32%nat) then -2 else Z.of_nat ((32 - k) `min` n)%nat, r') ∧
    ring_contents r' = ring_contents r ++ take ((32 - k) `min` n)%nat (concat buf)) ∧
  (∃ r' buf', PipeReader_read r writers buf =
      Done (if decide (k = 0%nat) then if writers =? 0 then 0 else -2 else Z.of_nat (k `min` n)%nat, r', buf') ∧
    ring_contents r' = drop (k `min` n)%nat (ring_contents r) ∧
    concat buf' = splice 0 (take (k `min` n)%nat (ring_contents r)) (concat buf)) ∧
  (k ≠ 0%nat → PipeReader_read r writers ([] :: buf) = Panic).
Proof.
  intros Hr Hn k n. split_and!.
  - destruct (pipe_write_spec r buf Hr Hn) as (r' & Hw & _ & Hc). eauto.
  - destruct (pipe_read_spec r writers buf Hr Hn) as (r' & buf' & Hw & _ & Hc & _ & Hb). eauto 10.
  - intros Hk. unfold PipeReader_read. pose proof (ring_contents_length r Hr) as Hl. fold k in Hl.
    rewrite (proj2 (Z.eqb_neq _ _)) by lia. by destruct (Z.to_nat (PipeRingBuffer_available_read r)) eqn:E; [lia|].
Qed.

Lemma pipe_returns_witness :
  ∃ r', PipeWriter_write make_pipe [[1; 2]; [3]] = Done (3, r') ∧ ring_contents r' = [1; 2; 3].
Proof.
  destruct (pipe_returns make_pipe 1 [[1; 2]; [3]] (proj1 make_pipe_ok)) as ((r' & Hw & Hc) & _).
  - repeat constructor; done.
  - exists r'. split; [exact Hw|exact Hc].
Defined.
