(* ===== verification/File.v ===== *)
(** * File handles and the kernel's file system object

    [tg-rcore-tutorial-easy-fs/src/file.rs] (open flags, handles with an offset) and
    [tg-rcore-tutorial-ch6/src/fs.rs] (opening by name, reading a whole program). *)

From S2P Require Import Prelude Bytes BlockStore BlockCache Bitmap Layout FileData Efs Vfs Pipe.

(** ** Open flags (a [u32] of bits) *)
Definition RDONLY : Z := 0.
Definition WRONLY : Z := Z.shiftl 1 0.
Definition RDWR : Z := Z.shiftl 1 1.
Definition CREATE : Z := Z.shiftl 1 9.
Definition TRUNC : Z := Z.shiftl 1 10.

(** [bitflags]: [from_bits] takes the flags that are declared, [contains], [is_empty]. *)
Definition OpenFlags_all : Z := Z.lor (Z.lor (Z.lor WRONLY RDWR) CREATE) TRUNC.
Definition OpenFlags_from_bits (bits : Z) : option Z :=
  if Z.land bits (Z.lnot OpenFlags_all) =? 0 then Some bits else None.
Definition flags_contain (flags f : Z) : bool := Z.land flags f =? f.
(** (readable, writable). *)
Definition OpenFlags_read_write (flags : Z) : bool * bool :=
  if flags =? 0 then (true, false)
  else if flags_contain flags WRONLY then (false, true)
  else (true, true).

(** ** Handles *)
Record FileHandle := mkHandle {
  fh_inode : option Inode;
  fh_read : bool;
  fh_write : bool;
  (** a [Cell]: a clone of the handle has an offset of its own *)
  fh_offset : Z;
}.
Definition FileHandle_new (read write : bool) (inode : Inode) : FileHandle := mkHandle (Some inode) read write 0.
Definition FileHandle_empty (read write : bool) : FileHandle := mkHandle None read write 0.
Definition FileHandle_readable (f : FileHandle) : bool := fh_read f.
Definition FileHandle_writable (f : FileHandle) : bool := fh_write f.
Definition set_offset (n : Z) (f : FileHandle) : FileHandle :=
  mkHandle (fh_inode f) (fh_read f) (fh_write f) n.

Section Handles.
Context {S : Type} `{!BlockStore S}.
Implicit Types (efs : EasyFileSystem) (f : FileHandle) (buf : list (list Z)).

(** The loop of [FileHandle::read] over the slices: (total, offset, slices). *)
Fixpoint read_slices (inode : Inode) (offset total : Z) buf : st S (Z * Z * list (list Z)) :=
  match buf with
  | [] => mret (total, offset, [])
  | slice :: buf' =>
      '(n, slice) ← Inode_read_at inode offset slice;
      if n =? 0 then mret (total, offset, slice :: buf')
      else
        offset ← lift (usize_add offset n);
        total ← lift (usize_add total n);
        '(total, offset, buf'') ← read_slices inode offset total buf';
        mret (total, offset, slice :: buf'')
  end.
Definition FileHandle_read f buf : st S (Z * FileHandle * list (list Z)) :=
  match fh_inode f with
  | Some inode =>
      '(total, offset, buf) ← read_slices inode (fh_offset f) 0 buf;
      mret (as_isize total, set_offset offset f, buf)
  | None => mret (-1, f, buf)
  end.

Fixpoint write_slices efs (inode : Inode) (offset total : Z) buf : st S (Z * Z) :=
  match buf with
  | [] => mret (total, offset)
  | slice :: buf' =>
      n ← Inode_write_at efs inode offset slice;
      lift (rassert (n =? Z.of_nat (length slice)));;
      offset ← lift (usize_add offset n);
      total ← lift (usize_add total n);
      write_slices efs inode offset total buf'
  end.
Definition FileHandle_write efs f buf : st S (Z * FileHandle) :=
  match fh_inode f with
  | Some inode =>
      '(total, offset) ← write_slices efs inode (fh_offset f) 0 buf;
      mret (as_isize total, set_offset offset f)
  | None => mret (-1, f)
  end.

(** ** The kernel's file system (one directory, the root) *)
Definition FileSystem_find efs (root : Inode) (path : list Z) : st S (option Inode) := Inode_find efs root path.

Definition FileSystem_open efs (root : Inode) (path : list Z) (flags : Z) : st S (option FileHandle) :=
  let '(readable, writable) := OpenFlags_read_write flags in
  if flags_contain flags CREATE then
    r ← FileSystem_find efs root path;
    match r with
    | Some inode =>
        Inode_clear efs inode;;
        mret (Some (FileHandle_new readable writable inode))
    | None =>
        r ← Inode_create efs root path;
        mret (FileHandle_new readable writable <$> r)
    end
  else
    r ← FileSystem_find efs root path;
    match r with
    | Some inode =>
        (if flags_contain flags TRUNC then Inode_clear efs inode else mret ());;
        mret (Some (FileHandle_new readable writable inode))
    | None => mret None
    end.

Definition FileSystem_readdir (root : Inode) : st S (option (list (list Z))) :=
  r ← Inode_readdir root; mret (Some r).
Definition FileSystem_link efs (root : Inode) (src dst : list Z) : st S Z :=
  b ← Inode_link efs root src dst; mret (if b : bool then 0 else -1).
Definition FileSystem_unlink efs (root : Inode) (path : list Z) : st S Z :=
  b ← Inode_unlink efs root path; mret (if b : bool then 0 else -1).

(** The loop of [read_all], at most [fuel] iterations. *)
Fixpoint read_all_loop (fuel : nat) (inode : Inode) (offset : Z) (buffer v : list Z) : st S (list Z) :=
  match fuel with
  | O => lift Hang
  | Datatypes.S fuel' =>
      '(len, buffer) ← Inode_read_at inode offset buffer;
      if len =? 0 then mret v
      else
        offset ← lift (usize_add offset len);
        read_all_loop fuel' inode offset buffer (v ++ take (Z.to_nat len) buffer)
  end.
Definition read_all (fuel : nat) (fd : FileHandle) : st S (list Z) :=
  match fh_inode fd with
  | Some inode => read_all_loop fuel inode 0 (replicate 512 0) []
  | None => mret []
  end.
End Handles.

(** ** Lengths

    A read that answers fills the buffer without changing its length, whatever is on the device. *)
Section Lengths.
Context {S : Type} `{!BlockStore S}.

Lemma cache_read_Done {T V} (P : Pod T) id off (f : T → st S V) (s : S) v s' : cache_read P id off f s = Done (v, s') →
  ∃ t s1 s2, f t s1 = Done (v, s2).
Proof.
  unfold cache_read. intros (b & s1 & _ & Hd)%st_bind_Done. apply st_bind_Done in Hd as (u & s2 & _ & Hd).
  apply st_bind_Done in Hd as (v' & s3 & Hf & Hd). apply st_bind_Done in Hd as (u' & s4 & _ & [= -> _]). by eexists _, _, _.
Qed.

Lemma read_loop_length fuel (d : DiskInode) : ∀ start start_block end_ read_size buf (s : S) n buf' s', start < end_ → 0 ≤ read_size →
  read_size + (end_ - start) ≤ Z.of_nat (length buf) → read_loop fuel d start start_block end_ read_size buf s = Done (n, buf', s') →
  length buf' = length buf.
Proof.
  induction fuel as [|fuel IH]; intros start sb end_ rs buf s n buf' s' Hlt Hrs Hlen Hd; [done|].
  cbn [read_loop] in Hd. set (e := ((start / BLOCK_SZ + 1) * BLOCK_SZ) `min` end_) in *.
  assert (start < e ≤ end_) as He.
  { unfold e, BLOCK_SZ. pose proof (Z.div_mod start 512 ltac:(done)). pose proof (Z.mod_pos_bound start 512 ltac:(done)). lia. }
  apply st_bind_Done in Hd as (id & s1 & _ & Hd). apply st_bind_Done in Hd as (b & s2 & Hr & Hd).
  apply cache_read_Done in Hr as (t & s3 & s4 & [= <- _]).
  assert (length (splice (Z.to_nat rs) (slice (Z.to_nat (start mod BLOCK_SZ)) (Z.to_nat (e - start)) t) buf) = length buf) as Hl.
  { apply splice_length. unfold slice. rewrite length_take, length_drop. lia. }
  destruct (Z.eqb_spec e end_) as [_|Hne]; [by injection Hd as _ <- _|].
  apply IH in Hd; rewrite ?Hl in *; [done|lia..].
Qed.

Lemma Inode_read_at_length (self : Inode) offset buf (s : S) n buf' s' : Inode_read_at self offset buf s = Done (n, buf', s') →
  length buf' = length buf.
Proof.
  unfold Inode_read_at, Inode_read_disk_inode. intros (d & s1 & s2 & Hd)%cache_read_Done. unfold DiskInode_read_at in Hd.
  apply st_bind_Done in Hd as (e & s3 & He & Hd). unfold lift in He. destruct (usize_add _ _) as [e'| |] eqn:Ha; try done. injection He as -> <-.
  unfold usize_add, checked in Ha. destruct (_ && _); [|done]. injection Ha as <-.
  destruct (Z.leb_spec ((offset + Z.of_nat (length buf)) `min` size d) offset); [by injection Hd as _ <- _|].
  apply read_loop_length in Hd; [done|lia..].
Qed.

Lemma FileHandle_read_length (f : FileHandle) buf (s : S) r f' buf' s' : FileHandle_read f buf s = Done (r, f', buf', s') →
  length (concat buf') = length (concat buf).
Proof.
  unfold FileHandle_read. destruct (fh_inode f) as [inode|]; [|by intros [= _ _ <- _]].
  intros Hd. apply st_bind_Done in Hd as ([[total offset] out] & s1 & Hd & [= _ _ <- _]).
  revert Hd. generalize (fh_offset f), 0. revert s s1 total offset out. induction buf as [|b buf IH]; intros s s1 total offset out o t Hd.
  { by injection Hd as _ _ <- _. }
  cbn [read_slices] in Hd. apply st_bind_Done in Hd as ([n b'] & s2 & Hr & Hd). apply Inode_read_at_length in Hr.
  destruct (n =? 0); [injection Hd as _ _ <- _; simpl; by rewrite !length_app, Hr|].
  apply st_bind_Done in Hd as (o' & s3 & _ & Hd). apply st_bind_Done in Hd as (t' & s4 & _ & Hd).
  apply st_bind_Done in Hd as ([[t2 o2] b2] & s5 & Hd & [= _ _ <- _]). apply IH in Hd. simpl. by rewrite !length_app, Hr, Hd.
Qed.
End Lengths.

(** ** Reading a whole file *)
Section ReadAll.
Context {S : Type} `{!BlockStore S, !BlockStoreSpec S}.

Lemma inode_read_at_does (w : Z → list Z) (self : Inode) (bl : list Z) offset buf :
  contents_ok w → inode_place self → inode_maps w (inode_at w self) [inode_block_id self] bl →
  0 ≤ offset → offset + Z.of_nat (length buf) ≤ usize_max →
  let n := Z.max 0 ((offset + Z.of_nat (length buf)) `min` size (inode_at w self) - offset) in
  does (Inode_read_at self offset buf) w [] (n, splice 0 (file_range w bl offset n) buf) w.
Proof.
  intros Hc [Hf Hin] Hm Ho Hu. apply does_read; [done..|].
  by apply (read_at_does w (inode_at w self) [inode_block_id self] bl offset buf).
Qed.

Lemma read_all_loop_does (w : Z → list Z) (self : Inode) (bl : list Z) fuel offset buf v :
  contents_ok w → inode_place self → inode_maps w (inode_at w self) [inode_block_id self] bl →
  0 ≤ offset ≤ size (inode_at w self) → length buf = 512%nat →
  size (inode_at w self) - offset ≤ 512 * (Z.of_nat fuel - 1) →
  does (read_all_loop fuel self offset buf v) w []
    (v ++ file_range w bl offset (size (inode_at w self) - offset)) w.
Proof.
  intros Hc Hp Hm. pose proof (im_size _ _ _ _ Hm) as Hs. set (sz := size (inode_at w self)) in *.
  revert offset buf v. induction fuel as [|fuel IH]; intros offset buf v Ho Hl Hfuel; [lia|].
  pose proof (inode_read_at_does w self bl offset buf Hc Hp Hm) as Hr. fold sz in Hr. rewrite Hl in Hr.
  specialize (Hr ltac:(lia) ltac:(unfold usize_max; lia)). simpl in Hr.
  change (Z.of_nat 512) with 512 in Hr. set (n := Z.max 0 ((offset + 512) `min` sz - offset)) in *.
  cbn [read_all_loop]. eapply does_bind; [exact Hr|]. cbv beta iota.
  destruct (Z.eqb_spec n 0) as [E|E].
  - replace (sz - offset) with 0 by lia. unfold file_range. simpl. rewrite app_nil_r. apply does_ret.
  - eapply does_bind; [apply does_lift, checked_ok; unfold usize_max; lia|].
    assert (length (file_range w bl offset n) = Z.to_nat n) as Hfl by apply file_range_length.
    replace (take (Z.to_nat n) (splice 0 (file_range w bl offset n) buf)) with (file_range w bl offset n).
    2:{ unfold splice. simpl. rewrite take_app_length' by done. done. }
    replace (v ++ file_range w bl offset (sz - offset)) with
      ((v ++ file_range w bl offset n) ++ file_range w bl (offset + n) (sz - (offset + n))).
    + apply IH; [lia| |lia]. rewrite splice_length; [done|]. rewrite Hfl, Hl. lia.
    + rewrite <-app_assoc. f_equal. replace (sz - offset) with (n + (sz - (offset + n))) by lia.
      symmetry. apply file_range_app; lia.
Qed.

Lemma read_all_does (w : Z → list Z) (fd : FileHandle) (self : Inode) (bl : list Z) (fuel : nat) :
  contents_ok w → fh_inode fd = Some self → inode_place self →
  inode_maps w (inode_at w self) [inode_block_id self] bl →
  DiskInode_data_blocks (inode_at w self) < Z.of_nat fuel →
  does (read_all fuel fd) w [] (file_bytes w (inode_at w self) bl) w.
Proof.
  intros Hc Hi Hp Hm Hfuel. unfold read_all. rewrite Hi. unfold file_bytes.
  pose proof (im_size _ _ _ _ Hm) as Hs. pose proof (size_blocks w _ _ bl Hm) as Hb.
  rewrite (im_len _ _ _ _ Hm) in Hb. unfold BLOCK_SZ in Hb.
  pose proof (read_all_loop_does w self bl fuel 0 (replicate 512 0) [] Hc Hp Hm) as H.
  rewrite Z.sub_0_r in H. apply H; [lia|done|lia].
Qed.

(** ** Reading and writing through a handle *)
Lemma handle_read_does (w : Z → list Z) (f : FileHandle) (self : Inode) (bl : list Z) buf :
  contents_ok w → fh_inode f = Some self → inode_place self → inode_maps w (inode_at w self) [inode_block_id self] bl →
  0 ≤ fh_offset f → fh_offset f + Z.of_nat (length buf) ≤ usize_max →
  let n := Z.max 0 ((fh_offset f + Z.of_nat (length buf)) `min` size (inode_at w self) - fh_offset f) in
  does (FileHandle_read f [buf]) w [] (n, set_offset (fh_offset f + n) f, [splice 0 (file_range w bl (fh_offset f) n) buf]) w.
Proof.
  intros Hc Hi Hp Hm Ho Hu n. unfold FileHandle_read. rewrite Hi. pose proof (im_size _ _ _ _ Hm) as Hs.
  apply (does_bind _ _ w w w [] (n, fh_offset f + n, [splice 0 (file_range w bl (fh_offset f) n) buf]));
    [|cbv beta iota; rewrite as_isize_small by (unfold n, usize_max in *; lia); apply does_ret].
  cbn [read_slices]. eapply does_bind; [by apply inode_read_at_does|]. cbv beta iota. fold n.
  destruct (Z.eqb_spec n 0) as [E|E].
  - rewrite E, Z.add_0_r. apply does_ret.
  - eapply does_bind; [apply does_lift, checked_ok; unfold usize_max; lia|].
    eapply does_bind; [apply does_lift, checked_ok; unfold usize_max; lia|]. cbv beta iota. rewrite Z.add_0_l.
    eapply does_bind; [apply does_ret|]. apply does_ret.
Qed.

Lemma inode_at_keep w w' (self : Inode) (d : DiskInode) bl : inode_maps w d [inode_block_id self] bl → (∀ k, k ∉ bl → w' k = w k) →
  inode_at w' self = inode_at w self.
Proof.
  intros Hm Hw. unfold inode_at, at_block. rewrite Hw; [done|]. intros Hin.
  destruct (im_free _ _ _ _ Hm _ Hin) as (_ & Hn & _). apply Hn, list_elem_of_singleton. done.
Qed.

(** An inode is written back as it was. *)
Lemma inode_write_at_does efs (w : Z → list Z) (self : Inode) (bl : list Z) offset buf :
  contents_ok w → inode_place self → inode_maps w (inode_at w self) [inode_block_id self] bl → Forall is_byte buf →
  0 ≤ offset → offset + Z.of_nat (length buf) < size (inode_at w self) →
  ∃ w', does (Inode_write_at efs self offset buf) w [] (Z.of_nat (length buf)) w' ∧ contents_ok w' ∧
    inode_at w' self = inode_at w self ∧ inode_maps w' (inode_at w' self) [inode_block_id self] bl ∧ (∀ k, k ∉ bl → w' k = w k) ∧
    file_bytes w' (inode_at w' self) bl = splice (Z.to_nat offset) buf (file_bytes w (inode_at w self) bl).
Proof.
  intros Hc [Hf Hin] Hm Hb Ho Hlt. pose proof (im_size _ _ _ _ Hm) as Hs. set (d := inode_at w self) in *.
  destruct (write_at_does w d [inode_block_id self] bl offset buf Hc Hm Hb ltac:(lia) ltac:(unfold usize_max; lia)) as (w' & Hd & Hc' & Hm' & Hk & Hby).
  rewrite Z.min_l, Z.add_simpl_l in Hd, Hby by lia. rewrite Nat2Z.id, take_ge in Hby by lia.
  pose proof (inode_at_keep w w' self d bl Hm Hk) as E. fold d in E. exists w'. rewrite E. split_and!; try done.
  unfold Inode_write_at, Inode_modify_disk_inode. destruct Hf as (Hv & Hn & Hl). destruct (Hc _ Hv) as [Hlen Hbytes].
  destruct Hin as [Hi1 Hi2]. unfold BLOCK_SZ in Hi2.
  assert (length (slice (Z.to_nat (inode_block_offset self)) (size_of (Pod := DiskInode_pod) DiskInode) (w (inode_block_id self))) =
    size_of (Pod := DiskInode_pod) DiskInode) as Hsl by (apply slice_length; rewrite Hlen; lia).
  assert (Forall is_byte (slice (Z.to_nat (inode_block_offset self)) (size_of (Pod := DiskInode_pod) DiskInode) (w (inode_block_id self)))) as Hsb
    by (by apply Forall_take, Forall_drop).
  eapply does_bind; [eapply (does_modify DiskInode_pod _ _ _ w w' [] (Z.of_nat (length buf)) d); [done|done|done| |]|].
  - unfold d, inode_at, at_block. by apply decode_fits.
  - fold d. eapply does_bind; [apply does_lift, checked_ok; unfold usize_max; lia|]. unfold as_u32. rewrite Z.mod_small by lia.
    assert ((offset + Z.of_nat (length buf) <? size d) = true) as Elt by (by apply Z.ltb_lt).
    eapply does_bind; [unfold Inode_increase_size; change (at_block _ _ _ _) with d; rewrite Elt; apply does_ret|].
    eapply does_bind; [exact Hd|]. apply does_ret.
  - eapply does_ext; [|reflexivity|eapply does_bind; [apply does_sync|apply does_ret]].
    intros k _. unfold set_block. case_decide as Ek; [subst|done]. unfold d, inode_at, at_block. rewrite encode_decode by done.
    rewrite splice_slice by (rewrite Hlen; lia). apply Hk. intros Hin.
    destruct (im_free _ _ _ _ Hm _ Hin) as (_ & Hne & _). by apply Hne, list_elem_of_singleton.
Qed.

Lemma handle_write_does efs (w : Z → list Z) (f : FileHandle) (self : Inode) (bl : list Z) buf :
  contents_ok w → fh_inode f = Some self → inode_place self → inode_maps w (inode_at w self) [inode_block_id self] bl → Forall is_byte buf →
  0 ≤ fh_offset f → fh_offset f + Z.of_nat (length buf) < size (inode_at w self) →
  ∃ w', does (FileHandle_write efs f [buf]) w [] (Z.of_nat (length buf), set_offset (fh_offset f + Z.of_nat (length buf)) f) w' ∧ contents_ok w' ∧
    inode_at w' self = inode_at w self ∧ inode_maps w' (inode_at w' self) [inode_block_id self] bl ∧ (∀ k, k ∉ bl → w' k = w k) ∧
    file_bytes w' (inode_at w' self) bl = splice (Z.to_nat (fh_offset f)) buf (file_bytes w (inode_at w self) bl).
Proof.
  intros Hc Hi Hp Hm Hb Ho Hlt. pose proof (im_size _ _ _ _ Hm) as Hs.
  destruct (inode_write_at_does efs w self bl (fh_offset f) buf) as (w' & Hd & Hrest); [done..|]. exists w'. split; [|done].
  unfold FileHandle_write. rewrite Hi.
  apply (does_bind _ _ w w' w' [] (Z.of_nat (length buf), fh_offset f + Z.of_nat (length buf)));
    [|cbv beta iota; rewrite as_isize_small by (unfold usize_max; lia); apply does_ret].
  cbn [write_slices]. eapply does_bind; [exact Hd|]. eapply does_bind; [apply does_lift; by rewrite Z.eqb_refl|].
  eapply does_bind; [apply does_lift, checked_ok; unfold usize_max; lia|].
  eapply does_bind; [apply does_lift, checked_ok; unfold usize_max; lia|]. rewrite Z.add_0_l. apply does_ret.
Qed.
End ReadAll.

(** loading a program.  [read_all] on a handle returns the whole contents of the file and terminates, in one more
    iteration than the file has blocks; no block is changed. *)
Theorem read_all_contents {S} `{!BlockStore S, !BlockStoreSpec S} (w : Z → list Z) (fd : FileHandle) (self : Inode)
    (bl : list Z) (fuel : nat) :
  contents_ok w → fh_inode fd = Some self → inode_place self →
  inode_maps w (inode_at w self) [inode_block_id self] bl →
  DiskInode_data_blocks (inode_at w self) < Z.of_nat fuel →
  does (read_all fuel fd) w [] (file_bytes w (inode_at w self) bl) w.
Proof. apply read_all_does. Qed.

(** The directory of the example in [Vfs], read as a file. *)
Lemma read_all_contents_witness :
  does (BlockStoreSpec0 := demo_spec) (read_all 2 (FileHandle_new true false demo_root)) demo_dir []
    (take 32 demo_dir_data) demo_dir.
Proof.
  pose proof (read_all_contents (BlockStoreSpec0 := demo_spec) demo_dir (FileHandle_new true false demo_root) demo_root
    [7] 2 demo_dir_ok eq_refl) as H.
  replace (take 32 demo_dir_data) with (file_bytes demo_dir (inode_at demo_dir demo_root) [7]) by (by vm_compute).
  apply H.
  - split; [|by vm_compute]. by apply demo_free.
  - apply demo_directory.
  - rewrite demo_dir_at. by vm_compute.
Defined.
