(* ===== verification/FileSpace.v ===== *)
(** * The space of a mounted file system

    Which blocks of the data area are taken and which are spare, how [alloc_data] and [dealloc_data] move them, and what
    that makes of [Inode::write_at] and [Inode::clear] ([tg-rcore-tutorial-ch6/tg-rcore-tutorial-easy-fs/src/{efs,vfs}.rs]): a
    file grows by spare blocks and reads as zeros where nothing was written. *)

From S2P Require Import Prelude Bytes BlockStore BlockCache Bitmap Layout FileData FileGrowth Efs Vfs File.

(** ** The first element with a property *)
Lemma filter_iff_in {A} (P Q : A → Prop) `{!∀ x, Decision (P x), !∀ x, Decision (Q x)} (l : list A) :
  (∀ x, x ∈ l → P x ↔ Q x) → filter P l = filter Q l.
Proof.
  induction l as [|y l IH]; intros Hl; [done|]. rewrite !filter_cons, IH by (intros x Hx; apply Hl; by right).
  pose proof (Hl y ltac:(left)). repeat case_decide; tauto || done.
Qed.
Lemma filter_none {A} (P : A → Prop) `{!∀ x, Decision (P x)} (l : list A) : (∀ x, x ∈ l → ¬ P x) → filter P l = [].
Proof.
  induction l as [|y l IH]; intros Hl; [done|]. rewrite filter_cons, decide_False by (apply Hl; left). apply IH. intros x Hx. apply Hl. by right.
Qed.
Lemma filter_first {A} (P : A → Prop) `{!∀ x, Decision (P x)} (l : list A) x rest : filter P l = x :: rest →
  ∃ l1 l2, l = l1 ++ x :: l2 ∧ Forall (fun y => ¬ P y) l1 ∧ P x ∧ filter P l2 = rest.
Proof.
  induction l as [|y l IH]; [done|]. rewrite filter_cons. case_decide as E.
  - intros [= -> <-]. by exists [], l.
  - intros Hf. destruct (IH Hf) as (l1 & l2 & -> & Hl1 & Hx & Hr). exists (y :: l1), l2. split_and!; [done|by constructor|done|done].
Qed.

Section FileSpace.
Context {S : Type} `{!BlockStore S, !BlockStoreSpec S}.
Implicit Types (w : Z → list Z) (d : DiskInode) (h bl : list Z) (n N k : nat) (D : Z).

(** ** The data area *)
(** [D] blocks of the data area can be used; the blocks of the bitmap lie before them. *)
Record data_area efs h D : Prop := {
  da_blocks : 0 ≤ blocks (data_bitmap efs);
  da_bitmap : bitmap_free (data_bitmap efs) h;
  da_size : 0 ≤ D ≤ Bitmap_maximum (data_bitmap efs);
  da_start : 0 ≤ start_block_id (data_bitmap efs);
  da_order : start_block_id (data_bitmap efs) + blocks (data_bitmap efs) ≤ data_area_start_block efs;
  da_valid j : 0 ≤ j < D → free_block (j + data_area_start_block efs) h;
  da_u32 : D + data_area_start_block efs ≤ u32_max;
}.

Definition taken efs w (j : Z) : bool := bitmap_bit w (data_bitmap efs) j.
(** The numbers of the blocks that are not taken, in order. *)
Definition spare efs w D : list Z := filter (fun j => taken efs w j = false) (seqZ 0 D).
Definition in_bitmap efs (b : Z) : Prop :=
  start_block_id (data_bitmap efs) ≤ b < start_block_id (data_bitmap efs) + blocks (data_bitmap efs).
(** Spare blocks hold zeros. *)
Definition blank efs w D : Prop := ∀ j, j ∈ spare efs w D → w (j + data_area_start_block efs) = zero_block.

Lemma elem_spare efs w D j : j ∈ spare efs w D ↔ taken efs w j = false ∧ 0 ≤ j < D.
Proof. unfold spare. rewrite list_elem_of_filter, elem_of_seqZ. done. Qed.
Lemma NoDup_spare efs w D : NoDup (spare efs w D).
Proof. apply NoDup_filter, NoDup_seqZ. Qed.
Lemma taken_frame efs w w' h D j : data_area efs h D → (∀ b, in_bitmap efs b → w' b = w b) → 0 ≤ j < D → taken efs w' j = taken efs w j.
Proof.
  intros Ha Hw Hj. apply bitmap_bit_frame, Hw. pose proof (da_size _ _ _ Ha). pose proof (bit_block_range (data_bitmap efs) j ltac:(lia)). unfold in_bitmap. lia.
Qed.
Lemma spare_ext efs w w' D : (∀ j, 0 ≤ j < D → taken efs w' j = taken efs w j) → spare efs w' D = spare efs w D.
Proof. intros H. apply filter_iff_in. intros j Hj%elem_of_seqZ. rewrite H by lia. done. Qed.

(** One block more. *)
Lemma alloc_data_next efs w h D i rest : contents_ok w → data_area efs h D → spare efs w D = i :: rest →
  ∃ w', does (alloc_data efs) w h (i + data_area_start_block efs) w' ∧ contents_ok w' ∧ spare efs w' D = rest ∧
    (∀ j, 0 ≤ j → taken efs w' j = (j =? i) || taken efs w j) ∧ ∀ b, ¬ in_bitmap efs b → w' b = w b.
Proof.
  intros Hc Ha Hs. pose proof Ha as [A1 A2 A3 A4 A5 A6 A7]. unfold spare in Hs. destruct (filter_first _ _ _ _ Hs) as (l1 & l2 & Hl & Hl1 & Hi & Hr).
  assert (seqZ 0 D !! length l1 = Some i) as Hli by (rewrite Hl; by apply list_lookup_middle). apply lookup_seqZ in Hli as [-> Hlt]. rewrite Z.add_0_l in *. set (i := length l1) in *.
  assert (∀ j, 0 ≤ j < Z.of_nat i → taken efs w j = true) as Hbefore.
  { intros j Hj. assert (seqZ 0 D !! Z.to_nat j = Some j) as Hlj by (rewrite lookup_seqZ_lt by lia; f_equal; lia).
    rewrite Hl, lookup_app_l in Hlj by lia. rewrite Forall_lookup in Hl1. by apply not_false_iff_true, (Hl1 (Z.to_nat j)). }
  destruct (alloc_data_does efs w h (Z.of_nat i) Hc A1 A2 ltac:(lia) Hi Hbefore ltac:(lia) ltac:(lia)) as (w' & Hd & Hc' & Hset).
  assert (∀ j, 0 ≤ j → taken efs w' j = (j =? Z.of_nat i) || taken efs w j) as Hbit by (intros j Hj; by apply (bs_now _ _ _ _ Hset)).
  assert (∀ b, ¬ in_bitmap efs b → w' b = w b) as Hfr.
  { intros b Hb. apply (bs_frame _ _ _ _ Hset). intros ->. apply Hb. pose proof (bit_block_range (data_bitmap efs) (Z.of_nat i) ltac:(lia)). unfold in_bitmap. lia. }
  exists w'. split_and!; [done|done| |done|done].
  pose proof (NoDup_seqZ 0 D) as Hnd. rewrite Hl in Hnd. apply NoDup_app in Hnd as (_ & _ & [Hi2 _]%NoDup_cons).
  assert (∀ x, x ∈ l1 ++ l2 → 0 ≤ x < D) as Hrange by (intros x Hx; assert (x ∈ seqZ 0 D) as ?%elem_of_seqZ; [rewrite Hl; set_solver|lia]).
  unfold spare. rewrite Hl, filter_app, filter_cons. rewrite decide_False by (rewrite Hbit, Z.eqb_refl by lia; done). rewrite <-Hr.
  assert (filter (fun j => taken efs w' j = false) l1 = []) as ->.
  { apply filter_none. intros x Hx. rewrite Forall_forall in Hl1. rewrite Hbit by (apply Hrange; set_solver). specialize (Hl1 x Hx). destruct (taken efs w x); [by rewrite orb_true_r|done]. }
  apply filter_iff_in. intros x Hx. rewrite Hbit by (apply Hrange; set_solver). destruct (Z.eqb_spec x (Z.of_nat i)) as [->|]; [done|done].
Qed.

(** As many blocks as are asked for: the first of the spare ones. *)
Lemma alloc_blocks_does efs h D k : ∀ w v, contents_ok w → data_area efs h D → (k ≤ length (spare efs w D))%nat →
  ∃ w', does (alloc_blocks efs k v) w h (v ++ ((fun j => j + data_area_start_block efs) <$> take k (spare efs w D))) w' ∧ contents_ok w' ∧
    spare efs w' D = drop k (spare efs w D) ∧ (∀ j, 0 ≤ j → taken efs w' j = bool_decide (j ∈ take k (spare efs w D)) || taken efs w j) ∧
    ∀ b, ¬ in_bitmap efs b → w' b = w b.
Proof.
  induction k as [|k IH]; intros w v Hc Ha Hk.
  { exists w. rewrite take_0, app_nil_r, drop_0. split_and!; [apply does_ret|done|done| |done]. intros j Hj. by rewrite bool_decide_false by apply not_elem_of_nil. }
  destruct (spare efs w D) as [|i rest] eqn:Es; [simpl in Hk; lia|]. destruct (alloc_data_next efs w h D i rest Hc Ha Es) as (w1 & Hd & Hc1 & Hs1 & Hb1 & Hf1).
  destruct (IH w1 (v ++ [i + data_area_start_block efs]) Hc1 Ha) as (w2 & Hd2 & Hc2 & Hs2 & Hb2 & Hf2); [rewrite Hs1; simpl in Hk; lia|]. rewrite Hs1 in *.
  exists w2. split_and!; [|done|done| |intros b Hb; by rewrite Hf2, Hf1].
  - simpl. eapply does_bind; [exact Hd|]. rewrite <-app_assoc in Hd2. exact Hd2.
  - intros j Hj. rewrite Hb2, Hb1 by done. simpl. destruct (Z.eqb_spec j i) as [->|Hne].
    + rewrite (bool_decide_true (i ∈ i :: _)) by left. by rewrite orb_true_r.
    + simpl. f_equal. apply bool_decide_ext. rewrite elem_of_cons. tauto.
Qed.

(** Giving blocks back: they are filled with zeros, and spare. *)
Lemma dealloc_data_does efs w h D j : contents_ok w → data_area efs h D → 0 ≤ j < D → taken efs w j = true →
  ∃ w', does (dealloc_data efs (j + data_area_start_block efs)) w h () w' ∧ contents_ok w' ∧ w' (j + data_area_start_block efs) = zero_block ∧
    (∀ i, 0 ≤ i < D → taken efs w' i = negb (i =? j) && taken efs w i) ∧
    ∀ b, ¬ in_bitmap efs b → b ≠ j + data_area_start_block efs → w' b = w b.
Proof.
  intros Hc Ha Hj Ht. pose proof Ha as [A1 A2 A3 A4 A5 A6 A7]. destruct (does_zero w h _ Hc (A6 j Hj)) as [Hd0 Hc0].
  set (w0 := set_block (j + data_area_start_block efs) zero_block w) in *.
  assert (∀ b, in_bitmap efs b → w0 b = w b) as Hw0 by (intros b Hb; unfold w0; rewrite set_block_ne; [done|unfold in_bitmap in Hb; lia]).
  pose proof (bit_block_range (data_bitmap efs) j ltac:(lia)) as Hr.
  pose proof (Bitmap_dealloc_spec (data_bitmap efs) h w0 j Hc0 ltac:(lia) (A2 _ Hr)) as Hd.
  change (bitmap_bit w0 (data_bitmap efs) j) with (taken efs w0 j) in Hd. rewrite (taken_frame efs w w0 h D j Ha Hw0 Hj), Ht in Hd.
  destruct Hd as (w' & Hd & Hc' & Hbit & Hfr).
  assert (∀ b, ¬ in_bitmap efs b → w' b = w0 b) as Hfr' by (intros b Hb; apply Hfr; intros ->; apply Hb; unfold in_bitmap; lia).
  exists w'. split_and!; [|done| | |].
  - unfold dealloc_data. eapply does_bind; [exact Hd0|]. eapply does_bind; [apply does_lift, u32_sub_run; unfold u32_max in *; lia|].
    by rewrite Z.add_simpl_r.
  - rewrite Hfr' by (unfold in_bitmap; lia). apply set_block_eq.
  - intros i Hi. unfold taken at 1. rewrite Hbit by lia. f_equal. by apply (taken_frame efs w w0 h D).
  - intros b Hb Hne. rewrite Hfr' by done. by apply set_block_ne.
Qed.

Lemma dealloc_blocks_does efs h D (js : list Z) : ∀ w, contents_ok w → data_area efs h D → NoDup js → (∀ j, j ∈ js → 0 ≤ j < D ∧ taken efs w j = true) →
  ∃ w', does (dealloc_blocks efs ((fun j => j + data_area_start_block efs) <$> js)) w h () w' ∧ contents_ok w' ∧
    (∀ j, j ∈ js → w' (j + data_area_start_block efs) = zero_block) ∧
    (∀ i, 0 ≤ i < D → taken efs w' i = bool_decide (i ∉ js) && taken efs w i) ∧
    ∀ b, ¬ in_bitmap efs b → (∀ j, j ∈ js → b ≠ j + data_area_start_block efs) → w' b = w b.
Proof.
  induction js as [|j js IH]; intros w Hc Ha Hnd Hjs.
  { exists w. split_and!; [apply does_ret|done|by intros j ?%elem_of_nil| |done]. intros i Hi. by rewrite bool_decide_true by apply not_elem_of_nil. }
  apply NoDup_cons in Hnd as [Hj Hnd]. destruct (Hjs j ltac:(left)) as [Hjr Hjt].
  destruct (dealloc_data_does efs w h D j Hc Ha Hjr Hjt) as (w1 & Hd1 & Hc1 & Hz1 & Hb1 & Hf1).
  destruct (IH w1 Hc1 Ha Hnd) as (w2 & Hd2 & Hc2 & Hz2 & Hb2 & Hf2).
  { intros i Hi. destruct (Hjs i ltac:(by right)) as [Hir Hit]. split; [done|]. rewrite Hb1, Hit by done. destruct (Z.eqb_spec i j) as [->|]; done. }
  pose proof Ha as [A1 A2 A3 A4 A5 A6 A7]. exists w2. split_and!; [|done| | |].
  - rewrite fmap_cons. cbn [dealloc_blocks]. eapply does_bind; [exact Hd1|exact Hd2].
  - intros i [->|Hi]%elem_of_cons; [|by apply Hz2]. rewrite Hf2; [done|unfold in_bitmap; lia|]. intros i Hi E. assert (i = j) as -> by lia. done.
  - intros i Hi. rewrite Hb2, Hb1 by done. rewrite andb_assoc. f_equal. destruct (Z.eqb_spec i j) as [->|Hne].
    + rewrite andb_false_r. symmetry. apply bool_decide_false. intros Hn. apply Hn. left.
    + rewrite andb_true_r. apply bool_decide_ext. rewrite elem_of_cons. tauto.
  - intros b Hb Hne. rewrite Hf2, Hf1; [done|done|apply Hne; left|done|]. intros i Hi. apply Hne. by right.
Qed.

(** ** What an inode owns *)
Definition blocks_of w d n : list Z := data_list w d n ++ index_list w d n.
(** The [n] data blocks of an inode and their index blocks are different taken blocks of the data area, and the last one holds
    zeros after the end of the file. *)
Record owns efs w d n D : Prop := {
  ow_fits : inode_fits d;
  ow_count : DiskInode_data_blocks d = Z.of_nat n;
  ow_bound : Z.of_nat n ≤ INDIRECT2_BOUND;
  ow_nodup : NoDup (blocks_of w d n);
  ow_taken b : b ∈ blocks_of w d n → ∃ j, b = j + data_area_start_block efs ∧ 0 ≤ j < D ∧ taken efs w j = true;
  ow_tail j : size d ≤ j < BLOCK_SZ * Z.of_nat n → file_byte w (data_list w d n) j = 0;
}.

Lemma owns_free efs w d n D h b : data_area efs h D → owns efs w d n D → b ∈ blocks_of w d n → free_block b h ∧ ¬ in_bitmap efs b.
Proof.
  intros Ha Ho Hb. destruct (ow_taken _ _ _ _ _ Ho b Hb) as (j & -> & Hj & _). split; [by apply (da_valid _ _ _ Ha)|].
  pose proof (da_order _ _ _ Ha). unfold in_bitmap. lia.
Qed.

Lemma owns_maps efs w d n D h : contents_ok w → data_area efs h D → owns efs w d n D → inode_maps w d h (data_list w d n).
Proof.
  intros Hc Ha Ho. pose proof Ho as [O1 O2 O3 O4 O5 O6]. assert (∀ b, b ∈ blocks_of w d n → free_block b h) as Hf by (intros b Hb; by apply (owns_free efs w d n D)).
  assert (∀ b, b ∈ index_list w d n → valid b) as Hv by (intros b Hb; apply Hf, elem_of_app; by right).
  assert (length (data_list w d n) = n) as Hl by (apply data_list_length; [apply O1|done|done]). apply NoDup_app in O4 as (N1 & N2 & _). split.
  - by rewrite Hl.
  - apply O1.
  - intros i b. apply data_list_block; [apply O1|done..].
  - intros b Hb. apply Hf, elem_of_app. by left.
  - intros i b Hi Hb. rewrite Hl in Hi. assert (b ∈ index_list w d n) as Hix by by eapply index_path_in. split; [apply Hf, elem_of_app; by right|]. intros Hd. by apply (N2 b).
  - done.
Qed.

Lemma total_blocks_count s n : data_blocks_of s = Z.of_nat n → Z.of_nat n ≤ INDIRECT2_BOUND → DiskInode_total_blocks s = Z.of_nat (n + index_count n).
Proof.
  intros Hs Hn. change INDIRECT2_BOUND with 16540 in Hn. unfold DiskInode_total_blocks. rewrite Hs. change INODE_DIRECT_COUNT with 28. change INDIRECT1_BOUND with 156.
  change INODE_INDIRECT1_COUNT with 128. rewrite div_ceil_eq by lia. unfold index_count, tables.
  assert (156 < Z.of_nat n → (Z.of_nat n - 156 + 128 - 1) / 128 = Z.of_nat ((n - 156 + 127) / 128)) as E.
  { intros H. rewrite Nat2Z.inj_div. f_equal. lia. }
  pose proof (tables_le (n - 156) ltac:(lia)) as Ht. unfold tables in Ht.
  destruct (Z.gtb_spec (Z.of_nat n) 28), (Z.gtb_spec (Z.of_nat n) 156); repeat case_decide; try lia; unfold as_u32; rewrite ?E, ?Z.mod_small by lia; lia.
Qed.

(** The bytes of a file whose blocks are kept and that got new ones. *)
Lemma file_byte_grown w w' bl new j : (∀ b, b ∈ bl → w' b = w b) → (∀ b, b ∈ new → w' b = zero_block) →
  0 ≤ j < BLOCK_SZ * Z.of_nat (length (bl ++ new)) →
  file_byte w' (bl ++ new) j = if decide (j < BLOCK_SZ * Z.of_nat (length bl)) then file_byte w bl j else 0.
Proof.
  intros Hb Hnew Hj. unfold file_byte. unfold BLOCK_SZ in *. pose proof (Z.div_mod j 512 ltac:(lia)) as E. pose proof (Z.mod_pos_bound j 512 ltac:(lia)) as Em.
  rewrite length_app in Hj. case_decide as Hlt.
  - rewrite lookup_total_app_l by lia. rewrite Hb; [done|]. apply (list_elem_of_lookup_2 _ (Z.to_nat (j / 512))), list_lookup_lookup_total_lt. lia.
  - rewrite lookup_total_app_r by lia. rewrite Hnew.
    + unfold zero_block. apply list_lookup_total_correct. apply lookup_replicate. split; [done|lia].
    + apply (list_elem_of_lookup_2 _ (Z.to_nat (j / 512) - length bl)), list_lookup_lookup_total_lt. lia.
Qed.

(** *** Growing *)
(** How many blocks an inode takes with [N] data blocks instead of [n]. *)
Definition more (n N : nat) : nat := (N - n + (index_count N - index_count n))%nat.

Record stretched efs w d n w' d' N D : Prop := {
  st_ok : contents_ok w';
  st_owns : owns efs w' d' N D;
  st_blank : blank efs w' D;
  st_bytes : file_bytes w' d' (data_list w' d' N) = file_bytes w d (data_list w d n) ++ replicate (Z.to_nat (size d' - size d)) 0;
  st_spare : spare efs w' D = drop (more n N) (spare efs w D);
  st_kept j : 0 ≤ j < D → taken efs w j = true → taken efs w' j = true;
  st_new b : b ∈ blocks_of w' d' N → b ∈ blocks_of w d n ∨ ∃ j, b = j + data_area_start_block efs ∧ j ∈ spare efs w D;
  st_frame b : ¬ in_bitmap efs b → b ∉ index_list w' d' N → w' b = w b;
  st_type : type_ d' = type_ d;
  st_link : link_num d' = link_num d;
}.

(** The blocks that [alloc_data] gave do not meet those the inode has. *)
Lemma fresh_blocks efs w d n h D k : data_area efs h D → owns efs w d n D →
  let nb := (fun j => j + data_area_start_block efs) <$> take k (spare efs w D) in
  NoDup (blocks_of w d n ++ nb) ∧ (∀ b, b ∈ nb → free_block b h ∧ ¬ in_bitmap efs b ∧ 0 ≤ b < 2 ^ 32 ∧ ∃ j, b = j + data_area_start_block efs ∧ j ∈ take k (spare efs w D)).
Proof.
  intros Ha Ho nb. pose proof Ha as [A1 A2 A3 A4 A5 A6 A7].
  assert (∀ j, j ∈ take k (spare efs w D) → taken efs w j = false ∧ 0 ≤ j < D) as Hs.
  { intros j Hj. apply elem_spare. rewrite <-(take_drop k (spare efs w D)). apply elem_of_app. by left. }
  split.
  - apply NoDup_app. split; [apply Ho|]. split.
    + intros b Hb (j & -> & Hj)%list_elem_of_fmap. destruct (ow_taken _ _ _ _ _ Ho _ Hb) as (i & E & _ & Ht). assert (i = j) as -> by lia. destruct (Hs j Hj) as [Hf _]. congruence.
    + apply NoDup_fmap_2; [intros x y; lia|]. apply (sublist_NoDup _ (spare efs w D)); [apply NoDup_spare|apply sublist_take].
  - intros b (j & -> & Hj)%list_elem_of_fmap. destruct (Hs j Hj) as [_ Hr]. split_and!; [by apply A6|unfold in_bitmap; lia|lia|unfold u32_max in A7; lia|by exists j].
Qed.

Lemma blocks_ext w w' d n : Z.of_nat n ≤ INDIRECT2_BOUND → contents_ok w → (∀ b, b ∈ index_list w d n → valid b ∧ w' b = w b) →
  data_list w' d n = data_list w d n ∧ index_list w' d n = index_list w d n.
Proof.
  intros Hn Hc Hw. change INDIRECT2_BOUND with 16540 in Hn. unfold data_list, index_list in *.
  assert ((28 < n)%nat → index_block w' (indirect1 d) = index_block w (indirect1 d)) as H1.
  { intros H. unfold index_block, at_block. destruct (Hw (indirect1 d)) as [_ ->]; [rewrite decide_True by done; left|done]. }
  assert ((156 < n)%nat → index_block w' (indirect2 d) = index_block w (indirect2 d) ∧ length (index_block w (indirect2 d)) = 128%nat) as H2.
  { intros H. destruct (Hw (indirect2 d)) as [Hv Hw2]; [rewrite (decide_True (P := (156 < n)%nat)) by done; apply elem_of_app; right; left|].
    split; [unfold index_block, at_block; by rewrite Hw2|by apply index_block_fits]. }
  assert (level3 w' (index_block w' (indirect2 d)) (n - 156) = level3 w (index_block w (indirect2 d)) (n - 156)) as E3.
  { destruct (decide (156 < n)%nat) as [H|H]; [|by replace (n - 156)%nat with 0%nat by lia]. destruct (H2 H) as [-> Hl]. apply level3_ext. intros q Hq. apply Hw.
    apply elem_of_app. right. right. apply tables_entries; [done|lia|done]. }
  rewrite E3. split.
  - destruct (decide (28 < n)%nat) as [H|H]; [by rewrite H1|]. replace (n - 28)%nat with 0%nat by lia. by rewrite !take_0.
  - destruct (decide (156 < n)%nat) as [H|H]; [|done]. by destruct (H2 H) as [-> _].
Qed.

Lemma index_count_mono n N : (n ≤ N)%nat → (index_count n ≤ index_count N)%nat.
Proof. intros H. unfold index_count. pose proof (tables_mono (n - 156) (N - 156) ltac:(lia)). repeat case_decide; lia. Qed.
Lemma index_count_le n : Z.of_nat n ≤ 16540 → (index_count n ≤ 130)%nat.
Proof. intros H. unfold index_count. pose proof (tables_le (n - 156) ltac:(lia)). repeat case_decide; lia. Qed.

(** From what [increase_grown] leaves to what is promised of it. *)
Lemma stretched_intro efs w h d n N D w1 w' d' Dn ix : data_area efs h D → owns efs w d n D → blank efs w D →
  contents_ok w → contents_ok w' → inode_fits d' → DiskInode_data_blocks d' = Z.of_nat N → Z.of_nat N ≤ INDIRECT2_BOUND → size d ≤ size d' →
  data_list w' d' N = data_list w d n ++ Dn → index_list w' d' N = index_list w d n ++ ix →
  Dn ++ ix ≡ₚ (fun j => j + data_area_start_block efs) <$> take (more n N) (spare efs w D) → length Dn = (N - n)%nat →
  spare efs w1 D = drop (more n N) (spare efs w D) → (∀ j, 0 ≤ j → taken efs w1 j = bool_decide (j ∈ take (more n N) (spare efs w D)) || taken efs w j) →
  (∀ b, ¬ in_bitmap efs b → w1 b = w b) → (∀ b, b ∉ index_list w' d' N → w' b = w1 b) → type_ d' = type_ d → link_num d' = link_num d →
  stretched efs w d n w' d' N D.
Proof.
  intros Ha Ho Hblank Hc Hc' Hfit HN Hbig Hsz Edata Eindex Hperm HDn Hs1 Hb1 Hf1 Hf2 Hty Hlink. set (k := more n N) in *.
  destruct (fresh_blocks efs w d n h D k Ha Ho) as [Hnd Hnb]. pose proof Ho as [O1 O2 O3 O4 O5 O6].
  assert (blocks_of w' d' N ≡ₚ blocks_of w d n ++ ((fun j => j + data_area_start_block efs) <$> take k (spare efs w D))) as Hblocks.
  { unfold blocks_of. rewrite Edata, Eindex, <-Hperm. solve_Permutation. }
  rewrite <-Hblocks in Hnd.
  assert (∀ b, b ∈ blocks_of w' d' N → ∃ j, b = j + data_area_start_block efs ∧ 0 ≤ j < D ∧ taken efs w1 j = true ∧ ¬ in_bitmap efs b) as Hall.
  { intros b Hb. rewrite Hblocks in Hb. apply elem_of_app in Hb as [Hb|Hb].
    - destruct (O5 b Hb) as (j & Ej & Hj & Ht). exists j. split_and!; [done|lia|lia|rewrite Hb1, Ht by lia; apply orb_true_r|by eapply (owns_free efs w d n D h)].
    - destruct (Hnb b Hb) as (_ & Hnot & _ & j & Ej & Hj). assert (j ∈ spare efs w D) as [_ Hr]%elem_spare by (rewrite <-(take_drop k (spare efs w D)); apply elem_of_app; by left).
      exists j. split_and!; [done|lia|lia|rewrite Hb1 by lia; by rewrite bool_decide_true|done]. }
  assert (∀ b, in_bitmap efs b → w' b = w1 b) as Hbm by (intros b Hb; apply Hf2; intros Hin; destruct (Hall b) as (_ & _ & _ & _ & ?); [apply elem_of_app; by right|done]).
  assert (∀ j, 0 ≤ j < D → taken efs w' j = taken efs w1 j) as Ht' by (intros j Hj; by eapply taken_frame).
  assert (∀ b, b ∈ data_list w' d' N → w' b = w b) as Hdata.
  { intros b Hb. apply NoDup_app in Hnd as (_ & Hdis & _). rewrite Hf2, Hf1; [done|destruct (Hall b) as (_ & _ & _ & _ & ?); [apply elem_of_app; by left|done]|by apply Hdis]. }
  rewrite Edata in Hdata. assert (∀ b, b ∈ Dn → w' b = zero_block) as HDz.
  { intros b Hb. rewrite Hdata by (apply elem_of_app; by right). assert (b ∈ (fun j => j + data_area_start_block efs) <$> take k (spare efs w D)) as Hb' by (rewrite <-Hperm; apply elem_of_app; by left).
    destruct (Hnb b Hb') as (_ & _ & _ & j & -> & Hj). apply Hblank. rewrite <-(take_drop k (spare efs w D)). apply elem_of_app. by left. }
  assert (length (data_list w d n) = n) as Hl by (pose proof (im_len _ _ _ _ (owns_maps efs w d n D h Hc Ha Ho)) as E; rewrite O2 in E; lia).
  assert (n ≤ N)%nat as HnN.
  { unfold DiskInode_data_blocks, data_blocks_of in *. pose proof (div_ceil_mono (size d) (size d') BLOCK_SZ ltac:(done) Hsz). lia. }
  assert (∀ j, 0 ≤ j < BLOCK_SZ * Z.of_nat N → file_byte w' (data_list w' d' N) j = if decide (j < BLOCK_SZ * Z.of_nat n) then file_byte w (data_list w d n) j else 0) as Hbytes.
  { intros j Hj. pose proof (file_byte_grown w w' (data_list w d n) Dn j) as Hg. rewrite length_app, Hl, HDn in Hg. rewrite Edata. apply Hg; [|done|].
    - intros b Hb. apply Hdata, elem_of_app. by left.
    - by replace (n + (N - n))%nat with N by lia. }
  pose proof (div_ceil_bounds (size d') BLOCK_SZ ltac:(done)) as [_ Hceil']. pose proof (div_ceil_bounds (size d) BLOCK_SZ ltac:(done)) as [_ Hceil].
  unfold DiskInode_data_blocks, data_blocks_of in HN, O2. rewrite HN in Hceil'. rewrite O2 in Hceil. pose proof (if_size _ O1) as Hs0.
  split; try done.
  - split; try done.
    + intros b Hb. destruct (Hall b Hb) as (j & ? & ? & ? & _). exists j. split_and!; [done|lia|lia|]. by rewrite Ht'.
    + intros j Hj. rewrite Hbytes by lia. case_decide; [|done]. apply O6. lia.
  - intros j Hj. pose proof Hj as [Hjt Hjr]%elem_spare. rewrite Hf2, Hf1.
    + apply Hblank. rewrite (spare_ext efs w1 w' D Ht'), Hs1 in Hj. rewrite <-(take_drop k (spare efs w D)). apply elem_of_app. by right.
    + pose proof (da_order _ _ _ Ha). unfold in_bitmap. lia.
    + intros Hin. destruct (Hall (j + data_area_start_block efs)) as (i & Ei & _ & Hti & _); [apply elem_of_app; by right|]. assert (i = j) as -> by lia. rewrite Ht' in Hjt by done. congruence.
  - unfold file_bytes. replace (size d') with (size d + (size d' - size d)) at 1 by lia. rewrite file_range_app by lia. f_equal.
    + apply list_fmap_ext. intros i j [-> Hi]%lookup_seqZ. rewrite Hbytes by lia. by rewrite decide_True by lia.
    + apply list_eq_same_length with (n := Z.to_nat (size d' - size d)); [by rewrite length_replicate|by rewrite file_range_length|].
      intros i x y Hi Hx Hy. rewrite file_range_lookup in Hx by lia. injection Hx as <-. apply lookup_replicate in Hy as [-> _]. rewrite Hbytes by lia. case_decide; [apply O6; lia|done].
  - by rewrite (spare_ext efs w1 w' D Ht').
  - intros j Hj Ht. rewrite Ht', Hb1, Ht by lia. apply orb_true_r.
  - intros b Hb. rewrite Hblocks in Hb. apply elem_of_app in Hb as [Hb|Hb]; [by left|right]. destruct (Hnb b Hb) as (_ & _ & _ & j & Ej & Hj). exists j. split; [done|].
    rewrite <-(take_drop k (spare efs w D)). apply elem_of_app. by left.
  - intros b Hb Hni. by rewrite Hf2, Hf1.
Qed.

Lemma grow_does efs w h d new_size n N D : contents_ok w → data_area efs h D → Z.of_nat (length h) + 1 < BLOCK_CACHE_SIZE → owns efs w d n D → blank efs w D →
  size d ≤ new_size < 2 ^ 32 → data_blocks_of new_size = Z.of_nat N → Z.of_nat N ≤ INDIRECT2_BOUND → (more n N ≤ length (spare efs w D))%nat →
  ∃ d' w', does (Inode_increase_size efs new_size d) w h d' w' ∧ size d' = new_size ∧ stretched efs w d n w' d' N D.
Proof.
  intros Hc Ha Hh Ho Hblank Hsz HN Hbig Hk. pose proof Ho as [O1 O2 O3 O4 O5 O6].
  pose proof (if_size _ O1) as Hs0. assert (n ≤ N)%nat as HnN.
  { unfold DiskInode_data_blocks, data_blocks_of in *. pose proof (div_ceil_mono (size d) new_size BLOCK_SZ ltac:(done) ltac:(lia)). lia. }
  set (k := more n N) in *. set (nb := (fun j => j + data_area_start_block efs) <$> take k (spare efs w D)).
  destruct (fresh_blocks efs w d n h D k Ha Ho) as [Hnd Hnb]. fold nb in Hnd, Hnb.
  destruct (alloc_blocks_does efs h D k w [] Hc Ha Hk) as (w1 & Hd1 & Hc1 & Hs1 & Hb1 & Hf1). rewrite app_nil_l in Hd1. fold nb in Hd1.
  assert (∀ b, b ∈ blocks_of w d n → w1 b = w b) as Hown1 by (intros b Hb; apply Hf1; by eapply owns_free).
  destruct (blocks_ext w w1 d n O3 Hc) as [Edata Eindex].
  { intros b Hb. assert (b ∈ blocks_of w d n) as Hb' by (apply elem_of_app; by right). split; [by eapply owns_free|by apply Hown1]. }
  assert (length nb = k) as Hlen by (unfold nb; rewrite length_fmap, length_take; lia).
  assert (NoDup (index_list w1 d n ++ nb)) as Hnd1.
  { rewrite Eindex. unfold blocks_of in Hnd. rewrite <-app_assoc in Hnd. by apply NoDup_app in Hnd as (_ & _ & ?). }
  destruct (increase_grown w1 h d new_size nb n N Hc1 Hh O1 ltac:(lia)) as (d' & w' & Dn & ix & Hd2 & G & Hsize & Hty & Hpad & Hlink); [|done..| |].
  { apply Forall_forall. intros b Hb. by apply Hnb. }
  { rewrite Eindex. intros b [Hb|Hb]%elem_of_app; [|by apply Hnb]. eapply owns_free; [done..|]. apply elem_of_app. by right. }
  exists d', w'. split; [|split; [done|]].
  - unfold Inode_increase_size. rewrite (proj2 (Z.ltb_ge _ _)) by lia. eapply does_bind; [apply does_lift|].
    + unfold DiskInode_blocks_num_needed. rewrite (proj2 (Z.leb_le _ _)) by lia. cbn [rassert mbind outcome_bind].
      rewrite (total_blocks_count new_size N), (total_blocks_count (size d) n) by done. apply u32_sub_run. pose proof (index_count_mono n N HnN). 
      change INDIRECT2_BOUND with 16540 in *. pose proof (index_count_le N ltac:(lia)). unfold u32_max. lia.
    + pose proof (index_count_mono n N HnN). replace (Z.to_nat (Z.of_nat (N + index_count N) - Z.of_nat (n + index_count n))) with k by (unfold k, more; lia).
      eapply does_bind; [exact Hd1|exact Hd2].
  - destruct G as [g1 g2 g3 g4 g5 g6 g7]. rewrite Edata in g3. rewrite Eindex in g4.
    apply (stretched_intro efs w h d n N D w1 w' d' Dn ix); try done; [by unfold DiskInode_data_blocks; rewrite Hsize|lia].
Qed.

(** *** Writing *)
Lemma stretched_refl efs w d n D : contents_ok w → owns efs w d n D → blank efs w D → stretched efs w d n w d n D.
Proof.
  intros Hc Ho Hb. split; try done.
  - by rewrite Z.sub_diag, app_nil_r.
  - unfold more. by rewrite !Nat.sub_diag.
  - intros b Hin. by left.
Qed.

(** [Inode::increase_size] makes a file at least as long as it is asked for. *)
Lemma reach_does efs w h d new_size n N D : contents_ok w → data_area efs h D → Z.of_nat (length h) + 1 < BLOCK_CACHE_SIZE → owns efs w d n D → blank efs w D →
  0 ≤ new_size < 2 ^ 32 → data_blocks_of (Z.max (size d) new_size) = Z.of_nat N → Z.of_nat N ≤ INDIRECT2_BOUND → (more n N ≤ length (spare efs w D))%nat →
  ∃ d' w', does (Inode_increase_size efs new_size d) w h d' w' ∧ size d' = Z.max (size d) new_size ∧ stretched efs w d n w' d' N D.
Proof.
  intros Hc Ha Hh Ho Hb Hsz HN Hbig Hk. destruct (decide (new_size < size d)) as [E|E].
  - rewrite Z.max_l in * by lia. pose proof (ow_count _ _ _ _ _ Ho) as Hn. unfold DiskInode_data_blocks in Hn. assert (n = N) as -> by lia.
    exists d, w. split_and!; [|done|by apply stretched_refl]. unfold Inode_increase_size. rewrite (proj2 (Z.ltb_lt _ _)) by done. apply does_ret.
  - rewrite Z.max_r in * by lia. apply (grow_does efs w h d new_size n N D); try done. lia.
Qed.

(** Writing in the file keeps what the inode owns. *)
Lemma write_inside efs w h d n D offset buf : contents_ok w → data_area efs h D → owns efs w d n D → blank efs w D → Forall is_byte buf →
  0 ≤ offset < size d → offset + Z.of_nat (length buf) ≤ size d →
  ∃ w', does (DiskInode_write_at d offset buf) w h (Z.of_nat (length buf)) w' ∧ contents_ok w' ∧ owns efs w' d n D ∧ blank efs w' D ∧
    data_list w' d n = data_list w d n ∧ index_list w' d n = index_list w d n ∧ spare efs w' D = spare efs w D ∧
    file_bytes w' d (data_list w' d n) = splice (Z.to_nat offset) buf (file_bytes w d (data_list w d n)) ∧
    ∀ b, b ∉ data_list w d n → w' b = w b.
Proof.
  intros Hc Ha Ho Hblank Hbuf Hoff He. pose proof (owns_maps efs w d n D h Hc Ha Ho) as Hm. pose proof Ho as [O1 O2 O3 O4 O5 O6]. pose proof (if_size _ O1) as Hs.
  destruct (write_at_run w d h (data_list w d n) offset buf Hc Hm Hbuf Hoff ltac:(unfold usize_max; lia)) as (w' & Hd & Hc' & Hf & Hb).
  rewrite Z.min_l in * by lia. rewrite Z.add_simpl_l in Hd.
  assert (∀ b, b ∈ index_list w d n → w' b = w b) as Hix by (intros b Hin; apply Hf; intros Hdat; apply NoDup_app in O4 as (_ & Hdis & _); by apply (Hdis b)).
  assert (∀ b, in_bitmap efs b → w' b = w b) as Hbm.
  { intros b Hin. apply Hf. intros Hdat. destruct (owns_free efs w d n D h b Ha Ho) as [_ ?]; [apply elem_of_app; by left|done]. }
  destruct (blocks_ext w w' d n O3 Hc) as [Ed Ei]; [intros b Hin; split; [eapply owns_free; [done..|apply elem_of_app; by right]|by apply Hix]|].
  assert (∀ j, 0 ≤ j < D → taken efs w' j = taken efs w j) as Ht by (intros j Hj; by eapply taken_frame).
  assert (length (data_list w d n) = n) as Hl by (pose proof (im_len _ _ _ _ Hm) as E; rewrite O2 in E; lia). rewrite Hl in Hb.
  exists w'. split_and!; [done|done| | |done|done|by apply spare_ext| |done].
  - split; try done.
    + unfold blocks_of. by rewrite Ed, Ei.
    + unfold blocks_of. rewrite Ed, Ei. intros b Hin. destruct (O5 b Hin) as (j & ? & ? & ?). exists j. split_and!; [done|lia|lia|]. by rewrite Ht.
    + intros j Hj. rewrite Ed, Hb by lia. rewrite decide_False by lia. by apply O6.
  - intros j Hj. rewrite (spare_ext efs w w' D Ht) in Hj. rewrite Hf; [by apply Hblank|]. intros Hin.
    destruct (O5 (j + data_area_start_block efs)) as (i & E & _ & Hti); [apply elem_of_app; by left|]. assert (i = j) as -> by lia. apply elem_spare in Hj as [Hj _]. congruence.
  - rewrite Ed, (file_bytes_splice w w' d _ offset (offset + Z.of_nat (length buf)) buf); [by rewrite Z.add_simpl_l, Nat2Z.id, firstn_all|lia..|].
    intros j Hj. apply Hb. pose proof (size_blocks w d h _ Hm) as Hsz. rewrite Hl in Hsz. lia.
Qed.

(** What an inode owns does not depend on other blocks. *)
Lemma owns_frame efs w w' h d n D : contents_ok w → data_area efs h D → owns efs w d n D → (∀ b, b ∈ blocks_of w d n → w' b = w b) →
  (∀ j, 0 ≤ j < D → j + data_area_start_block efs ∈ blocks_of w d n → taken efs w j = true → taken efs w' j = true) →
  owns efs w' d n D ∧ data_list w' d n = data_list w d n ∧ index_list w' d n = index_list w d n ∧
  file_bytes w' d (data_list w' d n) = file_bytes w d (data_list w d n).
Proof.
  intros Hc Ha Ho Hw Ht. pose proof (owns_maps efs w d n D h Hc Ha Ho) as Hm. pose proof Ho as [O1 O2 O3 O4 O5 O6]. pose proof (if_size _ O1) as Hs.
  assert (length (data_list w d n) = n) as Hl by (pose proof (im_len _ _ _ _ Hm) as E; rewrite O2 in E; lia).
  destruct (blocks_ext w w' d n O3 Hc) as [Ed Ei].
  { intros b Hin. assert (b ∈ blocks_of w d n) as Hin' by (apply elem_of_app; by right). split; [by eapply owns_free|by apply Hw]. }
  assert (∀ j, 0 ≤ j < BLOCK_SZ * Z.of_nat n → file_byte w' (data_list w' d n) j = file_byte w (data_list w d n) j) as Hb.
  { intros j Hj. rewrite Ed. unfold file_byte, BLOCK_SZ in *. pose proof (Z.div_mod j 512 ltac:(lia)). pose proof (Z.mod_pos_bound j 512 ltac:(lia)).
    rewrite Hw; [done|]. apply elem_of_app. left. apply (list_elem_of_lookup_2 _ (Z.to_nat (j / 512))), list_lookup_lookup_total_lt. lia. }
  pose proof (size_blocks w d h _ Hm) as Hsz. rewrite Hl in Hsz. split_and!; [|done|done|].
  - split; try done.
    + unfold blocks_of. by rewrite Ed, Ei.
    + unfold blocks_of. rewrite Ed, Ei. intros b Hin. destruct (O5 b Hin) as (j & -> & ? & ?). exists j. split_and!; [done|lia|lia|]. by apply Ht.
    + intros j Hj. rewrite Hb by lia. by apply O6.
  - unfold file_bytes. apply list_fmap_ext. intros i j [-> Hi]%lookup_seqZ. apply Hb. lia.
Qed.

(** Storing an inode touches neither data blocks nor the bitmap. *)
Lemma store_inode efs w w' (self : Inode) d n D : contents_ok w' → inode_place self → data_area efs [inode_block_id self] D → inode_fits d → length (w (inode_block_id self)) = 512%nat →
  contents_ok w → owns efs w' d n D → blank efs w' D →
  let w3 := set_block (inode_block_id self) (splice (Z.to_nat (inode_block_offset self)) (encode (Pod := DiskInode_pod) d) (w (inode_block_id self))) w' in
  inode_at w3 self = d ∧ contents_ok w3 ∧ owns efs w3 d n D ∧ blank efs w3 D ∧ data_list w3 d n = data_list w' d n ∧ index_list w3 d n = index_list w' d n ∧
  file_bytes w3 d (data_list w3 d n) = file_bytes w' d (data_list w' d n) ∧ spare efs w3 D = spare efs w' D ∧ (∀ j, 0 ≤ j < D → taken efs w3 j = taken efs w' j).
Proof.
  intros Hc' [Hf Hin] Ha Hfit Hl Hc Ho Hblank w3. pose proof Hf as (Hv & _). pose proof Ha as [A1 A2 A3 A4 A5 A6 A7].
  assert (contents_ok (put_block DiskInode_pod (inode_block_id self) (inode_block_offset self) d w)) as Hput by (apply put_block_ok; [done|done|by apply inode_fits_pod]).
  assert (∀ b, b ≠ inode_block_id self → w3 b = w' b) as Hne by (intros b Hb; unfold w3; by rewrite set_block_ne).
  assert (w3 (inode_block_id self) = put_block DiskInode_pod (inode_block_id self) (inode_block_offset self) d w (inode_block_id self)) as Heq
    by (unfold w3, put_block; by rewrite !set_block_eq).
  assert (∀ b, in_bitmap efs b → w3 b = w' b) as Hbm.
  { intros b Hb. apply Hne. intros ->. destruct (A2 (inode_block_id self - start_block_id (data_bitmap efs))) as (_ & Hn & _); [unfold in_bitmap in Hb; lia|]. apply Hn. rewrite Z.sub_add. left. }
  assert (∀ j, 0 ≤ j < D → taken efs w3 j = taken efs w' j) as Ht by (intros j Hj; by eapply taken_frame).
  assert (∀ j, 0 ≤ j < D → w3 (j + data_area_start_block efs) = w' (j + data_area_start_block efs)) as Hdat.
  { intros j Hj. apply Hne. intros E. destruct (A6 j Hj) as (_ & Hn & _). apply Hn. rewrite E. left. }
  destruct (owns_frame efs w' w3 [inode_block_id self] d n D Hc' Ha Ho) as (H1 & H2 & H3 & H4).
  { intros b Hb. destruct (ow_taken _ _ _ _ _ Ho b Hb) as (j & -> & Hj & _). by apply Hdat. }
  { intros j Hj _. by rewrite Ht. }
  split_and!; try done.
  - unfold inode_at, at_block. rewrite Heq. by apply (at_put_eq DiskInode_pod _ _ d w Hl Hin), inode_fits_pod.
  - intros k Hk. destruct (decide (k = inode_block_id self)) as [->|Hki]; [rewrite Heq; by apply Hput|]. rewrite Hne by done. by apply Hc'.
  - intros j Hj. rewrite (spare_ext efs w' w3 D Ht) in Hj. pose proof Hj as [_ Hjr]%elem_spare. rewrite Hdat by done. by apply Hblank.
  - by apply spare_ext.
Qed.

(** The state of the inode at a place of the disk. *)
Definition inode_owns efs w (self : Inode) n D : Prop := owns efs w (inode_at w self) n D.
Definition contents_at w (self : Inode) n : list Z := file_bytes w (inode_at w self) (data_list w (inode_at w self) n).

Lemma write_at_grows efs w (self : Inode) n N D offset buf : contents_ok w → inode_place self → data_area efs [inode_block_id self] D →
  inode_owns efs w self n D → blank efs w D → Forall is_byte buf → buf ≠ [] → 0 ≤ offset →
  data_blocks_of (Z.max (size (inode_at w self)) (offset + Z.of_nat (length buf))) = Z.of_nat N → Z.of_nat N ≤ INDIRECT2_BOUND →
  (more n N ≤ length (spare efs w D))%nat →
  ∃ w', does (Inode_write_at efs self offset buf) w [] (Z.of_nat (length buf)) w' ∧ contents_ok w' ∧
    inode_owns efs w' self N D ∧ blank efs w' D ∧ spare efs w' D = drop (more n N) (spare efs w D) ∧
    size (inode_at w' self) = Z.max (size (inode_at w self)) (offset + Z.of_nat (length buf)) ∧
    link_num (inode_at w' self) = link_num (inode_at w self) ∧ type_ (inode_at w' self) = type_ (inode_at w self) ∧
    contents_at w' self N = splice (Z.to_nat offset) buf (contents_at w self n ++ replicate (Z.to_nat (offset + Z.of_nat (length buf) - size (inode_at w self))) 0) ∧
    (∀ j, 0 ≤ j < D → taken efs w j = true → taken efs w' j = true) ∧
    (∀ b, b ∈ blocks_of w' (inode_at w' self) N → b ∈ blocks_of w (inode_at w self) n ∨ ∃ j, b = j + data_area_start_block efs ∧ j ∈ spare efs w D) ∧
    (∀ b, ¬ in_bitmap efs b → b ∉ blocks_of w' (inode_at w' self) N → b ≠ inode_block_id self → w' b = w b).
Proof.
  intros Hc Hp Ha Ho Hblank Hbuf Hne Hoff HN Hbig Hk. set (d := inode_at w self) in *. set (e := offset + Z.of_nat (length buf)) in *.
  assert (0 < length buf)%nat as Hlen by (destruct buf; [done|simpl; lia]). pose proof (if_size _ (ow_fits _ _ _ _ _ Ho)) as Hs. fold d in Hs.
  assert (e < 2 ^ 32) as Hsmall.
  { pose proof (div_ceil_bounds (Z.max (size d) e) BLOCK_SZ ltac:(done)) as [_ Hceil]. unfold data_blocks_of in HN. rewrite HN in Hceil. change INDIRECT2_BOUND with 16540 in Hbig. unfold BLOCK_SZ in Hceil. lia. }
  destruct (reach_does efs w [inode_block_id self] d e n N D Hc Ha ltac:(done) Ho Hblank ltac:(lia) HN Hbig Hk) as (d1 & w1 & Hd1 & Hsize & G).
  destruct G as [g1 g2 g3 g4 g5 g6 g7 g8 g9 g10].
  destruct (write_inside efs w1 [inode_block_id self] d1 N D offset buf g1 Ha g2 g3 Hbuf) as (w2 & Hd2 & Hc2 & Ho2 & Hb2 & Ed2 & Ei2 & Es2 & Hby2 & Hf2); [lia..|].
  destruct Hp as [Hf Hin]. pose proof Hf as (Hv & _).
  destruct (store_inode efs w w2 self d1 N D Hc2 (conj Hf Hin) Ha (ow_fits _ _ _ _ _ Ho2) ltac:(by apply Hc) Hc Ho2 Hb2) as (Ed & Hc3 & Ho3 & Hb3 & Ed3 & Ei3 & Hby3 & Es3 & Ht3).
  set (w3 := set_block (inode_block_id self) _ w2) in *. exists w3. unfold inode_owns, contents_at. fold d. rewrite Ed. split_and!; try done.
  - unfold Inode_write_at. eapply does_bind; [|eapply does_bind; [apply does_sync|apply does_ret]].
    unfold Inode_modify_disk_inode, w3. apply does_modify; [done|done|done|apply inode_fits_pod, Ho2|]. change (at_block DiskInode_pod w (inode_block_id self) (inode_block_offset self)) with d.
    eapply does_bind; [apply does_lift, checked_ok; unfold usize_max; lia|]. fold e. unfold as_u32. rewrite Z.mod_small by lia.
    eapply does_bind; [exact Hd1|]. eapply does_bind; [exact Hd2|]. apply does_ret.
  - by rewrite Es3, Es2.
  - rewrite Hby3, Hby2, g4, Hsize. do 3 f_equal. lia.
  - intros j Hj Htk. rewrite Ht3 by done. unfold taken. rewrite <-(g6 j Hj Htk). apply (taken_frame efs w1 w2 [inode_block_id self] D j Ha); [|done].
    intros b Hb. apply Hf2. intros Hdat. destruct (owns_free efs w1 d1 N D _ b Ha g2) as [_ ?]; [apply elem_of_app; by left|done].
  - unfold blocks_of. rewrite Ed3, Ei3, Ed2, Ei2. exact g7.
  - unfold blocks_of. rewrite Ed3, Ei3, Ed2, Ei2. intros b Hb [Hn1 Hn2]%not_elem_of_app Hnb. unfold w3. rewrite set_block_ne, Hf2, g8; done.
Qed.

Lemma blocks_of_length w d n : inode_fits d → contents_ok w → Z.of_nat n ≤ INDIRECT2_BOUND → (∀ b, b ∈ index_list w d n → valid b) → length (blocks_of w d n) = (n + index_count n)%nat.
Proof.
  intros Hfit Hc Hn Hv. change INDIRECT2_BOUND with 16540 in Hn. unfold blocks_of. rewrite length_app, data_list_length by first [done | apply Hfit]. f_equal. unfold index_list, index_count in *.
  destruct (decide (156 < n)%nat); case_decide; try lia; simpl; try done. rewrite length_take.
  destruct (index_block_fits w (indirect2 d) Hc) as [-> _]; [apply Hv; right; left|]. pose proof (tables_le (n - 156) ltac:(lia)). lia.
Qed.

(** *** Clearing *)
Lemma clear_gives efs w (self : Inode) n D : contents_ok w → inode_place self → data_area efs [inode_block_id self] D → inode_owns efs w self n D → blank efs w D →
  ∃ w', does (Inode_clear efs self) w [] () w' ∧ contents_ok w' ∧ inode_owns efs w' self 0 D ∧ blank efs w' D ∧ size (inode_at w' self) = 0 ∧
    link_num (inode_at w' self) = link_num (inode_at w self) ∧ type_ (inode_at w' self) = type_ (inode_at w self) ∧
    (∀ j, 0 ≤ j < D → taken efs w' j = taken efs w j && bool_decide (j + data_area_start_block efs ∉ blocks_of w (inode_at w self) n)) ∧
    (∀ b, ¬ in_bitmap efs b → b ∉ blocks_of w (inode_at w self) n → b ≠ inode_block_id self → w' b = w b).
Proof.
  intros Hc Hp Ha Ho Hblank. set (d := inode_at w self) in *. pose proof Ho as [O1 O2 O3 O4 O5 O6]. pose proof (if_size _ O1) as Hs. fold d in O1, O2, O4, O5, O6, Hs.
  pose proof O4 as (N1 & N2 & N3)%NoDup_app.
  destruct (clear_size_does w [inode_block_id self] d n Hc ltac:(done) O1 O2 O3 N3) as (d' & v & Hd & Hv & Hsz & Hty & Hpad & Hlk & Hfit').
  { intros b Hb. eapply owns_free; [done..|]. apply elem_of_app. by right. }
  change (data_list w d n ++ index_list w d n) with (blocks_of w d n) in Hv. set (js := (fun b => b - data_area_start_block efs) <$> v).
  assert (v = (fun j => j + data_area_start_block efs) <$> js) as Ev.
  { unfold js. rewrite <-list_fmap_compose. rewrite <-(list_fmap_id v) at 1. apply list_fmap_ext. intros i b _. simpl. unfold id. lia. }
  assert (∀ j, j ∈ js ↔ j + data_area_start_block efs ∈ blocks_of w d n) as Hjs.
  { intros j. rewrite <-Hv, Ev. rewrite list_elem_of_fmap. split; [intros Hj; by exists j|]. intros (i & E & Hi). by assert (i = j) as -> by lia. }
  assert (NoDup js) as Hnd by (apply (NoDup_fmap_1 (fun j => j + data_area_start_block efs)); rewrite <-Ev, Hv; done).
  assert (∀ j, j ∈ js → 0 ≤ j < D ∧ taken efs w j = true) as Hjt.
  { intros j Hj%Hjs. destruct (O5 _ Hj) as (i & E & Hi & Ht). by assert (i = j) as -> by lia. }
  destruct (dealloc_blocks_does efs [inode_block_id self] D js w Hc Ha Hnd Hjt) as (w1 & Hd1 & Hc1 & Hz1 & Hb1 & Hf1).
  assert (owns efs w1 d' 0 D) as Ho1.
  { split; try done.
    - unfold DiskInode_data_blocks. by rewrite Hsz.
    - apply NoDup_nil_2.
    - by intros b ?%elem_of_nil.
    - rewrite Hsz. simpl. intros j. lia. }
  assert (blank efs w1 D) as Hblank1.
  { intros j [Hj Hjr]%elem_spare. rewrite Hb1 in Hj by done. destruct (decide (j ∈ js)) as [Hin|Hin]; [by apply Hz1|].
    rewrite Hf1; [apply Hblank, elem_spare; split; [|done]; by rewrite bool_decide_true in Hj|pose proof (da_order _ _ _ Ha); unfold in_bitmap; lia|].
    intros i Hi E. by assert (i = j) as -> by lia. }
  destruct (store_inode efs w w1 self d' 0 D Hc1 Hp Ha Hfit' ltac:(apply Hc, Hp) Hc Ho1 Hblank1) as (Ed & Hc3 & Ho3 & Hb3 & _ & _ & _ & _ & Ht3).
  set (w3 := set_block (inode_block_id self) _ w1) in *. exists w3. unfold inode_owns. fold d. rewrite Ed. split_and!; try done.
  - unfold Inode_clear. eapply does_bind; [|apply does_sync].
    unfold Inode_modify_disk_inode, w3. apply does_modify; [done|apply Hp|apply Hp|by apply inode_fits_pod|].
    change (at_block DiskInode_pod w (inode_block_id self) (inode_block_offset self)) with d.
    eapply does_bind; [exact Hd|]. cbn beta iota. eapply does_bind; [apply does_lift|].
    + rewrite (total_blocks_count (size d) n O2 O3). assert (length v = n + index_count n)%nat as ->; [|by rewrite Z.eqb_refl].
      rewrite Hv. apply blocks_of_length; [done|done|done|]. intros b Hb.
      destruct (owns_free efs w d n D [inode_block_id self] b Ha Ho) as [[Hvb _] _]; [apply elem_of_app; by right|exact Hvb].
    + rewrite Ev. eapply does_bind; [exact Hd1|]. apply does_ret.
  - intros j Hj. rewrite Ht3, Hb1, andb_comm by done. f_equal. apply bool_decide_ext. by rewrite Hjs.
  - intros b Hb Hnb Hne. unfold w3. rewrite set_block_ne, Hf1; [done|done| |done]. intros j Hj ->. by apply Hnb, Hjs.
Qed.
End FileSpace.

(** ** Theorems *)

(** C35: writing to a file, at its end or past it.  As long as there are spare blocks enough, a write of bytes anywhere up to the
    largest size succeeds: the file is as long as the write needs, holds the bytes where they were written, what it held before
    elsewhere, and zeros in a gap; it has taken the first spare blocks and no more, and whatever owns other blocks keeps
    them and its bytes. *)
Theorem write_extends {S} `{!BlockStore S, !BlockStoreSpec S} efs (w : Z → list Z) (self : Inode) (n N : nat) D offset buf :
  contents_ok w → inode_place self → data_area efs [inode_block_id self] D →
  inode_owns efs w self n D → blank efs w D → Forall is_byte buf → buf ≠ [] → 0 ≤ offset →
  data_blocks_of (Z.max (size (inode_at w self)) (offset + Z.of_nat (length buf))) = Z.of_nat N → Z.of_nat N ≤ INDIRECT2_BOUND →
  (more n N ≤ length (spare efs w D))%nat →
  ∃ w', does (Inode_write_at efs self offset buf) w [] (Z.of_nat (length buf)) w' ∧ contents_ok w' ∧
    inode_owns efs w' self N D ∧ blank efs w' D ∧ spare efs w' D = drop (more n N) (spare efs w D) ∧
    size (inode_at w' self) = Z.max (size (inode_at w self)) (offset + Z.of_nat (length buf)) ∧
    contents_at w' self N = splice (Z.to_nat offset) buf (contents_at w self n ++ replicate (Z.to_nat (offset + Z.of_nat (length buf) - size (inode_at w self))) 0) ∧
    ∀ d2 n2, owns efs w d2 n2 D → (∀ b, b ∈ blocks_of w d2 n2 → b ∉ blocks_of w (inode_at w self) n) →
      owns efs w' d2 n2 D ∧ (∀ b, b ∈ blocks_of w' d2 n2 → b ∉ blocks_of w' (inode_at w' self) N) ∧
      file_bytes w' d2 (data_list w' d2 n2) = file_bytes w d2 (data_list w d2 n2).
Proof.
  intros Hc Hp Ha Ho Hblank Hbuf Hne Hoff HN Hbig Hk.
  destruct (write_at_grows efs w self n N D offset buf Hc Hp Ha Ho Hblank Hbuf Hne Hoff HN Hbig Hk) as (w' & Hd & Hc' & Ho' & Hb' & Hs & Hsz & _ & _ & Hby & Ht & Hnew & Hf).
  exists w'. split_and!; try done. intros d2 n2 Ho2 Hdis.
  assert (∀ b, b ∈ blocks_of w d2 n2 → b ∉ blocks_of w' (inode_at w' self) N) as Hdis'.
  { intros b Hb Hin. destruct (Hnew b Hin) as [Hold|(j & -> & Hj)]; [by apply (Hdis b)|].
    destruct (ow_taken _ _ _ _ _ Ho2 _ Hb) as (i & E & _ & Hi). assert (i = j) as -> by lia. apply elem_spare in Hj as [Hj _]. congruence. }
  destruct (owns_frame efs w w' [inode_block_id self] d2 n2 D Hc Ha Ho2) as (H1 & H2 & H3 & H4); [|by intros j Hj _; apply Ht|].
  - intros b Hb. destruct (owns_free efs w d2 n2 D _ b Ha Ho2 Hb) as [(_ & Hne2 & _) Hnb]. apply Hf; [done|by apply Hdis'|]. intros ->. apply Hne2. left.
  - split_and!; [done| |done]. unfold blocks_of at 1. rewrite H2, H3. exact Hdis'.
Qed.

(** C36: clearing a file.  [clear] gives back the blocks of the file, data and index blocks alike, each once, filled with zeros; the
    file is empty and can grow again; all other taken blocks stay taken, and whatever owns them keeps its bytes. *)
Theorem clear_gives_back {S} `{!BlockStore S, !BlockStoreSpec S} efs (w : Z → list Z) (self : Inode) (n : nat) D :
  contents_ok w → inode_place self → data_area efs [inode_block_id self] D → inode_owns efs w self n D → blank efs w D →
  ∃ w', does (Inode_clear efs self) w [] () w' ∧ contents_ok w' ∧ inode_owns efs w' self 0 D ∧ blank efs w' D ∧ size (inode_at w' self) = 0 ∧
    (∀ j, j ∈ spare efs w' D ↔ j ∈ spare efs w D ∨ j + data_area_start_block efs ∈ blocks_of w (inode_at w self) n) ∧
    length (spare efs w' D) = (length (spare efs w D) + (n + index_count n))%nat ∧
    ∀ d2 n2, owns efs w d2 n2 D → (∀ b, b ∈ blocks_of w d2 n2 → b ∉ blocks_of w (inode_at w self) n) →
      owns efs w' d2 n2 D ∧ file_bytes w' d2 (data_list w' d2 n2) = file_bytes w d2 (data_list w d2 n2).
Proof.
  intros Hc Hp Ha Ho Hblank. destruct (clear_gives efs w self n D Hc Hp Ha Ho Hblank) as (w' & Hd & Hc' & Ho' & Hb' & Hsz & _ & _ & Ht & Hf).
  assert (∀ j, j ∈ spare efs w' D ↔ j ∈ spare efs w D ∨ j + data_area_start_block efs ∈ blocks_of w (inode_at w self) n) as Hspare.
  { intros j. rewrite !elem_spare. split.
    - intros [Hj Hr]. rewrite Ht in Hj by done. destruct (taken efs w j); [right|by left]. simpl in Hj. by apply bool_decide_eq_false, dec_stable in Hj.
    - intros [[Hj Hr]|Hb]; [by rewrite Ht, Hj by done|]. destruct (ow_taken _ _ _ _ _ Ho _ Hb) as (i & E & Hi & Hti). assert (i = j) as -> by lia.
      rewrite Ht by done. rewrite bool_decide_false by tauto. by rewrite andb_false_r. }
  exists w'. split_and!; try done.
  - set (js := (fun b => b - data_area_start_block efs) <$> blocks_of w (inode_at w self) n). assert (spare efs w' D ≡ₚ spare efs w D ++ js) as ->.
    + apply NoDup_Permutation; [apply NoDup_spare| |].
      * apply NoDup_app. split_and!; [apply NoDup_spare| |apply NoDup_fmap_2; [intros x y; lia|apply Ho]].
        intros j [Hj _]%elem_spare (b & -> & Hb)%list_elem_of_fmap. destruct (ow_taken _ _ _ _ _ Ho _ Hb) as (i & -> & _ & Hi). rewrite Z.add_simpl_r in Hj. congruence.
      * intros j. rewrite Hspare, elem_of_app. apply or_iff_compat_l. unfold js. rewrite list_elem_of_fmap. split; [intros Hb; eexists; split; [|exact Hb]; lia|].
        intros (b & -> & Hb). by rewrite Z.sub_add.
    + rewrite length_app. f_equal. unfold js. rewrite length_fmap. apply blocks_of_length; [apply Ho|done|apply Ho|].
      intros b Hb. destruct (owns_free efs w (inode_at w self) n D [inode_block_id self] b Ha Ho) as [[Hvb _] _]; [apply elem_of_app; by right|exact Hvb].
  - intros d2 n2 Ho2 Hdis. destruct (owns_frame efs w w' [inode_block_id self] d2 n2 D Hc Ha Ho2) as (H1 & _ & _ & H4); [| |done].
    + intros b Hb. destruct (owns_free efs w d2 n2 D _ b Ha Ho2 Hb) as [(_ & Hne2 & _) Hnb]. apply Hf; [done|by apply Hdis|]. intros ->. apply Hne2. left.
    + intros j Hj Hin Hjt. rewrite Ht, Hjt by done. by apply bool_decide_eq_true, Hdis.
Qed.

(** A file of 600 zeros in blocks 6 and 7; three bytes are written at 1500, and then the file is cleared. *)
Definition demo_file : Z → list Z := fun k =>
  if k =? 2 then encode (Pod := DiskInode_pod) (mkDiskInode 600 ([6; 7] ++ replicate 26 0) 0 0 0 0 1) ++ replicate 380 0
  else if k =? 5 then 3 :: replicate 511 0 else zero_block.
Lemma demo_file_at : inode_at demo_file demo_root = mkDiskInode 600 ([6; 7] ++ replicate 26 0) 0 0 0 0 1.
Proof. by vm_compute. Qed.
Lemma demo_file_ok : contents_ok (BlockStoreSpec0 := demo_spec) demo_file.
Proof.
  intros k _. unfold demo_file. destruct (k =? 2); [|destruct (k =? 5)].
  - split; [by vm_compute|]. apply Forall_app. split; [apply words_encode_bytes|apply Forall_replicate; unfold is_byte; lia].
  - split; [by vm_compute|]. constructor; [unfold is_byte; lia|]. apply Forall_replicate. unfold is_byte. lia.
  - apply zero_block_ok.
Qed.
Lemma demo_area : data_area (BlockStoreSpec0 := demo_spec) demo_efs [2] 10.
Proof.
  assert (∀ k, 3 ≤ k < 16 → free_block (BlockStoreSpec0 := demo_spec) k [2]) as Hf.
  { intros k Hk. split_and!; [simpl; lia|intros ->%list_elem_of_singleton; lia|done]. }
  split; try done.
  - intros b Hb. apply Hf. simpl in *. lia.
  - intros j Hj. apply Hf. simpl in *. lia.
Qed.
Lemma demo_owns : inode_owns demo_efs demo_file demo_root 2 10.
Proof.
  unfold inode_owns. rewrite demo_file_at. assert (blocks_of demo_file (mkDiskInode 600 ([6; 7] ++ replicate 26 0) 0 0 0 0 1) 2 = [6; 7]) as Eb by done. split; try done.
  - split; simpl; try lia. repeat (apply Forall_cons; split; [lia|]). done.
  - rewrite Eb. repeat constructor; set_solver.
  - rewrite Eb. intros b Hb. rewrite !elem_of_cons, elem_of_nil in Hb. destruct Hb as [->|[->|[]]]; [exists 0|exists 1]; by vm_compute.
  - intros j Hj. change (data_list _ _ _) with [6; 7]. unfold file_byte, BLOCK_SZ in *. simpl in Hj. pose proof (Z.div_mod j 512 ltac:(lia)). pose proof (Z.mod_pos_bound j 512 ltac:(lia)).
    assert (j / 512 = 1) as -> by lia. change (demo_file ([6; 7] !!! Z.to_nat 1)) with zero_block. unfold zero_block. apply list_lookup_total_correct, lookup_replicate. split; [done|lia].
Qed.
Lemma demo_spare : spare demo_efs demo_file 10 = [2; 3; 4; 5; 6; 7; 8; 9].
Proof. by vm_compute. Qed.
Lemma demo_blank : blank demo_efs demo_file 10.
Proof.
  intros j. rewrite demo_spare. intros Hj. assert (2 ≤ j ≤ 9) as Hr by (rewrite !elem_of_cons, elem_of_nil in Hj; lia).
  unfold demo_file. rewrite !(proj2 (Z.eqb_neq _ _)) by (simpl; lia). done.
Qed.

Lemma write_extends_witness : ∃ w', does (BlockStoreSpec0 := demo_spec) (Inode_write_at demo_efs demo_root 1500 [1; 2; 3]) demo_file [] 3 w' ∧
  size (inode_at w' demo_root) = 1503 ∧ spare demo_efs w' 10 = [3; 4; 5; 6; 7; 8; 9] ∧
  contents_at w' demo_root 3 = replicate 1500 0 ++ [1; 2; 3].
Proof.
  destruct (write_extends (BlockStoreSpec0 := demo_spec) demo_efs demo_file demo_root 2 3 10 1500 [1; 2; 3]) as (w' & Hd & _ & _ & _ & Hs & Hsz & Hby & _).
  - apply demo_file_ok.
  - split; [by apply demo_free|by vm_compute].
  - apply demo_area.
  - apply demo_owns.
  - apply demo_blank.
  - repeat constructor; unfold is_byte; lia.
  - done.
  - lia.
  - by rewrite demo_file_at.
  - by vm_compute.
  - rewrite demo_spare. by vm_compute; lia.
  - exists w'. split; [exact Hd|]. split; [by rewrite Hsz, demo_file_at|]. split; [by rewrite Hs, demo_spare|]. rewrite Hby. unfold contents_at. rewrite demo_file_at. by vm_compute.
Defined.

Lemma clear_gives_back_witness : ∃ w', does (BlockStoreSpec0 := demo_spec) (Inode_clear demo_efs demo_root) demo_file [] () w' ∧
  size (inode_at w' demo_root) = 0 ∧ length (spare demo_efs w' 10) = 10%nat.
Proof.
  destruct (clear_gives_back (BlockStoreSpec0 := demo_spec) demo_efs demo_file demo_root 2 10) as (w' & Hd & _ & _ & _ & Hsz & _ & Hl & _).
  - apply demo_file_ok.
  - split; [by apply demo_free|by vm_compute].
  - apply demo_area.
  - apply demo_owns.
  - apply demo_blank.
  - exists w'. split; [exact Hd|]. split; [exact Hsz|]. by rewrite Hl, demo_spare.
Defined.
