(* ===== verification/Sbi.v ===== *)
(** * The machine mode of [-bios none], and the first chapter

    Models [tg-rcore-tutorial-sbi/src/{lib,msbi}.rs] with the feature [nobios] and [tg-rcore-tutorial-ch1/src/main.rs]: a call
    of the supervisor traps into the handler, which serves it on the devices of the machine. *)

From S2P Require Import Prelude.

Module Sbi.

(** ** The machine

    The serial port: what each look at the status register finds received, for how many looks the transmitter is still
    busy, how long it is after each byte, and the bytes that were sent. *)
Record uart := mkUart { rx : list (option Z); tx_busy : nat; tx_delay : nat; sent : list Z }.
Record machine := mkMachine { port : uart; mtimecmp : Z; mip : Z; mcause : Z }.

Definition set_port (u : uart) (m : machine) : machine := mkMachine u (mtimecmp m) (mip m) (mcause m).

(** *** [mod uart] *)
Definition is_tx_ready : st machine bool := fun m =>
  let u := port m in
  Done (bool_decide (tx_busy u = 0%nat), set_port (mkUart (rx u) (Nat.pred (tx_busy u)) (tx_delay u) (sent u)) m).
Definition write_thr (c : Z) : st machine unit := fun m =>
  let u := port m in Done ((), set_port (mkUart (rx u) (tx_delay u) (tx_delay u) (sent u ++ [c])) m).
Fixpoint putchar (fuel : nat) (c : Z) : st machine unit :=
  match fuel with
  | O => lift Hang
  | S fuel =>
      ready ← is_tx_ready;
      if ready : bool then write_thr c else putchar fuel c
  end.
Definition uart_getchar : st machine (option Z) := fun m =>
  let u := port m in
  match rx u with
  | [] => Done (None, m)
  | c :: l => Done (c, set_port (mkUart l (tx_busy u) (tx_delay u) (sent u)) m)
  end.

(** *** Extensions and functions *)
Definition CONSOLE_PUTCHAR : Z := 0x01.
Definition CONSOLE_GETCHAR : Z := 0x02.
Definition SHUTDOWN : Z := 0x08.
Definition BASE : Z := 0x10.
Definition SRST : Z := 0x53525354.
Definition TIMER : Z := 0x54494D45.
Definition SRST_SHUTDOWN : Z := 0.

Record SbiRet := mkRet { error : Z; value : Z }.
Definition ERR_NOT_SUPPORTED : Z := -2.
Definition success (value : Z) : SbiRet := mkRet 0 value.
Definition not_supported : SbiRet := mkRet ERR_NOT_SUPPORTED 0.

(** A handler answers, or the machine ends with a code. *)
Inductive reply (A : Type) := Answer (a : A) | Ends (code : Z).
Arguments Answer {A} a.
Arguments Ends {A} code.

(** ** The handlers *)
Section Handlers.
Variable fuel : nat.

Definition handle_console_putchar (c : Z) : st machine (reply SbiRet) :=
  putchar fuel (as_u8 c);;
  mret (Answer (success 0)).

Fixpoint getchar_loop (fuel : nat) : st machine SbiRet :=
  match fuel with
  | O => lift Hang
  | S fuel =>
      c ← uart_getchar;
      match c with
      | Some c => mret (success c)
      | None => getchar_loop fuel
      end
  end.
Definition handle_console_getchar : st machine (reply SbiRet) :=
  r ← getchar_loop fuel;
  mret (Answer r).

(** Bit 5 of [mip] is STIP.  [mip] here is the part of the register that software writes: MTIP (bit 7) follows the timer
    and the comparator all by itself, and is not in the model. *)
Definition handle_timer (time : Z) : st machine (reply SbiRet) := fun m =>
  Done (Answer (success 0), mkMachine (port m) time (Z.ldiff (mip m) (Z.shiftl 1 5)) (mcause m)).

Definition EXIT_SUCCESS : Z := 0x5555.
Definition EXIT_RESET : Z := 0x3333.
Definition handle_system_reset (fid : Z) : st machine (reply SbiRet) :=
  mret (Ends (if fid =? SRST_SHUTDOWN then EXIT_SUCCESS else EXIT_RESET)).

Definition handle_base (fid : Z) : SbiRet :=
  if fid =? 0 then success 0x01000000
  else if fid =? 1 then success 0xFFFF
  else if fid =? 2 then success 1
  else if fid =? 3 then success 1
  else if (fid =? 4) || (fid =? 5) || (fid =? 6) then success 0
  else not_supported.

Definition m_trap_handler (a0 fid eid : Z) : st machine (reply SbiRet) :=
  m ← get_st;
  if negb (mcause m =? 9) then mret (Answer not_supported)
  else if eid =? CONSOLE_PUTCHAR then handle_console_putchar a0
  else if eid =? CONSOLE_GETCHAR then handle_console_getchar
  else if eid =? TIMER then handle_timer a0
  else if eid =? SHUTDOWN then handle_system_reset SRST_SHUTDOWN
  else if eid =? BASE then mret (Answer (handle_base fid))
  else if eid =? SRST then handle_system_reset fid
  else mret (Answer not_supported).

(** ** The calls

    An [ecall] of the supervisor traps with cause 9; the entry in assembly passes the registers and keeps a0 and a1 of
    the answer. *)
Definition ecall (a0 fid eid : Z) : st machine (reply SbiRet) := fun m =>
  m_trap_handler a0 fid eid (mkMachine (port m) (mtimecmp m) (mip m) 9).
Definition sbi_call (eid fid arg0 : Z) : st machine (reply Z) :=
  r ← ecall arg0 fid eid;
  match r with
  | Answer r => if error r <? 0 then lift Panic else mret (Answer (value r))
  | Ends code => mret (Ends code)
  end.
(** What follows a call. *)
Definition and_then {A B} (f : st machine (reply A)) (g : A → st machine (reply B)) : st machine (reply B) :=
  r ← f;
  match r with
  | Answer a => g a
  | Ends code => mret (Ends code)
  end.

Definition set_timer (timer : Z) : st machine (reply unit) := and_then (sbi_call TIMER 0 timer) (fun _ => mret (Answer ())).
Definition console_putchar (c : Z) : st machine (reply unit) := and_then (sbi_call CONSOLE_PUTCHAR 0 c) (fun _ => mret (Answer ())).
Definition console_getchar : st machine (reply Z) := sbi_call CONSOLE_GETCHAR 0 0.
(** [!]: there is no value to return. *)
Definition shutdown (failure : bool) : st machine (reply Empty_set) :=
  and_then (sbi_call SRST 0 (if failure then 1 else 0)) (fun _ => lift Panic).

(** ** The first chapter *)
Definition HELLO : list Z := [72; 101; 108; 108; 111; 44; 32; 119; 111; 114; 108; 100; 33; 10].
Fixpoint print_bytes (l : list Z) : st machine (reply unit) :=
  match l with
  | [] => mret (Answer ())
  | c :: l => and_then (console_putchar c) (fun _ => print_bytes l)
  end.
Definition rust_main : st machine (reply Empty_set) := and_then (print_bytes HELLO) (fun _ => shutdown false).
Definition panic_handler : st machine (reply Empty_set) := shutdown true.
End Handlers.

(** ** What the calls do *)

(** After [c] was sent. *)
Definition with_sent (l : list Z) (m : machine) : machine :=
  mkMachine (mkUart (rx (port m)) (if bool_decide (l = []) then tx_busy (port m) else tx_delay (port m)) (tx_delay (port m)) (sent (port m) ++ l)) (mtimecmp m) (mip m) 9.

Lemma putchar_run c fuel : ∀ m, (tx_busy (port m) < fuel)%nat →
  putchar fuel c m = Done ((), mkMachine (mkUart (rx (port m)) (tx_delay (port m)) (tx_delay (port m)) (sent (port m) ++ [c])) (mtimecmp m) (mip m) (mcause m)).
Proof.
  induction fuel as [|fuel IH]; intros m Hm; [lia|]. simpl. unfold mbind, st_bind, is_tx_ready. case_bool_decide as E; [done|].
  rewrite IH; [done|]. simpl. lia.
Qed.

(** The transmitter is never busy for longer than [fuel] looks. *)
Definition tx_ok (fuel : nat) (m : machine) : Prop := (tx_busy (port m) < fuel)%nat ∧ (tx_delay (port m) < fuel)%nat.

Lemma console_putchar_run fuel c m : tx_ok fuel m → 0 ≤ c < 256 → console_putchar fuel c m = Done (Answer (), with_sent [c] m).
Proof.
  intros [Hb _] Hc. unfold console_putchar, and_then, sbi_call, ecall, m_trap_handler, mbind, st_bind, get_st. simpl.
  unfold handle_console_putchar, mbind, st_bind. rewrite putchar_run by done. simpl. unfold as_u8. by rewrite Z.mod_small by lia.
Qed.

Lemma with_sent_ok fuel c m : tx_ok fuel m → tx_ok fuel (with_sent [c] m).
Proof. by intros [_ Hd]. Qed.

Lemma print_bytes_run fuel l : ∀ m, tx_ok fuel m → Forall (fun c => 0 ≤ c < 256) l → (l = [] → mcause m = 9) → print_bytes fuel l m = Done (Answer (), with_sent l m).
Proof.
  induction l as [|c l IH]; intros m Hm Hl Hc; simpl.
  - unfold with_sent. simpl. rewrite app_nil_r. destruct m as [[] ? ? ?]. simpl in *. by rewrite Hc.
  - apply Forall_cons in Hl as [Hc0 Hl]. unfold and_then at 1. rewrite (st_bind_run _ _ _ _ _ (console_putchar_run fuel c m Hm Hc0)).
    rewrite IH; [|by apply with_sent_ok|done|done]. unfold with_sent. simpl. rewrite <-app_assoc. simpl. by case_bool_decide.
Qed.

Lemma getchar_run c l n fuel : (n < fuel)%nat → ∀ m, rx (port m) = replicate n None ++ Some c :: l →
  getchar_loop fuel m = Done (success c, set_port (mkUart l (tx_busy (port m)) (tx_delay (port m)) (sent (port m))) m).
Proof.
  revert fuel. induction n as [|n IH]; intros fuel Hf m Hm; (destruct fuel as [|fuel]; [lia|]); simpl; unfold mbind, st_bind, uart_getchar; rewrite Hm; simpl; [done|].
  rewrite IH; [done|lia|done].
Qed.

(** As long as nothing arrives, the call waits. *)
Lemma getchar_waits fuel : ∀ m, Forall (fun c => c = None) (rx (port m)) → getchar_loop fuel m = Hang.
Proof.
  induction fuel as [|fuel IH]; intros m Hm; [done|]. simpl. unfold mbind, st_bind, uart_getchar. destruct (rx (port m)) as [|c l] eqn:E.
  - apply IH. by rewrite E.
  - apply Forall_cons in Hm as [-> Hl]. by apply IH.
Qed.

(** C40: every call of the supervisor, on devices that answer within [fuel] looks.  A character is sent once the transmitter is
    ready, and the next received one is waited for; a timer call sets the comparator and clears STIP and no other bit of
    [mip] (MTIP, which the hardware derives from the comparator, is not part of it); an extension that is not there panics the kernel. *)
Theorem sbi_calls fuel m : tx_ok fuel m →
  (∀ c, 0 ≤ c < 256 → console_putchar fuel c m = Done (Answer (), with_sent [c] m)) ∧
  (∀ n c l, (n < fuel)%nat → rx (port m) = replicate n None ++ Some c :: l →
     ∃ m', console_getchar fuel m = Done (Answer c, m') ∧ rx (port m') = l ∧ sent (port m') = sent (port m)) ∧
  (Forall (fun c => c = None) (rx (port m)) → console_getchar fuel m = Hang) ∧
  (∀ t, ∃ m', set_timer fuel t m = Done (Answer (), m') ∧ mtimecmp m' = t ∧ port m' = port m ∧
     ∀ i, 0 ≤ i → Z.testbit (mip m') i = Z.testbit (mip m) i && negb (i =? 5)) ∧
  (∀ eid fid a, eid ∉ [CONSOLE_PUTCHAR; CONSOLE_GETCHAR; TIMER; SHUTDOWN; BASE; SRST] → sbi_call fuel eid fid a m = Panic).
Proof.
  intros Hm. split_and!.
  - intros c Hc. by apply console_putchar_run.
  - intros n c l Hn Hrx. unfold console_getchar, sbi_call, ecall, m_trap_handler, mbind, st_bind, get_st. simpl.
    unfold handle_console_getchar, mbind, st_bind. rewrite (getchar_run c l n fuel Hn) by done. simpl. eexists. split; [done|done].
  - intros Hrx. unfold console_getchar, sbi_call, ecall, m_trap_handler, mbind, st_bind, get_st. simpl.
    unfold handle_console_getchar, mbind, st_bind. by rewrite getchar_waits.
  - intros t. eexists. split; [reflexivity|]. split; [done|split; [done|]]. intros i Hi. simpl. rewrite Z.ldiff_spec. f_equal. f_equal.
    change 32 with (Z.shiftl 1 5). rewrite Z.shiftl_spec by done. destruct (Z.eqb_spec i 5) as [->|]; [done|].
    destruct (decide (i < 5)); [by rewrite Z.testbit_neg_r by lia|]. change 1 with (2 ^ 0). apply Z.pow2_bits_false. lia.
  - intros eid fid a Hn. unfold sbi_call, ecall, m_trap_handler, mbind, st_bind, get_st. simpl.
    repeat match goal with |- context [eid =? ?x] => destruct (Z.eqb_spec eid x) as [->|]; [exfalso; apply Hn; set_solver|] end. done.
Qed.

Definition demo_machine : machine := mkMachine (mkUart [None; Some 65] 2 3 []) 0 48 0.
Lemma sbi_calls_witness : console_putchar 8 72 demo_machine = Done (Answer (), with_sent [72] demo_machine) ∧
  (∃ m', console_getchar 8 demo_machine = Done (Answer 65, m') ∧ rx (port m') = [] ∧ sent (port m') = []) ∧
  ∃ m', set_timer 8 100 demo_machine = Done (Answer (), m') ∧ mtimecmp m' = 100.
Proof.
  destruct (sbi_calls 8 demo_machine) as (H1 & H2 & _ & H3 & _); [split; simpl; lia|]. split_and!.
  - apply H1. lia.
  - apply (H2 1%nat 65 []); [lia|reflexivity].
  - destruct (H3 100) as (m' & Hr & Ht & _). by exists m'.
Defined.

(** The first chapter says hello and ends the machine.  It ends with the code of success, and so does a panic: the argument
    of [shutdown] is passed as a reason, and the handler looks at the number of the function only, which is 0 for both. *)
Theorem hello_world fuel m : tx_ok fuel m →
  rust_main fuel m = Done (Ends EXIT_SUCCESS, with_sent HELLO m) ∧
  ∀ failure, ∃ m', shutdown fuel failure m = Done (Ends EXIT_SUCCESS, m') ∧ port m' = port m.
Proof.
  intros Hm. split; [|intros failure; by eexists]. unfold rust_main, and_then at 1.
  rewrite (st_bind_run _ _ _ _ _ (print_bytes_run fuel HELLO m Hm ltac:(repeat constructor; lia) ltac:(done))). done.
Qed.

Lemma hello_world_witness : ∃ m', rust_main 8 demo_machine = Done (Ends EXIT_SUCCESS, m') ∧ sent (port m') = HELLO ∧
  ∃ m2, panic_handler 8 demo_machine = Done (Ends EXIT_SUCCESS, m2).
Proof.
  destruct (hello_world 8 demo_machine) as [H1 H2]; [split; simpl; lia|]. exists (with_sent HELLO demo_machine).
  split; [exact H1|split; [reflexivity|]]. destruct (H2 true) as (m2 & Hr & _). by exists m2.
Defined.
End Sbi.
