(* ===== verification/Checker.v ===== *)
(** * The checker of test output

    Models [tg-rcore-tutorial-checker/src/{checker,main,cases/*}.rs], the host tool that decides whether the output of a
    chapter passes: the tables of patterns, the verdict and the exit code.  Regular expressions and colours are those of the
    [regex] and [colored] crates, which are parameters. *)

From Stdlib Require Import Ascii String.
From stdpp Require Import strings pretty.
From S2P Require Import Prelude.

Module Checker.
#[local] Open Scope string_scope.
#[local] Open Scope Z_scope.

(** ** The tables of [cases] *)
Record TestCase := mkTestCase { expected : list string; not_expected : list string }.
Definition ch2_base : TestCase := mkTestCase
    ["Hello, world from user mode program!";
     "Test power_3 OK!";
     "Test power_5 OK!";
     "Test power_7 OK!"]
    ["FAIL: T.T"].
Definition ch3_base : TestCase := mkTestCase
    ["Test write A OK!";
     "Test write B OK!";
     "Test write C OK!"]
    ["FAIL: T.T"].
Definition ch3_exercise : TestCase := mkTestCase
    ["get_time OK! (\d+)";
     "Test sleep OK!";
     "current time_msec = (\d+)";
     "time_msec = (\d+) after sleeping (\d+) ticks, delta = (\d+)ms!";
     "Test sleep1 passed!";
     "string from task trace test";
     "Test trace OK!"]
    [].
Definition ch4_base : TestCase := mkTestCase
    ["Test write A OK!";
     "Test write B OK!";
     "Test write C OK!";
     "Test sbrk almost OK!"]
    ["FAIL: T.T";
     "Test sbrk failed!"].
Definition ch4_exercise : TestCase := mkTestCase
    ["get_time OK! (\d+)";
     "Test sleep OK!";
     "current time_msec = (\d+)";
     "time_msec = (\d+) after sleeping (\d+) ticks, delta = (\d+)ms!";
     "Test sleep1 passed!";
     "string from task trace test";
     "Test trace OK!";
     "Test 04_1 OK!";
     "Test 04_4 test OK!";
     "Test 04_5 ummap OK!";
     "Test 04_6 ummap2 OK!";
     "Test trace_1 OK!"]
    ["FAIL: T.T";
     "Test sbrk failed!";
     "Should cause error, Test 04_2 fail!";
     "Should cause error, Test 04_3 fail!"].
Definition ch5_base : TestCase := mkTestCase
    ["Hello, world from user mode program!";
     "Test power_3 OK!";
     "Test power_5 OK!";
     "Test power_7 OK!";
     "Test write A OK!";
     "Test write B OK!";
     "Test write C OK!";
     "Test sbrk almost OK!";
     "exit pass.";
     "hello child process!";
     "child process pid = (\d+), exit code = (\d+)";
     "forktest pass."]
    ["FAIL: T.T";
     "Test sbrk failed!"].
Definition ch5_exercise : TestCase := mkTestCase
    ["get_time OK! (\d+)";
     "Test sleep OK!";
     "current time_msec = (\d+)";
     "time_msec = (\d+) after sleeping (\d+) ticks, delta = (\d+)ms!";
     "Test sleep1 passed!";
     "Test 04_1 OK!";
     "Test 04_4 test OK!";
     "Test 04_5 ummap OK!";
     "Test 04_6 ummap2 OK!";
     "Test spawn0 OK!";
     "Test wait OK!";
     "Test waitpid OK!";
     "Test set_priority OK!"]
    ["FAIL: T.T";
     "Test sbrk failed!";
     "Should cause error, Test 04_2 fail!";
     "Should cause error, Test 04_3 fail!"].
Definition ch6_base : TestCase := mkTestCase
    ["Hello, world from user mode program!";
     "Test power_3 OK!";
     "Test power_5 OK!";
     "Test power_7 OK!";
     "Test write A OK!";
     "Test write B OK!";
     "Test write C OK!";
     "Test sbrk almost OK!";
     "exit pass.";
     "hello child process!";
     "child process pid = (\d+), exit code = (\d+)";
     "forktest pass.";
     "file_test passed!"]
    ["FAIL: T.T";
     "Test sbrk failed!"].
Definition ch6_exercise : TestCase := mkTestCase
    ["get_time OK! (\d+)";
     "Test sleep OK!";
     "current time_msec = (\d+)";
     "time_msec = (\d+) after sleeping (\d+) ticks, delta = (\d+)ms!";
     "Test sleep1 passed!";
     "Test 04_1 OK!";
     "Test 04_4 test OK!";
     "Test 04_5 ummap OK!";
     "Test 04_6 ummap2 OK!";
     "Test spawn0 OK!";
     "Test wait OK!";
     "Test waitpid OK!";
     "Hello, world from user mode program!";
     "Test power_3 OK!";
     "Test power_5 OK!";
     "Test power_7 OK!";
     "Test write A OK!";
     "Test write B OK!";
     "Test write C OK!";
     "Test sbrk almost OK!";
     "exit pass.";
     "hello child process!";
     "child process pid = (\d+), exit code = (\d+)";
     "forktest pass.";
     "file_test passed!";
     "Test file0 OK!";
     "Test fstat OK!";
     "Test link OK!";
     "Test mass open/unlink OK!"]
    ["FAIL: T.T";
     "Test sbrk failed!";
     "Should cause error, Test 04_2 fail!";
     "Should cause error, Test 04_3 fail!"].
Definition ch7_base : TestCase := mkTestCase
    ["Hello, world from user mode program!";
     "Test power_3 OK!";
     "Test power_5 OK!";
     "Test power_7 OK!";
     "Test write A OK!";
     "Test write B OK!";
     "Test write C OK!";
     "Test sbrk almost OK!";
     "exit pass.";
     "hello child process!";
     "child process pid = (\d+), exit code = (\d+)";
     "forktest pass.";
     "file_test passed!";
     "signal_simple: Done";
     "pipetest passed!";
     "pipe_large_test passed!"]
    ["FAIL: T.T";
     "Test sbrk failed!"].
Definition ch8_base : TestCase := mkTestCase
    ["Hello, world from user mode program!";
     "Test power_3 OK!";
     "Test power_5 OK!";
     "Test power_7 OK!";
     "Test write A OK!";
     "Test write B OK!";
     "Test write C OK!";
     "exit pass.";
     "hello child process!";
     "child process pid = (\d+), exit code = (\d+)";
     "forktest pass.";
     "file_test passed!";
     "pipetest passed!";
     "mpsc_sem passed!";
     "philosopher dining problem with mutex test passed!";
     "race adder using spin mutex test passed!";
     "sync_sem passed!";
     "test_condvar passed!";
     "threads with arg test passed!";
     "threads test passed!"]
    ["FAIL: T.T";
     "Test sbrk failed!"].
Definition ch8_exercise : TestCase := mkTestCase
    ["Hello, world from user mode program!";
     "Test power_3 OK!";
     "Test power_5 OK!";
     "Test power_7 OK!";
     "Test write A OK!";
     "Test write B OK!";
     "Test write C OK!";
     "exit pass.";
     "hello child process!";
     "child process pid = (\d+), exit code = (\d+)";
     "forktest pass.";
     "file_test passed!";
     "pipetest passed!";
     "mpsc_sem passed!";
     "philosopher dining problem with mutex test passed!";
     "race adder using spin mutex test passed!";
     "sync_sem passed!";
     "test_condvar passed!";
     "threads with arg test passed!";
     "threads test passed!";
     "deadlock test mutex 1 OK!";
     "deadlock test semaphore 1 OK!";
     "deadlock test semaphore 2 OK!"]
    ["FAIL: T.T";
     "Test sbrk failed!"].

(** [get_test_case]. *)
Definition get_test_case (chapter : Z) (exercise : bool) : option TestCase :=
  if exercise then
    if chapter =? 3 then Some ch3_exercise
    else if chapter =? 4 then Some ch4_exercise
    else if chapter =? 5 then Some ch5_exercise
    else if chapter =? 6 then Some ch6_exercise
    else if chapter =? 8 then Some ch8_exercise
    else None
  else
    if chapter =? 2 then Some ch2_base
    else if chapter =? 3 then Some ch3_base
    else if chapter =? 4 then Some ch4_base
    else if chapter =? 5 then Some ch5_base
    else if chapter =? 6 then Some ch6_base
    else if chapter =? 7 then Some ch7_base
    else if chapter =? 8 then Some ch8_base
    else None.

Definition list_available_tests : list (Z * bool * string) :=
  [(2, false, "ch2 base test"); (3, false, "ch3 base test"); (3, true, "ch3 exercise test"); (4, false, "ch4 base test");
   (4, true, "ch4 exercise test"); (5, false, "ch5 base test"); (5, true, "ch5 exercise test"); (6, false, "ch6 base test");
   (6, true, "ch6 exercise test"); (7, false, "ch7 base test"); (8, false, "ch8 base test"); (8, true, "ch8 exercise test")].

(** ** The verdict *)
Record CheckDetail := mkDetail { pattern : string; detail_passed : bool; is_expected : bool }.
Record CheckResult := mkResult { passed : nat; total : nat; details : list CheckDetail }.
Definition is_success (r : CheckResult) : bool := (passed r =? total r)%nat.

Section Check.
(** [Regex::new] with [is_match], and the three colours. *)
Variable regex : string → option (string → bool).
Variables green red bold : string → string.

(** One of the two loops of [check]. *)
Fixpoint check_loop (patterns : list string) (is_expected : bool) (output : string) (r : nat * list CheckDetail) : outcome (nat * list CheckDetail) :=
  match patterns with
  | [] => Done r
  | p :: patterns =>
      re ← unwrap (regex p);
      let found := re output in
      let ok := if is_expected then found else negb found in
      let '(passed, details) := r in
      check_loop patterns is_expected output ((if ok then S passed else passed)%nat, (details ++ [mkDetail p ok is_expected])%list)
  end.
Definition check (output : string) (test_case : TestCase) : outcome CheckResult :=
  let total := (length (expected test_case) + length (not_expected test_case))%nat in
  r ← check_loop (expected test_case) true output (0%nat, []);
  '(passed, details) ← check_loop (not_expected test_case) false output r;
  Done (mkResult passed total details).

(** The lines that [print_result] prints. *)
Definition detail_line (d : CheckDetail) : string :=
  let verdict := if detail_passed d then green "[PASS]" else red "[FAIL]" in
  let found := if is_expected d then detail_passed d else negb (detail_passed d) in
  verdict +:+ (if found then " found <" else " not found <") +:+ pattern d +:+ ">".
Definition print_result (r : CheckResult) (verbose : bool) : list string :=
  (if verbose then ((detail_line <$> details r) ++ [""])%list else []) ++
  ["Test " +:+ (if is_success r then bold (green "PASSED") else bold (red "FAILED")) +:+ ": " +:+
   pretty (N.of_nat (passed r)) +:+ "/" +:+ pretty (N.of_nat (total r))].

(** ** [main] *)
Record Args := mkArgs { ch : option Z; exercise : bool; verbose : bool; list_ : bool }.
Inductive ExitCode := SUCCESS | FAILURE.

(** The exit code; [input] is what reading the standard input gives. *)
Definition main (args : Args) (input : option string) : outcome ExitCode :=
  if list_ args then Done SUCCESS
  else match ch args with
  | None => Done FAILURE
  | Some chapter =>
      match get_test_case chapter (exercise args) with
      | None => Done FAILURE
      | Some test_case =>
          match input with
          | None => Done FAILURE
          | Some output =>
              result ← check output test_case;
              Done (if is_success result then SUCCESS else FAILURE)
          end
      end
  end.

(** ** What the verdict says *)

(** The pattern is a regular expression, and the output has it or not. *)
Definition matches (output p : string) : bool := match regex p with Some re => re output | None => false end.
Definition good (output : string) (is_expected : bool) (p : string) : bool := if is_expected then matches output p else negb (matches output p).
Definition count (output : string) (is_expected : bool) (l : list string) : nat := length (filter (fun p => good output is_expected p = true) l).
Definition compiles (l : list string) : Prop := Forall (fun p => is_Some (regex p)) l.

Lemma check_loop_run output e l : compiles l → ∀ n d,
  check_loop l e output (n, d) = Done ((n + count output e l)%nat, (d ++ ((fun p => mkDetail p (good output e p) e) <$> l))%list).
Proof.
  induction 1 as [|p l [re Hp] _ IH]; intros n d; [by rewrite Nat.add_0_r, app_nil_r|].
  cbn [check_loop]. rewrite Hp. cbn [unwrap mbind outcome_bind]. rewrite IH. unfold count. rewrite filter_cons.
  assert (good output e p = (if e then re output else negb (re output))) as Eg by (unfold good, matches; by rewrite Hp).
  rewrite fmap_cons, <-app_assoc. f_equal. f_equal; [|by rewrite Eg].
  rewrite Eg. destruct (if e then re output else negb (re output)); [rewrite decide_True by done; simpl; lia|by rewrite decide_False by done].
Qed.

Lemma count_le output e l : (count output e l ≤ length l)%nat.
Proof. apply length_filter. Qed.
Lemma count_all output e l : count output e l = length l ↔ Forall (fun p => good output e p = true) l.
Proof.
  unfold count. induction l as [|p l IH]; [by split|]. rewrite filter_cons, Forall_cons. pose proof (count_le output e l) as Hl. unfold count in Hl.
  destruct (decide (good output e p = true)) as [E|E]; simpl; [rewrite <-IH; split; [intros; split; [done|lia]|intros [_ ?]; lia]|].
  split; [lia|by intros [? _]].
Qed.

(** The verdict: the details are the patterns in order, each with whether it went well; the number that passed counts those,
    and the run is a success exactly when every expected pattern is in the output and none of the others is. *)
Theorem check_verdict output tc : compiles (expected tc ++ not_expected tc) →
  ∃ r, check output tc = Done r ∧ (passed r ≤ total r)%nat ∧ total r = length (details r) ∧
    pattern <$> details r = (expected tc ++ not_expected tc)%list ∧
    Forall (fun d => detail_passed d = good output (is_expected d) (pattern d)) (details r) ∧
    (is_success r = true ↔ Forall (fun p => matches output p = true) (expected tc) ∧ Forall (fun p => matches output p = false) (not_expected tc)).
Proof.
  intros [He Hn]%Forall_app. unfold check. rewrite (check_loop_run output true _ He). cbn [mbind outcome_bind]. rewrite (check_loop_run output false _ Hn).
  cbn [mbind outcome_bind]. eexists. split; [done|]. simpl. pose proof (count_le output true (expected tc)). pose proof (count_le output false (not_expected tc)).
  split_and!.
  - lia.
  - by rewrite length_app, !length_fmap.
  - rewrite fmap_app, <-!list_fmap_compose. f_equal; exact (list_fmap_id _).
  - apply Forall_app. split; apply Forall_fmap, Forall_forall; by intros p _.
  - unfold is_success. simpl. rewrite Nat.eqb_eq.
    assert (count output true (expected tc) + count output false (not_expected tc) = length (expected tc) + length (not_expected tc) ↔
      count output true (expected tc) = length (expected tc) ∧ count output false (not_expected tc) = length (not_expected tc))%nat as -> by lia.
    rewrite !count_all. unfold good. apply and_iff_compat_l. rewrite !Forall_forall. by setoid_rewrite negb_true_iff.
Qed.

(** The checker exits with success exactly when it was asked for the list, or when there is a test for the chapter and the
    mode, the output could be read, and it has every expected pattern and none of the others.  Every other run of it ends
    with failure: it never panics while the tables hold regular expressions. *)
Theorem main_success args input : (∀ chapter e tc, get_test_case chapter e = Some tc → compiles (expected tc ++ not_expected tc)) →
  (main args input = Done SUCCESS ∨ main args input = Done FAILURE) ∧
  (main args input = Done SUCCESS ↔ list_ args = true ∨ ∃ chapter tc output, ch args = Some chapter ∧ get_test_case chapter (exercise args) = Some tc ∧
     input = Some output ∧ Forall (fun p => matches output p = true) (expected tc) ∧ Forall (fun p => matches output p = false) (not_expected tc)).
Proof.
  intros Hre. unfold main. destruct (list_ args); [split; [by left|split; [by left|done]]|].
  assert (∀ P : Prop, ¬ P → (Done FAILURE = Done SUCCESS ↔ false = true ∨ P)) as Hno by (intros P HP; split; [done|by intros [|]]).
  destruct (ch args) as [chapter|]; [|split; [by right|apply Hno; by intros (? & ? & ? & ? & _)]].
  destruct (get_test_case chapter (exercise args)) as [tc|] eqn:Htc; [|split; [by right|apply Hno; intros (c & tc & out & [= <-] & E & _); by rewrite Htc in E]].
  destruct input as [output|]; [|split; [by right|apply Hno; by intros (? & ? & ? & _ & _ & ? & _)]].
  destruct (check_verdict output tc (Hre _ _ _ Htc)) as (r & -> & _ & _ & _ & _ & Hs). simpl. destruct (is_success r).
  - split; [by left|]. split; [|done]. intros _. right. exists chapter, tc, output. split_and!; [done..|by apply Hs|by apply Hs].
  - split; [by right|]. apply Hno. intros (c & tc' & out & [= <-] & E & [= <-] & H). rewrite Htc in E. injection E as <-. by apply Hs in H.
Qed.
End Check.

(** Patterns as plain texts. *)
Definition demo_regex (p : string) : option (string → bool) := Some (fun output => if String.index 0 p output is Some _ then true else false).
Lemma main_success_witness :
  main demo_regex (mkArgs (Some 3) false true false) (Some "Test write A OK! Test write B OK! Test write C OK!") = Done SUCCESS ∧
  main demo_regex (mkArgs (Some 3) false true false) (Some "Test write A OK! Test write B OK!") ≠ Done SUCCESS ∧
  main demo_regex (mkArgs (Some 7) true true false) (Some "") ≠ Done SUCCESS.
Proof.
  assert (∀ chapter e tc, get_test_case chapter e = Some tc → compiles demo_regex (expected tc ++ not_expected tc)) as Hre.
  { intros c e tc _. apply Forall_forall. intros p _. by eexists. }
  split_and!.
  - apply (main_success demo_regex _ _ Hre). right. exists 3, ch3_base, "Test write A OK! Test write B OK! Test write C OK!". split_and!; [reflexivity..| |]; repeat constructor.
  - intros H. apply (main_success demo_regex _ _ Hre) in H as [H|(c & tc & out & [= <-] & [= <-] & [= <-] & H & _)]; [discriminate H|].
    rewrite Forall_forall in H. specialize (H "Test write C OK!"). discriminate H. simpl. set_solver.
  - intros H. apply (main_success demo_regex _ _ Hre) in H as [H|(c & tc & out & [= <-] & H & _)]; discriminate H.
Defined.

(** What is listed can be run, and only that. *)
Theorem available_tests chapter exercise : is_Some (get_test_case chapter exercise) ↔ ∃ desc, (chapter, exercise, desc) ∈ list_available_tests.
Proof.
  unfold get_test_case, list_available_tests. split.
  - destruct exercise; cbn iota; repeat match goal with |- context [chapter =? ?x] => destruct (Z.eqb_spec chapter x) as [->|]; [intros _; eexists; repeat (apply list_elem_of_here || apply list_elem_of_further)|] end; by intros [? ?].
  - intros [desc H]. repeat (apply elem_of_cons in H as [[= -> -> _]|H]; [by eexists|]). by apply elem_of_nil in H.
Qed.
End Checker.
