(* ===== verification/Syscall.v ===== *)
(** * System call dispatch and time

    [tg-rcore-tutorial-syscall/src/kernel/mod.rs] (the traits a kernel implements, their registration and the dispatch
    by number), [syscall.h.in] (the numbers) and [time.rs]. *)

From S2P Require Import Prelude.

(** ** Numbers ([SyscallId]) *)
Definition WRITE : Z := 64.
Definition READ : Z := 63.
Definition OPENAT : Z := 56.
Definition CLOSE : Z := 57.
Definition LINKAT : Z := 37.
Definition UNLINKAT : Z := 35.
Definition FSTAT : Z := 80.
Definition EXIT : Z := 93.
Definition CLONE : Z := 220.
Definition EXECVE : Z := 221.
Definition WAIT4 : Z := 260.
Definition GETPID : Z := 172.
Definition CLOCK_GETTIME : Z := 113.
Definition SCHED_YIELD : Z := 124.
Definition MUNMAP : Z := 215.
Definition MMAP : Z := 222.
Definition KILL : Z := 129.
Definition RT_SIGACTION : Z := 134.
Definition RT_SIGPROCMASK : Z := 135.
Definition RT_SIGRETURN : Z := 139.
Definition WAITID : Z := 95.
Definition GETTID : Z := 178.
Definition THREAD_CREATE : Z := 1000.
Definition SEMAPHORE_CREATE : Z := 1020.
Definition SEMAPHORE_UP : Z := 1021.
Definition SEMAPHORE_DOWN : Z := 1022.
Definition MUTEX_CREATE : Z := 1010.
Definition MUTEX_LOCK : Z := 1011.
Definition MUTEX_UNLOCK : Z := 1012.
Definition CONDVAR_CREATE : Z := 1030.
Definition CONDVAR_SIGNAL : Z := 1031.
Definition CONDVAR_WAIT : Z := 1032.
Definition ENABLE_DEADLOCK_DETECT : Z := 469.
Definition TRACE : Z := 410.
Definition SPAWN : Z := 400.
Definition SETPRIORITY : Z := 140.
Definition BRK : Z := 214.
Definition PIPE2 : Z := 59.

(** ** The traits

    A trait object is a record of its methods on the kernel's state; a method a kernel does not define is
    [unimplemented!()].  The [Caller] argument is not used by any kernel. *)
Definition unimplemented {K A} : st K A := lift Panic.

Record ProcessSys (K : Type) := mkProcessSys {
  sys_exit : Z → st K Z;
  sys_fork : st K Z;
  sys_exec : Z → Z → st K Z;
  sys_wait : Z → Z → st K Z;
  sys_getpid : st K Z;
  sys_spawn : Z → Z → st K Z;
  sys_sbrk : Z → st K Z;
}.
Arguments sys_exit {K} _.
Arguments sys_fork {K} _.
Arguments sys_exec {K} _.
Arguments sys_wait {K} _.
Arguments sys_getpid {K} _.
Arguments sys_spawn {K} _.
Arguments sys_sbrk {K} _.

Record IOSys (K : Type) := mkIOSys {
  sys_read : Z → Z → Z → st K Z;
  sys_write : Z → Z → Z → st K Z;
  sys_open : Z → Z → st K Z;
  sys_close : Z → st K Z;
  sys_linkat : Z → Z → Z → Z → Z → st K Z;
  sys_pipe : Z → st K Z;
  sys_unlinkat : Z → Z → Z → st K Z;
  sys_fstat : Z → Z → st K Z;
}.
Arguments sys_read {K} _.
Arguments sys_write {K} _.
Arguments sys_open {K} _.
Arguments sys_close {K} _.
Arguments sys_linkat {K} _.
Arguments sys_pipe {K} _.
Arguments sys_unlinkat {K} _.
Arguments sys_fstat {K} _.

Record MemorySys (K : Type) := mkMemorySys {
  sys_mmap : Z → Z → Z → Z → Z → Z → st K Z;
  sys_munmap : Z → Z → st K Z;
}.
Arguments sys_mmap {K} _.
Arguments sys_munmap {K} _.

Record SchedulingSys (K : Type) := mkSchedulingSys {
  sys_sched_yield : st K Z;
  sys_set_priority : Z → st K Z;
}.
Arguments sys_sched_yield {K} _.
Arguments sys_set_priority {K} _.

Record ClockSys (K : Type) := mkClockSys {
  sys_clock_gettime : Z → Z → st K Z;
}.
Arguments sys_clock_gettime {K} _.

Record SignalSys (K : Type) := mkSignalSys {
  sys_kill : Z → Z → st K Z;
  sys_sigaction : Z → Z → Z → st K Z;
  sys_sigprocmask : Z → st K Z;
  sys_sigreturn : st K Z;
}.
Arguments sys_kill {K} _.
Arguments sys_sigaction {K} _.
Arguments sys_sigprocmask {K} _.
Arguments sys_sigreturn {K} _.

Record ThreadSys (K : Type) := mkThreadSys {
  sys_thread_create : Z → Z → st K Z;
  sys_waittid : Z → st K Z;
  sys_gettid : st K Z;
}.
Arguments sys_thread_create {K} _.
Arguments sys_waittid {K} _.
Arguments sys_gettid {K} _.

Record SyncMutexSys (K : Type) := mkSyncMutexSys {
  sys_semaphore_create : Z → st K Z;
  sys_semaphore_up : Z → st K Z;
  sys_semaphore_down : Z → st K Z;
  sys_mutex_create : bool → st K Z;
  sys_mutex_lock : Z → st K Z;
  sys_mutex_unlock : Z → st K Z;
  sys_condvar_create : Z → st K Z;
  sys_condvar_signal : Z → st K Z;
  sys_condvar_wait : Z → Z → st K Z;
  sys_enable_deadlock_detect : Z → st K Z;
}.
Arguments sys_semaphore_create {K} _.
Arguments sys_semaphore_up {K} _.
Arguments sys_semaphore_down {K} _.
Arguments sys_mutex_create {K} _.
Arguments sys_mutex_lock {K} _.
Arguments sys_mutex_unlock {K} _.
Arguments sys_condvar_create {K} _.
Arguments sys_condvar_signal {K} _.
Arguments sys_condvar_wait {K} _.
Arguments sys_enable_deadlock_detect {K} _.

Record TraceSys (K : Type) := mkTraceSys {
  sys_trace : Z → Z → Z → st K Z;
}.
Arguments sys_trace {K} _.

(** The static containers, one for each trait, initialised at most once. *)
Record Registry (K : Type) := mkRegistry {
  PROCESS : option (ProcessSys K);
  IO : option (IOSys K);
  MEMORY : option (MemorySys K);
  SCHEDULING : option (SchedulingSys K);
  CLOCK : option (ClockSys K);
  SIGNAL : option (SignalSys K);
  THREAD : option (ThreadSys K);
  SYNC_MUTEX : option (SyncMutexSys K);
  TRACE_ : option (TraceSys K);
}.
Arguments mkRegistry {K} _ _ _ _ _ _ _ _ _.
Arguments PROCESS {K} _.
Arguments IO {K} _.
Arguments MEMORY {K} _.
Arguments SCHEDULING {K} _.
Arguments CLOCK {K} _.
Arguments SIGNAL {K} _.
Arguments THREAD {K} _.
Arguments SYNC_MUTEX {K} _.
Arguments TRACE_ {K} _.

(** [Once::call_once]: the first value stays. *)
Definition Container_init {T} (c : option T) (val : T) : option T :=
  match c with Some _ => c | None => Some val end.

Inductive SyscallResult := RDone (ret : Z) | Unsupported (id : Z).

Section Dispatch.
Context {K : Type}.
Implicit Types (reg : Registry K).

Definition Container_call {T} (c : option T) (id : Z) (f : T → st K Z) : st K SyscallResult :=
  match c with
  | Some x => r ← f x; mret (RDone r)
  | None => mret (Unsupported id)
  end.

(** [handle]; [a i] is [args[i]]. *)
Definition handle reg (id : Z) (a : Z → Z) : st K SyscallResult :=
  if id =? WRITE then Container_call (IO reg) id (fun io => sys_write io (a 0) (a 1) (a 2))
  else if id =? READ then Container_call (IO reg) id (fun io => sys_read io (a 0) (a 1) (a 2))
  else if id =? OPENAT then Container_call (IO reg) id (fun io => sys_open io (a 0) (a 1))
  else if id =? CLOSE then Container_call (IO reg) id (fun io => sys_close io (a 0))
  else if id =? LINKAT then Container_call (IO reg) id (fun io => sys_linkat io (as_i32 (a 0)) (a 1) (as_i32 (a 2)) (a 3) (as_u32 (a 4)))
  else if id =? UNLINKAT then Container_call (IO reg) id (fun io => sys_unlinkat io (as_i32 (a 0)) (a 1) (as_u32 (a 2)))
  else if id =? FSTAT then Container_call (IO reg) id (fun io => sys_fstat io (a 0) (a 1))
  else if id =? EXIT then Container_call (PROCESS reg) id (fun proc => sys_exit proc (a 0))
  else if id =? CLONE then Container_call (PROCESS reg) id (fun proc => sys_fork proc)
  else if id =? EXECVE then Container_call (PROCESS reg) id (fun proc => sys_exec proc (a 0) (a 1))
  else if id =? WAIT4 then Container_call (PROCESS reg) id (fun proc => sys_wait proc (as_isize (a 0)) (a 1))
  else if id =? GETPID then Container_call (PROCESS reg) id (fun proc => sys_getpid proc)
  else if id =? CLOCK_GETTIME then Container_call (CLOCK reg) id (fun clock => sys_clock_gettime clock (a 0) (a 1))
  else if id =? SCHED_YIELD then Container_call (SCHEDULING reg) id (fun sched => sys_sched_yield sched)
  else if id =? MUNMAP then Container_call (MEMORY reg) id (fun memory => sys_munmap memory (a 0) (a 1))
  else if id =? MMAP then Container_call (MEMORY reg) id (fun memory => sys_mmap memory (a 0) (a 1) (as_i32 (a 2)) (as_i32 (a 3)) (as_i32 (a 4)) (a 5))
  else if id =? KILL then Container_call (SIGNAL reg) id (fun signal => sys_kill signal (as_isize (a 0)) (as_u8 (a 1)))
  else if id =? RT_SIGACTION then Container_call (SIGNAL reg) id (fun signal => sys_sigaction signal (as_u8 (a 0)) (a 1) (a 2))
  else if id =? RT_SIGPROCMASK then Container_call (SIGNAL reg) id (fun signal => sys_sigprocmask signal (a 0))
  else if id =? RT_SIGRETURN then Container_call (SIGNAL reg) id (fun signal => sys_sigreturn signal)
  else if id =? WAITID then Container_call (THREAD reg) id (fun thread => sys_waittid thread (a 0))
  else if id =? GETTID then Container_call (THREAD reg) id (fun thread => sys_gettid thread)
  else if id =? THREAD_CREATE then Container_call (THREAD reg) id (fun thread => sys_thread_create thread (a 0) (a 1))
  else if id =? SEMAPHORE_CREATE then Container_call (SYNC_MUTEX reg) id (fun sync => sys_semaphore_create sync (a 0))
  else if id =? SEMAPHORE_UP then Container_call (SYNC_MUTEX reg) id (fun sync => sys_semaphore_up sync (a 0))
  else if id =? SEMAPHORE_DOWN then Container_call (SYNC_MUTEX reg) id (fun sync => sys_semaphore_down sync (a 0))
  else if id =? MUTEX_CREATE then Container_call (SYNC_MUTEX reg) id (fun sync => sys_mutex_create sync (negb (a 0 =? 0)))
  else if id =? MUTEX_LOCK then Container_call (SYNC_MUTEX reg) id (fun sync => sys_mutex_lock sync (a 0))
  else if id =? MUTEX_UNLOCK then Container_call (SYNC_MUTEX reg) id (fun sync => sys_mutex_unlock sync (a 0))
  else if id =? CONDVAR_CREATE then Container_call (SYNC_MUTEX reg) id (fun sync => sys_condvar_create sync (a 0))
  else if id =? CONDVAR_SIGNAL then Container_call (SYNC_MUTEX reg) id (fun sync => sys_condvar_signal sync (a 0))
  else if id =? CONDVAR_WAIT then Container_call (SYNC_MUTEX reg) id (fun sync => sys_condvar_wait sync (a 0) (a 1))
  else if id =? ENABLE_DEADLOCK_DETECT then Container_call (SYNC_MUTEX reg) id (fun sync => sys_enable_deadlock_detect sync (as_i32 (a 0)))
  else if id =? TRACE then Container_call (TRACE_ reg) id (fun trace => sys_trace trace (a 0) (a 1) (a 2))
  else if id =? SPAWN then Container_call (PROCESS reg) id (fun proc => sys_spawn proc (a 0) (a 1))
  else if id =? SETPRIORITY then Container_call (SCHEDULING reg) id (fun sched => sys_set_priority sched (as_isize (a 0)))
  else if id =? BRK then Container_call (PROCESS reg) id (fun proc => sys_sbrk proc (as_i32 (a 0)))
  else if id =? PIPE2 then Container_call (IO reg) id (fun io => sys_pipe io (a 0))
  else mret (Unsupported id).
End Dispatch.

(** ** Time *)
Record TimeSpec := mkTimeSpec { tv_sec : Z; tv_nsec : Z }.
Definition TimeSpec_ZERO : TimeSpec := mkTimeSpec 0 0.
Definition TimeSpec_SECOND : TimeSpec := mkTimeSpec 1 0.
Definition TimeSpec_MILLSECOND : TimeSpec := mkTimeSpec 0 1000000.
Definition TimeSpec_MICROSECOND : TimeSpec := mkTimeSpec 0 1000.
Definition TimeSpec_NANOSECOND : TimeSpec := mkTimeSpec 0 1.
Definition TimeSpec_from_millsecond (millsecond : Z) : TimeSpec :=
  mkTimeSpec (millsecond / 1000) (millsecond mod 1000 * 1000000).
Definition TimeSpec_add (x y : TimeSpec) : outcome TimeSpec :=
  tv_sec ← usize_add (tv_sec x) (tv_sec y);
  tv_nsec ← usize_add (tv_nsec x) (tv_nsec y);
  if tv_nsec >? 1000000000 then
    tv_sec ← usize_add tv_sec 1;
    tv_nsec ← usize_sub tv_nsec 1000000000;
    Done (mkTimeSpec tv_sec tv_nsec)
  else Done (mkTimeSpec tv_sec tv_nsec).

(** ** Theorems *)

(** The trait a call number belongs to. *)
Inductive subsystem := SubProcess | SubIO | SubMemory | SubScheduling | SubClock | SubSignal | SubThread | SubSync | SubTrace.
Definition subsystem_table : list (Z * subsystem) :=
  [(WRITE, SubIO); (READ, SubIO); (OPENAT, SubIO); (CLOSE, SubIO);
   (LINKAT, SubIO); (UNLINKAT, SubIO); (FSTAT, SubIO); (EXIT, SubProcess);
   (CLONE, SubProcess); (EXECVE, SubProcess); (WAIT4, SubProcess); (GETPID, SubProcess);
   (CLOCK_GETTIME, SubClock); (SCHED_YIELD, SubScheduling); (MUNMAP, SubMemory); (MMAP, SubMemory);
   (KILL, SubSignal); (RT_SIGACTION, SubSignal); (RT_SIGPROCMASK, SubSignal); (RT_SIGRETURN, SubSignal);
   (WAITID, SubThread); (GETTID, SubThread); (THREAD_CREATE, SubThread); (SEMAPHORE_CREATE, SubSync);
   (SEMAPHORE_UP, SubSync); (SEMAPHORE_DOWN, SubSync); (MUTEX_CREATE, SubSync); (MUTEX_LOCK, SubSync);
   (MUTEX_UNLOCK, SubSync); (CONDVAR_CREATE, SubSync); (CONDVAR_SIGNAL, SubSync); (CONDVAR_WAIT, SubSync);
   (ENABLE_DEADLOCK_DETECT, SubSync); (TRACE, SubTrace); (SPAWN, SubProcess); (SETPRIORITY, SubScheduling);
   (BRK, SubProcess); (PIPE2, SubIO)].
Definition subsystem_of (id : Z) : option subsystem := (list_to_map subsystem_table : gmap Z subsystem) !! id.
Definition initialised {K} (reg : Registry K) (sub : subsystem) : bool :=
  match sub with
  | SubProcess => bool_decide (is_Some (PROCESS reg))
  | SubIO => bool_decide (is_Some (IO reg))
  | SubMemory => bool_decide (is_Some (MEMORY reg))
  | SubScheduling => bool_decide (is_Some (SCHEDULING reg))
  | SubClock => bool_decide (is_Some (CLOCK reg))
  | SubSignal => bool_decide (is_Some (SIGNAL reg))
  | SubThread => bool_decide (is_Some (THREAD reg))
  | SubSync => bool_decide (is_Some (SYNC_MUTEX reg))
  | SubTrace => bool_decide (is_Some (TRACE_ reg))
  end.

Lemma Container_call_dispatch {K T} (c : option T) id (f : T → st K Z) (s : K) :
  if bool_decide (is_Some c)
  then ∀ r s', Container_call c id f s = Done (r, s') ↔ ∃ x v, c = Some x ∧ f x s = Done (v, s') ∧ r = RDone v
  else Container_call c id f s = Done (Unsupported id, s).
Proof.
  destruct c as [x|]; [|done]. intros r s'. unfold Container_call. rewrite st_bind_Done. split.
  - intros (v & s1 & Hf & [= <- <-]). eauto.
  - intros (y & v & [= <-] & Hf & ->). eauto.
Qed.

Lemma subsystem_of_None id : id ∉ subsystem_table.*1 → subsystem_of id = None.
Proof. apply not_elem_of_list_to_map_1. Qed.

(** dispatch is total and isolating: a call number of no subsystem, or of a subsystem the kernel has not
    registered, comes back as [Unsupported] with that number and the kernel state untouched; a call that reaches a
    registered subsystem never comes back as [Unsupported]: if it returns, it returns [RDone]. *)
Theorem handle_dispatch {K} (reg : Registry K) (id : Z) (a : Z → Z) (s : K) :
  match subsystem_of id with
  | None => handle reg id a s = Done (Unsupported id, s)
  | Some sub =>
      if initialised reg sub
      then ∀ r s', handle reg id a s = Done (r, s') → ∃ v, r = RDone v
      else handle reg id a s = Done (Unsupported id, s)
  end.
Proof.
  assert (Hcall : ∀ {T} (c : option T) (f : T → st K Z) (m : st K SyscallResult), m = Container_call c id f →
    if bool_decide (is_Some c)
    then ∀ r s', m s = Done (r, s') → ∃ v, r = RDone v else m s = Done (Unsupported id, s)).
  { intros T c f m ->. pose proof (Container_call_dispatch c id f s) as H.
    case_bool_decide; [|done]. intros r s' (x & v & _ & _ & ->)%H. by exists v. }
  unfold handle.
  repeat match goal with
  | |- context [if id =? ?n then _ else _] =>
      let E := fresh "E" in
      destruct (id =? n) eqn:E;
      [ apply Z.eqb_eq in E; rewrite E;
        let v := eval vm_compute in (subsystem_of n) in change (subsystem_of n) with v;
        cbv beta iota; unfold initialised; rewrite <- E; eapply Hcall; reflexivity
      | apply Z.eqb_neq in E ]
  end.
  rewrite subsystem_of_None; [reflexivity|]. simpl. rewrite !not_elem_of_cons. auto 50 using not_elem_of_nil.
Qed.

(** The nanoseconds a [TimeSpec] stands for. *)
Definition nanos (t : TimeSpec) : Z := tv_sec t * 1000000000 + tv_nsec t.
Definition normalised (t : TimeSpec) : Prop := 0 ≤ tv_sec t ∧ 0 ≤ tv_nsec t < 1000000000.

(** adding two normalised times never overflows while the seconds leave room for the carry, keeps the sum of the
    nanoseconds, and is normalised except when the fractional parts add up to exactly one second, which the code
    leaves uncarried; a time made from milliseconds is normalised and exact. *)
Theorem timespec_add x y :
  normalised x → normalised y → tv_sec x + tv_sec y < usize_max →
  ∃ z, TimeSpec_add x y = Done z ∧ nanos z = nanos x + nanos y ∧
    (normalised z ↔ tv_nsec x + tv_nsec y ≠ 1000000000) ∧
  ∀ ms, 0 ≤ ms → normalised (TimeSpec_from_millsecond ms) ∧ nanos (TimeSpec_from_millsecond ms) = ms * 1000000.
Proof.
  intros [Hxs Hxn] [Hys Hyn] Hroom.
  assert (Hms : ∀ ms, 0 ≤ ms → normalised (TimeSpec_from_millsecond ms)
                               ∧ nanos (TimeSpec_from_millsecond ms) = ms * 1000000).
  { intros ms Hms. unfold normalised, nanos, TimeSpec_from_millsecond. simpl.
    pose proof (Z.div_mod ms 1000 ltac:(lia)). pose proof (Z.mod_pos_bound ms 1000 ltac:(lia)).
    pose proof (Z.div_pos ms 1000 Hms ltac:(lia)). lia. }
  unfold TimeSpec_add, usize_add, usize_sub, normalised, nanos in *. unfold usize_max in *.
  rewrite !checked_ok by lia. simpl.
  destruct (_ >? _) eqn:E; rewrite Z.gtb_ltb in E.
  - apply Z.ltb_lt in E. rewrite !checked_ok by lia. simpl.
    eexists. split; [done|]. simpl. split; [lia|]. split; [lia|done].
  - apply Z.ltb_ge in E. eexists. split; [done|]. simpl. split; [lia|]. split; [lia|done].
Qed.

Lemma timespec_add_witness :
  ∃ z, TimeSpec_add (mkTimeSpec 1 600000000) (mkTimeSpec 2 700000000) = Done z ∧ nanos z = 4300000000 ∧ normalised z.
Proof.
  destruct (timespec_add (mkTimeSpec 1 600000000) (mkTimeSpec 2 700000000)) as (z & Hz & Hn & Hz' & _);
    [unfold normalised; simpl; lia..|reflexivity|].
  exists z. split; [exact Hz|]. split; [exact Hn|]. apply Hz'. simpl. lia.
Defined.
