(* ===== verification/BatchKernel.v ===== *)
(** * The batch kernel

    Models [tg-rcore-tutorial-ch2/src/main.rs]: the applications run one after the other, each until it exits, makes a
    system call the kernel does not know, or faults.  The console gets what the applications write and the empty line
    after each; the lines of the logger are not modelled. *)

From S2P Require Import Prelude Bytes Memory Linker KernelContext Syscall.

Definition STDIN : Z := 0.
Definition STDOUT : Z := 1.
Definition STDDEBUG : Z := 2.

(** ** System calls

    The applications run without address translation: a pointer of the user is an address. *)
Module Batch.
(** [impl IO for SyscallContext]: [write]. *)
Definition write (fd buf count : Z) : st world Z := fun w =>
  if (fd =? STDOUT) || (fd =? STDDEBUG)
  then Done (as_isize count, print_bytes (mem_read (w_mem w) buf (Z.to_nat count)) w)
  else Done (-1, w).
(** [impl Process for SyscallContext]: [exit]. *)
Definition exit (status : Z) : st world Z := mret 0.

Definition SyscallContext_io : IOSys world :=
  mkIOSys _ (fun _ _ _ => unimplemented) write (fun _ _ => unimplemented) (fun _ => unimplemented)
    (fun _ _ _ _ _ => unimplemented) (fun _ => unimplemented) (fun _ _ _ => unimplemented) (fun _ _ => unimplemented).
Definition SyscallContext_process : ProcessSys world :=
  mkProcessSys _ exit unimplemented (fun _ _ => unimplemented) (fun _ _ => unimplemented) unimplemented
    (fun _ _ => unimplemented) (fun _ => unimplemented).
(** [init_io] and [init_process] of [rust_main]. *)
Definition registry : Registry world :=
  mkRegistry (Some SyscallContext_process) (Some SyscallContext_io) None None None None None None None.

Inductive SyscallResult := RContinue | RExit (code : Z) | RError (id : Z).

(** The six arguments of a call. *)
Definition call_args (ctx : LocalContext) : outcome (list Z) :=
  a0 ← LocalContext_a 0 ctx;
  a1 ← LocalContext_a 1 ctx;
  a2 ← LocalContext_a 2 ctx;
  a3 ← LocalContext_a 3 ctx;
  a4 ← LocalContext_a 4 ctx;
  a5 ← LocalContext_a 5 ctx;
  Done [a0; a1; a2; a3; a4; a5].

Definition handle_syscall (ctx : LocalContext) : st world (SyscallResult * LocalContext) :=
  id ← lift (LocalContext_a 7 ctx);
  args ← lift (call_args ctx);
  r ← handle registry id (fun n => nth (Z.to_nat n) args 0);
  match r with
  | RDone ret =>
      if id =? EXIT then
        code ← lift (LocalContext_a 0 ctx);
        mret (RExit code, ctx)
      else
        ctx ← lift (LocalContext_set_a 0 (as_usize ret) ctx);
        mret (RContinue, LocalContext_move_next ctx)
  | Unsupported id => mret (RError id, ctx)
  end.

(** ** The loop

    [run] is what an application does in user mode until its next trap. *)
Inductive Trap := UserEnvCall | OtherTrap.
Inductive verdict := Exited (code : Z) | BadCall (id : Z) | Killed.

Section Loop.
Variable run : LocalContext → world → LocalContext * world * Trap.

(** The inner [loop] of one application. *)
Fixpoint run_app (fuel : nat) (ctx : LocalContext) : st world verdict :=
  match fuel with
  | O => lift Hang
  | S fuel' => fun w =>
      let '(ctx, w, cause) := run ctx w in
      match cause with
      | UserEnvCall =>
          ('(r, ctx) ← handle_syscall ctx;
           match r with
           | RContinue => run_app fuel' ctx
           | RExit code => mret (Exited code)
           | RError id => mret (BadCall id)
           end) w
      | OtherTrap => Done (Killed, w)
      end
  end.

(** One application: its context and a stack of 512 words at [stack]. *)
Definition start_app (fuel : nat) (stack app_base : Z) : st world verdict :=
  ctx ← lift (LocalContext_set_sp (stack + 4096) (LocalContext_user app_base));
  run_app fuel ctx.

(** [println!()]. *)
Definition print_newline : st world unit := fun w => Done ((), print_bytes [10] w).

(** [for (i, app) in AppMeta::locate().iter().enumerate()]; [rounds] bounds the number of applications. *)
Fixpoint run_apps (rounds fuel : nat) (stack : Z) (it : AppIterator) : st world (list verdict) :=
  match rounds with
  | O => lift Hang
  | S rounds' =>
      '(app, it) ← on_mem (AppIterator_next it);
      match app with
      | None => mret []
      | Some (app_base, _) =>
          v ← start_app fuel stack app_base;
          print_newline;;
          vs ← run_apps rounds' fuel stack it;
          mret (v :: vs)
      end
  end.

(** [rust_main] up to the shutdown. *)
Definition rust_main (fuel : nat) (stack : Z) (meta : AppMeta) : st world (list verdict) :=
  run_apps (S (Z.to_nat (am_count meta))) fuel stack (AppMeta_iter meta).
End Loop.

(** ** What a batch is to do *)

(** The methods of the registered traits the kernel does not define. *)
Definition missing : list Z :=
  [READ; OPENAT; CLOSE; LINKAT; UNLINKAT; FSTAT; PIPE2; CLONE; EXECVE; WAIT4; GETPID; SPAWN; BRK].

(** A [write] of [count] bytes at [buf] to [fd]: its answer, and what it leaves of the machine. *)
Definition console_fd (fd : Z) : bool := bool_decide (fd ∈ [STDOUT; STDDEBUG]).
Definition write_answer (fd count : Z) : Z := if console_fd fd then as_usize (as_isize count) else usize_max.
Definition write_effect (fd buf count : Z) (w : world) : world :=
  if console_fd fd then print_bytes (mem_read (w_mem w) buf (Z.to_nat count)) w else w.

Section Batches.
Variable run : LocalContext → world → LocalContext * world * Trap.

(** An application that goes on from [ctx] ends with a verdict: it exits with the number in a0, it makes a call the
    kernel does not dispatch, it traps for another reason, or it writes and goes on behind the call. *)
Inductive app_ends : LocalContext → world → verdict → world → Prop :=
| ends_exit ctx w ctx1 w1 code : run ctx w = (ctx1, w1, UserEnvCall) →
    LocalContext_a 7 ctx1 = Done EXIT → LocalContext_a 0 ctx1 = Done code → app_ends ctx w (Exited code) w1
| ends_unknown ctx w ctx1 w1 id : run ctx w = (ctx1, w1, UserEnvCall) →
    LocalContext_a 7 ctx1 = Done id → id ∉ WRITE :: EXIT :: missing → app_ends ctx w (BadCall id) w1
| ends_fault ctx w ctx1 w1 : run ctx w = (ctx1, w1, OtherTrap) → app_ends ctx w Killed w1
| ends_write ctx w ctx1 w1 fd buf count ctx2 v w' : run ctx w = (ctx1, w1, UserEnvCall) →
    LocalContext_a 7 ctx1 = Done WRITE →
    LocalContext_a 0 ctx1 = Done fd → LocalContext_a 1 ctx1 = Done buf → LocalContext_a 2 ctx1 = Done count →
    LocalContext_set_a 0 (write_answer fd count) ctx1 = Done ctx2 →
    app_ends (LocalContext_move_next ctx2) (write_effect fd buf count w1) v w' → app_ends ctx w v w'.

(** Where an application starts: in user mode with interrupts on, at its first byte, sp above its stack of 512 words
    and the other registers zero. *)
Definition start_context (stack entry : Z) : LocalContext :=
  mkCtx 0 (<[1%nat := stack + 4096]> (replicate 31 0)) entry false true.

(** The applications from number [i] on: each is copied to its place, starts there, comes to its verdict, and an empty
    line is printed before the next. *)
Inductive ran_in_turn (meta : AppMeta) (stack : Z) : Z → world → list verdict → world → Prop :=
| turns_over i w : am_count meta ≤ i → ran_in_turn meta stack i w [] w
| turn_of i w m v w1 vs w2 : i < am_count meta → app_loaded meta i (w_mem w) m →
    app_ends (start_context stack (app_base meta i)) (set_mem m w) v w1 →
    ran_in_turn meta stack (i + 1) (print_bytes [10] w1) vs w2 → ran_in_turn meta stack i w (v :: vs) w2.
End Batches.

(** ** Theorems *)

Lemma call_args_run ctx : ctx_wf ctx → ∃ args, call_args ctx = Done args ∧
  LocalContext_a 0 ctx = Done (nth 0 args 0) ∧ LocalContext_a 1 ctx = Done (nth 1 args 0) ∧
  LocalContext_a 2 ctx = Done (nth 2 args 0).
Proof.
  intros Hwf. unfold call_args.
  destruct (a_run 0 ctx Hwf) as (a0 & ->); [lia|]. destruct (a_run 1 ctx Hwf) as (a1 & ->); [lia|].
  destruct (a_run 2 ctx Hwf) as (a2 & ->); [lia|]. destruct (a_run 3 ctx Hwf) as (a3 & ->); [lia|].
  destruct (a_run 4 ctx Hwf) as (a4 & ->); [lia|]. destruct (a_run 5 ctx Hwf) as (a5 & ->); [lia|].
  by exists [a0; a1; a2; a3; a4; a5].
Qed.

(** Split on the numbers [handle] compares [id] with; every comparison that holds computes. *)
Ltac by_number id :=
  repeat match goal with
  | |- context [if id =? ?n then _ else _] =>
      let E := fresh "E" in destruct (id =? n) eqn:E; [apply Z.eqb_eq in E; subst id; reflexivity|]
  end.

Lemma handle_registry id a w : handle registry id a w =
  if id =? WRITE then (r ← write (a 0) (a 1) (a 2); mret (RDone r)) w
  else if id =? EXIT then Done (RDone 0, w)
  else if existsb (Z.eqb id) missing then Panic
  else Done (Unsupported id, w).
Proof.
  unfold handle, missing, existsb. by_number id.
  repeat match goal with H : (id =? _) = false |- _ => rewrite H; clear H end. reflexivity.
Qed.

(** What [handle_syscall] makes of the answer of the dispatcher. *)
Lemma handle_syscall_run ctx w id args r w' : LocalContext_a 7 ctx = Done id → call_args ctx = Done args →
  handle registry id (fun n => nth (Z.to_nat n) args 0) w = Done (r, w') →
  handle_syscall ctx w = (match r with
    | RDone ret =>
        if id =? EXIT then code ← lift (LocalContext_a 0 ctx); mret (RExit code, ctx)
        else ctx ← lift (LocalContext_set_a 0 (as_usize ret) ctx); mret (RContinue, LocalContext_move_next ctx)
    | Unsupported id => mret (RError id, ctx)
    end : st world _) w'.
Proof.
  intros Hid Ha Hh. unfold handle_syscall.
  by rewrite (st_bind_run _ _ _ _ _ (lift_run _ _ _ Hid)), (st_bind_run _ _ _ _ _ (lift_run _ _ _ Ha)),
    (st_bind_run _ _ _ _ _ Hh).
Qed.

(** A call that returns [ret]. *)
Lemma continue_run ctx (w : world) ret : ctx_wf ctx → ∃ ctx', ctx_wf ctx' ∧ sepc ctx' = as_usize (sepc ctx + 4) ∧
  LocalContext_a 0 ctx' = Done (as_usize ret) ∧
  ((ctx ← lift (LocalContext_set_a 0 (as_usize ret) ctx); mret (RContinue, LocalContext_move_next ctx)) : st world _) w
    = Done ((RContinue, ctx'), w).
Proof.
  intros Hwf. destruct (set_a_run 0 (as_usize ret) ctx Hwf) as (c & Hs & Hc & Ha & Hp); [lia|].
  exists (LocalContext_move_next c). split_and!; [done|simpl; by rewrite Hp|done|].
  by rewrite (st_bind_run _ _ _ _ _ (lift_run _ _ _ Hs)).
Qed.

Lemma existsb_missing id : existsb (Z.eqb id) missing = bool_decide (id ∈ missing).
Proof.
  destruct (existsb _ _) eqn:E; symmetry.
  - apply bool_decide_eq_true. apply existsb_exists in E as (x & Hx & ->%Z.eqb_eq). by apply list_elem_of_In.
  - apply bool_decide_eq_false. intros Hin%list_elem_of_In. apply not_true_iff_false in E. apply E.
    apply existsb_exists. exists id. split; [done|apply Z.eqb_refl].
Qed.

(** The effect of every system call of an application: [write] to the console prints exactly the bytes of the buffer
    and answers their number, any other descriptor answers -1; [exit] ends the application with its argument; a number
    the kernel does not dispatch ends it too; the calls of the registered traits the kernel leaves out stop the kernel
    itself.  Nothing else happens to the machine, and a call that returns continues after the [ecall] with its answer
    in a0. *)
Theorem batch_syscall_effect ctx w id fd buf count :
  ctx_wf ctx → LocalContext_a 7 ctx = Done id → LocalContext_a 0 ctx = Done fd → LocalContext_a 1 ctx = Done buf →
  LocalContext_a 2 ctx = Done count →
  if decide (id = WRITE) then
    ∃ ctx', ctx_wf ctx' ∧ sepc ctx' = as_usize (sepc ctx + 4) ∧
      if decide (fd = STDOUT ∨ fd = STDDEBUG)
      then handle_syscall ctx w =
             Done ((RContinue, ctx'), print_bytes (mem_read (w_mem w) buf (Z.to_nat count)) w) ∧
           LocalContext_a 0 ctx' = Done (as_usize (as_isize count))
      else handle_syscall ctx w = Done ((RContinue, ctx'), w) ∧ LocalContext_a 0 ctx' = Done usize_max
  else if decide (id = EXIT) then handle_syscall ctx w = Done ((RExit fd, ctx), w)
  else if decide (id ∈ missing) then handle_syscall ctx w = Panic
  else handle_syscall ctx w = Done ((RError id, ctx), w).
Proof.
  intros Hwf Hid H0 H1 H2. destruct (call_args_run ctx Hwf) as (args & Ha & A0 & A1 & A2).
  rewrite H0 in A0. rewrite H1 in A1. rewrite H2 in A2. injection A0 as A0. injection A1 as A1. injection A2 as A2.
  pose proof (handle_registry id (fun n => nth (Z.to_nat n) args 0) w) as Hh. cbv beta in Hh.
  change (Z.to_nat 0) with 0%nat in Hh. change (Z.to_nat 1) with 1%nat in Hh. change (Z.to_nat 2) with 2%nat in Hh.
  rewrite <-A0, <-A1, <-A2, existsb_missing in Hh. destruct (decide (id = WRITE)) as [->|Hw].
  - rewrite Z.eqb_refl in Hh. unfold write in Hh.
    destruct (decide (fd = STDOUT ∨ fd = STDDEBUG)) as [Hfd|Hfd].
    + assert ((fd =? STDOUT) || (fd =? STDDEBUG) = true) as Ho by (destruct Hfd as [->| ->]; done).
      unfold mbind, st_bind in Hh. rewrite Ho in Hh. simpl in Hh.
      destruct (continue_run ctx (print_bytes (mem_read (w_mem w) buf (Z.to_nat count)) w) (as_isize count) Hwf)
        as (ctx' & Hc & Hpc & Ha0 & Hrun).
      exists ctx'. split_and!; [done..| |done]. by rewrite (handle_syscall_run _ _ _ _ _ _ Hid Ha Hh).
    + assert ((fd =? STDOUT) || (fd =? STDDEBUG) = false) as Ho.
      { apply orb_false_iff. rewrite !Z.eqb_neq. naive_solver. }
      unfold mbind, st_bind in Hh. rewrite Ho in Hh. simpl in Hh.
      destruct (continue_run ctx w (-1) Hwf) as (ctx' & Hc & Hpc & Ha0 & Hrun).
      exists ctx'. split_and!; [done..| |done]. by rewrite (handle_syscall_run _ _ _ _ _ _ Hid Ha Hh).
  - rewrite (proj2 (Z.eqb_neq id WRITE) Hw) in Hh. destruct (decide (id = EXIT)) as [->|He].
    + rewrite (handle_syscall_run _ _ _ _ _ _ Hid Ha Hh). simpl. by rewrite (st_bind_run _ _ _ _ _ (lift_run _ _ _ H0)).
    + rewrite (proj2 (Z.eqb_neq id EXIT) He) in Hh. case_bool_decide; [rewrite decide_True by done|rewrite decide_False by done].
      * unfold handle_syscall. rewrite (st_bind_run _ _ _ _ _ (lift_run _ _ _ Hid)), (st_bind_run _ _ _ _ _ (lift_run _ _ _ Ha)).
        unfold mbind, st_bind. by rewrite Hh.
      * by rewrite (handle_syscall_run _ _ _ _ _ _ Hid Ha Hh).
Qed.

(** Applications that make no call the kernel leaves out, at most [N] calls each, and do not write to the table of
    applications; [left] counts the calls to come. *)
Record tame (meta : AppMeta) (run : LocalContext → world → LocalContext * world * Trap)
    (left : LocalContext → world → nat) (N : nat) : Prop := {
  tame_wf ctx w : ctx_wf ctx → ctx_wf (run ctx w).1.1;
  tame_call ctx w : ctx_wf ctx → (run ctx w).2 = UserEnvCall →
    ∃ id, LocalContext_a 7 (run ctx w).1.1 = Done id ∧ id ∉ missing;
  tame_left ctx w ctx' w' : ctx_wf ctx → (run ctx w).2 = UserEnvCall →
    handle_syscall (run ctx w).1.1 (run ctx w).1.2 = Done ((RContinue, ctx'), w') → (left ctx' w' < left ctx w)%nat;
  tame_bound ctx w : (left ctx w < N)%nat;
  tame_table ctx w : same_table meta (w_mem w) (w_mem (run ctx w).1.2);
}.

(** A [write] answers [write_answer] in a0 and goes on behind the [ecall]. *)
Lemma handle_syscall_write ctx w : ctx_wf ctx → LocalContext_a 7 ctx = Done WRITE → ∃ fd buf count ctx2,
  LocalContext_a 0 ctx = Done fd ∧ LocalContext_a 1 ctx = Done buf ∧ LocalContext_a 2 ctx = Done count ∧
  LocalContext_set_a 0 (write_answer fd count) ctx = Done ctx2 ∧ ctx_wf ctx2 ∧
  handle_syscall ctx w = Done ((RContinue, LocalContext_move_next ctx2), write_effect fd buf count w).
Proof.
  intros Hwf Hid. destruct (call_args_run ctx Hwf) as (args & Ha & A0 & A1 & A2).
  destruct (set_a_run 0 (write_answer (nth 0 args 0) (nth 2 args 0)) ctx Hwf) as (ctx2 & Hs & Hc & _); [lia|].
  exists (nth 0 args 0), (nth 1 args 0), (nth 2 args 0), ctx2.
  split; [exact A0|]. split; [exact A1|]. split; [exact A2|]. split; [exact Hs|]. split; [exact Hc|].
  pose proof (handle_registry WRITE (fun n => nth (Z.to_nat n) args 0) w) as Hh. rewrite Z.eqb_refl in Hh.
  assert ((nth 0 args 0 =? STDOUT) || (nth 0 args 0 =? STDDEBUG) = console_fd (nth 0 args 0)) as Hfd.
  { unfold console_fd. apply eq_bool_prop_intro.
    rewrite !Is_true_true, orb_true_iff, !Z.eqb_eq, bool_decide_eq_true, !elem_of_cons, elem_of_nil. tauto. }
  unfold write, mbind, st_bind in Hh. change (Z.to_nat 0) with 0%nat in Hh. rewrite Hfd in Hh.
  unfold write_effect, write_answer in *. destruct (console_fd (nth 0 args 0)); simpl in Hh;
    rewrite (handle_syscall_run _ _ _ _ _ _ Hid Ha Hh); simpl; by rewrite (st_bind_run _ _ _ _ _ (lift_run _ _ _ Hs)).
Qed.

Lemma handle_syscall_exit ctx w : ctx_wf ctx → LocalContext_a 7 ctx = Done EXIT →
  ∃ code, LocalContext_a 0 ctx = Done code ∧ handle_syscall ctx w = Done ((RExit code, ctx), w).
Proof.
  intros Hwf Hid. destruct (call_args_run ctx Hwf) as (args & Ha & A0 & _). eexists. split; [exact A0|].
  pose proof (handle_registry EXIT (fun n => nth (Z.to_nat n) args 0) w) as Hh.
  rewrite (handle_syscall_run _ _ _ _ _ _ Hid Ha Hh). simpl. by rewrite (st_bind_run _ _ _ _ _ (lift_run _ _ _ A0)).
Qed.

Lemma handle_syscall_unknown ctx w id : ctx_wf ctx → LocalContext_a 7 ctx = Done id → id ∉ WRITE :: EXIT :: missing →
  handle_syscall ctx w = Done ((RError id, ctx), w).
Proof.
  intros Hwf Hid Hm. destruct (call_args_run ctx Hwf) as (args & Ha & _).
  apply not_elem_of_cons in Hm as [Hw Hm]. apply not_elem_of_cons in Hm as [He Hm].
  pose proof (handle_registry id (fun n => nth (Z.to_nat n) args 0) w) as Hh.
  rewrite (proj2 (Z.eqb_neq _ _) Hw), (proj2 (Z.eqb_neq _ _) He), existsb_missing, bool_decide_eq_false_2 in Hh by done.
  by rewrite (handle_syscall_run _ _ _ _ _ _ Hid Ha Hh).
Qed.

Lemma write_effect_mem fd buf count w : w_mem (write_effect fd buf count w) = w_mem w.
Proof. unfold write_effect. by destruct (console_fd fd). Qed.

Lemma run_app_total meta run left N fuel ctx w : tame meta run left N → ctx_wf ctx → (left ctx w < fuel)%nat →
  ∃ v w', run_app run fuel ctx w = Done (v, w') ∧ app_ends run ctx w v w' ∧ same_table meta (w_mem w) (w_mem w').
Proof.
  intros Ht. revert ctx w. induction fuel as [|fuel IH]; intros ctx w Hwf Hf; [lia|]. simpl.
  pose proof (tame_wf _ _ _ _ Ht ctx w Hwf) as Hwf1. pose proof (tame_call _ _ _ _ Ht ctx w Hwf) as Hcall.
  pose proof (tame_left _ _ _ _ Ht ctx w) as Hleft. pose proof (tame_table _ _ _ _ Ht ctx w) as Htab.
  destruct (run ctx w) as [[ctx1 w1] cause] eqn:E. simpl in *.
  destruct cause; [|eexists _, w1; split_and!; [done|by eapply ends_fault|done]]. destruct (Hcall eq_refl) as (id & Hid & Hm).
  destruct (decide (id = WRITE)) as [->|Hw].
  { destruct (handle_syscall_write ctx1 w1 Hwf1 Hid) as (fd & buf & count & ctx2 & H0 & H1 & H2 & Hs & Hwf2 & Hh).
    rewrite (st_bind_run _ _ _ _ _ Hh). rewrite <-(write_effect_mem fd buf count w1) in Htab.
    destruct (IH (LocalContext_move_next ctx2) (write_effect fd buf count w1)) as (v & w3 & Hv & He & Htab2);
      [done|pose proof (Hleft _ _ Hwf eq_refl Hh); lia|].
    exists v, w3. split_and!; [done|by eapply ends_write|by eapply same_bytes_trans]. }
  destruct (decide (id = EXIT)) as [->|He].
  - destruct (handle_syscall_exit ctx1 w1 Hwf1 Hid) as (code & H0 & Hh). rewrite (st_bind_run _ _ _ _ _ Hh).
    eexists _, w1. split; [done|]. split; [by eapply ends_exit|done].
  - assert (id ∉ WRITE :: EXIT :: missing) as Hu by (by rewrite !not_elem_of_cons).
    rewrite (st_bind_run _ _ _ _ _ (handle_syscall_unknown ctx1 w1 id Hwf1 Hid Hu)).
    eexists _, w1. split; [done|]. split; [by eapply ends_unknown|done].
Qed.

Lemma run_apps_total meta run left N stack rounds i w : tame meta run left N → table_clear meta → 0 ≤ i →
  apps_ok meta (w_mem w) → Z.max 0 (am_count meta - i) < Z.of_nat rounds →
  ∃ vs w', run_apps run rounds N stack (mkAppIterator meta i) w = Done (vs, w') ∧
    length vs = Z.to_nat (am_count meta - i) ∧ ran_in_turn run meta stack i w vs w'.
Proof.
  intros Ht Hc. revert i w. induction rounds as [|rounds IH]; intros i w Hi Hok Hr.
  { lia. }
  simpl. destruct (decide (am_count meta ≤ i)) as [Hend|Hlt].
  { exists [], w. rewrite (st_bind_run _ _ _ _ _ (on_mem_run _ _ _ _ (app_next_end _ _ _ Hend))).
    split_and!; [by destruct w|simpl; lia|by constructor]. }
  destruct (app_next_run meta (w_mem w) i Hok ltac:(lia)) as (m' & Hn & Hl).
  rewrite (st_bind_run _ _ _ _ _ (on_mem_run _ _ _ _ Hn)). pose proof (app_loaded_table meta i _ _ Hc ltac:(lia) Hl) as Htab.
  set (ctx := start_context stack (app_base meta i)).
  assert (LocalContext_set_sp (stack + 4096) (LocalContext_user (app_base meta i)) = Done ctx) as Hsp
    by (by apply ctx_set_x_run).
  destruct (run_app_total meta run left N N ctx (set_mem m' w) Ht eq_refl) as (v & w1 & Hv & Hends & Htab1); [apply Ht|].
  destruct (IH (i + 1) (print_bytes [10] w1)) as (vs & w2 & Hvs & Hlen & Hturn); [lia| |lia|].
  { eapply apps_ok_same; [exact Htab1|]. by eapply apps_ok_same. }
  exists (v :: vs), w2. split_and!; [|simpl; lia|by econstructor; [lia|..]]. unfold start_app, mbind at 1, st_bind at 1.
  rewrite (st_bind_run _ _ _ _ _ (lift_run _ _ _ Hsp)), Hv. unfold print_newline, mbind at 1, st_bind at 1.
  by rewrite (st_bind_run _ _ _ _ _ Hvs).
Qed.

(** C39: The batch finishes: when every application makes finitely many calls, none of them among those the kernel leaves
    out, and leaves the table of applications alone, the kernel reaches its shutdown with one verdict for each application,
    in order.  Each, whatever those before it did, is copied to its place with zeros behind it, starts at its first byte in
    user mode with sp above its stack and all other registers zero, and gets the verdict its own run earns: the code it
    exits with, the number of a call the kernel does not know, or killed by a fault; until then each [write] prints its
    bytes, or answers -1 for a descriptor that is not the console, and goes on behind the call. *)
Theorem batch_completes meta run left N stack w : tame meta run left N → table_clear meta → apps_ok meta (w_mem w) →
  ∃ vs w', rust_main run N stack meta w = Done (vs, w') ∧ length vs = Z.to_nat (am_count meta) ∧
    ran_in_turn run meta stack 0 w vs w'.
Proof.
  intros Ht Hc Hok. destruct (run_apps_total meta run left N stack (S (Z.to_nat (am_count meta))) 0 w Ht Hc) as (vs & w' & H);
    [lia|done|lia|]. exists vs, w'. by rewrite Z.sub_0_r in H.
Qed.

(** An application that exits at once. *)
Definition demo_app (ctx : LocalContext) (w : world) : LocalContext * world * Trap :=
  (mkCtx 0 (<[16%nat := EXIT]> (ctx_x ctx)) (sepc ctx) false true, w, UserEnvCall).
Definition demo_world : world := mkWorld (fun a => a mod 256) 0 0 [].
(** Two applications, of 4 and 5 bytes, that run at 0x80400000. *)
Definition demo_meta : AppMeta := mkAppMeta 0x80400000 0 2 0x1018.
Definition demo_image : world :=
  mkWorld (write_word 0x1018 0x2000 (write_word 0x1020 0x2004 (write_word 0x1028 0x2009 (fun a => a mod 256)))) 0 0 [].

Lemma demo_app_call ctx w : ctx_wf ctx → LocalContext_a 7 (demo_app ctx w).1.1 = Done EXIT.
Proof.
  intros Hwf. unfold ctx_wf in Hwf. rewrite ctx_a_eq by lia. unfold LocalContext_x, usize_sub.
  rewrite checked_ok by (unfold usize_max; lia). simpl. by rewrite list_lookup_insert_eq by lia.
Qed.

Lemma demo_app_tame : tame demo_meta demo_app (fun _ _ => O) 1.
Proof.
  split.
  - intros ctx w Hwf. unfold ctx_wf in *. simpl. by rewrite length_insert.
  - intros ctx w Hwf _. exists EXIT. split; [by apply demo_app_call|].
    unfold missing. rewrite !not_elem_of_cons. repeat split; [done..|apply not_elem_of_nil].
  - intros ctx w ctx' w' Hwf _. set (c := (demo_app ctx w).1.1).
    assert (ctx_wf c) as Hc by (unfold c, ctx_wf in *; simpl; by rewrite length_insert).
    destruct (call_args_run c Hc) as (args & Ha & A0 & _).
    rewrite (handle_syscall_run c _ EXIT args (RDone 0) w); [|by apply demo_app_call|done|by rewrite handle_registry].
    simpl. by rewrite (st_bind_run _ _ _ _ _ (lift_run _ _ _ A0)).
  - intros. lia.
  - intros. apply same_bytes_refl.
Qed.

Lemma demo_image_ok : apps_ok demo_meta (w_mem demo_image).
Proof.
  split; [| |done]; intros i Hi; simpl in Hi; (assert (i = 0 ∨ i = 1) as [-> | ->] by lia); vm_compute; split; congruence.
Qed.

Lemma demo_table_clear : table_clear demo_meta.
Proof. intros i Hi. simpl in Hi. right. (assert (i = 0 ∨ i = 1) as [-> | ->] by lia); vm_compute; congruence. Qed.

Lemma batch_completes_witness : ∃ vs w', rust_main demo_app 1 8192 demo_meta demo_image = Done (vs, w') ∧ length vs = 2%nat ∧
  ran_in_turn demo_app demo_meta 8192 0 demo_image vs w'.
Proof.
  apply (batch_completes demo_meta demo_app (fun _ _ => O) 1 8192 demo_image);
    [apply demo_app_tame|apply demo_table_clear|apply demo_image_ok].
Defined.

(** [write(1, 64, 3)]. *)
Definition demo_write : LocalContext :=
  mkCtx 0 (<[16%nat := WRITE]> (<[11%nat := 3]> (<[10%nat := 64]> (<[9%nat := 1]> (replicate 31 0))))) 4096 false true.

Lemma batch_syscall_effect_witness : ∃ ctx', ctx_wf ctx' ∧ sepc ctx' = 4100 ∧
  handle_syscall demo_write demo_world = Done ((RContinue, ctx'), print_bytes [64; 65; 66] demo_world) ∧
  LocalContext_a 0 ctx' = Done 3.
Proof.
  apply (batch_syscall_effect demo_write demo_world WRITE 1 64 3); reflexivity.
Defined.
End Batch.
