(* ===== verification/TaskKernel.v ===== *)
(** * The time-sharing kernel

    Models [tg-rcore-tutorial-ch3/src/{main,task}.rs]: task control blocks in a fixed array, the system calls, and the
    main loop, which gives each unfinished task a time slice in turn.

    The task control blocks are kernel data: user programs and the [trace] call reach the bytes of [world] only. *)

From S2P Require Import Prelude Bytes Memory Linker KernelContext Syscall BatchKernel.

Module Tasks.
(** ** Data

    [stack] is the address of the 1024 words of the user stack. *)
Record TaskControlBlock := mkTCB { ctx : LocalContext; finish : bool; stack : Z; syscall_count : list Z }.
Definition APP_CAPACITY : Z := 32.

Inductive SchedulingEvent := ENone | EYield | EExit (code : Z) | EUnsupportedSyscall (id : Z).

(** The array of [rust_main], the task whose call is being served ([Caller::entity]) and the machine. *)
Record tasks := mkTasks { tcbs : list TaskControlBlock; entity : nat; wd : world }.
Implicit Types (s : tasks).

Definition TaskControlBlock_ZERO (stack : Z) : TaskControlBlock := mkTCB LocalContext_empty false stack (replicate 500 0).

Definition set_world (w : world) s : tasks := mkTasks (tcbs s) (entity s) w.
Definition set_entity (i : nat) s : tasks := mkTasks (tcbs s) i (wd s).
Definition set_tcb (i : nat) (t : TaskControlBlock) s : tasks := mkTasks (<[i := t]> (tcbs s)) (entity s) (wd s).
(** [tcbs[i]]. *)
Definition tcb_at (i : nat) : st tasks TaskControlBlock := fun s => t ← unwrap (tcbs s !! i); Done (t, s).
Definition put_tcb (i : nat) (t : TaskControlBlock) : st tasks unit := fun s => Done ((), set_tcb i t s).
Definition on_world (f : world → world) : st tasks unit := fun s => Done ((), set_world (f (wd s)) s).

(** [self.stack.fill(0)], a fresh user context, the stack pointer at the end of the stack. *)
Definition TaskControlBlock_init (i : nat) (entry : Z) : st tasks unit :=
  t ← tcb_at i;
  on_world (fun w => set_mem (mem_zero (stack t) 8192 (w_mem w)) w);;
  c ← lift (LocalContext_set_sp (stack t + 8192) (LocalContext_user entry));
  put_tcb i (mkTCB c false (stack t) (syscall_count t)).

(** ** System calls *)
Definition write (fd buf count : Z) : st tasks Z := fun s =>
  if (fd =? STDOUT) || (fd =? STDDEBUG)
  then Done (as_isize count, set_world (print_bytes (mem_read (w_mem (wd s)) buf (Z.to_nat count)) (wd s)) s)
  else Done (-1, s).
Definition exit (status : Z) : st tasks Z := mret 0.
Definition sched_yield : st tasks Z := mret 0.

Definition CLOCK_MONOTONIC : Z := 1.
(** [TimeSpec] in memory: two words. *)
Definition timespec_bytes (t : TimeSpec) : list Z := le_encode 8 (tv_sec t) ++ le_encode 8 (tv_nsec t).
Definition clock_gettime (clock_id tp : Z) : st tasks Z := fun s =>
  if clock_id =? CLOCK_MONOTONIC then
    ticks ← usize_mul (w_time (wd s)) 10000;
    let time := ticks / 125 in
    let t := mkTimeSpec (time / 1000000000) (time mod 1000000000) in
    Done (0, set_world (set_mem (mem_write tp (timespec_bytes t) (w_mem (wd s))) (wd s)) s)
  else Done (-1, s).

Definition trace (trace_request id data : Z) : st tasks Z := fun s =>
  if trace_request =? 0 then Done (w_mem (wd s) id, s)
  else if trace_request =? 1 then
    Done (0, set_world (set_mem (mem_write id [as_u8 data] (w_mem (wd s))) (wd s)) s)
  else if trace_request =? 2 then
    t ← unwrap (tcbs s !! entity s);
    n ← unwrap (syscall_count t !! Z.to_nat id);
    Done (n, s)
  else Done (-1, s).

Definition SyscallContext_io : IOSys tasks :=
  mkIOSys _ (fun _ _ _ => unimplemented) write (fun _ _ => unimplemented) (fun _ => unimplemented)
    (fun _ _ _ _ _ => unimplemented) (fun _ => unimplemented) (fun _ _ _ => unimplemented) (fun _ _ => unimplemented).
Definition SyscallContext_process : ProcessSys tasks :=
  mkProcessSys _ exit unimplemented (fun _ _ => unimplemented) (fun _ _ => unimplemented) unimplemented
    (fun _ _ => unimplemented) (fun _ => unimplemented).
Definition SyscallContext_scheduling : SchedulingSys tasks := mkSchedulingSys _ sched_yield (fun _ => unimplemented).
Definition SyscallContext_clock : ClockSys tasks := mkClockSys _ clock_gettime.
Definition SyscallContext_trace : TraceSys tasks := mkTraceSys _ trace.
Definition registry : Registry tasks :=
  mkRegistry (Some SyscallContext_process) (Some SyscallContext_io) None (Some SyscallContext_scheduling)
    (Some SyscallContext_clock) None None None (Some SyscallContext_trace).

(** [TaskControlBlock::handle_syscall] of task [i]. *)
Definition handle_syscall (i : nat) : st tasks SchedulingEvent :=
  t ← tcb_at i;
  id ← lift (LocalContext_a 7 (ctx t));
  args ← lift (Batch.call_args (ctx t));
  n ← lift (unwrap (syscall_count t !! Z.to_nat id));
  n ← lift (u32_add n 1);
  put_tcb i (mkTCB (ctx t) (finish t) (stack t) (<[Z.to_nat id := n]> (syscall_count t)));;
  (fun s => Done ((), set_entity i s));;
  r ← handle registry id (fun n => nth (Z.to_nat n) args 0);
  t ← tcb_at i;
  match r with
  | RDone ret =>
      if id =? EXIT then
        code ← lift (LocalContext_a 0 (ctx t));
        mret (EExit code)
      else
        c ← lift (LocalContext_set_a 0 (as_usize ret) (ctx t));
        put_tcb i (mkTCB (LocalContext_move_next c) (finish t) (stack t) (syscall_count t));;
        mret (if id =? SCHED_YIELD then EYield else ENone)
  | Unsupported id => mret (EUnsupportedSyscall id)
  end.

(** ** The main loop *)
Inductive Trap := SupervisorTimer | UserEnvCall | OtherException | OtherInterrupt.

Section Loop.
(** What a task does in user mode until its next trap. *)
Variable run : LocalContext → world → LocalContext * world * Trap.

(** [tcb.execute()]. *)
Definition execute (i : nat) : st tasks Trap := fun s =>
  '(t, s) ← tcb_at i s;
  let '(c, w, cause) := run (ctx t) (wd s) in
  Done (cause, set_tcb i (mkTCB c (finish t) (stack t) (syscall_count t)) (set_world w s)).

(** The inner [loop]: one time slice of task [i]; the answer says whether the task has ended. *)
Fixpoint slice (fuel : nat) (i : nat) : st tasks bool :=
  match fuel with
  | O => lift Hang
  | S fuel' => fun s =>
      deadline ← checked 0 usize_max (w_time (wd s) + 12500);
      (on_world (set_timer deadline);;
       cause ← execute i;
       match cause with
       | SupervisorTimer => on_world (set_timer usize_max);; mret false
       | UserEnvCall =>
           e ← handle_syscall i;
           match e with
           | ENone => slice fuel' i
           | EExit _ => mret true
           | EYield => mret false
           | EUnsupportedSyscall _ => mret true
           end
       | OtherException => mret true
       | OtherInterrupt => mret true
       end) s
  end.

(** [tcb.finish = true]. *)
Definition mark_finished (i : nat) : st tasks unit :=
  t ← tcb_at i;
  put_tcb i (mkTCB (ctx t) true (stack t) (syscall_count t)).

(** [while remain > 0]; the answer lists the slices given, with their verdicts. *)
Fixpoint main_loop (fuel slice_fuel index_mod remain i : nat) : st tasks (list (nat * bool)) :=
  match fuel with
  | O => lift Hang
  | S fuel' =>
      if (0 <? remain)%nat then
        tcb ← tcb_at i;
        '(remain, log) ←
          (if finish tcb then mret (remain, [])
           else
             fin ← slice slice_fuel i;
             if fin : bool then
               mark_finished i;;
               r ← lift (usize_sub (Z.of_nat remain) 1);
               mret (Z.to_nat r, [(i, true)])
             else mret (remain, [(i, false)]));
        rest ← main_loop fuel' slice_fuel index_mod remain ((i + 1) mod index_mod);
        mret (log ++ rest)
      else mret []
  end.

(** [for (i, app) in AppMeta::locate().iter().enumerate()]: the number of applications loaded; [rounds] bounds it. *)
Fixpoint load_apps (rounds : nat) (it : AppIterator) (i : nat) : st tasks nat :=
  match rounds with
  | O => lift Hang
  | S rounds' =>
      '(app, it) ← (fun s => '(r, w) ← on_mem (AppIterator_next it) (wd s); Done (r, set_world w s));
      match app with
      | None => mret i
      | Some (entry, _) =>
          TaskControlBlock_init i entry;;
          load_apps rounds' it (S i)
      end
  end.

(** The array of zero blocks; their stacks lie at [stacks]. *)
Definition zero_blocks (stacks : list Z) (w : world) : tasks :=
  mkTasks (TaskControlBlock_ZERO <$> take (Z.to_nat APP_CAPACITY) stacks) 0 w.

(** [rust_main], from the array of zero blocks to the shutdown. *)
Definition rust_main (fuel slice_fuel : nat) (stacks : list Z) (meta : AppMeta) (w : world) :
    outcome (list (nat * bool) * tasks) :=
  (index_mod ← load_apps (S (Z.to_nat (am_count meta))) (AppMeta_iter meta) 0;
   main_loop fuel slice_fuel index_mod index_mod 0) (zero_blocks stacks w).
End Loop.

(** ** What a slice leaves alone *)
Definition flags s : list bool := finish <$> tcbs s.

Lemma bind_inv {A B} (m : st tasks A) (k : A → st tasks B) s b s' : (m ≫= k) s = Done (b, s') →
  ∃ a s1, m s = Done (a, s1) ∧ k a s1 = Done (b, s').
Proof. apply st_bind_Done. Qed.

Lemma tcb_at_inv i s t s' : tcb_at i s = Done (t, s') → s' = s ∧ tcbs s !! i = Some t.
Proof. unfold tcb_at. intros H. inv_run. done. Qed.

Lemma lift_inv {A} (m : outcome A) a s s' : lift (S := tasks) m s = Done (a, s') → m = Done a ∧ s' = s.
Proof. destruct m; simpl; naive_solver. Qed.

Lemma set_tcb_flags i t t' s : tcbs s !! i = Some t → finish t' = finish t → flags (set_tcb i t' s) = flags s.
Proof.
  intros Hi Ht. unfold flags, set_tcb. simpl. rewrite list_fmap_insert, Ht. apply list_insert_id.
  by rewrite list_lookup_fmap, Hi.
Qed.

(** The calls work on the machine. *)
Lemma handle_tcbs id a s r s' : handle registry id a s = Done (r, s') → tcbs s' = tcbs s.
Proof.
  unfold handle.
  repeat match goal with
  | |- context [if id =? ?n then _ else _] =>
      destruct (id =? n); [unfold Container_call, registry; simpl; try discriminate;
        try (intros (v & s1 & H & [= _ <-])%bind_inv; revert H)|]
  end.
  all: try (unfold exit, sched_yield; intros H; injection H as _ <-; reflexivity).
  - unfold write. destruct (_ || _); by intros [= _ <-].
  - unfold clock_gettime. destruct (_ =? _); intros H; inv_run; done.
  - unfold trace. destruct (_ =? 0); [by intros [= _ <-]|]. destruct (_ =? 1); [by intros [= _ <-]|].
    destruct (_ =? 2); intros H; inv_run; done.
Qed.

Lemma handle_syscall_flags i s e s' : handle_syscall i s = Done (e, s') → flags s' = flags s.
Proof.
  unfold handle_syscall. intros (t & s1 & [-> Ht]%tcb_at_inv & H)%bind_inv.
  apply bind_inv in H as (id & s2 & [_ ->]%lift_inv & H). apply bind_inv in H as (args & s3 & [_ ->]%lift_inv & H).
  apply bind_inv in H as (n & s4 & [_ ->]%lift_inv & H). apply bind_inv in H as (n' & s5 & [_ ->]%lift_inv & H).
  apply bind_inv in H as (u & s6 & [= _ <-] & H). apply bind_inv in H as (u' & s7 & [= _ <-] & H).
  apply bind_inv in H as (r & s8 & Hh & H). apply handle_tcbs in Hh. simpl in Hh.
  apply bind_inv in H as (t2 & s9 & [-> Ht2]%tcb_at_inv & H).
  assert (flags s8 = flags s) as Hf8.
  { unfold flags. rewrite Hh. by apply (set_tcb_flags i t _ s). }
  destruct r as [ret|]; [|by injection H as _ <-]. destruct (id =? EXIT).
  - apply bind_inv in H as (code & s10 & [_ ->]%lift_inv & [= _ <-]). done.
  - apply bind_inv in H as (c & s10 & [_ ->]%lift_inv & H). apply bind_inv in H as (u2 & s11 & [= _ <-] & [= _ <-]).
    rewrite <-Hf8. by eapply set_tcb_flags.
Qed.

Lemma execute_flags run i s c s' : execute run i s = Done (c, s') → flags s' = flags s.
Proof.
  unfold execute. intros H. apply bind_Done in H as ([t s1] & [-> Ht]%tcb_at_inv & H).
  destruct (run (ctx t) (wd s)) as [[c1 w] cause]. injection H as _ <-.
  change (flags s) with (flags (set_world w s)). by apply (set_tcb_flags i t).
Qed.

Lemma slice_flags run fuel i s b s' : slice run fuel i s = Done (b, s') → flags s' = flags s.
Proof.
  revert s. induction fuel as [|fuel IH]; intros s; [done|]. simpl. intros H.
  apply bind_Done in H as (dl & _ & H). apply bind_inv in H as (u & s1 & [= _ <-] & H).
  apply bind_inv in H as (cause & s2 & Hx & H). apply execute_flags in Hx.
  change (flags s2 = flags s) in Hx. destruct cause.
  - apply bind_inv in H as (u' & s3 & [= _ <-] & [= _ <-]). done.
  - apply bind_inv in H as (e & s3 & He & H). apply handle_syscall_flags in He.
    destruct e; [apply IH in H; congruence|injection H as _ <-; congruence..].
  - by injection H as _ <-.
  - by injection H as _ <-.
Qed.

(** ** Round robin *)

(** The textbook scheduler: a queue of the unfinished tasks; the head gets a slice and goes to the back. *)
Fixpoint queue_loop run (fuel slice_fuel : nat) (q : list nat) : st tasks (list (nat * bool)) :=
  match fuel with
  | O => lift Hang
  | S fuel' =>
      match q with
      | [] => mret []
      | i :: q' =>
          fin ← slice run slice_fuel i;
          if fin : bool then
            mark_finished i;;
            rest ← queue_loop run fuel' slice_fuel q';
            mret ((i, true) :: rest)
          else
            rest ← queue_loop run fuel' slice_fuel (q' ++ [i]);
            mret ((i, false) :: rest)
      end
  end.

(** The tasks in the order the array is scanned from [i], and those of them that have not finished. *)
Definition order (n i : nat) : list nat := seq i (n - i) ++ seq 0 i.
Definition pending (n i : nat) s : list nat := filter (fun j => flags s !! j = Some false) (order n i).

Lemma order_step n i : (i < n)%nat → ∃ rest, order n i = i :: rest ∧ order n ((i + 1) mod n) = rest ++ [i].
Proof.
  intros Hi. unfold order. exists (seq (S i) (n - S i) ++ seq 0 i).
  replace (n - i)%nat with (S (n - S i)) by lia. split; [done|]. rewrite <-app_assoc, <-seq_S. 
  destruct (decide (i + 1 = n)%nat) as [E|E].
  - rewrite E, Nat.Div0.mod_same, Nat.sub_0_r. replace (n - S i)%nat with O by lia. replace n with (S i) by lia.
    by rewrite app_nil_r.
  - rewrite Nat.mod_small by lia. do 2 f_equal; lia.
Qed.

Lemma order_NoDup n i : (i < n)%nat → NoDup (order n i).
Proof.
  intros Hi. unfold order. apply NoDup_app. split_and!; [apply NoDup_seq| |apply NoDup_seq].
  intros x. rewrite !elem_of_seq. lia.
Qed.

Lemma filter_ext_in {A} (P Q : A → Prop) `{!∀ x, Decision (P x), !∀ x, Decision (Q x)} (l : list A) :
  (∀ x, x ∈ l → P x ↔ Q x) → filter P l = filter Q l.
Proof.
  induction l as [|x l IH]; intros Hpq; [done|]. rewrite !filter_cons.
  rewrite IH by (intros y Hy; apply Hpq; by right). pose proof (Hpq x ltac:(by left)).
  destruct (decide (P x)), (decide (Q x)); naive_solver.
Qed.

Lemma filter_all {A} (P : A → Prop) `{!∀ x, Decision (P x)} (l : list A) : Forall P l → filter P l = l.
Proof. induction 1; [done|]. rewrite filter_cons, decide_True by done. by f_equal. Qed.

Lemma pending_skip n i s : (i < n)%nat → flags s !! i = Some true → pending n ((i + 1) mod n) s = pending n i s.
Proof.
  intros Hi Hf. unfold pending. destruct (order_step n i Hi) as (rest & -> & ->).
  rewrite filter_app, filter_cons, filter_cons, filter_nil. rewrite !decide_False by (rewrite Hf; done). by rewrite app_nil_r.
Qed.

Lemma pending_run n i s : (i < n)%nat → flags s !! i = Some false →
  ∃ q, pending n i s = i :: q ∧
    (∀ s', flags s' = flags s → pending n ((i + 1) mod n) s' = q ++ [i]) ∧
    (∀ s', flags s' = <[i := true]> (flags s) → pending n ((i + 1) mod n) s' = q).
Proof.
  intros Hi Hf. pose proof (order_NoDup n i Hi) as Hnd. unfold pending.
  destruct (order_step n i Hi) as (rest & Eo & En). rewrite Eo in Hnd |- *. apply NoDup_cons in Hnd as [Hni _].
  exists (filter (fun j => flags s !! j = Some false) rest). rewrite filter_cons, decide_True by done.
  assert (Hlt : (i < length (flags s))%nat) by (by eapply lookup_lt_Some).
  split_and!; [done| |]; intros s' Hs'; rewrite En, filter_app, filter_cons, filter_nil, Hs'.
  - by rewrite decide_True.
  - rewrite decide_False by (by rewrite list_lookup_insert_eq). rewrite app_nil_r. apply filter_ext_in.
    intros j Hj. rewrite list_lookup_insert_ne by (intros ->; done). done.
Qed.

Lemma queue_mono run sf fuel q s r : queue_loop run fuel sf q s = Done r → queue_loop run (S fuel) sf q s = Done r.
Proof.
  revert q s r. induction fuel as [|fuel IH]; intros q s r; [done|].
  destruct q as [|i q]; [done|]. cbn [queue_loop]. rewrite !st_bind_Done.
  intros (fin & s1 & Hs & H). exists fin, s1. split; [done|]. destruct fin.
  - apply st_bind_Done in H as (u & s2 & Hm & H). apply st_bind_Done. exists u, s2. split; [done|].
    apply st_bind_Done in H as (rest & s3 & Hq & H). apply st_bind_Done. exists rest, s3. split; [by apply IH|done].
  - apply st_bind_Done in H as (rest & s3 & Hq & H). apply st_bind_Done. exists rest, s3. split; [by apply IH|done].
Qed.

Lemma mark_finished_run i s : (i < length (flags s))%nat →
  ∃ s', mark_finished i s = Done ((), s') ∧ flags s' = <[i := true]> (flags s).
Proof.
  unfold flags. rewrite length_fmap. intros Hi. destruct (lookup_lt_is_Some_2 _ _ Hi) as [t Ht].
  unfold mark_finished. eexists. split; [unfold mbind, st_bind, tcb_at; rewrite Ht; simpl; reflexivity|].
  simpl. by rewrite list_fmap_insert.
Qed.

(** One turn of the main loop. *)
Lemma main_turn run fuel sf n remain i s t : (0 < remain)%nat → tcbs s !! i = Some t →
  main_loop run (S fuel) sf n remain i s =
    if finish t then (rest ← main_loop run fuel sf n remain ((i + 1) mod n); mret rest) s
    else (fin ← slice run sf i;
          if fin : bool then
            mark_finished i;;
            r ← lift (usize_sub (Z.of_nat remain) 1);
            rest ← main_loop run fuel sf n (Z.to_nat r) ((i + 1) mod n);
            mret ((i, true) :: rest)
          else
            rest ← main_loop run fuel sf n remain ((i + 1) mod n);
            mret ((i, false) :: rest)) s.
Proof.
  intros Hr Ht. cbn [main_loop]. rewrite (proj2 (Nat.ltb_lt _ _) Hr). unfold mbind, st_bind, tcb_at. rewrite Ht. simpl.
  destruct (finish t); [done|]. destruct (slice run sf i s) as [[fin s1]| |]; simpl; [|done..].
  destruct fin; [|done]. destruct (mark_finished i s1) as [[u s2]| |]; simpl; [|done..].
  by destruct (usize_sub (Z.of_nat remain) 1).
Qed.

(** The loop keeps: [i] is a task, and [remain] counts the unfinished ones. *)
Record loop_ok (n remain i : nat) s : Prop := {
  lo_small : Z.of_nat n ≤ usize_max;
  lo_len : (n ≤ length (flags s))%nat;
  lo_i : (i < n)%nat;
  lo_remain : remain = length (pending n i s);
}.

Lemma loop_next n i : (i < n)%nat → ((i + 1) mod n < n)%nat.
Proof. intros. apply Nat.mod_upper_bound. lia. Qed.

Lemma loop_task n remain i s : loop_ok n remain i s → ∃ t, tcbs s !! i = Some t ∧ flags s !! i = Some (finish t).
Proof.
  intros [_ Hl Hi _]. unfold flags in *. rewrite length_fmap in Hl.
  destruct (lookup_lt_is_Some_2 (tcbs s) i) as [t Ht]; [lia|]. exists t. split; [done|]. by rewrite list_lookup_fmap, Ht.
Qed.

Lemma loop_ok_skip n remain i s : loop_ok n remain i s → flags s !! i = Some true →
  loop_ok n remain ((i + 1) mod n) s ∧ pending n ((i + 1) mod n) s = pending n i s.
Proof.
  intros [Hs Hl Hi Hr] Hf. rewrite pending_skip by done. split; [|done].
  split; [done|done|by apply loop_next|by rewrite pending_skip].
Qed.

(** A slice of an unfinished task, in both schedulers. *)
Lemma loop_ok_slice n remain i s : loop_ok n remain i s → flags s !! i = Some false → ∃ q, pending n i s = i :: q ∧
  (∀ s1, flags s1 = flags s → loop_ok n remain ((i + 1) mod n) s1 ∧ pending n ((i + 1) mod n) s1 = q ++ [i]) ∧
  (∀ s1, flags s1 = flags s → ∃ s2, mark_finished i s1 = Done ((), s2) ∧
     usize_sub (Z.of_nat remain) 1 = Done (Z.of_nat (remain - 1)) ∧
     loop_ok n (remain - 1) ((i + 1) mod n) s2 ∧ pending n ((i + 1) mod n) s2 = q).
Proof.
  intros [Hs Hl Hi Hr] Hf. destruct (pending_run n i s Hi Hf) as (q & Hq & Hsame & Hfin). exists q. rewrite Hq in Hr.
  simpl in Hr. split; [done|]. split.
  - intros s1 E. rewrite (Hsame s1 E). split; [|done]. split; [done|by rewrite E|by apply loop_next|].
    rewrite (Hsame s1 E), length_app. simpl. lia.
  - intros s1 E. destruct (mark_finished_run i s1) as (s2 & Hm & E2); [rewrite E; lia|]. rewrite E in E2. exists s2.
    rewrite (Hfin s2 E2). split_and!; [done| | |done].
    + assert (length (pending n i s) ≤ n)%nat as Hle.
      { etrans; [apply length_filter|]. unfold order. rewrite length_app, !length_seq. lia. }
      rewrite Hq in Hle. simpl in Hle. unfold usize_sub. rewrite checked_ok by lia. f_equal. lia.
    + split; [done|by rewrite E2, length_insert|by apply loop_next|rewrite (Hfin s2 E2); lia].
Qed.

Lemma main_to_queue run sf fuel n remain i s r : loop_ok n remain i s →
  main_loop run fuel sf n remain i s = Done r → queue_loop run fuel sf (pending n i s) s = Done r.
Proof.
  revert remain i s r. induction fuel as [|fuel IH]; intros remain i s r Hok; [done|].
  destruct (loop_task _ _ _ _ Hok) as (t & Ht & Hf). destruct (decide (0 < remain)%nat) as [Hpos|Hz].
  2: { cbn [main_loop]. rewrite (proj2 (Nat.ltb_ge _ _)) by lia. pose proof (lo_remain _ _ _ _ Hok) as Hr.
       destruct (pending n i s); [done|simpl in Hr; lia]. }
  rewrite (main_turn _ _ _ _ _ _ _ _ Hpos Ht). destruct (finish t).
  - destruct (loop_ok_skip _ _ _ _ Hok Hf) as [Hok' <-]. intros (rest & s1 & H & [= <-])%st_bind_Done.
    apply queue_mono. by apply IH in H.
  - destruct (loop_ok_slice _ _ _ _ Hok Hf) as (q & -> & Hsame & Hfin). intros (fin & s1 & Hsl & H)%st_bind_Done.
    pose proof (slice_flags _ _ _ _ _ _ Hsl) as Hfl. cbn [queue_loop]. apply st_bind_Done. exists fin, s1. split; [done|].
    destruct fin.
    + destruct (Hfin s1 Hfl) as (s2 & Hm & Hsub & Hok2 & <-). rewrite (st_bind_run _ _ _ _ _ Hm) in H.
      rewrite (st_bind_run _ _ _ _ _ Hm).
      rewrite (st_bind_run _ _ _ _ _ (lift_run _ _ _ Hsub)), Nat2Z.id in H.
      apply st_bind_Done in H as (rest & s3 & H & Hr). apply st_bind_Done. exists rest, s3. by eauto.
    + destruct (Hsame s1 Hfl) as [Hok1 <-]. apply st_bind_Done in H as (rest & s3 & H & Hr). apply st_bind_Done.
      exists rest, s3. by eauto.
Qed.

(** The array scan finds the queue in the same order: at most [n] turns of it serve one turn of the queue. *)
Lemma main_mono run sf fuel n remain i s r : main_loop run fuel sf n remain i s = Done r →
  main_loop run (S fuel) sf n remain i s = Done r.
Proof.
  revert remain i s r. induction fuel as [|fuel IH]; intros remain i s r; [done|].
  remember (S fuel) as f eqn:Ef. cbn [main_loop]. rewrite Ef. cbn [main_loop].
  destruct (0 <? remain)%nat; [|done]. rewrite !st_bind_Done. intros (t & s1 & Ht & H). exists t, s1. split; [done|].
  apply st_bind_Done in H as ([rem log] & s2 & Hl & H). apply st_bind_Done. exists (rem, log), s2. split; [done|].
  apply st_bind_Done in H as (rest & s3 & Hr & H). apply st_bind_Done. exists rest, s3. split; [|done].
  apply IH in Hr. subst f. exact Hr.
Qed.

Lemma main_mono_le run sf fuel fuel' n remain i s r : (fuel ≤ fuel')%nat → main_loop run fuel sf n remain i s = Done r →
  main_loop run fuel' sf n remain i s = Done r.
Proof. induction 1; [done|]. intros H'. apply main_mono. auto. Qed.

Lemma main_skip run sf n remain i s fuel : loop_ok n remain i s → (0 < remain)%nat → flags s !! i = Some true →
  main_loop run (S fuel) sf n remain i s = main_loop run fuel sf n remain ((i + 1) mod n) s.
Proof.
  intros Hok Hpos Hf. destruct (loop_task _ _ _ _ Hok) as (t & Ht & Hft). rewrite (main_turn _ _ _ _ _ _ _ _ Hpos Ht).
  rewrite Hf in Hft. injection Hft as <-. unfold mbind, st_bind. by destruct (main_loop _ _ _ _ _ _ _) as [[]| |].
Qed.

(** The scan passes the finished tasks in front of the first unfinished one. *)
Lemma main_scan run sf n remain s j pre : flags s !! j = Some false → (0 < remain)%nat →
  ∀ i post, loop_ok n remain i s → order n i = pre ++ j :: post → Forall (fun x => flags s !! x = Some true) pre →
  loop_ok n remain j s ∧ pending n j s = pending n i s ∧
  ∀ fuel, main_loop run (length pre + fuel) sf n remain i s = main_loop run fuel sf n remain j s.
Proof.
  intros Hj Hpos. induction pre as [|x pre IH]; intros i post Hok Ho Hp.
  - destruct (order_step n i (lo_i _ _ _ _ Hok)) as (rest & Eo & _). rewrite Ho in Eo. by injection Eo as -> _.
  - destruct (order_step n i (lo_i _ _ _ _ Hok)) as (rest & Eo & En). rewrite Ho in Eo. injection Eo as -> <-.
    apply Forall_cons in Hp as [Hx Hp]. destruct (loop_ok_skip _ _ _ _ Hok Hx) as [Hok' Hpe].
    rewrite <-app_assoc in En. destruct (IH _ _ Hok' En Hp) as (Hokj & Hpj & Hrun).
    split_and!; [done|congruence|]. intros fuel.
    change (length (i :: pre) + fuel)%nat with (S (length pre + fuel)). rewrite main_skip by done. apply Hrun.
Qed.

Lemma filter_split {A} (P : A → Prop) `{!∀ x, Decision (P x)} (l : list A) x q : filter P l = x :: q →
  ∃ pre post, l = pre ++ x :: post ∧ Forall (fun y => ¬ P y) pre ∧ P x.
Proof.
  induction l as [|y l IH]; [done|]. rewrite filter_cons. destruct (decide (P y)).
  - intros [= -> _]. by exists [], l.
  - intros (pre & post & -> & Hp & Hx)%IH. exists (y :: pre), post. by repeat constructor.
Qed.

Lemma pending_head n remain i s j q : loop_ok n remain i s → pending n i s = j :: q →
  ∃ pre post, order n i = pre ++ j :: post ∧ (length pre < n)%nat ∧ Forall (fun x => flags s !! x = Some true) pre ∧
    flags s !! j = Some false.
Proof.
  intros [_ Hl Hi _] (pre & post & Ho & Hp & Hj)%filter_split. exists pre, post.
  assert (length (order n i) = n) as Hlen by (unfold order; rewrite length_app, !length_seq; lia).
  split_and!; [done| | |done].
  - rewrite Ho, length_app in Hlen. simpl in Hlen. lia.
  - apply Forall_forall. intros x Hx. rewrite Forall_forall in Hp. specialize (Hp x Hx).
    assert (x < n)%nat as Hxn.
    { assert (x ∈ order n i) as Hin by (rewrite Ho; apply elem_of_app; by left).
      unfold order in Hin. rewrite elem_of_app, !elem_of_seq in Hin. lia. }
    destruct (lookup_lt_is_Some_2 (flags s) x) as [[] Hb]; [lia|done|by rewrite Hb in Hp].
Qed.

Lemma queue_to_main run sf fuel n remain i s r : loop_ok n remain i s →
  queue_loop run fuel sf (pending n i s) s = Done r → main_loop run (n * fuel) sf n remain i s = Done r.
Proof.
  revert remain i s r. induction fuel as [|fuel IH]; intros remain i s r Hok; [done|].
  pose proof (lo_remain _ _ _ _ Hok) as Hrem. pose proof (lo_i _ _ _ _ Hok) as Hi.
  destruct (pending n i s) as [|j q] eqn:Hq; simpl in Hrem.
  { replace (n * S fuel)%nat with (S (n * S fuel - 1)) by nia. cbn [main_loop]. subst remain. done. }
  destruct (pending_head _ _ _ _ _ _ Hok Hq) as (pre & post & Ho & Hpre & Hall & Hj).
  destruct (main_scan run sf n remain s j pre Hj ltac:(lia) i post Hok Ho Hall) as (Hokj & Hpj & Hscan).
  rewrite Hq in Hpj. intros H. apply (main_mono_le _ _ (length pre + S (n * fuel))); [nia|]. rewrite Hscan.
  destruct (loop_task _ _ _ _ Hokj) as (t & Ht & Hft). rewrite Hj in Hft.
  rewrite (main_turn _ _ _ _ _ _ _ t) by (done || lia). injection Hft as <-. cbn [queue_loop] in H.
  destruct (loop_ok_slice _ _ _ _ Hokj Hj) as (q' & Hq' & Hsame & Hfin). rewrite Hpj in Hq'. injection Hq' as <-.
  apply st_bind_Done in H as (fin & s1 & Hsl & H). pose proof (slice_flags _ _ _ _ _ _ Hsl) as Hfl.
  rewrite (st_bind_run _ _ _ _ _ Hsl). destruct fin.
  - destruct (Hfin s1 Hfl) as (s2 & Hm & Hsub & Hok2 & Hp2). rewrite <-Hp2 in H. rewrite (st_bind_run _ _ _ _ _ Hm) in H.
    rewrite (st_bind_run _ _ _ _ _ Hm), (st_bind_run _ _ _ _ _ (lift_run _ _ _ Hsub)), Nat2Z.id.
    apply st_bind_Done in H as (rest & s3 & H & Hr). apply st_bind_Done. exists rest, s3. by eauto.
  - destruct (Hsame s1 Hfl) as [Hok1 Hp1]. rewrite <-Hp1 in H. apply st_bind_Done in H as (rest & s3 & H & Hr). apply st_bind_Done.
    exists rest, s3. by eauto.
Qed.

(** ** The whole kernel *)

(** Loading one application leaves the table alone, when the stacks do not reach into it. *)
Definition stacks_clear (meta : AppMeta) (s : tasks) : Prop := ∀ i t, tcbs s !! i = Some t →
  stack t + 8192 ≤ am_first meta ∨ am_first meta + 8 * (am_count meta + 1) ≤ stack t.

Record loading (meta : AppMeta) (N : nat) s : Prop := {
  ld_flags : flags s = replicate N false;
  ld_stacks : stacks_clear meta s;
  ld_apps : apps_ok meta (w_mem (wd s));
}.

Lemma loading_len meta N s : loading meta N s → length (tcbs s) = N.
Proof. intros [Hf _ _]. rewrite <-(length_replicate N false), <-Hf. unfold flags. by rewrite length_fmap. Qed.

Lemma load_app_run meta i entry s N : (i < N)%nat → loading meta N s →
  ∃ s', TaskControlBlock_init i entry s = Done ((), s') ∧ loading meta N s'.
Proof.
  intros Hi Hld. pose proof (loading_len _ _ _ Hld) as Hl. destruct Hld as [Hf Hs Hok].
  destruct (lookup_lt_is_Some_2 (tcbs s) i) as [t Ht]; [lia|].
  eexists. split.
  - unfold TaskControlBlock_init. rewrite (st_bind_run _ _ s s t) by (unfold tcb_at; by rewrite Ht).
    rewrite (st_bind_run _ _ _ _ () eq_refl).
    pose proof (ctx_set_x_run 2 (stack t + 8192) (LocalContext_user entry) eq_refl ltac:(lia)) as Hsp.
    rewrite (st_bind_run _ _ _ _ _ (lift_run _ _ _ Hsp)). reflexivity.
  - split.
    + unfold flags, set_tcb. simpl. rewrite list_fmap_insert. simpl. fold (flags s). rewrite Hf.
      apply list_insert_id. by apply lookup_replicate_2.
    + intros j u. simpl. destruct (decide (j = i)) as [->|Hne].
      * rewrite list_lookup_insert_eq by lia. intros [= <-]. simpl. by apply (Hs i).
      * rewrite list_lookup_insert_ne by done. apply Hs.
    + simpl. eapply apps_ok_same; [|exact Hok]. apply mem_zero_other. specialize (Hs i t Ht). lia.
Qed.

Lemma load_apps_run meta rounds i s N : table_clear meta → (Z.to_nat (am_count meta) ≤ N)%nat → loading meta N s →
  Z.of_nat i ≤ Z.max 0 (am_count meta) → Z.max 0 (am_count meta - Z.of_nat i) < Z.of_nat rounds →
  ∃ s', load_apps rounds (mkAppIterator meta (Z.of_nat i)) i s = Done (Z.to_nat (am_count meta), s') ∧ loading meta N s'.
Proof.
  intros Hc HN. revert i s. induction rounds as [|rounds IH]; intros i s Hld Hi Hr; [lia|]. cbn [load_apps].
  destruct (decide (am_count meta ≤ Z.of_nat i)) as [Hend|Hlt].
  - exists s. rewrite st_bind_run with (a := (None, mkAppIterator meta (Z.of_nat i))) (s' := s).
    + split; [|done]. unfold mret, st_ret. do 2 f_equal. lia.
    + rewrite (on_mem_run _ _ _ _ (app_next_end _ _ _ Hend)). by destruct s as [? ? []].
  - destruct (app_next_run meta (w_mem (wd s)) (Z.of_nat i) (ld_apps _ _ _ Hld) ltac:(lia)) as (m' & Hn & Hl).
    pose proof (app_loaded_table meta (Z.of_nat i) _ _ Hc ltac:(lia) Hl) as Htab.
    erewrite st_bind_run by (rewrite (on_mem_run _ _ _ _ Hn); reflexivity). cbv beta iota.
    destruct (load_app_run meta i (app_base meta (Z.of_nat i)) (set_world (set_mem m' (wd s)) s) N) as (s1 & H1 & Hld1); [lia| |].
    { destruct Hld. split; [done..|]. by eapply apps_ok_same. }
    rewrite (st_bind_run _ _ _ _ _ H1). replace (Z.of_nat i + 1) with (Z.of_nat (S i)) by lia. apply IH; [done|lia..].
Qed.

Lemma zero_blocks_flags stacks w : (32 ≤ length stacks)%nat → flags (zero_blocks stacks w) = replicate 32 false.
Proof.
  intros Hs. unfold flags. simpl. rewrite <-list_fmap_compose. change (Z.to_nat APP_CAPACITY) with 32%nat.
  rewrite (const_fmap _ _ false) by done.
  by rewrite length_take_le.
Qed.

(** A kernel image with at most [APP_CAPACITY] applications, whose parts lie apart. *)
Record image_ok (meta : AppMeta) (stacks : list Z) (w : world) : Prop := {
  im_count : am_count meta ≤ APP_CAPACITY;
  im_stacks : (32 ≤ length stacks)%nat;
  im_apps : apps_ok meta (w_mem w);
  im_table : table_clear meta;
  im_stack x : x ∈ stacks → x + 8192 ≤ am_first meta ∨ am_first meta + 8 * (am_count meta + 1) ≤ x;
}.

Lemma image_loading meta stacks w : image_ok meta stacks w → loading meta 32 (zero_blocks stacks w).
Proof.
  intros [Hn Hs Ha _ Hst]. split; [by apply zero_blocks_flags| |done]. intros i t. simpl. rewrite list_lookup_fmap.
  intros (x & Hx & ->)%fmap_Some. apply Hst. apply list_elem_of_lookup. exists i. simpl in Hx.
  apply lookup_take_Some in Hx as [Hx _]. done.
Qed.

Lemma round_robin_core run sf stacks meta w : image_ok meta stacks w →
  let n := Z.to_nat (am_count meta) in
  ∃ s0, load_apps (S n) (AppMeta_iter meta) 0 (zero_blocks stacks w) = Done (n, s0) ∧
    ∀ r, (∃ fuel, rust_main run fuel sf stacks meta w = Done r) ↔
         (∃ fuel, queue_loop run fuel sf (seq 0 n) s0 = Done r).
Proof.
  intros Him n. assert (n ≤ 32)%nat as Hn by (unfold n; destruct Him as [Hn _ _ _ _]; unfold APP_CAPACITY in Hn; lia).
  destruct (load_apps_run meta (S n) 0 (zero_blocks stacks w) 32) as (s0 & Hl & Hld);
    [apply Him|done|by apply image_loading|lia|lia|].
  exists s0. split; [done|]. intros r. unfold rust_main. fold n. fold n in Hl.
  setoid_rewrite (st_bind_run _ _ _ _ _ Hl). pose proof (ld_flags _ _ _ Hld) as Hf. destruct n as [|k] eqn:En.
  { split; intros [[|fuel] H]; try discriminate H; by exists 1%nat. }
  assert (pending (S k) 0 s0 = seq 0 (S k)) as Hp.
  { unfold pending, order. rewrite app_nil_r, Nat.sub_0_r, Hf. apply filter_all. apply Forall_forall.
    intros j [_ Hj]%elem_of_seq. apply lookup_replicate_2. lia. }
  assert (loop_ok (S k) (S k) 0 s0) as Hok.
  { split; [unfold usize_max; lia|rewrite Hf, length_replicate; lia|lia|by rewrite Hp, length_seq]. }
  rewrite <-Hp. split; intros [fuel H].
  - exists fuel. by eapply main_to_queue.
  - exists (S k * fuel)%nat. by apply queue_to_main.
Qed.

(** C38: The scheduler is round robin: the scan over the array of tasks, with its [finish] marks and its counter of the
    tasks that remain, gives the same slices in the same order, with the same effect on tasks, memory and console, as a
    queue of the unfinished tasks in which the head gets a slice and, unless it has ended, goes to the back.  One ends
    exactly when the other does. *)
Theorem round_robin_equiv run sf stacks meta w : image_ok meta stacks w →
  let n := Z.to_nat (am_count meta) in
  ∃ s0, load_apps (S n) (AppMeta_iter meta) 0 (zero_blocks stacks w) = Done (n, s0) ∧
    ∀ r, (∃ fuel, rust_main run fuel sf stacks meta w = Done r) ↔
         (∃ fuel, queue_loop run fuel sf (seq 0 n) s0 = Done r).
Proof. apply round_robin_core. Qed.

(** A program that yields once and then exits, at two addresses. *)
Definition demo_task (c : LocalContext) (w : world) : LocalContext * world * Trap :=
  (mkCtx 0 (<[16%nat := if sepc c mod 8 =? 0 then SCHED_YIELD else EXIT]> (ctx_x c)) (sepc c) false true, w, UserEnvCall).
Definition demo_stacks : list Z := (fun i => 65536 + 8192 * i) <$> seqZ 0 32.

(** Two applications at 0x80400000 and 0x80600000. *)
Definition demo_meta : AppMeta := mkAppMeta 0x80400000 0x200000 2 0x1018.

Example demo_slices : (rs ← rust_main demo_task 10 10 demo_stacks demo_meta Batch.demo_image; Done rs.1) =
  Done [(0%nat, false); (1%nat, false); (0%nat, true); (1%nat, true)].
Proof. vm_compute. reflexivity. Qed.

Lemma demo_tasks_image : image_ok demo_meta demo_stacks Batch.demo_image.
Proof.
  split; [done|vm_compute; lia| | |].
  - split; [| |done]; intros i Hi; simpl in Hi; (assert (i = 0 ∨ i = 1) as [-> | ->] by lia); vm_compute; split; congruence.
  - intros i Hi. simpl in Hi. right. (assert (i = 0 ∨ i = 1) as [-> | ->] by lia); vm_compute; congruence.
  - intros x. unfold demo_stacks. rewrite list_elem_of_fmap. intros (i & -> & Hi). apply elem_of_seqZ in Hi.
    right. simpl. lia.
Qed.

Lemma round_robin_equiv_witness :
  ∃ s0, load_apps 3 (AppMeta_iter demo_meta) 0 (zero_blocks demo_stacks Batch.demo_image) = Done (2%nat, s0) ∧
    ∀ r, (∃ fuel, rust_main demo_task fuel 10 demo_stacks demo_meta Batch.demo_image = Done r) ↔
         (∃ fuel, queue_loop demo_task fuel 10 [0; 1]%nat s0 = Done r).
Proof. apply (round_robin_equiv demo_task 10 demo_stacks demo_meta Batch.demo_image), demo_tasks_image. Defined.

(** *** Fairness *)
Lemma queue_log_prefix run sf fuel q s log s' : queue_loop run fuel sf q s = Done (log, s') → ∃ rest, log.*1 = q ++ rest.
Proof.
  revert q s log s'. induction fuel as [|fuel IH]; intros q s log s'; [done|]. destruct q as [|i q]; [by eauto|].
  cbn [queue_loop]. intros (fin & s1 & Hsl & H)%st_bind_Done. destruct fin.
  - apply st_bind_Done in H as (u & s2 & _ & H). apply st_bind_Done in H as (l & s3 & H & [= <- <-]).
    apply IH in H as [rest Hr]. exists rest. by rewrite fmap_cons, Hr.
  - apply st_bind_Done in H as (l & s3 & H & [= <- <-]). apply IH in H as [rest Hr]. exists (i :: rest).
    by rewrite fmap_cons, Hr, <-app_assoc.
Qed.

(** Every task of the queue gets slices, nobody else does, and the last one ends it. *)
Lemma queue_log_tasks run sf fuel q s log s' : queue_loop run fuel sf q s = Done (log, s') →
  ∀ i, (i ∈ log.*1 → i ∈ q) ∧ (i ∈ q → (i, true) ∈ log).
Proof.
  revert q s log s'. induction fuel as [|fuel IH]; intros q s log s'; [done|]. destruct q as [|j q].
  { intros [= <- _] i. split; intros Hi; [done|by apply elem_of_nil in Hi]. }
  cbn [queue_loop]. intros (fin & s1 & Hsl & H)%st_bind_Done i. destruct fin.
  - apply st_bind_Done in H as (u & s2 & _ & H). apply st_bind_Done in H as (l & s3 & H & [= <- <-]).
    destruct (IH _ _ _ _ H i) as [H1 H2]. rewrite fmap_cons, !elem_of_cons. naive_solver.
  - apply st_bind_Done in H as (l & s3 & H & [= <- <-]).
    destruct (IH _ _ _ _ H i) as [H1 H2]. rewrite elem_of_app, list_elem_of_singleton in H1, H2.
    rewrite fmap_cons, !elem_of_cons. naive_solver.
Qed.

(** After a slice of [i]: an ended task gets no more; the others get at most one slice before [i] gets its next. *)
Definition fair_after (i : nat) (b : bool) (l : list (nat * bool)) : Prop :=
  if b then i ∉ l.*1
  else ∃ gap b' l', l = gap ++ (i, b') :: l' ∧ i ∉ gap.*1 ∧ NoDup gap.*1.

Lemma queue_fair run sf fuel q s log s' : NoDup q → queue_loop run fuel sf q s = Done (log, s') →
  ∀ l1 i b l2, log = l1 ++ (i, b) :: l2 → fair_after i b l2.
Proof.
  revert q s log s'. induction fuel as [|fuel IH]; intros q s log s' Hnd; [done|]. destruct q as [|j q].
  { intros [= <- _] l1 i b l2 H. by destruct l1. }
  apply NoDup_cons in Hnd as [Hj Hnd]. cbn [queue_loop]. intros (fin & s1 & Hsl & H)%st_bind_Done. destruct fin.
  - apply st_bind_Done in H as (u & s2 & _ & H). apply st_bind_Done in H as (l & s3 & H & [= <- <-]).
    intros [|e l1] i b l2 E; [|injection E as _ E; by eapply (IH q)].
    injection E as <- <- <-. simpl. intros Hin. apply Hj. by apply (queue_log_tasks _ _ _ _ _ _ _ H).
  - apply st_bind_Done in H as (l & s3 & H & [= <- <-]).
    intros [|e l1] i b l2 E.
    2: { injection E as _ E. eapply (IH (q ++ [j])); [|done..]. apply NoDup_app_comm. by apply NoDup_cons. }
    injection E as <- <- <-. destruct (queue_log_prefix _ _ _ _ _ _ _ H) as [rest Hr].
    rewrite <-app_assoc in Hr. simpl in Hr. apply fmap_app_inv in Hr as (gap & l' & Hg & Hl & ->).
    destruct l' as [|[k b'] l']; [done|]. rewrite fmap_cons in Hl. injection Hl as Hk _. simpl in Hk. subst k.
    exists gap, b', l'. by rewrite <-Hg.
Qed.

(** Time sharing is fair: of a run that comes to its end, every loaded task got slices and ended; after its end it
    gets none; and between two slices of a task no other task gets more than one. *)
Theorem round_robin_fair run fuel sf stacks meta w log s' : image_ok meta stacks w →
  rust_main run fuel sf stacks meta w = Done (log, s') →
  (∀ i, (i, true) ∈ log ↔ (i < Z.to_nat (am_count meta))%nat) ∧
  ∀ l1 i b l2, log = l1 ++ (i, b) :: l2 → fair_after i b l2.
Proof.
  intros Him H. destruct (round_robin_core run sf stacks meta w Him) as (s0 & _ & Hq).
  destruct (proj1 (Hq (log, s')) (ex_intro _ fuel H)) as [fuel' Hrun]. split.
  - intros i. destruct (queue_log_tasks _ _ _ _ _ _ _ Hrun i) as [H1 H2]. rewrite elem_of_seq in H1, H2.
    split; [|intros; apply H2; lia]. intros Hin. apply H1. by apply (list_elem_of_fmap_2 fst) in Hin.
  - eapply queue_fair; [apply NoDup_seq|done].
Qed.

Lemma round_robin_fair_witness : ∃ log s', rust_main demo_task 10 10 demo_stacks demo_meta Batch.demo_image = Done (log, s') ∧
  (∀ i, (i, true) ∈ log ↔ (i < 2)%nat) ∧ ∀ l1 i b l2, log = l1 ++ (i, b) :: l2 → fair_after i b l2.
Proof.
  destruct (rust_main demo_task 10 10 demo_stacks demo_meta Batch.demo_image) as [[log s']| |] eqn:E.
  - exists log, s'. split; [done|].
    apply (round_robin_fair demo_task 10 10 demo_stacks demo_meta Batch.demo_image log s'); [apply demo_tasks_image|exact E].
  - pose proof demo_slices as D. rewrite E in D. discriminate D.
  - pose proof demo_slices as D. rewrite E in D. discriminate D.
Defined.

(** ** Counting the calls *)

(** The accounting behind [trace]: a call with number [id] adds exactly one to counter [id] of the calling task,
    before the call is served; no other counter and no other task changes.  A number of 500 or more stops the kernel. *)
Theorem syscall_accounting i s t id : tcbs s !! i = Some t → ctx_wf (ctx t) → LocalContext_a 7 (ctx t) = Done id →
  0 ≤ id → length (syscall_count t) = 500%nat →
  (500 ≤ id → handle_syscall i s = Panic) ∧
  ∀ e s', handle_syscall i s = Done (e, s') → ∃ n t', syscall_count t !! Z.to_nat id = Some n ∧ n < u32_max ∧
    tcbs s' = <[i := t']> (tcbs s) ∧ syscall_count t' = <[Z.to_nat id := n + 1]> (syscall_count t).
Proof.
  intros Ht Hwf Hid Hpos Hlen. unfold handle_syscall.
  rewrite (st_bind_run _ _ s s t) by (unfold tcb_at; by rewrite Ht).
  rewrite (st_bind_run _ _ _ _ _ (lift_run _ _ _ Hid)). destruct (Batch.call_args_run _ Hwf) as (args & Ha & _).
  rewrite (st_bind_run _ _ _ _ _ (lift_run _ _ _ Ha)). split.
  - intros Hbig. rewrite lookup_ge_None_2 by lia. done.
  - intros e s' H. apply bind_inv in H as (n & s1 & [Hn ->]%lift_inv & H). apply unwrap_Done in Hn.
    apply bind_inv in H as (n' & s2 & [Hn' ->]%lift_inv & H). apply checked_Done in Hn' as [-> Hmax].
    apply bind_inv in H as (u & s3 & [= _ <-] & H). apply bind_inv in H as (u' & s4 & [= _ <-] & H).
    apply bind_inv in H as (r & s5 & Hh & H). apply handle_tcbs in Hh. simpl in Hh.
    apply bind_inv in H as (t2 & s6 & [-> Ht2]%tcb_at_inv & H).
    rewrite Hh, list_lookup_insert_eq in Ht2 by (by eapply lookup_lt_Some). injection Ht2 as <-. simpl in H.
    exists n. destruct r as [ret|]; [destruct (id =? EXIT)|].
    + apply bind_inv in H as (code & s7 & [_ ->]%lift_inv & [= _ <-]). eexists. split_and!; [done|lia|done|done].
    + apply bind_inv in H as (c & s7 & [_ ->]%lift_inv & H). apply bind_inv in H as (u2 & s8 & [= _ <-] & [= _ <-]).
      eexists. split_and!; [done|lia|simpl; rewrite Hh; by apply list_insert_insert_eq|done].
    + injection H as _ <-. eexists. split_and!; [done|lia|done|done].
Qed.

(** [sched_yield()] and the call number 500, each in a task of its own. *)
Definition demo_caller (id : Z) : tasks :=
  mkTasks [mkTCB (mkCtx 0 (<[16%nat := id]> (replicate 31 0)) 4096 false true) false 65536 (replicate 500 0)] 0
    Batch.demo_world.

Lemma syscall_accounting_witness : handle_syscall 0 (demo_caller 500) = Panic ∧
  ∃ e s' n t', handle_syscall 0 (demo_caller SCHED_YIELD) = Done (e, s') ∧
    syscall_count t' = <[Z.to_nat SCHED_YIELD := n + 1]> (replicate 500 0).
Proof.
  split.
  - destruct (syscall_accounting 0 (demo_caller 500) _ 500 eq_refl eq_refl eq_refl ltac:(lia) eq_refl) as [Hp _].
    apply Hp. lia.
  - eexists _, _. edestruct (syscall_accounting 0 (demo_caller SCHED_YIELD) _ SCHED_YIELD eq_refl eq_refl eq_refl)
      as [_ Hc]; [vm_compute; discriminate|reflexivity|]. edestruct Hc as (n & t' & _ & _ & _ & Hn); [vm_compute; reflexivity|].
    exists n, t'. split; [vm_compute; reflexivity|exact Hn].
Defined.
End Tasks.
