(* ===== verification/PageTable.v ===== *)
(** * Page tables and pages, as the kernels use them

    The interface to the [page_table] crate (entries, flags, addresses, the two walkers) and to the heap, which is a
    [customizable_buddy] allocator: code outside the repository.  What the kernels rely on are the laws of two classes;
    [Sv39Crate] and [BumpHeap] at the end are instances of them, which make examples run.

    [kernel-alloc/src/lib.rs] is modelled here too. *)

From Stdlib Require Import Ascii.
From stdpp Require Import strings.
From S2P Require Import Prelude Bytes Memory.

(** Bytes of a page, and entries of a table. *)
Definition page_size : Z := 4096.
Definition entries : Z := 512.

(** ** The heap *)
Class Heap := {
  heap : Type;
  (** [BuddyAllocator::allocate_layout] on a size and an alignment. *)
  heap_allocate : Z → Z → heap → option (Z * heap);
  (** [BuddyAllocator::deallocate_layout]. *)
  heap_deallocate : Z → Z → heap → heap;
  (** Page [n] (the bytes from [4096 * n]) is not the heap's to give. *)
  page_used : heap → Z → Prop;
}.

Record machine `{Heap} := mkMachine { mc_world : world; mc_heap : heap }.
Arguments mkMachine {_}.
Definition mc_mem `{Heap} (s : machine) : memory := w_mem (mc_world s).
Definition mc_set_mem `{Heap} (m : memory) (s : machine) : machine := mkMachine (set_mem m (mc_world s)) (mc_heap s).

(** Whole pages are aligned, lie in the physical memory a kernel maps onto itself, and were not in use. *)
Class HeapLaws `{Heap} := {
  heap_allocate_spec n h a h' : 0 < n → heap_allocate (n * page_size) page_size h = Some (a, h') →
    ∃ p, a = p * page_size ∧ 0 < p ∧ p + n ≤ 2 ^ 26 ∧ (∀ i, p ≤ i < p + n → ¬ page_used h i) ∧
      ∀ i, page_used h' i ↔ page_used h i ∨ p ≤ i < p + n;
}.

Lemma mc_mem_set `{Heap} (m : memory) (s : machine) : mc_mem (mc_set_mem m s) = m.
Proof. done. Qed.

Definition mc_on_mem `{Heap} (f : memory → memory) : st machine unit := fun s => Done ((), mc_set_mem (f (mc_mem s)) s).

(** [GlobalAlloc::alloc] of [kernel-alloc]; [handle_alloc_error] stops the kernel. *)
Definition Global_alloc `{Heap} (size align : Z) : st machine Z := fun s =>
  match heap_allocate size align (mc_heap s) with
  | Some (ptr, h) => Done (ptr, mkMachine (mc_world s) h)
  | None => Panic
  end.
Definition Global_dealloc `{Heap} (ptr size : Z) : st machine unit := fun s =>
  Done ((), mkMachine (mc_world s) (heap_deallocate ptr size (mc_heap s))).
(** [alloc_zeroed]. *)
Definition alloc_zeroed `{Heap} (size align : Z) : st machine Z :=
  ptr ← Global_alloc size align;
  mc_on_mem (mem_zero ptr size);;
  mret ptr.

(** ** The page table crate *)
Inductive Pos := At (vpn : Z) (level : nat) | Stop.
Inductive Update := UPte (pte child : Z) | UTarget (pos : Pos).

(** [trait Decorator]: [arrive] gets the address of the entry; [meet] looks and does not act. *)
Record Decorator `{Heap} (D : Type) := mkDecorator {
  deco_arrive : Z → Pos → st (machine * D) Pos;
  deco_meet : nat → Z → Pos → option Z;
  deco_block : nat → Z → Pos → st (machine * D) Update;
}.
Arguments mkDecorator {_ D}.
Arguments deco_arrive {_ D}.
Arguments deco_meet {_ D}.
Arguments deco_block {_ D}.

(** [trait Visitor], on memory it cannot change. *)
Record Visitor (D : Type) := mkVisitor {
  vis_arrive : Z → Pos → D → Pos * D;
  vis_meet : nat → Z → Pos → option Z;
  vis_block : nat → Z → Pos → D → Pos * D;
}.
Arguments mkVisitor {D}.
Arguments vis_arrive {D}.
Arguments vis_meet {D}.
Arguments vis_block {D}.

Class PageTableCrate `{Heap} := {
  (** [VAddr]: page numbers below and above, offset in the page. *)
  va_floor : Z → Z;
  va_ceil : Z → Z;
  va_offset : Z → Z;
  (** [VPN]: index in the table of a level, first address, the last page. *)
  vpn_index_in : Z → nat → Z;
  vpn_base : Z → Z;
  VPN_MAX : Z;
  (** [Pte]. *)
  pte_is_valid : Z → bool;
  pte_is_leaf : Z → bool;
  pte_flags : Z → Z;
  pte_ppn : Z → Z;
  (** [VmFlags]. *)
  flags_build_pte : Z → Z → Z;
  flags_contains : Z → Z → bool;
  parse_flags : string → option Z;
  (** [Pos::next]. *)
  pos_next : Pos → Pos;
  (** [PageTable::walk] and [walk_mut], which stop after so many targets. *)
  walk {D} : nat → Visitor D → Z → Pos → memory → D → outcome D;
  walk_mut {D} : nat → Decorator D → Z → Pos → st (machine * D) unit;
}.

(** [build_flags], a constant function: a bad string does not compile. *)
Definition build_flags `{PageTableCrate} (s : string) : Z := default 0 (parse_flags s).

Definition entry_addr `{PageTableCrate} (table vpn : Z) (level : nat) : Z := table + 8 * vpn_index_in vpn level.

Section Visits.
Context `{PageTableCrate}.

(** An entry that leads to a table of the next level. *)
Definition is_table (pte : Z) : bool := pte_is_valid pte && negb (pte_is_leaf pte).

Definition put_entry {D} (addr pte : Z) (s : machine * D) : machine * D :=
  (mc_set_mem (write_word addr pte (mc_mem s.1)) s.1, s.2).

(** One descent of [walk_mut] to its target, from a table of a level: [arrive] at the target, [meet] at the tables on
    the way, [block] where there is none; a new entry is written and followed.  What happens when [meet] gives no table
    is left open. *)
Inductive visits_mut {D} (d : Decorator D) : nat → Z → Pos → machine * D → outcome (Pos * (machine * D)) → Prop :=
| visit_arrive level table vpn s :
    visits_mut d level table (At vpn level) s (deco_arrive d (entry_addr table vpn level) (At vpn level) s)
| visit_meet level table vpn target s child r :
    (target ≤ level)%nat → is_table (read_word (mc_mem s.1) (entry_addr table vpn (S level))) = true →
    deco_meet d (S level) (read_word (mc_mem s.1) (entry_addr table vpn (S level))) (At vpn target) = Some child →
    visits_mut d level child (At vpn target) s r →
    visits_mut d (S level) table (At vpn target) s r
| visit_block_new level table vpn target s pte child s' r :
    (target ≤ level)%nat → is_table (read_word (mc_mem s.1) (entry_addr table vpn (S level))) = false →
    deco_block d (S level) (read_word (mc_mem s.1) (entry_addr table vpn (S level))) (At vpn target) s
      = Done (UPte pte child, s') →
    visits_mut d level child (At vpn target) (put_entry (entry_addr table vpn (S level)) pte s') r →
    visits_mut d (S level) table (At vpn target) s r
| visit_block_target level table vpn target s pos s' :
    (target ≤ level)%nat → is_table (read_word (mc_mem s.1) (entry_addr table vpn (S level))) = false →
    deco_block d (S level) (read_word (mc_mem s.1) (entry_addr table vpn (S level))) (At vpn target) s
      = Done (UTarget pos, s') →
    visits_mut d (S level) table (At vpn target) s (Done (pos, s'))
| visit_block_panic level table vpn target s :
    (target ≤ level)%nat → is_table (read_word (mc_mem s.1) (entry_addr table vpn (S level))) = false →
    deco_block d (S level) (read_word (mc_mem s.1) (entry_addr table vpn (S level))) (At vpn target) s = Panic →
    visits_mut d (S level) table (At vpn target) s Panic.

(** The same for [walk]. *)
Inductive visits {D} (v : Visitor D) (m : memory) : nat → Z → Pos → D → Pos * D → Prop :=
| look_arrive level table vpn x :
    visits v m level table (At vpn level) x (vis_arrive v (read_word m (entry_addr table vpn level)) (At vpn level) x)
| look_meet level table vpn target x child r :
    (target ≤ level)%nat → is_table (read_word m (entry_addr table vpn (S level))) = true →
    vis_meet v (S level) (read_word m (entry_addr table vpn (S level))) (At vpn target) = Some child →
    visits v m level child (At vpn target) x r →
    visits v m (S level) table (At vpn target) x r
| look_block level table vpn target x :
    (target ≤ level)%nat → is_table (read_word m (entry_addr table vpn (S level))) = false →
    visits v m (S level) table (At vpn target) x
      (vis_block v (S level) (read_word m (entry_addr table vpn (S level))) (At vpn target) x).

(** The bits of a flag string: [D A G U X W R V], one letter per bit from the right, [_] for a bit that is off. *)
Definition flag_bit (c : Ascii.ascii) (bit : Z) : option Z :=
  if Ascii.eqb c "_"%char then Some 0
  else if existsb (fun '(l, b) => Ascii.eqb c l && (b =? bit))
         [("V"%char, 0); ("R"%char, 1); ("W"%char, 2); ("X"%char, 3); ("U"%char, 4); ("G"%char, 5); ("A"%char, 6); ("D"%char, 7)]
       then Some (2 ^ bit) else None.
Fixpoint flag_bits (s : list Ascii.ascii) (bit : Z) : option Z :=
  match s with
  | [] => Some 0
  | c :: s' => b ← flag_bit c bit; r ← flag_bits s' (bit + 1); Some (b + r)
  end.

(** What the kernels rely on: Sv39 addresses of the lower half, the format of entries, and the walkers. *)
Class PageTableLaws : Prop := {
  va_floor_spec a : 0 ≤ a < 2 ^ 38 → va_floor a = a / page_size;
  va_ceil_spec a : 0 ≤ a < 2 ^ 38 → va_ceil a = div_ceil a page_size;
  va_offset_spec a : 0 ≤ a < 2 ^ 38 → va_offset a = a mod page_size;
  vpn_index_in_spec vpn level : 0 ≤ vpn < 2 ^ 27 → (level ≤ 2)%nat →
    vpn_index_in vpn level = vpn / entries ^ Z.of_nat level mod entries;
  vpn_base_spec vpn : 0 ≤ vpn < 2 ^ 26 → vpn_base vpn = vpn * page_size;
  VPN_MAX_spec : VPN_MAX = 2 ^ 27 - 1;
  pte_zero : pte_is_valid 0 = false;
  build_pte_range f p : 0 ≤ f < 2 ^ 10 → 0 ≤ p < 2 ^ 44 → 0 ≤ flags_build_pte f p < 2 ^ 64;
  build_pte_valid f p : 0 ≤ f < 2 ^ 10 → 0 ≤ p < 2 ^ 44 → pte_is_valid (flags_build_pte f p) = Z.testbit f 0;
  build_pte_leaf f p : 0 ≤ f < 2 ^ 10 → 0 ≤ p < 2 ^ 44 → pte_is_leaf (flags_build_pte f p) = negb (Z.land f 14 =? 0);
  build_pte_flags f p : 0 ≤ f < 2 ^ 10 → 0 ≤ p < 2 ^ 44 → pte_flags (flags_build_pte f p) = f;
  build_pte_ppn f p : 0 ≤ f < 2 ^ 10 → 0 ≤ p < 2 ^ 44 → pte_ppn (flags_build_pte f p) = p;
  flags_contains_spec a b : flags_contains a b = (Z.land a b =? b);
  parse_flags_spec s f : flag_bits (reverse (String.list_ascii_of_string s)) 0 = Some f → parse_flags s = Some f;
  pos_next_spec vpn : pos_next (At vpn 0) = At (vpn + 1) 0;
  walk_stop {D} n (v : Visitor D) root m x : walk n v root Stop m x = Done x;
  walk_target {D} n (v : Visitor D) root vpn m x pos x' : visits v m 2 root (At vpn 0) x (pos, x') →
    walk (S n) v root (At vpn 0) m x = walk n v root pos m x';
  walk_mut_stop {D} n (d : Decorator D) root s : walk_mut n d root Stop s = Done ((), s);
  walk_mut_fuel {D} (d : Decorator D) root vpn level s : walk_mut 0 d root (At vpn level) s = Hang;
  walk_mut_target {D} n (d : Decorator D) root vpn s r : visits_mut d 2 root (At vpn 0) s r →
    walk_mut (S n) d root (At vpn 0) s =
      match r with
      | Done (pos, s') => walk_mut n d root pos s'
      | Panic => Panic
      | Hang => Hang
      end;
}.
End Visits.

(** ** Instances

    The Sv39 format and the plainest walkers that obey the laws. *)
#[local] Instance BumpHeap : Heap := {|
  heap := Z;
  heap_allocate size align next :=
    let n := div_ceil size page_size in
    if (0 <? next) && (0 <? n) && (next + n <=? 2 ^ 26) then Some (next * page_size, next + n) else None;
  heap_deallocate _ _ h := h;
  page_used next p := p < next;
|}.

Section Sv39.
Context `{Heap}.

Definition sv39_index (vpn : Z) (level : nat) : Z := vpn / entries ^ Z.of_nat level mod entries.
Definition sv39_valid (pte : Z) : bool := Z.testbit pte 0.
Definition sv39_leaf (pte : Z) : bool := negb (Z.land pte 14 =? 0).
Definition sv39_table (pte : Z) : bool := sv39_valid pte && negb (sv39_leaf pte).

Fixpoint sv39_visit {D} (v : Visitor D) (m : memory) (level : nat) (table vpn : Z) (target : nat) (x : D) :
    option (Pos * D) :=
  let pte := read_word m (table + 8 * sv39_index vpn level) in
  if decide (level = target) then Some (vis_arrive v pte (At vpn target) x)
  else
    match level with
    | O => None
    | S level' =>
        if sv39_table pte then
          child ← vis_meet v level pte (At vpn target);
          sv39_visit v m level' child vpn target x
        else Some (vis_block v level pte (At vpn target) x)
    end.

Fixpoint sv39_walk {D} (fuel : nat) (v : Visitor D) (root : Z) (pos : Pos) (m : memory) (x : D) : outcome D :=
  match pos with
  | Stop => Done x
  | At vpn target =>
      match fuel with
      | O => Hang
      | S fuel' =>
          match sv39_visit v m 2 root vpn target x with
          | Some (pos, x) => sv39_walk fuel' v root pos m x
          | None => Panic
          end
      end
  end.

Fixpoint sv39_visit_mut {D} (d : Decorator D) (level : nat) (table vpn : Z) (target : nat) : st (machine * D) Pos := fun s =>
  let addr := table + 8 * sv39_index vpn level in
  let pte := read_word (mc_mem s.1) addr in
  if decide (level = target) then deco_arrive d addr (At vpn target) s
  else
    match level with
    | O => Panic
    | S level' =>
        if sv39_table pte then
          child ← unwrap (deco_meet d level pte (At vpn target));
          sv39_visit_mut d level' child vpn target s
        else
          '(u, s) ← deco_block d level pte (At vpn target) s;
          match u with
          | UPte pte child => sv39_visit_mut d level' child vpn target (put_entry addr pte s)
          | UTarget pos => Done (pos, s)
          end
    end.

Fixpoint sv39_walk_mut {D} (fuel : nat) (d : Decorator D) (root : Z) (pos : Pos) : st (machine * D) unit := fun s =>
  match pos with
  | Stop => Done ((), s)
  | At vpn target =>
      match fuel with
      | O => Hang
      | S fuel' =>
          '(pos, s) ← sv39_visit_mut d 2 root vpn target s;
          sv39_walk_mut fuel' d root pos s
      end
  end.

#[local] Instance Sv39Crate : PageTableCrate := {|
  va_floor a := a / page_size;
  va_ceil a := div_ceil a page_size;
  va_offset a := a mod page_size;
  vpn_index_in := sv39_index;
  vpn_base vpn := vpn * page_size;
  VPN_MAX := 2 ^ 27 - 1;
  pte_is_valid := sv39_valid;
  pte_is_leaf := sv39_leaf;
  pte_flags pte := Z.land pte 1023;
  pte_ppn pte := Z.land (Z.shiftr pte 10) (2 ^ 44 - 1);
  flags_build_pte f p := Z.lor (Z.shiftl p 10) f;
  flags_contains a b := Z.land a b =? b;
  parse_flags s := flag_bits (reverse (String.list_ascii_of_string s)) 0;
  pos_next pos := match pos with At vpn level => At (vpn + entries ^ Z.of_nat level) level | Stop => Stop end;
  walk D := @sv39_walk D;
  walk_mut D := @sv39_walk_mut D;
|}.

(** Above the target, on a given entry. *)
Ltac at_entry Ht :=
  unfold is_table in Ht; cbn [sv39_visit sv39_visit_mut]; rewrite decide_False by lia; unfold entry_addr in *; simpl in *;
  unfold sv39_table; rewrite Ht.

Lemma sv39_visits {D} (v : Visitor D) m level table pos x r : visits v m level table pos x r →
  match pos with At vpn target => sv39_visit v m level table vpn target x = Some r | Stop => True end.
Proof.
  induction 1 as [level table vpn x|level table vpn target x child r Hl Ht Hm _ IH|level table vpn target x Hl Ht].
  - destruct level; cbn [sv39_visit]; rewrite decide_True by done; done.
  - at_entry Ht. by rewrite Hm.
  - at_entry Ht. done.
Qed.

Lemma sv39_visits_mut {D} (d : Decorator D) level table pos s r : visits_mut d level table pos s r →
  match pos with At vpn target => sv39_visit_mut d level table vpn target s = r | Stop => True end.
Proof.
  induction 1 as [level table vpn s|level table vpn target s child r Hl Ht Hm _ IH
    |level table vpn target s pte child s' r Hl Ht Hb _ IH|level table vpn target s pos s' Hl Ht Hb|level table vpn target s Hl Ht Hb].
  - destruct level; cbn [sv39_visit_mut]; rewrite decide_True by done; done.
  - at_entry Ht. by rewrite Hm.
  - at_entry Ht. by rewrite Hb.
  - at_entry Ht. by rewrite Hb.
  - at_entry Ht. by rewrite Hb.
Qed.

Lemma testbit_small f n k : 0 ≤ f < 2 ^ k → 0 ≤ k → k ≤ n → Z.testbit f n = false.
Proof. intros Hf Hk Hn. rewrite <-(Z.mod_small f (2 ^ k)) by done. by apply Z.mod_pow2_bits_high. Qed.

Lemma lor_range a b k : 0 ≤ k → 0 ≤ a < 2 ^ k → 0 ≤ b < 2 ^ k → 0 ≤ Z.lor a b < 2 ^ k.
Proof.
  intros Hk Ha Hb. assert (Z.lor a b = Z.lor a b mod 2 ^ k) as ->; [|apply Z.mod_pos_bound; lia].
  apply Z.bits_inj'. intros n Hn. destruct (decide (n < k)).
  - by rewrite Z.mod_pow2_bits_low.
  - by rewrite Z.mod_pow2_bits_high, Z.lor_spec, (testbit_small a n k), (testbit_small b n k) by lia.
Qed.

Lemma sv39_pte f p : 0 ≤ f < 2 ^ 10 → Z.lor (Z.shiftl p 10) f = p * 1024 + f.
Proof.
  intros Hf. assert (Z.land (Z.shiftl p 10) f = 0) as Hl.
  { apply Z.bits_inj'. intros n Hn. rewrite Z.land_spec, Z.shiftl_spec, Z.bits_0 by done.
    destruct (decide (n < 10)); [by rewrite Z.testbit_neg_r by lia|].
    by rewrite (testbit_small f n 10), andb_false_r by lia. }
  rewrite <-Z.lxor_lor, <-Z.add_nocarry_lxor, Z.shiftl_mul_pow2 by done. done.
Qed.

Lemma sv39_leaf_build f p : Z.land (Z.lor (Z.shiftl p 10) f) 14 = Z.land f 14.
Proof.
  apply Z.bits_inj'. intros n Hn. rewrite !Z.land_spec, Z.lor_spec, Z.shiftl_spec by done.
  destruct (decide (n < 10)); [by rewrite Z.testbit_neg_r by lia|].
  by rewrite (testbit_small 14 n 4), !andb_false_r by lia.
Qed.

Lemma Sv39Laws : PageTableLaws.
Proof.
  split; intros; simpl in *; try done.
  - rewrite sv39_pte by done. lia.
  - unfold sv39_valid. by rewrite Z.lor_spec, Z.shiftl_spec, (Z.testbit_neg_r p) by lia.
  - unfold sv39_leaf. by rewrite sv39_leaf_build.
  - rewrite sv39_pte by done. change 1023 with (Z.ones 10).
    rewrite Z.land_ones, Z.add_comm by done. change (2 ^ 10) with 1024. rewrite Z.mod_add, Z.mod_small by lia. done.
  - rewrite sv39_pte, Z.shiftr_div_pow2 by done. change (2 ^ 44 - 1) with (Z.ones 44).
    rewrite Z.land_ones, Z.add_comm by done. change (2 ^ 10) with 1024. rewrite Z.div_add, Z.div_small by lia.
    by rewrite Z.mod_small.
  - by destruct n.
  - apply sv39_visits in H0. simpl in H0. by rewrite H0.
  - by destruct n.
  - apply sv39_visits_mut in H0. cbn [sv39_walk_mut]. simpl in H0. by rewrite H0.
Qed.
End Sv39.

Lemma BumpHeapLaws : HeapLaws (H := BumpHeap).
Proof.
  split. intros n h a h' Hn. simpl. rewrite div_ceil_eq by done.
  replace ((n * page_size + page_size - 1) / page_size) with n.
  2: { unfold page_size. apply (Z.div_unique _ _ _ 4095); lia. }
  destruct (0 <? h) eqn:E0; [|done]. rewrite (proj2 (Z.ltb_lt 0 n)) by done.
  destruct (h + n <=? 2 ^ 26) eqn:E2; [|done]. intros [= <- <-]. exists h.
  apply Z.ltb_lt in E0. apply Z.leb_le in E2. split_and!; [done..| |]; intros i; lia.
Qed.

(** A machine with nothing in memory and a heap that starts at page 0x80300. *)
Definition demo_machine : machine (H := BumpHeap) := @mkMachine BumpHeap (mkWorld (fun _ => 0) 7 0 []) 0x80300.
