(* ===== verification/AddressSpace.v ===== *)
(** * Address spaces

    Models [tg-rcore-tutorial-kernel-vm/src/{lib.rs,space/{mod,mapper,visitor}.rs}]: the areas of an address space and
    its page tables, which are words of memory.  [PageManager] is the trait a kernel implements. *)

From S2P Require Import Prelude Bytes Memory PageTable.

(** ** [trait PageManager]

    An implementation keeps its state in the machine. *)
Class PageManager `{Heap} (M : Type) := {
  pm_new_root : st machine M;
  pm_root_ptr : M → Z;
  pm_root_ppn : M → Z;
  pm_p_to_v : M → Z → Z;
  pm_v_to_p : M → Z → Z;
  pm_check_owned : M → Z → bool;
  (** Answers the pointer and the flags it filled in. *)
  pm_allocate : M → Z → Z → st machine (Z * Z);
  pm_deallocate : M → Z → Z → st machine Z;
  pm_drop_root : M → st machine unit;
}.

(** ** Data *)
Record AddressSpace (M : Type) := mkSpace { areas : list (Z * Z); page_manager : M }.
Arguments mkSpace {M}.
Arguments areas {M}.
Arguments page_manager {M}.

Section Operations.
Context `{PageTableCrate} {M : Type} `{!PageManager M}.

Definition AddressSpace_new : st machine (AddressSpace M) :=
  pm ← pm_new_root;
  mret (mkSpace [] pm).
Definition AddressSpace_root_ppn (sp : AddressSpace M) : Z := pm_root_ppn (page_manager sp).
(** [PageTable::from_root]: the address of the root table. *)
Definition AddressSpace_root (sp : AddressSpace M) : Z := pm_root_ptr (page_manager sp).

(** [!areas.all(|area| range.end <= area.start || range.start >= area.end)]. *)
Definition have_mapped (range : Z * Z) (sp : AddressSpace M) : bool :=
  negb (forallb (fun area => (range.2 <=? area.1) || (area.2 <=? range.1)) (areas sp)).

(** ** [Mapper] *)
Record Mapper := mkMapper { mp_start : Z; mp_end : Z; mp_flags : Z; mp_done : bool }.
Definition Mapper_new (range : Z * Z) (flags : Z) : Mapper := mkMapper range.1 range.2 flags false.
Definition Mapper_ans (d : Mapper) : bool := mp_done d.

Definition Mapper_arrive (entry : Z) (target_hint : Pos) : st (machine * Mapper) Pos := fun '(s, d) =>
  _ ← rassert (negb (pte_is_valid (read_word (mc_mem s) entry)));
  let s := mc_set_mem (write_word entry (flags_build_pte (mp_flags d) (mp_start d)) (mc_mem s)) s in
  let start := mp_start d + 1 in
  if start =? mp_end d
  then Done (Stop, (s, mkMapper start (mp_end d) (mp_flags d) true))
  else Done (pos_next target_hint, (s, mkMapper start (mp_end d) (mp_flags d) (mp_done d))).

Definition Mapper_meet (pm : M) (level : nat) (pte : Z) (target_hint : Pos) : option Z :=
  if pm_check_owned pm pte then Some (pm_p_to_v pm (pte_ppn pte)) else None.

(** [VmFlags::VALID]. *)
Definition VALID : Z := 1.
Definition Mapper_block (pm : M) (level : nat) (pte : Z) (target_hint : Pos) : st (machine * Mapper) Update := fun '(s, d) =>
  _ ← rassert (negb (pte_is_valid pte));
  '((page, flags), s) ← pm_allocate pm 1 VALID s;
  let ppn := pm_v_to_p pm page in
  Done (UPte (flags_build_pte flags ppn) page, (s, d)).

Definition Mapper_decorator (pm : M) : Decorator Mapper :=
  mkDecorator Mapper_arrive (Mapper_meet pm) (Mapper_block pm).

(** ** [Visitor] *)
Definition Visitor_arrive (pte : Z) (target_hint : Pos) (ans : option Z) : Pos * option Z :=
  (Stop, if pte_is_valid pte then Some pte else ans).
Definition Visitor_meet (pm : M) (level : nat) (pte : Z) (target_hint : Pos) : option Z := Some (pm_p_to_v pm (pte_ppn pte)).
Definition Visitor_block (level : nat) (pte : Z) (target : Pos) (ans : option Z) : Pos * option Z := (Stop, ans).
Definition Visitor_visitor (pm : M) : Visitor (option Z) := mkVisitor Visitor_arrive (Visitor_meet pm) Visitor_block.

(** [Visitor::new], a walk to one page, [ans]. *)
Definition visit_page (vpn : Z) (sp : AddressSpace M) (m : memory) : outcome (option Z) :=
  walk 1 (Visitor_visitor (page_manager sp)) (AddressSpace_root sp) (At vpn 0) m None.

(** ** Operations

    [fuel] bounds the pages a walk of the mapper visits. *)
Definition map_extern (fuel : nat) (range : Z * Z) (pbase flags : Z) (sp : AddressSpace M) : st machine (AddressSpace M) := fun s =>
  let sp := mkSpace (areas sp ++ [range]) (page_manager sp) in
  count ← usize_sub range.2 range.1;
  let mapper := Mapper_new (pbase, pbase + count) flags in
  '(_, (s, mapper)) ← walk_mut fuel (Mapper_decorator (page_manager sp)) (AddressSpace_root sp) (At range.1 0) (s, mapper);
  if Mapper_ans mapper then Done (sp, s) else Panic.

(** [count << PAGE_BITS]. *)
Definition pages_bytes (count : Z) : Z := as_usize (Z.shiftl count 12).

Definition AddressSpace_map (fuel : nat) (range : Z * Z) (data : list Z) (offset flags : Z) (sp : AddressSpace M) :
    st machine (AddressSpace M) :=
  count ← lift (usize_sub range.2 range.1);
  let size := pages_bytes count in
  total ← lift (usize_add (Z.of_nat (length data)) offset);
  _ ← lift (rassert (total <=? size));
  '(page, flags) ← pm_allocate (page_manager sp) count flags;
  mc_on_mem (mem_zero page offset);;
  mc_on_mem (mem_write (page + offset) data);;
  mc_on_mem (mem_zero (page + total) (size - total));;
  map_extern fuel range (pm_v_to_p (page_manager sp) page) flags sp.

Definition map_anonymous (fuel : nat) (range : Z * Z) (flags : Z) (sp : AddressSpace M) : st machine (AddressSpace M) :=
  count ← lift (usize_sub range.2 range.1);
  let size := pages_bytes count in
  '(page, flags) ← pm_allocate (page_manager sp) count flags;
  mc_on_mem (mem_zero page size);;
  map_extern fuel range (pm_v_to_p (page_manager sp) page) flags sp.

(** [for level in (0..=MAX_LEVEL).rev()]. *)
Fixpoint find_pte_from (level : nat) (pm : M) (m : memory) (current vpn : Z) : option Z :=
  let pte_ptr := entry_addr current vpn level in
  let pte := read_word m pte_ptr in
  match level with
  | O => Some pte_ptr
  | S level' =>
      if negb (pte_is_valid pte) then None
      else if negb (Z.land (pte_flags pte) 10 =? 0) then Some pte_ptr
      else find_pte_from level' pm m (pm_p_to_v pm (pte_ppn pte)) vpn
  end.
Definition find_pte_mut (vpn : Z) (sp : AddressSpace M) (m : memory) : option Z :=
  find_pte_from 2 (page_manager sp) m (AddressSpace_root sp) vpn.

(** The areas that remain of one area. *)
Definition cut_area (range area : Z * Z) : list (Z * Z) :=
  if (area.2 <=? range.1) || (range.2 <=? area.1) then [area]
  else (if area.1 <? range.1 then [(area.1, range.1)] else []) ++ (if range.2 <? area.2 then [(range.2, area.2)] else []).

(** [while vpn < range.end]. *)
Fixpoint clear_ptes (count : nat) (vpn : Z) (sp : AddressSpace M) (m : memory) : memory :=
  match count with
  | O => m
  | S count' =>
      let m := match find_pte_mut vpn sp m with
               | Some pte_ptr => mem_write pte_ptr (replicate 8 0) m
               | None => m
               end in
      clear_ptes count' (vpn + 1) sp m
  end.

Definition unmap (range : Z * Z) (sp : AddressSpace M) : st machine (AddressSpace M) :=
  let sp := mkSpace (concat (cut_area range <$> areas sp)) (page_manager sp) in
  mc_on_mem (clear_ptes (Z.to_nat (range.2 - range.1)) range.1 sp);;
  mret sp.

Definition translate (addr flags : Z) (sp : AddressSpace M) (m : memory) : outcome (option Z) :=
  ans ← visit_page (va_floor addr) sp m;
  Done match ans with
       | Some pte =>
           if flags_contains (pte_flags pte) flags
           then Some (pm_p_to_v (page_manager sp) (pte_ppn pte) + va_offset addr) else None
       | None => None
       end.

(** One turn of the loop of [cloneself]. *)
Definition clone_area (fuel : nat) (sp new : AddressSpace M) (range : Z * Z) : st machine (AddressSpace M) :=
  s ← get_st;
  ans ← lift (visit_page range.1 sp (mc_mem s));
  pte ← lift (unwrap ans);
  _ ← lift (rassert (pte_is_valid pte));
  let data_ptr := pm_p_to_v (page_manager sp) (pte_ppn pte) in
  count ← lift (usize_sub range.2 range.1);
  let size := pages_bytes count in
  '(paddr, flags) ← pm_allocate (page_manager new) count (pte_flags pte);
  let ppn := pm_v_to_p (page_manager new) paddr in
  mc_on_mem (mem_copy paddr data_ptr size);;
  map_extern fuel range ppn flags new.

Fixpoint clone_areas (fuel : nat) (sp : AddressSpace M) (l : list (Z * Z)) (new : AddressSpace M) : st machine (AddressSpace M) :=
  match l with
  | [] => mret new
  | range :: l' =>
      new ← clone_area fuel sp new range;
      clone_areas fuel sp l' new
  end.
Definition cloneself (fuel : nat) (sp new : AddressSpace M) : st machine (AddressSpace M) :=
  clone_areas fuel sp (areas sp) new.
End Operations.
