(* ===== verification/SpaceTree.v ===== *)
(** * The page tables of an address space

    Page tables are words in memory.  [tree] says which pages hold the tables of an address space and how they are
    linked; [mapping] is the finite map from page numbers to entries they stand for.  The operations of AddressSpace.v
    are proved to work on that map, and to leave alone every page in use that is not one of the tables. *)

From S2P Require Import Prelude Bytes Memory PageTable AddressSpace.

(** ** What an address space needs from the kernel *)

(** [s'] is [s] after [n] zeroed pages from page [p] on were taken. *)
Record allocated `{Heap} (p n : Z) (s s' : machine) : Prop := {
  al_range : 0 < p ∧ p + n ≤ 2 ^ 26;
  al_fresh i : p ≤ i < p + n → ¬ page_used (mc_heap s) i;
  al_used i : page_used (mc_heap s') i ↔ page_used (mc_heap s) i ∨ p ≤ i < p + n;
  al_mem x : mc_mem s' x = if decide (p * page_size ≤ x < (p + n) * page_size) then 0 else mc_mem s x;
  al_world : mc_world s' = set_mem (mc_mem s') (mc_world s);
}.

Class PageManagerLaws `{PageTableCrate} (M : Type) `{!PageManager M} := {
  (** The bit that marks pages the kernel gave. *)
  owned : Z;
  owned_range : 0 ≤ owned < 2 ^ 10;
  owned_plain : Z.land owned 15 = 0;
  p_to_v_spec (pm : M) p : 0 ≤ p < 2 ^ 26 → pm_p_to_v pm p = p * page_size;
  v_to_p_spec (pm : M) p : 0 ≤ p < 2 ^ 26 → pm_v_to_p pm (p * page_size) = p;
  check_owned_spec (pm : M) f p : 0 ≤ f < 2 ^ 10 → 0 ≤ p < 2 ^ 26 →
    pm_check_owned pm (flags_build_pte (Z.lor f owned) p) = true;
  allocate_spec (pm : M) n f s : 0 < n ≤ 2 ^ 27 →
    pm_allocate pm n f s = Panic ∨
    ∃ p s', pm_allocate pm n f s = Done ((p * page_size, Z.lor f owned), s') ∧ allocated p n s s';
  new_root_spec s : pm_new_root s = Panic ∨
    ∃ (pm : M) s', pm_new_root s = Done (pm, s') ∧ pm_root_ptr pm = pm_root_ppn pm * page_size ∧
      allocated (pm_root_ppn pm) 1 s s';
}.

(** ** Words of tables *)
Section Words.
Implicit Types (m : memory).

Definition entry m (p i : Z) : Z := read_word m (p * page_size + 8 * i).
Definition set_entry (p i v : Z) m : memory := write_word (p * page_size + 8 * i) v m.

#[global] Arguments entry : simpl never.
#[global] Arguments set_entry : simpl never.

Definition is_index (i : Z) : Prop := 0 ≤ i < entries.
Definition is_vpn (vpn : Z) : Prop := 0 ≤ vpn < 2 ^ 27.

Lemma entry_set_eq m p i v : 0 ≤ v < 2 ^ 64 → entry (set_entry p i v m) p i = v.
Proof. apply read_write_word. Qed.

Lemma entry_set_ne m p i v q j : is_index i → is_index j → (p ≠ q ∨ i ≠ j) → entry (set_entry p i v m) q j = entry m q j.
Proof.
  unfold is_index, entries. intros Hi Hj Hne. apply read_word_ext, write_word_other. unfold page_size.
  destruct Hne as [?|?]; lia.
Qed.

(** A write of an entry changes no other page. *)
Lemma set_entry_page m p i v x : is_index i → x / page_size ≠ p → set_entry p i v m x = m x.
Proof.
  unfold is_index, entries. intros Hi Hx. apply (write_word_other m _ x 1); [|lia].
  pose proof (Z.div_mod x page_size ltac:(done)). pose proof (Z.mod_pos_bound x page_size ltac:(done)).
  unfold page_size in *. lia.
Qed.

(** The indices of a page number. *)
Lemma index_range vpn l : is_index (sv39_index vpn l).
Proof. apply Z.mod_pos_bound. done. Qed.

Lemma index_2 vpn : is_vpn vpn → sv39_index vpn 2 = vpn / 262144.
Proof.
  unfold is_vpn, sv39_index, entries. intros Hv. simpl. apply Z.mod_small.
  split; [apply Z.div_pos; lia|apply Z.div_lt_upper_bound; lia].
Qed.

Lemma index_join vpn : is_vpn vpn →
  vpn = 262144 * sv39_index vpn 2 + 512 * sv39_index vpn 1 + sv39_index vpn 0.
Proof.
  intros Hv. rewrite index_2 by done. unfold sv39_index, entries. simpl. rewrite Z.div_1_r.
  change (512 ^ Z.of_nat 1) with 512.
  pose proof (Z.div_mod vpn 512 ltac:(done)). pose proof (Z.div_mod (vpn / 512) 512 ltac:(done)) as H2.
  rewrite Z.div_div in H2 by done. change (512 * 512) with 262144 in H2. lia.
Qed.

Lemma index_inj v w : is_vpn v → is_vpn w → sv39_index v 2 = sv39_index w 2 → sv39_index v 1 = sv39_index w 1 →
  sv39_index v 0 = sv39_index w 0 → v = w.
Proof. intros Hv Hw H2 H1 H0. rewrite (index_join v Hv), (index_join w Hw). congruence. Qed.
End Words.

(** ** Trees of tables *)
Section Tree.
Context `{PageTableCrate} {M : Type} `{!PageManager M, !PageTableLaws, !PageManagerLaws M}.
Implicit Types (m : memory) (T : gmap (list Z) Z) (vpn : Z).

(** The flags of an entry that leads to a table. *)
Definition table_flags : Z := Z.lor VALID owned.

(** [T] gives the page of the table at the end of a path of indices.  The root entries in [F] belong to others. *)
Record tree (F : Z → Prop) m (root : Z) T : Prop := {
  tr_root : T !! [] = Some root;
  tr_inj a b p : T !! a = Some p → T !! b = Some p → a = b;
  tr_page a p : T !! a = Some p → 0 < p < 2 ^ 26;
  tr_depth a : is_Some (T !! a) → (length a ≤ 2)%nat;
  tr_prefix a i : is_Some (T !! (a ++ [i])) → is_Some (T !! a);
  tr_next a p i q : T !! a = Some p → (length a ≤ 1)%nat → is_index i → T !! (a ++ [i]) = Some q →
    entry m p i = flags_build_pte table_flags q;
  tr_none a p i : T !! a = Some p → (length a ≤ 1)%nat → is_index i → T !! (a ++ [i]) = None →
    ¬ (a = [] ∧ F i) → pte_is_valid (entry m p i) = false;
  tr_local i a : is_Some (T !! (i :: a)) → ¬ F i;
}.

Definition leaf_table T vpn : option Z := T !! [sv39_index vpn 2; sv39_index vpn 1].
Definition mapping m T vpn : option Z :=
  p ← leaf_table T vpn;
  let e := entry m p (sv39_index vpn 0) in
  if pte_is_valid e then Some e else None.

Lemma table_flags_range : 0 ≤ table_flags < 2 ^ 10.
Proof. apply lor_range; [done..|apply owned_range]. Qed.

Lemma table_flags_low : Z.land table_flags 15 = 1.
Proof. unfold table_flags. rewrite Z.land_lor_distr_l, owned_plain. done. Qed.

Lemma table_flags_sub k : Z.land 15 k = k → Z.land table_flags k = Z.land 1 k.
Proof. intros <-. by rewrite !Z.land_assoc, table_flags_low. Qed.

(** An entry that leads to a table, as everybody reads it. *)
Record leads (pm : M) (e q : Z) : Prop := {
  ld_table : is_table e = true;
  ld_valid : pte_is_valid e = true;
  ld_small : Z.land (pte_flags e) 10 = 0;
  ld_owned : pm_check_owned pm e = true;
  ld_ptr : pm_p_to_v pm (pte_ppn e) = q * page_size;
}.

Lemma table_leads pm q : 0 ≤ q < 2 ^ 26 → leads pm (flags_build_pte table_flags q) q.
Proof.
  intros Hq. pose proof table_flags_range as Hf. assert (0 ≤ q < 2 ^ 44) as Hq' by lia.
  assert (pte_is_valid (flags_build_pte table_flags q) = true) as Hv.
  { rewrite build_pte_valid by done. pose proof (f_equal (fun z => Z.testbit z 0) table_flags_low) as Hb.
    cbv beta in Hb. rewrite Z.land_spec in Hb. by apply andb_true_iff in Hb as [-> _]. }
  split.
  - unfold is_table. rewrite Hv, build_pte_leaf by done. by rewrite table_flags_sub.
  - done.
  - rewrite build_pte_flags by done. by rewrite table_flags_sub.
  - by apply check_owned_spec.
  - rewrite build_pte_ppn by done. by apply p_to_v_spec.
Qed.

Lemma leaf_not_table e : pte_is_valid e = false → is_table e = false.
Proof. unfold is_table. by intros ->. Qed.

Lemma entry_addr_eq p vpn l : is_vpn vpn → (l ≤ 2)%nat →
  entry_addr (p * page_size) vpn l = p * page_size + 8 * sv39_index vpn l.
Proof. intros Hv Hl. unfold entry_addr, sv39_index. by rewrite vpn_index_in_spec. Qed.

Lemma read_entry m p vpn l : is_vpn vpn → (l ≤ 2)%nat →
  read_word m (entry_addr (p * page_size) vpn l) = entry m p (sv39_index vpn l).
Proof. intros Hv Hl. unfold entry. by rewrite entry_addr_eq. Qed.

(** The three levels below the root, on the way to a page. *)
Inductive descent m T (vpn : Z) : Prop :=
| no_middle root : T !! [] = Some root → T !! [sv39_index vpn 2] = None → leaf_table T vpn = None →
    pte_is_valid (entry m root (sv39_index vpn 2)) = false → descent m T vpn
| no_leaf root p : T !! [] = Some root → T !! [sv39_index vpn 2] = Some p → leaf_table T vpn = None →
    (∀ pm, leads pm (entry m root (sv39_index vpn 2)) p) → pte_is_valid (entry m p (sv39_index vpn 1)) = false →
    descent m T vpn
| to_leaf root p q : T !! [] = Some root → T !! [sv39_index vpn 2] = Some p → leaf_table T vpn = Some q →
    (∀ pm, leads pm (entry m root (sv39_index vpn 2)) p) → (∀ pm, leads pm (entry m p (sv39_index vpn 1)) q) →
    descent m T vpn.

Lemma tree_descent F m root T vpn : tree F m root T → is_vpn vpn → ¬ F (sv39_index vpn 2) → descent m T vpn.
Proof.
  intros Ht Hv HF. pose proof (tr_root _ _ _ _ Ht) as Hr. pose proof (index_range vpn 2) as Hi2.
  pose proof (index_range vpn 1) as Hi1. destruct (T !! [sv39_index vpn 2]) as [p|] eqn:Hp.
  - assert (∀ pm, leads pm (entry m root (sv39_index vpn 2)) p) as Hl.
    { intros pm. rewrite (tr_next _ _ _ _ Ht [] root _ p) by (done || simpl; lia). apply table_leads.
      pose proof (tr_page _ _ _ _ Ht _ _ Hp). lia. }
    destruct (leaf_table T vpn) as [q|] eqn:Hq.
    + apply (to_leaf _ _ _ root p q); [done..|]. intros pm.
      rewrite (tr_next _ _ _ _ Ht [sv39_index vpn 2] p _ q) by (done || simpl; lia). apply table_leads.
      pose proof (tr_page _ _ _ _ Ht _ _ Hq). lia.
    + apply (no_leaf _ _ _ root p); [done..|]. eapply (tr_none _ _ _ _ Ht); [done|simpl; lia|done|done|]. by intros [? _].
  - apply (no_middle _ _ _ root); [done..| |].
    + destruct (leaf_table T vpn) eqn:Hq; [|done]. exfalso.
      destruct (tr_prefix _ _ _ _ Ht [sv39_index vpn 2] (sv39_index vpn 1)) as [x Hx]; [by eexists|]. congruence.
    + eapply (tr_none _ _ _ _ Ht []); [done|simpl; lia|done|done|]. by intros [_ ?].
Qed.

(** ** Looking up a page *)
Implicit Types (sp : AddressSpace M).
Definition space_root sp : Z := AddressSpace_root_ppn sp.

(** The root table is a page. *)
Definition aligned sp : Prop := AddressSpace_root sp = space_root sp * page_size.

Lemma visit_page_run F m sp T vpn : aligned sp → tree F m (space_root sp) T → is_vpn vpn → ¬ F (sv39_index vpn 2) →
  visit_page vpn sp m = Done (mapping m T vpn).
Proof.
  intros Hsp Ht Hv HF. unfold visit_page. rewrite Hsp. pose proof (tr_root _ _ _ _ Ht) as Hr.
  assert (visits (Visitor_visitor (page_manager sp)) m 2 (space_root sp * page_size) (At vpn 0) None
            (Stop, mapping m T vpn)) as Hvis.
  2: { by rewrite (walk_target _ _ _ _ _ _ _ _ Hvis), walk_stop. }
  unfold mapping.
  destruct (tree_descent F m _ T vpn Ht Hv HF) as [root Hr' Hp Hq He|root p Hr' Hp Hq Hl He|root p q Hr' Hp Hq Hl Hl2];
    rewrite Hr in Hr'; injection Hr' as <-; rewrite Hq; simpl.
  - apply (look_block (Visitor_visitor _)); [lia|]. rewrite read_entry by (done || lia). by apply leaf_not_table.
  - eapply look_meet; [lia|rewrite read_entry by (done || lia); apply (Hl (page_manager sp))| |].
    { simpl. unfold Visitor_meet. rewrite read_entry, (ld_ptr _ _ _ (Hl _)) by (done || lia). done. }
    apply (look_block (Visitor_visitor _)); [lia|]. rewrite read_entry by (done || lia). by apply leaf_not_table.
  - eapply look_meet; [lia|rewrite read_entry by (done || lia); apply (Hl (page_manager sp))| |].
    { simpl. unfold Visitor_meet. rewrite read_entry, (ld_ptr _ _ _ (Hl _)) by (done || lia). done. }
    eapply look_meet; [lia|rewrite read_entry by (done || lia); apply (Hl2 (page_manager sp))| |].
    { simpl. unfold Visitor_meet. rewrite read_entry, (ld_ptr _ _ _ (Hl2 _)) by (done || lia). done. }
    pose proof (look_arrive (Visitor_visitor (page_manager sp)) m 0 (q * page_size) vpn None) as Ha.
    simpl in Ha. unfold Visitor_arrive in Ha. rewrite read_entry in Ha by (done || lia). done.
Qed.

Lemma find_pte_run F m sp T vpn : aligned sp → tree F m (space_root sp) T → is_vpn vpn → ¬ F (sv39_index vpn 2) →
  find_pte_mut vpn sp m = (fun q => q * page_size + 8 * sv39_index vpn 0) <$> leaf_table T vpn.
Proof.
  intros Hsp Ht Hv HF. unfold find_pte_mut. rewrite Hsp. pose proof (tr_root _ _ _ _ Ht) as Hr.
  destruct (tree_descent F m _ T vpn Ht Hv HF) as [root Hr' Hp Hq He|root p Hr' Hp Hq Hl He|root p q Hr' Hp Hq Hl Hl2];
    rewrite Hr in Hr'; injection Hr' as <-; rewrite Hq; cbn [find_pte_from].
  - rewrite read_entry by (done || lia). by rewrite He.
  - rewrite read_entry by (done || lia).
    rewrite (ld_valid _ _ _ (Hl (page_manager sp))), (ld_small _ _ _ (Hl (page_manager sp))), (ld_ptr _ _ _ (Hl _)). simpl.
    rewrite read_entry by (done || lia). by rewrite He.
  - rewrite read_entry by (done || lia).
    rewrite (ld_valid _ _ _ (Hl (page_manager sp))), (ld_small _ _ _ (Hl (page_manager sp))), (ld_ptr _ _ _ (Hl _)). simpl.
    rewrite read_entry by (done || lia).
    rewrite (ld_valid _ _ _ (Hl2 (page_manager sp))), (ld_small _ _ _ (Hl2 (page_manager sp))), (ld_ptr _ _ _ (Hl2 _)). simpl.
    by rewrite entry_addr_eq by (done || lia).
Qed.

(** ** Changing tables *)

(** [m'] holds the same bytes as [m] in the pages of the tables. *)
Definition same_tables T m m' : Prop := ∀ a p x, T !! a = Some p → x / page_size = p → m' x = m x.

Lemma entry_page m m' p i : is_index i → (∀ x, x / page_size = p → m' x = m x) → entry m' p i = entry m p i.
Proof.
  unfold is_index, entries. intros Hi Hx. apply read_word_ext. intros x Hr. apply Hx.
  symmetry. apply (Z.div_unique _ _ _ (x - p * page_size)); unfold page_size in *; lia.
Qed.

Lemma tree_ext F m m' root T : same_tables T m m' → tree F m root T →
  tree F m' root T ∧ ∀ vpn, mapping m' T vpn = mapping m T vpn.
Proof.
  intros Hs Ht. split.
  - destruct Ht. split; try done.
    + intros a p i q Ha Hl Hi Hq. rewrite (entry_page m m') by eauto. eauto.
    + intros a p i Ha Hl Hi Hn HF. rewrite (entry_page m m') by eauto. eauto.
  - intros vpn. unfold mapping. destruct (leaf_table T vpn) as [p|] eqn:Hp; [|done]. simpl.
    rewrite (entry_page m m'); [done|apply index_range|]. by eauto.
Qed.

Lemma tree_set_leaf F m root T vpn p v : tree F m root T → is_vpn vpn → leaf_table T vpn = Some p → 0 ≤ v < 2 ^ 64 →
  tree F (set_entry p (sv39_index vpn 0) v m) root T ∧
  ∀ w, is_vpn w → mapping (set_entry p (sv39_index vpn 0) v m) T w =
    if decide (w = vpn) then (if pte_is_valid v then Some v else None) else mapping m T w.
Proof.
  intros Ht Hv Hp Hr. pose proof (index_range vpn 0) as Hi0.
  assert (∀ a q j, T !! a = Some q → (length a ≤ 1)%nat → is_index j →
    entry (set_entry p (sv39_index vpn 0) v m) q j = entry m q j) as Hkeep.
  { intros a q j Ha Hl Hj. apply entry_set_ne; [done..|]. left. intros ->.
    pose proof (tr_inj _ _ _ _ Ht _ _ _ Hp Ha) as <-. simpl in Hl. lia. }
  split.
  - destruct Ht. split; try done.
    + intros a q i r Ha Hl Hi Hq. rewrite (Hkeep a) by done. eauto.
    + intros a q i Ha Hl Hi Hn HF. rewrite (Hkeep a) by done. eauto.
  - intros w Hw. unfold mapping. destruct (decide (w = vpn)) as [->|Hne].
    { rewrite Hp. simpl. by rewrite entry_set_eq. }
    destruct (leaf_table T w) as [q|] eqn:Hq; [|done]. simpl. rewrite entry_set_ne; [done|done|apply index_range|].
    destruct (decide (p = q)) as [->|]; [right|by left]. intros E. apply Hne.
    pose proof (tr_inj _ _ _ _ Ht _ _ _ Hp Hq) as Hpath. injection Hpath as E2 E1. symmetry. by apply index_inj.
Qed.

(** A new table under [a ++ [i]]. *)
Section Grow.
Variables (F : Z → Prop) (m : memory) (root : Z) (T : gmap (list Z) Z) (a : list Z) (i p q : Z).
Hypothesis Ht : tree F m root T.
Hypothesis Ha : T !! a = Some p.
Hypothesis Hl : (length a ≤ 1)%nat.
Hypothesis Hi : is_index i.
Hypothesis Hn : T !! (a ++ [i]) = None.
Hypothesis HF : ¬ (a = [] ∧ F i).
Hypothesis Hq : 0 < q < 2 ^ 26.
Hypothesis Hfr : ∀ b, T !! b ≠ Some q.
Hypothesis Hz : ∀ j, is_index j → entry m q j = 0.
Let m' := set_entry p i (flags_build_pte table_flags q) m.
Let T' := <[a ++ [i] := q]> T.

Lemma grow_range : 0 ≤ flags_build_pte table_flags q < 2 ^ 64.
Proof. apply build_pte_range; [apply table_flags_range|lia]. Qed.

Lemma grow_keep b r j : T !! b = Some r → is_index j → (b ≠ a ∨ j ≠ i) → entry m' r j = entry m r j.
Proof.
  intros Hb Hj Hne. apply entry_set_ne; [done..|]. destruct Hne as [Hne|Hne]; [left|by right; auto].
  intros ->. apply Hne. by apply (tr_inj _ _ _ _ Ht _ _ r).
Qed.

Lemma grow_new j : is_index j → pte_is_valid (entry m' q j) = false.
Proof.
  intros Hj. unfold m'. rewrite entry_set_ne, Hz by (done || left; intros ->; by apply (Hfr a)). apply pte_zero.
Qed.

Lemma grow_below j : T !! ((a ++ [i]) ++ [j]) = None.
Proof.
  destruct (T !! ((a ++ [i]) ++ [j])) eqn:E; [|done]. destruct (tr_prefix _ _ _ _ Ht (a ++ [i]) j) as [x Hx]; [by eexists|].
  congruence.
Qed.

Lemma grow_old b r : T !! b = Some r → T' !! b = Some r.
Proof. intros Hb. unfold T'. rewrite lookup_insert_ne; [done|]. intros <-. congruence. Qed.

Lemma grow_cases b r : T' !! b = Some r → (b = a ++ [i] ∧ r = q) ∨ T !! b = Some r.
Proof. unfold T'. intros [[<- <-]|[_ Hb]]%lookup_insert_Some; auto. Qed.

Lemma grow_prefix b j : is_Some (T' !! (b ++ [j])) → is_Some (T' !! b).
Proof.
  intros [r [[E _]|Hb]%grow_cases].
  - apply app_inj_tail in E as [-> _]. exists p. by apply grow_old.
  - destruct (tr_prefix _ _ _ _ Ht b j) as [x Hx]; [by eexists|]. exists x. by apply grow_old.
Qed.

Lemma grow_inj b c r : T' !! b = Some r → T' !! c = Some r → b = c.
Proof.
  intros [[-> ->]|Hb]%grow_cases [[-> E]|Hc]%grow_cases.
  - done.
  - by destruct (Hfr c).
  - subst r. by destruct (Hfr b).
  - by apply (tr_inj _ _ _ _ Ht _ _ r).
Qed.

Lemma grow_next b r j r' : T' !! b = Some r → (length b ≤ 1)%nat → is_index j → T' !! (b ++ [j]) = Some r' →
  entry m' r j = flags_build_pte table_flags r'.
Proof.
  intros Hb Hlb Hj Hc. apply grow_cases in Hc as [[E ->]|Hc].
  - apply app_inj_tail in E as [-> ->]. apply grow_cases in Hb as [[E _]|Hb].
    + apply (f_equal length) in E. rewrite length_app in E. simpl in E. lia.
    + rewrite Ha in Hb. injection Hb as <-. apply entry_set_eq, grow_range.
  - apply grow_cases in Hb as [[-> _]|Hb]; [by rewrite grow_below in Hc|].
    rewrite (grow_keep b); [by apply (tr_next _ _ _ _ Ht b)|done..|].
    destruct (decide (b = a)) as [->|]; [right; intros ->; congruence|by left].
Qed.

Lemma grow_none b r j : T' !! b = Some r → (length b ≤ 1)%nat → is_index j → T' !! (b ++ [j]) = None →
  ¬ (b = [] ∧ F j) → pte_is_valid (entry m' r j) = false.
Proof.
  intros Hb Hlb Hj Hc HFj. apply grow_cases in Hb as [[-> ->]|Hb]; [by apply grow_new|].
  unfold T' in Hc. apply lookup_insert_None in Hc as [Hc Hne].
  rewrite (grow_keep b); [by apply (tr_none _ _ _ _ Ht b)|done..|].
  destruct (decide (b = a)) as [->|]; [right; intros ->; done|by left].
Qed.

Lemma grow_local j b : is_Some (T' !! (j :: b)) → ¬ F j.
Proof.
  intros [r [[E _]|Hb]%grow_cases]; [|by apply (tr_local _ _ _ _ Ht j b)].
  destruct a as [|x a']; simplify_eq/=; [by intros ?; apply HF|]. by apply (tr_local _ _ _ _ Ht x a').
Qed.

Lemma tree_grow : tree F m' root T'.
Proof.
  split.
  - apply grow_old. apply (tr_root _ _ _ _ Ht).
  - apply grow_inj.
  - intros b r [[_ ->]|Hb]%grow_cases; [done|]. by apply (tr_page _ _ _ _ Ht b).
  - intros b [r [[-> _]|Hb]%grow_cases]; [rewrite length_app; simpl; lia|]. apply (tr_depth _ _ _ _ Ht). by eexists.
  - apply grow_prefix.
  - apply grow_next.
  - apply grow_none.
  - apply grow_local.
Qed.

Lemma mapping_grow w : mapping m' T' w = mapping m T w.
Proof.
  unfold mapping, leaf_table. destruct (T' !! [sv39_index w 2; sv39_index w 1]) as [r|] eqn:E; simpl.
  - apply grow_cases in E as [[E ->]|E].
    + rewrite E, Hn. simpl. by rewrite grow_new by apply index_range.
    + rewrite E. simpl. rewrite (grow_keep _ _ _ E); [done|apply index_range|]. left. intros <-. simpl in Hl. lia.
  - unfold T' in E. apply lookup_insert_None in E as [-> _]. done.
Qed.
End Grow.
End Tree.
