(* ===== verification/SpaceMap.v ===== *)
(** * Address spaces as maps

    The operations on an address space, on the finite map its tables stand for: [map_extern] adds a run of pages,
    [unmap] removes one, [translate] looks a page up, [cloneself] copies.  Each keeps every page in use that is not one
    of the tables; an operation that stops does so because the heap has no page left. *)

From S2P Require Import Prelude Bytes Memory PageTable AddressSpace SpaceTree.

Section Space.
Context `{PTC : PageTableCrate} {M : Type} `{PM : !PageManager M, PTL : !PageTableLaws, PML : !PageManagerLaws M}.
Implicit Types (m : memory) (T : gmap (list Z) Z) (vpn : Z) (s : machine) (sp : AddressSpace M) (F : Z → Prop).

(** ** Frames *)

(** The tables of a space and the machine, before and after it worked on its tables. *)
Record kept T s T' s' : Prop := {
  kp_used p : page_used (mc_heap s) p → page_used (mc_heap s') p;
  kp_mem x : page_used (mc_heap s) (x / page_size) → (∀ a, T !! a ≠ Some (x / page_size)) → mc_mem s' x = mc_mem s x;
  kp_world : mc_world s' = set_mem (mc_mem s') (mc_world s);
  kp_sub a p : T !! a = Some p → T' !! a = Some p;
  kp_new a p : T' !! a = Some p → T !! a = Some p ∨ ¬ page_used (mc_heap s) p;
}.

Lemma kept_refl T s : kept T s T s.
Proof. split; auto. by destruct s as [[]]. Qed.

Lemma kept_trans T1 s1 T2 s2 T3 s3 : kept T1 s1 T2 s2 → kept T2 s2 T3 s3 → kept T1 s1 T3 s3.
Proof.
  intros K1 K2. split.
  - intros p Hp. by apply (kp_used _ _ _ _ K2), (kp_used _ _ _ _ K1).
  - intros x Hu HT. rewrite (kp_mem _ _ _ _ K2 x).
    + by apply (kp_mem _ _ _ _ K1).
    + by apply (kp_used _ _ _ _ K1).
    + intros a Ha. destruct (kp_new _ _ _ _ K1 _ _ Ha); [by destruct (HT a)|done].
  - rewrite (kp_world _ _ _ _ K2), (kp_world _ _ _ _ K1). done.
  - intros a p Ha. by apply (kp_sub _ _ _ _ K2), (kp_sub _ _ _ _ K1).
  - intros a p [Ha|Hn]%(kp_new _ _ _ _ K2); [by apply (kp_new _ _ _ _ K1)|]. right. intros Hu. by apply Hn, (kp_used _ _ _ _ K1).
Qed.

(** The tables lie in pages that are in use. *)
Record space_ok F (root : Z) s T : Prop := {
  so_tree : tree F (mc_mem s) root T;
  so_used a p : T !! a = Some p → page_used (mc_heap s) p;
}.

(** The heap gave [n] pages, in any number of requests. *)
Inductive takes : Z → heap → heap → Prop :=
| takes_none h : takes 0 h h
| takes_more t n (pm : M) f h s r s' : takes t h (mc_heap s) → 0 < n → pm_allocate pm n f s = Done (r, s') →
    takes (t + n) h (mc_heap s').

(** At most [N] pages were given between [s] and [s']. *)
Definition took (N : Z) s s' : Prop := ∃ t, t ≤ N ∧ takes t (mc_heap s) (mc_heap s').

(** The heap refuses a request before it has given [N] more pages. *)
Definition exhausted (N : Z) s : Prop := ∃ t n (pm : M) f s1,
  takes t (mc_heap s) (mc_heap s1) ∧ 0 < n ∧ t + n ≤ N ∧ pm_allocate pm n f s1 = Panic.

Lemma takes_trans a b h1 h2 h3 : takes a h1 h2 → takes b h2 h3 → takes (a + b) h1 h3.
Proof.
  intros Ha Hb. induction Hb as [h|t n pm f h s r s' _ IH Hn Hal]; [by rewrite Z.add_0_r|].
  rewrite Z.add_assoc. by eapply takes_more; [apply IH|..].
Qed.

Lemma took_none N s s' : 0 ≤ N → mc_heap s' = mc_heap s → took N s s'.
Proof. intros HN E. exists 0. rewrite E. split; [done|constructor]. Qed.

Lemma took_one N n (pm : M) f s r s' s2 : 0 < n ≤ N → pm_allocate pm n f s = Done (r, s') → mc_heap s2 = mc_heap s' → took N s s2.
Proof. intros Hn Hal E. exists (0 + n). split; [lia|]. rewrite E. eapply takes_more; [constructor|lia|done]. Qed.

Lemma took_trans a b N s1 s2 s3 : took a s1 s2 → took b s2 s3 → a + b ≤ N → took N s1 s3.
Proof. intros (t & Ht & H1) (u & Hu & H2) HN. exists (t + u). split; [lia|by eapply takes_trans]. Qed.

Lemma exhausted_now N n (pm : M) f s : 0 < n ≤ N → pm_allocate pm n f s = Panic → exhausted N s.
Proof. intros Hn Hal. exists 0, n, pm, f, s. split_and!; [constructor|lia|lia|done]. Qed.

Lemma exhausted_after a b N s s' : took a s s' → exhausted b s' → a + b ≤ N → exhausted N s.
Proof.
  intros (t & Ht & H1) (u & n & pm & f & s1 & H2 & Hn & Hu & Hal) HN. exists (t + u), n, pm, f, s1.
  split_and!; [by eapply takes_trans|done|lia|done].
Qed.

(** ** One page *)
Section OnePage.
Variables (F : Z → Prop) (root : Z) (pm : M) (vpn : Z).
Hypothesis Hvpn : is_vpn vpn.
Hypothesis HF : ¬ F (sv39_index vpn 2).

(** The mapper after it wrote an entry. *)
Definition mapper_next (d : Mapper) : Mapper :=
  mkMapper (mp_start d + 1) (mp_end d) (mp_flags d) (if mp_start d + 1 =? mp_end d then true else mp_done d).
Definition mapper_pos (d : Mapper) : Pos := if mp_start d + 1 =? mp_end d then Stop else At (vpn + 1) 0.

(** A mapper whose entries are entries of pages. *)
Definition mapper_ok (d : Mapper) : Prop := 0 ≤ mp_flags d < 2 ^ 10 ∧ Z.testbit (mp_flags d) 0 = true ∧ 0 ≤ mp_start d < 2 ^ 44.

(** One page was mapped, with at most [b] new tables. *)
Definition mapped_one (b : Z) s T (d : Mapper) (r : outcome (Pos * (machine * Mapper))) : Prop :=
  (r = Panic ∧ exhausted b s) ∨
  ∃ s' T', r = Done (mapper_pos d, (s', mapper_next d)) ∧ space_ok F root s' T' ∧ kept T s T' s' ∧ took b s s' ∧
    ∀ w, is_vpn w → mapping (mc_mem s') T' w =
      if decide (w = vpn) then Some (flags_build_pte (mp_flags d) (mp_start d)) else mapping (mc_mem s) T w.

Lemma mapped_one_weaken b s T d r s0 T0 : kept T0 s0 T s → took 1 s0 s → (∀ w, mapping (mc_mem s) T w = mapping (mc_mem s0) T0 w) →
  mapped_one b s T d r → mapped_one (b + 1) s0 T0 d r.
Proof.
  intros K Htk Hm [[-> He]|(s' & T' & -> & Hok & K' & Htk' & Hm')]; [left|right].
  - split; [done|]. eapply exhausted_after; [done..|lia].
  - exists s', T'. split_and!; [done|done|by eapply kept_trans|eapply took_trans; [done..|lia]|]. intros w Hw. rewrite Hm' by done. case_decide; [done|apply Hm].
Qed.

Lemma mapped_arrive s T d q : space_ok F root s T → leaf_table T vpn = Some q → mapping (mc_mem s) T vpn = None → mapper_ok d →
  mapped_one 0 s T d (Mapper_arrive (entry_addr (q * page_size) vpn 0) (At vpn 0) (s, d)).
Proof.
  intros [Ht Hu] Hq Hn (Hf & Hv & Hp). unfold Mapper_arrive. rewrite read_entry by (done || lia).
  unfold mapping in Hn. rewrite Hq in Hn. simpl in Hn.
  destruct (pte_is_valid (entry (mc_mem s) q (sv39_index vpn 0))); [done|]. simpl. rewrite entry_addr_eq by (done || lia).
  fold (set_entry q (sv39_index vpn 0) (flags_build_pte (mp_flags d) (mp_start d)) (mc_mem s)).
  destruct (tree_set_leaf F (mc_mem s) root T vpn q (flags_build_pte (mp_flags d) (mp_start d)) Ht Hvpn Hq) as [Ht' Hm].
  { by apply build_pte_range. }
  right. eexists _, T. split.
  { unfold mapper_pos, mapper_next. rewrite pos_next_spec. by destruct (_ =? _). }
  split_and!; [by split| |by apply took_none|].
  - split; auto. intros x _ HT. simpl. apply set_entry_page; [apply index_range|]. 
    intros E. apply (HT [sv39_index vpn 2; sv39_index vpn 1]). by rewrite E.
  - intros w Hw. simpl. rewrite Hm by done. case_decide; [|done]. by rewrite build_pte_valid, Hv.
Qed.

Lemma mapped_one_more b s T d r : mapped_one b s T d r → mapped_one (b + 1) s T d r.
Proof. apply mapped_one_weaken; [apply kept_refl|by apply took_none|done]. Qed.

(** A missing table is allocated and linked. *)
Lemma mapped_block s T d a i p level hint : space_ok F root s T → T !! a = Some p → (length a ≤ 1)%nat → is_index i →
  T !! (a ++ [i]) = None → ¬ (a = [] ∧ F i) →
  (Mapper_block pm level (entry (mc_mem s) p i) hint (s, d) = Panic ∧ exhausted 1 s) ∨
  ∃ q s1, Mapper_block pm level (entry (mc_mem s) p i) hint (s, d) =
      Done (UPte (flags_build_pte table_flags q) (q * page_size), (s1, d)) ∧
    let s2 := mc_set_mem (set_entry p i (flags_build_pte table_flags q) (mc_mem s1)) s1 in
    let T2 := <[a ++ [i] := q]> T in
    space_ok F root s2 T2 ∧ kept T s T2 s2 ∧ took 1 s s2 ∧ ∀ w, mapping (mc_mem s2) T2 w = mapping (mc_mem s) T w.
Proof.
  intros [Ht Hu] Ha Hl Hi Hn HFi. unfold Mapper_block. rewrite (tr_none _ _ _ _ Ht a p i) by done. simpl.
  destruct (allocate_spec pm 1 VALID s) as [Hpanic|(q & s1 & Hal & Hq)]; [lia|left|right].
  { rewrite Hpanic. split; [done|]. by apply (exhausted_now 1 1 pm VALID). }
  rewrite Hal. simpl. destruct (al_range _ _ _ _ Hq) as [Hq1 Hq2]. rewrite v_to_p_spec by lia. exists q, s1. split; [done|].
  assert (∀ b, T !! b ≠ Some q) as Hfr.
  { intros b Hb. apply (al_fresh _ _ _ _ Hq q); [lia|]. by eapply Hu. }
  assert (same_tables T (mc_mem s) (mc_mem s1)) as Hsame.
  { intros b r x Hb Hx. rewrite (al_mem _ _ _ _ Hq), decide_False; [done|]. intros Hr. apply (Hfr b). rewrite Hb. f_equal.
    rewrite <-Hx. symmetry. apply (Z.div_unique _ _ _ (x - q * page_size)); unfold page_size in *; lia. }
  destruct (tree_ext F _ _ root T Hsame Ht) as [Ht1 Hm1].
  assert (∀ j, is_index j → entry (mc_mem s1) q j = 0) as Hz.
  { intros j Hj. unfold is_index, entries in Hj. unfold entry.
    rewrite (read_word_ext (mem_zero (q * page_size) page_size (mc_mem s)) (mc_mem s1)).
    - apply read_word_zero; unfold page_size; lia.
    - intros x Hx. rewrite (al_mem _ _ _ _ Hq). unfold mem_zero.
      replace ((q + 1) * page_size) with (q * page_size + page_size) by lia. done. }
  split_and!.
  - split; [apply tree_grow; try done; lia|]. intros b r [[<- <-]|[_ Hb]]%lookup_insert_Some; simpl; apply (al_used _ _ _ _ Hq); [lia|].
    left. by eapply Hu.
  - split; simpl.
    + intros r Hr. apply (al_used _ _ _ _ Hq). by left.
    + intros x Hx HT. rewrite mc_mem_set, set_entry_page; [|done|intros E; apply (HT a); by rewrite E].
      rewrite (al_mem _ _ _ _ Hq), decide_False; [done|]. intros Hr. apply (al_fresh _ _ _ _ Hq (x / page_size)); [|done].
      assert (q = x / page_size); [|lia]. apply (Z.div_unique _ _ _ (x - q * page_size)); unfold page_size in *; lia.
    + rewrite (al_world _ _ _ _ Hq). done.
    + intros b r Hb. rewrite lookup_insert_ne; [done|]. intros <-. congruence.
    + intros b r [[<- <-]|[_ Hb]]%lookup_insert_Some; [right|by left]. apply (al_fresh _ _ _ _ Hq). lia.
  - by eapply (took_one 1 1); [lia|exact Hal|].
  - intros w. rewrite mc_mem_set, <-Hm1. apply (mapping_grow F _ root); try done; lia.
Qed.

Let deco : Decorator Mapper := Mapper_decorator pm.

(** Follow or make the table under [a ++ [i]], then go on below it. *)
Lemma mapped_down b s T d a p level : space_ok F root s T → T !! a = Some p → (length a ≤ 1)%nat → (level ≤ 1)%nat →
  ¬ (a = [] ∧ F (sv39_index vpn (S level))) → mapping (mc_mem s) T vpn = None →
  (∀ s' T' q, space_ok F root s' T' → T' !! (a ++ [sv39_index vpn (S level)]) = Some q → mapping (mc_mem s') T' vpn = None →
     ∃ r, visits_mut deco level (q * page_size) (At vpn 0) (s', d) r ∧ mapped_one b s' T' d r) → 0 ≤ b →
  ∃ r, visits_mut deco (S level) (p * page_size) (At vpn 0) (s, d) r ∧ mapped_one (b + 1) s T d r.
Proof.
  intros Hok Ha Hl Hlev HFi Hn Hbelow Hb0. pose proof (index_range vpn (S level)) as Hi. pose proof (so_tree _ _ _ _ Hok) as Ht.
  destruct (T !! (a ++ [sv39_index vpn (S level)])) as [q|] eqn:Hq.
  - destruct (Hbelow s T q Hok Hq Hn) as (r & Hv & Hr). exists r. split; [|by eapply mapped_one_more].
    assert (leads pm (entry (mc_mem s) p (sv39_index vpn (S level))) q) as Hld.
    { rewrite (tr_next _ _ _ _ Ht a p _ q) by done. apply table_leads. pose proof (tr_page _ _ _ _ Ht _ _ Hq). lia. }
    eapply visit_meet; [lia|simpl; rewrite read_entry by (done || lia); apply Hld| |exact Hv].
    simpl. unfold Mapper_meet. rewrite read_entry, (ld_owned _ _ _ Hld), (ld_ptr _ _ _ Hld) by (done || lia). done.
  - assert (is_table (entry (mc_mem s) p (sv39_index vpn (S level))) = false) as Hno.
    { apply leaf_not_table. by apply (tr_none _ _ _ _ Ht a p). }
    destruct (mapped_block s T d a _ p (S level) (At vpn 0) Hok Ha Hl Hi Hq HFi) as [[Hb He]|(q & s1 & Hb & Hok2 & K & Htk & Hm)].
    + exists Panic. split; [|left; split; [done|]; eapply exhausted_after; [by apply (took_none 0)|done|lia]]. apply visit_block_panic; [lia|simpl; rewrite read_entry by (done || lia); exact Hno|].
      simpl. rewrite read_entry by (done || lia). exact Hb.
    + destruct (Hbelow _ _ q Hok2) as (r & Hv & Hr); [apply lookup_insert_eq|by rewrite Hm|].
      exists r. split; [|by eapply mapped_one_weaken].
      eapply visit_block_new; [lia|simpl; rewrite read_entry by (done || lia); exact Hno
        |simpl; rewrite read_entry by (done || lia); exact Hb|].
      unfold put_entry. simpl. rewrite entry_addr_eq by (done || lia). exact Hv.
Qed.

Lemma mapped_visit s T d : space_ok F root s T → mapping (mc_mem s) T vpn = None → mapper_ok d →
  ∃ r, visits_mut deco 2 (root * page_size) (At vpn 0) (s, d) r ∧ mapped_one 2 s T d r.
Proof.
  intros Hok Hn Hd. apply (mapped_down 1 s T d []); [done|apply (so_tree _ _ _ _ Hok)|simpl; lia|lia|by intros [_ ?]|done| |done].
  intros s1 T1 p Hok1 Hp Hn1. apply (mapped_down 0 s1 T1 d [sv39_index vpn 2]); [done|done|simpl; lia|lia|by intros [? _]|done| |done].
  intros s2 T2 q Hok2 Hq Hn2. eexists. split; [|by apply (mapped_arrive s2 T2 d q)]. exact (visit_arrive deco 0 (q * page_size) vpn (s2, d)).
Qed.
End OnePage.

(** ** Runs of pages *)

(** The map after [n] pages from [vpn] on were sent to the pages from [pbase] on. *)
Definition add_run (vpn pbase n flags : Z) (f : Z → option Z) (w : Z) : option Z :=
  if decide (vpn ≤ w < vpn + n) then Some (flags_build_pte flags (pbase + (w - vpn))) else f w.

Lemma walk_mut_run F root pm n vpn d s T fuel : (0 < n)%nat → (n ≤ fuel)%nat → space_ok F root s T → mapper_ok d →
  mp_start d + Z.of_nat n = mp_end d → mp_end d < 2 ^ 44 → 0 ≤ vpn → vpn + Z.of_nat n ≤ 2 ^ 27 →
  (∀ w, vpn ≤ w < vpn + Z.of_nat n → ¬ F (sv39_index w 2) ∧ mapping (mc_mem s) T w = None) →
  let r := walk_mut fuel (Mapper_decorator pm) (root * page_size) (At vpn 0) (s, d) in
  (r = Panic ∧ exhausted (2 * Z.of_nat n) s) ∨
  ∃ s' T', r = Done ((), (s', mkMapper (mp_end d) (mp_end d) (mp_flags d) true)) ∧ space_ok F root s' T' ∧ kept T s T' s' ∧
    took (2 * Z.of_nat n) s s' ∧
    ∀ w, is_vpn w → mapping (mc_mem s') T' w = add_run vpn (mp_start d) (Z.of_nat n) (mp_flags d) (mapping (mc_mem s) T) w.
Proof.
  revert n vpn d s T. induction fuel as [|fuel IH]; intros n vpn d s T Hn Hf Hok Hd Hend Hmax Hv Hv2 Hfree r; [lia|].
  destruct (Hfree vpn ltac:(lia)) as [HFv Hnone]. assert (is_vpn vpn) as Hvpn by (unfold is_vpn; lia).
  destruct (mapped_visit F root pm vpn Hvpn HFv s T d Hok Hnone Hd) as (o & Hvis & Hone). unfold r.
  rewrite (walk_mut_target _ _ _ _ _ _ Hvis). destruct Hone as [[-> He]|(s1 & T1 & -> & Hok1 & K1 & Htk1 & Hm1)].
  { left. split; [done|]. eapply exhausted_after; [by apply (took_none 0)|done|lia]. }
  unfold mapper_pos. destruct (mp_start d + 1 =? mp_end d) eqn:E; [apply Z.eqb_eq in E|apply Z.eqb_neq in E].
  - right. exists s1, T1. rewrite walk_mut_stop. unfold mapper_next. rewrite (proj2 (Z.eqb_eq _ _) E), E.
    split_and!; [done|done|done|eapply took_trans; [done|by apply (took_none 0)|lia]|]. intros w Hw. rewrite Hm1 by done. unfold add_run.
    destruct (decide (w = vpn)) as [->|]; [rewrite decide_True by lia|by rewrite decide_False by lia].
    by rewrite Z.sub_diag, Z.add_0_r.
  - destruct (IH (n - 1)%nat (vpn + 1) (mapper_next d) s1 T1) as [[-> He]|(s2 & T2 & -> & Hok2 & K2 & Htk2 & Hm2)];
      [lia|lia|done| |simpl; lia|done|lia|lia| | |].
    + destruct Hd as (? & ? & ?). unfold mapper_ok. simpl. split_and!; [lia|lia|done|lia|lia].
    + intros w Hw. destruct (Hfree w ltac:(lia)) as [? Hw2]. split; [done|]. rewrite Hm1 by (unfold is_vpn; lia).
      by rewrite decide_False by lia.
    + left. split; [done|]. eapply exhausted_after; [done..|lia].
    + right. exists s2, T2. simpl. split_and!; [done|done|by eapply kept_trans|eapply took_trans; [done..|lia]|]. intros w Hw. rewrite Hm2 by done.
      simpl. unfold add_run. destruct (decide (vpn + 1 ≤ w < vpn + 1 + Z.of_nat (n - 1))).
      * rewrite decide_True by lia. do 2 f_equal. lia.
      * rewrite Hm1 by done. destruct (decide (w = vpn)) as [->|].
        -- rewrite decide_True by lia. by rewrite Z.sub_diag, Z.add_0_r.
        -- by rewrite decide_False by lia.
Qed.

(** A page that is mapped stops the mapper. *)
Lemma mapped_refused F root pm vpn d s T : is_vpn vpn → ¬ F (sv39_index vpn 2) → space_ok F root s T →
  mapping (mc_mem s) T vpn ≠ None → visits_mut (Mapper_decorator pm) 2 (root * page_size) (At vpn 0) (s, d) Panic.
Proof.
  intros Hv HF [Ht _] Hm. pose proof (tr_root _ _ _ _ Ht) as Hr. unfold mapping in Hm.
  destruct (tree_descent F _ _ T vpn Ht Hv HF) as [root' Hr' Hp Hq He|root' p Hr' Hp Hq Hl He|root' p q Hr' Hp Hq Hl Hl2];
    [by rewrite Hq in Hm..|]. rewrite Hr in Hr'. injection Hr' as <-. rewrite Hq in Hm. simpl in Hm.
  eapply visit_meet; [lia|simpl; rewrite read_entry by (done || lia); apply (Hl pm)| |].
  { simpl. unfold Mapper_meet. rewrite read_entry, (ld_owned _ _ _ (Hl pm)), (ld_ptr _ _ _ (Hl pm)) by (done || lia). done. }
  eapply visit_meet; [lia|simpl; rewrite read_entry by (done || lia); apply (Hl2 pm)| |].
  { simpl. unfold Mapper_meet. rewrite read_entry, (ld_owned _ _ _ (Hl2 pm)), (ld_ptr _ _ _ (Hl2 pm)) by (done || lia). done. }
  pose proof (visit_arrive (Mapper_decorator pm) 0 (q * page_size) vpn (s, d)) as Ha. simpl in Ha. unfold Mapper_arrive in Ha.
  rewrite read_entry in Ha by (done || lia). by destruct (pte_is_valid (entry (mc_mem s) q (sv39_index vpn 0))).
Qed.

Lemma walk_mut_blocked F root pm n vpn d s T fuel : (n < fuel)%nat → space_ok F root s T → mapper_ok d →
  mp_start d + Z.of_nat n < mp_end d → mp_end d < 2 ^ 44 → 0 ≤ vpn → vpn + Z.of_nat n < 2 ^ 27 →
  (∀ w, vpn ≤ w ≤ vpn + Z.of_nat n → ¬ F (sv39_index w 2)) → mapping (mc_mem s) T (vpn + Z.of_nat n) ≠ None →
  walk_mut fuel (Mapper_decorator pm) (root * page_size) (At vpn 0) (s, d) = Panic.
Proof.
  revert n vpn d s T. induction fuel as [|fuel IH]; intros n vpn d s T Hn Hok Hd Hend Hmax Hv Hv2 HF Hm; [lia|].
  assert (is_vpn vpn) as Hvpn by (unfold is_vpn; lia). pose proof (HF vpn ltac:(lia)) as HFv.
  destruct (decide (mapping (mc_mem s) T vpn = None)) as [Hnone|Hsome].
  - destruct (mapped_visit F root pm vpn Hvpn HFv s T d Hok Hnone Hd) as (o & Hvis & Hone).
    rewrite (walk_mut_target _ _ _ _ _ _ Hvis). destruct Hone as [[-> _]|(s1 & T1 & -> & Hok1 & _ & _ & Hm1)]; [done|].
    destruct n as [|n]; [by rewrite Z.add_0_r in Hm|]. unfold mapper_pos. rewrite (proj2 (Z.eqb_neq _ _)) by lia.
    apply (IH n (vpn + 1) (mapper_next d) s1 T1); [lia|done| |simpl; lia|done|lia|lia|intros w Hw; apply HF; lia|].
    + destruct Hd as (? & ? & ?). unfold mapper_ok. simpl. split_and!; (done || lia).
    + rewrite Hm1 by (unfold is_vpn; lia). rewrite decide_False by lia. by replace (vpn + 1 + Z.of_nat n) with (vpn + Z.of_nat (S n)) by lia.
  - by rewrite (walk_mut_target _ _ _ _ _ _ (mapped_refused F root pm vpn d s T Hvpn HFv Hok Hsome)).
Qed.

(** Flags of an entry that is valid, and a run of frames. *)
Definition flags_ok (flags : Z) : Prop := 0 ≤ flags < 2 ^ 10 ∧ Z.testbit flags 0 = true.
Definition range_ok (range : Z * Z) : Prop := 0 ≤ range.1 ∧ range.1 < range.2 ∧ range.2 ≤ 2 ^ 27.
Definition range_free F m T (range : Z * Z) : Prop := ∀ w, range.1 ≤ w < range.2 → ¬ F (sv39_index w 2) ∧ mapping m T w = None.

Lemma map_extern_run F fuel range pbase flags sp s T : aligned sp → space_ok F (space_root sp) s T → range_ok range → flags_ok flags →
  0 ≤ pbase → pbase + (range.2 - range.1) < 2 ^ 44 → range.2 - range.1 ≤ Z.of_nat fuel → range_free F (mc_mem s) T range →
  (map_extern fuel range pbase flags sp s = Panic ∧ exhausted (2 * (range.2 - range.1)) s) ∨
  ∃ s' T', map_extern fuel range pbase flags sp s = Done (mkSpace (areas sp ++ [range]) (page_manager sp), s') ∧
    space_ok F (space_root sp) s' T' ∧ kept T s T' s' ∧ took (2 * (range.2 - range.1)) s s' ∧
    ∀ w, is_vpn w → mapping (mc_mem s') T' w = add_run range.1 pbase (range.2 - range.1) flags (mapping (mc_mem s) T) w.
Proof.
  intros Hsp Hok (Ha & Hb & Hc) [Hf Hv] Hp Hpm Hfuel Hfree. unfold map_extern, usize_sub.
  rewrite checked_ok by (unfold usize_max; lia). simpl.
  change (AddressSpace_root (mkSpace (areas sp ++ [range]) (page_manager sp))) with (AddressSpace_root sp).
  unfold aligned in Hsp. rewrite Hsp.
  destruct (walk_mut_run F (space_root sp) (page_manager sp) (Z.to_nat (range.2 - range.1)) range.1
    (Mapper_new (pbase, pbase + (range.2 - range.1)) flags) s T fuel) as [[Hr He]|(s' & T' & Hr & Hok' & K & Htk & Hm)];
    [lia|lia|done|split_and!; simpl; (done || lia)|simpl; lia|simpl; lia|lia|lia|intros w Hw; apply Hfree; lia| |].
  - left. rewrite Hr. by rewrite Z2Nat.id in He by lia.
  - right. exists s', T'. rewrite Hr. rewrite Z2Nat.id in Htk by lia. split_and!; [done..|]. intros w Hw. rewrite Hm by done. simpl. by rewrite Z2Nat.id by lia.
Qed.

Lemma map_extern_blocked F fuel range pbase flags sp s T w : aligned sp → space_ok F (space_root sp) s T → range_ok range →
  flags_ok flags → 0 ≤ pbase → pbase + (range.2 - range.1) < 2 ^ 44 → range.2 - range.1 ≤ Z.of_nat fuel →
  (∀ v, range.1 ≤ v < range.2 → ¬ F (sv39_index v 2)) → range.1 ≤ w < range.2 → mapping (mc_mem s) T w ≠ None →
  map_extern fuel range pbase flags sp s = Panic.
Proof.
  intros Hsp Hok (Ha & Hb & Hc) [Hf Hv] Hp Hpm Hfuel HF Hw Hm. unfold map_extern, usize_sub.
  rewrite checked_ok by (unfold usize_max; lia). simpl.
  change (AddressSpace_root (mkSpace (areas sp ++ [range]) (page_manager sp))) with (AddressSpace_root sp).
  unfold aligned in Hsp. rewrite Hsp. rewrite (walk_mut_blocked F (space_root sp) (page_manager sp) (Z.to_nat (w - range.1)) range.1
    (Mapper_new (pbase, pbase + (range.2 - range.1)) flags) s T fuel); [done|lia|done|split_and!; simpl; (done || lia)|simpl; lia|simpl; lia|lia|lia| |].
  - intros v Hv'. apply HF. lia.
  - by replace (range.1 + Z.of_nat (Z.to_nat (w - range.1))) with w by lia.
Qed.

Lemma clear_pte_run F sp m T vpn : aligned sp → tree F m (space_root sp) T → is_vpn vpn → ¬ F (sv39_index vpn 2) →
  let m' := match find_pte_mut vpn sp m with Some a => mem_write a (replicate 8 0) m | None => m end in
  tree F m' (space_root sp) T ∧ (∀ x, (∀ a, T !! a ≠ Some (x / page_size)) → m' x = m x) ∧
  ∀ w, is_vpn w → mapping m' T w = if decide (w = vpn) then None else mapping m T w.
Proof.
  intros Hsp Ht Hv HF m'. unfold m'. rewrite (find_pte_run F m sp T vpn) by done.
  assert (∀ a, mem_write a (replicate 8 0) m = write_word a 0 m) as Hz by done. revert Hz. generalize (replicate 8 0) as z.
  intros z Hz. destruct (leaf_table T vpn) as [q|] eqn:Hq; simpl.
  - rewrite Hz. fold (set_entry q (sv39_index vpn 0) 0 m).
    destruct (tree_set_leaf F m _ T vpn q 0 Ht Hv Hq ltac:(lia)) as [Ht' Hm]. split_and!; [done| |].
    + intros x HT. apply set_entry_page; [apply index_range|]. intros E.
      apply (HT [sv39_index vpn 2; sv39_index vpn 1]). by rewrite E.
    + intros w Hw. rewrite Hm by done. by rewrite pte_zero.
  - split_and!; [done..|]. intros w Hw. case_decide; [|done]. subst w. unfold mapping. by rewrite Hq.
Qed.

(** The map without [n] pages from [vpn] on. *)
Definition drop_run (vpn n : Z) (f : Z → option Z) (w : Z) : option Z := if decide (vpn ≤ w < vpn + n) then None else f w.

Lemma clear_ptes_run F sp T n vpn m : aligned sp → tree F m (space_root sp) T → 0 ≤ vpn → vpn + Z.of_nat n ≤ 2 ^ 27 →
  (∀ w, vpn ≤ w < vpn + Z.of_nat n → ¬ F (sv39_index w 2)) →
  tree F (clear_ptes n vpn sp m) (space_root sp) T ∧
  (∀ x, (∀ a, T !! a ≠ Some (x / page_size)) → clear_ptes n vpn sp m x = m x) ∧
  ∀ w, is_vpn w → mapping (clear_ptes n vpn sp m) T w = drop_run vpn (Z.of_nat n) (mapping m T) w.
Proof.
  intros Hsp. revert vpn m. induction n as [|n IH]; intros vpn m Ht Hv Hv2 HF.
  - simpl. split_and!; [done..|]. intros w Hw. unfold drop_run. by rewrite decide_False by lia.
  - cbn [clear_ptes]. destruct (clear_pte_run F sp m T vpn Hsp Ht) as (Ht1 & Hx1 & Hm1); [unfold is_vpn; lia|apply HF; lia|].
    cbv zeta in Ht1, Hx1, Hm1. set (m1 := match find_pte_mut vpn sp m with Some _ => _ | None => _ end) in *.
    destruct (IH (vpn + 1) m1 Ht1) as (Ht2 & Hx2 & Hm2); [lia|lia|intros w Hw; apply HF; lia|]. split_and!; [done| |].
    + intros x HT. by rewrite Hx2, Hx1.
    + intros w Hw. rewrite Hm2 by done. unfold drop_run. destruct (decide (vpn + 1 ≤ w < vpn + 1 + Z.of_nat n)).
      * by rewrite decide_True by lia.
      * rewrite Hm1 by done. destruct (decide (w = vpn)) as [->|]; [by rewrite decide_True by lia|].
        by rewrite decide_False by lia.
Qed.

Lemma unmap_run F range sp s T : aligned sp → space_ok F (space_root sp) s T → 0 ≤ range.1 ≤ range.2 → range.2 ≤ 2 ^ 27 →
  (∀ w, range.1 ≤ w < range.2 → ¬ F (sv39_index w 2)) →
  ∃ s', unmap range sp s = Done (mkSpace (concat (cut_area range <$> areas sp)) (page_manager sp), s') ∧
    space_ok F (space_root sp) s' T ∧ kept T s T s' ∧ (∀ x, (∀ a, T !! a ≠ Some (x / page_size)) → mc_mem s' x = mc_mem s x) ∧
    ∀ w, is_vpn w → mapping (mc_mem s') T w = drop_run range.1 (range.2 - range.1) (mapping (mc_mem s) T) w.
Proof.
  intros Hsp [Ht Hu] Ha Hb HF. set (sp' := mkSpace (concat (cut_area range <$> areas sp)) (page_manager sp)).
  destruct (clear_ptes_run F sp' T (Z.to_nat (range.2 - range.1)) range.1 (mc_mem s)) as (Ht' & Hx & Hm);
    [done|done|lia|lia|intros w Hw; apply HF; lia|].
  eexists. split; [reflexivity|]. split_and!; [by split| |done|].
  - split; [auto|intros x _; apply Hx|done|auto..].
  - intros w Hw. rewrite mc_mem_set, Hm by done. by rewrite Z2Nat.id by lia.
Qed.

Lemma translate_run F addr flags sp s T : aligned sp → space_ok F (space_root sp) s T → 0 ≤ addr < 2 ^ 38 → ¬ F (sv39_index (addr / page_size) 2) →
  translate addr flags sp (mc_mem s) = Done (
    pte ← mapping (mc_mem s) T (addr / page_size);
    if Z.land (pte_flags pte) flags =? flags
    then Some (pm_p_to_v (page_manager sp) (pte_ppn pte) + addr mod page_size) else None).
Proof.
  intros Hsp [Ht _] Ha HF. unfold translate. rewrite va_floor_spec, va_offset_spec by done.
  assert (is_vpn (addr / page_size)) as Hv.
  { unfold is_vpn, page_size. split; [apply Z.div_pos; lia|apply Z.div_lt_upper_bound; lia]. }
  rewrite (visit_page_run F _ sp T) by done. simpl. destruct (mapping _ _ _); [|done]. simpl. by rewrite flags_contains_spec.
Qed.
End Space.
