(* ===== verification/SpaceInvariant.v ===== *)
(** * The invariant of an address space

    The areas of a space are ranges that do not overlap; each is a run of frames in use, none of which holds a table;
    nothing else is mapped.  Every operation keeps this, for the space it works on and for every other. *)

From S2P Require Import Prelude Bytes Memory PageTable AddressSpace SpaceTree SpaceMap.

(** ** Ranges *)
Definition inside (w : Z) (ar : Z * Z) : Prop := ar.1 ≤ w < ar.2.
Definition in_areas (w : Z) (l : list (Z * Z)) : Prop := ∃ ar, ar ∈ l ∧ inside w ar.
Definition disjoint_ranges (x y : Z * Z) : Prop := x.2 ≤ y.1 ∨ y.2 ≤ x.1.
Fixpoint ranges_apart (l : list (Z * Z)) : Prop :=
  match l with
  | [] => True
  | x :: l' => Forall (disjoint_ranges x) l' ∧ ranges_apart l'
  end.

Lemma ranges_apart_app l k : ranges_apart (l ++ k) ↔
  ranges_apart l ∧ ranges_apart k ∧ ∀ x y, x ∈ l → y ∈ k → disjoint_ranges x y.
Proof.
  induction l as [|z l IH]; simpl.
  - split; [|tauto]. intros. split_and!; [done..|]. intros x y Hx. by apply elem_of_nil in Hx.
  - rewrite IH, Forall_app, (Forall_forall _ k). split.
    + intros [[H1 H2] (H3 & H4 & H5)]. split_and!; [done..|]. intros x y [->|Hx]%elem_of_cons Hy; auto.
    + intros [[H1 H2] (H3 & H4)]. split_and!; [done| |done|done|].
      * intros y Hy. apply H4; [by left|done].
      * intros x y Hx Hy. apply H4; [by right|done].
Qed.

Lemma cut_area_inside range ar w : range.1 ≤ range.2 →
  in_areas w (cut_area range ar) ↔ inside w ar ∧ ¬ inside w range.
Proof.
  intros Hr. unfold in_areas, cut_area, inside.
  destruct (_ || _) eqn:E.
  - apply orb_true_iff in E. rewrite !Z.leb_le in E. setoid_rewrite list_elem_of_singleton. split.
    + intros (? & -> & Hw). lia.
    + intros [Hw _]. by exists ar.
  - apply orb_false_iff in E. rewrite !Z.leb_gt in E. setoid_rewrite elem_of_app. split.
    + intros (x & [Hx|Hx] & Hw); case_match eqn:E2; try (by apply elem_of_nil in Hx);
        apply Z.ltb_lt in E2; apply list_elem_of_singleton in Hx as ->; simpl in Hw; lia.
    + intros [Hw Hn]. destruct (decide (w < range.1)).
      * exists (ar.1, range.1). rewrite (proj2 (Z.ltb_lt _ _)) by lia. split; [left; by apply list_elem_of_singleton|simpl; lia].
      * exists (range.2, ar.2). rewrite (proj2 (Z.ltb_lt range.2 _)) by lia. split; [right; by apply list_elem_of_singleton|simpl; lia].
Qed.

(** The pieces of an area. *)
Lemma cut_area_piece range ar x : range.1 ≤ range.2 → ar.1 < ar.2 → x ∈ cut_area range ar →
  ar.1 ≤ x.1 ∧ x.1 < x.2 ∧ x.2 ≤ ar.2 ∧ disjoint_ranges x range.
Proof.
  intros Hr Ha. unfold cut_area, disjoint_ranges. destruct (_ || _) eqn:E.
  - apply orb_true_iff in E. rewrite !Z.leb_le in E. intros ->%list_elem_of_singleton. lia.
  - apply orb_false_iff in E. rewrite !Z.leb_gt in E. rewrite elem_of_app.
    intros [Hx|Hx]; case_match eqn:E2; try (by apply elem_of_nil in Hx);
      apply Z.ltb_lt in E2; apply list_elem_of_singleton in Hx as ->; simpl; lia.
Qed.

Lemma cut_area_apart range ar : range.1 ≤ range.2 → ranges_apart (cut_area range ar).
Proof.
  intros Hr. unfold cut_area. destruct (_ || _); [done|].
  destruct (ar.1 <? range.1) eqn:E1, (range.2 <? ar.2) eqn:E2; simpl; try done.
  split; [|done]. constructor; [by left|done].
Qed.

Lemma cut_areas_elem range l x : x ∈ concat (cut_area range <$> l) ↔ ∃ ar, ar ∈ l ∧ x ∈ cut_area range ar.
Proof.
  rewrite list_elem_of_In, in_concat. split.
  - intros (k & Hk%list_elem_of_In & Hx%list_elem_of_In). apply list_elem_of_fmap in Hk as (ar & -> & Ha). by exists ar.
  - intros (ar & Ha & Hx). exists (cut_area range ar). split; apply list_elem_of_In; [|done]. by apply list_elem_of_fmap_2.
Qed.

Lemma cut_areas_inside range l w : range.1 ≤ range.2 →
  in_areas w (concat (cut_area range <$> l)) ↔ in_areas w l ∧ ¬ inside w range.
Proof.
  intros Hr. unfold in_areas at 1. setoid_rewrite cut_areas_elem. split.
  - intros (x & (ar & Ha & Hx) & Hw). destruct (proj1 (cut_area_inside range ar w Hr)) as [? ?]; [by exists x|].
    split; [by exists ar|done].
  - intros [(ar & Ha & Hw) Hn]. destruct (proj2 (cut_area_inside range ar w Hr)) as (x & Hx & Hxw); [done|]. exists x. eauto.
Qed.

Lemma cut_areas_apart range l : range.1 ≤ range.2 → Forall (fun ar => ar.1 < ar.2) l → ranges_apart l →
  ranges_apart (concat (cut_area range <$> l)).
Proof.
  intros Hr. induction l as [|ar l IH]; intros Hne; simpl; [done|]. apply Forall_cons in Hne as [Ha Hne].
  intros [Hd Hl]. apply ranges_apart_app. split_and!; [by apply cut_area_apart|by apply IH|].
  intros x y Hx (br & Hb & Hy)%cut_areas_elem. rewrite Forall_forall in Hd, Hne. specialize (Hd br Hb). specialize (Hne br Hb).
  apply cut_area_piece in Hx; [|done..]. apply cut_area_piece in Hy; [|done..]. unfold disjoint_ranges in *. lia.
Qed.

Lemma have_mapped_spec {M} range (sp : AddressSpace M) : have_mapped range sp = false ↔ Forall (disjoint_ranges range) (areas sp).
Proof.
  unfold have_mapped. rewrite negb_false_iff, forallb_forall, Forall_forall. unfold disjoint_ranges.
  setoid_rewrite orb_true_iff. setoid_rewrite Z.leb_le. by setoid_rewrite list_elem_of_In.
Qed.

(** ** The invariant *)
Section Invariant.
Context `{PTC : PageTableCrate} {M : Type} `{PM : !PageManager M, PTL : !PageTableLaws, PML : !PageManagerLaws M}.
Implicit Types (m : memory) (T : gmap (list Z) Z) (s : machine) (sp : AddressSpace M) (F : Z → Prop).

(** A frame of user data: in use, and no table. *)
Definition data_frame s T (p : Z) : Prop := page_used (mc_heap s) p ∧ ∀ a, T !! a ≠ Some p.

(** The pages of an area are mapped to consecutive frames with the same flags. *)
Definition area_run s T (ar : Z * Z) : Prop := ∃ f p, flags_ok f ∧ 0 < p ∧ p + (ar.2 - ar.1) ≤ 2 ^ 26 ∧
  ∀ w, inside w ar → mapping (mc_mem s) T w = Some (flags_build_pte f (p + (w - ar.1))) ∧ data_frame s T (p + (w - ar.1)).

Record space_inv F s sp T : Prop := {
  si_aligned : aligned sp;
  si_ok : space_ok F (space_root sp) s T;
  si_range ar : ar ∈ areas sp → range_ok ar ∧ ∀ w, inside w ar → ¬ F (sv39_index w 2);
  si_apart : ranges_apart (areas sp);
  si_run ar : ar ∈ areas sp → area_run s T ar;
  si_only w : is_vpn w → ¬ F (sv39_index w 2) → mapping (mc_mem s) T w ≠ None → in_areas w (areas sp);
}.

Lemma kept_data_frame T s T' s' p : kept T s T' s' → data_frame s T p → data_frame s' T' p.
Proof.
  intros K [Hu Hn]. split; [by apply (kp_used _ _ _ _ K)|]. intros a Ha.
  destruct (kp_new _ _ _ _ K a p Ha); [by destruct (Hn a)|done].
Qed.

(** An area whose pages keep their entries. *)
Lemma area_run_keep T s T' s' ar : kept T s T' s' → range_ok ar →
  (∀ w, inside w ar → mapping (mc_mem s') T' w = mapping (mc_mem s) T w) → area_run s T ar → area_run s' T' ar.
Proof.
  intros K Hr Hm (f & p & Hf & Hp & Hp2 & Hw). exists f, p. split_and!; [done..|]. intros w Hin.
  destruct (Hw w Hin) as [H1 H2]. split; [by rewrite Hm|by eapply kept_data_frame].
Qed.

Lemma range_ok_vpn ar w : range_ok ar → inside w ar → is_vpn w.
Proof. unfold range_ok, inside, is_vpn. lia. Qed.

(** A piece of an area is a run. *)
Lemma area_run_piece s T ar x : area_run s T ar → ar.1 ≤ x.1 → x.1 < x.2 → x.2 ≤ ar.2 → area_run s T x.
Proof.
  intros (f & p & Hf & Hp & Hp2 & Hw) H1 H2 H3. exists f, (p + (x.1 - ar.1)). split_and!; [done|lia|lia|].
  intros w Hin. replace (p + (x.1 - ar.1) + (w - x.1)) with (p + (w - ar.1)) by lia. apply Hw. unfold inside in *. lia.
Qed.

(** *** Adding a run *)

(** [s'] and [T'] after [range] was mapped to data frames from [p] on. *)
Record added F s sp T range p flags s' T' : Prop := {
  ad_ok : space_ok F (space_root sp) s' T';
  ad_kept : kept T s T' s';
  ad_map w : is_vpn w → mapping (mc_mem s') T' w = add_run range.1 p (range.2 - range.1) flags (mapping (mc_mem s) T) w;
  ad_frame i : p ≤ i < p + (range.2 - range.1) → data_frame s' T' i;
}.

Lemma added_inv F s sp T range p flags s' T' : space_inv F s sp T → range_ok range → flags_ok flags →
  (∀ w, inside w range → ¬ F (sv39_index w 2)) → 0 < p → p + (range.2 - range.1) ≤ 2 ^ 26 → have_mapped range sp = false →
  added F s sp T range p flags s' T' → space_inv F s' (mkSpace (areas sp ++ [range]) (page_manager sp)) T'.
Proof.
  intros [Hal Hok Hrg Hap Hrun Honly] Hr Hf HF Hp Hp2 Hfree%have_mapped_spec [Hok' K Hm Hfr].
  rewrite Forall_forall in Hfree.
  assert (∀ ar w, ar ∈ areas sp → inside w ar → mapping (mc_mem s') T' w = mapping (mc_mem s) T w) as Hold.
  { intros ar w Ha Hw. destruct (Hrg ar Ha) as [Har _]. rewrite Hm by (by eapply range_ok_vpn). unfold add_run.
    specialize (Hfree ar Ha). rewrite decide_False; [done|]. unfold disjoint_ranges, inside in *. lia. }
  split; [done|done|..]; simpl.
  - intros ar [Ha| ->%list_elem_of_singleton]%elem_of_app; [by apply Hrg|done].
  - apply ranges_apart_app. split_and!; [done|by split|]. intros x y Hx ->%list_elem_of_singleton.
    specialize (Hfree x Hx). unfold disjoint_ranges in *. lia.
  - intros ar [Ha| ->%list_elem_of_singleton]%elem_of_app.
    + eapply area_run_keep; [done|by apply Hrg|by intros; eapply Hold|by apply Hrun].
    + exists flags, p. split_and!; [done..|]. intros w Hw. rewrite Hm by (by eapply range_ok_vpn). unfold add_run, inside in *.
      rewrite decide_True by lia. split; [done|]. apply Hfr. lia.
  - intros w Hv HFw. rewrite Hm by done. unfold add_run. case_decide as Hw.
    + intros _. exists range. split; [apply elem_of_app; right; by apply list_elem_of_singleton|unfold inside; lia].
    + intros Hne. destruct (Honly w Hv HFw Hne) as (ar & Ha & Hin). exists ar. split; [apply elem_of_app; by left|done].
Qed.

(** *** Removing a range *)
Lemma unmap_inv F range sp s T : space_inv F s sp T → 0 ≤ range.1 ≤ range.2 → range.2 ≤ 2 ^ 27 →
  (∀ w, inside w range → ¬ F (sv39_index w 2)) →
  ∃ s', unmap range sp s = Done (mkSpace (concat (cut_area range <$> areas sp)) (page_manager sp), s') ∧
    space_inv F s' (mkSpace (concat (cut_area range <$> areas sp)) (page_manager sp)) T ∧ kept T s T s' ∧
    ∀ w, is_vpn w → mapping (mc_mem s') T w = drop_run range.1 (range.2 - range.1) (mapping (mc_mem s) T) w.
Proof.
  intros [Hal Hok Hrg Hap Hrun Honly] Ha Hb HF.
  destruct (unmap_run F range sp s T Hal Hok Ha Hb HF) as (s' & Hrun' & Hok' & K & _ & Hm). exists s'. split; [done|].
  split; [|done]. split; [done|done|..]; simpl.
  - intros x (ar & Har & Hx)%cut_areas_elem. destruct (Hrg ar Har) as [(H1 & H2 & H3) HFa].
    apply cut_area_piece in Hx as (P1 & P2 & P3 & _); [|lia..]. split; [split_and!; lia|].
    intros w Hw. apply HFa. unfold inside in *. lia.
  - apply cut_areas_apart; [lia| |done]. apply Forall_forall. intros ar Har. destruct (Hrg ar Har) as [(_ & ? & _) _]. done.
  - intros x (ar & Har & Hx)%cut_areas_elem. destruct (Hrg ar Har) as [Hro _]. pose proof Hro as (H1 & H2 & H3).
    apply cut_area_piece in Hx as (P1 & P2 & P3 & P4); [|lia..].
    eapply area_run_keep; [done|split_and!; lia| |by eapply area_run_piece; [by apply Hrun|..]].
    intros w Hw. rewrite Hm by (unfold is_vpn, inside in *; lia). unfold drop_run, inside, disjoint_ranges in *.
    by rewrite decide_False by lia.
  - intros w Hv HFw. rewrite Hm by done. unfold drop_run. case_decide as Hw; [done|]. intros Hne.
    apply cut_areas_inside; [lia|]. split; [by apply Honly|]. unfold inside. lia.
Qed.

(** *** Other spaces *)
Definition tables_apart T1 T2 : Prop := ∀ a b p, T1 !! a = Some p → T2 !! b ≠ Some p.

Lemma kept_other F T1 s T1' s' sp2 T2 : kept T1 s T1' s' → tables_apart T1 T2 → space_inv F s sp2 T2 →
  space_inv F s' sp2 T2 ∧ tables_apart T1' T2 ∧ ∀ w, mapping (mc_mem s') T2 w = mapping (mc_mem s) T2 w.
Proof.
  intros K Hap [Hal [Ht Hu] Hrg Ha Hrun Honly].
  assert (same_tables T2 (mc_mem s) (mc_mem s')) as Hs.
  { intros a p x Hp <-. apply (kp_mem _ _ _ _ K); [by eapply Hu|]. intros b Hb. by destruct (Hap b a _ Hb). }
  destruct (tree_ext F _ _ _ _ Hs Ht) as [Ht' Hm]. split_and!.
  - split; [done|split; [done|]|done|done| |].
    + intros a p Hp. apply (kp_used _ _ _ _ K). by eapply Hu.
    + intros ar Har. destruct (Hrun ar Har) as (f & p & Hf & Hp & Hp2 & Hw). exists f, p. split_and!; [done..|].
      intros w Hin. rewrite Hm. destruct (Hw w Hin) as [H1 [H2 H3]]. split; [done|]. split; [|done]. by apply (kp_used _ _ _ _ K).
    + intros w Hv HF. rewrite Hm. by apply Honly.
  - intros a b p Hp Hb. destruct (kp_new _ _ _ _ K a p Hp) as [Hp'|Hn]; [by destruct (Hap a b p)|]. apply Hn. by eapply Hu.
  - done.
Qed.

(** ** Fresh frames *)

Lemma page_of x p n : p * page_size ≤ x < (p + n) * page_size ↔ p ≤ x / page_size < p + n.
Proof.
  pose proof (Z.div_mod x page_size ltac:(done)). pose proof (Z.mod_pos_bound x page_size ltac:(done)).
  unfold page_size in *. lia.
Qed.

(** [m2] is [m] but for the bytes of the frames from [p] on. *)
Definition same_outside (p n : Z) m m2 : Prop := ∀ x, ¬ (p ≤ x / page_size < p + n) → m2 x = m x.

Lemma fresh_frames F root p n s s1 m2 T : space_ok F root s T → allocated p n s s1 → same_outside p n (mc_mem s1) m2 →
  let s2 := mc_set_mem m2 s1 in
  space_ok F root s2 T ∧ kept T s T s2 ∧ (∀ w, mapping m2 T w = mapping (mc_mem s) T w) ∧
  ∀ i, p ≤ i < p + n → data_frame s2 T i.
Proof.
  intros [Ht Hu] Hal Hout s2. assert (∀ a i, T !! a = Some i → ¬ (p ≤ i < p + n)) as Hfr.
  { intros a i Ha Hi. apply (al_fresh _ _ _ _ Hal i Hi). by eapply Hu. }
  assert (∀ x, ¬ (p ≤ x / page_size < p + n) → m2 x = mc_mem s x) as Hm2.
  { intros x Hx. rewrite Hout by done. rewrite (al_mem _ _ _ _ Hal), decide_False; [done|]. by rewrite page_of. }
  assert (same_tables T (mc_mem s) m2) as Hs by (intros a i x Ha <-; apply Hm2; by eapply Hfr).
  destruct (tree_ext F _ _ _ _ Hs Ht) as [Ht' Hm]. split_and!.
  - split; [done|]. intros a i Ha. apply (al_used _ _ _ _ Hal). left. by eapply Hu.
  - split; [|intros x Hx _; apply Hm2; by intros ?%(al_fresh _ _ _ _ Hal)| |auto..].
    + intros i Hi. apply (al_used _ _ _ _ Hal). by left.
    + simpl. by rewrite (al_world _ _ _ _ Hal).
  - done.
  - intros i Hi. split; [apply (al_used _ _ _ _ Hal); by right|]. intros a Ha. by apply (Hfr a i).
Qed.

(** Frames were taken and filled, then mapped. *)
Lemma map_fresh F fuel range p flags sp s s1 m2 T : aligned sp → space_ok F (space_root sp) s T → range_ok range → flags_ok flags →
  allocated p (range.2 - range.1) s s1 → took (range.2 - range.1) s s1 → same_outside p (range.2 - range.1) (mc_mem s1) m2 →
  range.2 - range.1 ≤ Z.of_nat fuel → range_free F (mc_mem s) T range →
  (map_extern fuel range p flags sp (mc_set_mem m2 s1) = Panic ∧ exhausted (3 * (range.2 - range.1)) s) ∨
  ∃ s' T', map_extern fuel range p flags sp (mc_set_mem m2 s1) = Done (mkSpace (areas sp ++ [range]) (page_manager sp), s') ∧
    added F s sp T range p flags s' T' ∧ took (3 * (range.2 - range.1)) s s' ∧
    ∀ x, p ≤ x / page_size < p + (range.2 - range.1) → mc_mem s' x = m2 x.
Proof.
  intros Hsp Hok Hr Hf Hal Htk Hout Hfuel Hfree. destruct (fresh_frames F _ p _ s s1 m2 T Hok Hal Hout) as (Hok2 & K2 & Hm2 & Hd2).
  destruct (al_range _ _ _ _ Hal) as [Hp1 Hp2].
  destruct (map_extern_run F fuel range p flags sp (mc_set_mem m2 s1) T) as [[Hp He]|(s' & T' & Hrun & Hok' & K' & Htk' & Hm')];
    [done|done|done|done|lia|lia|done| | |].
  - intros w Hw. destruct (Hfree w Hw) as [HFw Hn]. split; [done|]. by rewrite mc_mem_set, Hm2.
  - left. split; [done|]. by eapply exhausted_after; [apply (took_trans _ 0 _ _ _ _ Htk (took_none 0 _ _ ltac:(done) eq_refl) ltac:(reflexivity))|exact He|lia].
  - right. exists s', T'. split; [done|]. split_and!.
    + split; [done|by eapply kept_trans| |].
      * intros w Hw. rewrite Hm' by done. unfold add_run. case_decide; [done|apply Hm2].
      * intros i Hi. eapply kept_data_frame; [done|]. by apply Hd2.
    + eapply took_trans; [exact Htk|exact Htk'|lia].
    + intros x Hx. destruct (Hd2 _ Hx) as [Hu Hn]. by rewrite (kp_mem _ _ _ _ K' x).
Qed.

Lemma pages_bytes_eq n : 0 ≤ n ≤ 2 ^ 27 → pages_bytes n = n * page_size.
Proof.
  intros Hn. unfold pages_bytes, as_usize, page_size. rewrite Z.shiftl_mul_pow2 by done. apply Z.mod_small. lia.
Qed.

Lemma lor_flags_ok flags : flags_ok flags → flags_ok (Z.lor flags owned).
Proof.
  intros [Hf Hv]. split; [apply lor_range; [done..|apply owned_range]|]. by rewrite Z.lor_spec, Hv.
Qed.

(** What the frames of a new area hold. *)
Definition filled (p : Z) (bytes : Z → Z) (n : Z) s' : Prop := ∀ x, 0 ≤ x < n * page_size → mc_mem s' (p * page_size + x) = bytes x.

Lemma filled_intro p n bytes s' m2 : (∀ x, p ≤ x / page_size < p + n → mc_mem s' x = m2 x) →
  (∀ x, 0 ≤ x < n * page_size → m2 (p * page_size + x) = bytes x) → filled p bytes n s'.
Proof. intros H1 H2 x Hx. rewrite H1 by (apply page_of; lia). by apply H2. Qed.

Lemma map_anonymous_run F fuel range flags sp s T : aligned sp → space_ok F (space_root sp) s T → range_ok range → flags_ok flags →
  range.2 - range.1 ≤ Z.of_nat fuel → range_free F (mc_mem s) T range →
  (map_anonymous fuel range flags sp s = Panic ∧ exhausted (3 * (range.2 - range.1)) s) ∨
  ∃ p s' T', map_anonymous fuel range flags sp s = Done (mkSpace (areas sp ++ [range]) (page_manager sp), s') ∧
    0 < p ∧ p + (range.2 - range.1) ≤ 2 ^ 26 ∧ (∀ i, p ≤ i < p + (range.2 - range.1) → ¬ page_used (mc_heap s) i) ∧
    added F s sp T range p (Z.lor flags owned) s' T' ∧ took (3 * (range.2 - range.1)) s s' ∧ filled p (fun _ => 0) (range.2 - range.1) s'.
Proof.
  intros Hsp Hok Hr Hf Hfuel Hfree. pose proof Hr as (Hr1 & Hr2 & Hr3). unfold map_anonymous.
  rewrite (st_bind_run _ _ _ _ _ (lift_run (usize_sub range.2 range.1) (range.2 - range.1) _ ltac:(apply checked_ok; unfold usize_max; lia))).
  rewrite pages_bytes_eq by lia.
  destruct (allocate_spec (page_manager sp) (range.2 - range.1) flags s) as [Hpanic|(p & s1 & Ha & Hal)]; [lia|left|].
  { unfold mbind, st_bind. rewrite Hpanic. split; [done|]. eapply exhausted_now; [|done]. lia. }
  rewrite (st_bind_run _ _ _ _ _ Ha). destruct (al_range _ _ _ _ Hal) as [Hp1 Hp2]. rewrite (st_bind_run _ _ _ _ () eq_refl).
  rewrite v_to_p_spec by lia.
  destruct (map_fresh F fuel range p (Z.lor flags owned) sp s s1
    (mem_zero (p * page_size) ((range.2 - range.1) * page_size) (mc_mem s1)) T) as [[Hpn He]|(s' & T' & Hrun & Had & Htk & Hfill)];
    [done|done|done|by apply lor_flags_ok|done|by eapply took_one; [|exact Ha|]; [lia|]| |done|done|by left|right].
  - intros x Hx. unfold mem_zero. rewrite decide_False; [done|]. rewrite <-page_of in Hx. lia.
  - exists p, s', T'. split_and!; [done|lia|lia|apply Hal|done|done|]. eapply filled_intro; [done|]. intros x Hx.
    unfold mem_zero. by rewrite decide_True by lia.
Qed.

(** The bytes of an area loaded with [data] at [offset]. *)
Definition loaded (data : list Z) (offset x : Z) : Z := if decide (offset ≤ x) then default 0 (data !! Z.to_nat (x - offset)) else 0.

Lemma map_run F fuel range data offset flags sp s T : aligned sp → space_ok F (space_root sp) s T → range_ok range → flags_ok flags →
  0 ≤ offset → Z.of_nat (length data) + offset ≤ (range.2 - range.1) * page_size →
  range.2 - range.1 ≤ Z.of_nat fuel → range_free F (mc_mem s) T range →
  (AddressSpace_map fuel range data offset flags sp s = Panic ∧ exhausted (3 * (range.2 - range.1)) s) ∨
  ∃ p s' T', AddressSpace_map fuel range data offset flags sp s = Done (mkSpace (areas sp ++ [range]) (page_manager sp), s') ∧
    0 < p ∧ p + (range.2 - range.1) ≤ 2 ^ 26 ∧ (∀ i, p ≤ i < p + (range.2 - range.1) → ¬ page_used (mc_heap s) i) ∧
    added F s sp T range p (Z.lor flags owned) s' T' ∧ took (3 * (range.2 - range.1)) s s' ∧ filled p (loaded data offset) (range.2 - range.1) s'.
Proof.
  intros Hsp Hok Hr Hf Ho Hsz Hfuel Hfree. pose proof Hr as (Hr1 & Hr2 & Hr3). unfold AddressSpace_map.
  rewrite (st_bind_run _ _ _ _ _ (lift_run (usize_sub range.2 range.1) (range.2 - range.1) _ ltac:(apply checked_ok; unfold usize_max; lia))).
  rewrite pages_bytes_eq by lia. cbv zeta. set (n := range.2 - range.1) in *.
  rewrite (st_bind_run _ _ _ _ _ (lift_run (usize_add (Z.of_nat (length data)) offset) (Z.of_nat (length data) + offset) _
    ltac:(apply checked_ok; unfold usize_max, page_size in *; lia))).
  rewrite (proj2 (Z.leb_le _ _)) by done. rewrite (st_bind_run _ _ _ _ _ (lift_run (rassert true) () _ eq_refl)).
  destruct (allocate_spec (page_manager sp) n flags s) as [Hpanic|(p & s1 & Ha & Hal)]; [lia|left|].
  { unfold mbind, st_bind. rewrite Hpanic. split; [done|]. eapply exhausted_now; [|done]. lia. }
  rewrite (st_bind_run _ _ _ _ _ Ha). destruct (al_range _ _ _ _ Hal) as [Hp1 Hp2].
  rewrite !(st_bind_run _ _ _ _ () eq_refl). rewrite v_to_p_spec by lia.
  set (m2 := mem_zero _ _ _). 
  assert (∀ x, 0 ≤ x < n * page_size → m2 (p * page_size + x) = loaded data offset x) as Hin.
  { intros x Hx. unfold m2, loaded, mc_mem, mc_set_mem, mem_zero, mem_write. simpl.
    destruct (decide (offset ≤ x)) as [Hox|Hox]; [destruct (decide (x < Z.of_nat (length data) + offset))|].
    - rewrite decide_False, decide_True by lia. do 2 f_equal. lia.
    - rewrite decide_True by lia. by rewrite lookup_ge_None_2 by lia.
    - by rewrite decide_False, decide_False, decide_True by lia. }
  destruct (map_fresh F fuel range p (Z.lor flags owned) sp s s1 m2 T) as [[Hpn He]|(s' & T' & Hrun & Had & Htk & Hfill)];
    [done|done|done|by apply lor_flags_ok|done|by eapply took_one; [|exact Ha|]; [lia|]| |done|done|by left|right].
  - intros x Hx. rewrite <-page_of in Hx. fold n in Hx. unfold m2, mc_mem, mc_set_mem, mem_zero, mem_write. simpl.
    by rewrite !decide_False by lia.
  - exists p, s', T'. split_and!; [done|lia|lia|apply Hal|done|done|]. eapply filled_intro; [done|]. apply Hin.
Qed.

(** A range with a mapped page cannot be mapped. *)
Lemma map_blocked F fuel range flags sp s T w : aligned sp → space_ok F (space_root sp) s T → range_ok range → flags_ok flags →
  range.2 - range.1 ≤ Z.of_nat fuel → (∀ v, range.1 ≤ v < range.2 → ¬ F (sv39_index v 2)) → range.1 ≤ w < range.2 →
  mapping (mc_mem s) T w ≠ None → AddressSpace_map fuel range [] 0 flags sp s = Panic.
Proof.
  intros Hsp Hok Hr Hf Hfuel HF Hw Hm. pose proof Hr as (Hr1 & Hr2 & Hr3). unfold AddressSpace_map.
  assert (usize_sub range.2 range.1 = Done (range.2 - range.1)) as Hc by (apply checked_ok; unfold usize_max; lia).
  rewrite (st_bind_run _ _ _ _ _ (lift_run _ _ _ Hc)), pages_bytes_eq by lia. cbv zeta.
  rewrite (st_bind_run _ _ _ _ _ (lift_run (usize_add 0 0) 0 _ eq_refl)).
  rewrite (proj2 (Z.leb_le _ _)) by (unfold page_size; lia). rewrite (st_bind_run _ _ _ _ _ (lift_run (rassert true) () _ eq_refl)).
  destruct (allocate_spec (page_manager sp) (range.2 - range.1) flags s) as [Hp|(p & s1 & Ha & Hal)]; [lia|unfold mbind, st_bind; by rewrite Hp|].
  rewrite (st_bind_run _ _ _ _ _ Ha). destruct (al_range _ _ _ _ Hal) as [Hp1 Hp2].
  rewrite !(st_bind_run _ _ _ _ () eq_refl). rewrite v_to_p_spec by lia. set (m2 := mem_zero _ _ _).
  destruct (fresh_frames F (space_root sp) p _ s s1 m2 T Hok Hal) as (Hok2 & _ & Hm2 & _).
  { intros x Hx. rewrite <-page_of in Hx. unfold m2, mc_mem, mc_set_mem, mem_zero, mem_write. simpl. by rewrite !decide_False by lia. }
  apply (map_extern_blocked F fuel range p (Z.lor flags owned) sp _ T w); [done|exact Hok2|done|by apply lor_flags_ok|lia|lia|done|done|done|].
  rewrite mc_mem_set. by rewrite Hm2.
Qed.

(** ** Copies *)

(** A range that meets no area of a space is free in it. *)
Lemma free_range F s sp T range : space_inv F s sp T → range_ok range → (∀ w, inside w range → ¬ F (sv39_index w 2)) →
  have_mapped range sp = false → range_free F (mc_mem s) T range.
Proof.
  intros Hinv Hr HF Hfree%have_mapped_spec w Hw. rewrite Forall_forall in Hfree. split; [by apply HF|].
  destruct (mapping (mc_mem s) T w) eqn:E; [exfalso|done].
  destruct (si_only _ _ _ _ Hinv w) as (ar & Ha & Hin); [by eapply range_ok_vpn|by apply HF|by rewrite E|].
  specialize (Hfree ar Ha). unfold disjoint_ranges, inside in *. lia.
Qed.

(** [ar] in [T'] is a copy, with frames that were free in [s0], of what [T] has there in [s0]. *)
Definition copy_of s0 T s' T' (ar : Z * Z) : Prop := ∃ f p q,
  flags_ok f ∧ 0 < p ∧ p + (ar.2 - ar.1) ≤ 2 ^ 26 ∧ 0 < q ∧ q + (ar.2 - ar.1) ≤ 2 ^ 26 ∧
  (∀ w, inside w ar → mapping (mc_mem s0) T w = Some (flags_build_pte f (p + (w - ar.1))) ∧
     mapping (mc_mem s') T' w = Some (flags_build_pte (Z.lor f owned) (q + (w - ar.1)))) ∧
  (∀ x, 0 ≤ x < (ar.2 - ar.1) * page_size → mc_mem s' (q * page_size + x) = mc_mem s0 (p * page_size + x)) ∧
  ∀ i, q ≤ i < q + (ar.2 - ar.1) → ¬ page_used (mc_heap s0) i ∧ data_frame s' T' i.

Lemma copy_keep s0 T0 s T s' T' ar : kept T s T' s' → (∀ w, inside w ar → mapping (mc_mem s') T' w = mapping (mc_mem s) T w) →
  copy_of s0 T0 s T ar → copy_of s0 T0 s' T' ar.
Proof.
  intros K Hm (f & p & q & Hf & Hp1 & Hp2 & Hq1 & Hq2 & Hw & Hb & Hi). exists f, p, q. do 5 (split; [done|]). split_and!.
  - intros w Hin. rewrite Hm by done. by apply Hw.
  - intros x Hx. rewrite <-Hb by done.
    destruct (Hi ((q * page_size + x) / page_size)) as [_ [Hu Hn]]; [apply page_of; lia|]. by apply (kp_mem _ _ _ _ K).
  - intros i Hr. destruct (Hi i Hr) as [? ?]. split; [done|]. by eapply kept_data_frame.
Qed.

(** The frames of a space are not tables of another. *)
Definition frames_clear s sp T T' : Prop := ∀ ar w pte, ar ∈ areas sp → inside w ar → mapping (mc_mem s) T w = Some pte →
  ∀ a, T' !! a ≠ Some (pte_ppn pte).

(** The pages of a list of areas. *)
Definition pages_of (l : list (Z * Z)) : Z := foldr (fun ar n => (ar.2 - ar.1) + n) 0 l.

Lemma pages_of_nonneg l : (∀ ar, ar ∈ l → ar.1 ≤ ar.2) → 0 ≤ pages_of l.
Proof.
  induction l as [|ar l IH]; simpl; intros Hl; [done|]. specialize (Hl ar ltac:(by left)) as Har.
  specialize (IH ltac:(intros b Hb; apply Hl; by right)). lia.
Qed.

Section Clone.
Variables (F : Z → Prop) (sp : AddressSpace M) (s0 : machine) (T Tn0 : gmap (list Z) Z) (fuel : nat).
Hypothesis Hsp : space_inv F s0 sp T.
Hypothesis Hap : tables_apart Tn0 T.
Hypothesis Hcl : frames_clear s0 sp T Tn0.

(** What [clone_area] reads of the area. *)
Lemma clone_area_eq new s ar f p : space_inv F s sp T → ar ∈ areas sp → flags_ok f → 0 < p → p + (ar.2 - ar.1) ≤ 2 ^ 26 →
  mapping (mc_mem s) T ar.1 = Some (flags_build_pte f p) →
  clone_area fuel sp new ar s =
    ('(paddr, flags) ← pm_allocate (page_manager new) (ar.2 - ar.1) f;
     mc_on_mem (mem_copy paddr (p * page_size) ((ar.2 - ar.1) * page_size));;
     map_extern fuel ar (pm_v_to_p (page_manager new) paddr) flags new) s.
Proof.
  intros Hs Har [Hf1 Hf2] Hp1 Hp2 Hfirst. destruct (si_range _ _ _ _ Hs ar Har) as [(Hr1 & Hr2 & Hr3) HF].
  assert (visit_page ar.1 sp (mc_mem s) = Done (Some (flags_build_pte f p))) as Hvis.
  { rewrite (visit_page_run F _ sp T); [by rewrite Hfirst|apply Hs|apply Hs|unfold is_vpn; lia|apply HF; unfold inside; lia]. }
  assert (usize_sub ar.2 ar.1 = Done (ar.2 - ar.1)) as Hcount by (apply checked_ok; unfold usize_max; lia).
  unfold clone_area. unfold mbind at 1, st_bind at 1, get_st. rewrite (st_bind_run _ _ _ _ _ (lift_run _ _ _ Hvis)).
  rewrite (st_bind_run _ _ _ _ _ (lift_run (unwrap (Some (flags_build_pte f p))) _ _ eq_refl)).
  rewrite build_pte_valid, Hf2 by (done || lia). rewrite (st_bind_run _ _ _ _ _ (lift_run (rassert true) () _ eq_refl)).
  rewrite (st_bind_run _ _ _ _ _ (lift_run _ _ _ Hcount)).
  by rewrite pages_bytes_eq, build_pte_flags, build_pte_ppn, p_to_v_spec by (done || lia).
Qed.

(** What it copies. *)
Lemma clone_bytes s Tn ar f p q s1 : kept Tn0 s0 Tn s → ar ∈ areas sp → flags_ok f → 0 < p → p + (ar.2 - ar.1) ≤ 2 ^ 26 →
  (∀ w, inside w ar → mapping (mc_mem s0) T w = Some (flags_build_pte f (p + (w - ar.1))) ∧ data_frame s0 T (p + (w - ar.1))) →
  allocated q (ar.2 - ar.1) s s1 → ∀ x, 0 ≤ x < (ar.2 - ar.1) * page_size →
  mem_copy (q * page_size) (p * page_size) ((ar.2 - ar.1) * page_size) (mc_mem s1) (q * page_size + x)
    = mc_mem s0 (p * page_size + x).
Proof.
  intros K Har Hf Hp1 Hp2 Hw Hal x Hx. unfold mem_copy. rewrite decide_True by lia.
  replace (p * page_size + (q * page_size + x - q * page_size)) with (p * page_size + x) by lia.
  assert (p ≤ (p * page_size + x) / page_size < p + (ar.2 - ar.1)) as Hpg by (apply page_of; lia).
  set (w := ar.1 + ((p * page_size + x) / page_size - p)).
  destruct (Hw w) as [Hmw [Hu _]]; [unfold inside, w; lia|].
  replace (p + (w - ar.1)) with ((p * page_size + x) / page_size) in * by (unfold w; lia).
  rewrite (al_mem _ _ _ _ Hal), decide_False.
  - apply (kp_mem _ _ _ _ K); [done|]. intros a Ha'. apply (Hcl ar w _ Har ltac:(unfold inside, w; lia) Hmw a).
    rewrite build_pte_ppn; [done|apply Hf|lia].
  - rewrite page_of. intros Hq. apply (al_fresh _ _ _ _ Hal _ Hq). by apply (kp_used _ _ _ _ K).
Qed.

(** One area, into a space that has worked since [s0]. *)
Lemma clone_area_run t new s Tn ar : kept Tn0 s0 Tn s → took t s0 s → space_inv F s new Tn → ar ∈ areas sp → have_mapped ar new = false →
  ar.2 - ar.1 ≤ Z.of_nat fuel →
  (clone_area fuel sp new ar s = Panic ∧ exhausted (t + 3 * (ar.2 - ar.1)) s0) ∨
  ∃ s' Tn', clone_area fuel sp new ar s = Done (mkSpace (areas new ++ [ar]) (page_manager new), s') ∧
    space_inv F s' (mkSpace (areas new ++ [ar]) (page_manager new)) Tn' ∧ kept Tn s Tn' s' ∧ took (t + 3 * (ar.2 - ar.1)) s0 s' ∧ copy_of s0 T s' Tn' ar ∧
    ∀ br w, br ∈ areas new → inside w br → mapping (mc_mem s') Tn' w = mapping (mc_mem s) Tn w.
Proof.
  intros K Htk Hnew Har Hfree Hfuel. destruct (kept_other F _ _ _ _ _ _ K Hap Hsp) as (Hsp' & _ & Hm0).
  destruct (si_range _ _ _ _ Hsp ar Har) as [Hr HF]. pose proof Hr as (Hr1 & Hr2 & Hr3).
  destruct (si_run _ _ _ _ Hsp ar Har) as (f & p & Hf & Hp1 & Hp2 & Hw).
  destruct (Hw ar.1) as [Hfirst Hfr]; [unfold inside; lia|]. rewrite Z.sub_diag, Z.add_0_r in Hfirst.
  rewrite (clone_area_eq new s ar f p) by (done || by rewrite Hm0).
  destruct (allocate_spec (page_manager new) (ar.2 - ar.1) f s) as [Hpanic|(q & s1 & Ha & Hal)]; [lia|left|].
  { unfold mbind, st_bind. rewrite Hpanic. split; [done|]. eapply exhausted_after; [exact Htk|eapply (exhausted_now (ar.2 - ar.1)); [|exact Hpanic]; lia|lia]. }
  rewrite (st_bind_run _ _ _ _ _ Ha). destruct (al_range _ _ _ _ Hal) as [Hq1 Hq2]. rewrite (st_bind_run _ _ _ _ () eq_refl).
  rewrite v_to_p_spec by lia. pose proof (clone_bytes s Tn ar f p q s1 K Har Hf Hp1 Hp2 Hw Hal) as Hcopy.
  set (m2 := mem_copy _ _ _ _) in *.
  destruct (map_fresh F fuel ar q (Z.lor f owned) new s s1 m2 Tn) as [[Hpn He]|(s' & Tn' & Hrun & Had & Htk' & Hfill)];
    [apply Hnew|apply Hnew|done|by apply lor_flags_ok|done|by eapply took_one; [|exact Ha|]; [lia|]| |done|by eapply free_range| |].
  - intros x Hx. unfold m2, mem_copy. rewrite decide_False; [done|]. rewrite <-page_of in Hx. lia.
  - left. split; [done|]. eapply exhausted_after; [exact Htk|exact He|lia].
  - right. exists s', Tn'. split; [done|]. split_and!.
    + eapply added_inv; [done|done|by apply lor_flags_ok|done| | |done|done]; lia.
    + apply Had.
    + eapply took_trans; [exact Htk|exact Htk'|lia].
    + exists f, p, q. do 5 (split; [done|]). split_and!.
      * intros w Hin. split; [by apply Hw|]. rewrite (ad_map _ _ _ _ _ _ _ _ _ Had) by (by eapply range_ok_vpn).
        unfold add_run, inside in *. by rewrite decide_True by lia.
      * intros x Hx. rewrite Hfill by (apply page_of; lia). by apply Hcopy.
      * intros i Hi. split; [|by apply Had]. intros Hu. apply (al_fresh _ _ _ _ Hal i Hi). by apply (kp_used _ _ _ _ K).
    + intros br w Hb Hin. rewrite (ad_map _ _ _ _ _ _ _ _ _ Had).
      * unfold add_run. apply have_mapped_spec in Hfree. rewrite Forall_forall in Hfree. specialize (Hfree br Hb).
        rewrite decide_False; [done|]. unfold disjoint_ranges, inside in *. lia.
      * eapply range_ok_vpn; [|done]. by apply (si_range _ _ _ _ Hnew).
Qed.

Lemma clone_areas_run l : ∀ t new s Tn, kept Tn0 s0 Tn s → took t s0 s → space_inv F s new Tn → (∀ ar, ar ∈ l → ar ∈ areas sp) →
  ranges_apart (areas new ++ l) → (∀ ar, ar ∈ l → ar.2 - ar.1 ≤ Z.of_nat fuel) → (∀ ar, ar ∈ areas new → copy_of s0 T s Tn ar) →
  (clone_areas fuel sp l new s = Panic ∧ exhausted (t + 3 * pages_of l) s0) ∨
  ∃ s' Tn', clone_areas fuel sp l new s = Done (mkSpace (areas new ++ l) (page_manager new), s') ∧
    space_inv F s' (mkSpace (areas new ++ l) (page_manager new)) Tn' ∧ kept Tn0 s0 Tn' s' ∧
    ∀ ar, ar ∈ areas new ++ l → copy_of s0 T s' Tn' ar.
Proof.
  induction l as [|ar l IH]; intros t new s Tn K Htk Hnew Hsub Hapart Hfuel Hcopy; cbn [clone_areas].
  { right. exists s, Tn. rewrite app_nil_r. by destruct new. }
  pose proof Hapart as (_ & _ & Hd)%ranges_apart_app. change (pages_of (ar :: l)) with ((ar.2 - ar.1) + pages_of l).
  assert (0 ≤ pages_of l) as Hpl.
  { apply pages_of_nonneg. intros br Hb. destruct (si_range _ _ _ _ Hsp br) as [(_ & ? & _) _]; [apply Hsub; by right|lia]. }
  destruct (clone_area_run t new s Tn ar K Htk Hnew) as [[Hp He]|(s1 & Tn1 & Hrun & Hnew1 & K1 & Htk1 & Hc1 & Hm1)];
    [apply Hsub; by left| |apply Hfuel; by left|left|].
  - apply have_mapped_spec, Forall_forall. intros br Hb. specialize (Hd br ar Hb ltac:(by left)). unfold disjoint_ranges in *. lia.
  - unfold mbind, st_bind. rewrite Hp. split; [done|]. eapply exhausted_after; [by apply (took_none 0)|exact He|]. lia.
  - rewrite (st_bind_run _ _ _ _ _ Hrun).
    destruct (IH (t + 3 * (ar.2 - ar.1)) (mkSpace (areas new ++ [ar]) (page_manager new)) s1 Tn1) as [[Hpn He]|(s2 & Tn2 & Hr2 & Hi2 & K2 & Hc2)];
      [by eapply kept_trans|done|done|intros x Hx; apply Hsub; by right|simpl; by rewrite <-app_assoc|intros x Hx; apply Hfuel; by right| |left|].
    + simpl. intros br [Hb| ->%list_elem_of_singleton]%elem_of_app; [|done].
      eapply copy_keep; [done| |by apply Hcopy]. intros w Hw. by eapply Hm1.
    + split; [done|]. eapply exhausted_after; [by apply (took_none 0)|exact He|lia].
    + right. exists s2, Tn2. simpl in *. rewrite <-app_assoc in *. done.
Qed.

Lemma cloneself_run new : space_inv F s0 new Tn0 → areas new = [] → (∀ ar, ar ∈ areas sp → ar.2 - ar.1 ≤ Z.of_nat fuel) →
  (cloneself fuel sp new s0 = Panic ∧ exhausted (3 * pages_of (areas sp)) s0) ∨
  ∃ s' Tn', cloneself fuel sp new s0 = Done (mkSpace (areas sp) (page_manager new), s') ∧
    space_inv F s' (mkSpace (areas sp) (page_manager new)) Tn' ∧ kept Tn0 s0 Tn' s' ∧
    ∀ ar, ar ∈ areas sp → copy_of s0 T s' Tn' ar.
Proof.
  intros Hnew He Hfuel. destruct (clone_areas_run (areas sp) 0 new s0 Tn0) as [Hp|Hr];
    [apply kept_refl|by apply took_none|done|done|rewrite He; apply Hsp|done|rewrite He; intros ar Ha; by apply elem_of_nil in Ha|by left|].
  rewrite He in Hr. by right.
Qed.
End Clone.

(** ** New spaces *)
Lemma new_run F s : AddressSpace_new s = Panic ∨ ∃ sp s', AddressSpace_new s = Done (sp, s') ∧ areas sp = [] ∧
  space_inv F s' sp {[[] := space_root sp]} ∧ kept ∅ s {[[] := space_root sp]} s'.
Proof.
  unfold AddressSpace_new. destruct (new_root_spec s) as [Hp|(pm & s' & Hp & Ha & Hal)]; [left|right].
  { unfold mbind, st_bind. by rewrite Hp. }
  exists (mkSpace [] pm), s'. rewrite (st_bind_run _ _ _ _ _ Hp). destruct (al_range _ _ _ _ Hal) as [Hp1 Hp2].
  set (root := pm_root_ppn pm) in *. change (space_root (mkSpace [] pm)) with root.
  assert (∀ b p, ({[[] := root]} : gmap (list Z) Z) !! b = Some p ↔ b = [] ∧ p = root) as Hl.
  { intros b p. rewrite lookup_singleton_Some. naive_solver. }
  assert (∀ i, is_index i → entry (mc_mem s') root i = 0) as Hz.
  { intros i Hi. unfold is_index, entries in Hi. unfold entry.
    rewrite (read_word_ext (mem_zero (root * page_size) page_size (mc_mem s)) (mc_mem s')).
    - apply read_word_zero; unfold page_size; lia.
    - intros x Hx. rewrite (al_mem _ _ _ _ Hal). unfold mem_zero.
      replace ((root + 1) * page_size) with (root * page_size + page_size) by lia. done. }
  assert (tree F (mc_mem s') root {[[] := root]}) as Ht.
  { split.
    - by apply Hl.
    - by intros a b p [-> _]%Hl [-> _]%Hl.
    - intros a p [_ ->]%Hl. lia.
    - intros a [p [-> _]%Hl]. simpl. lia.
    - intros a i [p [E _]%Hl]. by destruct a.
    - intros a p i q _ _ _ [E _]%Hl. by destruct a.
    - intros a p i [-> ->]%Hl _ Hi _ _. rewrite Hz by done. apply pte_zero.
    - intros i a [p [E _]%Hl]. done. }
  split_and!; [done|done| |].
  - split; [done| | | | |]; simpl; try (intros ar Har; by apply elem_of_nil in Har); try done.
    + split; [done|]. intros a p [-> ->]%Hl. apply (al_used _ _ _ _ Hal). right. lia.
    + intros w _ _ Hn. destruct Hn. unfold mapping, leaf_table. by rewrite lookup_singleton_ne.
  - split.
    + intros p Hu. apply (al_used _ _ _ _ Hal). by left.
    + intros x Hx _. rewrite (al_mem _ _ _ _ Hal), decide_False; [done|]. rewrite page_of. intros Hr. by apply (al_fresh _ _ _ _ Hal _ Hr).
    + apply (al_world _ _ _ _ Hal).
    + intros a p Ha'. by rewrite lookup_empty in Ha'.
    + intros a p [-> ->]%Hl. right. apply (al_fresh _ _ _ _ Hal). lia.
Qed.

(** ** The pages of a space *)
Definition uses s sp T (p : Z) : Prop := (∃ a, T !! a = Some p) ∨
  ∃ w pte, in_areas w (areas sp) ∧ mapping (mc_mem s) T w = Some pte ∧ pte_ppn pte = p.

Lemma uses_used F s sp T p : space_inv F s sp T → uses s sp T p → page_used (mc_heap s) p.
Proof.
  intros Hinv [[a Ha]|(w & pte & (ar & Har & Hw) & Hm & <-)]; [by eapply (si_ok _ _ _ _ Hinv)|].
  destruct (si_run _ _ _ _ Hinv ar Har) as (f & q & [Hf _] & Hq1 & Hq2 & Hrun). destruct (Hrun w Hw) as [Hm' [Hu _]].
  rewrite Hm in Hm'. injection Hm' as ->. unfold inside in Hw. by rewrite build_pte_ppn by (done || lia).
Qed.

(** A frame with data of a space is none of its tables. *)
Lemma frame_data F s sp T w pte : space_inv F s sp T → in_areas w (areas sp) → mapping (mc_mem s) T w = Some pte →
  data_frame s T (pte_ppn pte).
Proof.
  intros Hinv (ar & Har & Hw) Hm. destruct (si_run _ _ _ _ Hinv ar Har) as (f & q & [Hf _] & Hq1 & Hq2 & Hrun).
  destruct (Hrun w Hw) as [Hm' Hd]. rewrite Hm in Hm'. injection Hm' as ->. unfold inside in Hw. by rewrite build_pte_ppn by (done || lia).
Qed.

Lemma added_uses F s sp T range p flags s' T' q : space_inv F s sp T → range_ok range → flags_ok flags → 0 < p →
  p + (range.2 - range.1) ≤ 2 ^ 26 → (∀ i, p ≤ i < p + (range.2 - range.1) → ¬ page_used (mc_heap s) i) →
  have_mapped range sp = false → added F s sp T range p flags s' T' →
  uses s' (mkSpace (areas sp ++ [range]) (page_manager sp)) T' q → uses s sp T q ∨ ¬ page_used (mc_heap s) q.
Proof.
  intros Hinv Hr [Hf _] Hp1 Hp2 Hfr Hfree [Hok' K Hm _] [[a Ha]|(w & pte & (ar & Har & Hw) & Hmw & <-)].
  - destruct (kp_new _ _ _ _ K a q Ha) as [Ho|Hn]; [left; left; by exists a|by right].
  - simpl in Har. apply elem_of_app in Har as [Har| ->%list_elem_of_singleton].
    + left. right. exists w, pte. split; [by exists ar|]. split; [|done]. rewrite <-Hmw. symmetry.
      rewrite Hm by (eapply range_ok_vpn; [|done]; by apply (si_range _ _ _ _ Hinv)). unfold add_run.
      apply have_mapped_spec in Hfree. rewrite Forall_forall in Hfree. specialize (Hfree ar Har).
      rewrite decide_False; [done|]. unfold disjoint_ranges, inside in *. lia.
    + right. rewrite Hm in Hmw by (by eapply range_ok_vpn). unfold add_run, inside in *. rewrite decide_True in Hmw by lia.
      injection Hmw as <-. rewrite build_pte_ppn by (done || lia). apply Hfr. lia.
Qed.

Lemma unmap_uses F s sp T range s' q : space_inv F s sp T → 0 ≤ range.1 ≤ range.2 → kept T s T s' →
  (∀ w, is_vpn w → mapping (mc_mem s') T w = drop_run range.1 (range.2 - range.1) (mapping (mc_mem s) T) w) →
  uses s' (mkSpace (concat (cut_area range <$> areas sp)) (page_manager sp)) T q → uses s sp T q.
Proof.
  intros Hinv Hr K Hm [[a Ha]|(w & pte & Hin & Hmw & <-)]; [left; by exists a|right]. simpl in Hin.
  apply cut_areas_inside in Hin as [Hin Hout]; [|lia]. exists w, pte. split_and!; [done| |done]. rewrite <-Hmw. symmetry.
  destruct Hin as (ar & Har & Hw). rewrite Hm by (eapply range_ok_vpn; [|done]; by apply (si_range _ _ _ _ Hinv)).
  unfold drop_run. rewrite decide_False; [done|]. unfold inside in Hout. lia.
Qed.
(** ** Bytes at virtual addresses *)

(** The byte at a virtual address. *)
Definition byte_at (m : memory) T (addr : Z) : option Z :=
  pte ← mapping m T (addr / page_size);
  Some (m (pte_ppn pte * page_size + addr mod page_size)).

Lemma byte_at_run m T addr f (g : Z) : mapping m T (addr / page_size) = Some (flags_build_pte f g) → 0 ≤ f < 2 ^ 10 → 0 ≤ g < 2 ^ 44 →
  byte_at m T addr = Some (m (g * page_size + addr mod page_size)).
Proof. intros Hm Hf Hp. unfold byte_at. rewrite Hm. simpl. by rewrite build_pte_ppn. Qed.

Lemma addr_in_run (v w addr : Z) : v ≤ w → w = addr / page_size →
  (w - v) * page_size + addr mod page_size = addr - v * page_size ∧ 0 ≤ addr mod page_size < page_size.
Proof.
  intros Hv ->. pose proof (Z.div_mod addr page_size ltac:(done)). pose proof (Z.mod_pos_bound addr page_size ltac:(done)).
  unfold page_size in *. lia.
Qed.

(** Work on the tables does not change the byte of a page that stays mapped. *)
Lemma byte_keep F s sp T s' T' addr : space_inv F s sp T → kept T s T' s' → in_areas (addr / page_size) (areas sp) →
  mapping (mc_mem s') T' (addr / page_size) = mapping (mc_mem s) T (addr / page_size) →
  byte_at (mc_mem s') T' addr = byte_at (mc_mem s) T addr.
Proof.
  intros Hinv K Hin Hm. unfold byte_at. rewrite Hm. destruct (mapping (mc_mem s) T (addr / page_size)) as [e|] eqn:E; [|done].
  simpl. f_equal. destruct (frame_data F s sp T _ e Hinv Hin E) as [Hu Hn]. pose proof (Z.mod_pos_bound addr page_size ltac:(done)).
  assert ((pte_ppn e * page_size + addr mod page_size) / page_size = pte_ppn e) as Hd.
  { symmetry. apply (Z.div_unique _ _ _ (addr mod page_size)); lia. }
  apply (kp_mem _ _ _ _ K); by rewrite Hd.
Qed.

(** The bytes of a run of pages that was filled. *)
Lemma byte_filled s' T' range p flags bytes x : (∀ w, inside w range → mapping (mc_mem s') T' w = Some (flags_build_pte flags (p + (w - range.1)))) →
  0 ≤ flags < 2 ^ 10 → 0 < p → p + (range.2 - range.1) ≤ 2 ^ 26 → filled p bytes (range.2 - range.1) s' →
  0 ≤ x < (range.2 - range.1) * page_size → byte_at (mc_mem s') T' (range.1 * page_size + x) = Some (bytes x).
Proof.
  intros Hm Hf Hp1 Hp2 Hfill Hx. pose proof (Z.div_mod x page_size ltac:(done)) as Hdm. pose proof (Z.mod_pos_bound x page_size ltac:(done)).
  assert (0 ≤ x / page_size < range.2 - range.1) by (split; [apply Z.div_pos|apply Z.div_lt_upper_bound]; unfold page_size in *; lia).
  assert ((range.1 * page_size + x) / page_size = range.1 + x / page_size) as E by (by rewrite Z.add_comm, Z.div_add, Z.add_comm by done).
  assert ((range.1 * page_size + x) mod page_size = x mod page_size) as E2 by (by rewrite Z.add_comm, Z_mod_plus_full).
  rewrite (byte_at_run _ _ _ flags (p + x / page_size)); [|rewrite E, Hm by (unfold inside; lia); do 2 f_equal; lia|done|lia].
  f_equal. rewrite <-(Hfill x) by done. f_equal. rewrite E2. unfold page_size in *. lia.
Qed.
End Invariant.
