(* ===== verification/PageManager.v ===== *)
(** * The page manager of the kernels

    Models [Sv39Manager] of [tg-rcore-tutorial-ch4/src/main.rs] (the kernels of chapters 5 to 8 have the same): pages
    come from the kernel heap, physical memory is mapped onto itself, and pages the kernel gave are marked. *)

From S2P Require Import Prelude Bytes Memory PageTable AddressSpace SpaceTree.

(** The address of the root table. *)
Record Sv39Manager := mkSv39 { sv39_root : Z }.

Section Manager.
Context `{PTC : PageTableCrate}.

Definition OWNED : Z := Z.shiftl 1 8.
Definition page_alloc (count : Z) : st machine Z := alloc_zeroed (as_usize (Z.shiftl count 12)) (Z.shiftl 1 12).
(** [NonNull::new(p).unwrap()]. *)
Definition non_null (p : Z) : outcome Z := if p =? 0 then Panic else Done p.

Definition Sv39Manager_new_root : st machine Sv39Manager :=
  p ← page_alloc 1;
  p ← lift (non_null p);
  mret (mkSv39 p).
Definition Sv39Manager_root_ppn (pm : Sv39Manager) : Z := Z.shiftr (sv39_root pm) 12.
Definition Sv39Manager_root_ptr (pm : Sv39Manager) : Z := sv39_root pm.
Definition Sv39Manager_p_to_v (pm : Sv39Manager) (ppn : Z) : Z := vpn_base ppn.
Definition Sv39Manager_v_to_p (pm : Sv39Manager) (ptr : Z) : Z := va_floor ptr.
Definition Sv39Manager_check_owned (pm : Sv39Manager) (pte : Z) : bool := flags_contains (pte_flags pte) OWNED.
Definition Sv39Manager_allocate (pm : Sv39Manager) (len flags : Z) : st machine (Z * Z) :=
  let flags := Z.lor flags OWNED in
  p ← page_alloc len;
  p ← lift (non_null p);
  mret (p, flags).
(** [todo!()]. *)
Definition Sv39Manager_deallocate (pm : Sv39Manager) (pte len : Z) : st machine Z := lift Panic.
Definition Sv39Manager_drop_root (pm : Sv39Manager) : st machine unit := lift Panic.

#[export] Instance Sv39Manager_manager : PageManager Sv39Manager := {|
  pm_new_root := Sv39Manager_new_root;
  pm_root_ptr := Sv39Manager_root_ptr;
  pm_root_ppn := Sv39Manager_root_ppn;
  pm_p_to_v := Sv39Manager_p_to_v;
  pm_v_to_p := Sv39Manager_v_to_p;
  pm_check_owned := Sv39Manager_check_owned;
  pm_allocate := Sv39Manager_allocate;
  pm_deallocate := Sv39Manager_deallocate;
  pm_drop_root := Sv39Manager_drop_root;
|}.

(** ** The manager does what address spaces need *)
Context `{HL : !HeapLaws, PTL : !PageTableLaws}.

Lemma page_alloc_run n (s : machine) : 0 < n ≤ 2 ^ 27 →
  page_alloc n s = Panic ∨ ∃ p s', page_alloc n s = Done (p * page_size, s') ∧ allocated p n s s'.
Proof.
  intros Hn. unfold page_alloc, alloc_zeroed. change (Z.shiftl 1 12) with page_size.
  replace (as_usize (Z.shiftl n 12)) with (n * page_size).
  2: { unfold as_usize, page_size. rewrite Z.shiftl_mul_pow2, Z.mod_small by lia. lia. }
  destruct (heap_allocate (n * page_size) page_size (mc_heap s)) as [[a h]|] eqn:Hh; [right|left].
  - destruct (heap_allocate_spec n _ _ _ ltac:(lia) Hh) as (p & -> & Hp1 & Hp2 & Hfr & Hu).
    exists p. eexists. split.
    { unfold mbind, st_bind, Global_alloc. rewrite Hh. reflexivity. }
    split; simpl; [done|done|done| |done].
    intros x. unfold mc_mem, mem_zero. simpl. by rewrite Z.mul_add_distr_r.
  - unfold mbind, st_bind, Global_alloc. by rewrite Hh.
Qed.

Lemma non_null_page p n (s s' : machine) : allocated p n s s' → non_null (p * page_size) = Done (p * page_size).
Proof.
  intros Hal. destruct (al_range _ _ _ _ Hal) as [Hp _]. unfold non_null, page_size.
  by rewrite (proj2 (Z.eqb_neq _ _)) by lia.
Qed.

#[export] Instance Sv39Manager_laws : PageManagerLaws Sv39Manager.
Proof.
  refine {| owned := OWNED |}.
  - done.
  - done.
  - intros pm p Hp. by apply vpn_base_spec.
  - intros pm p Hp. simpl. unfold Sv39Manager_v_to_p. rewrite va_floor_spec by (unfold page_size; lia). by apply Z.div_mul.
  - intros pm f p Hf Hp. simpl. unfold Sv39Manager_check_owned.
    rewrite build_pte_flags by (lia || by apply lor_range). rewrite flags_contains_spec. apply Z.eqb_eq.
    apply Z.bits_inj'. intros i Hi. rewrite Z.land_spec, Z.lor_spec. by destruct (Z.testbit f i), (Z.testbit OWNED i).
  - intros pm n f s Hn. simpl. unfold Sv39Manager_allocate. destruct (page_alloc_run n s Hn) as [Hp|(p & s' & Hp & Hal)]; [left|right].
    + unfold mbind, st_bind. by rewrite Hp.
    + exists p, s'. split; [|done]. rewrite (st_bind_run _ _ _ _ _ Hp), (st_bind_run _ _ _ _ _ (lift_run _ _ _ (non_null_page _ _ _ _ Hal))).
      done.
  - intros s. simpl. unfold Sv39Manager_new_root. destruct (page_alloc_run 1 s ltac:(lia)) as [Hp|(p & s' & Hp & Hal)]; [left|right].
    + unfold mbind, st_bind. by rewrite Hp.
    + exists (mkSv39 (p * page_size)), s'. rewrite (st_bind_run _ _ _ _ _ Hp), (st_bind_run _ _ _ _ _ (lift_run _ _ _ (non_null_page _ _ _ _ Hal))).
      assert (Sv39Manager_root_ppn (mkSv39 (p * page_size)) = p) as E.
      { unfold Sv39Manager_root_ppn. simpl. rewrite Z.shiftr_div_pow2 by done. by apply Z.div_mul. }
      split_and!; [done|by rewrite E|by rewrite E].
Defined.
End Manager.
