(* ===== verification/VmKernel.v ===== *)
(** * The kernel with address spaces

    Models [tg-rcore-tutorial-ch4/src/{main,process}.rs]: processes with their address spaces and heaps, loading a
    program, the system calls that work through page tables, and the scheduling loop, which runs the first process until
    it ends.

    What the [xmas_elf] crate reads from a program file is an argument; what a process does in user mode is a
    parameter. *)

From Stdlib Require Import Ascii String.
From stdpp Require Import strings.
From S2P Require Import Prelude Bytes Memory Linker KernelContext Syscall PageTable AddressSpace SpaceTree PageManager BatchKernel TaskKernel.

Module Vm.
(** ** Program files, as [xmas_elf] presents them *)
Record ProgramHeader := mkProgramHeader {
  ph_load : bool; ph_offset : Z; ph_file_size : Z; ph_virtual_addr : Z; ph_mem_size : Z;
  ph_execute : bool; ph_write : bool; ph_read : bool }.
Record ElfFile := mkElfFile {
  elf_64 : bool; elf_executable : bool; elf_riscv : bool; elf_entry_point : Z;
  elf_programs : list ProgramHeader; elf_input : list Z }.

Section Kernel.
Context `{PTC : PageTableCrate}.

(** ** Processes *)
Record Process := mkProcess {
  context : ForeignContext;
  address_space : AddressSpace Sv39Manager;
  heap_bottom : Z;
  program_brk : Z;
  syscall_count : list Z;
}.
Definition MAX_SYSCALL_NUM : nat := 500.
Definition PAGE_MASK : Z := Z.shiftl 1 12 - 1.

(** [let mut flags: [u8; 5] = *b"U___V"] and its three slots. *)
Definition user_flags (x w r : bool) : string :=
  String "U" (String (if x then "X" else "_") (String (if w then "W" else "_") (String (if r then "R" else "_") "V")))%char.

(** [&input[off..][..len]]. *)
Definition slice_of (input : list Z) (off len : Z) : outcome (list Z) :=
  _ ← rassert (off <=? Z.of_nat (length input));
  _ ← rassert (len <=? Z.of_nat (length input) - off);
  Done (take (Z.to_nat len) (drop (Z.to_nat off) input)).

(** [for program in elf.program_iter()]. *)
Fixpoint load_segments (fuel : nat) (input : list Z) (l : list ProgramHeader) (max_end_va : Z)
    (sp : AddressSpace Sv39Manager) : st machine (Z * AddressSpace Sv39Manager) :=
  match l with
  | [] => mret (max_end_va, sp)
  | program :: l' =>
      if negb (ph_load program) then load_segments fuel input l' max_end_va sp
      else
        let off_file := ph_offset program in
        let len_file := ph_file_size program in
        let off_mem := ph_virtual_addr program in
        end_mem ← lift (usize_add off_mem (ph_mem_size program));
        _ ← lift (rassert (Z.land off_file PAGE_MASK =? Z.land off_mem PAGE_MASK));
        let max_end_va := if end_mem >? max_end_va then end_mem else max_end_va in
        let flags := user_flags (ph_execute program) (ph_write program) (ph_read program) in
        data ← lift (slice_of input off_file len_file);
        flags ← lift (unwrap (parse_flags flags));
        sp ← AddressSpace_map fuel (va_floor off_mem, va_ceil end_mem) data (Z.land off_mem PAGE_MASK) flags sp;
        load_segments fuel input l' max_end_va sp
  end.

Definition Process_new (fuel : nat) (elf : ElfFile) : st machine (option Process) :=
  if negb (elf_64 elf && elf_executable elf && elf_riscv elf) then mret None
  else
    let entry := elf_entry_point elf in
    sp ← AddressSpace_new;
    '(max_end_va, sp) ← load_segments fuel (elf_input elf) (elf_programs elf) 0 sp;
    let heap_bottom := vpn_base (va_ceil max_end_va) in
    stack ← alloc_zeroed (Z.shiftl 2 12) (Z.shiftl 1 12);
    sp ← map_extern fuel (Z.shiftl 1 26 - 2, Z.shiftl 1 26) (Z.shiftr stack 12) (build_flags "U_WRV") sp;
    let satp := Z.lor (Z.shiftl 8 60) (AddressSpace_root_ppn sp) in
    ctx ← lift (LocalContext_set_sp (Z.shiftl 1 38) (LocalContext_user entry));
    mret (Some (mkProcess (mkForeign ctx satp) sp heap_bottom heap_bottom (replicate MAX_SYSCALL_NUM 0))).

Definition set_space (sp : AddressSpace Sv39Manager) (p : Process) : Process :=
  mkProcess (context p) sp (heap_bottom p) (program_brk p) (syscall_count p).
Definition set_brk (brk : Z) (p : Process) : Process :=
  mkProcess (context p) (address_space p) (heap_bottom p) brk (syscall_count p).
Definition set_context (c : ForeignContext) (p : Process) : Process :=
  mkProcess c (address_space p) (heap_bottom p) (program_brk p) (syscall_count p).
Definition set_count (c : list Z) (p : Process) : Process :=
  mkProcess (context p) (address_space p) (heap_bottom p) (program_brk p) c.

Definition change_program_brk (fuel : nat) (size : Z) (p : Process) : st machine (option Z * Process) :=
  let old_brk := program_brk p in
  new_brk ← lift (isize_add (as_isize (program_brk p)) size);
  if new_brk <? as_isize (heap_bottom p) then mret (None, p)
  else
    let new_brk := as_usize new_brk in
    let old_brk_ceil := va_ceil old_brk in
    let new_brk_ceil := va_ceil new_brk in
    sp ← (if size >? 0 then
            if new_brk_ceil >? old_brk_ceil
            then AddressSpace_map fuel (old_brk_ceil, new_brk_ceil) [] 0 (build_flags "U_WRV") (address_space p)
            else mret (address_space p)
          else if size <? 0 then
            if old_brk_ceil >? new_brk_ceil then unmap (new_brk_ceil, old_brk_ceil) (address_space p)
            else mret (address_space p)
          else mret (address_space p));
    mret (Some old_brk, set_brk new_brk (set_space sp p)).

(** ** The kernel

    [PROCESSES] and the machine. *)
Record kernel := mkKernel { processes : list Process; mach : machine }.
Implicit Types (k : kernel).

Definition set_mach (s : machine) k : kernel := mkKernel (processes k) s.
Definition on_machine {A} (f : st machine A) : st kernel A := fun k =>
  '(a, s) ← f (mach k);
  Done (a, set_mach s k).
(** [PROCESSES.get_mut().get_mut(entity).unwrap()]. *)
Definition process_at (i : nat) : st kernel Process := fun k => p ← unwrap (processes k !! i); Done (p, k).
Definition put_process (i : nat) (p : Process) : st kernel unit := fun k => Done ((), mkKernel (<[i := p]> (processes k)) (mach k)).
(** [PROCESSES.get_mut().remove(0)]. *)
Definition remove_first : st kernel unit := fun k =>
  match processes k with
  | [] => Panic
  | _ :: ps => Done ((), mkKernel ps (mach k))
  end.

(** [address_space.translate(VAddr::new(addr), flags)] of the caller. *)
Definition user_ptr (i : nat) (addr : Z) (flags : Z) : st kernel (option Z) := fun k =>
  '(p, k) ← process_at i k;
  r ← translate addr flags (address_space p) (mc_mem (mach k));
  Done (r, k).
Definition mem_do (f : memory → memory) : st kernel unit := on_machine (mc_on_mem f).
Definition console (bs : list Z) : st kernel unit := fun k =>
  Done ((), set_mach (mkMachine (print_bytes bs (mc_world (mach k))) (mc_heap (mach k))) k).

Section Calls.
Variables (fuel : nat) (entity : nat).

Definition write (fd buf count : Z) : st kernel Z :=
  if (fd =? STDOUT) || (fd =? STDDEBUG) then
    ptr ← user_ptr entity buf (build_flags "RV");
    match ptr with
    | Some ptr =>
        k ← get_st;
        console (mem_read (mc_mem (mach k)) ptr (Z.to_nat count));;
        mret (as_isize count)
    | None => mret (-1)
    end
  else mret (-1).

Definition exit (status : Z) : st kernel Z := mret 0.
Definition sched_yield : st kernel Z := mret 0.

Definition sbrk (size : Z) : st kernel Z := fun k =>
  match processes k !! entity with
  | Some p =>
      ('(r, p) ← on_machine (change_program_brk fuel size p);
       put_process entity p;;
       mret match r with Some old_brk => as_isize old_brk | None => -1 end) k
  | None => Done (-1, k)
  end.

Definition clock_gettime (clock_id tp : Z) : st kernel Z :=
  if clock_id =? Tasks.CLOCK_MONOTONIC then
    ptr ← user_ptr entity tp (build_flags "W_V");
    match ptr with
    | Some ptr =>
        k ← get_st;
        ticks ← lift (usize_mul (w_time (mc_world (mach k))) 10000);
        let time := ticks / 125 in
        mem_do (mem_write ptr (Tasks.timespec_bytes (mkTimeSpec (time / 1000000000) (time mod 1000000000))));;
        mret 0
    | None => mret (-1)
    end
  else mret (-1).

Definition trace (trace_request id data : Z) : st kernel Z :=
  if trace_request =? 0 then
    ptr ← user_ptr entity id (build_flags "U__RV");
    match ptr with
    | Some ptr => k ← get_st; mret (mc_mem (mach k) ptr)
    | None => mret (-1)
    end
  else if trace_request =? 1 then
    ptr ← user_ptr entity id (build_flags "U_W_V");
    match ptr with
    | Some ptr => mem_do (mem_write ptr [as_u8 data]);; mret 0
    | None => mret (-1)
    end
  else if trace_request =? 2 then
    p ← process_at entity;
    n ← lift (unwrap (syscall_count p !! Z.to_nat id));
    mret (as_isize n)
  else mret (-1).

(** [addr.trailing_zeros() < PAGE_BITS]. *)
Definition unaligned (addr : Z) : bool := negb (Z.land addr PAGE_MASK =? 0).

Definition mmap (addr len prot flags fd offset : Z) : st kernel Z :=
  if unaligned addr then mret (-1)
  else if negb (Z.shiftr prot 3 =? 0) || (prot =? 0) then mret (-1)
  else
    p ← process_at entity;
    end_va ← lift (usize_add addr len);
    let flags := user_flags (Z.land (Z.shiftr prot 2) 1 =? 1) (Z.land (Z.shiftr prot 1) 1 =? 1) (Z.land prot 1 =? 1) in
    let range := (va_floor addr, va_ceil end_va) in
    if have_mapped range (address_space p) then mret (-1)
    else
      flags ← lift (unwrap (parse_flags flags));
      sp ← on_machine (map_anonymous fuel range flags (address_space p));
      put_process entity (set_space sp p);;
      mret 0.

Definition munmap (addr len : Z) : st kernel Z :=
  if unaligned addr then mret (-1)
  else
    p ← process_at entity;
    end_va ← lift (usize_add addr len);
    let range := (va_floor addr, va_ceil end_va) in
    if forallb (fun x => have_mapped (x, x + 1) (address_space p)) (seqZ range.1 (range.2 - range.1)) then
      sp ← on_machine (unmap range (address_space p));
      put_process entity (set_space sp p);;
      mret 0
    else mret (-1).
End Calls.

(** ** System calls *)
Definition SyscallContext_io : IOSys kernel :=
  mkIOSys _ (fun _ _ _ => unimplemented) (write 0) (fun _ _ => unimplemented) (fun _ => unimplemented)
    (fun _ _ _ _ _ => unimplemented) (fun _ => unimplemented) (fun _ _ _ => unimplemented) (fun _ _ => unimplemented).
Definition SyscallContext_process (fuel : nat) : ProcessSys kernel :=
  mkProcessSys _ exit unimplemented (fun _ _ => unimplemented) (fun _ _ => unimplemented) unimplemented
    (fun _ _ => unimplemented) (sbrk fuel 0).
Definition SyscallContext_scheduling : SchedulingSys kernel := mkSchedulingSys _ sched_yield (fun _ => unimplemented).
Definition SyscallContext_clock : ClockSys kernel := mkClockSys _ (clock_gettime 0).
Definition SyscallContext_memory (fuel : nat) : MemorySys kernel := mkMemorySys _ (mmap fuel 0) (munmap 0).
Definition SyscallContext_trace : TraceSys kernel := mkTraceSys _ (trace 0).
Definition registry (fuel : nat) : Registry kernel :=
  mkRegistry (Some (SyscallContext_process fuel)) (Some SyscallContext_io) (Some (SyscallContext_memory fuel))
    (Some SyscallContext_scheduling) (Some SyscallContext_clock) None None None (Some SyscallContext_trace).

(** The call of the first process. *)
Definition user_env_call (fuel : nat) : st kernel unit :=
  p ← process_at 0;
  let ctx := f_context (context p) in
  id ← lift (LocalContext_a 7 ctx);
  args ← lift (Batch.call_args ctx);
  n ← lift (unwrap (syscall_count p !! Z.to_nat id));
  n ← lift (usize_add n 1);
  put_process 0 (set_count (<[Z.to_nat id := n]> (syscall_count p)) p);;
  r ← handle (registry fuel) id (fun n => nth (Z.to_nat n) args 0);
  match r with
  | RDone ret =>
      if id =? EXIT then remove_first
      else
        p ← process_at 0;
        ctx ← lift (LocalContext_set_a 0 (as_usize ret) (f_context (context p)));
        put_process 0 (set_context (mkForeign (LocalContext_move_next ctx) (f_satp (context p))) p)
  | Unsupported _ => remove_first
  end.

(** ** Building the address spaces *)
Definition PROTAL_TRANSIT : Z := VPN_MAX.

Definition region_flags (title : KernelRegionTitle) : string :=
  match title with
  | Text => "X_RV"
  | Rodata => "__RV"
  | Data | Boot => "_WRV"
  end.
(** [for region in layout.iter()]. *)
Fixpoint map_regions (fuel : nat) (l : list KernelRegion) (sp : AddressSpace Sv39Manager) : st machine (AddressSpace Sv39Manager) :=
  match l with
  | [] => mret sp
  | region :: l' =>
      let s := va_floor (kr_start region) in
      sp ← map_extern fuel (s, va_ceil (kr_end region)) s (build_flags (region_flags (kr_title region))) sp;
      map_regions fuel l' sp
  end.

(** The address space of the kernel, before it is put into [satp]. *)
Definition kernel_space (fuel : nat) (layout : KernelLayout) (memory portal : Z) : st machine (AddressSpace Sv39Manager) :=
  sp ← AddressSpace_new;
  sp ← map_regions fuel (kernel_regions layout) sp;
  top ← lift (usize_add (KernelLayout_start layout) memory);
  let s := va_floor (KernelLayout_end layout) in
  sp ← map_extern fuel (s, va_ceil top) s (build_flags "_WRV") sp;
  map_extern fuel (PROTAL_TRANSIT, PROTAL_TRANSIT + 1) (Z.shiftr portal 12) (build_flags "__G_XWRV") sp.

(** [process.address_space.root()[portal_idx] = ks.root()[portal_idx]]. *)
Definition share_portal (ks sp : AddressSpace Sv39Manager) : st machine unit :=
  let portal_idx := vpn_index_in PROTAL_TRANSIT 2 in
  mc_on_mem (fun m => write_word (AddressSpace_root sp + 8 * portal_idx) (read_word m (AddressSpace_root ks + 8 * portal_idx)) m).

(** The loop of [rust_main] over the applications; [parse] is [ElfFile::new], [rounds] bounds their number. *)
Fixpoint load_processes (rounds fuel : nat) (parse : list Z → option ElfFile) (ks : AddressSpace Sv39Manager)
    (it : AppIterator) : st kernel unit :=
  match rounds with
  | O => lift Hang
  | S rounds' =>
      '(app, it) ← on_machine (fun s => '(r, w) ← on_mem (AppIterator_next it) (mc_world s); Done (r, mkMachine w (mc_heap s)));
      match app with
      | None => mret ()
      | Some (base, size) =>
          k ← get_st;
          elf ← lift (unwrap (parse (mem_read (mc_mem (mach k)) base (Z.to_nat size))));
          process ← on_machine (Process_new fuel elf);
          match process with
          | Some process =>
              on_machine (share_portal ks (address_space process));;
              k ← get_st;
              put_st (mkKernel (processes k ++ [process]) (mach k));;
              load_processes rounds' fuel parse ks it
          | None => load_processes rounds' fuel parse ks it
          end
      end
  end.

Section Loop.
(** A process runs in user mode until its next trap. *)
Variable run : ForeignContext → machine → ForeignContext * machine * Batch.Trap.

(** [ctx.execute(portal, ())]. *)
Definition execute : st kernel Batch.Trap := fun k =>
  '(p, k) ← process_at 0 k;
  let '(c, s, cause) := run (context p) (mach k) in
  Done (cause, mkKernel (<[0%nat := set_context c p]> (processes k)) s).

(** [while !PROCESSES.is_empty()]. *)
Fixpoint schedule (rounds fuel : nat) : st kernel unit :=
  match rounds with
  | O => lift Hang
  | S rounds' => fun k =>
      match processes k with
      | [] => Done ((), k)
      | _ =>
          (cause ← execute;
           match cause with
           | Batch.UserEnvCall => user_env_call fuel;; schedule rounds' fuel
           | Batch.OtherTrap => remove_first;; schedule rounds' fuel
           end) k
      end
  end.

Definition MEMORY : Z := Z.shiftl 24 20.

(** From the cleared sections on, with the heap as [kernel_alloc::transfer] leaves it; [text_len] is the length of the
    portal's code. *)
Definition rust_main (rounds fuel : nat) (parse : list Z → option ElfFile) (layout : KernelLayout) (text_len : Z) (meta : AppMeta) :
    st kernel unit :=
  on_machine (fun s =>
    '(_, w) ← on_mem (KernelLayout_zero_bss (Z.to_nat (kl_ebss layout - kl_sbss layout)) layout) (mc_world s);
    Done ((), mkMachine w (mc_heap s)));;
  let portal_size := MultislotPortal_calculate_size text_len 1 in
  portal_ptr ← on_machine (Global_alloc portal_size (Z.shiftl 1 12));
  _ ← lift (rassert (portal_size <? Z.shiftl 1 12));
  ks ← on_machine (kernel_space fuel layout MEMORY portal_ptr);
  load_processes (S (Z.to_nat (am_count meta))) fuel parse ks (AppMeta_iter meta);;
  stack ← on_machine (Global_alloc (Z.shiftl 2 12) (Z.shiftl 1 12));
  _ ← on_machine (map_extern fuel (Z.shiftl 1 26 - 2, Z.shiftl 1 26) (Z.shiftr stack 12) (build_flags "_WRV") ks);
  schedule rounds fuel.
End Loop.
End Kernel.
End Vm.
