(* ===== verification/VmTheorems.v ===== *)
(** * The memory calls and the isolation of processes

    The invariant of the kernel with address spaces (VmKernel.v): every process has a well-formed space, and no page,
    table or frame belongs to two.  A call that works on the space of one process keeps it and does not change a byte of
    another ([VmInv]).  What [mmap], [munmap] and [sbrk] do to the process that calls them, and that they do nothing to the
    others; errors included ([VmCalls]). *)

From Stdlib Require Import Ascii String.
From stdpp Require Import strings.
From S2P Require Import Prelude Bytes Memory PageTable AddressSpace SpaceTree SpaceMap SpaceInvariant PageManager VmKernel.

Module VmInv.
Import Vm.
Section Isolation.
Context `{PTC : PageTableCrate, HL : !HeapLaws, PTL : !PageTableLaws}.
Implicit Types (k : kernel) (T U : gmap (list Z) Z) (p q : Process).

(** The root entry shared with the kernel. *)
Definition portal (i : Z) : Prop := i = 511.

Lemma user_page w : 0 ≤ w < 2 ^ 26 → is_vpn w ∧ ¬ portal (sv39_index w 2).
Proof.
  intros Hw. assert (is_vpn w) as Hv by (unfold is_vpn; lia). split; [done|]. rewrite index_2 by done. unfold portal.
  assert (w / 262144 < 256) by (apply Z.div_lt_upper_bound; lia). lia.
Qed.

(** ** Flags *)
Definition user_bits (x w r : bool) : Z := 17 + (if x then 8 else 0) + (if w then 4 else 0) + (if r then 2 else 0).

Lemma parse_user_flags x w r : parse_flags (user_flags x w r) = Some (user_bits x w r).
Proof. apply parse_flags_spec. by destruct x, w, r. Qed.

Lemma user_bits_ok x w r : flags_ok (user_bits x w r).
Proof. by destruct x, w, r. Qed.

Lemma heap_flags : build_flags "U_WRV" = user_bits false true true.
Proof. unfold build_flags. by rewrite (parse_flags_spec _ 23) by reflexivity. Qed.

(** ** The invariant *)
Record kinv k (Ts : list (gmap (list Z) Z)) : Prop := {
  ki_len : length Ts = length (processes k);
  ki_space i p T : processes k !! i = Some p → Ts !! i = Some T → space_inv portal (mach k) (address_space p) T;
  ki_apart i j p q T U x : i ≠ j → processes k !! i = Some p → processes k !! j = Some q → Ts !! i = Some T → Ts !! j = Some U →
    uses (mach k) (address_space p) T x → ¬ uses (mach k) (address_space q) U x;
}.

(** Process [j] of [k] is, in [k'], the same process with the same mapping and the same bytes in its pages. *)
Definition untouched k k' (Ts : list (gmap (list Z) Z)) (j : nat) : Prop := ∀ q U, processes k !! j = Some q → Ts !! j = Some U →
  processes k' !! j = Some q ∧ (∀ w, mapping (mc_mem (mach k')) U w = mapping (mc_mem (mach k)) U w) ∧
  ∀ x, uses (mach k) (address_space q) U (x / page_size) → mc_mem (mach k') x = mc_mem (mach k) x.

(** The space of process [i] became [sp'] with tables [T']. *)
Lemma kinv_step k Ts i p T p' T' s' : kinv k Ts → processes k !! i = Some p → Ts !! i = Some T →
  space_inv portal s' (address_space p') T' → kept T (mach k) T' s' →
  (∀ x, uses s' (address_space p') T' x → uses (mach k) (address_space p) T x ∨ ¬ page_used (mc_heap (mach k)) x) →
  kinv (mkKernel (<[i := p']> (processes k)) s') (<[i := T']> Ts) ∧
  ∀ j, j ≠ i → untouched k (mkKernel (<[i := p']> (processes k)) s') Ts j.
Proof.
  intros [Hlen Hsp Hap] Hp HT Hinv' K Huses.
  assert (∀ j q U, j ≠ i → processes k !! j = Some q → Ts !! j = Some U →
    space_inv portal s' (address_space q) U ∧ (∀ w, mapping (mc_mem s') U w = mapping (mc_mem (mach k)) U w)) as Hoth.
  { intros j q U Hne Hq HU. destruct (kept_other portal _ _ _ _ (address_space q) U K) as (H1 & _ & H2); [|by eapply Hsp|done].
    intros a b x Ha Hb. apply (Hap i j p q T U x); [congruence|done..|left; by exists a|left; by exists b]. }
  assert (∀ j q U x, j ≠ i → processes k !! j = Some q → Ts !! j = Some U →
    uses s' (address_space q) U x → uses (mach k) (address_space q) U x) as Hback.
  { intros j q U x Hne Hq HU [Ha|(w & pte & Hin & Hm & Hx)]; [by left|right]. exists w, pte.
    destruct (Hoth j q U Hne Hq HU) as [_ E]. by rewrite E in Hm. }
  assert (∀ j q U x, j ≠ i → processes k !! j = Some q → Ts !! j = Some U →
    uses s' (address_space p') T' x → ¬ uses s' (address_space q) U x) as Hnew.
  { intros j q U x Hne Hq HU Hx Hy. apply (Hback j) in Hy; [|done..]. destruct (Huses x Hx) as [Hx'|Hn].
    - by apply (Hap i j p q T U x).
    - apply Hn. eapply uses_used; [|done]. by eapply Hsp. }
  assert (i < length (processes k))%nat as Hi by (by eapply lookup_lt_Some).
  assert (i < length Ts)%nat as HiT by lia.
  split.
  - split; simpl.
    + by rewrite !length_insert.
    + intros j q U. destruct (decide (j = i)) as [->|Hne].
      * rewrite !list_lookup_insert_eq by done. intros [= <-] [= <-]. done.
      * rewrite !list_lookup_insert_ne by done. intros Hq HU. by apply (Hoth j).
    + intros j l q r U V x Hjl. destruct (decide (j = i)) as [->|Hj], (decide (l = i)) as [->|Hl]; [done|..];
        rewrite ?list_lookup_insert_eq by done; rewrite ?list_lookup_insert_ne by done.
      * intros [= <-] Hr [= <-] HV. by apply (Hnew l).
      * intros Hq [= <-] HU [= <-] Hx Hy. by apply (Hnew j q U x).
      * intros Hq Hr HU HV Hx Hy. apply (Hap j l q r U V x); [done..|by apply (Hback j)|by apply (Hback l)].
  - intros j Hj q U Hq HU. simpl. rewrite list_lookup_insert_ne by done. destruct (Hoth j q U Hj Hq HU) as [_ E].
    split_and!; [done|done|]. intros x Hx. apply (kp_mem _ _ _ _ K).
    + eapply uses_used; [|done]. by eapply Hsp.
    + intros a Ha. apply (Hap i j p q T U (x / page_size)); [congruence|done..|left; by exists a|done].
Qed.
End Isolation.
End VmInv.

Module VmCalls.
Import Vm VmInv.
Section Calls.
Context `{PTC : PageTableCrate, HL : !HeapLaws, PTL : !PageTableLaws}.
Implicit Types (k : kernel) (T : gmap (list Z) Z) (p : Process).

Lemma process_at_run k i p : processes k !! i = Some p → process_at i k = Done (p, k).
Proof. intros Hp. unfold process_at. by rewrite Hp. Qed.

Lemma on_machine_run {A} (f : st machine A) a s k : f (mach k) = Done (a, s) → on_machine f k = Done (a, set_mach s k).
Proof. unfold on_machine. by intros ->. Qed.

Lemma unaligned_spec addr : 0 ≤ addr → unaligned addr = negb (addr mod page_size =? 0).
Proof. intros Ha. unfold unaligned, PAGE_MASK. change (Z.shiftl 1 12 - 1) with (Z.ones 12). by rewrite Z.land_ones. Qed.

Lemma prot_spec prot : negb (Z.shiftr prot 3 =? 0) || (prot =? 0) = negb (bool_decide (1 ≤ prot ≤ 7)).
Proof.
  rewrite Z.shiftr_div_pow2 by done. change (2 ^ 3) with 8. pose proof (Z.div_mod prot 8 ltac:(done)).
  pose proof (Z.mod_pos_bound prot 8 ltac:(done)). case_bool_decide; simpl.
  - rewrite (proj2 (Z.eqb_eq (prot / 8) 0)) by lia. by rewrite (proj2 (Z.eqb_neq prot 0)) by lia.
  - destruct (prot / 8 =? 0) eqn:E1, (prot =? 0) eqn:E2; simpl; try done.
    apply Z.eqb_eq in E1. apply Z.eqb_neq in E2. lia.
Qed.

(** The pages of [len] bytes at an aligned address. *)
Definition page_range (addr len : Z) : Z * Z := (addr / page_size, div_ceil (addr + len) page_size).

(** Their number. *)
Definition range_pages (r : Z * Z) : Z := r.2 - r.1.

Lemma page_range_ok addr len : 0 ≤ addr → 0 ≤ len → addr + len < 2 ^ 38 →
  0 ≤ (page_range addr len).1 ∧ (page_range addr len).1 ≤ (page_range addr len).2 ∧ (page_range addr len).2 ≤ 2 ^ 26 ∧
  (0 < len → (page_range addr len).1 < (page_range addr len).2) ∧
  (page_range addr len).2 - (page_range addr len).1 ≤ len / page_size + 2.
Proof.
  intros Ha Hl Hs. simpl. pose proof (div_ceil_bounds (addr + len) page_size ltac:(done)).
  pose proof (Z.div_mod addr page_size ltac:(done)). pose proof (Z.mod_pos_bound addr page_size ltac:(done)).
  pose proof (Z.div_mod len page_size ltac:(done)). pose proof (Z.mod_pos_bound len page_size ltac:(done)).
  unfold page_size in *. lia.
Qed.

Lemma range_eq addr len : 0 ≤ addr → 0 ≤ len → addr + len < 2 ^ 38 →
  (va_floor addr, va_ceil (addr + len)) = page_range addr len.
Proof. intros. unfold page_range. rewrite va_floor_spec, va_ceil_spec by lia. done. Qed.

(** The protection bits asked for. *)
Definition prot_bits (prot : Z) : Z :=
  user_bits (Z.land (Z.shiftr prot 2) 1 =? 1) (Z.land (Z.shiftr prot 1) 1 =? 1) (Z.land prot 1 =? 1).

Definition same_heap p p' : Prop := heap_bottom p' = heap_bottom p ∧ program_brk p' = program_brk p.

(** ** [mmap] *)

(** [k'] is [k] after process [i] got the pages of [range], zeroed, with [flags]. *)
Definition got_pages k Ts i T range flags k' T' : Prop := ∃ frame,
  kinv k' (<[i := T']> Ts) ∧ (∀ j, j ≠ i → untouched k k' Ts j) ∧
  (∀ w, is_vpn w → mapping (mc_mem (mach k')) T' w =
     add_run range.1 frame (range.2 - range.1) flags (mapping (mc_mem (mach k)) T) w) ∧
  (∀ x, frame ≤ x < frame + (range.2 - range.1) → ¬ page_used (mc_heap (mach k)) x) ∧
  filled frame (fun _ => 0) (range.2 - range.1) (mach k').

(** A range added to the space of process [i]. *)
Lemma added_step k Ts i p T range flags frame s' T' p' : kinv k Ts → processes k !! i = Some p → Ts !! i = Some T →
  range_ok range → range.2 ≤ 2 ^ 26 → flags_ok flags → have_mapped range (address_space p) = false →
  0 < frame → frame + (range.2 - range.1) ≤ 2 ^ 26 → (∀ x, frame ≤ x < frame + (range.2 - range.1) → ¬ page_used (mc_heap (mach k)) x) →
  added portal (mach k) (address_space p) T range frame flags s' T' → filled frame (fun _ => 0) (range.2 - range.1) s' →
  address_space p' = mkSpace (areas (address_space p) ++ [range]) (page_manager (address_space p)) →
  got_pages k Ts i T range flags (mkKernel (<[i := p']> (processes k)) s') T'.
Proof.
  intros Hk Hp HT Hr Hr2 Hfl Hfree Hf1 Hf2 Hfr Had Hfill Hp'. pose proof (ki_space _ _ Hk i p T Hp HT) as Hinv.
  assert (∀ w, inside w range → ¬ portal (sv39_index w 2)) as HF.
  { intros w Hw. apply user_page. unfold inside in Hw. destruct Hr as (? & _). lia. }
  destruct (kinv_step k Ts i p T p' T' s' Hk Hp HT) as [Hk' Hoth].
  { rewrite Hp'. by eapply added_inv. }
  { apply Had. }
  { intros x. rewrite Hp'. by eapply added_uses. }
  exists frame. split_and!; [done|done|apply Had|done|done].
Qed.

Lemma mmap_run fuel k Ts i p T addr len prot fl fd off : kinv k Ts → processes k !! i = Some p → Ts !! i = Some T →
  0 ≤ addr → 0 < len → addr + len < 2 ^ 38 → len / page_size + 2 ≤ Z.of_nat fuel →
  if decide (addr mod page_size = 0 ∧ 1 ≤ prot ≤ 7 ∧ have_mapped (page_range addr len) (address_space p) = false) then
    (mmap fuel i addr len prot fl fd off k = Panic ∧ exhausted (M := Sv39Manager) (3 * range_pages (page_range addr len)) (mach k)) ∨
    ∃ k' T' p', mmap fuel i addr len prot fl fd off k = Done (0, k') ∧ processes k' = <[i := p']> (processes k) ∧
      same_heap p p' ∧ areas (address_space p') = areas (address_space p) ++ [page_range addr len] ∧
      got_pages k Ts i T (page_range addr len) (Z.lor (prot_bits prot) OWNED) k' T'
  else mmap fuel i addr len prot fl fd off k = Done (-1, k).
Proof.
  intros Hk Hp HT Ha Hl Hs Hfuel. unfold mmap. rewrite unaligned_spec, prot_spec by done.
  destruct (page_range_ok addr len Ha ltac:(lia) Hs) as (R1 & R2 & R3 & R4 & R5). specialize (R4 Hl).
  destruct (decide (addr mod page_size = 0)) as [Hal|Hal].
  2: { rewrite decide_False by tauto. by rewrite (proj2 (Z.eqb_neq _ _)) by done. }
  rewrite (proj2 (Z.eqb_eq _ _)) by done. cbn [negb]. case_bool_decide as Hpr; cbn [negb].
  2: { by rewrite decide_False by tauto. }
  rewrite (st_bind_run _ _ _ _ _ (process_at_run k i p Hp)).
  assert (usize_add addr len = Done (addr + len)) as Hadd by (apply checked_ok; unfold usize_max; lia).
  rewrite (st_bind_run _ _ _ _ _ (lift_run _ _ _ Hadd)), range_eq by lia.
  destruct (have_mapped (page_range addr len) (address_space p)) eqn:Hfree.
  { by rewrite decide_False by (intros (_ & _ & ?); done). }
  rewrite decide_True by done. rewrite parse_user_flags. fold (prot_bits prot).
  rewrite (st_bind_run _ _ _ _ _ (lift_run (unwrap (Some (prot_bits prot))) _ _ eq_refl)).
  pose proof (ki_space _ _ Hk i p T Hp HT) as Hinv.
  assert (range_ok (page_range addr len)) as Hr by (split_and!; lia).
  destruct (map_anonymous_run portal fuel (page_range addr len) (prot_bits prot) (address_space p) (mach k) T)
    as [[Hpn He]|(f & s' & T' & Hrun & Hf1 & Hf2 & Hfr & Had & _ & Hfill)];
    [apply Hinv|apply Hinv|done|apply user_bits_ok|lia| |left|right].
  { eapply free_range; [done|done| |done]. intros w Hw. apply user_page. unfold inside in Hw. lia. }
  { unfold mbind, st_bind, on_machine. rewrite Hpn. done. }
  rewrite (st_bind_run _ _ _ _ _ (on_machine_run _ _ _ _ Hrun)).
  set (p' := set_space (mkSpace (areas (address_space p) ++ [page_range addr len]) (page_manager (address_space p))) p).
  exists (mkKernel (<[i := p']> (processes k)) s'), T', p'. split; [reflexivity|]. split_and!; [done|done|done|]. eapply added_step; [done|done|done|done|lia|exact (lor_flags_ok (M := Sv39Manager) (prot_bits prot) (user_bits_ok _ _ _))|done..].
Qed.

(** ** [munmap] *)
Lemma mapped_page F s sp T w : space_inv (M := Sv39Manager) F s sp T → is_vpn w → ¬ F (sv39_index w 2) →
  have_mapped (w, w + 1) sp = true ↔ mapping (mc_mem s) T w ≠ None.
Proof.
  intros Hinv Hv HF. rewrite <-not_false_iff_true, have_mapped_spec. split.
  - intros Hn E. apply Hn. apply Forall_forall. intros ar Har.
    destruct (decide (disjoint_ranges (w, w + 1) ar)) as [|Hin]; [done|exfalso].
    destruct (si_run _ _ _ _ Hinv ar Har) as (f & q & _ & _ & _ & Hrun).
    destruct (Hrun w) as [Hm _]; [unfold disjoint_ranges, inside in *; simpl in *; lia|]. congruence.
  - intros Hm Hall. destruct (si_only _ _ _ _ Hinv w Hv HF Hm) as (ar & Har & Hin). rewrite Forall_forall in Hall.
    specialize (Hall ar Har). unfold disjoint_ranges, inside in *. simpl in *. lia.
Qed.

(** [k'] is [k] after process [i] lost the pages of [range]. *)
Definition lost_pages k Ts i T range k' : Prop :=
  kinv k' Ts ∧ (∀ j, j ≠ i → untouched k k' Ts j) ∧
  ∀ w, is_vpn w → mapping (mc_mem (mach k')) T w = drop_run range.1 (range.2 - range.1) (mapping (mc_mem (mach k)) T) w.

Lemma unmap_step k Ts i p T range : kinv k Ts → processes k !! i = Some p → Ts !! i = Some T →
  0 ≤ range.1 ≤ range.2 → range.2 ≤ 2 ^ 26 →
  ∃ sp' s', unmap range (address_space p) (mach k) = Done (sp', s') ∧ areas sp' = concat (cut_area range <$> areas (address_space p)) ∧
    ∀ p', address_space p' = sp' → lost_pages k Ts i T range (mkKernel (<[i := p']> (processes k)) s').
Proof.
  intros Hk Hp HT Hr Hr2. pose proof (ki_space _ _ Hk i p T Hp HT) as Hinv.
  destruct (unmap_inv portal range (address_space p) (mach k) T Hinv Hr ltac:(lia)) as (s' & Hrun & Hinv' & K & Hm).
  { intros w Hw. apply user_page. unfold inside in Hw. lia. }
  eexists _, s'. split_and!; [done|done|]. intros p' Hp'.
  destruct (kinv_step k Ts i p T p' T s' Hk Hp HT) as [Hk' Hoth]; [by rewrite Hp'|done| |].
  { intros x Hx. left. rewrite Hp' in Hx. by eapply unmap_uses. }
  rewrite (list_insert_id Ts i T HT) in Hk'. done.
Qed.

Lemma munmap_run k Ts i p T addr len : kinv k Ts → processes k !! i = Some p → Ts !! i = Some T →
  0 ≤ addr → 0 ≤ len → addr + len < 2 ^ 38 →
  let all_mapped := ∀ w, inside w (page_range addr len) → mapping (mc_mem (mach k)) T w ≠ None in
  (addr mod page_size = 0 ∧ all_mapped → ∃ k' p', munmap i addr len k = Done (0, k') ∧ processes k' = <[i := p']> (processes k) ∧
     same_heap p p' ∧ areas (address_space p') = concat (cut_area (page_range addr len) <$> areas (address_space p)) ∧
     lost_pages k Ts i T (page_range addr len) k') ∧
  (¬ (addr mod page_size = 0 ∧ all_mapped) → munmap i addr len k = Done (-1, k)).
Proof.
  intros Hk Hp HT Ha Hl Hs all_mapped. unfold munmap. rewrite unaligned_spec by done.
  destruct (page_range_ok addr len Ha Hl Hs) as (R1 & R2 & R3 & _).
  destruct (decide (addr mod page_size = 0)) as [Hal|Hal].
  2: { rewrite (proj2 (Z.eqb_neq _ _)) by done. split; [tauto|done]. }
  rewrite (proj2 (Z.eqb_eq _ _)) by done. cbn [negb]. rewrite (st_bind_run _ _ _ _ _ (process_at_run k i p Hp)).
  assert (usize_add addr len = Done (addr + len)) as Hadd by (apply checked_ok; unfold usize_max; lia).
  rewrite (st_bind_run _ _ _ _ _ (lift_run _ _ _ Hadd)), range_eq by lia.
  pose proof (ki_space _ _ Hk i p T Hp HT) as Hinv.
  destruct (forallb _ _) eqn:E.
  - assert (all_mapped) as Hall.
    { intros w Hw. rewrite forallb_forall in E. apply (mapped_page portal (mach k) (address_space p)); [done|..].
      1,2: apply user_page; unfold inside in Hw; lia. apply E. apply list_elem_of_In, elem_of_seqZ. unfold inside in Hw. lia. }
    split; [|tauto]. intros _.
    destruct (unmap_step k Ts i p T (page_range addr len) Hk Hp HT) as (sp' & s' & Hrun & Har & Hst); [lia|done|].
    rewrite (st_bind_run _ _ _ _ _ (on_machine_run _ _ _ _ Hrun)). 
    exists (mkKernel (<[i := set_space sp' p]> (processes k)) s'), (set_space sp' p). split; [reflexivity|].
    split_and!; [done|done|done|by apply Hst].
  - split; [|done]. intros [_ Hall]. exfalso. apply not_true_iff_false in E. apply E. apply forallb_forall.
    intros w Hw%list_elem_of_In%elem_of_seqZ. apply (mapped_page portal (mach k) (address_space p) T); [done|..].
    1,2: apply user_page; lia. apply Hall. unfold inside. lia.
Qed.

(** ** [sbrk] *)

(** The break of a process, and its heap: every page from the bottom to the break is mapped. *)
Definition brk_ok p : Prop := 0 ≤ heap_bottom p ≤ program_brk p ∧ program_brk p < 2 ^ 38.
Definition heap_mapped k p T : Prop := ∀ w,
  heap_bottom p / page_size ≤ w < div_ceil (program_brk p) page_size → mapping (mc_mem (mach k)) T w ≠ None.

Lemma same_space_step k Ts i p T p' : kinv k Ts → processes k !! i = Some p → Ts !! i = Some T → address_space p' = address_space p →
  kinv (mkKernel (<[i := p']> (processes k)) (mach k)) Ts ∧
  ∀ j, j ≠ i → untouched k (mkKernel (<[i := p']> (processes k)) (mach k)) Ts j.
Proof.
  intros Hk Hp HT Hp'. destruct (kinv_step k Ts i p T p' T (mach k) Hk Hp HT) as [Hk' Hoth];
    [rewrite Hp'; by eapply ki_space|apply kept_refl|rewrite Hp'; by left|]. by rewrite (list_insert_id Ts i T HT) in Hk'.
Qed.

Lemma got_none k Ts i p T p' v flags : kinv k Ts → processes k !! i = Some p → Ts !! i = Some T → address_space p' = address_space p →
  got_pages k Ts i T (v, v) flags (mkKernel (<[i := p']> (processes k)) (mach k)) T.
Proof.
  intros Hk Hp HT Hp'. destruct (same_space_step k Ts i p T p' Hk Hp HT Hp') as [Hk' Hoth]. exists 0.
  rewrite (list_insert_id Ts i T HT). split_and!; [done|done| |simpl; lia|intros x; simpl; lia].
  intros w _. unfold add_run. simpl. by rewrite decide_False by lia.
Qed.

Lemma lost_none k Ts i p T p' v : kinv k Ts → processes k !! i = Some p → Ts !! i = Some T → address_space p' = address_space p →
  lost_pages k Ts i T (v, v) (mkKernel (<[i := p']> (processes k)) (mach k)).
Proof.
  intros Hk Hp HT Hp'. destruct (same_space_step k Ts i p T p' Hk Hp HT Hp') as [Hk' Hoth].
  split_and!; [done|done|]. intros w _. unfold drop_run. simpl. by rewrite decide_False by lia.
Qed.

(** What [sbrk] makes of the answer of [change_program_brk]. *)
Lemma sbrk_eq fuel i size k p r p' s' : processes k !! i = Some p → change_program_brk fuel size p (mach k) = Done ((r, p'), s') →
  sbrk fuel i size k = Done (match r with Some old => as_isize old | None => -1 end, mkKernel (<[i := p']> (processes k)) s').
Proof.
  intros Hp Hc. unfold sbrk. rewrite Hp. by rewrite (st_bind_run _ _ _ _ _ (on_machine_run _ _ _ _ Hc)).
Qed.

Lemma ceil_mono a b : a ≤ b → div_ceil a page_size ≤ div_ceil b page_size.
Proof. intros Hab. rewrite !div_ceil_eq by done. apply Z.div_le_mono; [done|lia]. Qed.

Lemma ceil_range a : 0 ≤ a < 2 ^ 38 → 0 ≤ div_ceil a page_size ≤ 2 ^ 26.
Proof. intros Ha. pose proof (div_ceil_bounds a page_size ltac:(done)). unfold page_size in *. lia. Qed.

Section Sbrk.
Variables (fuel : nat) (k : kernel) (Ts : list (gmap (list Z) Z)) (i : nat) (p : Process) (T : gmap (list Z) Z) (size : Z).
Hypothesis Hk : kinv k Ts.
Hypothesis Hp : processes k !! i = Some p.
Hypothesis HT : Ts !! i = Some T.
Hypothesis Hheap : brk_ok p.
Hypothesis Hsize : - 2 ^ 31 ≤ size < 2 ^ 31.
Let new_brk := program_brk p + size.
Let old_ceil := div_ceil (program_brk p) page_size.
Let new_ceil := div_ceil new_brk page_size.

Lemma brk_start : as_isize (program_brk p) = program_brk p ∧ as_isize (heap_bottom p) = heap_bottom p ∧
  isize_add (program_brk p) size = Done new_brk.
Proof.
  destruct Hheap as [H1 H2]. rewrite !as_isize_small by lia. split_and!; [done..|].
  apply checked_ok. unfold isize_min, isize_max. lia.
Qed.

Lemma sbrk_refused : new_brk < heap_bottom p → sbrk fuel i size k = Done (-1, k).
Proof.
  intros Hlow. destruct brk_start as (E1 & E2 & E3). rewrite (sbrk_eq fuel i size k p None p (mach k) Hp).
  - rewrite list_insert_id by done. by destruct k.
  - unfold change_program_brk. rewrite E1, E2. rewrite (st_bind_run _ _ _ _ _ (lift_run _ _ _ E3)).
    by rewrite (proj2 (Z.ltb_lt _ _)) by done.
Qed.

(** [change_program_brk] past its check. *)
Lemma brk_change : heap_bottom p ≤ new_brk < 2 ^ 38 → change_program_brk fuel size p (mach k) =
  (sp ← (if size >? 0 then
           if new_ceil >? old_ceil then AddressSpace_map fuel (old_ceil, new_ceil) [] 0 (user_bits false true true) (address_space p)
           else mret (address_space p)
         else if size <? 0 then
           if old_ceil >? new_ceil then unmap (new_ceil, old_ceil) (address_space p) else mret (address_space p)
         else mret (address_space p));
   mret (Some (program_brk p), set_brk new_brk (set_space sp p))) (mach k).
Proof.
  intros Hnew. destruct brk_start as (E1 & E2 & E3). destruct Hheap as [H1 H2]. unfold change_program_brk.
  rewrite E1, E2. rewrite (st_bind_run _ _ _ _ _ (lift_run _ _ _ E3)). rewrite (proj2 (Z.ltb_ge _ _)) by lia.
  unfold as_usize. rewrite (Z.mod_small new_brk) by lia. rewrite !va_ceil_spec by lia. by rewrite heap_flags.
Qed.

(** The heap after it grew, or not. *)
Lemma heap_grown k' T' p' flags : heap_bottom p' = heap_bottom p → program_brk p' = new_brk → 0 < size → new_brk < 2 ^ 38 →
  got_pages k Ts i T (old_ceil, new_ceil) flags k' T' → heap_mapped k p T → heap_mapped k' p' T'.
Proof.
  intros Hb Hbrk Hpos Hnew (frame & _ & _ & Hm & _ & _) Hh w. rewrite Hb, Hbrk. fold new_ceil. intros Hw. destruct Hheap as [H1 H2].
  pose proof (ceil_range new_brk ltac:(unfold new_brk in *; lia)).
  pose proof (Z.div_pos (heap_bottom p) page_size ltac:(lia) ltac:(done)).
  rewrite Hm by (unfold is_vpn, new_ceil in *; lia). unfold add_run. simpl. case_decide; [done|]. apply Hh. unfold old_ceil in *. lia.
Qed.

Lemma sbrk_grow : 0 < size → new_brk < 2 ^ 38 →
  (old_ceil < new_ceil → have_mapped (old_ceil, new_ceil) (address_space p) = false) →
  new_ceil - old_ceil ≤ Z.of_nat fuel →
  (sbrk fuel i size k = Panic ∧ exhausted (M := Sv39Manager) (3 * (new_ceil - old_ceil)) (mach k)) ∨
  ∃ k' T' p', sbrk fuel i size k = Done (program_brk p, k') ∧ processes k' = <[i := p']> (processes k) ∧
    program_brk p' = new_brk ∧ heap_bottom p' = heap_bottom p ∧ (heap_mapped k p T → heap_mapped k' p' T') ∧
    got_pages k Ts i T (old_ceil, new_ceil) (Z.lor (user_bits false true true) OWNED) k' T'.
Proof.
  intros Hpos Hnew Hfree Hfuel. pose proof Hheap as [H1 H2]. assert (heap_bottom p ≤ new_brk < 2 ^ 38) as Hn by (unfold new_brk in *; lia).
  pose proof (brk_change Hn) as Hc. rewrite (proj2 (Z.gtb_lt size 0)) in Hc by done.
  pose proof (ceil_mono (program_brk p) new_brk ltac:(unfold new_brk; lia)) as Hmono. fold old_ceil new_ceil in Hmono.
  pose proof (ceil_range (program_brk p) ltac:(lia)) as Ro. pose proof (ceil_range new_brk ltac:(lia)) as Rn. fold old_ceil in Ro. fold new_ceil in Rn.
  destruct (new_ceil >? old_ceil) eqn:E; [apply Z.gtb_lt in E|rewrite Z.gtb_ltb in E; apply Z.ltb_ge in E].
  - specialize (Hfree E). assert (range_ok (old_ceil, new_ceil)) as Hr by (split_and!; simpl; lia). pose proof (ki_space _ _ Hk i p T Hp HT) as Hinv.
    destruct (map_run portal fuel (old_ceil, new_ceil) [] 0 (user_bits false true true) (address_space p) (mach k) T)
      as [[Hpn He]|(f & s' & T' & Hrun & Hf1 & Hf2 & Hfr & Had & _ & Hfill)];
      [apply Hinv|apply Hinv|done|apply user_bits_ok|done|simpl; unfold page_size; lia|done| |left|right].
    { eapply free_range; [done|done| |done]. intros w Hw. apply user_page. unfold inside in Hw. simpl in Hw. lia. }
    { unfold sbrk. rewrite Hp. unfold mbind, st_bind, on_machine. rewrite Hc. unfold mbind, st_bind. by rewrite Hpn. }
    rewrite (st_bind_run _ _ _ _ _ Hrun) in Hc. set (p' := set_brk new_brk _) in Hc.
    assert (got_pages k Ts i T (old_ceil, new_ceil) (Z.lor (user_bits false true true) OWNED) (mkKernel (<[i := p']> (processes k)) s') T') as Hgot.
    { eapply added_step; [done|done|done|done|simpl; lia|exact (lor_flags_ok (M := Sv39Manager) _ (user_bits_ok false true true))|done..| |done].
      intros x Hx. rewrite Hfill by done. unfold loaded. by destruct (decide _). }
    exists (mkKernel (<[i := p']> (processes k)) s'), T', p'. split_and!; [|done|done|done|by eapply heap_grown|done].
    rewrite (sbrk_eq _ _ _ _ _ _ _ _ Hp Hc). by rewrite as_isize_small by lia.
  - right. set (p' := set_brk new_brk (set_space (address_space p) p)).
    assert (got_pages k Ts i T (old_ceil, new_ceil) (Z.lor (user_bits false true true) OWNED) (mkKernel (<[i := p']> (processes k)) (mach k)) T) as Hgot.
    { assert (new_ceil = old_ceil) as -> by lia. by eapply got_none. }
    exists (mkKernel (<[i := p']> (processes k)) (mach k)), T, p'. split_and!; [|done|done|done|by eapply heap_grown|done].
    rewrite (sbrk_eq _ _ _ _ _ _ _ _ Hp Hc). by rewrite as_isize_small by lia.
Qed.

Lemma sbrk_shrink : size ≤ 0 → heap_bottom p ≤ new_brk →
  ∃ k' p', sbrk fuel i size k = Done (program_brk p, k') ∧ processes k' = <[i := p']> (processes k) ∧ program_brk p' = new_brk ∧
    heap_bottom p' = heap_bottom p ∧ (heap_mapped k p T → heap_mapped k' p' T) ∧ lost_pages k Ts i T (new_ceil, old_ceil) k'.
Proof.
  intros Hneg Hlow. pose proof Hheap as [H1 H2]. assert (heap_bottom p ≤ new_brk < 2 ^ 38) as Hn by (unfold new_brk in *; lia).
  pose proof (brk_change Hn) as Hc. rewrite Z.gtb_ltb, (proj2 (Z.ltb_ge 0 size)) in Hc by done.
  pose proof (ceil_mono new_brk (program_brk p) ltac:(unfold new_brk; lia)) as Hmono. fold old_ceil new_ceil in Hmono.
  pose proof (ceil_range (program_brk p) ltac:(lia)) as Ro. pose proof (ceil_range new_brk ltac:(lia)) as Rn. fold old_ceil in Ro. fold new_ceil in Rn.
  assert (∃ sp' s', change_program_brk fuel size p (mach k) = Done ((Some (program_brk p), set_brk new_brk (set_space sp' p)), s') ∧
    lost_pages k Ts i T (new_ceil, old_ceil) (mkKernel (<[i := set_brk new_brk (set_space sp' p)]> (processes k)) s')) as (sp' & s' & Hc' & Hlost).
  { rewrite Hc. destruct (size <? 0) eqn:E; [destruct (old_ceil >? new_ceil) eqn:E2|].
    - destruct (unmap_step k Ts i p T (new_ceil, old_ceil) Hk Hp HT) as (sp' & s' & Hrun & _ & Hst); [simpl; lia|simpl; lia|].
      exists sp', s'. rewrite (st_bind_run _ _ _ _ _ Hrun). split; [done|by apply Hst].
    - rewrite Z.gtb_ltb in E2. apply Z.ltb_ge in E2. eexists _, _. split; [reflexivity|].
      assert (new_ceil = old_ceil) as -> by lia. by eapply lost_none.
    - apply Z.ltb_ge in E. eexists _, _. split; [reflexivity|].
      assert (new_ceil = old_ceil) as -> by (unfold new_ceil, old_ceil, new_brk; f_equal; lia). by eapply lost_none. }
  eexists _, _. split; [by rewrite (sbrk_eq _ _ _ _ _ _ _ _ Hp Hc'), as_isize_small by lia|].
  split; [reflexivity|]. split_and!; [done|done| |done]. destruct Hlost as (_ & _ & Hm). intros H4 w Hw. simpl in Hw. fold new_ceil in Hw.
  rewrite Hm by (pose proof (Z.div_pos (heap_bottom p) page_size ltac:(lia) ltac:(done)); unfold is_vpn; lia).
  unfold drop_run. simpl. rewrite decide_False by lia. apply H4. fold old_ceil. lia.
Qed.

Lemma sbrk_blocked w : 0 < size → new_brk < 2 ^ 38 → new_ceil - old_ceil ≤ Z.of_nat fuel → old_ceil ≤ w < new_ceil →
  mapping (mc_mem (mach k)) T w ≠ None → sbrk fuel i size k = Panic.
Proof.
  intros Hpos Hnew Hfuel Hw Hm. pose proof Hheap as [H1 H2].
  pose proof (brk_change ltac:(unfold new_brk in *; lia)) as Hc. rewrite (proj2 (Z.gtb_lt size 0)) in Hc by done.
  rewrite (proj2 (Z.gtb_lt new_ceil old_ceil)) in Hc by lia. pose proof (ki_space _ _ Hk i p T Hp HT) as Hinv.
  pose proof (ceil_range (program_brk p) ltac:(lia)) as Ro. fold old_ceil in Ro.
  pose proof (ceil_range new_brk ltac:(unfold new_brk in *; lia)) as Rn. fold new_ceil in Rn.
  unfold sbrk. rewrite Hp. unfold mbind, st_bind, on_machine. rewrite Hc. unfold mbind, st_bind.
  rewrite (map_blocked portal fuel (old_ceil, new_ceil) (user_bits false true true) (address_space p) (mach k) T w);
    [done|apply Hinv|apply Hinv|split_and!; simpl; lia|apply user_bits_ok|done| |done|done].
  intros v Hv. apply user_page. simpl in Hv. lia.
Qed.
End Sbrk.
End Calls.
End VmCalls.
