(* ===== verification/VmIsolation.v ===== *)
(** * Isolation along every run

    The system calls of the kernel with address spaces, in any order and by any process: the invariant of
    VmTheorems.v holds throughout, and a process that makes no call keeps its mapping and every byte of its pages. *)

From S2P Require Import Prelude Bytes Memory PageTable AddressSpace SpaceTree SpaceMap SpaceInvariant PageManager Syscall BatchKernel TaskKernel VmKernel VmTheorems.

Module VmRuns.
Import Vm VmInv VmCalls.
Section Runs.
Context `{PTC : PageTableCrate, HL : !HeapLaws, PTL : !PageTableLaws}.
Implicit Types (k : kernel) (T U : gmap (list Z) Z) (p q : Process).

(** ** Writes to the data of a process *)

(** [s'] is [s] but for bytes of page [f]. *)
Definition one_page (f : Z) (s s' : machine) : Prop :=
  mc_heap s' = mc_heap s ∧ ∀ x, x / page_size ≠ f → mc_mem s' x = mc_mem s x.

Lemma one_page_space F s s' f sp T : one_page f s s' → (∀ a, T !! a ≠ Some f) → space_inv (M := Sv39Manager) F s sp T →
  space_inv F s' sp T ∧ ∀ w, mapping (mc_mem s') T w = mapping (mc_mem s) T w.
Proof.
  intros [Hh Hx] HT [Hal [Ht Hu] Hrg Hap Hrun Honly].
  assert (same_tables T (mc_mem s) (mc_mem s')) as Hs.
  { intros a p x Ha <-. apply Hx. intros <-. by apply (HT a). }
  destruct (tree_ext F _ _ _ _ Hs Ht) as [Ht' Hm]. split; [|done]. split; [done|split; [done|by rewrite Hh]|done|done| |].
  - intros ar Har. destruct (Hrun ar Har) as (fl & g & H1 & H2 & H3 & Hw). exists fl, g. split_and!; [done..|]. intros w Hin.
    destruct (Hw w Hin) as [Hmw [Hgu Hgn]]. rewrite Hm. split; [done|]. split; [by rewrite Hh|done].
  - intros w. rewrite Hm. apply Honly.
Qed.

Lemma store_step k Ts i p T s' w pte : kinv k Ts → processes k !! i = Some p → Ts !! i = Some T →
  in_areas w (areas (address_space p)) → mapping (mc_mem (mach k)) T w = Some pte → one_page (pte_ppn pte) (mach k) s' →
  kinv (set_mach s' k) Ts ∧ ∀ j, j ≠ i → untouched k (set_mach s' k) Ts j.
Proof.
  intros Hk Hp HT Hin Hm Hone. pose proof (ki_space _ _ Hk i p T Hp HT) as Hinv.
  assert (uses (mach k) (address_space p) T (pte_ppn pte)) as Hu by (right; by exists w, pte).
  destruct (frame_data portal _ _ _ _ _ Hinv Hin Hm) as [_ Hnt].
  assert (∀ j q U, processes k !! j = Some q → Ts !! j = Some U → space_inv portal s' (address_space q) U ∧
    ∀ v, mapping (mc_mem s') U v = mapping (mc_mem (mach k)) U v) as Hall.
  { intros j q U Hq HU. eapply one_page_space; [done| |by eapply ki_space]. intros a Ha. destruct (decide (j = i)) as [->|Hne].
    - simplify_eq. by apply (Hnt a).
    - apply (ki_apart _ _ Hk i j p q T U (pte_ppn pte)); [congruence|done..|left; by exists a]. }
  assert (∀ j q U x, processes k !! j = Some q → Ts !! j = Some U →
    uses s' (address_space q) U x → uses (mach k) (address_space q) U x) as Hback.
  { intros j q U x Hq HU [Ha|(v & e & Hv & He & Hx)]; [by left|right]. exists v, e.
    destruct (Hall j q U Hq HU) as [_ E]. by rewrite E in He. }
  split.
  - split; simpl; [apply Hk|intros j q U Hq HU; by apply (Hall j)|].
    intros j l q r U V x Hne Hq Hr HU HV Hx Hy. apply (ki_apart _ _ Hk j l q r U V x); [done..|by apply (Hback j)|by apply (Hback l)].
  - intros j Hj q U Hq HU. split_and!; [done|by apply (Hall j q)|]. intros x Hx. apply Hone. intros E.
    apply (ki_apart _ _ Hk i j p q T U (x / page_size)); [congruence|done..|by rewrite E|done].
Qed.

(** What a pointer of the caller leads to. *)
Lemma vm_user_ptr_run k Ts i p T addr flags r k' : kinv k Ts → processes k !! i = Some p → Ts !! i = Some T → 0 ≤ addr < 2 ^ 38 →
  user_ptr i addr flags k = Done (r, k') → k' = k ∧
  match r with
  | None => True
  | Some ptr => ∃ pte, in_areas (addr / page_size) (areas (address_space p)) ∧
      mapping (mc_mem (mach k)) T (addr / page_size) = Some pte ∧ Z.land (pte_flags pte) flags = flags ∧
      ptr = pte_ppn pte * page_size + addr mod page_size
  end.
Proof.
  intros Hk Hp HT Ha. pose proof (ki_space _ _ Hk i p T Hp HT) as Hinv.
  assert (0 ≤ addr / page_size < 2 ^ 26) as Hv.
  { unfold page_size. split; [apply Z.div_pos; lia|apply Z.div_lt_upper_bound; lia]. }
  destruct (user_page _ Hv) as [Hvpn HF]. unfold user_ptr. rewrite (process_at_run k i p Hp). simpl.
  rewrite (translate_run portal addr flags (address_space p) (mach k) T); [|apply Hinv|apply Hinv|done|done].
  simpl. intros [= <- <-]. split; [done|].
  destruct (mapping (mc_mem (mach k)) T (addr / page_size)) as [pte|] eqn:Hm; simpl; [|done].
  destruct (Z.land (pte_flags pte) flags =? flags) eqn:E; [|done]. apply Z.eqb_eq in E. exists pte.
  assert (in_areas (addr / page_size) (areas (address_space p))) as Hin by (apply (si_only _ _ _ _ Hinv); [done..|by rewrite Hm]).
  split_and!; [done..|]. destruct Hin as (ar & Har & Hw). destruct (si_run _ _ _ _ Hinv ar Har) as (f & g & [Hf _] & Hg1 & Hg2 & Hrun).
  destruct (Hrun _ Hw) as [Hm' _]. rewrite Hm in Hm'. injection Hm' as ->. unfold inside in Hw. rewrite build_pte_ppn by (done || lia).
  unfold Sv39Manager_p_to_v. by rewrite vpn_base_spec by lia.
Qed.

Lemma write_one_page s ptr f bs : ptr / page_size = f → (ptr + Z.of_nat (length bs) - 1) / page_size = f →
  one_page f s (mc_set_mem (mem_write ptr bs (mc_mem s)) s).
Proof.
  intros H1 H2. split; [done|]. intros x Hx. rewrite mc_mem_set. unfold mem_write. rewrite decide_False; [done|]. intros Hr. apply Hx.
  pose proof (Z.div_le_mono ptr x page_size ltac:(done) ltac:(lia)).
  pose proof (Z.div_le_mono x (ptr + Z.of_nat (length bs) - 1) page_size ltac:(done) ltac:(lia)). lia.
Qed.

(** ** Calls *)
Inductive vm_call :=
| CMmap (addr len prot : Z)
| CMunmap (addr len : Z)
| CSbrk (size : Z)
| CTrace (request id data : Z)
| CClock (clock_id tp : Z)
| CWrite (fd buf count : Z).

Definition vm_run (fuel i : nat) (c : vm_call) : st kernel Z :=
  match c with
  | CMmap addr len prot => mmap fuel i addr len prot 0 0 0
  | CMunmap addr len => munmap i addr len
  | CSbrk size => sbrk fuel i size
  | CTrace request id data => trace i request id data
  | CClock clock_id tp => clock_gettime i clock_id tp
  | CWrite fd buf count => write i fd buf count
  end.

(** Arguments in the lower half of the address space, with fuel for the pages they name; a [TimeSpec] lies in one page. *)
Definition args_ok (fuel : nat) (p : Process) (c : vm_call) : Prop :=
  match c with
  | CMmap addr len _ => 0 ≤ addr ∧ 0 < len ∧ addr + len < 2 ^ 38 ∧ len / page_size + 2 ≤ Z.of_nat fuel
  | CMunmap addr len => 0 ≤ addr ∧ 0 ≤ len ∧ addr + len < 2 ^ 38
  | CSbrk size => - 2 ^ 31 ≤ size < 2 ^ 31 ∧ program_brk p + size < 2 ^ 38 ∧
      div_ceil (program_brk p + size) page_size - div_ceil (program_brk p) page_size ≤ Z.of_nat fuel
  | CTrace _ id _ => 0 ≤ id < 2 ^ 38
  | CClock _ tp => 0 ≤ tp < 2 ^ 38 ∧ tp mod page_size ≤ 4080
  | CWrite _ buf _ => 0 ≤ buf < 2 ^ 38
  end.

Definition vm_inv k (Ts : list (gmap (list Z) Z)) : Prop := kinv k Ts ∧ Forall brk_ok (processes k).

Definition vm_stepped k Ts i k' : Prop :=
  ∃ T', vm_inv k' (<[i := T']> Ts) ∧ ∀ j, j ≠ i → untouched k k' Ts j.

Lemma same_brks k i p p' : Forall brk_ok (processes k) → processes k !! i = Some p → brk_ok p' →
  Forall brk_ok (<[i := p']> (processes k)).
Proof. intros Hall Hp Hb. by apply Forall_insert. Qed.

Lemma quiet_step k Ts i T k' : vm_inv k Ts → Ts !! i = Some T → processes k' = processes k → mc_heap (mach k') = mc_heap (mach k) →
  mc_mem (mach k') = mc_mem (mach k) → vm_stepped k Ts i k'.
Proof.
  intros [Hk Hb] HT Hps Hh Hm.
  assert (one_page (-1) (mach k) (mach k')) as Hone by (split; [done|by intros; rewrite Hm]).
  assert (∀ j q U, processes k !! j = Some q → Ts !! j = Some U → space_inv portal (mach k') (address_space q) U) as Hall.
  { intros j q U Hq HU. eapply one_page_space; [done| |by eapply ki_space]. intros a Ha.
    pose proof (tr_page _ _ _ _ (so_tree _ _ _ _ (si_ok _ _ _ _ (ki_space _ _ Hk j q U Hq HU))) a _ Ha). lia. }
  exists T. rewrite list_insert_id by done. split; [split|].
  - split; rewrite ?Hps; [apply Hk|apply Hall|]. intros j l q r U V x Hne Hq Hr HU HV. unfold uses. rewrite !Hm.
    by apply (ki_apart _ _ Hk j l).
  - by rewrite Hps.
  - intros j Hj q U Hq HU. rewrite Hps, Hm. done.
Qed.

Section Step.
Variables (fuel : nat) (k : kernel) (Ts : list (gmap (list Z) Z)) (i : nat) (p : Process) (T : gmap (list Z) Z).
Hypothesis Hvm : vm_inv k Ts.
Hypothesis Hp : processes k !! i = Some p.
Hypothesis HT : Ts !! i = Some T.

Lemma step_brk : brk_ok p.
Proof. destruct Hvm as [_ Hb]. by eapply Forall_lookup_1. Qed.

Lemma step_same : vm_stepped k Ts i k.
Proof. by eapply quiet_step. Qed.

(** The call changed the space of the caller. *)
Lemma step_got k' T' p' range flags : processes k' = <[i := p']> (processes k) → brk_ok p' →
  got_pages k Ts i T range flags k' T' → vm_stepped k Ts i k'.
Proof.
  intros Hps Hb (f & Hk' & Hoth & _). exists T'. split; [|done]. split; [done|]. rewrite Hps. destruct Hvm. by eapply same_brks.
Qed.

Lemma step_lost k' p' range : processes k' = <[i := p']> (processes k) → brk_ok p' →
  lost_pages k Ts i T range k' → vm_stepped k Ts i k'.
Proof.
  intros Hps Hb (Hk' & Hoth & _). exists T. rewrite list_insert_id by done. split; [|done]. split; [done|]. rewrite Hps.
  destruct Hvm. by eapply same_brks.
Qed.

(** The call wrote through a pointer of the caller. *)
Lemma step_store addr pte bs : in_areas (addr / page_size) (areas (address_space p)) →
  mapping (mc_mem (mach k)) T (addr / page_size) = Some pte → addr mod page_size + Z.of_nat (length bs) ≤ page_size → bs ≠ [] →
  vm_stepped k Ts i (set_mach (mc_set_mem (mem_write (pte_ppn pte * page_size + addr mod page_size) bs (mc_mem (mach k))) (mach k)) k).
Proof.
  intros Hin Hm Hlen Hne. pose proof (Z.mod_pos_bound addr page_size ltac:(done)). destruct Hvm as [Hk Hb].
  assert (0 < Z.of_nat (length bs)) by (destruct bs; [done|simpl; lia]).
  destruct (store_step k Ts i p T (mc_set_mem (mem_write (pte_ppn pte * page_size + addr mod page_size) bs (mc_mem (mach k))) (mach k))
    (addr / page_size) pte Hk Hp HT Hin Hm) as [Hk' Hoth].
  { apply write_one_page; symmetry.
    - apply (Z.div_unique _ _ _ (addr mod page_size)); lia.
    - apply (Z.div_unique _ _ _ (addr mod page_size + Z.of_nat (length bs) - 1)); lia. }
  exists T. rewrite list_insert_id by done. done.
Qed.

Lemma mmap_stepped addr len prot r k' : args_ok fuel p (CMmap addr len prot) → mmap fuel i addr len prot 0 0 0 k = Done (r, k') → vm_stepped k Ts i k'.
Proof.
  intros (Ha & Hl & Hs & Hfuel) Hrun. destruct Hvm as [Hk _].
  pose proof (mmap_run fuel k Ts i p T addr len prot 0 0 0 Hk Hp HT Ha Hl Hs Hfuel) as Hm.
  destruct (decide _) as [_|_].
  - destruct Hm as [[Hpn _]|(k1 & T' & p' & Hd & Hps & [E1 E2] & _ & Hgot)]; [congruence|]. rewrite Hrun in Hd. injection Hd as -> ->.
    eapply step_got; [done| |done]. pose proof step_brk. unfold brk_ok in *. by rewrite E1, E2.
  - rewrite Hrun in Hm. injection Hm as -> ->. apply step_same.
Qed.

Lemma munmap_stepped addr len r k' : args_ok fuel p (CMunmap addr len) → munmap i addr len k = Done (r, k') → vm_stepped k Ts i k'.
Proof.
  intros (Ha & Hl & Hs) Hrun. destruct Hvm as [Hk _].
  destruct (munmap_run k Ts i p T addr len Hk Hp HT Ha Hl Hs) as [Hyes Hno].
  set (pr := page_range addr len) in *.
  assert ({∀ w, inside w pr → mapping (mc_mem (mach k)) T w ≠ None} + {¬ ∀ w, inside w pr → mapping (mc_mem (mach k)) T w ≠ None}) as Hdec.
  { destruct (decide (Forall (fun w => mapping (mc_mem (mach k)) T w ≠ None) (seqZ pr.1 (pr.2 - pr.1)))) as [Hall|Hn]; [left|right].
    - intros w Hw. rewrite Forall_forall in Hall. apply Hall, elem_of_seqZ. unfold inside in Hw. lia.
    - intros Hall. apply Hn, Forall_forall. intros w Hw%elem_of_seqZ. apply Hall. unfold inside. lia. }
  destruct (decide (addr mod page_size = 0)), Hdec; try (rewrite Hno in Hrun by tauto; injection Hrun as <- <-; apply step_same).
  destruct (Hyes ltac:(done)) as (k1 & p' & Hd & Hps & [E1 E2] & _ & Hlost). rewrite Hrun in Hd. injection Hd as -> ->.
  eapply step_lost; [done| |done]. pose proof step_brk. unfold brk_ok in *. by rewrite E1, E2.
Qed.

Lemma sbrk_stepped size r k' : args_ok fuel p (CSbrk size) → sbrk fuel i size k = Done (r, k') → vm_stepped k Ts i k'.
Proof.
  intros (Hs & Hnew & Hfuel) Hrun. pose proof Hvm as [Hk _]. pose proof step_brk as Hb. pose proof Hb as [Hb1 Hb2].
  destruct (decide (program_brk p + size < heap_bottom p)) as [Hlow|Hlow].
  { rewrite (sbrk_refused fuel k Ts i p size Hk Hp Hb Hs Hlow) in Hrun. injection Hrun as <- <-. apply step_same. }
  destruct (decide (0 < size)) as [Hpos|Hneg].
  - set (rg := (div_ceil (program_brk p) page_size, div_ceil (program_brk p + size) page_size)).
    pose proof (ceil_range (program_brk p) ltac:(lia)). pose proof (ceil_range (program_brk p + size) ltac:(lia)).
    destruct (sbrk_grow fuel k Ts i p T size Hk Hp HT Hb Hs Hpos Hnew) as [[Hpn _]|(k1 & T' & p' & Hd & Hps & E1 & E2 & _ & Hgot)]; [|lia|congruence|].
    + intros Hlt. destruct (have_mapped _ _) eqn:Hm; [exfalso|done]. apply not_false_iff_true in Hm. rewrite have_mapped_spec in Hm.
      apply Hm. apply Forall_forall. intros ar Har. destruct (decide (disjoint_ranges rg ar)) as [|Hov]; [done|exfalso].
      pose proof (ki_space _ _ Hk i p T Hp HT) as Hinv. destruct (si_run _ _ _ _ Hinv ar Har) as (f & g & _ & _ & _ & Hw).
      destruct (si_range _ _ _ _ Hinv ar Har) as [(Hr1 & Hr2 & Hr3) _]. unfold disjoint_ranges, rg in Hov. simpl in Hov.
      destruct (Hw (Z.max rg.1 ar.1)) as [Hmw _]; [unfold inside, rg; simpl; lia|].
      rewrite (sbrk_blocked fuel k Ts i p T size Hk Hp HT Hb Hs (Z.max rg.1 ar.1)) in Hrun; [done|done|done|lia|unfold rg; simpl; lia|by rewrite Hmw].
    + rewrite Hrun in Hd. injection Hd as -> ->. eapply step_got; [done| |done]. unfold brk_ok. rewrite E1, E2. lia.
  - destruct (sbrk_shrink fuel k Ts i p T size Hk Hp HT Hb Hs) as (k1 & p' & Hd & Hps & E1 & E2 & _ & Hlost); [lia|lia|].
    rewrite Hrun in Hd. injection Hd as -> ->. eapply step_lost; [done| |done]. unfold brk_ok. rewrite E1, E2. lia.
Qed.

(** Calls that follow a pointer of the caller. *)
Lemma ptr_stepped {A} addr flags (f : option Z → st kernel A) (r : A) k' : 0 ≤ addr < 2 ^ 38 →
  (∀ pte, in_areas (addr / page_size) (areas (address_space p)) → mapping (mc_mem (mach k)) T (addr / page_size) = Some pte →
     f (Some (pte_ppn pte * page_size + addr mod page_size)) k = Done (r, k') → vm_stepped k Ts i k') →
  (f None k = Done (r, k') → vm_stepped k Ts i k') →
  (ptr ← user_ptr i addr flags; f ptr) k = Done (r, k') → vm_stepped k Ts i k'.
Proof.
  intros Ha Hsome Hnone (ptr & k1 & Hu & Hf)%st_bind_Done. destruct Hvm as [Hk _].
  destruct (vm_user_ptr_run k Ts i p T addr flags ptr k1 Hk Hp HT Ha Hu) as [-> Hptr]. destruct ptr as [ptr|]; [|auto].
  destruct Hptr as (pte & Hin & Hm & _ & ->). eauto.
Qed.

Lemma trace_stepped request id data r k' : args_ok fuel p (CTrace request id data) → trace i request id data k = Done (r, k') → vm_stepped k Ts i k'.
Proof.
  intros Ha. unfold trace. destruct (request =? 0); [|destruct (request =? 1); [|destruct (request =? 2)]].
  - apply ptr_stepped; [done| |].
    + intros pte _ _ [= _ <-]. apply step_same.
    + intros [= _ <-]. apply step_same.
  - apply ptr_stepped; [done| |].
    + intros pte Hin Hm [= _ <-]. apply step_store; [done|done| |done]. pose proof (Z.mod_pos_bound id page_size ltac:(done)). simpl. lia.
    + intros [= _ <-]. apply step_same.
  - intros (q & k1 & Hq & Hr)%st_bind_Done. unfold process_at in Hq. rewrite Hp in Hq. injection Hq as <- <-.
    apply st_bind_Done in Hr as (n & k2 & Hn & [= _ <-]). destruct (syscall_count p !! Z.to_nat id); [|done]. injection Hn as _ <-.
    apply step_same.
  - intros [= _ <-]. apply step_same.
Qed.

Lemma clock_stepped clock_id tp r k' : args_ok fuel p (CClock clock_id tp) → clock_gettime i clock_id tp k = Done (r, k') → vm_stepped k Ts i k'.
Proof.
  intros [Ha Hoff]. unfold clock_gettime. destruct (clock_id =? _); [|intros [= _ <-]; apply step_same].
  apply ptr_stepped; [done| |intros [= _ <-]; apply step_same]. intros pte Hin Hm Hr.
  apply st_bind_Done in Hr as (k0 & k1 & [= <- <-] & Hr). apply st_bind_Done in Hr as (ticks & k2 & Ht & Hr).
  destruct (usize_mul _ _); [|done..]. injection Ht as <- <-. injection Hr as _ <-.
  apply step_store; [done|done| |done]. unfold Tasks.timespec_bytes. rewrite length_app, !le_encode_length. unfold page_size in *. lia.
Qed.

Lemma write_stepped fd buf count r k' : args_ok fuel p (CWrite fd buf count) → write i fd buf count k = Done (r, k') → vm_stepped k Ts i k'.
Proof.
  intros Ha. unfold write. destruct (_ || _); [|intros [= _ <-]; apply step_same].
  apply ptr_stepped; [done| |intros [= _ <-]; apply step_same]. intros pte Hin Hm [= _ <-]. by eapply quiet_step.
Qed.

Lemma vm_call_stepped c r k' : args_ok fuel p c → vm_run fuel i c k = Done (r, k') → vm_stepped k Ts i k'.
Proof.
  destruct c; simpl; intros Ha Hrun.
  - by eapply mmap_stepped.
  - by eapply munmap_stepped.
  - by eapply sbrk_stepped.
  - by eapply trace_stepped.
  - by eapply clock_stepped.
  - by eapply write_stepped.
Qed.
End Step.

(** ** Runs *)
Inductive vm_trace (fuel : nat) : kernel → list (nat * vm_call) → kernel → Prop :=
| trace_nil k : vm_trace fuel k [] k
| trace_cons k i c p r k1 l k' : processes k !! i = Some p → args_ok fuel p c → vm_run fuel i c k = Done (r, k1) →
    vm_trace fuel k1 l k' → vm_trace fuel k ((i, c) :: l) k'.

Lemma untouched_trans k1 k2 k3 Ts Ts2 j : Ts2 !! j = Ts !! j → untouched k1 k2 Ts j → untouched k2 k3 Ts2 j → untouched k1 k3 Ts j.
Proof.
  intros E H12 H23 q U Hq HU. destruct (H12 q U Hq HU) as (P2 & M2 & B2). destruct (H23 q U P2 ltac:(by rewrite E)) as (P3 & M3 & B3).
  split_and!; [done|intros w; by rewrite M3|]. intros x Hx. rewrite B3; [by apply B2|].
  destruct Hx as [Ha|(w & pte & Hin & Hm & Hp)]; [by left|right]. exists w, pte. by rewrite M2.
Qed.

(** C25: Address spaces isolate processes: along every run of memory calls by any processes ([mmap], [munmap], [sbrk], a
    store through [trace], [clock_gettime], [write]), every process keeps a well-formed space (its areas do not overlap
    and are exactly the mapped pages, its tables and frames are pages in use) and no page is a table or frame of two
    processes; a process that makes none of the calls keeps its mapping and every byte of its tables and frames.  The calls pass
    addresses of the lower half, and a [TimeSpec] within a page ([args_ok]). *)
Theorem vm_isolation fuel k Ts l k' : vm_inv k Ts → vm_trace fuel k l k' →
  ∃ Ts', vm_inv k' Ts' ∧ ∀ j, j ∉ l.*1 → Ts' !! j = Ts !! j ∧ untouched k k' Ts j.
Proof.
  intros Hvm Htr. revert Ts Hvm. induction Htr as [k|k i c p r k1 l k' Hp Ha Hrun _ IH]; intros Ts Hvm.
  { exists Ts. split; [done|]. intros j _. split; [done|]. by intros q U Hq HU. }
  destruct (lookup_lt_is_Some_2 Ts i) as [T HT].
  { destruct Hvm as [Hk _]. rewrite (ki_len _ _ Hk). by eapply lookup_lt_Some. }
  destruct (vm_call_stepped fuel k Ts i p T Hvm Hp HT c r k1 Ha Hrun) as (T' & Hvm1 & Hoth).
  destruct (IH _ Hvm1) as (Ts' & Hvm' & Hrest). exists Ts'. split; [done|]. intros j Hj.
  rewrite fmap_cons, not_elem_of_cons in Hj. destruct Hj as [Hne Hj]. destruct (Hrest j Hj) as [E Hun].
  assert (<[i := T']> Ts !! j = Ts !! j) as E1 by (by rewrite list_lookup_insert_ne). split; [congruence|].
  by eapply untouched_trans; [|apply Hoth|].
Qed.
End Runs.
End VmRuns.
