(* ===== verification/VmLoad.v ===== *)
(** * Loading programs

    [Process_new] builds a process with a well-formed address space of fresh pages that holds the segments of the
    program, and the loop that loads the applications gives each process pages of its own: the invariant of
    VmTheorems.v holds when the scheduling loop starts. *)

From Stdlib Require Import Ascii String.
From stdpp Require Import strings.
From S2P Require Import Prelude Bytes Memory Linker KernelContext PageTable AddressSpace SpaceTree SpaceMap SpaceInvariant PageManager VmKernel VmTheorems VmIsolation.

Module VmLoad.
Import Vm VmInv VmCalls VmRuns.

(** ** Programs that can be loaded *)

(** Where the stack starts. *)
Definition stack_range : Z * Z := (2 ^ 26 - 2, 2 ^ 26).

(** The pages of a segment. *)
Definition seg_range (ph : ProgramHeader) : Z * Z := page_range (ph_virtual_addr ph) (ph_mem_size ph).

Record segment_ok (input : list Z) (ph : ProgramHeader) : Prop := {
  sg_size : 0 ≤ ph_file_size ph ≤ ph_mem_size ph ∧ 0 < ph_mem_size ph;
  sg_mem : 0 ≤ ph_virtual_addr ph ∧ ph_virtual_addr ph + ph_mem_size ph ≤ stack_range.1 * page_size;
  sg_file : 0 ≤ ph_offset ph ∧ ph_offset ph + ph_file_size ph ≤ Z.of_nat (length input);
  sg_align : ph_offset ph mod page_size = ph_virtual_addr ph mod page_size;
}.

Definition loads (l : list ProgramHeader) : list ProgramHeader := filter (fun ph => ph_load ph = true) l.

(** Segments that lie in the file and below the stack, no two in one page. *)
Record program_ok (input : list Z) (l : list ProgramHeader) : Prop := {
  pg_seg : Forall (segment_ok input) (loads l);
  pg_apart : ranges_apart (seg_range <$> loads l);
}.

(** The byte of a segment at [x] bytes from the start of its first page, as the file gives it. *)
Definition seg_byte (input : list Z) (ph : ProgramHeader) (x : Z) : Z :=
  loaded (take (Z.to_nat (ph_file_size ph)) (drop (Z.to_nat (ph_offset ph)) input)) (ph_virtual_addr ph mod page_size) x.

Section Load.
Context `{PTC : PageTableCrate, HL : !HeapLaws, PTL : !PageTableLaws}.
Implicit Types (k : kernel) (T U : gmap (list Z) Z) (p q : Process) (ph : ProgramHeader) (sp : AddressSpace Sv39Manager).

Definition seg_flags ph : Z := Z.lor (user_bits (ph_execute ph) (ph_write ph) (ph_read ph)) OWNED.

(** The segment is in the space, with its permissions. *)
Definition seg_in s T (input : list Z) ph : Prop :=
  (∀ x, 0 ≤ x < range_pages (seg_range ph) * page_size →
     byte_at (mc_mem s) T ((seg_range ph).1 * page_size + x) = Some (seg_byte input ph x)) ∧
  ∀ w, inside w (seg_range ph) → pte_flags <$> mapping (mc_mem s) T w = Some (seg_flags ph).

(** The pages of a space were free in [s0]. *)
Definition fresh_since (s0 s : machine) sp T : Prop := ∀ x, uses s sp T x → ¬ page_used (mc_heap s0) x.

(** A range was added to the space with frames that were free. *)
Lemma fresh_added s0 T0 s sp T range f flags s' T' : space_inv portal s sp T → kept T0 s0 T s → fresh_since s0 s sp T →
  range_ok range → flags_ok flags → 0 < f → f + (range.2 - range.1) ≤ 2 ^ 26 →
  (∀ i, f ≤ i < f + (range.2 - range.1) → ¬ page_used (mc_heap s) i) → have_mapped range sp = false →
  added portal s sp T range f flags s' T' → fresh_since s0 s' (mkSpace (areas sp ++ [range]) (page_manager sp)) T'.
Proof.
  intros Hinv K Hfr Hr Hf Hf1 Hf2 Hfree Hm Had x Hx.
  destruct (added_uses portal s sp T range f flags s' T' x) as [Ho|Hn]; [done..|by apply Hfr|].
  intros Hu. apply Hn. by apply (kp_used _ _ _ _ K).
Qed.

Lemma seg_keep s sp T s' T' input ph : space_inv portal s sp T → kept T s T' s' → seg_range ph ∈ areas sp →
  (∀ w, inside w (seg_range ph) → mapping (mc_mem s') T' w = mapping (mc_mem s) T w) → seg_in s T input ph → seg_in s' T' input ph.
Proof.
  intros Hinv K Hin Hm [Hb Hfl]. split.
  - intros x Hx. rewrite <-Hb by done.
    assert (inside (((seg_range ph).1 * page_size + x) / page_size) (seg_range ph)) as Hw.
    { unfold inside, range_pages in *. rewrite Z.add_comm, Z.div_add by done.
      assert (0 ≤ x / page_size < (seg_range ph).2 - (seg_range ph).1); [|lia].
      split; [apply Z.div_pos|apply Z.div_lt_upper_bound]; unfold page_size in *; lia. }
    eapply byte_keep; [done|done|by eexists|by apply Hm].
  - intros w Hw. rewrite Hm by done. by apply Hfl.
Qed.

(** ** One segment *)
Lemma segment_range input ph : segment_ok input ph → range_ok (seg_range ph) ∧ (seg_range ph).2 ≤ stack_range.1 ∧
  (va_floor (ph_virtual_addr ph), va_ceil (ph_virtual_addr ph + ph_mem_size ph)) = seg_range ph ∧
  ph_virtual_addr ph mod page_size + ph_file_size ph ≤ range_pages (seg_range ph) * page_size.
Proof.
  intros [[Hs1 Hs2] [Hm1 Hm2] _ _]. unfold stack_range in Hm2. simpl in Hm2. unfold seg_range.
  set (va := ph_virtual_addr ph) in *. set (sz := ph_mem_size ph) in *.
  destruct (page_range_ok va sz Hm1 ltac:(lia) ltac:(unfold page_size in *; lia)) as (R1 & R2 & R3 & R4 & _). specialize (R4 Hs2).
  pose proof (div_ceil_bounds (va + sz) page_size ltac:(done)). pose proof (Z.div_mod va page_size ltac:(done)).
  pose proof (Z.mod_pos_bound va page_size ltac:(done)).
  split_and!; [split_and!; lia| |apply range_eq; unfold page_size in *; lia|].
  - unfold stack_range. simpl in *. unfold page_size in *. lia.
  - unfold range_pages. simpl in *. unfold page_size in *. lia.
Qed.

Lemma page_mask z : Z.land z PAGE_MASK = z mod page_size.
Proof. change PAGE_MASK with (Z.ones 12). by rewrite Z.land_ones. Qed.

Lemma slice_of_run input off len : 0 ≤ off → 0 ≤ len → off + len ≤ Z.of_nat (length input) →
  slice_of input off len = Done (take (Z.to_nat len) (drop (Z.to_nat off) input)).
Proof.
  intros Ho Hl Hs. unfold slice_of. rewrite (proj2 (Z.leb_le _ _)) by lia. simpl. by rewrite (proj2 (Z.leb_le _ _)) by lia.
Qed.

(** The step of the loop for a segment that is loaded. *)
Lemma load_step fuel input ph l max_end_va sp s : ph_load ph = true → segment_ok input ph →
  load_segments fuel input (ph :: l) max_end_va sp s =
    (sp ← AddressSpace_map fuel (seg_range ph) (take (Z.to_nat (ph_file_size ph)) (drop (Z.to_nat (ph_offset ph)) input))
       (ph_virtual_addr ph mod page_size) (user_bits (ph_execute ph) (ph_write ph) (ph_read ph)) sp;
     load_segments fuel input l (Z.max max_end_va (ph_virtual_addr ph + ph_mem_size ph)) sp) s.
Proof.
  intros Hl Hok. destruct (segment_range input ph Hok) as (Hr & Hr2 & E & _). destruct Hok as [[Hs1 Hs2] [Hm1 Hm2] [Hf1 Hf2] Hal].
  cbn [load_segments]. rewrite Hl. cbn [negb].
  assert (usize_add (ph_virtual_addr ph) (ph_mem_size ph) = Done (ph_virtual_addr ph + ph_mem_size ph)) as Hadd.
  { apply checked_ok. unfold usize_max, stack_range, page_size in *. simpl in *. lia. }
  rewrite (st_bind_run _ _ _ _ _ (lift_run _ _ _ Hadd)). rewrite !page_mask, Hal, Z.eqb_refl.
  rewrite (st_bind_run _ _ _ _ _ (lift_run (rassert true) () _ eq_refl)).
  rewrite (st_bind_run _ _ _ _ _ (lift_run _ _ _ (slice_of_run input (ph_offset ph) (ph_file_size ph) Hf1 ltac:(lia) Hf2))).
  rewrite parse_user_flags. rewrite (st_bind_run _ _ _ _ _ (lift_run (unwrap (Some _)) _ _ eq_refl)). rewrite E.
  replace (if _ >? _ then _ else _) with (Z.max max_end_va (ph_virtual_addr ph + ph_mem_size ph)); [done|].
  rewrite Z.gtb_ltb. destruct (Z.ltb_spec max_end_va (ph_virtual_addr ph + ph_mem_size ph)); lia.
Qed.

(** ** The loop over the segments *)

(** The end of the highest segment. *)
Definition top_of (l : list ProgramHeader) (z : Z) : Z :=
  foldl (fun m ph => Z.max m (ph_virtual_addr ph + ph_mem_size ph)) z (loads l).

Lemma loads_cons ph l : loads (ph :: l) = if ph_load ph then ph :: loads l else loads l.
Proof. unfold loads. rewrite filter_cons. by destruct (ph_load ph). Qed.

Lemma have_mapped_apart range sp l : ranges_apart (areas sp ++ range :: l) → have_mapped range sp = false.
Proof.
  intros (_ & _ & Hd)%ranges_apart_app. apply have_mapped_spec, Forall_forall. intros ar Har.
  specialize (Hd ar range Har ltac:(by left)). unfold disjoint_ranges in *. lia.
Qed.

(** The space, after the segments of [l] were added to [sp0]. *)
Record segs_added (s0 : machine) (T0 : gmap (list Z) Z) (input : list Z) (done : list ProgramHeader) s sp T : Prop := {
  sa_inv : space_inv portal s sp T;
  sa_kept : kept T0 s0 T s;
  sa_fresh : fresh_since s0 s sp T;
  sa_areas : areas sp = seg_range <$> done;
  sa_segs : Forall (seg_in s T input) done;
  sa_took : took (M := Sv39Manager) (1 + 3 * pages_of (seg_range <$> done)) s0 s;
}.

Lemma pages_of_app l1 l2 : pages_of (l1 ++ l2) = pages_of l1 + pages_of l2.
Proof. induction l1 as [|ar l1 IH]; simpl; [done|]. rewrite IH. lia. Qed.

Lemma segs_refl s0 T0 input s sp T : space_inv portal s sp T → kept T0 s0 T s → fresh_since s0 s sp T → areas sp = [] →
  took (M := Sv39Manager) 1 s0 s → segs_added s0 T0 input [] s sp T.
Proof. intros. by split. Qed.

Lemma segs_more fuel s0 T0 input segs ph l s sp T : segs_added s0 T0 input segs s sp T → segment_ok input ph →
  ranges_apart ((seg_range <$> segs) ++ seg_range ph :: l) → range_pages (seg_range ph) ≤ Z.of_nat fuel →
  let r := AddressSpace_map fuel (seg_range ph) (take (Z.to_nat (ph_file_size ph)) (drop (Z.to_nat (ph_offset ph)) input))
    (ph_virtual_addr ph mod page_size) (user_bits (ph_execute ph) (ph_write ph) (ph_read ph)) sp s in
  (r = Panic ∧ exhausted (M := Sv39Manager) (1 + 3 * pages_of (seg_range <$> segs ++ [ph])) s0) ∨
  ∃ sp' s' T', r = Done (sp', s') ∧ segs_added s0 T0 input (segs ++ [ph]) s' sp' T'.
Proof.
  intros [Hinv K Hfr Ha Hsegs Htk] Hok Hap Hfuel r. destruct (segment_range input ph Hok) as (Hr & Hr2 & _ & Hsz).
  pose proof Hok as [[Hs1 Hs2] [Hm1 Hm2] [Hf1 Hf2] _]. rewrite <-Ha in Hap. pose proof (have_mapped_apart _ _ _ Hap) as Hfree.
  pose proof (Z.mod_pos_bound (ph_virtual_addr ph) page_size ltac:(done)) as Hoff.
  assert (∀ w, inside w (seg_range ph) → ¬ portal (sv39_index w 2)) as HF.
  { intros w Hw. apply user_page. unfold inside, stack_range in *. destruct Hr as (? & _). simpl in *. lia. }
  rewrite fmap_app, pages_of_app. change (pages_of (seg_range <$> [ph])) with (range_pages (seg_range ph) + 0).
  destruct (map_run portal fuel (seg_range ph) (take (Z.to_nat (ph_file_size ph)) (drop (Z.to_nat (ph_offset ph)) input))
    (ph_virtual_addr ph mod page_size) (user_bits (ph_execute ph) (ph_write ph) (ph_read ph)) sp s T)
    as [[Hp He]|(f & s' & T' & Hrun & Hp1 & Hp2 & Hnew & Had & Htk' & Hfill)];
    [apply Hinv|apply Hinv|done|apply user_bits_ok|lia| |done|by eapply free_range|left|right].
  - rewrite length_take, length_drop. unfold range_pages in Hsz. lia.
  - split; [done|]. eapply exhausted_after; [exact Htk|exact He|unfold range_pages; lia].
  - pose proof (lor_flags_ok (M := Sv39Manager) _ (user_bits_ok (ph_execute ph) (ph_write ph) (ph_read ph))) as Hfl.
    eexists _, s', T'. split; [exact Hrun|]. assert (∀ w, inside w (seg_range ph) → mapping (mc_mem s') T' w =
      Some (flags_build_pte (seg_flags ph) (f + (w - (seg_range ph).1)))) as Hmap.
    { intros w Hw. rewrite (ad_map _ _ _ _ _ _ _ _ _ Had) by (by eapply range_ok_vpn). unfold add_run, inside in *. by rewrite decide_True by lia. }
    split; [by eapply added_inv|eapply kept_trans; [done|apply Had]|by eapply fresh_added|simpl; by rewrite Ha, fmap_app| |].
    + apply Forall_app_2; [|apply Forall_singleton; split].
      * rewrite Forall_forall in Hsegs |- *. intros ph' Hph'. assert (seg_range ph' ∈ areas sp) as Hin by (rewrite Ha; by apply list_elem_of_fmap_2).
        eapply seg_keep; [exact Hinv|apply Had|done| |by apply Hsegs]. intros w Hw.
        rewrite (ad_map _ _ _ _ _ _ _ _ _ Had) by (eapply range_ok_vpn; [|done]; by apply (si_range _ _ _ _ Hinv)).
        apply ranges_apart_app in Hap as (_ & _ & Hd). specialize (Hd _ _ Hin ltac:(by left)).
        unfold add_run, disjoint_ranges, inside in *. by rewrite decide_False by lia.
      * intros x Hx. apply (byte_filled s' T' _ f (seg_flags ph)); [done|apply Hfl|done..].
      * intros w Hw. rewrite Hmap by done. unfold fmap, option_fmap, option_map. rewrite build_pte_flags; [done|apply Hfl|]. unfold inside in Hw. lia.
    + eapply took_trans; [exact Htk|exact Htk'|]. rewrite fmap_app, pages_of_app. change (pages_of (seg_range <$> [ph])) with (range_pages (seg_range ph) + 0). unfold range_pages. lia.
Qed.

Lemma load_segments_run fuel s0 T0 input l : ∀ max_end_va segs s sp T, segs_added s0 T0 input segs s sp T →
  Forall (segment_ok input) (loads l) → ranges_apart (seg_range <$> segs ++ loads l) →
  Forall (fun ph => range_pages (seg_range ph) ≤ Z.of_nat fuel) (loads l) →
  (load_segments fuel input l max_end_va sp s = Panic ∧
     exhausted (M := Sv39Manager) (1 + 3 * pages_of (seg_range <$> segs ++ loads l)) s0) ∨
  ∃ sp' s' T', load_segments fuel input l max_end_va sp s = Done ((top_of l max_end_va, sp'), s') ∧
    segs_added s0 T0 input (segs ++ loads l) s' sp' T'.
Proof.
  induction l as [|ph l IH]; intros max_end_va segs s sp T Hst Hok Hap Hfuel.
  { right. exists sp, s, T. unfold top_of, loads. simpl. by rewrite app_nil_r. }
  unfold top_of. rewrite loads_cons in *. destruct (ph_load ph) eqn:Hl.
  2: { cbn [load_segments]. rewrite Hl. cbn [negb]. by apply (IH max_end_va segs s sp T). }
  apply Forall_cons in Hok as [Hph Hok]. apply Forall_cons in Hfuel as [Hf Hfuel]. rewrite load_step by done. cbn [foldl].
  destruct (segs_more fuel s0 T0 input segs ph (seg_range <$> loads l) s sp T Hst Hph) as [[Hp He]|(sp1 & s1 & T1 & Hrun & Hst1)];
    [by rewrite fmap_app in Hap|done|left|].
  - unfold mbind, st_bind. rewrite Hp. split; [done|]. eapply exhausted_after; [by apply (took_none 0)|exact He|].
    rewrite !fmap_app, !pages_of_app. change (pages_of (seg_range <$> ph :: loads l)) with (range_pages (seg_range ph) + pages_of (seg_range <$> loads l)).
    change (pages_of (seg_range <$> [ph])) with (range_pages (seg_range ph) + 0).
    assert (0 ≤ pages_of (seg_range <$> loads l)); [|lia]. apply pages_of_nonneg. intros ar (x & -> & Hx)%list_elem_of_fmap_1.
    rewrite Forall_forall in Hok. destruct (segment_range input x (Hok x Hx)) as ((_ & ? & _) & _). lia.
  - rewrite (st_bind_run _ _ _ _ _ Hrun).
    destruct (IH (Z.max max_end_va (ph_virtual_addr ph + ph_mem_size ph)) (segs ++ [ph]) s1 sp1 T1) as [Hpn|Hd]; [done|done| |done|left|right].
    + by rewrite <-app_assoc.
    + by rewrite <-app_assoc in Hpn.
    + by rewrite <-app_assoc in Hd.
Qed.

Lemma top_of_range input l z : Forall (segment_ok input) (loads l) → 0 ≤ z ≤ stack_range.1 * page_size →
  z ≤ top_of l z ≤ stack_range.1 * page_size ∧ ∀ ph, ph ∈ loads l → ph_virtual_addr ph + ph_mem_size ph ≤ top_of l z.
Proof.
  unfold top_of. generalize (loads l) as k. intros k. revert z. induction k as [|ph k IH]; intros z Hok Hz; cbn [foldl].
  { split; [lia|]. intros ph Hin. by apply elem_of_nil in Hin. }
  apply Forall_cons in Hok as [[_ [Hm1 Hm2] _ _] Hok]. destruct (IH (Z.max z (ph_virtual_addr ph + ph_mem_size ph)) Hok) as [H1 H2]; [lia|].
  split; [lia|]. intros ph' [->|Hq]%elem_of_cons; [lia|by apply H2].
Qed.

(** ** The pages of the heap *)
Lemma alloc_panics n (pm : Sv39Manager) f s : page_alloc n s = Panic → pm_allocate pm n f s = Panic.
Proof. intros E. simpl. unfold Sv39Manager_allocate, mbind, st_bind. by rewrite E. Qed.

Lemma alloc_gives n (pm : Sv39Manager) f s (q : Z) s' : page_alloc n s = Done (q * page_size, s') → allocated q n s s' →
  pm_allocate pm n f s = Done ((q * page_size, Z.lor f OWNED), s').
Proof.
  intros E Hal. simpl. unfold Sv39Manager_allocate.
  by rewrite (st_bind_run _ _ _ _ _ E), (st_bind_run _ _ _ _ _ (lift_run _ _ _ (non_null_page _ _ _ _ Hal))).
Qed.

Lemma new_heap s : (AddressSpace_new (M := Sv39Manager) s = Panic → exhausted (M := Sv39Manager) 1 s) ∧
  ∀ sp s', AddressSpace_new s = Done (sp, s') → took (M := Sv39Manager) 1 s s'.
Proof.
  destruct (page_alloc_run 1 s ltac:(lia)) as [E|(q & s1 & E & Hal)].
  - unfold AddressSpace_new, mbind, st_bind. simpl. unfold Sv39Manager_new_root, mbind, st_bind. rewrite E. split; [|done]. intros _.
    eapply (exhausted_now 1 1 (mkSv39 0) 0); [lia|by apply alloc_panics].
  - assert (pm_new_root s = Done (mkSv39 (q * page_size), s1)) as Hn.
    { simpl. unfold Sv39Manager_new_root.
      by rewrite (st_bind_run _ _ _ _ _ E), (st_bind_run _ _ _ _ _ (lift_run _ _ _ (non_null_page _ _ _ _ Hal))). }
    unfold AddressSpace_new. rewrite (st_bind_run _ _ _ _ _ Hn). split; [done|]. intros sp s' [= _ <-].
    eapply (took_one 1 1 (mkSv39 0) 0); [lia|by eapply alloc_gives|done].
Qed.

Lemma stack_alloc s : alloc_zeroed (Z.shiftl 2 12) (Z.shiftl 1 12) s = page_alloc 2 s.
Proof. reflexivity. Qed.

Lemma set_mem_same (s : machine) : mc_set_mem (mc_mem s) s = s.
Proof. by destruct s as [[] ?]. Qed.

(** ** [Process::new] *)

(** The pages a process is built from, at most: its root, and frames and tables of its segments and its stack. *)
Definition pages_needed (elf : ElfFile) : Z := 7 + 3 * pages_of (seg_range <$> loads (elf_programs elf)).

Record loaded_process (elf : ElfFile) s0 p s T : Prop := {
  lp_inv : space_inv portal s (address_space p) T;
  lp_kept : kept ∅ s0 T s;
  lp_took : took (M := Sv39Manager) (pages_needed elf) s0 s;
  lp_fresh : fresh_since s0 s (address_space p) T;
  lp_areas : areas (address_space p) = (seg_range <$> loads (elf_programs elf)) ++ [stack_range];
  lp_segs : Forall (seg_in s T (elf_input elf)) (loads (elf_programs elf));
  lp_stack x : 0 ≤ x < 2 * page_size → byte_at (mc_mem s) T (stack_range.1 * page_size + x) = Some 0;
  lp_heap : program_brk p = heap_bottom p ∧ heap_bottom p = div_ceil (top_of (elf_programs elf) 0) page_size * page_size;
  lp_brk : brk_ok p;
  lp_entry : LocalContext_pc (f_context (context p)) = elf_entry_point elf ∧ LocalContext_sp (f_context (context p)) = Done (2 ^ 38);
  lp_satp : f_satp (context p) = Z.lor (Z.shiftl 8 60) (AddressSpace_root_ppn (address_space p));
}.

Definition riscv_program (elf : ElfFile) : bool := elf_64 elf && elf_executable elf && elf_riscv elf.

Record elf_ok (fuel : nat) (elf : ElfFile) : Prop := {
  eo_program : program_ok (elf_input elf) (elf_programs elf);
  eo_fuel : Forall (fun ph => range_pages (seg_range ph) ≤ Z.of_nat fuel) (loads (elf_programs elf));
  eo_stack : (2 ≤ fuel)%nat;
}.

(** The stack, in a space with the segments. *)
Lemma stack_added fuel s0 T0 input segs s sp T : segs_added s0 T0 input segs s sp T → Forall (segment_ok input) segs → (2 ≤ fuel)%nat →
  let r := (stack ← alloc_zeroed (Z.shiftl 2 12) (Z.shiftl 1 12);
            map_extern fuel stack_range (Z.shiftr stack 12) (build_flags "U_WRV") sp) s in
  (r = Panic ∧ exhausted (M := Sv39Manager) (7 + 3 * pages_of (seg_range <$> segs)) s0) ∨
  ∃ s' T', let sp' := mkSpace (areas sp ++ [stack_range]) (page_manager sp) in r = Done (sp', s') ∧
    space_inv portal s' sp' T' ∧ kept T0 s0 T' s' ∧ fresh_since s0 s' sp' T' ∧ Forall (seg_in s' T' input) segs ∧
    took (M := Sv39Manager) (7 + 3 * pages_of (seg_range <$> segs)) s0 s' ∧
    ∀ x, 0 ≤ x < 2 * page_size → byte_at (mc_mem s') T' (stack_range.1 * page_size + x) = Some 0.
Proof.
  intros [Hinv K Hfr Ha Hsegs Htk] Hok Hfuel r. unfold r. clear r.
  assert (∀ ar, ar ∈ areas sp → ar.2 ≤ stack_range.1) as Hbelow.
  { rewrite Ha. intros ar (ph & -> & Hph)%list_elem_of_fmap_1. rewrite Forall_forall in Hok. by destruct (segment_range input ph (Hok ph Hph)) as (_ & ? & _). }
  assert (have_mapped stack_range sp = false) as Hfree.
  { apply have_mapped_spec, Forall_forall. intros ar Har. specialize (Hbelow ar Har). unfold disjoint_ranges. lia. }
  assert (range_ok stack_range) as Hr by (split_and!; unfold stack_range; simpl; lia).
  assert (∀ w, inside w stack_range → ¬ portal (sv39_index w 2)) as HF.
  { intros w Hw. apply user_page. unfold inside, stack_range in Hw. simpl in Hw. lia. }
  destruct (page_alloc_run 2 s ltac:(lia)) as [E|(f & s1 & E & Hal)].
  { left. unfold mbind, st_bind. rewrite stack_alloc, E. split; [done|]. eapply exhausted_after; [exact Htk|..].
    - eapply (exhausted_now 2 2 (mkSv39 0) 0); [lia|by apply alloc_panics].
    - lia. }
  unfold mbind, st_bind. rewrite stack_alloc, E. rewrite Z.shiftr_div_pow2 by done. change (2 ^ 12) with page_size. rewrite Z.div_mul by done.
  assert (took (M := Sv39Manager) 2 s s1) as Htk1 by (eapply (took_one 2 2 (mkSv39 0) 0); [lia|by eapply alloc_gives|done]).
  destruct (al_range _ _ _ _ Hal) as [Hf1 Hf2]. rewrite heap_flags. pose proof (user_bits_ok false true true) as Hfl.
  change 2 with (stack_range.2 - stack_range.1) in Hal, Hf2, Htk1.
  destruct (map_fresh portal fuel stack_range f (user_bits false true true) sp s s1 (mc_mem s1) T)
    as [[Hp He]|(s' & T' & Hrun & Had & Htk' & Hsame)];
    [apply Hinv|apply Hinv|done|done|done|done|done|unfold stack_range; simpl; lia|by eapply free_range|left|right];
    rewrite set_mem_same in *.
  - split; [done|]. eapply exhausted_after; [exact Htk|exact He|]. change (stack_range.2 - stack_range.1) with 2. lia.
  - exists s', T'. split_and!; [done|by eapply added_inv|eapply kept_trans; [done|apply Had]| | | |].
    + eapply fresh_added; [exact Hinv|done|done|done|exact Hfl|done|done|apply Hal|done|exact Had].
    + rewrite Forall_forall in Hsegs |- *. intros ph Hph. assert (seg_range ph ∈ areas sp) as Hin by (rewrite Ha; by apply list_elem_of_fmap_2).
      eapply seg_keep; [exact Hinv|apply Had|done| |by apply Hsegs]. intros w Hw.
      rewrite (ad_map _ _ _ _ _ _ _ _ _ Had) by (eapply range_ok_vpn; [|done]; by apply (si_range _ _ _ _ Hinv)).
      specialize (Hbelow _ Hin). unfold add_run, inside in *. by rewrite decide_False by lia.
    + eapply took_trans; [exact Htk|exact Htk'|]. change (stack_range.2 - stack_range.1) with 2. lia.
    + intros x Hx. apply (byte_filled s' T' stack_range f (user_bits false true true) (fun _ => 0)); [|apply Hfl|done|done| |done].
      * intros w Hw. rewrite (ad_map _ _ _ _ _ _ _ _ _ Had) by (by eapply range_ok_vpn). unfold add_run, inside in *. by rewrite decide_True by lia.
      * intros y Hy. rewrite Hsame by (apply page_of; lia). rewrite (al_mem _ _ _ _ Hal). by rewrite decide_True by lia.
Qed.

Lemma process_new_run fuel elf s : elf_ok fuel elf → riscv_program elf = true →
  (Process_new fuel elf s = Panic ∧ exhausted (M := Sv39Manager) (pages_needed elf) s) ∨
  ∃ p s' T, Process_new fuel elf s = Done (Some p, s') ∧ loaded_process elf s p s' T.
Proof.
  intros [[Hsegs Hap] Hfuel Hst] Hrv. unfold Process_new. fold (riscv_program elf). rewrite Hrv. cbn [negb].
  destruct (new_heap s) as [Hex Htk]. unfold pages_needed.
  assert (0 ≤ pages_of (seg_range <$> loads (elf_programs elf))) as Hpg.
  { apply pages_of_nonneg. intros ar (ph & -> & Hph)%list_elem_of_fmap_1. rewrite Forall_forall in Hsegs.
    destruct (segment_range _ ph (Hsegs ph Hph)) as ((_ & ? & _) & _). lia. }
  destruct (new_run (M := Sv39Manager) portal s) as [Hn|(sp & s1 & Hn & Ha & Hinv & K)].
  { left. unfold mbind, st_bind. rewrite Hn. split; [done|]. eapply exhausted_after; [by apply (took_none 0)|by apply Hex|lia]. }
  rewrite (st_bind_run _ _ _ _ _ Hn).
  assert (segs_added s ∅ (elf_input elf) [] s1 sp {[[] := space_root sp]}) as Hst0.
  { apply segs_refl; [done|done| |done|by eapply Htk]. intros x [[a Hx]|(w & e & (ar & Har & _) & _)].
    - destruct (kp_new _ _ _ _ K a x Hx) as [He|?]; [by rewrite lookup_empty in He|done].
    - rewrite Ha in Har. by apply elem_of_nil in Har. }
  destruct (load_segments_run fuel s ∅ (elf_input elf) (elf_programs elf) 0 [] s1 sp _ Hst0) as [[Hp He]|(sp2 & s2 & T2 & Hrun & Hst2)];
    [done|done|done| |].
  { left. unfold mbind, st_bind. rewrite Hp. split; [done|]. eapply exhausted_after; [by apply (took_none 0)|exact He|]. simpl. lia. }
  rewrite (st_bind_run _ _ _ _ _ Hrun). simpl app in Hst2. pose proof (sa_areas _ _ _ _ _ _ _ Hst2) as Har2.
  pose proof (stack_added fuel s ∅ (elf_input elf) _ s2 sp2 T2 Hst2 Hsegs Hst) as Hs.
  destruct (top_of_range (elf_input elf) (elf_programs elf) 0 Hsegs ltac:(unfold stack_range, page_size; simpl; lia)) as [Htop _].
  change (stack_range.1 * page_size) with (2 ^ 38 - 8192) in Htop. set (top := top_of (elf_programs elf) 0) in *.
  pose proof (div_ceil_bounds top page_size ltac:(done)) as Hc. unfold page_size in Hc.
  assert (vpn_base (va_ceil top) = div_ceil top page_size * page_size) as Hbase.
  { rewrite va_ceil_spec by lia. apply vpn_base_spec. unfold page_size. lia. }
  destruct Hs as [[Hp He]|(s' & T' & Hrun' & Hinv' & K' & Hfr' & Hsegs' & Htk' & Hstack)]; [left|right].
  - split; [|exact He]. unfold mbind, st_bind in Hp |- *. destruct (alloc_zeroed _ _ s2) as [[stack s3]| |]; [|done..]. unfold stack_range in Hp.
    change (Z.shiftl 1 26 - 2, Z.shiftl 1 26) with (2 ^ 26 - 2, 2 ^ 26). by rewrite Hp.
  - apply st_bind_Done in Hrun' as (stack & s3 & E1 & E2). rewrite (st_bind_run _ _ _ _ _ E1).
    change (Z.shiftl 1 26 - 2, Z.shiftl 1 26) with stack_range. rewrite (st_bind_run _ _ _ _ _ E2).
    rewrite (st_bind_run _ _ _ _ _ (lift_run (LocalContext_set_sp (Z.shiftl 1 38) (LocalContext_user (elf_entry_point elf))) _ _ eq_refl)).
    eexists _, s', T'. split; [reflexivity|]. split; simpl; try done.
    + by rewrite Har2.
    + unfold brk_ok. simpl. rewrite Hbase. unfold page_size. lia.
Qed.

(** ** Copies *)
(** What a copied area means for its addresses. *)
Lemma copy_reads s T s' T' ar addr : copy_of (M := Sv39Manager) s T s' T' ar → inside (addr / page_size) ar →
  byte_at (mc_mem s') T' addr = byte_at (mc_mem s) T addr ∧
  ∃ f pte pte', mapping (mc_mem s) T (addr / page_size) = Some pte ∧ mapping (mc_mem s') T' (addr / page_size) = Some pte' ∧
    pte_flags pte = f ∧ pte_flags pte' = Z.lor f OWNED ∧ ¬ page_used (mc_heap s) (pte_ppn pte').
Proof.
  intros (f & p & q & [Hf Hv] & Hp1 & Hp2 & Hq1 & Hq2 & Hw & Hb & Hi) Hin. destruct (Hw _ Hin) as [Hm Hm'].
  pose proof Hin as [Hlo Hhi]. destruct (addr_in_run ar.1 (addr / page_size) addr Hlo eq_refl) as [E Hoff].
  assert (0 ≤ Z.lor f owned < 2 ^ 10) as Hf' by (exact (proj1 (lor_flags_ok (M := Sv39Manager) f (conj Hf Hv)))).
  split.
  - rewrite (byte_at_run _ _ _ _ _ Hm Hf), (byte_at_run _ _ _ _ _ Hm' Hf') by lia. f_equal.
    rewrite !Z.mul_add_distr_r, <-!Z.add_assoc, E. apply Hb. unfold page_size in *. lia.
  - exists f. eexists _, _. split_and!; [exact Hm|exact Hm'|rewrite build_pte_flags by lia; done| |].
    + by rewrite build_pte_flags by lia.
    + rewrite build_pte_ppn by lia. apply Hi. lia.
Qed.
End Load.
End VmLoad.
