(* ===== verification/VmBoot.v ===== *)
(** * The kernel with address spaces, booted

    The loop that loads the applications: every process gets pages of its own, and when the scheduling loop starts every
    program is in the space of its process and the invariant of VmTheorems.v holds. *)

From S2P Require Import Prelude Bytes Memory Linker KernelContext PageTable AddressSpace SpaceTree SpaceMap SpaceInvariant PageManager VmKernel VmTheorems VmIsolation VmLoad.

Module VmBoot.
Import Vm VmInv VmCalls VmRuns VmLoad.
Section Boot.
Context `{PTC : PageTableCrate, HL : !HeapLaws, PTL : !PageTableLaws}.
Implicit Types (k : kernel) (T U : gmap (list Z) Z) (p q : Process) (sp ks : AddressSpace Sv39Manager) (elf : ElfFile).

(** ** A new process *)
Lemma kinv_push k Ts p s' T : kinv k Ts → kept ∅ (mach k) T s' → space_inv portal s' (address_space p) T →
  fresh_since (mach k) s' (address_space p) T →
  kinv (mkKernel (processes k ++ [p]) s') (Ts ++ [T]) ∧ ∀ j, untouched k (mkKernel (processes k ++ [p]) s') Ts j.
Proof.
  intros [Hlen Hsp Hap] K Hinv Hfr.
  assert (∀ j q U, processes k !! j = Some q → Ts !! j = Some U → space_inv portal s' (address_space q) U ∧
    ∀ w, mapping (mc_mem s') U w = mapping (mc_mem (mach k)) U w) as Hoth.
  { intros j q U Hq HU. destruct (kept_other portal _ _ _ _ (address_space q) U K) as (H1 & _ & H2); [|by eapply Hsp|done].
    intros a b x Ha. by rewrite lookup_empty in Ha. }
  assert (∀ j q U x, processes k !! j = Some q → Ts !! j = Some U → uses s' (address_space q) U x → uses (mach k) (address_space q) U x) as Hback.
  { intros j q U x Hq HU [Ha|(w & pte & Hin & Hm & Hx)]; [by left|right]. exists w, pte. destruct (Hoth j q U Hq HU) as [_ E]. by rewrite E in Hm. }
  assert (∀ j q U x, processes k !! j = Some q → Ts !! j = Some U → uses s' (address_space q) U x → ¬ uses s' (address_space p) T x) as Hnew.
  { intros j q U x Hq HU Hx Hy. apply (Hfr x Hy). eapply uses_used; [by eapply Hsp|by eapply Hback]. }
  split.
  - split; simpl.
    + rewrite !length_app. simpl. lia.
    + intros i q U Hq HU. apply lookup_app_Some in Hq as [Hq|[Hi Hq]], HU as [HU|[Hi2 HU]].
      * by eapply Hoth.
      * apply lookup_lt_Some in Hq. lia.
      * apply lookup_lt_Some in HU. lia.
      * apply list_lookup_singleton_Some in Hq as [_ <-], HU as [_ <-]. done.
    + intros i j q r U V x Hij Hq Hr HU HV. apply lookup_app_Some in Hq, Hr, HU, HV.
      destruct Hq as [Hq|[Hi Hq]], HU as [HU|[Hi2 HU]]; [|apply lookup_lt_Some in Hq; lia|apply lookup_lt_Some in HU; lia|];
      (destruct Hr as [Hr|[Hj Hr]], HV as [HV|[Hj2 HV]]; [|apply lookup_lt_Some in Hr; lia|apply lookup_lt_Some in HV; lia|]);
        try (apply list_lookup_singleton_Some in Hq as [? <-], HU as [_ <-]); try (apply list_lookup_singleton_Some in Hr as [? <-], HV as [_ <-]).
      * intros Hx Hy. apply (Hap i j q r U V x); [done..|by apply (Hback i)|by apply (Hback j)].
      * by apply (Hnew i).
      * intros Hx Hy. by apply (Hnew j r V x).
      * lia.
  - intros j q U Hq HU. simpl. split_and!; [by apply lookup_app_l_Some|by eapply Hoth|]. intros x Hx.
    apply (kp_mem _ _ _ _ K); [|intros a; by rewrite lookup_empty]. eapply uses_used; [by eapply Hsp|done].
Qed.

(** ** The portal *)
Lemma tree_shared (F : Z → Prop) m root T i v : tree F m root T → F i → is_index i →
  tree F (set_entry root i v m) root T ∧ ∀ w, mapping (set_entry root i v m) T w = mapping m T w.
Proof.
  intros Ht HF Hi.
  assert (∀ a x j, T !! a = Some x → is_index j → (a ≠ [] ∨ j ≠ i) → entry (set_entry root i v m) x j = entry m x j) as Hkeep.
  { intros a x j Ha Hj Hne. apply entry_set_ne; [done..|]. destruct Hne as [Hne|Hne]; [left|by right; auto].
    intros <-. apply Hne. eapply (tr_inj _ _ _ _ Ht); [done|apply (tr_root _ _ _ _ Ht)]. }
  split.
  - pose proof Ht as []. split; try done.
    + intros a x j y Ha Hl Hj Hy. rewrite (Hkeep a); [eauto|done..|]. destruct a; [right|by left]. intros ->.
      by apply (tr_local i []).
    + intros a x j Ha Hl Hj Hn Hnf. rewrite (Hkeep a); [eauto|done..|]. destruct a; [right|by left]. intros ->. by apply Hnf.
  - intros w. unfold mapping. destruct (leaf_table T w) as [x|] eqn:E; [|done]. simpl.
    rewrite (Hkeep _ _ _ E); [done|apply index_range|by left].
Qed.

Lemma portal_index : vpn_index_in PROTAL_TRANSIT 2 = 511.
Proof. unfold PROTAL_TRANSIT. rewrite VPN_MAX_spec, vpn_index_in_spec by lia. reflexivity. Qed.

Lemma share_portal_run ks sp s T : space_inv portal s sp T → ∃ s', share_portal ks sp s = Done ((), s') ∧ mc_heap s' = mc_heap s ∧
  space_inv portal s' sp T ∧ kept T s T s' ∧ ∀ w, mapping (mc_mem s') T w = mapping (mc_mem s) T w.
Proof.
  intros [Hal [Ht Hu] Hrg Hap Hrun Honly]. unfold share_portal. rewrite portal_index. unfold aligned in Hal. rewrite Hal.
  eexists. split; [reflexivity|]. rewrite mc_mem_set. set (v := read_word _ _).
  fold (set_entry (space_root sp) 511 v (mc_mem s)).
  destruct (tree_shared portal (mc_mem s) (space_root sp) T 511 v Ht eq_refl ltac:(split; unfold entries; lia)) as [Ht' Hm].
  split_and!; [done| | |done].
  - split; [done|split; [done|done]|done|done| |].
    + intros ar Har. destruct (Hrun ar Har) as (f & g & H1 & H2 & H3 & Hw). exists f, g. split_and!; [done..|]. intros w Hin.
      rewrite mc_mem_set, Hm. by apply Hw.
    + intros w. rewrite mc_mem_set, Hm. apply Honly.
  - split; simpl; auto. intros x _ HT. rewrite mc_mem_set. apply set_entry_page; [split; unfold entries; lia|].
    intros E. apply (HT []). rewrite E. apply (tr_root _ _ _ _ Ht).
Qed.

(** ** Programs in their processes *)
Definition has_program k p T elf : Prop :=
  Forall (seg_in (mach k) T (elf_input elf)) (loads (elf_programs elf)) ∧
  Forall (fun ph => seg_range ph ∈ areas (address_space p)) (loads (elf_programs elf)) ∧
  LocalContext_pc (f_context (context p)) = elf_entry_point elf ∧ program_brk p = heap_bottom p.

(** A process that is left alone keeps its program. *)
Lemma has_program_keep k k' Ts j p T elf : kinv k Ts → processes k !! j = Some p → Ts !! j = Some T →
  untouched k k' Ts j → has_program k p T elf → has_program k' p T elf.
Proof.
  intros Hk Hp HT Hun (Hs & Ha & He). destruct (Hun p T Hp HT) as (_ & Hm & Hb). split; [|done].
  rewrite Forall_forall in Hs, Ha |- *. intros ph Hph. destruct (Hs ph Hph) as [H1 H2]. specialize (Ha ph Hph).
  split; [|intros w Hw; rewrite Hm; by apply H2].
  intros x Hx. rewrite <-H1 by done. unfold byte_at. set (addr := (seg_range ph).1 * page_size + x) in *. rewrite Hm.
  specialize (H1 x Hx). unfold byte_at in H1. destruct (mapping (mc_mem (mach k)) T (addr / page_size)) as [e|] eqn:E; [|done].
  simpl. f_equal. apply Hb. right. exists (addr / page_size), e. pose proof (Z.mod_pos_bound addr page_size ltac:(done)).
  split_and!; [|done|apply (Z.div_unique _ _ _ (addr mod page_size)); lia].
  exists (seg_range ph). split; [done|]. unfold inside, range_pages, addr in *. rewrite Z.add_comm, Z.div_add by done.
  assert (0 ≤ x / page_size < (seg_range ph).2 - (seg_range ph).1); [|lia].
  split; [apply Z.div_pos|apply Z.div_lt_upper_bound]; unfold page_size in *; lia.
Qed.

(** A step that adds a process with its program. *)
Record spawned k Ts elf k' p T : Prop := {
  sw_procs : processes k' = processes k ++ [p];
  sw_inv : vm_inv k' (Ts ++ [T]);
  sw_old j : untouched k k' Ts j;
  sw_program : has_program k' p T elf;
  sw_kept : kept ∅ (mach k) T (mach k');
  sw_took : took (M := Sv39Manager) (pages_needed elf) (mach k) (mach k');
}.

Lemma spawn_run k Ts ks elf p s1 T : vm_inv k Ts → loaded_process elf (mach k) p s1 T →
  ∃ s2, share_portal ks (address_space p) s1 = Done ((), s2) ∧
    spawned k Ts elf (mkKernel (processes k ++ [p]) s2) p T.
Proof.
  intros [Hk Hb] L. destruct (share_portal_run ks _ _ _ (lp_inv _ _ _ _ _ L)) as (s2 & Hs & Hh & Hinv & K & Hm).
  exists s2. split; [done|]. assert (kept ∅ (mach k) T s2) as K2 by (eapply kept_trans; [apply (lp_kept _ _ _ _ _ L)|done]).
  assert (fresh_since (mach k) s2 (address_space p) T) as Hfr.
  { intros x [Ha|(w & e & Hin & He & Hx)]; apply (lp_fresh _ _ _ _ _ L); [by left|right]. exists w, e. by rewrite <-Hm. }
  destruct (kinv_push k Ts p s2 T Hk K2 Hinv Hfr) as [Hk' Hun]. split; simpl; [done| |done| |done|].
  - split; [done|]. simpl. apply Forall_app_2; [done|]. apply Forall_singleton, L.
  - pose proof (lp_areas _ _ _ _ _ L) as Ha. split; [|split; [|split; [apply L|apply L]]].
    + pose proof (lp_segs _ _ _ _ _ L) as Hsegs. rewrite Forall_forall in Hsegs |- *. intros ph Hph.
      eapply seg_keep; [apply (lp_inv _ _ _ _ _ L)|exact K| |done|by apply Hsegs].
      rewrite Ha. apply elem_of_app. left. by apply list_elem_of_fmap_2.
    + apply Forall_forall. intros ph Hph. rewrite Ha. apply elem_of_app. left. by apply list_elem_of_fmap_2.
  - destruct (lp_took _ _ _ _ _ L) as (n & Hn & Ht). exists n. simpl. by rewrite Hh.
Qed.

(** ** The loop over the applications *)

(** The applications from number [i] on: they are run where the kernel image has them, their bytes and the table of
    their positions are in pages the heap does not give, and [parse] makes programs of them that can be loaded, or files
    for another machine. *)
Record apps_ready (fuel : nat) (parse : list Z → option ElfFile) (meta : AppMeta) (i : Z) (elfs : list ElfFile) (s : machine) : Prop := {
  ar_place : am_base meta = 0 ∧ am_step meta = 0 ∧ 0 ≤ i ∧ am_count meta = i + Z.of_nat (length elfs);
  ar_pos j elf : elfs !! j = Some elf →
    let pos := app_pos meta (mc_mem s) (i + Z.of_nat j) in
    let next := app_pos meta (mc_mem s) (i + Z.of_nat j + 1) in
    0 ≤ pos ≤ next ∧ next ≤ usize_max ∧ parse (mem_read (mc_mem s) pos (Z.to_nat (next - pos))) = Some elf ∧
    ∀ x, pos ≤ x < next → page_used (mc_heap s) (x / page_size);
  ar_table x : am_first meta + 8 * i ≤ x < am_first meta + 8 * (am_count meta + 1) → page_used (mc_heap s) (x / page_size);
  ar_elf : Forall (fun elf => riscv_program elf = true → elf_ok fuel elf) elfs;
}.

Lemma used_same s T s' a n : kept ∅ s T s' → (∀ x, a ≤ x < a + n → page_used (mc_heap s) (x / page_size)) → same_bytes a n (mc_mem s) (mc_mem s').
Proof. intros K Hu x Hx. apply (kp_mem _ _ _ _ K); [by apply Hu|]. intros b. by rewrite lookup_empty. Qed.

Lemma ready_pos_same fuel parse meta i elfs s T s' n : apps_ready fuel parse meta i elfs s → kept ∅ s T s' → i ≤ n ≤ am_count meta →
  app_pos meta (mc_mem s') n = app_pos meta (mc_mem s) n.
Proof.
  intros Hr K Hn. apply read_word_ext. eapply used_same; [done|]. intros x Hx. apply (ar_table _ _ _ _ _ _ Hr). lia.
Qed.

Lemma apps_next fuel parse meta i elf elfs s T s' : apps_ready fuel parse meta i (elf :: elfs) s → kept ∅ s T s' →
  apps_ready fuel parse meta (i + 1) elfs s'.
Proof.
  intros Hr K. pose proof Hr as [(B1 & B2 & B3 & B4) Hp Ht He]. simpl in B4. split.
  - split_and!; [done|done|lia|lia].
  - intros j e Hj. specialize (Hp (S j) e Hj). pose proof (lookup_lt_Some _ _ _ Hj).
    replace (i + Z.of_nat (S j)) with (i + 1 + Z.of_nat j) in Hp by lia.
    rewrite !(ready_pos_same fuel parse meta i (elf :: elfs) s T s') by (done || lia).
    destruct Hp as (H1 & H2 & H3 & H4). split_and!; [lia|lia|done| |].
    + rewrite <-H3. f_equal. apply mem_read_ext. eapply used_same; [done|]. intros x Hx. apply H4. lia.
    + intros x Hx. apply (kp_used _ _ _ _ K). by apply H4.
  - intros x Hx. apply (kp_used _ _ _ _ K), Ht. lia.
  - by apply Forall_cons in He as [_ He].
Qed.

(** The next application, which is not moved. *)
Lemma next_run fuel parse meta i elf elfs k : apps_ready fuel parse meta i (elf :: elfs) (mach k) → ∃ pos size,
  on_machine (fun s => '(r, w) ← on_mem (AppIterator_next (mkAppIterator meta i)) (mc_world s); Done (r, mkMachine w (mc_heap s))) k =
    Done ((Some (pos, size), mkAppIterator meta (i + 1)), k) ∧ parse (mem_read (mc_mem (mach k)) pos (Z.to_nat size)) = Some elf.
Proof.
  intros [(B1 & B2 & B3 & B4) Hp _ _]. destruct (Hp 0%nat elf eq_refl) as (H1 & H2 & H3 & _). simpl in B4.
  rewrite Z.add_0_r in H1, H2, H3. set (pos := app_pos meta (mc_mem (mach k)) i) in *.
  set (next := app_pos meta (mc_mem (mach k)) (i + 1)) in *. exists pos, (next - pos). split; [|done].
  destruct k as [ps [w h]]. unfold mc_mem in pos, next. simpl in pos, next. unfold on_machine, on_mem, AppIterator_next. simpl.
  rewrite (proj2 (Z.leb_gt _ _)) by lia. fold pos next. unfold usize_sub, usize_mul, usize_add.
  rewrite (checked_ok 0 usize_max (next - pos)) by lia. simpl.
  rewrite B1, B2, Z.mul_0_r. destruct w. done.
Qed.

Lemma no_next fuel parse meta i k : apps_ready fuel parse meta i [] (mach k) →
  on_machine (fun s => '(r, w) ← on_mem (AppIterator_next (mkAppIterator meta i)) (mc_world s); Done (r, mkMachine w (mc_heap s))) k =
    Done ((None, mkAppIterator meta i), k).
Proof.
  intros [(B1 & B2 & B3 & B4) _ _ _]. simpl in B4. destruct k as [ps [w h]]. unfold on_machine, on_mem, AppIterator_next. simpl.
  rewrite (proj2 (Z.leb_le _ _)) by lia. by destruct w.
Qed.

Lemma untouched_app k1 k2 k3 Ts Us j : untouched k1 k2 Ts j → untouched k2 k3 (Ts ++ Us) j → untouched k1 k3 Ts j.
Proof.
  intros H12 H23. destruct (Ts !! j) as [U|] eqn:E; [|intros q V _ HV; congruence].
  eapply untouched_trans; [|done|done]. rewrite E. by apply lookup_app_l_Some.
Qed.

(** The pages the programs of this machine need. *)
Definition all_needed (elfs : list ElfFile) : Z := foldr (fun elf n => (if riscv_program elf then pages_needed elf else 0) + n) 0 elfs.

Lemma elf_pages_nonneg fuel elf : elf_ok fuel elf → 0 ≤ pages_needed elf.
Proof.
  intros [[Hs _] _ _]. unfold pages_needed. assert (0 ≤ pages_of (seg_range <$> loads (elf_programs elf))); [|lia].
  apply pages_of_nonneg. intros ar (ph & -> & Hph)%list_elem_of_fmap_1. rewrite Forall_forall in Hs.
  destruct (segment_range _ ph (Hs ph Hph)) as ((_ & ? & _) & _). lia.
Qed.

Lemma all_needed_nonneg fuel elfs : Forall (fun elf => riscv_program elf = true → elf_ok fuel elf) elfs → 0 ≤ all_needed elfs.
Proof.
  induction 1 as [|elf elfs He _ IH]; simpl; [done|]. destruct (riscv_program elf); [|lia].
  pose proof (elf_pages_nonneg fuel elf (He eq_refl)). lia.
Qed.

(** What the loop makes of [elfs]: the processes [ps] with the spaces [Us]. *)
Record apps_loaded k (Ts : list (gmap (list Z) Z)) (elfs : list ElfFile) k' (ps : list Process) (Us : list (gmap (list Z) Z)) : Prop := {
  bt_procs : processes k' = processes k ++ ps;
  bt_inv : vm_inv k' (Ts ++ Us);
  bt_old j : untouched k k' Ts j;
  bt_count : length ps = length (filter (fun elf => riscv_program elf = true) elfs);
  bt_program j elf : filter (fun elf => riscv_program elf = true) elfs !! j = Some elf →
    ∃ p T, ps !! j = Some p ∧ Us !! j = Some T ∧ has_program k' p T elf;
}.

Lemma apps_loaded_more k Ts elf k1 p T elfs k' ps Us : length Ts = length (processes k) → riscv_program elf = true →
  spawned k Ts elf k1 p T → apps_loaded k1 (Ts ++ [T]) elfs k' ps Us → apps_loaded k Ts (elf :: elfs) k' (p :: ps) (T :: Us).
Proof.
  intros Hlen Hrv S [Hps Hinv Hold Hcount Hprog]. split.
  - by rewrite Hps, (sw_procs _ _ _ _ _ _ S), <-app_assoc.
  - by rewrite <-app_assoc in Hinv.
  - intros j. eapply untouched_app; [apply (sw_old _ _ _ _ _ _ S)|apply Hold].
  - rewrite filter_cons, decide_True by done. simpl. by rewrite Hcount.
  - rewrite filter_cons, decide_True by done. intros [|j] e; simpl; [|apply Hprog]. intros [= <-]. exists p, T. split_and!; [done|done|].
    eapply has_program_keep; [apply (sw_inv _ _ _ _ _ _ S)| | |apply (Hold (length Ts))|apply S].
    + by rewrite (sw_procs _ _ _ _ _ _ S), Hlen, list_lookup_middle.
    + by rewrite list_lookup_middle.
Qed.

Lemma apps_loaded_skip k Ts elf elfs k' ps Us : riscv_program elf = false → apps_loaded k Ts elfs k' ps Us →
  apps_loaded k Ts (elf :: elfs) k' ps Us.
Proof.
  intros Hrv [Hps Hinv Hold Hcount Hprog].
  split; [done|done|done|rewrite filter_cons, decide_False by (rewrite Hrv; done); done|].
  rewrite filter_cons, decide_False by (rewrite Hrv; done). done.
Qed.

Lemma apps_loaded_none k Ts : vm_inv k Ts → apps_loaded k Ts [] k [] [].
Proof. intros Hi. split; [by rewrite app_nil_r|by rewrite app_nil_r|by intros j q U ? ?|done|done]. Qed.

Lemma load_processes_run fuel parse ks meta elfs : ∀ rounds i k Ts, apps_ready fuel parse meta i elfs (mach k) → vm_inv k Ts →
  (length elfs < rounds)%nat →
  (load_processes rounds fuel parse ks (mkAppIterator meta i) k = Panic ∧ exhausted (M := Sv39Manager) (all_needed elfs) (mach k)) ∨
  ∃ k' ps Us, load_processes rounds fuel parse ks (mkAppIterator meta i) k = Done ((), k') ∧ apps_loaded k Ts elfs k' ps Us.
Proof.
  induction elfs as [|elf elfs IH]; intros [|rounds] i k Ts Hr Hvm Hlen; simpl in Hlen; try lia; cbn [load_processes].
  { right. exists k, [], []. rewrite (st_bind_run _ _ _ _ _ (no_next fuel parse meta i k Hr)). split; [done|by apply apps_loaded_none]. }
  destruct (next_run fuel parse meta i elf elfs k Hr) as (pos & size & Hnext & Hparse).
  rewrite (st_bind_run _ _ _ _ _ Hnext), (st_bind_run get_st _ k k k eq_refl), Hparse.
  rewrite (st_bind_run _ _ _ _ _ (lift_run (unwrap (Some elf)) _ _ eq_refl)).
  pose proof (ar_elf _ _ _ _ _ _ Hr) as Hes. pose proof Hes as [He Hes']%Forall_cons.
  pose proof (all_needed_nonneg fuel elfs Hes') as Hn. cbn [all_needed foldr]. fold (all_needed elfs).
  destruct (riscv_program elf) eqn:Hrv.
  2: { assert (Process_new fuel elf (mach k) = Done (None, mach k)) as Hnone.
       { unfold Process_new. fold (riscv_program elf). by rewrite Hrv. }
       rewrite (st_bind_run _ _ _ _ _ (on_machine_run _ _ _ _ Hnone)).
       replace (set_mach (mach k) k) with k by (by destruct k).
       destruct (IH rounds (i + 1) k Ts) as [?|(k' & ps & Us & Hrun & Hal)];
         [eapply apps_next; [done|apply kept_refl]|done|lia|by left|right].
       exists k', ps, Us. split; [done|by apply apps_loaded_skip]. }
  destruct (process_new_run fuel elf (mach k) (He eq_refl) Hrv) as [[Hp Hex]|(p & s1 & T & Hp & L)].
  { left. unfold mbind, st_bind, on_machine. rewrite Hp. split; [done|]. eapply exhausted_after; [by apply (took_none 0)|exact Hex|lia]. }
  destruct (spawn_run k Ts ks elf p s1 T Hvm L) as (s2 & Hs & S).
  rewrite (st_bind_run _ _ _ _ _ (on_machine_run _ _ _ _ Hp)).
  rewrite (st_bind_run _ _ _ _ _ (on_machine_run _ () s2 (set_mach s1 k) Hs)).
  rewrite (st_bind_run get_st _ _ _ _ eq_refl), (st_bind_run _ _ _ (mkKernel (processes k ++ [p]) s2) () eq_refl).
  destruct (IH rounds (i + 1) (mkKernel (processes k ++ [p]) s2) (Ts ++ [T])) as [[Hpn Hex]|(k' & ps & Us & Hrun & Hal)];
    [eapply apps_next; [done|apply S]|apply S|lia|left|right].
  - split; [done|]. eapply exhausted_after; [apply (sw_took _ _ _ _ _ _ S)|exact Hex|lia].
  - exists k', (p :: ps), (T :: Us). split; [done|]. eapply apps_loaded_more; [apply Hvm|done|exact S|done].
Qed.
End Boot.
End VmBoot.
