(* ===== verification/VmDemo.v ===== *)
(** * A kernel with two processes

    Two processes with empty address spaces on the plain instances of PageTable.v, and a program, for the witnesses of the
    theorems about address spaces. *)

From S2P Require Import Prelude Bytes Memory KernelContext PageTable AddressSpace SpaceTree SpaceMap SpaceInvariant PageManager VmKernel VmTheorems VmIsolation VmLoad.

Module VmDemo.
Import Vm VmInv VmCalls VmRuns VmLoad.
#[local] Existing Instance BumpHeap.
#[local] Existing Instance BumpHeapLaws.
#[local] Instance demo_crate : PageTableCrate := Sv39Crate.
#[local] Instance demo_laws : PageTableLaws := Sv39Laws.

Definition demo_space (s : machine) : AddressSpace Sv39Manager * machine :=
  match AddressSpace_new s with
  | Done r => r
  | _ => (mkSpace [] (mkSv39 0), s)
  end.
Definition demo_first := demo_space demo_machine.
Definition demo_second := demo_space demo_first.2.
Definition demo_process (sp : AddressSpace Sv39Manager) : Process :=
  mkProcess (mkForeign LocalContext_empty 0) sp 65536 65536 (replicate 500 0).
Definition demo_kernel : kernel := mkKernel [demo_process demo_first.1; demo_process demo_second.1] demo_second.2.
Definition demo_tables : list (gmap (list Z) Z) := [{[[] := 0x80300]}; {[[] := 0x80301]}].

Lemma demo_new s : (if AddressSpace_new (M := Sv39Manager) s is Done _ then true else false) = true → ∃ root, space_root (demo_space s).1 = root ∧ areas (demo_space s).1 = [] ∧
  space_inv portal (demo_space s).2 (demo_space s).1 {[[] := root]} ∧ kept ∅ s {[[] := root]} (demo_space s).2.
Proof.
  intros Hp. destruct (new_run (M := Sv39Manager) portal s) as [E|(sp & s' & Hn & Ha & Hi & K)]; [by rewrite E in Hp|].
  unfold demo_space. rewrite Hn. simpl. by eexists.
Qed.

Lemma root_uses s sp root x : areas sp = [] → uses (M := Sv39Manager) s sp {[[] := root]} x → x = root.
Proof.
  intros Ha [[a Hl]|(w & pte & (ar & Hin & _) & _)].
  - by apply lookup_singleton_Some in Hl as [_ <-].
  - rewrite Ha in Hin. by apply elem_of_nil in Hin.
Qed.

Lemma demo_vm_inv : vm_inv demo_kernel demo_tables.
Proof.
  destruct (demo_new demo_machine) as (r1 & E1 & A1 & I1 & K1); [vm_compute; reflexivity|].
  destruct (demo_new demo_first.2) as (r2 & E2 & A2 & I2 & K2); [vm_compute; reflexivity|].
  vm_compute in E1. vm_compute in E2. subst r1 r2. fold demo_first in I1, A1. fold demo_second in I2, A2.
  destruct (kept_other portal _ _ _ _ demo_first.1 _ K2 ltac:(intros a b p Ha; by rewrite lookup_empty in Ha) I1) as (I1' & _ & _).
  fold demo_second in I1'. split; [|by repeat constructor].
  split; [done| |].
  - intros [|[|j]] p T [= <-] [= <-]; done.
  - intros [|[|i]] [|[|j]] p q T U x Hne [= <-] [= <-] [= <-] [= <-] Hx Hy; try done;
      apply root_uses in Hx; try done; apply root_uses in Hy; try done; simplify_eq.
Qed.

(** A program of one segment: three bytes of the file at 0x10004, and zeroes up to 5000 bytes. *)
Definition demo_elf : ElfFile :=
  mkElfFile true true true 0x10004 [mkProgramHeader true 4 3 0x10004 5000 true false true] [0; 0; 0; 0; 11; 22; 33].

Lemma demo_elf_ok : elf_ok 8 demo_elf.
Proof.
  split; [|repeat constructor; vm_compute; congruence|lia]. split.
  - apply Forall_singleton. split; simpl; [lia|unfold stack_range, page_size; simpl; lia|lia|reflexivity].
  - split; [constructor|done].
Qed.
End VmDemo.
