(* ===== verification/VmProperties.v ===== *)
(** * What the memory calls guarantee

    The properties of address spaces and of the kernel that uses them, with witnesses on the kernel of VmDemo.v. *)

From S2P Require Import Prelude Bytes Memory Linker KernelContext PageTable AddressSpace SpaceTree SpaceMap SpaceInvariant PageManager Syscall BatchKernel TaskKernel VmKernel VmTheorems VmIsolation VmLoad VmBoot VmDemo.

Module VmProps.
Import Vm VmInv VmCalls VmRuns VmLoad VmBoot VmDemo.
Section Properties.
Context `{PTC : PageTableCrate, HL : !HeapLaws, PTL : !PageTableLaws}.
Implicit Types (k : kernel) (T : gmap (list Z) Z) (p : Process).


(** C27: [munmap] undoes [mmap]: after a successful [mmap], [munmap] of the same range answers 0, every page is mapped as
    before the two calls (the range not at all), the areas cover the same pages, and every space is well formed. *)
Theorem mmap_munmap_roundtrip fuel k Ts i p T addr len prot fl fd off k1 : kinv k Ts → processes k !! i = Some p → Ts !! i = Some T →
  0 ≤ addr → 0 < len → addr + len < 2 ^ 38 → len / page_size + 2 ≤ Z.of_nat fuel →
  mmap fuel i addr len prot fl fd off k = Done (0, k1) →
  ∃ k2 p2 T2, munmap i addr len k1 = Done (0, k2) ∧ kinv k2 (<[i := T2]> Ts) ∧ processes k2 !! i = Some p2 ∧
    (∀ w, is_vpn w → mapping (mc_mem (mach k2)) T2 w = mapping (mc_mem (mach k)) T w) ∧
    ∀ w, in_areas w (areas (address_space p2)) ↔ in_areas w (areas (address_space p)).
Proof.
  intros Hk Hp HT Ha Hl Hs Hf Hrun. pose proof (mmap_run fuel k Ts i p T addr len prot fl fd off Hk Hp HT Ha Hl Hs Hf) as Hm.
  destruct (page_range_ok addr len Ha ltac:(lia) Hs) as (R1 & R2 & R3 & R4 & _). specialize (R4 Hl).
  destruct (decide _) as [(Hal & _ & Hfree)|]; [|rewrite Hrun in Hm; discriminate].
  destruct Hm as [[Hpn _]|(k' & T1 & p1 & Hd & Hps & _ & Har & f & Hk1 & _ & Hm1 & _)]; [congruence|].
  rewrite Hrun in Hd. injection Hd as <-. assert (i < length (processes k))%nat as Hi by (by eapply lookup_lt_Some).
  assert (i < length Ts)%nat as HiT by (by eapply lookup_lt_Some).
  assert (processes k1 !! i = Some p1) as Hp1 by (by rewrite Hps, list_lookup_insert_eq).
  assert (<[i := T1]> Ts !! i = Some T1) as HT1 by (by rewrite list_lookup_insert_eq).
  assert (range_free portal (mc_mem (mach k)) T (page_range addr len)) as Hfr.
  { eapply free_range; [by eapply ki_space|split_and!; lia| |done]. intros w Hw. apply user_page. unfold inside in Hw. lia. }
  destruct (munmap_run k1 _ i p1 T1 addr len Hk1 Hp1 HT1 Ha ltac:(lia) Hs) as [Hyes _].
  destruct Hyes as (k2 & p2 & Hd2 & Hps2 & _ & Har2 & Hk2 & _ & Hm2).
  { split; [done|]. intros w Hw. unfold inside in Hw. rewrite Hm1 by (unfold is_vpn; lia). unfold add_run. by rewrite decide_True by lia. }
  exists k2, p2, T1. split_and!; [done|done| | |].
  - rewrite Hps2, list_lookup_insert_eq; [done|]. by rewrite Hps, length_insert.
  - intros w Hw. rewrite Hm2 by done. unfold drop_run. case_decide as Hin.
    + symmetry. apply (Hfr w). lia.
    + rewrite Hm1 by done. unfold add_run. by rewrite decide_False by lia.
  - intros w. rewrite Har2, Har, cut_areas_inside by lia. unfold in_areas. setoid_rewrite elem_of_app.
    setoid_rewrite list_elem_of_singleton. apply have_mapped_spec in Hfree. rewrite Forall_forall in Hfree. split.
    + intros [(ar & [Hin| ->] & Hw) Hn]; [by exists ar|done].
    + intros (ar & Hin & Hw). split; [exists ar; auto|]. specialize (Hfree ar Hin). unfold disjoint_ranges, inside in *. lia.
Qed.

(** [munmap] on every branch: 0 exactly when the address is aligned and every page of the range is mapped, and then
    those pages and no others are gone and the areas are cut accordingly; otherwise -1 and nothing changes.  It never
    stops the kernel. *)
Theorem munmap_spec k Ts i p T addr len : kinv k Ts → processes k !! i = Some p → Ts !! i = Some T →
  0 ≤ addr → 0 ≤ len → addr + len < 2 ^ 38 →
  let all_mapped := ∀ w, inside w (page_range addr len) → mapping (mc_mem (mach k)) T w ≠ None in
  (addr mod page_size = 0 ∧ all_mapped → ∃ k' p', munmap i addr len k = Done (0, k') ∧ processes k' = <[i := p']> (processes k) ∧
     same_heap p p' ∧ areas (address_space p') = concat (cut_area (page_range addr len) <$> areas (address_space p)) ∧
     lost_pages k Ts i T (page_range addr len) k') ∧
  (¬ (addr mod page_size = 0 ∧ all_mapped) → munmap i addr len k = Done (-1, k)).
Proof. apply munmap_run. Qed.

(** [sbrk] on every branch: a break below the bottom of the heap is refused; otherwise the old break is the answer,
    the break moves by [size], growing over free pages maps zeroed, user-writable pages exactly between the two rounded
    breaks (or stops the kernel when the heap cannot give three pages for each), shrinking unmaps exactly those; every page from the bottom
    of the heap to the break stays mapped. *)
Theorem sbrk_spec fuel k Ts i p T size : kinv k Ts → processes k !! i = Some p → Ts !! i = Some T → brk_ok p → heap_mapped k p T →
  - 2 ^ 31 ≤ size < 2 ^ 31 → program_brk p + size < 2 ^ 38 →
  let old_ceil := div_ceil (program_brk p) page_size in
  let new_ceil := div_ceil (program_brk p + size) page_size in
  new_ceil - old_ceil ≤ Z.of_nat fuel → (old_ceil < new_ceil → have_mapped (old_ceil, new_ceil) (address_space p) = false) →
  if decide (program_brk p + size < heap_bottom p) then sbrk fuel i size k = Done (-1, k)
  else (sbrk fuel i size k = Panic ∧ exhausted (M := Sv39Manager) (3 * (new_ceil - old_ceil)) (mach k)) ∨
    ∃ k' p' T', sbrk fuel i size k = Done (program_brk p, k') ∧ processes k' = <[i := p']> (processes k) ∧
      program_brk p' = program_brk p + size ∧ brk_ok p' ∧ heap_mapped k' p' T' ∧
      if decide (0 < size) then got_pages k Ts i T (old_ceil, new_ceil) (Z.lor (user_bits false true true) OWNED) k' T'
      else T' = T ∧ lost_pages k Ts i T (new_ceil, old_ceil) k'.
Proof.
  intros Hk Hp HT Hb Hh Hs Hnew old_ceil new_ceil Hfuel Hfree. pose proof Hb as [Hb1 Hb2]. case_decide as Hlow; [by eapply sbrk_refused|].
  destruct (decide (0 < size)) as [Hpos|Hneg].
  - pose proof (ceil_range (program_brk p) ltac:(lia)). pose proof (ceil_range (program_brk p + size) ltac:(lia)).
    destruct (sbrk_grow fuel k Ts i p T size Hk Hp HT Hb Hs Hpos Hnew Hfree) as [?|(k' & T' & p' & Hr & Hps & E1 & E2 & Hm & Hgot)]; [done|by left|right].
    exists k', p', T'. split_and!; [done|done|done| |by apply Hm|done]. unfold brk_ok. rewrite E1, E2. lia.
  - right. destruct (sbrk_shrink fuel k Ts i p T size Hk Hp HT Hb Hs) as (k' & p' & Hr & Hps & E1 & E2 & Hm & Hlost); [lia|lia|].
    exists k', p', T. split_and!; [done|done|done| |by apply Hm|done|done]. unfold brk_ok. rewrite E1, E2. lia.
Qed.

(** Growing the heap into a mapped page stops the kernel: [sbrk] does not look whether the pages above the break are
    free, and the mapper asserts that they are. *)
Theorem sbrk_collision_panics fuel k Ts i p T size w : kinv k Ts → processes k !! i = Some p → Ts !! i = Some T → brk_ok p →
  0 < size < 2 ^ 31 → program_brk p + size < 2 ^ 38 →
  div_ceil (program_brk p + size) page_size - div_ceil (program_brk p) page_size ≤ Z.of_nat fuel →
  div_ceil (program_brk p) page_size ≤ w < div_ceil (program_brk p + size) page_size → mapping (mc_mem (mach k)) T w ≠ None →
  sbrk fuel i size k = Panic.
Proof.
  intros Hk Hp HT Hb Hs Hnew Hfuel Hw Hm. pose proof Hb as [Hb1 Hb2].
  pose proof (ceil_range (program_brk p) ltac:(lia)). pose proof (ceil_range (program_brk p + size) ltac:(lia)).
  by apply (sbrk_blocked fuel k Ts i p T size Hk Hp HT Hb ltac:(lia) w); [lia|done|lia|..].
Qed.

(** [cloneself], the copy behind [fork], unless the heap cannot give three pages for each: the new space has the same
    areas, every address of them holds the same byte in both, with the same permissions, the frames are new, and no page
    belongs to both; the source is as before. *)
Theorem clone_copies fuel s (sp new : AddressSpace Sv39Manager) T Tn : space_inv portal s sp T → space_inv portal s new Tn →
  areas new = [] → (∀ x, uses s sp T x → ¬ uses s new Tn x) → (∀ ar, ar ∈ areas sp → ar.2 - ar.1 ≤ Z.of_nat fuel) →
  (cloneself fuel sp new s = Panic ∧ exhausted (M := Sv39Manager) (3 * pages_of (areas sp)) s) ∨
  ∃ sp' s' Tn', cloneself fuel sp new s = Done (sp', s') ∧ areas sp' = areas sp ∧
    space_inv portal s' sp' Tn' ∧ space_inv portal s' sp T ∧ (∀ x, uses s' sp T x → ¬ uses s' sp' Tn' x) ∧
    ∀ addr, in_areas (addr / page_size) (areas sp) →
      byte_at (mc_mem s') Tn' addr = byte_at (mc_mem s) T addr ∧ byte_at (mc_mem s') T addr = byte_at (mc_mem s) T addr ∧
      ∃ pte pte', mapping (mc_mem s) T (addr / page_size) = Some pte ∧ mapping (mc_mem s') Tn' (addr / page_size) = Some pte' ∧
        pte_flags pte' = Z.lor (pte_flags pte) OWNED.
Proof.
  intros Hsp Hnew He Hap Hfuel.
  assert (tables_apart Tn T) as Hta by (intros a b x Ha Hb; apply (Hap x); left; by eexists).
  assert (frames_clear s sp T Tn) as Hfc.
  { intros ar w pte Har Hw Hm a Ha. apply (Hap (pte_ppn pte)); [right; exists w, pte; split_and!; [by exists ar|done..]|left; by exists a]. }
  destruct (cloneself_run portal sp s T Tn fuel Hsp Hta Hfc new Hnew He Hfuel) as [?|(s' & Tn' & Hrun & Hinv & K & Hcopy)]; [by left|right].
  destruct (kept_other portal _ _ _ _ _ _ K Hta Hsp) as (Hsp' & _ & Hm). eexists _, s', Tn'. split_and!; [done|done|done|done| |].
  - intros x Hx Hy. assert (uses s sp T x) as Hx0.
    { destruct Hx as [?|(w & pte & Hin & Hmw & Hp)]; [by left|right]. exists w, pte. by rewrite Hm in Hmw. }
    pose proof (uses_used _ _ _ _ _ Hsp Hx0) as Hu. destruct Hy as [[a Ha]|(w & pte & (ar & Har & Hw) & Hmw & <-)].
    + destruct (kp_new _ _ _ _ K a x Ha) as [Ho|Hn]; [|done]. apply (Hap x Hx0). left. by exists a.
    + destruct (copy_reads s T s' Tn' ar (w * page_size) (Hcopy ar Har)) as (_ & f & e & e' & _ & E' & _ & _ & Hn);
        rewrite Z.div_mul in * by done; [done|]. rewrite Hmw in E'. by injection E' as ->.
  - intros addr (ar & Har & Hw). destruct (copy_reads s T s' Tn' ar addr (Hcopy ar Har) Hw) as (E & f & e & e' & E1 & E2 & F1 & F2 & _).
    split_and!; [done| |exists e, e'; split_and!; [done..|by rewrite F1]]. unfold byte_at. rewrite Hm, E1. simpl. f_equal.
    destruct (frame_data portal s sp T (addr / page_size) e Hsp ltac:(by exists ar) E1) as [Hu _].
    pose proof (Z.mod_pos_bound addr page_size ltac:(done)).
    assert ((pte_ppn e * page_size + addr mod page_size) / page_size = pte_ppn e) as Hd.
    { symmetry. apply (Z.div_unique _ _ _ (addr mod page_size)); lia. }
    apply (kp_mem _ _ _ _ K); rewrite Hd; [done|]. intros a Ha. exact (Hfc ar _ e Har Hw E1 a Ha).
Qed.

(** C28: [Process::new] on a program for this machine whose segments lie in the file and below the stack, no two in one page:
    unless the heap cannot give the pages, the process has a well-formed space of pages that were free, exactly the
    segments and the stack are mapped, every segment holds the bytes of the file followed by zeroes with its own
    permissions, the stack is zeroed, the heap starts empty on the page above the highest segment, the program starts at
    its entry with the stack pointer at the top of the stack, and no byte of a page in use changed.  A file for another
    machine gives no process and changes nothing. *)
Theorem process_new_spec fuel elf s : elf_ok fuel elf →
  if riscv_program elf then
    (Process_new fuel elf s = Panic ∧ exhausted (M := Sv39Manager) (pages_needed elf) s) ∨
    ∃ p s' T, Process_new fuel elf s = Done (Some p, s') ∧ loaded_process elf s p s' T
  else Process_new fuel elf s = Done (None, s).
Proof.
  intros Hok. destruct (riscv_program elf) eqn:E; [by apply process_new_run|]. unfold Process_new. fold (riscv_program elf). by rewrite E.
Qed.

(** C24: Booting establishes what [vm_isolation] keeps: from a kernel without processes, the loop over the applications
    loads every program for this machine into a process of its own, in order, unless the heap cannot give the pages the
    programs need; at the end all programs are in place together, every space is well formed and no two processes share
    a page. *)
Theorem boot_isolates rounds fuel parse ks meta elfs k : processes k = [] → apps_ready fuel parse meta 0 elfs (mach k) →
  (length elfs < rounds)%nat →
  (load_processes rounds fuel parse ks (AppMeta_iter meta) k = Panic ∧ exhausted (M := Sv39Manager) (all_needed elfs) (mach k)) ∨
  ∃ k' Ts, load_processes rounds fuel parse ks (AppMeta_iter meta) k = Done ((), k') ∧ vm_inv k' Ts ∧
    let programs := filter (fun elf => riscv_program elf = true) elfs in
    length (processes k') = length programs ∧
    ∀ j elf, programs !! j = Some elf → ∃ p T, processes k' !! j = Some p ∧ Ts !! j = Some T ∧ has_program k' p T elf.
Proof.
  intros Hps Hr Hlen. assert (vm_inv k []) as Hvm.
  { split; [|by rewrite Hps]. split; [by rewrite Hps|..]; intros *; by rewrite Hps. }
  destruct (load_processes_run fuel parse ks meta elfs rounds 0 k [] Hr Hvm Hlen) as [?|(k' & ps & Us & Hrun & [Eps Hinv _ Hc Hp])]; [by left|right].
  exists k', Us. rewrite Eps, Hps. done.
Qed.
End Properties.

(** ** On the kernel with two processes *)
#[local] Existing Instance BumpHeap.
#[local] Existing Instance BumpHeapLaws.
#[local] Existing Instance demo_crate.
#[local] Existing Instance demo_laws.

(** A call that answers [r]. *)
Definition answers (r : Z) (o : outcome (Z * kernel)) : bool :=
  match o with
  | Done (x, _) => x =? r
  | _ => false
  end.

Lemma answers_done r o : answers r o = true → ∃ k, o = Done (r, k).
Proof. destruct o as [[x k]| |]; [|done..]. simpl. intros ->%Z.eqb_eq. by exists k. Qed.

Lemma demo_first_process : processes demo_kernel !! 0%nat = Some (demo_process demo_first.1).
Proof. reflexivity. Qed.
Lemma demo_first_table : demo_tables !! 0%nat = Some {[[] := 0x80300]}.
Proof. reflexivity. Qed.
Lemma demo_kinv : kinv demo_kernel demo_tables.
Proof. exact (proj1 demo_vm_inv). Qed.
Lemma demo_brk : brk_ok (demo_process demo_first.1).
Proof. split; simpl; lia. Qed.

Lemma demo_mapping w : mapping (mc_mem (mach demo_kernel)) {[[] := 0x80300]} w = None.
Proof. unfold mapping, leaf_table. by rewrite lookup_singleton_ne. Qed.


Lemma mmap_munmap_roundtrip_witness : ∃ k1 k2 T2, mmap 8 0 0x1000000 8192 3 0 0 0 demo_kernel = Done (0, k1) ∧
  munmap 0 0x1000000 8192 k1 = Done (0, k2) ∧ ∀ w, is_vpn w → mapping (mc_mem (mach k2)) T2 w = None.
Proof.
  destruct (answers_done 0 (mmap 8 0 0x1000000 8192 3 0 0 0 demo_kernel)) as [k1 Hk1]; [vm_compute; reflexivity|].
  destruct (mmap_munmap_roundtrip 8 demo_kernel demo_tables 0 _ _ 0x1000000 8192 3 0 0 0 k1 demo_kinv demo_first_process
    demo_first_table ltac:(lia) ltac:(lia) ltac:(lia) ltac:(vm_compute; congruence) Hk1) as (k2 & p2 & T2 & Hd & _ & _ & Hm & _).
  exists k1, k2, T2. split; [exact Hk1|]. clear Hk1. split; [exact Hd|]. intros w Hw. rewrite (Hm w Hw). apply demo_mapping.
Defined.

(** Nothing is mapped, so nothing can be unmapped. *)
Lemma munmap_spec_witness : munmap 0 0x1000000 8192 demo_kernel = Done (-1, demo_kernel).
Proof.
  destruct (munmap_spec demo_kernel demo_tables 0 _ _ 0x1000000 8192 demo_kinv demo_first_process demo_first_table
    ltac:(lia) ltac:(lia) ltac:(lia)) as [_ Hno].
  apply Hno. intros [_ Hall]. apply (Hall 4096); [split; vm_compute; congruence|]. apply demo_mapping.
Defined.

(** The break moves from 65536 by 5000 bytes: two pages. *)
Lemma sbrk_spec_witness : ∃ k' p' T', sbrk 8 0 5000 demo_kernel = Done (65536, k') ∧ program_brk p' = 70536 ∧ heap_mapped k' p' T' ∧
  got_pages demo_kernel demo_tables 0 {[[] := 0x80300]} (16, 18) (Z.lor 23 OWNED) k' T'.
Proof.
  assert (heap_mapped demo_kernel (demo_process demo_first.1) {[[] := 0x80300]}) as Hh.
  { intros w Hw. exfalso. change (16 ≤ w < 16) in Hw. lia. }
  pose proof (sbrk_spec 8 demo_kernel demo_tables 0 _ _ 5000 demo_kinv demo_first_process demo_first_table demo_brk Hh
    ltac:(lia) ltac:(reflexivity) ltac:(vm_compute; congruence) ltac:(intros _; reflexivity)) as Hs.
  destruct (answers_done 65536 (sbrk 8 0 5000 demo_kernel)) as [k1 Hk1]; [vm_compute; reflexivity|].
  cbv zeta in Hs. rewrite (decide_False (P := _ < _)) in Hs by (simpl; lia). rewrite Hk1 in Hs.
  destruct Hs as [[Hs _]|(k' & p' & T' & Hd & _ & Hb & _ & Hm & Hgot)]; [discriminate Hs|].
  rewrite Hk1. injection Hd as ->. clear Hk1. rewrite decide_True in Hgot by lia. exists k', p', T'. split_and!; [reflexivity|exact Hb|exact Hm|exact Hgot].
Defined.

(** A page mapped right above the break, then a heap that grows. *)
Lemma sbrk_collision_panics_witness : ∃ k1, mmap 8 0 65536 4096 3 0 0 0 demo_kernel = Done (0, k1) ∧ sbrk 8 0 1 k1 = Panic.
Proof.
  destruct (answers_done 0 (mmap 8 0 65536 4096 3 0 0 0 demo_kernel)) as [k1 Hk1]; [vm_compute; reflexivity|].
  exists k1. split; [exact Hk1|].
  pose proof (mmap_run 8 demo_kernel demo_tables 0 _ _ 65536 4096 3 0 0 0 demo_kinv demo_first_process demo_first_table
    ltac:(lia) ltac:(lia) ltac:(lia) ltac:(vm_compute; congruence)) as Hm.
  rewrite decide_True in Hm by (split_and!; [reflexivity|lia..|reflexivity]). rewrite Hk1 in Hm.
  destruct Hm as [[Hm _]|(k' & T' & p' & Hd & Hps & [E1 E2] & _ & f & Hk' & _ & Hmap & _)]; [discriminate Hm|]. injection Hd as ->. clear Hk1.
  apply (sbrk_collision_panics 8 k' _ 0 p' T' 1 16 Hk').
  - by rewrite Hps.
  - reflexivity.
  - unfold brk_ok. rewrite E1, E2. exact demo_brk.
  - lia.
  - rewrite E2. simpl. lia.
  - rewrite E2. vm_compute. congruence.
  - rewrite E2. split; vm_compute; congruence.
  - rewrite Hmap by (unfold is_vpn; lia). unfold add_run. rewrite decide_True by (split; vm_compute; congruence). discriminate.
Defined.

(** The first process maps a page and stores into it; the second keeps its space. *)
Lemma vm_isolation_witness : ∃ k' Ts', vm_trace 8 demo_kernel [(0%nat, CMmap 0x1000000 4096 3); (0%nat, CTrace 1 0x1000004 77)] k' ∧
  vm_inv k' Ts' ∧ Ts' !! 1%nat = Some {[[] := 0x80301]} ∧ untouched demo_kernel k' demo_tables 1.
Proof.
  destruct (answers_done 0 (mmap 8 0 0x1000000 4096 3 0 0 0 demo_kernel)) as [k1 Hk1]; [vm_compute; reflexivity|].
  assert (∃ p1, processes k1 !! 0%nat = Some p1) as [p1 Hp1].
  { pose proof (mmap_run 8 demo_kernel demo_tables 0 _ _ 0x1000000 4096 3 0 0 0 demo_kinv demo_first_process demo_first_table
      ltac:(lia) ltac:(lia) ltac:(lia) ltac:(vm_compute; congruence)) as Hm.
    rewrite decide_True in Hm by (split_and!; [reflexivity|lia..|reflexivity]). rewrite Hk1 in Hm.
    destruct Hm as [[Hm _]|(k' & T' & p' & Hd & Hps & _)]; [discriminate Hm|]. injection Hd as ->. clear Hk1. exists p'. by rewrite Hps. }
  assert (∃ k2, trace 0 1 0x1000004 77 k1 = Done (0, k2)) as [k2 Hk2].
  { apply answers_done. assert (answers 0 ((_ ← mmap 8 0 0x1000000 4096 3 0 0 0; trace 0 1 0x1000004 77) demo_kernel) = true) as Hr.
    - vm_compute. reflexivity.
    - rewrite (st_bind_run _ _ _ _ _ Hk1) in Hr. exact Hr. }
  assert (vm_trace 8 demo_kernel [(0%nat, CMmap 0x1000000 4096 3); (0%nat, CTrace 1 0x1000004 77)] k2) as Htr.
  { eapply trace_cons; [exact demo_first_process|split_and!; (lia || vm_compute; congruence)|exact Hk1|].
    eapply trace_cons; [exact Hp1|split; [lia|reflexivity]|exact Hk2|constructor]. }
  clear Hk1 Hk2.
  destruct (vm_isolation 8 demo_kernel demo_tables _ k2 demo_vm_inv Htr) as (Ts' & Hinv & Hoth).
  destruct (Hoth 1%nat) as [E Hun]; [intros Hin; apply list_elem_of_In in Hin as [? | [? | []]]; discriminate|]. exists k2, Ts'. split_and!; [done|done|by rewrite E|done].
Defined.

(** The first process maps a page; its space is copied into the empty space of the second. *)
Definition demo_clone (k : kernel) : bool :=
  match processes k with
  | p :: q :: _ => if cloneself 8 (address_space p) (address_space q) (mach k) is Done _ then true else false
  | _ => false
  end.

Lemma clone_copies_witness : ∃ s sp new sp' s' T Tn', cloneself 8 sp new s = Done (sp', s') ∧ areas sp' = [(4096, 4097)] ∧
  byte_at (mc_mem s') Tn' 0x1000123 = byte_at (mc_mem s) T 0x1000123 ∧ byte_at (mc_mem s') T 0x1000123 = byte_at (mc_mem s) T 0x1000123.
Proof.
  destruct (answers_done 0 (mmap 8 0 0x1000000 4096 3 0 0 0 demo_kernel)) as [k1 Hk1]; [vm_compute; reflexivity|].
  assert (demo_clone k1 = true) as Hc.
  { assert ((if mmap 8 0 0x1000000 4096 3 0 0 0 demo_kernel is Done (_, k) then demo_clone k else false) = true) as Hc.
    - vm_compute. reflexivity.
    - rewrite Hk1 in Hc. exact Hc. }
  pose proof (mmap_run 8 demo_kernel demo_tables 0 _ _ 0x1000000 4096 3 0 0 0 demo_kinv demo_first_process demo_first_table
    ltac:(lia) ltac:(lia) ltac:(lia) ltac:(vm_compute; congruence)) as Hm.
  rewrite decide_True in Hm by (split_and!; [reflexivity|lia..|reflexivity]). rewrite Hk1 in Hm. clear Hk1.
  destruct Hm as [[Hm _]|(k' & T' & p' & Hd & Hps & _ & Har & f & Hk' & _)]; [discriminate Hm|]. injection Hd as ->.
  assert (processes k' !! 0%nat = Some p') as P0 by (by rewrite Hps).
  assert (processes k' !! 1%nat = Some (demo_process demo_second.1)) as P1 by (by rewrite Hps).
  assert (<[0%nat := T']> demo_tables !! 0%nat = Some T') as T0 by reflexivity.
  assert (<[0%nat := T']> demo_tables !! 1%nat = Some {[[] := 0x80301]}) as T1 by reflexivity.
  change (areas (address_space p') = [(4096, 4097)]) in Har.
  destruct (clone_copies 8 (mach k') (address_space p') (address_space (demo_process demo_second.1)) T' {[[] := 0x80301]})
    as [[Hp _]|(sp' & s' & Tn' & Hrun & Ha & _ & _ & _ & Hbytes)].
  - exact (ki_space _ _ Hk' 0%nat _ _ P0 T0).
  - exact (ki_space _ _ Hk' 1%nat _ _ P1 T1).
  - reflexivity.
  - intros x Hx. exact (ki_apart _ _ Hk' 0%nat 1%nat _ _ _ _ x ltac:(discriminate) P0 P1 T0 T1 Hx).
  - rewrite Har. intros ar ->%list_elem_of_singleton. simpl. lia.
  - exfalso. unfold demo_clone in Hc. destruct (processes k') as [|q0 [|q1 ps]]; [discriminate P0|discriminate P1|].
    apply (inj Some) in P0, P1. subst q0. rewrite P1, Hp in Hc. discriminate Hc.
  - destruct (Hbytes 0x1000123) as (B1 & B2 & _).
    { exists (4096, 4097). rewrite Har. split; [by apply list_elem_of_singleton|split; vm_compute; congruence]. }
    eexists _, _, _, sp', s', T', Tn'. split_and!; [exact Hrun|by rewrite Ha|exact B1|exact B2].
Defined.

Definition loads_one (o : outcome (option Process * machine)) : bool := if o is Done (Some _, _) then true else false.

Lemma process_new_spec_witness : ∃ p s' T, Process_new 8 demo_elf demo_machine = Done (Some p, s') ∧
  heap_bottom p = 0x12000 ∧ byte_at (mc_mem s') T 0x10005 = Some 22 ∧ byte_at (mc_mem s') T 0x11004 = Some 0.
Proof.
  pose proof (process_new_spec 8 demo_elf demo_machine demo_elf_ok) as Hs. change (riscv_program demo_elf) with true in Hs. cbv iota in Hs.
  assert (loads_one (Process_new 8 demo_elf demo_machine) = true) as Hd by (vm_compute; reflexivity).
  destruct Hs as [[Hs _]|(p & s' & T & Hs & L)]; rewrite Hs in Hd; [discriminate Hd|]. exists p, s', T. split; [exact Hs|]. clear Hs Hd.
  destruct (proj1 (Forall_singleton _ _) (lp_segs _ _ _ _ _ L)) as [Hb _]. split_and!.
  - rewrite (proj2 (lp_heap _ _ _ _ _ L)). reflexivity.
  - etrans; [exact (Hb 5 ltac:(split; vm_compute; congruence))|reflexivity].
  - etrans; [exact (Hb 0x1004 ltac:(split; vm_compute; congruence))|reflexivity].
Defined.

(** A kernel image with one application, and the kernel before it loads it. *)
Definition demo_apps : AppMeta := mkAppMeta 0 0 1 0x80200000.
Definition boot_machine : machine :=
  mkMachine (mkWorld (write_word 0x80200000 0x80201000 (write_word 0x80200008 0x80201007 (fun _ => 0))) 7 0 []) 0x80300.
Definition boot_kernel : kernel := mkKernel [] boot_machine.
Definition boots (o : outcome (unit * kernel)) : bool := if o is Done _ then true else false.

Lemma boot_isolates_witness : ∃ k' Ts p, load_processes 2 8 (fun _ => Some demo_elf) demo_first.1 (AppMeta_iter demo_apps) boot_kernel = Done ((), k') ∧
  vm_inv k' Ts ∧ processes k' = [p] ∧ LocalContext_pc (f_context (context p)) = 0x10004.
Proof.
  assert (apps_ready 8 (fun _ => Some demo_elf) demo_apps 0 [demo_elf] (mach boot_kernel)) as Hr.
  { split; [by split_and!| |intros x Hx; simpl in *|apply Forall_singleton; intros _; exact demo_elf_ok].
    - intros [|j] elf [= <-]. assert (app_pos demo_apps (mc_mem (mach boot_kernel)) (0 + Z.of_nat 0) = 0x80201000) as -> by (vm_compute; reflexivity).
      assert (app_pos demo_apps (mc_mem (mach boot_kernel)) (0 + Z.of_nat 0 + 1) = 0x80201007) as -> by (vm_compute; reflexivity).
      split_and!; [lia|lia|unfold usize_max; lia|done|]. intros x Hx. simpl.
      apply Z.div_lt_upper_bound; unfold page_size; lia.
    - apply Z.div_lt_upper_bound; unfold page_size; lia. }
  destruct (boot_isolates 2 8 (fun _ => Some demo_elf) demo_first.1 demo_apps [demo_elf] boot_kernel eq_refl Hr ltac:(simpl; lia))
    as [[Hp _]|(k' & Ts & Hd & Hinv & Hlen & Hprog)].
  - exfalso. assert (boots (load_processes 2 8 (fun _ => Some demo_elf) demo_first.1 (AppMeta_iter demo_apps) boot_kernel) = true) as Hb
      by (vm_compute; reflexivity). rewrite Hp in Hb. discriminate Hb.
  - destruct (Hprog 0%nat demo_elf eq_refl) as (p & T & P0 & _ & _ & _ & Hpc & _). exists k', Ts, p. split; [exact Hd|]. clear Hd.
    split_and!; [done| |exact Hpc]. destruct (processes k') as [|q [|q2 ps]]; [discriminate P0| |discriminate Hlen].
    by apply (inj Some) in P0 as ->.
Defined.
End VmProps.
