(* ===== verification/SpaceFamily.v ===== *)
(** * Many address spaces

    The spaces of the processes of a kernel, by number: each is well formed and no page belongs to two.  A space is
    added, dropped, or changed by a call of the process it belongs to; the others keep their mapping and their bytes.
    The calls of VmKernel.v, which work on a list of processes, are brought to this setting.

    What a call leaves alone in its own process ([SpaceRoot]): the context of the caller and the root of its space; a call of
    ch4 adds and cuts areas, but the process keeps the page table that its [satp] names. *)

From S2P Require Import Prelude Bytes Memory KernelContext Syscall PageTable AddressSpace SpaceTree SpaceMap SpaceInvariant PageManager BatchKernel TaskKernel VmKernel VmTheorems VmIsolation VmLoad.

Module Family.
Import Vm VmInv VmRuns VmLoad.
Section Family.
Context `{PTC : PageTableCrate, HL : !HeapLaws, PTL : !PageTableLaws}.
Abbreviation space := (AddressSpace Sv39Manager).
Abbreviation tables := (gmap (list Z) Z).
Implicit Types (S : gmap Z space) (TT : gmap Z tables) (s : machine) (sp : space) (T U : tables).

Record family S TT s : Prop := {
  fm_dom : dom TT = dom S;
  fm_space i sp T : S !! i = Some sp → TT !! i = Some T → space_inv portal s sp T;
  fm_apart i j sp sq T U x : i ≠ j → S !! i = Some sp → S !! j = Some sq → TT !! i = Some T → TT !! j = Some U →
    uses s sp T x → ¬ uses s sq U x;
}.

(** Space [j] has the same mapping and the same bytes in [s'] as in [s]. *)
Definition same_space s s' sp T : Prop :=
  (∀ w, mapping (mc_mem s') T w = mapping (mc_mem s) T w) ∧ ∀ x, uses s sp T (x / page_size) → mc_mem s' x = mc_mem s x.
Definition alone S TT s s' (j : Z) : Prop := ∀ sp T, S !! j = Some sp → TT !! j = Some T → same_space s s' sp T.

Lemma same_space_refl s sp T : same_space s s sp T.
Proof. done. Qed.

Lemma same_uses s s' sp T x : same_space s s' sp T → uses s' sp T x ↔ uses s sp T x.
Proof.
  intros [Hm _]. split; (intros [Ha|(w & pte & Hin & He & Hx)]; [by left|right; exists w, pte]).
  - by rewrite Hm in He.
  - by rewrite Hm.
Qed.

Lemma same_space_trans s1 s2 s3 sp T : same_space s1 s2 sp T → same_space s2 s3 sp T → same_space s1 s3 sp T.
Proof.
  intros H12 H23. pose proof H12 as [M1 B1]. pose proof H23 as [M2 B2]. split; [intros w; by rewrite M2|].
  intros x Hx. rewrite B2; [by apply B1|]. by apply (same_uses s1 s2).
Qed.

Lemma family_tables S TT s i sp : family S TT s → S !! i = Some sp → ∃ T, TT !! i = Some T.
Proof. intros Hf Hi. apply elem_of_dom. rewrite (fm_dom _ _ _ Hf). by apply elem_of_dom_2 in Hi. Qed.

Lemma family_empty s : family ∅ ∅ s.
Proof. split; [done|intros i sp T Hi|intros i j sp sq T U x _ Hi]; by rewrite lookup_empty in Hi. Qed.

(** The others, when [s'] leaves them alone. *)
Lemma alone_others S TT s s' sp T i : family S TT s → (∀ j, j ≠ i → alone S TT s s' j) →
  (∀ j sq U, j ≠ i → S !! j = Some sq → TT !! j = Some U → space_inv portal s' sq U) →
  space_inv portal s' sp T → (∀ j sq U x, j ≠ i → S !! j = Some sq → TT !! j = Some U → uses s sq U x → ¬ uses s' sp T x) →
  family (<[i := sp]> S) (<[i := T]> TT) s'.
Proof.
  intros [Hd Hsp Hap] Hal Hoth Hinv Hnew. split.
  - by rewrite !dom_insert_L, Hd.
  - intros j sq U. destruct (decide (j = i)) as [->|Hne].
    + rewrite !lookup_insert_eq. by intros [= <-] [= <-].
    + rewrite !lookup_insert_ne by done. by apply Hoth.
  - intros j l sq sr U V x Hjl. destruct (decide (j = i)) as [->|Hj], (decide (l = i)) as [->|Hl]; [done|..];
      rewrite ?lookup_insert_eq; rewrite ?lookup_insert_ne by done.
    + intros [= <-] Hr [= <-] HV Hx Hy. apply (Hnew l sr V x); [done..| |done]. apply (same_uses s s'); [by eapply Hal|done].
    + intros Hq [= <-] HU [= <-] Hx Hy. apply (Hnew j sq U x); [done..| |done]. apply (same_uses s s'); [by eapply Hal|done].
    + intros Hq Hr HU HV Hx Hy. apply (Hap j l sq sr U V x); [done..| |].
      * apply (same_uses s s'); [by eapply (Hal j)|done].
      * apply (same_uses s s'); [by eapply (Hal l)|done].
Qed.

(** A space of fresh pages is added, or takes the place of another. *)
Lemma kept_alone S TT s T s' j sq U : family S TT s → kept ∅ s T s' → S !! j = Some sq → TT !! j = Some U →
  space_inv portal s' sq U ∧ same_space s s' sq U.
Proof.
  intros [Hd Hsp Hap] K Hq HU. pose proof (Hsp j sq U Hq HU) as Hinv.
  destruct (kept_other portal _ _ _ _ sq U K) as (H1 & _ & H2); [intros a b p Ha; by rewrite lookup_empty in Ha|done|].
  split; [done|]. split; [done|]. intros x Hx. apply (kp_mem _ _ _ _ K); [|intros a; by rewrite lookup_empty].
  eapply uses_used; [exact Hinv|done].
Qed.

Lemma family_push S TT s i sp T s' : family S TT s → kept ∅ s T s' → space_inv portal s' sp T → fresh_since s s' sp T →
  family (<[i := sp]> S) (<[i := T]> TT) s' ∧ ∀ j, alone S TT s s' j.
Proof.
  intros Hf K Hinv Hfr. assert (∀ j, alone S TT s s' j) as Hal.
  { intros j sq U Hq HU. by eapply kept_alone. }
  split; [|done]. apply (alone_others S TT s); [done|intros j _; apply Hal| |done|].
  - intros j sq U _ Hq HU. by eapply kept_alone.
  - intros j sq U x _ Hq HU Hx Hy. apply (Hfr x Hy). eapply uses_used; [by eapply fm_space|done].
Qed.

Lemma family_delete S TT s i : family S TT s → family (delete i S) (delete i TT) s.
Proof.
  intros [Hd Hsp Hap]. split.
  - by rewrite !dom_delete_L, Hd.
  - intros j sp T [_ Hj]%lookup_delete_Some [_ HT]%lookup_delete_Some. by eapply Hsp.
  - intros j l sp sq T U x Hne [_ H1]%lookup_delete_Some [_ H2]%lookup_delete_Some [_ H3]%lookup_delete_Some [_ H4]%lookup_delete_Some.
    by eapply Hap.
Qed.

(** The running process wrote bytes of its pages. *)
Definition own_writes s s' sp T : Prop := mc_heap s' = mc_heap s ∧ ∀ x, mc_mem s' x ≠ mc_mem s x →
  ∃ w pte, in_areas w (areas sp) ∧ mapping (mc_mem s) T w = Some pte ∧ pte_ppn pte = x / page_size.

Lemma family_writes S TT s s' i sp T : family S TT s → S !! i = Some sp → TT !! i = Some T → own_writes s s' sp T →
  family S TT s' ∧ (∀ w, mapping (mc_mem s') T w = mapping (mc_mem s) T w) ∧ ∀ j, j ≠ i → alone S TT s s' j.
Proof.
  intros Hf Hi HT [Hh Hx].
  assert (∀ j sq U, S !! j = Some sq → TT !! j = Some U → ∀ a p x, U !! a = Some p → x / page_size = p → mc_mem s' x = mc_mem s x) as Htab.
  { intros j sq U Hq HU a p x Ha Ep. destruct (decide (mc_mem s' x = mc_mem s x)) as [|Hne]; [done|exfalso].
    destruct (Hx x Hne) as (w & pte & Hin & Hm & E). destruct (decide (i = j)) as [<-|Hij].
    - simplify_eq. destruct (frame_data portal s sp T w pte (fm_space _ _ _ Hf i sp T Hi HT) Hin Hm) as [_ Hn]. apply (Hn a). by rewrite E.
    - apply (fm_apart _ _ _ Hf i j sp sq T U (pte_ppn pte) Hij Hi Hq HT HU); [right; by exists w, pte|left; exists a; by rewrite E, Ep]. }
  assert (∀ j sq U, S !! j = Some sq → TT !! j = Some U → space_inv portal s' sq U ∧ ∀ w, mapping (mc_mem s') U w = mapping (mc_mem s) U w) as Hall.
  { intros j sq U Hq HU. destruct (fm_space _ _ _ Hf j sq U Hq HU) as [Hal [Ht Hu] Hrg Hap Hrun Honly].
    destruct (tree_ext portal _ _ _ _ (Htab j sq U Hq HU) Ht) as [Ht' Hm]. split; [|done].
    split; [done|split; [done|by rewrite Hh]|done|done| |].
    - intros ar Har. destruct (Hrun ar Har) as (fl & g & H1 & H2 & H3 & Hw). exists fl, g. split_and!; [done..|]. intros w Hin.
      destruct (Hw w Hin) as [Hmw [Hgu Hgn]]. rewrite Hm. split; [done|]. split; [by rewrite Hh|done].
    - intros w. rewrite Hm. apply Honly. }
  assert (∀ j, j ≠ i → alone S TT s s' j) as Hal.
  { intros j Hj sq U Hq HU. split; [by apply (Hall j sq)|]. intros x Hu. destruct (decide (mc_mem s' x = mc_mem s x)) as [|Hne]; [done|exfalso].
    destruct (Hx x Hne) as (w & pte & Hin & Hm & E).
    apply (fm_apart _ _ _ Hf i j sp sq T U (x / page_size) ltac:(congruence) Hi Hq HT HU); [right; by exists w, pte|done]. }
  split; [|split; [by apply (Hall i sp)|done]]. rewrite <-(insert_id S i sp Hi), <-(insert_id TT i T HT).
  apply (alone_others S TT s); [done|done|intros j sq U _ Hq HU; by apply (Hall j sq)|by apply (Hall i sp)|].
  intros j sq U x Hj Hq HU Hu Hy. apply (fm_apart _ _ _ Hf j i sq sp U T x Hj Hq Hi HU HT Hu).
  destruct Hy as [Ha|(w & pte & Hin & Hm & E)]; [by left|right]. exists w, pte. split_and!; [done| |done].
  rewrite <-Hm. symmetry. by apply (Hall i sp).
Qed.

Lemma family_data S TT s s' i sp T : family S TT s → S !! i = Some sp → TT !! i = Some T → own_writes s s' sp T →
  family S TT s' ∧ ∀ j, j ≠ i → alone S TT s s' j.
Proof. intros Hf Hi HT Hw. by destruct (family_writes S TT s s' i sp T Hf Hi HT Hw) as (? & _ & ?). Qed.

(** ** Calls of ch4 *)

(** The other processes in a list; only their spaces matter. *)
Definition other_process sp : Process := mkProcess (mkForeign LocalContext_empty 0) sp 0 0 [].
Definition others (i : Z) S : list Process := (fun js => other_process js.2) <$> map_to_list (delete i S).
Definition other_tables (i : Z) S TT : list tables := (fun js => default ∅ (TT !! js.1)) <$> map_to_list (delete i S).

Lemma others_lookup S TT s i n p U : family S TT s → others i S !! n = Some p → other_tables i S TT !! n = Some U →
  ∃ j, map_to_list (delete i S) !! n = Some (j, address_space p) ∧ j ≠ i ∧ S !! j = Some (address_space p) ∧ TT !! j = Some U.
Proof.
  intros Hf Hp HU. apply list_lookup_fmap_Some in Hp as ([j sp] & -> & Hn). apply list_lookup_fmap_Some in HU as ([j' sp'] & -> & Hn').
  simplify_eq/=. exists j. assert (delete i S !! j = Some sp) as Hj by (apply elem_of_map_to_list; by eapply list_elem_of_lookup_2).
  apply lookup_delete_Some in Hj as [Hne Hj]. destruct (family_tables _ _ _ _ _ Hf Hj) as [U HU]. rewrite HU. split_and!; done.
Qed.

Lemma others_distinct i S n m j l sp sq : map_to_list (delete i S) !! n = Some (j, sp) → map_to_list (delete i S) !! m = Some (l, sq) →
  n ≠ m → j ≠ l.
Proof.
  intros Hn Hm Hne <-. apply Hne. eapply (NoDup_lookup (map_to_list (delete i S)).*1); [apply NoDup_fst_map_to_list|..];
    apply list_lookup_fmap_Some; [by exists (j, sp)|by exists (j, sq)].
Qed.

Lemma others_index i S j sp : j ≠ i → S !! j = Some sp → ∃ n, others i S !! n = Some (other_process sp) ∧ map_to_list (delete i S) !! n = Some (j, sp).
Proof.
  intros Hne Hj. assert ((j, sp) ∈ map_to_list (delete i S)) as [n Hn]%list_elem_of_lookup_1.
  { apply elem_of_map_to_list. by rewrite lookup_delete_ne. }
  exists n. split; [|done]. unfold others. by rewrite list_lookup_fmap, Hn.
Qed.

Lemma family_kinv S TT s i q T : family S TT s → S !! i = Some (address_space q) → TT !! i = Some T →
  kinv (mkKernel (q :: others i S) s) (T :: other_tables i S TT).
Proof.
  intros Hf Hi HT. split; simpl.
  - unfold others, other_tables. by rewrite !length_fmap.
  - intros [|n] p U; simpl; [intros [= <-] [= <-]; by eapply fm_space|]. intros Hp HU.
    destruct (others_lookup _ _ _ _ _ _ _ Hf Hp HU) as (j & _ & _ & Hj & HUj). by eapply fm_space.
  - intros [|n] [|m] p r U V x Hne; simpl; [done|..].
    + intros [= <-] Hr [= <-] HV. destruct (others_lookup _ _ _ _ _ _ _ Hf Hr HV) as (j & _ & Hji & Hj & HVj).
      apply (fm_apart _ _ _ Hf i j); done.
    + intros Hp [= <-] HU [= <-]. destruct (others_lookup _ _ _ _ _ _ _ Hf Hp HU) as (j & _ & Hji & Hj & HUj).
      apply (fm_apart _ _ _ Hf j i); done.
    + intros Hp Hr HU HV. destruct (others_lookup _ _ _ _ _ _ _ Hf Hp HU) as (j & Hn & _ & Hj & HUj).
      destruct (others_lookup _ _ _ _ _ _ _ Hf Hr HV) as (l & Hm & _ & Hl & HVl).
      apply (fm_apart _ _ _ Hf j l); [by eapply others_distinct; [exact Hn|exact Hm|congruence]|done..].
Qed.

Lemma kinv_family S TT s i q T q' T' s' : family S TT s → S !! i = Some (address_space q) → TT !! i = Some T →
  let k := mkKernel (q :: others i S) s in
  let k' := mkKernel (q' :: others i S) s' in
  kinv k' (T' :: other_tables i S TT) → (∀ n, n ≠ 0%nat → untouched k k' (T :: other_tables i S TT) n) →
  family (<[i := address_space q']> S) (<[i := T']> TT) s' ∧ ∀ j, j ≠ i → alone S TT s s' j.
Proof.
  intros Hf Hi HT k k' Hk' Hun.
  assert (∀ j sq U, j ≠ i → S !! j = Some sq → TT !! j = Some U → ∃ n, others i S !! n = Some (other_process sq) ∧ other_tables i S TT !! n = Some U) as Hidx.
  { intros j sq U Hj Hq HU. destruct (others_index i S j sq Hj Hq) as (n & H1 & H2). exists n. split; [done|].
    unfold other_tables. rewrite list_lookup_fmap, H2. simpl. by rewrite HU. }
  assert (∀ j, j ≠ i → alone S TT s s' j) as Hal.
  { intros j Hj sq U Hq HU. destruct (Hidx j sq U Hj Hq HU) as (n & H1 & H2).
    destruct (Hun (Datatypes.S n) ltac:(done) (other_process sq) U H1 H2) as (_ & H3 & H4). done. }
  split; [|done]. apply (alone_others S TT s); [done|done| | |].
  - intros j sq U Hj Hq HU. destruct (Hidx j sq U Hj Hq HU) as (n & H1 & H2).
    exact (ki_space _ _ Hk' (Datatypes.S n) (other_process sq) U H1 H2).
  - exact (ki_space _ _ Hk' 0%nat q' T' eq_refl eq_refl).
  - intros j sq U x Hj Hq HU Hx. destruct (Hidx j sq U Hj Hq HU) as (n & H1 & H2).
    apply (ki_apart _ _ Hk' (Datatypes.S n) 0%nat (other_process sq) q' U T' x); [done|exact H1|done|exact H2|done|].
    by apply (same_uses s s'); [eapply Hal|].
Qed.

(** A call that looks at the first process only. *)
Definition local {A} (f : st kernel A) : Prop := ∀ q rest s, 
  match f (mkKernel [q] s) with
  | Done (a, k) => ∃ q', processes k = [q'] ∧ f (mkKernel (q :: rest) s) = Done (a, mkKernel (q' :: rest) (mach k))
  | Panic => f (mkKernel (q :: rest) s) = Panic
  | Hang => f (mkKernel (q :: rest) s) = Hang
  end.

Lemma local_lift {A} (o : outcome A) : local (lift o).
Proof. intros q rest s. unfold lift. destruct o; [by exists q|done..]. Qed.

Lemma local_bind {A B} (f : st kernel A) (g : A → st kernel B) : local f → (∀ a, local (g a)) → local (f ≫= g).
Proof.
  intros Hf Hg q rest s. unfold mbind, st_bind. specialize (Hf q rest s). destruct (f (mkKernel [q] s)) as [[a [ps s1]]| |].
  - simpl in Hf. destruct Hf as (q1 & -> & E). rewrite E. apply Hg.
  - by rewrite Hf.
  - by rewrite Hf.
Qed.

Lemma local_process_at : local (process_at 0).
Proof. intros q rest s. simpl. by exists q. Qed.
Lemma local_put p : local (put_process 0 p).
Proof. intros q rest s. simpl. by exists p. Qed.
Lemma local_on_machine {A} (f : st machine A) : local (on_machine f).
Proof. intros q rest s. unfold on_machine. simpl. destruct (f s) as [[a s']| |]; simpl; [by exists q|done..]. Qed.
Lemma local_mach {A} (g : machine → st kernel A) : (∀ s, local (g s)) → local (k ← get_st; g (mach k)).
Proof. intros Hg q rest s. unfold mbind, st_bind, get_st. simpl. apply Hg. Qed.
Lemma local_user_ptr addr flags : local (user_ptr 0 addr flags).
Proof. intros q rest s. unfold user_ptr. simpl. destruct (translate _ _ _ _); simpl; [by exists q|done..]. Qed.
Lemma local_if {A} (b : bool) (f g : st kernel A) : local f → local g → local (if b then f else g).
Proof. by destruct b. Qed.

Lemma local_ret {A} (a : A) : local (mret a).
Proof. intros q rest s. by exists q. Qed.
Lemma local_console bs : local (console bs).
Proof. intros q rest s. unfold console. simpl. by exists q. Qed.
Lemma local_option {A B} (o : option A) (f : A → st kernel B) g : (∀ a, local (f a)) → local g →
  local (match o with Some a => f a | None => g end).
Proof. destruct o; auto. Qed.
Lemma local_sbrk fuel size : local (sbrk fuel 0 size).
Proof.
  intros q rest s. unfold sbrk. simpl. apply (local_bind (on_machine _)); [apply local_on_machine|]. intros [r p].
  apply local_bind; [apply local_put|]. intros _. apply local_ret.
Qed.

Ltac local_steps := repeat first
  [ apply local_ret | apply local_lift | apply local_process_at | apply local_put | apply local_on_machine
  | apply local_user_ptr | apply local_console | apply local_sbrk | apply local_if
  | apply local_option; [intros ?|]
  | lazymatch goal with
    | |- local (get_st ≫= _) => fail
    | _ => apply local_bind; [|intros ?]
    end ].

Lemma local_write fd buf count : local (write 0 fd buf count).
Proof.
  unfold write. local_steps. 
  refine (local_mach (fun s => console (mem_read (mc_mem s) _ (Z.to_nat count));; mret (as_isize count)) _). intros s. local_steps.
Qed.

Lemma local_clock clock_id tp : local (clock_gettime 0 clock_id tp).
Proof.
  unfold clock_gettime. local_steps.
  refine (local_mach (fun s => ticks ← lift (usize_mul (w_time (mc_world s)) 10000); mem_do (mem_write _ (Tasks.timespec_bytes
    (Syscall.mkTimeSpec (ticks / 125 / 1000000000) ((ticks / 125) mod 1000000000))));; mret 0) _). intros s. local_steps.
Qed.

Lemma local_trace request id data : local (trace 0 request id data).
Proof.
  unfold trace. local_steps.
  refine (local_mach (fun s => mret (mc_mem s _)) _). intros s. local_steps.
Qed.

Lemma local_vm_run fuel c : local (vm_run fuel 0 c).
Proof.
  destruct c; simpl; [unfold mmap; by local_steps|unfold munmap; by local_steps|apply local_sbrk|apply local_trace|apply local_clock|apply local_write].
Qed.

(** A call of ch4 by the process with space [i]. *)
Lemma family_vm_call fuel S TT s i q T c r k : family S TT s → S !! i = Some (address_space q) → TT !! i = Some T →
  VmCalls.brk_ok q → args_ok fuel q c → vm_run fuel 0 c (mkKernel [q] s) = Done (r, k) →
  ∃ q' T', processes k = [q'] ∧ VmCalls.brk_ok q' ∧ family (<[i := address_space q']> S) (<[i := T']> TT) (mach k) ∧
    ∀ j, j ≠ i → alone S TT s (mach k) j.
Proof.
  intros Hf Hi HT Hb Ha Hrun. pose proof (local_vm_run fuel c q (others i S) s) as Hl. rewrite Hrun in Hl. destruct Hl as (q' & Eq & Hrun').
  assert (vm_inv (mkKernel (q :: others i S) s) (T :: other_tables i S TT)) as Hvm.
  { split; [by apply family_kinv|]. simpl. constructor; [done|]. apply Forall_forall. intros p (sp & -> & _)%list_elem_of_fmap_1.
    unfold VmCalls.brk_ok. simpl. lia. }
  destruct (vm_call_stepped fuel _ _ 0%nat q T Hvm eq_refl eq_refl c r _ Ha Hrun') as (T' & [Hk Hbs] & Hun). simpl in Hk, Hbs.
  destruct (kinv_family S TT s i q T q' T' (mach k) Hf Hi HT Hk Hun) as [Hf' Hal]. exists q', T'. split_and!; [done| |done|done].
  by apply Forall_cons in Hbs as [? _].
Qed.
End Family.
End Family.

Module SpaceRoot.
Import Vm VmRuns.
Section Root.
Context `{PTC : PageTableCrate}.
Implicit Types (sp : AddressSpace Sv39Manager) (s : machine) (p q : Process).

(** What [satp] holds for a space. *)
Definition satp_of sp : Z := Z.lor (Z.shiftl 8 60) (AddressSpace_root_ppn sp).

Lemma map_extern_manager fuel range pbase flags sp s sp' s' : map_extern fuel range pbase flags sp s = Done (sp', s') →
  page_manager sp' = page_manager sp.
Proof.
  unfold map_extern. intros (n & _ & [[x [s1 d]] [_ Hd]]%bind_Done)%bind_Done. destruct (Mapper_ans d); [|done]. by injection Hd as <- _.
Qed.

(** Peel the steps of a run that answered. *)
Ltac peel Hd := repeat first
  [ apply st_bind_Done in Hd; destruct Hd as (? & ? & ? & Hd)
  | match type of Hd with context [let '(_, _) := ?x in _] => destruct x end
  | match type of Hd with (if ?b then _ else _) _ = _ => destruct b end ].

Lemma map_manager fuel range data off flags sp s sp' s' : AddressSpace_map fuel range data off flags sp s = Done (sp', s') →
  page_manager sp' = page_manager sp.
Proof. unfold AddressSpace_map. intros Hd. peel Hd. by eapply map_extern_manager. Qed.

Lemma anonymous_manager fuel range flags sp s sp' s' : map_anonymous fuel range flags sp s = Done (sp', s') →
  page_manager sp' = page_manager sp.
Proof. unfold map_anonymous. intros Hd. peel Hd. by eapply map_extern_manager. Qed.

Lemma unmap_manager range sp s sp' s' : unmap range sp s = Done (sp', s') → page_manager sp' = page_manager sp.
Proof. unfold unmap. intros Hd. peel Hd. by injection Hd as <- _. Qed.

Definition same_root q q' : Prop := context q' = context q ∧ page_manager (address_space q') = page_manager (address_space q).

Lemma same_root_satp q q' : same_root q q' → satp_of (address_space q') = satp_of (address_space q).
Proof. intros [_ E]. unfold satp_of, AddressSpace_root_ppn. by rewrite E. Qed.

Lemma brk_root fuel size p s r q s' : change_program_brk fuel size p s = Done ((r, q), s') → same_root p q.
Proof.
  unfold change_program_brk. intros Hd. apply st_bind_Done in Hd as (nb & s1 & _ & Hd).
  destruct (_ <? _); [by injection Hd as _ <- _|]. apply st_bind_Done in Hd as (sp & s2 & Hsp & Hd). injection Hd as _ <- _.
  split; [done|]. simpl. destruct (size >? 0); [|destruct (size <? 0)].
  - destruct (_ >? _); [by eapply map_manager|by injection Hsp as <- _].
  - destruct (_ >? _); [by eapply unmap_manager|by injection Hsp as <- _].
  - by injection Hsp as <- _.
Qed.

(** A run of one process that leaves its root alone. *)
Definition rooted {A} q (f : st kernel A) : Prop := ∀ s a k, f (mkKernel [q] s) = Done (a, k) →
  ∃ q', processes k = [q'] ∧ same_root q q'.

Lemma rooted_ret {A} q (a : A) : rooted q (mret a).
Proof. intros s b k [= _ <-]. by exists q. Qed.

(** A step that changes no process comes first. *)
Definition idle {A} q (f : st kernel A) : Prop := ∀ s a k, f (mkKernel [q] s) = Done (a, k) → processes k = [q].

Lemma rooted_bind {A B} q (f : st kernel A) (g : A → st kernel B) : idle q f → (∀ a, rooted q (g a)) → rooted q (f ≫= g).
Proof.
  intros Hf Hg s b k Hd. apply st_bind_Done in Hd as (a & [ps s1] & H1 & H2). apply Hf in H1. simpl in H1. subst ps. by eapply Hg.
Qed.
Lemma rooted_idle {A} q (f : st kernel A) : idle q f → rooted q f.
Proof. intros Hf s a k Hd. exists q. by rewrite (Hf s a k Hd). Qed.
Lemma idle_bind {A B} q (f : st kernel A) (g : A → st kernel B) : idle q f → (∀ a, idle q (g a)) → idle q (f ≫= g).
Proof.
  intros Hf Hg s b k Hd. apply st_bind_Done in Hd as (a & [ps s1] & H1 & H2). apply Hf in H1. simpl in H1. subst ps. by eapply Hg.
Qed.
Lemma idle_ret {A} q (a : A) : idle q (mret a).
Proof. by intros s b k [= _ <-]. Qed.
Lemma idle_lift {A} q (o : outcome A) : idle q (lift o).
Proof. intros s b k. unfold lift. destruct o; by intros [= _ <-]. Qed.
Lemma idle_get q : idle q get_st.
Proof. by intros s b k [= _ <-]. Qed.
Lemma idle_machine {A} q (f : st machine A) : idle q (on_machine f).
Proof. intros s b k. unfold on_machine. simpl. destruct (f s) as [[? ?]| |]; simpl; by intros [= _ <-]. Qed.
Lemma idle_ptr q addr flags : idle q (user_ptr 0 addr flags).
Proof. intros s b k. unfold user_ptr. simpl. destruct (translate _ _ _ _); simpl; by intros [= _ <-]. Qed.
Lemma idle_console q bs : idle q (console bs).
Proof. by intros s b k [= _ <-]. Qed.
Lemma idle_at q : idle q (process_at 0).
Proof. by intros s b k [= _ <-]. Qed.
Lemma idle_mem q f : idle q (mem_do f).
Proof. apply idle_machine. Qed.

Ltac idle_steps := repeat first
  [ apply idle_ret | apply idle_lift | apply idle_get | apply idle_machine | apply idle_ptr | apply idle_console
  | apply idle_at | apply idle_mem | apply idle_bind; [|intros ?]
  | match goal with |- idle _ (if ?b then _ else _) => destruct b | |- idle _ (match ?o with Some _ => _ | None => _ end) => destruct o end ].

Lemma rooted_put q p : same_root q p → rooted q (put_process 0 p;; mret 0).
Proof. intros Hr s a k Hd. apply st_bind_Done in Hd as (? & ? & [= _ <-] & [= _ <-]). by exists p. Qed.

(** A space of the caller that the call built with [f] is put back. *)
Lemma rooted_space q (f : st machine (AddressSpace Sv39Manager)) :
  (∀ s sp s', f s = Done (sp, s') → page_manager sp = page_manager (address_space q)) →
  rooted q (sp ← on_machine f; put_process 0 (set_space sp q);; mret 0).
Proof.
  intros Hf s a k Hd. apply st_bind_Done in Hd as (sp & [ps s1] & H1 & H2). pose proof (idle_machine q f _ _ _ H1) as E. simpl in E. subst ps.
  unfold on_machine in H1. apply bind_Done in H1 as ([sp' s2] & H1 & [= <- _]). apply (rooted_put q (set_space sp' q)) in H2; [done|]. split; [done|]. by eapply Hf.
Qed.

Lemma rooted_at {B} q (g : Process → st kernel B) : rooted q (g q) → rooted q (process_at 0 ≫= g).
Proof. intros Hg s b k Hd. apply st_bind_Done in Hd as (p & k1 & [= <- <-] & Hd). by eapply Hg. Qed.

Lemma rooted_run fuel q c : rooted q (vm_run fuel 0 c).
Proof.
  destruct c; simpl.
  - unfold mmap. destruct (unaligned addr); [apply rooted_ret|]. destruct (_ || _); [apply rooted_ret|]. apply rooted_at.
    apply rooted_bind; [apply idle_lift|]. intros e. destruct (have_mapped _ _); [apply rooted_ret|].
    apply rooted_bind; [apply idle_lift|]. intros fl. apply rooted_space. intros s sp s'. apply anonymous_manager.
  - unfold munmap. destruct (unaligned addr); [apply rooted_ret|]. apply rooted_at.
    apply rooted_bind; [apply idle_lift|]. intros e. destruct (forallb _ _); [|apply rooted_ret].
    apply rooted_space. intros s sp s'. apply unmap_manager.
  - intros s a k. unfold sbrk. simpl. intros Hd. apply st_bind_Done in Hd as ([r p] & k1 & H1 & Hd).
    unfold on_machine in H1. apply bind_Done in H1 as ([[r' p'] s1] & H1 & [= -> -> <-]).
    apply st_bind_Done in Hd as (u & k2 & [= _ <-] & [= _ <-]). exists p. split; [done|]. by eapply brk_root.
  - apply rooted_idle. unfold trace. idle_steps.
  - apply rooted_idle. unfold clock_gettime. idle_steps.
  - apply rooted_idle. unfold write. idle_steps.
Qed.
End Root.
End SpaceRoot.
