(* ===== verification/ForkKernel.v ===== *)
(** * The kernel with processes

    Models [tg-rcore-tutorial-ch5/src/{main,process}.rs]: processes that fork, replace their program and wait for each
    other, on the process manager of ProcManage.v and the address spaces of AddressSpace.v.  Where the code is that of ch4
    the model uses VmKernel.v: the segments of a program, the heap, and the calls that work on the memory of the caller.

    The kernels of ch6 and ch7 keep this code and put more into it, so the first part is written for any of them: a process
    has an [extra] component (the stride, the descriptors, the signals), the manager is any instance of the traits, and
    the kernel has [more] state (the applications of ch5, the file system of ch6).  The second part is ch5 alone. *)

From Stdlib Require Import Ascii String.
From stdpp Require Import strings sorting.
From S2P Require Import Prelude Bytes Memory Linker KernelContext TaskRel ProcManage Schedulers Syscall PageTable AddressSpace SpaceTree PageManager BatchKernel TaskKernel VmKernel.

Module Fork.
(** ** Processes *)

(** What a chapter puts into a process beside the fields of all: its value in a new process, and in the child of [fork].
    [exec] keeps it. *)
Class ProcessExtra (X : Type) := {
  extra_new : X;
  extra_fork : X → X;
}.

Section Processes.
Context {X : Type}.

Record Process := mkProcess {
  pid : ProcId;
  context : ForeignContext;
  address_space : AddressSpace Sv39Manager;
  heap_bottom : Z;
  program_brk : Z;
  extra : X;
}.

Definition set_extra (x : X) (p : Process) : Process :=
  mkProcess (pid p) (context p) (address_space p) (heap_bottom p) (program_brk p) x.
#[export] Instance process_stride `{!HasStride X} : HasStride Process :=
  {| stride_of p := stride_of (extra p); with_stride s p := set_extra (with_stride s (extra p)) p;
     stride_with s p := stride_with s (extra p) |}.

(** What the code shared with ch4 sees of a process, and what it changes. *)
Definition vm_of (p : Process) : Vm.Process := Vm.mkProcess (context p) (address_space p) (heap_bottom p) (program_brk p) [].
Definition with_vm (q : Vm.Process) (p : Process) : Process :=
  mkProcess (pid p) (Vm.context q) (Vm.address_space q) (Vm.heap_bottom q) (Vm.program_brk q) (extra p).

Definition set_context (c : ForeignContext) (p : Process) : Process :=
  mkProcess (pid p) c (address_space p) (heap_bottom p) (program_brk p) (extra p).
End Processes.
Arguments Process X : clear implicits.

(** In ch5 the stride: a child starts anew. *)
#[export] Instance stride_extra : ProcessExtra Stride := {| extra_new := Stride_new; extra_fork _ := Stride_new |}.

(** ** The kernel

    [PROCESSOR], the counter of [ProcId], [KERNEL_SPACE], what the chapter adds, and the machine. *)
Section State.
Context `{Heap}.

Record kernel (M Y : Type) := mkKernel {
  processor : PManager M;
  pid_counter : Z;
  kernel_as : AddressSpace Sv39Manager;
  more : Y;
  mach : machine;
}.
End State.
Arguments mkKernel {_ M Y} _ _ _ _ _.
Arguments processor {_ M Y} _.
Arguments pid_counter {_ M Y} _.
Arguments kernel_as {_ M Y} _.
Arguments more {_ M Y} _.
Arguments mach {_ M Y} _.

Section Kernel.
Context `{PTC : PageTableCrate}.
Context {X M Y : Type} `{!ProcessExtra X, !Manage M (Process X), !Schedule M}.
Abbreviation kernel := (kernel M Y).
Abbreviation Process := (Process X).
Implicit Types (k : kernel).

Definition set_processor (pm : PManager M) k : kernel := mkKernel pm (pid_counter k) (kernel_as k) (more k) (mach k).
Definition set_mach (s : machine) k : kernel := mkKernel (processor k) (pid_counter k) (kernel_as k) (more k) s.
Definition set_more (y : Y) k : kernel := mkKernel (processor k) (pid_counter k) (kernel_as k) y (mach k).

Definition on_machine {A} (f : st machine A) : st kernel A := fun k =>
  '(a, s) ← f (mach k);
  Done (a, set_mach s k).
Definition on_processor {A} (f : st (PManager M) A) : st kernel A := fun k =>
  '(a, pm) ← f (processor k);
  Done (a, set_processor pm k).
(** An operation of the manager without an answer. *)
Definition act (f : PManager M → outcome (PManager M)) : st kernel unit :=
  on_processor (fun pm => pm ← f pm; Done ((), pm)).
Definition on_more {A} (f : st Y A) : st kernel A := fun k =>
  '(a, y) ← f (more k);
  Done (a, set_more y k).
Definition new_pid : st kernel ProcId := fun k =>
  let '(id, counter) := ProcId_new (pid_counter k) in
  Done (id, mkKernel (processor k) counter (kernel_as k) (more k) (mach k)).

(** [PROCESSOR.get_mut().current().unwrap()], read and written. *)
Definition current_process : st kernel Process := fun k =>
  p ← PManager_current (T := Process) (processor k);
  p ← unwrap p;
  Done (p, k).
(** The entry of the running process. *)
Definition update_task (id : ProcId) (f : Process → Process) : st kernel unit :=
  act (fun pm => mgr ← unwrap (manager pm); Done (mkPManager (rel_map pm) (Some (m_update id f mgr)) (ProcManage.current pm))).
Definition update_current (f : Process → Process) : st kernel unit := fun k =>
  id ← unwrap (ProcManage.current (processor k));
  update_task id f k.

(** A call of ch4, with the running process for the process of the caller. *)
Definition as_caller {A} (f : st Vm.kernel A) : st kernel A :=
  p ← current_process;
  k ← get_st;
  '(a, vk) ← lift (f (Vm.mkKernel [vm_of p] (mach k)));
  q ← lift (unwrap (head (Vm.processes vk)));
  update_current (with_vm q);;
  on_machine (fun _ => Done ((), Vm.mach vk));;
  mret a.

(** ** Making processes *)
Definition map_portal (space : AddressSpace Sv39Manager) : st kernel unit :=
  k ← get_st;
  on_machine (Vm.share_portal (kernel_as k) space).

Section Calls.
Variable fuel : nat.

Definition Process_from_elf (elf : Vm.ElfFile) : st kernel (option Process) :=
  process ← on_machine (Vm.Process_new fuel elf);
  match process with
  | None => mret None
  | Some q =>
      map_portal (Vm.address_space q);;
      pid ← new_pid;
      mret (Some (mkProcess pid (Vm.context q) (Vm.address_space q) (Vm.heap_bottom q) (Vm.program_brk q) extra_new))
  end.

Definition Process_exec (elf : Vm.ElfFile) : st kernel unit :=
  proc ← Process_from_elf elf;
  proc ← lift (unwrap proc);
  update_current (fun p => mkProcess (pid p) (context proc) (address_space proc) (heap_bottom proc) (program_brk proc) (extra p)).

Definition Process_fork (p : Process) : st kernel (option Process) :=
  pid ← new_pid;
  space ← on_machine AddressSpace_new;
  space ← on_machine (cloneself fuel (address_space p) space);
  map_portal space;;
  let satp := Z.lor (Z.shiftl 8 60) (AddressSpace_root_ppn space) in
  mret (Some (mkProcess pid (mkForeign (f_context (context p)) satp) space (heap_bottom p) (program_brk p) (extra_fork (extra p)))).

Definition Process_change_program_brk (size : Z) (p : Process) : st machine (option Z * Process) :=
  '(r, q) ← Vm.change_program_brk fuel size (vm_of p);
  mret (r, with_vm q p).

(** ** System calls *)
Definition exit (exit_code : Z) : st kernel Z := mret (as_isize exit_code).

(** What [fork] and [spawn] do with the process they made: a0 of its context, and its place in the family. *)
Definition add_child (a0 : ProcId → Z) (parent_pid : ProcId) (child_proc : Process) : st kernel Z :=
  let pid := pid child_proc in
  ctx ← lift (LocalContext_set_a 0 (a0 pid) (f_context (context child_proc)));
  act (PManager_add pid (set_context (mkForeign ctx (f_satp (context child_proc))) child_proc) parent_pid);;
  mret (as_isize pid).

Definition fork : st kernel Z :=
  current ← current_process;
  let parent_pid := pid current in
  child_proc ← Process_fork current;
  child_proc ← lift (unwrap child_proc);
  add_child (fun _ => 0) parent_pid child_proc.

Definition wait (pid exit_code_ptr : Z) : st kernel Z :=
  current ← current_process;
  r ← on_processor (PManager_wait (as_usize pid));
  match r with
  | Some (dead_pid, exit_code) =>
      k ← get_st;
      ptr ← lift (translate exit_code_ptr (build_flags "W_V") (address_space current) (mc_mem (mach k)));
      match ptr with
      | Some ptr => on_machine (mc_on_mem (mem_write ptr (le_encode 4 (as_u32 exit_code))))
      | None => mret ()
      end;;
      mret (as_isize dead_pid)
  | None => mret (-1)
  end.

Definition getpid : st kernel Z :=
  current ← current_process;
  mret (as_isize (pid current)).

(** [spawn], from the program on. *)
Definition spawn_program (data : Vm.ElfFile) : st kernel Z :=
  current ← current_process;
  let parent_pid := pid current in
  child_proc ← Process_from_elf data;
  match child_proc with
  | None => mret (-1)
  | Some child_proc => add_child (fun pid => pid) parent_pid child_proc
  end.

Definition sbrk (size : Z) : st kernel Z :=
  current ← current_process;
  '(r, p) ← on_machine (Process_change_program_brk size current);
  update_current (fun _ => p);;
  mret match r with Some old_brk => as_isize old_brk | None => -1 end.

Definition sched_yield : st kernel Z := mret 0.
Definition set_priority `{!HasStride X} (prio : Z) : st kernel Z :=
  current ← current_process;
  let '(r, s) := Stride_set_priority prio (stride_of current) in
  update_current (with_stride s);;
  mret r.

Definition clock_gettime (clock_id tp : Z) : st kernel Z := as_caller (Vm.clock_gettime 0 clock_id tp).
Definition mmap (addr len prot flags fd offset : Z) : st kernel Z := as_caller (Vm.mmap fuel 0 addr len prot flags fd offset).
Definition munmap (addr len : Z) : st kernel Z := as_caller (Vm.munmap 0 addr len).
End Calls.

(** ** The loop *)

(** A system call of the task that runs: its number and the answer. *)
Definition syscall (registry : Registry kernel) (task : ProcId) : st kernel (Z * SyscallResult) :=
  p ← current_process;
  let ctx := LocalContext_move_next (f_context (context p)) in
  update_task task (set_context (mkForeign ctx (f_satp (context p))));;
  id ← lift (LocalContext_a 7 ctx);
  args ← lift (Batch.call_args ctx);
  r ← handle registry id (fun n => nth (Z.to_nat n) args 0);
  mret (id, r).

(** What becomes of the task then. *)
Definition finish (task : ProcId) (id : Z) (r : SyscallResult) : st kernel unit :=
  match r with
  | RDone ret =>
      if id =? EXIT then act (PManager_make_current_exited ret)
      else
        p ← current_process;
        ctx ← lift (LocalContext_set_a 0 (as_usize ret) (f_context (context p)));
        update_task task (set_context (mkForeign ctx (f_satp (context p))));;
        act PManager_make_current_suspend
  | Unsupported _ => act (PManager_make_current_exited (-2))
  end.

Definition user_env_call (registry : Registry kernel) (task : ProcId) : st kernel unit :=
  '(id, r) ← syscall registry task;
  finish task id r.

Section Loop.
(** What a process does until its next trap, and how a system call of it is served. *)
Variable run : ForeignContext → machine → ForeignContext * machine * Batch.Trap.
Variable serve : ProcId → st kernel unit.

Definition execute (task : ProcId) : st kernel Batch.Trap :=
  p ← current_process;
  k ← get_st;
  let '(c, s, cause) := run (context p) (mach k) in
  update_task task (set_context c);;
  on_machine (fun _ => Done ((), s));;
  mret cause.

(** One round of the loop: whether there was a task. *)
Definition turn : st kernel bool :=
  task ← on_processor PManager_find_next;
  match task with
  | Some task =>
      cause ← execute task;
      match cause with
      | Batch.UserEnvCall => serve task
      | Batch.OtherTrap => act (PManager_make_current_exited (-3))
      end;;
      mret true
  | None => mret false
  end.

Fixpoint schedule (rounds : nat) : st kernel unit :=
  match rounds with
  | O => lift Hang
  | S rounds' =>
      more ← turn;
      match more with
      | true => schedule rounds'
      | false => mret ()
      end
  end.
End Loop.

(** ** Memory of the caller, and the console *)

(** [current.address_space.translate(VAddr::new(addr), flags)]. *)
Definition user_ptr (addr flags : Z) : st kernel (option Z) :=
  current ← current_process;
  k ← get_st;
  lift (translate addr flags (address_space current) (mc_mem (mach k))).
(** [print!]. *)
Definition print (bs : list Z) : st kernel unit :=
  on_machine (fun s => Done ((), mkMachine (print_bytes bs (mc_world s)) (mc_heap s))).

(** A C string: the bytes before the first zero. *)
Fixpoint c_str (fuel : nat) (m : memory) (a : Z) : outcome (list Z) :=
  match fuel with
  | O => Hang
  | S fuel' => if m a =? 0 then Done [] else rest ← c_str fuel' m (a + 1); Done (m a :: rest)
  end.

(** [console_getchar] for each of [count] bytes: [for _ in 0..count]. *)
Fixpoint read_chars (console_getchar : st world Z) (count : nat) (ptr : Z) : st machine unit :=
  match count with
  | O => mret ()
  | S count' =>
      c ← (fun s => '(c, w) ← console_getchar (mc_world s); Done (c, mkMachine w (mc_heap s)));
      mc_on_mem (mem_write ptr [as_u8 c]);;
      read_chars console_getchar count' (ptr + 1)
  end.

(** ** Booting *)
Definition MEMORY : Z := Z.shiftl 48 20.

(** The process every other comes from, of a program that was found; [new] is the empty manager. *)
Definition first_program (fuel : nat) (new : M) (elf : Vm.ElfFile) : st kernel unit :=
  process ← Process_from_elf fuel elf;
  match process with
  | Some process =>
      act (fun pm => Done (PManager_set_manager new pm));;
      act (PManager_add (pid process) process usize_max)
  | None => mret ()
  end.

(** Up to the kernel's address space, as in ch4: the cleared sections, the page of the portal, the space that [build]
    makes. *)
Definition make_kernel_space (layout : KernelLayout) (text_len : Z) (build : Z → st machine (AddressSpace Sv39Manager)) : st kernel unit :=
  on_machine (fun s =>
    '(_, w) ← on_mem (KernelLayout_zero_bss (Z.to_nat (kl_ebss layout - kl_sbss layout)) layout) (mc_world s);
    Done ((), mkMachine w (mc_heap s)));;
  let portal_size := MultislotPortal_calculate_size text_len 1 in
  portal_ptr ← on_machine (Global_alloc portal_size (Z.shiftl 1 12));
  _ ← lift (rassert (portal_size <? Z.shiftl 1 12));
  ks ← on_machine (build portal_ptr);
  k ← get_st;
  put_st (mkKernel (processor k) (pid_counter k) ks (more k) (mach k)).
End Kernel.

(** ** ch5

    The programs are in the memory of the kernel, under their names ([APPS]). *)

(** The keys of a [BTreeMap<&str, _>] come in the order of their bytes. *)
Fixpoint name_le (a b : list Z) : bool :=
  match a, b with
  | [], _ => true
  | _, [] => false
  | x :: a', y :: b' => (x <? y) || ((x =? y) && name_le a' b')
  end.
Definition name_order (a b : list Z) : Prop := name_le a b = true.
#[export] Instance name_order_dec : RelDecision name_order := fun a b => decide (name_le a b = true).
Definition app_keys {A} (apps : gmap (list Z) A) : list (list Z) := merge_sort name_order (map_to_list apps).*1.

Section Ch5.
Context `{PTC : PageTableCrate}.
Context {Q : Type} `{!BinaryHeap Q StridePair pair_le}.
Abbreviation Process := (Process Stride).
Abbreviation kernel := (kernel (StrideManager Process Q) (gmap (list Z) (list Z))).
Implicit Types (k : kernel).

Definition apps k : gmap (list Z) (list Z) := more k.

Section Calls.
Variable fuel : nat.
(** [parse] is [ElfFile::new], [console_getchar] the call of the SBI. *)
Variable parse : list Z → option Vm.ElfFile.
Variable console_getchar : st world Z.

Definition write (fd buf count : Z) : st kernel Z := as_caller (Vm.write 0 fd buf count).

Definition read (fd buf count : Z) : st kernel Z :=
  if fd =? STDIN then
    as_caller (
      ptr ← Vm.user_ptr 0 buf (build_flags "W_V");
      match ptr with
      | Some ptr => Vm.on_machine (read_chars console_getchar (Z.to_nat count) ptr);; mret (as_isize count)
      | None => mret (-1)
      end)
  else mret (-1).

(** The program a path names: translation, [APPS.get], [ElfFile::new]. *)
Definition named_program (path count : Z) : st kernel (option Vm.ElfFile) :=
  current ← current_process;
  k ← get_st;
  ptr ← lift (translate path (build_flags "RV") (address_space current) (mc_mem (mach k)));
  mret (
    ptr ← ptr;
    input ← apps k !! mem_read (mc_mem (mach k)) ptr (Z.to_nat count);
    parse input).

(** The names of [APPS] on the console, then an empty line. *)
Definition printed k : kernel :=
  let s := mach k in
  set_mach (mkMachine (print_bytes (concat ((fun name => name ++ [10]) <$> app_keys (more k)) ++ [10]) (mc_world s)) (mc_heap s)) k.
Definition unknown_app : st kernel unit := fun k => Done ((), printed k).

Definition exec (path count : Z) : st kernel Z :=
  data ← named_program path count;
  match data with
  | None => unknown_app;; mret (-1)
  | Some data => Process_exec fuel data;; mret 0
  end.

Definition spawn (path count : Z) : st kernel Z :=
  data ← named_program path count;
  match data with
  | None => unknown_app;; mret (-1)
  | Some data => spawn_program fuel data
  end.

Definition SyscallContext_io : IOSys kernel :=
  mkIOSys _ read write (fun _ _ => unimplemented) (fun _ => unimplemented)
    (fun _ _ _ _ _ => unimplemented) (fun _ => unimplemented) (fun _ _ _ => unimplemented) (fun _ _ => unimplemented).
Definition SyscallContext_process : ProcessSys kernel := mkProcessSys _ exit (fork fuel) exec wait getpid spawn (sbrk fuel).
Definition SyscallContext_scheduling : SchedulingSys kernel := mkSchedulingSys _ sched_yield set_priority.
Definition SyscallContext_clock : ClockSys kernel := mkClockSys _ clock_gettime.
Definition SyscallContext_memory : MemorySys kernel := mkMemorySys _ (mmap fuel) munmap.
Definition registry : Registry kernel :=
  mkRegistry (Some SyscallContext_process) (Some SyscallContext_io) (Some SyscallContext_memory)
    (Some SyscallContext_scheduling) (Some SyscallContext_clock) None None None None.

End Calls.

(** [APPS]: the names stand one after the other at [app_names]; they are ASCII, so [to_str] takes them. *)
Fixpoint scan_apps (rounds fuel : nat) (it : AppIterator) (addr : Z) (found : gmap (list Z) (list Z)) : st memory (gmap (list Z) (list Z)) :=
  match rounds with
  | O => lift Hang
  | S rounds' =>
      '(app, it) ← AppIterator_next it;
      match app with
      | None => mret found
      | Some (base, size) =>
          m ← get_st;
          name ← lift (c_str fuel m addr);
          scan_apps rounds' fuel it (addr + Z.of_nat (length name) + 1) (<[name := mem_read m base (Z.to_nat size)]> found)
      end
  end.

(** The process every other comes from; [initproc] is its name. *)
Definition load_initproc (fuel : nat) (parse : list Z → option Vm.ElfFile) (initproc : list Z) : st kernel unit :=
  k ← get_st;
  data ← lift (unwrap (apps k !! initproc));
  elf ← lift (unwrap (parse data));
  first_program fuel StrideManager_new elf.

(** From the cleared sections on, as in ch4; [names] is the address of [app_names], whose strings are shorter than
    [fuel]. *)
Definition rust_main (rounds fuel : nat) (parse : list Z → option Vm.ElfFile) (console_getchar : st world Z)
    (run : ForeignContext → machine → ForeignContext * machine * Batch.Trap)
    (layout : KernelLayout) (text_len : Z) (meta : AppMeta) (names : Z) (initproc : list Z) : st kernel unit :=
  make_kernel_space layout text_len (Vm.kernel_space fuel layout MEMORY);;
  found ← on_machine (fun s =>
    '(found, w) ← on_mem (scan_apps (S (Z.to_nat (am_count meta))) fuel (AppMeta_iter meta) names ∅) (mc_world s);
    Done (found, mkMachine w (mc_heap s)));
  k ← get_st;
  put_st (mkKernel (processor k) (pid_counter k) (kernel_as k) found (mach k));;
  load_initproc fuel parse initproc;;
  schedule run (user_env_call (registry fuel parse console_getchar)) rounds.
End Ch5.
End Fork.
