(* ===== verification/ForkInvariant.v ===== *)
(** * The invariant of the kernel with processes

    What ProcInvariant.v says of the process manager and what SpaceInvariant.v says of one space, together: the tasks of
    the scheduler are the processes of the family tree, each has a well-formed space of its own, and its [satp] names
    that space. *)

From S2P Require Import Prelude Bytes Memory KernelContext TaskRel ProcManage ProcTree ProcInvariant ProcSystem Schedulers Syscall PageTable AddressSpace SpaceTree SpaceMap SpaceInvariant PageManager BatchKernel TaskKernel VmKernel VmTheorems VmIsolation VmLoad VmBoot SpaceFamily ForkKernel.

Module ForkInv.
Import Fork Family SpaceRoot VmInv.

(** ** What the kernel relies on

    The manager of a chapter keeps its tasks in a table ([table_with] replaces it); [fetch] changes no more of a process
    than its [extra] part, and puts the id it returns out of the queue. *)
Class ProcessTable (X M : Type) `{!Manage M (Process X), !ManageSpec M (Process X), !Schedule M, !ScheduleSpec M (Process X)} := {
  table_with : (gmap Z (Process X) → gmap Z (Process X)) → M → M;
  table_tasks f m : tasks_of (table_with f m) = f (tasks_of m);
  table_ready f m : ready_of (table_with f m) = ready_of m;
  table_ext f g m : f (tasks_of m) = g (tasks_of m) → table_with f m = table_with g m;
  table_id m : table_with id m = m;
  table_update i f m : m_update i f m = table_with (alter f i) m;
  table_add i m m' : s_add i m = Done m' → tasks_of m' = tasks_of m;
  table_fetch m i m' : s_fetch m = Done (Some i, m') → i ∈ dom (tasks_of m') → ∃ p x, tasks_of m !! i = Some p ∧
    tasks_of m' = <[i := set_extra x p]> (tasks_of m) ∧ ready_of m ≡ₚ i :: ready_of m';
}.

#[export] Program Instance stride_table {X Q} `{!HasStride X, !BinaryHeap Q StridePair pair_le} : ProcessTable X (StrideManager (Process X) Q) :=
  {| table_with f m := mkStrideManager (f (sm_tasks m)) (sm_queue m) |}.
Next Obligation. done. Qed.
Next Obligation. done. Qed.
Next Obligation. intros ?????? m E. simpl in *. by rewrite E. Qed.
Next Obligation. by intros ???? []. Qed.
Next Obligation. done. Qed.
Next Obligation. intros ???? i m m' Hd. simpl in Hd. unfold StrideManager_add in Hd. by apply bind_Done in Hd as (q & _ & [= <-]). Qed.
Next Obligation.
  intros ???? m i m' Hd _. simpl in *. unfold StrideManager_fetch, queue_ids in *. pose proof (heap_pop_elems (sm_queue m)) as Hpop.
  destruct (heap_pop (sm_queue m)) as [[[id st] qu]|]; [|done]. destruct Hpop as [HP _].
  apply bind_Done in Hd as (q & Hq & Hd). apply bind_Done in Hd as (st' & _ & [= <- <-]).
  destruct (sm_tasks m !! id) as [q'|] eqn:Ht; [|done]. injection Hq as ->. eexists q, _. split_and!; [done|done|]. simpl. by rewrite HP.
Qed.

#[export] Program Instance fifo_table {X} : ProcessTable X (ThreadManager (Process X)) :=
  {| table_with f m := mkThreadManager (f (fifo_tasks m)) (fifo_queue m) |}.
Next Obligation. done. Qed.
Next Obligation. done. Qed.
Next Obligation. intros ? f g m E. simpl in *. by rewrite E. Qed.
Next Obligation. by intros ? []. Qed.
Next Obligation. done. Qed.
Next Obligation. by intros ? i m m' [= <-]. Qed.
Next Obligation.
  intros ? m i m' Hd Hi. simpl in *. unfold ThreadManager_fetch, pop_front in Hd. destruct m as [tk [|id q]]; [done|].
  injection Hd as -> <-. simpl in *. apply elem_of_dom in Hi as [p Hp]. exists p, (extra p). split_and!; [done| |done].
  symmetry. apply insert_id. rewrite Hp. by destruct p.
Qed.

(** What the calls keep of the state that a chapter adds to the kernel. *)
Class MoreKept (Y : Type) := {
  more_kept : relation Y;
  #[global] more_kept_pre :: PreOrder more_kept;
}.
(** The applications of ch5 stay. *)
#[export] Instance apps_kept : MoreKept (gmap (list Z) (list Z)) := {| more_kept := eq |}.

(** What a call of another process keeps of what a chapter adds to a process. *)
Class ExtraKept (X : Type) := {
  extra_kept : relation X;
  #[global] extra_kept_pre :: PreOrder extra_kept;
}.
(** In ch5, all of it. *)
#[export] Instance stride_kept : ExtraKept Stride := {| extra_kept := eq |}.

Section Invariant.
Context `{PTC : PageTableCrate, HL : !HeapLaws, PTL : !PageTableLaws}.
Context {X M Y : Type} `{!Manage M (Process X), !ManageSpec M (Process X), !Schedule M, !ScheduleSpec M (Process X), PT : !ProcessTable X M, !MoreKept Y, !ExtraKept X}.
Abbreviation kernel := (kernel M Y).
Abbreviation Process := (Process X).
Implicit Types (k : kernel) (T U : gmap (list Z) Z) (TT : gmap Z (gmap (list Z) Z)) (p q : Process) (s : machine) (h : list pevent).

(** ** The processes of a kernel *)
Definition tasks k : gmap Z Process := from_option tasks_of ∅ (manager (processor k)).
Definition spaces k : gmap Z (AddressSpace Sv39Manager) := address_space <$> tasks k.
(** The kernel as the process system of ProcSystem.v. *)
Definition system k : psys (M := M) := mkPsys (processor k) (pid_counter k).

Record task_ok (i : Z) p : Prop := {
  to_pid : pid p = i;
  to_brk : VmCalls.brk_ok (vm_of p);
  to_satp : f_satp (context p) = satp_of (address_space p);
}.

Record fork_inv h k TT : Prop := {
  fi_system : psys_ok h (system k);
  fi_family : family (spaces k) TT (mach k);
  fi_tasks i p : tasks k !! i = Some p → task_ok i p;
}.

(** What holds between two states while process [i] runs: the other processes, their mappings and their bytes stay. *)
Definition others_kept (i : Z) k TT k' TT' : Prop := ∀ j p T, j ≠ i → tasks k !! j = Some p → TT !! j = Some T →
  tasks k' !! j = Some p ∧ TT' !! j = Some T ∧ same_space (mach k) (mach k') (address_space p) T.

(** The process as another one left it. *)
Definition task_kept p q : Prop := q = set_extra (extra q) p ∧ extra_kept (extra p) (extra q).

(** The same for a whole call, in which the chapter may let it change what it adds to other processes. *)
Definition others_stay (i : Z) k TT k' TT' : Prop := ∀ j p T, j ≠ i → tasks k !! j = Some p → TT !! j = Some T →
  ∃ q, tasks k' !! j = Some q ∧ task_kept p q ∧ TT' !! j = Some T ∧ same_space (mach k) (mach k') (address_space p) T.

Record advanced (i : Z) h k TT k' : Prop := {
  ad_inv : ∃ h' TT', fork_inv (h ++ h') k' TT' ∧ others_stay i k TT k' TT';
  ad_more : more_kept (more k) (more k');
}.

Lemma others_kept_trans i k1 TT1 k2 TT2 k3 TT3 : others_kept i k1 TT1 k2 TT2 → others_kept i k2 TT2 k3 TT3 → others_kept i k1 TT1 k3 TT3.
Proof.
  intros H12 H23 j p T Hj Hp HT. destruct (H12 j p T Hj Hp HT) as (Hp2 & HT2 & Hs2).
  destruct (H23 j p T Hj Hp2 HT2) as (Hp3 & HT3 & Hs3). split_and!; [done|done|by eapply same_space_trans].
Qed.

Lemma task_kept_refl p : task_kept p p.
Proof. split; [by destruct p|reflexivity]. Qed.

Lemma task_kept_eq p q : (∀ x y, extra_kept x y → x = y) → task_kept p q → p = q.
Proof. intros He [E Hk]. rewrite E, <-(He _ _ Hk). by destruct p. Qed.

Lemma task_kept_space p q : task_kept p q → address_space q = address_space p.
Proof. by intros [-> _]. Qed.

Lemma task_kept_trans p1 p2 p3 : task_kept p1 p2 → task_kept p2 p3 → task_kept p1 p3.
Proof. intros [E2 H2] [E3 H3]. split; [|by etrans]. rewrite E3 at 1. by rewrite E2. Qed.

Lemma kept_stay i k TT k' TT' : others_kept i k TT k' TT' → others_stay i k TT k' TT'.
Proof. intros Ho j p T Hj Hp HT. destruct (Ho j p T Hj Hp HT) as (Hp' & HT' & Hs). exists p. split_and!; [done|apply task_kept_refl|done..]. Qed.

Lemma others_stay_trans i k1 TT1 k2 TT2 k3 TT3 : others_stay i k1 TT1 k2 TT2 → others_stay i k2 TT2 k3 TT3 → others_stay i k1 TT1 k3 TT3.
Proof.
  intros H12 H23 j p T Hj Hp HT. destruct (H12 j p T Hj Hp HT) as (p2 & Hp2 & Hk2 & HT2 & Hs2).
  destruct (H23 j p2 T Hj Hp2 HT2) as (p3 & Hp3 & Hk3 & HT3 & Hs3). rewrite (task_kept_space p p2 Hk2) in Hs3.
  exists p3. split_and!; [done|by eapply task_kept_trans|done|by eapply same_space_trans].
Qed.

(** A state after [k] in which the same process goes on. *)
Lemma advanced_trans i h k TT k1 h1 TT1 k2 : fork_inv (h ++ h1) k1 TT1 → others_stay i k TT k1 TT1 → more_kept (more k) (more k1) →
  advanced i (h ++ h1) k1 TT1 k2 → advanced i h k TT k2.
Proof.
  intros Hi Ho Ha [(h2 & TT2 & Hi2 & Ho2) Ha2]. split; [|by etrans]. exists (h1 ++ h2), TT2. rewrite app_assoc.
  split; [done|by eapply others_stay_trans].
Qed.

Lemma advanced_refl i h k TT : fork_inv h k TT → advanced i h k TT k.
Proof. intros Hi. split; [|reflexivity]. exists [], TT. rewrite app_nil_r. split; [done|]. apply kept_stay. by intros j p T _ Hp HT. Qed.

Lemma inv_manager h k TT : fork_inv h k TT → ∃ mgr, manager (processor k) = Some mgr ∧ tasks k = tasks_of mgr.
Proof.
  intros [Hs _ _]. destruct (pm_mgr _ (s_inv _ _ Hs)) as (mgr & Hm & _). exists mgr. split; [done|]. unfold tasks. simpl in Hm. by rewrite Hm.
Qed.

Lemma inv_task h k TT i : fork_inv h k TT → ProcManage.current (processor k) = Some i →
  ∃ p T, tasks k !! i = Some p ∧ TT !! i = Some T ∧ task_ok i p ∧ space_inv portal (mach k) (address_space p) T.
Proof.
  intros Hi Hc. pose proof Hi as [Hs Hf Ht]. destruct (pm_mgr _ (s_inv _ _ Hs)) as (mgr & Hm & Hd & He). simpl in Hm, Hd, He.
  destruct (current_rel _ _ _ Hs Hc) as [r Hr]. simpl in Hr. assert (i ∈ dom (tasks k)) as [p Hp]%elem_of_dom.
  { unfold tasks. rewrite Hm. simpl. rewrite Hd. by apply elem_of_dom_2 in Hr. }
  assert (spaces k !! i = Some (address_space p)) as Hsp by (unfold spaces; by rewrite lookup_fmap, Hp).
  destruct (family_tables _ _ _ _ _ Hf Hsp) as [T HT]. exists p, T. split_and!; [done|done|by apply Ht|by eapply fm_space].
Qed.

(** ** Changes of one task *)

(** The task table and the machine, replaced. *)
Definition with_tasks (f : gmap Z Process → gmap Z Process) s k : kernel :=
  let pm := processor k in
  mkKernel (mkPManager (rel_map pm) (table_with f <$> manager pm) (ProcManage.current pm))
    (pid_counter k) (kernel_as k) (more k) s.
(** Process [i] is now [q]. *)
Definition retask (i : Z) q s k : kernel := with_tasks <[i := q]> s k.

(** The relations, the counter and the ready queue are as they were. *)
Lemma system_keep h (y y' : psys) : psys_ok h y → pm_inv (procs y') → rel_map (procs y') = rel_map (procs y) →
  next_pid y ≤ next_pid y' ≤ still_running → psys_ok h y'.
Proof.
  intros [] Hpm Er Hn. split; rewrite ?Er; try done; try lia.
  - intros k r Hk. specialize (s_below k r Hk). lia.
  - intros k r d Hk Hd. destruct (s_dead k r d Hk Hd) as (? & ? & ?). split_and!; [done|done|lia|lia].
  - intros c Hc. destruct (s_gone c Hc). split; [done|lia].
Qed.

Lemma retask_tasks h k TT i q s : fork_inv h k TT → tasks (retask i q s k) = <[i := q]> (tasks k).
Proof. intros Hi. destruct (inv_manager _ _ _ Hi) as (mgr & Hm & Ht). unfold tasks, retask, with_tasks. simpl. rewrite Hm. apply table_tasks. Qed.

Lemma retask_inv h k TT i p q s T' : fork_inv h k TT → tasks k !! i = Some p → task_ok i q →
  family (<[i := address_space q]> (spaces k)) (<[i := T']> TT) s → (∀ j, j ≠ i → alone (spaces k) TT (mach k) s j) →
  fork_inv h (retask i q s k) (<[i := T']> TT) ∧ others_kept i k TT (retask i q s k) (<[i := T']> TT).
Proof.
  intros Hi Hp Hq Hf Hal. pose proof Hi as [Hs _ Ht]. destruct (inv_manager _ _ _ Hi) as (mgr & Hm & Hmt). split.
  - split.
    + apply (system_keep h (system k)); [done| |done|pose proof (s_pid _ _ Hs); simpl in *; lia].
      destruct (s_inv _ _ Hs) as [Htree (mgr' & Hm' & Hd & He)]. simpl in *. rewrite Hm in Hm'. injection Hm' as <-. split; [done|].
      simpl. rewrite Hm. simpl. eexists. split; [done|]. rewrite table_tasks, table_ready. split; [|exact He]. rewrite <-Hd, dom_insert_L.
      assert (i ∈ dom (tasks_of mgr)) by (rewrite <-Hmt; by apply elem_of_dom_2 in Hp). set_solver.
    + unfold spaces. rewrite (retask_tasks h k TT) by done. by rewrite fmap_insert.
    + intros j r. rewrite (retask_tasks h k TT) by done. intros [[<- <-]|[_ Hj]]%lookup_insert_Some; [done|by apply Ht].
  - intros j r T Hj Hr HT. rewrite (retask_tasks h k TT) by done. rewrite !lookup_insert_ne by done. split_and!; [done|done|].
    apply (Hal j Hj); [|done]. unfold spaces. by rewrite lookup_fmap, Hr.
Qed.

Lemma inv_space h k TT i p : fork_inv h k TT → tasks k !! i = Some p → spaces k !! i = Some (address_space p).
Proof. intros _ Hp. unfold spaces. by rewrite lookup_fmap, Hp. Qed.

(** The process keeps its space. *)
Lemma retask_same h k TT i p q s T : fork_inv h k TT → tasks k !! i = Some p → TT !! i = Some T → task_ok i q →
  address_space q = address_space p → family (spaces k) TT s → (∀ j, j ≠ i → alone (spaces k) TT (mach k) s j) →
  fork_inv h (retask i q s k) TT ∧ others_kept i k TT (retask i q s k) TT.
Proof.
  intros Hi Hp HT Hq E Hf Hal. pose proof (retask_inv h k TT i p q s T Hi Hp Hq) as Hr. rewrite E, (insert_id TT i T HT) in Hr.
  apply Hr; [|done]. by rewrite insert_id by (by eapply inv_space).
Qed.

(** ** Steps of the kernel *)
Lemma machine_run {A} (f : st machine A) a s k : f (mach k) = Done (a, s) → on_machine f k = Done (a, set_mach s k).
Proof. intros E. unfold on_machine. by rewrite E. Qed.

Lemma machine_panics {A} (f : st machine A) k : f (mach k) = Panic → on_machine f k = Panic.
Proof. intros E. unfold on_machine. by rewrite E. Qed.

Lemma map_portal_run sp s k : Vm.share_portal (kernel_as k) sp (mach k) = Done ((), s) → map_portal sp k = Done ((), set_mach s k).
Proof. intros E. unfold map_portal. rewrite (st_bind_run get_st _ _ _ _ eq_refl). by apply machine_run. Qed.

Lemma current_run h k TT i p : fork_inv h k TT → ProcManage.current (processor k) = Some i → tasks k !! i = Some p →
  current_process k = Done (p, k).
Proof.
  intros Hi Hc Hp. destruct (inv_manager _ _ _ Hi) as (mgr & Hm & Ht). unfold current_process, PManager_current. rewrite Hc, Hm. simpl.
  by rewrite get_spec, <-Ht, Hp.
Qed.

Lemma update_task_run h k TT i p f : fork_inv h k TT → tasks k !! i = Some p →
  update_task i f k = Done ((), retask i (f p) (mach k) k).
Proof.
  intros Hi Hp. destruct (inv_manager _ _ _ Hi) as (mgr & Hm & Ht). unfold update_task, act, on_processor, retask, with_tasks. rewrite Hm. simpl.
  rewrite Ht in Hp. by rewrite table_update, (table_ext _ _ _ (alter_present f _ _ _ Hp)).
Qed.

Lemma update_current_run h k TT i p f : fork_inv h k TT → ProcManage.current (processor k) = Some i → tasks k !! i = Some p →
  update_current f k = Done ((), retask i (f p) (mach k) k).
Proof. intros Hi Hc Hp. unfold update_current. rewrite Hc. simpl. by eapply update_task_run. Qed.
End Invariant.
End ForkInv.
