(* ===== verification/ForkMaking.v ===== *)
(** * New processes

    [Process::from_elf] and [Process::fork]: the space of the new process, of pages that were free, before it is added to
    the manager. *)

From S2P Require Import Prelude Bytes Memory KernelContext TaskRel ProcManage ProcTree ProcInvariant ProcSystem Schedulers Syscall PageTable AddressSpace SpaceTree SpaceMap SpaceInvariant PageManager BatchKernel TaskKernel VmKernel VmTheorems VmIsolation VmLoad VmBoot SpaceFamily ForkKernel ForkInvariant.

Module ForkMaking.
Import Fork Family SpaceRoot VmInv VmLoad ForkInv.
Section Making.
Context `{PTC : PageTableCrate, HL : !HeapLaws, PTL : !PageTableLaws}.
Context {X M Y : Type} `{!ProcessExtra X, !Manage M (Process X), !ManageSpec M (Process X), !Schedule M, !ScheduleSpec M (Process X), PT : !ProcessTable X M, !MoreKept Y, !ExtraKept X}.
Abbreviation kernel := (kernel M Y).
Abbreviation Process := (Process X).
Implicit Types (k : kernel) (T U : gmap (list Z) Z) (TT : gmap Z (gmap (list Z) Z)) (p q : Process) (s : machine) (h : list pevent) (sp ns : AddressSpace Sv39Manager).

(** The machine did its part and the next pid was drawn. *)
Definition drawn s k : kernel := mkKernel (processor k) (as_usize (pid_counter k + 1)) (kernel_as k) (more k) s.

(** A space of pages that were free in [s0]. *)
Record new_space s0 s sp T : Prop := {
  ns_inv : space_inv portal s sp T;
  ns_kept : kept ∅ s0 T s;
  ns_fresh : fresh_since s0 s sp T;
}.

Lemma uses_mapping s s' sp T x : (∀ w, mapping (mc_mem s') T w = mapping (mc_mem s) T w) → uses s' sp T x → uses s sp T x.
Proof. intros Hm [Ha|(w & e & Hin & He & Hx)]; [by left|right]. exists w, e. by rewrite <-Hm. Qed.

(** The entry of the kernel is put into the root. *)
Lemma portal_run ks s0 s sp T : new_space s0 s sp T → ∃ s', Vm.share_portal ks sp s = Done ((), s') ∧ new_space s0 s' sp T ∧
  mc_heap s' = mc_heap s ∧ kept T s T s' ∧ ∀ w, mapping (mc_mem s') T w = mapping (mc_mem s) T w.
Proof.
  intros [Hi K Hfr]. destruct (VmBoot.share_portal_run ks sp s T Hi) as (s' & Hs & Hh & Hi' & K' & Hm). exists s'.
  split_and!; [done| |done|done|done]. split; [done|by eapply kept_trans|]. intros x Hx. apply Hfr. by eapply uses_mapping.
Qed.

(** ** [from_elf] *)
Record from_elf k (elf : Vm.ElfFile) p s T : Prop := {
  fe_task : task_ok (pid_counter k) p;
  fe_space : new_space (mach k) s (address_space p) T;
  fe_program : VmBoot.has_program (Vm.mkKernel [] s) (vm_of p) T elf;
  fe_stack x : 0 ≤ x < 2 * page_size → byte_at (mc_mem s) T (stack_range.1 * page_size + x) = Some 0;
  fe_sp : LocalContext_sp (f_context (context p)) = Done (2 ^ 38);
  fe_extra : extra p = extra_new;
  fe_took : took (M := Sv39Manager) (pages_needed elf) (mach k) s;
}.

Lemma from_elf_portal k elf v s1 s2 T : loaded_process elf (mach k) v s1 T → new_space (mach k) s2 (Vm.address_space v) T →
  mc_heap s2 = mc_heap s1 → kept T s1 T s2 → (∀ w, mapping (mc_mem s2) T w = mapping (mc_mem s1) T w) →
  from_elf k elf (mkProcess (pid_counter k) (Vm.context v) (Vm.address_space v) (Vm.heap_bottom v) (Vm.program_brk v) extra_new) s2 T.
Proof.
  intros L Hn Hh K Hm. pose proof (lp_areas _ _ _ _ _ L) as Ha. split; [|done| | | |done|].
  - split; [done|apply L|apply L].
  - pose proof (lp_segs _ _ _ _ _ L) as Hsegs. split; [|split; [|split; [apply L|apply L]]].
    + rewrite Forall_forall in Hsegs |- *. intros ph Hph. eapply seg_keep; [apply L|exact K| |done|by apply Hsegs].
      rewrite Ha. apply elem_of_app. left. by apply list_elem_of_fmap_2.
    + apply Forall_forall. intros ph Hph. simpl. rewrite Ha. apply elem_of_app. left. by apply list_elem_of_fmap_2.
  - intros x Hx. rewrite <-(lp_stack _ _ _ _ _ L x Hx). eapply byte_keep; [apply L|exact K| |apply Hm].
    exists stack_range. split; [rewrite Ha; apply elem_of_app; right; by apply list_elem_of_singleton|].
    unfold inside, stack_range in *. simpl. rewrite Z.div_add_l by done.
    assert (0 ≤ x / page_size < 2); [|lia]. split; [apply Z.div_pos|apply Z.div_lt_upper_bound]; unfold page_size in *; lia.
  - apply L.
  - destruct (lp_took _ _ _ _ _ L) as (n & Hn' & Ht). exists n. by rewrite Hh.
Qed.

Lemma from_elf_run fuel elf k : VmLoad.elf_ok fuel elf →
  if riscv_program elf then
    (Process_from_elf fuel elf k = Panic ∧ exhausted (M := Sv39Manager) (pages_needed elf) (mach k)) ∨
    ∃ p s T, Process_from_elf fuel elf k = Done (Some p, drawn s k) ∧ from_elf k elf p s T
  else Process_from_elf fuel elf k = Done (None, k).
Proof.
  intros Hok. destruct (riscv_program elf) eqn:Hrv.
  - destruct (process_new_run fuel elf (mach k) Hok Hrv) as [[Hp Hex]|(v & s1 & T & Hp & L)]; [left|right].
    + unfold Process_from_elf, mbind, st_bind, on_machine. by rewrite Hp.
    + assert (new_space (mach k) s1 (Vm.address_space v) T) as Hn by (split; apply L).
      destruct (portal_run (kernel_as k) _ _ _ _ Hn) as (s2 & Hs & Hn2 & Hh & K & Hm).
      eexists _, s2, T. split; [|by eapply from_elf_portal].
      unfold Process_from_elf. rewrite (st_bind_run _ _ _ _ _ (machine_run _ _ _ _ Hp)).
      rewrite (st_bind_run _ _ _ _ _ (map_portal_run _ s2 (set_mach s1 k) Hs)). reflexivity.
  - unfold Process_from_elf, mbind, st_bind, on_machine. assert (Vm.Process_new fuel elf (mach k) = Done (None, mach k)) as Hn.
    { unfold Vm.Process_new. fold (riscv_program elf). by rewrite Hrv. }
    rewrite Hn. simpl. by destruct k.
Qed.

(** ** [fork] *)

(** Every address of the areas of [sp] holds the same byte in both spaces, with the same permissions. *)
Definition same_contents s0 sp T s T' : Prop := ∀ addr, in_areas (addr / page_size) (areas (M := Sv39Manager) sp) →
  byte_at (mc_mem s) T' addr = byte_at (mc_mem s0) T addr ∧
  ∃ pte pte', mapping (mc_mem s0) T (addr / page_size) = Some pte ∧ mapping (mc_mem s) T' (addr / page_size) = Some pte' ∧
    pte_flags pte' = Z.lor (pte_flags pte) OWNED.

(** A copy of [p], before it has its own context. *)
Record forked k p T c s T' : Prop := {
  fk_task : task_ok (pid_counter k) c;
  fk_space : new_space (mach k) s (address_space c) T';
  fk_areas : areas (address_space c) = areas (address_space p);
  fk_contents : same_contents (mach k) (address_space p) T s T';
  fk_context : f_context (context c) = f_context (context p);
  fk_heap : heap_bottom c = heap_bottom p ∧ program_brk c = program_brk p;
  fk_extra : extra c = extra_fork (extra p);
}.

(** An empty space is new, and the source is beside it. *)
Lemma empty_new s sp T ns s1 : space_inv portal s sp T → areas ns = [] → space_inv portal s1 ns {[[] := space_root ns]} →
  kept ∅ s {[[] := space_root ns]} s1 → let Tn := {[[] := space_root ns]} in
  space_inv portal s1 sp T ∧ tables_apart Tn T ∧ frames_clear s1 sp T Tn ∧ ∀ w, mapping (mc_mem s1) T w = mapping (mc_mem s) T w.
Proof.
  intros Hsp Ha Hn K Tn. destruct (kept_other portal _ _ _ _ sp T K) as (Hsp1 & Hap & Hm); [intros a b x Hx; by rewrite lookup_empty in Hx|done|].
  split_and!; [done|done| |done].
  intros ar w pte Har Hw Hp a Hx. rewrite Hm in Hp.
  destruct (frame_data portal s sp T w pte Hsp ltac:(by exists ar) Hp) as [Hu _].
  destruct (kp_new _ _ _ _ K a _ Hx) as [He|Hne]; [by rewrite lookup_empty in He|done].
Qed.

(** Copies of pages that were free are pages that were free. *)
Lemma copies_new s0 s1 sp T ns s2 T' : (∀ x, page_used (mc_heap s0) x → page_used (mc_heap s1) x) → kept ∅ s0 T' s2 → areas ns = areas sp →
  (∀ ar, ar ∈ areas sp → copy_of s1 T s2 T' ar) → fresh_since s0 s2 ns T'.
Proof.
  intros Hmono K Ha Hc x Hx Hu. destruct Hx as [[a Hx]|(w & pte & (ar & Har & Hw) & Hm & <-)].
  - destruct (kp_new _ _ _ _ K a x Hx) as [He|Hn]; [by rewrite lookup_empty in He|done].
  - rewrite Ha in Har. destruct (copy_reads s1 T s2 T' ar (w * page_size) (Hc ar Har)) as (_ & f & e & e' & _ & E & _ & _ & Hn);
      rewrite Z.div_mul in * by done; [done|]. rewrite Hm in E. injection E as ->. by apply Hn, Hmono.
Qed.

(** The bytes of a space that stands aside. *)
Lemma byte_aside s T0 T0' s' sp T addr : space_inv portal s sp T → kept T0 s T0' s' → tables_apart T0 T → frames_clear s sp T T0 →
  in_areas (addr / page_size) (areas sp) → byte_at (mc_mem s') T addr = byte_at (mc_mem s) T addr.
Proof.
  intros Hsp K Hap Hcl Hin. destruct (kept_other portal _ _ _ _ sp T K Hap Hsp) as (_ & _ & Hm). unfold byte_at. rewrite Hm.
  destruct (mapping (mc_mem s) T (addr / page_size)) as [e|] eqn:E; [|done]. simpl. f_equal.
  destruct (frame_data portal s sp T _ e Hsp Hin E) as [Hu _]. pose proof (Z.mod_pos_bound addr page_size ltac:(done)).
  assert ((pte_ppn e * page_size + addr mod page_size) / page_size = pte_ppn e) as Hd.
  { symmetry. apply (Z.div_unique _ _ _ (addr mod page_size)); lia. }
  apply (kp_mem _ _ _ _ K); rewrite Hd; [done|]. destruct Hin as (ar & Har & Hw). intros a. by apply (Hcl ar (addr / page_size) e).
Qed.

(** The space of the new process, in one piece. *)
Definition clone_space (fuel : nat) (ks sp : AddressSpace Sv39Manager) : st machine (AddressSpace Sv39Manager) :=
  space ← AddressSpace_new;
  space ← cloneself fuel sp space;
  Vm.share_portal ks space;;
  mret space.

Lemma clone_run fuel ks sp s T : space_inv portal s sp T → (∀ ar, ar ∈ areas sp → ar.2 - ar.1 ≤ Z.of_nat fuel) →
  (clone_space fuel ks sp s = Panic ∧ exhausted (M := Sv39Manager) (1 + 3 * pages_of (areas sp)) s) ∨
  ∃ ns s' T', clone_space fuel ks sp s = Done (ns, s') ∧ new_space s s' ns T' ∧ areas ns = areas sp ∧ same_contents s sp T s' T'.
Proof.
  intros Hsp Hfuel. destruct (new_heap s) as [Hex Htk].
  assert (0 ≤ pages_of (areas sp)) as Hpg.
  { apply pages_of_nonneg. intros ar Har. destruct (si_range _ _ _ _ Hsp ar Har) as [(_ & ? & _) _]. lia. }
  unfold clone_space. destruct (new_run (M := Sv39Manager) portal s) as [Hn|(ns & s1 & Hn & Ha & Hinv & K)].
  { left. unfold mbind, st_bind. rewrite Hn. split; [done|]. eapply exhausted_after; [by apply (took_none 0)|by apply Hex|lia]. }
  rewrite (st_bind_run _ _ _ _ _ Hn). destruct (empty_new s sp T ns s1 Hsp Ha Hinv K) as (Hsp1 & Hap & Hcl & Hm1).
  destruct (cloneself_run portal sp s1 T _ fuel Hsp1 Hap Hcl ns Hinv Ha Hfuel) as [[Hp He]|(s2 & T' & Hrun & Hinv2 & K2 & Hcopy)]; [left|right].
  { unfold mbind, st_bind. rewrite Hp. split; [done|]. eapply exhausted_after; [by eapply Htk|exact He|lia]. }
  set (sp' := mkSpace (areas sp) (page_manager ns)) in *. pose proof (kept_trans _ _ _ _ _ _ K K2) as K02.
  assert (new_space s s2 sp' T') as Hnew.
  { split; [done|done|]. eapply (copies_new s s1 sp T sp'); [apply (kp_used _ _ _ _ K)|done..]. }
  destruct (portal_run ks _ _ _ _ Hnew) as (s3 & Hs & Hn3 & Hh & K3 & Hm3). exists sp', s3, T'.
  rewrite (st_bind_run _ _ _ _ _ Hrun), (st_bind_run _ _ _ _ _ Hs). split_and!; [done|done|done|].
  intros addr Hin. pose proof Hin as (ar & Har & Hw).
  destruct (copy_reads s1 T s2 T' ar addr (Hcopy ar Har) Hw) as (E & f & e & e' & E1 & E2 & F1 & F2 & _). split.
  - rewrite <-(byte_aside s ∅ _ s1 sp T addr Hsp K), <-E; [|intros a b x Hx; by rewrite lookup_empty in Hx|intros ? ? ? _ _ _ a; by rewrite lookup_empty|done].
    eapply byte_keep; [exact Hinv2|exact K3|done|apply Hm3].
  - exists e, e'. rewrite <-Hm1, Hm3. split_and!; [done|done|by rewrite F1].
Qed.

(** [fork] after the pid was drawn. *)
Lemma fork_unfold fuel p k : Process_fork fuel p k =
  (space ← on_machine (clone_space fuel (kernel_as k) (address_space p));
   mret (Some (mkProcess (pid_counter k) (mkForeign (f_context (context p)) (satp_of space)) space (heap_bottom p) (program_brk p) (extra_fork (extra p)))))
  (drawn (mach k) k).
Proof.
  unfold Process_fork, clone_space, map_portal, on_machine, mbind, st_bind, get_st. simpl.
  destruct (AddressSpace_new (mach k)) as [[a s1]| |]; [|done..]. simpl. destruct (cloneself fuel (address_space p) a s1) as [[b s2]| |]; [|done..]. simpl.
  by destruct (Vm.share_portal (kernel_as k) b s2) as [[u s3]| |].
Qed.

Lemma fork_run fuel k p T : space_inv portal (mach k) (address_space p) T → VmCalls.brk_ok (vm_of p) →
  (∀ ar, ar ∈ areas (address_space p) → ar.2 - ar.1 ≤ Z.of_nat fuel) →
  (Process_fork fuel p k = Panic ∧ exhausted (M := Sv39Manager) (1 + 3 * pages_of (areas (address_space p))) (mach k)) ∨
  ∃ c s T', Process_fork fuel p k = Done (Some c, drawn s k) ∧ forked k p T c s T'.
Proof.
  intros Hsp Hb Hfuel. rewrite fork_unfold. destruct (clone_run fuel (kernel_as k) (address_space p) (mach k) T Hsp Hfuel)
    as [[Hp He]|(ns & s & T' & Hrun & Hnew & Ha & Hsame)]; [left|right].
  - split; [|done]. unfold mbind, st_bind. by rewrite (machine_panics _ (drawn (mach k) k) Hp).
  - eexists _, s, T'. rewrite (st_bind_run _ _ _ _ _ (machine_run _ _ _ (drawn (mach k) k) Hrun)). split; [reflexivity|]. by split.
Qed.
End Making.
End ForkMaking.
