(* ===== verification/ForkCalls.v ===== *)
(** * The calls of a process keep the invariant

    Every system call of the kernel with processes: the invariant of ForkInvariant.v holds afterwards, and the processes
    that do not run keep their entry, their mapping and their bytes. *)

From Stdlib Require Import Ascii String.
From stdpp Require Import strings.
From S2P Require Import Prelude Bytes Memory KernelContext TaskRel ProcManage ProcTree ProcInvariant ProcSystem Schedulers Syscall PageTable AddressSpace SpaceTree SpaceMap SpaceInvariant PageManager BatchKernel TaskKernel VmKernel VmTheorems VmIsolation VmLoad VmBoot SpaceFamily ForkKernel ForkInvariant ForkMaking.

Module ForkCalls.
Import Fork Family SpaceRoot VmInv VmLoad ForkInv ForkMaking.

(** Peel the steps of a run that answered. *)
Ltac run_steps H := repeat first
  [ apply st_bind_Done in H; destruct H as (? & ? & ? & H)
  | match type of H with context [let '(_, _) := ?x in _] => destruct x end
  | match type of H with (if ?b then _ else _) _ = _ => destruct b end ].

Section Calls.
Context `{PTC : PageTableCrate, HL : !HeapLaws, PTL : !PageTableLaws}.
Context {X M Y : Type} `{!ProcessExtra X, !Manage M (Process X), !ManageSpec M (Process X), !Schedule M, !ScheduleSpec M (Process X), PT : !ProcessTable X M, !MoreKept Y, !ExtraKept X}.
Abbreviation kernel := (kernel M Y).
Abbreviation Process := (Process X).
Implicit Types (k : kernel) (T U : gmap (list Z) Z) (TT : gmap Z (gmap (list Z) Z)) (p q : Process) (s : machine) (h : list pevent) (sp : AddressSpace Sv39Manager).

(** ** Adding a process *)
Lemma add_tasks id q par (pm pm' : PManager M) mgr : PManager_add id q par pm = Done pm' → manager pm = Some mgr →
  ∃ mgr', manager pm' = Some mgr' ∧ tasks_of mgr' = <[id := q]> (tasks_of mgr) ∧ ProcManage.current pm' = ProcManage.current pm.
Proof.
  intros Hr Hm. unfold PManager_add in Hr. rewrite Hm in Hr. simpl in Hr. apply bind_Done in Hr as (mgr' & Ha & Hr).
  apply bind_Done in Hr as (rm & _ & [= <-]). exists mgr'. split_and!; [done| |done]. by rewrite (table_add _ _ _ Ha), insert_spec.
Qed.

Lemma unknown_task h k TT n : fork_inv h k TT → pid_counter k ≤ n → tasks k !! n = None.
Proof.
  intros [Hs _ _] Hn. destruct (pm_mgr _ (s_inv _ _ Hs)) as (mgr & Hm & Hd & _). simpl in Hm, Hd. unfold tasks. rewrite Hm. simpl.
  apply not_elem_of_dom. rewrite Hd. intros [r Hr]%elem_of_dom. pose proof (s_below _ _ Hs n r Hr). simpl in *. lia.
Qed.

(** The state with a new process. *)
Record added_child h k TT i c s T k' : Prop := {
  ac_inv : fork_inv (h ++ [EvFork i (pid_counter k)]) k' (<[pid_counter k := T]> TT);
  ac_tasks : tasks k' = <[pid_counter k := c]> (tasks k);
  ac_current : ProcManage.current (processor k') = Some i;
  ac_counter : pid_counter k' = pid_counter k + 1;
  ac_mach : mach k' = s;
  ac_more : more k' = more k;
  ac_alone j : alone (spaces k) TT (mach k) s j;
  ac_child : rel_map (processor k') !! pid_counter k = Some (ProcRel_new i);
  ac_parent : rel_map (processor k') !! i = ProcRel_add_child (pid_counter k) <$> rel_map (processor k) !! i;
  ac_others j : j ≠ i → j ≠ pid_counter k → rel_map (processor k') !! j = rel_map (processor k) !! j;
}.

Lemma add_child_run h k TT i c s T : fork_inv h k TT → ProcManage.current (processor k) = Some i → pid_counter k < still_running →
  task_ok (pid_counter k) c → new_space (mach k) s (address_space c) T →
  ∃ k', act (PManager_add (pid_counter k) c i) (drawn s k) = Done ((), k') ∧ added_child h k TT i c s T k'.
Proof.
  intros Hi Hc Hn Hok [Hsp K Hfr]. pose proof Hi as [Hs Hf Ht]. set (n := pid_counter k) in *.
  destruct (current_rel _ _ _ Hs Hc) as [r Hr]. pose proof (s_below _ _ Hs _ _ Hr) as Hlt. simpl in Hr, Hlt. fold n in Hlt.
  destruct (t_range _ (tree_of _ _ Hs) _ _ Hr) as [Hr0 _].
  pose proof (s_pid _ _ Hs) as Hpid. simpl in Hpid. fold n in Hpid. pose proof still_running_lt.
  destruct (fork_ok h (system k) c Hs) as (p' & y' & Hrun & Hok'); [by split; [exists i|]|]. unfold prun in Hrun. simpl in Hrun. rewrite Hc in Hrun. simpl in Hrun. fold n in Hrun.
  destruct (pm_add_run (processor k) n c i (s_inv _ _ Hs)) as (pm & rm & Hadd & _ & _ & Hrm & _ & Hoth & Hpar);
    [exact (fresh_pid _ _ Hs)|lia|right; split; [done|by exists r]|].
  rewrite Hadd in Hrun. simpl in Hrun. injection Hrun as <- <-.
  destruct (inv_manager _ _ _ Hi) as (mgr & Hm & Hmt). destruct (add_tasks _ _ _ _ _ _ Hadd Hm) as (mgr' & Hm' & Htk & Hcur).
  eexists. split; [unfold act, on_processor; simpl; rewrite Hadd; reflexivity|].
  set (k' := set_processor pm (drawn s k)). assert (tasks k' = <[n := c]> (tasks k)) as Htasks by (unfold tasks at 1; simpl; by rewrite Hm', Hmt).
  destruct (family_push (spaces k) TT (mach k) n (address_space c) T s Hf K Hsp Hfr) as [Hf' Hal].
  split; try done.
  - split; [exact Hok'| |].
    + unfold spaces. by rewrite Htasks, fmap_insert.
    + rewrite Htasks. intros j q [[<- <-]|[_ Hj]]%lookup_insert_Some; [done|by apply Ht].
  - simpl. by rewrite Hcur.
  - apply (next_pid_range _ _ Hs Hn).
  - simpl. by rewrite Hrm, lookup_insert_eq.
  - simpl. rewrite Hrm, lookup_insert_ne by lia. apply Hpar. lia.
  - intros j Hj1 Hj2. simpl. rewrite Hrm, lookup_insert_ne by done. by apply Hoth.
Qed.

(** ** What a call keeps *)
Record called (i : Z) h k TT k' : Prop := {
  cl_advanced : advanced i h k TT k';
  cl_current : ProcManage.current (processor k') = Some i;
}.

Lemma kept_called i h k TT k' TT' : ProcManage.current (processor k') = Some i → fork_inv h k' TT' → others_kept i k TT k' TT' →
  more_kept (more k) (more k') → called i h k TT k'.
Proof. intros Hc Hi Ho Hm. split; [|done]. split; [|done]. exists [], TT'. rewrite app_nil_r. by split; [|apply kept_stay]. Qed.

Lemma child_called h k TT i c s T k' : fork_inv h k TT → added_child h k TT i c s T k' → called i h k TT k'.
Proof.
  intros Hi A. split; [|apply A]. split; [|by rewrite (ac_more _ _ _ _ _ _ _ _ A)]. eexists [_], _. split; [apply A|]. apply kept_stay. intros j p U Hj Hp HU.
  assert (j ≠ pid_counter k) as Hjn by (intros ->; by rewrite (unknown_task h k TT) in Hp).
  rewrite (ac_tasks _ _ _ _ _ _ _ _ A), !lookup_insert_ne by done. split_and!; [done|done|].
  rewrite (ac_mach _ _ _ _ _ _ _ _ A). apply (ac_alone _ _ _ _ _ _ _ _ A j); [by eapply inv_space|done].
Qed.

Lemma retask_called h k TT i q s TT' : ProcManage.current (processor k) = Some i → fork_inv h (retask i q s k) TT' →
  others_kept i k TT (retask i q s k) TT' → called i h k TT (retask i q s k).
Proof. intros Hc Hi Ho. by eapply kept_called. Qed.

Lemma called_trans i h k TT k1 h1 TT1 k2 : fork_inv (h ++ h1) k1 TT1 → others_stay i k TT k1 TT1 → more_kept (more k) (more k1) →
  called i (h ++ h1) k1 TT1 k2 → called i h k TT k2.
Proof. intros Hi Ho Ha [Hadv Hcur]. split; [by eapply advanced_trans|done]. Qed.

(** ** Bytes of the caller *)

(** [n] bytes from [ptr] on may differ. *)
Definition written (ptr n : Z) s s' : Prop := mc_heap s' = mc_heap s ∧ ∀ x, ¬ (ptr ≤ x < ptr + n) → mc_mem s' x = mc_mem s x.

(** A page of the lower half that is mapped. *)
Lemma user_mapping s sp T w pte : space_inv portal s sp T → 0 ≤ w < 2 ^ 26 → mapping (mc_mem s) T w = Some pte →
  in_areas w (areas sp) ∧ 0 ≤ pte_ppn pte < 2 ^ 26.
Proof.
  intros Hsp Hv Hm. destruct (user_page _ Hv) as [Hvpn HF].
  assert (in_areas w (areas sp)) as Hin by (apply (si_only _ _ _ _ Hsp); [done..|by rewrite Hm]). split; [done|].
  destruct Hin as (ar & Har & Hw). destruct (si_run _ _ _ _ Hsp ar Har) as (f & g & [Hf _] & Hg1 & Hg2 & Hrun).
  destruct (Hrun _ Hw) as [Hm' _]. rewrite Hm in Hm'. injection Hm' as ->. unfold inside in Hw. rewrite build_pte_ppn by (done || lia). lia.
Qed.

Lemma user_address addr : 0 ≤ addr < 2 ^ 38 → 0 ≤ addr / page_size < 2 ^ 26.
Proof. intros. unfold page_size. split; [apply Z.div_pos; lia|apply Z.div_lt_upper_bound; lia]. Qed.

Lemma translate_user s sp T addr flags : space_inv portal s sp T → 0 ≤ addr < 2 ^ 38 → translate addr flags sp (mc_mem s) = Done (
    pte ← mapping (mc_mem s) T (addr / page_size);
    if Z.land (pte_flags pte) flags =? flags then Some (pte_ppn pte * page_size + addr mod page_size) else None).
Proof.
  intros Hsp Ha. pose proof (user_address addr Ha) as Hv. destruct (user_page _ Hv) as [Hvpn HF].
  rewrite (translate_run portal addr flags sp s T); [|apply Hsp|apply Hsp|done|done].
  destruct (mapping (mc_mem s) T (addr / page_size)) as [pte|] eqn:Hm; [|done]. simpl.
  destruct (user_mapping s sp T _ pte Hsp Hv Hm) as [_ Hp]. unfold Sv39Manager_p_to_v. by rewrite vpn_base_spec by lia.
Qed.

Lemma written_own s s' sp T addr flags ptr n : space_inv portal s sp T → 0 ≤ addr < 2 ^ 38 → addr mod page_size + n ≤ page_size →
  translate addr flags sp (mc_mem s) = Done (Some ptr) → written ptr n s s' → own_writes s s' sp T.
Proof.
  intros Hsp Ha Hn Htr [Hh Hx]. rewrite (translate_user s sp T addr flags Hsp Ha) in Htr.
  destruct (mapping (mc_mem s) T (addr / page_size)) as [pte|] eqn:Hm; [|done]. simpl in Htr.
  destruct (Z.land (pte_flags pte) flags =? flags); [|done]. injection Htr as <-.
  destruct (user_mapping s sp T _ pte Hsp (user_address addr Ha) Hm) as [Hin _].
  split; [done|]. intros x Hne. exists (addr / page_size), pte. split_and!; [done|done|].
  pose proof (Z.mod_pos_bound addr page_size ltac:(done)).
  destruct (decide (pte_ppn pte * page_size + addr mod page_size ≤ x < pte_ppn pte * page_size + addr mod page_size + n)) as [Hr|Hr].
  - apply (Z.div_unique _ _ _ (x - pte_ppn pte * page_size)); lia.
  - destruct Hne. by apply Hx.
Qed.

Lemma write_written s ptr bs : written ptr (Z.of_nat (length bs)) s (mc_set_mem (mem_write ptr bs (mc_mem s)) s).
Proof. split; [done|]. intros x Hx. rewrite mc_mem_set. unfold mem_write. by rewrite decide_False. Qed.

(** [console_getchar] leaves the memory alone. *)
Definition only_reads (getchar : st world Z) : Prop := ∀ w c w', getchar w = Done (c, w') → w_mem w' = w_mem w.

Lemma read_chars_written getchar n : only_reads getchar → ∀ ptr s s', read_chars getchar n ptr s = Done ((), s') → written ptr (Z.of_nat n) s s'.
Proof.
  intros Hg. induction n as [|n IH]; intros ptr s s' Hd.
  { injection Hd as <-. done. }
  cbn [read_chars] in Hd. apply st_bind_Done in Hd as (c & s1 & H1 & Hd). apply bind_Done in H1 as ([c' w] & H1 & [= -> <-]).
  apply Hg in H1. apply st_bind_Done in Hd as (u & s2 & [= _ <-] & Hd). apply IH in Hd as [Hh Hx]. split; [done|].
  intros x Hr. rewrite Hx by lia. rewrite mc_mem_set. unfold mem_write. simpl. rewrite decide_False by lia. unfold mc_mem. simpl. by rewrite H1.
Qed.

Lemma same_page addr j : 0 ≤ addr mod page_size + j < page_size →
  (addr + j) / page_size = addr / page_size ∧ (addr + j) mod page_size = addr mod page_size + j.
Proof.
  intros Hj. pose proof (Z.div_mod addr page_size ltac:(done)). split; symmetry;
    [apply (Z.div_unique _ _ _ (addr mod page_size + j))|apply (Z.mod_unique _ _ (addr / page_size))]; lia.
Qed.

(** A buffer of [n] bytes in the lower half, within a page. *)
Definition buffer_ok (addr n : Z) : Prop := 0 ≤ addr < 2 ^ 38 ∧ addr mod page_size + n ≤ page_size.

(** ** Calls *)
Section Running.
Variables (fuel : nat) (h : list pevent) (k : kernel) (TT : gmap Z (gmap (list Z) Z)) (i : Z) (p : Process) (T : gmap (list Z) Z).
Hypothesis Hi : fork_inv h k TT.
Hypothesis Hc : ProcManage.current (processor k) = Some i.
Hypothesis Hp : tasks k !! i = Some p.
Hypothesis HT : TT !! i = Some T.

Lemma running_ok : task_ok i p.
Proof. by apply (fi_tasks _ _ _ Hi). Qed.
Lemma running_space : space_inv portal (mach k) (address_space p) T.
Proof. eapply (fm_space _ _ _ (fi_family _ _ _ Hi)); [by eapply inv_space|done]. Qed.

(** An entry is replaced after the machine moved on and a pid was drawn. *)
Lemma update_made f n s : update_current f (mkKernel (processor k) n (kernel_as k) (more k) s) =
  Done ((), retask i (f p) s (mkKernel (processor k) n (kernel_as k) (more k) s)).
Proof.
  unfold update_current, update_task, act, on_processor, set_processor. simpl. rewrite Hc. simpl. unfold retask, with_tasks. simpl.
  destruct (inv_manager _ _ _ Hi) as (mgr & Hm & Ht). rewrite Hm. simpl. pose proof Hp as Hp'. rewrite Ht in Hp'.
  by rewrite table_update, (table_ext _ _ _ (alter_present f _ _ _ Hp')), Hc.
Qed.

Lemma same_called : called i h k TT k.
Proof. split; [by apply advanced_refl|done]. Qed.

(** The call changed the running process and its space as ch4 does. *)
Lemma vm_called c r v : VmRuns.args_ok fuel (vm_of p) c → VmRuns.vm_run fuel 0 c (Vm.mkKernel [vm_of p] (mach k)) = Done (r, v) →
  ∃ q : Vm.Process, Vm.processes v = [q] ∧ called i h k TT (retask i (with_vm q p) (Vm.mach v) k).
Proof.
  intros Ha Hrun. destruct running_ok as [Hpid Hb Hsat].
  destruct (family_vm_call fuel (spaces k) TT (mach k) i (vm_of p) T c r v (fi_family _ _ _ Hi)) as (q & T' & Hq & Hb' & Hf & Hal);
    [by eapply inv_space|done..|].
  destruct (rooted_run fuel (vm_of p) c _ _ _ Hrun) as (q' & Hq' & Hroot). rewrite Hq in Hq'. injection Hq' as <-.
  exists q. split; [done|]. destruct (retask_inv h k TT i p (with_vm q p) (Vm.mach v) T' Hi Hp) as [Hi' Ho]; [|done|done|by eapply retask_called].
  split; [done|exact Hb'|]. simpl. destruct Hroot as [Hctx Hpm]. simpl in Hctx. rewrite Hctx, Hsat.
  symmetry. apply (same_root_satp (vm_of p) q). done.
Qed.

Lemma as_caller_run {A} (f : st Vm.kernel A) a k' : as_caller f k = Done (a, k') →
  ∃ v, f (Vm.mkKernel [vm_of p] (mach k)) = Done (a, v) ∧ ∃ q : Vm.Process, head (Vm.processes v) = Some q ∧ k' = retask i (with_vm q p) (Vm.mach v) k.
Proof.
  unfold as_caller. rewrite (st_bind_run _ _ _ _ _ (current_run h k TT i p Hi Hc Hp)), (st_bind_run get_st _ _ _ _ eq_refl). intros Hd.
  apply st_bind_Done in Hd as ([b v] & k1 & H1 & Hd). unfold lift in H1. destruct (f _) as [[b' v']| |]; try done. injection H1 as -> -> <-.
  exists v. apply st_bind_Done in Hd as (q & k2 & H2 & Hd). unfold lift in H2. destruct (head (Vm.processes v)) as [q'|] eqn:Hh; [|done].
  simpl in H2. injection H2 as -> <-. rewrite (st_bind_run _ _ _ _ _ (update_current_run h k TT i p _ Hi Hc Hp)) in Hd.
  injection Hd as <- <-. split; [done|]. by exists q.
Qed.

Lemma vm_caller c r k' : VmRuns.args_ok fuel (vm_of p) c → as_caller (VmRuns.vm_run fuel 0 c) k = Done (r, k') → called i h k TT k'.
Proof.
  intros Ha (v & Hrun & q & Hh & ->)%as_caller_run. destruct (vm_called c r v Ha Hrun) as (q' & Hq & Hcl). rewrite Hq in Hh. by injection Hh as <-.
Qed.

Lemma sbrk_called size r k' : VmRuns.args_ok fuel (vm_of p) (VmRuns.CSbrk size) → sbrk fuel size k = Done (r, k') → called i h k TT k'.
Proof.
  intros Ha Hd. unfold sbrk in Hd. rewrite (st_bind_run _ _ _ _ _ (current_run h k TT i p Hi Hc Hp)) in Hd.
  apply st_bind_Done in Hd as ([o q] & k1 & H1 & Hd). unfold on_machine in H1. apply bind_Done in H1 as ([[o' q'] s1] & H1 & [= <- <- <-]).
  unfold Process_change_program_brk in H1. apply st_bind_Done in H1 as ([o2 v] & s2 & H1 & [= <- <- <-]).
  assert (VmRuns.vm_run fuel 0 (VmRuns.CSbrk size) (Vm.mkKernel [vm_of p] (mach k)) =
    Done (match o2 with Some b => as_isize b | None => -1 end, Vm.mkKernel [v] s2)) as Hrun.
  { simpl. unfold Vm.sbrk. simpl. unfold mbind, st_bind, Vm.on_machine. simpl. by rewrite H1. }
  destruct (vm_called _ _ _ Ha Hrun) as (q & [= <-] & Hcl). simpl in Hcl.
  assert (update_current (fun _ => with_vm v p) (set_mach s2 k) = Done ((), retask i (with_vm v p) s2 k)) as Hu.
  { by apply update_made. }
  rewrite (st_bind_run _ _ _ _ _ Hu) in Hd. by injection Hd as _ <-.
Qed.

(** *** Bytes *)
Lemma data_inv q s : task_ok i q → address_space q = address_space p → own_writes (mach k) s (address_space p) T →
  fork_inv h (retask i q s k) TT ∧ others_kept i k TT (retask i q s k) TT.
Proof.
  intros Hq E Hw. destruct (family_data (spaces k) TT (mach k) s i (address_space p) T) as [Hf Hal];
    [apply Hi|by eapply inv_space|done|done|].
  by apply (retask_same h k TT i p q s T Hi Hp HT Hq E Hf Hal).
Qed.

(** A store of the kernel at [addr] is seen there, and nowhere else in the page. *)
Lemma store_seen addr flags ptr bs j : 0 ≤ addr < 2 ^ 38 → addr mod page_size + Z.of_nat (length bs) ≤ page_size →
  translate addr flags (address_space p) (mc_mem (mach k)) = Done (Some ptr) → 0 ≤ addr mod page_size + j < page_size →
  byte_at (mc_mem (mc_set_mem (mem_write ptr bs (mc_mem (mach k))) (mach k))) T (addr + j) =
    if decide (0 ≤ j < Z.of_nat (length bs)) then Some (bs !!! Z.to_nat j) else byte_at (mc_mem (mach k)) T (addr + j).
Proof.
  intros Ha Hn Htr Hj. set (s := mc_set_mem _ _).
  assert (own_writes (mach k) s (address_space p) T) as Hw.
  { eapply written_own; [apply running_space|exact Ha|exact Hn|exact Htr|apply write_written]. }
  destruct (family_writes (spaces k) TT (mach k) s i (address_space p) T) as (_ & Hm & _); [apply Hi|by eapply inv_space|done..|].
  rewrite (translate_user _ _ _ addr flags running_space Ha) in Htr.
  destruct (same_page addr j Hj) as [Ed Em].
  unfold byte_at. rewrite Hm, Ed, Em. destruct (mapping (mc_mem (mach k)) T (addr / page_size)) as [pte|]; [|done]. simpl in *.
  destruct (Z.land (pte_flags pte) flags =? flags); [|done]. injection Htr as <-. unfold s. rewrite mc_mem_set. unfold mem_write.
  case_decide as H1; case_decide as H2; try lia; [|done]. rewrite list_lookup_lookup_total_lt by lia. simpl. do 2 f_equal. lia.
Qed.

Lemma data_called q s : task_ok i q → address_space q = address_space p → own_writes (mach k) s (address_space p) T →
  called i h k TT (retask i q s k).
Proof. intros Hq E Hw. destruct (data_inv q s Hq E Hw). by eapply retask_called. Qed.

Lemma retask_id s : retask i p s k = set_mach s k.
Proof.
  destruct (inv_manager _ _ _ Hi) as (mgr & Hm & Ht). pose proof Hp as Hp'. rewrite Ht in Hp'.
  unfold retask, with_tasks, set_mach. rewrite Hm. simpl. rewrite (table_ext <[i := p]> id) by (by rewrite insert_id). rewrite table_id.
  destruct k as [[] ? ? ? ?]. simpl in *. by rewrite Hm.
Qed.

Lemma own_idle s : mc_heap s = mc_heap (mach k) → mc_mem s = mc_mem (mach k) → own_writes (mach k) s (address_space p) T.
Proof. intros Hh Hm. split; [done|]. intros x Hx. by rewrite Hm in Hx. Qed.

(** The machine went on without a store into a space, output for one. *)
Lemma idle_called s : mc_heap s = mc_heap (mach k) → mc_mem s = mc_mem (mach k) → called i h k TT (set_mach s k).
Proof. intros Hh Hm. rewrite <-retask_id. apply data_called; [by apply running_ok|done|]. by apply own_idle. Qed.

Lemma store_inv addr flags ptr n s : buffer_ok addr n → translate addr flags (address_space p) (mc_mem (mach k)) = Done (Some ptr) →
  written ptr n (mach k) s → fork_inv h (set_mach s k) TT ∧ others_kept i k TT (set_mach s k) TT.
Proof.
  intros [Ha Hn] Htr Hw. rewrite <-retask_id. apply data_inv; [by apply running_ok|done|].
  eapply written_own; [apply running_space|done|done|done|done].
Qed.

Lemma store_called addr flags ptr n s : buffer_ok addr n → translate addr flags (address_space p) (mc_mem (mach k)) = Done (Some ptr) →
  written ptr n (mach k) s → called i h k TT (set_mach s k).
Proof.
  intros Hb Htr Hw. destruct (store_inv addr flags ptr n s Hb Htr Hw) as [Hi' Ho]. by eapply kept_called.
Qed.

End Running.

(** ** Waiting *)

(** Where the bytes at [addr] are, if the process may use them so. *)
Definition place k T (addr flags : Z) : option Z :=
  pte ← mapping (mc_mem (mach k)) T (addr / page_size);
  if Z.land (pte_flags pte) flags =? flags then Some (pte_ppn pte * page_size + addr mod page_size) else None.

(** The bytes of the page from there on. *)
Lemma place_byte k T addr flags ptr j : place k T addr flags = Some ptr → 0 ≤ addr mod page_size + j < page_size →
  byte_at (mc_mem (mach k)) T (addr + j) = Some (mc_mem (mach k) (ptr + j)).
Proof.
  unfold place, byte_at. intros Hpl Hj.
  destruct (same_page addr j Hj) as [Ed Em].
  rewrite Ed, Em. destruct (mapping (mc_mem (mach k)) T (addr / page_size)) as [pte|]; [|done]. simpl in *.
  destruct (Z.land (pte_flags pte) flags =? flags); [|done]. injection Hpl as <-. do 2 f_equal. lia.
Qed.

(** The state after a [wait] that found [o]. *)
Definition reported (o : option (Z * Z)) (ptr : option Z) k : kernel :=
  match o, ptr with
  | Some (_, code), Some a => set_mach (mc_set_mem (mem_write a (le_encode 4 (as_u32 code)) (mc_mem (mach k))) (mach k)) k
  | _, _ => k
  end.

Lemma wait_run h k TT i p T pid ptr : fork_inv h k TT → ProcManage.current (processor k) = Some i → tasks k !! i = Some p →
  TT !! i = Some T → buffer_ok ptr 4 →
  ∃ r o r', rel_map (processor k) !! i = Some r ∧ wait_effect (as_usize pid) r o r' ∧
    let k' := reported o (place k T ptr (build_flags "W_V")) (set_processor (mkPManager (<[i := r']> (rel_map (processor k))) (manager (processor k)) (Some i)) k) in
    wait pid ptr k = Done (from_option (fun d => as_isize d.1) (-1) o, k') ∧
    fork_inv (h ++ [EvWait i (as_usize pid) o]) k' TT ∧ others_kept i k TT k' TT.
Proof.
  intros Hi Hc Hp HT Hb. destruct (wait_ok h (system k) (as_usize pid) i (fi_system _ _ _ Hi) Hc) as (r & o & r' & Hr & Heff & Hrun & Hok).
  unfold prun in Hrun. simpl in Hrun, Hr, Hok. rewrite Hc in Hrun, Hok. simpl in Hrun.
  destruct (PManager_wait (as_usize pid) (processor k)) as [[o' pm]| |] eqn:Hw; try done. simpl in Hrun. injection Hrun as -> ->.
  exists r, o, r'. split; [done|split; [done|]]. set (k1 := set_processor _ k) in *.
  assert (fork_inv (h ++ [EvWait i (as_usize pid) o]) k1 TT) as Hi1 by (split; [exact Hok|apply Hi|apply Hi]).
  assert (others_kept i k TT k1 TT) as Ho by (by intros j q U _ Hq HU).
  pose proof (translate_user (mach k) (address_space p) T ptr (build_flags "W_V") (running_space h k TT i p T Hi Hp HT) (proj1 Hb)) as Htr.
  change (_ ← mapping (mc_mem (mach k)) T (ptr / page_size); _) with (place k T ptr (build_flags "W_V")) in Htr.
  assert (on_processor (PManager_wait (as_usize pid)) k = Done (o, k1)) as Hk1 by (unfold on_processor; by rewrite Hw).
  unfold wait. rewrite (st_bind_run _ _ _ _ _ (current_run h k TT i p Hi Hc Hp)), (st_bind_run _ _ _ _ _ Hk1).
  destruct o as [[dead code]|]; [|done]. rewrite (st_bind_run get_st _ _ _ _ eq_refl), (st_bind_run _ _ _ _ _ (lift_run _ _ k1 Htr)).
  destruct (place k T ptr (build_flags "W_V")) as [a|] eqn:Hpl; [|done]. split; [done|].
  destruct (store_inv _ k1 TT i p T Hi1 eq_refl Hp HT ptr (build_flags "W_V") a 4 (mc_set_mem (mem_write a (le_encode 4 (as_u32 code)) (mc_mem (mach k1))) (mach k1)) Hb Htr)
    as [Hi2 Ho2]; [apply (write_written (mach k1) a (le_encode 4 (as_u32 code)))|]. split; [exact Hi2|by eapply others_kept_trans].
Qed.

Lemma wait_called h k TT i p T pid ptr r k' : fork_inv h k TT → ProcManage.current (processor k) = Some i → tasks k !! i = Some p →
  TT !! i = Some T → buffer_ok ptr 4 → wait pid ptr k = Done (r, k') → called i h k TT k'.
Proof.
  intros Hi Hc Hp HT Hb Hd. destruct (wait_run h k TT i p T pid ptr Hi Hc Hp HT Hb) as (rel & o & r' & _ & _ & Hrun & Hi' & Ho).
  rewrite Hd in Hrun. injection Hrun as _ Hk. rewrite <-Hk in Hi', Ho. split.
  - split; [exists [EvWait i (as_usize pid) o], TT; by split; [|apply kept_stay]|]. rewrite Hk. by destruct o as [[? ?]|], (place _ _ _ _).
  - rewrite Hk. by destruct o as [[? ?]|], (place _ _ _ _).
Qed.

(** ** Making processes *)

(** The child with its own context. *)
Definition with_ctx ctx (c : Process) : Process := set_context (mkForeign ctx (f_satp (context c))) c.

Lemma with_ctx_ok i ctx c : task_ok i c → task_ok i (with_ctx ctx c).
Proof. intros [E Hb Hs]. by split. Qed.

(** [add_child] of a child that was made. *)
Lemma add_made h k TT i p c s T arg r k' : fork_inv h k TT → ProcManage.current (processor k) = Some i → tasks k !! i = Some p →
  pid_counter k < still_running → task_ok (pid_counter k) c → new_space (mach k) s (address_space c) T →
  add_child arg (pid p) c (drawn s k) = Done (r, k') → called i h k TT k'.
Proof.
  intros Hi Hc Hp Hn Hok Hnew Hd. pose proof (fi_tasks _ _ _ Hi i p Hp) as Hpok. unfold add_child in Hd. rewrite (to_pid _ _ Hok), (to_pid _ _ Hpok) in Hd.
  apply st_bind_Done in Hd as (ctx & k1 & H1 & Hd). unfold lift in H1. destruct (LocalContext_set_a _ _ _) as [ctx'| |]; try done. injection H1 as -> <-.
  destruct (add_child_run h k TT i (with_ctx ctx c) s T Hi Hc Hn) as (k2 & Hrun & Hadd); [by apply with_ctx_ok|done|].
  rewrite (st_bind_run _ _ _ _ _ Hrun) in Hd. injection Hd as _ <-. by eapply child_called.
Qed.

Lemma fork_called fuel h k TT i p T r k' : fork_inv h k TT → ProcManage.current (processor k) = Some i → tasks k !! i = Some p →
  TT !! i = Some T → pid_counter k < still_running → (∀ ar, ar ∈ areas (address_space p) → ar.2 - ar.1 ≤ Z.of_nat fuel) →
  fork fuel k = Done (r, k') → called i h k TT k'.
Proof.
  intros Hi Hc Hp HT Hn Hfuel Hd. unfold fork in Hd. rewrite (st_bind_run _ _ _ _ _ (current_run h k TT i p Hi Hc Hp)) in Hd.
  destruct (fork_run fuel k p T) as [[Hpn _]|(c & s & T' & Hrun & Hfk)];
    [by eapply running_space|by eapply running_ok|done|unfold mbind, st_bind in Hd; by rewrite Hpn in Hd|].
  rewrite (st_bind_run _ _ _ _ _ Hrun), (st_bind_run _ _ _ _ _ (lift_run (unwrap (Some c)) _ _ eq_refl)) in Hd.
  eapply (add_made h k TT i p); [done|done|done|done|apply Hfk|apply Hfk|exact Hd].
Qed.

(** *** Programs *)
Lemma spawn_called fuel elf h k TT i p T r k' : fork_inv h k TT → ProcManage.current (processor k) = Some i → tasks k !! i = Some p →
  TT !! i = Some T → pid_counter k < still_running → elf_ok fuel elf →
  spawn_program fuel elf k = Done (r, k') → called i h k TT k'.
Proof.
  intros Hi Hc Hp HT Hn Helf Hd. unfold spawn_program in Hd. rewrite (st_bind_run _ _ _ _ _ (current_run h k TT i p Hi Hc Hp)) in Hd.
  pose proof (from_elf_run fuel elf k Helf) as Hrun. destruct (riscv_program elf).
  - destruct Hrun as [[Hpn _]|(c & s & T' & Hrun & Hfe)]; [unfold mbind, st_bind in Hd; by rewrite Hpn in Hd|].
    rewrite (st_bind_run _ _ _ _ _ Hrun) in Hd. eapply (add_made h k TT i p); [done|done|done|done|apply Hfe|apply Hfe|exact Hd].
  - rewrite (st_bind_run _ _ _ _ _ Hrun) in Hd. injection Hd as _ <-. by apply same_called.
Qed.

(** The pid that [exec] draws is dropped. *)
Lemma drawn_inv h k TT : fork_inv h k TT → pid_counter k < still_running → fork_inv h (drawn (mach k) k) TT.
Proof.
  intros [Hs Hf Ht] Hn. split; [|done|done]. apply (system_keep h (system k)); [done|apply Hs|done|]. simpl.
  pose proof (next_pid_range _ _ Hs Hn) as E. simpl in E. pose proof (s_pid _ _ Hs). simpl in *. lia.
Qed.

(** The process runs another program, in a space of free pages. *)
Definition exec_task (c p : Process) : Process := mkProcess (pid p) (context c) (address_space c) (heap_bottom c) (program_brk c) (extra p).

Lemma exec_run fuel elf h k TT i p T c s T' : fork_inv h k TT → ProcManage.current (processor k) = Some i → tasks k !! i = Some p →
  TT !! i = Some T → pid_counter k < still_running → Process_from_elf fuel elf k = Done (Some c, drawn s k) → from_elf k elf c s T' →
  let k' := retask i (exec_task c p) s (drawn (mach k) k) in
  Process_exec fuel elf k = Done ((), k') ∧ fork_inv h k' (<[i := T']> TT) ∧ others_kept i k TT k' (<[i := T']> TT).
Proof.
  intros Hi Hc Hp HT Hn Hrun Hfe k'. pose proof (drawn_inv h k TT Hi Hn) as Hi'. pose proof (fi_tasks _ _ _ Hi i p Hp) as Hpok.
  destruct (fe_space _ _ _ _ _ Hfe) as [Hsp K Hfr].
  destruct (family_push (spaces k) TT (mach k) i (address_space c) T' s (fi_family _ _ _ Hi) K Hsp Hfr) as [Hf Hal]. split.
  - unfold Process_exec. rewrite (st_bind_run _ _ _ _ _ Hrun), (st_bind_run _ _ _ _ _ (lift_run (unwrap (Some c)) _ _ eq_refl)).
    exact (update_made h k TT i p Hi Hc Hp _ _ _).
  - apply (retask_inv h (drawn (mach k) k) TT i p (exec_task c p) s T' Hi' Hp); [|exact Hf|intros j _; apply Hal].
    destruct (fe_task _ _ _ _ _ Hfe) as [_ Hb Hs]. split; [apply Hpok|exact Hb|exact Hs].
Qed.

Lemma exec_called fuel elf h k TT i p T u k' : fork_inv h k TT → ProcManage.current (processor k) = Some i → tasks k !! i = Some p →
  TT !! i = Some T → pid_counter k < still_running → elf_ok fuel elf →
  Process_exec fuel elf k = Done (u, k') → called i h k TT k'.
Proof.
  intros Hi Hc Hp HT Hn Helf Hd. destruct u. pose proof (from_elf_run fuel elf k Helf) as Hrun. destruct (riscv_program elf).
  - destruct Hrun as [[Hpn _]|(c & s & T' & Hrun & Hfe)]; [unfold Process_exec, mbind, st_bind in Hd; by rewrite Hpn in Hd|].
    destruct (exec_run fuel elf h k TT i p T c s T' Hi Hc Hp HT Hn Hrun Hfe) as (He & Hinv & Ho). rewrite He in Hd. injection Hd as <-.
    eapply kept_called; [done|exact Hinv|exact Ho|reflexivity].
  - unfold Process_exec in Hd. by rewrite (st_bind_run _ _ _ _ _ Hrun) in Hd.
Qed.

(** The running process changes only what its chapter put there. *)
Lemma extra_called x h k TT i p T : fork_inv h k TT → ProcManage.current (processor k) = Some i → tasks k !! i = Some p →
  TT !! i = Some T → called i h k TT (retask i (set_extra x p) (mach k) k).
Proof.
  intros Hi Hc Hp HT. pose proof (fi_tasks _ _ _ Hi i p Hp) as []. by eapply data_called; try done; eapply own_idle.
Qed.

Lemma priority_called `{!HasStride X} prio h k TT i p T r k' : fork_inv h k TT → ProcManage.current (processor k) = Some i → tasks k !! i = Some p →
  TT !! i = Some T → set_priority prio k = Done (r, k') → called i h k TT k'.
Proof.
  intros Hi Hc Hp HT Hd. unfold set_priority in Hd. rewrite (st_bind_run _ _ _ _ _ (current_run h k TT i p Hi Hc Hp)) in Hd.
  destruct (Stride_set_priority prio (stride_of p)) as [r' st']. rewrite (st_bind_run _ _ _ _ _ (update_current_run h k TT i p _ Hi Hc Hp)) in Hd.
  injection Hd as _ <-. by eapply extra_called.
Qed.

Lemma getpid_called h k TT i p r k' : fork_inv h k TT → ProcManage.current (processor k) = Some i → tasks k !! i = Some p →
  getpid k = Done (r, k') → called i h k TT k'.
Proof.
  intros Hi Hc Hp Hd. unfold getpid in Hd. rewrite (st_bind_run _ _ _ _ _ (current_run h k TT i p Hi Hc Hp)) in Hd.
  injection Hd as _ <-. by apply same_called.
Qed.
End Calls.
End ForkCalls.
