(* ===== verification/ForkRounds.v ===== *)
(** * The rounds of the scheduling loop

    One round of the loop of ch5 and its successors: a process is chosen, runs until it traps, and its call is served.
    The invariant of ForkInvariant.v holds after every round, and the processes that did not run are as they were.  The
    calls of a chapter enter as a registry that keeps the invariant ([keeps]). *)

From S2P Require Import Prelude Bytes Memory KernelContext TaskRel ProcManage ProcTree ProcInvariant ProcSystem Schedulers Syscall PageTable AddressSpace SpaceTree SpaceMap SpaceInvariant PageManager BatchKernel TaskKernel VmKernel VmTheorems VmIsolation VmLoad VmBoot SpaceFamily ForkKernel ForkInvariant ForkMaking ForkCalls.

Module ForkRounds.
Import Fork Family SpaceRoot VmInv VmLoad ForkInv ForkMaking ForkCalls.
Section Rounds.
Context `{PTC : PageTableCrate, HL : !HeapLaws, PTL : !PageTableLaws}.
Context {X M Y : Type} `{!ProcessExtra X, !Manage M (Process X), !ManageSpec M (Process X), !Schedule M, !ScheduleSpec M (Process X), PT : !ProcessTable X M, !MoreKept Y, !ExtraKept X}.
Abbreviation kernel := (kernel M Y).
Abbreviation Process := (Process X).
Implicit Types (k : kernel) (T U : gmap (list Z) Z) (TT : gmap Z (gmap (list Z) Z)) (p q : Process) (s : machine) (h : list pevent) (sp : AddressSpace Sv39Manager).

(** ** Scheduling *)

(** The state in which [i] was chosen. *)
Record chosen h k TT (i : Z) k' : Prop := {
  ch_inv : fork_inv (h ++ [EvNext (Some i)]) k' TT;
  ch_task : ∃ p x, tasks k !! i = Some p ∧ tasks k' = <[i := set_extra x p]> (tasks k);
  ch_current : ProcManage.current (processor k') = Some i;
  ch_same : more k' = more k ∧ mach k' = mach k ∧ pid_counter k' = pid_counter k;
}.

Lemma chosen_kept h k TT i k' : chosen h k TT i k' → others_kept i k TT k' TT.
Proof.
  intros [_ (p & x & _ & Ht) _ (_ & Hm & _)] j q U Hj Hq HU. rewrite Ht, lookup_insert_ne by done. rewrite Hm. by split_and!.
Qed.

Lemma chosen_run h k TT i k' : fork_inv h k TT → ProcManage.current (processor k) = None →
  on_processor PManager_find_next k = Done (Some i, k') → chosen h k TT i k'.
Proof.
  intros Hi Hc Hd. pose proof Hi as [Hs Hf Htk]. destruct (s_inv _ _ Hs) as [Htree (mgr & Hm & Hdom & Hel)]. simpl in Htree, Hm, Hdom, Hel.
  unfold on_processor in Hd. apply bind_Done in Hd as ([o pm] & Hd & [= -> <-]).
  unfold PManager_find_next in Hd. rewrite Hm in Hd. simpl in Hd. apply bind_Done in Hd as ([o mgr'] & Hf' & Hd).
  destruct o as [id|]; [|done]. rewrite get_spec in Hd. destruct (tasks_of mgr' !! id) as [q'|] eqn:Hq'; [|done]. injection Hd as <- <-.
  destruct (table_fetch mgr id mgr' Hf') as (q & x & Hq & Ht' & HP); [by apply elem_of_dom|].
  assert (tasks k = tasks_of mgr) as Htasks by (unfold tasks; by rewrite Hm).
  assert (dom (<[id := set_extra x q]> (tasks_of mgr)) = dom (tasks_of mgr)) as Hd' by (by apply dom_insert_lookup_L).
  unfold running in Hel. rewrite Hc in Hel. simpl in Hel. rewrite app_nil_r in Hel.
  assert (pm_inv (mkPManager (rel_map (processor k)) (Some mgr') (Some id))) as Hpm.
  { split; [done|]. exists mgr'. simpl. split_and!; [done|by rewrite Ht', Hd'|]. unfold running. simpl.
    rewrite Hel, HP. by rewrite Permutation_app_comm. }
  split; simpl; [|exists q, x; by rewrite Htasks, <-Ht'|done|done]. split.
  - apply (ok_same_rel h (system k) (EvNext (Some id))); simpl; [done|exact Hpm|done|pose proof (s_pid _ _ Hs); simpl in *; lia|done].
  - assert (spaces (set_processor (mkPManager (rel_map (processor k)) (Some mgr') (Some id)) k) = spaces k) as E; [|rewrite E; exact Hf].
    unfold spaces, tasks. simpl. rewrite Ht', fmap_insert, Hm. apply insert_id. simpl. by rewrite lookup_fmap, Hq.
  - intros j p. unfold tasks. simpl. rewrite Ht'. intros [[<- <-]|[_ Hj]]%lookup_insert_Some.
    + rewrite <-Htasks in Hq. by destruct (Htk _ _ Hq).
    + apply Htk. by rewrite Htasks.
Qed.

(** The running process goes back to the queue. *)
Lemma put_back_run h k TT i u k' : fork_inv h k TT → ProcManage.current (processor k) = Some i → act PManager_make_current_suspend k = Done (u, k') →
  advanced i h k TT k' ∧ ProcManage.current (processor k') = None.
Proof.
  intros Hi Hc Hd. pose proof Hi as [Hs Hf Htk]. destruct (pm_suspend_run (processor k) i (s_inv _ _ Hs) Hc) as (pm & Hrun & Hpm & Hrel & Hcur).
  unfold act, on_processor in Hd. rewrite Hrun in Hd. simpl in Hd. injection Hd as _ <-. split; [|done].
  destruct (inv_manager _ _ _ Hi) as (mgr & Hm & Ht). unfold PManager_make_current_suspend in Hrun. rewrite Hc, Hm in Hrun. simpl in Hrun.
  apply bind_Done in Hrun as (mgr' & Hadd & [= <-]). apply table_add in Hadd. simpl in *.
  set (k' := set_processor _ k). assert (tasks k' = tasks k) as E by (unfold tasks; simpl; by rewrite Hadd, Hm).
  split; [|reflexivity]. exists [EvSuspend i], TT. split; [|apply kept_stay].
  - split; [|unfold spaces; by rewrite E|rewrite E; exact Htk].
    apply (ok_same_rel h (system k) (EvSuspend i)); simpl; [done|exact Hpm|done|pose proof (s_pid _ _ Hs); simpl in *; lia|done].
  - intros j p T _ Hp HT. by rewrite E.
Qed.

(** *** Exit *)
Lemma exit_tasks code (pm pm' : PManager M) i mgr : PManager_make_current_exited code pm = Done pm' →
  ProcManage.current pm = Some i → manager pm = Some mgr → ∃ mgr', manager pm' = Some mgr' ∧ tasks_of mgr' = delete i (tasks_of mgr) ∧
    ProcManage.current pm' = None.
Proof.
  intros Hd Hc Hm. unfold PManager_make_current_exited in Hd. rewrite Hc, Hm in Hd. simpl in Hd.
  apply bind_Done in Hd as (r & _ & Hd). apply bind_Done in Hd as (rm & _ & [= <-]). eexists. split; [done|split; [|done]]. by rewrite delete_spec.
Qed.

(** The first process cannot leave children behind. *)
Lemma reparent_no_init cs : ∀ rm rm', rm !! 0 = None → PManager_reparent cs rm = Done rm' → rm' !! 0 = None.
Proof.
  destruct cs as [|c cs]; intros rm rm' H0; simpl; [by intros [= <-]|]. intros (r & Hr & Hd)%bind_Done.
  apply bind_Done in Hd as (z & Hz & _). destruct (decide (c = 0)) as [->|Hc]; [by rewrite H0 in Hr|].
  rewrite lookup_insert_ne in Hz by done. by rewrite H0 in Hz.
Qed.

Lemma exit_init code (pm pm' : PManager M) : ProcManage.current pm = Some 0 → PManager_make_current_exited code pm = Done pm' →
  rel_map pm' !! 0 = None.
Proof.
  intros Hc Hd. unfold PManager_make_current_exited in Hd. rewrite Hc in Hd. simpl in Hd. apply bind_Done in Hd as (mgr & _ & Hd).
  apply bind_Done in Hd as (r & _ & Hd). apply bind_Done in Hd as (rm & Hrm & [= <-]). simpl. eapply reparent_no_init; [|exact Hrm].
  apply lookup_alter_None. by rewrite lookup_delete_eq.
Qed.

(** What an exit leaves. *)
Record exited (i code : Z) h k TT r k' : Prop := {
  ee_inv : fork_inv (h ++ [EvExit i code]) k' (delete i TT);
  ee_tasks : tasks k' = delete i (tasks k);
  ee_current : ProcManage.current (processor k') = None;
  ee_same : more k' = more k ∧ mach k' = mach k;
  ee_rel j : rel_map (processor k') !! j = if decide (j = i) then None else after_exit i code r j <$> rel_map (processor k) !! j;
}.

Lemma exit_does h k TT i code : fork_inv h k TT → ProcManage.current (processor k) = Some i → i ≠ 0 →
  ∃ r k', rel_map (processor k) !! i = Some r ∧ act (PManager_make_current_exited code) k = Done ((), k') ∧ exited i code h k TT r k'.
Proof.
  intros Hi Hc Hne. pose proof Hi as [Hs Hf Htk]. destruct (current_rel _ _ _ Hs Hc) as [r Hr]. exists r.
  destruct (exit_ok h (system k) code i r Hs Hc Hne Hr) as (y & Hrun & Hok & Hrel). unfold prun in Hrun. simpl in Hrun. rewrite Hc in Hrun. simpl in Hrun.
  destruct (PManager_make_current_exited code (processor k)) as [pm| |] eqn:Hd; [|done|done]. simpl in Hrun. injection Hrun as <-.
  destruct (inv_manager _ _ _ Hi) as (mgr & Hm & Ht). destruct (exit_tasks _ _ _ _ _ Hd Hc Hm) as (mgr' & Hm' & Ht' & Hcur).
  assert (tasks (set_processor pm k) = delete i (tasks k)) as E by (unfold tasks; simpl; by rewrite Hm, Hm').
  exists (set_processor pm k). split; [exact Hr|split; [unfold act, on_processor; by rewrite Hd|]].
  split; [split; [exact Hok| |]|exact E|exact Hcur|done|exact Hrel].
  - unfold spaces. rewrite E, fmap_delete. by apply family_delete.
  - rewrite E. intros j p [_ Hj]%lookup_delete_Some. by apply Htk.
Qed.

Lemma exit_run h k TT i code u k' : fork_inv h k TT → ProcManage.current (processor k) = Some i →
  act (PManager_make_current_exited code) k = Done (u, k') → is_Some (rel_map (processor k') !! 0) →
  advanced i h k TT k' ∧ ProcManage.current (processor k') = None.
Proof.
  intros Hi Hc Hd [r0 H0]. assert (i ≠ 0) as Hne.
  { intros ->. unfold act, on_processor in Hd. apply bind_Done in Hd as ([u' pm] & Hd & [= _ <-]). apply bind_Done in Hd as (pm' & Hd & [= <- <-]).
    simpl in H0. by rewrite (exit_init _ _ _ Hc Hd) in H0. }
  destruct (exit_does h k TT i code Hi Hc Hne) as (r & k1 & _ & Hrun & [Hi' Ht Hcur [Hm Hs] _]). rewrite Hd in Hrun. injection Hrun as _ <-.
  split; [|exact Hcur]. split; [|by rewrite Hm]. exists [EvExit i code], (delete i TT). split; [exact Hi'|apply kept_stay].
  intros j p T Hj Hp HT. rewrite Ht, Hs, !lookup_delete_ne by done. by split_and!.
Qed.

(** ** A call *)

Lemma called_seq i h k TT k1 k2 : called i h k TT k1 → (∀ h1 TT1, fork_inv (h ++ h1) k1 TT1 → called i (h ++ h1) k1 TT1 k2) →
  called i h k TT k2.
Proof. intros [[(h1 & TT1 & Hi & Ho) Ha] _] Hk. by eapply called_trans, Hk. Qed.

Lemma called_end i h k TT k1 k2 : called i h k TT k1 →
  (∀ h1 TT1, fork_inv (h ++ h1) k1 TT1 → advanced i (h ++ h1) k1 TT1 k2 ∧ ProcManage.current (processor k2) = None) →
  advanced i h k TT k2 ∧ ProcManage.current (processor k2) = None.
Proof.
  intros [[(h1 & TT1 & Hi & Ho) Ha] _] Hk. destruct (Hk h1 TT1 Hi) as [Hadv Hc]. split; [|done]. by eapply advanced_trans.
Qed.

(** The running process gets another context with the same [satp]. *)
Lemma context_called h k TT i p c : fork_inv h k TT → ProcManage.current (processor k) = Some i → tasks k !! i = Some p →
  f_satp c = f_satp (context p) → update_task i (set_context c) k = Done ((), retask i (set_context c p) (mach k) k) ∧
  called i h k TT (retask i (set_context c p) (mach k) k).
Proof.
  intros Hi Hc Hp Hs. split; [by eapply update_task_run|]. destruct (inv_task _ _ _ _ Hi Hc) as (p' & T & Hp' & HT & [E Hb Hsat] & _).
  rewrite Hp in Hp'. injection Hp' as <-. apply (data_called h k TT i p T Hi Hc Hp HT); [|done|by apply (own_idle k p T)].
  split; [done|exact Hb|]. simpl. by rewrite Hs.
Qed.

Section Registry.
Variables (registry : Registry kernel) (good : Y → Prop) (call_ok : kernel → Process → Z → (Z → Z) → Prop).

(** The calls of the registry, from states with the invariant. *)
Definition keeps : Prop := ∀ h k TT i p T id a r k', fork_inv h k TT → ProcManage.current (processor k) = Some i → tasks k !! i = Some p →
  TT !! i = Some T → pid_counter k < still_running → good (more k) → call_ok k p id a →
  handle registry id a k = Done (r, k') → called i h k TT k'.

(** The call that process [i] makes. *)
Definition calls_ok (i : Z) k : Prop := ∀ p id args, tasks k !! i = Some p →
  let ctx := LocalContext_move_next (f_context (context p)) in
  LocalContext_a 7 ctx = Done id → Batch.call_args ctx = Done args →
  let p' := set_context (mkForeign ctx (f_satp (context p))) p in
  call_ok (retask i p' (mach k) k) p' id (fun n => nth (Z.to_nat n) args 0).

Lemma syscall_run h k TT i a k' : keeps → fork_inv h k TT → ProcManage.current (processor k) = Some i → pid_counter k < still_running →
  good (more k) → calls_ok i k → syscall registry i k = Done (a, k') → called i h k TT k'.
Proof.
  intros Hkeeps Hi Hc Hn Hok Hcalls Hd. destruct (inv_task _ _ _ _ Hi Hc) as (p & T & Hp & HT & _). unfold syscall in Hd.
  rewrite (st_bind_run _ _ _ _ _ (current_run h k TT i p Hi Hc Hp)) in Hd. set (ctx := LocalContext_move_next _) in Hd.
  destruct (context_called h k TT i p (mkForeign ctx (f_satp (context p))) Hi Hc Hp eq_refl) as [Hrun Hk1].
  rewrite (st_bind_run _ _ _ _ _ Hrun) in Hd. set (k1 := retask _ _ _ _) in *. apply (called_seq i h k TT k1 k' Hk1). intros h1 TT1 Hi1.
  assert (tasks k1 !! i = Some (set_context (mkForeign ctx (f_satp (context p))) p)) as Hp1.
  { unfold k1. rewrite (retask_tasks h k TT) by done. by rewrite lookup_insert_eq. }
  apply st_bind_Done in Hd as (id & k2 & H1 & Hd). unfold lift in H1. destruct (LocalContext_a 7 ctx) as [id'| |] eqn:Hid; try done. injection H1 as -> <-.
  apply st_bind_Done in Hd as (args & k2 & H1 & Hd). unfold lift in H1. destruct (Batch.call_args ctx) as [args'| |] eqn:Hargs; try done. injection H1 as -> <-.
  pose proof (Hcalls p id args Hp Hid Hargs) as Hcall. apply st_bind_Done in Hd as (r & k2 & Hd1 & [= _ <-]).
  destruct (inv_task _ _ _ _ Hi1 Hc) as (q & T1 & Hq & HT1 & _). rewrite Hp1 in Hq. injection Hq as <-.
  exact (Hkeeps _ k1 TT1 i _ T1 id _ r k2 Hi1 Hc Hp1 HT1 Hn Hok Hcall Hd1).
Qed.

Lemma finish_run h k TT i id r u k' : fork_inv h k TT → ProcManage.current (processor k) = Some i → finish i id r k = Done (u, k') →
  is_Some (rel_map (processor k') !! 0) → advanced i h k TT k' ∧ ProcManage.current (processor k') = None.
Proof.
  intros Hi Hc Hd H0. unfold finish in Hd. destruct r as [ret|?]; [|by eapply exit_run]. destruct (id =? EXIT); [by eapply exit_run|].
  destruct (inv_task _ _ _ _ Hi Hc) as (p2 & T2 & Hp2 & HT2 & _).
  rewrite (st_bind_run _ _ _ _ _ (current_run _ k TT i p2 Hi Hc Hp2)) in Hd.
  apply st_bind_Done in Hd as (ctx2 & k3 & H1 & Hd). unfold lift in H1. destruct (LocalContext_set_a _ _ _) as [c'| |]; try done. injection H1 as -> <-.
  destruct (context_called _ k TT i p2 (mkForeign ctx2 (f_satp (context p2))) Hi Hc Hp2 eq_refl) as [Hrun3 Hk3].
  rewrite (st_bind_run _ _ _ _ _ Hrun3) in Hd. apply (called_end i _ k TT _ k' Hk3). intros h3 TT3 Hi3.
  eapply put_back_run; [exact Hi3|exact Hc|exact Hd].
Qed.

Lemma call_run h k TT i u k' : keeps → fork_inv h k TT → ProcManage.current (processor k) = Some i → pid_counter k < still_running →
  good (more k) → calls_ok i k → user_env_call registry i k = Done (u, k') → is_Some (rel_map (processor k') !! 0) →
  advanced i h k TT k' ∧ ProcManage.current (processor k') = None.
Proof.
  intros Hkeeps Hi Hc Hn Hok Hcalls Hd H0. unfold user_env_call in Hd. apply st_bind_Done in Hd as ([id r] & k1 & Hd1 & Hd).
  pose proof (syscall_run h k TT i _ k1 Hkeeps Hi Hc Hn Hok Hcalls Hd1) as Hk1.
  apply (called_end i h k TT k1 k' Hk1). intros h1 TT1 Hi1. eapply finish_run; [exact Hi1|by destruct Hk1|exact Hd|done].
Qed.
End Registry.

(** ** A round *)
Section Loop.
Variables (run : ForeignContext → machine → ForeignContext * machine * Batch.Trap) (serve : ProcId → st kernel unit).
Variables (good : Y → Prop) (serve_ok : Z → kernel → Prop).

(** In user mode a process does not change [satp], and stores only to pages that the space [satp] names maps in its areas. *)
Definition user_mode : Prop := ∀ c s c' s' cause, run c s = (c', s', cause) → f_satp c' = f_satp c ∧
  ∀ sp T, space_inv portal s sp T → f_satp c = satp_of sp → own_writes s s' sp T.

(** The service of a call keeps the invariant and leaves nobody running. *)
Definition serves : Prop := ∀ h k TT i u k', fork_inv h k TT → ProcManage.current (processor k) = Some i → pid_counter k < still_running →
  good (more k) → serve_ok i k → serve i k = Done (u, k') → is_Some (rel_map (processor k') !! 0) →
  advanced i h k TT k' ∧ ProcManage.current (processor k') = None.

(** The next round has a pid to give, and the process that is chosen calls with arguments that the kernel can take. *)
Definition round_ok k : Prop := pid_counter k < still_running ∧ ∀ i k1 k2,
  on_processor PManager_find_next k = Done (Some i, k1) → execute run i k1 = Done (Batch.UserEnvCall, k2) → serve_ok i k2.

Lemma execute_run h k TT i p cause k' : user_mode → fork_inv h k TT → ProcManage.current (processor k) = Some i → tasks k !! i = Some p →
  execute run i k = Done (cause, k') → called i h k TT k' ∧ pid_counter k' = pid_counter k.
Proof.
  intros Hu Hi Hc Hp Hd. destruct (inv_task _ _ _ _ Hi Hc) as (p' & T & Hp' & HT & [E Hb Hsat] & Hsp).
  rewrite Hp in Hp'. injection Hp' as <-. unfold execute in Hd.
  rewrite (st_bind_run _ _ _ _ _ (current_run h k TT i p Hi Hc Hp)), (st_bind_run get_st _ _ _ _ eq_refl) in Hd.
  destruct (run (context p) (mach k)) as [[c s] t] eqn:Hr. destruct (Hu _ _ _ _ _ Hr) as [Hsatp Hown].
  rewrite (st_bind_run _ _ _ _ _ (update_task_run h k TT i p _ Hi Hp)) in Hd. injection Hd as _ <-. split; [|done].
  change (called i h k TT (retask i (set_context c p) s k)). apply (data_called h k TT i p T Hi Hc Hp HT); [|done|by apply Hown].
  split; [done|exact Hb|]. simpl. by rewrite Hsatp.
Qed.


Hypothesis Hgood : ∀ y y', more_kept y y' → good y → good y'.
Hypothesis Hserves : serves.
Hypothesis Hu : user_mode.

Lemma turn_run h k TT i k1 k' : fork_inv h k TT → ProcManage.current (processor k) = None → good (more k) → round_ok k →
  on_processor PManager_find_next k = Done (Some i, k1) → turn run serve k = Done (true, k') →
  is_Some (rel_map (processor k') !! 0) → advanced i h k TT k' ∧ ProcManage.current (processor k') = None.
Proof.
  intros Hi Hc Hok [Hn Hcalls] H1 Hd H0. unfold turn in Hd. rewrite (st_bind_run _ _ _ _ _ H1) in Hd.
  pose proof (chosen_run h k TT i k1 Hi Hc H1) as Hch.
  pose proof Hch as [Hi1 (p & x & Hp & Ht) Hc1 (Ha1 & Hm1 & Hn1)].
  pose proof (chosen_kept _ _ _ _ _ Hch) as Ho1.
  assert (tasks k1 !! i = Some (set_extra x p)) as Hp1 by (by rewrite Ht, lookup_insert_eq).
  apply st_bind_Done in Hd as (cause & k2 & Hd2 & Hd).
  destruct (execute_run _ k1 TT i _ cause k2 Hu Hi1 Hc1 Hp1 Hd2) as [Hk2 Hn2].
  apply st_bind_Done in Hd as (u & k3 & Hd3 & [= <-]).
  assert (advanced i (h ++ [EvNext (Some i)]) k1 TT k3 ∧ ProcManage.current (processor k3) = None) as [Hadv Hc3];
    [|split; [eapply advanced_trans; [exact Hi1|apply kept_stay; exact Ho1|by rewrite Ha1|exact Hadv]|done]].
  apply (called_end i _ k1 TT k2 k3 Hk2). intros h2 TT2 Hi2. pose proof (cl_current _ _ _ _ _ Hk2) as Hc2.
  destruct cause; [|by eapply exit_run].
  eapply Hserves; [exact Hi2|exact Hc2|lia| |by eapply Hcalls|exact Hd3|done].
  eapply Hgood; [apply (cl_advanced _ _ _ _ _ Hk2)|by rewrite Ha1].
Qed.

(** *** Rounds, with the processes that ran *)
Inductive rounds : kernel → list Z → kernel → Prop :=
| rounds_nil k : rounds k [] k
| rounds_cons k i k0 k1 l k2 : round_ok k → on_processor PManager_find_next k = Done (Some i, k0) →
    turn run serve k = Done (true, k1) → is_Some (rel_map (processor k1) !! 0) → rounds k1 l k2 → rounds k (i :: l) k2.

(** Every byte of the areas of a space that stayed the same. *)
Lemma same_space_bytes s s' sp T addr : same_space s s' sp T → in_areas (addr / page_size) (areas sp) →
  byte_at (mc_mem s') T addr = byte_at (mc_mem s) T addr.
Proof.
  intros [Hm Hb] Hin. unfold byte_at. rewrite Hm. destruct (mapping (mc_mem s) T (addr / page_size)) as [e|] eqn:E; [|done].
  simpl. f_equal. apply Hb. right. exists (addr / page_size), e. pose proof (Z.mod_pos_bound addr page_size ltac:(done)).
  split_and!; [done|done|]. apply (Z.div_unique _ _ _ (addr mod page_size)); lia.
Qed.
(** A process that is not in the list is as it was. *)
Definition kept_outside (l : list Z) k TT k' TT' : Prop := ∀ j p T, j ∉ l → tasks k !! j = Some p → TT !! j = Some T →
  ∃ q, tasks k' !! j = Some q ∧ task_kept p q ∧ TT' !! j = Some T ∧ same_space (mach k) (mach k') (address_space p) T.

Lemma rounds_kept k l k' : rounds k l k' → ∀ h TT, fork_inv h k TT → ProcManage.current (processor k) = None → good (more k) →
  ∃ h' TT', fork_inv (h ++ h') k' TT' ∧ ProcManage.current (processor k') = None ∧ kept_outside l k TT k' TT'.
Proof.
  intros Hr. induction Hr as [k|k i k0 k1 l k2 Hok Hnext Hturn H0 Hr IH]; intros h TT Hi Hc Hprog.
  { exists [], TT. rewrite app_nil_r. split_and!; [done|done|]. intros j p T _ Hp HT. exists p. by split_and!; [|apply task_kept_refl|..]. }
  destruct (turn_run h k TT i k0 k1 Hi Hc Hprog Hok Hnext Hturn H0) as [[(h1 & TT1 & Hi1 & Ho1) Ha] Hc1].
  destruct (IH (h ++ h1) TT1 Hi1 Hc1) as (h2 & TT2 & Hi2 & Hc2 & Ho2); [by eapply Hgood|].
  exists (h1 ++ h2), TT2. rewrite app_assoc. split_and!; [done|done|]. intros j p T Hj Hp HT.
  apply not_elem_of_cons in Hj as [Hj Hl]. destruct (Ho1 j p T Hj Hp HT) as (p1 & Hp1 & Hk1 & HT1 & Hs1).
  destruct (Ho2 j p1 T Hl Hp1 HT1) as (p2 & Hp2 & Hk2 & HT2 & Hs2). rewrite (task_kept_space p p1 Hk1) in Hs2.
  exists p2. split_and!; [done|by eapply task_kept_trans|done|by eapply same_space_trans].
Qed.

(** The same, in what a process sees; its entry in the table is as [same] says. *)
Definition isolated (same : relation Process) (l : list Z) k TT k' TT' : Prop := ∀ j p T, j ∉ l → tasks k !! j = Some p → TT !! j = Some T →
  (∃ q, tasks k' !! j = Some q ∧ same p q) ∧ TT' !! j = Some T ∧ (∀ w, mapping (mc_mem (mach k')) T w = mapping (mc_mem (mach k)) T w) ∧
  ∀ addr, in_areas (addr / page_size) (areas (address_space p)) → byte_at (mc_mem (mach k')) T addr = byte_at (mc_mem (mach k)) T addr.

Lemma rounds_isolated (same : relation Process) k l k' h TT : (∀ p q, task_kept p q → same p q) → rounds k l k' → fork_inv h k TT → ProcManage.current (processor k) = None → good (more k) →
  ∃ h' TT', fork_inv (h ++ h') k' TT' ∧ ProcManage.current (processor k') = None ∧ isolated same l k TT k' TT'.
Proof.
  intros Hsame Hr Hi Hc Hok. destruct (rounds_kept k l k' Hr h TT Hi Hc Hok) as (h' & TT' & Hi' & Hc' & Ho).
  exists h', TT'. split_and!; [done|done|]. intros j p T Hj Hp HT. destruct (Ho j p T Hj Hp HT) as (q & Hp' & Hk & HT' & Hs).
  split_and!; [exists q; by split; [|apply Hsame]|done|apply Hs|]. intros addr Hin. by eapply same_space_bytes.
Qed.
End Loop.

End Rounds.
End ForkRounds.
