(* ===== verification/ForkProperties.v ===== *)
(** * What the kernel with processes guarantees

    The system calls of ch5: each keeps the invariant of ForkInvariant.v, so its rounds are rounds of ForkRounds.v
    ([ForkApps]).  The properties of the first process, of [fork] and of [wait] for every kernel of the family, of [exec] and
    of the loop for ch5, with witnesses on a kernel of ch5 that boots one program ([ForkProps]). *)

From Stdlib Require Import Ascii String.
From stdpp Require Import strings.
From S2P Require Import Prelude Bytes Memory KernelContext TaskRel ProcManage ProcTree ProcInvariant ProcSystem Schedulers Syscall PageTable AddressSpace SpaceTree SpaceMap SpaceInvariant PageManager BatchKernel TaskKernel VmKernel VmTheorems VmIsolation VmLoad VmBoot VmDemo SpaceFamily ForkKernel ForkInvariant ForkMaking ForkCalls ForkRounds.

Module ForkApps.
Import Fork Family SpaceRoot VmInv VmLoad ForkInv ForkMaking ForkCalls ForkRounds.
Section Apps.
Context `{PTC : PageTableCrate, HL : !HeapLaws, PTL : !PageTableLaws}.
Context {Q : Type} `{!BinaryHeap Q StridePair pair_le}.
Abbreviation Process := (Process Stride).
Abbreviation kernel := (kernel (StrideManager Process Q) (gmap (list Z) (list Z))).
Implicit Types (k : kernel) (T U : gmap (list Z) Z) (TT : gmap Z (gmap (list Z) Z)) (p q : Process) (s : machine) (h : list pevent).

Section Running.
Variables (h : list pevent) (k : kernel) (TT : gmap Z (gmap (list Z) Z)) (i : Z) (p : Process) (T : gmap (list Z) Z).
Hypothesis Hi : fork_inv h k TT.
Hypothesis Hc : ProcManage.current (processor k) = Some i.
Hypothesis Hp : tasks k !! i = Some p.
Hypothesis HT : TT !! i = Some T.

(** Output of the kernel. *)
Lemma printed_called : called i h k TT (printed k).
Proof. by apply (idle_called h k TT i p T Hi Hc Hp HT). Qed.

Lemma read_console_called getchar fd buf count r k' : only_reads getchar → buffer_ok buf count →
  read getchar fd buf count k = Done (r, k') → called i h k TT k'.
Proof.
  intros Hg Hb Hd. unfold read in Hd. destruct (fd =? STDIN); [|injection Hd as _ <-; by apply same_called].
  apply (as_caller_run h k TT i p Hi Hc Hp) in Hd as (v & Hd & q & Hh & ->). apply st_bind_Done in Hd as (ptr & v1 & H1 & Hd).
  unfold Vm.user_ptr in H1. simpl in H1. apply bind_Done in H1 as (o & Htr & [= -> <-]). destruct ptr as [ptr|].
  - apply st_bind_Done in Hd as (u & v2 & H2 & Hd). unfold Vm.on_machine in H2. apply bind_Done in H2 as ([u' s'] & H2 & [= -> <-]).
    injection Hd as _ <-. simpl in Hh. injection Hh as <-. destruct u. apply read_chars_written in H2; [|done].
    assert (with_vm (vm_of p) p = p) as E by (by destruct p). rewrite E, (retask_id h k TT i p Hi Hc Hp).
    eapply (store_called h k TT i p T Hi Hc Hp HT); [|exact Htr|exact H2]. destruct Hb as [Hb1 Hb2]. split; [done|].
    pose proof (Z.mod_pos_bound buf page_size ltac:(done)). lia.
  - injection Hd as _ <-. simpl in Hh. injection Hh as <-. assert (with_vm (vm_of p) p = p) as E by (by destruct p).
    rewrite E, (retask_id h k TT i p Hi Hc Hp). simpl. replace (set_mach (mach k) k) with k by (by destruct k). by apply same_called.
Qed.

End Running.

(** ** Programs by name *)
Definition programs_ok (fuel : nat) (parse : list Z → option Vm.ElfFile) (found : gmap (list Z) (list Z)) : Prop := ∀ name data elf, found !! name = Some data →
  parse data = Some elf → elf_ok fuel elf.

Lemma named_run parse fuel path count h k TT i p r k' : fork_inv h k TT → ProcManage.current (processor k) = Some i → tasks k !! i = Some p →
  programs_ok fuel parse (more k) → named_program parse path count k = Done (r, k') → k' = k ∧ ∀ elf, r = Some elf → elf_ok fuel elf.
Proof.
  intros Hi Hc Hp Hok Hd. unfold named_program in Hd. rewrite (st_bind_run _ _ _ _ _ (current_run h k TT i p Hi Hc Hp)) in Hd.
  rewrite (st_bind_run get_st _ _ _ _ eq_refl) in Hd. apply st_bind_Done in Hd as (o & k1 & H1 & Hd). unfold lift in H1.
  destruct (translate _ _ _ _) as [o'| |]; try done. injection H1 as -> <-. injection Hd as <- <-. split; [done|].
  intros elf He. destruct o as [ptr|]; [|done]. simpl in He. destruct (apps k !! _) as [data|] eqn:Ha; [|done]. simpl in He. by eapply Hok.
Qed.

Lemma spawn_app_called fuel parse path count h k TT i p T r k' : fork_inv h k TT → ProcManage.current (processor k) = Some i → tasks k !! i = Some p →
  TT !! i = Some T → pid_counter k < still_running → programs_ok fuel parse (more k) →
  spawn fuel parse path count k = Done (r, k') → called i h k TT k'.
Proof.
  intros Hi Hc Hp HT Hn Hok Hd. unfold spawn in Hd. apply st_bind_Done in Hd as (o & k1 & H1 & Hd).
  eapply named_run in H1 as [-> Helf]; [|done..]. destruct o as [elf|]; [|injection Hd as _ <-; by eapply printed_called].
  eapply spawn_called; try done. by apply Helf.
Qed.

Lemma exec_app_called fuel parse path count h k TT i p T r k' : fork_inv h k TT → ProcManage.current (processor k) = Some i → tasks k !! i = Some p →
  TT !! i = Some T → pid_counter k < still_running → programs_ok fuel parse (more k) →
  exec fuel parse path count k = Done (r, k') → called i h k TT k'.
Proof.
  intros Hi Hc Hp HT Hn Hok Hd. unfold exec in Hd. apply st_bind_Done in Hd as (o & k1 & H1 & Hd).
  eapply named_run in H1 as [-> Helf]; [|done..]. destruct o as [elf|]; [|injection Hd as _ <-; by eapply printed_called].
  apply st_bind_Done in Hd as (u & k2 & Hd & [= _ <-]). eapply exec_called; try done. by apply Helf.
Qed.

(** ** The dispatcher *)

(** Arguments in the lower half of the address space, buffers within a page, and fuel for the pages of a call; a count of
    bytes is not limited by more than the page. *)
Record call_ok (fuel : nat) p (id : Z) (a : Z → Z) : Prop := {
  co_write : id = WRITE → 0 ≤ a 1 < 2 ^ 38;
  co_read : id = READ → buffer_ok (a 1) (a 2);
  co_wait : id = WAIT4 → buffer_ok (a 1) 4;
  co_clock : id = CLOCK_GETTIME → VmRuns.args_ok fuel (vm_of p) (VmRuns.CClock (a 0) (a 1));
  co_mmap : id = MMAP → VmRuns.args_ok fuel (vm_of p) (VmRuns.CMmap (a 0) (a 1) (as_i32 (a 2)));
  co_munmap : id = MUNMAP → VmRuns.args_ok fuel (vm_of p) (VmRuns.CMunmap (a 0) (a 1));
  co_brk : id = BRK → VmRuns.args_ok fuel (vm_of p) (VmRuns.CSbrk (as_i32 (a 0)));
  co_fork ar : id = CLONE → ar ∈ areas (address_space p) → ar.2 - ar.1 ≤ Z.of_nat fuel;
}.

Section Served.
Variables (fuel : nat) (parse : list Z → option Vm.ElfFile) (getchar : st world Z).
Hypothesis Hget : only_reads getchar.

Lemma apps_keep : keeps (registry fuel parse getchar) (programs_ok fuel parse) (fun _ => call_ok fuel).
Proof.
  intros h k TT i p T id a r k' Hi Hc Hp HT Hn Hok Hcall Hd. unfold handle in Hd.
  repeat match type of Hd with
  | (if ?x =? ?y then _ else _) _ = _ => destruct (Z.eqb_spec x y) as [->|]
  end; unfold Container_call in Hd; cbn [registry PROCESS IO MEMORY SCHEDULING CLOCK SIGNAL THREAD SYNC_MUTEX TRACE_] in Hd;
    try (injection Hd as _ <-; by apply same_called); apply st_bind_Done in Hd as (x & k1 & Hd & [= _ <-]); try discriminate Hd.
  all: cbn in Hd; pose proof (fi_tasks _ _ _ Hi i p Hp) as Hpok; destruct Hcall.
  - eapply (vm_caller fuel h k TT i p T Hi Hc Hp HT (VmRuns.CWrite (a 0) (a 1) (a 2))); [by apply co_write0|exact Hd].
  - eapply read_console_called; [done..|by apply co_read0|exact Hd].
  - eapply fork_called; [done..| |exact Hd]. intros ar. by apply co_fork0.
  - by eapply exec_app_called.
  - eapply wait_called; [done..|by apply co_wait0|exact Hd].
  - by eapply getpid_called.
  - eapply (vm_caller fuel h k TT i p T Hi Hc Hp HT (VmRuns.CClock (a 0) (a 1))); [by apply co_clock0|exact Hd].
  - eapply (vm_caller fuel h k TT i p T Hi Hc Hp HT (VmRuns.CMunmap (a 0) (a 1))); [by apply co_munmap0|exact Hd].
  - eapply (vm_caller fuel h k TT i p T Hi Hc Hp HT (VmRuns.CMmap (a 0) (a 1) (as_i32 (a 2)))); [by apply co_mmap0|exact Hd].
  - by eapply spawn_app_called.
  - by eapply priority_called.
  - eapply sbrk_called; [done..|by apply co_brk0|exact Hd].
Qed.

(** The service of a call by the loop. *)
Lemma apps_serve : serves (user_env_call (registry fuel parse getchar)) (programs_ok fuel parse) (calls_ok (fun _ => call_ok fuel)).
Proof. intros h k TT i u k' Hi Hc Hn Hok Hcalls Hd H0. by eapply call_run; [apply apps_keep|..]. Qed.
End Served.

(** Rounds of the loop of ch5, with the processes that ran. *)
Definition app_rounds (fuel : nat) (parse : list Z → option Vm.ElfFile) (getchar : st world Z)
    (run : ForeignContext → machine → ForeignContext * machine * Batch.Trap) : kernel → list Z → kernel → Prop :=
  rounds run (user_env_call (registry fuel parse getchar)) (calls_ok (fun _ => call_ok fuel)).
End Apps.
End ForkApps.

Module ForkProps.
Import Fork Family SpaceRoot VmInv VmLoad ForkInv ForkMaking ForkCalls ForkRounds ForkApps.
Section Properties.
Context `{PTC : PageTableCrate, HL : !HeapLaws, PTL : !PageTableLaws}.
Context {X M Y : Type} `{!ProcessExtra X, !Manage M (Process X), !ManageSpec M (Process X), !Schedule M, !ScheduleSpec M (Process X), PT : !ProcessTable X M, !MoreKept Y, !ExtraKept X}.
Abbreviation kernel := (kernel M Y).
Abbreviation Process := (Process X).
Implicit Types (k : kernel) (T U : gmap (list Z) Z) (TT : gmap Z (gmap (list Z) Z)) (p q c : Process) (s : machine) (h : list pevent).

(** ** Boot *)

(** Before the first process. *)
Definition unbooted k : Prop := processor k = PManager_new ∧ pid_counter k = 0.

(** The first process runs its program, and nothing else is there. *)
Record first_process k elf k' p T : Prop := {
  fp_inv : fork_inv [] k' {[0 := T]};
  fp_idle : ProcManage.current (processor k') = None;
  fp_more : more k' = more k;
  fp_tasks : tasks k' = {[0 := p]};
  fp_root : rel_map (processor k') = {[0 := ProcRel_new usize_max]};
  fp_counter : pid_counter k' = 1;
  fp_program : VmBoot.has_program (Vm.mkKernel [] (mach k')) (vm_of p) T elf;
  fp_stack : LocalContext_sp (f_context (context p)) = Done (2 ^ 38);
  fp_kept : kept ∅ (mach k) T (mach k');
}.

Lemma first_program_run fuel (new : M) elf k : unbooted k → tasks_of new = ∅ → ready_of new = [] → elf_ok fuel elf → riscv_program elf = true →
  (first_program fuel new elf k = Panic ∧ exhausted (M := Sv39Manager) (pages_needed elf) (mach k)) ∨
  ∃ k' p T, first_program fuel new elf k = Done ((), k') ∧ first_process k elf k' p T.
Proof.
  intros [Hpm Hn] Hnt Hnr Hok Hrv. unfold first_program.
  pose proof (from_elf_run fuel elf k Hok) as Hrun. rewrite Hrv in Hrun.
  destruct Hrun as [[Hp Hex]|(p & s & T & Hrun & Hfe)]; [left; unfold mbind, st_bind; by rewrite Hp|right].
  rewrite (st_bind_run _ _ _ _ _ Hrun). destruct (fe_task _ _ _ _ _ Hfe) as [Hpid Hb Hsat]. rewrite Hn in Hpid. rewrite Hpid.
  destruct (boot_ok new p) as (y & Hboot & Hs); [by split|].
  unfold boot in Hboot. simpl in Hboot. apply bind_Done in Hboot as (pm & Hadd & [= <-]).
  destruct (add_tasks 0 p usize_max _ pm new Hadd eq_refl) as (mgr & Hm & Ht & Hc). simpl in Ht, Hc. rewrite Hnt in Ht.
  assert (rel_map pm = {[0 := ProcRel_new usize_max]}) as Hrel.
  { unfold PManager_add in Hadd. simpl in Hadd. apply bind_Done in Hadd as (m & _ & [= <-]). done. }
  exists (mkKernel pm 1 (kernel_as k) (more k) s), p, T. destruct (fe_space _ _ _ _ _ Hfe) as [Hsp K Hfr].
  assert (tasks (mkKernel pm 1 (kernel_as k) (more k) s) = {[0 := p]}) as Htk by (unfold tasks; simpl; by rewrite Hm).
  split.
  { unfold act, on_processor, drawn, mbind, st_bind, set_processor. simpl. rewrite Hpm, Hn, Hadd. reflexivity. }
  split; [|done|done|done|done|done|apply Hfe|apply Hfe|done].
  split; [exact Hs| |].
  - unfold spaces. rewrite Htk, map_fmap_singleton.
    destruct (family_push ∅ ∅ (mach k) 0 (address_space p) T s (family_empty _) K Hsp Hfr) as [Hf _]. exact Hf.
  - rewrite Htk. intros i q [<- <-]%lookup_singleton_Some. by split.
Qed.

(** ** [fork] *)

(** C5: [fork], unless the heap cannot give a root and three pages for each page of the parent: the child has the next pid,
    the running process as its parent, the context of the parent but for 0 in a0, the same heap bounds, what the chapter lets it inherit, and a space of pages
    nobody used with the same areas, in which every address holds the same byte as in the space of the parent; the parent gets the pid of the
    child.  No process, the parent included, loses a mapping or a byte, and the invariant of the kernel goes on. *)
Theorem fork_spec fuel h k TT i p T : fork_inv h k TT → ProcManage.current (processor k) = Some i → tasks k !! i = Some p →
  TT !! i = Some T → pid_counter k < still_running → ctx_wf (f_context (context p)) →
  (∀ ar, ar ∈ areas (address_space p) → ar.2 - ar.1 ≤ Z.of_nat fuel) →
  let child := pid_counter k in
  (fork fuel k = Panic ∧ exhausted (M := Sv39Manager) (1 + 3 * pages_of (areas (address_space p))) (mach k)) ∨
  ∃ c T' k', fork fuel k = Done (as_isize child, k') ∧ fork_inv (h ++ [EvFork i child]) k' (<[child := T']> TT) ∧
    tasks k !! child = None ∧ tasks k' = <[child := c]> (tasks k) ∧
    rel_map (processor k') !! child = Some (ProcRel_new i) ∧
    rel_map (processor k') !! i = ProcRel_add_child child <$> rel_map (processor k) !! i ∧
    LocalContext_set_a 0 0 (f_context (context p)) = Done (f_context (context c)) ∧ LocalContext_a 0 (f_context (context c)) = Done 0 ∧
    heap_bottom c = heap_bottom p ∧ program_brk c = program_brk p ∧ extra c = extra_fork (extra p) ∧
    areas (address_space c) = areas (address_space p) ∧ same_contents (mach k) (address_space p) T (mach k') T' ∧
    (∀ x, uses (mach k') (address_space c) T' x → ¬ page_used (mc_heap (mach k)) x) ∧
    ∀ j, alone (spaces k) TT (mach k) (mach k') j.
Proof.
  intros Hi Hc Hp HT Hn Hwf Hfuel child. unfold fork. rewrite (st_bind_run _ _ _ _ _ (current_run h k TT i p Hi Hc Hp)).
  destruct (fork_run fuel k p T) as [[Hpn Hex]|(c & s & T' & Hrun & Hfk)];
    [by eapply running_space|by eapply running_ok|done|left; unfold mbind, st_bind; by rewrite Hpn|right].
  rewrite (st_bind_run _ _ _ _ _ Hrun), (st_bind_run _ _ _ _ _ (lift_run (unwrap (Some c)) _ _ eq_refl)).
  pose proof (fi_tasks _ _ _ Hi i p Hp) as Hpok. pose proof (fk_task _ _ _ _ _ _ Hfk) as Hcok.
  unfold add_child. rewrite (to_pid _ _ Hcok), (to_pid _ _ Hpok), (fk_context _ _ _ _ _ _ Hfk).
  destruct (set_a_run 0 0 _ Hwf ltac:(lia)) as (ctx & Hctx & _ & Ha0 & _). rewrite (st_bind_run _ _ _ _ _ (lift_run _ _ _ Hctx)).
  destruct (add_child_run h k TT i (with_ctx ctx c) s T' Hi Hc Hn) as (k2 & Hadd & A); [by apply with_ctx_ok|apply Hfk|].
  rewrite (st_bind_run _ _ _ _ _ Hadd). exists (with_ctx ctx c), T', k2. destruct A as [? ? ? ? Hm ? ? ? ? ?]. rewrite Hm.
  destruct Hfk as [? [? ? ?] ? ? ? [? ?] ?]. split_and!; try done. by eapply unknown_task.
Qed.

(** ** [exec] *)

(** Process [i] runs the program in a space of pages nobody used, and is the same process to the others. *)
Record execed (i : Z) h k TT p (elf : Vm.ElfFile) c T' k' : Prop := {
  ex_inv : fork_inv h k' (<[i := T']> TT);
  ex_tasks : tasks k' = <[i := c]> (tasks k);
  ex_pid : pid c = pid p;
  ex_extra : extra c = extra p;
  ex_rel : rel_map (processor k') = rel_map (processor k);
  ex_more : more k' = more k;
  ex_counter : pid_counter k' = pid_counter k + 1;
  ex_program : VmBoot.has_program (Vm.mkKernel [] (mach k')) (vm_of c) T' elf;
  ex_stack : LocalContext_sp (f_context (context c)) = Done (2 ^ 38);
  ex_fresh x : uses (mach k') (address_space c) T' x → ¬ page_used (mc_heap (mach k)) x;
  ex_alone j : alone (spaces k) TT (mach k) (mach k') j;
}.

Lemma exec_elf_run fuel elf h k TT i p T : fork_inv h k TT → ProcManage.current (processor k) = Some i → tasks k !! i = Some p →
  TT !! i = Some T → pid_counter k < still_running → elf_ok fuel elf →
  if riscv_program elf then
    (Process_exec fuel elf k = Panic ∧ exhausted (M := Sv39Manager) (pages_needed elf) (mach k)) ∨
    ∃ c T' k', Process_exec fuel elf k = Done ((), k') ∧ execed i h k TT p elf c T' k'
  else Process_exec fuel elf k = Panic.
Proof.
  intros Hi Hc Hp HT Hn Helf. pose proof (from_elf_run fuel elf k Helf) as Hrun. destruct (riscv_program elf).
  - destruct Hrun as [[Hpn Hex]|(c & s & T' & Hrun & Hfe)]; [left; unfold Process_exec, mbind, st_bind; by rewrite Hpn|right].
    destruct (exec_run fuel elf h k TT i p T c s T' Hi Hc Hp HT Hn Hrun Hfe) as (He & Hinv & Ho).
    exists (exec_task c p), T'. eexists. split; [exact He|]. pose proof (drawn_inv h k TT Hi Hn) as Hid.
    destruct Hfe as [_ [Hsp K Hfr] Hprog _ Hstack _ _].
    destruct (family_push (spaces k) TT (mach k) i (address_space c) T' s (fi_family _ _ _ Hi) K Hsp Hfr) as [_ Hal].
    split; try done; [by rewrite (retask_tasks h _ TT)|apply (next_pid_range _ _ (fi_system _ _ _ Hi) Hn)].
  - unfold Process_exec, mbind, st_bind. by rewrite Hrun.
Qed.

(** ** [wait] *)

(** C6: [wait] on every branch, for a pointer in the lower half whose four bytes lie in a page: a dead child that fits is
    taken from the family and its pid is the answer; a living one gives -2 with the code -1; with none the answer is -1.
    If the process may write at the pointer, the four bytes there are the exit code, also for a living child, and no other
    byte changes.  The other processes keep their entries, mappings and bytes. *)
Theorem wait_spec h k TT i p T pid ptr : fork_inv h k TT → ProcManage.current (processor k) = Some i → tasks k !! i = Some p →
  TT !! i = Some T → buffer_ok ptr 4 →
  ∃ r o r' k', rel_map (processor k) !! i = Some r ∧ wait_effect (as_usize pid) r o r' ∧
    wait pid ptr k = Done (from_option (fun d => as_isize d.1) (-1) o, k') ∧
    rel_map (processor k') = <[i := r']> (rel_map (processor k)) ∧
    fork_inv (h ++ [EvWait i (as_usize pid) o]) k' TT ∧ others_kept i k TT k' TT ∧
    mc_mem (mach k') = match o, place k T ptr (build_flags "W_V") with
                       | Some d, Some a => mem_write a (le_encode 4 (as_u32 d.2)) (mc_mem (mach k))
                       | _, _ => mc_mem (mach k)
                       end.
Proof.
  intros Hi Hc Hp HT Hb. destruct (wait_run h k TT i p T pid ptr Hi Hc Hp HT Hb) as (r & o & r' & Hr & Heff & Hrun & Hi' & Ho).
  exists r, o, r'. eexists. split; [exact Hr|split; [exact Heff|split; [exact Hrun|split; [|split; [exact Hi'|split; [exact Ho|]]]]]].
  - by destruct o as [[? ?]|], (place _ _ _ _).
  - destruct o as [[dead code]|], (place _ _ _ _); done.
Qed.

End Properties.

(** ** ch5: booting, [exec] and the loop *)
Section Apps.
Context `{PTC : PageTableCrate, HL : !HeapLaws, PTL : !PageTableLaws}.
Context {Q : Type} `{!BinaryHeap Q StridePair pair_le}.
Abbreviation Process := (Process Stride).
Abbreviation kernel := (kernel (StrideManager Process Q) (gmap (list Z) (list Z))).
Implicit Types (k : kernel) (T U : gmap (list Z) Z) (TT : gmap Z (gmap (list Z) Z)) (p q c : Process) (s : machine) (h : list pevent).

Lemma load_initproc_eq fuel parse initproc data elf k : apps k !! initproc = Some data → parse data = Some elf →
  load_initproc fuel parse initproc k = first_program fuel StrideManager_new elf k.
Proof.
  intros Ha He. unfold load_initproc. rewrite (st_bind_run get_st _ _ _ _ eq_refl), Ha, (st_bind_run _ _ _ _ _ (lift_run (unwrap (Some data)) _ _ eq_refl)), He.
  by rewrite (st_bind_run _ _ _ _ _ (lift_run (unwrap (Some elf)) _ _ eq_refl)).
Qed.

Lemma load_initproc_run fuel parse initproc data elf k : unbooted k → apps k !! initproc = Some data → parse data = Some elf →
  elf_ok fuel elf → riscv_program elf = true →
  (load_initproc fuel parse initproc k = Panic ∧ exhausted (M := Sv39Manager) (pages_needed elf) (mach k)) ∨
  ∃ k' p T, load_initproc fuel parse initproc k = Done ((), k') ∧ first_process k elf k' p T.
Proof.
  intros Hk Ha He. rewrite (load_initproc_eq fuel parse initproc data elf k Ha He).
  apply first_program_run; [done|done|exact (f_equal (fmap fst) heap_empty_elems)].
Qed.

(** C7: Booting the kernel with processes: unless the heap cannot give the pages of the first program, its process is number
    0 and the root of the family tree, its program is in a space of its own, it starts at the entry with the stack pointer
    at the top of the stack, no byte of a page in use changed, and what every later round keeps holds. *)
Theorem init_boots fuel parse initproc data elf k : unbooted k → apps k !! initproc = Some data → parse data = Some elf →
  elf_ok fuel elf → riscv_program elf = true →
  (load_initproc fuel parse initproc k = Panic ∧ exhausted (M := Sv39Manager) (pages_needed elf) (mach k)) ∨
  ∃ k' p T, load_initproc fuel parse initproc k = Done ((), k') ∧ first_process k elf k' p T.
Proof. apply load_initproc_run. Qed.

(** The program that a path names. *)
Lemma named_eq parse path count h k TT i p T : fork_inv h k TT → ProcManage.current (processor k) = Some i → tasks k !! i = Some p →
  TT !! i = Some T → 0 ≤ path < 2 ^ 38 → named_program parse path count k = Done (
    pte ← mapping (mc_mem (mach k)) T (path / page_size);
    _ ← guard (Z.land (pte_flags pte) (build_flags "RV") = build_flags "RV");
    input ← apps k !! mem_read (mc_mem (mach k)) (pte_ppn pte * page_size + path mod page_size) (Z.to_nat count);
    parse input, k).
Proof.
  intros Hi Hc Hp HT Ha. unfold named_program. rewrite (st_bind_run _ _ _ _ _ (current_run h k TT i p Hi Hc Hp)).
  rewrite (st_bind_run get_st _ _ _ _ eq_refl).
  rewrite (translate_user (mach k) (address_space p) T path) by (done || by eapply running_space).
  rewrite (st_bind_run _ _ _ _ _ (lift_run (Done _) _ _ eq_refl)). unfold mret, st_ret. do 2 f_equal.
  destruct (mapping (mc_mem (mach k)) T (path / page_size)) as [pte|]; [|done]. simpl.
  destruct (Z.land (pte_flags pte) (build_flags "RV") =? build_flags "RV") eqn:E.
  - apply Z.eqb_eq in E. by rewrite option_guard_True.
  - apply Z.eqb_neq in E. by rewrite option_guard_False.
Qed.

(** [exec] on every branch, for a path in the lower half of the address space.  The path names a program if it can be
    read and an application of that name is a program file; if it names none, the answer is -1 and nothing changes but the
    console, which lists the applications.  A program for another machine stops the kernel.  Otherwise, unless the heap
    cannot give the pages, the process keeps its pid, its priority and its place in the family, and gets a space of free
    pages with the program at its entry; a pid is used up.  No other process loses a mapping or a byte. *)
Theorem exec_spec fuel parse path count h k TT i p T : fork_inv h k TT → ProcManage.current (processor k) = Some i → tasks k !! i = Some p →
  TT !! i = Some T → pid_counter k < still_running → programs_ok fuel parse (more k) → 0 ≤ path < 2 ^ 38 →
  let named := pte ← mapping (mc_mem (mach k)) T (path / page_size);
               _ ← guard (Z.land (pte_flags pte) (build_flags "RV") = build_flags "RV");
               input ← apps k !! mem_read (mc_mem (mach k)) (pte_ppn pte * page_size + path mod page_size) (Z.to_nat count);
               parse input in
  match named with
  | None => exec fuel parse path count k = Done (-1, printed k)
  | Some elf =>
      if riscv_program elf then
        (exec fuel parse path count k = Panic ∧ exhausted (M := Sv39Manager) (pages_needed elf) (mach k)) ∨
        ∃ c T' k', exec fuel parse path count k = Done (0, k') ∧ execed i h k TT p elf c T' k'
      else exec fuel parse path count k = Panic
  end.
Proof.
  intros Hi Hc Hp HT Hn Hok Ha named. pose proof (named_eq parse path count h k TT i p T Hi Hc Hp HT Ha) as Hnamed. fold named in Hnamed.
  unfold exec. rewrite (st_bind_run _ _ _ _ _ Hnamed). destruct named as [elf|] eqn:En; [|done].
  assert (elf_ok fuel elf) as Helf by (by eapply (named_run parse fuel path count h k TT i p)).
  pose proof (exec_elf_run fuel elf h k TT i p T Hi Hc Hp HT Hn Helf) as Hrun. destruct (riscv_program elf).
  - destruct Hrun as [[Hpn Hex]|(c & T' & k' & Hrun & He)]; [left; by rewrite (st_bind_Panic _ _ _ Hpn)|right].
    rewrite (st_bind_run _ _ _ _ _ Hrun). by exists c, T', k'.
  - by rewrite (st_bind_Panic _ _ _ Hrun).
Qed.

(** ** The loop *)

(** C4: Isolation along the scheduling loop: if user mode stores only to the pages that the space named by [satp] maps in its
    areas, then over any number of rounds (a process is chosen, runs, and its call, whatever its number, is served), from
    a state with the invariant, as long as the first process lives and the calls pass addresses of the lower half and
    buffers within a page ([calls_ok]), every process keeps a well-formed space of
    its own named by its [satp], no page belongs to two, the family tree and the exit codes stay as ProcSystem.v says, and a
    process that did not run keeps its entry in the table, its mapping and every byte of its pages. *)
Theorem fork_isolation fuel parse getchar run h k TT l k' : user_mode run → only_reads getchar → fork_inv h k TT →
  ProcManage.current (processor k) = None → programs_ok fuel parse (more k) → app_rounds fuel parse getchar run k l k' →
  ∃ h' TT', fork_inv (h ++ h') k' TT' ∧ ProcManage.current (processor k') = None ∧ isolated eq l k TT k' TT'.
Proof.
  intros Hu Hg Hi Hc Hok Hr.
  by apply (rounds_isolated run _ (programs_ok fuel parse) _ ltac:(by intros y y' ->) (apps_serve fuel parse getchar Hg) Hu); [intros p q; by apply task_kept_eq|..].
Qed.
End Apps.

(** ** Examples of rounds *)
#[local] Existing Instance BumpHeap.
#[local] Existing Instance BumpHeapLaws.
#[local] Existing Instance VmDemo.demo_crate.
#[local] Existing Instance VmDemo.demo_laws.

(** Processes that only fork. *)
Definition demo_ctx : LocalContext :=
  match LocalContext_set_a 7 CLONE (LocalContext_user 0x10004) with Done c => c | _ => LocalContext_empty end.
Definition demo_mode (c : ForeignContext) (s : machine) : ForeignContext * machine * Batch.Trap :=
  (mkForeign demo_ctx (f_satp c), s, Batch.UserEnvCall).
Definition demo_getchar : st world Z := fun w => Done (0, w).

Lemma demo_user_mode : user_mode demo_mode.
Proof. intros c s c' s' cause [= <- <- _]. split; [done|]. intros sp T _ _. split; [done|]. by intros x. Qed.
Lemma demo_only_reads : only_reads demo_getchar.
Proof. by intros w c w' [= _ <-]. Qed.

Section Turns.
Context {X M Y : Type} `{!ProcessExtra X, !Manage M (Process X), !ManageSpec M (Process X), !Schedule M, !ScheduleSpec M (Process X), PT : !ProcessTable X M, !MoreKept Y}.
Variables (serve : ProcId → st (kernel M Y) unit) (call_ok : kernel M Y → Process X → Z → (Z → Z) → Prop).
Implicit Types (k : kernel M Y).

(** The state of the process that the next round chooses, after its trap: its number, its call and its areas. *)
Definition next_call k : option (Z * Z * list (Z * Z)) :=
  match on_processor PManager_find_next k with
  | Done (Some i, k1) =>
      match execute demo_mode i k1 with
      | Done (_, k2) =>
          p ← tasks k2 !! i;
          match LocalContext_a 7 (LocalContext_move_next (f_context (context p))) with
          | Done id => Some (i, id, areas (address_space p))
          | _ => None
          end
      | _ => None
      end
  | _ => None
  end.

(** A round in which process [n] forks. *)
Definition forks (n : Z) k : bool :=
  match next_call k with
  | Some (i, id, l) => (i =? n) && (id =? CLONE) && forallb (fun ar => ar.2 - ar.1 <=? 8) l
  | None => false
  end && (pid_counter k <? 100) &&
  match turn demo_mode serve k with
  | Done (true, k') => bool_decide (is_Some (rel_map (processor k') !! 0))
  | _ => false
  end.

Lemma forks_rounds n k : (∀ k p id a, id = CLONE → (∀ ar, ar ∈ areas (address_space p) → ar.2 - ar.1 ≤ Z.of_nat 8) → call_ok k p id a) →
  forks n k = true → rounds demo_mode serve (calls_ok call_ok) k [n] (state_after k (turn demo_mode serve k)).
Proof.
  intros Hok. unfold forks. intros [[Hnext Hct%Z.ltb_lt]%andb_prop Hturn]%andb_prop. unfold next_call in Hnext.
  destruct (on_processor PManager_find_next k) as [[[i|] k1]| |] eqn:Hk1; [|discriminate Hnext..].
  destruct (execute demo_mode i k1) as [[t k2]| |] eqn:Hk2; [|discriminate Hnext..].
  destruct (tasks k2 !! i) as [p|] eqn:Hp; [|discriminate Hnext]. simpl in Hnext.
  destruct (LocalContext_a 7 _) as [id| |] eqn:Hid; [|discriminate Hnext..].
  apply andb_prop in Hnext as [[Hi%Z.eqb_eq Hc%Z.eqb_eq]%andb_prop Hall]. subst i id.
  destruct (turn demo_mode serve k) as [[[] k']| |] eqn:Hd; [|discriminate Hturn..]. apply bool_decide_eq_true in Hturn.
  eapply rounds_cons; [|exact Hk1|exact Hd|exact Hturn|apply rounds_nil].
  split; [apply (Z.lt_trans _ 100 _ Hct); reflexivity|]. intros i k3 k4 H1 H2. rewrite Hk1 in H1. injection H1 as <- <-. rewrite Hk2 in H2. injection H2 as _ <-.
  intros q id args Hq ctx Hid' _. rewrite Hp in Hq. injection Hq as <-. unfold ctx in Hid'. rewrite Hid in Hid'. injection Hid' as <-.
  rewrite forallb_forall in Hall. apply Hok; [done|]. intros ar Har. specialize (Hall ar (proj1 (list_elem_of_In _ _) Har)). apply Z.leb_le in Hall. exact Hall.
Qed.
End Turns.

(** ** On a kernel with one program *)
Definition demo_parse (data : list Z) : option Vm.ElfFile := Some VmDemo.demo_elf.

(** The name of the program is one zero byte, which its own image holds. *)
Abbreviation demo_state := (kernel (StrideManager (Process Stride) (list StridePair)) (gmap (list Z) (list Z))).
Definition demo_kernel : demo_state :=
  mkKernel PManager_new 0 VmDemo.demo_first.1 {[ [0] := [] ]} demo_machine.

Lemma demo_programs found : programs_ok 8 demo_parse found.
Proof. intros name data elf _ [= <-]. apply VmDemo.demo_elf_ok. Qed.

(** The state after a run that answered, if it did. *)
Abbreviation after := (state_after demo_kernel).

Definition booted : demo_state := after (load_initproc 8 demo_parse [0] demo_kernel).

Lemma demo_unbooted : unbooted demo_kernel.
Proof. done. Qed.

Lemma init_boots_witness : ∃ p T, returned (load_initproc 8 demo_parse [0] demo_kernel) = true ∧
  first_process demo_kernel VmDemo.demo_elf booted p T ∧ byte_at (mc_mem (mach booted)) T 0x10005 = Some 22.
Proof.
  assert (returned (load_initproc 8 demo_parse [0] demo_kernel) = true) as Hd by (vm_compute; reflexivity).
  destruct (init_boots 8 demo_parse [0] [] VmDemo.demo_elf demo_kernel demo_unbooted eq_refl eq_refl VmDemo.demo_elf_ok eq_refl) as [[Hp _]|(k & p & T & Hk & F)];
    [rewrite Hp in Hd; discriminate Hd|].
  apply (state_after_eq demo_kernel) in Hk. fold booted in Hk. subst k. exists p, T. split; [exact Hd|split; [exact F|]].
  destruct (fp_program _ _ _ _ _ F) as [Hsegs _]. destruct (proj1 (Forall_singleton _ _) Hsegs) as [Hb _].
  etrans; [exact (Hb 5 ltac:(split; vm_compute; congruence))|reflexivity].
Defined.

(** The first process was chosen. *)
Definition demo_run : demo_state := after (on_processor PManager_find_next booted).

(** What the witnesses need of the process that [o] holds. *)
Definition task_fits (o : option (Process Stride)) : bool :=
  match o with
  | Some p => (length (ctx_x (f_context (context p))) =? 31)%nat && forallb (fun ar => ar.2 - ar.1 <=? 8) (areas (address_space p))
  | None => false
  end.

Lemma task_fits_spec o : task_fits o = true → ∃ p, o = Some p ∧ ctx_wf (f_context (context p)) ∧
  ∀ ar, ar ∈ areas (address_space p) → ar.2 - ar.1 ≤ Z.of_nat 8.
Proof.
  destruct o as [p|]; [|done]. simpl. intros [Hl%Nat.eqb_eq Ha]%andb_prop. exists p. split_and!; [done|done|].
  rewrite forallb_forall in Ha. intros ar Har. specialize (Ha ar (proj1 (list_elem_of_In _ _) Har)). apply Z.leb_le in Ha. lia.
Qed.

(** A call that answers [r]. *)
Definition answers (r : Z) (o : outcome (Z * demo_state)) : bool := if o is Done (x, _) then x =? r else false.

Lemma demo_running : ∃ p T, fork_inv [EvNext (Some 0)] demo_run {[0 := T]} ∧ ProcManage.current (processor demo_run) = Some 0 ∧
  tasks demo_run !! 0 = Some p ∧ ctx_wf (f_context (context p)) ∧ (∀ ar, ar ∈ areas (address_space p) → ar.2 - ar.1 ≤ Z.of_nat 8) ∧
  VmBoot.has_program (Vm.mkKernel [] (mach demo_run)) (vm_of p) T VmDemo.demo_elf ∧ pid_counter demo_run = 1 ∧
  more demo_run = {[ [0] := [] ]}.
Proof.
  assert (returned (load_initproc 8 demo_parse [0] demo_kernel) = true) as Hd by (vm_compute; reflexivity).
  destruct (load_initproc_run 8 demo_parse [0] [] VmDemo.demo_elf demo_kernel demo_unbooted eq_refl eq_refl VmDemo.demo_elf_ok eq_refl) as [[Hp _]|(k & p & T & Hk & F)];
    [rewrite Hp in Hd; discriminate Hd|].
  apply (state_after_eq demo_kernel) in Hk. fold booted in Hk. subst k. clear Hd.
  assert ((if on_processor PManager_find_next booted is Done (Some 0, _) then true else false) = true) as Hn by (vm_compute; reflexivity).
  destruct (on_processor PManager_find_next booted) as [[o k]| |] eqn:Hk; [|discriminate Hn..].
  destruct o as [[| |]|]; [|discriminate Hn..]. clear Hn. pose proof (state_after_eq demo_kernel _ _ _ Hk) as E. fold demo_run in E. subst k.
  destruct (chosen_run [] booted _ 0 demo_run (fp_inv _ _ _ _ _ F) (fp_idle _ _ _ _ _ F) Hk) as [Hi (q & st & Hq & Ht) Hc (Hap & Hm & Hct)]. clear Hk.
  rewrite (fp_tasks _ _ _ _ _ F) in Hq, Ht. apply lookup_singleton_Some in Hq as [_ <-]. exists (set_extra st p), T.
  destruct (task_fits_spec (tasks demo_run !! 0)) as (q & Hq & Hwf & Har); [vm_compute; reflexivity|].
  assert (tasks demo_run !! 0 = Some (set_extra st p)) as Hp by (by rewrite Ht, lookup_insert_eq).
  rewrite Hp in Hq. injection Hq as <-. split; [exact Hi|split; [exact Hc|split; [exact Hp|split; [exact Hwf|split; [exact Har|split; [|split]]]]]].
  - rewrite Hm. exact (fp_program _ _ _ _ _ F).
  - rewrite Hct. exact (fp_counter _ _ _ _ _ F).
  - rewrite Hap. exact (fp_more _ _ _ _ _ F).
Qed.

(** The child has the bytes of the program. *)
Lemma fork_spec_witness : ∃ c T' k', fork 8 demo_run = Done (1, k') ∧ tasks k' !! 1 = Some c ∧ LocalContext_a 0 (f_context (context c)) = Done 0 ∧
  byte_at (mc_mem (mach k')) T' 0x10005 = Some 22.
Proof.
  destruct demo_running as (p & T & Hi & Hc & Hp & Hwf & Har & (Hsegs & Hin & _) & Hct & _).
  assert (answers 1 (fork 8 demo_run) = true) as Hd by (vm_compute; reflexivity).
  destruct (fork_spec 8 _ demo_run _ 0 p T Hi Hc Hp (lookup_singleton_eq _ _)) as [[Hpn _]|(c & T' & k' & Hr & _ & _ & Ht & _ & _ & _ & Ha & _ & _ & _ & _ & Hs & _)];
    [rewrite Hct; reflexivity|exact Hwf|exact Har|rewrite Hpn in Hd; discriminate Hd|].
  rewrite Hct in Hr, Ht. exists c, T', k'. split; [exact Hr|]. clear Hr Hd. split; [by rewrite Ht, lookup_insert_eq|split; [exact Ha|]].
  destruct (proj1 (Forall_singleton _ _) Hsegs) as [Hb _]. pose proof (proj1 (Forall_singleton _ _) Hin) as Hseg.
  destruct (Hs 0x10005) as [Hsame _].
  - exists (seg_range (Vm.mkProgramHeader true 4 3 0x10004 5000 true false true)). split; [exact Hseg|split; vm_compute; congruence].
  - rewrite Hsame. etrans; [exact (Hb 5 ltac:(split; vm_compute; congruence))|reflexivity].
Defined.

(** The process runs its own program again, in new pages; pid 1 is used up. *)
Lemma exec_spec_witness : ∃ c T' k', exec 8 demo_parse 0x10010 1 demo_run = Done (0, k') ∧ tasks k' !! 0 = Some c ∧ pid c = 0 ∧ pid_counter k' = 2 ∧
  byte_at (mc_mem (mach k')) T' 0x10005 = Some 22.
Proof.
  destruct demo_running as (p & T & Hi & Hc & Hp & _ & _ & (Hsegs & Hin & _) & Hct & Hap).
  pose proof (exec_spec 8 demo_parse 0x10010 1 _ demo_run _ 0 p T Hi Hc Hp (lookup_singleton_eq _ _)) as Hs.
  assert (answers 0 (exec 8 demo_parse 0x10010 1 demo_run) = true) as Hd by (vm_compute; reflexivity).
  rewrite Hct in Hs. specialize (Hs ltac:(reflexivity) (demo_programs _) ltac:(lia)).
  change (Vm.mach (Vm.mkKernel [] (mach demo_run))) with (mach demo_run) in Hsegs.
  destruct (proj1 (Forall_singleton _ _) Hsegs) as [Hb Hf]. specialize (Hf 16 ltac:(split; vm_compute; congruence)).
  specialize (Hb 16 ltac:(split; vm_compute; congruence)). change (_ + 16) with 0x10010 in Hb. unfold byte_at in Hb.
  change (0x10010 / page_size) with 16 in *. change (0x10010 mod page_size) with 16 in *. cbv zeta in Hs.
  destruct (mapping (mc_mem (mach demo_run)) T 16) as [pte|]; [|discriminate Hf].
  cbn [fmap option_fmap option_map mbind option_bind] in Hs, Hf, Hb. apply (inj Some) in Hf, Hb.
  assert (mem_read (mc_mem (mach demo_run)) (pte_ppn pte * page_size + 16) (Z.to_nat 1) = [0]) as Hname.
  { unfold mem_read. change (seqZ (pte_ppn pte * page_size + 16) (Z.of_nat (Z.to_nat 1))) with [Z.of_nat 0 + (pte_ppn pte * page_size + 16)].
    cbn [fmap list_fmap]. rewrite Z.add_0_l, Hb. reflexivity. }
  rewrite Hf, Hname in Hs. unfold apps in Hs. rewrite Hap, lookup_singleton_eq in Hs. rewrite option_guard_True in Hs by (vm_compute; reflexivity). simpl in Hs.
  destruct Hs as [[Hpn _]|(c & T' & k' & Hr & [_ Ht Hpid _ _ _ Hn Hprog _ _ _])]; [rewrite Hpn in Hd; discriminate Hd|].
  exists c, T', k'. split; [exact Hr|]. clear Hr Hd. destruct (fi_tasks _ _ _ Hi 0 p Hp) as [Hpid0 _ _].
  split; [by rewrite Ht, lookup_insert_eq|split; [by rewrite Hpid|split; [exact Hn|]]].
  destruct Hprog as [Hsegs' _]. destruct (proj1 (Forall_singleton _ _) Hsegs') as [Hb' _].
  etrans; [exact (Hb' 5 ltac:(split; vm_compute; congruence))|reflexivity].
Defined.

(** The first process waits for a child that it does not have. *)
Lemma wait_spec_witness : ∃ k', wait (-1) 0x10010 demo_run = Done (-1, k') ∧ mc_mem (mach k') = mc_mem (mach demo_run).
Proof.
  destruct demo_running as (p & T & Hi & Hc & Hp & _).
  destruct (wait_spec _ demo_run _ 0 p T (-1) 0x10010 Hi Hc Hp (lookup_singleton_eq _ _)) as (r & o & r' & k' & Hr & Heff & Hd & _ & _ & _ & Hm);
    [split; [lia|vm_compute; congruence]|].
  assert (answers (-1) (wait (-1) 0x10010 demo_run) = true) as Ha by (vm_compute; reflexivity). rewrite Hd in Ha. simpl in Ha.
  destruct o as [d|]; [|exists k'; split; [exact Hd|exact Hm]]. exfalso. clear Hd Hm k'.
  assert (rel_map (processor demo_run) !! 0 = Some (ProcRel_new usize_max)) as Hr0 by (vm_compute; reflexivity).
  rewrite Hr0 in Hr. injection Hr as <-. inversion Heff as [| Hany |? ? ? ? HP].
  - destruct (Hany eq_refl) as [Hn _]. by apply Hn.
  - simpl in HP. by apply Permutation_nil_cons in HP.
Defined.

Definition demo_turn : st demo_state bool := turn demo_mode (user_env_call (registry 8 demo_parse demo_getchar)).

Lemma forks_round n k : forks (user_env_call (registry 8 demo_parse demo_getchar)) n k = true → app_rounds 8 demo_parse demo_getchar demo_mode k [n] (state_after k (demo_turn k)).
Proof.
  apply (forks_rounds _ (fun _ => call_ok 8)). intros q p id a -> Har. split; try discriminate. intros ar _. apply Har.
Qed.

Definition one_fork : demo_state := state_after booted (demo_turn booted).
Definition two_forks : demo_state := state_after one_fork (demo_turn one_fork).

(** Process 0 forks, then process 1 does: process 0 is as it was before the second round. *)
Lemma fork_isolation_witness : ∃ h TT p T, app_rounds 8 demo_parse demo_getchar demo_mode one_fork [1] two_forks ∧
  fork_inv h two_forks TT ∧ tasks one_fork !! 0 = Some p ∧ tasks two_forks !! 0 = Some p ∧
  ∀ addr, in_areas (addr / page_size) (areas (address_space p)) →
    byte_at (mc_mem (mach two_forks)) T addr = byte_at (mc_mem (mach one_fork)) T addr.
Proof.
  assert (returned (load_initproc 8 demo_parse [0] demo_kernel) = true) as Hd by (vm_compute; reflexivity).
  destruct (load_initproc_run 8 demo_parse [0] [] VmDemo.demo_elf demo_kernel demo_unbooted eq_refl eq_refl VmDemo.demo_elf_ok eq_refl) as [[Hp _]|(k & p0 & T0 & Hk & F)];
    [rewrite Hp in Hd; discriminate Hd|].
  apply (state_after_eq demo_kernel) in Hk. fold booted in Hk. subst k. clear Hd.
  assert (app_rounds 8 demo_parse demo_getchar demo_mode booted [0] one_fork) as R1 by (apply forks_round; vm_compute; reflexivity).
  assert (app_rounds 8 demo_parse demo_getchar demo_mode one_fork [1] two_forks) as R2 by (apply forks_round; vm_compute; reflexivity).
  destruct (fork_isolation 8 demo_parse demo_getchar demo_mode [] booted _ [0] one_fork demo_user_mode demo_only_reads
    (fp_inv _ _ _ _ _ F) (fp_idle _ _ _ _ _ F) (demo_programs _) R1) as (h1 & TT1 & Hi1 & Hc1 & _).
  destruct (fork_isolation 8 demo_parse demo_getchar demo_mode _ one_fork TT1 [1] two_forks demo_user_mode demo_only_reads
    Hi1 Hc1 (demo_programs _) R2) as (h2 & TT2 & Hi2 & _ & Hkept).
  destruct (task_fits_spec (tasks one_fork !! 0)) as (p & Hp & _ & _); [vm_compute; reflexivity|].
  destruct (family_tables _ _ _ _ _ (fi_family _ _ _ Hi1) (inv_space _ _ _ 0 p Hi1 Hp)) as [T HT].
  destruct (Hkept 0 p T) as ((? & Hp' & <-) & _ & _ & Hb); [by intros [? | Hn]%elem_of_cons; [|by apply elem_of_nil in Hn]|exact Hp|exact HT|].
  exists (([] ++ h1) ++ h2), TT2, p, T. split; [exact R2|split; [exact Hi2|split; [exact Hp|split; [exact Hp'|exact Hb]]]].
Defined.
End ForkProps.
