(* ===== verification/Descriptors.v ===== *)
(** * Descriptors and files of a process

    What the kernels of ch6 and ch7 share ([tg-rcore-tutorial-ch6/src/{fs,process,main}.rs] and their copies in ch7): the
    file system behind a lazy static, the table of descriptors of a process, and the calls that go through it.  The two
    chapters differ in what a descriptor is ([FileHandle] or [Fd]), so the calls are written for the operations of a
    class. *)

From Stdlib Require Import Ascii String.
From stdpp Require Import strings.
From S2P Require Import Prelude Bytes Memory KernelContext TaskRel ProcManage Schedulers Syscall PageTable AddressSpace SpaceTree PageManager BatchKernel TaskKernel VmKernel BlockStore Efs Vfs File ForkKernel.

Module Desc.
Import Fork.

(** ** The file system of the kernel

    [FS] is initialised by its first use. *)
Section Static.
Context {S : Type} `{!BlockStore S}.

Record FileSystem := mkFileSystem { efs : EasyFileSystem; root : Inode }.
Record files := mkFiles { fs : option FileSystem; blocks : S }.

Definition on_blocks {A} (f : st S A) : st files A := fun d =>
  '(a, b) ← f (blocks d);
  Done (a, mkFiles (fs d) b).
Definition FS : st files FileSystem :=
  d ← get_st;
  match fs d with
  | Some f => mret f
  | None =>
      e ← on_blocks EasyFileSystem_open;
      root ← lift (root_inode e);
      d ← get_st;
      put_st (mkFiles (Some (mkFileSystem e root)) (blocks d));;
      mret (mkFileSystem e root)
  end.

Definition FS_open (path : list Z) (flags : Z) : st files (option FileHandle) :=
  f ← FS; on_blocks (FileSystem_open (efs f) (root f) path flags).
Definition FS_readdir : st files (option (list (list Z))) :=
  f ← FS; on_blocks (FileSystem_readdir (root f)).
Definition FS_link (src dst : list Z) : st files Z :=
  f ← FS; on_blocks (FileSystem_link (efs f) (root f) src dst).
Definition FS_unlink (path : list Z) : st files Z :=
  f ← FS; on_blocks (FileSystem_unlink (efs f) (root f) path).
(** The inode of a handle has the file system it came from. *)
Definition handle_write (f : FileHandle) (buf : list (list Z)) : st files (Z * FileHandle) :=
  d ← FS; on_blocks (FileHandle_write (efs d) f buf).
End Static.
Arguments files S : clear implicits.

(** [String::push(ch as char)]: the character in UTF-8. *)
Definition char_bytes (ch : Z) : list Z :=
  if ch <? 128 then [ch] else [Z.lor 192 (Z.shiftr ch 6); Z.lor 128 (Z.land ch 63)].

(** ** What a descriptor is

    [X] is what the chapter puts into a process, with the table of its descriptors, of type [F].  [M] is the manager of
    the chapter and [Y] its state beside the processes; reading fills one slice, writing takes one. *)
Class FdTable (X F : Type) := {
  fd_table : X → list (option F);
  set_fd_table : list (option F) → X → X;
}.
Class Descriptors `{Heap} (S M Y F : Type) := {
  fd_of_file : FileHandle → F;
  fd_readable : F → bool;
  fd_writable : F → bool;
  fd_read : F → list Z → st (kernel M Y) (Z * F * list Z);
  fd_write : F → list Z → st (kernel M Y) (Z * F);
  on_files {A} : st (files S) A → st Y A;
}.

(** Entry [fd] of the running process, and one more at the end. *)
Section Table.
Context {X F : Type} `{!FdTable X F}.
Definition put_fd (fd : Z) (file : option F) (p : Process X) : Process X :=
  set_extra (set_fd_table (<[Z.to_nat fd := file]> (fd_table (extra p))) (extra p)) p.
Definition push_fd (file : F) (p : Process X) : Process X :=
  set_extra (set_fd_table (fd_table (extra p) ++ [Some file]) (extra p)) p.
End Table.

Section Calls.
Context `{PTC : PageTableCrate}.
Context {S X M Y F : Type} `{!BlockStore S, !ProcessExtra X, !Manage M (Process X), !Schedule M, !FdTable X F, !Descriptors S M Y F}.
Abbreviation kernel := (kernel M Y).
Abbreviation Process := (Process X).

(** The C string at [ptr], of fewer than [fuel] bytes. *)
Definition user_str (fuel : nat) (ptr : Z) : st kernel (list Z) :=
  k ← get_st;
  bytes ← lift (c_str fuel (mc_mem (mach k)) ptr);
  mret (concat (char_bytes <$> bytes)).

Section Fuel.
Variable fuel : nat.
(** [parse] is [ElfFile::new], [console_getchar] the call of the SBI. *)
Variable parse : list Z → option Vm.ElfFile.
Variable console_getchar : st world Z.

Definition write (fd buf count : Z) : st kernel Z :=
  current ← current_process;
  ptr ← user_ptr buf (build_flags "RV");
  match ptr with
  | Some ptr =>
      k ← get_st;
      let slice := mem_read (mc_mem (mach k)) ptr (Z.to_nat count) in
      if (fd =? STDOUT) || (fd =? STDDEBUG) then
        print slice;;
        mret (as_isize count)
      else
        file ← lift (unwrap (fd_table (extra current) !! Z.to_nat fd));
        match file with
        | Some file =>
            if fd_writable file then
              '(r, file) ← fd_write file slice;
              update_current (put_fd fd (Some file));;
              mret r
            else mret (-1)
        | None => mret (-1)
        end
  | None => mret (-1)
  end.

Definition read (fd buf count : Z) : st kernel Z :=
  current ← current_process;
  ptr ← user_ptr buf (build_flags "W_V");
  match ptr with
  | Some ptr =>
      if fd =? STDIN then
        on_machine (read_chars console_getchar (Z.to_nat count) ptr);;
        mret (as_isize count)
      else
        file ← lift (unwrap (fd_table (extra current) !! Z.to_nat fd));
        match file with
        | Some file =>
            if fd_readable file then
              k ← get_st;
              '(r, file, slice) ← fd_read file (mem_read (mc_mem (mach k)) ptr (Z.to_nat count));
              on_machine (mc_on_mem (mem_write ptr slice));;
              update_current (put_fd fd (Some file));;
              mret r
            else mret (-1)
        | None => mret (-1)
        end
  | None => mret (-1)
  end.

Definition open (path flags : Z) : st kernel Z :=
  current ← current_process;
  ptr ← user_ptr path (build_flags "RV");
  match ptr with
  | Some ptr =>
      string ← user_str fuel ptr;
      _ ← on_more (on_files FS);
      flags ← lift (unwrap (OpenFlags_from_bits (as_u32 flags)));
      fd ← on_more (on_files (FS_open string flags));
      match fd with
      | Some fd =>
          let new_fd := Z.of_nat (length (fd_table (extra current))) in
          update_current (push_fd (fd_of_file fd));;
          mret (as_isize new_fd)
      | None => mret (-1)
      end
  | None => mret (-1)
  end.

Definition close (fd : Z) : st kernel Z :=
  current ← current_process;
  match mjoin (fd_table (extra current) !! Z.to_nat fd) with
  | None => mret (-1)
  | Some _ =>
      update_current (put_fd fd None);;
      mret 0
  end.

(** ** Programs on the disk *)
Definition named_file (path count : Z) : st kernel (option FileHandle) :=
  ptr ← user_ptr path (build_flags "RV");
  match ptr with
  | Some ptr =>
      k ← get_st;
      on_more (on_files (FS_open (mem_read (mc_mem (mach k)) ptr (Z.to_nat count)) RDONLY))
  | None => mret None
  end.

(** [ElfFile::new(&read_all(fd)).unwrap()]; the file has fewer than [fuel] blocks. *)
Definition file_program (fd : FileHandle) : st kernel Vm.ElfFile :=
  data ← on_more (on_files (on_blocks (read_all fuel fd)));
  lift (unwrap (parse data)).

(** The names of the directory on the console, then an empty line. *)
Definition unknown_file : st kernel unit :=
  names ← on_more (on_files FS_readdir);
  names ← lift (unwrap names);
  print (concat ((fun name => name ++ [10]) <$> names) ++ [10]).

Definition exec (path count : Z) : st kernel Z :=
  fd ← named_file path count;
  match fd with
  | None => unknown_file;; mret (-1)
  | Some fd =>
      elf ← file_program fd;
      Process_exec fuel elf;;
      mret 0
  end.

Definition spawn (path count : Z) : st kernel Z :=
  fd ← named_file path count;
  match fd with
  | None => unknown_file;; mret (-1)
  | Some fd =>
      elf ← file_program fd;
      spawn_program fuel elf
  end.

(** ["initproc"]. *)
Definition initproc_name : list Z := [105; 110; 105; 116; 112; 114; 111; 99].

Definition load_initproc (new : M) : st kernel unit :=
  fd ← on_more (on_files (FS_open initproc_name RDONLY));
  fd ← lift (unwrap fd);
  elf ← file_program fd;
  first_program fuel new elf.
End Fuel.
End Calls.

(** ** The kernel's address space

    As in ch4 and ch5, and the registers of the block device. *)
Section Space.
Context `{PTC : PageTableCrate}.

Definition MMIO : list (Z * Z) := [(0x10001000, 0x001000)].

(** [for (base, len) in MMIO]. *)
Fixpoint map_mmio (fuel : nat) (l : list (Z * Z)) (sp : AddressSpace Sv39Manager) : st machine (AddressSpace Sv39Manager) :=
  match l with
  | [] => mret sp
  | (base, len) :: l' =>
      top ← lift (usize_add base len);
      let s := va_floor base in
      sp ← map_extern fuel (s, va_ceil top) s (build_flags "_WRV") sp;
      map_mmio fuel l' sp
  end.

Definition kernel_space (fuel : nat) (layout : Linker.KernelLayout) (memory portal : Z) : st machine (AddressSpace Sv39Manager) :=
  sp ← Vm.kernel_space fuel layout memory portal;
  map_mmio fuel MMIO sp.
End Space.
End Desc.
