(* ===== verification/DescCalls.v ===== *)
(** * The calls through the descriptor table keep the invariant

    What Descriptors.v does of the calls of ch6 and ch7: the answer and the state on every branch, and the invariant of
    ForkInvariant.v. *)

From Stdlib Require Import Ascii String.
From stdpp Require Import strings.
From S2P Require Import Prelude Bytes Memory KernelContext TaskRel ProcManage ProcTree ProcInvariant ProcSystem Schedulers Syscall PageTable AddressSpace SpaceTree SpaceMap SpaceInvariant PageManager BatchKernel TaskKernel VmKernel VmTheorems VmIsolation VmLoad VmBoot SpaceFamily BlockStore Efs Vfs File ForkKernel ForkInvariant ForkMaking ForkCalls ForkRounds Descriptors.

Module DescCalls.
Import Fork Desc Family SpaceRoot VmInv VmLoad ForkInv ForkMaking ForkCalls ForkRounds.

(** What the calls need of a chapter's descriptors: they touch no more than the state of the chapter. *)
Class DescriptorsOk `{PTC : PageTableCrate} (S X M Y F : Type) `{!BlockStore S, !FdTable X F, !Descriptors S M Y F, !MoreKept Y} := {
  more_free (y y' : Y) : more_kept y y';
  fd_table_set (l : list (option F)) (x : X) : fd_table (set_fd_table l x) = l;
  fd_read_more f slice k r f' slice' k' : fd_read f slice k = Done ((r, f', slice'), k') →
    length slice' = length slice ∧ ∃ y, k' = set_more y k;
  fd_write_more f slice k r f' k' : fd_write f slice k = Done ((r, f'), k') → ∃ y, k' = set_more y k;
}.

Section Calls.
Context `{PTC : PageTableCrate, HL : !HeapLaws, PTL : !PageTableLaws}.
Context {S X M Y F : Type} `{!BlockStore S, !ProcessExtra X, !Manage M (Process X), !ManageSpec M (Process X), !Schedule M, !ScheduleSpec M (Process X), PT : !ProcessTable X M, !MoreKept Y, !ExtraKept X}.
Context `{!FdTable X F, !Descriptors S M Y F, DOK : !DescriptorsOk S X M Y F}.
Abbreviation kernel := (kernel M Y).
Abbreviation Process := (Process X).
Implicit Types (k : kernel) (T U : gmap (list Z) Z) (TT : gmap Z (gmap (list Z) Z)) (p q : Process) (s : machine) (h : list pevent) (sp : AddressSpace Sv39Manager) (y : Y) (x : X).

Section Running.
Variables (h : list pevent) (k : kernel) (TT : gmap Z (gmap (list Z) Z)) (i : Z) (p : Process) (T : gmap (list Z) Z).
Hypothesis Hi : fork_inv h k TT.
Hypothesis Hc : ProcManage.current (processor k) = Some i.
Hypothesis Hp : tasks k !! i = Some p.
Hypothesis HT : TT !! i = Some T.

(** ** The chapter's state *)
Lemma more_inv y : fork_inv h (set_more y k) TT.
Proof. destruct Hi. by split. Qed.

Lemma more_others y : others_kept i k TT (set_more y k) TT.
Proof. by intros j q U _ Hq HU. Qed.

Lemma more_called y : called i h k TT (set_more y k).
Proof.
  eapply kept_called; [exact Hc|apply more_inv|apply more_others|apply more_free].
Qed.

(** What the chapter keeps of the process changed too, and the process was written to. *)
Lemma more_data_inv y x s : own_writes (mach k) s (address_space p) T →
  fork_inv h (retask i (set_extra x p) s (set_more y k)) TT ∧ others_kept i k TT (retask i (set_extra x p) s (set_more y k)) TT.
Proof.
  intros Hw. pose proof (more_inv y) as Hm. pose proof (fi_tasks _ _ _ Hi i p Hp) as [].
  by apply (data_inv h (set_more y k) TT i p T Hm Hp HT).
Qed.

Lemma more_data_called y x s : own_writes (mach k) s (address_space p) T →
  called i h k TT (retask i (set_extra x p) s (set_more y k)).
Proof.
  intros Hw. pose proof (more_inv y) as Hm. pose proof (fi_tasks _ _ _ Hi i p Hp) as [].
  apply (called_trans i h k TT (set_more y k) [] TT); rewrite ?app_nil_r; [done|apply kept_stay, more_others|apply more_free|].
  by apply (data_called h (set_more y k) TT i p T Hm Hc Hp HT).
Qed.

Lemma more_machine_inv y s : own_writes (mach k) s (address_space p) T →
  fork_inv h (set_mach s (set_more y k)) TT ∧ others_kept i k TT (set_mach s (set_more y k)) TT.
Proof.
  intros Hw. rewrite <-(retask_id h (set_more y k) TT i p (more_inv y) Hc Hp s).
  pose proof (more_data_inv y (extra p) s Hw) as Hd. replace (set_extra (extra p) p) with p in Hd by (by destruct p). exact Hd.
Qed.

Lemma more_machine_called y s : own_writes (mach k) s (address_space p) T → called i h k TT (set_mach s (set_more y k)).
Proof.
  intros Hw. pose proof (more_inv y) as Hm. rewrite <-(retask_id h (set_more y k) TT i p Hm Hc Hp s).
  pose proof (more_data_called y (extra p) s Hw) as Hd. replace (set_extra (extra p) p) with p in Hd by (by destruct p). exact Hd.
Qed.

(** ** Steps *)
Lemma user_ptr_run addr flags : 0 ≤ addr < 2 ^ 38 → user_ptr addr flags k = Done (place k T addr flags, k).
Proof.
  intros Ha. unfold user_ptr. rewrite (st_bind_run _ _ _ _ _ (current_run h k TT i p Hi Hc Hp)), (st_bind_run get_st _ _ _ _ eq_refl).
  by rewrite (translate_user (mach k) (address_space p) T addr flags (running_space h k TT i p T Hi Hp HT) Ha).
Qed.

Lemma place_translate addr flags ptr : 0 ≤ addr < 2 ^ 38 → place k T addr flags = Some ptr →
  translate addr flags (address_space p) (mc_mem (mach k)) = Done (Some ptr).
Proof. intros Ha <-. by apply translate_user, Ha; eapply running_space. Qed.

Lemma put_more_run f y s : update_current f (set_mach s (set_more y k)) = Done ((), retask i (f p) s (set_more y k)).
Proof. exact (update_made h (set_more y k) TT i p (more_inv y) Hc Hp f (pid_counter k) s). Qed.

(** A store at a place that the process may write. *)
Lemma place_writes addr ptr bs : buffer_ok addr (Z.of_nat (length bs)) → place k T addr (build_flags "W_V") = Some ptr →
  own_writes (mach k) (mc_set_mem (mem_write ptr bs (mc_mem (mach k))) (mach k)) (address_space p) T.
Proof.
  intros [Ha Hn] Hpl. eapply (written_own _ _ _ _ addr (build_flags "W_V") ptr); [by eapply running_space|done|exact Hn|by apply place_translate|].
  apply write_written.
Qed.

(** ** [read] and [write], on every branch *)
Lemma read_eq getchar fd buf count : 0 ≤ buf < 2 ^ 38 → read getchar fd buf count k =
  match place k T buf (build_flags "W_V") with
  | None => Done (-1, k)
  | Some ptr =>
      if fd =? STDIN then
        '(_, s) ← read_chars getchar (Z.to_nat count) ptr (mach k);
        Done (as_isize count, set_mach s k)
      else
        file ← unwrap (fd_table (extra p) !! Z.to_nat fd);
        match file with
        | Some file =>
            if fd_readable file then
              '(r, file, slice, k1) ← fd_read file (mem_read (mc_mem (mach k)) ptr (Z.to_nat count)) k;
              Done (r, retask i (put_fd fd (Some file) p) (mc_set_mem (mem_write ptr slice (mc_mem (mach k))) (mach k)) k1)
            else Done (-1, k)
        | None => Done (-1, k)
        end
  end.
Proof.
  intros Ha. unfold read. rewrite (st_bind_run _ _ _ _ _ (current_run h k TT i p Hi Hc Hp)), (st_bind_run _ _ _ _ _ (user_ptr_run buf _ Ha)).
  destruct (place k T buf (build_flags "W_V")) as [ptr|]; [|done]. destruct (fd =? STDIN).
  { unfold mbind at 1, st_bind, on_machine. by destruct (read_chars getchar (Z.to_nat count) ptr (mach k)) as [[u s]| |]. }
  destruct (fd_table (extra p) !! Z.to_nat fd) as [[file|]|]; [|done|done]. simpl. unfold mbind at 1, st_bind, lift. simpl.
  destruct (fd_readable file); [|done]. unfold mbind at 1, st_bind, get_st, lift. simpl. unfold mbind at 1, st_bind.
  destruct (fd_read file (mem_read (mc_mem (mach k)) ptr (Z.to_nat count)) k) as [[[[r f'] sl] k1]| |] eqn:Hr; [|done|done].
  apply fd_read_more in Hr as (_ & y & ->). set (s := mc_set_mem (mem_write ptr sl (mc_mem (mach k))) (mach k)).
  assert (on_machine (mc_on_mem (mem_write ptr sl)) (set_more y k) = Done ((), set_mach s (set_more y k))) as E by done.
  simpl. rewrite (st_bind_run _ _ _ _ _ E), (st_bind_run _ _ _ _ _ (put_more_run _ y s)). done.
Qed.

Lemma write_eq fd buf count : 0 ≤ buf < 2 ^ 38 → write fd buf count k =
  match place k T buf (build_flags "RV") with
  | None => Done (-1, k)
  | Some ptr =>
      let slice := mem_read (mc_mem (mach k)) ptr (Z.to_nat count) in
      if (fd =? STDOUT) || (fd =? STDDEBUG) then
        Done (as_isize count, set_mach (mkMachine (print_bytes slice (mc_world (mach k))) (mc_heap (mach k))) k)
      else
        file ← unwrap (fd_table (extra p) !! Z.to_nat fd);
        match file with
        | Some file =>
            if fd_writable file then
              '(r, file, k1) ← fd_write file slice k;
              Done (r, retask i (put_fd fd (Some file) p) (mach k) k1)
            else Done (-1, k)
        | None => Done (-1, k)
        end
  end.
Proof.
  intros Ha. unfold write. rewrite (st_bind_run _ _ _ _ _ (current_run h k TT i p Hi Hc Hp)), (st_bind_run _ _ _ _ _ (user_ptr_run buf _ Ha)).
  destruct (place k T buf (build_flags "RV")) as [ptr|]; [|done]. rewrite (st_bind_run get_st _ _ _ _ eq_refl).
  cbv zeta. destruct ((fd =? STDOUT) || (fd =? STDDEBUG)); [done|].
  destruct (fd_table (extra p) !! Z.to_nat fd) as [[file|]|]; [|done|done]. simpl. unfold mbind at 1, st_bind, lift. simpl.
  destruct (fd_writable file); [|done]. unfold mbind at 1, st_bind.
  destruct (fd_write file (mem_read (mc_mem (mach k)) ptr (Z.to_nat count)) k) as [[[r f'] k1]| |] eqn:Hr; [|done|done].
  apply fd_write_more in Hr as (y & ->). simpl.
  replace (set_more y k) with (set_mach (mach k) (set_more y k)) at 1 by done. by rewrite (st_bind_run _ _ _ _ _ (put_more_run _ y (mach k))).
Qed.

Lemma read_called getchar fd buf count r k' : only_reads getchar → buffer_ok buf count → read getchar fd buf count k = Done (r, k') → called i h k TT k'.
Proof.
  intros Hg Hb Hd. rewrite (read_eq getchar fd buf count (proj1 Hb)) in Hd.
  destruct (place k T buf (build_flags "W_V")) as [ptr|] eqn:Hpl; [|injection Hd as _ <-; by apply same_called].
  pose proof (Z.mod_pos_bound buf page_size ltac:(done)) as Hmod. destruct Hb as [Ha Hn].
  assert (buffer_ok buf (Z.of_nat (Z.to_nat count))) as Hb by (split; [done|lia]).
  destruct (fd =? STDIN).
  { apply bind_Done in Hd as ([[] s] & Hr & [= _ <-]). apply read_chars_written in Hr; [|done].
    eapply (store_called h k TT i p T Hi Hc Hp HT buf); [exact Hb|by apply place_translate|exact Hr]. }
  apply bind_Done in Hd as (file & Hf & Hd). destruct file as [file|]; [|injection Hd as _ <-; by apply same_called].
  destruct (fd_readable file); [|injection Hd as _ <-; by apply same_called].
  apply bind_Done in Hd as ([[[r' f'] sl] k1] & Hr & [= _ <-]). apply fd_read_more in Hr as (Hl & y & ->).
  apply more_data_called, (place_writes buf); [|done]. by rewrite Hl, mem_read_length.
Qed.

Lemma write_called fd buf count r k' : 0 ≤ buf < 2 ^ 38 → write fd buf count k = Done (r, k') → called i h k TT k'.
Proof.
  intros Ha Hd. rewrite (write_eq fd buf count Ha) in Hd.
  destruct (place k T buf (build_flags "RV")) as [ptr|]; [|injection Hd as _ <-; by apply same_called]. cbv zeta in Hd.
  destruct ((fd =? STDOUT) || (fd =? STDDEBUG)); [injection Hd as _ <-; by eapply idle_called|].
  apply bind_Done in Hd as (file & Hf & Hd). destruct file as [file|]; [|injection Hd as _ <-; by apply same_called].
  destruct (fd_writable file); [|injection Hd as _ <-; by apply same_called].
  apply bind_Done in Hd as ([[r' f'] k1] & Hr & [= _ <-]). apply fd_write_more in Hr as (y & ->).
  by apply more_data_called, own_idle.
Qed.

(** ** [open] and [close], on every branch *)
Lemma on_more_Done {A} (f : st Y A) (k0 : kernel) a k' : on_more f k0 = Done (a, k') → ∃ y, f (more k0) = Done (a, y) ∧ k' = set_more y k0.
Proof. unfold on_more. intros ([b y] & Hf & [= <- <-])%bind_Done. by exists y. Qed.

Lemma open_eq fuel path flags : 0 ≤ path < 2 ^ 38 → open fuel path flags k =
  match place k T path (build_flags "RV") with
  | None => Done (-1, k)
  | Some ptr =>
      bytes ← c_str fuel (mc_mem (mach k)) ptr;
      '(_, y) ← on_files FS (more k);
      flags ← unwrap (OpenFlags_from_bits (as_u32 flags));
      '(fd, y) ← on_files (FS_open (concat (char_bytes <$> bytes)) flags) y;
      match fd with
      | Some fd => Done (as_isize (Z.of_nat (length (fd_table (extra p)))), retask i (push_fd (fd_of_file fd) p) (mach k) (set_more y k))
      | None => Done (-1, set_more y k)
      end
  end.
Proof.
  intros Ha. unfold open. rewrite (st_bind_run _ _ _ _ _ (current_run h k TT i p Hi Hc Hp)), (st_bind_run _ _ _ _ _ (user_ptr_run path _ Ha)).
  destruct (place k T path (build_flags "RV")) as [ptr|]; [|done].
  unfold user_str, mbind, st_bind, get_st, lift, mret, st_ret, on_more, option_bind, outcome_bind. simpl.
  destruct (c_str fuel (mc_mem (mach k)) ptr) as [bytes| |]; simpl; [|done|done].
  destruct (on_files FS (more k)) as [[f y]| |]; simpl; [|done|done].
  destruct (OpenFlags_from_bits (as_u32 flags)) as [fl|]; simpl; [|done].
  destruct (on_files (FS_open _ fl) y) as [[[fd|] y']| |]; simpl; [|done..].
  change (set_more y' (set_more y k)) with (set_mach (mach k) (set_more y' k)). by rewrite put_more_run.
Qed.

Lemma close_eq fd : close fd k =
  match mjoin (fd_table (extra p) !! Z.to_nat fd) with
  | None => Done (-1, k)
  | Some _ => Done (0, retask i (put_fd fd None p) (mach k) k)
  end.
Proof.
  unfold close. rewrite (st_bind_run _ _ _ _ _ (current_run h k TT i p Hi Hc Hp)).
  destruct (mjoin (fd_table (extra p) !! Z.to_nat fd)) as [file|]; [|done].
  by rewrite (st_bind_run _ _ _ _ _ (update_current_run h k TT i p _ Hi Hc Hp)).
Qed.

Lemma open_called fuel path flags r k' : 0 ≤ path < 2 ^ 38 → open fuel path flags k = Done (r, k') → called i h k TT k'.
Proof.
  intros Ha Hd. rewrite (open_eq fuel path flags Ha) in Hd.
  destruct (place k T path (build_flags "RV")) as [ptr|]; [|injection Hd as _ <-; by apply same_called].
  apply bind_Done in Hd as (bytes & _ & Hd). apply bind_Done in Hd as ([f y] & _ & Hd).
  apply bind_Done in Hd as (fl & _ & Hd). apply bind_Done in Hd as ([[fd|] y'] & _ & Hd).
  - injection Hd as _ <-. by apply more_data_called, own_idle.
  - injection Hd as _ <-. apply more_called.
Qed.

Lemma close_called fd r k' : close fd k = Done (r, k') → called i h k TT k'.
Proof.
  rewrite close_eq. destruct (mjoin _); intros [= _ <-]; [by eapply extra_called|by apply same_called].
Qed.
End Running.

(** ** Programs on the disk *)

(** The program that a call would start. *)
Definition program_ok (fuel : nat) (parse : list Z → option Vm.ElfFile) (path count : Z) k : Prop := ∀ fd k1 elf k2,
  named_file path count k = Done (Some fd, k1) → file_program fuel parse fd k1 = Done (elf, k2) → elf_ok fuel elf.

Lemma named_file_more path count h k TT i p r k' : fork_inv h k TT → ProcManage.current (processor k) = Some i → tasks k !! i = Some p →
  named_file path count k = Done (r, k') → ∃ y, k' = set_more y k.
Proof.
  intros Hi Hc Hp Hd. unfold named_file, user_ptr in Hd.
  apply st_bind_Done in Hd as (ptr & k1 & H1 & Hd). rewrite (st_bind_run _ _ _ _ _ (current_run h k TT i p Hi Hc Hp)), (st_bind_run get_st _ _ _ _ eq_refl) in H1.
  unfold lift in H1. destruct (translate _ _ _ _) as [o| |]; [|done|done]. injection H1 as -> <-.
  destruct ptr as [ptr|]; [|injection Hd as _ <-; exists (more k); by destruct k].
  rewrite (st_bind_run get_st _ _ _ _ eq_refl) in Hd. apply on_more_Done in Hd as (y & _ & ->). by exists y.
Qed.

Lemma file_program_more fuel parse fd k elf k' : file_program fuel parse fd k = Done (elf, k') → ∃ y, k' = set_more y k.
Proof.
  unfold file_program. intros Hd. apply st_bind_Done in Hd as (data & k1 & (y & _ & ->)%on_more_Done & Hd).
  unfold lift in Hd. destruct (unwrap (parse data)); try done. injection Hd as _ <-. by exists y.
Qed.

Lemma unknown_file_called h k TT i p T u k' : fork_inv h k TT → ProcManage.current (processor k) = Some i → tasks k !! i = Some p →
  TT !! i = Some T → unknown_file k = Done (u, k') → called i h k TT k'.
Proof.
  intros Hi Hc Hp HT Hd. unfold unknown_file in Hd. apply st_bind_Done in Hd as (names & k1 & (y & _ & ->)%on_more_Done & Hd).
  unfold lift, mbind at 1, st_bind in Hd. destruct (unwrap names) as [l| |]; [|done|done]. simpl in Hd.
  unfold print, on_machine in Hd. injection Hd as _ <-.
  apply (more_machine_called h k TT i p T Hi Hc Hp HT y). by apply (own_idle k p T).
Qed.

(** What follows when a file was found. *)
Lemma found_called fuel parse fd h k TT i p T y {A} (f : Vm.ElfFile → st kernel A) (r : A) k' : fork_inv h k TT →
  ProcManage.current (processor k) = Some i → tasks k !! i = Some p → TT !! i = Some T →
  (∀ elf k2, file_program fuel parse fd (set_more y k) = Done (elf, k2) → elf_ok fuel elf) →
  (∀ elf y k', elf_ok fuel elf → f elf (set_more y k) = Done (r, k') → called i h (set_more y k) TT k') →
  (elf ← file_program fuel parse fd; f elf) (set_more y k) = Done (r, k') → called i h k TT k'.
Proof.
  intros Hi Hc Hp HT Helf Hf Hd. apply st_bind_Done in Hd as (elf & k2 & H1 & Hd). pose proof (Helf _ _ H1) as Hok.
  apply file_program_more in H1 as (y2 & ->). change (set_more y2 (set_more y k)) with (set_more y2 k) in Hd.
  apply (called_trans i h k TT (set_more y2 k) [] TT); rewrite ?app_nil_r; [by eapply more_inv|apply kept_stay, more_others|apply more_free|].
  by eapply Hf.
Qed.

Lemma exec_file_called fuel parse path count h k TT i p T r k' : fork_inv h k TT → ProcManage.current (processor k) = Some i → tasks k !! i = Some p →
  TT !! i = Some T → pid_counter k < still_running → program_ok fuel parse path count k →
  exec fuel parse path count k = Done (r, k') → called i h k TT k'.
Proof.
  intros Hi Hc Hp HT Hn Hok Hd. unfold exec in Hd. apply st_bind_Done in Hd as (o & k1 & H1 & Hd).
  destruct (named_file_more path count h k TT i p o k1 Hi Hc Hp H1) as (y & ->). pose proof (more_inv h k TT Hi y) as Hi1.
  destruct o as [fd|].
  - eapply (found_called fuel parse fd h k TT i p T y (fun elf => Process_exec fuel elf;; mret 0)); [done..| | |exact Hd]; [by eauto|].
    intros elf y2 k2 Helf H2. apply st_bind_Done in H2 as (u & k3 & H2 & [= _ <-]).
    eapply (exec_called fuel elf h (set_more y2 k) TT i p T); try done. by eapply more_inv.
  - apply st_bind_Done in Hd as (u & k2 & Hd & [= _ <-]).
    apply (called_trans i h k TT (set_more y k) [] TT); rewrite ?app_nil_r; [done|apply kept_stay, more_others|apply more_free|].
    by eapply (unknown_file_called h (set_more y k) TT i p T).
Qed.

Lemma spawn_file_called fuel parse path count h k TT i p T r k' : fork_inv h k TT → ProcManage.current (processor k) = Some i → tasks k !! i = Some p →
  TT !! i = Some T → pid_counter k < still_running → program_ok fuel parse path count k →
  spawn fuel parse path count k = Done (r, k') → called i h k TT k'.
Proof.
  intros Hi Hc Hp HT Hn Hok Hd. unfold spawn in Hd. apply st_bind_Done in Hd as (o & k1 & H1 & Hd).
  destruct (named_file_more path count h k TT i p o k1 Hi Hc Hp H1) as (y & ->). pose proof (more_inv h k TT Hi y) as Hi1.
  destruct o as [fd|].
  - eapply (found_called fuel parse fd h k TT i p T y (fun elf => spawn_program fuel elf)); [done..| | |exact Hd]; [by eauto|].
    intros elf y2 k2 Helf H2. eapply (spawn_called fuel elf h (set_more y2 k) TT i p T); try done. by eapply more_inv.
  - apply st_bind_Done in Hd as (u & k2 & Hd & [= _ <-]).
    apply (called_trans i h k TT (set_more y k) [] TT); rewrite ?app_nil_r; [done|apply kept_stay, more_others|apply more_free|].
    by eapply (unknown_file_called h (set_more y k) TT i p T).
Qed.
End Calls.
End DescCalls.
