(* ===== verification/FileKernel.v ===== *)
(** * The kernel with a file system

    Models [tg-rcore-tutorial-ch6/src/{main,process,fs}.rs]: the kernel of ch5 with a table of file handles in every process and
    the programs on a disk.  What it shares with ch5 is in ForkKernel.v, the calls through the table in Descriptors.v. *)

From Stdlib Require Import Ascii String.
From stdpp Require Import strings.
From S2P Require Import Prelude Bytes Memory Linker KernelContext TaskRel ProcManage Schedulers Syscall PageTable AddressSpace SpaceTree PageManager BatchKernel TaskKernel VmKernel BlockStore Efs Vfs File ForkKernel Descriptors.

Module Files.
Import Fork Desc.

(** ** Processes *)
Record FileExtra := mkFileExtra {
  handles : list (option FileHandle);
  stride : Stride;
}.

Definition set_handles (l : list (option FileHandle)) (x : FileExtra) : FileExtra := mkFileExtra l (stride x).

(** stdin, stdout and stderr, without a file. *)
Definition standard_handles : list (option FileHandle) :=
  [Some (FileHandle_empty true false); Some (FileHandle_empty false true); Some (FileHandle_empty false true)].

(** [for fd in self.fd_table.iter_mut()]: each handle is cloned. *)
Definition clone_table {F} (l : list (option F)) : list (option F) :=
  (fun fd => match fd with Some file => Some file | None => None end) <$> l.

#[export] Instance file_extra : ProcessExtra FileExtra := {|
  extra_new := mkFileExtra standard_handles Stride_new;
  extra_fork x := mkFileExtra (clone_table (handles x)) Stride_new;
|}.
#[export] Instance file_stride : HasStride FileExtra :=
  {| stride_of := stride; with_stride s x := mkFileExtra (handles x) s; stride_with s x := eq_refl |}.
#[export] Instance file_table : FdTable FileExtra FileHandle := {| fd_table := handles; set_fd_table := set_handles |}.

(** ** Metadata of a file ([Stat] of the system call library) *)
Record Stat := mkStat { dev : Z; ino : Z; mode : Z; nlink : Z }.
Definition StatMode_NULL : Z := 0.
Definition StatMode_DIR : Z := 0x4000.
Definition StatMode_FILE : Z := 0x8000.
Definition Stat_new : Stat := mkStat 0 0 StatMode_NULL 0.
(** [repr(C)], with seven words of padding. *)
Definition Stat_bytes (s : Stat) : list Z :=
  le_encode 8 (dev s) ++ le_encode 8 (ino s) ++ le_encode 4 (mode s) ++ le_encode 4 (nlink s) ++ replicate 56 0.

(** ** The kernel *)
Section Kernel.
Context `{PTC : PageTableCrate}.
Context {S Q : Type} `{!BlockStore S, !BinaryHeap Q StridePair pair_le}.
Abbreviation Process := (Process FileExtra).
Abbreviation kernel := (kernel (StrideManager Process Q) (files S)).
Implicit Types (k : kernel).

#[export] Instance file_descriptors : Descriptors S (StrideManager Process Q) (files S) FileHandle := {|
  fd_of_file f := f;
  fd_readable := FileHandle_readable;
  fd_writable := FileHandle_writable;
  fd_read f slice :=
    '(r, f, buf) ← on_more (on_blocks (FileHandle_read f [slice]));
    mret (r, f, concat buf);
  fd_write f slice := on_more (handle_write f [slice]);
  on_files A f := f;
|}.

Section Calls.
Variable fuel : nat.
Variable parse : list Z → option Vm.ElfFile.
Variable console_getchar : st world Z.

Definition linkat (olddirfd oldpath newdirfd newpath flags : Z) : st kernel Z :=
  old_ptr ← user_ptr oldpath (build_flags "RV");
  new_ptr ← user_ptr newpath (build_flags "RV");
  match old_ptr, new_ptr with
  | Some old_ptr, Some new_ptr =>
      old_path ← user_str fuel old_ptr;
      new_path ← user_str fuel new_ptr;
      on_more (FS_link old_path new_path)
  | _, _ => mret (-1)
  end.

Definition unlinkat (dirfd path flags : Z) : st kernel Z :=
  old_ptr ← user_ptr path (build_flags "RV");
  match old_ptr with
  | None => mret (-1)
  | Some old_ptr =>
      path ← user_str fuel old_ptr;
      on_more (FS_unlink path)
  end.

Definition fstat (fd st_ptr : Z) : st kernel Z :=
  current ← current_process;
  match mjoin (fd_table (extra current) !! Z.to_nat fd) with
  | None => mret (-1)
  | Some fh =>
      match fh_inode fh with
      | None => mret (-1)
      | Some inode =>
          ptr ← user_ptr st_ptr (build_flags "W_V");
          match ptr with
          | None => mret (-1)
          | Some ptr =>
              f ← on_more FS;
              ino ← lift (Inode_get_inode_id (efs f) inode);
              nlink ← on_more (on_blocks (Inode_get_link_num inode));
              dir ← on_more (on_blocks (Inode_is_dir inode));
              let stat := mkStat (dev Stat_new) ino (if dir : bool then StatMode_DIR else StatMode_FILE) nlink in
              on_machine (mc_on_mem (mem_write ptr (Stat_bytes stat)));;
              mret 0
          end
      end
  end.

Definition SyscallContext_io : IOSys kernel :=
  mkIOSys _ (read console_getchar) write (open fuel) close linkat (fun _ => unimplemented) unlinkat fstat.
Definition SyscallContext_process : ProcessSys kernel :=
  mkProcessSys _ exit (fork fuel) (exec fuel parse) wait getpid (spawn fuel parse) (sbrk fuel).
Definition SyscallContext_scheduling : SchedulingSys kernel := mkSchedulingSys _ sched_yield set_priority.
Definition SyscallContext_clock : ClockSys kernel := mkClockSys _ clock_gettime.
Definition SyscallContext_memory : MemorySys kernel := mkMemorySys _ (mmap fuel) munmap.
Definition registry : Registry kernel :=
  mkRegistry (Some SyscallContext_process) (Some SyscallContext_io) (Some SyscallContext_memory)
    (Some SyscallContext_scheduling) (Some SyscallContext_clock) None None None None.

(** From the cleared sections on; the pages of the heap, and the device with its file system, as they are then. *)
Definition rust_main (rounds : nat) (run : ForeignContext → machine → ForeignContext * machine * Batch.Trap)
    (layout : KernelLayout) (text_len : Z) : st kernel unit :=
  make_kernel_space layout text_len (kernel_space fuel layout MEMORY);;
  load_initproc fuel parse StrideManager_new;;
  schedule run (user_env_call registry) rounds.
End Calls.
End Kernel.
End Files.
