(* ===== verification/FileProperties.v ===== *)
(** * What the kernel with a file system guarantees

    The system calls of ch6: each keeps the invariant of ForkInvariant.v, so the rounds of its loop are rounds of
    ForkRounds.v ([FileCalls]).  The properties of the calls on files, from the memory of a process through its descriptors
    and the file system to the contents of the disk and back, and of the loop ([FileProps]). *)

From Stdlib Require Import Ascii String.
From stdpp Require Import strings.
From S2P Require Import Prelude Bytes BlockStore BlockCache Bitmap Layout FileData Efs Vfs File Memory KernelContext TaskRel ProcManage ProcTree ProcInvariant ProcSystem Schedulers Syscall PageTable AddressSpace SpaceTree SpaceMap SpaceInvariant PageManager BatchKernel TaskKernel VmKernel VmTheorems VmIsolation VmLoad VmBoot VmDemo SpaceFamily ForkKernel ForkInvariant ForkMaking ForkCalls ForkRounds ForkProperties Descriptors DescCalls FileKernel.

Module FileCalls.
Import Fork Desc Files Family SpaceRoot VmInv VmLoad ForkInv ForkMaking ForkCalls ForkRounds DescCalls.

(** Nothing is promised of the disk, and nothing of another process changes. *)
#[export] Instance file_extra_kept : ExtraKept FileExtra := {| extra_kept := eq |}.
#[export] Instance files_kept {S} : MoreKept (files S) | 10.
Proof. by refine {| more_kept _ _ := True |}. Defined.

Section Calls.
Context `{PTC : PageTableCrate, HL : !HeapLaws, PTL : !PageTableLaws}.
Context {S Q : Type} `{!BlockStore S, !BinaryHeap Q StridePair pair_le}.
Abbreviation Process := (Process FileExtra).
Abbreviation kernel := (kernel (StrideManager Process Q) (files S)).
Implicit Types (k : kernel) (T U : gmap (list Z) Z) (TT : gmap Z (gmap (list Z) Z)) (p q : Process) (s : machine) (h : list pevent).

#[export] Instance file_descriptors_ok : DescriptorsOk S FileExtra (StrideManager Process Q) (files S) FileHandle.
Proof.
  split; [done|done| |].
  - intros f slice k r f' slice' k' Hd. simpl in Hd. apply st_bind_Done in Hd as ([[r2 f2] buf] & k1 & H1 & [= _ _ <- <-]).
    apply on_more_Done in H1 as (y & H1 & ->). split; [|by exists y].
    unfold on_blocks in H1. apply bind_Done in H1 as ([a b] & H1 & [= -> _]). apply FileHandle_read_length in H1.
    by rewrite H1, concat_cons, app_nil_r.
  - intros f slice k r f' k' Hd. apply on_more_Done in Hd as (y & _ & ->). by exists y.
Qed.

Section Running.
Variables (h : list pevent) (k : kernel) (TT : gmap Z (gmap (list Z) Z)) (i : Z) (p : Process) (T : gmap (list Z) Z).
Hypothesis Hi : fork_inv h k TT.
Hypothesis Hc : ProcManage.current (processor k) = Some i.
Hypothesis Hp : tasks k !! i = Some p.
Hypothesis HT : TT !! i = Some T.

Lemma user_str_same fuel ptr r k' : user_str fuel ptr k = Done (r, k') → k' = k.
Proof.
  unfold user_str, mbind, st_bind, get_st, lift, mret, st_ret. simpl. destruct (c_str _ _ _); try done. by intros [= _ <-].
Qed.

Lemma linkat_called fuel olddirfd oldpath newdirfd newpath flags r k' : 0 ≤ oldpath < 2 ^ 38 → 0 ≤ newpath < 2 ^ 38 →
  linkat fuel olddirfd oldpath newdirfd newpath flags k = Done (r, k') → called i h k TT k'.
Proof.
  intros Ha Hb Hd. unfold linkat in Hd. rewrite (st_bind_run _ _ _ _ _ (user_ptr_run h k TT i p T Hi Hc Hp HT oldpath _ Ha)) in Hd.
  rewrite (st_bind_run _ _ _ _ _ (user_ptr_run h k TT i p T Hi Hc Hp HT newpath _ Hb)) in Hd.
  destruct (place k T oldpath (build_flags "RV")), (place k T newpath (build_flags "RV")); try (injection Hd as _ <-; by apply same_called).
  apply st_bind_Done in Hd as (s1 & k1 & ->%user_str_same & Hd). apply st_bind_Done in Hd as (s2 & k2 & ->%user_str_same & Hd).
  apply on_more_Done in Hd as (y & _ & ->). by apply more_called.
Qed.

Lemma unlinkat_called fuel dirfd path flags r k' : 0 ≤ path < 2 ^ 38 → unlinkat fuel dirfd path flags k = Done (r, k') → called i h k TT k'.
Proof.
  intros Ha Hd. unfold unlinkat in Hd. rewrite (st_bind_run _ _ _ _ _ (user_ptr_run h k TT i p T Hi Hc Hp HT path _ Ha)) in Hd.
  destruct (place k T path (build_flags "RV")); [|injection Hd as _ <-; by apply same_called].
  apply st_bind_Done in Hd as (s1 & k1 & ->%user_str_same & Hd). apply on_more_Done in Hd as (y & _ & ->). by apply more_called.
Qed.

(** [fstat] on every branch. *)
Lemma fstat_eq fd st_ptr : 0 ≤ st_ptr < 2 ^ 38 → fstat fd st_ptr k =
  match fh ← mjoin (handles (extra p) !! Z.to_nat fd); fh_inode fh with
  | None => Done (-1, k)
  | Some inode =>
      match place k T st_ptr (build_flags "W_V") with
      | None => Done (-1, k)
      | Some ptr =>
          '(f, y) ← FS (more k);
          ino ← Inode_get_inode_id (efs f) inode;
          '(nlink, y) ← on_blocks (Inode_get_link_num inode) y;
          '(dir, y) ← on_blocks (Inode_is_dir inode) y;
          Done (0, set_mach (mc_set_mem (mem_write ptr (Stat_bytes (mkStat 0 ino (if dir : bool then StatMode_DIR else StatMode_FILE) nlink))
            (mc_mem (mach k))) (mach k)) (set_more y k))
      end
  end.
Proof.
  intros Ha. unfold fstat. rewrite (st_bind_run _ _ _ _ _ (current_run h k TT i p Hi Hc Hp)).
  change (fd_table (extra p)) with (handles (extra p)). destruct (mjoin (handles (extra p) !! Z.to_nat fd)) as [fh|]; [|done]. simpl.
  destruct (fh_inode fh) as [inode|]; [|done]. rewrite (st_bind_run _ _ _ _ _ (user_ptr_run h k TT i p T Hi Hc Hp HT st_ptr _ Ha)).
  destruct (place k T st_ptr (build_flags "W_V")) as [ptr|]; [|done].
  unfold mbind, st_bind, on_more, lift, outcome_bind. destruct (FS (more k)) as [[f y]| |]; simpl; [|done..].
  destruct (Inode_get_inode_id (efs f) inode) as [ino| |]; simpl; [|done..].
  destruct (on_blocks (Inode_get_link_num inode) y) as [[nl y2]| |]; simpl; [|done..].
  by destruct (on_blocks (Inode_is_dir inode) y2) as [[dir y3]| |]; simpl.
Qed.

Lemma Stat_length st : length (Stat_bytes st) = 80%nat.
Proof. unfold Stat_bytes. by rewrite !length_app, !le_encode_length, length_replicate. Qed.

Lemma fstat_called fd st_ptr r k' : buffer_ok st_ptr 80 → fstat fd st_ptr k = Done (r, k') → called i h k TT k'.
Proof.
  intros Hb Hd. rewrite (fstat_eq fd st_ptr (proj1 Hb)) in Hd.
  destruct (fh ← _; _) as [inode|]; [|injection Hd as _ <-; by apply same_called].
  destruct (place k T st_ptr (build_flags "W_V")) as [ptr|] eqn:Hpl; [|injection Hd as _ <-; by apply same_called].
  apply bind_Done in Hd as ([f y] & _ & Hd). apply bind_Done in Hd as (ino & _ & Hd). apply bind_Done in Hd as ([nl y2] & _ & Hd).
  apply bind_Done in Hd as ([dir y3] & _ & [= _ <-]). apply (more_machine_called h k TT i p T Hi Hc Hp HT).
  eapply (place_writes h k TT i p T Hi Hp HT st_ptr); [by rewrite Stat_length|done].
Qed.
End Running.

(** ** The dispatcher *)

(** Arguments in the lower half of the address space, buffers within a page, programs that fit, and fuel for the pages of
    a call. *)
Record call_ok (fuel : nat) (parse : list Z → option Vm.ElfFile) k p (id : Z) (a : Z → Z) : Prop := {
  co_write : id = WRITE → 0 ≤ a 1 < 2 ^ 38;
  co_read : id = READ → buffer_ok (a 1) (a 2);
  co_open : id = OPENAT → 0 ≤ a 0 < 2 ^ 38;
  co_linkat : id = LINKAT → 0 ≤ a 1 < 2 ^ 38 ∧ 0 ≤ a 3 < 2 ^ 38;
  co_unlinkat : id = UNLINKAT → 0 ≤ a 1 < 2 ^ 38;
  co_fstat : id = FSTAT → buffer_ok (a 1) 80;
  co_program : id = EXECVE ∨ id = SPAWN → program_ok fuel parse (a 0) (a 1) k;
  co_wait : id = WAIT4 → buffer_ok (a 1) 4;
  co_clock : id = CLOCK_GETTIME → VmRuns.args_ok fuel (vm_of p) (VmRuns.CClock (a 0) (a 1));
  co_mmap : id = MMAP → VmRuns.args_ok fuel (vm_of p) (VmRuns.CMmap (a 0) (a 1) (as_i32 (a 2)));
  co_munmap : id = MUNMAP → VmRuns.args_ok fuel (vm_of p) (VmRuns.CMunmap (a 0) (a 1));
  co_brk : id = BRK → VmRuns.args_ok fuel (vm_of p) (VmRuns.CSbrk (as_i32 (a 0)));
  co_fork ar : id = CLONE → ar ∈ areas (address_space p) → ar.2 - ar.1 ≤ Z.of_nat fuel;
}.

Section Served.
Variables (fuel : nat) (parse : list Z → option Vm.ElfFile) (getchar : st world Z).
Hypothesis Hget : only_reads getchar.

Lemma files_keep : keeps (registry fuel parse getchar) (fun _ => True) (call_ok fuel parse).
Proof.
  intros h k TT i p T id a r k' Hi Hc Hp HT Hn _ Hcall Hd. unfold handle in Hd.
  repeat match type of Hd with
  | (if ?x =? ?y then _ else _) _ = _ => destruct (Z.eqb_spec x y) as [->|]
  end; unfold Container_call in Hd; cbn [registry PROCESS IO MEMORY SCHEDULING CLOCK SIGNAL THREAD SYNC_MUTEX TRACE_] in Hd;
    try (injection Hd as _ <-; by apply same_called); apply st_bind_Done in Hd as (x & k1 & Hd & [= _ <-]); try discriminate Hd.
  all: cbn in Hd; pose proof (fi_tasks _ _ _ Hi i p Hp) as Hpok; destruct Hcall.
  - eapply write_called; [done..|by apply co_write0|exact Hd].
  - eapply read_called; [done..|by apply co_read0|exact Hd].
  - eapply open_called; [done..|by apply co_open0|exact Hd].
  - eapply close_called; [done..|exact Hd].
  - destruct co_linkat0 as [Ho Hw]; [done|]. eapply (linkat_called h k TT i p T); [done..|exact Ho|exact Hw|exact Hd].
  - eapply unlinkat_called; [done..|by apply co_unlinkat0|exact Hd].
  - eapply fstat_called; [done..|by apply co_fstat0|exact Hd].
  - eapply fork_called; [done..| |exact Hd]. intros ar. by apply co_fork0.
  - eapply exec_file_called; [done..|apply co_program0; by left|exact Hd].
  - eapply wait_called; [done..|by apply co_wait0|exact Hd].
  - by eapply getpid_called.
  - eapply (vm_caller fuel h k TT i p T Hi Hc Hp HT (VmRuns.CClock (a 0) (a 1))); [by apply co_clock0|exact Hd].
  - eapply (vm_caller fuel h k TT i p T Hi Hc Hp HT (VmRuns.CMunmap (a 0) (a 1))); [by apply co_munmap0|exact Hd].
  - eapply (vm_caller fuel h k TT i p T Hi Hc Hp HT (VmRuns.CMmap (a 0) (a 1) (as_i32 (a 2)))); [by apply co_mmap0|exact Hd].
  - eapply spawn_file_called; [done..|apply co_program0; by right|exact Hd].
  - by eapply priority_called.
  - eapply sbrk_called; [done..|by apply co_brk0|exact Hd].
Qed.

(** The service of a call by the loop. *)
Lemma files_serve : serves (user_env_call (registry fuel parse getchar)) (fun _ => True) (calls_ok (call_ok fuel parse)).
Proof. intros h k TT i u k' Hi Hc Hn Hok Hcalls Hd H0. by eapply call_run; [apply files_keep|..]. Qed.
End Served.

(** Rounds of the loop of ch6, with the processes that ran. *)
Definition file_rounds (fuel : nat) (parse : list Z → option Vm.ElfFile) (getchar : st world Z)
    (run : ForeignContext → machine → ForeignContext * machine * Batch.Trap) : kernel → list Z → kernel → Prop :=
  rounds run (user_env_call (registry fuel parse getchar)) (calls_ok (call_ok fuel parse)).
End Calls.
End FileCalls.

Module FileProps.
Import Fork Desc Files Family SpaceRoot VmInv VmLoad ForkInv ForkMaking ForkCalls ForkRounds ForkProps DescCalls FileCalls.
Section Properties.
Context `{PTC : PageTableCrate, HL : !HeapLaws, PTL : !PageTableLaws}.
Context {S Q : Type} `{!BlockStore S, BSS : !BlockStoreSpec S, !BinaryHeap Q StridePair pair_le}.
Abbreviation Process := (Process FileExtra).
Abbreviation kernel := (kernel (StrideManager Process Q) (files S)).
Implicit Types (k : kernel) (T U : gmap (list Z) Z) (TT : gmap Z (gmap (list Z) Z)) (p q c : Process) (s : machine) (h : list pevent) (w : Z → list Z).

(** ** The disk of the kernel *)

(** Its blocks hold [w], and no lock is held. *)
Record on_disk k w : Prop := {
  od_inv : BlockStore.store_inv (blocks (more k));
  od_held : held (blocks (more k)) = [];
  od_view : veq (view (blocks (more k))) w;
}.

Lemma does_on_disk {A} (m : st S A) w a w' k : does m w [] a w' → on_disk k w →
  ∃ b, on_blocks m (more k) = Done (a, mkFiles (fs (more k)) b) ∧ ∀ y, blocks y = b → on_disk (set_more y k) w'.
Proof.
  intros Hd [Hi Hh Hv]. destruct (Hd _ Hi ltac:(by rewrite Hh) Hv) as (b & Hr & Hi' & Hh' & Hv').
  exists b. split; [unfold on_blocks; by rewrite Hr|]. intros y <-. split; [done|by apply Permutation_nil_r|done].
Qed.

Lemma on_disk_keep k k' w : more k' = more k → on_disk k w → on_disk k' w.
Proof. intros E []. split; by rewrite E. Qed.

(** A file that [self] names on a disk with contents [w], with data blocks [bl]. *)
Record file_at w (self : Inode) (bl : list Z) : Prop := {
  fa_ok : contents_ok w;
  fa_place : inode_place self;
  fa_maps : inode_maps w (inode_at w self) [inode_block_id self] bl;
}.

(** Descriptor [fd] of [p] is a handle on [self]. *)
Record opened p (fd : Z) (f : FileHandle) (self : Inode) : Prop := {
  op_fd : handles (extra p) !! Z.to_nat fd = Some (Some f);
  op_inode : fh_inode f = Some self;
  op_offset : 0 ≤ fh_offset f;
}.

(** The handle moved on by [n] bytes. *)
Definition moved (fd : Z) (f : FileHandle) (n : Z) p : Process := put_fd fd (Some (set_offset (fh_offset f + n) f)) p.

(** The state after a call that moved descriptor [fd] of process [i]. *)
Record moved_on (i : Z) p fd f n h k TT k' : Prop := {
  mo_inv : fork_inv h k' TT;
  mo_others : others_kept i k TT k' TT;
  mo_tasks : tasks k' = <[i := moved fd f n p]> (tasks k);
  mo_current : ProcManage.current (processor k') = Some i;
  mo_fs : fs (more k') = fs (more k);
}.

Section Running.
Variables (h : list pevent) (k : kernel) (TT : gmap Z (gmap (list Z) Z)) (i : Z) (p : Process) (T : gmap (list Z) Z).
Hypothesis Hi : fork_inv h k TT.
Hypothesis Hc : ProcManage.current (processor k) = Some i.
Hypothesis Hp : tasks k !! i = Some p.
Hypothesis HT : TT !! i = Some T.

Lemma moved_state fd f n s y : own_writes (mach k) s (address_space p) T → fs y = fs (more k) →
  moved_on i p fd f n h k TT (retask i (moved fd f n p) s (set_more y k)).
Proof.
  intros Hw Hy. destruct (more_data_inv h k TT i p T Hi Hp HT y (extra (moved fd f n p)) s Hw) as [Hi' Ho].
  split; [exact Hi'|exact Ho| |exact Hc|exact Hy]. by rewrite (retask_tasks h (set_more y k) TT) by by apply more_inv.
Qed.

Lemma read_run getchar fd f self w bl buf count : fd ≠ STDIN → opened p fd f self → fh_read f = true → file_at w self bl → on_disk k w →
  buffer_ok buf count → 0 ≤ count → is_Some (place k T buf (build_flags "W_V")) → fh_offset f + count ≤ usize_max →
  let n := Z.max 0 ((fh_offset f + count) `min` size (inode_at w self) - fh_offset f) in
  ∃ k', read getchar fd buf count k = Done (n, k') ∧ moved_on i p fd f n h k TT k' ∧ on_disk k' w ∧
    ∀ j, 0 ≤ buf mod page_size + j < page_size → byte_at (mc_mem (mach k')) T (buf + j) =
      if decide (0 ≤ j < n) then Some (file_byte w bl (fh_offset f + j)) else byte_at (mc_mem (mach k)) T (buf + j).
Proof.
  intros Hfd [Hl Hin Ho] Hrd [Hw Hplace Hm] Hdisk [Ha Hn] Hcount [ptr Hptr] Hmax n.
  set (old := mem_read (mc_mem (mach k)) ptr (Z.to_nat count)).
  pose proof (handle_read_does w f self bl old Hw Hin Hplace Hm Ho) as Hd.
  unfold old in Hd. rewrite mem_read_length, Z2Nat.id in Hd by done. specialize (Hd Hmax). cbv zeta in Hd. fold n old in Hd.
  assert (length old = Z.to_nat count) as Hlo by apply mem_read_length.
  destruct (does_on_disk _ _ _ _ k Hd Hdisk) as (b & Hb & Hdisk').
  set (new := splice 0 (file_range w bl (fh_offset f) n) old). assert (n ≤ count) as Hnc by lia.
  assert (length new = length old) as Hln by (apply splice_length; rewrite file_range_length, Hlo; lia).
  set (s := mc_set_mem (mem_write ptr new (mc_mem (mach k))) (mach k)).
  assert (read getchar fd buf count k = Done (n, retask i (moved fd f n p) s (set_more (mkFiles (fs (more k)) b) k))) as Hrun.
  { rewrite (read_eq h k TT i p T Hi Hc Hp HT getchar fd buf count Ha), Hptr, (proj2 (Z.eqb_neq _ _) Hfd).
    change (fd_table (extra p)) with (handles (extra p)). rewrite Hl. simpl. unfold FileHandle_readable. rewrite Hrd. fold old.
    unfold mbind at 2, st_bind, on_more. rewrite Hb. simpl. unfold s, new. by rewrite app_nil_r. }
  eexists. split; [exact Hrun|]. assert (own_writes (mach k) s (address_space p) T) as Hown.
  { apply (place_writes h k TT i p T Hi Hp HT buf ptr new); [|done]. split; [done|rewrite Hln, Hlo; lia]. }
  split; [by apply moved_state|split].
  - apply (on_disk_keep (set_more (mkFiles (fs (more k)) b) k)); [done|by apply Hdisk'].
  - intros j Hj. change (mach (retask i (moved fd f n p) s (set_more (mkFiles (fs (more k)) b) k))) with s. unfold s.
    rewrite (store_seen h k TT i p T Hi Hp HT buf (build_flags "W_V") ptr new j);
      [|done|rewrite Hln, Hlo; lia|by eapply place_translate|done].
    rewrite Hln, Hlo, Z2Nat.id by done. case_decide as H1; case_decide as H2; try lia; [| |done].
    + f_equal. apply list_lookup_total_correct. unfold new. rewrite splice_lookup by (rewrite file_range_length, Hlo; lia).
      rewrite file_range_length, decide_True by lia. rewrite Nat.sub_0_r, file_range_lookup by lia. do 2 f_equal. lia.
    + rewrite (place_byte k T buf _ ptr j Hptr Hj). f_equal. apply list_lookup_total_correct. unfold new.
      rewrite splice_lookup by (rewrite file_range_length, Hlo; lia). rewrite file_range_length, decide_False by lia.
      unfold old. rewrite mem_read_lookup by lia. do 2 f_equal. lia.
Qed.

Lemma write_run fd f self w bl buf count : fd ≠ STDOUT → fd ≠ STDDEBUG → opened p fd f self → fh_write f = true → file_at w self bl → on_disk k w →
  0 ≤ buf < 2 ^ 38 → 0 ≤ count → fh_offset f + count < size (inode_at w self) → is_Some (fs (more k)) →
  ∀ ptr, place k T buf (build_flags "RV") = Some ptr → let bs := mem_read (mc_mem (mach k)) ptr (Z.to_nat count) in Forall is_byte bs →
  ∃ w' k', write fd buf count k = Done (count, k') ∧ moved_on i p fd f count h k TT k' ∧ mach k' = mach k ∧ on_disk k' w' ∧ file_at w' self bl ∧
    inode_at w' self = inode_at w self ∧ (∀ b, b ∉ bl → w' b = w b) ∧
    file_bytes w' (inode_at w' self) bl = splice (Z.to_nat (fh_offset f)) bs (file_bytes w (inode_at w self) bl).
Proof.
  intros Hfd1 Hfd2 [Hl Hin Ho] Hwr [Hw Hplace Hm] Hdisk Ha Hcount Hlt [fsys Hfs] ptr Hptr bs Hbb.
  assert (length bs = Z.to_nat count) as Hlb by apply mem_read_length.
  destruct (handle_write_does (efs fsys) w f self bl bs Hw Hin Hplace Hm Hbb Ho) as (w' & Hd & Hw' & Hat & Hm' & Hk & Hby);
    [rewrite Hlb; lia|]. rewrite Hlb, Z2Nat.id in Hd by done.
  destruct (does_on_disk _ _ _ _ k Hd Hdisk) as (b & Hb & Hdisk'). set (y := mkFiles (fs (more k)) b).
  assert (write fd buf count k = Done (count, retask i (moved fd f count p) (mach k) (set_more y k))) as Hrun.
  { rewrite (write_eq h k TT i p T Hi Hc Hp HT fd buf count Ha), Hptr. cbv zeta. fold bs.
    rewrite (proj2 (Z.eqb_neq _ _) Hfd1), (proj2 (Z.eqb_neq _ _) Hfd2). simpl. rewrite Hl. simpl. unfold FileHandle_writable. rewrite Hwr.
    unfold on_more, handle_write, mbind at 3, st_bind, FS, get_st, mbind at 3, st_bind. rewrite Hfs. simpl.
    change (mkFiles (fs (more k)) b) with y in Hb. by rewrite Hb. }
  exists w'. eexists. split; [exact Hrun|]. split; [by apply moved_state; [apply (own_idle k p T)|]|]. split; [done|].
  split; [apply (on_disk_keep (set_more y k)); [done|by apply Hdisk']|]. by split_and!.
Qed.
End Running.

(** C9: Through the file system and back.  A process writes a buffer through one descriptor and reads as many bytes through
    another descriptor of the same file at the same offset, inside the file: both calls answer the count, and the second
    buffer of the process then holds the bytes of the first, byte for byte in its own address space; both descriptors have
    moved on by the count, the other processes keep their entries, mappings and bytes, and the invariant goes on. *)
Theorem file_roundtrip getchar h k TT i p T wfd rfd wf rf self w bl src dst count : fork_inv h k TT →
  ProcManage.current (processor k) = Some i → tasks k !! i = Some p → TT !! i = Some T →
  wfd ≠ STDOUT → wfd ≠ STDDEBUG → rfd ≠ STDIN → Z.to_nat wfd ≠ Z.to_nat rfd →
  opened p wfd wf self → fh_write wf = true → opened p rfd rf self → fh_read rf = true → fh_offset rf = fh_offset wf →
  file_at w self bl → on_disk k w → is_Some (fs (more k)) → (∀ j b, 0 ≤ j < count → byte_at (mc_mem (mach k)) T (src + j) = Some b → is_byte b) →
  buffer_ok src count → is_Some (place k T src (build_flags "RV")) → buffer_ok dst count → is_Some (place k T dst (build_flags "W_V")) →
  0 ≤ count → fh_offset wf + count < size (inode_at w self) →
  ∃ k1 k2, write wfd src count k = Done (count, k1) ∧ read getchar rfd dst count k1 = Done (count, k2) ∧
    fork_inv h k2 TT ∧ others_kept i k TT k2 TT ∧
    tasks k2 !! i = Some (moved rfd rf count (moved wfd wf count p)) ∧
    ∀ j, 0 ≤ j < count → byte_at (mc_mem (mach k2)) T (dst + j) = byte_at (mc_mem (mach k)) T (src + j).
Proof.
  intros Hi Hc Hp HT H1 H2 H3 Hne Hw Hwr Hr Hrd Eo Hfile Hdisk Hfs Hby Hsrc [ps Hps] Hdst Hpd Hcount Hlt.
  destruct (write_run h k TT i p T Hi Hc Hp HT wfd wf self w bl src count H1 H2 Hw Hwr Hfile Hdisk (proj1 Hsrc) Hcount Hlt Hfs ps Hps)
    as (w' & k1 & Hrun1 & Hmo1 & Hm1 & Hdisk1 & Hfile1 & Eat & _ & Hbytes).
  { apply Forall_lookup. intros n b Hb. pose proof (lookup_lt_Some _ _ _ Hb) as Hn. rewrite mem_read_length in Hn.
    rewrite mem_read_lookup in Hb by done. injection Hb as <-. apply (Hby (Z.of_nat n)); [lia|].
    pose proof (Z.mod_pos_bound src page_size ltac:(done)). destruct Hsrc. apply (place_byte k T src _ ps (Z.of_nat n) Hps). lia. }
  destruct Hmo1 as [Hi1 Ho1 Ht1 Hc1 Hf1]. assert (tasks k1 !! i = Some (moved wfd wf count p)) as Hp1 by (by rewrite Ht1, lookup_insert_eq).
  assert (opened (moved wfd wf count p) rfd rf self) as Hr1.
  { destruct Hr as [Hl Hin Ho]. split; [|done|done]. simpl. by rewrite list_lookup_insert_ne. }
  assert (∀ U a fl, place k1 U a fl = place k U a fl) as Epl by (intros; unfold place; by rewrite Hm1).
  pose proof (im_size _ _ _ _ (fa_maps _ _ _ Hfile)) as Hsz.
  destruct (read_run h k1 TT i _ T Hi1 Hc1 Hp1 HT getchar rfd rf self w' bl dst count H3 Hr1 Hrd Hfile1 Hdisk1 Hdst Hcount)
    as (k2 & Hrun2 & Hmo2 & _ & Hseen); [by rewrite Epl|unfold usize_max; lia|].
  rewrite Eat in Hrun2, Hmo2, Hseen. rewrite Eo in Hrun2, Hmo2, Hseen.
  replace (Z.max 0 ((fh_offset wf + count) `min` size (inode_at w self) - fh_offset wf)) with count in * by lia.
  destruct Hmo2 as [Hi2 Ho2 Ht2 Hc2 _]. exists k1, k2.
  split; [done|split; [done|split; [done|split; [by eapply others_kept_trans|split; [by rewrite Ht2, lookup_insert_eq|]]]]].
  intros j Hj. destruct Hdst as [_ Hdn], Hsrc as [_ Hsn].
  pose proof (Z.mod_pos_bound dst page_size ltac:(done)). pose proof (Z.mod_pos_bound src page_size ltac:(done)).
  rewrite Hseen, decide_True, (place_byte k T src _ ps j Hps) by lia. f_equal.
  assert (file_bytes w' (inode_at w' self) bl !! Z.to_nat (fh_offset wf + j) = Some (mc_mem (mach k) (ps + j))) as Hx.
  { rewrite Hbytes. destruct Hw as [_ _ Ho0]. unfold file_bytes.
    rewrite splice_lookup by (rewrite mem_read_length, file_range_length; lia). rewrite mem_read_length, decide_True by lia.
    rewrite mem_read_lookup by lia. do 2 f_equal. lia. }
  destruct Hw as [_ _ Ho0]. unfold file_bytes in Hx. rewrite Eat, file_range_lookup in Hx by lia. injection Hx as <-. f_equal. lia.
Qed.

(** ** Names *)

(** The root directory of the mounted file system [d] has the entries [names]. *)
Record mounted w (d : FileSystem) bl (names : list (list Z)) : Prop := {
  mt_ok : contents_ok w;
  mt_root : inode_place (root d);
  mt_dir : directory w (inode_at w (root d)) [inode_block_id (root d)] bl names;
  mt_pos j : 0 ≤ j < Z.of_nat (length names) → ∃ pos, get_disk_inode_pos (efs d) (DirEntry_inode_number (dir_entry w bl j)) = Done pos;
}.

Lemma FS_mounted k (d : FileSystem) : fs (more k) = Some d → FS (more k) = Done (d, more k).
Proof. intros E. unfold FS, mbind, st_bind, get_st. by rewrite E. Qed.

(** Opening without clearing and without creating. *)
Lemma FS_open_run k w d bl names name flags : fs (more k) = Some d → mounted w d bl names → on_disk k w →
  flags_contain flags CREATE = false → flags_contain flags TRUNC = false →
  ∃ r b, FS_open name flags (more k) = Done (FileHandle_new (OpenFlags_read_write flags).1 (OpenFlags_read_write flags).2 <$> r, mkFiles (Some d) b) ∧
    on_disk (set_more (mkFiles (Some d) b) k) w ∧ found_inode w (efs d) bl names name r.
Proof.
  intros Hd [Hc Hr Hdir Hpos] Hdisk Hcr Htr. destruct (find_does w (efs d) (root d) bl names name Hc Hr Hdir Hpos) as (r & Hf & _ & Hfound).
  assert (does (FileSystem_open (efs d) (root d) name flags) w [] (FileHandle_new (OpenFlags_read_write flags).1 (OpenFlags_read_write flags).2 <$> r) w) as Ho.
  { unfold FileSystem_open. destruct (OpenFlags_read_write flags) as [rd wr]. rewrite Hcr. eapply does_bind; [exact Hf|].
    destruct r as [inode|]; [|apply does_ret]. rewrite Htr. eapply does_bind; [apply does_ret|]. apply does_ret. }
  destruct (does_on_disk _ _ _ _ k Ho Hdisk) as (b & Hb & Hod). exists r, b. rewrite Hd in Hb. split; [|split; [by apply Hod|done]].
  unfold FS_open. by rewrite (st_bind_run _ _ _ _ _ (FS_mounted k d Hd)).
Qed.

(** Opening by name, on every branch.  For a path in the lower half of the address space, [open] answers -1 if the
    process may not read the path, and stops the kernel if the flags have a bit that is not declared; for flags that neither
    create nor clear, it answers -1 if the directory has no entry of that name, and otherwise the number of a new last
    descriptor: a handle at offset 0 on the inode of the first entry of that name, readable and writable as the flags say.  The
    disk is as before, and the other processes keep their entries, mappings and bytes. *)
Theorem open_spec fuel h k TT i p T path flags w d bl names : fork_inv h k TT →
  ProcManage.current (processor k) = Some i → tasks k !! i = Some p → TT !! i = Some T →
  fs (more k) = Some d → mounted w d bl names → on_disk k w → 0 ≤ path < 2 ^ 38 →
  match place k T path (build_flags "RV") with
  | None => open fuel path flags k = Done (-1, k)
  | Some ptr => ∀ bytes, c_str fuel (mc_mem (mach k)) ptr = Done bytes →
      match OpenFlags_from_bits (as_u32 flags) with
      | None => open fuel path flags k = Panic
      | Some fl => flags_contain fl CREATE = false → flags_contain fl TRUNC = false →
          ∃ r k', found_inode w (efs d) bl names (concat (char_bytes <$> bytes)) r ∧ on_disk k' w ∧ fork_inv h k' TT ∧ others_kept i k TT k' TT ∧
          match r with
          | None => open fuel path flags k = Done (-1, k') ∧ tasks k' = tasks k
          | Some inode => open fuel path flags k = Done (as_isize (Z.of_nat (length (handles (extra p)))), k') ∧
              tasks k' = <[i := push_fd (FileHandle_new (OpenFlags_read_write fl).1 (OpenFlags_read_write fl).2 inode) p]> (tasks k)
          end
      end
  end.
Proof.
  intros Hi Hc Hp HT Hd Hmt Hdisk Ha. pose proof (open_eq h k TT i p T Hi Hc Hp HT fuel path flags Ha) as Ho.
  destruct (place k T path (build_flags "RV")) as [ptr|]; [|exact Ho]. intros bytes Hb. rewrite Hb in Ho. simpl in Ho.
  rewrite (FS_mounted k d Hd) in Ho. simpl in Ho. destruct (OpenFlags_from_bits (as_u32 flags)) as [fl|]; [|exact Ho]. intros Hcr Htr. simpl in Ho.
  destruct (FS_open_run k w d bl names (concat (char_bytes <$> bytes)) fl Hd Hmt Hdisk Hcr Htr) as (r & b & Hrun & Hod & Hfound).
  rewrite Hrun in Ho. simpl in Ho. exists r. destruct r as [inode|]; simpl in Ho.
  - eexists. split; [exact Hfound|].
    destruct (more_data_inv h k TT i p T Hi Hp HT (mkFiles (Some d) b)
      (extra (push_fd (FileHandle_new (OpenFlags_read_write fl).1 (OpenFlags_read_write fl).2 inode) p)) (mach k)) as [Hi' Hoth];
      [by apply (own_idle k p T)|].
    split; [|split; [exact Hi'|split; [exact Hoth|split; [exact Ho|]]]]; [by apply (on_disk_keep (set_more (mkFiles (Some d) b) k))|].
    by rewrite (retask_tasks h (set_more (mkFiles (Some d) b) k) TT i _ (mach k) (more_inv h k TT Hi _)).
  - exists (set_more (mkFiles (Some d) b) k). split; [exact Hfound|split; [exact Hod|split; [by apply more_inv|split; [apply more_others|split; [exact Ho|done]]]]].
Qed.

(** ** Programs on the disk *)

(** The names of the directory, a line each, then an empty line. *)
Definition listing (names : list (list Z)) : list Z := concat ((fun name => name ++ [10]) <$> names) ++ [10].
Definition listed (names : list (list Z)) s : machine := mkMachine (print_bytes (listing names) (mc_world s)) (mc_heap s).

Lemma unknown_file_run k w d bl names : fs (more k) = Some d → mounted w d bl names → on_disk k w →
  ∃ b, unknown_file k = Done ((), set_mach (listed names (mach k)) (set_more (mkFiles (Some d) b) k)) ∧ on_disk (set_more (mkFiles (Some d) b) k) w.
Proof.
  intros Hd [Hc Hr Hdir Hpos] Hdisk. destruct (find_does w (efs d) (root d) bl names [] Hc Hr Hdir Hpos) as (_ & _ & Hlist & _).
  assert (does (FileSystem_readdir (root d)) w [] (Some names) w) as Ho by (eapply does_bind; [exact Hlist|apply does_ret]).
  destruct (does_on_disk _ _ _ _ k Ho Hdisk) as (b & Hb & Hod). rewrite Hd in Hb. exists b. split; [|by apply Hod].
  assert (FS_readdir (more k) = Done (Some names, mkFiles (Some d) b)) as Hrun.
  { unfold FS_readdir. by rewrite (st_bind_run _ _ _ _ _ (FS_mounted k d Hd)). }
  unfold unknown_file, on_more, mbind, st_bind. simpl. by rewrite Hrun.
Qed.

(** The file of the program that a path names. *)
Lemma named_file_run h k TT i p T path count w d bl names : fork_inv h k TT → ProcManage.current (processor k) = Some i → tasks k !! i = Some p →
  TT !! i = Some T → fs (more k) = Some d → mounted w d bl names → on_disk k w → 0 ≤ path < 2 ^ 38 →
  match place k T path (build_flags "RV") with
  | None => named_file path count k = Done (None, k)
  | Some ptr => ∃ r b, named_file path count k = Done (FileHandle_new true false <$> r, set_more (mkFiles (Some d) b) k) ∧
      on_disk (set_more (mkFiles (Some d) b) k) w ∧ found_inode w (efs d) bl names (mem_read (mc_mem (mach k)) ptr (Z.to_nat count)) r
  end.
Proof.
  intros Hi Hc Hp HT Hd Hm Hdisk Ha. unfold named_file. rewrite (st_bind_run _ _ _ _ _ (user_ptr_run h k TT i p T Hi Hc Hp HT path _ Ha)).
  destruct (place k T path (build_flags "RV")) as [ptr|]; [|done]. rewrite (st_bind_run get_st _ _ _ _ eq_refl).
  destruct (FS_open_run k w d bl names (mem_read (mc_mem (mach k)) ptr (Z.to_nat count)) RDONLY Hd Hm Hdisk eq_refl eq_refl) as (r & b & Hrun & Hod & Hf).
  exists r, b. split; [|done]. unfold on_more. simpl. by rewrite Hrun.
Qed.

(** The program of [inode] on a disk with contents [w]. *)
Definition image w (inode : Inode) (fbl : list Z) : list Z := file_bytes w (inode_at w inode) fbl.

Lemma file_program_run fuel parse k w d inode fbl : fs (more k) = Some d → on_disk k w → file_at w inode fbl →
  DiskInode_data_blocks (inode_at w inode) < Z.of_nat fuel →
  ∃ b, on_disk (set_more (mkFiles (Some d) b) k) w ∧ file_program fuel parse (FileHandle_new true false inode) k =
    (elf ← unwrap (parse (image w inode fbl)); Done (elf, set_more (mkFiles (Some d) b) k)).
Proof.
  intros Hd Hdisk [Hc Hpl Hm] Hf.
  destruct (does_on_disk _ _ _ _ k (read_all_does w (FileHandle_new true false inode) inode fbl fuel Hc eq_refl Hpl Hm Hf) Hdisk) as (b & Hb & Hod).
  rewrite Hd in Hb. exists b. split; [by apply Hod|]. unfold file_program, on_more, mbind, st_bind. simpl. by rewrite Hb.
Qed.

(** C10: [exec] from the disk, on every branch, for a path in the lower half of the address space.  A path that the process may
    not read, or that is no name of the directory, gives -1 and the names of the directory on the console.  Otherwise the bytes
    of the first file of that name decide: what is not a program, or is one of another machine, stops the kernel; a
    program takes the place of the old one, unless the heap cannot give its pages, and the process keeps its pid, its
    priority, its descriptors and its place in the family.  The disk is as before, and no other process
    loses a mapping or a byte. *)
Theorem exec_file_spec fuel parse path count h k TT i p T w d bl names : fork_inv h k TT → ProcManage.current (processor k) = Some i → tasks k !! i = Some p →
  TT !! i = Some T → pid_counter k < still_running → fs (more k) = Some d → mounted w d bl names → on_disk k w → 0 ≤ path < 2 ^ 38 →
  let unknown := ∃ k', exec fuel parse path count k = Done (-1, k') ∧ mach k' = listed names (mach k) ∧ fork_inv h k' TT ∧ tasks k' = tasks k ∧ on_disk k' w in
  match place k T path (build_flags "RV") with
  | None => unknown
  | Some ptr => ∃ r, found_inode w (efs d) bl names (mem_read (mc_mem (mach k)) ptr (Z.to_nat count)) r ∧
      match r with
      | None => unknown
      | Some inode => ∀ fbl, file_at w inode fbl → DiskInode_data_blocks (inode_at w inode) < Z.of_nat fuel →
          match parse (image w inode fbl) with
          | None => exec fuel parse path count k = Panic
          | Some elf => elf_ok fuel elf →
              if riscv_program elf then
                (exec fuel parse path count k = Panic ∧ exhausted (M := Sv39Manager) (pages_needed elf) (mach k)) ∨
                ∃ b c T' k', exec fuel parse path count k = Done (0, k') ∧ execed i h (set_more b k) TT p elf c T' k' ∧ on_disk k' w
              else exec fuel parse path count k = Panic
          end
      end
  end.
Proof.
  intros Hi Hc Hp HT Hn Hd Hm Hdisk Ha unknown.
  assert (∀ k1, (∃ b, k1 = set_more b k) → named_file path count k = Done (None, k1) → fs (more k1) = Some d → on_disk k1 w → unknown) as Hunknown.
  { intros k1 [b ->] Hnamed Hd1 Hdisk1. destruct (unknown_file_run _ w d bl names Hd1 Hm Hdisk1) as (b' & Hrun & Hod). eexists.
    unfold exec. rewrite (st_bind_run _ _ _ _ _ Hnamed), (st_bind_run _ _ _ _ _ Hrun).
    split; [reflexivity|split; [done|split; [|split; [done|]]]]; [|by apply (on_disk_keep (set_more (mkFiles (Some d) b') (set_more b k)))].
    apply (more_machine_inv h k TT i p T Hi Hc Hp HT (mkFiles (Some d) b')). by apply (own_idle k p T). }
  pose proof (named_file_run h k TT i p T path count w d bl names Hi Hc Hp HT Hd Hm Hdisk Ha) as Hnamed.
  destruct (place k T path (build_flags "RV")) as [ptr|]; [|by apply (Hunknown k); [exists (more k); by destruct k|..]].
  destruct Hnamed as (r & b & Hnamed & Hod & Hfound). exists r. split; [exact Hfound|]. destruct r as [inode|]; [|by eapply Hunknown; [by eexists|..]].
  intros fbl Hfile Hlen.
  destruct (file_program_run fuel parse (set_more (mkFiles (Some d) b) k) w d inode fbl eq_refl Hod Hfile Hlen) as (b2 & Hod2 & Hprog).
  unfold exec. rewrite (st_bind_run _ _ _ _ _ Hnamed). simpl. destruct (parse (image w inode fbl)) as [elf|]; [|by apply st_bind_Panic, Hprog].
  rewrite (st_bind_run _ _ _ _ _ Hprog). intros Helf. change (set_more _ (set_more _ k)) with (set_more (mkFiles (Some d) b2) k).
  pose proof (exec_elf_run fuel elf h _ TT i p T (more_inv h k TT Hi (mkFiles (Some d) b2)) Hc Hp HT Hn Helf) as Hrun. destruct (riscv_program elf).
  - destruct Hrun as [[Hpn Hex]|(c & T' & k' & Hrun & He)]; [left; by rewrite (st_bind_Panic _ _ _ Hpn)|right].
    rewrite (st_bind_run _ _ _ _ _ Hrun). exists (mkFiles (Some d) b2), c, T', k'. split; [done|split; [done|]].
    apply (on_disk_keep (set_more (mkFiles (Some d) b2) k)); [apply He|by apply Hod2].
  - by rewrite (st_bind_Panic _ _ _ Hrun).
Qed.

(** The first program, with the scheduler of the chapter. *)
Lemma first_file_program_run fuel elf k : unbooted k → elf_ok fuel elf → riscv_program elf = true →
  (first_program fuel StrideManager_new elf k = Panic ∧ exhausted (M := Sv39Manager) (pages_needed elf) (mach k)) ∨
  ∃ k' p T, first_program fuel StrideManager_new elf k = Done ((), k') ∧ first_process k elf k' p T.
Proof. intros Hk. apply first_program_run; [done|done|exact (f_equal (fmap fst) heap_empty_elems)]. Qed.

(** ** The loop *)

(** C8: Isolation along the loop of the kernel with a file system, as for the loop without one: whatever is on the disk and whatever the
    calls do to it.  As there, the first process lives and the calls pass addresses of the lower half and buffers within a
    page. *)
Theorem file_isolation fuel parse getchar run h k TT l k' : user_mode run → only_reads getchar → fork_inv h k TT →
  ProcManage.current (processor k) = None → file_rounds fuel parse getchar run k l k' →
  ∃ h' TT', fork_inv (h ++ h') k' TT' ∧ ProcManage.current (processor k') = None ∧ isolated eq l k TT k' TT'.
Proof.
  intros Hu Hg Hi Hc Hr.
  by apply (rounds_isolated (Y := files S) run _ (fun _ => True) _ ltac:(done) (files_serve fuel parse getchar Hg) Hu); [intros p q; by apply task_kept_eq|..].
Qed.

(** ** Descriptors out of range *)

(** C19: A descriptor beyond the table.  For a number that is not an index of the table, [close] and [fstat] answer -1 and
    change nothing; [read] and [write] on a buffer that the process may use so, except on the console, stop the kernel:
    they index the table without looking at its length. *)
Theorem descriptor_bounds getchar h k TT i p T fd buf count : fork_inv h k TT →
  ProcManage.current (processor k) = Some i → tasks k !! i = Some p → TT !! i = Some T →
  Z.of_nat (length (handles (extra p))) ≤ fd → 0 ≤ buf < 2 ^ 38 →
  close fd k = Done (-1, k) ∧ fstat fd buf k = Done (-1, k) ∧
  (is_Some (place k T buf (build_flags "RV")) → fd ≠ STDOUT → fd ≠ STDDEBUG → write fd buf count k = Panic) ∧
  (is_Some (place k T buf (build_flags "W_V")) → fd ≠ STDIN → read getchar fd buf count k = Panic).
Proof.
  intros Hi Hc Hp HT Hfd Ha. assert (handles (extra p) !! Z.to_nat fd = None) as Hn by (apply lookup_ge_None_2; lia).
  split_and!.
  - rewrite (close_eq h k TT i p Hi Hc Hp fd). change (fd_table (extra p)) with (handles (extra p)). by rewrite Hn.
  - rewrite (fstat_eq h k TT i p T Hi Hc Hp HT fd buf Ha), Hn. done.
  - intros [ptr Hptr] H1 H2. rewrite (write_eq h k TT i p T Hi Hc Hp HT fd buf count Ha), Hptr. cbv zeta.
    rewrite (proj2 (Z.eqb_neq _ _) H1), (proj2 (Z.eqb_neq _ _) H2). simpl. by rewrite Hn.
  - intros [ptr Hptr] H1. rewrite (read_eq h k TT i p T Hi Hc Hp HT getchar fd buf count Ha), Hptr, (proj2 (Z.eqb_neq _ _) H1).
    change (fd_table (extra p)) with (handles (extra p)). by rewrite Hn.
Qed.
End Properties.
End FileProps.
