(* ===== verification/FileDemo.v ===== *)
(** * A kernel with a file

    A disk of 16 blocks whose root directory has one file, a kernel of ch6 that runs one program, and the witnesses of the
    properties of FileProperties.v on it. *)

From Stdlib Require Import Ascii String.
From stdpp Require Import strings.
From S2P Require Import Prelude Bytes BlockStore BlockCache Bitmap Layout FileData Efs Vfs File Memory KernelContext TaskRel ProcManage ProcTree ProcInvariant ProcSystem Schedulers Syscall PageTable AddressSpace SpaceTree SpaceMap SpaceInvariant PageManager BatchKernel TaskKernel VmKernel VmTheorems VmIsolation VmLoad VmBoot VmDemo SpaceFamily ForkKernel ForkInvariant ForkMaking ForkCalls ForkRounds ForkProperties Descriptors DescCalls FileKernel FileProperties.

Module FileDemo.
Import Fork Desc Files Family SpaceRoot VmInv VmLoad ForkInv ForkMaking ForkCalls ForkRounds ForkProps DescCalls FileCalls FileProps.
#[local] Existing Instance BumpHeap.
#[local] Existing Instance BumpHeapLaws.
#[local] Existing Instance VmDemo.demo_crate.
#[local] Existing Instance VmDemo.demo_laws.
#[local] Existing Instance demo_spec.

(** ** The disk *)
Definition file_inode : DiskInode := mkDiskInode 100 (8 :: replicate 27 0) 0 0 0 0 1.
Definition disk (k : Z) : list Z :=
  if k =? 2 then encode (Pod := DiskInode_pod) demo_dir_inode ++ encode (Pod := DiskInode_pod) file_inode ++ replicate 248 0
  else if k =? 7 then demo_dir_data else replicate 512 0.
Definition device : mem_device := disk <$> seqZ 0 16.
(** The file [a]. *)
Definition demo_file : Inode := Inode_new 2 132.

Lemma disk_block k : length (disk k) = 512%nat ∧ Forall is_byte (disk k).
Proof.
  unfold disk. destruct (k =? 2).
  - split; [by vm_compute|]. apply Forall_app. split; [apply words_encode_bytes|].
    apply Forall_app. split; [apply words_encode_bytes|]. apply Forall_replicate. unfold is_byte. lia.
  - destruct (k =? 7); [exact (demo_dir_ok 7 ltac:(simpl; lia))|]. split; [apply length_replicate|].
    apply Forall_replicate. unfold is_byte. lia.
Qed.

Lemma disk_ok : contents_ok disk.
Proof. intros k _. apply disk_block. Qed.

Lemma device_block k : 0 ≤ k < 16 → mem_block device k = disk k.
Proof.
  intros Hk. unfold mem_block, device. apply list_lookup_total_correct. rewrite list_lookup_fmap, lookup_seqZ_lt by lia. simpl. f_equal. f_equal. lia.
Qed.

Lemma device_inv : mem_inv 16 device.
Proof. split; [reflexivity|]. apply Forall_fmap, Forall_forall. intros k _. apply disk_block. Qed.

Lemma disk_file : file_at disk demo_file [8].
Proof.
  split; [exact disk_ok|split; [by apply demo_free|by vm_compute]|].
  replace (inode_at disk demo_file) with file_inode by (by vm_compute). split; try done.
  - by intros [|i] b Hb; [injection Hb as <-|].
  - intros b Hb%list_elem_of_singleton. subst b. split; [simpl; lia|]. split; [set_solver|unfold BLOCK_CACHE_SIZE; simpl; lia].
  - intros [|i] b Hi; [|simpl in Hi; lia]. intros Hb%elem_of_nil. done.
  - apply NoDup_singleton.
Qed.

Definition demo_fs : FileSystem := mkFileSystem demo_efs demo_root.
Lemma disk_mounted : mounted disk demo_fs [7] [[97]].
Proof.
  split; [exact disk_ok|split; [by apply demo_free|by vm_compute]| |].
  - simpl. replace (inode_at disk demo_root) with (inode_at demo_dir demo_root) by (by vm_compute).
    destruct demo_directory as [Hm Hd Hc Hn]. split; [|exact Hd|exact Hc|].
    + rewrite demo_dir_at in *. destruct Hm as [? ? _ ? _ ?]. split; try done.
      * by intros [|i] b Hb; [injection Hb as <-|].
      * intros [|i] b Hi; [|simpl in Hi; lia]. intros Hb%elem_of_nil. done.
    + intros [|i] name Hi; [|done]. injection Hi as <-. by vm_compute.
  - intros j Hj. simpl in Hj. replace j with 0 by lia. eexists. by vm_compute.
Qed.

(** ** The kernel

    Its process starts with [a], a zero byte and 33 at 0x10004. *)
Definition file_elf : Vm.ElfFile :=
  Vm.mkElfFile true true true 0x10004 [Vm.mkProgramHeader true 4 3 0x10004 5000 true false true] [0; 0; 0; 0; 97; 0; 33].

Lemma file_elf_ok : elf_ok 8 file_elf.
Proof.
  split; [|repeat constructor; vm_compute; congruence|lia]. split.
  - apply Forall_singleton. split; simpl; [lia|unfold stack_range, page_size; simpl; lia|lia|reflexivity].
  - split; [constructor|done].
Qed.

Abbreviation demo_process := (Process FileExtra).
Abbreviation demo_state := (kernel (StrideManager demo_process (list StridePair)) (files (CacheState mem_device))).
Definition demo_kernel : demo_state :=
  mkKernel PManager_new 0 VmDemo.demo_first.1 (mkFiles (Some demo_fs) (BlockCacheManager_new device)) demo_machine.
Abbreviation after := (state_after demo_kernel).

(** Its first process was chosen, with the file open twice, for writing and for reading, at offset 10. *)
Definition writer : FileHandle := mkHandle (Some demo_file) false true 10.
Definition reader : FileHandle := mkHandle (Some demo_file) true false 10.
Definition open_twice (p : demo_process) : demo_process := set_extra (set_handles (standard_handles ++ [Some writer; Some reader]) (extra p)) p.
Definition booted : demo_state := after (first_program 8 StrideManager_new file_elf demo_kernel).
Definition chosen : demo_state := after (on_processor PManager_find_next booted).
Definition ready : demo_state := after (update_current open_twice chosen).

Lemma demo_on_disk k : blocks (more k) = blocks (more demo_kernel) → on_disk (k : demo_state) disk.
Proof.
  intros E. split; rewrite E.
  - apply cache_inv_new, device_inv.
  - done.
  - intros b Hb. by apply device_block.
Qed.

Lemma file_unbooted : unbooted demo_kernel.
Proof. by split. Qed.

Record demo_ready (k : demo_state) (p : demo_process) T : Prop := {
  dr_inv : fork_inv [EvNext (Some 0)] k {[0 := T]};
  dr_current : ProcManage.current (processor k) = Some 0;
  dr_task : tasks k !! 0 = Some (open_twice p);
  dr_program : VmBoot.has_program (Vm.mkKernel [] (mach k)) (vm_of p) T file_elf;
  dr_counter : pid_counter k = 1;
  dr_more : more k = more demo_kernel;
}.

Lemma file_readied (k0 k : demo_state) p T : first_process demo_kernel file_elf k0 p T → on_processor PManager_find_next k0 = Done (Some 0, k) →
  ∃ k' q, update_current open_twice k = Done ((), k') ∧ demo_ready k' q T.
Proof.
  intros F Hk. destruct (chosen_run [] k0 _ 0 k (fp_inv _ _ _ _ _ F) (fp_idle _ _ _ _ _ F) Hk) as [Hi (q & st & Hq & Ht) Hc (Hap & Hm & Hct)].
  rewrite (fp_tasks _ _ _ _ _ F) in Hq, Ht. apply lookup_singleton_Some in Hq as [_ <-].
  assert (tasks k !! 0 = Some (set_extra st p)) as Hp by (by rewrite Ht, lookup_insert_eq).
  pose proof (update_current_run _ k _ 0 _ open_twice Hi Hc Hp) as Hu. pose proof (fi_tasks _ _ _ Hi 0 _ Hp) as [].
  destruct (data_inv _ k _ 0 (set_extra st p) T Hi Hp (lookup_singleton_eq _ _) (open_twice (set_extra st p)) (mach k)) as [Hi' _];
    [by split|done|by apply (own_idle k (set_extra st p) T)|].
  eexists _, (set_extra st p). split; [exact Hu|]. split; [exact Hi'|exact Hc|..].
  - by rewrite (retask_tasks _ k _ 0 _ _ Hi), lookup_insert_eq.
  - change (mach (retask _ _ _ _)) with (mach k). rewrite Hm. exact (fp_program _ _ _ _ _ F).
  - change (pid_counter (retask _ _ _ _)) with (pid_counter k). rewrite Hct. exact (fp_counter _ _ _ _ _ F).
  - change (more (retask _ _ _ _)) with (more k). rewrite Hap. exact (fp_more _ _ _ _ _ F).
Qed.

Lemma demo_boots : ∃ p T, first_process demo_kernel file_elf booted p T.
Proof.
  assert (returned (first_program 8 StrideManager_new file_elf demo_kernel) = true) as Hd by (vm_compute; reflexivity).
  destruct (first_file_program_run 8 file_elf demo_kernel file_unbooted file_elf_ok eq_refl) as [[Hp _]|(k & p & T & Hk & F)];
    [rewrite Hp in Hd; discriminate Hd|].
  assert (k = booted) as -> by (symmetry; exact (state_after_eq demo_kernel _ _ _ Hk)). by exists p, T.
Qed.

Lemma demo_is_ready : ∃ p T, demo_ready ready p T.
Proof.
  destruct demo_boots as (p & T & F).
  assert ((if on_processor PManager_find_next booted is Done (Some 0, _) then true else false) = true) as Hn by (vm_compute; reflexivity).
  destruct (on_processor PManager_find_next booted) as [[o k]| |] eqn:Hk; [|discriminate Hn..].
  destruct o as [[| |]|]; [|discriminate Hn..]. clear Hn.
  destruct (file_readied _ _ _ _ F Hk) as (k' & q & Hu & Hr).
  assert (k = chosen) as -> by (symmetry; exact (state_after_eq demo_kernel _ _ _ Hk)). clear Hk.
  assert (k' = ready) as -> by (symmetry; exact (state_after_eq demo_kernel _ _ _ Hu)). by exists q, T.
Qed.

(** ** Witnesses *)
Section Ready.
Variables (k : demo_state) (p : demo_process) (T : gmap (list Z) Z).
Hypothesis R : demo_ready k p T.

Lemma demo_place addr flags : 0 ≤ addr < 2 ^ 38 → (if user_ptr addr flags k is Done (Some _, _) then true else false) = true →
  is_Some (place k T addr flags).
Proof.
  intros Ha Hd. rewrite (user_ptr_run _ k _ 0 _ T (dr_inv _ _ _ R) (dr_current _ _ _ R) (dr_task _ _ _ R) (lookup_singleton_eq _ _) addr flags Ha) in Hd.
  destruct (place k T addr flags) as [ptr|]; [by exists ptr|discriminate Hd].
Qed.

Lemma demo_bytes x : 0 ≤ x < 8192 → byte_at (mc_mem (mach k)) T (0x10000 + x) =
  Some (seg_byte (Vm.elf_input file_elf) (Vm.mkProgramHeader true 4 3 0x10004 5000 true false true) x).
Proof. intros Hx. destruct (dr_program _ _ _ R) as [Hs _]. destruct (proj1 (Forall_singleton _ _) Hs) as [Hb _]. exact (Hb x Hx). Qed.

(** The name at 0x10004, and what is there behind its place. *)
Lemma demo_name ptr : place k T 0x10004 (build_flags "RV") = Some ptr → mc_mem (mach k) ptr = 97 ∧ mc_mem (mach k) (ptr + 1) = 0.
Proof.
  intros Hp. pose proof (place_byte k T _ _ _ 0 Hp ltac:(vm_compute; split; congruence)) as H0.
  pose proof (place_byte k T _ _ _ 1 Hp ltac:(vm_compute; split; congruence)) as H1.
  assert (byte_at (mc_mem (mach k)) T (0x10004 + 0) = Some 97) as E0 by (etrans; [exact (demo_bytes 4 ltac:(lia))|vm_compute; reflexivity]).
  assert (byte_at (mc_mem (mach k)) T (0x10004 + 1) = Some 0) as E1 by (etrans; [exact (demo_bytes 5 ltac:(lia))|vm_compute; reflexivity]).
  rewrite E0 in H0. rewrite E1 in H1. rewrite Z.add_0_r in H0. injection H0 as <-. by injection H1 as <-.
Qed.

Lemma demo_disk : on_disk k disk.
Proof. apply demo_on_disk. by rewrite (dr_more _ _ _ R). Qed.
Lemma demo_mounted : fs (more k) = Some demo_fs.
Proof. by rewrite (dr_more _ _ _ R). Qed.

Lemma demo_opened fd f : (standard_handles ++ [Some writer; Some reader]) !! Z.to_nat fd = Some (Some f) → fh_inode f = Some demo_file → fh_offset f = 10 →
  opened (open_twice p) fd f demo_file.
Proof. intros Hf Hi Ho. split; [exact Hf|exact Hi|by rewrite Ho]. Qed.
End Ready.

Lemma demo_source p T : demo_ready ready p T → is_Some (place ready T 0x10004 (build_flags "RV")).
Proof. intros R. apply (demo_place _ p T R); [lia|vm_compute; reflexivity]. Qed.

(** Three bytes of the program go to the file and come back on the stack. *)
Lemma file_roundtrip_witness : ∃ k1 k2 T, write 3 0x10004 3 ready = Done (3, k1) ∧ read demo_getchar 4 (2 ^ 38 - 64) 3 k1 = Done (3, k2) ∧
  byte_at (mc_mem (mach k2)) T (2 ^ 38 - 64) = Some 97.
Proof.
  destruct demo_is_ready as (p & T & R).
  assert (∀ j b, 0 ≤ j < 3 → byte_at (mc_mem (mach ready)) T (0x10004 + j) = Some b → is_byte b) as Hby.
  { intros j b Hj Hd. replace (0x10004 + j) with (0x10000 + (4 + j)) in Hd by lia. rewrite (demo_bytes _ p T R) in Hd by lia.
    assert (j = 0 ∨ j = 1 ∨ j = 2) as [-> | [-> | ->]] by lia; vm_compute in Hd; injection Hd as <-; unfold is_byte; lia. }
  assert (is_Some (place ready T (2 ^ 38 - 64) (build_flags "W_V"))) as Hdst by (apply (demo_place _ p T R); [lia|vm_compute; reflexivity]).
  destruct (file_roundtrip demo_getchar _ ready _ 0 (open_twice p) T 3 4 writer reader demo_file disk [8] 0x10004 (2 ^ 38 - 64) 3
    (dr_inv _ _ _ R) (dr_current _ _ _ R) (dr_task _ _ _ R) (lookup_singleton_eq _ _) ltac:(by vm_compute) ltac:(by vm_compute) ltac:(by vm_compute) ltac:(by vm_compute)
    (demo_opened p 3 writer eq_refl eq_refl eq_refl) eq_refl (demo_opened p 4 reader eq_refl eq_refl eq_refl) eq_refl eq_refl
    disk_file (demo_disk _ p T R) (mk_is_Some _ _ (demo_mounted _ p T R)) Hby ltac:(split; [lia|vm_compute; congruence])
    (demo_source p T R) ltac:(split; [lia|vm_compute; congruence])
    Hdst ltac:(lia) ltac:(vm_compute; reflexivity)) as (k1 & k2 & H1 & H2 & _ & _ & _ & Hb).
  exists k1, k2, T. split; [exact H1|split; [exact H2|]]. specialize (Hb 0 ltac:(lia)). rewrite !Z.add_0_r in Hb. rewrite Hb.
  etrans; [exact (demo_bytes _ p T R 4 ltac:(lia))|vm_compute; reflexivity].
Defined.

(** The inode of the one entry. *)
Lemma demo_found r : found_inode disk (efs demo_fs) [7] [[97]] [97] r → r = Some demo_file.
Proof.
  destruct r as [inode|]; [|intros Hn; destruct Hn; by left]. intros (n & Hn & _ & Hpos). destruct n as [|n]; [|done].
  destruct inode as [b o]. simpl in Hpos. vm_compute in Hpos. by injection Hpos as <- <-.
Qed.

(** The file is opened once more, and is descriptor 5. *)
Lemma open_spec_witness : ∃ k' p, open 8 0x10004 0 ready = Done (5, k') ∧ tasks k' !! 0 = Some p ∧
  handles (extra p) !! 5%nat = Some (Some (FileHandle_new true false demo_file)).
Proof.
  destruct demo_is_ready as (p & T & R).
  pose proof (open_spec 8 _ ready _ 0 (open_twice p) T 0x10004 0 disk demo_fs [7] [[97]] (dr_inv _ _ _ R) (dr_current _ _ _ R) (dr_task _ _ _ R)
    (lookup_singleton_eq _ _) (demo_mounted _ p T R) disk_mounted (demo_disk _ p T R) ltac:(lia)) as Hs.
  destruct (demo_source p T R) as [ptr Hp].
  rewrite Hp in Hs. destruct (demo_name _ p T R ptr Hp) as [H0 H1].
  assert (c_str 8 (mc_mem (mach ready)) ptr = Done [97]) as Hc by (cbn [c_str]; by rewrite H0, H1).
  specialize (Hs _ Hc). change (OpenFlags_from_bits (as_u32 0)) with (Some RDONLY) in Hs. specialize (Hs eq_refl eq_refl).
  change (concat (char_bytes <$> [97])) with [97] in Hs.
  destruct Hs as (r & k' & Hf & _ & _ & _ & Ho). rewrite (demo_found r Hf) in Ho. destruct Ho as [Ho Ht]. exists k'. eexists. split; [exact Ho|].
  split; [rewrite Ht; apply lookup_insert_eq|reflexivity].
Defined.

(** Nine descriptors are too many. *)
Lemma descriptor_bounds_witness : close 9 ready = Done (-1, ready) ∧ write 9 0x10004 3 ready = Panic.
Proof.
  destruct demo_is_ready as (p & T & R).
  destruct (descriptor_bounds demo_getchar _ ready _ 0 (open_twice p) T 9 0x10004 3 (dr_inv _ _ _ R) (dr_current _ _ _ R) (dr_task _ _ _ R)
    (lookup_singleton_eq _ _) ltac:(by vm_compute) ltac:(lia)) as (Hc & _ & Hw & _).
  split; [exact Hc|]. apply Hw; [|by vm_compute|by vm_compute].
  exact (demo_source p T R).
Defined.

(** The process runs the program of the file [a], and keeps its five descriptors. *)
Definition demo_parse (data : list Z) : option Vm.ElfFile := Some file_elf.
Lemma exec_file_spec_witness : ∃ k' c, exec 8 demo_parse 0x10004 1 ready = Done (0, k') ∧ tasks k' !! 0 = Some c ∧ length (handles (extra c)) = 5%nat ∧
  on_disk k' disk.
Proof.
  destruct demo_is_ready as (p & T & R).
  pose proof (exec_file_spec 8 demo_parse 0x10004 1 _ ready _ 0 (open_twice p) T disk demo_fs [7] [[97]] (dr_inv _ _ _ R) (dr_current _ _ _ R) (dr_task _ _ _ R)
    (lookup_singleton_eq _ _)) as Hs.
  rewrite (dr_counter _ _ _ R) in Hs. specialize (Hs ltac:(reflexivity) (demo_mounted _ p T R) disk_mounted (demo_disk _ p T R) ltac:(lia)). cbv zeta in Hs.
  assert ((if exec 8 demo_parse 0x10004 1 ready is Done (0, _) then true else false) = true) as Hd by (vm_compute; reflexivity).
  destruct (demo_source p T R) as [ptr Hp].
  rewrite Hp in Hs. destruct (demo_name _ p T R ptr Hp) as [H0 _].
  assert (mem_read (mc_mem (mach ready)) ptr (Z.to_nat 1) = [97]) as Hn.
  { unfold mem_read. change (seqZ ptr (Z.of_nat (Z.to_nat 1))) with [Z.of_nat 0 + ptr]. cbn [fmap list_fmap]. by rewrite Z.add_0_l, H0. }
  rewrite Hn in Hs. destruct Hs as (r & Hf & Hs). rewrite (demo_found r Hf) in Hs.
  specialize (Hs [8] disk_file ltac:(by vm_compute)). unfold demo_parse in Hs. specialize (Hs file_elf_ok). change (riscv_program file_elf) with true in Hs.
  fold demo_parse in Hs. destruct Hs as [[Hpn _]|(b & c & T' & k' & Hr & He & Hod)]; [rewrite Hpn in Hd; discriminate Hd|].
  exists k', c. split; [exact Hr|]. split; [rewrite (ex_tasks _ _ _ _ _ _ _ _ _ He); apply lookup_insert_eq|].
  split; [by rewrite (ex_extra _ _ _ _ _ _ _ _ _ He)|exact Hod].
Defined.
Definition demo_turn : demo_state → outcome (bool * demo_state) := turn demo_mode (user_env_call (registry 8 demo_parse demo_getchar)).
Definition one_fork : demo_state := state_after booted (demo_turn booted).
Definition two_forks : demo_state := state_after one_fork (demo_turn one_fork).

Lemma file_forks n k : forks (user_env_call (registry 8 demo_parse demo_getchar)) n k = true →
  file_rounds 8 demo_parse demo_getchar demo_mode k [n] (state_after k (demo_turn k)).
Proof.
  apply (forks_rounds _ (call_ok 8 demo_parse)). intros q p id a -> Har. split; try discriminate.
  - intros [|]; discriminate.
  - intros ar _. apply Har.
Qed.

(** Process 0 forks, then process 1 does: process 0 is as it was before the second round. *)
Lemma file_isolation_witness : ∃ h TT p T, file_rounds 8 demo_parse demo_getchar demo_mode one_fork [1] two_forks ∧
  fork_inv h two_forks TT ∧ tasks one_fork !! 0 = Some p ∧ tasks two_forks !! 0 = Some p ∧
  ∀ addr, in_areas (addr / page_size) (areas (address_space p)) →
    byte_at (mc_mem (mach two_forks)) T addr = byte_at (mc_mem (mach one_fork)) T addr.
Proof.
  destruct demo_boots as (p0 & T0 & F).
  assert (file_rounds 8 demo_parse demo_getchar demo_mode booted [0] one_fork) as R1 by (apply file_forks; vm_compute; reflexivity).
  assert (file_rounds 8 demo_parse demo_getchar demo_mode one_fork [1] two_forks) as R2 by (apply file_forks; vm_compute; reflexivity).
  destruct (file_isolation 8 demo_parse demo_getchar demo_mode [] booted _ [0] one_fork demo_user_mode demo_only_reads
    (fp_inv _ _ _ _ _ F) (fp_idle _ _ _ _ _ F) R1) as (h1 & TT1 & Hi1 & Hc1 & _).
  destruct (file_isolation 8 demo_parse demo_getchar demo_mode _ one_fork TT1 [1] two_forks demo_user_mode demo_only_reads
    Hi1 Hc1 R2) as (h2 & TT2 & Hi2 & _ & Hkept).
  assert ((if tasks one_fork !! 0 is Some _ then true else false) = true) as Hp by (vm_compute; reflexivity).
  destruct (tasks one_fork !! 0) as [p|] eqn:Ep; [clear Hp|discriminate Hp].
  destruct (family_tables _ _ _ _ _ (fi_family _ _ _ Hi1) (inv_space _ _ _ 0 p Hi1 Ep)) as [T HT].
  destruct (Hkept 0 p T) as ((? & Hp' & <-) & _ & _ & Hb); [by intros [? | Hn]%elem_of_cons; [|by apply elem_of_nil in Hn]|exact Ep|exact HT|].
  exists (([] ++ h1) ++ h2), TT2, p, T. split; [exact R2|split; [exact Hi2|split; [reflexivity|split; [exact Hp'|exact Hb]]]].
Defined.
End FileDemo.
