(* ===== verification/IpcKernel.v ===== *)
(** * The kernel with pipes and signals

    Models [tg-rcore-tutorial-ch7/src/{main,process,fs,processor}.rs]: the kernel of ch6 with a FIFO scheduler, descriptors
    that may be ends of pipes, and signals, which the loop handles after each system call.  The parts it shares with ch5 and
    ch6 are in ForkKernel.v and Descriptors.v. *)

From Stdlib Require Import Ascii String.
From stdpp Require Import strings.
From S2P Require Import Prelude Bytes Pipe Memory Linker KernelContext TaskRel ProcManage Schedulers Signal Syscall PageTable AddressSpace SpaceTree PageManager BatchKernel TaskKernel VmKernel BlockStore Efs Vfs File ForkKernel Descriptors FileKernel.

Module Ipc.
Import Fork Desc.

(** ** Descriptors

    The ring buffers are shared, so an end of a pipe is the number of its buffer. *)
Inductive Fd :=
| Fd_File (f : FileHandle)
| Fd_PipeRead (p : Z)
| Fd_PipeWrite (p : Z)
| Fd_Empty (read write : bool).

Definition Fd_readable (fd : Fd) : bool :=
  match fd with
  | Fd_File f => FileHandle_readable f
  | Fd_PipeRead _ => true
  | Fd_PipeWrite _ => false
  | Fd_Empty read _ => read
  end.
Definition Fd_writable (fd : Fd) : bool :=
  match fd with
  | Fd_File f => FileHandle_writable f
  | Fd_PipeRead _ => false
  | Fd_PipeWrite _ => true
  | Fd_Empty _ write => write
  end.

(** ** Processes *)
Record IpcExtra := mkIpcExtra {
  fds : list (option Fd);
  signal : SignalImpl;
}.
Definition set_fds (l : list (option Fd)) (x : IpcExtra) : IpcExtra := mkIpcExtra l (signal x).
Definition set_signal (g : SignalImpl) (p : Process IpcExtra) : Process IpcExtra := set_extra (mkIpcExtra (fds (extra p)) g) p.

(** stdin, stdout and stderr. *)
Definition standard_fds : list (option Fd) := [Some (Fd_Empty true false); Some (Fd_Empty false true); Some (Fd_Empty false true)].

#[export] Instance ipc_extra : ProcessExtra IpcExtra := {|
  extra_new := mkIpcExtra standard_fds SignalImpl_new;
  extra_fork x := mkIpcExtra (Files.clone_table (fds x)) (SignalImpl_from_fork (signal x));
|}.
#[export] Instance ipc_table : FdTable IpcExtra Fd := {| fd_table := fds; set_fd_table := set_fds |}.

(** ** The state of the chapter

    The file system, the ring buffers by number, and the next number. *)
Record ipc (S : Type) := mkIpc {
  file_system : files S;
  pipes : gmap Z PipeRingBuffer;
  next_pipe : Z;
}.
Arguments mkIpc {S} _ _ _.
Arguments file_system {S} _.
Arguments pipes {S} _.
Arguments next_pipe {S} _.

(** How many [Arc]s to the write end of pipe [p] there are: the descriptors in the tables of the processes. *)
Definition is_writer (p : Z) (fd : option Fd) : bool := match fd with Some (Fd_PipeWrite q) => q =? p | _ => false end.
Definition write_ends (p : Z) (l : list (option Fd)) : Z := Z.of_nat (length (filter (fun fd => is_writer p fd = true) l)).
Definition writers (p : Z) (table : gmap Z (Process IpcExtra)) : Z :=
  foldr (fun e n => write_ends p (fds (extra e.2)) + n) 0 (map_to_list table).

(** [SignalAction], [repr(C)]. *)
Definition SignalAction_bytes (a : SignalAction) : list Z := le_encode 8 (handler a) ++ le_encode 8 (act_mask a).
Definition SignalAction_decode (b : list Z) : SignalAction := mkAction (le_decode (take 8 b)) (le_decode (drop 8 b)).

Section Kernel.
Context `{PTC : PageTableCrate}.
Context {S : Type} `{!BlockStore S}.
Abbreviation Process := (Process IpcExtra).
Abbreviation kernel := (kernel (ThreadManager Process) (ipc S)).
Implicit Types (k : kernel).

Definition on_file_system {A} (f : st (files S) A) : st (ipc S) A := fun y =>
  '(a, d) ← f (file_system y);
  Done (a, mkIpc d (pipes y) (next_pipe y)).
Definition put_pipe (p : Z) (ring : PipeRingBuffer) : st (ipc S) unit := fun y =>
  Done ((), mkIpc (file_system y) (<[p := ring]> (pipes y)) (next_pipe y)).
Definition get_pipe (p : Z) : st (ipc S) PipeRingBuffer := fun y =>
  ring ← unwrap (pipes y !! p);
  Done (ring, y).

(** [writers] is how many write ends there are of each pipe. *)
Definition Fd_read (writers : Z → Z) (fd : Fd) (slice : list Z) : st (ipc S) (Z * Fd * list Z) :=
  match fd with
  | Fd_File f =>
      '(r, f, buf) ← on_file_system (on_blocks (FileHandle_read f [slice]));
      mret (r, Fd_File f, concat buf)
  | Fd_PipeRead p =>
      ring ← get_pipe p;
      '(r, ring, buf) ← lift (PipeReader_read ring (writers p) [slice]);
      put_pipe p ring;;
      mret (r, fd, concat buf)
  | _ => mret (-1, fd, slice)
  end.
Definition Fd_write (fd : Fd) (slice : list Z) : st (ipc S) (Z * Fd) :=
  match fd with
  | Fd_File f =>
      '(r, f) ← on_file_system (handle_write f [slice]);
      mret (r, Fd_File f)
  | Fd_PipeWrite p =>
      ring ← get_pipe p;
      '(r, ring) ← lift (PipeWriter_write ring [slice]);
      put_pipe p ring;;
      mret (r, fd)
  | _ => mret (-1, fd)
  end.

Definition task_table k : gmap Z Process := from_option fifo_tasks ∅ (manager (processor k)).

#[export] Instance ipc_descriptors : Descriptors S (ThreadManager Process) (ipc S) Fd := {|
  fd_of_file := Fd_File;
  fd_readable := Fd_readable;
  fd_writable := Fd_writable;
  fd_read fd slice := fun k => on_more (Fd_read (fun p => writers p (task_table k)) fd slice) k;
  fd_write fd slice := on_more (Fd_write fd slice);
  on_files A f := on_file_system f;
|}.

(** ** Pipes *)
Definition pipe (pipe : Z) : st kernel Z :=
  current ← current_process;
  let read_fd := Z.of_nat (length (fds (extra current))) in
  let write_fd := read_fd + 1 in
  ptr ← user_ptr pipe (build_flags "W_V");
  match ptr with
  | Some ptr =>
      on_machine (mc_on_mem (mem_write ptr (le_encode 8 read_fd)));;
      second ← lift (usize_add pipe 8);
      ptr ← user_ptr second (build_flags "W_V");
      match ptr with
      | Some ptr =>
          on_machine (mc_on_mem (mem_write ptr (le_encode 8 write_fd)));;
          k ← get_st;
          let p := next_pipe (more k) in
          on_more (fun y => Done ((), mkIpc (file_system y) (<[p := make_pipe]> (pipes y)) (p + 1)));;
          update_current (push_fd (Fd_PipeRead p));;
          update_current (push_fd (Fd_PipeWrite p));;
          mret 0
      | None => mret (-1)
      end
  | None => mret (-1)
  end.

(** ** Signals *)
Definition kill (target signum : Z) : st kernel Z := fun k =>
  target_task ← PManager_get_task (as_usize target) (processor k);
  match target_task, SignalNo_try_from signum with
  | Some p, Some signal_no =>
      if bool_decide (signal_no ≠ ERR) then
        g ← SignalImpl_add_signal signal_no (signal (extra p));
        '(_, k) ← update_task (as_usize target) (set_signal g) k;
        Done (0, k)
      else Done (-1, k)
  | _, _ => Done (-1, k)
  end.

(** The two halves of [sigaction]: whether they went well. *)
Definition give_old_action (signal_no : SignalNo) (old_action : Z) : st kernel bool :=
  if old_action =? 0 then mret true
  else
    current ← current_process;
    ptr ← user_ptr old_action (build_flags "W_V");
    match ptr with
    | Some ptr =>
        signal_action ← lift (SignalImpl_get_action_ref signal_no (signal (extra current)));
        match signal_action with
        | Some a => on_machine (mc_on_mem (mem_write ptr (SignalAction_bytes a)));; mret true
        | None => mret false
        end
    | None => mret false
    end.
Definition take_action (signal_no : SignalNo) (action : Z) : st kernel bool :=
  if action =? 0 then mret true
  else
    current ← current_process;
    ptr ← user_ptr action (build_flags "RV");
    match ptr with
    | Some ptr =>
        k ← get_st;
        '(ok, g) ← lift (SignalImpl_set_action signal_no (SignalAction_decode (mem_read (mc_mem (mach k)) ptr 16)) (signal (extra current)));
        update_current (set_signal g);;
        mret ok
    | None => mret false
    end.

Definition sigaction (signum action old_action : Z) : st kernel Z :=
  if MAX_SIG <? signum then mret (-1)
  else
    match SignalNo_try_from signum with
    | Some signal_no =>
        if bool_decide (signal_no = ERR) then mret (-1)
        else
          ok ← give_old_action signal_no old_action;
          if ok : bool then
            ok ← take_action signal_no action;
            mret (if ok : bool then 0 else -1)
          else mret (-1)
    | None => mret (-1)
    end.

Definition sigprocmask (mask : Z) : st kernel Z :=
  current ← current_process;
  let '(old, g) := SignalImpl_update_mask mask (signal (extra current)) in
  update_current (set_signal g);;
  mret (as_isize old).

Definition sigreturn : st kernel Z :=
  current ← current_process;
  let '(ok, ctx, g) := SignalImpl_sig_return (f_context (context current)) (signal (extra current)) in
  update_current (fun p => set_signal g (set_context (mkForeign ctx (f_satp (context p))) p));;
  mret (if ok : bool then 0 else -1).

(** [task.signal.handle_signals(ctx)] *)
Definition handle_signals (task : ProcId) : st kernel SignalResult :=
  p ← current_process;
  '(res, ctx, g) ← lift (SignalImpl_handle_signals (f_context (context p)) (signal (extra p)));
  update_task task (fun p => set_signal g (set_context (mkForeign ctx (f_satp (context p))) p));;
  mret res.

(** A system call of the task that runs: its signals come between the call and what becomes of it. *)
Definition user_env_call (registry : Registry kernel) (task : ProcId) : st kernel unit :=
  '(id, r) ← syscall registry task;
  res ← handle_signals task;
  match res with
  | ProcessKilled exit_code => act (PManager_make_current_exited exit_code)
  | _ => finish task id r
  end.

Section Calls.
Variable fuel : nat.
Variable parse : list Z → option Vm.ElfFile.
Variable console_getchar : st world Z.

Definition SyscallContext_io : IOSys kernel :=
  mkIOSys _ (read console_getchar) write (open fuel) close (fun _ _ _ _ _ => unimplemented) pipe (fun _ _ _ => unimplemented) (fun _ _ => unimplemented).
Definition SyscallContext_process : ProcessSys kernel :=
  mkProcessSys _ exit (fork fuel) (exec fuel parse) wait getpid (fun _ _ => unimplemented) (sbrk fuel).
Definition SyscallContext_scheduling : SchedulingSys kernel := mkSchedulingSys _ sched_yield (fun _ => unimplemented).
Definition SyscallContext_clock : ClockSys kernel := mkClockSys _ clock_gettime.
Definition SyscallContext_signal : SignalSys kernel := mkSignalSys _ kill sigaction sigprocmask sigreturn.
Definition registry : Registry kernel :=
  mkRegistry (Some SyscallContext_process) (Some SyscallContext_io) None
    (Some SyscallContext_scheduling) (Some SyscallContext_clock) (Some SyscallContext_signal) None None None.

Definition rust_main (rounds : nat) (run : ForeignContext → machine → ForeignContext * machine * Batch.Trap)
    (layout : KernelLayout) (text_len : Z) : st kernel unit :=
  make_kernel_space layout text_len (kernel_space fuel layout MEMORY);;
  load_initproc fuel parse ThreadManager_new;;
  schedule run (user_env_call registry) rounds.
End Calls.
End Kernel.
End Ipc.
