(* ===== verification/IpcCalls.v ===== *)
(** * The calls of the kernel with pipes and signals

    The system calls of ch7 and its handling of signals: each keeps the invariant of ForkInvariant.v, so the rounds of its
    loop are rounds of ForkRounds.v.  A signal changes the process it is sent to, so the other processes keep their
    entries but for the signals they received. *)

From Stdlib Require Import Ascii String.
From stdpp Require Import strings.
From S2P Require Import Prelude Bytes Pipe Memory KernelContext TaskRel ProcManage ProcTree ProcInvariant ProcSystem Schedulers Signal Syscall PageTable AddressSpace SpaceTree SpaceMap SpaceInvariant PageManager BatchKernel TaskKernel VmKernel VmTheorems VmIsolation VmLoad VmBoot SpaceFamily BlockStore Efs Vfs File ForkKernel ForkInvariant ForkMaking ForkCalls ForkRounds Descriptors DescCalls IpcKernel.

Module IpcCalls.
Import Fork Desc Ipc Family SpaceRoot VmInv VmLoad ForkInv ForkMaking ForkCalls ForkRounds DescCalls.

(** ** What a call may change *)

(** Nothing is promised of the disk and the pipes. *)
#[export] Instance ipc_kept {S} : MoreKept (ipc S) | 10.
Proof. by refine {| more_kept _ _ := True |}. Defined.

(** Another process may have received signals. *)
Definition signalled (x y : IpcExtra) : Prop :=
  ∃ r, y = mkIpcExtra (fds x) (with_received r (signal x)) ∧ (∀ n, Z.testbit (received (signal x)) n = true → Z.testbit r n = true) ∧
    (is_usize (received (signal x)) → is_usize r).
#[export] Instance ipc_extra_kept : ExtraKept IpcExtra.
Proof.
  refine {| extra_kept := signalled |}. split.
  - intros [f [r m hd a]]. exists r. by split.
  - intros [f [r m hd a]] ? ? (r2 & -> & H2 & U2) (r3 & -> & H3 & U3). exists r3. split; [done|]. split; [intros n Hn; by apply H3, H2|intros Hu; by apply U3, U2].
Defined.

(** ** Reading from a pipe fills the buffer without changing its length *)
Lemma buf_set_length (buf : list (list Z)) q c : length (concat (buf_set buf q c)) = length (concat buf).
Proof.
  destruct q as [i j]. revert i. induction buf as [|b buf IH]; intros [|i]; [done..| |].
  - change (buf_set (b :: buf) (0%nat, j) c) with (<[j:=c]> b :: buf). by rewrite !concat_cons, !length_app, length_insert.
  - change (buf_set (b :: buf) (S i, j) c) with (b :: buf_set buf (i, j) c). by rewrite !concat_cons, !length_app, IH.
Qed.

Lemma read_bytes_length n : ∀ r buf it a w m r' buf', read_bytes n r buf it a w = Done (m, r', buf') → length (concat buf') = length (concat buf).
Proof.
  induction n as [|n IH]; intros r buf it a w m r' buf'; [by intros [= _ _ <-]|]. cbn [read_bytes]. intros Hd.
  apply bind_Done in Hd as ([q it'] & _ & Hd). destruct q as [q|]; [|by injection Hd as _ _ <-].
  apply bind_Done in Hd as ([c r1] & _ & Hd). cbv zeta in Hd. destruct (a + 1 =? w); [injection Hd as _ _ <-; apply buf_set_length|].
  apply IH in Hd. by rewrite Hd, buf_set_length.
Qed.

Lemma PipeReader_read_length r w buf m r' buf' : PipeReader_read r w buf = Done (m, r', buf') → length (concat buf') = length (concat buf).
Proof.
  unfold PipeReader_read. destruct (PipeRingBuffer_available_read r =? 0); [|apply read_bytes_length].
  intros (c & _ & [= _ _ <-])%bind_Done. done.
Qed.

Section Calls.
Context `{PTC : PageTableCrate, HL : !HeapLaws, PTL : !PageTableLaws}.
Context {S : Type} `{!BlockStore S}.
Abbreviation Process := (Process IpcExtra).
Abbreviation kernel := (kernel (ThreadManager Process) (ipc S)).
Implicit Types (k : kernel) (T U : gmap (list Z) Z) (TT : gmap Z (gmap (list Z) Z)) (p q : Process) (s : machine) (h : list pevent).

Lemma Fd_read_slice w fd slice (y : ipc S) r fd' slice' y' : Fd_read w fd slice y = Done (r, fd', slice', y') → length slice' = length slice.
Proof.
  destruct fd as [f|n|n|rd wr]; simpl; [| |by intros [= _ _ <- _]..]; intros Hd.
  - apply st_bind_Done in Hd as ([[r2 f2] buf] & y1 & H1 & [= _ _ <- _]).
    unfold on_file_system in H1. apply bind_Done in H1 as ([a d] & H1 & [= -> _]).
    unfold on_blocks in H1. apply bind_Done in H1 as ([a b] & H1 & [= -> _]). apply FileHandle_read_length in H1.
    by rewrite H1, concat_cons, app_nil_r.
  - apply st_bind_Done in Hd as (ring & y1 & _ & Hd). apply st_bind_Done in Hd as ([[r2 ring2] buf] & y2 & H2 & Hd). unfold lift in H2.
    destruct (PipeReader_read ring _ [slice]) as [[[r3 ring3] buf3]| |] eqn:Hr; [|done|done]. injection H2 as -> -> -> <-.
    apply PipeReader_read_length in Hr. apply st_bind_Done in Hd as (u & y2 & _ & [= _ _ <- _]). by rewrite Hr, concat_cons, app_nil_r.
Qed.

#[export] Instance ipc_descriptors_ok : DescriptorsOk S IpcExtra (ThreadManager Process) (ipc S) Fd.
Proof.
  split; [done|done| |].
  - intros fd slice k r f' slice' k' (y & Hd & ->)%on_more_Done. split; [by eapply Fd_read_slice|by exists y].
  - intros fd slice k r f' k' (y & _ & ->)%on_more_Done. by exists y.
Qed.

Section Running.
Variables (h : list pevent) (k : kernel) (TT : gmap Z (gmap (list Z) Z)) (i : Z) (p : Process) (T : gmap (list Z) Z).
Hypothesis Hi : fork_inv h k TT.
Hypothesis Hc : ProcManage.current (processor k) = Some i.
Hypothesis Hp : tasks k !! i = Some p.
Hypothesis HT : TT !! i = Some T.

(** ** Pipes *)

(** A store of the process leaves the places where they are. *)
Lemma store_place s addr flags : own_writes (mach k) s (address_space p) T → place (set_mach s k) T addr flags = place k T addr flags.
Proof.
  intros Hw. destruct (family_writes (spaces k) TT (mach k) s i (address_space p) T) as (_ & Hm & _); [apply Hi|by eapply inv_space|done..|].
  unfold place. change (mach (set_mach s k)) with s. by rewrite Hm.
Qed.

(** The kernel with a new pipe, of number [n], and its ends at the end of the table of the process. *)
Definition piped s : kernel :=
  let n := next_pipe (more k) in
  retask i (push_fd (Fd_PipeWrite n) (push_fd (Fd_PipeRead n) p)) s
    (set_more (mkIpc (file_system (more k)) (<[n := make_pipe]> (pipes (more k))) (n + 1)) k).

Definition stored (ptr : Z) (n : Z) s : machine := mc_set_mem (mem_write ptr (le_encode 8 n) (mc_mem s)) s.

Lemma stored_own addr ptr n : buffer_ok addr 8 → place k T addr (build_flags "W_V") = Some ptr → own_writes (mach k) (stored ptr n (mach k)) (address_space p) T.
Proof. intros Hb Hpl. apply (place_writes h k TT i p T Hi Hp HT addr ptr); [by rewrite le_encode_length|done]. Qed.

(** The entry of the process is changed once more. *)
Lemma update_again f q s y : update_current f (retask i q s (set_more y k)) = Done ((), retask i (f q) s (set_more y k)).
Proof.
  unfold update_current, retask, with_tasks. simpl. rewrite Hc. simpl. unfold update_task, act, on_processor. simpl.
  destruct (inv_manager _ _ _ Hi) as (mgr & Hm & _). rewrite Hm. simpl. unfold set_processor. simpl.
  unfold ThreadManager_update. simpl. by rewrite alter_insert_eq.
Qed.

(** [pipe], on every branch. *)
Lemma pipe_eq addr : buffer_ok addr 8 → 0 ≤ addr + 8 < 2 ^ 38 → pipe addr k =
  match place k T addr (build_flags "W_V") with
  | None => Done (-1, k)
  | Some ptr =>
      let read_fd := Z.of_nat (length (fds (extra p))) in
      let s1 := stored ptr read_fd (mach k) in
      match place k T (addr + 8) (build_flags "W_V") with
      | None => Done (-1, set_mach s1 k)
      | Some ptr2 => Done (0, piped (stored ptr2 (read_fd + 1) s1))
      end
  end.
Proof.
  intros Hb Hb2. unfold pipe. rewrite (st_bind_run _ _ _ _ _ (current_run h k TT i p Hi Hc Hp)), (st_bind_run _ _ _ _ _ (user_ptr_run h k TT i p T Hi Hc Hp HT addr _ (proj1 Hb))).
  destruct (place k T addr (build_flags "W_V")) as [ptr|] eqn:Hpl; [|done].
  set (read_fd := Z.of_nat (length (fds (extra p)))). set (s1 := stored ptr read_fd (mach k)).
  pose proof (stored_own addr ptr read_fd Hb Hpl) as Hw. fold s1 in Hw.
  assert (on_machine (mc_on_mem (mem_write ptr (le_encode 8 read_fd))) k = Done ((), set_mach s1 k)) as E1 by done.
  rewrite (st_bind_run _ _ _ _ _ E1). assert (usize_add addr 8 = Done (addr + 8)) as E2 by (apply checked_ok; unfold usize_max; lia).
  rewrite (st_bind_run _ _ _ _ _ (lift_run _ _ _ E2)).
  destruct (more_machine_inv h k TT i p T Hi Hc Hp HT (more k) s1 Hw) as [Hi1 _].
  change (set_mach s1 (set_more (more k) k)) with (set_mach s1 k) in Hi1.
  rewrite (st_bind_run _ _ _ _ _ (user_ptr_run h (set_mach s1 k) TT i p T Hi1 Hc Hp HT (addr + 8) _ Hb2)), (store_place s1 _ _ Hw).
  destruct (place k T (addr + 8) (build_flags "W_V")) as [ptr2|]; [|done]. set (s2 := stored ptr2 (read_fd + 1) s1).
  assert (on_machine (mc_on_mem (mem_write ptr2 (le_encode 8 (read_fd + 1)))) (set_mach s1 k) = Done ((), set_mach s2 k)) as E3 by done.
  rewrite (st_bind_run _ _ _ _ _ E3), (st_bind_run get_st _ _ _ _ eq_refl). set (n := next_pipe (more k)).
  set (y := mkIpc (file_system (more k)) (<[n := make_pipe]> (pipes (more k))) (n + 1)).
  change (next_pipe (more (set_mach s2 k))) with n. unfold mbind at 1, st_bind, on_more. simpl.
  change (set_more _ (set_mach s2 k)) with (set_mach s2 (set_more y k)).
  rewrite (st_bind_run _ _ _ _ _ (put_more_run h k TT i p Hi Hc Hp (push_fd (Fd_PipeRead n)) y s2)).
  by rewrite (st_bind_run _ _ _ _ _ (update_again _ _ _ _)).
Qed.

Lemma pipe_called addr r k' : buffer_ok addr 8 → buffer_ok (addr + 8) 8 → pipe addr k = Done (r, k') → called i h k TT k'.
Proof.
  intros Hb Hb2 Hd. rewrite (pipe_eq addr Hb (proj1 Hb2)) in Hd.
  destruct (place k T addr (build_flags "W_V")) as [ptr|] eqn:Hpl; [|injection Hd as _ <-; by apply same_called]. cbv zeta in Hd.
  set (s1 := stored ptr _ (mach k)) in Hd. pose proof (stored_own addr ptr (Z.of_nat (length (fds (extra p)))) Hb Hpl) as Hw. fold s1 in Hw.
  destruct (more_machine_inv h k TT i p T Hi Hc Hp HT (more k) s1 Hw) as [Hi1 Ho1].
  change (set_mach s1 (set_more (more k) k)) with (set_mach s1 k) in Hi1, Ho1.
  destruct (place k T (addr + 8) (build_flags "W_V")) as [ptr2|] eqn:Hpl2; [|injection Hd as _ <-; by eapply kept_called].
  injection Hd as _ <-. apply (called_trans i h k TT (set_mach s1 k) [] TT); rewrite ?app_nil_r; [done|by apply kept_stay|reflexivity|].
  rewrite <-(store_place s1 _ _ Hw) in Hpl2.
  apply (more_data_called h (set_mach s1 k) TT i p T Hi1 Hc Hp HT (mkIpc _ _ _)).
  by apply (place_writes h (set_mach s1 k) TT i p T Hi1 Hp HT (addr + 8)); [rewrite le_encode_length|].
Qed.

(** ** Signals *)

(** A process, this one or another, gets another state of the chapter. *)
Lemma other_called j q x : tasks k !! j = Some q → signalled (extra q) x → called i h k TT (retask j (set_extra x q) (mach k) k).
Proof.
  intros Hq Hx. destruct (family_tables _ _ _ _ _ (fi_family _ _ _ Hi) (inv_space _ _ _ j q Hi Hq)) as [U HU].
  pose proof (fi_tasks _ _ _ Hi j q Hq) as [].
  destruct (data_inv h k TT j q U Hi Hq HU (set_extra x q) (mach k)) as [Hi' Ho]; [by split|done|by apply (own_idle k q U)|].
  split; [|done]. split; [|reflexivity]. exists [], TT. rewrite app_nil_r. split; [done|]. intros j' p' T' Hj' Hp' HT'.
  destruct (decide (j' = j)) as [->|Hne].
  - rewrite Hp' in Hq. injection Hq as ->. exists (set_extra x q). rewrite (retask_tasks h k TT) by done. rewrite lookup_insert_eq.
    split_and!; [done|by split|done|]. by split.
  - destruct (Ho j' p' T' Hne Hp' HT') as (Hp2 & HT2 & Hs). exists p'. split_and!; [done|apply task_kept_refl|done|done].
Qed.

(** The running process gets another context and other signals. *)
Lemma own_called c g : f_satp c = f_satp (context p) → called i h k TT (retask i (set_signal g (set_context c p)) (mach k) k).
Proof.
  intros Hs. pose proof (fi_tasks _ _ _ Hi i p Hp) as []. apply (data_called h k TT i p T Hi Hc Hp HT); [|done|by apply (own_idle k p T)].
  split; [done|done|]. simpl. by rewrite Hs.
Qed.

Lemma signal_called g : called i h k TT (retask i (set_signal g p) (mach k) k).
Proof. pose proof (own_called (context p) g eq_refl) as Hd. replace (set_context (context p) p) with p in Hd by (by destruct p). exact Hd. Qed.

Definition add_bit (n : SignalNo) (g : SignalImpl) : SignalImpl := with_received (Z.lor (received g) (Z.shiftl 1 (signal_num n))) g.

Lemma add_signal_run n g : SignalImpl_add_signal n g = Done (add_bit n g).
Proof. unfold SignalImpl_add_signal, SignalSet_add_bit. by rewrite (shl1_run _ (signal_num_range n)). Qed.

Lemma add_bit_signalled (n : SignalNo) x : signalled x (mkIpcExtra (fds x) (add_bit n (signal x))).
Proof.
  eexists. split; [done|]. split; [intros b Hn; by rewrite Z.lor_spec, Hn|]. intros Hu. apply lor_usize; [done|apply signal_num_range].
Qed.

(** [kill], on every branch. *)
Lemma kill_eq target signum : kill target signum k =
  match tasks k !! as_usize target, SignalNo_try_from signum with
  | Some q, Some n =>
      if bool_decide (n ≠ ERR) then Done (0, retask (as_usize target) (set_signal (add_bit n (signal (extra q))) q) (mach k) k)
      else Done (-1, k)
  | _, _ => Done (-1, k)
  end.
Proof.
  destruct (inv_manager _ _ _ Hi) as (mgr & Hm & Ht). unfold kill, PManager_get_task. rewrite Hm. simpl. rewrite Ht.
  unfold ThreadManager_get. change (tasks_of mgr) with (fifo_tasks mgr).
  destruct (fifo_tasks mgr !! as_usize target) as [q|] eqn:Hq; [|done]. destruct (SignalNo_try_from signum) as [n|]; [|done].
  case_bool_decide; [|done]. rewrite add_signal_run. simpl.
  assert (tasks k !! as_usize target = Some q) as Hq' by (by rewrite Ht).
  by rewrite (update_task_run h k TT (as_usize target) q _ Hi Hq').
Qed.

Lemma kill_called target signum r k' : kill target signum k = Done (r, k') → called i h k TT k'.
Proof.
  rewrite kill_eq. intros Hd. destruct (tasks k !! as_usize target) as [q|] eqn:Hq; [|injection Hd as _ <-; by apply same_called].
  destruct (SignalNo_try_from signum) as [n|]; [|injection Hd as _ <-; by apply same_called].
  case_bool_decide; [|injection Hd as _ <-; by apply same_called]. injection Hd as _ <-.
  apply other_called; [done|apply add_bit_signalled].
Qed.

Lemma give_old_called (n : SignalNo) old b k' : buffer_ok old 16 → give_old_action n old k = Done (b, k') → called i h k TT k'.
Proof.
  intros Hb Hd. unfold give_old_action in Hd. destruct (old =? 0); [injection Hd as _ <-; by apply same_called|].
  rewrite (st_bind_run _ _ _ _ _ (current_run h k TT i p Hi Hc Hp)), (st_bind_run _ _ _ _ _ (user_ptr_run h k TT i p T Hi Hc Hp HT old _ (proj1 Hb))) in Hd.
  destruct (place k T old (build_flags "W_V")) as [ptr|] eqn:Hpl; [|injection Hd as _ <-; by apply same_called].
  apply st_bind_Done in Hd as (o & k1 & H1 & Hd). unfold lift in H1. destruct (SignalImpl_get_action_ref n (signal (extra p))) as [o'| |]; try done.
  injection H1 as -> <-. destruct o as [a|]; [|injection Hd as _ <-; by apply same_called]. injection Hd as _ <-.
  apply (more_machine_called h k TT i p T Hi Hc Hp HT (more k)).
  apply (place_writes h k TT i p T Hi Hp HT old ptr); [|done]. unfold SignalAction_bytes. by rewrite length_app, !le_encode_length.
Qed.

Lemma take_called (n : SignalNo) action b k' : 0 ≤ action < 2 ^ 38 → take_action n action k = Done (b, k') → called i h k TT k'.
Proof.
  intros Ha Hd. unfold take_action in Hd. destruct (action =? 0); [injection Hd as _ <-; by apply same_called|].
  rewrite (st_bind_run _ _ _ _ _ (current_run h k TT i p Hi Hc Hp)), (st_bind_run _ _ _ _ _ (user_ptr_run h k TT i p T Hi Hc Hp HT action _ Ha)) in Hd.
  destruct (place k T action (build_flags "RV")) as [ptr|]; [|injection Hd as _ <-; by apply same_called].
  rewrite (st_bind_run get_st _ _ _ _ eq_refl) in Hd. apply st_bind_Done in Hd as ([ok g] & k1 & H1 & Hd). unfold lift in H1.
  destruct (SignalImpl_set_action _ _ _) as [[ok' g']| |]; try done. injection H1 as -> -> <-.
  rewrite (st_bind_run _ _ _ _ _ (update_current_run h k TT i p _ Hi Hc Hp)) in Hd. injection Hd as _ <-. apply signal_called.
Qed.

Lemma sigprocmask_called mask r k' : sigprocmask mask k = Done (r, k') → called i h k TT k'.
Proof.
  intros Hd. unfold sigprocmask in Hd. rewrite (st_bind_run _ _ _ _ _ (current_run h k TT i p Hi Hc Hp)) in Hd.
  destruct (SignalImpl_update_mask mask (signal (extra p))) as [old g].
  rewrite (st_bind_run _ _ _ _ _ (update_current_run h k TT i p _ Hi Hc Hp)) in Hd. injection Hd as _ <-. apply signal_called.
Qed.

Lemma sigreturn_called r k' : sigreturn k = Done (r, k') → called i h k TT k'.
Proof.
  intros Hd. unfold sigreturn in Hd. rewrite (st_bind_run _ _ _ _ _ (current_run h k TT i p Hi Hc Hp)) in Hd.
  destruct (SignalImpl_sig_return (f_context (context p)) (signal (extra p))) as [[ok ctx] g].
  rewrite (st_bind_run _ _ _ _ _ (update_current_run h k TT i p _ Hi Hc Hp)) in Hd. injection Hd as _ <-. by apply own_called.
Qed.

(** The signals after a call. *)
Lemma handle_signals_eq : handle_signals i k =
  ('(res, ctx, g) ← SignalImpl_handle_signals (f_context (context p)) (signal (extra p));
   Done (res, retask i (set_signal g (set_context (mkForeign ctx (f_satp (context p))) p)) (mach k) k)).
Proof.
  unfold handle_signals. rewrite (st_bind_run _ _ _ _ _ (current_run h k TT i p Hi Hc Hp)). unfold lift, mbind at 1, st_bind.
  destruct (SignalImpl_handle_signals (f_context (context p)) (signal (extra p))) as [[[res ctx] g]| |]; [|done|done]. simpl.
  unfold mbind, st_bind. by rewrite (update_task_run h k TT i p _ Hi Hp).
Qed.

Lemma handle_signals_called res k' : handle_signals i k = Done (res, k') → called i h k TT k'.
Proof.
  rewrite handle_signals_eq. intros ([[r ctx] g] & _ & [= _ <-])%bind_Done. by apply own_called.
Qed.
End Running.

Lemma sigaction_called h k TT i p T signum action old r k' : fork_inv h k TT → ProcManage.current (processor k) = Some i → tasks k !! i = Some p →
  TT !! i = Some T → 0 ≤ action < 2 ^ 38 → buffer_ok old 16 → sigaction signum action old k = Done (r, k') → called i h k TT k'.
Proof.
  intros Hi Hc Hp HT Ha Hb Hd. unfold sigaction in Hd. destruct (MAX_SIG <? signum); [injection Hd as _ <-; by apply same_called|].
  destruct (SignalNo_try_from signum) as [n|]; [|injection Hd as _ <-; by apply same_called].
  case_bool_decide; [injection Hd as _ <-; by apply same_called|]. apply st_bind_Done in Hd as (ok & k1 & H1 & Hd).
  pose proof (give_old_called h k TT i p T Hi Hc Hp HT n old ok k1 Hb H1) as Hk1. apply (called_seq i h k TT k1 k' Hk1). intros h1 TT1 Hi1.
  destruct ok; [|injection Hd as _ <-; by apply same_called; [|destruct Hk1]]. apply st_bind_Done in Hd as (ok & k2 & H2 & [= _ <-]).
  pose proof (cl_current _ _ _ _ _ Hk1) as Hc1. destruct (inv_task _ _ _ _ Hi1 Hc1) as (q & U & Hq & HU & _).
  by eapply (take_called (h ++ h1) k1 TT1 i q U).
Qed.

(** ** The dispatcher *)

(** Arguments in the lower half of the address space, buffers within a page, programs that fit, and fuel for the pages of
    a call. *)
Record call_ok (fuel : nat) (parse : list Z → option Vm.ElfFile) k p (id : Z) (a : Z → Z) : Prop := {
  co_write : id = WRITE → 0 ≤ a 1 < 2 ^ 38;
  co_read : id = READ → buffer_ok (a 1) (a 2);
  co_open : id = OPENAT → 0 ≤ a 0 < 2 ^ 38;
  co_pipe : id = PIPE2 → buffer_ok (a 0) 8 ∧ buffer_ok (a 0 + 8) 8;
  co_program : id = EXECVE → program_ok fuel parse (a 0) (a 1) k;
  co_wait : id = WAIT4 → buffer_ok (a 1) 4;
  co_clock : id = CLOCK_GETTIME → VmRuns.args_ok fuel (vm_of p) (VmRuns.CClock (a 0) (a 1));
  co_brk : id = BRK → VmRuns.args_ok fuel (vm_of p) (VmRuns.CSbrk (as_i32 (a 0)));
  co_sigaction : id = RT_SIGACTION → 0 ≤ a 1 < 2 ^ 38 ∧ buffer_ok (a 2) 16;
  co_fork ar : id = CLONE → ar ∈ areas (address_space p) → ar.2 - ar.1 ≤ Z.of_nat fuel;
}.

Section Served.
Variables (fuel : nat) (parse : list Z → option Vm.ElfFile) (getchar : st world Z).
Hypothesis Hget : only_reads getchar.

Lemma ipc_keeps : keeps (registry fuel parse getchar) (fun _ => True) (call_ok fuel parse).
Proof.
  intros h k TT i p T id a r k' Hi Hc Hp HT Hn _ Hcall Hd. unfold handle in Hd.
  repeat match type of Hd with
  | (if ?x =? ?y then _ else _) _ = _ => destruct (Z.eqb_spec x y) as [->|]
  end; unfold Container_call in Hd; cbn [registry PROCESS IO MEMORY SCHEDULING CLOCK SIGNAL THREAD SYNC_MUTEX TRACE_] in Hd;
    try (injection Hd as _ <-; by apply same_called); apply st_bind_Done in Hd as (x & k1 & Hd & [= _ <-]); try discriminate Hd.
  all: cbn in Hd; try (injection Hd as _ <-; by apply same_called); pose proof (fi_tasks _ _ _ Hi i p Hp) as Hpok; destruct Hcall.
  - eapply write_called; [done..|by apply co_write0|exact Hd].
  - eapply read_called; [done..|by apply co_read0|exact Hd].
  - eapply open_called; [done..|by apply co_open0|exact Hd].
  - eapply close_called; [done..|exact Hd].
  - eapply fork_called; [done..| |exact Hd]. intros ar. by apply co_fork0.
  - eapply exec_file_called; [done..|by apply co_program0|exact Hd].
  - eapply wait_called; [done..|by apply co_wait0|exact Hd].
  - by eapply getpid_called.
  - eapply (vm_caller fuel h k TT i p T Hi Hc Hp HT (VmRuns.CClock (a 0) (a 1))); [by apply co_clock0|exact Hd].
  - by eapply kill_called.
  - destruct co_sigaction0 as [Ha Hb]; [done|]. by eapply (sigaction_called h k TT i p T).
  - by eapply sigprocmask_called.
  - by eapply sigreturn_called.
  - eapply sbrk_called; [done..|by apply co_brk0|exact Hd].
  - destruct co_pipe0 as [Ha Hb]; [done|]. eapply (pipe_called h k TT i p T Hi Hc Hp HT (a 0)); [exact Ha|exact Hb|exact Hd].
Qed.

(** The service of a call by the loop, with the signals that come after it. *)
Lemma ipc_serve : serves (user_env_call (registry fuel parse getchar)) (fun _ => True) (calls_ok (call_ok fuel parse)).
Proof.
  intros h k TT i u k' Hi Hc Hn Hok Hcalls Hd H0. unfold user_env_call in Hd. apply st_bind_Done in Hd as ([id r] & k1 & Hd1 & Hd).
  pose proof (syscall_run _ _ _ h k TT i _ k1 ipc_keeps Hi Hc Hn Hok Hcalls Hd1) as Hk1.
  apply (called_end i h k TT k1 k' Hk1). intros h1 TT1 Hi1. pose proof (cl_current _ _ _ _ _ Hk1) as Hc1.
  destruct (inv_task _ _ _ _ Hi1 Hc1) as (p & T & Hp & HT & _). apply st_bind_Done in Hd as (res & k2 & Hd2 & Hd).
  pose proof (handle_signals_called (h ++ h1) k1 TT1 i p T Hi1 Hc1 Hp HT res k2 Hd2) as Hk2.
  apply (called_end i _ k1 TT1 k2 k' Hk2). intros h2 TT2 Hi2. pose proof (cl_current _ _ _ _ _ Hk2) as Hc2.
  destruct res; try (eapply finish_run; [exact Hi2|exact Hc2|exact Hd|exact H0]). eapply exit_run; [exact Hi2|exact Hc2|exact Hd|exact H0].
Qed.
End Served.

(** Rounds of the loop of ch7, with the processes that ran. *)
Definition ipc_rounds (fuel : nat) (parse : list Z → option Vm.ElfFile) (getchar : st world Z)
    (run : ForeignContext → machine → ForeignContext * machine * Batch.Trap) : kernel → list Z → kernel → Prop :=
  rounds run (user_env_call (registry fuel parse getchar)) (calls_ok (call_ok fuel parse)).
End Calls.
End IpcCalls.
