(* ===== verification/IpcProperties.v ===== *)
(** * What the kernel with pipes and signals guarantees

    Pipes between processes, the death of a process by a signal, and the loop of ch7. *)

From Stdlib Require Import Ascii String.
From stdpp Require Import strings.
From S2P Require Import Prelude Bytes Pipe Memory KernelContext TaskRel ProcManage ProcTree ProcInvariant ProcSystem Schedulers Signal Syscall PageTable AddressSpace SpaceTree SpaceMap SpaceInvariant PageManager BatchKernel TaskKernel VmKernel VmTheorems VmIsolation VmLoad VmBoot SpaceFamily BlockStore Efs Vfs File ForkKernel ForkInvariant ForkMaking ForkCalls ForkRounds Descriptors DescCalls IpcKernel IpcCalls.

Module IpcProps.
Import Fork Desc Ipc Family SpaceRoot VmInv VmLoad ForkInv ForkMaking ForkCalls ForkRounds DescCalls IpcCalls.
Section Properties.
Context `{PTC : PageTableCrate, HL : !HeapLaws, PTL : !PageTableLaws}.
Context {S : Type} `{!BlockStore S}.
Abbreviation Process := (Process IpcExtra).
Abbreviation kernel := (kernel (ThreadManager Process) (ipc S)).
Implicit Types (k : kernel) (T U : gmap (list Z) Z) (TT : gmap Z (gmap (list Z) Z)) (p q : Process) (s : machine) (h : list pevent).

(** ** Pipes *)

(** The state with another ring for pipe [n]. *)
Definition with_ring (n : Z) (ring : PipeRingBuffer) k : kernel :=
  set_more (mkIpc (file_system (more k)) (<[n := ring]> (pipes (more k))) (next_pipe (more k))) k.

(** Descriptor [fd] of [p] is an end of a pipe. *)
Definition holds p (fd : Z) (file : Fd) : Prop := fds (extra p) !! Z.to_nat fd = Some (Some file).

Lemma put_fd_same p fd file : holds p fd file → put_fd fd (Some file) p = p.
Proof. intros Hf. destruct p as [? ? ? ? ? [l g]]. unfold put_fd, set_extra. simpl in *. unfold set_fds. simpl. by rewrite list_insert_id. Qed.

Lemma one_slice (bs : list Z) : bs ≠ [] → no_empty [bs] ∧ concat [bs] = bs.
Proof. intros Hne. split; [by repeat constructor|apply app_nil_r]. Qed.

Lemma mem_read_ne (m : memory) ptr count : 0 < count → mem_read m ptr (Z.to_nat count) ≠ [].
Proof. intros Hc E. apply (f_equal length) in E. rewrite mem_read_length in E. simpl in E. lia. Qed.

Lemma get_pipe_run n ring (y : ipc S) : pipes y !! n = Some ring → get_pipe n y = Done (ring, y).
Proof. intros Hn. unfold get_pipe. by rewrite Hn. Qed.

Lemma Fd_write_pipe n ring k bs r ring' : pipes (more k) !! n = Some ring → PipeWriter_write ring [bs] = Done (r, ring') →
  on_more (Fd_write (Fd_PipeWrite n) bs) k = Done ((r, Fd_PipeWrite n), with_ring n ring' k).
Proof. intros Hn Hw. unfold on_more, Fd_write. by rewrite (st_bind_run _ _ _ _ _ (get_pipe_run n ring _ Hn)), (st_bind_run _ _ _ _ _ (lift_run _ _ _ Hw)). Qed.

Lemma Fd_read_pipe n ring k bs r ring' buf : pipes (more k) !! n = Some ring → PipeReader_read ring (writers n (task_table k)) [bs] = Done (r, ring', buf) →
  on_more (Fd_read (fun x => writers x (task_table k)) (Fd_PipeRead n) bs) k = Done ((r, Fd_PipeRead n, concat buf), with_ring n ring' k).
Proof. intros Hn Hw. unfold on_more, Fd_read. by rewrite (st_bind_run _ _ _ _ _ (get_pipe_run n ring _ Hn)), (st_bind_run _ _ _ _ _ (lift_run _ _ _ Hw)). Qed.

#[local] Arguments Fd_read : simpl never.
#[local] Arguments Fd_write : simpl never.

Section Running.
Variables (h : list pevent) (k : kernel) (TT : gmap Z (gmap (list Z) Z)) (i : Z) (p : Process) (T : gmap (list Z) Z).
Hypothesis Hi : fork_inv h k TT.
Hypothesis Hc : ProcManage.current (processor k) = Some i.
Hypothesis Hp : tasks k !! i = Some p.
Hypothesis HT : TT !! i = Some T.

Lemma retask_ring s n ring : retask i p s (with_ring n ring k) = set_mach s (with_ring n ring k).
Proof. by apply (retask_id h _ TT i p (more_inv h k TT Hi _)). Qed.

(** A write takes what there is room for. *)
Lemma pipe_write_run fd n ring buf count ptr : fd ≠ STDOUT → fd ≠ STDDEBUG → holds p fd (Fd_PipeWrite n) → pipes (more k) !! n = Some ring →
  ring_ok ring → 0 ≤ buf < 2 ^ 38 → 0 < count → place k T buf (build_flags "RV") = Some ptr →
  let room := (32 - length (ring_contents ring))%nat in
  let m := (room `min` Z.to_nat count)%nat in
  ∃ ring', write fd buf count k = Done (if decide (room = 0%nat) then -2 else Z.of_nat m, with_ring n ring' k) ∧ ring_ok ring' ∧
    ring_contents ring' = ring_contents ring ++ take m (mem_read (mc_mem (mach k)) ptr (Z.to_nat count)).
Proof.
  intros H1 H2 Hf Hn Hr Ha Hcount Hpl room m. set (bs := mem_read (mc_mem (mach k)) ptr (Z.to_nat count)).
  destruct (one_slice bs (mem_read_ne _ _ _ Hcount)) as [Hne Hcat].
  destruct (pipe_write_spec ring [bs] Hr Hne) as (ring' & Hw & Hr' & Hc'). rewrite Hcat in Hw, Hc'.
  assert (length bs = Z.to_nat count) as Hl by apply mem_read_length. rewrite Hl in Hw, Hc'. fold room m in Hw, Hc'.
  pose proof (ring_contents_length ring Hr) as Hk. destruct (available_read_range ring Hr) as (Hav & _).
  exists ring'. split; [|done]. rewrite (write_eq h k TT i p T Hi Hc Hp HT fd buf count Ha), Hpl. cbv zeta. fold bs.
  rewrite (proj2 (Z.eqb_neq _ _) H1), (proj2 (Z.eqb_neq _ _) H2). simpl. rewrite Hf. simpl.
  rewrite (Fd_write_pipe n ring k bs _ ring' Hn Hw). simpl. rewrite (put_fd_same p fd _ Hf), retask_ring.
  do 2 f_equal. case_decide as D1; case_decide as D2; try lia; done.
Qed.

(** A read takes what there is; in front of an empty ring it tells whether a writer is left. *)
Lemma pipe_read_run getchar fd n ring buf count ptr : fd ≠ STDIN → holds p fd (Fd_PipeRead n) → pipes (more k) !! n = Some ring →
  ring_ok ring → buffer_ok buf count → 0 < count → place k T buf (build_flags "W_V") = Some ptr →
  let l := ring_contents ring in
  let m := (length l `min` Z.to_nat count)%nat in
  ∃ ring' s, let k' := set_mach s (with_ring n ring' k) in
    read getchar fd buf count k = Done (if decide (length l = 0%nat) then if writers n (tasks k) =? 0 then 0 else -2 else Z.of_nat m, k') ∧
    ring_ok ring' ∧ ring_contents ring' = drop m l ∧ fork_inv h k' TT ∧ others_kept i k TT k' TT ∧
    ∀ x, 0 ≤ buf mod page_size + x < page_size →
      byte_at (mc_mem s) T (buf + x) = if decide (0 ≤ x < Z.of_nat m) then Some (l !!! Z.to_nat x) else byte_at (mc_mem (mach k)) T (buf + x).
Proof.
  intros H1 Hf Hn Hr [Ha Hb] Hcount Hpl l m. set (old := mem_read (mc_mem (mach k)) ptr (Z.to_nat count)).
  assert (length old = Z.to_nat count) as Hlo by apply mem_read_length.
  destruct (one_slice old (mem_read_ne _ _ _ Hcount)) as [Hne Hcat].
  destruct (pipe_read_spec ring (writers n (task_table k)) [old] Hr Hne) as (ring' & buf' & Hw & Hr' & Hc' & _ & Hcat').
  rewrite Hcat, Hlo in Hw, Hc', Hcat'. fold l m in Hw, Hc', Hcat'.
  assert (length (concat buf') = length old) as Hln.
  { rewrite Hcat'. apply splice_length. rewrite length_take, Hlo. unfold m. lia. }
  set (s := mc_set_mem (mem_write ptr (concat buf') (mc_mem (mach k))) (mach k)).
  assert (own_writes (mach k) s (address_space p) T) as Hown.
  { apply (place_writes h k TT i p T Hi Hp HT buf ptr); [|done]. split; [done|rewrite Hln, Hlo; lia]. }
  exists ring', s. split; [|split; [done|split; [done|]]].
  - rewrite (read_eq h k TT i p T Hi Hc Hp HT getchar fd buf count Ha), Hpl, (proj2 (Z.eqb_neq _ _) H1). simpl. rewrite Hf. simpl. fold old.
    rewrite (Fd_read_pipe n ring k old _ ring' buf' Hn Hw). simpl. rewrite (put_fd_same p fd _ Hf), retask_ring.
    destruct (inv_manager _ _ _ Hi) as (mgr & Hm & Ht). unfold task_table, tasks. by rewrite Hm.
  - destruct (more_machine_inv h k TT i p T Hi Hc Hp HT (more (with_ring n ring' k)) s Hown) as [Hi' Ho'].
    split; [exact Hi'|split; [exact Ho'|]]. intros x Hx. unfold s.
    rewrite (store_seen h k TT i p T Hi Hp HT buf (build_flags "W_V") ptr (concat buf') x);
      [|done|rewrite Hln, Hlo; lia|by eapply place_translate|done].
    assert (Z.of_nat m ≤ count) by (unfold m; lia). rewrite Hln, Hlo, Z2Nat.id by lia. clear Hw. case_decide as D1; case_decide as D2; try lia; [| |done].
    + f_equal. rewrite Hcat'. apply list_lookup_total_correct. rewrite splice_lookup by (rewrite length_take, Hlo; unfold m; lia).
      rewrite length_take, decide_True by (unfold m in *; lia). rewrite Nat.sub_0_r, lookup_take_lt by (unfold m in *; lia).
      apply list_lookup_lookup_total_lt. unfold m in *. lia.
    + rewrite (place_byte k T buf _ ptr x Hpl Hx). f_equal. rewrite Hcat'. apply list_lookup_total_correct.
      rewrite splice_lookup by (rewrite length_take, Hlo; unfold m; lia). rewrite length_take, decide_False by (unfold m in *; lia).
      unfold old. rewrite mem_read_lookup by lia. do 2 f_equal. lia.
Qed.
End Running.

(** C18: [pipe], on every branch, for two slots of eight bytes in the lower half, neither across a page boundary.  If the
    process may not write the first, the answer is -1 and nothing changes.  If it may write the first only, the answer is -1, and
    the first slot holds the number of a descriptor that is not there.  Otherwise a new, empty pipe exists, its ends are the
    last two descriptors of the process, and the slots hold their numbers.  The other processes keep their entries,
    mappings and bytes. *)
Theorem pipe_spec h k TT i p T addr : fork_inv h k TT → ProcManage.current (processor k) = Some i → tasks k !! i = Some p → TT !! i = Some T →
  buffer_ok addr 8 → buffer_ok (addr + 8) 8 →
  let first := Z.of_nat (length (fds (extra p))) in
  let n := next_pipe (more k) in
  let slot s a v := ∀ x, 0 ≤ x < 8 → byte_at (mc_mem s) T (a + x) = Some (le_encode 8 v !!! Z.to_nat x) in
  if place k T addr (build_flags "W_V") is Some _ then
    ∃ k', fork_inv h k' TT ∧ others_kept i k TT k' TT ∧
      if place k T (addr + 8) (build_flags "W_V") is Some _ then
        pipe addr k = Done (0, k') ∧ slot (mach k') (addr + 8) (first + 1) ∧ (addr mod page_size + 16 ≤ page_size → slot (mach k') addr first) ∧
        (∃ q, tasks k' = <[i := q]> (tasks k) ∧ fds (extra q) = fds (extra p) ++ [Some (Fd_PipeRead n); Some (Fd_PipeWrite n)]) ∧
        pipes (more k') = <[n := make_pipe]> (pipes (more k)) ∧ file_system (more k') = file_system (more k)
      else pipe addr k = Done (-1, k') ∧ slot (mach k') addr first ∧ tasks k' = tasks k ∧ more k' = more k
  else pipe addr k = Done (-1, k).
Proof.
  intros Hi Hc Hp HT Hb Hb2 first n slot. rewrite (pipe_eq h k TT i p T Hi Hc Hp HT addr Hb (proj1 Hb2)). fold first.
  destruct (place k T addr (build_flags "W_V")) as [ptr|] eqn:Hpl; [|done]. cbv zeta. set (s1 := stored ptr first (mach k)).
  pose proof (stored_own h k TT i p T Hi Hp HT addr ptr first Hb Hpl) as Hw. fold s1 in Hw.
  destruct (more_machine_inv h k TT i p T Hi Hc Hp HT (more k) s1 Hw) as [Hi1 Ho1].
  change (set_mach s1 (set_more (more k) k)) with (set_mach s1 k) in Hi1, Ho1.
  assert (slot s1 addr first) as Hs1.
  { intros x Hx. unfold s1, stored. rewrite (store_seen h k TT i p T Hi Hp HT addr (build_flags "W_V") ptr _ x);
      [|apply Hb|rewrite le_encode_length; apply Hb|by eapply place_translate; [..|apply Hb|]|destruct Hb; pose proof (Z.mod_pos_bound addr page_size ltac:(done)); lia].
    by rewrite le_encode_length, decide_True by (simpl; lia). }
  destruct (place k T (addr + 8) (build_flags "W_V")) as [ptr2|] eqn:Hpl2; [|by exists (set_mach s1 k)].
  rewrite <-(store_place h k TT i p T Hi Hp HT s1 _ _ Hw) in Hpl2. set (s2 := stored ptr2 (first + 1) s1).
  pose proof (stored_own h (set_mach s1 k) TT i p T Hi1 Hp HT (addr + 8) ptr2 (first + 1) Hb2 Hpl2) as Hw2. fold s2 in Hw2.
  set (y := mkIpc (file_system (more k)) (<[n := make_pipe]> (pipes (more k))) (n + 1)).
  set (q := push_fd (Fd_PipeWrite n) (push_fd (Fd_PipeRead n) p)).
  destruct (more_data_inv h (set_mach s1 k) TT i p T Hi1 Hp HT y (extra q) s2 Hw2) as [Hi2 Ho2].
  pose proof (others_kept_trans i k TT (set_mach s1 k) TT _ TT Ho1 Ho2) as Ho.
  assert (∀ x, 0 ≤ (addr + 8) mod page_size + x < page_size → byte_at (mc_mem s2) T (addr + 8 + x) =
    if decide (0 ≤ x < 8) then Some (le_encode 8 (first + 1) !!! Z.to_nat x) else byte_at (mc_mem s1) T (addr + 8 + x)) as Hseen.
  { intros x Hx. unfold s2, stored. pose proof (store_seen h (set_mach s1 k) TT i p T Hi1 Hp HT (addr + 8) (build_flags "W_V") ptr2 (le_encode 8 (first + 1)) x) as E.
    rewrite le_encode_length in E. apply E; [apply Hb2|apply Hb2|by eapply place_translate; [..|apply Hb2|]|done]. }
  exists (piped k i p s2). split; [exact Hi2|split; [exact Ho|split; [done|split; [|split; [|split]]]]].
  - intros x Hx. change (mach (piped k i p s2)) with s2. rewrite Hseen, decide_True; [done..|].
    destruct Hb2. pose proof (Z.mod_pos_bound (addr + 8) page_size ltac:(done)). lia.
  - intros Hpage x Hx. change (mach (piped k i p s2)) with s2. replace (addr + x) with (addr + 8 + (x - 8)) by lia.
    rewrite Hseen, decide_False; [|lia|].
    + replace (addr + 8 + (x - 8)) with (addr + x) by lia. by apply Hs1.
    + destruct (same_page addr 8) as [_ ->]; pose proof (Z.mod_pos_bound addr page_size ltac:(done)); lia.
  - exists q. split; [|simpl; by rewrite <-app_assoc].
    exact (retask_tasks h (set_more y k) TT i q s2 (more_inv h k TT Hi y)).
  - done.
Qed.
(** C14: From one process to another.  A process writes a buffer into a pipe with room for it; the call answers the count.  In
    any later state whose pipe still holds what it did then, a process that reads at least all the pipe holds gets first the
    bytes that were there before the write and then those of the buffer, byte for byte, in its own address space, and the pipe
    is empty. *)
Theorem pipe_between getchar h k TT i p T fd n ring src count : fork_inv h k TT →
  ProcManage.current (processor k) = Some i → tasks k !! i = Some p → TT !! i = Some T → fd ≠ STDOUT → fd ≠ STDDEBUG → holds p fd (Fd_PipeWrite n) →
  pipes (more k) !! n = Some ring → ring_ok ring → buffer_ok src count → is_Some (place k T src (build_flags "RV")) →
  let before := Z.of_nat (length (ring_contents ring)) in 0 < count → before + count ≤ 32 →
  ∃ ring', write fd src count k = Done (count, with_ring n ring' k) ∧ ring_ok ring' ∧ fork_inv h (with_ring n ring' k) TT ∧
    ∀ h2 k2 TT2 j q U rfd ring2 dst want, fork_inv h2 k2 TT2 → ProcManage.current (processor k2) = Some j → tasks k2 !! j = Some q → TT2 !! j = Some U →
      rfd ≠ STDIN → holds q rfd (Fd_PipeRead n) → pipes (more k2) !! n = Some ring2 → ring_ok ring2 → ring_contents ring2 = ring_contents ring' →
      buffer_ok dst want → is_Some (place k2 U dst (build_flags "W_V")) → before + count ≤ want →
      ∃ ring'' k3, read getchar rfd dst want k2 = Done (before + count, k3) ∧ pipes (more k3) !! n = Some ring'' ∧ ring_contents ring'' = [] ∧
        fork_inv h2 k3 TT2 ∧ others_kept j k2 TT2 k3 TT2 ∧
        (∀ x, 0 ≤ x < before → byte_at (mc_mem (mach k3)) U (dst + x) = ring_contents ring !! Z.to_nat x) ∧
        ∀ x, 0 ≤ x < count → byte_at (mc_mem (mach k3)) U (dst + (before + x)) = byte_at (mc_mem (mach k)) T (src + x).
Proof.
  intros Hi Hc Hp HT H1 H2 Hf Hn Hr Hsrc [ps Hps] before Hcount Hroom.
  destruct (pipe_write_run h k TT i p T Hi Hc Hp HT fd n ring src count ps H1 H2 Hf Hn Hr (proj1 Hsrc) Hcount Hps) as (ring' & Hw & Hr' & Hc').
  rewrite decide_False in Hw by lia. replace ((32 - length (ring_contents ring)) `min` Z.to_nat count)%nat with (Z.to_nat count) in * by lia.
  rewrite Z2Nat.id in Hw by lia. rewrite take_ge in Hc' by (rewrite mem_read_length; lia).
  exists ring'. split; [exact Hw|split; [exact Hr'|split; [by apply more_inv|]]].
  intros h2 k2 TT2 j q U rfd ring2 dst want Hi2 Hc2 Hq HU H3 Hf2 Hn2 Hr2 E Hdst [pd Hpd] Hwant.
  destruct (pipe_read_run h2 k2 TT2 j q U Hi2 Hc2 Hq HU getchar rfd n ring2 dst want pd H3 Hf2 Hn2 Hr2 Hdst ltac:(lia) Hpd)
    as (ring'' & s & Hrd & _ & Hc'' & Hi3 & Ho3 & Hseen).
  rewrite E, Hc' in Hrd, Hc'', Hseen. assert (length (ring_contents ring ++ mem_read (mc_mem (mach k)) ps (Z.to_nat count)) = Z.to_nat (before + count)) as Hl
    by (rewrite length_app, mem_read_length; lia). rewrite Hl in Hrd, Hc'', Hseen.
  rewrite decide_False in Hrd by lia. replace (Z.to_nat (before + count) `min` Z.to_nat want)%nat with (Z.to_nat (before + count)) in * by lia.
  rewrite Z2Nat.id in Hrd, Hseen by lia. rewrite drop_ge in Hc'' by lia.
  exists ring'', (set_mach s (with_ring n ring'' k2)). split; [exact Hrd|split; [apply lookup_insert_eq|split; [exact Hc''|split; [exact Hi3|split; [exact Ho3|]]]]].
  destruct Hdst as [_ Hdn], Hsrc as [_ Hsn]. pose proof (Z.mod_pos_bound dst page_size ltac:(done)). pose proof (Z.mod_pos_bound src page_size ltac:(done)).
  change (mach (set_mach s (with_ring n ring'' k2))) with s. split; intros x Hx.
  - rewrite Hseen, decide_True by lia. symmetry. rewrite lookup_total_app_l by lia. apply list_lookup_lookup_total_lt. lia.
  - rewrite Hseen, decide_True, (place_byte k T src _ ps x Hps) by lia. f_equal. apply list_lookup_total_correct.
    rewrite lookup_app_r by lia. replace (Z.to_nat (before + x) - length (ring_contents ring))%nat with (Z.to_nat x) by lia.
    rewrite mem_read_lookup by lia. do 2 f_equal. lia.
Qed.

(** ** A pipe that cannot serve *)
Lemma empty_reads ring w bs : ring_ok ring → ring_contents ring = [] → PipeReader_read ring w [bs] = Done (if w =? 0 then 0 else -2, ring, [bs]).
Proof.
  intros Hr E. pose proof (ring_contents_length ring Hr) as Hl. rewrite E in Hl. simpl in Hl. unfold PipeReader_read. rewrite <-Hl. simpl.
  destruct Hr as [? ? ? ? Hw]. unfold PipeRingBuffer_all_write_ends_closed. by rewrite Hw.
Qed.

Lemma full_writes ring bs : ring_ok ring → length (ring_contents ring) = 32%nat → PipeWriter_write ring [bs] = Done (-2, ring).
Proof. intros Hr E. pose proof (ring_contents_length ring Hr) as Hl. unfold PipeWriter_write. rewrite available_write_eq, <-Hl, E by done. done. Qed.

Lemma empty_slice_read ring w : ring_ok ring → ring_contents ring ≠ [] → PipeReader_read ring w [[]] = Panic.
Proof.
  intros Hr E. pose proof (ring_contents_length ring Hr) as Hl. unfold PipeReader_read.
  destruct (ring_contents ring); [done|]. simpl in Hl. rewrite <-Hl. destruct (Z.to_nat (Z.of_nat (Datatypes.S (length l)))) eqn:En; [lia|done].
Qed.

Lemma empty_slice_write ring : ring_ok ring → (length (ring_contents ring) < 32)%nat → PipeWriter_write ring [[]] = Panic.
Proof.
  intros Hr E. pose proof (ring_contents_length ring Hr) as Hl. unfold PipeWriter_write. rewrite available_write_eq, <-Hl by done.
  rewrite (proj2 (Z.eqb_neq _ _)) by lia. destruct (Z.to_nat (32 - Z.of_nat (length (ring_contents ring)))) eqn:En; [lia|done].
Qed.

Lemma with_ring_same n ring k : pipes (more k) !! n = Some ring → with_ring n ring k = k.
Proof. intros Hn. destruct k as [? ? ? [f g m] ?]. unfold with_ring, set_more. simpl in *. by rewrite insert_id. Qed.
(** Reads and writes that a pipe cannot serve.  A read of an empty pipe answers 0 if no process has its write end any more and
    -2 otherwise, and a write to a full one answers -2; no byte, no descriptor and no pipe changes.  A read of no bytes from a pipe
    that is not empty, and a write of no bytes to one that is not full, stop the kernel. *)
Theorem pipe_blocks getchar h k TT i p T fd n ring buf count : fork_inv h k TT → ProcManage.current (processor k) = Some i →
  tasks k !! i = Some p → TT !! i = Some T → pipes (more k) !! n = Some ring → ring_ok ring → 0 ≤ buf < 2 ^ 38 →
  (fd ≠ STDIN → holds p fd (Fd_PipeRead n) → is_Some (place k T buf (build_flags "W_V")) →
    (ring_contents ring = [] → ∃ m, read getchar fd buf count k =
        Done (if writers n (tasks k) =? 0 then 0 else -2, set_mach (mc_set_mem m (mach k)) k) ∧ ∀ a, m a = mc_mem (mach k) a) ∧
    (ring_contents ring ≠ [] → count = 0 → read getchar fd buf count k = Panic)) ∧
  (fd ≠ STDOUT → fd ≠ STDDEBUG → holds p fd (Fd_PipeWrite n) → is_Some (place k T buf (build_flags "RV")) →
    (length (ring_contents ring) = 32%nat → write fd buf count k = Done (-2, k)) ∧
    ((length (ring_contents ring) < 32)%nat → count = 0 → write fd buf count k = Panic)).
Proof.
  intros Hi Hc Hp HT Hn Hr Ha. split.
  - intros H1 Hf [ptr Hpl]. pose proof (read_eq h k TT i p T Hi Hc Hp HT getchar fd buf count Ha) as E.
    rewrite Hpl, (proj2 (Z.eqb_neq _ _) H1) in E. simpl in E. rewrite Hf in E. simpl in E.
    destruct (inv_manager _ _ _ Hi) as (mgr & Hm & Ht). split.
    + intros Hnil. rewrite (Fd_read_pipe n ring k _ _ ring [_] Hn (empty_reads _ _ _ Hr Hnil)), (with_ring_same n ring k Hn) in E. simpl in E.
      rewrite (put_fd_same p fd _ Hf), app_nil_r, (retask_id h k TT i p Hi Hc Hp) in E. rewrite E. unfold task_table, tasks. rewrite Hm.
      eexists. split; [reflexivity|]. intros a. apply mem_write_back.
    + intros Hne ->. rewrite E. unfold on_more, Fd_read. rewrite (st_bind_run _ _ _ _ _ (get_pipe_run n ring _ Hn)).
      unfold lift, mbind at 2, st_bind. change (mem_read (mc_mem (mach k)) ptr (Z.to_nat 0)) with (@nil Z). by rewrite (empty_slice_read ring _ Hr Hne).
  - intros H1 H2 Hf [ptr Hpl]. pose proof (write_eq h k TT i p T Hi Hc Hp HT fd buf count Ha) as E.
    rewrite Hpl in E. cbv zeta in E. rewrite (proj2 (Z.eqb_neq _ _) H1), (proj2 (Z.eqb_neq _ _) H2) in E. simpl in E. rewrite Hf in E. simpl in E. split.
    + intros Hfull. rewrite (Fd_write_pipe n ring k _ _ ring Hn (full_writes _ _ Hr Hfull)), (with_ring_same n ring k Hn) in E. simpl in E.
      rewrite (put_fd_same p fd _ Hf), (retask_id h k TT i p Hi Hc Hp) in E. rewrite E. by destruct k.
    + intros Hroom ->. rewrite E. unfold on_more, Fd_write. rewrite (st_bind_run _ _ _ _ _ (get_pipe_run n ring _ Hn)).
      change (mem_read (mc_mem (mach k)) ptr (Z.to_nat 0)) with (@nil Z). unfold lift, mbind at 2, st_bind. by rewrite (empty_slice_write ring Hr Hroom).
Qed.

(** ** Signals *)

(** A signal of this number ends a process with these signals. *)
Definition deadly (n : SignalNo) (g : SignalImpl) : Prop :=
  n = SIGKILL ∨ actions g !! Z.to_nat (signal_num n) = Some None ∧ n ≠ SIGCHLD ∧ n ≠ SIGURG ∧ n ≠ SIGSTOP.

Lemma deadly_handled g n ctx : sets_ok g → handling g = None → next_signal g n → deadly n g →
  ∃ g', SignalImpl_handle_signals ctx g = Done (ProcessKilled (- signal_num n), ctx, g').
Proof.
  intros Hok Hh Hn [->|(Ha & H1 & H2 & H3)].
  - destruct (fetch_next g SIGKILL Hok Hn) as (g' & Hf & _). exists g'. unfold SignalImpl_handle_signals. by rewrite Hh, Hf.
  - destruct (signal_default_actions g n ctx Hok Hh Hn Ha) as (r & g' & Hd & -> & _). exists g'.
    rewrite decide_False in Hd by tauto. by rewrite decide_False in Hd.
Qed.

(** The end of the running process by a signal. *)
Lemma killed_run h k TT i p ctx g code : fork_inv h k TT → ProcManage.current (processor k) = Some i → tasks k !! i = Some p → i ≠ 0 →
  SignalImpl_handle_signals (f_context (context p)) (signal (extra p)) = Done (ProcessKilled code, ctx, g) →
  ∃ r k1 k', handle_signals i k = Done (ProcessKilled code, k1) ∧ act (PManager_make_current_exited code) k1 = Done ((), k') ∧
    rel_map (processor k) !! i = Some r ∧ exited i code h k TT r k'.
Proof.
  intros Hi Hc Hp Hne Hd. pose proof (handle_signals_eq h k TT i p Hi Hc Hp) as He. rewrite Hd in He. simpl in He.
  destruct (family_tables _ _ _ _ _ (fi_family _ _ _ Hi) (inv_space _ _ _ i p Hi Hp)) as [T HT]. pose proof (fi_tasks _ _ _ Hi i p Hp) as [].
  set (q := set_signal g (set_context (mkForeign ctx (f_satp (context p))) p)) in *.
  destruct (data_inv h k TT i p T Hi Hp HT q (mach k)) as [Hi1 _]; [by split|done|by apply (own_idle k p T)|].
  destruct (exit_does h (retask i q (mach k) k) TT i code Hi1 Hc Hne) as (r & k' & Hr & Hrun & [E1 E2 E3 E4 E5]).
  exists r, (retask i q (mach k) k), k'. split; [exact He|split; [exact Hrun|split; [exact Hr|]]].
  split; [exact E1| |exact E3|exact E4|exact E5]. by rewrite E2, (retask_tasks h k TT i q _ Hi), delete_insert_eq.
Qed.
(** C17: A signal ends its target.  [kill] to a process whose signals are not being handled and that does not block this one answers
    0 and leaves the signal with it.  At the end of the next system call of the target that left its signals alone, in whatever
    state of the kernel, unless a signal with a lower number is in front: if the signal is SIGKILL, or one without a handler
    that is not ignored and does not stop, then the target leaves with the number negated as its exit code, out of the
    table, its children with the first process; if it is a real-time signal, the kernel stops. *)
Theorem kill_ends reg h k TT i j q signum n h3 k2 id r k3 TT3 q3 : fork_inv h k TT → ProcManage.current (processor k) = Some i → tasks k !! j = Some q →
  as_usize j = j → j ≠ 0 → SignalNo_try_from signum = Some n → n ≠ ERR → sets_ok (signal (extra q)) → handling (signal (extra q)) = None →
  Z.testbit (mask (signal (extra q))) (signal_num n) = false →
  ∃ k1 q1, kill j signum k = Done (0, k1) ∧ fork_inv h k1 TT ∧ tasks k1 = <[j := q1]> (tasks k) ∧
    (syscall reg j k2 = Done ((id, r), k3) → fork_inv h3 k3 TT3 → ProcManage.current (processor k3) = Some j → tasks k3 !! j = Some q3 →
     signalled (extra q1) (mkIpcExtra (fds (extra q1)) (signal (extra q3))) →
     (∀ b, 0 ≤ b < signal_num n → deliverable (signal (extra q3)) b = false) →
     (deadly n (signal (extra q)) → ∃ rel k4, user_env_call reg j k2 = Done ((), k4) ∧ rel_map (processor k3) !! j = Some rel ∧
        exited j (- signal_num n) h3 k3 TT3 rel k4) ∧
     (MAX_SIG < signal_num n → user_env_call reg j k2 = Panic)).
Proof.
  intros Hi Hc Hq Hj Hj0 Hn Hne Hok Hh Hmask. pose proof (kill_eq h k TT Hi j signum) as Hk. rewrite Hj, Hq, Hn in Hk.
  rewrite bool_decide_true in Hk by done. set (q1 := set_signal (add_bit n (signal (extra q))) q) in *.
  pose proof (fi_tasks _ _ _ Hi j q Hq) as []. destruct (family_tables _ _ _ _ _ (fi_family _ _ _ Hi) (inv_space _ _ _ j q Hi Hq)) as [U HU].
  destruct (data_inv h k TT j q U Hi Hq HU q1 (mach k)) as [Hi1 _]; [by split|done|by apply (own_idle k q U)|].
  eexists _, q1. split; [exact Hk|split; [exact Hi1|split; [by apply (retask_tasks h k TT)|]]].
  intros Hs Hi3 Hc3 Hq3 (m & Em & Hbits & Hu) Hlow. injection Em as Em. simpl in Em, Hbits, Hu.
  destruct Hok as (Hr & Hm & Ha). set (g3 := signal (extra q3)) in *. pose proof (signal_num_range n).
  assert (sets_ok g3) as Hok3 by (rewrite Em; split_and!; [apply Hu, lor_usize; [done|by apply signal_num_range]|done|done]).
  assert (handling g3 = None) as Hh3 by (by rewrite Em).
  assert (next_signal g3 n) as Hnext.
  { split; [|exact Hlow]. unfold deliverable. rewrite Em. simpl. rewrite Hbits, Hmask; [done|]. by rewrite set_bit_spec, Z.eqb_refl by lia. }
  unfold user_env_call. rewrite (st_bind_run _ _ _ _ _ Hs). split.
  - intros Hd. assert (deadly n g3) as Hd3 by (rewrite Em; exact Hd).
    destruct (deadly_handled g3 n (f_context (context q3)) Hok3 Hh3 Hnext Hd3) as (g' & Hrun).
    destruct (killed_run h3 k3 TT3 j q3 _ g' _ Hi3 Hc3 Hq3 Hj0 Hrun) as (rel & k' & k4 & Hhs & Hex & Hrel & He).
    exists rel, k4. split; [|by split]. rewrite (st_bind_run _ _ _ _ _ Hhs). exact Hex.
  - intros Hmax. apply st_bind_Panic. rewrite (handle_signals_eq h3 k3 TT3 j q3 Hi3 Hc3 Hq3).
    pose proof (signal_realtime_panics g3 n (f_context (context q3)) Hok3 Hh3 Hnext Hmax) as Hrt. unfold g3 in Hrt. by rewrite Hrt.
Qed.

(** ** The loop *)

(** C11: Isolation along the loop of the kernel with pipes and signals.  In any number of its rounds, a process that did not run
    keeps its entry but for signals it received: its mappings, its bytes, its context, its descriptors, and of its signals the
    mask, the actions and the handler that runs; no signal it had is lost.  The first process lives and the calls pass
    addresses of the lower half and buffers within a page. *)
Theorem ipc_isolation fuel parse getchar run h k TT l k' : user_mode run → only_reads getchar → fork_inv h k TT →
  ProcManage.current (processor k) = None → ipc_rounds fuel parse getchar run k l k' →
  ∃ h' TT', fork_inv (h ++ h') k' TT' ∧ ProcManage.current (processor k') = None ∧
    isolated (fun p q => q = set_extra (extra q) p ∧ signalled (extra p) (extra q)) l k TT k' TT'.
Proof.
  intros Hu Hg Hi Hc Hr.
  by apply (rounds_isolated (X := IpcExtra) (M := ThreadManager Process) (Y := ipc S) run _ (fun _ => True) _ ltac:(done) (ipc_serve fuel parse getchar Hg) Hu); [intros p q|..].
Qed.
End Properties.
End IpcProps.
