(* ===== verification/IpcDemo.v ===== *)
(** * A kernel with a pipe

    A kernel of ch7 that runs one program with both ends of a pipe, its child, and the witnesses of the properties of
    IpcProperties.v on them. *)

From Stdlib Require Import Ascii String.
From stdpp Require Import strings.
From S2P Require Import Prelude Bytes BlockStore BlockCache Efs Vfs File Pipe Memory KernelContext TaskRel ProcManage ProcTree ProcInvariant ProcSystem Schedulers Signal Syscall PageTable AddressSpace SpaceTree SpaceMap SpaceInvariant PageManager BatchKernel TaskKernel VmKernel VmTheorems VmIsolation VmLoad VmBoot VmDemo SpaceFamily ForkKernel ForkInvariant ForkMaking ForkCalls ForkRounds ForkProperties Descriptors DescCalls FileDemo IpcKernel IpcCalls IpcProperties.

Module IpcDemo.
Import Fork Desc Ipc Family SpaceRoot VmInv VmLoad ForkInv ForkMaking ForkCalls ForkRounds ForkProps DescCalls IpcCalls IpcProps.
#[local] Existing Instance BumpHeap.
#[local] Existing Instance BumpHeapLaws.
#[local] Existing Instance VmDemo.demo_crate.
#[local] Existing Instance VmDemo.demo_laws.

Abbreviation demo_process := (Process IpcExtra).
Abbreviation demo_state := (kernel (ThreadManager demo_process) (ipc (CacheState mem_device))).
Implicit Types (p q : demo_process).
Abbreviation file_elf := FileDemo.file_elf.

Definition demo_kernel : demo_state :=
  mkKernel PManager_new 0 VmDemo.demo_first.1 (mkIpc (mkFiles (Some FileDemo.demo_fs) (BlockCacheManager_new FileDemo.device)) {[0 := make_pipe]} 1) demo_machine.
Abbreviation after := (state_after demo_kernel).
Definition demo_parse (data : list Z) : option Vm.ElfFile := Some file_elf.
Definition demo_registry : Registry demo_state := registry 8 demo_parse demo_getchar.
Definition demo_turn : demo_state → outcome (bool * demo_state) := turn demo_mode (user_env_call demo_registry).

(** The first process holds the pipe. *)
Definition with_pipe p : demo_process := set_extra (set_fds (standard_fds ++ [Some (Fd_PipeRead 0); Some (Fd_PipeWrite 0)]) (extra p)) p.
Definition booted : demo_state := after (first_program 8 ThreadManager_new file_elf demo_kernel).
Definition chosen : demo_state := after (on_processor PManager_find_next booted).
Definition ready : demo_state := after (update_current with_pipe chosen).
Definition one_fork : demo_state := state_after booted (demo_turn booted).
Definition two_forks : demo_state := state_after one_fork (demo_turn one_fork).

Lemma ipc_unbooted : unbooted demo_kernel.
Proof. by split. Qed.

Lemma ipc_first_run k : unbooted (k : demo_state) → 
  (first_program 8 ThreadManager_new file_elf k = Panic ∧ exhausted (M := Sv39Manager) (pages_needed file_elf) (mach k)) ∨
  ∃ k' p T, first_program 8 ThreadManager_new file_elf k = Done ((), k') ∧ first_process k file_elf k' p T.
Proof. intros Hk. apply first_program_run; [done|done|done|exact FileDemo.file_elf_ok|done]. Qed.

Lemma ipc_boots : ∃ p T, first_process demo_kernel file_elf booted p T.
Proof.
  assert (returned (first_program 8 ThreadManager_new file_elf demo_kernel) = true) as Hd by (vm_compute; reflexivity).
  destruct (ipc_first_run demo_kernel ipc_unbooted) as [[Hp _]|(k & p & T & Hk & F)]; [rewrite Hp in Hd; discriminate Hd|].
  assert (k = booted) as -> by (symmetry; exact (state_after_eq demo_kernel _ _ _ Hk)). by exists p, T.
Qed.

(** ** A running process with other data *)
Lemma tuned h (k : demo_state) TT i p T f : fork_inv h k TT → ProcManage.current (processor k) = Some i → tasks k !! i = Some p → TT !! i = Some T →
  task_ok i (f p) → address_space (f p) = address_space p → ∃ k', update_current f k = Done ((), k') ∧ fork_inv h k' TT ∧
    ProcManage.current (processor k') = Some i ∧ tasks k' !! i = Some (f p) ∧ mach k' = mach k ∧ more k' = more k.
Proof.
  intros Hi Hc Hp HT Hok He. pose proof (update_current_run h k TT i p f Hi Hc Hp) as Hu.
  destruct (data_inv h k TT i p T Hi Hp HT (f p) (mach k)) as [Hi' _]; [done|done|by apply (own_idle k p T)|].
  eexists. split; [exact Hu|split; [exact Hi'|split; [exact Hc|split; [|done]]]]. by rewrite (retask_tasks h k TT i _ _ Hi), lookup_insert_eq.
Qed.

Record demo_ready (k : demo_state) p T : Prop := {
  dr_inv : fork_inv [EvNext (Some 0)] k {[0 := T]};
  dr_current : ProcManage.current (processor k) = Some 0;
  dr_task : tasks k !! 0 = Some (with_pipe p);
  dr_program : VmBoot.has_program (Vm.mkKernel [] (mach k)) (vm_of p) T file_elf;
  dr_more : more k = more demo_kernel;
}.

Lemma ipc_readied (k0 k : demo_state) p T : first_process demo_kernel file_elf k0 p T → on_processor PManager_find_next k0 = Done (Some 0, k) →
  ∃ k' q, update_current with_pipe k = Done ((), k') ∧ demo_ready k' q T.
Proof.
  intros F Hk. destruct (chosen_run [] k0 _ 0 k (fp_inv _ _ _ _ _ F) (fp_idle _ _ _ _ _ F) Hk) as [Hi (q & st & Hq & Ht) Hc (Hap & Hm & Hct)].
  rewrite (fp_tasks _ _ _ _ _ F) in Hq, Ht. apply lookup_singleton_Some in Hq as [_ <-].
  assert (tasks k !! 0 = Some (set_extra st p)) as Hp by (by rewrite Ht, lookup_insert_eq). pose proof (fi_tasks _ _ _ Hi 0 _ Hp) as [].
  destruct (tuned _ k _ 0 _ T with_pipe Hi Hc Hp (lookup_singleton_eq _ _)) as (k' & Hu & Hi' & Hc' & Hp' & Hm' & Hy'); [by split|done|].
  exists k', (set_extra st p). split; [exact Hu|]. split; [exact Hi'|exact Hc'|exact Hp'| |].
  - rewrite Hm', Hm. exact (fp_program _ _ _ _ _ F).
  - rewrite Hy', Hap. exact (fp_more _ _ _ _ _ F).
Qed.

Lemma ipc_is_ready : ∃ p T, demo_ready ready p T.
Proof.
  destruct ipc_boots as (p & T & F).
  assert ((if on_processor PManager_find_next booted is Done (Some 0, _) then true else false) = true) as Hn by (vm_compute; reflexivity).
  destruct (on_processor PManager_find_next booted) as [[o k]| |] eqn:Hk; [|discriminate Hn..].
  destruct o as [[| |]|]; [|discriminate Hn..]. clear Hn.
  destruct (ipc_readied _ _ _ _ F Hk) as (k' & q & Hu & Hr).
  assert (k = chosen) as -> by (symmetry; exact (state_after_eq demo_kernel _ _ _ Hk)). clear Hk.
  assert (k' = ready) as -> by (symmetry; exact (state_after_eq demo_kernel _ _ _ Hu)). by exists q, T.
Qed.

Section Ready.
Variables (k : demo_state) (p : demo_process) (T : gmap (list Z) Z).
Hypothesis R : demo_ready k p T.

Lemma ipc_place addr flags : 0 ≤ addr < 2 ^ 38 → (if user_ptr addr flags k is Done (Some _, _) then true else false) = true →
  is_Some (place k T addr flags).
Proof.
  intros Ha Hd. rewrite (user_ptr_run _ k _ 0 _ T (dr_inv _ _ _ R) (dr_current _ _ _ R) (dr_task _ _ _ R) (lookup_singleton_eq _ _) addr flags Ha) in Hd.
  destruct (place k T addr flags) as [ptr|]; [by exists ptr|discriminate Hd].
Qed.

Lemma ipc_bytes x : 0 ≤ x < 8192 → byte_at (mc_mem (mach k)) T (0x10000 + x) =
  Some (seg_byte (Vm.elf_input file_elf) (Vm.mkProgramHeader true 4 3 0x10004 5000 true false true) x).
Proof. intros Hx. destruct (dr_program _ _ _ R) as [Hs _]. destruct (proj1 (Forall_singleton _ _) Hs) as [Hb _]. exact (Hb x Hx). Qed.

Lemma ipc_ring : pipes (more k) !! 0 = Some make_pipe.
Proof. rewrite (dr_more _ _ _ R). apply lookup_insert_eq. Qed.
Lemma ipc_reads : holds (with_pipe p) 3 (Fd_PipeRead 0).
Proof. done. Qed.
Lemma ipc_writes : holds (with_pipe p) 4 (Fd_PipeWrite 0).
Proof. done. Qed.

(** With other bytes in the pipe. *)
Lemma ring_current ring : ProcManage.current (processor (with_ring 0 ring k)) = Some 0.
Proof. exact (dr_current _ _ _ R). Qed.
Lemma ring_task ring : tasks (with_ring 0 ring k) !! 0 = Some (with_pipe p).
Proof. exact (dr_task _ _ _ R). Qed.
Lemma ring_there ring : pipes (more (with_ring 0 ring k)) !! 0 = Some ring.
Proof. apply lookup_insert_eq. Qed.
Lemma ring_place ring addr flags : is_Some (place k T addr flags) → is_Some (place (with_ring 0 ring k) T addr flags).
Proof. done. Qed.
End Ready.

Lemma ipc_source p T : demo_ready ready p T → is_Some (place ready T 0x10004 (build_flags "RV")).
Proof. intros R. apply (ipc_place _ p T R); [lia|vm_compute; reflexivity]. Qed.
Lemma ipc_stack p T : demo_ready ready p T → is_Some (place ready T (2 ^ 38 - 64) (build_flags "W_V")).
Proof. intros R. apply (ipc_place _ p T R); [lia|vm_compute; reflexivity]. Qed.

(** ** Witnesses *)

(** Three bytes of the program go through the pipe to the stack. *)
Lemma pipe_between_witness : ∃ k1 k2 T, write 4 0x10004 3 ready = Done (3, k1) ∧ read demo_getchar 3 (2 ^ 38 - 64) 3 k1 = Done (3, k2) ∧
  byte_at (mc_mem (mach k2)) T (2 ^ 38 - 64) = Some 97.
Proof.
  destruct ipc_is_ready as (p & T & R). destruct make_pipe_ok as [Hok Hnil].
  destruct (pipe_between demo_getchar _ ready _ 0 (with_pipe p) T 4 0 make_pipe 0x10004 3 (dr_inv _ _ _ R) (dr_current _ _ _ R) (dr_task _ _ _ R)
    (lookup_singleton_eq _ _) ltac:(by vm_compute) ltac:(by vm_compute) (ipc_writes p) (ipc_ring _ p T R) Hok ltac:(split; [lia|vm_compute; congruence])
    (ipc_source p T R) ltac:(lia) ltac:(vm_compute; congruence)) as (ring & Hw & Hr & Hi & Hread).
  destruct (Hread _ _ _ 0 (with_pipe p) T 3 ring (2 ^ 38 - 64) 3 Hi (ring_current _ p T R ring) (ring_task _ p T R ring)
    (lookup_singleton_eq _ _) ltac:(by vm_compute) (ipc_reads p) (ring_there ready ring) Hr eq_refl ltac:(split; [lia|vm_compute; congruence])
    (ring_place ready T ring _ _ (ipc_stack p T R)) ltac:(rewrite Hnil; simpl; lia)) as (ring2 & k2 & Hrd & _ & _ & _ & _ & _ & Hb).
  rewrite Hnil in Hrd, Hb. eexists _, k2, T. split; [exact Hw|split; [exact Hrd|]]. specialize (Hb 0 ltac:(lia)). etrans; [exact Hb|].
  etrans; [exact (ipc_bytes _ p T R 4 ltac:(lia))|vm_compute; reflexivity].
Defined.

(** The pipe is empty, and the process itself could still write. *)
Lemma pipe_blocks_witness : ∃ k', read demo_getchar 3 (2 ^ 38 - 64) 3 ready = Done (-2, k').
Proof.
  destruct ipc_is_ready as (p & T & R). destruct make_pipe_ok as [Hok Hnil].
  destruct (pipe_blocks demo_getchar _ ready _ 0 (with_pipe p) T 3 0 make_pipe (2 ^ 38 - 64) 3 (dr_inv _ _ _ R) (dr_current _ _ _ R) (dr_task _ _ _ R)
    (lookup_singleton_eq _ _) (ipc_ring _ p T R) Hok ltac:(lia)) as [Hread _].
  destruct (proj1 (Hread ltac:(by vm_compute) (ipc_reads p) (ipc_stack p T R)) Hnil) as (m & Hrun & _).
  assert ((writers 0 (tasks ready) =? 0) = false) as Hn by (vm_compute; reflexivity). rewrite Hn in Hrun. by eexists.
Defined.

(** A second pipe, with the numbers of its ends on the stack. *)
Lemma pipe_spec_witness : ∃ k' q, pipe (2 ^ 38 - 64) ready = Done (0, k') ∧ tasks k' !! 0 = Some q ∧ fds (extra q) !! 5%nat = Some (Some (Fd_PipeRead 1)).
Proof.
  destruct ipc_is_ready as (p & T & R).
  pose proof (pipe_spec _ ready _ 0 (with_pipe p) T (2 ^ 38 - 64) (dr_inv _ _ _ R) (dr_current _ _ _ R) (dr_task _ _ _ R) (lookup_singleton_eq _ _)
    ltac:(split; [lia|vm_compute; congruence]) ltac:(split; [lia|vm_compute; congruence])) as Hs. cbv zeta in Hs.
  destruct (ipc_stack p T R) as [ptr Hp]. rewrite Hp in Hs.
  assert (is_Some (place ready T (2 ^ 38 - 64 + 8) (build_flags "W_V"))) as [ptr2 Hp2] by (apply (ipc_place _ p T R); [lia|vm_compute; reflexivity]).
  rewrite Hp2 in Hs. destruct Hs as (k' & _ & _ & Hrun & _ & _ & (q & Ht & Hf) & _). exists k', q. split; [exact Hrun|split; [rewrite Ht; apply lookup_insert_eq|]].
  rewrite Hf, (dr_more _ _ _ R). reflexivity.
Defined.

(** ** A child that kills itself *)
Lemma ipc_forks n k : forks (user_env_call demo_registry) n k = true → ipc_rounds 8 demo_parse demo_getchar demo_mode k [n] (state_after k (demo_turn k)).
Proof.
  apply (forks_rounds _ (call_ok 8 demo_parse)). intros q p id a -> Har. split; try discriminate. intros ar _. apply Har.
Qed.

Lemma ipc_advance (k k' : demo_state) l h TT : ipc_rounds 8 demo_parse demo_getchar demo_mode k l k' → fork_inv h k TT → ProcManage.current (processor k) = None →
  ∃ h' TT', fork_inv (h ++ h') k' TT' ∧ ProcManage.current (processor k') = None.
Proof.
  intros Hr Hi Hc.
  destruct (rounds_kept (X := IpcExtra) (M := ThreadManager demo_process) (Y := ipc (CacheState mem_device)) demo_mode _ (fun _ => True) _ ltac:(done)
    (ipc_serve 8 demo_parse demo_getchar demo_only_reads) demo_user_mode _ _ _ Hr h TT Hi Hc I) as (h' & TT' & Hi' & Hc' & _). by exists h', TT'.
Qed.

Definition kill_ctx : LocalContext :=
  match LocalContext_set_a 7 KILL (LocalContext_user 0x10004) with
  | Done c => match LocalContext_set_a 0 1 c with Done c => match LocalContext_set_a 1 9 c with Done c => c | _ => c end | _ => c end
  | _ => LocalContext_empty
  end.
Definition at_kill p : demo_process := set_context (mkForeign kill_ctx (f_satp (context p))) p.
Definition past_kill p : demo_process := set_context (mkForeign (LocalContext_move_next kill_ctx) (f_satp (context p))) p.

(** The call of a process whose context asks for [kill(1, 9)]. *)
Lemma kill_call h (k : demo_state) TT p k1 : fork_inv h k TT → ProcManage.current (processor k) = Some 1 → tasks k !! 1 = Some (at_kill p) →
  kill 1 9 (retask 1 (past_kill p) (mach k) k) = Done (0, k1) → syscall demo_registry 1 k = Done ((KILL, RDone 0), k1).
Proof.
  intros Hi Hc Hp Hk. unfold syscall. rewrite (st_bind_run _ _ _ _ _ (current_run h k TT 1 _ Hi Hc Hp)).
  destruct (context_called h k TT 1 _ (mkForeign (LocalContext_move_next kill_ctx) (f_satp (context p))) Hi Hc Hp eq_refl) as [Hrun _].
  change (f_context (context (at_kill p))) with kill_ctx. change (f_satp (context (at_kill p))) with (f_satp (context p)).
  rewrite (st_bind_run _ _ _ _ _ Hrun). change (set_context _ (at_kill p)) with (past_kill p).
  assert (LocalContext_a 7 (LocalContext_move_next kill_ctx) = Done KILL) as Eid by (vm_compute; reflexivity).
  rewrite (st_bind_run _ _ _ _ _ (lift_run _ _ _ Eid)).
  assert (Batch.call_args (LocalContext_move_next kill_ctx) = Done [1; 9; 0; 0; 0; 0]) as Ea by (vm_compute; reflexivity).
  rewrite (st_bind_run _ _ _ _ _ (lift_run _ _ _ Ea)).
  assert (handle demo_registry KILL (fun n => nth (Z.to_nat n) [1; 9; 0; 0; 0; 0] 0) (retask 1 (past_kill p) (mach k) k) = Done (RDone 0, k1)) as Eh.
  { unfold handle. simpl. unfold Container_call, demo_registry, registry. simpl. by rewrite (st_bind_run _ _ _ _ _ Hk). }
  by rewrite (st_bind_run _ _ _ _ _ Eh).
Qed.

(** What the witness needs of the signals of the process that [o] holds. *)
Definition fresh_signals (o : option demo_process) : bool :=
  match o with
  | Some p => let g := signal (extra p) in
      (received g =? 0) && (mask g =? 0) && (length (actions g) =? 32)%nat && match handling g with None => true | _ => false end
  | None => false
  end.

Lemma fresh_spec o : fresh_signals o = true → ∃ p, o = Some p ∧ received (signal (extra p)) = 0 ∧ sets_ok (signal (extra p)) ∧
  handling (signal (extra p)) = None ∧ mask (signal (extra p)) = 0.
Proof.
  destruct o as [p|]; [|done]. simpl. intros [[[H1%Z.eqb_eq H2%Z.eqb_eq]%andb_prop H3%Nat.eqb_eq]%andb_prop H4]%andb_prop.
  exists p. split; [done|]. split; [done|split; [|split; [|done]]]; [|by destruct (handling (signal (extra p)))].
  unfold sets_ok. rewrite H1, H2. by split_and!; [unfold is_usize, usize_max; lia..|].
Qed.

(** What it needs of the state: process 1 runs, with fresh signals. *)
Record child_runs (k : demo_state) p T TT : Prop := {
  ch_inv : ∃ h, fork_inv h k TT;
  ch_current : ProcManage.current (processor k) = Some 1;
  ch_task : tasks k !! 1 = Some p;
  ch_table : TT !! 1 = Some T;
  ch_signals : received (signal (extra p)) = 0 ∧ sets_ok (signal (extra p)) ∧ handling (signal (extra p)) = None ∧ mask (signal (extra p)) = 0;
}.
Definition child : demo_state := after (on_processor PManager_find_next one_fork).

Lemma child_is : ∃ p T TT, child_runs child p T TT.
Proof.
  destruct ipc_boots as (p0 & T0 & F).
  assert (ipc_rounds 8 demo_parse demo_getchar demo_mode booted [0] one_fork) as R1 by (apply ipc_forks; vm_compute; reflexivity).
  destruct (ipc_advance _ _ _ [] _ R1 (fp_inv _ _ _ _ _ F) (fp_idle _ _ _ _ _ F)) as (h1 & TT1 & Hi1 & Hc1).
  assert ((if on_processor PManager_find_next one_fork is Done (Some 1, _) then true else false) = true) as Hn by (vm_compute; reflexivity).
  destruct (on_processor PManager_find_next one_fork) as [[o k]| |] eqn:Hk; [|discriminate Hn..].
  destruct o as [[|[| |]|]|]; [discriminate Hn..| |discriminate Hn|discriminate Hn]. clear Hn.
  destruct (chosen_run _ one_fork TT1 1 k Hi1 Hc1 Hk) as [Hi _ Hc _].
  assert (k = child) as -> by (symmetry; exact (state_after_eq demo_kernel _ _ _ Hk)). clear Hk.
  destruct (fresh_spec (tasks child !! 1)) as (p & Hp & Hs); [vm_compute; reflexivity|].
  destruct (family_tables _ _ _ _ _ (fi_family _ _ _ Hi) (inv_space _ _ _ 1 p Hi Hp)) as [T HT].
  exists p, T, TT1. split; [by eexists|exact Hc|exact Hp|exact HT|exact Hs].
Qed.

(** It asks for its own end: the states before the call and within it. *)
Record asks (k2 k : demo_state) h TT p : Prop := {
  as_inv : fork_inv h k TT;
  as_current : ProcManage.current (processor k) = Some 1;
  as_task : tasks k !! 1 = Some (past_kill p);
  as_before : is_Some (tasks k2 !! 1);
  as_call k1 : kill 1 9 k = Done (0, k1) → syscall demo_registry 1 k2 = Done ((KILL, RDone 0), k1);
  as_signals : received (signal (extra p)) = 0 ∧ sets_ok (signal (extra p)) ∧ handling (signal (extra p)) = None ∧ mask (signal (extra p)) = 0;
}.
Lemma child_asks (k0 : demo_state) p T TT : child_runs k0 p T TT → ∃ k2 k h, asks k2 k h TT p.
Proof.
  intros [[h Hi] Hc Hp HT Hs]. pose proof (fi_tasks _ _ _ Hi 1 p Hp) as [Ep Eb Es].
  destruct (tuned h k0 TT 1 p T at_kill Hi Hc Hp HT) as (k2 & _ & Hi2 & Hc2 & Hp2 & Hm2 & _); [by split|done|].
  destruct (tuned h k2 TT 1 (at_kill p) T (fun _ => past_kill p) Hi2 Hc2 Hp2 HT) as (k & Hu & Hi3 & Hc3 & Hp3 & _); [by split|done|].
  rewrite (update_current_run h k2 TT 1 (at_kill p) _ Hi2 Hc2 Hp2) in Hu. injection Hu as Ek.
  exists k2, k, h. split; [done|done|done|by eexists| |done]. intros k1 Hk. rewrite <-Ek in Hk. by eapply kill_call.
Qed.

(** It asks for its own end, and gets it. *)
Lemma kill_ends_witness : ∃ k k4 : demo_state, user_env_call demo_registry 1 k = Done ((), k4) ∧ is_Some (tasks k !! 1) ∧ tasks k4 !! 1 = None.
Proof.
  destruct child_is as (p & T & TT & (k2 & k & h & [Hi Hc Hp Hb Hcall (H0 & Hok & Hh & Hm)])%child_asks).
  pose proof (kill_eq h k TT Hi 1 9) as Hk. change (as_usize 1) with 1 in Hk. rewrite Hp in Hk. simpl in Hk.
  set (q := set_signal (add_bit SIGKILL (signal (extra p))) (past_kill p)) in *.
  destruct (kill_ends demo_registry h k TT 1 1 (past_kill p) 9 SIGKILL h k2 KILL (RDone 0) (retask 1 q (mach k) k) TT q
    Hi Hc Hp eq_refl ltac:(done) eq_refl ltac:(done) Hok Hh ltac:(simpl; by rewrite Hm)) as (k1 & q1 & Hk1 & Hi1 & Ht1 & Hend).
  rewrite Hk in Hk1. injection Hk1 as <-. rewrite (retask_tasks h k TT 1 _ _ Hi) in Ht1.
  assert (q1 = q) as -> by (apply (f_equal (lookup 1)) in Ht1; rewrite !lookup_insert_eq in Ht1; by injection Ht1).
  destruct (Hend (Hcall _ Hk) Hi1 Hc) as [Hdead _]; [by rewrite (retask_tasks h k TT 1 _ _ Hi), lookup_insert_eq|exact (proj2 (task_kept_refl q))| |].
  - intros b Hlow. simpl in Hlow. assert (Z.testbit (Z.lor (received (signal (extra p))) (Z.shiftl 1 9)) b = false) as Hbit.
    { rewrite set_bit_spec, H0, Z.bits_0 by lia. by rewrite (proj2 (Z.eqb_neq _ _)) by lia. }
    unfold deliverable. change (received _) with (Z.lor (received (signal (extra p))) (Z.shiftl 1 9)). by rewrite Hbit.
  - destruct (Hdead ltac:(by left)) as (rel & k4 & Hrun & _ & He). exists k2, k4. split; [exact Hrun|split; [exact Hb|]].
    rewrite (ee_tasks _ _ _ _ _ _ _ He). apply lookup_delete_eq.
Defined.

(** ** Two rounds *)
Lemma ipc_isolation_witness : ∃ h TT p T, ipc_rounds 8 demo_parse demo_getchar demo_mode one_fork [1] two_forks ∧
  fork_inv h two_forks TT ∧ tasks one_fork !! 0 = Some p ∧ is_Some (tasks two_forks !! 0) ∧
  ∀ addr, in_areas (addr / page_size) (areas (address_space p)) →
    byte_at (mc_mem (mach two_forks)) T addr = byte_at (mc_mem (mach one_fork)) T addr.
Proof.
  destruct ipc_boots as (p0 & T0 & F).
  assert (ipc_rounds 8 demo_parse demo_getchar demo_mode booted [0] one_fork) as R1 by (apply ipc_forks; vm_compute; reflexivity).
  assert (ipc_rounds 8 demo_parse demo_getchar demo_mode one_fork [1] two_forks) as R2 by (apply ipc_forks; vm_compute; reflexivity).
  destruct (ipc_isolation 8 demo_parse demo_getchar demo_mode [] booted _ [0] one_fork demo_user_mode demo_only_reads
    (fp_inv _ _ _ _ _ F) (fp_idle _ _ _ _ _ F) R1) as (h1 & TT1 & Hi1 & Hc1 & _).
  destruct (ipc_isolation 8 demo_parse demo_getchar demo_mode _ one_fork TT1 [1] two_forks demo_user_mode demo_only_reads
    Hi1 Hc1 R2) as (h2 & TT2 & Hi2 & _ & Hkept).
  assert ((if tasks one_fork !! 0 is Some _ then true else false) = true) as Hp by (vm_compute; reflexivity).
  destruct (tasks one_fork !! 0) as [p|] eqn:Ep; [clear Hp|discriminate Hp].
  destruct (family_tables _ _ _ _ _ (fi_family _ _ _ Hi1) (inv_space _ _ _ 0 p Hi1 Ep)) as [T HT].
  destruct (Hkept 0 p T) as ((q & Hp' & _) & _ & _ & Hb); [by intros [? | Hn]%elem_of_cons; [|by apply elem_of_nil in Hn]|exact Ep|exact HT|].
  exists (([] ++ h1) ++ h2), TT2, p, T. split; [exact R2|split; [exact Hi2|split; [reflexivity|split; [by exists q|exact Hb]]]].
Defined.
End IpcDemo.
