(* ===== verification/User.v ===== *)
(** * The user library

    Models [tg-rcore-tutorial-syscall/src/user.rs] and [tg-rcore-tutorial-user/src/lib.rs]: the system call stubs and what programs
    build on them.  A program is an interaction tree: a node asks the kernel for a system call, or looks at memory that
    the kernel may have filled; loops need no bound.  What the console and the logger print on a panic is not modelled. *)

From stdpp Require Import list.
From ITree Require Import ITree ITreeFacts.
From S2P Require Import Prelude Bytes Signal Syscall BatchKernel.

Module User.

(** ** Programs *)
Variant SysE : Type → Type :=
(** [ecall] with the number in a7 and the arguments in a0, a1, ...; the answer comes in a0 *)
| Ecall (id : Z) (args : list Z) : SysE Z
(** what is in memory *)
| Load (addr : Z) (n : nat) : SysE (list Z).
Abbreviation program := (itree SysE).

#[export] Instance program_ret : MRet program := fun A a => Ret a.
#[export] Instance program_bind : MBind program := fun A B k m => ITree.bind m k.

(** A borrowed slice or string. *)
Record Slice := mkSlice { as_ptr : Z; len : Z }.

(** ** [native] *)
Definition syscall0 (id : Z) : program Z := ITree.trigger (Ecall id []).
Definition syscall1 (id a0 : Z) : program Z := ITree.trigger (Ecall id [a0]).
Definition syscall2 (id a0 a1 : Z) : program Z := ITree.trigger (Ecall id [a0; a1]).
Definition syscall3 (id a0 a1 a2 : Z) : program Z := ITree.trigger (Ecall id [a0; a1; a2]).
Definition syscall4 (id a0 a1 a2 a3 : Z) : program Z := ITree.trigger (Ecall id [a0; a1; a2; a3]).
Definition syscall5 (id a0 a1 a2 a3 a4 : Z) : program Z := ITree.trigger (Ecall id [a0; a1; a2; a3; a4]).
Definition syscall6 (id a0 a1 a2 a3 a4 a5 : Z) : program Z := ITree.trigger (Ecall id [a0; a1; a2; a3; a4; a5]).

(** ** Stubs *)
Definition write (fd : Z) (buffer : Slice) : program Z := syscall3 WRITE fd (as_ptr buffer) (len buffer).
Definition read (fd : Z) (buffer : Slice) : program Z := syscall3 READ fd (as_ptr buffer) (len buffer).
Definition open (path : Slice) (flags : Z) : program Z := syscall2 OPENAT (as_ptr path) flags.
Definition close (fd : Z) : program Z := syscall1 CLOSE fd.
Definition link (oldpath newpath : Slice) : program Z :=
  syscall5 LINKAT (as_usize (-100)) (as_ptr oldpath) (as_usize (-100)) (as_ptr newpath) 0.
Definition unlink (path : Slice) : program Z := syscall3 UNLINKAT (as_usize (-100)) (as_ptr path) 0.
Definition fstat (fd st : Z) : program Z := syscall2 FSTAT fd st.
Definition exit (exit_code : Z) : program Z := syscall1 EXIT (as_usize exit_code).
Definition sched_yield : program Z := syscall0 SCHED_YIELD.
Definition clock_gettime (clockid tp : Z) : program Z := syscall2 CLOCK_GETTIME clockid tp.
Definition fork : program Z := syscall0 CLONE.
Definition exec (path : Slice) : program Z := syscall2 EXECVE (as_ptr path) (len path).
Definition wait (exit_code_ptr : Z) : program Z :=
  ITree.iter (fun _ =>
    r ← syscall2 WAIT4 usize_max exit_code_ptr;
    if r =? -2 then sched_yield;; mret (inl ()) else mret (inr r)) ().
Definition waitpid (pid exit_code_ptr : Z) : program Z :=
  ITree.iter (fun _ =>
    r ← syscall2 WAIT4 (as_usize pid) exit_code_ptr;
    if r =? -2 then sched_yield;; mret (inl ()) else mret (inr r)) ().
Definition getpid : program Z := syscall0 GETPID.
Definition spawn (path : Slice) : program Z := syscall2 SPAWN (as_ptr path) (len path).
Definition set_priority (prio : Z) : program Z := syscall1 SETPRIORITY (as_usize prio).
Definition kill (pid : Z) (signum : SignalNo) : program Z := syscall2 KILL (as_usize pid) (signal_num signum).
Definition sbrk (size : Z) : program Z := syscall1 BRK (as_usize size).
Definition sigaction (signum : SignalNo) (action old_action : Z) : program Z := syscall3 RT_SIGACTION (signal_num signum) action old_action.
Definition sigprocmask (mask : Z) : program Z := syscall1 RT_SIGPROCMASK mask.
Definition sigreturn : program Z := syscall0 RT_SIGRETURN.
Definition thread_create (entry arg : Z) : program Z := syscall2 THREAD_CREATE entry arg.
Definition gettid : program Z := syscall0 GETTID.
Definition waittid (tid : Z) : program Z :=
  ITree.iter (fun _ =>
    r ← syscall1 WAITID tid;
    if r =? -2 then sched_yield;; mret (inl ()) else mret (inr r)) ().
Definition semaphore_create (res_count : Z) : program Z := syscall1 SEMAPHORE_CREATE res_count.
Definition semaphore_up (sem_id : Z) : program Z := syscall1 SEMAPHORE_UP sem_id.
Definition semaphore_down (sem_id : Z) : program Z := syscall1 SEMAPHORE_DOWN sem_id.
Definition mutex_create (blocking : bool) : program Z := syscall1 MUTEX_CREATE (Z.b2z blocking).
Definition mutex_lock (mutex_id : Z) : program Z := syscall1 MUTEX_LOCK mutex_id.
Definition mutex_unlock (mutex_id : Z) : program Z := syscall1 MUTEX_UNLOCK mutex_id.
Definition condvar_create : program Z := syscall1 CONDVAR_CREATE 0.
Definition condvar_signal (condvar_id : Z) : program Z := syscall1 CONDVAR_SIGNAL condvar_id.
Definition condvar_wait (condvar_id mutex_id : Z) : program Z := syscall2 CONDVAR_WAIT condvar_id mutex_id.
Definition enable_deadlock_detect (is_enable : bool) : program Z := syscall1 ENABLE_DEADLOCK_DETECT (Z.b2z is_enable).
Definition trace (trace_request id data : Z) : program Z := syscall3 TRACE trace_request id data.
Definition mmap (start len prot : Z) : program Z := syscall6 MMAP start len prot 0 0 0.
Definition munmap (start len : Z) : program Z := syscall2 MUNMAP start len.
Definition pipe (pipe_fd : Slice) : program Z := syscall1 PIPE2 (as_ptr pipe_fd).

(** ** [lib.rs] *)

(** [exit(1)]; the [unreachable!()] after it panics again. *)
Definition panic_handler {R} : program R :=
  ITree.iter (fun _ => exit 1;; mret (inl ())) ().
(** Code that may panic. *)
Definition checked {A} (o : outcome A) : program A :=
  match o with Done a => mret a | _ => panic_handler end.

Definition _start (main : program Z) : program void :=
  code ← main;
  exit code;;
  panic_handler.

(** [c] is where the byte is. *)
Definition getchar (c : Z) : program Z :=
  read STDIN (mkSlice c 1);;
  b ← ITree.trigger (Load c 1);
  mret (nth 0 b 0).

Definition put_char (c : Z) : program Z := write STDOUT (mkSlice c 1).
Definition put_str (s : Slice) : program Z := write STDOUT s.

(** A [TimeSpec] in memory. *)
Definition load_time (tp : Z) : program TimeSpec :=
  b ← ITree.trigger (Load tp 16);
  mret (mkTimeSpec (le_decode (take 8 b)) (le_decode (drop 8 b))).
Definition TimeSpec_gt (x y : TimeSpec) : bool := (tv_sec y <? tv_sec x) || ((tv_sec x =? tv_sec y) && (tv_nsec y <? tv_nsec x)).
Definition CLOCK_MONOTONIC : Z := 1.

(** [time] and [now] are where the two variables are. *)
Definition sleep (time now period_ms : Z) : program () :=
  clock_gettime CLOCK_MONOTONIC time;;
  t ← load_time time;
  t ← checked (TimeSpec_add t (TimeSpec_from_millsecond period_ms));
  ITree.iter (fun _ =>
    clock_gettime CLOCK_MONOTONIC now;;
    n ← load_time now;
    if TimeSpec_gt n t then mret (inr ()) else sched_yield;; mret (inl ())) ().

Definition get_time (time : Z) : program Z :=
  clock_gettime CLOCK_MONOTONIC time;;
  t ← load_time time;
  ms ← checked (usize_mul (tv_sec t) 1000);
  ms ← checked (usize_add ms (tv_nsec t / 1000000));
  mret (as_isize ms).

Definition trace_read (ptr : Z) : program (option Z) :=
  ret ← trace 0 ptr 0;
  mret (if (0 <=? ret) && (ret <=? 255) then Some (as_u8 ret) else None).
Definition trace_write (ptr value : Z) : program Z := trace 1 ptr value.
Definition count_syscall (syscall_id : Z) : program Z := trace 2 syscall_id 0.

(** [&buffer[from..]] *)
Definition tail_slice (buffer : Slice) (from : Z) : Slice := mkSlice (as_ptr buffer + from) (len buffer - from).

Definition pipe_read (pipe_fd : Z) (buffer : Slice) : program Z :=
  ITree.iter (fun total_read =>
    if len buffer <=? total_read then mret (inr (as_isize total_read))
    else
      ret ← read pipe_fd (tail_slice buffer total_read);
      if ret =? -2 then sched_yield;; mret (inl total_read)
      else if ret =? 0 then mret (inr (as_isize total_read))
      else if ret <? 0 then mret (inr ret)
      else total ← checked (usize_add total_read (as_usize ret)); mret (inl total)) 0.

Definition pipe_write (pipe_fd : Z) (buffer : Slice) : program Z :=
  ITree.iter (fun total_write =>
    if len buffer <=? total_write then mret (inr (as_isize total_write))
    else
      ret ← write pipe_fd (tail_slice buffer total_write);
      if ret =? -2 then sched_yield;; mret (inl total_write)
      else if ret <? 0 then mret (inr ret)
      else total ← checked (usize_add total_write (as_usize ret)); mret (inl total)) 0.
End User.
