(* ===== verification/UserProperties.v ===== *)
(** * What the user library guarantees

    Stubs and dispatcher agree on every call; the loops around calls that may have to wait; and a whole transfer through a
    pipe, from the memory of one process to that of another. *)

From stdpp Require Import list.
From Paco Require Import paco.
From ITree Require Import ITree ITreeFacts.
From S2P Require Import Prelude Bytes Memory Pipe Signal Syscall BatchKernel User.

Module UserProps.
Import User.
#[local] Infix "≈" := (eutt eq) (at level 70).

(** ** Numbers through registers *)
Lemma as_isize_usize z : - 2 ^ 63 ≤ z < 2 ^ 63 → as_isize (as_usize z) = z.
Proof.
  intros Hz. unfold as_isize, as_usize. rewrite Z.mod_mod by done. destruct (decide (0 ≤ z)) as [H0|H0].
  - rewrite Z.mod_small by lia. by rewrite (proj2 (Z.ltb_lt _ _)) by lia.
  - replace (z mod 2 ^ 64) with (z + 2 ^ 64) by (apply (Z.mod_unique z (2 ^ 64) (-1)); lia).
    rewrite (proj2 (Z.ltb_ge _ _)) by lia. lia.
Qed.

Lemma as_i32_usize z : - 2 ^ 31 ≤ z < 2 ^ 31 → as_i32 (as_usize z) = z.
Proof.
  intros Hz. unfold as_i32, as_usize. rewrite Z.mod_mod_divide by (by exists (2 ^ 32)). destruct (decide (0 ≤ z)) as [H0|H0].
  - rewrite Z.mod_small by lia. by rewrite (proj2 (Z.ltb_lt _ _)) by lia.
  - replace (z mod 2 ^ 32) with (z + 2 ^ 32) by (apply (Z.mod_unique z (2 ^ 32) (-1)); lia).
    rewrite (proj2 (Z.ltb_ge _ _)) by lia. lia.
Qed.

Lemma as_i32_small z : 0 ≤ z < 2 ^ 31 → as_i32 z = z.
Proof. intros Hz. unfold as_i32. rewrite Z.mod_small by lia. by rewrite (proj2 (Z.ltb_lt _ _)) by lia. Qed.

Lemma as_u8_signal n : as_u8 (signal_num n) = signal_num n.
Proof. by destruct n. Qed.

(** ** Stubs and dispatcher

    The calls that a program can make, with the arguments as it gives them. *)
Inductive call :=
| CWrite (fd : Z) (buffer : Slice) | CRead (fd : Z) (buffer : Slice) | COpen (path : Slice) (flags : Z) | CClose (fd : Z)
| CLink (oldpath newpath : Slice) | CUnlink (path : Slice) | CFstat (fd st : Z) | CPipe (pipe_fd : Slice)
| CExit (exit_code : Z) | CFork | CExec (path : Slice) | CSpawn (path : Slice) | CGetpid | CSbrk (size : Z)
| CWait (exit_code_ptr : Z) | CWaitpid (pid exit_code_ptr : Z) | CWaittid (tid : Z)
| CYield | CSetPriority (prio : Z) | CClock (clockid tp : Z)
| CKill (pid : Z) (signum : SignalNo) | CSigaction (signum : SignalNo) (action old_action : Z) | CSigprocmask (mask : Z) | CSigreturn
| CThreadCreate (entry arg : Z) | CGettid
| CSemCreate (n : Z) | CSemUp (id : Z) | CSemDown (id : Z)
| CMutexCreate (blocking : bool) | CMutexLock (id : Z) | CMutexUnlock (id : Z)
| CCondCreate | CCondSignal (id : Z) | CCondWait (id mutex_id : Z) | CDeadlock (is_enable : bool)
| CTrace (request id data : Z) | CMmap (start len prot : Z) | CMunmap (start len : Z).

Definition stub (c : call) : program Z :=
  match c with
  | CWrite fd b => write fd b | CRead fd b => read fd b | COpen p f => open p f | CClose fd => close fd
  | CLink o n => link o n | CUnlink p => unlink p | CFstat fd st => fstat fd st | CPipe p => pipe p
  | CExit code => exit code | CFork => fork | CExec p => exec p | CSpawn p => spawn p | CGetpid => getpid | CSbrk n => sbrk n
  | CWait p => wait p | CWaitpid pid p => waitpid pid p | CWaittid tid => waittid tid
  | CYield => sched_yield | CSetPriority n => set_priority n | CClock id tp => clock_gettime id tp
  | CKill pid n => kill pid n | CSigaction n a o => sigaction n a o | CSigprocmask m => sigprocmask m | CSigreturn => sigreturn
  | CThreadCreate e a => thread_create e a | CGettid => gettid
  | CSemCreate n => semaphore_create n | CSemUp n => semaphore_up n | CSemDown n => semaphore_down n
  | CMutexCreate b => mutex_create b | CMutexLock n => mutex_lock n | CMutexUnlock n => mutex_unlock n
  | CCondCreate => condvar_create | CCondSignal n => condvar_signal n | CCondWait n m => condvar_wait n m | CDeadlock b => enable_deadlock_detect b
  | CTrace r i d => trace r i d | CMmap s l p => mmap s l p | CMunmap s l => munmap s l
  end.

(** What the kernel is asked to do: the method of its trait, with the arguments as the program gave them; one that the kernel takes
    as an address is one. *)
Definition asked {K} (reg : Registry K) (c : call) : st K SyscallResult :=
  match c with
  | CWrite fd b => Container_call (IO reg) WRITE (fun io => sys_write io fd (as_ptr b) (len b))
  | CRead fd b => Container_call (IO reg) READ (fun io => sys_read io fd (as_ptr b) (len b))
  | COpen p f => Container_call (IO reg) OPENAT (fun io => sys_open io (as_ptr p) f)
  | CClose fd => Container_call (IO reg) CLOSE (fun io => sys_close io fd)
  | CLink o n => Container_call (IO reg) LINKAT (fun io => sys_linkat io (-100) (as_ptr o) (-100) (as_ptr n) 0)
  | CUnlink p => Container_call (IO reg) UNLINKAT (fun io => sys_unlinkat io (-100) (as_ptr p) 0)
  | CFstat fd st => Container_call (IO reg) FSTAT (fun io => sys_fstat io fd st)
  | CPipe p => Container_call (IO reg) PIPE2 (fun io => sys_pipe io (as_ptr p))
  | CExit code => Container_call (PROCESS reg) EXIT (fun proc => sys_exit proc (as_usize code))
  | CFork => Container_call (PROCESS reg) CLONE sys_fork
  | CExec p => Container_call (PROCESS reg) EXECVE (fun proc => sys_exec proc (as_ptr p) (len p))
  | CSpawn p => Container_call (PROCESS reg) SPAWN (fun proc => sys_spawn proc (as_ptr p) (len p))
  | CGetpid => Container_call (PROCESS reg) GETPID sys_getpid
  | CSbrk n => Container_call (PROCESS reg) BRK (fun proc => sys_sbrk proc n)
  | CWait p => Container_call (PROCESS reg) WAIT4 (fun proc => sys_wait proc (-1) p)
  | CWaitpid pid p => Container_call (PROCESS reg) WAIT4 (fun proc => sys_wait proc pid p)
  | CWaittid tid => Container_call (THREAD reg) WAITID (fun thread => sys_waittid thread tid)
  | CYield => Container_call (SCHEDULING reg) SCHED_YIELD sys_sched_yield
  | CSetPriority n => Container_call (SCHEDULING reg) SETPRIORITY (fun sched => sys_set_priority sched n)
  | CClock id tp => Container_call (CLOCK reg) CLOCK_GETTIME (fun clock => sys_clock_gettime clock id tp)
  | CKill pid n => Container_call (SIGNAL reg) KILL (fun signal => sys_kill signal pid (signal_num n))
  | CSigaction n a o => Container_call (SIGNAL reg) RT_SIGACTION (fun signal => sys_sigaction signal (signal_num n) a o)
  | CSigprocmask m => Container_call (SIGNAL reg) RT_SIGPROCMASK (fun signal => sys_sigprocmask signal m)
  | CSigreturn => Container_call (SIGNAL reg) RT_SIGRETURN sys_sigreturn
  | CThreadCreate e a => Container_call (THREAD reg) THREAD_CREATE (fun thread => sys_thread_create thread e a)
  | CGettid => Container_call (THREAD reg) GETTID sys_gettid
  | CSemCreate n => Container_call (SYNC_MUTEX reg) SEMAPHORE_CREATE (fun sync => sys_semaphore_create sync n)
  | CSemUp n => Container_call (SYNC_MUTEX reg) SEMAPHORE_UP (fun sync => sys_semaphore_up sync n)
  | CSemDown n => Container_call (SYNC_MUTEX reg) SEMAPHORE_DOWN (fun sync => sys_semaphore_down sync n)
  | CMutexCreate b => Container_call (SYNC_MUTEX reg) MUTEX_CREATE (fun sync => sys_mutex_create sync b)
  | CMutexLock n => Container_call (SYNC_MUTEX reg) MUTEX_LOCK (fun sync => sys_mutex_lock sync n)
  | CMutexUnlock n => Container_call (SYNC_MUTEX reg) MUTEX_UNLOCK (fun sync => sys_mutex_unlock sync n)
  | CCondCreate => Container_call (SYNC_MUTEX reg) CONDVAR_CREATE (fun sync => sys_condvar_create sync 0)
  | CCondSignal n => Container_call (SYNC_MUTEX reg) CONDVAR_SIGNAL (fun sync => sys_condvar_signal sync n)
  | CCondWait n m => Container_call (SYNC_MUTEX reg) CONDVAR_WAIT (fun sync => sys_condvar_wait sync n m)
  | CDeadlock b => Container_call (SYNC_MUTEX reg) ENABLE_DEADLOCK_DETECT (fun sync => sys_enable_deadlock_detect sync (Z.b2z b))
  | CTrace r i d => Container_call (TRACE_ reg) TRACE (fun trace => sys_trace trace r i d)
  | CMmap s l p => Container_call (MEMORY reg) MMAP (fun memory => sys_mmap memory s l p 0 0 0)
  | CMunmap s l => Container_call (MEMORY reg) MUNMAP (fun memory => sys_munmap memory s l)
  end.

(** The signed arguments are in their types; [prot] is a small number. *)
Definition typed (c : call) : Prop :=
  match c with
  | CSbrk n => - 2 ^ 31 ≤ n < 2 ^ 31
  | CSetPriority n | CKill n _ | CWaitpid n _ => - 2 ^ 63 ≤ n < 2 ^ 63
  | CMmap _ _ p => 0 ≤ p < 2 ^ 31
  | _ => True
  end.

(** ** Waiting

    A run of a program: the calls it made, with their answers, and its result. *)
Inductive runs {R} : program R → list (Z * list Z * Z) → R → Prop :=
| runs_ret t r : t ≈ Ret r → runs t [] r
| runs_ecall t id args k x tr r : t ≈ Vis (Ecall id args) k → runs (k x) tr r → runs t ((id, args, x) :: tr) r.

Lemma runs_eutt {R} (t u : program R) tr r : t ≈ u → runs t tr r → runs u tr r.
Proof.
  intros E Hr. destruct Hr as [t r Hr|t id args k x tr r Hk Hr].
  - apply runs_ret. by rewrite <-E.
  - eapply runs_ecall; [by rewrite <-E|done].
Qed.

Lemma ret_vis {R A} (r : R) (e : SysE A) (k : A → program R) : Ret r ≈ Vis e k → False.
Proof. intros H. punfold H. inversion H. Qed.

Definition event_of {A} (e : SysE A) : option (Z * list Z) := match e with Ecall id args => Some (id, args) | Load _ _ => None end.
Lemma vis_vis {R} id args id' args' (k k' : Z → program R) : Vis (Ecall id args) k ≈ Vis (Ecall id' args') k' →
  id = id' ∧ args = args' ∧ ∀ x, k x ≈ k' x.
Proof.
  intros H. destruct (eqit_inv_Vis_weak _ _ _ _ _ _ H) as (p & He & _).
  assert (∀ A B (p : A = B) (e1 : SysE A) (e2 : SysE B), eqeq SysE p e1 e2 → event_of e1 = event_of e2) as Hev by (by intros ? ? [] ? ? ->).
  apply Hev in He. injection He as <- <-. split_and!; [done|done|]. intros x. by apply (eqit_inv_Vis _ _ _ _ _ _ _ H).
Qed.

(** The loop of [wait], [waitpid] and [waittid] around the call [id]. *)
Definition retry (id : Z) (args : list Z) : program Z :=
  ITree.iter (fun _ =>
    r ← ITree.trigger (Ecall id args);
    if r =? -2 then sched_yield;; mret (inl ()) else mret (inr r)) ().

Lemma retry_unfold id args : retry id args ≈ Vis (Ecall id args) (fun r => if r =? -2 then Vis (Ecall SCHED_YIELD []) (fun _ => retry id args) else Ret r).
Proof.
  unfold retry at 1. rewrite unfold_iter. unfold mbind, program_bind, mret, program_ret. rewrite bind_bind, bind_trigger.
  apply eqit_Vis. intros r. destruct (r =? -2); [|by rewrite bind_ret_l].
  unfold sched_yield, syscall0. rewrite bind_bind, bind_trigger. apply eqit_Vis. intros _. rewrite bind_ret_l. apply tau_eutt.
Qed.

(** The stubs that loop around their call. *)
Definition waits (c : call) : bool := match c with CWait _ | CWaitpid _ _ | CWaittid _ => true | _ => false end.

(** C16: Stubs and dispatcher agree.  Every stub makes one system call and returns its answer; [wait], [waitpid] and [waittid] make
    one, return the answer unless it is -2, and else yield and start again.  Whatever the other argument registers hold, the
    dispatcher of the kernel hands the number and the arguments to the method the stub is named after, with the values the program
    gave: signed ones with their sign (the pid of [waitpid], and -1 for [wait]), booleans as booleans, the number of a signal. *)
Theorem stubs_dispatched (c : call) : typed c →
  ∃ id args,
    (if waits c
     then stub c ≈ Vis (Ecall id args) (fun r => if r =? -2 then Vis (Ecall SCHED_YIELD []) (fun _ => stub c) else Ret r)
     else stub c = ITree.trigger (Ecall id args)) ∧
    ∀ K (reg : Registry K) rest, handle reg id (fun n => nth (Z.to_nat n) (args ++ rest) 0) = asked reg c.
Proof.
  intros Ht. destruct c; (eexists _, _; split; [first [reflexivity|apply retry_unfold]|]); intros K reg rest; unfold handle; cbn [asked];
    repeat match goal with |- context [?x =? ?y] => is_ground x; is_ground y; let b := eval vm_compute in (x =? y) in change (x =? y) with b; cbv iota end;
    repeat match goal with |- context [Z.to_nat ?x] => is_ground x; let b := eval vm_compute in (Z.to_nat x) in change (Z.to_nat x) with b end;
    cbn [nth app]; simpl in Ht; rewrite ?as_i32_usize, ?as_isize_usize, ?as_u8_signal, ?as_i32_small by done || lia; try reflexivity.
  - by destruct blocking.
  - by destruct is_enable.
Qed.

(** What a run that starts with a call does. *)
Lemma runs_vis {R} (t : program R) id args k tr r : t ≈ Vis (Ecall id args) k → runs t tr r →
  ∃ x tr', tr = (id, args, x) :: tr' ∧ runs (k x) tr' r.
Proof.
  intros Ht Hr. revert id args k Ht. induction Hr as [t r Hr|t id args k x tr r Hk Hr _]; intros id' args' k' Ht.
  - rewrite Hr in Ht. by apply ret_vis in Ht.
  - rewrite Hk in Ht. apply vis_vis in Ht as (<- & <- & Hx). exists x, tr. split; [done|]. eapply runs_eutt; [apply Hx|done].
Qed.

Variant waiter := WaitAny (exit_code_ptr : Z) | WaitPid (pid exit_code_ptr : Z) | WaitTid (tid : Z).
Definition waiting (w : waiter) : program Z :=
  match w with WaitAny ptr => wait ptr | WaitPid pid ptr => waitpid pid ptr | WaitTid tid => waittid tid end.
Definition asks (w : waiter) : Z * list Z :=
  match w with WaitAny ptr => (WAIT4, [as_usize (-1); ptr]) | WaitPid pid ptr => (WAIT4, [as_usize pid; ptr]) | WaitTid tid => (WAITID, [tid]) end.

(** Calls that were answered -2, each with a yield after it, then one that was answered [r]. *)
Definition retried (w : waiter) (yields : list Z) (r : Z) : list (Z * list Z * Z) :=
  concat ((fun y => [((asks w).1, (asks w).2, -2); (SCHED_YIELD, [], y)]) <$> yields) ++ [((asks w).1, (asks w).2, r)].

Lemma retry_runs id args tr r : runs (retry id args) tr r ↔
  ∃ yields, tr = concat ((fun y => [(id, args, -2); (SCHED_YIELD, [], y)]) <$> yields) ++ [(id, args, r)] ∧ r ≠ -2.
Proof.
  split.
  - remember (length tr) as n eqn:Hn. revert tr Hn. induction (lt_wf n) as [n _ IH]. intros tr -> Hr.
    destruct (runs_vis _ _ _ _ _ _ (retry_unfold id args) Hr) as (x & tr1 & -> & Hr1). destruct (Z.eqb_spec x (-2)) as [->|Hx].
    + destruct (runs_vis _ _ _ _ _ _ (reflexivity _) Hr1) as (y & tr2 & -> & Hr2).
      destruct (IH (length tr2)) with (tr := tr2) as (yields & -> & Hne); [simpl; lia|done|done|]. by exists (y :: yields).
    + inversion Hr1 as [t r' E|t ? ? ? ? ? ? E]; subst; [|by apply ret_vis in E]. apply eutt_inv_Ret in E as ->. by exists [].
  - intros (yields & -> & Hne). induction yields as [|y yields IH]; simpl.
    + eapply runs_ecall; [apply retry_unfold|]. simpl. rewrite (proj2 (Z.eqb_neq _ _) Hne). by apply runs_ret.
    + eapply runs_ecall; [apply retry_unfold|]. simpl. by eapply runs_ecall.
Qed.

(** Waiting for a child, for any child or for a thread: exactly the runs that ask until an answer is not -2, yield after every
    -2, and return that answer; what [wait] asks for is the process -1. *)
Theorem wait_retries w tr r : runs (waiting w) tr r ↔ ∃ yields, tr = retried w yields r ∧ r ≠ -2.
Proof. destruct w; exact (retry_runs _ _ tr r). Qed.

(** ** A whole transfer *)

Lemma mem_read_app m a n n' : mem_read m a n ++ mem_read m (a + Z.of_nat n) n' = mem_read m a (n + n').
Proof. unfold mem_read. rewrite <-fmap_app, Nat2Z.inj_add, <-seqZ_app by lia. done. Qed.
Lemma mem_read_take m a n j : take j (mem_read m a n) = mem_read m a (j `min` n).
Proof.
  destruct (decide (j ≤ n)%nat).
  - replace n with (j + (n - j))%nat at 1 by lia. rewrite <-mem_read_app, take_app_length' by (by rewrite mem_read_length). f_equal. lia.
  - rewrite take_ge by (rewrite mem_read_length; lia). f_equal. lia.
Qed.
Lemma mem_read_drop m a n j : (j ≤ n)%nat → drop j (mem_read m a n) = mem_read m (a + Z.of_nat j) (n - j).
Proof. intros Hj. replace n with (j + (n - j))%nat at 1 by lia. rewrite <-mem_read_app, drop_app_length' by (by rewrite mem_read_length). done. Qed.

(** One call on the ring, of a slice that is not empty. *)
Lemma ring_write ring bs : ring_ok ring → bs ≠ [] → let m := ((32 - length (ring_contents ring)) `min` length bs)%nat in
  ∃ ring', PipeWriter_write ring [bs] = Done (if decide (m = 0%nat) then -2 else Z.of_nat m, ring') ∧ ring_ok ring' ∧
    ring_contents ring' = ring_contents ring ++ take m bs.
Proof.
  intros Hr Hne m. destruct (pipe_write_spec ring [bs] Hr ltac:(by repeat constructor)) as (ring' & Hw & Hr' & Hc). rewrite concat_cons, app_nil_r in Hw, Hc.
  fold m in Hw, Hc. exists ring'. split; [|done]. rewrite Hw. do 2 f_equal. pose proof (ring_contents_length ring Hr). destruct (available_read_range ring Hr).
  assert (length bs ≠ 0%nat) by (by destruct bs). case_decide; case_decide; lia || done.
Qed.

Lemma ring_read ring w m ptr n : ring_ok ring → (0 < n)%nat → let l := ring_contents ring in let j := (length l `min` n)%nat in
  ∃ ring' buf, PipeReader_read ring w [mem_read m ptr n] = Done (if decide (j = 0%nat) then if w =? 0 then 0 else -2 else Z.of_nat j, ring', buf) ∧ ring_ok ring' ∧
    ring_contents ring' = drop j l ∧ length (concat buf) = n ∧ ∀ x, mem_write ptr (concat buf) m (ptr + x) = if decide (0 ≤ x < Z.of_nat j) then l !!! Z.to_nat x else m (ptr + x).
Proof.
  intros Hr Hn l j. assert (length (mem_read m ptr n) = n) as Hl by apply mem_read_length.
  assert (mem_read m ptr n ≠ []) as Hne by (intros E; rewrite E in Hl; simpl in Hl; lia).
  destruct (pipe_read_spec ring w [mem_read m ptr n] Hr ltac:(by repeat constructor)) as (ring' & buf & Hw & Hr' & Hc & _ & Hb).
  rewrite concat_cons, app_nil_r, Hl in Hw, Hc, Hb. fold l j in Hw, Hc, Hb.
  assert (length (take j l) = j) as Hj by (rewrite length_take; lia).
  assert (length (concat buf) = n) as Hlen by (rewrite Hb, splice_length; lia).
  exists ring', buf. split; [rewrite Hw; do 2 f_equal; case_decide; case_decide; lia || done|]. split; [done|split; [done|split; [done|]]].
  intros x. unfold mem_write. rewrite Hlen. replace (ptr + x - ptr) with x by lia. destruct (decide (0 ≤ x < Z.of_nat n)) as [H1|H1].
  - rewrite decide_True by lia. rewrite Hb, splice_lookup, Hj by lia. clear Hw. case_decide as H2; case_decide as H3; try lia; simpl.
    + rewrite ?Nat.sub_0_r, lookup_take_lt by lia. by rewrite (list_lookup_lookup_total_lt l) by lia.
    + rewrite mem_read_lookup by lia. simpl. f_equal. lia.
  - rewrite decide_False, decide_False by lia. done.
Qed.

(** The two loops, at the top of a round. *)
Definition writing (fd : Z) (buffer : Slice) (total : Z) : program Z :=
  ITree.iter (fun total_write =>
    if len buffer <=? total_write then mret (inr (as_isize total_write))
    else
      ret ← write fd (tail_slice buffer total_write);
      if ret =? -2 then sched_yield;; mret (inl total_write)
      else if ret <? 0 then mret (inr ret)
      else total ← checked (usize_add total_write (as_usize ret)); mret (inl total)) total.
Definition reading (fd : Z) (buffer : Slice) (total : Z) : program Z :=
  ITree.iter (fun total_read =>
    if len buffer <=? total_read then mret (inr (as_isize total_read))
    else
      ret ← read fd (tail_slice buffer total_read);
      if ret =? -2 then sched_yield;; mret (inl total_read)
      else if ret =? 0 then mret (inr (as_isize total_read))
      else if ret <? 0 then mret (inr ret)
      else total ← checked (usize_add total_read (as_usize ret)); mret (inl total)) total.

Definition paused (t : program Z) : program Z := Vis (Ecall SCHED_YIELD []) (fun _ => t).

(** What an answer makes of the loop: the total it goes on with, a pause, or the end. *)
Lemma write_loop_ends fd b n : len b ≤ n → writing fd b n ≈ Ret (as_isize n).
Proof.
  intros Hn. unfold writing. rewrite unfold_iter. rewrite (proj2 (Z.leb_le _ _) Hn). unfold mret, program_ret. by rewrite bind_ret_l.
Qed.
Lemma read_loop_ends fd b n : len b ≤ n → reading fd b n ≈ Ret (as_isize n).
Proof.
  intros Hn. unfold reading. rewrite unfold_iter. rewrite (proj2 (Z.leb_le _ _) Hn). unfold mret, program_ret. by rewrite bind_ret_l.
Qed.

Definition small (n r : Z) : Prop := 0 < r < 2 ^ 63 ∧ n + r ≤ usize_max ∧ 0 ≤ n.
Lemma total_run n r : small n r → usize_add n (as_usize r) = Done (n + r).
Proof. intros (Hr & Hn & H0). unfold as_usize. rewrite Z.mod_small by lia. apply checked_ok. unfold usize_max in *. lia. Qed.

Lemma write_loop_asks fd b n : n < len b → 0 ≤ n → ∃ k, writing fd b n ≈ Vis (Ecall WRITE [fd; as_ptr b + n; len b - n]) k ∧
  k (-2) ≈ paused (writing fd b n) ∧ ∀ r, small n r → k r ≈ writing fd b (n + r).
Proof.
  intros Hn H0. eexists. split; [|split].
  - unfold writing at 1. rewrite unfold_iter. rewrite (proj2 (Z.leb_gt _ _) Hn). unfold mbind, program_bind, mret, program_ret, write, syscall3.
    rewrite bind_bind, bind_trigger. reflexivity.
  - simpl. unfold sched_yield, syscall0. rewrite bind_bind, bind_trigger. apply eqit_Vis. intros _. rewrite bind_ret_l. apply tau_eutt.
  - intros r Hr. pose proof Hr as [Hr0 _]. rewrite (proj2 (Z.eqb_neq r (-2))), (proj2 (Z.ltb_ge r 0)), (total_run n r Hr) by lia. simpl.
    unfold mret, program_ret. rewrite !bind_ret_l. apply tau_eutt.
Qed.
Lemma read_loop_asks fd b n : n < len b → 0 ≤ n → ∃ k, reading fd b n ≈ Vis (Ecall READ [fd; as_ptr b + n; len b - n]) k ∧
  k (-2) ≈ paused (reading fd b n) ∧ k 0 ≈ Ret (as_isize n) ∧ ∀ r, small n r → k r ≈ reading fd b (n + r).
Proof.
  intros Hn H0. eexists. split; [|split; [|split]].
  - unfold reading at 1. rewrite unfold_iter. rewrite (proj2 (Z.leb_gt _ _) Hn). unfold mbind, program_bind, mret, program_ret, read, syscall3.
    rewrite bind_bind, bind_trigger. reflexivity.
  - simpl. unfold sched_yield, syscall0. rewrite bind_bind, bind_trigger. apply eqit_Vis. intros _. rewrite bind_ret_l. apply tau_eutt.
  - simpl. by rewrite bind_ret_l.
  - intros r Hr. pose proof Hr as [Hr0 _]. rewrite (proj2 (Z.eqb_neq r (-2))), (proj2 (Z.eqb_neq r 0)), (proj2 (Z.ltb_ge r 0)), (total_run n r Hr) by lia. simpl.
    unfold mret, program_ret. rewrite !bind_ret_l. apply tau_eutt.
Qed.

(** Two programs around one pipe: what is left of them, the ring, and the memory of the reader. *)
Record transfer := mkTransfer { writer : program Z; reader : program Z; ring : PipeRingBuffer; filled : memory }.

Section Transfer.
Variables (wfd rfd : Z) (source target : Slice) (user : memory).

(** Either makes its next call, and the kernel answers as its pipes do; only once the writer is through may no write end be left. *)
Inductive step : transfer → transfer → Prop :=
| writer_writes s k ptr n r ring' : writer s ≈ Vis (Ecall WRITE [wfd; ptr; n]) k →
    PipeWriter_write (ring s) [mem_read user ptr (Z.to_nat n)] = Done (r, ring') → step s (mkTransfer (k r) (reader s) ring' (filled s))
| writer_yields s k x : writer s ≈ Vis (Ecall SCHED_YIELD []) k → step s (mkTransfer (k x) (reader s) (ring s) (filled s))
| reader_reads s k ptr n writers r ring' buf : reader s ≈ Vis (Ecall READ [rfd; ptr; n]) k → (writers = 0 → ∃ c, writer s ≈ Ret c) →
    PipeReader_read (ring s) writers [mem_read (filled s) ptr (Z.to_nat n)] = Done (r, ring', buf) →
    step s (mkTransfer (writer s) (k r) ring' (mem_write ptr (concat buf) (filled s)))
| reader_yields s k x : reader s ≈ Vis (Ecall SCHED_YIELD []) k → step s (mkTransfer (writer s) (k x) (ring s) (filled s)).

Definition begun (m : memory) : transfer := mkTransfer (pipe_write wfd source) (pipe_read rfd target) make_pipe m.

Hypothesis Hsource : 0 ≤ len source < 2 ^ 63.
Hypothesis Htarget : 0 ≤ len target < 2 ^ 63.

(** After [sent] bytes went into the ring and [got] came out. *)
Record underway (s : transfer) (sent got : Z) : Prop := {
  uw_got : 0 ≤ got ≤ sent;
  uw_sent : sent ≤ len source;
  uw_room : got ≤ len target;
  uw_ring : ring_ok (ring s);
  uw_contents : ring_contents (ring s) = mem_read user (as_ptr source + got) (Z.to_nat (sent - got));
  uw_filled x : 0 ≤ x < got → filled s (as_ptr target + x) = user (as_ptr source + x);
  uw_writer : writer s ≈ writing wfd source sent ∨ writer s ≈ paused (writing wfd source sent);
  uw_reader : reader s ≈ reading rfd target got ∨ reader s ≈ paused (reading rfd target got) ∨ reader s ≈ Ret (as_isize got) ∧ got = len source;
}.

Lemma writer_call s sent got id args k : underway s sent got → writer s ≈ Vis (Ecall id args) k →
  id = SCHED_YIELD ∧ (∀ x, k x ≈ writing wfd source sent) ∨
  sent < len source ∧ id = WRITE ∧ args = [wfd; as_ptr source + sent; len source - sent] ∧
    k (-2) ≈ paused (writing wfd source sent) ∧ ∀ r, small sent r → k r ≈ writing wfd source (sent + r).
Proof.
  intros Hu Hk. destruct (uw_writer _ _ _ Hu) as [Hw|Hw]; rewrite Hw in Hk.
  - destruct (Z.le_gt_cases (len source) sent) as [Hle|Hlt]; [rewrite (write_loop_ends _ _ _ Hle) in Hk; by apply ret_vis in Hk|].
    destruct (write_loop_asks wfd source sent Hlt) as (k' & Hk' & H1 & H2); [destruct Hu; lia|].
    rewrite Hk' in Hk. apply vis_vis in Hk as (<- & <- & Hx). right. split_and!; [done..| |]; [by rewrite <-Hx|]. intros r Hr. by rewrite <-Hx, H2.
  - apply vis_vis in Hk as (<- & <- & Hx). left. split; [done|]. intros x. by rewrite <-Hx.
Qed.

Lemma reader_call s sent got id args k : underway s sent got → reader s ≈ Vis (Ecall id args) k →
  id = SCHED_YIELD ∧ (∀ x, k x ≈ reading rfd target got) ∨
  got < len target ∧ id = READ ∧ args = [rfd; as_ptr target + got; len target - got] ∧
    k (-2) ≈ paused (reading rfd target got) ∧ k 0 ≈ Ret (as_isize got) ∧ ∀ r, small got r → k r ≈ reading rfd target (got + r).
Proof.
  intros Hu Hk. destruct (uw_reader _ _ _ Hu) as [Hw|[Hw|[Hw _]]]; rewrite Hw in Hk.
  - destruct (Z.le_gt_cases (len target) got) as [Hle|Hlt]; [rewrite (read_loop_ends _ _ _ Hle) in Hk; by apply ret_vis in Hk|].
    destruct (read_loop_asks rfd target got Hlt) as (k' & Hk' & H1 & H2 & H3); [destruct Hu; lia|].
    rewrite Hk' in Hk. apply vis_vis in Hk as (<- & <- & Hx). right. split_and!; [done..| | |]; [by rewrite <-Hx|by rewrite <-Hx|]. intros r Hr. by rewrite <-Hx, H3.
  - apply vis_vis in Hk as (<- & <- & Hx). left. split; [done|]. intros x. by rewrite <-Hx.
  - by apply ret_vis in Hk.
Qed.

(** When the writer is through, everything was sent. *)
Lemma writer_through s sent got c : underway s sent got → writer s ≈ Ret c → sent = len source ∧ c = len source.
Proof.
  intros Hu Hc. destruct (uw_writer _ _ _ Hu) as [Hw|Hw]; rewrite Hw in Hc; [|symmetry in Hc; by apply ret_vis in Hc].
  pose proof (uw_sent _ _ _ Hu). destruct (Z.le_gt_cases (len source) sent) as [Hle|Hlt].
  - rewrite (write_loop_ends _ _ _ Hle) in Hc. apply eutt_inv_Ret in Hc as <-. rewrite as_isize_small by (destruct Hu; lia). lia.
  - destruct (write_loop_asks wfd source sent Hlt) as (k' & Hk' & _); [destruct Hu; lia|]. rewrite Hk' in Hc. symmetry in Hc. by apply ret_vis in Hc.
Qed.

(** When the reader is through, it has all there was, or all it wanted. *)
Lemma reader_through s sent got r : underway s sent got → reader s ≈ Ret r → r = got ∧ got = len source `min` len target.
Proof.
  intros Hu Hr. pose proof Hu as [Hgot Hsent Hroom _ _ _ _ _]. assert (as_isize got = got) as Ei by (apply as_isize_small; lia).
  destruct (uw_reader _ _ _ Hu) as [Hw|[Hw|[Hw E]]]; rewrite Hw in Hr.
  - destruct (Z.le_gt_cases (len target) got) as [Hle|Hlt].
    + rewrite (read_loop_ends _ _ _ Hle) in Hr. apply eutt_inv_Ret in Hr as <-. lia.
    + destruct (read_loop_asks rfd target got Hlt) as (k' & Hk' & _); [lia|]. rewrite Hk' in Hr. symmetry in Hr. by apply ret_vis in Hr.
  - symmetry in Hr. by apply ret_vis in Hr.
  - apply eutt_inv_Ret in Hr as <-. lia.
Qed.

(** How much a call moves, and its answer. *)
Definition moves (room wanted : Z) : Z := room `min` wanted.
Definition written (m : Z) : Z := if decide (m = 0) then -2 else m.

Lemma write_underway s sent got k : underway s sent got → sent < len source → writer s ≈ Vis (Ecall WRITE [wfd; as_ptr source + sent; len source - sent]) k →
  let m := moves (32 - (sent - got)) (len source - sent) in
  ∃ ring', PipeWriter_write (ring s) [mem_read user (as_ptr source + sent) (Z.to_nat (len source - sent))] = Done (written m, ring') ∧
    underway (mkTransfer (k (written m)) (reader s) ring' (filled s)) (sent + m) got.
Proof.
  intros Hu Hlt Hk m. pose proof Hu as [Hgot Hsent Hroom Hring Hcont Hfill Hw Hr].
  assert (length (ring_contents (ring s)) = Z.to_nat (sent - got)) as Hlen by (by rewrite Hcont, mem_read_length).
  pose proof (ring_contents_length _ Hring) as Hrl. destruct (available_read_range _ Hring) as (Hav & _).
  destruct (writer_call _ _ _ _ _ _ Hu Hk) as [[E _]|(_ & _ & _ & Hk2 & Hkr)]; [discriminate E|].
  set (bs := mem_read user _ _). assert (length bs = Z.to_nat (len source - sent)) as Hl by apply mem_read_length.
  destruct (ring_write (ring s) bs Hring) as (ring2 & Hw2 & Hr2 & Hc2); [intros E; rewrite E in Hl; simpl in Hl; lia|].
  rewrite Hl, Hlen in Hw2, Hc2. replace ((32 - Z.to_nat (sent - got)) `min` Z.to_nat (len source - sent))%nat with (Z.to_nat m) in Hw2, Hc2 by (unfold m, moves; lia).
  assert (0 ≤ m) as Hm0 by (unfold m, moves; lia). assert (m ≤ len source - sent) by (unfold m, moves; lia).
  exists ring2. split; [rewrite Hw2; unfold written; do 2 f_equal; case_decide; case_decide; lia|].
  split; simpl; [lia|lia|done|done| |done| |done].
  - rewrite Hc2, Hcont. unfold bs. rewrite mem_read_take. replace (Z.to_nat m `min` _)%nat with (Z.to_nat m) by lia.
    replace (as_ptr source + sent) with (as_ptr source + got + Z.of_nat (Z.to_nat (sent - got))) by lia. rewrite mem_read_app. f_equal. lia.
  - unfold written. clear Hw2. case_decide as Hm; [right; by rewrite Hm, Z.add_0_r|left]. apply Hkr. split; [|unfold usize_max]; lia.
Qed.

Lemma read_underway s sent got k w : underway s sent got → got < len target → reader s ≈ Vis (Ecall READ [rfd; as_ptr target + got; len target - got]) k →
  (w = 0 → ∃ c, writer s ≈ Ret c) → let m := moves (sent - got) (len target - got) in let r := if decide (m = 0) then if w =? 0 then 0 else -2 else m in
  ∃ ring' buf, PipeReader_read (ring s) w [mem_read (filled s) (as_ptr target + got) (Z.to_nat (len target - got))] = Done (r, ring', buf) ∧
    underway (mkTransfer (writer s) (k r) ring' (mem_write (as_ptr target + got) (concat buf) (filled s))) sent (got + m).
Proof.
  intros Hu Hlt Hk Hclosed m r. pose proof Hu as [Hgot Hsent Hroom Hring Hcont Hfill Hw Hr].
  assert (length (ring_contents (ring s)) = Z.to_nat (sent - got)) as Hlen by (by rewrite Hcont, mem_read_length).
  destruct (reader_call _ _ _ _ _ _ Hu Hk) as [[E _]|(_ & _ & _ & Hk2 & Hk0 & Hkr)]; [discriminate E|].
  destruct (ring_read (ring s) w (filled s) (as_ptr target + got) (Z.to_nat (len target - got)) Hring ltac:(lia)) as (ring2 & buf & Hd & Hr2 & Hc2 & _ & Hb).
  rewrite Hlen in Hd, Hc2, Hb. replace (Z.to_nat (sent - got) `min` Z.to_nat (len target - got))%nat with (Z.to_nat m) in Hd, Hc2, Hb by (unfold m, moves; lia).
  assert (0 ≤ m ∧ m ≤ sent - got ∧ m ≤ len target - got) as Hm by (unfold m, moves; lia). rewrite Z2Nat.id in Hd, Hb by lia.
  exists ring2, buf. split; [rewrite Hd; unfold r; do 3 f_equal; case_decide; case_decide; lia || done|].
  split; simpl; [lia|done|lia|done| | |done|].
  - rewrite Hc2, Hcont, mem_read_drop by lia. f_equal; lia.
  - intros x Hx. destruct (decide (x < got)) as [Hlo|Hhi].
    + replace (as_ptr target + x) with (as_ptr target + got + (x - got)) by lia. rewrite Hb, decide_False by lia.
      replace (as_ptr target + got + (x - got)) with (as_ptr target + x) by lia. apply Hfill. lia.
    + replace (as_ptr target + x) with (as_ptr target + got + (x - got)) by lia. rewrite Hb, decide_True by lia.
      apply list_lookup_total_correct. rewrite Hcont, mem_read_lookup by lia. do 2 f_equal. lia.
  - unfold r. clear Hd. case_decide as Hz; [|left; apply Hkr; split; [|unfold usize_max]; lia]. rewrite Hz, Z.add_0_r. right.
    destruct (Z.eqb_spec w 0) as [->|]; [right|by left]. split; [done|]. destruct Hclosed as [c Hc]; [done|].
    destruct (writer_through _ _ _ c Hu Hc). unfold m, moves in Hz. lia.
Qed.

Lemma underway_step s s' sent got : underway s sent got → step s s' → ∃ sent' got', underway s' sent' got'.
Proof.
  intros Hu Hs. destruct Hs as [s k ptr n r ring' Hk Hd|s k x Hk|s k ptr n w r ring' buf Hk Hclosed Hd|s k x Hk].
  - destruct (writer_call _ _ _ _ _ _ Hu Hk) as [[E _]|(Hlt & _ & E & _)]; [discriminate E|]. injection E as -> ->.
    destruct (write_underway _ _ _ _ Hu Hlt Hk) as (ring2 & Hd2 & Hu2). rewrite Hd in Hd2. injection Hd2 as -> ->. by eexists _, _.
  - destruct (writer_call _ _ _ _ _ _ Hu Hk) as [[_ Hx]|(_ & E & _)]; [|discriminate E]. destruct Hu. exists sent, got. split; simpl; [done..|by left|done].
  - destruct (reader_call _ _ _ _ _ _ Hu Hk) as [[E _]|(Hlt & _ & E & _)]; [discriminate E|]. injection E as -> ->.
    destruct (read_underway _ _ _ _ w Hu Hlt Hk Hclosed) as (ring2 & buf2 & Hd2 & Hu2). rewrite Hd in Hd2. injection Hd2 as -> -> ->. by eexists _, _.
  - destruct (reader_call _ _ _ _ _ _ Hu Hk) as [[_ Hx]|(_ & E & _)]; [|discriminate E]. destruct Hu. exists sent, got. split; simpl; [done..|by left].
Qed.

Lemma underway_begun m : underway (begun m) 0 0.
Proof.
  destruct make_pipe_ok as [Hok Hnil]. split; simpl; [lia|lia|lia|exact Hok|by rewrite Hnil|intros x Hx; lia|by left|by left].
Qed.

Lemma underway_reached m s : rtc step (begun m) s → ∃ sent got, underway s sent got.
Proof.
  intros Hs. assert (∃ sent got, underway (begun m) sent got) as H0 by (exists 0, 0; apply underway_begun).
  revert H0. induction Hs as [s|s1 s2 s3 H12 _ IH]; [done|]. intros (sent & got & Hu). apply IH. by eapply underway_step.
Qed.

(** *** It can always be finished *)

(** Once the pauses are over. *)
Lemma unpaused s sent got : underway s sent got → ∃ s', rtc step s s' ∧ underway s' sent got ∧ writer s' ≈ writing wfd source sent ∧
  (reader s' ≈ reading rfd target got ∨ reader s' ≈ Ret (as_isize got)).
Proof.
  intros Hu. assert (∃ s1, rtc step s s1 ∧ underway s1 sent got ∧ writer s1 ≈ writing wfd source sent) as (s1 & H1 & Hu1 & Hw1).
  { destruct (uw_writer _ _ _ Hu) as [Hw|Hw]; [by exists s|]. eexists. split; [eapply rtc_once, (writer_yields _ _ 0), Hw|].
    split; [|reflexivity]. destruct Hu. split; simpl; [done..|by left|done]. }
  destruct (uw_reader _ _ _ Hu1) as [Hr|[Hr|[Hr _]]]; [by exists s1; auto| |by exists s1; auto].
  eexists. split; [eapply rtc_r; [exact H1|eapply (reader_yields _ _ 0), Hr]|]. split; [|split; [exact Hw1|by left]].
  destruct Hu1. split; simpl; [done..|by left].
Qed.

(** From a reader at the top of a round, a byte more, or the end. *)
Lemma advances s sent got : underway s sent got → writer s ≈ writing wfd source sent → reader s ≈ reading rfd target got → got < len target →
  ∃ s', rtc step s s' ∧ ((∃ r, reader s' ≈ Ret r) ∨ ∃ sent' got', underway s' sent' got' ∧ got < got').
Proof.
  intros Hu Hw Hr Hlt. destruct (read_loop_asks rfd target got Hlt) as (k & Hk & _ & Hk0 & _); [destruct Hu; lia|].
  pose proof (transitivity Hr Hk) as Hask. destruct (decide (got < sent)) as [Hdata|Hnone].
  { destruct (read_underway s sent got k 1 Hu Hlt Hask ltac:(done)) as (ring' & buf & Hd & Hu').
    eexists. split; [eapply rtc_once, (reader_reads _ _ _ _ 1); [exact Hask|done|exact Hd]|]. right. eexists _, _. split; [exact Hu'|unfold moves; lia]. }
  assert (got = sent) as <- by (destruct Hu; lia). destruct (Z.le_gt_cases (len source) got) as [Hend|Hmore].
  { assert (writer s ≈ Ret (as_isize got)) as Hdone by (by rewrite Hw, write_loop_ends).
    destruct (read_underway s got got k 0 Hu Hlt Hask ltac:(by eexists)) as (ring' & buf & Hd & _).
    eexists. split; [eapply rtc_once, (reader_reads _ _ _ _ 0); [exact Hask|by eexists|exact Hd]|]. left. simpl. eexists.
    rewrite decide_True by (unfold moves; lia). exact Hk0. }
  destruct (write_loop_asks wfd source got Hmore) as (kw & Hkw & _); [destruct Hu; lia|]. pose proof (transitivity Hw Hkw) as Haskw.
  destruct (write_underway s got got kw Hu Hmore Haskw) as (ring1 & Hd1 & Hu1).
  destruct (read_underway _ _ _ k 1 Hu1 Hlt Hask ltac:(done)) as (ring' & buf & Hd & Hu').
  eexists. split; [|right; eexists _, _; split; [exact Hu'|unfold moves; lia]].
  eapply rtc_l; [eapply writer_writes; [exact Haskw|exact Hd1]|]. eapply rtc_once, (reader_reads _ _ _ _ 1); [exact Hask|done|exact Hd].
Qed.

Lemma can_finish s sent got : underway s sent got → ∃ s' r, rtc step s s' ∧ reader s' ≈ Ret r.
Proof.
  remember (Z.to_nat (len target - got)) as n eqn:Hn. revert s sent got Hn. induction (lt_wf n) as [n _ IH]. intros s sent got -> Hu.
  destruct (unpaused s sent got Hu) as (s1 & H1 & Hu1 & Hw1 & [Hr1|Hr1]); [|by exists s1, (as_isize got)].
  destruct (Z.le_gt_cases (len target) got) as [Hfull|Hlt].
  { exists s1, (as_isize got). split; [done|]. by rewrite Hr1, read_loop_ends. }
  destruct (advances s1 sent got Hu1 Hw1 Hr1 Hlt) as (s2 & H2 & [[r Hr]|(sent' & got' & Hu2 & Hg)]).
  { exists s2, r. split; [by etrans|done]. }
  destruct (IH (Z.to_nat (len target - got'))) with (s := s2) (sent := sent') (got := got') as (s3 & r & H3 & Hr); [lia|done|done|].
  exists s3, r. split; [by etrans; [|etrans]|done].
Qed.
End Transfer.

(** C15: A whole transfer.  One process runs [pipe_write] on a buffer, another [pipe_read] on its own, around a new pipe, and their calls
    come in any order, with any pauses; the pipe is closed only after the writer is through.  Then the writer can only end with
    the whole length as its result; the reader can only end with the smaller of the two lengths, and its buffer then holds
    as many bytes of that of the writer, in order; and at every point the transfer can be brought to its end. *)
Theorem pipe_transfer wfd rfd source target user m s : 0 ≤ len source < 2 ^ 63 → 0 ≤ len target < 2 ^ 63 →
  rtc (step wfd rfd user) (begun wfd rfd source target m) s →
  (∀ r, writer s ≈ Ret r → r = len source) ∧
  (∀ r, reader s ≈ Ret r → r = len source `min` len target ∧ ∀ x, 0 ≤ x < r → filled s (as_ptr target + x) = user (as_ptr source + x)) ∧
  ∃ s' r, rtc (step wfd rfd user) s s' ∧ reader s' ≈ Ret r.
Proof.
  intros Hs Ht Hr. destruct (underway_reached wfd rfd source target user Hs Ht m s Hr) as (sent & got & Hu).
  split; [|split; [|eapply can_finish; [exact Hs|exact Ht|exact Hu] ]].
  { intros r Hw. edestruct writer_through as [_ Hend]; [exact Hs|exact Hu|exact Hw|exact Hend]. }
  intros r Hr'.
  assert (r = got ∧ got = len source `min` len target) as [-> Hg] by (eapply reader_through; [exact Ht|exact Hu|exact Hr']). split; [exact Hg|]. by apply (uw_filled _ _ _ _ _ _ _ _ Hu).
Qed.

(** A negative argument arrives with its sign, whatever is in the registers behind it; [waitpid] asks for its process and asks
    again after a -2. *)
Lemma stubs_dispatched_witness :
  (∃ id args, sbrk (-4096) = ITree.trigger (Ecall id args) ∧
    ∀ (reg : Registry ()) (proc : ProcessSys ()), PROCESS reg = Some proc →
      handle reg id (fun n => nth (Z.to_nat n) (args ++ [7; 8]) 0) = (r ← sys_sbrk proc (-4096); mret (RDone r))) ∧
  ∃ id args, waitpid (-1) 4096 ≈ Vis (Ecall id args) (fun r => if r =? -2 then Vis (Ecall SCHED_YIELD []) (fun _ => waitpid (-1) 4096) else Ret r) ∧
    ∀ (reg : Registry ()) (proc : ProcessSys ()), PROCESS reg = Some proc →
      handle reg id (fun n => nth (Z.to_nat n) (args ++ [7; 8]) 0) = (r ← sys_wait proc (-1) 4096; mret (RDone r)).
Proof.
  split.
  - destruct (stubs_dispatched (CSbrk (-4096))) as (id & args & H1 & H2); [split; reflexivity || discriminate|].
    exists id, args. split; [exact H1|]. intros reg proc E. rewrite (H2 _ reg [7; 8]). simpl. rewrite E. reflexivity.
  - destruct (stubs_dispatched (CWaitpid (-1) 4096)) as (id & args & H1 & H2); [split; reflexivity || discriminate|].
    exists id, args. split; [exact H1|]. intros reg proc E. rewrite (H2 _ reg [7; 8]). simpl. rewrite E. reflexivity.
Defined.

(** Forty bytes, more than the ring holds. *)
Lemma pipe_transfer_witness : ∃ s, rtc (step 4 3 (fun x => x)) (begun 4 3 (mkSlice 1000 40) (mkSlice 5000 50) (fun _ => 0)) s ∧
  reader s ≈ Ret 40 ∧ filled s 5039 = 1039.
Proof.
  set (b := begun 4 3 (mkSlice 1000 40) (mkSlice 5000 50) (fun _ => 0)).
  destruct (pipe_transfer 4 3 (mkSlice 1000 40) (mkSlice 5000 50) (fun x => x) (fun _ => 0) b) as (_ & _ & s & r & Hs & Hr); [simpl; lia..|reflexivity|].
  destruct (pipe_transfer 4 3 (mkSlice 1000 40) (mkSlice 5000 50) (fun x => x) (fun _ => 0) s) as (_ & Hend & _); [simpl; lia..|exact Hs|].
  destruct (Hend r Hr) as [-> Hb]. exists s. split; [exact Hs|split; [exact Hr|]]. apply (Hb 39). simpl. lia.
Defined.
End UserProps.
