(* ===== verification/SyncSyscalls.v ===== *)
(** * Threads, processes and system calls of the last kernel

    Models [tg-rcore-tutorial-ch8/src/process.rs] (the data) and the parts of [ch8/src/main.rs] that schedule threads
    and synchronise them: the [SyncMutex], [Scheduling] and signal system calls, the process and thread calls that do
    not touch user memory, and the scheduling loop with the return path of a system call.

    The address space and the file table of a process are opaque here, as is the rest of the machine: nothing in this file
    reads them.  ThreadKernel.v puts them in and has the other calls. *)

From S2P Require Import Prelude TaskRel ProcManage Schedulers ThreadManage Sync KernelContext Signal Syscall.

(** ** Data *)
Record Thread := mkThread { tid : ThreadId; context : ForeignContext }.

Definition Thread_new (satp : Z) (ctx : LocalContext) (counter : Z) : Thread * Z :=
  let '(id, counter) := ThreadId_new counter in (mkThread id (mkForeign ctx satp), counter).

(** A list of [Option<Arc<_>>]: the lists own their primitives, so a slot holds the cell itself. *)
Record Process (AS FD : Type) := mkProcess {
  pid : ProcId;
  address_space : AS;
  fd_table : list (option FD);
  signal : SignalImpl;
  semaphore_list : list (option Semaphore);
  mutex_list : list (option MutexBlocking);
  condvar_list : list (option Condvar);
}.
Arguments mkProcess {AS FD} _ _ _ _ _ _ _.
Arguments pid {AS FD} _.
Arguments address_space {AS FD} _.
Arguments fd_table {AS FD} _.
Arguments signal {AS FD} _.
Arguments semaphore_list {AS FD} _.
Arguments mutex_list {AS FD} _.
Arguments condvar_list {AS FD} _.

Abbreviation ProcessorInner AS FD := (PThreadManager (ThreadManager Thread) (ProcManager (Process AS FD))) (only parsing).

(** The statics [PROCESSOR] and [INTR_MASKING_INFO], and everything else: memory, files, counters. *)
Record kernel (AS FD W : Type) := mkKernel { processor : ProcessorInner AS FD; masking : IntrMaskingInfo; world : W }.
Arguments mkKernel {AS FD W} _ _ _.
Arguments processor {AS FD W} _.
Arguments masking {AS FD W} _.
Arguments world {AS FD W} _.

Section Kernel.
Context {AS FD W : Type}.
Implicit Types (k : kernel AS FD W) (p : Process AS FD).

Definition set_signal (g : SignalImpl) p : Process AS FD :=
  mkProcess (pid p) (address_space p) (fd_table p) g (semaphore_list p) (mutex_list p) (condvar_list p).
Definition set_semaphores l p : Process AS FD :=
  mkProcess (pid p) (address_space p) (fd_table p) (signal p) l (mutex_list p) (condvar_list p).
Definition set_mutexes l p : Process AS FD :=
  mkProcess (pid p) (address_space p) (fd_table p) (signal p) (semaphore_list p) l (condvar_list p).
Definition set_condvars l p : Process AS FD :=
  mkProcess (pid p) (address_space p) (fd_table p) (signal p) (semaphore_list p) (mutex_list p) l.

(** ** Access to the statics *)
Definition set_processor pm k : kernel AS FD W := mkKernel pm (masking k) (world k).

Definition put_world (w : W) : st (kernel AS FD W) unit := fun k => Done ((), mkKernel (processor k) (masking k) w).

(** An operation of [PROCESSOR] that returns nothing, or a value. *)
Definition on_processor (f : ProcessorInner AS FD → outcome (ProcessorInner AS FD)) : st (kernel AS FD W) unit :=
  fun k => pm ← f (processor k); Done ((), set_processor pm k).
Definition ask_processor {A} (f : ProcessorInner AS FD → outcome (A * ProcessorInner AS FD)) : st (kernel AS FD W) A :=
  fun k => '(a, pm) ← f (processor k); Done (a, set_processor pm k).

(** [PROCESSOR.get_mut().get_current_proc().unwrap()], and a write through the reference. *)
Definition current_proc : st (kernel AS FD W) (Process AS FD) := fun k =>
  o ← PThreadManager_get_current_proc (processor k);
  p ← unwrap o;
  Done (p, k).
Definition update_proc (id : ProcId) (f : Process AS FD → Process AS FD) pm : outcome (ProcessorInner AS FD) :=
  pmgr ← unwrap (proc_manager pm);
  Done (PThreadManager_set_proc_manager (m_update id f pmgr) pm).
Definition update_current_proc (f : Process AS FD → Process AS FD) : st (kernel AS FD W) unit :=
  on_processor (fun pm =>
    id ← unwrap (pt_current pm);
    id ← unwrap (tid2pid pm !! id);
    update_proc id f pm).

(** [PROCESSOR.get_mut().current().unwrap()]. *)
Definition current_thread : st (kernel AS FD W) Thread := fun k =>
  o ← PThreadManager_current (processor k);
  th ← unwrap o;
  Done (th, k).

(** The context of the thread [t] (the reference [task] of the loop), and a write through it. *)
Definition thread_context (t : ThreadId) : st (kernel AS FD W) LocalContext := fun k =>
  o ← PThreadManager_get_task t (processor k);
  th ← unwrap o;
  Done (f_context (context th), k).
Definition set_context (c : LocalContext) (th : Thread) : Thread :=
  mkThread (tid th) (mkForeign c (f_satp (context th))).
Definition update_thread (t : ThreadId) (f : Thread → Thread) : st (kernel AS FD W) unit :=
  on_processor (fun pm =>
    mgr ← unwrap (pt_manager pm);
    Done (PThreadManager_set_manager (m_update t f mgr) pm)).

(** ** The lists of primitives *)

(** [list.iter().enumerate().find(|(_, item)| item.is_none())]: the first free slot, or a new one. *)
Definition alloc_slot {A} (x : option A) (l : list (option A)) : Z * list (option A) :=
  match list_find (fun o => ¬ is_Some o) l with
  | Some (i, _) => (Z.of_nat i, <[i := x]> l)
  | None => (Z.of_nat (length l), l ++ [x])
  end.

(** [list[id].as_ref().unwrap()]. *)
Definition slot {A} (id : Z) (l : list (option A)) : outcome A := o ← unwrap (l !! Z.to_nat id); unwrap o.
Definition set_slot {A} (id : Z) (x : A) (l : list (option A)) : list (option A) := <[Z.to_nat id := Some x]> l.

(** An operation on one primitive of the current process. *)
Definition on_semaphore {V} (id : Z) (f : Semaphore → IntrMaskingInfo → outcome (V * Semaphore * IntrMaskingInfo)) :
    st (kernel AS FD W) V := fun k =>
  '(p, k) ← current_proc k;
  c ← slot id (semaphore_list p);
  '(v, c, i) ← f c (masking k);
  '(_, k) ← update_current_proc (fun p => set_semaphores (set_slot id c (semaphore_list p)) p) k;
  Done (v, mkKernel (processor k) i (world k)).
Definition on_mutex {V} (id : Z) (f : MutexBlocking → IntrMaskingInfo → outcome (V * MutexBlocking * IntrMaskingInfo)) :
    st (kernel AS FD W) V := fun k =>
  '(p, k) ← current_proc k;
  c ← slot id (mutex_list p);
  '(v, c, i) ← f c (masking k);
  '(_, k) ← update_current_proc (fun p => set_mutexes (set_slot id c (mutex_list p)) p) k;
  Done (v, mkKernel (processor k) i (world k)).
Definition on_condvar {V} (id : Z) (f : Condvar → IntrMaskingInfo → outcome (V * Condvar * IntrMaskingInfo)) :
    st (kernel AS FD W) V := fun k =>
  '(p, k) ← current_proc k;
  c ← slot id (condvar_list p);
  '(v, c, i) ← f c (masking k);
  '(_, k) ← update_current_proc (fun p => set_condvars (set_slot id c (condvar_list p)) p) k;
  Done (v, mkKernel (processor k) i (world k)).

(** [if let Some(tid) = waking { processor.re_enque(tid) }]. *)
Definition wake (w : option ThreadId) : st (kernel AS FD W) unit :=
  match w with Some t => on_processor (PThreadManager_re_enque t) | None => mret () end.
Definition answer (ok : bool) : Z := if ok then 0 else -1.

(** ** [impl SyncMutex for SyscallContext] *)
Definition semaphore_create (res_count : Z) : st (kernel AS FD W) Z :=
  p ← current_proc;
  let '(id, l) := alloc_slot (Some (Semaphore_new res_count)) (semaphore_list p) in
  update_current_proc (set_semaphores l);;
  mret (as_isize id).
Definition semaphore_up (sem_id : Z) : st (kernel AS FD W) Z :=
  w ← on_semaphore sem_id Semaphore_up;
  wake w;;
  mret 0.
Definition semaphore_down (sem_id : Z) : st (kernel AS FD W) Z :=
  th ← current_thread;
  ok ← on_semaphore sem_id (Semaphore_down (tid th));
  mret (answer ok).
Definition mutex_create (blocking : bool) : st (kernel AS FD W) Z :=
  let new_mutex := if blocking then Some MutexBlocking_new else None in
  p ← current_proc;
  let '(id, l) := alloc_slot new_mutex (mutex_list p) in
  update_current_proc (set_mutexes l);;
  mret (as_isize id).
Definition mutex_unlock (mutex_id : Z) : st (kernel AS FD W) Z :=
  w ← on_mutex mutex_id MutexBlocking_unlock;
  wake w;;
  mret 0.
Definition mutex_lock (mutex_id : Z) : st (kernel AS FD W) Z :=
  th ← current_thread;
  ok ← on_mutex mutex_id (MutexBlocking_lock (tid th));
  mret (answer ok).
Definition condvar_create (arg : Z) : st (kernel AS FD W) Z :=
  p ← current_proc;
  let '(id, l) := alloc_slot (Some Condvar_new) (condvar_list p) in
  update_current_proc (set_condvars l);;
  mret (as_isize id).
Definition condvar_signal (condvar_id : Z) : st (kernel AS FD W) Z :=
  w ← on_condvar condvar_id Condvar_signal;
  wake w;;
  mret 0.
Definition condvar_wait (condvar_id mutex_id : Z) : st (kernel AS FD W) Z :=
  th ← current_thread;
  p ← current_proc;
  lift (slot condvar_id (condvar_list p));;
  '(flag, waking_tid) ← on_mutex mutex_id (Condvar_wait_with_mutex (tid th));
  wake waking_tid;;
  mret (answer flag).
Definition enable_deadlock_detect (is_enable : Z) : st (kernel AS FD W) Z := mret (-1).

Definition SyscallContext_sync : SyncMutexSys (kernel AS FD W) :=
  mkSyncMutexSys _ semaphore_create semaphore_up semaphore_down mutex_create mutex_lock mutex_unlock condvar_create
    condvar_signal condvar_wait enable_deadlock_detect.

(** ** The process, scheduling, thread and signal calls that leave user memory alone *)
Definition exit (exit_code : Z) : st (kernel AS FD W) Z := mret (as_isize exit_code).
Definition getpid : st (kernel AS FD W) Z := p ← current_proc; mret (as_isize (pid p)).
Definition sched_yield : st (kernel AS FD W) Z := mret 0.
Definition SyscallContext_scheduling : SchedulingSys (kernel AS FD W) :=
  mkSchedulingSys _ sched_yield (fun _ => unimplemented).
Definition gettid : st (kernel AS FD W) Z := th ← current_thread; mret (as_isize (tid th)).
Definition waittid (t : Z) : st (kernel AS FD W) Z :=
  th ← current_thread;
  if t =? tid th then mret (-1)
  else
    r ← ask_processor (PThreadManager_waittid t);
    mret (default (-1) r).

Definition kill (target : Z) (signum : Z) : st (kernel AS FD W) Z := fun k =>
  o ← PThreadManager_get_proc (as_usize target) (processor k);
  match o, SignalNo_try_from signum with
  | Some p, Some signal_no =>
      if bool_decide (signal_no ≠ ERR) then
        g ← SignalImpl_add_signal signal_no (signal p);
        pm ← update_proc (as_usize target) (set_signal g) (processor k);
        Done (0, set_processor pm k)
      else Done (-1, k)
  | _, _ => Done (-1, k)
  end.
Definition sigprocmask (m : Z) : st (kernel AS FD W) Z :=
  p ← current_proc;
  let '(old, g) := SignalImpl_update_mask m (signal p) in
  update_current_proc (set_signal g);;
  mret (as_isize old).
Definition sigreturn : st (kernel AS FD W) Z :=
  p ← current_proc;
  th ← current_thread;
  let '(ok, c, g) := SignalImpl_sig_return (f_context (context th)) (signal p) in
  update_current_proc (set_signal g);;
  update_thread (tid th) (set_context c);;
  mret (answer ok).

(** ** The scheduling loop *)
Section Loop.
(** The registered system calls. *)
Variable reg : Registry (kernel AS FD W).

(** The calls that block when they answer -1. *)
Definition may_block (id : Z) : bool := (id =? SEMAPHORE_DOWN) || (id =? MUTEX_LOCK) || (id =? CONDVAR_WAIT).

(** After the call: the signals of the process, then what becomes of thread [t]. *)
Definition after_syscall (t : ThreadId) (id : Z) (syscall_ret : SyscallResult) : st (kernel AS FD W) unit :=
  p ← current_proc;
  ctx ← thread_context t;
  '(res, ctx, g) ← lift (SignalImpl_handle_signals ctx (signal p));
  update_thread t (set_context ctx);;
  update_current_proc (set_signal g);;
  match res, syscall_ret with
  | ProcessKilled exit_code, _ => on_processor (PThreadManager_make_current_exited exit_code)
  | _, RDone ret =>
      if id =? EXIT then on_processor (PThreadManager_make_current_exited ret)
      else
        ctx ← lift (LocalContext_set_a 0 (as_usize ret) ctx);
        update_thread t (set_context ctx);;
        if may_block id && (ret =? -1)
        then on_processor (fun pm => Done (PThreadManager_make_current_blocked pm))
        else on_processor PThreadManager_make_current_suspend
  | _, Unsupported _ => on_processor (PThreadManager_make_current_exited (-2))
  end.

(** [Trap::Exception(UserEnvCall)]: the system call of thread [t], from its trap to its next state. *)
Definition user_env_call (t : ThreadId) : st (kernel AS FD W) unit :=
  ctx ← thread_context t;
  update_thread t (set_context (LocalContext_move_next ctx));;
  id ← lift (LocalContext_a 7 ctx);
  a0 ← lift (LocalContext_a 0 ctx);
  a1 ← lift (LocalContext_a 1 ctx);
  a2 ← lift (LocalContext_a 2 ctx);
  a3 ← lift (LocalContext_a 3 ctx);
  a4 ← lift (LocalContext_a 4 ctx);
  a5 ← lift (LocalContext_a 5 ctx);
  syscall_ret ← handle reg id (fun n => nth (Z.to_nat n) [a0; a1; a2; a3; a4; a5] 0);
  after_syscall t id syscall_ret.

Inductive Trap := UserEnvCall | OtherTrap.

(** One turn of the loop; [run] is what the thread does in user mode until its next trap, as a change of its context and of
    the rest of the machine.  [false] is the end of the loop ("no task"). *)
Definition schedule (run : ForeignContext → W → ForeignContext * W * Trap) : st (kernel AS FD W) bool :=
  o ← ask_processor PThreadManager_find_next;
  match o with
  | None => mret false
  | Some t =>
      th ← current_thread;
      k ← get_st;
      let '(f, w, cause) := run (context th) (world k) in
      update_thread t (fun th => mkThread (tid th) f);;
      put_world w;;
      match cause with
      | UserEnvCall => user_env_call t
      | OtherTrap => on_processor (PThreadManager_make_current_exited (-3))
      end;;
      mret true
  end.
End Loop.
End Kernel.
