(* ===== verification/SyncInvariant.v ===== *)
(** * No lost wake-ups

    The invariant that ties the wait queues of [SyncSyscalls] to the scheduler of [ThreadManage]: a thread is blocked
    exactly when a semaphore, mutex or condition variable of its process holds it, and then exactly one does. *)

From S2P Require Import Prelude TaskRel ProcManage ProcTree ProcInvariant Schedulers ThreadManage ThreadInvariant.
From S2P Require Import Sync KernelContext Signal Syscall SyncSyscalls.

(** ** Wait queues *)
Definition slot_queue {C} (q : C → list Z) (o : option (UPIntrFreeCell C)) : list Z :=
  match o with Some c => q (inner c) | None => [] end.
Definition slots_queue {C} (q : C → list Z) (l : list (option (UPIntrFreeCell C))) : list Z := l ≫= slot_queue q.
Definition slots_free {C} (l : list (option (UPIntrFreeCell C))) : Prop := ∀ i c, l !! i = Some (Some c) → borrowed c = false.

Definition waiters {AS FD} (p : Process AS FD) : list Z :=
  slots_queue s_queue (semaphore_list p) ++ slots_queue m_queue (mutex_list p) ++ slots_queue c_queue (condvar_list p).
Definition cells_free {AS FD} (p : Process AS FD) : Prop :=
  slots_free (semaphore_list p) ∧ slots_free (mutex_list p) ∧ slots_free (condvar_list p).

(** Replacing one cell exchanges its queue and keeps the rest. *)
Lemma slots_queue_split {C} (q : C → list Z) l i c :
  l !! i = Some (Some c) → ∃ rest, slots_queue q l ≡ₚ q (inner c) ++ rest ∧
    ∀ c', slots_queue q (<[i := Some c']> l) ≡ₚ q (inner c') ++ rest.
Proof.
  intros Hi. exists (slots_queue q (take i l) ++ slots_queue q (drop (S i) l)).
  assert (Hlt : (i < length l)%nat) by (by eapply lookup_lt_Some).
  unfold slots_queue. split.
  - rewrite <-(take_drop_middle l i _ Hi) at 1. rewrite bind_app. simpl. solve_Permutation.
  - intros c'. rewrite insert_take_drop by done. rewrite bind_app. simpl. solve_Permutation.
Qed.

Lemma slots_free_insert {C} (l : list (option (UPIntrFreeCell C))) i c' :
  slots_free l → borrowed c' = false → slots_free (<[i := Some c']> l).
Proof. intros Hl Hc j c. rewrite list_lookup_insert_Some. intros [(_ & [= <-] & _)|[_ ?]]; eauto. Qed.

Lemma slot_Done {A} id (l : list (option A)) c : slot id l = Done c ↔ l !! Z.to_nat id = Some (Some c).
Proof. unfold slot. destruct (l !! Z.to_nat id) as [[]|]; simpl; naive_solver. Qed.

(** A new primitive has an empty queue. *)
Lemma alloc_slot_queue {C} (q : C → list Z) x l id l' :
  slot_queue q x = [] → alloc_slot x l = (id, l') → slots_queue q l' ≡ₚ slots_queue q l ∧
    (slots_free l → (∀ c, x = Some c → borrowed c = false) → slots_free l') ∧ l' !! Z.to_nat id = Some x.
Proof.
  intros Hx. unfold alloc_slot. destruct (list_find _ l) as [[i o]|] eqn:E; intros [= <- <-].
  - apply list_find_Some in E as (Hi & Ho & _). assert (o = None) as -> by (by apply eq_None_not_Some).
    assert (Hlt : (i < length l)%nat) by (by eapply lookup_lt_Some).
    rewrite Nat2Z.id. split_and!; [| |by rewrite list_lookup_insert_eq].
    + unfold slots_queue. rewrite insert_take_drop by done. rewrite <-(take_drop_middle l i _ Hi) at 3.
      rewrite !bind_app. simpl. by rewrite Hx.
    + intros Hl Hb j c. rewrite list_lookup_insert_Some. intros [(_ & E & _)|[_ ?]]; eauto.
  - rewrite Nat2Z.id. split_and!; [| |by rewrite lookup_app_r, Nat.sub_diag].
    + unfold slots_queue. rewrite bind_app. simpl. by rewrite Hx, !app_nil_r.
    + intros Hl Hb j c [?|[_ Hj]]%lookup_app_Some; [eauto|].
      destruct (j - length l)%nat; simpl in Hj; [|done]. injection Hj as ->. eauto.
Qed.

(** A critical section on a free cell. *)
Lemma session_inv {T V} (f : T → outcome (V * T)) c i v c' i' :
  exclusive_session f c i = Done (v, c', i') →
  f (inner c) = Done (v, inner c') ∧ borrowed c' = false ∧ nested_level i' = nested_level i.
Proof.
  unfold exclusive_session, exclusive_access, UPIntrRefMut_drop, IntrMaskingInfo_enter, IntrMaskingInfo_exit.
  unfold usize_add, usize_sub. intros H. inv_run. destruct (borrowed c); [done|]. inv_run.
  destruct a as [v0 x]. inv_run.
  repeat match goal with E : checked _ _ _ = Done _ |- _ => apply checked_Done in E as [-> _] end.
  simpl in *. split_and!; [done|done|lia].
Qed.

(** ** The invariant *)
Section SyncInv.
Context {AS FD W : Type}.
Implicit Types (k : kernel AS FD W) (p : Process AS FD).

Definition procs k : gmap Z (Process AS FD) := from_option proc_table ∅ (proc_manager (processor k)).
Definition threads_of k : gmap Z Thread := from_option fifo_tasks ∅ (pt_manager (processor k)).

(** [extra] is queued although it still runs, [out] sleeps although it left its queue: both are empty between two
    system calls. *)
Record wait_ok (extra out : list Z) k : Prop := {
  wo_pt : pt_inv (processor k);
  wo_level : nested_level (masking k) = 0;
  wo_tids t th : threads_of k !! t = Some th → tid th = t;
  wo_free i p : procs k !! i = Some p → cells_free p;
  wo_nodup i p : procs k !! i = Some p → NoDup (waiters p);
  wo_iff i p t : procs k !! i = Some p →
    t ∈ waiters p ↔ tid2pid (processor k) !! t = Some i ∧ (blocked t (processor k) ∧ t ∉ out ∨ t ∈ extra);
}.
Definition sync_inv : kernel AS FD W → Prop := wait_ok [] [].

(** The running thread [t], its process [i] and the record [p] of that process. *)
Definition runs k (t : Z) (i : Z) p : Prop :=
  pt_current (processor k) = Some t ∧ tid2pid (processor k) !! t = Some i ∧ procs k !! i = Some p.

Lemma runs_exists k t : pt_inv (processor k) → pt_current (processor k) = Some t → ∃ i p, runs k t i p.
Proof.
  intros Hi Hc. destruct (running_owner _ _ Hi Hc) as (i & r & Ht & Hr & _).
  destruct (pi_procs _ Hi) as (pmgr & Hpm & Hd). simpl in Hd.
  assert (i ∈ dom (proc_table pmgr)) as [p Hp]%elem_of_dom.
  { rewrite Hd. by apply elem_of_dom_2 in Hr. }
  exists i, p. split_and!; [done|done|]. unfold procs. by rewrite Hpm.
Qed.

(** The process table with [p] at [i]. *)
Definition put_proc (i : Z) p k : kernel AS FD W :=
  mkKernel (PThreadManager_set_proc_manager (mkProcManager (<[i := p]> (procs k))) (processor k)) (masking k) (world k).
Definition put_masking (m : IntrMaskingInfo) k : kernel AS FD W := mkKernel (processor k) m (world k).

Lemma current_proc_run k t i p : runs k t i p → current_proc k = Done (p, k).
Proof.
  intros (Hc & Ht & Hp). unfold current_proc, PThreadManager_get_current_proc. rewrite Hc; simpl. rewrite Ht; simpl.
  unfold procs in Hp. destruct (proc_manager (processor k)) as [pmgr|]; [|done]. simpl in *.
  unfold ProcManager_get. by rewrite Hp.
Qed.

Lemma update_proc_run k i p f : procs k !! i = Some p →
  update_proc i f (processor k) = Done (processor (put_proc i (f p) k)).
Proof.
  intros Hp. unfold update_proc, put_proc, procs in *. destruct (proc_manager (processor k)) as [pmgr|]; [|done].
  simpl in *. unfold ProcManager_update. by rewrite (alter_present _ _ _ _ Hp).
Qed.

Lemma update_current_proc_run k t i p f : runs k t i p → update_current_proc f k = Done ((), put_proc i (f p) k).
Proof.
  intros (Hc & Ht & Hp). unfold update_current_proc, on_processor. rewrite Hc; simpl. rewrite Ht; simpl.
  by rewrite (update_proc_run _ _ _ _ Hp).
Qed.

Lemma put_proc_procs i p m k : procs (put_masking m (put_proc i p k)) = <[i := p]> (procs k).
Proof. done. Qed.

Lemma put_proc_pt i p p0 k : procs k !! i = Some p0 → pt_inv (processor k) → pt_inv (processor (put_proc i p k)).
Proof.
  intros Hp Hi. split; simpl; try apply Hi. destruct (pi_procs _ Hi) as (pmgr & Hpm & Hd). eexists. split; [done|].
  simpl. unfold procs in *. rewrite Hpm in *. simpl in *. rewrite dom_insert_lookup_L by eauto. done.
Qed.

(** One system call changes the queues of the running thread's process: it drops [ws] and adds [ts]. *)
Lemma put_waiters k t i p p' m ws ts rest :
  sync_inv k → runs k t i p → waiters p ≡ₚ ws ++ rest → waiters p' ≡ₚ ts ++ rest → (ts = [] ∨ ts = [t]) →
  cells_free p' → nested_level m = 0 → wait_ok ts ws (put_masking m (put_proc i p' k)).
Proof.
  intros Hk (Hc & Ht & Hp) Hw Hw' Hts Hfree Hm.
  assert (Hnot : t ∉ waiters p).
  { rewrite (wo_iff _ _ _ Hk _ _ _ Hp). intros (_ & [[[_ Hb] _]|[]%not_elem_of_nil]).
    destruct (pi_threads _ (wo_pt _ _ _ Hk)) as (mgr & Hmg & _). apply (Hb _ Hmg).
    unfold pt_running. rewrite Hc. set_solver. }
  pose proof (wo_nodup _ _ _ Hk _ _ Hp) as Hnd. rewrite Hw in Hnd, Hnot. apply NoDup_app in Hnd as (_ & Hdis & Hnd).
  assert (NoDup (waiters p')).
  { rewrite Hw'. destruct Hts as [->| ->]; [done|]. simpl. apply NoDup_cons. set_solver. }
  split.
  - by eapply put_proc_pt, Hk.
  - done.
  - apply Hk.
  - intros j q. rewrite put_proc_procs, lookup_insert_Some. intros [[_ <-]|[_ Hq]]; [done|by eapply wo_free].
  - intros j q. rewrite put_proc_procs, lookup_insert_Some.
    intros [[_ <-]|[_ Hq]]; [done|by eapply (wo_nodup _ _ _ Hk)].
  - intros j q t'. rewrite put_proc_procs, lookup_insert_Some. intros [[<- <-]|[Hj Hq]].
    + rewrite Hw', elem_of_app. pose proof (wo_iff _ _ _ Hk _ _ t' Hp) as Hiff. rewrite Hw, elem_of_app in Hiff.
      assert (t' ∈ ts → tid2pid (processor k) !! t' = Some i).
      { destruct Hts as [->| ->]; [by intros []%not_elem_of_nil|]. by intros ->%list_elem_of_singleton. }
      split.
      * intros [?|Hr]; [by auto|]. destruct (proj1 Hiff (or_intror Hr)) as (? & [[? _]|[]%not_elem_of_nil]).
        split; [done|]. left. split; [done|]. intros ?. by eapply Hdis.
      * intros (Ho & [[Hb Hn]|?]); [|by left]. right.
        destruct (proj2 Hiff) as [?|?]; [|done|done].
        split; [done|]. left. split; [done|apply not_elem_of_nil].
    + rewrite (wo_iff _ _ _ Hk _ _ t' Hq). pose proof (not_elem_of_nil t').
      assert (tid2pid (processor k) !! t' = Some j → t' ∉ ws ∧ t' ∉ ts).
      { intros Ho. split; intros Hin.
        - assert (t' ∈ waiters p) as [? _]%(wo_iff _ _ _ Hk _ _ t' Hp) by (rewrite Hw; set_solver). congruence.
        - destruct Hts as [->| ->]; [by apply not_elem_of_nil in Hin|].
          apply list_elem_of_singleton in Hin as ->. congruence. }
      change (blocked t' _) with (blocked t' (processor k)) at 2. naive_solver.
Qed.

(** A change of the scheduler or of the thread table that keeps the queues. *)
Lemma wait_ok_ext extra out extra' out' k k' :
  wait_ok extra out k → pt_inv (processor k') → masking k' = masking k → procs k' = procs k →
  tid2pid (processor k') = tid2pid (processor k) →
  (∀ t th, threads_of k' !! t = Some th → tid th = t) →
  (∀ t, is_Some (tid2pid (processor k) !! t) →
    (blocked t (processor k) ∧ t ∉ out ∨ t ∈ extra) ↔ (blocked t (processor k') ∧ t ∉ out' ∨ t ∈ extra')) →
  wait_ok extra' out' k'.
Proof.
  intros Hk Hpt Hm Hp Ht Hth Hiff. split; [done|by rewrite Hm; apply Hk|done|..]; rewrite ?Hp, ?Ht; [apply Hk..|].
  intros i p t Hi. rewrite (wo_iff _ _ _ Hk _ _ t Hi). split; intros [Ho Hc]; (split; [done|]); by apply Hiff.
Qed.

Lemma put_same extra out k i p p' :
  wait_ok extra out k → procs k !! i = Some p → waiters p' = waiters p → cells_free p' →
  wait_ok extra out (put_proc i p' k).
Proof.
  intros Hk Hp Hw Hf. assert (Hps : procs (put_proc i p' k) = <[i := p']> (procs k)) by done.
  split; rewrite ?Hps.
  - by eapply put_proc_pt, Hk.
  - apply Hk.
  - apply Hk.
  - intros j q [[_ <-]|[_ Hq]]%lookup_insert_Some; [done|by eapply wo_free].
  - intros j q [[_ <-]|[_ Hq]]%lookup_insert_Some; [rewrite Hw|]; by eapply (wo_nodup _ _ _ Hk).
  - intros j q t [[<- <-]|[_ Hq]]%lookup_insert_Some; [rewrite Hw|]; by apply (wo_iff _ _ _ Hk).
Qed.

(** ** Scheduler operations *)
Lemma manager_of k : pt_inv (processor k) → ∃ mgr, pt_manager (processor k) = Some mgr.
Proof. intros Hi. destruct (pi_threads _ Hi) as (mgr & Hm & _). eauto. Qed.

Lemma blocked_iff k t mgr : pt_manager (processor k) = Some mgr →
  blocked t (processor k) ↔ is_Some (tid2pid (processor k) !! t) ∧ t ∉ fifo_queue mgr ∧ pt_current (processor k) ≠ Some t.
Proof.
  intros Hm. unfold blocked, pt_running. rewrite elem_of_dom, Hm. split.
  - intros [Ho Hb]. specialize (Hb _ eq_refl). simpl in Hb. rewrite not_elem_of_app in Hb. destruct Hb as [? Hb].
    split_and!; [done|done|]. intros E. rewrite E in Hb. simpl in Hb. set_solver.
  - intros (Ho & Hq & Hc). split; [done|]. intros m [= <-]. simpl. rewrite not_elem_of_app. split; [done|].
    destruct (pt_current (processor k)) as [u|]; simpl; [|apply not_elem_of_nil].
    intros ->%list_elem_of_singleton. done.
Qed.

(** The fields a system call of the running thread leaves alone. *)
Definition same_run k k' : Prop :=
  pt_current (processor k') = pt_current (processor k) ∧ tid2pid (processor k') = tid2pid (processor k) ∧
  threads_of k' = threads_of k.

Lemma wake_run extra w k :
  wait_ok extra (option_list w) k → (∀ t, w = Some t → blocked t (processor k)) →
  ∃ k', wake w k = Done ((), k') ∧ wait_ok extra [] k' ∧ same_run k k' ∧ procs k' = procs k.
Proof.
  intros Hk Hb. destruct w as [t|]; [|by exists k]. specialize (Hb t eq_refl).
  destruct (manager_of k (wo_pt _ _ _ Hk)) as (mgr & Hm).
  destruct (pt_re_enque_run (processor k) t (wo_pt _ _ _ Hk) Hb) as (pm' & _ & Hrun & Hpt & _).
  unfold wake, on_processor. rewrite Hrun; simpl. unfold PThreadManager_re_enque in Hrun. rewrite Hm in Hrun. simpl in Hrun.
  injection Hrun as <-. eexists. split; [done|].
  assert (Hth : threads_of k = fifo_tasks mgr) by (unfold threads_of; by rewrite Hm).
  split; [|split; [|done]]; [|unfold same_run, threads_of; simpl; by rewrite Hm].
  eapply wait_ok_ext; [exact Hk|done..| |].
  - intros u th. unfold threads_of; simpl. rewrite <-Hth. apply Hk.
  - intros u Hu. rewrite (blocked_iff k u mgr Hm), (blocked_iff (set_processor _ k) u (ThreadManager_add t mgr)) by done. simpl.
    pose proof (not_elem_of_nil u). rewrite (blocked_iff k t mgr Hm) in Hb.
    rewrite not_elem_of_app, !list_elem_of_singleton. naive_solver.
Qed.

(** The end of a system call: thread [t] stops, asleep or ready. *)
Definition stopped k t (asleep : bool) k' : Prop :=
  sync_inv k' ∧ pt_current (processor k') = None ∧ threads_of k' = threads_of k ∧ procs k' = procs k ∧
  (blocked t (processor k') ↔ asleep = true).

Lemma block_run k t : wait_ok [t] [] k → pt_current (processor k) = Some t →
  stopped k t true (set_processor (PThreadManager_make_current_blocked (processor k)) k).
Proof.
  intros Hk Hc. destruct (manager_of k (wo_pt _ _ _ Hk)) as (mgr & Hm).
  destruct (pt_block_run (processor k) t (wo_pt _ _ _ Hk) Hc) as (Hpt & Hb & _).
  unfold PThreadManager_make_current_blocked in *. rewrite Hc in *. split; [|done].
  eapply wait_ok_ext; [exact Hk|done..| |].
  - apply Hk.
  - intros u Hu. rewrite (blocked_iff k u mgr Hm), (blocked_iff (set_processor _ k) u mgr) by done.
    change (blocked t (processor (set_processor (with_current None (processor k)) k))) in Hb.
    rewrite (blocked_iff _ t mgr) in Hb by done. simpl in *. pose proof (not_elem_of_nil u).
    rewrite list_elem_of_singleton, Hc. destruct (decide (u = t)) as [->|]; naive_solver.
Qed.

Lemma suspend_run k t : wait_ok [] [] k → pt_current (processor k) = Some t →
  ∃ pm, PThreadManager_make_current_suspend (processor k) = Done pm ∧ stopped k t false (set_processor pm k).
Proof.
  intros Hk Hc. destruct (manager_of k (wo_pt _ _ _ Hk)) as (mgr & Hm).
  destruct (pt_suspend_run (processor k) t (wo_pt _ _ _ Hk) Hc) as (pm & Hrun & Hpt & _).
  exists pm. split; [done|]. unfold PThreadManager_make_current_suspend in Hrun. rewrite Hc, Hm in Hrun. simpl in Hrun.
  injection Hrun as <-. split; [eapply wait_ok_ext; [exact Hk|done..| |]|].
  - pose proof (wo_tids _ _ _ Hk) as H. unfold threads_of in *. rewrite Hm in H. done.
  - intros u Hu. rewrite (blocked_iff k u mgr Hm), (blocked_iff (set_processor _ k) u (ThreadManager_add t mgr)) by done.
    simpl. pose proof (not_elem_of_nil u). rewrite not_elem_of_app, list_elem_of_singleton, Hc. naive_solver.
  - split; [done|]. split; [unfold threads_of; simpl; by rewrite Hm|]. split; [done|].
    rewrite (blocked_iff (set_processor _ k) t (ThreadManager_add t mgr)) by done. simpl.
    rewrite not_elem_of_app, list_elem_of_singleton. naive_solver.
Qed.

(** ** The primitives *)

(** An operation on a cell, run by [t], that takes [ws] from the front of its queue and adds [ts] at the back. *)
Definition cell_step {C} (q : C → list Z) (t : Z) (c c' : UPIntrFreeCell C) (ws ts : list Z) : Prop :=
  (∃ mid, q (inner c) = ws ++ mid ∧ q (inner c') = mid ++ ts) ∧ (ts = [] ∨ ts = [t]) ∧ borrowed c' = false.

Lemma slots_step {C} (q : C → list Z) t l id c c' ws ts :
  l !! Z.to_nat id = Some (Some c) → cell_step q t c c' ws ts →
  ∃ rest, slots_queue q l ≡ₚ ws ++ rest ∧ slots_queue q (set_slot id c' l) ≡ₚ ts ++ rest.
Proof.
  intros Hl ((mid & Hq & Hq') & _). destruct (slots_queue_split q l _ c Hl) as (rest & H1 & H2).
  exists (mid ++ rest). unfold set_slot. rewrite H1, H2, Hq, Hq'. split; solve_Permutation.
Qed.

(** The state after such an operation of the running thread. *)
Definition stepped k t i p ts ws k' : Prop :=
  wait_ok ts ws k' ∧ same_run k k' ∧ (∃ p', runs k' t i p' ∧ signal p' = signal p) ∧
  ∀ u, u ∈ ws → blocked u (processor k').

Lemma put_stepped k t i p p' m ws ts rest :
  sync_inv k → runs k t i p → waiters p ≡ₚ ws ++ rest → waiters p' ≡ₚ ts ++ rest → (ts = [] ∨ ts = [t]) →
  cells_free p' → nested_level m = 0 → signal p' = signal p → stepped k t i p ts ws (put_masking m (put_proc i p' k)).
Proof.
  intros Hk Hr Hw Hw' Hts Hf Hm Hs. split; [by eapply put_waiters|]. split; [done|]. destruct Hr as (? & ? & Hp). split.
  - exists p'. split; [|done]. split_and!; [done|done|]. rewrite put_proc_procs. apply lookup_insert_eq.
  - intros u Hu. assert (u ∈ waiters p) as (_ & [[? _]|[]%not_elem_of_nil])%(wo_iff _ _ _ Hk _ _ u Hp); [|done].
    rewrite Hw. set_solver.
Qed.

(** Run an operation on a slot of the current process and name what it leaves. *)
Ltac run_cell Hk Hr Hl Hf Hstep :=
  rewrite (current_proc_run _ _ _ _ Hr); simpl;
  rewrite (proj2 (slot_Done _ _ _) Hl); simpl; rewrite Hf; simpl;
  rewrite (update_current_proc_run _ _ _ _ _ Hr); simpl; eexists; (split; [done|]);
  destruct (slots_step _ _ _ _ _ _ _ _ Hl Hstep) as (rest & H1 & H2); destruct Hstep as (_ & Hts & Hb);
  pose proof (wo_free _ _ _ Hk _ _ (proj2 (proj2 Hr))) as (? & ? & ?).

Lemma on_semaphore_run {V} k t i p id f c (v : V) c' m ws ts :
  sync_inv k → runs k t i p → semaphore_list p !! Z.to_nat id = Some (Some c) →
  f c (masking k) = Done (v, c', m) → cell_step s_queue t c c' ws ts → nested_level m = 0 →
  ∃ k', on_semaphore id f k = Done (v, k') ∧ stepped k t i p ts ws k'.
Proof.
  intros Hk Hr Hl Hf Hstep Hm. unfold on_semaphore. run_cell Hk Hr Hl Hf Hstep.
  eapply (put_stepped k t i p _ m ws ts); [done..| | |done| |done|done].
  - unfold waiters. rewrite H1. by rewrite <-app_assoc.
  - unfold waiters. simpl. rewrite H2. by rewrite <-app_assoc.
  - split_and!; [|done..]. by apply slots_free_insert.
Qed.

Lemma on_mutex_run {V} k t i p id f c (v : V) c' m ws ts :
  sync_inv k → runs k t i p → mutex_list p !! Z.to_nat id = Some (Some c) →
  f c (masking k) = Done (v, c', m) → cell_step m_queue t c c' ws ts → nested_level m = 0 →
  ∃ k', on_mutex id f k = Done (v, k') ∧ stepped k t i p ts ws k'.
Proof.
  intros Hk Hr Hl Hf Hstep Hm. unfold on_mutex. run_cell Hk Hr Hl Hf Hstep.
  eapply (put_stepped k t i p _ m ws ts (rest ++ slots_queue s_queue (semaphore_list p)
    ++ slots_queue c_queue (condvar_list p))); [done..| | |done| |done|done].
  - unfold waiters. rewrite H1. solve_Permutation.
  - unfold waiters. simpl. rewrite H2. solve_Permutation.
  - split_and!; [done| |done]. by apply slots_free_insert.
Qed.

Lemma on_condvar_run {V} k t i p id f c (v : V) c' m ws ts :
  sync_inv k → runs k t i p → condvar_list p !! Z.to_nat id = Some (Some c) →
  f c (masking k) = Done (v, c', m) → cell_step c_queue t c c' ws ts → nested_level m = 0 →
  ∃ k', on_condvar id f k = Done (v, k') ∧ stepped k t i p ts ws k'.
Proof.
  intros Hk Hr Hl Hf Hstep Hm. unfold on_condvar. run_cell Hk Hr Hl Hf Hstep.
  eapply (put_stepped k t i p _ m ws ts (rest ++ slots_queue s_queue (semaphore_list p)
    ++ slots_queue m_queue (mutex_list p))); [done..| | |done| |done|done].
  - unfold waiters. rewrite H1. solve_Permutation.
  - unfold waiters. simpl. rewrite H2. solve_Permutation.
  - split_and!; [done|done|]. by apply slots_free_insert.
Qed.
End SyncInv.
