(* ===== verification/SyncTheorems.v ===== *)
(** * Synchronisation system calls: theorems

    Every synchronisation call of the last kernel, from the trap to the next thread, keeps the invariant of
    [SyncInvariant]; the two ways in which signals break what a thread may expect of a system call. *)

From S2P Require Import Prelude TaskRel ProcManage ProcTree ProcInvariant Schedulers ThreadManage ThreadInvariant.
From S2P Require Import ThreadSystem Sync KernelContext Signal Syscall SyncSyscalls SyncInvariant.

(** ** Requests *)
Inductive request :=
| SemCreate (n : Z) | SemUp (id : Z) | SemDown (id : Z)
| MutexCreate (arg : Z) | MutexLock (id : Z) | MutexUnlock (id : Z)
| CondCreate (arg : Z) | CondSignal (id : Z) | CondWait (id mid : Z).

Definition request_id (r : request) : Z :=
  match r with
  | SemCreate _ => SEMAPHORE_CREATE | SemUp _ => SEMAPHORE_UP | SemDown _ => SEMAPHORE_DOWN
  | MutexCreate _ => MUTEX_CREATE | MutexLock _ => MUTEX_LOCK | MutexUnlock _ => MUTEX_UNLOCK
  | CondCreate _ => CONDVAR_CREATE | CondSignal _ => CONDVAR_SIGNAL | CondWait _ _ => CONDVAR_WAIT
  end.
(** The registers a0 and a1 carry the arguments. *)
Definition request_args (r : request) (a0 a1 : Z) : Prop :=
  match r with
  | SemCreate n | SemUp n | SemDown n | MutexCreate n | MutexLock n | MutexUnlock n | CondCreate n | CondSignal n => a0 = n
  | CondWait id mid => a0 = id ∧ a1 = mid
  end.

Section Requests.
Context {AS FD W : Type}.
Implicit Types (k : kernel AS FD W) (p : Process AS FD).

Definition run_request (r : request) : st (kernel AS FD W) Z :=
  match r with
  | SemCreate n => semaphore_create n
  | SemUp id => semaphore_up id
  | SemDown id => semaphore_down id
  | MutexCreate arg => mutex_create (negb (arg =? 0))
  | MutexLock id => mutex_lock id
  | MutexUnlock id => mutex_unlock id
  | CondCreate arg => condvar_create arg
  | CondSignal id => condvar_signal id
  | CondWait id mid => condvar_wait id mid
  end.

(** What the kernel does not check: the slot exists, a mutex to unlock is locked, the counter has room, and a thread
    waits for the mutex of a condition variable. *)
Definition request_ready (r : request) p : Prop :=
  match r with
  | SemCreate _ | MutexCreate _ | CondCreate _ => True
  | SemUp id => ∃ c, semaphore_list p !! Z.to_nat id = Some (Some c) ∧ isize_min ≤ count (inner c) + 1 ≤ isize_max
  | SemDown id => ∃ c, semaphore_list p !! Z.to_nat id = Some (Some c) ∧ isize_min ≤ count (inner c) - 1 ≤ isize_max
  | MutexLock id => ∃ c, mutex_list p !! Z.to_nat id = Some (Some c)
  | MutexUnlock id => ∃ c, mutex_list p !! Z.to_nat id = Some (Some c) ∧ locked (inner c) = true
  | CondSignal id => ∃ c, condvar_list p !! Z.to_nat id = Some (Some c)
  | CondWait id mid => ∃ cv c, condvar_list p !! Z.to_nat id = Some (Some cv) ∧
      mutex_list p !! Z.to_nat mid = Some (Some c) ∧ locked (inner c) = true ∧ m_queue (inner c) ≠ []
  end.

Lemma current_thread_run extra out k t i p : wait_ok extra out k → runs k t i p →
  ∃ th, current_thread k = Done (th, k) ∧ tid th = t ∧ threads_of k !! t = Some th.
Proof.
  intros Hk (Hc & Ht & _). destruct (pi_threads _ (wo_pt _ _ _ Hk)) as (mgr & Hm & Hd & _). simpl in Hd.
  assert (t ∈ dom (fifo_tasks mgr)) as [th Hth]%elem_of_dom by (rewrite Hd; by apply elem_of_dom_2 in Ht).
  assert (threads_of k !! t = Some th) as Hth' by (unfold threads_of; by rewrite Hm).
  exists th. split_and!; [|by eapply wo_tids|done].
  unfold current_thread, PThreadManager_current. rewrite Hc, Hm; simpl. unfold ThreadManager_get. by rewrite Hth.
Qed.

(** A free cell runs its critical section. *)
Lemma session_free {C V} (f : C → outcome (V * C)) k (c : UPIntrFreeCell C) v x :
  nested_level (masking k) = 0 → borrowed c = false → f (inner c) = Done (v, x) →
  ∃ m, exclusive_session f c (masking k) = Done (v, mkCell x false, m) ∧ nested_level m = 0.
Proof.
  intros Hl Hb Hf. destruct c as [y b]. simpl in *. subst b.
  destruct (session_run f y x v (masking k)) as (m & Hm & _ & Hn & _); [unfold usize_max; lia|lia|done|].
  exists m. split; [done|lia].
Qed.

(** What a request leaves: the caller is queued exactly when a call that may block answers -1. *)
Definition request_done (r : request) k t i p (v : Z) k' : Prop :=
  stepped k t i p (if may_block (request_id r) && (v =? -1) then [t] else []) [] k'.

(** Hand the woken thread to the scheduler after the queue has dropped it. *)
Lemma wake_stepped k t i p ts w k1 : stepped k t i p ts (option_list w) k1 →
  ∃ k2, wake w k1 = Done ((), k2) ∧ stepped k t i p ts [] k2.
Proof.
  intros (Hw & (S1 & S2 & S3) & (p' & (R1 & R2 & R3) & Hs) & Hb).
  destruct (wake_run ts w k1 Hw) as (k2 & Hrun & Hk2 & (T1 & T2 & T3) & Hps).
  { intros u ->. apply Hb. simpl. set_solver. }
  exists k2. split; [done|]. split; [done|]. split; [split_and!; congruence|]. split; [|by intros u ?%not_elem_of_nil].
  exists p'. split; [|done]. split_and!; congruence.
Qed.

Lemma sem_up_run k t i p id : sync_inv k → runs k t i p → request_ready (SemUp id) p →
  ∃ v k', semaphore_up id k = Done (v, k') ∧ request_done (SemUp id) k t i p v k'.
Proof.
  intros Hk Hr (c & Hl & Hc). pose proof (wo_free _ _ _ Hk _ _ (proj2 (proj2 Hr))) as (Hf & _ & _).
  destruct (session_free sem_up_body k c (pop_front (s_queue (inner c))).1
    (mkSem (count (inner c) + 1) (pop_front (s_queue (inner c))).2)) as (m & Hm & Hn);
    [apply Hk|by eapply Hf|unfold sem_up_body, isize_add; rewrite checked_ok by lia; simpl; by destruct pop_front|].
  destruct (on_semaphore_run k t i p id Semaphore_up c _ _ m (option_list (pop_front (s_queue (inner c))).1) []
    Hk Hr Hl Hm) as (k1 & Hrun & Hs); [|done|].
  { split_and!; [|by left|done]. exists (pop_front (s_queue (inner c))).2. simpl. rewrite app_nil_r.
    by destruct (s_queue (inner c)). }
  destruct (wake_stepped _ _ _ _ _ _ _ Hs) as (k2 & Hw & Hs2).
  exists 0, k2. unfold semaphore_up. rewrite (st_bind_run _ _ _ _ _ Hrun), (st_bind_run _ _ _ _ _ Hw). done.
Qed.

Lemma sem_down_run k t i p id : sync_inv k → runs k t i p → request_ready (SemDown id) p →
  ∃ v k', semaphore_down id k = Done (v, k') ∧ request_done (SemDown id) k t i p v k'.
Proof.
  intros Hk Hr (c & Hl & Hc). pose proof (wo_free _ _ _ Hk _ _ (proj2 (proj2 Hr))) as (Hf & _ & _).
  destruct (current_thread_run _ _ _ _ _ _ Hk Hr) as (th & Hth & Ht & _).
  set (ok := negb (count (inner c) - 1 <? 0)).
  destruct (session_free (sem_down_body t) k c ok
    (mkSem (count (inner c) - 1) (s_queue (inner c) ++ if ok then [] else [t]))) as (m & Hm & Hn);
    [apply Hk|by eapply Hf| |].
  { unfold sem_down_body, isize_sub, ok. rewrite checked_ok by lia. simpl. destruct (_ <? 0); by rewrite ?app_nil_r. }
  destruct (on_semaphore_run k t i p id (Semaphore_down t) c _ _ m [] (if ok then [] else [t]) Hk Hr Hl Hm)
    as (k1 & Hrun & Hs); [|done|].
  { split_and!; [by eexists|by destruct ok; auto|done]. }
  exists (answer ok), k1. unfold semaphore_down. rewrite (st_bind_run _ _ _ _ _ Hth), Ht, (st_bind_run _ _ _ _ _ Hrun).
  split; [done|]. unfold request_done. by destruct ok.
Qed.

Lemma mutex_lock_run k t i p id : sync_inv k → runs k t i p → request_ready (MutexLock id) p →
  ∃ v k', mutex_lock id k = Done (v, k') ∧ request_done (MutexLock id) k t i p v k'.
Proof.
  intros Hk Hr (c & Hl). pose proof (wo_free _ _ _ Hk _ _ (proj2 (proj2 Hr))) as (_ & Hf & _).
  destruct (current_thread_run _ _ _ _ _ _ Hk Hr) as (th & Hth & Ht & _).
  set (ok := negb (locked (inner c))).
  destruct (session_free (fun mx => Done (mutex_lock_body t mx)) k c ok
    (mkMutex true (m_queue (inner c) ++ if ok then [] else [t]))) as (m & Hm & Hn); [apply Hk|by eapply Hf| |].
  { unfold mutex_lock_body, ok. destruct (locked (inner c)); by rewrite ?app_nil_r. }
  destruct (on_mutex_run k t i p id (MutexBlocking_lock t) c _ _ m [] (if ok then [] else [t]) Hk Hr Hl Hm)
    as (k1 & Hrun & Hs); [|done|].
  { split_and!; [by eexists|by destruct ok; auto|done]. }
  exists (answer ok), k1. unfold mutex_lock. rewrite (st_bind_run _ _ _ _ _ Hth), Ht, (st_bind_run _ _ _ _ _ Hrun).
  split; [done|]. unfold request_done. by destruct ok.
Qed.

Lemma unlock_body_run mx : locked mx = true → mutex_unlock_body mx =
  Done ((pop_front (m_queue mx)).1, mkMutex (bool_decide (m_queue mx ≠ [])) (pop_front (m_queue mx)).2).
Proof. intros Hl. unfold mutex_unlock_body. rewrite Hl. by destruct (m_queue mx). Qed.

Lemma mutex_unlock_run k t i p id : sync_inv k → runs k t i p → request_ready (MutexUnlock id) p →
  ∃ v k', mutex_unlock id k = Done (v, k') ∧ request_done (MutexUnlock id) k t i p v k'.
Proof.
  intros Hk Hr (c & Hl & Hlock). pose proof (wo_free _ _ _ Hk _ _ (proj2 (proj2 Hr))) as (_ & Hf & _).
  destruct (session_free mutex_unlock_body k c _ _ (wo_level _ _ _ Hk) (Hf _ _ Hl) (unlock_body_run _ Hlock))
    as (m & Hm & Hn).
  destruct (on_mutex_run k t i p id MutexBlocking_unlock c _ _ m (option_list (pop_front (m_queue (inner c))).1) []
    Hk Hr Hl Hm) as (k1 & Hrun & Hs); [|done|].
  { split_and!; [|by left|done]. exists (pop_front (m_queue (inner c))).2. simpl. rewrite app_nil_r.
    by destruct (m_queue (inner c)). }
  destruct (wake_stepped _ _ _ _ _ _ _ Hs) as (k2 & Hw & Hs2).
  exists 0, k2. unfold mutex_unlock. rewrite (st_bind_run _ _ _ _ _ Hrun), (st_bind_run _ _ _ _ _ Hw). done.
Qed.

Lemma condvar_signal_run k t i p id : sync_inv k → runs k t i p → request_ready (CondSignal id) p →
  ∃ v k', condvar_signal id k = Done (v, k') ∧ request_done (CondSignal id) k t i p v k'.
Proof.
  intros Hk Hr (c & Hl). pose proof (wo_free _ _ _ Hk _ _ (proj2 (proj2 Hr))) as (_ & _ & Hf).
  set (w := (pop_front (c_queue (inner c))).1).
  destruct (session_free (fun cv => let '(w, q) := pop_front (c_queue cv) in Done (w, mkCondvar q)) k c w
    (mkCondvar (pop_front (c_queue (inner c))).2)) as (m & Hm & Hn); [apply Hk|by eapply Hf| |].
  { unfold w. by destruct pop_front. }
  destruct (on_condvar_run k t i p id Condvar_signal c _ _ m (option_list w) [] Hk Hr Hl Hm)
    as (k1 & Hrun & Hs); [|done|].
  { split_and!; [|by left|done]. exists (pop_front (c_queue (inner c))).2. simpl. rewrite app_nil_r. unfold w.
    by destruct (c_queue (inner c)). }
  destruct (wake_stepped _ _ _ _ _ _ _ Hs) as (k2 & Hw & Hs2).
  exists 0, k2. unfold condvar_signal. rewrite (st_bind_run _ _ _ _ _ Hrun), (st_bind_run _ _ _ _ _ Hw). done.
Qed.

(** [wait_with_mutex] with another thread waiting for the mutex: that thread gets it, the caller queues behind. *)
Lemma wait_with_mutex_run k (c : MutexBlocking) t w q :
  nested_level (masking k) = 0 → borrowed c = false → locked (inner c) = true → m_queue (inner c) = w :: q →
  ∃ m, Condvar_wait_with_mutex t c (masking k) = Done (false, Some w, mkCell (mkMutex true (q ++ [t])) false, m) ∧
    nested_level m = 0.
Proof.
  intros Hn Hb Hl Hq. pose proof (unlock_body_run _ Hl) as Hu. rewrite Hq in Hu. simpl in Hu.
  destruct (session_free _ k c _ _ Hn Hb Hu) as (m1 & Hm1 & Hn1).
  destruct (session_free (fun mx => Done (mutex_lock_body t mx)) (mkKernel (processor k) m1 (world k))
    (mkCell (mkMutex true q) false) false (mkMutex true (q ++ [t]))) as (m2 & Hm2 & Hn2); [done..|].
  exists m2. split; [|done]. unfold Condvar_wait_with_mutex, MutexBlocking_unlock, MutexBlocking_lock.
  rewrite Hm1; simpl. simpl in Hm2. rewrite Hm2. done.
Qed.

Lemma condvar_wait_run k t i p id mid : sync_inv k → runs k t i p → request_ready (CondWait id mid) p →
  ∃ v k', condvar_wait id mid k = Done (v, k') ∧ request_done (CondWait id mid) k t i p v k'.
Proof.
  intros Hk Hr (cv & c & Hcv & Hl & Hlock & Hq). pose proof (wo_free _ _ _ Hk _ _ (proj2 (proj2 Hr))) as (_ & Hf & _).
  destruct (current_thread_run _ _ _ _ _ _ Hk Hr) as (th & Hth & Ht & _).
  destruct (m_queue (inner c)) as [|w q] eqn:Eq; [done|].
  destruct (wait_with_mutex_run k c t w q (wo_level _ _ _ Hk) (Hf _ _ Hl) Hlock Eq) as (m & Hm & Hn).
  destruct (on_mutex_run k t i p mid (Condvar_wait_with_mutex t) c _ _ m [w] [t] Hk Hr Hl Hm) as (k1 & Hrun & Hs); [|done|].
  { split_and!; [|by right|done]. exists q. by rewrite Eq. }
  destruct (wake_stepped k t i p [t] (Some w) k1 Hs) as (k2 & Hw & Hs2).
  exists (-1), k2. unfold condvar_wait.
  rewrite (st_bind_run _ _ _ _ _ Hth), (st_bind_run _ _ _ _ _ (current_proc_run _ _ _ _ Hr)), Ht.
  assert (lift (slot id (condvar_list p)) k = Done (cv, k)) as Hcv' by (unfold lift; by rewrite (proj2 (slot_Done _ _ _) Hcv)).
  rewrite (st_bind_run _ _ _ _ _ Hcv'), (st_bind_run _ _ _ _ _ Hrun), (st_bind_run _ _ _ _ _ Hw). done.
Qed.

(** Creation: a new primitive adds no waiter. *)
Lemma semaphore_create_run k t i p n : sync_inv k → runs k t i p →
  ∃ v k', semaphore_create n k = Done (v, k') ∧ request_done (SemCreate n) k t i p v k'.
Proof.
  intros Hk Hr. pose proof (wo_free _ _ _ Hk _ _ (proj2 (proj2 Hr))) as (H1 & H2 & H3).
  unfold semaphore_create. rewrite (st_bind_run _ _ _ _ _ (current_proc_run _ _ _ _ Hr)).
  destruct (alloc_slot _ _) as [id l] eqn:E. eapply (alloc_slot_queue s_queue) in E as (Hq & Hfr & _); [|done].
  eexists _, _. split; [by rewrite (st_bind_run _ _ _ _ _ (update_current_proc_run _ _ _ _ _ Hr))|].
  apply (put_stepped k t i p _ (masking k) [] [] (waiters p)); try done; [|by left| |apply Hk].
  - unfold waiters. simpl. by rewrite Hq.
  - split_and!; [|done..]. apply Hfr; [done|]. by intros c [= <-].
Qed.

Lemma mutex_create_run k t i p arg : sync_inv k → runs k t i p →
  ∃ v k', mutex_create (negb (arg =? 0)) k = Done (v, k') ∧ request_done (MutexCreate arg) k t i p v k'.
Proof.
  intros Hk Hr. pose proof (wo_free _ _ _ Hk _ _ (proj2 (proj2 Hr))) as (H1 & H2 & H3).
  unfold mutex_create. rewrite (st_bind_run _ _ _ _ _ (current_proc_run _ _ _ _ Hr)).
  destruct (alloc_slot _ _) as [id l] eqn:E.
  eapply (alloc_slot_queue m_queue) in E as (Hq & Hfr & _); [|by destruct (negb _)].
  eexists _, _. split; [by rewrite (st_bind_run _ _ _ _ _ (update_current_proc_run _ _ _ _ _ Hr))|].
  apply (put_stepped k t i p _ (masking k) [] [] (waiters p)); try done; [|by left| |apply Hk].
  - unfold waiters. simpl. by rewrite Hq.
  - split_and!; [done| |done]. apply Hfr; [done|]. destruct (negb _); [by intros c [= <-]|done].
Qed.

Lemma condvar_create_run k t i p arg : sync_inv k → runs k t i p →
  ∃ v k', condvar_create arg k = Done (v, k') ∧ request_done (CondCreate arg) k t i p v k'.
Proof.
  intros Hk Hr. pose proof (wo_free _ _ _ Hk _ _ (proj2 (proj2 Hr))) as (H1 & H2 & H3).
  unfold condvar_create. rewrite (st_bind_run _ _ _ _ _ (current_proc_run _ _ _ _ Hr)).
  destruct (alloc_slot _ _) as [id l] eqn:E. eapply (alloc_slot_queue c_queue) in E as (Hq & Hfr & _); [|done].
  eexists _, _. split; [by rewrite (st_bind_run _ _ _ _ _ (update_current_proc_run _ _ _ _ _ Hr))|].
  apply (put_stepped k t i p _ (masking k) [] [] (waiters p)); try done; [|by left| |apply Hk].
  - unfold waiters. simpl. by rewrite Hq.
  - split_and!; [done|done|]. apply Hfr; [done|]. by intros c [= <-].
Qed.

Lemma request_run r k t i p : sync_inv k → runs k t i p → request_ready r p →
  ∃ v k', run_request r k = Done (v, k') ∧ request_done r k t i p v k'.
Proof.
  intros Hk Hr Hready. destruct r; simpl run_request.
  - by apply semaphore_create_run.
  - by apply sem_up_run.
  - by apply sem_down_run.
  - by apply mutex_create_run.
  - by apply mutex_lock_run.
  - by apply mutex_unlock_run.
  - by apply condvar_create_run.
  - by apply condvar_signal_run.
  - by apply condvar_wait_run.
Qed.

(** The dispatcher reaches the call. *)
Lemma handle_request reg r a k v k' : SYNC_MUTEX reg = Some SyscallContext_sync → request_args r (a 0) (a 1) →
  run_request r k = Done (v, k') → handle reg (request_id r) a k = Done (RDone v, k').
Proof.
  intros Hreg Ha Hrun. unfold handle.
  destruct r; simpl in *; rewrite Hreg; unfold Container_call; simpl;
    (rewrite (st_bind_run _ _ k k' v); [done|]); destruct_and?; by subst.
Qed.

(** ** The trap *)

Lemma thread_context_run extra out k t th : wait_ok extra out k → threads_of k !! t = Some th →
  thread_context t k = Done (f_context (context th), k).
Proof.
  intros Hk Hth. destruct (manager_of k (wo_pt _ _ _ Hk)) as (mgr & Hm). unfold threads_of in Hth. rewrite Hm in Hth.
  unfold thread_context, PThreadManager_get_task. rewrite Hm. simpl in *. unfold ThreadManager_get. by rewrite Hth.
Qed.

Lemma update_thread_ok extra out k t f th : wait_ok extra out k → threads_of k !! t = Some th → tid (f th) = t →
  ∃ k', update_thread t f k = Done ((), k') ∧ wait_ok extra out k' ∧
    pt_current (processor k') = pt_current (processor k) ∧ tid2pid (processor k') = tid2pid (processor k) ∧
    procs k' = procs k ∧ threads_of k' = <[t := f th]> (threads_of k).
Proof.
  intros Hk Hth Hf. destruct (manager_of k (wo_pt _ _ _ Hk)) as (mgr & Hm).
  assert (Htk : threads_of k = fifo_tasks mgr) by (unfold threads_of; by rewrite Hm).
  unfold update_thread, on_processor. rewrite Hm; simpl. eexists. split; [done|].
  assert (Hal : alter f t (fifo_tasks mgr) = <[t := f th]> (fifo_tasks mgr)) by (apply alter_present; congruence).
  split; [|split_and!; [done..|]; unfold threads_of at 1; simpl; by rewrite Htk].
  eapply wait_ok_ext; [exact Hk| |done..| |].
  - change (pt_inv (with_current (pt_current (processor k))
      (PThreadManager_set_manager (ThreadManager_update t f mgr) (processor k)))).
    destruct (pi_threads _ (wo_pt _ _ _ Hk)) as (m0 & Hm0 & Hd & Hnd & Hin). rewrite Hm in Hm0. injection Hm0 as <-.
    apply (inv_sched (processor k) mgr); [apply Hk|done| |done|done]. simpl. by rewrite dom_alter_L.
  - intros u th'. unfold threads_of; simpl. rewrite Hal, lookup_insert_Some. intros [[<- <-]|[_ Hu]]; [done|].
    apply (wo_tids _ _ _ Hk). by rewrite Htk.
  - intros u Hu. rewrite (blocked_iff k u mgr Hm).
    rewrite (blocked_iff (set_processor _ k) u (ThreadManager_update t f mgr)) by done. done.
Qed.

Lemma set_signal_ok extra out k t i p g : wait_ok extra out k → runs k t i p →
  wait_ok extra out (put_proc i (set_signal g p) k).
Proof. intros Hk (_ & _ & Hp). eapply put_same; [done|done|done|]. by pose proof (wo_free _ _ _ Hk _ _ Hp). Qed.

Lemma handle_signals_wf c g res c' g' : ctx_wf c → SignalImpl_handle_signals c g = Done (res, c', g') → ctx_wf c'.
Proof.
  intros Hwf. unfold SignalImpl_handle_signals. destruct (handling g) as [[|old]|]; intros H; inv_run; [|done|].
  - destruct a as [[] g1]; by inv_run.
  - destruct a as [o g1]. destruct o as [s|]; [|by inv_run].
    destruct s; inv_run; try done; match goal with o : option SignalAction |- _ => destruct o end; inv_run;
      by eauto using set_a_wf.
Qed.

Lemma runs_same k k' t i p : runs k t i p → pt_current (processor k') = pt_current (processor k) →
  tid2pid (processor k') = tid2pid (processor k) → procs k' = procs k → runs k' t i p.
Proof. intros (? & ? & ?) E1 E2 E3. split_and!; congruence. Qed.

(** What thread [t] finds when it runs again. *)
Definition returned k' (t : Z) (asleep : bool) (v pc : Z) : Prop :=
  sync_inv k' ∧ pt_current (processor k') = None ∧ (blocked t (processor k') ↔ asleep = true) ∧
  ∃ th', threads_of k' !! t = Some th' ∧ LocalContext_a 0 (f_context (context th')) = Done v ∧
    sepc (f_context (context th')) = pc.

Lemma sync_finish_run (asleep : bool) k t : wait_ok (if asleep then [t] else []) [] k → pt_current (processor k) = Some t →
  ∃ k', (if asleep then on_processor (fun pm => Done (PThreadManager_make_current_blocked pm))
         else on_processor PThreadManager_make_current_suspend) k = Done ((), k') ∧ stopped k t asleep k'.
Proof.
  intros Hk Hc. destruct asleep.
  - eexists. split; [done|]. by apply block_run.
  - destruct (suspend_run k t Hk Hc) as (pm & Hrun & Hs). eexists. unfold on_processor. by rewrite Hrun.
Qed.

(** From the answer of the call to the next state of the thread. *)
Lemma return_run (asleep : bool) k t i p th v c' g :
  wait_ok (if asleep then [t] else []) [] k → runs k t i p → threads_of k !! t = Some th → ctx_wf c' →
  ∃ k', ((update_thread t (set_context c');;
         update_current_proc (set_signal g);;
         ctx ← lift (LocalContext_set_a 0 v c');
         update_thread t (set_context ctx);;
         if asleep then on_processor (fun pm => Done (PThreadManager_make_current_blocked pm))
         else on_processor PThreadManager_make_current_suspend) : st (kernel AS FD W) unit) k = Done ((), k') ∧
    returned k' t asleep v (sepc c') ∧ procs k' = <[i := set_signal g p]> (procs k).
Proof.
  intros Hk Hr Hth Hwf. assert (Ht : tid th = t) by (by eapply wo_tids).
  destruct (update_thread_ok _ _ k t (set_context c') th Hk Hth Ht) as (k2 & Hu2 & Hk2 & C2 & T2 & P2 & Th2).
  assert (Hr2 : runs k2 t i p) by (by eapply runs_same).
  pose proof (set_signal_ok _ _ _ _ _ _ g Hk2 Hr2) as Hk3.
  set (k3 := put_proc i (set_signal g p) k2) in *.
  destruct (set_a_run 0 v c' Hwf) as (c2 & Hset & Hwf2 & Ha & Hpc); [lia|].
  assert (Hth3 : threads_of k3 !! t = Some (set_context c' th)).
  { change (threads_of k3) with (threads_of k2). rewrite Th2. apply lookup_insert_eq. }
  destruct (update_thread_ok _ _ k3 t (set_context c2) _ Hk3 Hth3 Ht) as (k4 & Hu4 & Hk4 & C4 & T4 & P4 & Th4).
  destruct (sync_finish_run asleep k4 t Hk4) as (k5 & Hf & Hs5 & Hc5 & Hth5 & Hp5 & Hb5); [rewrite C4; apply Hr2|].
  exists k5. split.
  - rewrite (st_bind_run _ _ _ _ _ Hu2), (st_bind_run _ _ _ _ _ (update_current_proc_run _ _ _ _ _ Hr2)).
    rewrite (st_bind_run _ _ _ _ _ (lift_run _ _ _ Hset)), (st_bind_run _ _ _ _ _ Hu4). done.
  - split; [split_and!; [done..|]|rewrite Hp5, P4; unfold k3; rewrite <-P2; done].
    exists (set_context c2 (set_context c' th)). split; [|done]. rewrite Hth5, Th4. apply lookup_insert_eq.
Qed.

(** A request in the registers of a thread. *)
Definition asks (r : request) (c : LocalContext) : Prop :=
  ctx_wf c ∧ LocalContext_a 7 c = Done (request_id r) ∧
  ∃ a0 a1, LocalContext_a 0 c = Done a0 ∧ LocalContext_a 1 c = Done a1 ∧ request_args r a0 a1.

(** The call runs with the program counter past the [ecall]; the signals come after it. *)
Lemma entry_run reg r k t i p th : sync_inv k → runs k t i p → threads_of k !! t = Some th →
  asks r (f_context (context th)) → SYNC_MUTEX reg = Some SyscallContext_sync → request_ready r p →
  ∃ v k1 p1, user_env_call reg t k = after_syscall t (request_id r) (RDone v) k1 ∧
    wait_ok (if may_block (request_id r) && (v =? -1) then [t] else []) [] k1 ∧ runs k1 t i p1 ∧ signal p1 = signal p ∧
    threads_of k1 !! t = Some (set_context (LocalContext_move_next (f_context (context th))) th) ∧
    tid2pid (processor k1) = tid2pid (processor k) ∧ ∃ k0, run_request r k0 = Done (v, k1) ∧ sync_inv k0 ∧ runs k0 t i p.
Proof.
  intros Hk Hr Hth (Hwf & Hid & a0 & a1 & Ha0 & Ha1 & Hargs) Hreg Hready.
  assert (Ht : tid th = t) by (by eapply wo_tids). set (c := f_context (context th)) in *.
  destruct (update_thread_ok _ _ k t (set_context (LocalContext_move_next c)) th Hk Hth Ht)
    as (k0 & Hu0 & Hk0 & C0 & T0 & P0 & Th0).
  assert (Hr0 : runs k0 t i p) by (by eapply runs_same).
  destruct (request_run r k0 t i p Hk0 Hr0 Hready) as (v & k1 & Hrun & Hk1 & (_ & T1 & Th1) & (p1 & Hr1 & Hs1) & _).
  exists v, k1, p1. split; [|split_and!; [done..|by rewrite Th1, Th0, lookup_insert_eq|congruence|by eauto]].
  unfold user_env_call.
  rewrite (st_bind_run _ _ _ _ _ (thread_context_run _ _ _ _ _ Hk Hth)), (st_bind_run _ _ _ _ _ Hu0).
  rewrite (st_bind_run _ _ _ _ _ (lift_run _ _ _ Hid)), (st_bind_run _ _ _ _ _ (lift_run _ _ _ Ha0)).
  rewrite (st_bind_run _ _ _ _ _ (lift_run _ _ _ Ha1)).
  destruct (a_run 2 c Hwf) as (a2 & Ha2); [lia|]. destruct (a_run 3 c Hwf) as (a3 & Ha3); [lia|].
  destruct (a_run 4 c Hwf) as (a4 & Ha4); [lia|]. destruct (a_run 5 c Hwf) as (a5 & Ha5); [lia|].
  rewrite (st_bind_run _ _ _ _ _ (lift_run _ _ _ Ha2)), (st_bind_run _ _ _ _ _ (lift_run _ _ _ Ha3)).
  rewrite (st_bind_run _ _ _ _ _ (lift_run _ _ _ Ha4)), (st_bind_run _ _ _ _ _ (lift_run _ _ _ Ha5)).
  by rewrite (st_bind_run _ _ _ _ _ (handle_request reg r (fun n => nth (Z.to_nat n) [a0; a1; a2; a3; a4; a5] 0)
    _ _ _ Hreg Hargs Hrun)).
Qed.

(** The signals of the process, up to the choice of what becomes of the thread. *)
Lemma signals_run extra k t i p th id ret res c' g : wait_ok extra [] k → runs k t i p → threads_of k !! t = Some th →
  SignalImpl_handle_signals (f_context (context th)) (signal p) = Done (res, c', g) →
  after_syscall t id ret k = ((update_thread t (set_context c');;
    update_current_proc (set_signal g);;
    match res, ret with
    | ProcessKilled exit_code, _ => on_processor (PThreadManager_make_current_exited exit_code)
    | _, RDone ret =>
        if id =? EXIT then on_processor (PThreadManager_make_current_exited ret)
        else
          ctx ← lift (LocalContext_set_a 0 (as_usize ret) c');
          update_thread t (set_context ctx);;
          if may_block id && (ret =? -1)
          then on_processor (fun pm => Done (PThreadManager_make_current_blocked pm))
          else on_processor PThreadManager_make_current_suspend
    | _, Unsupported _ => on_processor (PThreadManager_make_current_exited (-2))
    end) : st (kernel AS FD W) unit) k.
Proof.
  intros Hk Hr Hth Hsig. unfold after_syscall. rewrite (st_bind_run _ _ _ _ _ (current_proc_run _ _ _ _ Hr)).
  rewrite (st_bind_run _ _ _ _ _ (thread_context_run _ _ _ _ _ Hk Hth)).
  by rewrite (st_bind_run _ _ _ _ _ (lift_run _ _ _ Hsig)).
Qed.

(** C22: No wake-up is lost.  In a state where each blocked thread sits in exactly one wait queue of its process, and
    every queued thread is blocked, a synchronisation call of the running thread whose argument the kernel can serve
    runs from the trap to the end of its turn without panicking, unless a signal kills the caller; the invariant holds
    again, the caller sleeps exactly when a call that may block answered -1, and finds that answer in a0. *)
Theorem sync_call_keeps_queues reg r k t i p th res c' g :
  sync_inv k → runs k t i p → threads_of k !! t = Some th → asks r (f_context (context th)) →
  SYNC_MUTEX reg = Some SyscallContext_sync → request_ready r p →
  SignalImpl_handle_signals (LocalContext_move_next (f_context (context th))) (signal p) = Done (res, c', g) →
  (∀ code, res ≠ ProcessKilled code) →
  ∃ v k', user_env_call reg t k = Done ((), k') ∧
    returned k' t (may_block (request_id r) && (v =? -1)) (as_usize v) (sepc c').
Proof.
  intros Hk Hr Hth Hasks Hreg Hready Hsig Hres.
  destruct (entry_run reg r k t i p th Hk Hr Hth Hasks Hreg Hready) as (v & k1 & p1 & -> & Hk1 & Hr1 & Hs1 & Hth1 & _).
  assert (Hwf' : ctx_wf c') by (eapply handle_signals_wf; [|exact Hsig]; apply Hasks).
  destruct (return_run (may_block (request_id r) && (v =? -1)) k1 t i p1 _ (as_usize v) c' g Hk1 Hr1 Hth1 Hwf')
    as (k' & Hret & Hk' & _).
  exists v, k'. split; [|done]. rewrite <-Hs1 in Hsig. rewrite (signals_run _ _ _ _ _ _ _ _ _ _ _ Hk1 Hr1 Hth1 Hsig).
  assert (request_id r =? EXIT = false) as -> by (by destruct r).
  destruct res as [| | | |code|]; try exact Hret. by destruct (Hres code).
Qed.

(** ** What the kernel does not check *)
Lemma on_semaphore_inv {V} k t i p id f (v : V) k' : runs k t i p → on_semaphore id f k = Done (v, k') →
  ∃ c c' m, semaphore_list p !! Z.to_nat id = Some (Some c) ∧ f c (masking k) = Done (v, c', m).
Proof.
  intros Hr. unfold on_semaphore. rewrite (current_proc_run _ _ _ _ Hr); simpl. intros H. inv_run.
  destruct a0 as [[v0 c0] m0]. inv_run. destruct a0 as [u k1]. inv_run.
  apply slot_Done in E. eauto 10.
Qed.

Lemma on_mutex_inv {V} k t i p id f (v : V) k' : runs k t i p → on_mutex id f k = Done (v, k') →
  ∃ c c' m, mutex_list p !! Z.to_nat id = Some (Some c) ∧ f c (masking k) = Done (v, c', m).
Proof.
  intros Hr. unfold on_mutex. rewrite (current_proc_run _ _ _ _ Hr); simpl. intros H. inv_run.
  destruct a0 as [[v0 c0] m0]. inv_run. destruct a0 as [u k1]. inv_run.
  apply slot_Done in E. eauto 10.
Qed.

Lemma on_condvar_inv {V} k t i p id f (v : V) k' : runs k t i p → on_condvar id f k = Done (v, k') →
  ∃ c c' m, condvar_list p !! Z.to_nat id = Some (Some c) ∧ f c (masking k) = Done (v, c', m).
Proof.
  intros Hr. unfold on_condvar. rewrite (current_proc_run _ _ _ _ Hr); simpl. intros H. inv_run.
  destruct a0 as [[v0 c0] m0]. inv_run. destruct a0 as [u k1]. inv_run.
  apply slot_Done in E. eauto 10.
Qed.

Lemma unlock_body_inv mx w mx' : mutex_unlock_body mx = Done (w, mx') →
  locked mx = true ∧ (is_Some w → m_queue mx ≠ []).
Proof.
  unfold mutex_unlock_body. intros H. inv_run. split; [done|]. destruct (m_queue mx); simpl in H; inv_run; [|done].
  by intros [? ?].
Qed.

Lemma wait_with_mutex_inv tid (c c' : MutexBlocking) m m' v :
  Condvar_wait_with_mutex tid c m = Done (v, c', m') → locked (inner c) = true ∧ m_queue (inner c) ≠ [].
Proof.
  unfold Condvar_wait_with_mutex. intros H. inv_run. destruct a as [[w c1] m1]. inv_run.
  apply session_inv in E as (Hu & _). apply unlock_body_inv in Hu as [Hl Hq]. eauto.
Qed.

Lemma request_inv r k t i p v k' : sync_inv k → runs k t i p → run_request r k = Done (v, k') → request_ready r p.
Proof.
  intros Hk Hr. destruct (current_thread_run _ _ _ _ _ _ Hk Hr) as (th & Hth & _ & _).
  destruct r; simpl; try done.
  - unfold semaphore_up. intros H. inv_run. eapply on_semaphore_inv in E as (c & c' & m & Hl & Hf); [|done].
    exists c. split; [done|]. apply session_inv in Hf as (Hf & _). unfold sem_up_body, isize_add in Hf. inv_run.
    by apply checked_Done in E as [_ ?].
  - unfold semaphore_down. rewrite (st_bind_run _ _ _ _ _ Hth). intros H. inv_run.
    eapply on_semaphore_inv in E as (c & c' & m & Hl & Hf); [|done].
    exists c. split; [done|]. apply session_inv in Hf as (Hf & _). unfold sem_down_body, isize_sub in Hf. inv_run.
    by apply checked_Done in E as [_ ?].
  - unfold mutex_lock. rewrite (st_bind_run _ _ _ _ _ Hth). intros H. inv_run.
    eapply on_mutex_inv in E as (c & c' & m & Hl & Hf); eauto.
  - unfold mutex_unlock. intros H. inv_run. eapply on_mutex_inv in E as (c & c' & m & Hl & Hf); [|done].
    exists c. split; [done|]. apply session_inv in Hf as (Hf & _). by apply unlock_body_inv in Hf as [? _].
  - unfold condvar_signal. intros H. inv_run. eapply on_condvar_inv in E as (c & c' & m & Hl & Hf); eauto.
  - unfold condvar_wait. rewrite (st_bind_run _ _ _ _ _ Hth), (st_bind_run _ _ _ _ _ (current_proc_run _ _ _ _ Hr)).
    intros H. inv_run. unfold lift in E. destruct (slot id (condvar_list p)) as [cv| |] eqn:Hcv; [|done..].
    injection E as -> ->. apply slot_Done in Hcv. destruct a0 as [flag w].
    eapply on_mutex_inv in E0 as (c & c' & m & Hl & Hf); [|done]. apply wait_with_mutex_inv in Hf as [? ?]. eauto 10.
Qed.

(** C23: The calls the kernel can serve are exactly those whose identifier names a live slot and, for [unlock], whose
    mutex is locked, for the semaphore, whose counter has room, and for [condvar_wait], whose mutex is locked with
    another thread waiting for it; every other synchronisation call of a user program stops the kernel. *)
Theorem sync_call_served r k t i p : sync_inv k → runs k t i p →
  (∃ v k', run_request r k = Done (v, k')) ↔ request_ready r p.
Proof.
  intros Hk Hr. split; [intros (v & k' & H); by eapply request_inv|].
  intros Hready. destruct (request_run r k t i p Hk Hr Hready) as (v & k' & H & _). eauto.
Qed.

(** ** Signals *)

Lemma lock_answer id c k t i p v k' : runs k t i p → mutex_list p !! Z.to_nat id = Some (Some c) →
  locked (inner c) = true → mutex_lock id k = Done (v, k') → v = -1.
Proof.
  intros Hr Hl Hlock. unfold mutex_lock. intros H. inv_run. unfold current_thread in E. inv_run.
  eapply on_mutex_inv in E0 as (c0 & c' & m & Hl0 & Hf); [|done]. rewrite Hl in Hl0. simplify_eq.
  apply session_inv in Hf as (Hf & _). unfold mutex_lock_body in Hf. rewrite Hlock in Hf. injection Hf as <- _. by injection H as <- _.
Qed.

(** The exit of a thread that is not the last of its process. *)
Lemma exit_not_last (pm : PThreadManager (ThreadManager Thread) (ProcManager (Process AS FD))) t u i code :
  pt_inv pm → pt_current pm = Some t → tid2pid pm !! t = Some i → tid2pid pm !! u = Some i → u ≠ t →
  ∃ pm', PThreadManager_make_current_exited code pm = Done pm' ∧ tid2pid pm' = delete t (tid2pid pm) ∧
    proc_manager pm' = proc_manager pm.
Proof.
  intros Hi Hc Ht Hu Hne. destruct (pi_threads _ Hi) as (mgr & Hm & _).
  destruct (proj1 (pi_own _ Hi _ _) Ht) as (r & Hr & Hin). destruct (proj1 (pi_own _ Hi _ _) Hu) as (r' & Hr' & Hinu).
  rewrite Hr in Hr'. injection Hr' as <-. destruct (del_thread_present t code r Hin) as [_ HP].
  unfold PThreadManager_make_current_exited. rewrite Hc, Hm; simpl. rewrite Ht; simpl. rewrite Hr.
  destruct (threads (ProcThreadRel_del_thread t code r)) as [|x l] eqn:E; simpl; [|by eexists].
  rewrite HP in Hinu. apply list_elem_of_singleton in Hinu. done.
Qed.

(** A signal that kills a thread which just queued on a locked mutex leaves its id in the queue: when its process
    has another thread, the dead thread is forgotten by the scheduler but still waits for the mutex, so a later
    [unlock] hands the mutex to a thread that no longer exists. *)
Theorem killed_thread_stays_queued reg id c k t u i p th code c' g :
  sync_inv k → runs k t i p → threads_of k !! t = Some th → asks (MutexLock id) (f_context (context th)) →
  SYNC_MUTEX reg = Some SyscallContext_sync → mutex_list p !! Z.to_nat id = Some (Some c) → locked (inner c) = true →
  SignalImpl_handle_signals (LocalContext_move_next (f_context (context th))) (signal p) = Done (ProcessKilled code, c', g) →
  tid2pid (processor k) !! u = Some i → u ≠ t →
  ∃ k' p', user_env_call reg t k = Done ((), k') ∧ tid2pid (processor k') !! t = None ∧
    procs k' !! i = Some p' ∧ t ∈ waiters p'.
Proof.
  intros Hk Hr Hth Hasks Hreg Hl Hlock Hsig Hu Hne.
  destruct (entry_run reg (MutexLock id) k t i p th Hk Hr Hth Hasks Hreg)
    as (v & k1 & p1 & -> & Hk1 & Hr1 & Hs1 & Hth1 & T1 & k0 & Hrun & _ & Hr0); [by eexists|].
  apply (lock_answer id c k0 t i p) in Hrun as ->; [|done..]. simpl in Hk1.
  rewrite <-Hs1 in Hsig. rewrite (signals_run _ _ _ _ _ _ _ _ _ _ _ Hk1 Hr1 Hth1 Hsig).
  assert (Ht : tid th = t) by (by apply (wo_tids _ _ _ Hk)).
  destruct (update_thread_ok _ _ k1 t (set_context c') _ Hk1 Hth1 Ht) as (k2 & Hu2 & Hk2 & C2 & T2 & P2 & _).
  assert (Hr2 : runs k2 t i p1) by (by eapply runs_same).
  pose proof (set_signal_ok _ _ _ _ _ _ g Hk2 Hr2) as Hk3. set (k3 := put_proc i (set_signal g p1) k2) in *.
  destruct Hr2 as (Hc2 & Ht2 & Hp2). assert (Hr2 : runs k2 t i p1) by done.
  destruct (exit_not_last (processor k3) t u i code (wo_pt _ _ _ Hk3)) as (pm & Hexit & Htid & Hpm);
    [done|done|change (tid2pid (processor k2) !! u = Some i); congruence|done|].
  exists (set_processor pm k3), (set_signal g p1).
  assert (Hp3 : procs k3 !! i = Some (set_signal g p1)) by (apply lookup_insert_eq).
  split_and!.
  - rewrite (st_bind_run _ _ _ _ _ Hu2), (st_bind_run _ _ _ _ _ (update_current_proc_run _ _ _ _ _ Hr2)).
    fold k3. unfold on_processor. by rewrite Hexit.
  - simpl. rewrite Htid. apply lookup_delete_eq.
  - unfold procs in *. simpl. by rewrite Hpm.
  - apply (wo_iff _ _ _ Hk3 _ _ t Hp3). split; [done|]. right. set_solver.
Qed.

(** Delivery of a signal with a handler saves the context. *)
Lemma handler_context g s act c : sets_ok g → ctx_wf c → handling g = None → next_signal g s → s ≠ SIGKILL →
  s ≠ SIGSTOP → actions g !! Z.to_nat (signal_num s) = Some (Some act) →
  ∃ c' g', SignalImpl_handle_signals c g = Done (Handled, c', g') ∧ sepc c' = handler act ∧
    handling g' = Some (UserSignal c).
Proof.
  intros Hok Hwf Hh Hnext Hkill Hstop Hact. destruct (fetch_next g s Hok Hnext) as (g' & Hf & Hg' & _).
  assert (action_slot s g' = Done (Some act)) as Hslot by (unfold action_slot; rewrite Hg'; simpl; by rewrite Hact).
  destruct (set_a_run 0 (signal_num s) (LocalContext_set_pc (handler act) c)) as (c' & Hset & _ & _ & Hpc); [done|lia|].
  exists c', (with_handling (Some (UserSignal c)) g'). split; [|done].
  unfold SignalImpl_handle_signals. rewrite Hh, Hf. simpl. clear -Hslot Hset Hkill Hstop.
  destruct s; simpl in Hset; try done; rewrite Hslot; simpl; rewrite Hset; done.
Qed.

(** The handler of a signal does not get the signal number: delivery puts the number in a0, but the end of the
    system call stores the answer of the call over it, in the handler's a0 and not in the saved context, which keeps
    the first argument of the call; the interrupted program never sees the answer. *)
Theorem handler_argument_overwritten k t i p th id ret s act :
  sync_inv k → runs k t i p → threads_of k !! t = Some th → ctx_wf (f_context (context th)) →
  sets_ok (signal p) → handling (signal p) = None → next_signal (signal p) s → s ≠ SIGKILL → s ≠ SIGSTOP →
  actions (signal p) !! Z.to_nat (signal_num s) = Some (Some act) →
  id ≠ EXIT → may_block id = false →
  ∃ k' p', after_syscall t id (RDone ret) k = Done ((), k') ∧ returned k' t false (as_usize ret) (handler act) ∧
    procs k' !! i = Some p' ∧ handling (signal p') = Some (UserSignal (f_context (context th))).
Proof.
  intros Hk Hr Hth Hwf Hok Hh Hnext Hkill Hstop Hact Hid Hmb.
  destruct (handler_context (signal p) s act (f_context (context th))) as (c' & g' & Hsig & Hpc & Hg'); [done..|].
  assert (Hwf' : ctx_wf c') by (eapply handle_signals_wf; [|exact Hsig]; done).
  destruct (return_run false k t i p th (as_usize ret) c' g' Hk Hr Hth Hwf') as (k' & Hret & Hk' & Hp').
  rewrite Hpc in Hk'. assert (Hpr : procs k' !! i = Some (set_signal g' p)) by (rewrite Hp'; apply lookup_insert_eq).
  exists k', (set_signal g' p). split; [|by split_and!].
  rewrite (signals_run _ _ _ _ _ _ _ _ _ _ _ Hk Hr Hth Hsig), Hmb, (proj2 (Z.eqb_neq _ _) Hid). exact Hret.
Qed.
End Requests.

(** ** A concrete machine

    Process 0 with the threads 0 and 1 and one mutex, which thread 0 holds; thread 1 runs. *)
Definition demo_context (id a0 : Z) : LocalContext :=
  mkCtx 0 (<[16%nat := id]> (<[9%nat := a0]> (replicate 31 0))) 4096 false true.
Definition demo_process (g : SignalImpl) : Process unit unit :=
  mkProcess 0 () [] g [] [Some (mkCell (mkMutex true []) false)] [].
Definition demo_thread (t id a0 : Z) : Thread := mkThread t (mkForeign (demo_context id a0) 0).

Abbreviation demo_sys := (tsys (MT := ThreadManager Thread) (MP := ProcManager (Process unit unit))) (only parsing).
Abbreviation demo_op := (top (T := Thread) (P := Process unit unit)) (only parsing).
Fixpoint demo_run (ops : list demo_op) (s : demo_sys) : demo_sys :=
  match ops with
  | [] => s
  | op :: ops' => match trun op s with Done s' => demo_run ops' s' | _ => s end
  end.
Definition demo_boot (g : SignalImpl) : demo_sys :=
  match tboot (T := Thread) (P := Process unit unit) ThreadManager_new ProcManager_new (demo_process g)
    (demo_thread 0 MUTEX_UNLOCK 0) with
  | Done s => s | _ => mkTsys PThreadManager_new 0 0 end.
Definition demo_ops (call : Z) : list demo_op := [TNext; TCreate (demo_thread 1 call 0); TSuspend; TNext].
Definition demo_kernel (g : SignalImpl) (call : Z) : kernel unit unit unit :=
  mkKernel (tm (demo_run (demo_ops call) (demo_boot g))) (IntrMaskingInfo_new true) ().

Lemma demo_reach g call : treach (demo_boot g) (demo_run (demo_ops call) (demo_boot g)).
Proof.
  eapply (TRstep _ (demo_run [TNext; TCreate (demo_thread 1 call 0); TSuspend] (demo_boot g)) TNext);
    [|by vm_compute|reflexivity].
  eapply (TRstep _ (demo_run [TNext; TCreate (demo_thread 1 call 0)] (demo_boot g)) TSuspend);
    [|vm_compute; eauto|reflexivity].
  eapply (TRstep _ (demo_run [TNext] (demo_boot g)) (TCreate (demo_thread 1 call 0)));
    [|vm_compute; split; eauto|reflexivity].
  eapply (TRstep _ (demo_boot g) TNext); [constructor|by vm_compute|reflexivity].
Qed.

Lemma demo_inv g call : sync_inv (demo_kernel g call).
Proof.
  split.
  - destruct (tboot_ok (T := Thread) (P := Process unit unit) ThreadManager_new ProcManager_new (demo_process g)
      (demo_thread 0 MUTEX_UNLOCK 0)) as (s & Hb & Hok); [done|].
    assert (s = demo_boot g) as -> by (unfold demo_boot; by rewrite Hb).
    apply (treach_ok _ _ Hok (demo_reach g call)).
  - done.
  - change (threads_of (demo_kernel g call)) with
      (<[1 := demo_thread 1 call 0]> {[0 := demo_thread 0 MUTEX_UNLOCK 0]} : gmap Z Thread).
    intros t th [[<- <-]|[_ [<- <-]%lookup_singleton_Some]]%lookup_insert_Some; done.
  - change (procs (demo_kernel g call)) with ({[0 := demo_process g]} : gmap Z (Process unit unit)).
    intros i p [<- <-]%lookup_singleton_Some. split_and!; intros [|j] c Hc; simpl in Hc; by simplify_eq.
  - change (procs (demo_kernel g call)) with ({[0 := demo_process g]} : gmap Z (Process unit unit)).
    intros i p [<- <-]%lookup_singleton_Some. apply NoDup_nil_2.
  - change (procs (demo_kernel g call)) with ({[0 := demo_process g]} : gmap Z (Process unit unit)).
    intros i p t [<- <-]%lookup_singleton_Some. split; [by intros []%not_elem_of_nil|].
    intros (Ht & [[Hb _]|[]%not_elem_of_nil]). exfalso. revert Hb.
    rewrite (blocked_iff _ t (mkThreadManager (threads_of (demo_kernel g call)) [0])) by reflexivity.
    change (tid2pid (processor (demo_kernel g call))) with (<[1 := 0]> {[0 := 0]} : gmap Z Z) in *.
    change (pt_current (processor (demo_kernel g call))) with (Some 1). simpl.
    apply lookup_insert_Some in Ht as [[<- _]|[_ [<- _]%lookup_singleton_Some]]; [naive_solver|].
    intros (_ & Hn & _). apply Hn. set_solver.
Qed.

Definition demo_registry : Registry (kernel unit unit unit) :=
  mkRegistry None None None (Some SyscallContext_scheduling) None None None (Some SyscallContext_sync) None.

Lemma sync_call_keeps_queues_witness : ∃ v k',
  user_env_call demo_registry 1 (demo_kernel SignalImpl_new MUTEX_LOCK) = Done ((), k') ∧
  returned k' 1 (may_block MUTEX_LOCK && (v =? -1)) (as_usize v) 4100.
Proof.
  apply (sync_call_keeps_queues demo_registry (MutexLock 0) (demo_kernel SignalImpl_new MUTEX_LOCK) 1 0
    (demo_process SignalImpl_new) (demo_thread 1 MUTEX_LOCK 0) NoSignal
    (LocalContext_move_next (demo_context MUTEX_LOCK 0)) SignalImpl_new).
  - apply demo_inv.
  - split; [reflexivity|split; reflexivity].
  - reflexivity.
  - split; [reflexivity|]. split; [reflexivity|]. exists 0, 0. split; [reflexivity|split; reflexivity].
  - reflexivity.
  - exists (mkCell (mkMutex true []) false). reflexivity.
  - reflexivity.
  - discriminate.
Defined.

Lemma sync_call_served_witness :
  (∃ v k', run_request (MutexLock 3) (demo_kernel SignalImpl_new MUTEX_LOCK) = Done (v, k')) ↔
  request_ready (MutexLock 3) (demo_process SignalImpl_new).
Proof.
  apply (sync_call_served (MutexLock 3) _ 1 0); [apply demo_inv|]. split; [reflexivity|split; reflexivity].
Defined.

(** A pending SIGKILL. *)
Definition demo_killed : SignalImpl := mkSignal (2 ^ 9) 0 None (replicate 32 None).

Lemma killed_thread_stays_queued_witness : ∃ k' p',
  user_env_call demo_registry 1 (demo_kernel demo_killed MUTEX_LOCK) = Done ((), k') ∧
  tid2pid (processor k') !! 1 = None ∧ procs k' !! 0 = Some p' ∧ 1 ∈ waiters p'.
Proof.
  apply (killed_thread_stays_queued demo_registry 0 (mkCell (mkMutex true []) false) (demo_kernel demo_killed MUTEX_LOCK)
    1 0 0 (demo_process demo_killed) (demo_thread 1 MUTEX_LOCK 0) (-9)
    (LocalContext_move_next (demo_context MUTEX_LOCK 0)) SignalImpl_new).
  - apply demo_inv.
  - split; [reflexivity|split; reflexivity].
  - reflexivity.
  - split; [reflexivity|]. split; [reflexivity|]. exists 0, 0. split; [reflexivity|split; reflexivity].
  - reflexivity.
  - reflexivity.
  - reflexivity.
  - reflexivity.
  - reflexivity.
  - lia.
Defined.

Lemma handler_argument_overwritten_witness : ∃ k' p',
  after_syscall 1 SCHED_YIELD (RDone 0) (demo_kernel demo_signals SCHED_YIELD) = Done ((), k') ∧
  returned k' 1 false 0 4096 ∧ procs k' !! 0 = Some p' ∧
  handling (signal p') = Some (UserSignal (demo_context SCHED_YIELD 0)).
Proof.
  apply (handler_argument_overwritten (demo_kernel demo_signals SCHED_YIELD) 1 0 (demo_process demo_signals)
    (demo_thread 1 SCHED_YIELD 0) SCHED_YIELD 0 SIGUSR1 (mkAction 4096 0)).
  - apply demo_inv.
  - split; [reflexivity|split; reflexivity].
  - reflexivity.
  - reflexivity.
  - by vm_compute.
  - reflexivity.
  - by apply next_single.
  - discriminate.
  - discriminate.
  - reflexivity.
  - discriminate.
  - reflexivity.
Defined.

(** The machine before its first turn, with both threads ready. *)
Definition demo_ready (g : SignalImpl) : kernel unit unit unit :=
  mkKernel (tm (demo_run [TNext; TCreate (demo_thread 1 MUTEX_LOCK 0); TSuspend] (demo_boot g))) (IntrMaskingInfo_new true) ().
Definition traps (f : ForeignContext) (w : unit) : ForeignContext * unit * Trap := (f, w, UserEnvCall).

(** The consequence on a run of the scheduling loop: thread 1 asks for the mutex thread 0 holds and is killed by a
    pending SIGKILL; thread 0 unlocks, which makes the dead thread 1 ready; on the third turn the loop finds no task
    for the id it fetched and ends, though thread 0 is alive and ready. *)
Theorem killed_waiter_ends_loop : ∃ k1 k2 k3,
  schedule demo_registry traps (demo_ready demo_killed) = Done (true, k1) ∧
  schedule demo_registry traps k1 = Done (true, k2) ∧
  schedule demo_registry traps k2 = Done (false, k3) ∧
  (fifo_queue <$> pt_manager (processor k3)) = Some [0] ∧ tid2pid (processor k3) !! 0 = Some 0.
Proof. do 3 eexists. repeat (split; [vm_compute; reflexivity|]). vm_compute. reflexivity. Qed.
