(* ===== verification/ThreadKernel.v ===== *)
(** * The kernel with threads: memory, files and processes

    Models the rest of [tg-rcore-tutorial-ch8/src/{main,process}.rs] over SyncSyscalls.v: processes with their address spaces
    and descriptors, the calls that work on them (now on the process of the running thread), threads with stacks of their
    own, the start of the kernel and its loop.  Descriptors, the file system and the kernel's address space are those of
    ch7. *)

From Stdlib Require Import Ascii String.
From stdpp Require Import strings.
From S2P Require Import Prelude Bytes Pipe Memory Linker KernelContext TaskRel ProcManage Schedulers ThreadManage Sync Signal Syscall PageTable AddressSpace SpaceTree PageManager BatchKernel TaskKernel VmKernel BlockStore Efs Vfs File ForkKernel Descriptors FileKernel IpcKernel SyncSyscalls.

Module Threads.

(** ** The state

    The counters of [ProcId] and [ThreadId], [KERNEL_SPACE], the file system and the pipes, and the machine. *)
Section State.
Context `{Heap} {S : Type}.
Record rest := mkRest {
  pid_counter : Z;
  tid_counter : Z;
  kernel_as : AddressSpace Sv39Manager;
  more : Ipc.ipc S;
  mach : machine;
}.
End State.
Arguments rest {_} S.

Section Kernel.
Context `{PTC : PageTableCrate}.
Context {S : Type} `{!BlockStore S}.
Abbreviation Process := (Process (AddressSpace Sv39Manager) Ipc.Fd).
Abbreviation kernel := (kernel (AddressSpace Sv39Manager) Ipc.Fd (rest S)).
Implicit Types (k : kernel) (p : Process).

Definition set_world (w : rest S) k : kernel := mkKernel (processor k) (masking k) w.
Definition with_mach (s : machine) (w : rest S) : rest S := mkRest (pid_counter w) (tid_counter w) (kernel_as w) (more w) s.
Definition set_mach (s : machine) k : kernel := set_world (with_mach s (world k)) k.
Definition set_more (y : Ipc.ipc S) k : kernel :=
  set_world (mkRest (pid_counter (world k)) (tid_counter (world k)) (kernel_as (world k)) y (mach (world k))) k.
Definition memory_of k : memory := mc_mem (mach (world k)).

Definition on_machine {A} (f : st machine A) : st kernel A := fun k =>
  '(a, s) ← f (mach (world k));
  Done (a, set_mach s k).
Definition on_more {A} (f : st (Ipc.ipc S) A) : st kernel A := fun k =>
  '(a, y) ← f (more (world k));
  Done (a, set_more y k).
Definition on_files {A} (f : st (Desc.files S) A) : st kernel A := on_more (Ipc.on_file_system f).

Definition set_space (sp : AddressSpace Sv39Manager) p : Process :=
  mkProcess (pid p) sp (fd_table p) (signal p) (semaphore_list p) (mutex_list p) (condvar_list p).
Definition set_fd_table (l : list (option Ipc.Fd)) p : Process :=
  mkProcess (pid p) (address_space p) l (signal p) (semaphore_list p) (mutex_list p) (condvar_list p).
Definition put_fd (fd : Z) (file : option Ipc.Fd) p : Process := set_fd_table (<[Z.to_nat fd := file]> (fd_table p)) p.
Definition push_fd (file : Ipc.Fd) p : Process := set_fd_table (fd_table p ++ [Some file]) p.

(** [current.address_space.translate(VAddr::new(addr), flags)]. *)
Definition user_ptr (addr flags : Z) : st kernel (option Z) :=
  current ← current_proc;
  k ← get_st;
  lift (translate addr flags (address_space current) (memory_of k)).
Definition print (bs : list Z) : st kernel unit :=
  on_machine (fun s => Done ((), mkMachine (print_bytes bs (mc_world s)) (mc_heap s))).
Definition user_str (fuel : nat) (ptr : Z) : st kernel (list Z) :=
  k ← get_st;
  bytes ← lift (Fork.c_str fuel (memory_of k) ptr);
  mret (concat (Desc.char_bytes <$> bytes)).

(** How many [Arc]s to the write end of pipe [n] the processes have. *)
Definition writers (n : Z) k : Z :=
  foldr (fun e acc => Ipc.write_ends n (fd_table e.2) + acc) 0
    (map_to_list (from_option proc_table ∅ (proc_manager (processor k)))).

(** ** [impl IO for SyscallContext] *)
Definition write (fd buf count : Z) : st kernel Z :=
  current ← current_proc;
  ptr ← user_ptr buf (build_flags "RV");
  match ptr with
  | Some ptr =>
      k ← get_st;
      let slice := mem_read (memory_of k) ptr (Z.to_nat count) in
      if (fd =? STDOUT) || (fd =? STDDEBUG) then
        print slice;;
        mret (as_isize count)
      else
        file ← lift (unwrap (fd_table current !! Z.to_nat fd));
        match file with
        | Some file =>
            if Ipc.Fd_writable file then
              '(r, file) ← on_more (Ipc.Fd_write file slice);
              update_current_proc (put_fd fd (Some file));;
              mret r
            else mret (-1)
        | None => mret (-1)
        end
  | None => mret (-1)
  end.

Definition read (console_getchar : st Memory.world Z) (fd buf count : Z) : st kernel Z :=
  current ← current_proc;
  ptr ← user_ptr buf (build_flags "W_V");
  match ptr with
  | Some ptr =>
      if fd =? STDIN then
        on_machine (Fork.read_chars console_getchar (Z.to_nat count) ptr);;
        mret (as_isize count)
      else
        file ← lift (unwrap (fd_table current !! Z.to_nat fd));
        match file with
        | Some file =>
            if Ipc.Fd_readable file then
              k ← get_st;
              '(r, file, slice) ← on_more (Ipc.Fd_read (fun n => writers n k) file (mem_read (memory_of k) ptr (Z.to_nat count)));
              on_machine (mc_on_mem (mem_write ptr slice));;
              update_current_proc (put_fd fd (Some file));;
              mret r
            else mret (-1)
        | None => mret (-1)
        end
  | None => mret (-1)
  end.

Definition open (fuel : nat) (path flags : Z) : st kernel Z :=
  current ← current_proc;
  ptr ← user_ptr path (build_flags "RV");
  match ptr with
  | Some ptr =>
      string ← user_str fuel ptr;
      _ ← on_files Desc.FS;
      flags ← lift (unwrap (OpenFlags_from_bits (as_u32 flags)));
      file_handle ← on_files (Desc.FS_open string flags);
      match file_handle with
      | Some file_handle =>
          let new_fd := Z.of_nat (length (fd_table current)) in
          update_current_proc (push_fd (Ipc.Fd_File file_handle));;
          mret (as_isize new_fd)
      | None => mret (-1)
      end
  | None => mret (-1)
  end.

Definition close (fd : Z) : st kernel Z :=
  current ← current_proc;
  match mjoin (fd_table current !! Z.to_nat fd) with
  | None => mret (-1)
  | Some _ =>
      update_current_proc (put_fd fd None);;
      mret 0
  end.

Definition pipe (pipe : Z) : st kernel Z :=
  current ← current_proc;
  let read_fd := Z.of_nat (length (fd_table current)) in
  let write_fd := read_fd + 1 in
  ptr ← user_ptr pipe (build_flags "W_V");
  match ptr with
  | Some ptr =>
      on_machine (mc_on_mem (mem_write ptr (le_encode 8 read_fd)));;
      second ← lift (usize_add pipe 8);
      ptr ← user_ptr second (build_flags "W_V");
      match ptr with
      | Some ptr =>
          on_machine (mc_on_mem (mem_write ptr (le_encode 8 write_fd)));;
          k ← get_st;
          let n := Ipc.next_pipe (more (world k)) in
          on_more (fun y => Done ((), Ipc.mkIpc (Ipc.file_system y) (<[n := make_pipe]> (Ipc.pipes y)) (n + 1)));;
          update_current_proc (push_fd (Ipc.Fd_PipeRead n));;
          update_current_proc (push_fd (Ipc.Fd_PipeWrite n));;
          mret 0
      | None => mret (-1)
      end
  | None => mret (-1)
  end.

(** ** Making processes and threads *)
Definition new_pid : st kernel ProcId := fun k =>
  let w := world k in
  let '(id, counter) := ProcId_new (pid_counter w) in
  Done (id, set_world (mkRest counter (tid_counter w) (kernel_as w) (more w) (mach w)) k).
Definition new_thread (satp : Z) (context : LocalContext) : st kernel Thread := fun k =>
  let w := world k in
  let '(thread, counter) := Thread_new satp context (tid_counter w) in
  Done (thread, set_world (mkRest (pid_counter w) counter (kernel_as w) (more w) (mach w)) k).
Definition map_portal (space : AddressSpace Sv39Manager) : st kernel unit :=
  k ← get_st;
  on_machine (Vm.share_portal (kernel_as (world k)) space).
Definition satp_of (space : AddressSpace Sv39Manager) : Z := Z.lor (Z.shiftl 8 60) (AddressSpace_root_ppn space).

(** [processor.get_task(processor.get_thread(pid).unwrap()[0]).unwrap()]. *)
Definition main_thread (id : ProcId) : st kernel Thread := fun k =>
  pthreads ← unwrap (PThreadManager_get_thread id (processor k));
  first ← unwrap (pthreads !! 0%nat);
  thread ← PThreadManager_get_task first (processor k);
  thread ← unwrap thread;
  Done (thread, k).

Section Making.
Variable fuel : nat.

Definition Process_from_elf (elf : Vm.ElfFile) : st kernel (option (Process * Thread)) :=
  process ← on_machine (Vm.Process_new fuel elf);
  match process with
  | None => mret None
  | Some q =>
      map_portal (Vm.address_space q);;
      thread ← new_thread (f_satp (Vm.context q)) (f_context (Vm.context q));
      pid ← new_pid;
      mret (Some (mkProcess pid (Vm.address_space q) Ipc.standard_fds SignalImpl_new [] [] [], thread))
  end.

(** [exec] of the process [p] that runs. *)
Definition Process_exec (elf : Vm.ElfFile) p : st kernel unit :=
  made ← Process_from_elf elf;
  '(proc, thread) ← lift (unwrap made);
  update_current_proc (set_space (address_space proc));;
  main ← main_thread (pid p);
  update_thread (tid main) (fun th => mkThread (tid th) (context thread)).

Definition Process_fork p : st kernel (option (Process * Thread)) :=
  new ← new_pid;
  space ← on_machine AddressSpace_new;
  space ← on_machine (cloneself fuel (address_space p) space);
  map_portal space;;
  main ← main_thread (pid p);
  thread ← new_thread (satp_of space) (f_context (context main));
  mret (Some (mkProcess new space (Files.clone_table (fd_table p)) (SignalImpl_from_fork (signal p)) [] [] [], thread)).
End Making.

(** ** The calls of processes, time and signals *)
Section Calls.
Variable fuel : nat.
(** [parse] is [ElfFile::new], [console_getchar] the call of the SBI. *)
Variable parse : list Z → option Vm.ElfFile.
Variable console_getchar : st Memory.world Z.

Definition fork : st kernel Z :=
  current ← current_proc;
  let parent_pid := pid current in
  made ← Process_fork fuel current;
  '(proc, thread) ← lift (unwrap made);
  ctx ← lift (LocalContext_set_a 0 0 (f_context (context thread)));
  on_processor (PThreadManager_add_proc (pid proc) proc parent_pid);;
  on_processor (PThreadManager_add (tid thread) (set_context ctx thread) (pid proc));;
  mret (as_isize (pid proc)).

(** The file named by [count] bytes, if the caller may read the first and there is one. *)
Definition named_file (path count : Z) : st kernel (option FileHandle) :=
  ptr ← user_ptr path (build_flags "RV");
  match ptr with
  | Some ptr =>
      k ← get_st;
      on_files (Desc.FS_open (mem_read (memory_of k) ptr (Z.to_nat count)) RDONLY)
  | None => mret None
  end.
Definition file_program (fd : FileHandle) : st kernel Vm.ElfFile :=
  data ← on_files (Desc.on_blocks (read_all fuel fd));
  lift (unwrap (parse data)).

Definition exec (path count : Z) : st kernel Z :=
  fd ← named_file path count;
  match fd with
  | None =>
      names ← on_files Desc.FS_readdir;
      names ← lift (unwrap names);
      print (concat ((fun name => name ++ [10]) <$> names) ++ [10]);;
      mret (-1)
  | Some fd =>
      current ← current_proc;
      elf ← file_program fd;
      Process_exec fuel elf current;;
      mret 0
  end.

Definition wait (pid exit_code_ptr : Z) : st kernel Z :=
  current ← current_proc;
  r ← ask_processor (PThreadManager_wait (as_usize pid));
  match r with
  | Some (dead_pid, exit_code) =>
      k ← get_st;
      ptr ← lift (translate exit_code_ptr (build_flags "W_V") (address_space current) (memory_of k));
      match ptr with
      | Some ptr => on_machine (mc_on_mem (mem_write ptr (le_encode 4 (as_u32 exit_code))))
      | None => mret ()
      end;;
      mret (as_isize dead_pid)
  | None => mret (-1)
  end.

Definition clock_gettime (clock_id tp : Z) : st kernel Z :=
  if clock_id =? Tasks.CLOCK_MONOTONIC then
    ptr ← user_ptr tp (build_flags "W_V");
    match ptr with
    | Some ptr =>
        k ← get_st;
        ticks ← lift (usize_mul (w_time (mc_world (mach (world k)))) 10000);
        let time := ticks / 125 in
        on_machine (mc_on_mem (mem_write ptr (Tasks.timespec_bytes (mkTimeSpec (time / 1000000000) (time mod 1000000000)))));;
        mret 0
    | None => mret (-1)
    end
  else mret (-1).

(** The two halves of [sigaction]: whether they went well. *)
Definition give_old_action (signal_no : SignalNo) (old_action : Z) : st kernel bool :=
  if old_action =? 0 then mret true
  else
    current ← current_proc;
    ptr ← user_ptr old_action (build_flags "W_V");
    match ptr with
    | Some ptr =>
        signal_action ← lift (SignalImpl_get_action_ref signal_no (signal current));
        match signal_action with
        | Some a => on_machine (mc_on_mem (mem_write ptr (Ipc.SignalAction_bytes a)));; mret true
        | None => mret false
        end
    | None => mret false
    end.
Definition take_action (signal_no : SignalNo) (action : Z) : st kernel bool :=
  if action =? 0 then mret true
  else
    current ← current_proc;
    ptr ← user_ptr action (build_flags "RV");
    match ptr with
    | Some ptr =>
        k ← get_st;
        '(ok, g) ← lift (SignalImpl_set_action signal_no (Ipc.SignalAction_decode (mem_read (memory_of k) ptr 16)) (signal current));
        update_current_proc (set_signal g);;
        mret ok
    | None => mret false
    end.
Definition sigaction (signum action old_action : Z) : st kernel Z :=
  if MAX_SIG <? signum then mret (-1)
  else
    current_proc;;
    match SignalNo_try_from signum with
    | Some signal_no =>
        if bool_decide (signal_no = ERR) then mret (-1)
        else
          ok ← give_old_action signal_no old_action;
          if ok : bool then
            ok ← take_action signal_no action;
            mret (if ok : bool then 0 else -1)
          else mret (-1)
    | None => mret (-1)
    end.

(** ** Threads *)

(** The loop of [thread_create]: from page [vpn] down, the first page in a gibibyte without a table. *)
Fixpoint find_stack (fuel : nat) (space : AddressSpace Sv39Manager) (m : memory) (vpn : Z) : outcome Z :=
  match fuel with
  | O => Hang
  | Datatypes.S fuel' =>
      if negb (pte_is_valid (read_word m (entry_addr (AddressSpace_root space) vpn 2))) then Done vpn
      else
        vpn ← usize_sub vpn 3;
        find_stack fuel' space m vpn
  end.
(** The first page it looks at.  It takes three pages at a time, so it is done after a third of them. *)
Definition TOP_STACK : Z := Z.shiftl 1 26 - 2.
Definition stack_page : AddressSpace Sv39Manager → memory → outcome Z := fun space m =>
  find_stack (Datatypes.S (Z.to_nat (TOP_STACK / 3))) space m TOP_STACK.

Definition thread_create (entry arg : Z) : st kernel Z :=
  current ← current_proc;
  k ← get_st;
  vpn ← lift (stack_page (address_space current) (memory_of k));
  stack ← on_machine (alloc_zeroed (Z.shiftl 2 12) (Z.shiftl 1 12));
  space ← on_machine (map_extern fuel (vpn, vpn + 2) (Z.shiftr stack 12) (build_flags "U_WRV") (address_space current));
  update_current_proc (set_space space);;
  ctx ← lift (LocalContext_set_sp (vpn_base (vpn + 2)) (LocalContext_user entry));
  ctx ← lift (LocalContext_set_a 0 arg ctx);
  thread ← new_thread (satp_of space) ctx;
  on_processor (PThreadManager_add (tid thread) thread (pid current));;
  mret (as_isize (tid thread)).

(** ** The table of system calls *)
Definition SyscallContext_io : IOSys kernel :=
  mkIOSys _ (read console_getchar) write (open fuel) close (fun _ _ _ _ _ => unimplemented) pipe (fun _ _ _ => unimplemented) (fun _ _ => unimplemented).
Definition SyscallContext_process : ProcessSys kernel :=
  mkProcessSys _ exit fork exec wait getpid (fun _ _ => unimplemented) (fun _ => unimplemented).
Definition SyscallContext_clock : ClockSys kernel := mkClockSys _ clock_gettime.
Definition SyscallContext_signal : SignalSys kernel := mkSignalSys _ kill sigaction sigprocmask sigreturn.
Definition SyscallContext_thread : ThreadSys kernel := mkThreadSys _ thread_create waittid gettid.
Definition registry : Registry kernel :=
  mkRegistry (Some SyscallContext_process) (Some SyscallContext_io) None
    (Some SyscallContext_scheduling) (Some SyscallContext_clock) (Some SyscallContext_signal)
    (Some SyscallContext_thread) (Some SyscallContext_sync) None.

(** ** The start of the kernel, and its loop *)
Definition load_initproc : st kernel unit :=
  fd ← on_files (Desc.FS_open Desc.initproc_name RDONLY);
  fd ← lift (unwrap fd);
  elf ← file_program fd;
  made ← Process_from_elf fuel elf;
  match made with
  | Some (process, thread) =>
      on_processor (fun pm => Done (PThreadManager_set_proc_manager ProcManager_new pm));;
      on_processor (fun pm => Done (PThreadManager_set_manager ThreadManager_new pm));;
      on_processor (PThreadManager_add_proc (pid process) process usize_max);;
      on_processor (PThreadManager_add (tid thread) thread (pid process))
  | None => mret ()
  end.

(** The loop, for at most [rounds] turns. *)
Fixpoint main_loop (run : ForeignContext → machine → ForeignContext * machine * Trap) (rounds : nat) : st kernel unit :=
  match rounds with
  | O => lift Hang
  | Datatypes.S rounds' =>
      some ← schedule registry (fun c w => let '(c, s, cause) := run c (mach w) in (c, with_mach s w, cause));
      if some : bool then main_loop run rounds' else mret ()
  end.

(** From the cleared sections on, with the device and its file system as they are then. *)
Definition rust_main (rounds : nat) (run : ForeignContext → machine → ForeignContext * machine * Trap)
    (layout : KernelLayout) (text_len : Z) : st kernel unit :=
  on_machine (fun s =>
    '(_, w) ← on_mem (KernelLayout_zero_bss (Z.to_nat (kl_ebss layout - kl_sbss layout)) layout) (mc_world s);
    Done ((), mkMachine w (mc_heap s)));;
  let portal_size := MultislotPortal_calculate_size text_len 1 in
  portal_ptr ← on_machine (Global_alloc portal_size (Z.shiftl 1 12));
  _ ← lift (rassert (portal_size <? Z.shiftl 1 12));
  ks ← on_machine (Desc.kernel_space fuel layout Fork.MEMORY portal_ptr);
  k ← get_st;
  put_world (mkRest (pid_counter (world k)) (tid_counter (world k)) ks (more (world k)) (mach (world k)));;
  load_initproc;;
  main_loop run rounds.
End Calls.
End Kernel.
End Threads.
