(* ===== verification/ThreadSpaces.v ===== *)
(** * Stacks of threads

    [thread_create] of ch8 looks for a stack from the top of the address space down.  Here: which pages it finds, that the
    search ends, and what putting two fresh pages there does to the space of the process and to the others. *)

From Stdlib Require Import Ascii String.
From stdpp Require Import strings.
From S2P Require Import Prelude Bytes Memory KernelContext Syscall PageTable AddressSpace SpaceTree SpaceMap SpaceInvariant PageManager BatchKernel TaskKernel VmKernel VmTheorems VmIsolation VmLoad SpaceFamily ThreadKernel.

Module ThreadSpaces.
Import Family SpaceRoot VmInv VmLoad Threads.
Section Stacks.
Context `{PTC : PageTableCrate, HL : !HeapLaws, PTL : !PageTableLaws}.
Implicit Types (s : machine) (m : memory) (sp : AddressSpace Sv39Manager) (T : gmap (list Z) Z).

(** ** The search *)

(** The pages below one entry of the root. *)
Definition gib : Z := 262144.
(** The search visits one page in three; this is the first it visits in gibibyte [i]. *)
Definition stack_at (i : Z) : Z := (i + 1) * gib - 1 - ((i + 1) * gib - 3) mod 3.

(** Gibibyte [i] has a table. *)
Definition taken m sp (i : Z) : bool := pte_is_valid (entry m (space_root sp) i).

Lemma stack_at_range i : 0 ≤ i → i * gib < stack_at i < (i + 1) * gib ∧ stack_at i mod 3 = 2.
Proof.
  unfold stack_at, gib. intros Hi. pose proof (Z.mod_pos_bound ((i + 1) * 262144 - 3) 3 ltac:(done)).
  pose proof (Z.div_mod ((i + 1) * 262144 - 3) 3 ltac:(done)) as E. split; [lia|].
  symmetry. apply (Z.mod_unique _ _ (((i + 1) * 262144 - 3) / 3)); lia.
Qed.

Lemma stack_at_top i w : w mod 3 = 2 → w / gib ≤ i → w ≤ stack_at i.
Proof.
  unfold stack_at, gib. intros Hw Hi. pose proof (Z.mod_pos_bound ((i + 1) * 262144 - 3) 3 ltac:(done)).
  pose proof (Z.div_mod ((i + 1) * 262144 - 3) 3 ltac:(done)). pose proof (Z.div_mod w 3 ltac:(done)).
  pose proof (Z.div_mod w 262144 ltac:(done)). pose proof (Z.mod_pos_bound w 262144 ltac:(done)). lia.
Qed.

Lemma stack_at_gib i : 0 ≤ i → stack_at i / gib = i.
Proof.
  intros Hi. destruct (stack_at_range i Hi) as [[H1 H2] _]. symmetry. unfold gib in *.
  apply (Z.div_unique _ _ _ (stack_at i - i * 262144)); lia.
Qed.

Lemma find_step fuel sp m w : aligned sp → 0 ≤ w < 2 ^ 26 → find_stack (Datatypes.S fuel) sp m w =
  if taken m sp (w / gib) then (w ← usize_sub w 3; find_stack fuel sp m w) else Done w.
Proof.
  intros Ha Hw. destruct (user_page w Hw) as [Hv _]. cbn [find_stack]. unfold aligned in Ha. rewrite Ha, read_entry by (done || lia).
  rewrite index_2 by done. unfold taken, gib. by destruct (pte_is_valid _).
Qed.

Lemma find_stack_run sp m : aligned sp → ∀ fuel w, 0 ≤ w < 2 ^ 26 → w mod 3 = 2 → w / 3 < Z.of_nat fuel →
  (find_stack fuel sp m w = Panic ∧ ∀ v, 0 ≤ v ≤ w → v mod 3 = 2 → taken m sp (v / gib) = true) ∨
  ∃ v, find_stack fuel sp m w = Done v ∧ 0 ≤ v ≤ w ∧ v mod 3 = 2 ∧ taken m sp (v / gib) = false ∧
    ∀ u, v < u ≤ w → u mod 3 = 2 → taken m sp (u / gib) = true.
Proof.
  intros Ha fuel. induction fuel as [|fuel IH]; intros w Hw Hm Hf.
  { pose proof (Z.div_pos w 3). lia. }
  rewrite find_step by done. destruct (taken m sp (w / gib)) eqn:Ht; [|right; exists w; split_and!; (done || lia)].
  pose proof (Z.div_mod w 3 ltac:(done)) as Hd. unfold usize_sub, checked.
  destruct (decide (w = 2)) as [->|Hne].
  { left. split; [done|]. intros v Hv Hv3. assert (v = 2) as -> by (pose proof (Z.div_mod v 3 ltac:(done)); pose proof (Z.div_pos v 3); lia). done. }
  assert (3 ≤ w) by (destruct (decide (w = 1)) as [->|]; [done|]; destruct (decide (w = 0)) as [->|]; [done|lia]).
  rewrite (proj2 (Z.leb_le 0 (w - 3))), (proj2 (Z.leb_le (w - 3) usize_max)) by (unfold usize_max; lia). simpl.
  assert ((w - 3) mod 3 = 2) as Hm' by (rewrite <-Hm, <-(Z.mod_add (w - 3) 1 3) by done; f_equal; lia).
  assert ((w - 3) / 3 = w / 3 - 1) as Hd' by (symmetry; apply (Z.div_unique _ _ _ 2); lia).
  assert (∀ u, w - 3 < u ≤ w → u mod 3 = 2 → taken m sp (u / gib) = true) as Htop.
  { intros u Hu Hu3. assert (u = w) as -> by (pose proof (Z.div_mod u 3 ltac:(done)); lia). done. }
  destruct (IH (w - 3)) as [[E Hall]|(v & E & Hv & Hv3 & Hfree & Hall)]; [lia|done|lia|left|right].
  - split; [done|]. intros v Hv Hv3. destruct (decide (v ≤ w - 3)); [apply Hall|apply Htop]; (done || lia).
  - exists v. split_and!; [done|lia|lia|done|done|]. intros u Hu Hu3. destruct (decide (u ≤ w - 3)); [apply Hall|apply Htop]; (done || lia).
Qed.

(** The search always ends: in the highest gibibyte without a table, or in an underflow when there is none. *)
Lemma stack_page_run sp m : aligned sp →
  (stack_page sp m = Panic ∧ ∀ i, 0 ≤ i ≤ 255 → taken m sp i = true) ∨
  ∃ i, stack_page sp m = Done (stack_at i) ∧ 0 ≤ i ≤ 255 ∧ taken m sp i = false ∧ ∀ j, i < j ≤ 255 → taken m sp j = true.
Proof.
  intros Ha. change TOP_STACK with (2 ^ 26 - 2) in *.
  destruct (find_stack_run sp m Ha (Datatypes.S (Z.to_nat (TOP_STACK / 3))) TOP_STACK) as [[E Hall]|(v & E & Hv & Hv3 & Hfree & Hall)];
    [done|done|rewrite Nat2Z.inj_succ, Z2Nat.id by done; lia|left|right].
  - split; [exact E|]. intros i Hi. destruct (stack_at_range i) as [[H1 H2] H3]; [lia|]. rewrite <-(stack_at_gib i) by lia.
    apply Hall; [|done]. change TOP_STACK with (255 * gib + 262142). split; [unfold gib in *; lia|].
    destruct (decide (i = 255)) as [->|]; [done|unfold gib in *; lia].
  - pose proof (Z.div_mod v gib ltac:(done)) as Hdv. pose proof (Z.mod_pos_bound v gib ltac:(done)) as Hmv.
    assert (0 ≤ v / gib ≤ 255) as Hg.
    { change TOP_STACK with 67108862 in Hv. unfold gib in *. lia. }
    assert (v = stack_at (v / gib)) as Ev.
    { destruct (decide (v = stack_at (v / gib))); [done|exfalso]. pose proof (stack_at_top (v / gib) v Hv3 ltac:(lia)).
      destruct (stack_at_range (v / gib)) as [[H1 H2] H3]; [lia|]. pose proof (stack_at_gib (v / gib) ltac:(lia)) as Eg.
      rewrite <-Eg, Hall in Hfree; [done| |done]. split; [lia|]. pose proof (stack_at_top 255 (stack_at (v / gib)) H3 ltac:(lia)) as Ht. exact Ht. }
    exists (v / gib). rewrite <-Ev. split_and!; [exact E|lia|lia|done|]. intros j Hj. destruct (stack_at_range j) as [[H1 H2] H3]; [lia|].
    rewrite <-(stack_at_gib j) by lia. apply Hall; [|done]. split; [unfold gib in *; lia|].
    pose proof (stack_at_top 255 (stack_at j) H3 ltac:(rewrite stack_at_gib; lia)) as Ht. exact Ht.
Qed.

(** ** Two pages for it *)

(** Two fresh pages with zeros are mapped at [range]. *)
Record stack_put s sp T (range : Z * Z) s' T' : Prop := {
  sp_inv : space_inv portal s' (mkSpace (areas sp ++ [range]) (page_manager sp)) T';
  sp_kept : kept T s T' s';
  sp_uses x : uses s' (mkSpace (areas sp ++ [range]) (page_manager sp)) T' x → uses s sp T x ∨ ¬ page_used (mc_heap s) x;
  sp_map w : is_vpn w → ¬ inside w range → mapping (mc_mem s') T' w = mapping (mc_mem s) T w;
  sp_flags w : inside w range → pte_flags <$> mapping (mc_mem s') T' w = Some (user_bits false true true);
  sp_zero x : 0 ≤ x < 2 * page_size → byte_at (mc_mem s') T' (range.1 * page_size + x) = Some 0;
}.

(** The end of [thread_create]'s work on the space. *)
Definition put_stack (fuel : nat) (v : Z) sp : st machine (AddressSpace Sv39Manager) :=
  stack ← alloc_zeroed (Z.shiftl 2 12) (Z.shiftl 1 12);
  map_extern fuel (v, v + 2) (Z.shiftr stack 12) (build_flags "U_WRV") sp.

Lemma stack_pages v w : 0 ≤ v → v + 2 ≤ 2 ^ 26 → inside w (v, v + 2) → ¬ portal (sv39_index w 2).
Proof. intros H1 H2 Hw. apply user_page. unfold inside in Hw. simpl in Hw. lia. Qed.

(** The two frames, and where they lie. *)
Lemma put_stack_frames fuel v sp s : put_stack fuel v sp s = Panic ∧ page_alloc 2 s = Panic ∨
  ∃ f s1, page_alloc 2 s = Done (f * page_size, s1) ∧ allocated f 2 s s1 ∧
    put_stack fuel v sp s = map_extern fuel (v, v + 2) f (user_bits false true true) sp s1.
Proof.
  destruct (page_alloc_run 2 s ltac:(lia)) as [E|(f & s1 & E & Hal)]; [left|right].
  - unfold put_stack, mbind, st_bind. by rewrite stack_alloc, E.
  - exists f, s1. split_and!; [done|done|]. unfold put_stack, mbind, st_bind. rewrite stack_alloc, E.
    rewrite Z.shiftr_div_pow2 by done. change (2 ^ 12) with page_size. by rewrite Z.div_mul, heap_flags.
Qed.

(** Where no area is, the pages are mapped unless the heap is exhausted. *)
Lemma put_stack_run fuel v s sp T : space_inv portal s sp T → 0 ≤ v → v + 2 ≤ 2 ^ 26 → have_mapped (v, v + 2) sp = false → (2 ≤ fuel)%nat →
  (put_stack fuel v sp s = Panic ∧ exhausted (M := Sv39Manager) 6 s) ∨
  ∃ s' T', put_stack fuel v sp s = Done (mkSpace (areas sp ++ [(v, v + 2)]) (page_manager sp), s') ∧ stack_put s sp T (v, v + 2) s' T'.
Proof.
  intros Hinv Hv1 Hv2 Hfree Hfuel. assert (range_ok (v, v + 2)) as Hr by (split_and!; simpl; lia).
  assert (∀ w, inside w (v, v + 2) → ¬ portal (sv39_index w 2)) as HF by (intros w; by apply stack_pages).
  destruct (put_stack_frames fuel v sp s) as [[E Ep]|(f & s1 & E & Hal & Eq)]; [left|].
  { split; [done|]. eapply (exhausted_now 6 2 (mkSv39 0) 0); [lia|by apply alloc_panics]. }
  rewrite Eq. assert (took (M := Sv39Manager) 2 s s1) as Htk1 by (eapply (took_one 2 2 (mkSv39 0) 0); [lia|by eapply alloc_gives|done]).
  destruct (al_range _ _ _ _ Hal) as [Hf1 Hf2]. pose proof (user_bits_ok false true true) as Hfl.
  assert ((v, v + 2).2 - (v, v + 2).1 = 2) as E2 by (simpl; lia).
  assert (f + ((v, v + 2).2 - (v, v + 2).1) ≤ 2 ^ 26) as Hf3 by (by rewrite E2). rewrite <-E2 in Hal, Htk1. clear Hf2.
  destruct (map_fresh portal fuel (v, v + 2) f (user_bits false true true) sp s s1 (mc_mem s1) T)
    as [[Hp He]|(s' & T' & Hrun & Had & _ & Hsame)];
    [apply Hinv|apply Hinv|done|done|done|done|done|lia|by eapply free_range|left|right]; rewrite set_mem_same in *.
  { split; [done|]. by rewrite E2 in He. }
  exists s', T'. split; [done|]. split; [by eapply added_inv|apply Had| | | |].
  - intros x. eapply added_uses; [exact Hinv|done|exact Hfl|done|done|apply Hal|done|exact Had].
  - intros w Hw Ho. rewrite (ad_map _ _ _ _ _ _ _ _ _ Had) by done. unfold add_run, inside in *. by rewrite decide_False by lia.
  - intros w Hw. rewrite (ad_map _ _ _ _ _ _ _ _ _ Had) by (by eapply range_ok_vpn). unfold add_run, inside in *. rewrite decide_True by lia.
    unfold fmap, option_fmap, option_map. rewrite build_pte_flags; [done|apply Hfl|lia].
  - intros x Hx. apply (byte_filled s' T' (v, v + 2) f (user_bits false true true) (fun _ => 0)); [|apply Hfl|done|done| |by rewrite E2].
    + intros w Hw. rewrite (ad_map _ _ _ _ _ _ _ _ _ Had) by (by eapply range_ok_vpn). unfold add_run, inside in *. by rewrite decide_True by lia.
    + rewrite E2 in *. intros y Hy. rewrite Hsame by (apply page_of; lia). rewrite (al_mem _ _ _ _ Hal). by rewrite decide_True by lia.
Qed.

(** Where one of the pages is mapped, nothing is. *)
Lemma put_stack_blocked fuel v s sp T : space_inv portal s sp T → 0 ≤ v → v + 2 ≤ 2 ^ 26 → have_mapped (v, v + 2) sp = true → (2 ≤ fuel)%nat →
  put_stack fuel v sp s = Panic.
Proof.
  intros Hinv Hv1 Hv2 Hm Hfuel. assert (range_ok (v, v + 2)) as Hr by (split_and!; simpl; lia).
  assert (∃ w, inside w (v, v + 2) ∧ in_areas w (areas sp)) as (w & Hw & ar & Har & Hin).
  { destruct (decide (Forall (disjoint_ranges (v, v + 2)) (areas sp))) as [Hd|Hn]; [apply have_mapped_spec in Hd; by rewrite Hd in Hm|].
    apply (not_Forall_Exists (disjoint_ranges (v, v + 2))), Exists_exists in Hn as (ar & Har & Hd). destruct (si_range _ _ _ _ Hinv ar Har) as [(_ & ? & _) _].
    unfold disjoint_ranges in Hd. simpl in Hd. exists (Z.max v ar.1).
    split; [unfold inside; simpl; lia|]. exists ar. split; [done|unfold inside; lia]. }
  destruct (put_stack_frames fuel v sp s) as [[E _]|(f & s1 & E & Hal & ->)]; [done|].
  destruct (al_range _ _ _ _ Hal) as [Hf1 Hf2]. destruct (fresh_frames portal (space_root sp) f 2 s s1 (mc_mem s1) T (si_ok _ _ _ _ Hinv) Hal) as (Hok & _ & Hms & _); [done|].
  rewrite set_mem_same in Hok. apply (map_extern_blocked portal fuel (v, v + 2) f (user_bits false true true) sp s1 T w);
    [apply Hinv|done|done|by apply user_bits_ok|lia|simpl; lia|simpl; lia|intros u Hu; by apply (stack_pages v)|done|].
  rewrite Hms. destruct (si_run _ _ _ _ Hinv ar Har) as (fl & g & _ & _ & _ & Hrun). destruct (Hrun w Hin) as [-> _]. done.
Qed.

(** *** The pages of a gibibyte without a table *)
Lemma gib_unmapped s sp T i w : space_inv portal s sp T → taken (mc_mem s) sp i = false → 0 ≤ w < 2 ^ 26 → w / gib = i → mapping (mc_mem s) T w = None.
Proof.
  intros Hinv Ht Hw Ei. destruct (user_page w Hw) as [Hv HF]. unfold mapping.
  assert (pte_is_valid (entry (mc_mem s) (space_root sp) (sv39_index w 2)) = false) as Hn.
  { rewrite index_2 by done. unfold taken, gib in *. by rewrite Ei. }
  assert (∀ q, leads (mkSv39 0) (entry (mc_mem s) (space_root sp) (sv39_index w 2)) q → False) as Hno.
  { intros q Hl. pose proof (ld_table _ _ _ Hl) as Htab. by rewrite (leaf_not_table _ Hn) in Htab. }
  pose proof (tr_root _ _ _ _ (so_tree _ _ _ _ (si_ok _ _ _ _ Hinv))) as Hr.
  destruct (tree_descent portal _ _ _ w (so_tree _ _ _ _ (si_ok _ _ _ _ Hinv)) Hv HF) as [root H1 H2 H3|root p H1 H2 H3 H4|root p q H1 H2 H3 H4 H5];
    [by rewrite H3|by rewrite H3|]. rewrite Hr in H1. injection H1 as <-. by destruct (Hno p).
Qed.

(** The stack that the search found is free but for its second page, if that lies in the next gibibyte. *)
Lemma found_free s sp T i : space_inv portal s sp T → taken (mc_mem s) sp i = false → 0 ≤ i ≤ 255 → i mod 3 ≠ 2 →
  have_mapped (stack_at i, stack_at i + 2) sp = false.
Proof.
  intros Hinv Ht Hi Hm. destruct (stack_at_range i ltac:(lia)) as [[H1 H2] _].
  assert (stack_at i + 1 < (i + 1) * gib) as H3.
  { unfold stack_at, gib in *. pose proof (Z.div_mod i 3 ltac:(done)). pose proof (Z.mod_pos_bound i 3 ltac:(done)).
    pose proof (Z.div_mod ((i + 1) * 262144 - 3) 3 ltac:(done)). pose proof (Z.mod_pos_bound ((i + 1) * 262144 - 3) 3 ltac:(done)). lia. }
  apply have_mapped_spec, Forall_forall. intros ar Har. destruct (si_range _ _ _ _ Hinv ar Har) as [(Hr1 & Hr2 & _) _].
  destruct (decide (disjoint_ranges (stack_at i, stack_at i + 2) ar)) as [|Hd]; [done|exfalso].
  set (w := Z.max (stack_at i) ar.1). assert (inside w ar ∧ stack_at i ≤ w < stack_at i + 2) as [Hin Hw].
  { unfold disjoint_ranges in Hd. simpl in Hd. unfold inside, w. lia. }
  destruct (si_run _ _ _ _ Hinv ar Har) as (fl & g & _ & _ & _ & Hrun). destruct (Hrun w Hin) as [Hmap _].
  rewrite (gib_unmapped s sp T i w Hinv Ht) in Hmap; [done|unfold gib in *; lia|].
  symmetry. unfold gib in *. apply (Z.div_unique _ _ _ (w - i * 262144)); lia.
Qed.

(** ** The spaces of the others *)

(** A process added a range of fresh frames to its space. *)
Lemma family_grow S TT s i sp T sp' T' s' : family S TT s → S !! i = Some sp → TT !! i = Some T → space_inv portal s' sp' T' → kept T s T' s' →
  (∀ x, uses s' sp' T' x → uses s sp T x ∨ ¬ page_used (mc_heap s) x) →
  family (<[i := sp']> S) (<[i := T']> TT) s' ∧ ∀ j, j ≠ i → alone S TT s s' j.
Proof.
  intros Hf Hi HT Hinv K Huses. set (q := other_process sp). pose proof (family_kinv S TT s i q T Hf Hi HT) as Hk.
  destruct (kinv_step _ _ 0%nat q T (other_process sp') T' s' Hk eq_refl eq_refl Hinv K Huses) as [Hk' Hun]. simpl in Hk', Hun.
  by destruct (kinv_family S TT s i q T (other_process sp') T' s' Hf Hi HT Hk' Hun).
Qed.
End Stacks.
End ThreadSpaces.
