(* ===== verification/ThreadTables.v ===== *)
(** * The invariant of the kernel with threads

    What ThreadSystem.v says of processes and threads and what SpaceFamily.v says of address spaces, together: every
    process has a well-formed space of its own, and every thread runs in the space of its process.

    The ready queue is left out: a thread that a signal killed can still wait for a mutex, and the unlock that wakes it
    puts a dead thread into the queue (SyncTheorems.v).  The spaces stay apart all the same, so the tables are taken with
    an empty queue.

    Then the steps of a thread ([ThreadSteps]): what the pieces of the system calls of ch8 do to this invariant, that is reading
    and writing the entry of the process and the context of a thread, the memory of the caller, descriptors, waking a
    thread, the primitives. *)

From S2P Require Import Prelude Bytes Memory KernelContext TaskRel ProcManage ProcTree ProcInvariant Schedulers ThreadManage ThreadInvariant ThreadSystem Sync Signal Syscall PageTable AddressSpace SpaceTree SpaceMap SpaceInvariant PageManager BatchKernel TaskKernel VmKernel VmTheorems VmIsolation VmLoad SpaceFamily BlockStore File Descriptors IpcKernel SyncSyscalls SyncInvariant ThreadKernel ForkKernel ForkInvariant ForkMaking ForkCalls IpcCalls.

Module ThreadTables.
Import Threads Family SpaceRoot VmInv.

(** ** The tables without the queue *)
Section Tables.
Context {T P : Type}.
Implicit Types (pm : PThreadManager (ThreadManager T) (ProcManager P)).

Definition emptied pm : PThreadManager (ThreadManager T) (ProcManager P) :=
  mkPTM (pt_rel_map pm) (proc_manager pm) (tid2pid pm) ((fun mgr => mkThreadManager (fifo_tasks mgr) []) <$> pt_manager pm) (pt_current pm).

(** Tables with the same keys as those of [pm]. *)
Record same_keys pm pm' : Prop := {
  sk_rel : pt_rel_map pm' = pt_rel_map pm;
  sk_owner : tid2pid pm' = tid2pid pm;
  sk_procs : dom ∘ proc_table <$> proc_manager pm' = dom (D := gset Z) ∘ proc_table <$> proc_manager pm;
  sk_threads : dom ∘ fifo_tasks <$> pt_manager pm' = dom (D := gset Z) ∘ fifo_tasks <$> pt_manager pm;
  sk_current t : pt_current pm' = Some t → is_Some (tid2pid pm !! t);
}.

Lemma same_keys_inv pm pm' : pt_inv (P := P) (emptied pm) → same_keys pm pm' → pt_inv (P := P) (emptied pm').
Proof.
  intros Hi [Hr Ho Hp Ht Hc]. split; simpl; unfold fam; simpl; rewrite ?Hr, ?Ho; try apply Hi.
  - destruct (pi_procs _ Hi) as (mgr & Hm & Hd). simpl in *. rewrite Hm in Hp. simpl in Hp.
    destruct (proc_manager pm') as [mgr'|]; [|done]. injection Hp as E. exists mgr'. split; [done|]. by rewrite E.
  - destruct (pi_threads _ Hi) as (mgr & Hm & Hd & _). simpl in *.
    destruct (pt_manager pm) as [m|]; [|done]. injection Hm as <-. destruct (pt_manager pm') as [m'|]; [|done].
    simpl in *. injection Ht as E. eexists. split; [done|]. simpl. unfold pt_running. simpl. split_and!; [by rewrite E| |].
    + destruct (pt_current pm'); [apply NoDup_singleton|apply NoDup_nil_2].
    + intros t Hin. apply elem_of_dom. destruct (pt_current pm') as [c|]; [|by apply not_elem_of_nil in Hin].
      apply list_elem_of_singleton in Hin as ->. by apply Hc.
Qed.

Lemma emptied_inv pm : pt_inv (P := P) pm → pt_inv (P := P) (emptied pm).
Proof.
  intros Hi. assert (pt_inv (P := P) (emptied pm)) as H0; [|done]. destruct (pi_threads _ Hi) as (mgr & Hm & Hd & Hnd & Hin).
  split; simpl; try apply Hi. rewrite Hm. eexists. split; [done|]. unfold pt_running in *. simpl. split_and!; [done| |].
  - destruct (pt_current pm); [apply NoDup_singleton|apply NoDup_nil_2].
  - intros t Ht. apply Hin, elem_of_app. by right.
Qed.

Lemma same_keys_refl pm : pt_inv (P := P) (emptied pm) → same_keys pm pm.
Proof.
  intros Hi. split; try done. intros t Hc. destruct (running_owner _ t Hi Hc) as (p & r & Ht & _). by exists p.
Qed.

(** The operations that add to the tables do so under any queue. *)
Lemma emptied_add t x p pm pm' : PThreadManager_add t x p pm = Done pm' →
  ∃ pm2, PThreadManager_add t x p (emptied pm) = Done pm2 ∧ emptied pm2 = emptied pm'.
Proof.
  unfold PThreadManager_add. simpl. destruct (pt_manager pm) as [mgr|]; [|done]. simpl. intros [= <-]. eexists. split; [done|].
  by destruct (pt_rel_map pm !! p).
Qed.

Lemma emptied_add_proc i x p pm pm' : PThreadManager_add_proc i x p pm = Done pm' →
  PThreadManager_add_proc i x p (emptied pm) = Done (emptied pm').
Proof. unfold PThreadManager_add_proc. simpl. destruct (proc_manager pm) as [mgr|]; [|done]. simpl. by intros [= <-]. Qed.

Lemma emptied_exited code pm pm' : PThreadManager_make_current_exited code pm = Done pm' →
  PThreadManager_make_current_exited code (emptied pm) = Done (emptied pm').
Proof.
  unfold PThreadManager_make_current_exited. simpl. destruct (pt_current pm) as [t|] eqn:Hc; [|by intros [= <-]].
  destruct (pt_manager pm) as [mgr|]; [|done]. simpl. destruct (tid2pid pm !! t) as [i|]; [|done]. simpl.
  destruct (pt_rel_map pm !! i) as [r|]; simpl; [|by intros [= <-]].
  destruct (threads (ProcThreadRel_del_thread t code r)); [|by intros [= <-]].
  unfold PThreadManager_del_proc. simpl. destruct (proc_manager pm) as [pmgr|]; [|done]. simpl.
  destruct (_ !! i) as [r1|]; [|done]. simpl. destruct (PThreadManager_reparent _ _) as [rm| |]; [|done|done]. simpl. by intros [= <-].
Qed.

Lemma emptied_wait c pm o pm' : PThreadManager_wait c pm = Done (o, pm') → PThreadManager_wait c (emptied pm) = Done (o, emptied pm').
Proof.
  unfold PThreadManager_wait. simpl. destruct (pt_current pm) as [t|] eqn:Hc; [|done]. simpl. destruct (tid2pid pm !! t) as [i|]; [|done]. simpl.
  destruct (pt_rel_map pm !! i) as [r|]; [|done]. simpl. destruct (if c =? usize_max then _ else _) as [a b]. intros [= <- <-].
  unfold emptied. simpl. by rewrite Hc.
Qed.

Lemma emptied_waittid c pm o pm' : PThreadManager_waittid c pm = Done (o, pm') → PThreadManager_waittid c (emptied pm) = Done (o, emptied pm').
Proof.
  unfold PThreadManager_waittid. simpl. destruct (pt_current pm) as [t|] eqn:Hc; [|done]. simpl. destruct (tid2pid pm !! t) as [i|]; [|done]. simpl.
  destruct (pt_rel_map pm !! i) as [r|]; [|done]. simpl. destruct (ProcThreadRel_wait_thread c r) as [a b]. intros [= <- <-].
  unfold emptied. simpl. by rewrite Hc.
Qed.
End Tables.

(** ** The invariant *)

(** A process as the others leave it: they may send it signals, and none is lost. *)
Definition more_signals (g g' : SignalImpl) : Prop := ∃ r, g' = with_received r g ∧ ∀ b, Z.testbit (received g) b = true → Z.testbit r b = true.

Section Invariant.
Context `{PTC : PageTableCrate, HL : !HeapLaws, PTL : !PageTableLaws}.
Context {S : Type} `{!BlockStore S}.
Abbreviation Process := (Process (AddressSpace Sv39Manager) Ipc.Fd).
Abbreviation kernel := (kernel (AddressSpace Sv39Manager) Ipc.Fd (rest S)).
Implicit Types (k : kernel) (p q : Process) (T U : gmap (list Z) Z) (TT : gmap Z (gmap (list Z) Z)) (s : machine) (sp : AddressSpace Sv39Manager).

Definition proc_kept p q : Prop := q = set_signal (signal q) p ∧ more_signals (signal p) (signal q).

Definition spaces k : gmap Z (AddressSpace Sv39Manager) := address_space <$> procs k.
(** The kernel as the system of ThreadSystem.v. *)
Definition sys k : tsys (MT := ThreadManager Thread) (MP := ProcManager Process) :=
  mkTsys (emptied (processor k)) (pid_counter (world k)) (tid_counter (world k)).

Record thread_inv k TT : Prop := {
  ti_system : tsys_ok (T := Thread) (P := Process) (sys k);
  ti_family : family (spaces k) TT (mach (world k));
  ti_pid i p : procs k !! i = Some p → pid p = i;
  ti_tid t th : threads_of k !! t = Some th → tid th = t;
  ti_satp t th i p : threads_of k !! t = Some th → tid2pid (processor k) !! t = Some i → procs k !! i = Some p →
    f_satp (context th) = SpaceRoot.satp_of (address_space p);
}.

(** Thread [t] of process [i] runs, in the space [sp]. *)
Definition running k (t i : Z) sp : Prop :=
  pt_current (processor k) = Some t ∧ tid2pid (processor k) !! t = Some i ∧ ∃ p, procs k !! i = Some p ∧ address_space p = sp.

(** What the threads of process [i] leave of another process: its entry, its space, its threads. *)
Definition proc_stays (j : Z) k TT k' TT' : Prop := ∀ p T, procs k !! j = Some p → TT !! j = Some T →
  ∃ q, procs k' !! j = Some q ∧ proc_kept p q ∧ TT' !! j = Some T ∧ same_space (mach (world k)) (mach (world k')) (address_space p) T.
Definition threads_stay (j : Z) k k' : Prop := ∀ t th, tid2pid (processor k) !! t = Some j → threads_of k !! t = Some th →
  tid2pid (processor k') !! t = Some j ∧ threads_of k' !! t = Some th.
Definition others_stay (i : Z) k TT k' TT' : Prop := ∀ j, j ≠ i → proc_stays j k TT k' TT' ∧ threads_stay j k k'.

Lemma more_signals_refl g : more_signals g g.
Proof. exists (received g). split; [by destruct g|done]. Qed.

Lemma proc_kept_refl p : proc_kept p p.
Proof. split; [by destruct p|apply more_signals_refl]. Qed.

Lemma proc_kept_trans p1 p2 p3 : proc_kept p1 p2 → proc_kept p2 p3 → proc_kept p1 p3.
Proof.
  intros [E2 (r2 & G2 & H2)] [E3 (r3 & G3 & H3)]. split; [rewrite E3; by rewrite E2|]. exists r3. split; [rewrite G3; by rewrite G2|].
  intros b Hb. apply H3. rewrite G2. by apply H2.
Qed.

Lemma proc_kept_space p q : proc_kept p q → address_space q = address_space p ∧ pid q = pid p.
Proof. by intros [-> _]. Qed.

Lemma proc_stays_trans j k1 TT1 k2 TT2 k3 TT3 : proc_stays j k1 TT1 k2 TT2 → proc_stays j k2 TT2 k3 TT3 → proc_stays j k1 TT1 k3 TT3.
Proof.
  intros H12 H23 p T Hp HT. destruct (H12 p T Hp HT) as (q & Hq & Hk & HT2 & Hs). destruct (H23 q T Hq HT2) as (r & Hr & Hk2 & HT3 & Hs2).
  rewrite (proj1 (proc_kept_space _ _ Hk)) in Hs2. exists r. split_and!; [done|by eapply proc_kept_trans|done|by eapply same_space_trans].
Qed.

Lemma threads_stay_trans i k1 TT1 k2 TT2 k3 TT3 : others_stay i k1 TT1 k2 TT2 → others_stay i k2 TT2 k3 TT3 → others_stay i k1 TT1 k3 TT3.
Proof.
  intros H12 H23 j Hj. destruct (H12 j Hj) as [P1 T1], (H23 j Hj) as [P2 T2]. split; [by eapply proc_stays_trans|].
  intros t th Ht Hth. destruct (T1 t th Ht Hth). by apply T2.
Qed.

Lemma others_stay_refl i k TT : others_stay i k TT k TT.
Proof. intros j _. split; [|done]. intros p T Hp HT. exists p. split_and!; [done|apply proc_kept_refl|done|done]. Qed.

(** A step of thread [t] of process [i]. *)
Record stepped (t i : Z) k TT k' TT' : Prop := {
  st_inv : thread_inv k' TT';
  st_others : others_stay i k TT k' TT';
  st_run : pt_current (processor k') = Some t ∧ tid2pid (processor k') !! t = Some i;
}.
(** One that keeps the space, its mapping and the tables of it. *)
Record tame (t i : Z) sp k TT k' : Prop := {
  tm_step : stepped t i k TT k' TT;
  tm_run : running k' t i sp;
  tm_map T w : TT !! i = Some T → mapping (mc_mem (mach (world k'))) T w = mapping (mc_mem (mach (world k))) T w;
}.

Lemma stepped_trans t i k1 TT1 k2 TT2 k3 TT3 : stepped t i k1 TT1 k2 TT2 → stepped t i k2 TT2 k3 TT3 → stepped t i k1 TT1 k3 TT3.
Proof. intros [_ O1 _] [I O2 R]. split; [done|by eapply threads_stay_trans|done]. Qed.

Lemma tame_trans t i sp k1 TT k2 k3 : tame t i sp k1 TT k2 → tame t i sp k2 TT k3 → tame t i sp k1 TT k3.
Proof.
  intros [S1 _ M1] [S2 R M2]. split; [by eapply stepped_trans|done|]. intros T w HT. by rewrite M2, M1.
Qed.

Lemma stepped_refl t i k TT sp : thread_inv k TT → running k t i sp → stepped t i k TT k TT.
Proof. intros Hi (Hc & Ht & _). split; [done|apply others_stay_refl|done]. Qed.

Lemma tame_refl t i k TT sp : thread_inv k TT → running k t i sp → tame t i sp k TT k.
Proof. intros Hi Hr. split; [by eapply stepped_refl|done|done]. Qed.

(** *** What the tables have for who runs *)
Lemma inv_pt k TT : thread_inv k TT → pt_inv (T := Thread) (P := Process) (emptied (processor k)).
Proof. intros Hi. apply (ts_inv _ (ti_system _ _ Hi)). Qed.

Lemma inv_managers k TT : thread_inv k TT → ∃ pmgr mgr, proc_manager (processor k) = Some pmgr ∧ pt_manager (processor k) = Some mgr ∧
  procs k = proc_table pmgr ∧ threads_of k = fifo_tasks mgr ∧
  dom (procs k) = dom (pt_rel_map (processor k)) ∧ dom (threads_of k) = dom (tid2pid (processor k)).
Proof.
  intros Hi. pose proof (inv_pt _ _ Hi) as Hp. destruct (pi_procs _ Hp) as (pmgr & Hpm & Hd). destruct (pi_threads _ Hp) as (mgr & Hm & Hd2 & _).
  simpl in *. destruct (pt_manager (processor k)) as [m|] eqn:E; [|done]. injection Hm as <-. exists pmgr, m.
  unfold procs, threads_of. rewrite Hpm, E. by split_and!.
Qed.

Lemma owner_proc k TT t i : thread_inv k TT → tid2pid (processor k) !! t = Some i →
  ∃ p th T, procs k !! i = Some p ∧ threads_of k !! t = Some th ∧ TT !! i = Some T ∧ space_inv portal (mach (world k)) (address_space p) T.
Proof.
  intros Hi Ht. destruct (inv_managers _ _ Hi) as (pmgr & mgr & _ & _ & _ & _ & Hd & Hd2).
  destruct (proj1 (pi_own _ (inv_pt _ _ Hi) t i) Ht) as (r & Hr & _). simpl in Hr.
  assert (i ∈ dom (procs k)) as [p Hp]%elem_of_dom by (rewrite Hd; by apply elem_of_dom_2 in Hr).
  assert (t ∈ dom (threads_of k)) as [th Hth]%elem_of_dom by (rewrite Hd2; by apply elem_of_dom_2 in Ht).
  assert (spaces k !! i = Some (address_space p)) as Hsp by (unfold spaces; by rewrite lookup_fmap, Hp).
  destruct (family_tables _ _ _ _ _ (ti_family _ _ Hi) Hsp) as [T HT]. exists p, th, T.
  split_and!; [done|done|done|by eapply fm_space; [apply Hi|..]].
Qed.

Lemma runner_space k TT t i sp T : thread_inv k TT → running k t i sp → TT !! i = Some T → space_inv portal (mach (world k)) sp T.
Proof.
  intros Hi (_ & _ & p & Hp & <-) HT. eapply fm_space; [apply Hi| |done]. unfold spaces. by rewrite lookup_fmap, Hp.
Qed.

Lemma running_runs k t i sp : running k t i sp → ∃ p, runs k t i p ∧ address_space p = sp.
Proof. intros (Hc & Ht & p & Hp & E). by exists p. Qed.

(** *** Steps that keep the keys *)
Lemma keys_inv k k' : tsys_ok (T := Thread) (P := Process) (sys k) → same_keys (processor k) (processor k') →
  pid_counter (world k) ≤ pid_counter (world k') ≤ still_running → tid_counter (world k) ≤ tid_counter (world k') ≤ usize_max →
  tsys_ok (T := Thread) (P := Process) (sys k').
Proof.
  intros Hs Hk Hp Ht. pose proof (ts_pid _ Hs) as Hpc. pose proof (ts_tid _ Hs) as Htc. simpl in *. split; simpl; unfold staffed; simpl; rewrite ?(sk_rel _ _ Hk).
  - eapply same_keys_inv; [apply Hs|done].
  - apply Hs.
  - apply Hs.
  - lia.
  - lia.
  - intros j r Hr. destruct (ts_below _ Hs j r Hr) as (H1 & H2 & H3). simpl in *. split_and!; [lia| |].
    + intros c Hc. specialize (H2 c Hc). lia.
    + intros u Hu. specialize (H3 u Hu). lia.
Qed.

(** A step that changes the entry of the process, contexts of its threads, its bytes, and what is neither process nor thread. *)
Record local (i : Z) sp k k' : Prop := {
  lc_keys : same_keys (processor k) (processor k');
  lc_current : pt_current (processor k') = pt_current (processor k);
  lc_pid : pid_counter (world k) ≤ pid_counter (world k') ≤ still_running;
  lc_tid : tid_counter (world k) ≤ tid_counter (world k') ≤ usize_max;
  lc_proc : ∃ q, procs k' = <[i := q]> (procs k) ∧ pid q = i ∧ address_space q = sp;
  lc_thread u th' : threads_of k' !! u = Some th' → ∃ th, threads_of k !! u = Some th ∧
    (th' = th ∨ tid2pid (processor k) !! u = Some i ∧ tid th' = tid th ∧ f_satp (context th') = f_satp (context th));
}.

Lemma same_keys_threads k k' u : same_keys (processor k) (processor k') → is_Some (threads_of k !! u) → is_Some (threads_of k' !! u).
Proof.
  intros [_ _ _ Ht _]. unfold threads_of. rewrite <-!elem_of_dom.
  destruct (pt_manager (processor k)), (pt_manager (processor k')); simpl in *; [by injection Ht as ->|done..].
Qed.

Lemma local_tame t i sp k TT k' T : thread_inv k TT → running k t i sp → TT !! i = Some T → local i sp k k' →
  own_writes (mach (world k)) (mach (world k')) sp T → tame t i sp k TT k'.
Proof.
  intros Hi Hr HT [Hkeys Hcur Hpc Htc (q & Eq & Hq & Hsp) Hth] Hw. pose proof Hr as (Hc & Ht & p & Hp & Ep).
  assert (spaces k !! i = Some sp) as Hs by (unfold spaces; rewrite lookup_fmap, Hp; simpl; by rewrite Ep).
  assert (spaces k' = spaces k) as Esp.
  { unfold spaces. rewrite Eq, fmap_insert. apply insert_id. rewrite lookup_fmap, Hp. simpl. by rewrite Ep, Hsp. }
  destruct (family_writes (spaces k) TT (mach (world k)) (mach (world k')) i sp T (ti_family _ _ Hi) Hs HT Hw) as (Hf & Hm & Hal).
  pose proof (sk_owner _ _ Hkeys) as Eo.
  split; [split| |].
  - split.
    + by eapply keys_inv; [apply Hi|..].
    + by rewrite Esp.
    + rewrite Eq. intros j r [[<- <-]|[_ Hj]]%lookup_insert_Some; [done|by eapply ti_pid].
    + intros u th' Hu. destruct (Hth u th' Hu) as (th & Hu' & [->|(_ & E & _)]); [|rewrite E]; by eapply ti_tid.
    + intros u th' j r Hu Ho Hj. rewrite Eo in Ho. destruct (Hth u th' Hu) as (th & Hu' & Hor).
      assert (∃ r0, procs k !! j = Some r0 ∧ address_space r0 = address_space r) as (r0 & Hr0 & <-).
      { rewrite Eq in Hj. apply lookup_insert_Some in Hj as [[<- <-]|[_ Hj]]; [exists p; by rewrite Ep, Hsp|by exists r]. }
      rewrite <-(ti_satp _ _ Hi u th j r0 Hu' Ho Hr0). by destruct Hor as [->|(_ & _ & ?)].
  - intros j Hj. split.
    + intros r U Hrj HU. exists r. rewrite Eq, lookup_insert_ne by done. split_and!; [done|apply proc_kept_refl|done|].
      apply (Hal j Hj); [|done]. unfold spaces. by rewrite lookup_fmap, Hrj.
    + intros u th Ho Hu. split; [by rewrite Eo|].
      destruct (same_keys_threads k k' u Hkeys) as [th' Hu']; [by exists th|]. destruct (Hth u th' Hu') as (th0 & H0 & [->|(Ho' & _)]).
      * rewrite Hu in H0. by injection H0 as ->.
      * rewrite Ho in Ho'. by injection Ho'.
  - by rewrite Hcur, Eo.
  - split; [by rewrite Hcur|]. rewrite Eo. split; [done|]. exists q. by rewrite Eq, lookup_insert_eq.
  - intros U w HU. rewrite HT in HU. by injection HU as <-.
Qed.

Lemma own_nothing s sp T : own_writes s s sp T.
Proof. split; [done|]. intros x Hx. by destruct Hx. Qed.
End Invariant.
End ThreadTables.

Module ThreadSteps.
Import Threads Family SpaceRoot VmInv ThreadTables.
Section Steps.
Context `{PTC : PageTableCrate, HL : !HeapLaws, PTL : !PageTableLaws}.
Context {S : Type} `{!BlockStore S}.
Abbreviation Process := (Process (AddressSpace Sv39Manager) Ipc.Fd).
Abbreviation kernel := (kernel (AddressSpace Sv39Manager) Ipc.Fd (rest S)).
Implicit Types (k : kernel) (p q : Process) (T U : gmap (list Z) Z) (TT : gmap Z (gmap (list Z) Z)) (s : machine) (sp : AddressSpace Sv39Manager).

Section Running.
Variables (k : kernel) (TT : gmap Z (gmap (list Z) Z)) (t i : Z) (sp : AddressSpace Sv39Manager) (T : gmap (list Z) Z).
Hypothesis Hi : thread_inv k TT.
Hypothesis Hr : running k t i sp.
Hypothesis HT : TT !! i = Some T.

Lemma self_keys : same_keys (processor k) (processor k).
Proof. apply (same_keys_refl (P := Process)). by eapply inv_pt. Qed.
Lemma self_pid : pid_counter (world k) ≤ pid_counter (world k) ≤ still_running.
Proof. pose proof (ts_pid _ (ti_system _ _ Hi)) as H1. simpl in H1. lia. Qed.
Lemma self_tid : tid_counter (world k) ≤ tid_counter (world k) ≤ usize_max.
Proof. pose proof (ts_tid _ (ti_system _ _ Hi)) as H1. simpl in H1. lia. Qed.
Lemma self_proc : ∃ q, procs k = <[i := q]> (procs k) ∧ pid q = i ∧ address_space q = sp.
Proof.
  destruct Hr as (_ & _ & p & Hp & E). exists p. split_and!; [by rewrite insert_id|by eapply ti_pid|done].
Qed.
Lemma self_thread u th' : threads_of k !! u = Some th' → ∃ th, threads_of k !! u = Some th ∧
  (th' = th ∨ tid2pid (processor k) !! u = Some i ∧ tid th' = tid th ∧ f_satp (context th') = f_satp (context th)).
Proof. intros Hu. exists th'. by split; [|left]. Qed.

(** ** The entry of the process *)
Lemma current_proc_tame a k' : current_proc k = Done (a, k') → k' = k ∧ runs k t i a ∧ address_space a = sp.
Proof.
  destruct (running_runs _ _ _ _ Hr) as (p & Hp & E). rewrite (current_proc_run _ _ _ _ Hp). by intros [= <- <-].
Qed.

Lemma put_proc_local q : pid q = i → address_space q = sp → local i sp k (put_proc i q k).
Proof.
  intros Hq Hsp. destruct (inv_managers _ _ Hi) as (pmgr & mgr & Hpm & Hm & Ep & Et & _). destruct Hr as (Hc & Ht & p & Hp & _).
  pose proof self_keys as [K1 K2 K3 K4 K5]. split; try done; [|apply self_pid|apply self_tid|exists q; by split_and!|apply self_thread].
  split; try done. simpl. rewrite Hpm. simpl. f_equal. rewrite <-Ep. apply dom_insert_lookup_L. by exists p.
Qed.

Lemma update_current_tame f u k' : (∀ p, pid (f p) = pid p ∧ address_space (f p) = address_space p) →
  update_current_proc f k = Done (u, k') → tame t i sp k TT k'.
Proof.
  intros Hf Hd. destruct (running_runs _ _ _ _ Hr) as (p & Hp & E). rewrite (update_current_proc_run _ _ _ _ _ Hp) in Hd. injection Hd as _ <-.
  eapply local_tame; [done|done|exact HT| |apply own_nothing]. destruct (Hf p) as [F1 F2]. apply put_proc_local; [|by rewrite F2].
  rewrite F1. eapply ti_pid; [exact Hi|apply Hp].
Qed.

(** ** Threads *)
Lemma current_thread_tame a k' : current_thread k = Done (a, k') → k' = k ∧ threads_of k !! t = Some a ∧ tid a = t.
Proof.
  destruct (inv_managers _ _ Hi) as (pmgr & mgr & Hpm & Hm & Ep & Et & _). destruct Hr as (Hc & _).
  unfold current_thread, PThreadManager_current. rewrite Hc, Hm. simpl. unfold ThreadManager_get. rewrite <-Et.
  destruct (threads_of k !! t) as [th|] eqn:Hth; [|done]. simpl. intros [= <- <-]. split_and!; [done|done|by eapply ti_tid].
Qed.

Lemma update_thread_tame w f u k' : tid2pid (processor k) !! w = Some i →
  (∀ th, threads_of k !! w = Some th → tid (f th) = tid th ∧ f_satp (context (f th)) = f_satp (context th)) →
  update_thread w f k = Done (u, k') → tame t i sp k TT k'.
Proof.
  intros Ho Hf Hd. destruct (inv_managers _ _ Hi) as (pmgr & mgr & Hpm & Hm & Ep & Et & _).
  unfold update_thread, on_processor in Hd. rewrite Hm in Hd. simpl in Hd. injection Hd as _ <-.
  eapply local_tame; [done|done|exact HT| |apply own_nothing]. pose proof self_keys as [K1 K2 K3 K4 K5].
  split; try done; [|apply self_pid|apply self_tid|apply self_proc|].
  - split; try done. simpl. rewrite Hm. simpl. f_equal. by rewrite dom_alter_L.
  - intros x th'. unfold threads_of at 1. simpl. rewrite Et. destruct (decide (x = w)) as [->|Hne].
    + rewrite lookup_alter_eq. destruct (fifo_tasks mgr !! w) as [th|] eqn:Hth; [|done]. intros [= <-]. exists th.
      destruct (Hf th) as [F1 F2]; [by rewrite Et|]. split; [done|right]. by split_and!.
    + rewrite lookup_alter_ne by done. intros Hx. exists th'. by split; [|left].
Qed.

Lemma set_context_tame w c u k' : tid2pid (processor k) !! w = Some i → update_thread w (set_context c) k = Done (u, k') → tame t i sp k TT k'.
Proof. intros Ho. apply update_thread_tame; [done|]. by intros. Qed.

(** ** The machine, and what is neither process nor thread *)
Lemma world_tame w : pid_counter (world k) ≤ pid_counter w ≤ still_running → tid_counter (world k) ≤ tid_counter w ≤ usize_max →
  own_writes (mach (world k)) (mach w) sp T → tame t i sp k TT (set_world w k).
Proof.
  intros Hp Ht Hw. eapply local_tame; [done|done|exact HT| |exact Hw].
  split; try done; [apply self_keys|apply self_proc|apply self_thread].
Qed.

Lemma mach_tame s : own_writes (mach (world k)) s sp T → tame t i sp k TT (set_mach s k).
Proof. intros Hw. apply world_tame; [apply self_pid|apply self_tid|exact Hw]. Qed.

Lemma on_more_tame {A} (f : st (Ipc.ipc S) A) a k' : on_more f k = Done (a, k') → tame t i sp k TT k' ∧ ∃ y, f (more (world k)) = Done (a, y) ∧ k' = set_more y k.
Proof.
  unfold on_more. intros ([b y] & Hf & [= -> <-])%bind_Done. split; [|by exists y].
  apply world_tame; [apply self_pid|apply self_tid|apply own_nothing].
Qed.

Lemma masking_tame m : tame t i sp k TT (put_masking m k).
Proof.
  eapply local_tame; [done|done|exact HT| |apply own_nothing].
  split; try done; [apply self_keys|apply self_pid|apply self_tid|apply self_proc|apply self_thread].
Qed.

Lemma wake_tame w u k' : wake w k = Done (u, k') → tame t i sp k TT k'.
Proof.
  destruct w as [w|]; [|intros [= _ <-]; by eapply tame_refl]. destruct (inv_managers _ _ Hi) as (pmgr & mgr & Hpm & Hm & Ep & Et & _).
  unfold wake, on_processor, PThreadManager_re_enque. rewrite Hm. simpl. intros [= _ <-].
  eapply local_tame; [done|done|exact HT| |apply own_nothing]. pose proof self_keys as [K1 K2 K3 K4 K5].
  split; try done; [|apply self_pid|apply self_tid|apply self_proc|].
  - split; try done. simpl. by rewrite Hm.
  - unfold threads_of at 1. simpl. intros x th' Hx. exists th'. rewrite Et. by split; [|left].
Qed.

(** ** Bytes of the caller *)
Lemma running_family : family (spaces k) TT (mach (world k)) ∧ spaces k !! i = Some sp.
Proof. split; [apply Hi|]. destruct Hr as (_ & _ & p & Hp & <-). unfold spaces. by rewrite lookup_fmap, Hp. Qed.

Lemma user_ptr_tame addr flags o k' : user_ptr addr flags k = Done (o, k') → k' = k ∧ translate addr flags sp (memory_of k) = Done o.
Proof.
  unfold user_ptr. intros Hd. apply st_bind_Done in Hd as (a & k1 & (-> & _ & <-)%current_proc_tame & Hd).
  rewrite (st_bind_run get_st _ _ _ _ eq_refl) in Hd. unfold lift in Hd. destruct (translate _ _ _ _) as [o'| |]; [|done..].
  by injection Hd as -> <-.
Qed.

(** [n] bytes from [ptr] on lie in the frame that [addr] is mapped to. *)
Definition placed k0 (addr flags ptr : Z) : Prop := translate addr flags sp (memory_of k0) = Done (Some ptr).

Lemma store_tame addr flags ptr n s : placed k addr flags ptr → ForkCalls.buffer_ok addr n → ForkCalls.written ptr n (mach (world k)) s →
  tame t i sp k TT (set_mach s k).
Proof.
  intros Hpl [Ha Hn] Hw. apply mach_tame. by eapply ForkCalls.written_own; [by eapply runner_space|done|done|exact Hpl|].
Qed.

Lemma mem_write_tame addr flags ptr bs u k' : placed k addr flags ptr → ForkCalls.buffer_ok addr (Z.of_nat (length bs)) →
  on_machine (mc_on_mem (mem_write ptr bs)) k = Done (u, k') → tame t i sp k TT k'.
Proof. intros Hpl Hb [= _ <-]. eapply store_tame; [done|done|apply ForkCalls.write_written]. Qed.

Lemma print_tame bs u k' : print bs k = Done (u, k') → tame t i sp k TT k'.
Proof. intros [= _ <-]. apply mach_tame. split; [done|]. intros x Hx. by destruct Hx. Qed.
End Running.

(** Where the bytes of the caller are does not change in between. *)
Lemma placed_tame k TT t i sp T k' addr flags ptr : thread_inv k TT → running k t i sp → TT !! i = Some T → 0 ≤ addr < 2 ^ 38 →
  tame t i sp k TT k' → placed sp k addr flags ptr → placed sp k' addr flags ptr.
Proof.
  intros Hi Hr HT Ha [[Hi' _ _] Hr' Hm] Hpl. unfold placed, memory_of in *.
  rewrite (ForkCalls.translate_user _ _ _ _ _ (runner_space _ _ _ _ _ _ Hi Hr HT) Ha) in Hpl.
  rewrite (ForkCalls.translate_user _ _ _ _ _ (runner_space _ _ _ _ _ _ Hi' Hr' HT) Ha). by rewrite Hm.
Qed.
End Steps.
End ThreadSteps.
