(* ===== verification/ThreadMaking.v ===== *)
(** * New threads

    [thread_create] of ch8: the stack, the new entry in the tables, and what the invariant of ThreadTables.v says after it. *)

From Stdlib Require Import Ascii String.
From stdpp Require Import strings.
From S2P Require Import Prelude Bytes Memory KernelContext TaskRel ProcManage ProcTree ProcInvariant Schedulers ThreadManage ThreadInvariant ThreadSystem Sync Signal Syscall PageTable AddressSpace SpaceTree SpaceMap SpaceInvariant PageManager BatchKernel TaskKernel VmKernel VmTheorems VmIsolation VmLoad SpaceFamily BlockStore File Descriptors IpcKernel SyncSyscalls SyncInvariant ThreadKernel ThreadSpaces ThreadTables.

Module ThreadMaking.
Import Threads Family SpaceRoot VmInv VmLoad ThreadSpaces ThreadTables ThreadSteps.
Section Making.
Context `{PTC : PageTableCrate, HL : !HeapLaws, PTL : !PageTableLaws}.
Context {S : Type} `{!BlockStore S}.
Abbreviation Process := (Process (AddressSpace Sv39Manager) Ipc.Fd).
Abbreviation kernel := (kernel (AddressSpace Sv39Manager) Ipc.Fd (rest S)).
Implicit Types (k : kernel) (p q : Process) (T U : gmap (list Z) Z) (TT : gmap Z (gmap (list Z) Z)) (s : machine) (sp : AddressSpace Sv39Manager).

(** ** A process gets another space *)

(** The entry of the process and its space change, the contexts of its threads with them. *)
Record replaced (i : Z) k q k' : Prop := {
  rp_keys : same_keys (processor k) (processor k');
  rp_current : pt_current (processor k') = pt_current (processor k);
  rp_pid : pid_counter (world k) ≤ pid_counter (world k') ≤ still_running;
  rp_tid : tid_counter (world k) ≤ tid_counter (world k') ≤ usize_max;
  rp_proc : procs k' = <[i := q]> (procs k) ∧ pid q = i;
  rp_thread u th' : threads_of k' !! u = Some th' → ∃ th, threads_of k !! u = Some th ∧ tid th' = tid th ∧
    if decide (tid2pid (processor k) !! u = Some i) then f_satp (context th') = SpaceRoot.satp_of (address_space q) else th' = th;
}.

Lemma replaced_inv t i k TT p q k' TT' : thread_inv k TT → runs k t i p → replaced i k q k' →
  family (<[i := address_space q]> (spaces k)) TT' (mach (world k')) → (∀ j, j ≠ i → TT' !! j = TT !! j) →
  (∀ j, j ≠ i → alone (spaces k) TT (mach (world k)) (mach (world k')) j) → stepped t i k TT k' TT'.
Proof.
  intros Hi (Hc & Ht & Hp) [Hkeys Hcur Hpc Htc [Eq Hq] Hth] Hf HTT Hal. pose proof (sk_owner _ _ Hkeys) as Eo. split.
  - split.
    + by eapply keys_inv; [apply Hi|..].
    + unfold spaces at 1. by rewrite Eq, fmap_insert.
    + rewrite Eq. intros j r [[<- <-]|[_ Hj]]%lookup_insert_Some; [done|by eapply ti_pid].
    + intros u th' Hu. destruct (Hth u th' Hu) as (th & Hu' & E & _). rewrite E. by eapply ti_tid.
    + intros u th' j r Hu Ho Hj. rewrite Eo in Ho. destruct (Hth u th' Hu) as (th & Hu' & _ & E).
      rewrite Eq in Hj. apply lookup_insert_Some in Hj as [[<- <-]|[Hne Hj]].
      * by rewrite decide_True in E.
      * rewrite decide_False in E by congruence. subst th'. by eapply ti_satp.
  - intros j Hj. split.
    + intros r U Hrj HU. exists r. rewrite Eq, lookup_insert_ne, HTT by done. split_and!; [done|apply proc_kept_refl|done|].
      apply (Hal j Hj); [|done]. unfold spaces. by rewrite lookup_fmap, Hrj.
    + intros u th Ho Hu. split; [by rewrite Eo|].
      destruct (same_keys_threads k k' u Hkeys) as [th' Hu']; [by exists th|]. destruct (Hth u th' Hu') as (th0 & H0 & _ & E).
      rewrite decide_False in E by congruence. by rewrite Hu', E, <-H0.
  - by rewrite Hcur, Eo.
Qed.

(** ** A thread is added *)

Lemma emptied_sys (pm : PThreadManager (ThreadManager Thread) (ProcManager Process)) a b :
  tsys_ok (T := Thread) (P := Process) (mkTsys pm a b) → tsys_ok (T := Thread) (P := Process) (mkTsys (emptied pm) a b).
Proof. intros [H1 H2 H3 H4 H5 H6]. split; [by apply emptied_inv|done..]. Qed.

(** The tables with thread [th] of process [i]. *)
Definition with_thread (th : Thread) (i : Z) (r : ProcThreadRel) k : kernel :=
  let pm := processor k in
  mkKernel (mkPTM (<[i := ProcThreadRel_add_thread (tid th) r]> (pt_rel_map pm)) (proc_manager pm) (<[tid th := i]> (tid2pid pm))
      ((fun mgr => mkThreadManager (<[tid th := th]> (fifo_tasks mgr)) (fifo_queue mgr ++ [tid th])) <$> pt_manager pm) (pt_current pm))
    (masking k) (mkRest (pid_counter (world k)) (tid th + 1) (kernel_as (world k)) (more (world k)) (mach (world k))).

Lemma thread_added t i k TT p th : thread_inv k TT → runs k t i p → tid_counter (world k) < usize_max → tid th = tid_counter (world k) →
  f_satp (context th) = SpaceRoot.satp_of (address_space p) →
  ∃ r, pt_rel_map (processor k) !! i = Some r ∧
    PThreadManager_add (tid th) th i (processor k) = Done (processor (with_thread th i r k)) ∧ as_usize (tid th + 1) = tid th + 1 ∧
    stepped t i k TT (with_thread th i r k) TT ∧ threads_of (with_thread th i r k) = <[tid th := th]> (threads_of k) ∧
    threads_of k !! tid th = None.
Proof.
  intros Hi (Hc & Ht & Hp) Hn Hid Hsat. destruct (inv_managers _ _ Hi) as (pmgr & mgr & Hpm & Hm & Ep & Et & Hdp & Hdt).
  destruct (proj1 (pi_own _ (inv_pt _ _ Hi) t i) Ht) as (r & Hr & _). simpl in Hr. exists r.
  destruct (tcreate_ok (sys k) th (ti_system _ _ Hi)) as (y & Hrun & Hok); [by split; [exists t|]|].
  simpl in Hrun. rewrite Hc in Hrun. simpl in Hrun. rewrite Ht in Hrun. simpl in Hrun.
  assert (PThreadManager_add (tid th) th i (processor k) = Done (processor (with_thread th i r k))) as Hadd.
  { unfold PThreadManager_add, with_thread. rewrite Hm. simpl. by rewrite Hr. }
  rewrite Hid in Hadd. destruct (emptied_add _ _ _ _ _ Hadd) as (pm2 & Hrun2 & E2).
  rewrite Hrun2 in Hrun. simpl in Hrun. injection Hrun as <-. apply emptied_sys in Hok. rewrite E2 in Hok.
  destruct (counters (sys k) (ti_system _ _ Hi)) as [_ Hnext]. specialize (Hnext Hn). simpl in Hnext. rewrite Hnext, <-Hid in Hok.
  assert (threads_of (with_thread th i r k) = <[tid th := th]> (threads_of k)) as Eth by (unfold threads_of at 1, with_thread; simpl; by rewrite Hm, Et).
  destruct (fresh_tid (sys k) (ti_system _ _ Hi)) as [Hfr _]. simpl in Hfr. rewrite <-Hid in Hfr.
  assert (threads_of k !! tid th = None) as Hnone by (apply not_elem_of_dom; rewrite Hdt; by apply not_elem_of_dom).
  split_and!; [done|by rewrite Hid|by rewrite Hid| |done|done]. split.
  - split; [exact Hok|apply Hi|apply Hi| |].
    + rewrite Eth. intros u x [[<- <-]|[_ Hu]]%lookup_insert_Some; [done|by eapply ti_tid].
    + rewrite Eth. intros u x j q Hu Ho Hq. simpl in Ho. change (procs (with_thread th i r k)) with (procs k) in Hq.
      apply lookup_insert_Some in Hu as [[<- <-]|[Hne Hu]].
      * rewrite lookup_insert_eq in Ho. injection Ho as <-. rewrite Hp in Hq. by injection Hq as <-.
      * rewrite lookup_insert_ne in Ho by done. by eapply ti_satp.
  - intros j Hj. split.
    + intros q U Hq HU. exists q. split_and!; [done|apply proc_kept_refl|done|done].
    + intros u x Ho Hu. assert (u ≠ tid th) by congruence. rewrite Eth. simpl. by rewrite !lookup_insert_ne.
  - simpl. split; [done|]. rewrite lookup_insert_ne; [done|]. congruence.
Qed.

(** ** [thread_create] *)

(** The gibibyte that the search stops in. *)
Definition stack_found (m : memory) sp (g : Z) : Prop := 0 ≤ g ≤ 255 ∧ taken m sp g = false ∧ ∀ j, g < j ≤ 255 → taken m sp j = true.
Definition stack_of (g : Z) : Z * Z := (stack_at g, stack_at g + 2).

(** No gibibyte is left, one of the two pages is mapped, or the heap is exhausted. *)
Definition no_stack s sp : Prop := (∀ g, 0 ≤ g ≤ 255 → taken (mc_mem s) sp g = true) ∨
  (∃ g, stack_found (mc_mem s) sp g ∧ have_mapped (stack_of g) sp = true) ∨ exhausted (M := Sv39Manager) 6 s.

Definition more_areas (range : Z * Z) sp : AddressSpace Sv39Manager := mkSpace (areas sp ++ [range]) (page_manager sp).
Definition stack_context (entry arg : Z) (range : Z * Z) : LocalContext :=
  mkCtx 0 (<[9%nat := arg]> (<[1%nat := vpn_base range.2]> (replicate 31 0))) entry false true.
Definition stack_thread (entry arg g : Z) sp (n : Z) : Thread :=
  mkThread n (mkForeign (stack_context entry arg (stack_of g)) (SpaceRoot.satp_of sp)).

Lemma stack_of_range g : 0 ≤ g ≤ 255 → 0 ≤ stack_at g ∧ stack_at g + 2 ≤ 2 ^ 26.
Proof.
  intros Hg. destruct (stack_at_range g ltac:(lia)) as [[H1 H2] _]. unfold gib in *. split; [lia|].
  destruct (decide (g = 255)) as [->|]; [done|lia].
Qed.

Lemma stack_context_run entry arg g :
  (c ← LocalContext_set_sp (vpn_base (stack_at g + 2)) (LocalContext_user entry); LocalContext_set_a 0 arg c) =
  Done (stack_context entry arg (stack_of g)).
Proof. done. Qed.

(** The space of the process with the stack. *)
Definition grown (g : Z) s i p k : kernel := set_mach s (put_proc i (set_space (more_areas (stack_of g) (address_space p)) p) k).

Lemma grown_stepped t i k TT p T g s T' : thread_inv k TT → runs k t i p → TT !! i = Some T →
  stack_put (mach (world k)) (address_space p) T (stack_of g) s T' → stepped t i k TT (grown g s i p k) (<[i := T']> TT).
Proof.
  intros Hi Hr HT Hput. pose proof Hr as (Hc & Ht & Hp). set (sp := address_space p) in *. set (q := set_space (more_areas (stack_of g) sp) p).
  assert (spaces k !! i = Some sp) as Hs by (unfold spaces; by rewrite lookup_fmap, Hp).
  destruct (family_grow (spaces k) TT (mach (world k)) i sp T (more_areas (stack_of g) sp) T' s (ti_family _ _ Hi) Hs HT) as [Hf Hal]; [apply Hput..|].
  assert (running k t i sp) as Hrun by (split_and!; [done|done|by exists p]). pose proof (ti_pid _ _ Hi i p Hp) as Hpid.
  destruct (put_proc_local k TT t i sp Hi Hrun (set_space sp p) Hpid eq_refl) as [K1 K2 K3 K4 _ K6].
  apply (replaced_inv t i k TT p q); [done|done| |exact Hf|intros j Hj; by rewrite lookup_insert_ne|exact Hal].
  split; [|done|done|done|done|].
  - destruct K1 as [S1 S2 S3 S4 S5]. split; [done|done| |done|done]. rewrite <-S3. unfold grown, put_proc. simpl. f_equal. by rewrite !dom_insert_L.
  - intros u th' Hu. exists th'. split_and!; [done|done|]. case_decide as Ho; [|done]. by apply (ti_satp _ _ Hi u th' i p).
Qed.

Lemma grown_runs t i k p g s : runs k t i p → runs (grown g s i p k) t i (set_space (more_areas (stack_of g) (address_space p)) p).
Proof. intros (Hc & Ht & Hp). split_and!; [done|done|]. apply lookup_insert_eq. Qed.

(** A stack was found and mapped, and the thread starts on it. *)
Record created t i k TT p T (entry arg g : Z) k' T' : Prop := {
  cr_found : stack_found (memory_of k) (address_space p) g ∧ have_mapped (stack_of g) (address_space p) = false;
  cr_step : stepped t i k TT k' (<[i := T']> TT);
  cr_space : stack_put (mach (world k)) (address_space p) T (stack_of g) (mach (world k')) T';
  cr_proc : procs k' = <[i := set_space (more_areas (stack_of g) (address_space p)) p]> (procs k);
  cr_thread : let n := tid_counter (world k) in threads_of k !! n = None ∧
    threads_of k' = <[n := stack_thread entry arg g (address_space p) n]> (threads_of k) ∧ tid2pid (processor k') = <[n := i]> (tid2pid (processor k));
  cr_ready : (fifo_queue <$> pt_manager (processor k')) = (fun l => l ++ [tid_counter (world k)]) ∘ fifo_queue <$> pt_manager (processor k);
  cr_rel : pt_rel_map (processor k') = alter (ProcThreadRel_add_thread (tid_counter (world k))) i (pt_rel_map (processor k));
  cr_rest : tid_counter (world k') = tid_counter (world k) + 1 ∧ pid_counter (world k') = pid_counter (world k) ∧
    more (world k') = more (world k) ∧ masking k' = masking k;
}.

Lemma create_run fuel t i k TT p T entry arg : thread_inv k TT → runs k t i p → TT !! i = Some T → (2 ≤ fuel)%nat →
  tid_counter (world k) < usize_max →
  (thread_create fuel entry arg k = Panic ∧ no_stack (mach (world k)) (address_space p)) ∨
  ∃ g k' T', thread_create fuel entry arg k = Done (as_isize (tid_counter (world k)), k') ∧ created t i k TT p T entry arg g k' T'.
Proof.
  intros Hi Hr HT Hfuel Hn. pose proof Hr as (Hc & Ht & Hp). set (sp := address_space p) in *. set (n := tid_counter (world k)) in *.
  assert (running k t i sp) as Hrun by (split_and!; [done|done|by exists p]).
  pose proof (runner_space k TT t i sp T Hi Hrun HT) as Hsp. pose proof (ti_pid _ _ Hi i p Hp) as Hpid.
  unfold thread_create. rewrite (st_bind_run _ _ _ _ _ (current_proc_run _ _ _ _ Hr)), (st_bind_run get_st _ _ _ _ eq_refl). fold sp.
  destruct (stack_page_run sp (memory_of k) (si_aligned _ _ _ _ Hsp)) as [[E Hall]|(g & E & Hg & Hfree & Hall)].
  { left. split; [unfold mbind, st_bind, lift; by rewrite E|by left]. }
  rewrite (st_bind_run _ _ _ _ _ (lift_run _ _ _ E)). destruct (stack_of_range g Hg) as [Hv1 Hv2].
  set (rest := fun space : AddressSpace Sv39Manager => _).
  match goal with |- context [mbind ?f (on_machine ?a) k] => set (go := mbind f (on_machine a) k) end.
  assert (go = match put_stack fuel (stack_at g) sp (mach (world k)) with Done (a, s) => rest a (set_mach s k) | Panic => Panic | Hang => Hang end) as Ego.
  { unfold go, put_stack, mbind, st_bind, on_machine. simpl. destruct (alloc_zeroed _ _ _) as [[st s1]| |]; [|done..]. simpl.
    by destruct (map_extern _ _ _ _ _ s1) as [[a s2]| |]. }
  rewrite Ego. clear Ego go. destruct (have_mapped (stack_of g) sp) eqn:Hm.
  { left. rewrite (put_stack_blocked fuel (stack_at g) _ sp T) by done. split; [done|]. right; left. by exists g. }
  destruct (put_stack_run fuel (stack_at g) (mach (world k)) sp T) as [[Ep Hex]|(s' & T' & Ep & Hput)]; [done..| |].
  { left. rewrite Ep. split; [done|]. by right; right. }
  right. rewrite Ep. set (k1 := grown g s' i p k). set (p1 := set_space (more_areas (stack_of g) sp) p).
  pose proof (grown_stepped t i k TT p T g s' T' Hi Hr HT Hput) as Hstep. pose proof (grown_runs t i k p g s' Hr) as Hr1. fold k1 in Hstep, Hr1.
  destruct (thread_added t i k1 (<[i := T']> TT) p1 (stack_thread entry arg g sp n)) as (r & Hrel & Hadd & Hnext & Hstep2 & Eth & Hnone);
    [apply Hstep|exact Hr1|done..|].
  set (k2 := with_thread (stack_thread entry arg g sp n) i r k1) in *. exists g, k2, T'. split.
  - unfold rest. assert (update_current_proc (set_space (mkSpace (areas sp ++ [stack_of g]) (page_manager sp))) (set_mach s' k) = Done ((), k1)) as Eu.
    { rewrite (update_current_proc_run (set_mach s' k) t i p) by done. done. }
    rewrite (st_bind_run _ _ _ _ _ Eu). pose proof (stack_context_run entry arg g) as Hctx. apply bind_Done in Hctx as (c1 & H1 & H2).
    rewrite (st_bind_run _ _ _ _ _ (lift_run _ _ _ H1)), (st_bind_run _ _ _ _ _ (lift_run _ _ _ H2)).
    set (th := stack_thread entry arg g sp n) in *.
    set (k3 := set_world (mkRest (pid_counter (world k1)) (as_usize (n + 1)) (kernel_as (world k1)) (more (world k1)) (mach (world k1))) k1).
    assert (new_thread (Threads.satp_of (mkSpace (areas sp ++ [stack_of g]) (page_manager sp))) (stack_context entry arg (stack_of g)) k1 = Done (th, k3)) as E3 by done.
    rewrite (st_bind_run _ _ _ _ _ E3).
    assert (on_processor (PThreadManager_add (tid th) th (pid p)) k3 = Done ((), k2)) as E4.
    { unfold on_processor. change (processor k3) with (processor k1). rewrite Hpid, Hadd. simpl. unfold k2, with_thread, k3, set_processor. simpl.
      change (tid th) with n in Hnext. by rewrite Hnext. }
    by rewrite (st_bind_run _ _ _ _ _ E4).
  - split.
    + done.
    + by eapply stepped_trans.
    + exact Hput.
    + done.
    + split_and!; [exact Hnone|exact Eth|done].
    + change (pt_manager (processor k2)) with ((fun mgr => mkThreadManager (<[n := stack_thread entry arg g sp n]> (fifo_tasks mgr)) (fifo_queue mgr ++ [n])) <$> pt_manager (processor k)).
      by destruct (pt_manager (processor k)).
    + change (<[i := ProcThreadRel_add_thread n r]> (pt_rel_map (processor k)) = alter (ProcThreadRel_add_thread n) i (pt_rel_map (processor k))).
      symmetry. by apply alter_present.
    + done.
Qed.
End Making.
End ThreadMaking.
