(* ===== verification/ThreadCalls.v ===== *)
(** * The calls of a thread that keep the tables

    Most system calls of ch8 are [tame]: they change the entry of the process, contexts of its threads, bytes of its pages,
    files and pipes.  The rules below follow the text of a call; every tame call is then one proof by the rules. *)

From Stdlib Require Import Ascii String.
From stdpp Require Import strings.
From S2P Require Import Prelude Bytes Pipe Memory KernelContext TaskRel ProcManage ProcTree ProcInvariant Schedulers ThreadManage ThreadInvariant ThreadSystem Sync Signal Syscall PageTable AddressSpace SpaceTree SpaceMap SpaceInvariant PageManager BatchKernel TaskKernel VmKernel VmTheorems VmIsolation VmLoad SpaceFamily BlockStore File ForkKernel ForkInvariant ForkMaking ForkCalls Descriptors IpcKernel IpcCalls SyncSyscalls SyncInvariant ThreadKernel ThreadTables.

Module ThreadCalls.
Import Threads Family SpaceRoot VmInv ThreadTables ThreadSteps.
Section Calls.
Context `{PTC : PageTableCrate, HL : !HeapLaws, PTL : !PageTableLaws}.
Context {S : Type} `{!BlockStore S}.
Abbreviation Process := (Process (AddressSpace Sv39Manager) Ipc.Fd).
Abbreviation kernel := (kernel (AddressSpace Sv39Manager) Ipc.Fd (rest S)).
Implicit Types (k : kernel) (p q : Process) (T U : gmap (list Z) Z) (TT : gmap Z (gmap (list Z) Z)) (s : machine) (sp : AddressSpace Sv39Manager).

(** ** Rules *)
Section Rules.
Variables (t i : Z) (sp : AddressSpace Sv39Manager) (TT : gmap Z (gmap (list Z) Z)) (T : gmap (list Z) Z).
Hypothesis HT : TT !! i = Some T.

(** What holds before a tame step holds after it. *)
Definition lasting (Q : kernel → Prop) : Prop := ∀ k k', thread_inv k TT → running k t i sp → tame t i sp k TT k' → Q k → Q k'.
Definition tames (Q : kernel → Prop) {A} (f : st kernel A) : Prop := ∀ k a k', thread_inv k TT → running k t i sp → Q k →
  f k = Done (a, k') → tame t i sp k TT k'.

Lemma lasting_and Q R : lasting Q → lasting R → lasting (fun k => Q k ∧ R k).
Proof. intros HQ HR k k' Hi Hr Ht [H1 H2]. split; [by eapply HQ|by eapply HR]. Qed.
Lemma lasting_pure (P : Prop) : lasting (fun _ => P).
Proof. by intros k k'. Qed.
Lemma lasting_placed addr flags ptr : 0 ≤ addr < 2 ^ 38 → lasting (fun k => placed sp k addr flags ptr).
Proof. intros Ha k k' Hi Hr Ht Hpl. by eapply placed_tame. Qed.

Lemma tames_weaken (Q R : kernel → Prop) {A} (f : st kernel A) : (∀ k, R k → Q k) → tames Q f → tames R f.
Proof. intros HQ Hf k a k' Hi Hr HR. by eapply Hf, HQ. Qed.

Lemma tames_bind (Q : kernel → Prop) {A B} (f : st kernel A) (g : A → st kernel B) : lasting Q → tames Q f → (∀ a, tames Q (g a)) → tames Q (f ≫= g).
Proof.
  intros HQ Hf Hg k b k' Hi Hr Hk Hd. apply st_bind_Done in Hd as (a & k1 & H1 & H2). pose proof (Hf k a k1 Hi Hr Hk H1) as H3.
  pose proof (HQ k k1 Hi Hr H3 Hk) as Hk1. pose proof H3 as [[Hi1 _ _] Hr1 _]. eapply tame_trans; [exact H3|by eapply Hg].
Qed.

Lemma tames_ret Q {A} (a : A) : tames Q (mret a).
Proof. intros k b k' Hi Hr _ [= _ <-]. by eapply tame_refl. Qed.
Lemma tames_lift Q {A} (o : outcome A) : tames Q (lift o).
Proof. intros k b k' Hi Hr _. unfold lift. destruct o; [|done..]. intros [= _ <-]. by eapply tame_refl. Qed.

(** Reading steps, with what they tell. *)
Lemma tames_lift_bind (Q : kernel → Prop) {A B} (o : outcome A) (g : A → st kernel B) : (∀ a, o = Done a → tames Q (g a)) → tames Q (lift o ≫= g).
Proof.
  intros Hg k b k' Hi Hr Hk Hd. apply st_bind_Done in Hd as (a & k1 & H1 & H2). unfold lift in H1. destruct o as [x| |] eqn:E; [|done..].
  injection H1 as -> <-. by eapply (Hg a).
Qed.
Lemma tames_get (Q : kernel → Prop) {B} (g : kernel → st kernel B) : (∀ k0, tames Q (g k0)) → tames Q (get_st ≫= g).
Proof. intros Hg k b k' Hi Hr Hk Hd. rewrite (st_bind_run get_st _ _ _ _ eq_refl) in Hd. by eapply Hg. Qed.
Lemma tames_current (Q : kernel → Prop) {B} (g : Process → st kernel B) : (∀ p, address_space p = sp → pid p = i → tames Q (g p)) → tames Q (current_proc ≫= g).
Proof.
  intros Hg k b k' Hi Hr Hk Hd. apply st_bind_Done in Hd as (p & k1 & H1 & H2).
  destruct (current_proc_tame k t i sp Hr p k1 H1) as (-> & Hp & E). eapply (Hg p); [done| |done..]. by eapply ti_pid, Hp.
Qed.
Lemma tames_thread (Q : kernel → Prop) {B} (g : Thread → st kernel B) : (∀ th, tid th = t → tames Q (g th)) → tames Q (current_thread ≫= g).
Proof.
  intros Hg k b k' Hi Hr Hk Hd. apply st_bind_Done in Hd as (th & k1 & H1 & H2).
  destruct (current_thread_tame k TT t i sp Hi Hr th k1 H1) as (-> & _ & E). by eapply (Hg th).
Qed.
Lemma tames_ptr (Q : kernel → Prop) {B} addr flags (g : option Z → st kernel B) : (∀ ptr, tames (fun k => Q k ∧ placed sp k addr flags ptr) (g (Some ptr))) →
  tames Q (g None) → tames Q (user_ptr addr flags ≫= g).
Proof.
  intros Hs Hn k b k' Hi Hr Hk Hd. apply st_bind_Done in Hd as (o & k1 & H1 & H2).
  destruct (user_ptr_tame k t i sp Hr addr flags o k1 H1) as [-> E]. destruct o as [ptr|]; [|by eapply Hn]. by eapply (Hs ptr).
Qed.
Lemma tames_str (Q : kernel → Prop) {B} fuel ptr (g : list Z → st kernel B) : (∀ bs, tames Q (g bs)) → tames Q (user_str fuel ptr ≫= g).
Proof.
  intros Hg k b k' Hi Hr Hk Hd. apply st_bind_Done in Hd as (bs & k1 & H1 & H2). unfold user_str in H1.
  rewrite (st_bind_run get_st _ _ _ _ eq_refl) in H1. apply st_bind_Done in H1 as (l & k2 & H1 & [= _ <-]).
  unfold lift in H1. destruct (Fork.c_str _ _ _); [|done..]. injection H1 as _ <-. by eapply Hg.
Qed.

Lemma tames_translate (Q : kernel → Prop) {B} addr flags (g : option Z → st kernel B) : (∀ ptr, tames (fun k => Q k ∧ placed sp k addr flags ptr) (g (Some ptr))) →
  tames Q (g None) → tames Q (k ← get_st; o ← lift (translate addr flags sp (memory_of k)); g o).
Proof.
  intros Hs Hn k b k' Hi Hr Hk Hd. rewrite (st_bind_run get_st _ _ _ _ eq_refl) in Hd. apply st_bind_Done in Hd as (o & k1 & H1 & H2).
  unfold lift in H1. destruct (translate addr flags sp (memory_of k)) as [o'| |] eqn:E; [|done..]. injection H1 as -> <-.
  destruct o as [ptr|]; [|by eapply Hn]. by eapply (Hs ptr).
Qed.

(** Steps. *)
Lemma tames_update Q f : (∀ p, pid (f p) = pid p ∧ address_space (f p) = address_space p) → tames Q (update_current_proc f).
Proof. intros Hf k a k' Hi Hr _ Hd. by eapply update_current_tame. Qed.
Lemma tames_more_bind (Q : kernel → Prop) {A B} (f : st (Ipc.ipc S) A) (g : A → st kernel B) : lasting Q →
  (∀ a y y', f y = Done (a, y') → tames Q (g a)) → tames Q (on_more f ≫= g).
Proof.
  intros HQ Hg k b k' Hi Hr Hk Hd. apply st_bind_Done in Hd as (a & k1 & H1 & H2). destruct (on_more_tame k TT t i sp T Hi Hr HT f a k1 H1) as [H3 (y & Hy & _)].
  pose proof (HQ k k1 Hi Hr H3 Hk) as Hk1. pose proof H3 as [[Hi1 _ _] Hr1 _]. eapply tame_trans; [exact H3|by eapply (Hg a)].
Qed.
Lemma tames_more Q {A} (f : st (Ipc.ipc S) A) : tames Q (on_more f).
Proof. intros k a k' Hi Hr _ Hd. by destruct (on_more_tame k TT t i sp T Hi Hr HT f a k' Hd). Qed.
Lemma tames_files Q {A} (f : st (Desc.files S) A) : tames Q (on_files f).
Proof. apply tames_more. Qed.
Lemma tames_print Q bs : tames Q (print bs).
Proof. intros k a k' Hi Hr _ Hd. by eapply print_tame. Qed.
Lemma tames_write (Q : kernel → Prop) addr flags ptr bs : (∀ k, Q k → placed sp k addr flags ptr) → ForkCalls.buffer_ok addr (Z.of_nat (length bs)) →
  tames Q (on_machine (mc_on_mem (mem_write ptr bs))).
Proof. intros HQ Hb k a k' Hi Hr Hk Hd. eapply mem_write_tame; [done|done|exact HT|by apply HQ|exact Hb|exact Hd]. Qed.
Lemma tames_chars (Q : kernel → Prop) getchar addr flags ptr n : (∀ k, Q k → placed sp k addr flags ptr) → ForkCalls.only_reads getchar →
  ForkCalls.buffer_ok addr (Z.of_nat n) → tames Q (on_machine (Fork.read_chars getchar n ptr)).
Proof.
  intros HQ Hg Hb k a k' Hi Hr Hk Hd. unfold on_machine in Hd. apply bind_Done in Hd as ([u s] & Hd & [= _ <-]). destruct u.
  eapply store_tame; [done|done|exact HT|by apply HQ|exact Hb|by eapply ForkCalls.read_chars_written].
Qed.
Lemma tames_wake Q w : tames Q (wake w).
Proof. intros k a k' Hi Hr _ Hd. by eapply wake_tame. Qed.
Lemma tames_context Q c : tames Q (update_thread t (set_context c)).
Proof. intros k a k' Hi Hr _ Hd. eapply set_context_tame; [done|done|exact HT| |exact Hd]. apply Hr. Qed.

(** The relations of the processes change, and stay what ThreadSystem.v asks for. *)
Lemma rel_tame k pm : thread_inv k TT → running k t i sp → tsys_ok (T := Thread) (P := Process) (sys (set_processor pm k)) →
  proc_manager pm = proc_manager (processor k) → pt_manager pm = pt_manager (processor k) → tid2pid pm = tid2pid (processor k) →
  pt_current pm = pt_current (processor k) → tame t i sp k TT (set_processor pm k).
Proof.
  intros Hi Hr Hok E1 E2 E3 E4. assert (procs (set_processor pm k) = procs k) as Ep by (unfold procs; simpl; by rewrite E1).
  assert (threads_of (set_processor pm k) = threads_of k) as Et by (unfold threads_of; simpl; by rewrite E2).
  split; [split| |done].
  - split; [done|unfold spaces; rewrite Ep; apply Hi|rewrite Ep; apply Hi|rewrite Et; apply Hi|rewrite Ep, Et; simpl; rewrite E3; apply Hi].
  - intros j Hj. split; [intros p U Hp HU; exists p; rewrite Ep; split_and!; [done|apply proc_kept_refl|done|done]|].
    intros u th Hu Hth. rewrite Et. simpl. by rewrite E3.
  - destruct Hr as (Hc & Ht & _). simpl. by rewrite E3, E4.
  - destruct Hr as (Hc & Ht & p & Hp & E). split_and!; simpl; [by rewrite E4|by rewrite E3|]. exists p. by rewrite Ep.
Qed.

Lemma tames_wait Q c : tames Q (ask_processor (PThreadManager_wait c)).
Proof.
  intros k o k' Hi Hr _ Hd. unfold ask_processor in Hd. apply bind_Done in Hd as ([o' pm] & Hw & [= <- <-]).
  pose proof (emptied_wait _ _ _ _ Hw) as Hw'. destruct (twait_ok (sys k) c (ti_system _ _ Hi)) as (y & Hrun & Hok); [by exists t; apply Hr|].
  simpl in Hrun. rewrite Hw' in Hrun. simpl in Hrun. injection Hrun as <-.
  unfold PThreadManager_wait in Hw. apply bind_Done in Hw as (id & _ & Hw). apply bind_Done in Hw as (id2 & _ & Hw).
  apply bind_Done in Hw as (r & _ & Hw). destruct (if c =? usize_max then ProcThreadRel_wait_any_child r else _) as [a b]. injection Hw as <- <-. by apply rel_tame.
Qed.

Lemma tames_waittid Q c : tames Q (ask_processor (PThreadManager_waittid c)).
Proof.
  intros k o k' Hi Hr _ Hd. unfold ask_processor in Hd. apply bind_Done in Hd as ([o' pm] & Hw & [= <- <-]).
  pose proof (emptied_waittid _ _ _ _ Hw) as Hw'. destruct (twaittid_ok (sys k) c (ti_system _ _ Hi)) as (y & Hrun & Hok); [by exists t; apply Hr|].
  simpl in Hrun. rewrite Hw' in Hrun. simpl in Hrun. injection Hrun as <-.
  unfold PThreadManager_waittid in Hw. apply bind_Done in Hw as (id & _ & Hw). apply bind_Done in Hw as (id2 & _ & Hw).
  apply bind_Done in Hw as (r & _ & Hw). destruct (ProcThreadRel_wait_thread c r) as [a b]. injection Hw as <- <-. by apply rel_tame.
Qed.

(** A step on a primitive. *)
Lemma tames_masked Q {A} (f : st kernel A) : (∀ p k a k', current_proc k = Done (p, k) → f k = Done (a, k') →
    ∃ g m u k1, update_current_proc g k = Done (u, k1) ∧ k' = put_masking m k1 ∧ ∀ q, pid (g q) = pid q ∧ address_space (g q) = address_space q) →
  tames Q f.
Proof.
  intros Hf k a k' Hi Hr _ Hd. destruct (running_runs _ _ _ _ Hr) as (p & Hp & _).
  destruct (Hf p k a k' (current_proc_run _ _ _ _ Hp) Hd) as (g & m & u & k1 & H1 & -> & Hg).
  pose proof (update_current_tame k TT t i sp T Hi Hr HT g u k1 Hg H1) as H2. pose proof H2 as [[Hi1 _ _] Hr1 _].
  eapply tame_trans; [exact H2|]. by eapply (masking_tame k1).
Qed.

Lemma tames_semaphore Q {V} id (f : Semaphore → IntrMaskingInfo → outcome (V * Semaphore * IntrMaskingInfo)) : tames Q (on_semaphore id f).
Proof.
  apply tames_masked. intros p k a k' Hp Hd. unfold on_semaphore in Hd. rewrite Hp in Hd. simpl in Hd. apply bind_Done in Hd as (c & _ & Hd).
  apply bind_Done in Hd as ([[v c'] m] & _ & Hd). apply bind_Done in Hd as ([u k1] & H1 & [= _ <-]). by exists (fun p => set_semaphores (set_slot id c' (semaphore_list p)) p), m, u, k1.
Qed.
Lemma tames_mutex Q {V} id (f : MutexBlocking → IntrMaskingInfo → outcome (V * MutexBlocking * IntrMaskingInfo)) : tames Q (on_mutex id f).
Proof.
  apply tames_masked. intros p k a k' Hp Hd. unfold on_mutex in Hd. rewrite Hp in Hd. simpl in Hd. apply bind_Done in Hd as (c & _ & Hd).
  apply bind_Done in Hd as ([[v c'] m] & _ & Hd). apply bind_Done in Hd as ([u k1] & H1 & [= _ <-]). by exists (fun p => set_mutexes (set_slot id c' (mutex_list p)) p), m, u, k1.
Qed.
Lemma tames_condvar Q {V} id (f : Condvar → IntrMaskingInfo → outcome (V * Condvar * IntrMaskingInfo)) : tames Q (on_condvar id f).
Proof.
  apply tames_masked. intros p k a k' Hp Hd. unfold on_condvar in Hd. rewrite Hp in Hd. simpl in Hd. apply bind_Done in Hd as (c & _ & Hd).
  apply bind_Done in Hd as ([[v c'] m] & _ & Hd). apply bind_Done in Hd as ([u k1] & H1 & [= _ <-]). by exists (fun p => set_condvars (set_slot id c' (condvar_list p)) p), m, u, k1.
Qed.
End Rules.

(** ** The tame calls *)

(** Apply the rules along the text of a call. *)
Ltac tame_bind f :=
  lazymatch f with
  | current_proc => apply tames_current
  | current_thread => apply tames_thread
  | get_st => apply tames_get
  | user_ptr _ _ => apply tames_ptr
  | user_str _ _ => apply tames_str
  | lift _ => apply tames_lift_bind
  | on_more _ => eapply tames_more_bind; [eassumption| |]
  | _ => apply tames_bind
  end.
Ltac tame_call f :=
  lazymatch f with
  | match ?o with Some _ => _ | None => _ end => destruct o
  | if ?b then _ else _ => destruct b
  | let '(_, _) := ?x in _ => destruct x
  | mbind _ ?g => tame_bind g
  | mret _ => apply tames_ret
  | lift _ => apply tames_lift
  | update_current_proc _ => eapply tames_update; [eassumption|intros ?; split; reflexivity]
  | on_files _ => eapply tames_files; eassumption
  | on_more _ => eapply tames_more; eassumption
  | print _ => eapply tames_print; eassumption
  | wake _ => eapply tames_wake; eassumption
  | on_semaphore _ _ => eapply tames_semaphore; eassumption
  | on_mutex _ _ => eapply tames_mutex; eassumption
  | on_condvar _ _ => eapply tames_condvar; eassumption
  end.
Ltac tame_steps :=
  cbv zeta;
  repeat lazymatch goal with
  | |- lasting _ _ _ _ (fun k => _ ∧ _) => apply lasting_and
  | |- lasting _ _ _ _ (fun k => placed _ _ _ _ _) => eapply lasting_placed; eassumption
  | |- lasting _ _ _ _ _ => apply lasting_pure
  | |- tames _ _ _ _ _ ?f => tame_call f
  | |- ∀ x, _ => intros ?
  end.

Section Tame.
Variables (t i : Z) (sp : AddressSpace Sv39Manager) (TT : gmap Z (gmap (list Z) Z)) (T : gmap (list Z) Z).
Hypothesis HT : TT !! i = Some T.
Notation calm f := (tames t i sp TT (fun _ => True) f) (only parsing).

Lemma sync_calm : (∀ n, calm (semaphore_create n)) ∧ (∀ id, calm (semaphore_up id)) ∧ (∀ id, calm (semaphore_down id)) ∧
  (∀ b, calm (mutex_create b)) ∧ (∀ id, calm (mutex_unlock id)) ∧ (∀ id, calm (mutex_lock id)) ∧
  (∀ n, calm (condvar_create n)) ∧ (∀ id, calm (condvar_signal id)) ∧ (∀ id m, calm (condvar_wait id m)) ∧ (∀ e, calm (enable_deadlock_detect e)).
Proof using HT.
  split_and!; intros; unfold semaphore_create, semaphore_up, semaphore_down, mutex_create, mutex_unlock, mutex_lock, condvar_create, condvar_signal,
    condvar_wait, enable_deadlock_detect; tame_steps.
Qed.

Lemma plain_calm : (∀ c, calm (exit c)) ∧ calm getpid ∧ calm sched_yield ∧ calm gettid ∧ (∀ m, calm (sigprocmask m)).
Proof using HT. split_and!; intros; unfold exit, getpid, sched_yield, gettid, sigprocmask; tame_steps. Qed.

Lemma sigreturn_calm : calm sigreturn.
Proof using HT. unfold sigreturn. tame_steps. subst. by eapply tames_context. Qed.

Lemma write_calm fd buf count : 0 ≤ buf < 2 ^ 38 → calm (write fd buf count).
Proof using HT. intros Hb. unfold write. tame_steps. Qed.

Lemma read_calm getchar fd buf count : ForkCalls.only_reads getchar → ForkCalls.buffer_ok buf count → calm (read getchar fd buf count).
Proof using HT.
  intros Hg Hb. pose proof (proj1 Hb). assert (ForkCalls.buffer_ok buf (Z.of_nat (Z.to_nat count))) as Hb2.
  { destruct Hb. split; [done|]. pose proof (Z.mod_pos_bound buf page_size ltac:(done)). unfold page_size in *. lia. }
  unfold read. tame_steps.
  - eapply tames_chars; [exact HT|by intros ? [_ ?]|done|exact Hb2].
  - eapply tames_write; [exact HT|by intros ? [_ ?]|].
    match goal with H : Ipc.Fd_read _ _ _ _ = _ |- _ => apply IpcCalls.Fd_read_slice in H as -> end. by rewrite mem_read_length.
Qed.

Lemma pipe_calm addr : ForkCalls.buffer_ok addr 8 → ForkCalls.buffer_ok (addr + 8) 8 → calm (pipe addr).
Proof using HT.
  intros Hb Hb2. pose proof (proj1 Hb). pose proof (proj1 Hb2). unfold pipe. tame_steps.
  all: try match goal with H : usize_add _ _ = Done _ |- _ => apply checked_Done in H as [-> _] end.
  all: try (by eapply lasting_placed).
  - eapply tames_write; [exact HT|by intros ? [_ ?]|by rewrite le_encode_length].
  - eapply tames_write; [exact HT|by intros ? [_ ?]|by rewrite le_encode_length].
Qed.

Lemma clock_calm clock_id tp : ForkCalls.buffer_ok tp 16 → calm (clock_gettime clock_id tp).
Proof using HT.
  intros Hb. pose proof (proj1 Hb). unfold clock_gettime. tame_steps. eapply tames_write; [exact HT|by intros ? [_ ?]|].
  unfold Tasks.timespec_bytes. by rewrite length_app, !le_encode_length.
Qed.

Lemma sigaction_calm signum action old : 0 ≤ action < 2 ^ 38 → ForkCalls.buffer_ok old 16 → calm (sigaction signum action old).
Proof using HT.
  intros Ha Hb. pose proof (proj1 Hb). unfold sigaction. tame_steps.
  - unfold give_old_action. tame_steps. eapply tames_write; [exact HT|by intros ? [_ ?]|].
    unfold Ipc.SignalAction_bytes. by rewrite length_app, !le_encode_length.
  - unfold take_action. tame_steps.
Qed.

Lemma open_calm fuel path flags : 0 ≤ path < 2 ^ 38 → calm (open fuel path flags).
Proof using HT. intros Hp. unfold open. tame_steps. Qed.

Lemma close_calm fd : calm (close fd).
Proof using HT. unfold close. tame_steps. Qed.

Lemma wait_calm pid ptr : ForkCalls.buffer_ok ptr 4 → calm (wait pid ptr).
Proof using HT.
  intros Hb. pose proof (proj1 Hb). unfold wait. apply tames_current. intros p Hp _. apply tames_bind; [apply lasting_pure|by eapply tames_wait|].
  intros [[dead code]|]; [|apply tames_ret]. rewrite Hp. apply tames_translate; [|apply tames_ret]. intros a.
  apply tames_bind; [apply lasting_and; [apply lasting_pure|by eapply lasting_placed]| |intros ?; apply tames_ret].
  eapply tames_write; [exact HT|by intros ? [_ ?]|by rewrite le_encode_length].
Qed.

Lemma waittid_calm u : calm (waittid u).
Proof using HT.
  unfold waittid. apply tames_thread. intros th _. case_match; [apply tames_ret|]. apply tames_bind; [apply lasting_pure|by eapply tames_waittid|].
  intros ?. apply tames_ret.
Qed.
End Tame.
End Calls.
End ThreadCalls.
