(* ===== verification/ThreadLife.v ===== *)
(** * Processes with threads

    [kill], [fork] and [exec] of ch8: another process gets a signal, a process is added with a copy of the space of the
    caller, the process of the caller runs another program. *)

From Stdlib Require Import Ascii String.
From stdpp Require Import strings.
From S2P Require Import Prelude Bytes Memory KernelContext TaskRel ProcManage ProcTree ProcInvariant Schedulers ThreadManage ThreadInvariant ThreadSystem Sync Signal Syscall PageTable AddressSpace SpaceTree SpaceMap SpaceInvariant PageManager BatchKernel TaskKernel VmKernel VmTheorems VmIsolation VmLoad VmBoot SpaceFamily BlockStore File ForkKernel ForkInvariant ForkMaking ForkCalls Descriptors FileKernel IpcKernel IpcCalls SyncSyscalls SyncInvariant ThreadKernel ThreadSpaces ThreadTables ThreadMaking ThreadCalls.

Module ThreadLife.
Import Threads Family SpaceRoot VmInv VmLoad ThreadTables ThreadSteps ThreadMaking ThreadCalls.
Section Life.
Context `{PTC : PageTableCrate, HL : !HeapLaws, PTL : !PageTableLaws}.
Context {S : Type} `{!BlockStore S}.
Abbreviation Process := (Process (AddressSpace Sv39Manager) Ipc.Fd).
Abbreviation kernel := (kernel (AddressSpace Sv39Manager) Ipc.Fd (rest S)).
Implicit Types (k : kernel) (p q : Process) (T U : gmap (list Z) Z) (TT : gmap Z (gmap (list Z) Z)) (s : machine) (sp : AddressSpace Sv39Manager).

(** ** [kill] *)

(** Process [j], the caller's own or another, gets other signals. *)
Lemma signalled_stepped t i k TT sp j q g : thread_inv k TT → running k t i sp → procs k !! j = Some q → more_signals (signal q) g →
  tame t i sp k TT (put_proc j (set_signal g q) k).
Proof.
  intros Hi Hr Hq Hg. destruct (inv_managers _ _ Hi) as (pmgr & mgr & Hpm & Hm & Ep & Et & _). pose proof (ti_pid _ _ Hi j q Hq) as Hpid.
  set (k' := put_proc j _ k). assert (procs k' = <[j := set_signal g q]> (procs k)) as Epk by done.
  assert (spaces k' = spaces k) as Esp.
  { unfold spaces. rewrite Epk, fmap_insert. apply insert_id. by rewrite lookup_fmap, Hq. }
  destruct (self_keys k TT Hi) as [K1 K2 K3 K4 K5]. split; [split| |done].
  - split.
    + eapply keys_inv; [apply Hi| |exact (self_pid k TT Hi)|exact (self_tid k TT Hi)]. split; [done|done| |done|done].
      simpl. rewrite Hpm. simpl. f_equal. rewrite <-Ep. apply dom_insert_lookup_L. by exists q.
    + rewrite Esp. apply Hi.
    + rewrite Epk. intros l r [[<- <-]|[_ Hl]]%lookup_insert_Some; [done|by eapply ti_pid].
    + apply Hi.
    + intros u th l r Hu Ho Hl. rewrite Epk in Hl. apply lookup_insert_Some in Hl as [[<- <-]|[_ Hl]]; [by eapply (ti_satp _ _ Hi u th j q)|by eapply ti_satp].
  - intros l Hl. split; [|done]. intros p T Hp HT. destruct (decide (l = j)) as [->|Hne].
    + rewrite Hp in Hq. injection Hq as ->. exists (set_signal g q). rewrite Epk, lookup_insert_eq. by split_and!.
    + exists p. rewrite Epk, lookup_insert_ne by done. split_and!; [done|apply proc_kept_refl|done|done].
  - destruct Hr as (Hc & Ht & _). done.
  - destruct Hr as (Hc & Ht & p & Hp & E). split_and!; [done|done|]. rewrite Epk. destruct (decide (i = j)) as [->|Hne].
    + rewrite lookup_insert_eq. rewrite Hp in Hq. injection Hq as ->. by eexists.
    + rewrite lookup_insert_ne by done. by exists p.
Qed.

Lemma add_bit_more n g : more_signals g (IpcCalls.add_bit n g).
Proof. eexists. split; [reflexivity|]. intros b Hb. by rewrite Z.lor_spec, Hb. Qed.

Lemma kill_calm t i sp TT target signum : tames (S := S) t i sp TT (fun _ => True) (kill target signum).
Proof.
  intros k r k' Hi Hr _ Hd. destruct (inv_managers _ _ Hi) as (pmgr & mgr & Hpm & _ & Ep & _).
  unfold kill, PThreadManager_get_proc in Hd. rewrite Hpm in Hd. simpl in Hd. unfold ProcManager_get in Hd. rewrite <-Ep in Hd.
  destruct (procs k !! as_usize target) as [q|] eqn:Hq; [|injection Hd as _ <-; by eapply tame_refl].
  destruct (SignalNo_try_from signum) as [n|]; [|injection Hd as _ <-; by eapply tame_refl].
  case_bool_decide; [|injection Hd as _ <-; by eapply tame_refl].
  rewrite IpcCalls.add_signal_run in Hd. simpl in Hd. rewrite (update_proc_run k _ q _ Hq) in Hd. injection Hd as _ <-.
  eapply signalled_stepped; [done|done|exact Hq|apply add_bit_more].
Qed.

(** ** [fork] *)

(** The tables with process [c] of process [i], and its thread. *)
Definition with_child (i : Z) (c : Process) (th : Thread) s k : kernel :=
  let pm := processor k in
  mkKernel (mkPTM (<[pid c := ProcThreadRel_add_thread (tid th) (ProcThreadRel_new i)]> (<[pid c := ProcThreadRel_new i]> (alter (ProcThreadRel_add_child (pid c)) i (pt_rel_map pm))))
      ((fun m => mkProcManager (<[pid c := c]> (proc_table m))) <$> proc_manager pm) (<[tid th := pid c]> (tid2pid pm))
      ((fun mgr => mkThreadManager (<[tid th := th]> (fifo_tasks mgr)) (fifo_queue mgr ++ [tid th])) <$> pt_manager pm) (pt_current pm))
    (masking k) (mkRest (pid c + 1) (tid th + 1) (kernel_as (world k)) (more (world k)) s).

Definition counters_ok k : Prop := pid_counter (world k) < still_running ∧ tid_counter (world k) < usize_max.

Lemma next_ids k TT : thread_inv k TT → counters_ok k → as_usize (pid_counter (world k) + 1) = pid_counter (world k) + 1 ∧
  as_usize (tid_counter (world k) + 1) = tid_counter (world k) + 1.
Proof. intros Hi [H1 H2]. destruct (counters (sys k) (ti_system _ _ Hi)) as [E1 E2]. split; [by apply E1|by apply E2]. Qed.

Lemma unknown_proc k TT : thread_inv k TT → procs k !! pid_counter (world k) = None.
Proof.
  intros Hi. destruct (inv_managers _ _ Hi) as (_ & _ & _ & _ & _ & _ & Hd & _). apply not_elem_of_dom. rewrite Hd. apply not_elem_of_dom.
  destruct (fresh_pid_t (sys k) (ti_system _ _ Hi)) as [Hn _]. unfold fam in Hn. rewrite lookup_fmap in Hn. by apply fmap_None in Hn.
Qed.
Lemma unknown_thread k TT : thread_inv k TT → tid2pid (processor k) !! tid_counter (world k) = None.
Proof. intros Hi. apply (fresh_tid (sys k) (ti_system _ _ Hi)). Qed.

Lemma child_added t i k TT p c th s T' : thread_inv k TT → runs k t i p → counters_ok k → pid c = pid_counter (world k) → tid th = tid_counter (world k) →
  f_satp (context th) = SpaceRoot.satp_of (address_space c) → ForkMaking.new_space (mach (world k)) s (address_space c) T' →
  let k' := with_child i c th s k in
  (pm ← PThreadManager_add_proc (pid c) c i (processor k); PThreadManager_add (tid th) th (pid c) pm) = Done (processor k') ∧
  procs k' = <[pid c := c]> (procs k) ∧ threads_of k' = <[tid th := th]> (threads_of k) ∧ stepped t i k TT k' (<[pid c := T']> TT).
Proof.
  intros Hi (Hc & Ht & Hp) Hn Hpid Htid Hsat [Hsp K Hfr] k'. destruct (inv_managers _ _ Hi) as (pmgr & mgr & Hpm & Hm & Ep & Et & Hdp & Hdt).
  pose proof (unknown_proc k TT Hi) as Hnp. pose proof (unknown_thread k TT Hi) as Hnt. rewrite <-Hpid in Hnp. rewrite <-Htid in Hnt.
  destruct (tfork_ok (sys k) c th (ti_system _ _ Hi)) as (y & Hrun & Hok); [by split; [exists t|]|].
  simpl in Hrun. rewrite Hc in Hrun. simpl in Hrun. rewrite Ht in Hrun. simpl in Hrun.
  assert (procs k' = <[pid c := c]> (procs k)) as Epk by (unfold procs at 1; simpl; by rewrite Hpm, Ep).
  assert (threads_of k' = <[tid th := th]> (threads_of k)) as Etk by (unfold threads_of at 1; simpl; by rewrite Hm, Et).
  assert (∃ pm, PThreadManager_add_proc (pid c) c i (processor k) = Done pm ∧ PThreadManager_add (tid th) th (pid c) pm = Done (processor k')) as (pm & H1 & H2).
  { unfold k', with_child. simpl. rewrite Hpm, Hm. unfold PThreadManager_add_proc. rewrite Hpm. eexists. split; [done|].
    unfold PThreadManager_add. simpl. rewrite Hm. simpl. by rewrite lookup_insert_eq. }
  split_and!; [by rewrite H1|done|done|]. pose proof (emptied_add_proc _ _ _ _ _ H1) as E1. rewrite Hpid in E1. rewrite E1 in Hrun. simpl in Hrun.
  destruct (emptied_add _ _ _ _ _ H2) as (pm2 & E2 & E3). rewrite Htid, Hpid in E2. rewrite E2 in Hrun. simpl in Hrun. injection Hrun as <-.
  apply emptied_sys in Hok. rewrite E3 in Hok. destruct (next_ids k TT Hi Hn) as [N1 N2]. rewrite N1, N2, <-Hpid, <-Htid in Hok.
  destruct (family_push (spaces k) TT (mach (world k)) (pid c) (address_space c) T' s (ti_family _ _ Hi) K Hsp Hfr) as [Hf Hal].
  assert (i ≠ pid c) as Hic by congruence.
  split.
  - split; [exact Hok| | | |].
    + unfold spaces at 1. by rewrite Epk, fmap_insert.
    + rewrite Epk. intros j q [[<- <-]|[_ Hq]]%lookup_insert_Some; [done|by eapply ti_pid].
    + rewrite Etk. intros u x [[<- <-]|[_ Hu]]%lookup_insert_Some; [done|by eapply ti_tid].
    + rewrite Epk, Etk. intros u x j q Hu Ho Hq. simpl in Ho. apply lookup_insert_Some in Hu as [[<- <-]|[Hne Hu]].
      * rewrite lookup_insert_eq in Ho. injection Ho as <-. rewrite lookup_insert_eq in Hq. by injection Hq as <-.
      * rewrite lookup_insert_ne in Ho by done. apply lookup_insert_Some in Hq as [[<- <-]|[_ Hq]]; [|by eapply ti_satp].
        destruct (owner_proc k TT u (pid c) Hi Ho) as (q & _ & _ & Hq & _). by rewrite Hq in Hnp.
  - intros j Hj. split.
    + intros q U Hq HU. assert (j ≠ pid c) by congruence. exists q. rewrite Epk, !lookup_insert_ne by done.
      split_and!; [done|apply proc_kept_refl|done|]. apply (Hal j); [|done]. unfold spaces. by rewrite lookup_fmap, Hq.
    + intros u x Ho Hu. assert (u ≠ tid th) by congruence. rewrite Etk. simpl. by rewrite !lookup_insert_ne.
  - simpl. split; [done|]. rewrite lookup_insert_ne by congruence. done.
Qed.

(** The first thread of a process. *)
Definition main_of k (i : Z) (th : Thread) : Prop := ∃ r u l, pt_rel_map (processor k) !! i = Some r ∧ threads r = u :: l ∧ threads_of k !! u = Some th.

Lemma main_exists k TT t i : thread_inv k TT → tid2pid (processor k) !! t = Some i → ∃ th, main_of k i th ∧ tid2pid (processor k) !! tid th = Some i.
Proof.
  intros Hi Ht. pose proof (inv_pt _ _ Hi) as Hpt. destruct (proj1 (pi_own _ Hpt t i) Ht) as (r & Hr & Hin). simpl in Hr.
  destruct (threads r) as [|u l] eqn:E; [by apply elem_of_nil in Hin|].
  assert (tid2pid (processor k) !! u = Some i) as Hu by (apply (pi_own _ Hpt u i); exists r; split; [done|rewrite E; by left]).
  destruct (owner_proc k TT u i Hi Hu) as (_ & th & _ & _ & Hth & _). exists th. split; [by exists r, u, l|].
  by rewrite (ti_tid _ _ Hi u th Hth).
Qed.

Lemma main_thread_run k TT i th : thread_inv k TT → main_of k i th → main_thread i k = Done (th, k).
Proof.
  intros Hi (r & u & l & Hr & E & Hth). destruct (inv_managers _ _ Hi) as (_ & mgr & _ & Hm & _ & Et & _).
  unfold main_thread, PThreadManager_get_thread. rewrite Hr. simpl. rewrite E. simpl. unfold PThreadManager_get_task. rewrite Hm. simpl.
  unfold ThreadManager_get. by rewrite <-Et, Hth.
Qed.

(** A copy of [p], with number [n], in the space [ns]. *)
Definition forked_proc (n : Z) (ns : AddressSpace Sv39Manager) p : Process :=
  mkProcess n ns (Files.clone_table (fd_table p)) (SignalImpl_from_fork (signal p)) [] [] [].

(** The counters moved on, and the machine with them. *)
Definition moved s k : kernel :=
  set_world (mkRest (as_usize (pid_counter (world k) + 1)) (as_usize (tid_counter (world k) + 1)) (kernel_as (world k)) (more (world k)) s) k.

Lemma process_fork_eq fuel k TT i p main : thread_inv k TT → pid p = i → main_of k i main →
  Process_fork fuel p k =
    ('(ns, s) ← ForkMaking.clone_space fuel (kernel_as (world k)) (address_space p) (mach (world k));
     Done (Some (forked_proc (pid_counter (world k)) ns p, mkThread (tid_counter (world k)) (mkForeign (f_context (context main)) (Threads.satp_of ns))),
       moved s k)).
Proof.
  intros Hi Hpid Hmain. pose proof Hmain as (r & u & l & Hr & E & Hth). destruct (inv_managers _ _ Hi) as (_ & mgr & _ & Hm & _ & Et & _).
  unfold Process_fork, new_pid, ForkMaking.clone_space, map_portal, on_machine, mbind, st_bind, get_st. simpl.
  destruct (AddressSpace_new (mach (world k))) as [[a s1]| |]; [|done..]. simpl. destruct (cloneself fuel (address_space p) a s1) as [[b s2]| |]; [|done..]. simpl.
  unfold main_thread, PThreadManager_get_thread. simpl. rewrite Hpid, Hr. simpl. rewrite E. simpl. unfold PThreadManager_get_task. rewrite Hm. simpl.
  unfold ThreadManager_get. by rewrite <-Et, Hth.
Qed.

Lemma fork_eq fuel k TT t i p main : thread_inv k TT → runs k t i p → counters_ok k → main_of k i main →
  fork fuel k =
    ('(ns, s) ← ForkMaking.clone_space fuel (kernel_as (world k)) (address_space p) (mach (world k));
     ctx ← LocalContext_set_a 0 0 (f_context (context main));
     let n := pid_counter (world k) in
     Done (as_isize n, with_child i (forked_proc n ns p) (mkThread (tid_counter (world k)) (mkForeign ctx (Threads.satp_of ns))) s k)).
Proof.
  intros Hi Hr Hn Hmain. pose proof Hr as (Hc & Ht & Hp). pose proof (ti_pid _ _ Hi i p Hp) as Hpid. destruct (next_ids k TT Hi Hn) as [N1 N2].
  unfold fork. rewrite (st_bind_run _ _ _ _ _ (current_proc_run _ _ _ _ Hr)). unfold mbind at 1, st_bind at 1. rewrite (process_fork_eq fuel k TT i p main Hi Hpid Hmain).
  destruct (ForkMaking.clone_space _ _ _ _) as [[ns s]| |]; [|done..]. simpl.
  unfold mbind at 1, st_bind at 1, lift. simpl. unfold mbind at 1, st_bind at 1.
  destruct (LocalContext_set_a 0 0 (f_context (context main))) as [ctx| |]; [|done..]. simpl. rewrite Hpid.
  set (c := forked_proc _ ns p). set (th := mkThread _ (mkForeign ctx _)). destruct (inv_managers _ _ Hi) as (pmgr & mgr & Hpm & Hm & _).
  unfold on_processor, mbind, st_bind, PThreadManager_add_proc, set_processor, with_child, moved. simpl. rewrite Hpm. simpl. unfold PThreadManager_add. simpl. rewrite Hm. simpl.
  change (tid th) with (tid_counter (world k)). change (pid c) with (pid_counter (world k)). rewrite lookup_insert_eq. simpl. by rewrite N1, N2.
Qed.

Lemma fork_stepped fuel k TT t i p T r k' : thread_inv k TT → runs k t i p → TT !! i = Some T → counters_ok k →
  (∀ ar, ar ∈ areas (address_space p) → ar.2 - ar.1 ≤ Z.of_nat fuel) → fork fuel k = Done (r, k') → ∃ TT', stepped t i k TT k' TT'.
Proof.
  intros Hi Hr HT Hn Hfuel Hd. pose proof Hr as (Hc & Ht & Hp). destruct (main_exists k TT t i Hi Ht) as (main & Hmain & _).
  rewrite (fork_eq fuel k TT t i p main Hi Hr Hn Hmain) in Hd. apply bind_Done in Hd as ([ns s] & H1 & Hd). apply bind_Done in Hd as (ctx & _ & [= _ <-]).
  assert (space_inv portal (mach (world k)) (address_space p) T) as Hsp by (eapply (runner_space k TT t i); [done|by split_and!; [..|by exists p]|done]).
  destruct (ForkMaking.clone_run fuel (kernel_as (world k)) (address_space p) (mach (world k)) T Hsp Hfuel) as [[Hp' _]|(ns' & s' & T' & Hrun & Hnew & _)];
    [by rewrite Hp' in H1|]. rewrite H1 in Hrun. injection Hrun as <- <-.
  eexists. eapply (child_added t i k TT p (forked_proc (pid_counter (world k)) ns p)); [done|done|done|done|done|done|exact Hnew].
Qed.

(** ** [exec] *)

(** The program is in the space of the process, whose first thread starts it on an empty stack. *)
Record program_in (elf : Vm.ElfFile) s0 (v : Vm.Process) s T : Prop := {
  pi_space : ForkMaking.new_space s0 s (Vm.address_space v) T;
  pi_areas : areas (Vm.address_space v) = (seg_range <$> loads (Vm.elf_programs elf)) ++ [stack_range];
  pi_segs : Forall (seg_in s T (Vm.elf_input elf)) (loads (Vm.elf_programs elf));
  pi_stack x : 0 ≤ x < 2 * page_size → byte_at (mc_mem s) T (stack_range.1 * page_size + x) = Some 0;
  pi_entry : LocalContext_pc (f_context (Vm.context v)) = Vm.elf_entry_point elf ∧ LocalContext_sp (f_context (Vm.context v)) = Done (2 ^ 38);
  pi_satp : f_satp (Vm.context v) = SpaceRoot.satp_of (Vm.address_space v);
}.

Lemma program_portal ks elf s0 v s1 T : loaded_process elf s0 v s1 T → ∃ s, Vm.share_portal ks (Vm.address_space v) s1 = Done ((), s) ∧ program_in elf s0 v s T.
Proof.
  intros L. assert (ForkMaking.new_space s0 s1 (Vm.address_space v) T) as Hn by (split; apply L).
  destruct (ForkMaking.portal_run ks _ _ _ _ Hn) as (s & Hs & Hn2 & _ & K & Hm). exists s. split; [done|].
  pose proof (lp_areas _ _ _ _ _ L) as Ha. pose proof (lp_segs _ _ _ _ _ L) as Hsegs. split; [done|done| | |apply L|apply L].
  - rewrite Forall_forall in Hsegs |- *. intros ph Hph. eapply seg_keep; [apply L|exact K| |done|by apply Hsegs].
    rewrite Ha. apply elem_of_app. left. by apply list_elem_of_fmap_2.
  - intros x Hx. rewrite <-(lp_stack _ _ _ _ _ L x Hx). eapply byte_keep; [apply L|exact K| |apply Hm].
    exists stack_range. split; [rewrite Ha; apply elem_of_app; right; by apply list_elem_of_singleton|].
    unfold SpaceInvariant.inside, stack_range in *. simpl. rewrite Z.div_add_l by done.
    assert (0 ≤ x / page_size < 2); [|lia]. split; [apply Z.div_pos|apply Z.div_lt_upper_bound]; unfold page_size in *; lia.
Qed.

Definition elf_proc (n : Z) (v : Vm.Process) : Process := mkProcess n (Vm.address_space v) Ipc.standard_fds SignalImpl_new [] [] [].
Definition elf_thread (n : Z) (v : Vm.Process) : Thread := mkThread n (mkForeign (f_context (Vm.context v)) (f_satp (Vm.context v))).

Lemma thread_from_elf_run fuel elf k : elf_ok fuel elf →
  if riscv_program elf then
    (Process_from_elf fuel elf k = Panic ∧ exhausted (M := Sv39Manager) (pages_needed elf) (mach (world k))) ∨
    ∃ v s T, Process_from_elf fuel elf k = Done (Some (elf_proc (pid_counter (world k)) v, elf_thread (tid_counter (world k)) v), moved s k) ∧
      program_in elf (mach (world k)) v s T
  else Process_from_elf fuel elf k = Done (None, set_mach (mach (world k)) k).
Proof.
  intros Hok. destruct (riscv_program elf) eqn:Hrv.
  - destruct (process_new_run fuel elf (mach (world k)) Hok Hrv) as [[Hp Hex]|(v & s1 & T & Hp & L)]; [left|right].
    { split; [|done]. unfold Process_from_elf, mbind, st_bind, on_machine. by rewrite Hp. }
    destruct (program_portal (kernel_as (world k)) _ _ _ _ _ L) as (s & Hs & Hin). exists v, s, T. split; [|done].
    assert (on_machine (Vm.Process_new fuel elf) k = Done (Some v, set_mach s1 k)) as E1 by (unfold on_machine; by rewrite Hp).
    assert (map_portal (Vm.address_space v) (set_mach s1 k) = Done ((), set_mach s k)) as E2.
    { unfold map_portal. rewrite (st_bind_run get_st _ _ _ _ eq_refl). unfold on_machine. change (mach (world (set_mach s1 k))) with s1.
      change (kernel_as (world (set_mach s1 k))) with (kernel_as (world k)). by rewrite Hs. }
    unfold Process_from_elf. rewrite (st_bind_run _ _ _ _ _ E1), (st_bind_run _ _ _ _ _ E2). reflexivity.
  - unfold Process_from_elf, mbind, st_bind, on_machine. assert (Vm.Process_new fuel elf (mach (world k)) = Done (None, mach (world k))) as Hn.
    { unfold Vm.Process_new. fold (riscv_program elf). by rewrite Hrv. }
    by rewrite Hn.
Qed.

(** The process in its new space, and thread [t] with the context of the program. *)
Definition exec_state (v : Vm.Process) s (t i : Z) p k : kernel :=
  let k1 := put_proc i (set_space (Vm.address_space v) p) (moved s k) in
  set_processor (PThreadManager_set_manager (mkThreadManager (alter (fun th => mkThread (tid th) (context (elf_thread 0 v))) t (threads_of k))
    (from_option fifo_queue [] (pt_manager (processor k)))) (processor k1)) k1.

(** [t] is the only thread of process [i]. *)
Definition alone_in k (t i : Z) : Prop := ∀ u, tid2pid (processor k) !! u = Some i → u = t.

Lemma alone_main k TT t i : thread_inv k TT → tid2pid (processor k) !! t = Some i → alone_in k t i → ∃ th, main_of k i th ∧ tid th = t.
Proof. intros Hi Ht Hal. destruct (main_exists k TT t i Hi Ht) as (th & Hm & Hu). exists th. split; [done|]. by apply Hal. Qed.

Lemma thread_exec_run fuel elf k TT t i p v s T' : thread_inv k TT → runs k t i p → counters_ok k → alone_in k t i →
  Process_from_elf fuel elf k = Done (Some (elf_proc (pid_counter (world k)) v, elf_thread (tid_counter (world k)) v), moved s k) →
  program_in elf (mach (world k)) v s T' →
  let k' := exec_state v s t i p k in
  Process_exec fuel elf p k = Done ((), k') ∧ stepped t i k TT k' (<[i := T']> TT) ∧
  procs k' = <[i := set_space (Vm.address_space v) p]> (procs k) ∧
  threads_of k' = alter (fun th => mkThread (tid th) (Vm.context v)) t (threads_of k).
Proof.
  intros Hi Hr Hn Hal Hrun [Hsp Ha Hsegs Hst He Hsat] k'. pose proof Hr as (Hc & Ht & Hp). pose proof (ti_pid _ _ Hi i p Hp) as Hpid.
  destruct (inv_managers _ _ Hi) as (pmgr & mgr & Hpm & Hm & Ep & Et & Hdp & Hdt). destruct (alone_main k TT t i Hi Ht Hal) as (th & Hmain & Htid).
  destruct (next_ids k TT Hi Hn) as [N1 N2]. destruct Hn as [Hn1 Hn2]. destruct Hsp as [Hinv K Hfr].
  destruct (family_push (spaces k) TT (mach (world k)) i (Vm.address_space v) T' s (ti_family _ _ Hi) K Hinv Hfr) as [Hf Halone].
  assert (threads_of k' = alter (fun th => mkThread (tid th) (Vm.context v)) t (threads_of k)) as Etk.
  { unfold threads_of at 1. simpl. destruct (Vm.context v) as [c m]. done. }
  split_and!; [| |done|exact Etk].
  - set (k1 := put_proc i (set_space (Vm.address_space v) p) (moved s k)).
    unfold Process_exec. rewrite (st_bind_run _ _ _ _ _ Hrun), (st_bind_run _ _ _ _ _ (lift_run (unwrap (Some (elf_proc _ v, _))) _ _ eq_refl)).
    assert (update_current_proc (set_space (address_space (elf_proc (pid_counter (world k)) v))) (moved s k) = Done ((), k1)) as E1.
    { by apply (update_current_proc_run (moved s k) t i p). }
    rewrite (st_bind_run _ _ _ _ _ E1). assert (main_thread (pid p) k1 = Done (th, k1)) as E2.
    { destruct Hmain as (r & u & l & H1 & H2 & H3). unfold main_thread, PThreadManager_get_thread. simpl. rewrite Hpid, H1. simpl. rewrite H2. simpl.
      unfold PThreadManager_get_task. simpl. rewrite Hm. simpl. unfold ThreadManager_get. by rewrite <-Et, H3. }
    rewrite (st_bind_run _ _ _ _ _ E2). unfold update_thread, on_processor. simpl. rewrite Hm. simpl. rewrite Htid.
    unfold k', exec_state, k1. rewrite Hm, Et. done.
  - apply (replaced_inv t i k TT p (set_space (Vm.address_space v) p)); [done|done| |exact Hf|intros j Hj; by rewrite lookup_insert_ne|intros j _; apply Halone].
    destruct (self_keys k TT Hi) as [K1 K2 K3 K4 K5]. pose proof (self_pid k TT Hi) as P1. pose proof (self_tid k TT Hi) as P2. split; [split| | | | |].
    + done.
    + done.
    + simpl. rewrite Hpm. simpl. f_equal. rewrite <-Ep. apply dom_insert_lookup_L. by exists p.
    + simpl. rewrite Hm. simpl. f_equal. by rewrite dom_alter_L, Et.
    + exact K5.
    + done.
    + simpl. rewrite N1. lia.
    + simpl. rewrite N2. lia.
    + done.
    + intros u th' Hu. rewrite Etk in Hu. destruct (decide (u = t)) as [->|Hne].
      * rewrite lookup_alter_eq in Hu. apply fmap_Some in Hu as (th0 & H0 & ->). exists th0. split_and!; [done|done|]. by rewrite decide_True.
      * rewrite lookup_alter_ne in Hu by done. exists th'. split_and!; [done|done|]. rewrite decide_False; [done|]. intros Ho. by apply Hne, Hal.
Qed.

(** *** The file *)

(** The program that [exec] would start. *)
Definition program_ok (fuel : nat) (parse : list Z → option Vm.ElfFile) (path count : Z) k : Prop := ∀ fd k1 elf k2,
  named_file path count k = Done (Some fd, k1) → file_program fuel parse fd k1 = Done (elf, k2) → elf_ok fuel elf.

Lemma set_more_id k : set_more (more (world k)) k = k.
Proof. by destruct k as [? ? []]. Qed.

Lemma on_files_more {A} (f : st (Desc.files S) A) k a k' : on_files f k = Done (a, k') → ∃ y, k' = set_more y k.
Proof. unfold on_files, on_more. intros ([b y] & _ & [= _ <-])%bind_Done. by exists y. Qed.

Lemma thread_named_file_more path count k o k' t i sp : running k t i sp → named_file path count k = Done (o, k') → ∃ y, k' = set_more y k.
Proof.
  intros Hr Hd. unfold named_file in Hd. apply st_bind_Done in Hd as (ptr & k1 & H1 & Hd). destruct (user_ptr_tame k t i sp Hr _ _ _ _ H1) as [-> _].
  destruct ptr as [ptr|]; [|injection Hd as _ <-; exists (more (world k)); by rewrite set_more_id].
  rewrite (st_bind_run get_st _ _ _ _ eq_refl) in Hd. by eapply on_files_more.
Qed.

Lemma thread_program_more fuel parse fd k elf k' : file_program fuel parse fd k = Done (elf, k') → ∃ y, k' = set_more y k.
Proof.
  unfold file_program. intros Hd. apply st_bind_Done in Hd as (data & k1 & H1 & Hd). destruct (on_files_more _ _ _ _ H1) as [y ->].
  unfold lift in Hd. destruct (unwrap (parse data)); [|done..]. injection Hd as _ <-. by exists y.
Qed.

Lemma more_step t i k TT sp T y : thread_inv k TT → running k t i sp → TT !! i = Some T → tame t i sp k TT (set_more y k).
Proof.
  intros Hi Hr HT. destruct (on_more_tame (A := unit) k TT t i sp T Hi Hr HT (fun _ => Done ((), y)) () (set_more y k)) as [H1 _]; [done|exact H1].
Qed.

Lemma exec_stepped fuel parse path count k TT t i p T r k' : thread_inv k TT → runs k t i p → TT !! i = Some T → counters_ok k → alone_in k t i →
  program_ok fuel parse path count k → exec fuel parse path count k = Done (r, k') → ∃ TT', stepped t i k TT k' TT'.
Proof.
  intros Hi Hr HT Hn Hal Hok Hd. assert (running k t i (address_space p)) as Hrun by (destruct Hr as (? & ? & ?); split_and!; [done..|by exists p]).
  unfold exec in Hd. apply st_bind_Done in Hd as (o & k1 & H1 & Hd). destruct (thread_named_file_more _ _ _ _ _ _ _ _ Hrun H1) as [y ->].
  pose proof (more_step t i k TT _ T y Hi Hrun HT) as Ht1. pose proof Ht1 as [[Hi1 _ _] Hr1 _]. destruct o as [fd|].
  - rewrite (st_bind_run _ _ _ _ _ (current_proc_run (set_more y k) t i p Hr)) in Hd.
    apply st_bind_Done in Hd as (elf & k2 & H2 & Hd). pose proof (Hok fd _ elf k2 H1 H2) as Helf. destruct (thread_program_more _ _ _ _ _ _ H2) as [y2 ->].
    pose proof (more_step t i k TT _ T y2 Hi Hrun HT) as Ht2. pose proof Ht2 as [[Hi2 _ _] Hr2 _].
    change (set_more y2 (set_more y k)) with (set_more y2 k) in Hd. apply st_bind_Done in Hd as (u & k3 & H3 & [= _ <-]).
    pose proof (thread_from_elf_run fuel elf (set_more y2 k) Helf) as Hfe. destruct (riscv_program elf).
    + destruct Hfe as [[Hpn _]|(v & s & T' & Hfe & Hin)]; [unfold Process_exec, mbind, st_bind in H3; by rewrite Hpn in H3|].
      destruct (thread_exec_run fuel elf (set_more y2 k) TT t i p v s T' Hi2 Hr Hn Hal Hfe Hin) as (He & Hst & _). rewrite He in H3. injection H3 as _ <-.
      eexists. eapply stepped_trans; [apply Ht2|exact Hst].
    + unfold Process_exec in H3. by rewrite (st_bind_run _ _ _ _ _ Hfe) in H3.
  - exists TT. eapply stepped_trans; [apply Ht1|].
    assert (tames t i (address_space p) TT (fun _ => True) (names ← on_files Desc.FS_readdir; names ← lift (unwrap names);
      print (concat ((fun name => name ++ [10]) <$> names) ++ [10]);; mret (-1))) as Hcalm.
    { apply tames_bind; [apply lasting_pure|by eapply tames_files|]. intros ns. apply tames_lift_bind. intros ns' _.
      apply tames_bind; [apply lasting_pure|by eapply tames_print|intros ?; apply tames_ret]. }
    exact (tm_step _ _ _ _ _ _ (Hcalm _ _ _ Hi1 Hr1 I Hd)).
Qed.

(** ** [thread_create] *)
Lemma create_stepped fuel entry arg k TT t i p T r k' : thread_inv k TT → runs k t i p → TT !! i = Some T → counters_ok k → (2 ≤ fuel)%nat →
  thread_create fuel entry arg k = Done (r, k') → ∃ TT', stepped t i k TT k' TT'.
Proof.
  intros Hi Hr HT [_ Hn] Hfuel Hd. destruct (create_run fuel t i k TT p T entry arg Hi Hr HT Hfuel Hn) as [[Hp _]|(g & k2 & T' & Hrun & Hc)]; [by rewrite Hp in Hd|].
  rewrite Hrun in Hd. injection Hd as _ <-. eexists. apply Hc.
Qed.
End Life.
End ThreadLife.
