(* ===== verification/ThreadRounds.v ===== *)
(** * The rounds of the kernel with threads

    One round of the loop of ch8: a thread is chosen, runs until it traps, its call is served, its signals are handled, and
    it goes back to the queue, sleeps or ends.  The invariant of ThreadTables.v holds after every round, and the processes
    none of whose threads ran are as they were. *)

From Stdlib Require Import Ascii String.
From stdpp Require Import strings.
From S2P Require Import Prelude Bytes Memory KernelContext TaskRel ProcManage ProcTree ProcInvariant Schedulers ThreadManage ThreadInvariant ThreadSystem Sync Signal Syscall PageTable AddressSpace SpaceTree SpaceMap SpaceInvariant PageManager BatchKernel TaskKernel VmKernel VmTheorems VmIsolation VmLoad SpaceFamily BlockStore File ForkKernel ForkInvariant ForkMaking ForkCalls Descriptors FileKernel IpcKernel IpcCalls SyncSyscalls SyncInvariant ThreadKernel ThreadSpaces ThreadTables ThreadMaking ThreadCalls ThreadLife.

Module ThreadRounds.
Import Threads Family SpaceRoot VmInv VmLoad ThreadTables ThreadSteps ThreadMaking ThreadCalls ThreadLife.

(** The tables after an exit. *)
Section Tables.
Context {T P : Type}.
Implicit Types (pm : PThreadManager (ThreadManager T) (ProcManager P)).

Lemma pt_reparent_no_init cs : ∀ rm rm', rm !! 0 = None → PThreadManager_reparent cs rm = Done rm' → rm' !! 0 = None.
Proof.
  destruct cs as [|c cs]; intros rm rm' H0; simpl; [by intros [= <-]|]. intros (r & Hr & Hd)%bind_Done.
  apply bind_Done in Hd as (z & Hz & _). destruct (decide (c = 0)) as [->|Hc]; [by rewrite H0 in Hr|].
  rewrite lookup_insert_ne in Hz by done. by rewrite H0 in Hz.
Qed.

(** What an exit of thread [t] of process [i] leaves. *)
Record left pm (t i code : Z) (r : ProcThreadRel) pm' : Prop := {
  le_owner : tid2pid pm' = delete t (tid2pid pm);
  le_threads : fifo_tasks <$> pt_manager pm' = delete t ∘ fifo_tasks <$> pt_manager pm;
  le_current : pt_current pm' = None;
  le_procs : if decide (threads (ProcThreadRel_del_thread t code r) = [])
    then proc_table <$> proc_manager pm' = delete i ∘ proc_table <$> proc_manager pm ∧ (i = 0 → pt_rel_map pm' !! 0 = None)
    else proc_manager pm' = proc_manager pm;
}.

Lemma left_run pm t i code r pm' : pt_current pm = Some t → tid2pid pm !! t = Some i → pt_rel_map pm !! i = Some r →
  PThreadManager_make_current_exited code pm = Done pm' → left pm t i code r pm'.
Proof.
  intros Hc Ht Hr Hd. unfold PThreadManager_make_current_exited in Hd. rewrite Hc in Hd. apply bind_Done in Hd as (mgr & Hm & Hd). rewrite Ht in Hd. simpl in Hd.
  destruct (pt_manager pm) as [m|] eqn:Em; [|done]. injection Hm as ->. rewrite Hr in Hd.
  destruct (threads (ProcThreadRel_del_thread t code r)) as [|u l] eqn:E.
  - apply bind_Done in Hd as (pm1 & Hd & [= <-]). unfold PThreadManager_del_proc in Hd. simpl in Hd. apply bind_Done in Hd as (pmgr & Hp & Hd).
    destruct (proc_manager pm) as [m2|] eqn:Ep; [|done]. injection Hp as ->. rewrite lookup_insert_eq in Hd. simpl in Hd.
    apply bind_Done in Hd as (rm & Hrm & [= <-]). split; simpl; [done|by rewrite Em|done|]. rewrite E, decide_True, Ep by done. split; [done|].
    intros ->. eapply pt_reparent_no_init; [|exact Hrm]. apply lookup_alter_None. by rewrite lookup_delete_eq.
  - injection Hd as <-. split; simpl; [done|by rewrite Em|done|]. by rewrite E, decide_False.
Qed.
End Tables.

Section Rounds.
Context `{PTC : PageTableCrate, HL : !HeapLaws, PTL : !PageTableLaws}.
Context {S : Type} `{!BlockStore S}.
Abbreviation Process := (Process (AddressSpace Sv39Manager) Ipc.Fd).
Abbreviation kernel := (kernel (AddressSpace Sv39Manager) Ipc.Fd (rest S)).
Implicit Types (k : kernel) (p q : Process) (T U : gmap (list Z) Z) (TT : gmap Z (gmap (list Z) Z)) (s : machine) (sp : AddressSpace Sv39Manager).

(** ** The end of a turn *)

(** A turn of a thread of process [i] that left nobody running. *)
Definition turned (i : Z) k TT k' : Prop := ∃ TT', thread_inv k' TT' ∧ others_stay i k TT k' TT' ∧ pt_current (processor k') = None.

Lemma stepped_turned t i k TT k1 TT1 k' : stepped t i k TT k1 TT1 → turned i k1 TT1 k' → turned i k TT k'.
Proof. intros [_ O1 _] (TT' & Hi & O2 & Hc). exists TT'. split_and!; [done|by eapply threads_stay_trans|done]. Qed.

(** Nobody runs any more, the tables are the same but for the queue. *)
Lemma stop_turned i k TT pm : thread_inv k TT → proc_manager pm = proc_manager (processor k) → fifo_tasks <$> pt_manager pm = fifo_tasks <$> pt_manager (processor k) →
  pt_rel_map pm = pt_rel_map (processor k) → tid2pid pm = tid2pid (processor k) → pt_current pm = None → turned i k TT (set_processor pm k).
Proof.
  intros Hi E1 E2 E3 E4 E5. assert (procs (set_processor pm k) = procs k) as Ep by (unfold procs; simpl; by rewrite E1).
  assert (threads_of (set_processor pm k) = threads_of k) as Et.
  { unfold threads_of. simpl. by destruct (pt_manager pm), (pt_manager (processor k)); simplify_eq/=. }
  exists TT. split_and!; [| |done].
  - split; [|unfold spaces; rewrite Ep; apply Hi|rewrite Ep; apply Hi|rewrite Et; apply Hi|rewrite Ep, Et; simpl; rewrite E4; apply Hi].
    eapply keys_inv; [apply Hi| |exact (self_pid k TT Hi)|exact (self_tid k TT Hi)]. split; [done|done|simpl; by rewrite E1| |simpl; by rewrite E5].
    simpl. by destruct (pt_manager pm), (pt_manager (processor k)); simplify_eq/=; [f_equal; congruence|..].
  - intros j Hj. split; [intros p U Hp HU; exists p; rewrite Ep; split_and!; [done|apply proc_kept_refl|done|done]|].
    intros u th Hu Hth. rewrite Et. simpl. by rewrite E4.
Qed.

Lemma suspend_turned t i k TT u k' : thread_inv k TT → pt_current (processor k) = Some t →
  on_processor PThreadManager_make_current_suspend k = Done (u, k') → turned i k TT k'.
Proof.
  intros Hi Hc Hd. unfold on_processor, PThreadManager_make_current_suspend in Hd. rewrite Hc in Hd.
  destruct (inv_managers _ _ Hi) as (_ & mgr & _ & Hm & _). rewrite Hm in Hd. simpl in Hd. injection Hd as _ <-. apply stop_turned; try done. simpl. by rewrite Hm.
Qed.

Lemma block_turned t i k TT u k' : thread_inv k TT → pt_current (processor k) = Some t →
  on_processor (fun pm => Done (PThreadManager_make_current_blocked pm)) k = Done (u, k') → turned i k TT k'.
Proof.
  intros Hi Hc Hd. unfold on_processor, PThreadManager_make_current_blocked in Hd. simpl in Hd. rewrite Hc in Hd. injection Hd as _ <-. by apply stop_turned.
Qed.

(** The thread ends; the first process does not. *)
Lemma exit_turned t i code k TT u k' : thread_inv k TT → pt_current (processor k) = Some t → tid2pid (processor k) !! t = Some i →
  on_processor (PThreadManager_make_current_exited code) k = Done (u, k') → is_Some (pt_rel_map (processor k') !! 0) → turned i k TT k'.
Proof.
  intros Hi Hc Ht Hd H0. unfold on_processor in Hd. apply bind_Done in Hd as (pm & Hd & [= _ <-]). simpl in H0.
  destruct (proj1 (pi_own _ (inv_pt _ _ Hi) t i) Ht) as (r & Hr & Hin). simpl in Hr.
  pose proof (left_run _ _ _ _ _ _ Hc Ht Hr Hd) as [L1 L2 L3 L4]. destruct (del_thread_present t code r Hin) as [_ HP].
  destruct (inv_managers _ _ Hi) as (pmgr & mgr & Hpm & Hm & Ep & Et & Hdp & Hdt).
  assert (¬ last_of_init t (sys k)) as Hlast.
  { intros [E (r0 & Hr0 & E0)]. simpl in E, Hr0. rewrite Ht in E. injection E as ->. rewrite Hr in Hr0. injection Hr0 as <-.
    rewrite E0 in HP. symmetry in HP. apply Permutation_length in HP. simpl in HP.
    assert (threads (ProcThreadRel_del_thread t code r) = []) as En by (destruct (threads (ProcThreadRel_del_thread t code r)); [done|simpl in HP; lia]).
    rewrite decide_True in L4 by done. destruct L4 as [_ L4]. rewrite L4 in H0 by done. by destruct H0. }
  destruct (texit_ok (sys k) code (ti_system _ _ Hi)) as (y & Hrun & Hok); [by exists t|]. simpl in Hrun. rewrite (emptied_exited _ _ _ Hd) in Hrun. simpl in Hrun. injection Hrun as <-.
  set (k' := set_processor pm k). assert (threads_of k' = delete t (threads_of k)) as Etk.
  { unfold threads_of at 1. simpl. rewrite Hm in L2. simpl in L2. destruct (pt_manager pm); [|done]. injection L2 as E. simpl. by rewrite E, Et. }
  assert (∀ v th, tid2pid (processor k) !! v ≠ Some i → threads_of k !! v = Some th → threads_of k' !! v = Some th ∧ tid2pid pm !! v = tid2pid (processor k) !! v) as Hother.
  { intros v th Hv Hth. assert (v ≠ t) by congruence. by rewrite Etk, L1, !lookup_delete_ne. }
  assert (∀ v th, threads_of k' !! v = Some th → threads_of k !! v = Some th ∧ tid2pid pm !! v = tid2pid (processor k) !! v) as Hback.
  { intros v th. rewrite Etk, L1. intros [Hne Hv]%lookup_delete_Some. by rewrite lookup_delete_ne. }
  case_decide as Hd0.
  - destruct L4 as [L4 _]. assert (procs k' = delete i (procs k)) as Epk.
    { unfold procs at 1. simpl. rewrite Hpm in L4. simpl in L4. destruct (proc_manager pm); [|done]. injection L4 as E. simpl. by rewrite E, Ep. }
    exists (delete i TT). split_and!; [| |done].
    + split; [exact Hok| | | |].
      * unfold spaces at 1. rewrite Epk, fmap_delete. apply family_delete, Hi.
      * rewrite Epk. intros j q [_ Hq]%lookup_delete_Some. by eapply ti_pid.
      * intros v th [Hv _]%Hback. by eapply ti_tid.
      * rewrite Epk. intros v th j q [Hv E]%Hback Ho [_ Hq]%lookup_delete_Some. simpl in Ho. rewrite E in Ho. by eapply ti_satp.
    + intros j Hj. split.
      * intros q U Hq HU. exists q. rewrite Epk, !lookup_delete_ne by done. split_and!; [done|apply proc_kept_refl|done|done].
      * intros v th Hv Hth. destruct (Hother v th) as [H1 H2]; [congruence|done|]. split; [|done]. simpl. by rewrite H2.
  - assert (procs k' = procs k) as Epk by (unfold procs; simpl; by rewrite L4).
    exists TT. split_and!; [| |done].
    + split; [exact Hok|unfold spaces; rewrite Epk; apply Hi|rewrite Epk; apply Hi| |].
      * intros v th [Hv _]%Hback. by eapply ti_tid.
      * rewrite Epk. intros v th j q [Hv E]%Hback Ho Hq. simpl in Ho. rewrite E in Ho. by eapply ti_satp.
    + intros j Hj. split.
      * intros q U Hq HU. exists q. rewrite Epk. split_and!; [done|apply proc_kept_refl|done|done].
      * intros v th Hv Hth. destruct (Hother v th) as [H1 H2]; [congruence|done|]. split; [|done]. simpl. by rewrite H2.
Qed.

(** ** The calls *)
Section Served.
Variables (fuel : nat) (parse : list Z → option Vm.ElfFile) (getchar : st Memory.world Z).
Hypothesis Hget : ForkCalls.only_reads getchar.
Hypothesis Hfuel : (2 ≤ fuel)%nat.

(** Arguments in the lower half of the address space, buffers within a page, [exec] by the only thread of a process and of a
    program that fits, and fuel for the pages of a copy. *)
Record call_ok k (t i : Z) p (id : Z) (a : Z → Z) : Prop := {
  co_write : id = WRITE → 0 ≤ a 1 < 2 ^ 38;
  co_read : id = READ → ForkCalls.buffer_ok (a 1) (a 2);
  co_open : id = OPENAT → 0 ≤ a 0 < 2 ^ 38;
  co_pipe : id = PIPE2 → ForkCalls.buffer_ok (a 0) 8 ∧ ForkCalls.buffer_ok (a 0 + 8) 8;
  co_exec : id = EXECVE → alone_in k t i ∧ program_ok fuel parse (a 0) (a 1) k;
  co_wait : id = WAIT4 → ForkCalls.buffer_ok (a 1) 4;
  co_clock : id = CLOCK_GETTIME → ForkCalls.buffer_ok (a 1) 16;
  co_sigaction : id = RT_SIGACTION → 0 ≤ a 1 < 2 ^ 38 ∧ ForkCalls.buffer_ok (a 2) 16;
  co_fork ar : id = CLONE → ar ∈ areas (address_space p) → ar.2 - ar.1 ≤ Z.of_nat fuel;
}.

Lemma calm_stepped {A} t i k TT sp (f : st kernel A) a k' : tames t i sp TT (fun _ => True) f → thread_inv k TT → running k t i sp →
  f k = Done (a, k') → ∃ TT', stepped t i k TT k' TT'.
Proof. intros Hf Hi Hr Hd. exists TT. by apply (Hf k a k'). Qed.

Lemma runs_running k t i p : runs k t i p → running k t i (address_space p).
Proof. intros (Hc & Ht & Hp). split_and!; [done..|by exists p]. Qed.

Lemma calls_step k TT t i p T id a r k' : thread_inv k TT → runs k t i p → TT !! i = Some T → counters_ok k → call_ok k t i p id a →
  handle (registry fuel parse getchar) id a k = Done (r, k') → ∃ TT', stepped t i k TT k' TT'.
Proof.
  intros Hi Hr HT Hn Hcall Hd. pose proof (runs_running _ _ _ _ Hr) as Hrun. set (sp := address_space p) in *.
  assert (∃ TT', stepped t i k TT k TT') as Hsame by (exists TT; by eapply stepped_refl).
  destruct (sync_calm (S := S) t i sp TT T HT) as (C1 & C2 & C3 & C4 & C5 & C6 & C7 & C8 & C9 & C10).
  destruct (plain_calm (S := S) t i sp TT T HT) as (P1 & P2 & P3 & P4 & P5).
  unfold handle in Hd.
  repeat match type of Hd with
  | (if ?x =? ?y then _ else _) _ = _ => destruct (Z.eqb_spec x y) as [->|]
  end; unfold Container_call in Hd; cbn [registry PROCESS IO MEMORY SCHEDULING CLOCK SIGNAL THREAD SYNC_MUTEX TRACE_] in Hd;
    try (injection Hd as _ <-; exact Hsame); apply st_bind_Done in Hd as (x & k1 & Hd & [= _ <-]); try discriminate Hd.
  all: cbn [SyscallContext_io SyscallContext_process SyscallContext_clock SyscallContext_signal SyscallContext_thread SyscallContext_sync SyscallContext_scheduling
    sys_read sys_write sys_open sys_close sys_pipe sys_exit sys_fork sys_exec sys_wait sys_getpid sys_sched_yield sys_clock_gettime sys_kill sys_sigaction
    sys_sigprocmask sys_sigreturn sys_thread_create sys_waittid sys_gettid sys_semaphore_create sys_semaphore_up sys_semaphore_down sys_mutex_create
    sys_mutex_lock sys_mutex_unlock sys_condvar_create sys_condvar_signal sys_condvar_wait sys_enable_deadlock_detect
    sys_linkat sys_unlinkat sys_fstat sys_spawn sys_sbrk sys_set_priority] in Hd; try discriminate Hd; destruct Hcall.
  all: first
    [ eapply fork_stepped; [done..|intros ar; by apply co_fork0|exact Hd]
    | destruct co_exec0 as [? ?]; [done|]; eapply exec_stepped; [done..|exact Hd]
    | eapply create_stepped; [done..|exact Hd]
    | refine (calm_stepped t i k TT sp _ _ _ _ Hi Hrun Hd); first
      [ apply C1|apply C2|apply C3|apply C4|apply C5|apply C6|apply C7|apply C8|apply C9|apply C10|apply P1|apply P2|apply P3|apply P4|apply P5
      | eapply write_calm; [done|by apply co_write0] | eapply read_calm; [done..|by apply co_read0] | eapply open_calm; [done|by apply co_open0]
      | by eapply close_calm | eapply pipe_calm; [done|by apply co_pipe0..] | eapply wait_calm; [done|by apply co_wait0]
      | eapply clock_calm; [done|by apply co_clock0] | eapply sigaction_calm; [done|by apply co_sigaction0..] | by eapply sigreturn_calm
      | by eapply waittid_calm | by eapply kill_calm ] ].
Qed.
End Served.

(** ** After the call *)
Lemma thread_context_same t k c k' : thread_context t k = Done (c, k') → k' = k.
Proof. unfold thread_context. intros (o & _ & Hd)%bind_Done. by apply bind_Done in Hd as (th & _ & [= _ <-]). Qed.

Lemma running_procs k TT t i sp : thread_inv k TT → running k t i sp → ∃ p T, runs k t i p ∧ address_space p = sp ∧ TT !! i = Some T.
Proof.
  intros Hi Hr. destruct (running_runs _ _ _ _ Hr) as (p & Hp & E). destruct (owner_proc k TT t i Hi (proj1 (proj2 Hr))) as (q & _ & T & _ & _ & HT & _). by exists p, T.
Qed.

(** What becomes of the thread. *)
Lemma finish_turned t i k TT sp T id ctx res syscall_ret u k' : thread_inv k TT → running k t i sp → TT !! i = Some T →
  match res, syscall_ret with
  | ProcessKilled exit_code, _ => on_processor (PThreadManager_make_current_exited exit_code)
  | _, RDone ret =>
      if id =? EXIT then on_processor (PThreadManager_make_current_exited ret)
      else
        ctx ← lift (LocalContext_set_a 0 (as_usize ret) ctx);
        update_thread t (set_context ctx);;
        if may_block id && (ret =? -1)
        then on_processor (fun pm => Done (PThreadManager_make_current_blocked pm))
        else on_processor PThreadManager_make_current_suspend
  | _, Unsupported _ => on_processor (PThreadManager_make_current_exited (-2))
  end k = Done (u, k') → is_Some (pt_rel_map (processor k') !! 0) → turned i k TT k'.
Proof.
  intros Hi Hr HT Hd H0. pose proof Hr as (Hc & Ht & _).
  assert (∀ ret, (if id =? EXIT then on_processor (PThreadManager_make_current_exited ret) else
      ctx ← lift (LocalContext_set_a 0 (as_usize ret) ctx); update_thread t (set_context ctx);;
      if may_block id && (ret =? -1) then on_processor (fun pm => Done (PThreadManager_make_current_blocked pm)) else on_processor PThreadManager_make_current_suspend) k = Done (u, k') →
    turned i k TT k') as Hret.
  { intros ret Hd'. destruct (id =? EXIT); [by eapply exit_turned|]. apply st_bind_Done in Hd' as (c & k1 & H1 & Hd'). unfold lift in H1.
    destruct (LocalContext_set_a _ _ _) as [c'| |]; try done. injection H1 as -> <-. apply st_bind_Done in Hd' as (v & k2 & H2 & Hd').
    pose proof (set_context_tame k TT t i sp T Hi Hr HT t c v k2 Ht H2) as [Hst Hr2 _]. eapply stepped_turned; [exact Hst|].
    pose proof (st_inv _ _ _ _ _ _ Hst) as Hi2. destruct (may_block id && (ret =? -1)); [eapply block_turned|eapply suspend_turned]; try done; apply Hr2. }
  destruct res, syscall_ret; try (by eapply Hret); by eapply exit_turned.
Qed.

Lemma after_turned t i k TT sp T id syscall_ret u k' : thread_inv k TT → running k t i sp → TT !! i = Some T →
  after_syscall t id syscall_ret k = Done (u, k') → is_Some (pt_rel_map (processor k') !! 0) → turned i k TT k'.
Proof.
  intros Hi Hr HT Hd H0. pose proof Hr as (Hc & Ht & _). unfold after_syscall in Hd. apply st_bind_Done in Hd as (p & k1 & H1 & Hd).
  destruct (current_proc_tame k t i sp Hr p k1 H1) as (-> & _). apply st_bind_Done in Hd as (ctx & k1 & H2 & Hd). apply thread_context_same in H2 as ->.
  apply st_bind_Done in Hd as ([[res ctx'] g] & k1 & H3 & Hd). unfold lift in H3. destruct (SignalImpl_handle_signals _ _) as [[[res0 ctx0] g0]| |]; try done.
  injection H3 as -> -> -> <-. apply st_bind_Done in Hd as (v & k2 & H4 & Hd).
  pose proof (set_context_tame k TT t i sp T Hi Hr HT t ctx' v k2 Ht H4) as [Hst2 Hr2 _]. pose proof (st_inv _ _ _ _ _ _ Hst2) as Hi2.
  apply st_bind_Done in Hd as (v2 & k3 & H5 & Hd).
  pose proof (update_current_tame k2 TT t i sp T Hi2 Hr2 HT (set_signal g) v2 k3 ltac:(done) H5) as [Hst3 Hr3 _]. pose proof (st_inv _ _ _ _ _ _ Hst3) as Hi3.
  eapply stepped_turned; [exact Hst2|]. eapply stepped_turned; [exact Hst3|]. by eapply finish_turned.
Qed.

(** ** A system call, from the trap on *)
Section Calling.
Variables (fuel : nat) (parse : list Z → option Vm.ElfFile) (getchar : st Memory.world Z).
Hypothesis Hget : ForkCalls.only_reads getchar.
Hypothesis Hfuel : (2 ≤ fuel)%nat.

(** The call that thread [t] makes. *)
Definition syscall_ok (t : Z) k : Prop := ∀ i p th id args k1, runs k t i p → threads_of k !! t = Some th →
  let ctx := f_context (context th) in
  update_thread t (set_context (LocalContext_move_next ctx)) k = Done ((), k1) → LocalContext_a 7 ctx = Done id → Batch.call_args ctx = Done args →
  call_ok fuel parse k1 t i p id (fun n => nth (Z.to_nat n) args 0).

Lemma thread_context_is k TT t i sp : thread_inv k TT → running k t i sp → ∃ th, threads_of k !! t = Some th ∧ thread_context t k = Done (f_context (context th), k).
Proof.
  intros Hi (_ & Ht & _). destruct (owner_proc k TT t i Hi Ht) as (_ & th & _ & _ & Hth & _). exists th. split; [done|].
  destruct (inv_managers _ _ Hi) as (_ & mgr & _ & Hm & _ & Et & _). unfold thread_context, PThreadManager_get_task. rewrite Hm. simpl.
  unfold ThreadManager_get. by rewrite <-Et, Hth.
Qed.

Lemma update_thread_world w f k u k' : update_thread w f k = Done (u, k') → world k' = world k ∧ procs k' = procs k.
Proof. unfold update_thread, on_processor. intros (pm & Hd & [= _ <-])%bind_Done. by apply bind_Done in Hd as (mgr & _ & [= <-]). Qed.

Lemma user_call_turned t i k TT sp T u k' : thread_inv k TT → running k t i sp → TT !! i = Some T → counters_ok k → syscall_ok t k →
  user_env_call (registry fuel parse getchar) t k = Done (u, k') → is_Some (pt_rel_map (processor k') !! 0) → turned i k TT k'.
Proof.
  intros Hi Hr HT Hn Hok Hd H0. pose proof Hr as (Hc & Ht & _). destruct (thread_context_is k TT t i sp Hi Hr) as (th & Hth & Hctx).
  destruct (running_procs k TT t i sp Hi Hr) as (p & T' & Hp & Esp & HT'). rewrite HT in HT'. injection HT' as <-.
  unfold user_env_call in Hd. rewrite (st_bind_run _ _ _ _ _ Hctx) in Hd. set (ctx := f_context (context th)) in *.
  apply st_bind_Done in Hd as (v & k1 & H1 & Hd). destruct v. pose proof (set_context_tame k TT t i sp T Hi Hr HT t _ _ k1 Ht H1) as [Hst1 Hr1 _].
  pose proof (st_inv _ _ _ _ _ _ Hst1) as Hi1. destruct (update_thread_world _ _ _ _ _ H1) as [Ew Epr].
  apply st_bind_Done in Hd as (id & k2 & H2 & Hd). unfold lift in H2. destruct (LocalContext_a 7 ctx) as [id'| |] eqn:Hid; try done. injection H2 as -> <-.
  repeat (apply st_bind_Done in Hd as (? & k2 & H2 & Hd); unfold lift in H2; match type of H2 with context [LocalContext_a ?n ctx] =>
    let E := fresh "E" in destruct (LocalContext_a n ctx) as [?x| |] eqn:E; try done; injection H2 as -> <- end).
  match type of Hd with context [handle _ _ (fun n => nth (Z.to_nat n) ?l 0)] => assert (Batch.call_args ctx = Done l) as Hargs end.
  { unfold Batch.call_args. by rewrite E, E0, E1, E2, E3, E4. }
  pose proof (Hok i p th id _ k1 Hp Hth H1 Hid Hargs) as Hcall. apply st_bind_Done in Hd as (r & k2 & H3 & Hd).
  assert (runs k1 t i p) as Hp1 by (destruct Hr1 as (? & ? & _); split_and!; [done..|]; rewrite Epr; apply Hp).
  assert (counters_ok k1) as Hn1 by (unfold counters_ok; by rewrite Ew).
  destruct (calls_step fuel parse getchar Hget Hfuel k1 TT t i p T id _ r k2 Hi1 Hp1 HT Hn1 Hcall H3) as [TT2 Hst2].
  eapply stepped_turned; [exact Hst1|]. eapply stepped_turned; [exact Hst2|]. pose proof (st_inv _ _ _ _ _ _ Hst2) as Hi2.
  destruct (st_run _ _ _ _ _ _ Hst2) as [Hc2 Ht2]. destruct (owner_proc k2 TT2 t i Hi2 Ht2) as (q & _ & U & Hq & _ & HU & _).
  eapply (after_turned t i k2 TT2 (address_space q) U); [done|split_and!; [done..|by exists q]|done|exact Hd|done].
Qed.
End Calling.

(** ** Rounds *)

(** The next thread is one of the table. *)
Lemma next_chosen k TT t k1 : thread_inv k TT → ask_processor PThreadManager_find_next k = Done (Some t, k1) →
  ∃ i sp, tid2pid (processor k) !! t = Some i ∧ running k1 t i sp ∧ thread_inv k1 TT ∧ world k1 = world k ∧ threads_of k1 = threads_of k ∧
    procs k1 = procs k ∧ ∀ l, others_stay l k TT k1 TT.
Proof.
  intros Hi Hd. unfold ask_processor in Hd. apply bind_Done in Hd as ([o pm] & Hd & [= -> <-]).
  destruct (inv_managers _ _ Hi) as (pmgr & mgr & Hpm & Hm & Ep & Et & Hdp & Hdt). unfold PThreadManager_find_next in Hd. rewrite Hm in Hd. simpl in Hd.
  destruct (ThreadManager_fetch mgr) as [o mgr'] eqn:Hf. assert (fifo_tasks mgr' = fifo_tasks mgr) as Etasks.
  { unfold ThreadManager_fetch in Hf. destruct (fifo_queue mgr); by injection Hf as _ <-. }
  destruct o as [u|]; [|done]. unfold ThreadManager_get in Hd. destruct (fifo_tasks mgr' !! u) as [th|] eqn:Hth; [|done]. injection Hd as <- <-.
  rewrite Etasks, <-Et in Hth. assert (u ∈ dom (tid2pid (processor k))) as [i Hui]%elem_of_dom by (rewrite <-Hdt; by apply elem_of_dom_2 in Hth).
  destruct (owner_proc k TT u i Hi Hui) as (p & _ & T & Hp & _). set (k1 := set_processor _ k).
  assert (threads_of k1 = threads_of k) as Etk by (unfold threads_of; simpl; by rewrite Hm, Etasks).
  exists i, (address_space p). split_and!; [done|split_and!; [done..|by exists p]| |done|done|done|].
  - split; [|apply Hi|apply Hi|rewrite Etk; apply Hi|rewrite Etk; apply Hi].
    eapply keys_inv; [apply Hi| |exact (self_pid k TT Hi)|exact (self_tid k TT Hi)]. split; [done|done|done| |].
    + simpl. rewrite Hm. simpl. by rewrite Etasks.
    + simpl. intros v [= <-]. by exists i.
  - intros l j Hj. split; [intros q U Hq HU; exists q; split_and!; [done|apply proc_kept_refl|done|done]|].
    intros v x Hv Hx. by rewrite Etk.
Qed.

Section Loop.
Variable run : ForeignContext → machine → ForeignContext * machine * SyncSyscalls.Trap.
Variables (fuel : nat) (parse : list Z → option Vm.ElfFile) (getchar : st Memory.world Z).

Definition machine_run (c : ForeignContext) (w : rest S) : ForeignContext * rest S * SyncSyscalls.Trap :=
  let '(c, s, cause) := run c (mach w) in (c, with_mach s w, cause).

(** In user mode a thread does not change [satp], and stores only to pages that the space [satp] names maps in its areas. *)
Definition thread_mode : Prop := ∀ c s c' s' cause, run c s = (c', s', cause) → f_satp c' = f_satp c ∧
  ∀ sp T, space_inv portal s sp T → f_satp c = SpaceRoot.satp_of sp → own_writes s s' sp T.

(** The chosen thread runs until it traps. *)
Definition execute (t : Z) : st kernel SyncSyscalls.Trap :=
  th ← current_thread;
  k ← get_st;
  let '(f, w, cause) := machine_run (context th) (world k) in
  update_thread t (fun th => mkThread (tid th) f);;
  put_world w;;
  mret cause.

Lemma schedule_eq reg k : schedule reg machine_run k =
  (o ← ask_processor PThreadManager_find_next;
   match o with
   | None => mret false
   | Some t =>
       cause ← execute t;
       match cause with
       | SyncSyscalls.UserEnvCall => user_env_call reg t
       | SyncSyscalls.OtherTrap => on_processor (PThreadManager_make_current_exited (-3))
       end;;
       mret true
   end) k.
Proof.
  unfold schedule, execute, mbind, st_bind, get_st. destruct (ask_processor _ k) as [[[t|] k1]| |]; [|done..].
  destruct (current_thread k1) as [[th k2]| |]; [|done..]. destruct (machine_run (context th) (world k2)) as [[f w] cause].
  destruct (update_thread t _ k2) as [[u k3]| |]; [|done..]. done.
Qed.

Hypothesis Hget : ForkCalls.only_reads getchar.
Hypothesis Hfuel : (2 ≤ fuel)%nat.
Hypothesis Hmode : thread_mode.

Lemma thread_execute_run k TT t i sp T cause k' : thread_inv k TT → running k t i sp → TT !! i = Some T → execute t k = Done (cause, k') →
  tame t i sp k TT k' ∧ pid_counter (world k') = pid_counter (world k) ∧ tid_counter (world k') = tid_counter (world k).
Proof.
  intros Hi Hr HT Hd. pose proof Hr as (Hc & Ht & p & Hp & Esp). unfold execute in Hd. apply st_bind_Done in Hd as (th & k1 & H1 & Hd).
  destruct (current_thread_tame k TT t i sp Hi Hr th k1 H1) as (-> & Hth & _). rewrite (st_bind_run get_st _ _ _ _ eq_refl) in Hd.
  unfold machine_run in Hd. destruct (run (context th) (mach (world k))) as [[f s] c] eqn:Hrun. destruct (Hmode _ _ _ _ _ Hrun) as [Hsatp Hown].
  apply st_bind_Done in Hd as (u & k1 & H2 & Hd). destruct (update_thread_world _ _ _ _ _ H2) as [Ew _].
  assert (tame t i sp k TT k1) as Ht1.
  { eapply update_thread_tame; [done|done|done|exact Ht| |exact H2]. intros th' Hth'. rewrite Hth in Hth'. injection Hth' as <-. done. }
  pose proof Ht1 as [[Hi1 _ _] Hr1 _]. apply st_bind_Done in Hd as (u2 & k2 & [= _ <-] & [= _ <-]).
  split; [|done]. eapply tame_trans; [exact Ht1|].
  pose proof (mach_tame k1 TT t i sp T Hi1 Hr1 HT s) as Hs. unfold set_mach, set_world in Hs. rewrite Ew in Hs. apply Hs.
  apply Hown; [rewrite <-Ew; by eapply runner_space|]. rewrite <-Esp. exact (ti_satp _ _ Hi t th i p Hth Ht Hp).
Qed.

(** The next round has numbers to give, and the thread that is chosen calls with arguments that the kernel can take. *)
Definition round_ok k : Prop := counters_ok k ∧ ∀ t k1 k2, ask_processor PThreadManager_find_next k = Done (Some t, k1) →
  execute t k1 = Done (SyncSyscalls.UserEnvCall, k2) → syscall_ok fuel parse t k2.

Lemma round_turned k TT t k1 k' : thread_inv k TT → round_ok k → ask_processor PThreadManager_find_next k = Done (Some t, k1) →
  schedule (registry fuel parse getchar) machine_run k = Done (true, k') → is_Some (pt_rel_map (processor k') !! 0) →
  ∃ i, tid2pid (processor k) !! t = Some i ∧ turned i k TT k'.
Proof.
  intros Hi [Hn Hcalls] H1 Hd H0. rewrite schedule_eq, (st_bind_run _ _ _ _ _ H1) in Hd.
  destruct (next_chosen k TT t k1 Hi H1) as (i & sp & Hti & Hr1 & Hi1 & Ew & _ & _ & Ho1). exists i. split; [done|].
  destruct (running_procs k1 TT t i sp Hi1 Hr1) as (p & T & _ & _ & HT). apply st_bind_Done in Hd as (cause & k2 & H2 & Hd).
  destruct (thread_execute_run k1 TT t i sp T cause k2 Hi1 Hr1 HT H2) as ([Hst2 Hr2 _] & En1 & En2). pose proof (st_inv _ _ _ _ _ _ Hst2) as Hi2.
  apply st_bind_Done in Hd as (u & k3 & H3 & [= <-]).
  assert (turned i k1 TT k3) as (TT' & Hi3 & Ho3 & Hc3); [|exists TT'; split_and!; [done|by eapply threads_stay_trans|done]].
  eapply stepped_turned; [exact Hst2|]. destruct cause.
  - eapply (user_call_turned fuel parse getchar Hget Hfuel t i k2 TT sp T); [done|done|done| |by eapply Hcalls|exact H3|done].
    unfold counters_ok. by rewrite En1, En2, Ew.
  - eapply exit_turned; [done|apply Hr2|apply Hr2|exact H3|done].
Qed.

(** Rounds of the loop, with the processes whose threads ran. *)
Inductive thread_rounds : kernel → list Z → kernel → Prop :=
| thread_rounds_nil k : thread_rounds k [] k
| thread_rounds_cons k t i k0 k1 l k2 : round_ok k → ask_processor PThreadManager_find_next k = Done (Some t, k0) → tid2pid (processor k) !! t = Some i →
    schedule (registry fuel parse getchar) machine_run k = Done (true, k1) → is_Some (pt_rel_map (processor k1) !! 0) →
    thread_rounds k1 l k2 → thread_rounds k (i :: l) k2.

Definition stays_outside (l : list Z) k TT k' TT' : Prop := ∀ j, j ∉ l → proc_stays j k TT k' TT' ∧ threads_stay j k k'.

Lemma rounds_stay k l k' : thread_rounds k l k' → ∀ TT, thread_inv k TT →
  ∃ TT', thread_inv k' TT' ∧ stays_outside l k TT k' TT' ∧ (l ≠ [] → pt_current (processor k') = None).
Proof.
  intros Hr. induction Hr as [k|k t i k0 k1 l k2 Hok Hnext Hti Hturn H0 Hr IH]; intros TT Hi.
  { exists TT. split_and!; [done| |done]. intros j _. split; [|done]. intros p T Hp HT. exists p. split_and!; [done|apply proc_kept_refl|done|done]. }
  destruct (round_turned k TT t k0 k1 Hi Hok Hnext Hturn H0) as (i' & Hti' & TT1 & Hi1 & Ho1 & Hc1). rewrite Hti in Hti'. injection Hti' as <-.
  destruct (IH TT1 Hi1) as (TT2 & Hi2 & Ho2 & Hc2). exists TT2. split_and!; [done| |].
  - intros j [Hj Hl]%not_elem_of_cons. destruct (Ho1 j Hj) as [P1 T1], (Ho2 j Hl) as [P2 T2]. split; [by eapply proc_stays_trans|].
    intros v x Hv Hx. destruct (T1 v x Hv Hx). by apply T2.
  - intros _. destruct l as [|x l]; [|by apply Hc2]. by inversion Hr; subst.
Qed.
End Loop.
End Rounds.
End ThreadRounds.
