(* ===== verification/ThreadProperties.v ===== *)
(** * What the kernel with threads guarantees

    The boot of ch8, its [fork] and [thread_create], and the isolation of its processes along the scheduling loop. *)

From Stdlib Require Import Ascii String.
From stdpp Require Import strings.
From S2P Require Import Prelude Bytes Memory KernelContext TaskRel ProcManage ProcTree ProcInvariant Schedulers ThreadManage ThreadInvariant ThreadSystem Sync Signal Syscall PageTable AddressSpace SpaceTree SpaceMap SpaceInvariant PageManager BatchKernel TaskKernel VmKernel VmTheorems VmIsolation VmLoad SpaceFamily BlockStore File ForkKernel ForkInvariant ForkMaking ForkCalls ForkRounds Descriptors FileKernel IpcKernel IpcCalls SyncSyscalls SyncInvariant ThreadKernel ThreadSpaces ThreadTables ThreadMaking ThreadCalls ThreadLife ThreadRounds.

Module ThreadProps.
Import Threads Family SpaceRoot VmInv VmLoad ThreadSpaces ThreadTables ThreadSteps ThreadMaking ThreadCalls ThreadLife ThreadRounds.
Section Properties.
Context `{PTC : PageTableCrate, HL : !HeapLaws, PTL : !PageTableLaws}.
Context {S : Type} `{!BlockStore S}.
Abbreviation Process := (Process (AddressSpace Sv39Manager) Ipc.Fd).
Abbreviation kernel := (kernel (AddressSpace Sv39Manager) Ipc.Fd (rest S)).
Implicit Types (k : kernel) (p q : Process) (T U : gmap (list Z) Z) (TT : gmap Z (gmap (list Z) Z)) (s : machine) (sp : AddressSpace Sv39Manager).

(** ** Boot *)

(** Before the first process. *)
Definition unbooted k : Prop := processor k = PThreadManager_new ∧ pid_counter (world k) = 0 ∧ tid_counter (world k) = 0.

(** The file that the kernel starts. *)
Definition init_program (fuel : nat) (parse : list Z → option Vm.ElfFile) : st kernel Vm.ElfFile :=
  fd ← on_files (Desc.FS_open Desc.initproc_name RDONLY);
  fd ← lift (unwrap fd);
  file_program fuel parse fd.

(** One process with one thread, which is ready to run the program. *)
Record first_thread k (elf : Vm.ElfFile) (v : Vm.Process) k' T : Prop := {
  ft_inv : thread_inv k' {[0 := T]};
  ft_idle : pt_current (processor k') = None;
  ft_procs : procs k' = {[0 := elf_proc 0 v]};
  ft_threads : threads_of k' = {[0 := elf_thread 0 v]};
  ft_owner : tid2pid (processor k') = {[0 := 0]};
  ft_ready : fifo_queue <$> pt_manager (processor k') = Some [0];
  ft_counters : pid_counter (world k') = 1 ∧ tid_counter (world k') = 1;
  ft_program : program_in elf (mach (world k)) v (mach (world k')) T;
}.

Lemma load_initproc_split fuel parse k : load_initproc fuel parse k =
  (elf ← init_program fuel parse;
   made ← Process_from_elf fuel elf;
   match made with
   | Some (process, thread) =>
       on_processor (fun pm => Done (PThreadManager_set_proc_manager ProcManager_new pm));;
       on_processor (fun pm => Done (PThreadManager_set_manager ThreadManager_new pm));;
       on_processor (PThreadManager_add_proc (pid process) process usize_max);;
       on_processor (PThreadManager_add (tid thread) thread (pid process))
   | None => mret ()
   end) k.
Proof.
  unfold load_initproc, init_program, mbind, st_bind. destruct (on_files _ k) as [[fd k1]| |]; [|done..].
  destruct (lift (unwrap fd) k1) as [[f k2]| |]; [|done..]. by destruct (file_program _ _ _ _) as [[elf k3]| |].
Qed.

Lemma init_program_more fuel parse k elf k' : init_program fuel parse k = Done (elf, k') → ∃ y, k' = set_more y k.
Proof.
  unfold init_program. intros Hd. apply st_bind_Done in Hd as (fd & k1 & H1 & Hd). destruct (on_files_more _ _ _ _ H1) as [y ->].
  apply st_bind_Done in Hd as (f & k2 & H2 & Hd). unfold lift in H2. destruct (unwrap fd); [|done..]. injection H2 as -> <-.
  destruct (thread_program_more _ _ _ _ _ _ Hd) as [y2 ->]. by exists y2.
Qed.

(** The tables after the boot. *)
Definition first_tables (v : Vm.Process) : PThreadManager (ThreadManager Thread) (ProcManager Process) :=
  mkPTM {[0 := ProcThreadRel_add_thread 0 (ProcThreadRel_new usize_max)]} (Some (mkProcManager {[0 := elf_proc 0 v]})) {[0 := 0]}
    (Some (mkThreadManager {[0 := elf_thread 0 v]} [0])) None.

Lemma first_tables_run v : (let pm := PThreadManager_set_manager ThreadManager_new (PThreadManager_set_proc_manager ProcManager_new PThreadManager_new) in
  pm ← PThreadManager_add_proc 0 (elf_proc 0 v) usize_max pm; PThreadManager_add 0 (elf_thread 0 v) 0 pm) = Done (first_tables v).
Proof. reflexivity. Qed.

Lemma first_tables_ok v : tsys_ok (T := Thread) (P := Process) (mkTsys (emptied (first_tables v)) 1 1).
Proof.
  destruct (tboot_ok (ThreadManager_new (T := Thread)) (ProcManager_new (T := Process)) (elf_proc 0 v) (elf_thread 0 v)) as (y & Hrun & Hok); [by split_and!|].
  unfold tboot in Hrun. simpl in Hrun. injection Hrun as <-. by apply emptied_sys.
Qed.

Lemma first_thread_run fuel parse k elf k1 : unbooted k → init_program fuel parse k = Done (elf, k1) → elf_ok fuel elf → riscv_program elf = true →
  (load_initproc fuel parse k = Panic ∧ exhausted (M := Sv39Manager) (pages_needed elf) (mach (world k))) ∨
  ∃ v k' T, load_initproc fuel parse k = Done ((), k') ∧ first_thread k elf v k' T.
Proof.
  intros (Hpm & Hn1 & Hn2) Hf Hok Hrv. rewrite load_initproc_split, (st_bind_run _ _ _ _ _ Hf). destruct (init_program_more _ _ _ _ _ Hf) as [y ->].
  pose proof (thread_from_elf_run fuel elf (set_more y k) Hok) as Hrun. rewrite Hrv in Hrun.
  destruct Hrun as [[Hp Hex]|(v & s & T & Hrun & Hin)]; [left; by rewrite (st_bind_Panic _ _ _ Hp)|right].
  change (pid_counter (world (set_more y k))) with (pid_counter (world k)) in Hrun. change (tid_counter (world (set_more y k))) with (tid_counter (world k)) in Hrun.
  rewrite Hn1, Hn2 in Hrun. rewrite (st_bind_run _ _ _ _ _ Hrun). change (mach (world (set_more y k))) with (mach (world k)) in Hin.
  exists v, (set_processor (first_tables v) (moved s (set_more y k))), T. split.
  { unfold on_processor, mbind, st_bind. change (processor (moved s (set_more y k))) with (processor k). rewrite Hpm. reflexivity. }
  split; [split| | | | | | |]; try done.
  - unfold sys. simpl. rewrite Hn1, Hn2. exact (first_tables_ok v).
  - unfold spaces, procs. simpl. rewrite map_fmap_singleton. destruct Hin as [[Hsp K Hfr] _ _ _ _ _].
    destruct (family_push ∅ ∅ (mach (world k)) 0 (Vm.address_space v) T s (family_empty _) K Hsp Hfr) as [Hfam _]. exact Hfam.
  - unfold procs. simpl. by intros i p [<- <-]%lookup_singleton_Some.
  - unfold threads_of. simpl. by intros i p [<- <-]%lookup_singleton_Some.
  - unfold procs, threads_of. simpl. intros t th i p [<- <-]%lookup_singleton_Some [_ <-]%lookup_singleton_Some [_ <-]%lookup_singleton_Some. apply Hin.
  - simpl. by rewrite Hn1, Hn2.
Qed.

(** ** [fork] *)

(** [fork], called by any thread of a process, unless the heap cannot give a root and three pages for each page of the
    process: the answer is the next pid; the child has one thread, whatever the number of threads of its parent, with the
    next thread number, at the end of the ready queue, in the context of the {e first} thread of the parent but for 0 in a0;
    it has clones of the descriptors, the inherited signals, no mutex, semaphore or condition variable, and a space of pages
    nobody used with the same areas, in which every address holds the same byte as in the space of the parent.  No process,
    the parent included, loses a mapping or a byte, and the invariant goes on. *)
Theorem thread_fork_spec fuel k TT t i p T main : thread_inv k TT → runs k t i p → TT !! i = Some T → counters_ok k →
  main_of k i main → ctx_wf (f_context (context main)) → (∀ ar, ar ∈ areas (address_space p) → ar.2 - ar.1 ≤ Z.of_nat fuel) →
  let child := pid_counter (world k) in let thread := tid_counter (world k) in
  (fork fuel k = Panic ∧ exhausted (M := Sv39Manager) (1 + 3 * pages_of (areas (address_space p))) (mach (world k))) ∨
  ∃ c ctx T' k', fork fuel k = Done (as_isize child, k') ∧ thread_inv k' (<[child := T']> TT) ∧
    procs k !! child = None ∧ procs k' = <[child := c]> (procs k) ∧
    threads_of k' = <[thread := mkThread thread (mkForeign ctx (SpaceRoot.satp_of (address_space c)))]> (threads_of k) ∧
    tid2pid (processor k) !! thread = None ∧ tid2pid (processor k') = <[thread := child]> (tid2pid (processor k)) ∧
    fifo_queue <$> pt_manager (processor k') = (fun l => l ++ [thread]) ∘ fifo_queue <$> pt_manager (processor k) ∧
    LocalContext_set_a 0 0 (f_context (context main)) = Done ctx ∧ LocalContext_a 0 ctx = Done 0 ∧
    c = mkProcess child (address_space c) (Files.clone_table (fd_table p)) (SignalImpl_from_fork (signal p)) [] [] [] ∧
    areas (address_space c) = areas (address_space p) ∧ ForkMaking.same_contents (mach (world k)) (address_space p) T (mach (world k')) T' ∧
    (∀ x, uses (mach (world k')) (address_space c) T' x → ¬ page_used (mc_heap (mach (world k))) x) ∧
    ∀ j, alone (spaces k) TT (mach (world k)) (mach (world k')) j.
Proof.
  intros Hi Hr HT Hn Hmain Hwf Hfuel child thread. pose proof Hr as (Hc & Ht & Hp).
  assert (space_inv portal (mach (world k)) (address_space p) T) as Hsp by (apply (runner_space k TT t i); [done|by split_and!; [..|by exists p]|done]).
  rewrite (fork_eq fuel k TT t i p main Hi Hr Hn Hmain).
  destruct (ForkMaking.clone_run fuel (kernel_as (world k)) (address_space p) (mach (world k)) T Hsp Hfuel) as [[Hpn Hex]|(ns & s & T' & Hrun & Hnew & Ha & Hsame)];
    [left; by rewrite Hpn|right].
  destruct (set_a_run 0 0 _ Hwf ltac:(lia)) as (ctx & Hctx & _ & Ha0 & _). rewrite Hrun. simpl. rewrite Hctx. simpl.
  set (c := forked_proc child ns p). set (th := mkThread thread (mkForeign ctx (Threads.satp_of ns))).
  destruct (child_added t i k TT p c th s T' Hi Hr Hn eq_refl eq_refl eq_refl Hnew) as (_ & Epk & Etk & Hst).
  exists c, ctx, T', (with_child i c th s k). pose proof Hnew as [Hinv K Hfr].
  destruct (family_push (spaces k) TT (mach (world k)) child (address_space c) T' s (ti_family _ _ Hi) K Hinv Hfr) as [_ Hal].
  split_and!; [done|apply Hst|by eapply unknown_proc|done|done|by eapply unknown_thread|done| |done|done|done|done|done|exact Hfr|exact Hal].
  simpl. by destruct (pt_manager (processor k)).
Qed.

(** ** [thread_create] *)

(** A found stack is refused only if its second page lies in the next gibibyte. *)
Lemma refused_stack s sp T g : space_inv portal s sp T → stack_found (mc_mem s) sp g → have_mapped (stack_of g) sp = true → g mod 3 = 2.
Proof.
  intros Hsp (Hg & Hfree & _) Hm. destruct (decide (g mod 3 = 2)) as [|Hne]; [done|].
  pose proof (found_free s sp T g Hsp Hfree Hg Hne) as Hf. unfold stack_of in Hm. by rewrite Hf in Hm.
Qed.

(** What was in the areas before is still there. *)
Lemma stack_put_bytes s sp T range s' T' addr : space_inv portal s sp T → stack_put s sp T range s' T' → have_mapped range sp = false →
  in_areas (addr / page_size) (areas sp) → byte_at (mc_mem s') T' addr = byte_at (mc_mem s) T addr.
Proof.
  intros Hsp Hput Hm Hin. eapply byte_keep; [exact Hsp|apply Hput|done|]. destruct Hin as (ar & Har & Hw).
  destruct (si_range _ _ _ _ Hsp ar Har) as [Hr _]. apply (sp_map _ _ _ _ _ _ Hput); [by eapply range_ok_vpn|].
  apply have_mapped_spec in Hm. rewrite Forall_forall in Hm. specialize (Hm ar Har). unfold disjoint_ranges, SpaceInvariant.inside in *. lia.
Qed.

(** C13: [thread_create], on every branch.  The kernel stops only when all the 256 gibibytes of user addresses have a table,
    when the second page of the stack lies in the next gibibyte and is mapped there, or when the heap cannot give six pages.
    Otherwise the stack is in the highest gibibyte without a table: two pages of zeros that the user may read and write, at
    the end of the areas of the process, whose other mappings and bytes stay.  The thread has the next number, which is the answer,
    the entry, the argument in a0, the end of the stack in sp, and [satp] of the process; it is at the end of the ready
    queue and owned by the process.  The invariant goes on, and the other processes and their threads are as they were. *)
Theorem thread_create_spec fuel entry arg k TT t i p T : thread_inv k TT → runs k t i p → TT !! i = Some T → (2 ≤ fuel)%nat →
  tid_counter (world k) < usize_max →
  let sp := address_space p in let thread := tid_counter (world k) in
  (thread_create fuel entry arg k = Panic ∧
    ((∀ g, 0 ≤ g ≤ 255 → taken (memory_of k) sp g = true) ∨
     (∃ g, stack_found (memory_of k) sp g ∧ g mod 3 = 2 ∧ have_mapped (stack_of g) sp = true) ∨
     exhausted (M := Sv39Manager) 6 (mach (world k)))) ∨
  ∃ g c T' k', thread_create fuel entry arg k = Done (as_isize thread, k') ∧ stack_found (memory_of k) sp g ∧ have_mapped (stack_of g) sp = false ∧
    procs k' = <[i := set_space (more_areas (stack_of g) sp) p]> (procs k) ∧
    (∀ x, 0 ≤ x < 2 * page_size → byte_at (memory_of k') T' (stack_at g * page_size + x) = Some 0) ∧
    (∀ w, stack_at g ≤ w < stack_at g + 2 → pte_flags <$> mapping (memory_of k') T' w = Some (user_bits false true true)) ∧
    (∀ w, is_vpn w → ¬ stack_at g ≤ w < stack_at g + 2 → mapping (memory_of k') T' w = mapping (memory_of k) T w) ∧
    (∀ addr, in_areas (addr / page_size) (areas sp) → byte_at (memory_of k') T' addr = byte_at (memory_of k) T addr) ∧
    threads_of k !! thread = None ∧ threads_of k' = <[thread := mkThread thread (mkForeign c (SpaceRoot.satp_of sp))]> (threads_of k) ∧
    LocalContext_pc c = entry ∧ LocalContext_a 0 c = Done arg ∧ (g < 255 → LocalContext_sp c = Done ((stack_at g + 2) * page_size)) ∧
    tid2pid (processor k') = <[thread := i]> (tid2pid (processor k)) ∧
    fifo_queue <$> pt_manager (processor k') = (fun l => l ++ [thread]) ∘ fifo_queue <$> pt_manager (processor k) ∧
    stepped t i k TT k' (<[i := T']> TT).
Proof.
  intros Hi Hr HT Hfuel Hn sp thread. pose proof Hr as (Hc & Ht & Hp).
  assert (space_inv portal (mach (world k)) sp T) as Hsp by (apply (runner_space k TT t i); [done|by split_and!; [..|by exists p]|done]).
  destruct (create_run fuel t i k TT p T entry arg Hi Hr HT Hfuel Hn) as [[Hpn Hno]|(g & k' & T' & Hd & [[Hg Hm] Hst Hput Hprocs (Hnone & Eth & Eo) Hq _ _])]; [left|right].
  { split; [done|]. destruct Hno as [?|[(g & Hg & Hm)|?]]; [by left| |by right; right]. right; left. exists g. split_and!; [done| |done]. by eapply refused_stack. }
  exists g, (stack_context entry arg (stack_of g)), T', k'. split_and!; try done.
  - exact (sp_zero _ _ _ _ _ _ Hput).
  - intros w Hw. apply (sp_flags _ _ _ _ _ _ Hput). exact Hw.
  - intros w Hv Hw. by apply (sp_map _ _ _ _ _ _ Hput).
  - intros addr. by apply (stack_put_bytes _ _ _ _ _ _ _ Hsp Hput).
  - intros Hlt. unfold stack_context, stack_of. simpl. change (2 ^ 26) with (256 * gib) in *. rewrite vpn_base_spec; [done|].
    destruct Hg as [Hg _]. destruct (stack_at_range g ltac:(lia)) as [[H1 H2] _]. unfold gib in *. lia.
Qed.

(** ** The loop *)

(** C12: Isolation along the loop of the kernel with threads.  If user mode stores only to the pages that the space named by
    [satp] maps in its areas, then over any number of rounds (a thread is chosen, runs, and its call, whatever its number, is
    served, be it [fork], [exec], [thread_create], a file, pipe or signal call, or a synchronisation call that wakes or blocks
    threads), as long as the first process lives and the calls are as [call_ok] says, every process keeps a well-formed space of its own, no page belongs to two,
    every thread has the [satp] of its process, and a process none of whose threads ran keeps its entry but for signals it
    received, its mappings, every byte of its pages, and its threads with their contexts. *)
Theorem thread_isolation run fuel parse getchar k TT l k' : ForkCalls.only_reads getchar → (2 ≤ fuel)%nat → thread_mode run →
  thread_inv k TT → thread_rounds run fuel parse getchar k l k' →
  ∃ TT', thread_inv k' TT' ∧ (l ≠ [] → pt_current (processor k') = None) ∧
    ∀ j p T, j ∉ l → procs k !! j = Some p → TT !! j = Some T →
      (∃ q, procs k' !! j = Some q ∧ q = set_signal (signal q) p ∧ more_signals (signal p) (signal q)) ∧ TT' !! j = Some T ∧
      (∀ w, mapping (memory_of k') T w = mapping (memory_of k) T w) ∧
      (∀ addr, in_areas (addr / page_size) (areas (address_space p)) → byte_at (memory_of k') T addr = byte_at (memory_of k) T addr) ∧
      ∀ t th, tid2pid (processor k) !! t = Some j → threads_of k !! t = Some th → tid2pid (processor k') !! t = Some j ∧ threads_of k' !! t = Some th.
Proof.
  intros Hg Hf Hm Hi Hr. destruct (rounds_stay run fuel parse getchar Hg Hf Hm k l k' Hr TT Hi) as (TT' & Hi' & Ho & Hc).
  exists TT'. split_and!; [done|done|]. intros j p T Hj Hp HT. destruct (Ho j Hj) as [Hs Hth].
  destruct (Hs p T Hp HT) as (q & Hq & [Eq Hsig] & HT' & Hsame). split_and!; [by exists q|done|apply Hsame| |exact Hth].
  intros addr Hin. by eapply ForkRounds.same_space_bytes.
Qed.
End Properties.
End ThreadProps.
