(* ===== verification/ThreadDemo.v ===== *)
(** * A kernel with threads

    A kernel of ch8 that boots one program from its disk, a second process, a second thread, and the witnesses of the
    properties of ThreadProperties.v on them. *)

From Stdlib Require Import Ascii String.
From stdpp Require Import strings.
From S2P Require Import Prelude Bytes BlockStore BlockCache Efs Vfs File Memory KernelContext TaskRel ProcManage ProcTree ProcInvariant Schedulers ThreadManage ThreadInvariant ThreadSystem Sync Signal Syscall PageTable AddressSpace SpaceTree SpaceMap SpaceInvariant PageManager BatchKernel TaskKernel VmKernel VmTheorems VmIsolation VmLoad VmDemo SpaceFamily ForkKernel ForkInvariant ForkMaking ForkCalls ForkProperties Descriptors FileKernel FileDemo IpcKernel IpcCalls SyncSyscalls SyncInvariant ThreadKernel ThreadSpaces ThreadTables ThreadMaking ThreadCalls ThreadLife ThreadRounds ThreadProperties.

Module ThreadDemo.
Import Threads Family SpaceRoot VmInv VmLoad ThreadSpaces ThreadTables ThreadSteps ThreadMaking ThreadCalls ThreadLife ThreadRounds ThreadProps.
#[local] Existing Instance BumpHeap.
#[local] Existing Instance BumpHeapLaws.
#[local] Existing Instance VmDemo.demo_crate.
#[local] Existing Instance VmDemo.demo_laws.

(** ** The boot *)
Definition dir_data : list Z := Desc.initproc_name ++ replicate 20 0 ++ [1; 0; 0; 0] ++ replicate 480 0.
Definition device : mem_device := (fun b => if b =? 7 then dir_data else FileDemo.disk b) <$> seqZ 0 16.
Abbreviation demo_process := (Process (AddressSpace Sv39Manager) Ipc.Fd).
Abbreviation demo_state := (kernel (AddressSpace Sv39Manager) Ipc.Fd (rest (CacheState mem_device))).
Abbreviation file_elf := FileDemo.file_elf.
Abbreviation demo_getchar := ForkProps.demo_getchar.

Definition demo_kernel : demo_state :=
  mkKernel PThreadManager_new (mkIntr true 0 false) (mkRest 0 0 VmDemo.demo_first.1
    (Ipc.mkIpc (Desc.mkFiles (Some FileDemo.demo_fs) (BlockCacheManager_new device)) ∅ 0) demo_machine).
Definition demo_parse (data : list Z) : option Vm.ElfFile := Some file_elf.
Abbreviation after := (state_after demo_kernel).
Definition booted : demo_state := after (load_initproc 8 demo_parse demo_kernel).
Definition chosen : demo_state := after (ask_processor PThreadManager_find_next booted).

Lemma threads_unbooted : unbooted demo_kernel.
Proof. by split. Qed.

Lemma first_run (k k1 : demo_state) : unbooted k → init_program 8 demo_parse k = Done (file_elf, k1) →
  (load_initproc 8 demo_parse k = Panic ∧ exhausted (M := Sv39Manager) (pages_needed file_elf) (mach (world k))) ∨
  ∃ v k' T, load_initproc 8 demo_parse k = Done ((), k') ∧ first_thread k file_elf v k' T.
Proof. intros Hk Hf. by apply (first_thread_run 8 demo_parse k file_elf k1 Hk Hf FileDemo.file_elf_ok). Qed.

Lemma gives {A B} (a : A) (o : outcome (A * B)) : (if o is Done (x, _) then x = a else False) → ∃ b, o = Done (a, b).
Proof. destruct o as [[x b]| |]; [intros ->; by exists b|done..]. Qed.

Lemma thread_boots_here : ∃ v T, first_thread demo_kernel file_elf v booted T.
Proof.
  assert (returned (load_initproc 8 demo_parse demo_kernel) = true) as Hd by (vm_compute; reflexivity).
  destruct (gives file_elf (init_program 8 demo_parse demo_kernel)) as [k1 Hinit]; [vm_compute; reflexivity|].
  destruct (first_run demo_kernel k1 threads_unbooted Hinit) as [[Hp _]|(v & k & T & Hk & F)]; [rewrite Hp in Hd; discriminate Hd|].
  assert (k = booted) as -> by (symmetry; exact (state_after_eq demo_kernel _ _ _ Hk)). by exists v, T.
Qed.

(** The first thread was chosen. *)
Record demo_ready (k : demo_state) (v : Vm.Process) T : Prop := {
  td_inv : thread_inv k {[0 := T]};
  td_runs : runs k 0 0 (elf_proc 0 v);
  td_threads : threads_of k = {[0 := elf_thread 0 v]};
  td_counters : pid_counter (world k) = 1 ∧ tid_counter (world k) = 1;
  td_program : program_in file_elf demo_machine v (mach (world k)) T;
}.

Lemma next_first (k0 k : demo_state) v T : first_thread demo_kernel file_elf v k0 T → ask_processor PThreadManager_find_next k0 = Done (Some 0, k) → demo_ready k v T.
Proof.
  intros F Hn. destruct (next_chosen k0 _ 0 k (ft_inv _ _ _ _ _ F) Hn) as (i & sp & Ho & (Hc & Ht & _) & Hi & Ew & Et & Ep & _).
  rewrite (ft_owner _ _ _ _ _ F) in Ho. apply lookup_singleton_Some in Ho as [_ <-]. split; [exact Hi| |rewrite Et; apply F|rewrite Ew; apply F|rewrite Ew; apply F].
  split_and!; [exact Hc|exact Ht|]. by rewrite Ep, (ft_procs _ _ _ _ _ F), lookup_singleton_eq.
Qed.

Lemma threads_ready : ∃ v T, demo_ready chosen v T.
Proof.
  destruct thread_boots_here as (v & T & F). exists v, T.
  assert ((if ask_processor PThreadManager_find_next booted is Done (Some 0, _) then true else false) = true) as Hn by (vm_compute; reflexivity).
  destruct (ask_processor PThreadManager_find_next booted) as [[o k]| |] eqn:Hk; [|discriminate Hn..].
  destruct o as [[| |]|]; [|discriminate Hn..]. clear Hn. pose proof (next_first booted k v T F Hk) as R.
  assert (k = chosen) as -> by (symmetry; exact (state_after_eq demo_kernel _ _ _ Hk)). exact R.
Qed.

(** ** [fork] and [thread_create] *)
Definition answers (r : Z) (o : outcome (Z * demo_state)) : bool := if o is Done (x, _) then x =? r else false.

(** What the witnesses need of the process and its thread. *)
Definition fits (k : demo_state) : bool :=
  match procs k !! 0, threads_of k !! 0 with
  | Some p, Some th => (length (ctx_x (f_context (context th))) =? 31)%nat && forallb (fun ar => ar.2 - ar.1 <=? 8) (areas (address_space p)) &&
      taken (memory_of k) (address_space p) 255 && negb (taken (memory_of k) (address_space p) 254)
  | _, _ => false
  end.

Lemma fits_spec (k : demo_state) p th : fits k = true → procs k !! 0 = Some p → threads_of k !! 0 = Some th →
  ctx_wf (f_context (context th)) ∧ (∀ ar, ar ∈ areas (address_space p) → ar.2 - ar.1 ≤ Z.of_nat 8) ∧
  taken (memory_of k) (address_space p) 255 = true ∧ taken (memory_of k) (address_space p) 254 = false.
Proof.
  unfold fits. intros Hf Hp Hth. rewrite Hp, Hth in Hf. apply andb_prop in Hf as [Hf H4%negb_true_iff]. apply andb_prop in Hf as [Hf H3]. apply andb_prop in Hf as [H1%Nat.eqb_eq H2].
  split_and!; [exact H1| |exact H3|exact H4]. rewrite forallb_forall in H2. intros ar Har. specialize (H2 ar (proj1 (list_elem_of_In _ _) Har)).
  apply Z.leb_le in H2. exact H2.
Qed.

Lemma first_main (k : demo_state) v T : demo_ready k v T → pt_rel_map (processor k) = {[0 := ProcThreadRel_add_thread 0 (ProcThreadRel_new usize_max)]} →
  main_of k 0 (elf_thread 0 v).
Proof.
  intros R E. exists (ProcThreadRel_add_thread 0 (ProcThreadRel_new usize_max)), 0, []. rewrite E, (td_threads _ _ _ R), !lookup_singleton_eq. by split_and!.
Qed.

(** The child has a thread of its own and the bytes of the program. *)
Lemma thread_fork_spec_witness : ∃ c ctx T' k', fork 8 chosen = Done (1, k') ∧ procs k' !! 1 = Some c ∧
  threads_of k' !! 1 = Some (mkThread 1 (mkForeign ctx (SpaceRoot.satp_of (address_space c)))) ∧ LocalContext_a 0 ctx = Done 0 ∧
  byte_at (memory_of k') T' 0x10006 = Some 33.
Proof.
  destruct threads_ready as (v & T & R). pose proof (td_runs _ _ _ R) as Hr. destruct (td_counters _ _ _ R) as [N1 N2].
  destruct (fits_spec chosen (elf_proc 0 v) (elf_thread 0 v)) as (Hwf & Har & _); [vm_compute; reflexivity|apply Hr|rewrite (td_threads _ _ _ R); apply lookup_singleton_eq|].
  assert (answers 1 (fork 8 chosen) = true) as Hd by (vm_compute; reflexivity).
  assert (pt_rel_map (processor chosen) = {[0 := ProcThreadRel_add_thread 0 (ProcThreadRel_new usize_max)]}) as Hrel by (vm_compute; reflexivity).
  destruct (thread_fork_spec 8 chosen _ 0 0 (elf_proc 0 v) T (elf_thread 0 v) (td_inv _ _ _ R) Hr (lookup_singleton_eq _ _))
    as [[Hpn _]|(c & ctx & T' & k' & Hrun & _ & _ & Epk & Etk & _ & _ & _ & _ & Ha & _ & Eas & Hs & _)];
    [unfold counters_ok; rewrite N1, N2; split; reflexivity|exact (first_main _ _ _ R Hrel)|exact Hwf|exact Har|rewrite Hpn in Hd; discriminate Hd|].
  rewrite N1 in Hrun, Epk. rewrite N2 in Etk. exists c, ctx, T', k'. split; [exact Hrun|]. clear Hrun Hd.
  split; [by rewrite Epk, lookup_insert_eq|]. split; [by rewrite Etk, lookup_insert_eq|]. split; [exact Ha|].
  pose proof (pi_segs _ _ _ _ _ (td_program _ _ _ R)) as Hsegs. destruct (proj1 (Forall_singleton _ _) Hsegs) as [Hb _].
  destruct (Hs 0x10006) as [Hsame _].
  - exists (seg_range (Vm.mkProgramHeader true 4 3 0x10004 5000 true false true)). split; [|split; vm_compute; congruence].
    change (address_space (elf_proc 0 v)) with (Vm.address_space v). rewrite (pi_areas _ _ _ _ _ (td_program _ _ _ R)). by left.
  - unfold memory_of. rewrite Hsame. etrans; [exact (Hb 6 ltac:(split; vm_compute; congruence))|reflexivity].
Defined.

Lemma first_byte : 0 ≤ 0 < 2 * page_size.
Proof. by split. Qed.

(** [thread_create] after its search. *)
Definition create_at (fuel : nat) (entry arg vpn : Z) : st demo_state Z :=
  current ← current_proc;
  stack ← on_machine (alloc_zeroed (Z.shiftl 2 12) (Z.shiftl 1 12));
  space ← on_machine (map_extern fuel (vpn, vpn + 2) (Z.shiftr stack 12) (build_flags "U_WRV") (address_space current));
  update_current_proc (set_space space);;
  ctx ← lift (LocalContext_set_sp (vpn_base (vpn + 2)) (LocalContext_user entry));
  ctx ← lift (LocalContext_set_a 0 arg ctx);
  thread ← new_thread (Threads.satp_of space) ctx;
  on_processor (PThreadManager_add (tid thread) thread (pid current));;
  mret (as_isize (tid thread)).

Lemma create_at_eq fuel entry arg vpn (k : demo_state) t i p : runs k t i p → stack_page (address_space p) (memory_of k) = Done vpn →
  thread_create fuel entry arg k = create_at fuel entry arg vpn k.
Proof.
  intros Hr Hv. unfold thread_create, create_at. rewrite !(st_bind_run _ _ _ _ _ (current_proc_run _ _ _ _ Hr)).
  rewrite (st_bind_run get_st _ _ _ _ eq_refl). by rewrite (st_bind_run _ _ _ _ _ (lift_run _ _ _ Hv)).
Qed.

(** The search, where the highest gibibyte only has a table. *)
Lemma found_254 (m : memory) sp g : taken m sp 255 = true → taken m sp 254 = false → stack_found m sp g → g = 254.
Proof.
  intros Ht Hf (Hg & Hfree & Htop). destruct (decide (g = 255)) as [->|]; [by rewrite Ht in Hfree|]. destruct (decide (g = 254)) as [->|]; [done|].
  rewrite Htop in Hf; [done|lia].
Qed.

Lemma creates_254 entry arg (k : demo_state) TT t i p T : thread_inv k TT → runs k t i p → TT !! i = Some T →
  taken (memory_of k) (address_space p) 255 = true → taken (memory_of k) (address_space p) 254 = false →
  answers 1 (create_at 8 entry arg (stack_at 254) k) = true → thread_create 8 entry arg k ≠ Panic.
Proof.
  intros Hi Hr HT Ht Hf Hd. assert (space_inv portal (mach (world k)) (address_space p) T) as Hsp.
  { destruct Hr as (Hc & Ho & Hp). apply (runner_space k TT t i); [done|by split_and!; [..|by exists p]|done]. }
  destruct (stack_page_run (address_space p) (memory_of k) (si_aligned _ _ _ _ Hsp)) as [[_ Hall]|(g & E & Hg)].
  - by rewrite Hall in Hf.
  - rewrite (found_254 _ _ g Ht Hf Hg) in E. rewrite (create_at_eq _ _ _ _ k t i p Hr E). by intros Hp; rewrite Hp in Hd.
Qed.

(** The stack of the second thread is in the gibibyte below that of the first. *)
Lemma thread_create_spec_witness : ∃ c T' k', thread_create 8 0x10004 7 chosen = Done (1, k') ∧
  threads_of k' !! 1 = Some (mkThread 1 c) ∧ LocalContext_a 0 (f_context c) = Done 7 ∧ LocalContext_sp (f_context c) = Done ((stack_at 254 + 2) * page_size) ∧
  byte_at (memory_of k') T' (stack_at 254 * page_size) = Some 0 ∧ byte_at (memory_of k') T' 0x10006 = Some 33.
Proof.
  destruct threads_ready as (v & T & R). pose proof (td_runs _ _ _ R) as Hr. destruct (td_counters _ _ _ R) as [N1 N2].
  destruct (fits_spec chosen (elf_proc 0 v) (elf_thread 0 v)) as (_ & _ & Ht & Hf); [vm_compute; reflexivity|apply Hr|rewrite (td_threads _ _ _ R); apply lookup_singleton_eq|].
  pose proof (creates_254 0x10004 7 chosen _ 0 0 (elf_proc 0 v) T (td_inv _ _ _ R) Hr (lookup_singleton_eq _ _) Ht Hf ltac:(vm_compute; reflexivity)) as Hd.
  destruct (thread_create_spec 8 0x10004 7 chosen _ 0 0 (elf_proc 0 v) T (td_inv _ _ _ R) Hr (lookup_singleton_eq _ _))
    as [[Hpn _]|(g & c & T' & k' & Hrun & Hg & _ & _ & Hz & _ & _ & Hsame & _ & Eth & _ & Ha & Hsp & _)];
    [lia|rewrite N2; reflexivity|destruct (Hd Hpn)|].
  pose proof (found_254 _ _ g Ht Hf Hg) as ->.
  rewrite N2 in Hrun, Eth. eexists _, T', k'. split; [exact Hrun|]. clear Hrun Hd. split; [rewrite Eth; apply lookup_insert_eq|].
  split; [exact Ha|split; [apply Hsp; lia|split]].
  - specialize (Hz 0 first_byte). rewrite Z.add_0_r in Hz. exact Hz.
  - pose proof (pi_segs _ _ _ _ _ (td_program _ _ _ R)) as Hsegs. destruct (proj1 (Forall_singleton _ _) Hsegs) as [Hb _].
    rewrite Hsame; [etrans; [exact (Hb 6 ltac:(split; vm_compute; congruence))|reflexivity]|].
    exists (seg_range (Vm.mkProgramHeader true 4 3 0x10004 5000 true false true)). split; [|split; vm_compute; congruence].
    change (address_space (elf_proc 0 v)) with (Vm.address_space v). rewrite (pi_areas _ _ _ _ _ (td_program _ _ _ R)). by left.
Defined.

(** ** Two rounds *)

(** Threads that only fork. *)
Definition demo_user (c : ForeignContext) (s : machine) : ForeignContext * machine * SyncSyscalls.Trap :=
  (mkForeign ForkProps.demo_ctx (f_satp c), s, SyncSyscalls.UserEnvCall).

Lemma demo_thread_mode : thread_mode demo_user.
Proof. intros c s c' s' cause [= <- <- _]. split; [done|]. intros sp T _ _. apply own_nothing. Qed.

Definition demo_registry : Registry demo_state := registry 8 demo_parse demo_getchar.
Definition demo_turn : demo_state → outcome (bool * demo_state) := schedule demo_registry (machine_run demo_user).

(** The process of the thread that the next round chooses, its call, and the areas of the process. *)
Definition next_call (k : demo_state) : option (Z * Z * list (Z * Z)) :=
  match ask_processor PThreadManager_find_next k with
  | Done (Some t, k1) =>
      i ← tid2pid (processor k) !! t;
      match execute demo_user t k1 with
      | Done (_, k2) =>
          th ← threads_of k2 !! t;
          p ← procs k2 !! i;
          match LocalContext_a 7 (f_context (context th)) with
          | Done id => if bool_decide (tid2pid (processor k2) !! t = Some i) then Some (i, id, areas (address_space p)) else None
          | _ => None
          end
      | _ => None
      end
  | _ => None
  end.

(** A round in which a thread of process [n] forks. *)
Definition forks (n : Z) (k : demo_state) : bool :=
  match next_call k with
  | Some (i, id, l) => (i =? n) && (id =? CLONE) && forallb (fun ar => ar.2 - ar.1 <=? 8) l
  | None => false
  end && (pid_counter (world k) <? 100) && (tid_counter (world k) <? 100) &&
  match demo_turn k with
  | Done (true, k') => bool_decide (is_Some (pt_rel_map (processor k') !! 0))
  | _ => false
  end.

Lemma threads_fork n k : forks n k = true → thread_rounds demo_user 8 demo_parse demo_getchar k [n] (state_after k (demo_turn k)).
Proof.
  unfold forks. intros H. apply andb_prop in H as [H Hturn]. apply andb_prop in H as [H Ht%Z.ltb_lt]. apply andb_prop in H as [Hnext Hp%Z.ltb_lt].
  unfold next_call in Hnext. destruct (ask_processor PThreadManager_find_next k) as [[[t|] k1]| |] eqn:Hk1; [|discriminate Hnext..].
  destruct (tid2pid (processor k) !! t) as [i|] eqn:Hi; [|discriminate Hnext]. simpl in Hnext.
  destruct (execute demo_user t k1) as [[cause k2]| |] eqn:Hk2; [|discriminate Hnext..].
  destruct (threads_of k2 !! t) as [th|] eqn:Hth; [|discriminate Hnext]. simpl in Hnext.
  destruct (procs k2 !! i) as [p|] eqn:Hpi; [|discriminate Hnext]. simpl in Hnext.
  destruct (LocalContext_a 7 _) as [id| |] eqn:Hid; [|discriminate Hnext..]. case_bool_decide as Hown; [|discriminate Hnext].
  apply andb_prop in Hnext as [[Hin%Z.eqb_eq Hc%Z.eqb_eq]%andb_prop Hall]. subst i id.
  destruct (demo_turn k) as [[[] k']| |] eqn:Hd; [|discriminate Hturn..]. apply bool_decide_eq_true in Hturn.
  eapply thread_rounds_cons; [|exact Hk1|exact Hi|exact Hd|exact Hturn|apply thread_rounds_nil].
  split; [split; [apply (Z.lt_trans _ 100 _ Hp)|apply (Z.lt_trans _ 100 _ Ht)]; reflexivity|].
  intros u k3 k4 H1 H2. rewrite Hk1 in H1. injection H1 as <- <-. rewrite Hk2 in H2. injection H2 as _ <-.
  intros j q th' id args k5 (_ & Ho & Hq) Hth' ctx _ Hid' _. rewrite Hown in Ho. injection Ho as <-. rewrite Hpi in Hq. injection Hq as <-.
  rewrite Hth in Hth'. injection Hth' as <-. unfold ctx in Hid'. rewrite Hid in Hid'. injection Hid' as <-.
  split; try discriminate. intros ar _ Har. rewrite forallb_forall in Hall. specialize (Hall ar (proj1 (list_elem_of_In _ _) Har)).
  apply Z.leb_le in Hall. exact Hall.
Qed.

Definition one_fork : demo_state := state_after booted (demo_turn booted).
Definition two_forks : demo_state := state_after one_fork (demo_turn one_fork).

(** Process 0 forks, then process 1 does: process 0 and its thread are as they were before the second round. *)
Lemma thread_isolation_witness : ∃ TT p th T, thread_rounds demo_user 8 demo_parse demo_getchar one_fork [1] two_forks ∧
  thread_inv two_forks TT ∧ procs one_fork !! 0 = Some p ∧ is_Some (procs two_forks !! 0) ∧
  threads_of one_fork !! 0 = Some th ∧ threads_of two_forks !! 0 = Some th ∧
  ∀ addr, in_areas (addr / page_size) (areas (address_space p)) → byte_at (memory_of two_forks) T addr = byte_at (memory_of one_fork) T addr.
Proof.
  destruct thread_boots_here as (v & T0 & F).
  assert (thread_rounds demo_user 8 demo_parse demo_getchar booted [0] one_fork) as R1 by (apply threads_fork; vm_compute; reflexivity).
  assert (thread_rounds demo_user 8 demo_parse demo_getchar one_fork [1] two_forks) as R2 by (apply threads_fork; vm_compute; reflexivity).
  destruct (rounds_stay demo_user 8 demo_parse demo_getchar ForkProps.demo_only_reads ltac:(lia) demo_thread_mode booted [0] one_fork R1 _ (ft_inv _ _ _ _ _ F))
    as (TT1 & Hi1 & _).
  destruct (thread_isolation demo_user 8 demo_parse demo_getchar one_fork TT1 [1] two_forks ForkProps.demo_only_reads ltac:(lia) demo_thread_mode Hi1 R2)
    as (TT2 & Hi2 & _ & Hkept).
  assert (tid2pid (processor one_fork) !! 0 = Some 0) as Ho by (vm_compute; reflexivity).
  destruct (owner_proc one_fork TT1 0 0 Hi1 Ho) as (p & th & T & Hp & Hth & HT & _).
  destruct (Hkept 0 p T) as ((q & Hq & _) & _ & _ & Hb & Hthreads); [by intros [?|Hn]%elem_of_cons; [|by apply elem_of_nil in Hn]|exact Hp|exact HT|].
  exists TT2, p, th, T. split; [exact R2|split; [exact Hi2|split; [exact Hp|split; [by exists q|split; [exact Hth|split; [|exact Hb]]]]]].
  exact (proj2 (Hthreads 0 th Ho Hth)).
Defined.
End ThreadDemo.
